(* ===== verification/_CoqProject ===== *)
-Q . S2P
Prelude.v
GoStd.v
Buf.v
MultiBuf.v
NetAddr.v
AddrParser.v
BufReader.v
Codec.v
GoText.v
Sniff.v
SniffHttp.v
SniffBt.v
SniffQuic.v
SniffQuicSpec.v
SniffQuicEnds.v
Trojan.v
TrojanServer.v
Talk.v
BufWriter.v
Headers.v
Socks.v
SocksSpec.v
Auth.v
AuthSpec.v
Replay.v
Drain.v
Shadow.v
ShadowSpec.v
Uuid.v
Vless.v
VlessSpec.v
VmessAead.v
VmessAeadSpec.v
VmessUsers.v
VmessUsersSpec.v
VmessBody.v
VmessBodySpec.v
Cryption.v
Vmess.v
VmessSpec.v
Pipe.v
Lru.v
FakeDns.v
FakeDnsMulti.v
StrMatch.v
StrAC.v
StrMph.v
StrIndex.v
RouteCond.v
RouteStrategy.v
OutboundMgr.v
Router.v
Sniffer.v
Dispatcher.v
MuxFrame.v
MuxSession.v
MuxIO.v
MuxServer.v
MuxDemux.v
MuxClient.v
KcpSegment.v
KcpRecv.v
KcpConfig.v
KcpSend.v
KcpConn.v
KcpNet.v
DnsHosts.v
Dns.v
DnsSpec.v
DnsLookup.v
DnsCache.v
DnsCacheSpec.v
