(* ===== verification/Prelude.v ===== *)
(** * A verification library for the f2ray-core proxy

    f2ray-core moves connections between proxy protocols: an inbound reads a
    protocol off a socket and finds out the destination, the dispatcher sniffs
    the first bytes, asks the router for an outbound and joins the two by pipes,
    and the outbound speaks its protocol over a transport.  This library models
    the parts of the program that are its own logic and not a call into another
    library, and proves what each of them promises to the next.

    ** The parts, and the files that model them

    - Memory (common/buf, common/bytespool).  [Buf]: a buffer is an array with
      two offsets, and every method threads it; [MultiBuf]: lists of buffers
      and the merging, splitting and reading loops over them; [BufReader]:
      buffered reading over any source of buffers ([MbSource] states what a
      source promises), [Copy] and the plain chunk stream of common/crypto;
      [BufWriter]: the buffered writer over any sink.
    - Addresses (common/net, common/protocol/address.go).  [NetAddr]: addresses,
      ports, destinations and the parser of addresses; [AddrParser]: the codec
      that the mux and most proxy protocols share; [Codec]: the rules for
      reading and writing buffers that the proxies' codecs are proved with.
    - Trojan (proxy/trojan).  [Trojan]: the stream header, the packets and the
      users; [TrojanServer]: the inbound from the first read to the dispatched
      session or the fallback.
    - Handshakes.  [Talk]: programs that read and write in turn, run alone on a
      given input or against each other in rounds; [Headers]: request headers and
      users (common/protocol/headers.go, user.go).  SOCKS (proxy/socks):
      [Socks] the two handshakes and the datagrams, [SocksSpec] what they
      agree on.
    - Encrypted streams (common/crypto).  [Auth]: nonces, chunk sizes, paddings
      and the authenticating readers and writers; [AuthSpec]: what a reader
      makes of what a writer wrote.  [Replay] (common/antireplay): the filters
      of salts and nonces; [Drain] (common/drain): reading on after a probe.
    - Shadowsocks (proxy/shadowsocks).  [Shadow]: accounts, ciphers, sessions
      and datagrams; [ShadowSpec]: sessions arrive, datagrams fit, probes drain.
    - Identities (common/uuid, common/protocol/id.go).  [Uuid]: UUIDs, their text
      and the identities and hashes made of them.
    - VLESS (proxy/vless).  [Vless]: accounts, users, headers, packets and the
      admission of the inbound; [VlessSpec] what they promise.
    - VMess (proxy/vmess).  [VmessAead]: authentication IDs and sealed headers
      (package aead), [VmessAeadSpec] that an ID works once and a header opens;
      [VmessUsers]: accounts and the table of users, [VmessUsersSpec] what its
      hashes stand for whatever it goes through.  [VmessBody]: the streams of
      the bodies, [VmessBodySpec] that a body arrives; [Cryption]: a stream
      cipher in front of a reader; [Vmess]: commands, sessions and headers of
      both ends, [VmessSpec] what they promise each other.
    - Sniffing (common/protocol/tls, http, bittorrent, quic).  [Sniff],
      [SniffHttp], [SniffBt], [SniffQuic]: the sniffers; [SniffQuicSpec] what the
      QUIC one reassembles, [SniffQuicEnds] that it ends.  [GoText]: the Go
      library's texts they use.
    - Dispatcher (app/dispatcher).  [Sniffer]: the registry of sniffers and the
      FakeDNS one; [Dispatcher]: the cached reader, the sniffing loop, the
      override of the destination and the choice of the outbound.
    - Routing (app/router, features/routing).  [RouteCond]: conditions and their
      geography; [RouteStrategy]: random, least ping and least load;
      [Router]: rules, balancers and [PickRoute]; [OutboundMgr]
      (app/proxyman/outbound): the handlers by tag.
    - FakeDNS (app/dns/fakedns).  [FakeDns]: one pool of addresses over the
      cache; [FakeDnsMulti]: several.
    - DNS (app/dns).  [DnsHosts]: the static hosts; [Dns]: name servers as
      clients, their rules and the order they are asked in, [DnsSpec] what that
      order promises; [DnsLookup]: a lookup through hosts, clients and the
      FakeDNS engine; [DnsCache]: the records of the UDP server, its requests
      and its answers, [DnsCacheSpec] the log that the cache stands for.
    - Pipes (transport/pipe).  [Pipe]: the buffer between two goroutines with its
      locks, signals and selects, as threads whose steps interleave at will.
    - Caches (common/cache).  [Lru]: the cache with two maps and a list.
    - String matching (common/strmatcher), under the routing rules and the DNS
      hosts.  [StrMatch]: matchers, their groups and the linear index; [StrAC]:
      the automaton; [StrMph]: the perfect-hash group; [StrIndex]: the index
      over the last two.
    - Mux (common/mux, common/bitmask): many sessions over one connection.
      [MuxFrame]: the header of frames; [MuxSession]: the session manager, a heap
      of sessions shared with goroutines; [MuxIO]: the writer and readers of a
      session; [MuxServer]: the worker that takes frames; [MuxDemux]: the
      abstract connection it implements and the interleaving of writers;
      [MuxClient]: the client worker, its picker and its manager.
    - KCP (transport/internet/kcp): a reliable stream over datagrams.
      [KcpSegment]: segments, packets and the legacy authenticator; [KcpRecv],
      [KcpSend]: the two windows and the acknowledgement list; [KcpConfig]: the
      getters of the configuration and the round trip estimator; [KcpConn]: the
      connection; [KcpNet]: two connections and a network that loses,
      duplicates, delays and reorders.
    - [GoStd] states what the code relies on of the Go library - readers, writers
      and their contract as type classes, strings, [net.ParseIP] - and [Prelude]
      holds machine integers, bytes, the result monad and shared lemmas.

    A struct is a record with the fields of the source, a method a function that
    threads it, under the name of the source where that is free (the map of the
    manifest gives file and lines).  Pointers that are shared are indices into a
    heap ([MuxSession], [MuxClient], [Lru], [StrAC]); methods under a lock are one
    step.  Fallible code returns [res]: a value, an error, or [Panic], the
    run-time panic of an index, a slice or a nil pointer.  Integers are [Z] with
    the wrap of their width written out ([u16], [u32], ...).  What is not in the
    repository is a parameter: hashes and ciphers, the QUIC integers, Unicode
    tables, regular expressions, AEADs and key derivations, cuckoo and Bloom
    filters, the protocol buffer of the VLESS addons, the answers of name servers and the parser of DNS messages, the
    clock, random numbers, what a recycled array holds, the observer of
    outbounds.

    ** What the theorems show

    - Round trips: what the address codec, the mux header, the KCP segments, the
      authenticator and the Trojan writers write is read back, from any
      fragmentation of the input.  Where an address is involved it is one that
      survives the wire ([AddrParser.serializable]): an IP address, or a domain
      that the reader accepts and does not take for an IP address.
    - Safety: the parsers do not panic on any input, and none reads past what
      belongs to it; for the QUIC sniffer and the legacy chunks of VMess, which
      can panic, a theorem gives the input.
    - Refinement and equivalence: containers are byte queues, the LRU cache is the
      textbook one, the mux workers implement an abstract connection, every
      index of string matchers answers as asking each matcher in turn does, the
      clearing loop of the acknowledgement list is a filter, the Trojan users are
      a map.
    - Routing: the first rule whose conditions hold decides, a domain is resolved
      at most once, a balancer picks a tag it was given.
    - Sniffing: the TLS and HTTP sniffers find the host that is there, the QUIC one
      puts together what arrived out of order; the dispatcher hands on every byte
      it looked at, in bounded time, and sends a TLS connection where its host says.
    - FakeDNS: an address stands for the domain it was given to last, and pools
      never share one.
    - Trojan: who knows a password is admitted and its session carries what was
      sent; everyone else is served by the fallback that its path and host select.
    - SOCKS: the two handshakes finish together with the same request, and over
      TCP nobody passes one that asks for a password without it.
    - Encrypted streams: what is written arrives in order, no nonce is used
      twice, a replayed salt is rejected; a Shadowsocks session arrives, a
      datagram fits or breaks in the one way stated, a probe is drained.  A
      buffered writer passes on what it was given and nothing else.
    - Identities: only the ID of a user is let in over VLESS, its request arrives,
      and a fallback is given every byte; an authentication ID of VMess is its
      user's in whatever order the map is walked and is taken once within the
      interval of the filter, and the legacy table names the right user and second.
    - VMess: requests, responses and commands arrive, both ends then hold the same
      keys and their bodies are in step; nobody else is let in, and no session
      twice within three minutes.
    - DNS: the clients are asked in the order their rules give, a lookup returns
      the answer of the first that has one, the cache of the UDP server is the
      newest answer of its log and holds answers only to questions asked.
    - Concurrency: the pipe is a bounded first-in-first-out queue and never loses
      a wake-up under every interleaving; the session manager keeps its
      invariant under every history.
    - End to end: mux sessions come apart again whatever the interleaving of
      their frames; KCP delivers a prefix of what was sent, loses nothing of what
      it still owes, and a closed connection that hears
      nothing more ends in bounded time.

    Where a definition has fuel, a theorem shows a bound that is enough and that
    the result does not depend on it: readers use the bytes left ([ReadFrom],
    [Copy]), searches the length of what they scan ([StrMatch], [StrAC]), the seed
    search of [StrMph] the number of seeds its hypothesis on the hash names, the
    mux loops the bytes of the link, the sniffers the bytes of the packet
    ([SniffQuicEnds]), the search for a free FakeDNS address one more than the
    pairs the cache holds, and the sniffing loop of [Dispatcher] the events
    that reach it; the rounds of the FakeDNS engine in [Dns] are a parameter that no
    theorem of it restricts.  Where the code itself does not end
    ([StrMatch.occurrences] on an empty keyword, [Dispatcher] on a closed pipe) a lemma says so.

    ** What is not modelled

    Sockets, files, TLS, HTTP, QUIC and the ciphers are libraries; generated
    protocol buffers, configuration loading (with it the geography files of
    simplified router configurations), the command line, gRPC services and
    the goroutines that only copy between them (those of the proxies' inbounds
    and outbounds) carry little logic of their own.  Logging is left out
    everywhere.  DNS over HTTPS, TCP and QUIC differ from the UDP server in
    their transport and are left out with it.  Left for later:
    Vision and encryption under vless; the links and counters of the dispatcher; the KCP listener;
    reverse proxying over mux. *)
From stdpp Require Export base gmap sets list strings sorting.
From Stdlib Require Export ZArith Lia ZifyBool Strings.Byte.

#[export] Set Default Goal Selector "!".
#[global] Open Scope Z_scope.

(** ** Machine integers

    A Go integer of a fixed width is a [Z] in its range; every operation that
    can leave the range is followed by the wrap of its type. *)
Definition u8 (z : Z) : Z := z mod 2 ^ 8.
Definition u16 (z : Z) : Z := z mod 2 ^ 16.
Definition u32 (z : Z) : Z := z mod 2 ^ 32.
Definition i32 (z : Z) : Z := (z + 2 ^ 31) mod 2 ^ 32 - 2 ^ 31.

Abbreviation is_u8 z := (0 <= z < 2 ^ 8).
Abbreviation is_u16 z := (0 <= z < 2 ^ 16).
Abbreviation is_u32 z := (0 <= z < 2 ^ 32).
Abbreviation is_i32 z := (- 2 ^ 31 <= z < 2 ^ 31).

(** ** Bytes and byte strings *)
Abbreviation byte := Init.Byte.byte.
Abbreviation bytes := (list byte).

Definition b2z (b : byte) : Z := Z.of_N (Byte.to_N b).
Definition z2b (z : Z) : byte :=
  match Byte.of_N (Z.to_N (u8 z)) with Some b => b | None => x00 end.

#[export] Instance byte_eq_dec : EqDecision byte := Byte.byte_eq_dec.
#[export] Instance byte_countable : Countable byte :=
  inj_countable Byte.to_N Byte.of_N Byte.of_to_N.
#[export] Instance byte_inhabited : Inhabited byte := populate x00.

(** A Go string literal as its bytes. *)
Definition lit (s : string) : bytes := String.list_byte_of_string s.

(** The length of a Go slice or string, as the [int] the source computes with. *)
Definition zlen {A} (l : list A) : Z := Z.of_nat (length l).

(** Big-endian integers of [n] bytes ([binary.BigEndian]). *)
Fixpoint put_be (n : nat) (v : Z) : bytes :=
  match n with
  | O => []
  | S k => z2b (v / 256 ^ Z.of_nat k) :: put_be k v
  end.

Definition get_be (bs : bytes) : Z :=
  fold_left (fun acc b => acc * 256 + b2z b) bs 0.

(** Go slicing [l[lo:hi]]: [None] is the run-time panic.  Slices of the model
    have no spare capacity. *)
Definition slice {A} (l : list A) (lo hi : Z) : option (list A) :=
  if (0 <=? lo) && (lo <=? hi) && (hi <=? zlen l)
  then Some (take (Z.to_nat (hi - lo)) (drop (Z.to_nat lo) l)) else None.

(** Go indexing [l[i]]: [None] is the run-time panic. *)
Definition index {A} (l : list A) (i : Z) : option A :=
  if 0 <=? i then l !! Z.to_nat i else None.

(** [copy(dst[off:], src)] on the array [dst]: the new array and the count. *)
Definition copy_at {A} (dst : list A) (off : nat) (src : list A) : list A * nat :=
  let n := Nat.min (length dst - off) (length src) in
  (take off dst ++ take n src ++ drop (off + n) dst, n).

(** ** Errors and results *)

(** The error values the source tells apart; [NewError] is [newError] and
    [errors.New] with the leading part of its message, [Based] is
    [newError(msg).Base(inner)]. *)
Inductive error :=
  | EOF
  | ErrUnexpectedEOF
  | ErrClosedPipe
  | NewError (msg : string)
  | Based (msg : string) (inner : error).

#[export] Instance error_eq_dec : EqDecision error.
Proof. solve_decision. Defined.

(** What a Go call ends with: a value, an error or a run-time panic. *)
Inductive res (A : Type) :=
  | Ok (a : A)
  | Err (e : error)
  | Panic.
Arguments Ok {A} a.
Arguments Err {A} e.
Arguments Panic {A}.

#[export] Instance res_eq_dec {A} `{EqDecision A} : EqDecision (res A).
Proof. solve_decision. Defined.

#[export] Instance res_ret : MRet res := @Ok.
#[export] Instance res_bind : MBind res := fun A B f m =>
  match m with Ok a => f a | Err e => Err e | Panic => Panic end.
#[export] Instance res_fmap : FMap res := fun A B f m =>
  match m with Ok a => Ok (f a) | Err e => Err e | Panic => Panic end.

(** An operation the run time checks: [None] is its panic. *)
Definition or_panic {A} (o : option A) : res A :=
  match o with Some a => Ok a | None => Panic end.

(** Effects on a state that survive an error: explicit state passing. *)
Definition ST (S A : Type) : Type := S -> S * res A.
#[export] Instance st_ret {S} : MRet (ST S) := fun A a s => (s, Ok a).
#[export] Instance st_bind {S} : MBind (ST S) := fun A B f m s =>
  match m s with
  | (s', Ok a) => f a s'
  | (s', Err e) => (s', Err e)
  | (s', Panic) => (s', Panic)
  end.

Definition st_err {S A} (e : error) : ST S A := fun s => (s, Err e).
Definition st_panic {S A} : ST S A := fun s => (s, Panic).
Definition st_lift {S A} (r : res A) : ST S A := fun s => (s, r).

(** [newError(msg).Base(err)] around a failing call. *)
Definition st_base {S A} (msg : string) (m : ST S A) : ST S A := fun s =>
  match m s with
  | (s', Err e) => (s', Err (Based msg e))
  | r => r
  end.

(** ** Filtered and mapped lists *)
Lemma filter_all {A} (P : A -> Prop) `{!forall x, Decision (P x)} l : Forall P l -> filter P l = l.
Proof. induction 1 as [|x l Hx Hl IH]; [done|]. rewrite filter_cons_True by done. by rewrite IH. Qed.

Lemma filter_none {A} (P : A -> Prop) `{!forall x, Decision (P x)} l :
  Forall (fun x => ~ P x) l -> filter P l = [].
Proof. induction 1 as [|x l Hx Hl IH]; [done|]. by rewrite filter_cons_False by done. Qed.

Lemma omap_ext_in {A B} (f g : A -> option B) (o : list A) : (forall e, e ∈ o -> f e = g e) -> omap f o = omap g o.
Proof.
  induction o as [|x o IH]; intros Hfg; [done|]. cbn [omap list_omap]. rewrite (Hfg x) by by left.
  rewrite IH; [done|]. intros e He. apply Hfg. by right.
Qed.

(** ** Lemmas on integers and bytes *)
Lemma u8_small z : is_u8 z -> u8 z = z.
Proof. intros; apply Z.mod_small; lia. Qed.
Lemma u16_small z : is_u16 z -> u16 z = z.
Proof. intros; apply Z.mod_small; lia. Qed.
Lemma u32_small z : is_u32 z -> u32 z = z.
Proof. intros; apply Z.mod_small; lia. Qed.
Lemma i32_small z : is_i32 z -> i32 z = z.
Proof. intros; unfold i32; rewrite Z.mod_small; lia. Qed.

Lemma u8_range z : is_u8 (u8 z).
Proof. apply Z.mod_pos_bound; lia. Qed.
Lemma u16_range z : is_u16 (u16 z).
Proof. apply Z.mod_pos_bound; lia. Qed.
Lemma u32_range z : is_u32 (u32 z).
Proof. apply Z.mod_pos_bound; lia. Qed.

Lemma b2z_range b : is_u8 (b2z b).
Proof.
  unfold b2z. pose proof (Byte.to_N_bounded b). change (2 ^ 8) with 256. lia.
Qed.

Lemma z2b_b2z b : z2b (b2z b) = b.
Proof.
  unfold z2b. rewrite u8_small by apply b2z_range.
  unfold b2z. by rewrite N2Z.id, Byte.of_to_N.
Qed.

Lemma b2z_z2b z : b2z (z2b z) = u8 z.
Proof.
  unfold z2b. pose proof (u8_range z) as Hr.
  destruct (Byte.of_N (Z.to_N (u8 z))) as [b|] eqn:E.
  - apply Byte.to_of_N in E. unfold b2z. rewrite E. lia.
  - apply Byte.of_N_None_iff in E. lia.
Qed.

Lemma b2z_inj a b : b2z a = b2z b -> a = b.
Proof. intros H. rewrite <- (z2b_b2z a), <- (z2b_b2z b). by rewrite H. Qed.

Lemma z2b_small z : is_u8 z -> b2z (z2b z) = z.
Proof. intros. rewrite b2z_z2b. by apply u8_small. Qed.

Lemma zlen_nonneg {A} (l : list A) : 0 <= zlen l.
Proof. unfold zlen. lia. Qed.
Lemma zlen_app {A} (l k : list A) : zlen (l ++ k) = zlen l + zlen k.
Proof. unfold zlen. rewrite length_app. lia. Qed.
Lemma zlen_cons {A} (x : A) l : zlen (x :: l) = 1 + zlen l.
Proof. unfold zlen. simpl. lia. Qed.
Lemma zlen_nil {A} : zlen (@nil A) = 0.
Proof. done. Qed.

Lemma length_put_be n v : length (put_be n v) = n.
Proof. induction n; simpl; auto. Qed.
Lemma zlen_put_be n v : zlen (put_be n v) = Z.of_nat n.
Proof. unfold zlen. by rewrite length_put_be. Qed.

Lemma get_be_acc b z :
  fold_left (fun acc x => acc * 256 + b2z x) b z = z * 256 ^ zlen b + get_be b.
Proof.
  unfold get_be. revert z. induction b as [|x b IH]; intros z; [simpl; unfold zlen; simpl; lia|].
  cbn [fold_left]. rewrite IH, (IH (0 * 256 + b2z x)), zlen_cons, Z.pow_add_r; [lia|lia|apply zlen_nonneg].
Qed.

Lemma get_be_app a b :
  get_be (a ++ b) = get_be a * 256 ^ zlen b + get_be b.
Proof. unfold get_be at 1. rewrite fold_left_app. apply get_be_acc. Qed.

Lemma get_be_cons x b : get_be (x :: b) = b2z x * 256 ^ zlen b + get_be b.
Proof.
  change (x :: b) with ([x] ++ b). rewrite get_be_app.
  change (get_be [x]) with (0 * 256 + b2z x). lia.
Qed.

Lemma get_be_range b : 0 <= get_be b < 256 ^ zlen b.
Proof.
  induction b as [|x b IH]; [unfold get_be, zlen; simpl; lia|].
  rewrite get_be_cons, zlen_cons, Z.pow_add_r; [|lia|apply zlen_nonneg].
  pose proof (b2z_range x). change (2 ^ 8) with 256 in *. nia.
Qed.

Lemma get_put_be n v : get_be (put_be n v) = v mod 256 ^ Z.of_nat n.
Proof.
  revert v. induction n as [|n IH]; intros v.
  - change (256 ^ Z.of_nat 0) with 1. by rewrite Z.mod_1_r.
  - change (put_be (S n) v) with (z2b (v / 256 ^ Z.of_nat n) :: put_be n v).
    rewrite get_be_cons, zlen_put_be, IH, b2z_z2b. unfold u8.
    replace (256 ^ Z.of_nat (S n)) with (256 ^ Z.of_nat n * 2 ^ 8)
      by (rewrite Nat2Z.inj_succ, Z.pow_succ_r by lia; change (2 ^ 8) with 256; lia).
    rewrite Z.rem_mul_r by (try apply Z.pow_nonzero; lia). lia.
Qed.

Lemma put_be_mod n m v :
  (n <= m)%nat -> put_be n (v mod 256 ^ Z.of_nat m) = put_be n v.
Proof.
  induction n as [|n IH]; intros Hn; [done|]. simpl. rewrite IH by lia. f_equal.
  apply b2z_inj. rewrite !b2z_z2b. unfold u8.
  replace (Z.of_nat m) with (Z.of_nat n + (1 + Z.of_nat (m - n - 1))) by lia.
  rewrite Z.pow_add_r by lia.
  assert (0 < 256 ^ Z.of_nat n) by (apply Z.pow_pos_nonneg; lia).
  assert (0 < 256 ^ (1 + Z.of_nat (m - n - 1))) by (apply Z.pow_pos_nonneg; lia).
  rewrite (Z.mul_comm (256 ^ Z.of_nat n)).
  rewrite (Z.mul_comm (256 ^ _)), Z.rem_mul_r, Z.add_comm, Z.mul_comm, Z.div_add_l by lia.
  rewrite (Z.div_small (v mod _)) by (apply Z.mod_pos_bound; lia).
  rewrite Z.add_0_r, Z.pow_add_r by lia. change (256 ^ 1) with (2 ^ 8).
  rewrite Z.rem_mul_r by (try apply Z.pow_nonzero; lia).
  rewrite Z.mul_comm, Z.mod_add by lia. by rewrite Z.mod_mod.
Qed.

Lemma put_get_be bs : put_be (length bs) (get_be bs) = bs.
Proof.
  induction bs as [|x bs IH]; [done|]. cbn [length put_be].
  pose proof (get_be_range bs) as Hr. fold (zlen bs).
  assert (0 < 256 ^ zlen bs) by (apply Z.pow_pos_nonneg; [lia|apply zlen_nonneg]).
  rewrite get_be_cons. f_equal.
  - rewrite Z.div_add_l, Z.div_small by lia. rewrite Z.add_0_r. apply z2b_b2z.
  - rewrite <- (put_be_mod _ (length bs)) by lia. fold (zlen bs).
    rewrite (Z.add_comm (b2z x * _)), Z.mod_add by lia.
    unfold zlen. rewrite put_be_mod by lia. apply IH.
Qed.

Lemma put_be_inj n v w :
  0 <= v < 256 ^ Z.of_nat n -> 0 <= w < 256 ^ Z.of_nat n ->
  put_be n v = put_be n w -> v = w.
Proof.
  intros Hv Hw H. apply (f_equal get_be) in H. rewrite !get_put_be in H.
  rewrite !Z.mod_small in H by lia. done.
Qed.

(** ** Lemmas on the state monad *)
Lemma st_lift_bind {S A B} (a : A) (f : A -> ST S B) : (st_lift (Ok a) ≫= f) = f a.
Proof. reflexivity. Qed.
Lemma st_ret_bind {S A B} (a : A) (f : A -> ST S B) : ((mret a : ST S A) ≫= f) = f a.
Proof. reflexivity. Qed.

(** ** Lemmas on slices *)
Lemma slice_Some {A} (l : list A) lo hi :
  0 <= lo -> lo <= hi -> hi <= zlen l ->
  slice l lo hi = Some (take (Z.to_nat (hi - lo)) (drop (Z.to_nat lo) l)).
Proof. intros. unfold slice. by replace (_ && _) with true by lia. Qed.

Lemma slice_is_Some {A} (l k : list A) lo hi :
  slice l lo hi = Some k ->
  0 <= lo <= hi /\ hi <= zlen l /\ k = take (Z.to_nat (hi - lo)) (drop (Z.to_nat lo) l).
Proof.
  unfold slice. destruct (_ && _) eqn:E; [|done]. intros [= <-]. split; [lia|]. split; [lia|done].
Qed.

Lemma index_Some {A} (l : list A) i x :
  index l i = Some x <-> 0 <= i /\ l !! Z.to_nat i = Some x.
Proof. unfold index. destruct (0 <=? i) eqn:E; split; intros; try lia; naive_solver lia. Qed.

Lemma copy_at_length {A} (dst : list A) off src :
  (off <= length dst)%nat -> length (copy_at dst off src).1 = length dst.
Proof.
  intros. unfold copy_at; simpl. rewrite !length_app, !length_take, length_drop. lia.
Qed.

Lemma take_prefix {A} (l : list A) n m :
  (n <= m)%nat -> take n l `prefix_of` take m l.
Proof.
  intros. replace (take n l) with (take n (take m l)) by (rewrite take_take; f_equal; lia).
  apply prefix_take.
Qed.

(** ** Automation *)
Create HintDb go.
Create Rewrite HintDb go_len.
#[export] Hint Resolve zlen_nonneg b2z_range u8_range u16_range u32_range : go.
#[export] Hint Rewrite @zlen_app @zlen_cons @zlen_nil @zlen_put_be @length_put_be
  @length_app @length_take @length_drop @length_replicate @length_map : go_len.

(** Arithmetic on lengths: unfold [zlen], push lengths inwards and call [lia]. *)
Ltac len := unfold zlen in *; autorewrite with go_len in *; simpl length in *; lia.

(** Split on the Boolean test of the goal, keeping its value. *)
Ltac tests :=
  repeat match goal with
  | |- context [if ?b then _ else _] => destruct b eqn:?
  end.

(** Invert the results of the monads in the hypotheses. *)
Ltac inv_res :=
  repeat match goal with
  | H : Ok _ = Ok _ |- _ => injection H as H
  | H : Err _ = Err _ |- _ => injection H as H
  | H : Some _ = Some _ |- _ => injection H as H
  | H : (_, _) = (_, _) |- _ => injection H as H
  | H : Ok _ = Err _ |- _ => discriminate H
  | H : Err _ = Ok _ |- _ => discriminate H
  | H : Ok _ = Panic |- _ => discriminate H
  | H : Panic = Ok _ |- _ => discriminate H
  | H : Err _ = Panic |- _ => discriminate H
  | H : Panic = Err _ |- _ => discriminate H
  | H : None = Some _ |- _ => discriminate H
  | H : Some _ = None |- _ => discriminate H
  end.
