(* ===== verification/GoStd.v ===== *)
(** * The Go standard library, as far as the modelled code uses it

    [io.Reader], [io.ReadFull] and [io.Writer] as interfaces (type classes with
    the contract of package [io] as laws), an instance of each for a network
    connection, [strings.TrimSpace], [strings.HasSuffix] and friends, and
    [net.ParseIP].  Nothing of this file maps to a line of the repository. *)
From S2P Require Import Prelude.

(** ** io.Reader *)

(** [rd r n] is one call of [Read] with a slice of [n] bytes: the reader after
    it, the bytes read and the error.  [rd_content] and [rd_end] name what the
    reader still holds and the error it reports once that is used up; the laws
    are the contract of [io.Reader], with progress whenever room is offered. *)
Class Reader (R : Type) := {
  rd : R -> nat -> R * (bytes * option error);
  rd_content : R -> bytes;
  rd_end : R -> error;
  rd_wf : R -> Prop;
  rd_law r n r' bs e :
    rd_wf r -> rd r n = (r', (bs, e)) ->
    rd_wf r' /\ (length bs <= n)%nat /\ rd_content r = bs ++ rd_content r' /\
    rd_end r' = rd_end r;
  rd_progress r n r' bs e :
    rd_wf r -> rd r n = (r', (bs, e)) ->
    match e with
    | None => (0 < n)%nat -> bs <> []
    | Some err => rd_content r' = [] /\ err = rd_end r
    end;
}.

Section ReadFull.
Context {R : Type} `{Reader R}.

(** [io.ReadFull(r, buf)] with [len(buf) = n]: reads until [n] bytes have come
    or an error; the fuel is the number of calls, at most one per byte. *)
Fixpoint ReadAtLeast (fuel : nat) (r : R) (n : nat) (acc : bytes)
    : R * (bytes * option error) :=
  if (n <=? length acc)%nat then (r, (acc, None)) else
  match fuel with
  | O => (r, (acc, Some (NewError "no progress")))
  | S fuel' =>
    match rd r (n - length acc) with
    | (r', (bs, None)) => ReadAtLeast fuel' r' n (acc ++ bs)
    | (r', (bs, Some e)) =>
      let acc' := acc ++ bs in
      (r', (acc',
        if (n <=? length acc')%nat then None
        else if decide (acc' <> [] /\ e = EOF) then Some ErrUnexpectedEOF
        else Some e))
    end
  end.

Definition ReadFull (r : R) (n : nat) : R * (bytes * option error) :=
  ReadAtLeast n r n [].
End ReadFull.

(** A network connection as a reader: the chunks that arrive, in any
    fragmentation, and the error after the last of them. *)
Record conn := { chunks : list bytes; conn_end : error }.

Fixpoint conn_read (cs : list bytes) (n : nat) : list bytes * option bytes :=
  match cs with
  | [] => ([], None)
  | [] :: cs' => conn_read cs' n
  | c :: cs' => (drop n c :: cs', Some (take n c))
  end.

Definition conn_rd (r : conn) (n : nat) : conn * (bytes * option error) :=
  match conn_read (chunks r) n with
  | (cs, Some bs) => ({| chunks := cs; conn_end := conn_end r |}, (bs, None))
  | (cs, None) => ({| chunks := cs; conn_end := conn_end r |}, ([], Some (conn_end r)))
  end.

(** [bytes.NewReader(b)], [strings.NewReader(s)] and a connection that delivers
    [b] at once. *)
Definition conn_of (b : bytes) : conn := {| chunks := [b]; conn_end := EOF |}.

(** ** io.Writer *)

(** [wr p] is one call of [Write] on the writer: its count, or the error. *)
Class Writer (W : Type) := wr : bytes -> ST W Z.

(** A network connection as a writer: what each call sent, and the error the
    next calls return. *)
Record sink := { sent : list bytes; broken : option error }.

#[export] Instance sink_writer : Writer sink := fun p w =>
  match broken w with
  | None => ({| sent := sent w ++ [p]; broken := None |}, Ok (zlen p))
  | Some e => (w, Err e)
  end.

Definition sink_empty : sink := {| sent := []; broken := None |}.

(** What a writer promises its clients: [wr_fits w n] when [n] more bytes can be
    written without an error, and [wr_after w d w'] when [w'] is [w] with [d]
    written behind. *)
Class WriterSpec (W : Type) `{Writer W} := {
  wr_fits : W -> Z -> Prop;
  wr_after : W -> bytes -> W -> Prop;
  wr_after_nil w : wr_fits w 0 -> wr_after w [] w;
  wr_after_app w d1 w1 d2 w2 :
    wr_after w d1 w1 -> wr_after w1 d2 w2 -> wr_after w (d1 ++ d2) w2;
  wr_spec w d k :
    0 <= k -> wr_fits w (zlen d + k) ->
    exists w', wr d w = (w', Ok (zlen d)) /\ wr_after w d w' /\ wr_fits w' k;
  wr_fits_mono w n m : 0 <= m <= n -> wr_fits w n -> wr_fits w m;
}.

(** The computation [m] succeeds with [a] having written exactly [d]. *)
Definition writes {W A} `{WriterSpec W} (m : ST W A) (d : bytes) (a : A) : Prop :=
  forall w k, 0 <= k -> wr_fits w (zlen d + k) ->
  exists w', m w = (w', Ok a) /\ wr_after w d w' /\ wr_fits w' k.

(** ** Package encoding/binary and slices *)

(** [binary.BigEndian.Uint16(b)], [Uint32(b)]: the run time checks the length. *)
Definition Uint16 (b : bytes) : res Z := x ← or_panic (slice b 0 2); Ok (get_be x).
Definition Uint32 (b : bytes) : res Z := x ← or_panic (slice b 0 4); Ok (get_be x).

(** [b[n:]] *)
Definition from {A} (b : list A) (n : Z) : res (list A) := or_panic (slice b n (zlen b)).

(** [copy(b[off:], d)] and [binary.BigEndian.PutUintN(b[off:], x)] where [d] must
    fit. *)
Definition put_at (b : bytes) (off : Z) (d : bytes) : res bytes :=
  if (0 <=? off) && (off + zlen d <=? zlen b)
  then Ok (take (Z.to_nat off) b ++ d ++ drop (Z.to_nat (off + zlen d)) b) else Panic.

(** ** Byte tests and package strings *)
Definition chr (a : Ascii.ascii) : Z := Z.of_N (Ascii.N_of_ascii a).
Definition between (lo hi c : Z) : bool := (lo <=? c) && (c <=? hi).

Definition HasPrefix (s p : bytes) : bool := bool_decide (take (length p) s = p).
Definition HasSuffix (s p : bytes) : bool :=
  (length p <=? length s)%nat && bool_decide (drop (length s - length p) s = p).

(** [strings.Contains] *)
Fixpoint Contains (s p : bytes) : bool :=
  HasPrefix s p || match s with [] => false | _ :: s' => Contains s' p end.

(** [strings.ToLower] on ASCII. *)
Definition to_lower (b : byte) : byte :=
  if between 65 90 (b2z b) then z2b (b2z b + 32) else b.
Definition ToLower (s : bytes) : bytes := map to_lower s.

(** The UTF-8 encodings of the runes [unicode.IsSpace] holds of. *)
Definition spaces : list bytes :=
  map (map z2b)
  ([[9]; [10]; [11]; [12]; [13]; [32]; [194; 133]; [194; 160]; [225; 154; 128]] ++
   map (fun k => [226; 128; k]) [128; 129; 130; 131; 132; 133; 134; 135; 136; 137; 138; 168; 169; 175] ++
   [[226; 129; 159]; [227; 128; 128]]).

Fixpoint TrimLeftSpace (fuel : nat) (s : bytes) : bytes :=
  match fuel with
  | O => s
  | S f => match list_find (fun p => HasPrefix s p = true) spaces with
           | Some (_, p) => TrimLeftSpace f (drop (length p) s)
           | None => s
           end
  end.

Fixpoint TrimRightSpace (fuel : nat) (s : bytes) : bytes :=
  match fuel with
  | O => s
  | S f => match list_find (fun p => HasSuffix s p = true) spaces with
           | Some (_, p) => TrimRightSpace f (take (length s - length p) s)
           | None => s
           end
  end.

(** [strings.TrimSpace]: every step drops at least a byte. *)
Definition TrimSpace (s : bytes) : bytes :=
  let t := TrimLeftSpace (length s) s in TrimRightSpace (length t) t.

(** ** net.ParseIP *)

(** [parseIPv4Fields] of net/netip: [val], [digLen] and the fields so far; [prev]
    is the byte before, if any. *)
Fixpoint parseIPv4Fields (s : bytes) (prev : option Z) (val : Z) (digLen : nat)
    (fields : bytes) : option bytes :=
  match s with
  | [] => if (length fields <? 3)%nat then None else Some (fields ++ [z2b val])
  | b :: s' =>
    let c := b2z b in
    if between 48 57 c then
      if (digLen =? 1)%nat && (val =? 0) then None else
      let v := val * 10 + c - 48 in
      if 255 <? v then None else parseIPv4Fields s' (Some c) v (S digLen) fields
    else if c =? 46 then
      if bool_decide (prev = None) || bool_decide (s' = []) || bool_decide (prev = Some 46)
      then None
      else if (length fields =? 3)%nat then None
      else parseIPv4Fields s' (Some c) 0 0 (fields ++ [z2b val])
    else None
  end.

Definition hex_digit (c : Z) : option Z :=
  if between 48 57 c then Some (c - 48)
  else if between 97 102 c then Some (c - 97 + 10)
  else if between 65 70 c then Some (c - 65 + 10) else None.

(** One group of hexadecimal digits: its value, its length and the rest; [None]
    when it has more than four digits. *)
Fixpoint hex_group (s : bytes) (off : nat) (acc : Z) : option (Z * nat * bytes) :=
  match s with
  | [] => Some (acc, off, [])
  | b :: s' =>
    match hex_digit (b2z b) with
    | None => Some (acc, off, s)
    | Some d => if (3 <? off)%nat then None else hex_group s' (S off) (acc * 16 + d)
    end
  end.

(** The loop of [parseIPv6]: the bytes so far, where the ellipsis stands, the
    rest of the string; the result is the bytes, the ellipsis and the unused
    rest. *)
Fixpoint parseIPv6Loop (fuel : nat) (s : bytes) (ip : bytes) (ellipsis : option nat)
    : option (bytes * option nat * bytes) :=
  match fuel with
  | O => Some (ip, ellipsis, s)
  | S f =>
    match hex_group s 0 0 with
    | None => None
    | Some (acc, off, rest) =>
      if (off =? 0)%nat then None else
      match rest with
      | [] => Some (ip ++ put_be 2 acc, ellipsis, [])
      | r0 :: rest' =>
        if b2z r0 =? 46 then
          if bool_decide (ellipsis = None) && negb (length ip =? 12)%nat then None
          else if (16 <? length ip + 4)%nat then None
          else match parseIPv4Fields s None 0 0 [] with
               | None => None
               | Some f4 => Some (ip ++ f4, ellipsis, [])
               end
        else if negb (b2z r0 =? 58) then None
        else match rest' with
             | [] => None
             | r1 :: rest'' =>
               let ip' := ip ++ put_be 2 acc in
               if b2z r1 =? 58 then
                 if bool_decide (ellipsis <> None) then None
                 else if bool_decide (rest'' = []) then Some (ip', Some (length ip'), [])
                 else parseIPv6Loop f rest'' ip' (Some (length ip'))
               else parseIPv6Loop f rest' ip' ellipsis
             end
      end
    end
  end.

Definition parseIPv6 (s : bytes) : option bytes :=
  let '(s, ellipsis) :=
    if HasPrefix s (lit "::") then (drop 2 s, Some 0%nat) else (s, None) in
  if bool_decide (ellipsis = Some 0%nat) && bool_decide (s = []) then Some (replicate 16 x00) else
  match parseIPv6Loop 8 s [] ellipsis with
  | None => None
  | Some (ip, ellipsis, rest) =>
    if bool_decide (rest <> []) then None
    else if (length ip <? 16)%nat then
      match ellipsis with
      | None => None
      | Some e => Some (take e ip ++ replicate (16 - length ip) x00 ++ drop e ip)
      end
    else match ellipsis with Some _ => None | None => Some ip end
  end.

(** [net.ParseIP]: the 16-byte form of the address, [None] for [nil].  A zone
    ('%') is never accepted. *)
Definition ParseIP (s : bytes) : option bytes :=
  if bool_decide (z2b 37 ∈ s) then None else
  match list_find (fun b => b2z b = 46 \/ b2z b = 58) s with
  | None => None
  | Some (_, b) =>
    if b2z b =? 46 then
      (fun f4 => replicate 10 x00 ++ [xff; xff] ++ f4) <$> parseIPv4Fields s None 0 0 []
    else parseIPv6 s
  end.

(** [ip.To4()]: the four bytes of an IPv4 address, [None] for [nil]. *)
Definition v4InV6Prefix : bytes := replicate 10 x00 ++ [xff; xff].
Definition To4 (ip : bytes) : option bytes :=
  if bool_decide (length ip = 4%nat) then Some ip
  else if bool_decide (length ip = 16%nat) && bool_decide (take 12 ip = v4InV6Prefix)
  then Some (drop 12 ip) else None.

(** [net.IPNet] with a mask of [ones] leading ones in [bits] bits. *)
Record IPNet := mkIPNet { net_IP : bytes; net_ones : Z; net_bits : Z }.

(** The leading number of a string, as package net reads it: [dtoi]. *)
Fixpoint dtoi (s : bytes) (n : Z) : option Z :=
  match s with
  | [] => Some n
  | c :: s' =>
    if between 48 57 (b2z c) then
      let n := n * 10 + (b2z c - 48) in
      if 16777215 <=? n then None else dtoi s' n
    else None
  end.

(** [net.ParseCIDR(s)]: the address in its 16-byte form and its network. *)
Definition ParseCIDR (s : bytes) : option (bytes * IPNet) :=
  match list_find (fun b => b2z b = 47) s with
  | None => None
  | Some (i, _) =>
    let addr := take i s in
    let mask := drop (S i) s in
    let bits := if bool_decide (z2b 58 ∈ addr) then 128 else 32 in
    ip ← ParseIP addr;
    n ← (if bool_decide (mask = []) then None else dtoi mask 0);
    if bits <? n then None else
    let ip' := if bits =? 32 then drop 12 ip else ip in
    let masked := Z.shiftl (Z.shiftr (get_be ip') (bits - n)) (bits - n) in
    Some (ip, {| net_IP := put_be (length ip') masked; net_ones := n; net_bits := bits |})
  end.

(** [networkNumberAndMask]: the address in its shortest form and the leading ones
    of its mask; [None] is two [nil]s. *)
Definition networkNumber (n : IPNet) : option (bytes * Z) :=
  match To4 (net_IP n) with
  | Some ip =>
    if net_bits n =? 32 then Some (ip, net_ones n)
    else if net_bits n =? 128 then Some (ip, Z.max 0 (net_ones n - 96)) else None
  | None =>
    if bool_decide (length (net_IP n) = 16%nat) && (net_bits n =? 128)
    then Some (net_IP n, net_ones n) else None
  end.

(** [n.Contains(ip)] *)
Definition IPNet_Contains (n : IPNet) (ip : bytes) : bool :=
  let ip := default ip (To4 ip) in
  match networkNumber n with
  | None => bool_decide (ip = [])
  | Some (nn, ones) =>
    bool_decide (length ip = length nn) &&
    (let k := 8 * zlen nn - ones in Z.shiftr (get_be nn) k =? Z.shiftr (get_be ip) k)
  end.

(** [n.String()] of two networks is the same text. *)
Definition same_String (n m : IPNet) : bool := bool_decide (networkNumber n = networkNumber m).

(** [new(big.Int).SetBytes(b)] is [get_be b]; [x.Bytes()] has no leading zeros. *)
Definition big_Bytes (x : Z) : bytes :=
  if x =? 0 then [] else put_be (Z.to_nat ((Z.log2 x + 8) / 8)) x.

(** ** Lemmas on encoding/binary *)
Lemma Uint16_app a b : zlen a = 2 -> Uint16 (a ++ b) = Ok (get_be a).
Proof.
  intros Ha. unfold Uint16. pose proof (zlen_nonneg b). rewrite slice_Some by (rewrite ?zlen_app; lia).
  change (Z.to_nat 0) with 0%nat. rewrite drop_0.
  by rewrite take_app_length' by (unfold zlen in Ha; lia).
Qed.

Lemma Uint32_app a b : zlen a = 4 -> Uint32 (a ++ b) = Ok (get_be a).
Proof.
  intros Ha. unfold Uint32. pose proof (zlen_nonneg b). rewrite slice_Some by (rewrite ?zlen_app; lia).
  change (Z.to_nat 0) with 0%nat. rewrite drop_0.
  by rewrite take_app_length' by (unfold zlen in Ha; lia).
Qed.

Lemma from_app {A} (a b : list A) n : zlen a = n -> from (a ++ b) n = Ok b.
Proof.
  intros Ha. unfold from. pose proof (zlen_nonneg a). pose proof (zlen_nonneg b).
  rewrite slice_Some by (rewrite ?zlen_app; lia). cbn [or_panic].
  rewrite drop_app_length' by (unfold zlen in Ha; lia). f_equal. apply take_ge. unfold zlen in *.
  rewrite length_app. lia.
Qed.

Lemma put_at_app a b c d :
  zlen b = zlen d -> put_at (a ++ b ++ c) (zlen a) d = Ok (a ++ d ++ c).
Proof.
  intros Hb. unfold put_at. pose proof (zlen_nonneg a). pose proof (zlen_nonneg c).
  rewrite !zlen_app. replace (_ && _) with true by lia. f_equal.
  rewrite take_app_length' by (unfold zlen; lia). do 2 f_equal.
  rewrite app_assoc. apply drop_app_length'. rewrite length_app. unfold zlen in *. lia.
Qed.

Lemma get_be_put_be_small n z :
  0 <= z < 256 ^ Z.of_nat n -> get_be (put_be n z) = z.
Proof. intros. rewrite get_put_be. by apply Z.mod_small. Qed.

(** ** The readers *)
Lemma conn_read_spec cs n cs' o :
  conn_read cs n = (cs', o) ->
  match o with
  | None => concat cs = [] /\ cs' = []
  | Some bs => concat cs = bs ++ concat cs' /\ (length bs <= n)%nat /\ ((0 < n)%nat -> bs <> [])
  end.
Proof.
  induction cs as [|c cs IH]; simpl; [by intros [= <- <-]|].
  destruct c as [|x c]; [done|]. intros [= <- <-]. split; [|split].
  - change (concat (drop n (x :: c) :: cs)) with (drop n (x :: c) ++ concat cs).
    by rewrite app_assoc, take_drop.
  - rewrite length_take. lia.
  - destruct n; [lia|done].
Qed.

#[export] Instance conn_reader : Reader conn.
Proof.
  refine {| rd := conn_rd; rd_content r := concat (chunks r); rd_end := conn_end;
            rd_wf _ := True |}; unfold conn_rd;
    intros r n r' bs e _ H; destruct (conn_read _ _) as [cs [b|]] eqn:E;
    apply conn_read_spec in E; inv_res; subst; simpl.
  - naive_solver.
  - destruct E as [-> ->]. repeat split; simpl; lia.
  - naive_solver.
  - by destruct E as [_ ->].
Defined.

Section ReadFull.
Context {R : Type} `{Reader R}.

(** The error [ReadFull] reports when the content is too short. *)
Definition short_error (c : bytes) (e : error) : error :=
  if decide (c <> [] /\ e = EOF) then ErrUnexpectedEOF else e.

Lemma ReadAtLeast_spec fuel r n acc r' bs e :
  rd_wf r -> (n - length acc <= fuel)%nat ->
  (length acc <= n)%nat ->
  ReadAtLeast fuel r n acc = (r', (bs, e)) ->
  rd_wf r' /\ rd_end r' = rd_end r /\ acc ++ rd_content r = bs ++ rd_content r' /\
  bs = take n (acc ++ rd_content r) /\
  e = if (n <=? length (acc ++ rd_content r))%nat then None
      else Some (short_error (acc ++ rd_content r) (rd_end r)).
Proof.
  revert r acc. induction fuel as [|fuel IH]; intros r acc Hwf Hf Ha Hrd;
    cbn [ReadAtLeast] in Hrd;
    destruct (n <=? length acc)%nat eqn:En.
  - inv_res; subst. rewrite take_app_le, take_ge by lia.
    rewrite (proj2 (Nat.leb_le n (length (_ ++ _)))) by (rewrite length_app; lia). done.
  - lia.
  - inv_res; subst. rewrite take_app_le, take_ge by lia.
    rewrite (proj2 (Nat.leb_le n (length (_ ++ _)))) by (rewrite length_app; lia). done.
  - destruct (rd r (n - length acc)) as [r1 [b1 [e1|]]] eqn:Erd;
      pose proof (rd_law _ _ _ _ _ Hwf Erd) as (Hwf1 & Hlen & Hc & He);
      pose proof (rd_progress _ _ _ _ _ Hwf Erd) as Hp; cbn in Hp.
    + destruct Hp as [Hnil ->]. rewrite Hnil, app_nil_r in Hc.
      injection Hrd as -> <- <-. rewrite Hc, Hnil, app_nil_r.
      repeat split; try done.
      * by rewrite take_ge by (rewrite length_app; lia).
      * unfold short_error. by repeat case_match.
    + apply IH in Hrd; [|done|rewrite length_app|rewrite length_app; lia].
      * rewrite <- app_assoc, <- Hc, He in Hrd. done.
      * assert (b1 <> []) by (apply Hp; lia). destruct b1; [done|simpl; lia].
Qed.

(** [io.ReadFull] does not depend on how the content is fragmented: it takes
    the first [n] bytes, or everything and an error. *)
Lemma ReadFull_spec r n :
  rd_wf r ->
  exists r', rd_wf r' /\ rd_end r' = rd_end r /\
    rd_content r' = drop n (rd_content r) /\
    ReadFull r n = (r', (take n (rd_content r),
      if (n <=? length (rd_content r))%nat then None
      else Some (short_error (rd_content r) (rd_end r)))).
Proof.
  intros Hwf. unfold ReadFull. destruct (ReadAtLeast n r n []) as [r' [bs e]] eqn:E.
  apply ReadAtLeast_spec in E as (? & ? & Hc & -> & ->); [|done|simpl; lia|simpl; lia].
  simpl in Hc |- *. exists r'. repeat split; try done.
  rewrite <- (take_drop n (rd_content r)) in Hc at 1. by apply app_inv_head in Hc.
Qed.
End ReadFull.

(** ** Writing *)
#[export] Instance sink_spec : WriterSpec sink.
Proof.
  refine {| wr_fits w _ := broken w = None;
            wr_after w d w' := concat (sent w') = concat (sent w) ++ d /\ broken w' = broken w |}.
  - intros w _. by rewrite app_nil_r.
  - intros w d1 w1 d2 w2 [H1 H1'] [H2 H2']. by rewrite H2, H1, app_assoc, H2'.
  - intros w d k _ Hb. unfold wr, sink_writer. rewrite Hb. eexists. split; [done|]. cbn [sent broken].
    rewrite concat_app. cbn [concat]. by rewrite app_nil_r.
  - done.
Defined.

Section Writes.
Context {W : Type} `{WriterSpec W}.

Lemma writes_ret {A} (a : A) : writes (mret a) [] a.
Proof.
  intros w k Hk Hf. exists w. split_and!; [done| |done].
  apply wr_after_nil. eapply wr_fits_mono; [|exact Hf]. pose proof (zlen_nonneg (@nil byte)). lia.
Qed.

Lemma writes_bind {A B} (m : ST W A) (f : A -> ST W B) d1 d2 a b :
  writes m d1 a -> writes (f a) d2 b -> writes (m ≫= f) (d1 ++ d2) b.
Proof.
  intros Hm Hf w k Hk Hw. rewrite zlen_app, <- Z.add_assoc in Hw.
  destruct (Hm w (zlen d2 + k)) as (w1 & E1 & A1 & F1); [pose proof (zlen_nonneg d2); lia|exact Hw|].
  destruct (Hf w1 k Hk F1) as (w2 & E2 & A2 & F2).
  exists w2. split_and!; [|by eapply wr_after_app|done].
  unfold mbind, st_bind. by rewrite E1.
Qed.

Lemma writes_last {A B} (m : ST W A) (f : A -> ST W B) d a b :
  writes m d a -> f a = mret b -> writes (m ≫= f) d b.
Proof.
  intros Hm Hf. rewrite <- (app_nil_r d). eapply writes_bind; [exact Hm|].
  rewrite Hf. apply writes_ret.
Qed.

Lemma writes_wr d : writes (wr d) d (zlen d).
Proof. intros w k Hk Hf. by apply wr_spec. Qed.

Lemma writes_lift {A B} (r : res A) a (f : A -> ST W B) d b :
  r = Ok a -> writes (f a) d b -> writes (st_lift r ≫= f) d b.
Proof. intros -> Hf. exact Hf. Qed.
End Writes.

(** ** Lemmas on strings and addresses *)
Lemma HasPrefix_spec s p : HasPrefix s p = true <-> p `prefix_of` s.
Proof.
  unfold HasPrefix. rewrite bool_decide_eq_true. split.
  - intros <-. exists (drop (length p) s). by rewrite take_drop.
  - intros [k ->]. by rewrite take_app_length.
Qed.

Lemma HasSuffix_spec s p : HasSuffix s p = true <-> p `suffix_of` s.
Proof.
  unfold HasSuffix. rewrite andb_true_iff, bool_decide_eq_true. split.
  - intros [_ <-]. exists (take (length s - length p) s). by rewrite take_drop.
  - intros [k ->]. rewrite length_app. split; [apply Nat.leb_le; lia|].
    replace (length k + length p - length p)%nat with (length k) by lia. by rewrite drop_app_length.
Qed.

Lemma Contains_spec s p : Contains s p = true <-> exists a b, s = a ++ p ++ b.
Proof.
  induction s as [|x s IH]; simpl; rewrite orb_true_iff, HasPrefix_spec; [|rewrite IH]; split.
  - intros [[k Hk]|]; [|done]. exists [], k. done.
  - intros (a & b & Hs). left. destruct a; [|done]. by exists b.
  - intros [[k ->]|(a & b & ->)]; [by exists [], k|by exists (x :: a), b].
  - intros ([|y a] & b & Hs); [left; by exists b|]. right. injection Hs as -> ->. eauto.
Qed.

Lemma parseIPv4Fields_length s prev val dl fields r :
  parseIPv4Fields s prev val dl fields = Some r ->
  (length fields <= 3)%nat -> length r = 4%nat.
Proof.
  revert prev val dl fields. induction s as [|b s IH]; intros prev val dl fields; simpl.
  - destruct (_ <? _)%nat eqn:E; [done|]. intros [= <-] ?. rewrite length_app. simpl. lia.
  - repeat case_match; try done; intros Hp ?; apply IH in Hp; try done.
    rewrite length_app. simpl. lia.
Qed.

Lemma parseIPv6Loop_length fuel s ip e ip' e' rest :
  parseIPv6Loop fuel s ip e = Some (ip', e', rest) ->
  (length ip + 2 * fuel <= 16)%nat ->
  (forall k, e = Some k -> (k <= length ip)%nat) ->
  (length ip' <= 16)%nat /\ forall k, e' = Some k -> (k <= length ip')%nat.
Proof.
  revert s ip e. induction fuel as [|fuel IH]; intros s ip e H Hlen Hk; simpl in H;
    [inv_res; subst; split; [lia|done]|].
  repeat case_match; try done; inv_res; subst;
    repeat match goal with
    | E : parseIPv4Fields _ _ _ _ _ = Some _ |- _ =>
      apply parseIPv4Fields_length in E; [|simpl; lia]
    end;
    try (eapply IH; [eassumption| |]);
    try (split; [|intros k Hk'; try specialize (Hk k Hk'); inv_res; subst]);
    try (intros k Hk'; try specialize (Hk k Hk'); inv_res; subst);
    rewrite ?length_app, ?length_put_be in *; simpl length in *; try lia.
Qed.

(** [net.ParseIP] yields 16 bytes, the form [net.IP.To16] has. *)
Lemma ParseIP_length s ip : ParseIP s = Some ip -> length ip = 16%nat.
Proof.
  unfold ParseIP. case_bool_decide; [done|].
  destruct (list_find _ _) as [[i b]|]; [|done].
  destruct (b2z b =? 46).
  - destruct (parseIPv4Fields _ _ _ _ _) as [f|] eqn:E; [|done]. intros [= <-].
    apply parseIPv4Fields_length in E; [|simpl; lia]. simpl. by rewrite E.
  - unfold parseIPv6. destruct (if HasPrefix s _ then _ else _) as [t e] eqn:Ee.
    destruct (_ && _) eqn:Eb; [by intros [= <-]|].
    destruct (parseIPv6Loop 8 t [] e) as [[[ip' e'] rest]|] eqn:El; [|done].
    apply parseIPv6Loop_length in El as [Hl Hk]; [|simpl; lia|].
    + destruct (bool_decide (rest <> [])); [discriminate|]. destruct (length ip' <? 16)%nat eqn:E16;
        destruct e' as [k|]; try discriminate; intros [= <-]; [|lia].
      specialize (Hk k eq_refl). rewrite !length_app, length_replicate, length_take, length_drop. lia.
    + intros k ->. destruct (HasPrefix s _); simplify_eq. simpl. lia.
Qed.

(** An address without a colon is an IPv4 one. *)
Lemma ParseIP_dotted s ip : ParseIP s = Some ip -> z2b 58 ∉ s -> To4 ip = Some (drop 12 ip).
Proof.
  intros E Hn. pose proof (ParseIP_length _ _ E) as Hl. unfold ParseIP in E. destruct (bool_decide _); [done|].
  destruct (list_find _ s) as [[i b]|] eqn:Ef; [|done]. apply list_find_Some in Ef as (Hi & Hb & _).
  destruct (b2z b =? 46) eqn:E46.
  - destruct (parseIPv4Fields s None 0 0 []) as [f4|]; [|done]. injection E as <-.
    unfold To4. rewrite Hl. rewrite bool_decide_false by done. by rewrite !bool_decide_true by done.
  - destruct Hb as [?|Hb]; [lia|]. exfalso. apply Hn.
    replace (z2b 58) with b by (rewrite <- (z2b_b2z b), Hb; done). by eapply list_elem_of_lookup_2.
Qed.
