(* ===== verification/Buf.v ===== *)
(** * Package common/buf: Buffer and MultiBuffer

    [Module Buf] models common/buf/buffer.go and common/buf/multi_buffer.go.  A
    [Buffer] is the array [v] with the offsets [start] and [end]; the methods
    thread it explicitly and [Panic] is the run-time panic of a slice
    expression out of range.  Fresh memory is zeroed ([make]); what a recycled
    array still holds lies outside [start, end) and is covered by
    [buf_equiv], the equivalence that forgets it. *)
From S2P Require Import Prelude GoStd.

Module Buf.

Definition Size : Z := 2048.

Inductive ownership := managed | unmanaged | bytespools.

Record Buffer := mkBuffer {
  v : bytes;             (* [] is nil *)
  start : Z;             (* int32 *)
  end_ : Z;              (* int32 *)
  owner : ownership;
}.

(** ** bytespool.Alloc: the smallest pool that fits, or a fresh array. *)
Definition poolSizes : list Z := [2048; 8192; 32768; 131072].

Definition Alloc (size : Z) : res bytes :=
  match list_find (fun ps => size <= ps) poolSizes with
  | Some (_, ps) => Ok (replicate (Z.to_nat ps) x00)
  | None => Ok (replicate (Z.to_nat size) x00)
  end.

(** ** Buffer *)
Definition New : Buffer :=
  {| v := replicate (Z.to_nat Size) x00; start := 0; end_ := 0; owner := managed |}.

Definition NewWithSize (size : Z) : res Buffer :=
  m ← Alloc size; Ok {| v := m; start := 0; end_ := 0; owner := bytespools |}.

Definition FromBytes (data : bytes) : Buffer :=
  {| v := data; start := 0; end_ := i32 (zlen data); owner := unmanaged |}.

Definition StackNew : Buffer :=
  {| v := replicate (Z.to_nat Size) x00; start := 0; end_ := 0; owner := managed |}.

Definition Clear (b : Buffer) : Buffer :=
  {| v := v b; start := 0; end_ := 0; owner := owner b |}.

(** [Release] on a pointer; the array goes back to its pool. *)
Definition Release (p : option Buffer) : option Buffer :=
  match p with
  | None => None
  | Some b =>
    match v b, owner b with
    | [], _ | _, unmanaged => Some b
    | _, _ => Some (Clear {| v := []; start := start b; end_ := end_ b; owner := owner b |})
    end
  end.

Definition Byte (b : Buffer) (idx : Z) : res byte := or_panic (index (v b) (i32 (start b + idx))).

Definition SetByte (b : Buffer) (idx : Z) (value : byte) : res Buffer :=
  let i := i32 (start b + idx) in
  _ ← or_panic (index (v b) i);
  Ok {| v := <[Z.to_nat i := value]> (v b); start := start b; end_ := end_ b; owner := owner b |}.

Definition Bytes (b : Buffer) : res bytes := or_panic (slice (v b) (start b) (end_ b)).

(** [Extend] returns the extended part as the window [lo, hi) of [v]; [poke]
    writes through it. *)
Definition Extend (b : Buffer) (n : Z) : res (Buffer * (Z * Z)) :=
  let e := i32 (end_ b + n) in
  if zlen (v b) <? e then Panic else
  _ ← or_panic (slice (v b) (end_ b) e);
  Ok ({| v := v b; start := start b; end_ := e; owner := owner b |}, (end_ b, e)).

(** [copy(window, data)] for a window [lo, hi) of the array. *)
Definition poke (b : Buffer) (w : Z * Z) (data : bytes) : Buffer :=
  {| v := (copy_at (v b) (Z.to_nat w.1) (take (Z.to_nat (w.2 - w.1)) data)).1;
     start := start b; end_ := end_ b; owner := owner b |}.

(** [Len], [Cap], [IsEmpty] and [IsFull] accept a nil pointer. *)
Definition Len (p : option Buffer) : Z :=
  match p with None => 0 | Some b => i32 (end_ b - start b) end.
Definition Cap (p : option Buffer) : Z :=
  match p with None => 0 | Some b => i32 (zlen (v b)) end.
Definition IsEmpty (p : option Buffer) : bool := Len p =? 0.
Definition IsFull (p : option Buffer) : bool :=
  match p with None => false | Some b => end_ b =? i32 (zlen (v b)) end.

Definition BytesRange (b : Buffer) (from to : Z) : res bytes :=
  let from := if from <? 0 then i32 (from + Len (Some b)) else from in
  let to := if to <? 0 then i32 (to + Len (Some b)) else to in
  or_panic (slice (v b) (i32 (start b + from)) (i32 (start b + to))).

Definition BytesFrom (b : Buffer) (from : Z) : res bytes :=
  let from := if from <? 0 then i32 (from + Len (Some b)) else from in
  or_panic (slice (v b) (i32 (start b + from)) (end_ b)).

Definition BytesTo (b : Buffer) (to : Z) : res bytes :=
  let to := if to <? 0 then i32 (to + Len (Some b)) else to in
  or_panic (slice (v b) (start b) (i32 (start b + to))).

Definition Resize (b : Buffer) (from to : Z) : res Buffer :=
  let from := if from <? 0 then i32 (from + Len (Some b)) else from in
  let to := if to <? 0 then i32 (to + Len (Some b)) else to in
  if to <? from then Panic else
  Ok {| v := v b; start := i32 (start b + from); end_ := i32 (start b + to); owner := owner b |}.

Definition Advance (b : Buffer) (from : Z) : Buffer :=
  let from := if from <? 0 then i32 (from + Len (Some b)) else from in
  {| v := v b; start := i32 (start b + from); end_ := end_ b; owner := owner b |}.

Definition Write (data : bytes) : ST Buffer Z := fun b =>
  match slice (v b) (end_ b) (zlen (v b)) with
  | None => (b, Panic)
  | Some _ =>
    let '(v', nBytes) := copy_at (v b) (Z.to_nat (end_ b)) data in
    ({| v := v'; start := start b; end_ := i32 (end_ b + i32 (Z.of_nat nBytes)); owner := owner b |},
     Ok (Z.of_nat nBytes))
  end.

Definition WriteByte (x : byte) : ST Buffer unit := fun b =>
  if IsFull (Some b) then (b, Err (NewError "buffer full")) else
  match index (v b) (end_ b) with
  | None => (b, Panic)
  | Some _ =>
    ({| v := <[Z.to_nat (end_ b) := x]> (v b); start := start b; end_ := i32 (end_ b + 1);
        owner := owner b |}, Ok tt)
  end.

Definition WriteString (s : bytes) : ST Buffer Z := Write s.

Definition ReadByte : ST Buffer byte := fun b =>
  if start b =? end_ b then (b, Err EOF) else
  match index (v b) (start b) with
  | None => (b, Panic)
  | Some nb =>
    ({| v := v b; start := i32 (start b + 1); end_ := end_ b; owner := owner b |}, Ok nb)
  end.

Definition ReadBytes (length : Z) : ST Buffer bytes := fun b =>
  if i32 (end_ b - start b) <? length then (b, Err EOF) else
  match slice (v b) (start b) (i32 (start b + length)) with
  | None => (b, Panic)
  | Some nb =>
    ({| v := v b; start := i32 (start b + length); end_ := end_ b; owner := owner b |}, Ok nb)
  end.

(** [Read(data)] with [n] bytes of room in [data]: the bytes copied. *)
Definition Read (n : nat) : ST Buffer bytes := fun b =>
  if Len (Some b) =? 0 then (b, Err EOF) else
  match slice (v b) (start b) (end_ b) with
  | None => (b, Panic)
  | Some c =>
    let data := take n c in
    let nBytes := zlen data in
    ((if i32 nBytes =? Len (Some b) then Clear b
      else {| v := v b; start := i32 (start b + i32 nBytes); end_ := end_ b; owner := owner b |}),
     Ok data)
  end.

(** [n] bytes arrived at the end of the content. *)
Definition fill (b : Buffer) (data : bytes) : Buffer :=
  {| v := (copy_at (v b) (Z.to_nat (end_ b)) data).1; start := start b;
     end_ := i32 (end_ b + i32 (zlen data)); owner := owner b |}.

Section WithReader.
Context {R : Type} `{Reader R}.

(** [ReadFrom(reader)]: one [Read] into the free part. *)
Definition ReadFrom : ST (Buffer * R) Z := fun '(b, r) =>
  match slice (v b) (end_ b) (zlen (v b)) with
  | None => ((b, r), Panic)
  | Some room =>
    match rd r (length room) with
    | (r', (data, None)) => ((fill b data, r'), Ok (zlen data))
    | (r', (data, Some e)) => ((fill b data, r'), Err e)
    end
  end.

Definition ReadFullFrom (size : Z) : ST (Buffer * R) Z := fun '(b, r) =>
  let e := i32 (end_ b + size) in
  if zlen (v b) <? e then ((b, r), Err (NewError "out of bound: ")) else
  match slice (v b) (end_ b) e with
  | None => ((b, r), Panic)
  | Some window =>
    match ReadFull r (length window) with
    | (r', (data, None)) => ((fill b data, r'), Ok (zlen data))
    | (r', (data, Some err)) => ((fill b data, r'), Err err)
    end
  end.
End WithReader.

(** ** Well-formed buffers and their content *)
Definition buf_wf (b : Buffer) : Prop :=
  0 <= start b <= end_ b /\ end_ b <= zlen (v b) < 2 ^ 31.

Definition content (b : Buffer) : bytes :=
  take (Z.to_nat (end_ b - start b)) (drop (Z.to_nat (start b)) (v b)).

Definition room (b : Buffer) : Z := zlen (v b) - end_ b.

(** What [Write] and [Read] do to a well-formed buffer. *)
Definition push (b : Buffer) (d : bytes) : Buffer :=
  {| v := take (Z.to_nat (end_ b)) (v b) ++ d ++ drop (Z.to_nat (end_ b + zlen d)) (v b);
     start := start b; end_ := end_ b + zlen d; owner := owner b |}.

Definition pop (b : Buffer) (n : Z) : Buffer :=
  {| v := v b; start := start b + n; end_ := end_ b; owner := owner b |}.

(** Two buffers that differ in memory outside the content only. *)
Definition buf_equiv (a b : Buffer) : Prop :=
  zlen (v a) = zlen (v b) /\ start a = start b /\ end_ a = end_ b /\
  owner a = owner b /\ content a = content b.

End Buf.

(** ** Lemmas *)
Import Buf.

#[export] Hint Unfold buf_wf room : go.
#[global] Arguments Len : simpl never.
#[global] Arguments Write : simpl never.
#[global] Arguments WriteByte : simpl never.
#[global] Arguments Read : simpl never.
#[global] Arguments content : simpl never.
#[global] Arguments ReadFullFrom : simpl never.

Lemma New_wf : buf_wf New.
Proof. unfold buf_wf. cbn [New start end_ v]. unfold zlen. rewrite length_replicate. done. Qed.
Lemma New_content : content New = [].
Proof. reflexivity. Qed.
Lemma New_room : room New = 2048.
Proof. unfold room. cbn [New start end_ v]. unfold zlen. by rewrite length_replicate. Qed.

Section Wf.
Context (b : Buffer) (Hwf : buf_wf b).

Lemma zlen_content : zlen (content b) = end_ b - start b.
Proof using Hwf.
  unfold buf_wf, content in *. unfold zlen in *. rewrite length_take, length_drop. lia.
Qed.

Lemma Len_wf : Len (Some b) = zlen (content b).
Proof using Hwf.
  rewrite zlen_content. unfold buf_wf in *. unfold Len. apply i32_small. lia.
Qed.

Lemma Bytes_wf : Bytes b = Ok (content b).
Proof using Hwf. unfold Bytes. unfold buf_wf in *. by rewrite slice_Some by lia. Qed.

Lemma IsEmpty_wf : IsEmpty (Some b) = bool_decide (content b = []).
Proof using Hwf.
  unfold IsEmpty. rewrite Len_wf. unfold zlen. by destruct (content b).
Qed.

Lemma push_wf d : zlen d <= room b -> buf_wf (push b d).
Proof using Hwf.
  unfold buf_wf, room in *. intros. cbn [push v start end_].
  rewrite !zlen_app. unfold zlen in *. rewrite length_take, length_drop. lia.
Qed.

Lemma push_v_length d : zlen d <= room b -> zlen (v (push b d)) = zlen (v b).
Proof using Hwf.
  unfold buf_wf, room in *. intros. cbn [push v].
  rewrite !zlen_app. unfold zlen in *. rewrite length_take, length_drop. lia.
Qed.

Lemma push_room d : zlen d <= room b -> room (push b d) = room b - zlen d.
Proof using Hwf. intros. unfold room at 1. rewrite push_v_length by done. unfold room. simpl. lia. Qed.

Lemma push_content d : content (push b d) = content b ++ d.
Proof using Hwf.
  unfold buf_wf, content in *. cbn [push v start end_].
  rewrite drop_app_le by (rewrite length_take; unfold zlen in *; lia).
  rewrite app_assoc, take_app_le
    by (rewrite length_app, length_drop, length_take; unfold zlen in *; lia).
  rewrite take_ge by (rewrite length_app, length_drop, length_take; unfold zlen in *; lia).
  f_equal. rewrite take_drop_commute. do 2 f_equal. lia.
Qed.

Lemma pop_wf n : 0 <= n <= zlen (content b) -> buf_wf (pop b n).
Proof using Hwf. rewrite zlen_content. unfold buf_wf in *. simpl. lia. Qed.

Lemma pop_content n : 0 <= n -> content (pop b n) = drop (Z.to_nat n) (content b).
Proof using Hwf.
  intros. unfold content, buf_wf in *. cbn [pop v start end_].
  rewrite skipn_firstn_comm, drop_drop. f_equal; [lia|f_equal; lia].
Qed.

Lemma pop_room n : room (pop b n) = room b.
Proof using. done. Qed.

Lemma Clear_wf : buf_wf (Clear b).
Proof using Hwf. unfold buf_wf in *. simpl. lia. Qed.
Lemma Clear_content : content (Clear b) = [].
Proof using. done. Qed.

(** [Write] copies what fits and reports how much. *)
Lemma Write_spec d :
  Write d b = (push b (take (Z.to_nat (room b)) d), Ok (Z.min (room b) (zlen d))).
Proof using Hwf.
  unfold Write. unfold buf_wf, room in *. rewrite slice_Some by lia.
  unfold copy_at. set (n := Nat.min _ _).
  assert (Hn : Z.of_nat n = Z.min (zlen (v b) - end_ b) (zlen d)) by (unfold n, zlen in *; lia).
  assert (Hz : zlen (take (Z.to_nat (zlen (v b) - end_ b)) d) = Z.of_nat n)
    by (rewrite Hn; unfold zlen in *; rewrite length_take; lia).
  rewrite <- Hn. f_equal. unfold push. rewrite Hz.
  rewrite (i32_small (Z.of_nat n)) by lia. rewrite i32_small by lia.
  f_equal. f_equal. f_equal.
  - destruct (Nat.le_gt_cases (length d) n).
    + rewrite !take_ge; [done|unfold zlen in *; lia|lia].
    + f_equal. unfold zlen in *. lia.
  - f_equal. lia.
Qed.

Lemma Write_fits d : zlen d <= room b -> Write d b = (push b d, Ok (zlen d)).
Proof using Hwf.
  intros. rewrite Write_spec. rewrite take_ge by (unfold zlen in *; lia). by rewrite Z.min_r by lia.
Qed.

Lemma insert_at_end x :
  1 <= room b -> <[Z.to_nat (end_ b) := x]> (v b) = v (push b [x]).
Proof using Hwf.
  intros Hr. unfold room, buf_wf in *. cbn [push v]. rewrite zlen_cons, zlen_nil.
  rewrite insert_take_drop by (unfold zlen in *; lia).
  do 2 f_equal. simpl. f_equal. lia.
Qed.

Lemma WriteByte_fits x : 1 <= room b -> WriteByte x b = (push b [x], Ok tt).
Proof using Hwf.
  intros Hr. unfold WriteByte, IsFull.
  replace (end_ b =? _) with false by (unfold room, buf_wf in *; rewrite i32_small; lia).
  destruct (index (v b) (end_ b)) eqn:E.
  - rewrite insert_at_end by done. unfold push. rewrite zlen_cons, zlen_nil.
    unfold room, buf_wf in *. by rewrite i32_small by lia.
  - unfold index, room, buf_wf in *. replace (0 <=? _) with true in E by lia.
    apply lookup_ge_None in E. unfold zlen in *. lia.
Qed.

Lemma WriteByte_full x : room b = 0 -> WriteByte x b = (b, Err (NewError "buffer full")).
Proof using Hwf.
  intros Hr. unfold WriteByte, IsFull.
  by replace (end_ b =? _) with true by (unfold room, buf_wf in *; rewrite i32_small; lia).
Qed.

(** [Read] takes the first [n] bytes off the content. *)
Lemma Read_spec n :
  content b <> [] ->
  exists b', Read n b = (b', Ok (take n (content b))) /\ buf_wf b' /\
    content b' = drop n (content b) /\ zlen (v b') = zlen (v b).
Proof using Hwf.
  intros Hne. unfold Read. rewrite Len_wf.
  assert (0 < zlen (content b)) by (unfold zlen; destruct (content b); [done|simpl; lia]).
  replace (_ =? 0) with false by lia.
  pose proof Bytes_wf as HB. unfold Bytes in HB.
  destruct (slice (v b) (start b) (end_ b)) as [c|]; [|done]. injection HB as ->.
  set (d := take n (content b)).
  assert (Hd : 0 <= zlen d <= zlen (content b)) by (unfold d, zlen; rewrite length_take; lia).
  pose proof zlen_content. unfold buf_wf in Hwf.
  rewrite !(i32_small (zlen d)) by lia.
  eexists. split; [reflexivity|]. destruct (zlen d =? zlen (content b)) eqn:E.
  - split; [by apply Clear_wf|]. rewrite Clear_content. split; [|done].
    symmetry. apply drop_ge. unfold d, zlen in E. rewrite length_take in E. lia.
  - rewrite i32_small by lia. fold (pop b (zlen d)).
    split; [apply pop_wf; lia|]. rewrite pop_content by lia. split; [|done].
    f_equal. unfold d, zlen in *. rewrite length_take in *. lia.
Qed.

Lemma Read_empty n : content b = [] -> Read n b = (b, Err EOF).
Proof using Hwf. intros E. unfold Read. by rewrite Len_wf, E. Qed.
End Wf.

#[export] Hint Resolve New_wf Clear_wf push_wf pop_wf : go.

(** ** A Buffer as io.Reader and io.Writer *)
#[export] Instance buffer_writer : Writer Buffer := Write.

Definition buffer_rd (b : Buffer) (n : nat) : Buffer * (bytes * option error) :=
  match Read n b with
  | (b', Ok d) => (b', (d, None))
  | (b', Err e) => (b', ([], Some e))
  | (b', Panic) => (b', ([], Some (NewError "panic")))
  end.

#[export] Instance buffer_reader : Reader Buffer.
Proof.
  refine {| rd := buffer_rd; rd_content := content; rd_end _ := EOF; rd_wf := buf_wf |};
    unfold buffer_rd; intros b n b' bs e Hwf H;
    (destruct (decide (content b = [])) as [Hc|Hc];
     [rewrite Read_empty in H by done; injection H as <- <- <-
     |destruct (Read_spec b Hwf n Hc) as (b1 & HR & Hwf' & Hc' & Hv); rewrite HR in H;
      injection H as <- <- <-]).
  - by split_and!; [done|simpl; lia|rewrite app_nil_l|].
  - split_and!; [done|rewrite length_take; lia|by rewrite Hc', take_drop|done].
  - done.
  - intros Hn Ht. destruct (content b); [done|]. by destruct n; [lia|].
Defined.

Section ReadInto.
Context {R : Type} `{Reader R} (b : Buffer) (Hwf : buf_wf b) (r : R) (Hr : rd_wf r).

Lemma fill_push d : zlen d <= room b -> fill b d = push b d.
Proof using Hwf.
  intros. unfold fill, push, copy_at. unfold room, buf_wf in *.
  rewrite (i32_small (zlen d)) by (pose proof (zlen_nonneg d); lia).
  pose proof (zlen_nonneg d). rewrite i32_small by lia. f_equal. cbn [fst]. f_equal.
  rewrite (Nat.min_r) by (unfold zlen in *; lia). rewrite take_ge by lia. f_equal.
  f_equal. unfold zlen. lia.
Qed.

(** [ReadFullFrom] appends exactly [size] bytes, or what there is and an error. *)
Lemma ReadFullFrom_spec size :
  0 <= size <= room b ->
  exists r', rd_wf r' /\ rd_end r' = rd_end r /\
    rd_content r' = drop (Z.to_nat size) (rd_content r) /\
    ReadFullFrom size (b, r) =
      ((push b (take (Z.to_nat size) (rd_content r)), r'),
       if size <=? zlen (rd_content r) then Ok size
       else Err (short_error (rd_content r) (rd_end r))).
Proof using Hwf Hr.
  intros Hs. unfold ReadFullFrom. unfold room, buf_wf in *.
  rewrite i32_small by lia. replace (zlen (v b) <? _) with false by lia.
  rewrite slice_Some by lia.
  replace (length (take _ _)) with (Z.to_nat size)
    by (unfold zlen in *; rewrite length_take, length_drop; lia).
  destruct (ReadFull_spec r (Z.to_nat size) Hr) as (r' & Hwf' & He & Hc & ->).
  exists r'. split_and!; try done.
  assert (Hz : zlen (take (Z.to_nat size) (rd_content r)) = Z.min size (zlen (rd_content r)))
    by (unfold zlen; rewrite length_take; lia).
  destruct (size <=? zlen (rd_content r)) eqn:E.
  - replace (_ <=? _)%nat with true by (unfold zlen in *; lia).
    rewrite fill_push by (unfold room; lia). do 2 f_equal. lia.
  - replace (_ <=? _)%nat with false by (unfold zlen in *; lia).
    by rewrite fill_push by (unfold room; lia).
Qed.

Lemma ReadFullFrom_oob size :
  0 <= size < 2 ^ 30 -> end_ b < 2 ^ 30 -> room b < size ->
  ReadFullFrom size (b, r) = ((b, r), Err (NewError "out of bound: ")).
Proof using Hwf.
  intros. unfold ReadFullFrom. unfold room, buf_wf in *.
  rewrite i32_small by lia. by replace (zlen (v b) <? _) with true by lia.
Qed.
End ReadInto.

(** ** Stale memory cannot be observed *)
Lemma buf_equiv_wf a b : buf_wf a -> buf_equiv a b -> buf_wf b.
Proof. intros Hwf (H1 & H2 & H3 & _). unfold buf_wf in *. lia. Qed.

#[export] Instance buf_equiv_equivalence : Equivalence buf_equiv.
Proof.
  split.
  - done.
  - intros a b (?&?&?&?&?). by repeat split.
  - intros a b c (?&?&?&?&?) (?&?&?&?&?). repeat split; by etrans.
Qed.

#[export] Instance content_proper : Proper (buf_equiv ==> eq) content.
Proof. by intros a b (?&?&?&?&?). Qed.
#[export] Instance room_proper : Proper (buf_equiv ==> eq) room.
Proof. intros a b (Hv&_&He&_). unfold room. lia. Qed.
#[export] Instance Len_proper : Proper (buf_equiv ==> eq) (fun b => Len (Some b)).
Proof. intros a b (_&Hs&He&_). unfold Len. by rewrite Hs, He. Qed.

Lemma push_equiv a b d :
  buf_wf a -> buf_equiv a b -> zlen d <= room a -> buf_equiv (push a d) (push b d).
Proof.
  intros Hwf Heq Hd. pose proof (buf_equiv_wf _ _ Hwf Heq) as Hwf'.
  assert (zlen d <= room b) by (by rewrite <- Heq). pose proof Heq as (Hv&Hs&He&Ho&Hc).
  split_and!; try done.
  - by rewrite !push_v_length.
  - cbn [push end_]. by rewrite He.
  - by rewrite !push_content, Hc.
Qed.

Lemma pop_equiv a b n :
  buf_wf a -> 0 <= n -> buf_equiv a b -> buf_equiv (pop a n) (pop b n).
Proof.
  intros Hwf Hn Heq. pose proof (buf_equiv_wf _ _ Hwf Heq) as Hwf'.
  pose proof Heq as (Hv&Hs&He&Ho&Hc). split_and!; try done.
  - cbn [pop start]. by rewrite Hs.
  - by rewrite !pop_content, Hc.
Qed.

Lemma Write_equiv a b d :
  buf_wf a -> buf_equiv a b ->
  buf_equiv (Write d a).1 (Write d b).1 /\ (Write d a).2 = (Write d b).2.
Proof.
  intros Hwf Heq. pose proof (buf_equiv_wf _ _ Hwf Heq) as Hwf'.
  rewrite !Write_spec by done. cbn [fst snd]. rewrite <- (room_proper _ _ Heq). split; [|done].
  apply push_equiv; [done..|]. unfold room, buf_wf, zlen in *. rewrite length_take. lia.
Qed.

Lemma Read_equiv a b n :
  buf_wf a -> buf_equiv a b ->
  buf_equiv (Read n a).1 (Read n b).1 /\ (Read n a).2 = (Read n b).2.
Proof.
  intros Hwf Heq. pose proof (buf_equiv_wf _ _ Hwf Heq) as Hwf'.
  pose proof Heq as (Hv&Hs&He&Ho&Hc). unfold Read.
  pose proof (Bytes_wf a Hwf) as Ha. pose proof (Bytes_wf b Hwf') as Hb. unfold Bytes in Ha, Hb.
  rewrite <- (Len_proper _ _ Heq). destruct (Len (Some a) =? 0); [done|].
  destruct (slice (v a) _ _) as [ca|]; [|done]. destruct (slice (v b) _ _) as [cb|]; [|done].
  injection Ha as ->. injection Hb as ->. rewrite Hc. cbn [fst snd]. split; [|done].
  rewrite <- Hc, (Len_wf a Hwf). set (d := take n (content a)).
  assert (0 <= zlen d <= zlen (content a)) by (unfold d, zlen; rewrite length_take; lia).
  pose proof (zlen_content a Hwf). rewrite !(i32_small (zlen d)) by (unfold buf_wf in *; lia).
  destruct (_ =? _).
  - by split_and!.
  - rewrite !i32_small by (unfold buf_wf in *; lia).
    fold (pop a (zlen d)). fold (pop b (zlen d)). apply pop_equiv; [done|lia|done].
Qed.

(** ** Writing and reading through a Buffer *)
Lemma push_nil b : buf_wf b -> push b [] = b.
Proof.
  intros Hwf. unfold push, buf_wf in *. rewrite zlen_nil, Z.add_0_r. cbn [app].
  rewrite take_drop. by destruct b.
Qed.

Lemma push_push b d1 d2 :
  buf_wf b -> zlen d1 + zlen d2 <= room b -> push (push b d1) d2 = push b (d1 ++ d2).
Proof.
  intros Hwf Hr. unfold push, room, buf_wf in *. cbn [v start end_ owner].
  pose proof (zlen_nonneg d1). pose proof (zlen_nonneg d2).
  rewrite zlen_app, Z.add_assoc. f_equal. rewrite <- app_assoc.
  rewrite take_app_ge by (rewrite length_take; unfold zlen in *; lia).
  rewrite drop_app_ge by (rewrite length_take; unfold zlen in *; lia).
  rewrite length_take. rewrite <- app_assoc. f_equal.
  rewrite take_app_le by (unfold zlen in *; lia). rewrite drop_app_ge by (unfold zlen in *; lia).
  rewrite take_ge by (unfold zlen in *; lia). do 2 f_equal.
  rewrite drop_drop. f_equal. unfold zlen in *. lia.
Qed.

#[export] Instance buffer_spec : WriterSpec Buffer.
Proof.
  refine {| wr_fits b n := buf_wf b /\ n <= room b;
            wr_after b d b' := buf_wf b /\ zlen d <= room b /\ b' = push b d |}.
  - intros b [Hwf Hn]. split_and!; [done|by rewrite zlen_nil|by rewrite push_nil].
  - intros b d1 b1 d2 b2 (Hwf & Hr & ->) (Hwf1 & Hr1 & ->). rewrite push_room in Hr1 by done.
    split_and!; [done|rewrite zlen_app; lia|]. by rewrite push_push by (done || lia).
  - intros b d k Hk [Hwf Hf]. unfold wr, buffer_writer. exists (push b d).
    rewrite Write_fits by (done || lia).
    split_and!; [done|done|lia|done|apply push_wf; [done|lia]|rewrite push_room by (done || lia); lia].
  - intros b n m ? [? ?]. split; [done|lia].
Defined.

(** On a buffer with room, a writing computation is a [push]. *)
Lemma writes_push {A} (m : ST Buffer A) d a b :
  writes m d a -> buf_wf b -> zlen d <= room b -> m b = (push b d, Ok a).
Proof.
  intros Hm Hwf Hr. destruct (Hm b 0) as (b' & E & (_ & _ & ->) & _); [lia|by split; [|lia]|done].
Qed.

Lemma writes_WriteByte x : writes (WriteByte x) [x] tt.
Proof.
  intros b k Hk [Hwf Hf]. rewrite zlen_cons, zlen_nil in Hf. exists (push b [x]).
  rewrite WriteByte_fits by (done || lia).
  assert (Hx : zlen [x] <= room b) by (rewrite zlen_cons, zlen_nil; lia).
  split; [done|]. split; [split; [done|by split]|].
  split; [by apply push_wf|]. rewrite push_room by done. rewrite zlen_cons, zlen_nil. lia.
Qed.

Lemma Byte_wf b i :
  buf_wf b -> 0 <= i < zlen (content b) -> Byte b i = or_panic (content b !! Z.to_nat i).
Proof.
  intros Hwf Hi. rewrite zlen_content in Hi by done. unfold Byte, index, buf_wf, content in *.
  rewrite i32_small by lia. replace (0 <=? _) with true by lia.
  rewrite lookup_take_lt by lia. rewrite lookup_drop. do 2 f_equal. lia.
Qed.

Lemma BytesFrom_neg b k :
  buf_wf b -> 0 < k <= zlen (content b) ->
  BytesFrom b (- k) = Ok (drop (Z.to_nat (zlen (content b) - k)) (content b)).
Proof.
  intros Hwf Hk. unfold BytesFrom. rewrite (Len_wf b Hwf).
  pose proof (zlen_content b Hwf) as Hz. rewrite Hz in *. unfold buf_wf, content in *.
  replace (- k <? 0) with true by lia. rewrite !i32_small by (rewrite ?i32_small; lia).
  rewrite slice_Some by lia. simpl. f_equal. rewrite skipn_firstn_comm, drop_drop.
  f_equal; [lia|f_equal; lia].
Qed.

Lemma BytesFrom_zero b : buf_wf b -> BytesFrom b 0 = Ok (content b).
Proof.
  intros Hwf. unfold BytesFrom, buf_wf, content in *. simpl. rewrite Z.add_0_r.
  rewrite i32_small by lia. by rewrite slice_Some by lia.
Qed.

(** The computation [m] on a scratch buffer and a reader succeeds with [a],
    consuming exactly [d] into the buffer. *)
Definition reads {R A} `{Reader R} (m : ST (Buffer * R) A) (d : bytes) (a : A) : Prop :=
  forall b r rest, buf_wf b -> zlen d <= room b -> rd_wf r -> rd_content r = d ++ rest ->
  exists r', m (b, r) = ((push b d, r'), Ok a) /\ rd_wf r' /\ rd_end r' = rd_end r /\
    rd_content r' = rest.

Section Reads.
Context {R : Type} `{Reader R}.

Lemma ReadFullFrom_exact b r d rest :
  buf_wf b -> zlen d <= room b -> rd_wf r -> rd_content r = d ++ rest ->
  exists r', ReadFullFrom (zlen d) (b, r) = ((push b d, r'), Ok (zlen d)) /\ rd_wf r' /\
    rd_end r' = rd_end r /\ rd_content r' = rest.
Proof.
  intros Hb Hd Hr Hc. pose proof (zlen_nonneg d).
  destruct (ReadFullFrom_spec b Hb r Hr (zlen d)) as (r' & ? & ? & Hc' & HE); [lia|].
  exists r'. rewrite HE, Hc. rewrite Hc in Hc'.
  assert (Z.to_nat (zlen d) = length d) as Hl by (unfold zlen; lia). rewrite Hl in *.
  rewrite take_app_length. rewrite drop_app_length in Hc'.
  replace (zlen d <=? zlen (d ++ rest)) with true
    by (rewrite zlen_app; pose proof (zlen_nonneg rest); lia). done.
Qed.

Lemma reads_ret {A} (a : A) : reads (mret a) [] a.
Proof. intros b r rest Hb Hd Hr Hc. exists r. rewrite push_nil by done. done. Qed.

Lemma reads_bind {A B} (m : ST (Buffer * R) A) (f : A -> ST (Buffer * R) B) d1 d2 a c :
  reads m d1 a -> reads (f a) d2 c -> reads (m ≫= f) (d1 ++ d2) c.
Proof.
  intros Hm Hf b r rest Hb Hd Hr Hc. rewrite zlen_app in Hd. rewrite <- app_assoc in Hc.
  pose proof (zlen_nonneg d1). pose proof (zlen_nonneg d2).
  destruct (Hm b r (d2 ++ rest) Hb ltac:(lia) Hr Hc) as (r1 & E1 & Hr1 & He1 & Hc1).
  destruct (Hf (push b d1) r1 rest) as (r2 & E2 & Hr2 & He2 & Hc2);
    [by apply push_wf; [|lia]|rewrite push_room by (done || lia); lia|done|done|].
  exists r2. unfold mbind, st_bind. rewrite E1, E2.
  rewrite push_push by (done || lia). by rewrite He2, He1.
Qed.

Lemma reads_last {A B} (m : ST (Buffer * R) A) (f : A -> ST (Buffer * R) B) d a b :
  reads m d a -> f a = mret b -> reads (m ≫= f) d b.
Proof.
  intros Hm Hf. rewrite <- (app_nil_r d). eapply reads_bind; [exact Hm|].
  rewrite Hf. apply reads_ret.
Qed.

Lemma reads_lift {A B} (x : res A) a (f : A -> ST (Buffer * R) B) d c :
  x = Ok a -> reads (f a) d c -> reads (st_lift x ≫= f) d c.
Proof. intros -> Hf. exact Hf. Qed.

Lemma reads_step {A B} k (d : bytes) (g : Buffer -> res A) a (f : A -> ST (Buffer * R) B) d2 c :
  k = zlen d -> (forall b, buf_wf b -> zlen d <= room b -> g (push b d) = Ok a) ->
  reads (f a) d2 c ->
  reads (_ ← ReadFullFrom k; x ← (fun s => (s, g s.1)); f x) (d ++ d2) c.
Proof.
  intros -> Hg Hf b r rest Hb Hd Hr Hc. rewrite zlen_app in Hd. rewrite <- app_assoc in Hc.
  pose proof (zlen_nonneg d). pose proof (zlen_nonneg d2).
  destruct (ReadFullFrom_exact b r d (d2 ++ rest) Hb ltac:(lia) Hr Hc) as (r1 & E1 & Hr1 & He1 & Hc1).
  destruct (Hf (push b d) r1 rest) as (r2 & E2 & Hr2 & He2 & Hc2);
    [by apply push_wf; [|lia]|rewrite push_room by (done || lia); lia|done|done|].
  exists r2. unfold mbind, st_bind. rewrite E1. cbn [fst]. rewrite Hg by (done || lia).
  rewrite E2, push_push by (done || lia). by rewrite He2, He1.
Qed.

(** Read [k] bytes, then look at the last [k] bytes of the buffer. *)
Lemma reads_bytes {B} k (d : bytes) (f : bytes -> ST (Buffer * R) B) d2 c :
  k = zlen d -> 0 < k -> reads (f d) d2 c ->
  reads (_ ← ReadFullFrom k; x ← (fun s => (s, BytesFrom s.1 (- k))); f x) (d ++ d2) c.
Proof.
  intros -> Hk Hf. apply (reads_step (zlen d) d (fun b => BytesFrom b (- zlen d)) d f d2 c); [done| |done].
  intros b Hb Hr. rewrite BytesFrom_neg; rewrite ?push_content by done;
    [|by apply push_wf|rewrite zlen_app; pose proof (zlen_nonneg (content b)); lia].
  do 2 f_equal. rewrite zlen_app. replace (Z.to_nat _) with (length (content b)) by (unfold zlen; lia).
  by rewrite drop_app_length.
Qed.

Lemma reads_bytes_last {B} k (d : bytes) (f : bytes -> ST (Buffer * R) B) c :
  k = zlen d -> 0 < k -> f d = mret c ->
  reads (_ ← ReadFullFrom k; x ← (fun s => (s, BytesFrom s.1 (- k))); f x) d c.
Proof.
  intros Hd Hk Hf. rewrite <- (app_nil_r d). apply reads_bytes; [done|done|].
  rewrite Hf. apply reads_ret.
Qed.

(** Read one byte, then look at the last byte of the buffer. *)
Lemma reads_byte {B} (x : byte) (f : byte -> ST (Buffer * R) B) d2 c :
  reads (f x) d2 c ->
  reads (_ ← ReadFullFrom 1; x ← (fun s => (s, Byte s.1 (i32 (Len (Some s.1) - 1)))); f x)
    (x :: d2) c.
Proof.
  intros Hf. apply (reads_step 1 [x] (fun b => Byte b (i32 (Len (Some b) - 1))) x f d2 c); [done| |done].
  intros b Hb Hr. pose proof (push_wf b Hb [x] Hr) as Hp. rewrite (Len_wf _ Hp).
  pose proof (zlen_content _ Hp) as Hz. rewrite push_content, zlen_app, zlen_cons, zlen_nil in * by done.
  pose proof (zlen_nonneg (content b)). rewrite i32_small by (unfold buf_wf in Hp; lia).
  rewrite (Byte_wf _ _ Hp) by (rewrite push_content by done; len).
  rewrite push_content by done. replace (Z.to_nat (zlen (content b) + (1 + 0) - 1)) with (length (content b)) by (unfold zlen; lia).
  by rewrite list_lookup_middle.
Qed.
End Reads.

(** ** Computations that never panic *)

(** From every buffer that satisfies [P] and every reader, [m] does not panic,
    keeps both well formed, and its results satisfy [Q]. *)
Definition small_buf (b : Buffer) : Prop := buf_wf b /\ zlen (v b) < 2 ^ 30.

(** [r'] is [r] after some of its content was read. *)
Definition later {R} `{Reader R} (r r' : R) : Prop :=
  rd_wf r' /\ rd_end r' = rd_end r /\ rd_content r' `suffix_of` rd_content r.

Definition safe {R A} `{Reader R} (P : Buffer -> Prop) (m : ST (Buffer * R) A) (Q : A -> Prop) : Prop :=
  forall b r, small_buf b -> P b -> rd_wf r ->
  exists b' r' x, m (b, r) = ((b', r'), x) /\ x <> Panic /\ small_buf b' /\ later r r' /\
    (forall a, x = Ok a -> Q a).

Definition anybuf (b : Buffer) : Prop := True.
Definition nonempty (b : Buffer) : Prop := content b <> [].

Section Safe.
Context {R : Type} `{Reader R}.

Lemma later_refl (r : R) : rd_wf r -> later r r.
Proof. by repeat split. Qed.

Lemma later_trans (r1 r2 r3 : R) : later r1 r2 -> later r2 r3 -> later r1 r3.
Proof. intros (? & ? & ?) (? & ? & ?). split; [done|split; [congruence|by etrans]]. Qed.

Lemma small_push b d : small_buf b -> zlen d <= room b -> small_buf (push b d).
Proof.
  intros [Hwf Hs] Hd. split; [by apply push_wf|]. by rewrite push_v_length.
Qed.

Lemma ReadFullFrom_cases b r size :
  small_buf b -> rd_wf r -> 0 <= size < 2 ^ 30 ->
  (exists d r', ReadFullFrom size (b, r) = ((push b d, r'), Ok size) /\ zlen d = size /\
     size <= room b /\ later r r') \/
  (exists b' r' e, ReadFullFrom size (b, r) = ((b', r'), Err e) /\ small_buf b' /\ later r r').
Proof.
  intros [Hwf Hs] Hr Hsz. destruct (Z.le_gt_cases size (room b)) as [Hle|Hgt].
  - destruct (ReadFullFrom_spec b Hwf r Hr size ltac:(lia)) as (r' & Hr' & He & Hc & E).
    assert (later r r') by (split; [done|split; [done|rewrite Hc; apply suffix_drop]]).
    destruct (size <=? zlen (rd_content r)) eqn:El.
    + left. eexists _, r'. split_and!; [exact E| |done|done]. unfold zlen in *. rewrite length_take. lia.
    + right. eexists _, r', _. split_and!; [exact E| |done]. apply small_push; [by split|].
      unfold zlen in *. rewrite length_take. lia.
  - right. exists b, r, (NewError "out of bound: "). split_and!; [|by split|by apply later_refl].
    apply ReadFullFrom_oob; [done|lia|unfold buf_wf in Hwf; lia|lia].
Qed.

Lemma safe_ret {A} P (a : A) (Q : A -> Prop) : Q a -> safe P (mret a : ST (Buffer * R) A) Q.
Proof.
  intros HQ b r Hb HP Hr. exists b, r, (Ok a). split_and!; try done. by intros ? [= <-].
Qed.

Lemma safe_err {A} P e (Q : A -> Prop) : safe P (st_err e : ST (Buffer * R) A) Q.
Proof. intros b r Hb HP Hr. exists b, r, (Err e). by split_and!. Qed.

Lemma safe_bind {A B} P (m : ST (Buffer * R) A) (f : A -> ST (Buffer * R) B) (Q : A -> Prop) (T : B -> Prop) :
  safe P m Q -> (forall a, Q a -> safe anybuf (f a) T) -> safe P (m ≫= f) T.
Proof.
  intros Hm Hf b r Hb HP Hr. destruct (Hm b r Hb HP Hr) as (b1 & r1 & x & E & Hx & Hb1 & Hr1 & HQ).
  unfold mbind, st_bind. rewrite E. destruct x as [a|e|]; [| |done].
  - destruct (Hf a (HQ a eq_refl) b1 r1 Hb1 I (proj1 Hr1)) as (b2 & r2 & y & ? & ? & ? & ? & ?).
    exists b2, r2, y. split_and!; try done. by eapply later_trans.
  - by exists b1, r1, (Err e).
Qed.

Lemma safe_step {A B} P k (g : Buffer -> res A) (G : A -> Prop) (P' : Buffer -> Prop)
    (f : A -> ST (Buffer * R) B) (T : B -> Prop) :
  0 <= k < 2 ^ 30 ->
  (forall b d, buf_wf b -> P b -> zlen d = k -> zlen d <= room b ->
     P' (push b d) /\ exists a, g (push b d) = Ok a /\ G a) ->
  (forall a, G a -> safe P' (f a) T) ->
  safe P (_ ← ReadFullFrom k; x ← (fun s => (s, g s.1)); f x) T.
Proof.
  intros Hk Hg Hf b r Hb HP Hr. unfold mbind, st_bind.
  destruct (ReadFullFrom_cases b r k Hb Hr Hk) as [(d & r1 & E & Hd & Hle & Hr1)|(b1 & r1 & e & E & ? & ?)];
    rewrite E; [|by exists b1, r1, (Err e)].
  destruct (Hg b d (proj1 Hb) HP Hd ltac:(lia)) as (HP' & a & Ha & HG). cbn [fst]. rewrite Ha.
  destruct (Hf a HG (push b d) r1) as (b2 & r2 & y & ? & ? & ? & ? & ?);
    [apply small_push; [done|lia]|done|apply Hr1|].
  exists b2, r2, y. split_and!; try done. by eapply later_trans.
Qed.

Lemma safe_bytes {B} P k (f : bytes -> ST (Buffer * R) B) (T : B -> Prop) :
  0 < k < 2 ^ 30 -> (forall d, zlen d = k -> safe anybuf (f d) T) ->
  safe P (_ ← ReadFullFrom k; x ← (fun s => (s, BytesFrom s.1 (- k))); f x) T.
Proof.
  intros Hk Hf.
  apply (safe_step P k (fun b => BytesFrom b (- k)) (fun d => zlen d = k) anybuf); [lia| |done].
  intros b d Hb _ Hd Hr. split; [done|]. exists d. split; [|done].
  rewrite BytesFrom_neg; [|by apply push_wf|rewrite push_content, zlen_app by done;
    pose proof (zlen_nonneg (content b)); lia].
  rewrite push_content by done. f_equal. rewrite zlen_app.
  replace (Z.to_nat _) with (length (content b)) by (unfold zlen in *; lia). by rewrite drop_app_length.
Qed.

(** As [safe_bytes], for a length that may be 0: the slice is then the whole
    content, which must not be empty. *)
Lemma safe_bytes_any {B} k (f : bytes -> ST (Buffer * R) B) (T : B -> Prop) :
  0 <= k < 2 ^ 30 -> (forall d, d <> [] -> safe anybuf (f d) T) ->
  safe nonempty (_ ← ReadFullFrom k; x ← (fun s => (s, BytesFrom s.1 (- k))); f x) T.
Proof.
  intros Hk Hf. destruct (decide (k = 0)) as [->|Hk0].
  - apply (safe_step nonempty 0 (fun b => BytesFrom b (- 0)) (fun d => d <> []) anybuf); [lia| |done].
    intros b d Hb Hne Hd Hr. split; [done|]. exists (content b). split; [|done].
    change (- 0) with 0. rewrite BytesFrom_zero by by apply push_wf. rewrite push_content by done.
    destruct d; [by rewrite app_nil_r|]. unfold zlen in Hd. simpl in Hd. lia.
  - apply safe_bytes; [lia|]. intros d Hd. apply Hf. intros ->. unfold zlen in Hd. simpl in Hd. lia.
Qed.

Lemma safe_byte {B} P (f : byte -> ST (Buffer * R) B) (T : B -> Prop) :
  (forall x, safe nonempty (f x) T) ->
  safe P (_ ← ReadFullFrom 1; x ← (fun s => (s, Byte s.1 (i32 (Len (Some s.1) - 1)))); f x) T.
Proof.
  intros Hf. apply (safe_step P 1 (fun b => Byte b (i32 (Len (Some b) - 1))) (fun _ => True) nonempty);
    [lia| |done].
  intros b d Hb _ Hd Hr. destruct d as [|x [|y d]]; [done| |unfold zlen in Hd; simpl in Hd; lia].
  unfold nonempty. rewrite push_content by done. split; [by destruct (content b)|].
  pose proof (push_wf b Hb [x] Hr) as Hp. rewrite (Len_wf _ Hp).
  pose proof (zlen_content _ Hp) as Hz. rewrite push_content in * by done.
  rewrite i32_small by (unfold buf_wf in Hp; len).
  rewrite (Byte_wf _ _ Hp) by (rewrite push_content by done; len).
  rewrite push_content by done.
  destruct ((content b ++ [x]) !! Z.to_nat (zlen (content b ++ [x]) - 1)) as [y|] eqn:E; [by exists y|].
  apply lookup_ge_None in E. len.
Qed.
End Safe.

(** ** Extend, and the copy into the extended part *)
Lemma Extend_poke b d n :
  buf_wf b -> n = zlen d -> zlen d <= room b ->
  exists ext, Extend b n = Ok (ext, (end_ b, end_ b + n)) /\
    poke ext (end_ b, end_ b + n) d = push b d /\ v ext = v b.
Proof.
  intros Hwf -> Hd. pose proof (zlen_nonneg d). unfold Extend. unfold room, buf_wf in *.
  rewrite i32_small by lia. replace (zlen (v b) <? _) with false by lia.
  rewrite slice_Some by lia. eexists. split; [reflexivity|]. split; [|done].
  unfold poke, push, copy_at. cbn [v start end_ owner fst snd]. f_equal.
  rewrite (take_ge d) by (unfold zlen; lia).
  rewrite Nat.min_r by (unfold zlen in *; lia). rewrite (take_ge d) by lia. do 3 f_equal.
  unfold zlen. lia.
Qed.

(** ** Reading a byte or a field *)
Section ReadParts.
Context (b : Buffer) (Hwf : buf_wf b).

Lemma ReadByte_wf :
  ReadByte b = match content b with [] => (b, Err EOF) | x :: _ => (pop b 1, Ok x) end.
Proof using Hwf.
  pose proof (zlen_content b Hwf) as Hl. unfold ReadByte, pop. unfold buf_wf in Hwf.
  destruct (content b) as [|x c] eqn:E.
  - by replace (start b =? end_ b) with true by (rewrite zlen_nil in Hl; lia).
  - rewrite zlen_cons in Hl. pose proof (zlen_nonneg c).
    replace (start b =? end_ b) with false by lia. rewrite i32_small by lia.
    replace (index (v b) (start b)) with (Some x); [done|]. symmetry. apply index_Some. split; [lia|].
    replace (Z.to_nat (start b)) with (Z.to_nat (start b) + 0)%nat by lia. rewrite <- lookup_drop.
    rewrite <- (lookup_take_lt _ (Z.to_nat (end_ b - start b))) by lia. unfold content in E. by rewrite E.
Qed.

Lemma ReadBytes_wf n :
  0 <= n < 2 ^ 31 ->
  ReadBytes n b = if n <=? zlen (content b) then (pop b n, Ok (take (Z.to_nat n) (content b))) else (b, Err EOF).
Proof using Hwf.
  intros Hn. rewrite zlen_content by done. unfold ReadBytes, pop. unfold buf_wf in Hwf.
  rewrite i32_small by lia. destruct (n <=? _) eqn:E.
  - replace (_ <? n) with false by lia. rewrite i32_small by lia. rewrite slice_Some by lia.
    do 2 f_equal. unfold content. rewrite take_take. f_equal. lia.
  - by replace (_ <? n) with true by lia.
Qed.

(** A negative length passes the test and slices backwards. *)
Lemma ReadBytes_neg n : - 2 ^ 31 <= n < 0 -> ReadBytes n b = (b, Panic).
Proof using Hwf.
  intros Hn. unfold ReadBytes. unfold buf_wf in Hwf. rewrite i32_small by lia.
  replace (_ <? n) with false by lia. unfold slice. by rewrite i32_small, andb_false_intro1 by lia.
Qed.
End ReadParts.

Lemma FromBytes_content d : zlen d < 2 ^ 31 -> buf_wf (FromBytes d) /\ content (FromBytes d) = d.
Proof.
  intros. pose proof (zlen_nonneg d). unfold buf_wf, content, FromBytes. cbn [start end_ v].
  rewrite i32_small by lia. split; [lia|]. rewrite drop_0. apply firstn_all2. unfold zlen in *. lia.
Qed.
