(* ===== verification/MultiBuf.v ===== *)
(** * Package common/buf: MultiBuffer

    [Module MultiBuf] models common/buf/multi_buffer.go.  A [MultiBuffer] is the
    list of its buffers, which its holder owns: the entries the source sets to
    nil are the ones it drops from the slice it returns. *)
From S2P Require Import Prelude GoStd Buf.
Import Buf.

Module MultiBuf.

Abbreviation MultiBuffer := (list Buffer).

(** The pair is the new [dest] and [src]. *)
Definition MergeMulti (dest src : MultiBuffer) : MultiBuffer * MultiBuffer := (dest ++ src, []).

(** The loop of [MergeBytes]: a new buffer takes at most [Size] bytes. *)
Fixpoint MergeBytesLoop (fuel : nat) (dest : MultiBuffer) (src : bytes) : option (res MultiBuffer) :=
  match src with
  | [] => Some (Ok dest)
  | _ :: _ =>
    match fuel with
    | O => None
    | S f =>
      match Write src New with
      | (b, Ok nBytes) => MergeBytesLoop f (dest ++ [b]) (drop (Z.to_nat nBytes) src)
      | (_, Err e) => Some (Err e)
      | (_, Panic) => Some Panic
      end
    end
  end.

Definition MergeBytes (dest : MultiBuffer) (src : bytes) : option (res MultiBuffer) :=
  match last dest with
  | Some b =>
    if negb (IsFull (Some b)) then
      match Write src b with
      | (b', Ok nBytes) =>
        let src' := drop (Z.to_nat nBytes) src in
        MergeBytesLoop (length src') (removelast dest ++ [b']) src'
      | (_, Err e) => Some (Err e)
      | (_, Panic) => Some Panic
      end
    else MergeBytesLoop (length src) dest src
  | None => MergeBytesLoop (length src) dest src
  end.

Definition ReleaseMulti (mb : MultiBuffer) : MultiBuffer := [].

(** [mb.Copy(b)] with [n = len(b)]: the bytes copied. *)
Fixpoint Copy (mb : MultiBuffer) (n : nat) : res bytes :=
  match mb with
  | [] => Ok []
  | bb :: mb' =>
    c ← Bytes bb;
    let d := take n c in
    if i32 (zlen d) <? Len (Some bb) then Ok d
    else rest ← Copy mb' (n - length d); Ok (d ++ rest)
  end.

Definition Len (mb : MultiBuffer) : Z :=
  fold_left (fun size b => i32 (size + Buf.Len (Some b))) mb 0.

Definition IsEmpty (mb : MultiBuffer) : bool := forallb (fun b => Buf.IsEmpty (Some b)) mb.

(** [SplitBytes(mb, b)] with [n = len(b)]: the leftover and the bytes written.
    A buffer that ends up empty is released and the next one is read. *)
Fixpoint SplitBytes (mb : MultiBuffer) (n : nat) : res (MultiBuffer * bytes) :=
  match mb with
  | [] => Ok ([], [])
  | pBuffer :: mb' =>
    match Read n pBuffer with
    | (_, Panic) => Panic
    | (pBuffer', r) =>
      let d := match r with Ok d => d | _ => [] end in
      if negb (Buf.IsEmpty (Some pBuffer')) then Ok (pBuffer' :: mb', d)
      else '(rest, d') ← SplitBytes mb' (n - length d); Ok (rest, d ++ d')
    end
  end.

Definition SplitFirst (mb : MultiBuffer) : MultiBuffer * option Buffer :=
  match mb with [] => ([], None) | b :: mb' => (mb', Some b) end.

Definition SplitFirstBytes (mb : MultiBuffer) (n : nat) : res (MultiBuffer * bytes) :=
  match SplitFirst mb with
  | (mb', None) => Ok (mb', [])
  | (mb', Some b) => c ← Bytes b; Ok (mb', take n c)
  end.

(** The loop of [Compact]; [common.Must2] panics on the error of [ReadFrom]. *)
Fixpoint CompactLoop (mb2 : MultiBuffer) (last : Buffer) (mb : MultiBuffer) : res MultiBuffer :=
  match mb with
  | [] => Ok (mb2 ++ [last])
  | curr :: mb' =>
    if Size <? i32 (Buf.Len (Some last) + Buf.Len (Some curr))
    then CompactLoop (mb2 ++ [last]) curr mb'
    else match ReadFrom (last, curr) with
         | ((last', _), Ok _) => CompactLoop mb2 last' mb'
         | _ => Panic
         end
  end.

Definition Compact (mb : MultiBuffer) : res MultiBuffer :=
  match mb with
  | [] => Ok []
  | b :: mb' => CompactLoop [] b mb'
  end.

(** The loop of [SplitSize]: whole buffers while they fit in [size] bytes. *)
Fixpoint SplitSizeLoop (mb : MultiBuffer) (totalBytes size : Z) : MultiBuffer * MultiBuffer :=
  match mb with
  | [] => ([], [])
  | b :: mb' =>
    if size <? i32 (totalBytes + Buf.Len (Some b)) then (mb, [])
    else let '(rest, r) := SplitSizeLoop mb' (i32 (totalBytes + Buf.Len (Some b))) size in
         (rest, b :: r)
  end.

Definition SplitSize (mb : MultiBuffer) (size : Z) : res (MultiBuffer * MultiBuffer) :=
  match mb with
  | [] => Ok ([], [])
  | b0 :: mb' =>
    if size <? Buf.Len (Some b0) then
      '(b, w) ← Extend New size;
      d ← BytesTo b0 size;
      Ok (Advance b0 size :: mb', [poke b w d])
    else Ok (SplitSizeLoop mb 0 size)
  end.

(** [ReadFrom(reader)] with the number of rounds as fuel: the buffers read, and
    the error if it is not an end of file.  [None] is out of fuel. *)
Definition Cause (e : error) : error :=
  (fix go e := match e with Based _ i => go i | _ => e end) e.

Section Io.
Context {R : Type} `{Reader R} {W : Type} `{Writer W}.

Fixpoint ReadFromLoop (fuel : nat) (mb : MultiBuffer) (r : R)
    : option (R * res (MultiBuffer * option error)) :=
  match fuel with
  | O => None
  | S f =>
    let '((b, r'), rr) := ReadFullFrom Size (New, r) in
    let mb' := if Buf.IsEmpty (Some b) then mb else mb ++ [b] in
    match rr with
    | Ok _ => ReadFromLoop f mb' r'
    | Err err =>
      if decide (Cause err = EOF \/ Cause err = ErrUnexpectedEOF)
      then Some (r', Ok (mb', None)) else Some (r', Ok (mb', Some err))
    | Panic => Some (r', Panic)
    end
  end.

Definition ReadFrom (r : R) : option (R * res (MultiBuffer * option error)) :=
  ReadFromLoop (S (length (rd_content r))) [] r.

Definition ReadAllToBytes (r : R) : option (R * res bytes) :=
  match ReadFrom r with
  | None => None
  | Some (r', Ok (mb, None)) =>
    if Len mb =? 0 then Some (r', Ok [])
    else Some (r', '(_, d) ← SplitBytes mb (Z.to_nat (Len mb)); Ok d)
  | Some (r', Ok (_, Some err)) => Some (r', Err err)
  | Some (r', Err e) => Some (r', Err e)
  | Some (r', Panic) => Some (r', Panic)
  end.

(** Writes the buffers one by one; the leftover comes with the error. *)
Fixpoint WriteMultiBuffer (mb : MultiBuffer) (w : W) : W * res (MultiBuffer * option error) :=
  match mb with
  | [] => (w, Ok ([], None))
  | b :: mb' =>
    match Bytes b with
    | Ok c =>
      match wr c w with
      | (w', Ok _) => WriteMultiBuffer mb' w'
      | (w', Err e) => (w', Ok (mb', Some e))
      | (w', Panic) => (w', Panic)
      end
    | Err e => (w, Err e)
    | Panic => (w, Panic)
    end
  end.
End Io.

(** ** MultiBufferContainer *)
Record MultiBufferContainer := { container : MultiBuffer }.

Definition container_Read (n : nat) : ST MultiBufferContainer bytes := fun c =>
  if IsEmpty (container c) then (c, Err EOF) else
  match SplitBytes (container c) n with
  | Ok (mb, d) => ({| container := mb |}, Ok d)
  | Err e => (c, Err e)
  | Panic => (c, Panic)
  end.

Definition container_ReadMultiBuffer : ST MultiBufferContainer MultiBuffer := fun c =>
  ({| container := [] |}, Ok (container c)).

Definition container_Write (b : bytes) : ST MultiBufferContainer Z := fun c =>
  match MergeBytes (container c) b with
  | Some (Ok mb) => ({| container := mb |}, Ok (zlen b))
  | Some (Err e) => (c, Err e)
  | _ => (c, Panic)
  end.

Definition container_WriteMultiBuffer (b : MultiBuffer) : ST MultiBufferContainer unit := fun c =>
  ({| container := (MergeMulti (container c) b).1 |}, Ok tt).

Definition container_Close : ST MultiBufferContainer unit := fun c =>
  ({| container := ReleaseMulti (container c) |}, Ok tt).

(** ** The container as a queue of bytes

    [cop] is a call on the container, [container_step] runs it and [queue_step]
    is the specification: the same call on a queue of bytes. *)
Inductive cop :=
  | CWrite (b : bytes)
  | CRead (n : nat)
  | CWriteMultiBuffer (mb : MultiBuffer)
  | CReadMultiBuffer
  | CClose.

Definition mb_content (mb : MultiBuffer) : bytes := concat (map content mb).

Definition container_step (o : cop) (c : MultiBufferContainer) : MultiBufferContainer * res bytes :=
  match o with
  | CWrite b => let '(c', r) := container_Write b c in (c', _ ← r; Ok [])
  | CRead n => container_Read n c
  | CWriteMultiBuffer mb => let '(c', r) := container_WriteMultiBuffer mb c in (c', _ ← r; Ok [])
  | CReadMultiBuffer => let '(c', r) := container_ReadMultiBuffer c in (c', mb_content <$> r)
  | CClose => let '(c', r) := container_Close c in (c', _ ← r; Ok [])
  end.

Definition queue_step (o : cop) (q : bytes) : bytes * res bytes :=
  match o with
  | CWrite b => (q ++ b, Ok [])
  | CRead n => if bool_decide (q = []) then (q, Err EOF) else (drop n q, Ok (take n q))
  | CWriteMultiBuffer mb => (q ++ mb_content mb, Ok [])
  | CReadMultiBuffer => ([], Ok q)
  | CClose => ([], Ok [])
  end.

Fixpoint run {S} (step : cop -> S -> S * res bytes) (ops : list cop) (s : S) : S * list (res bytes) :=
  match ops with
  | [] => (s, [])
  | o :: ops' => let '(s', r) := step o s in
                 let '(s'', rs) := run step ops' s' in (s'', r :: rs)
  end.

(** ** Well-formedness *)
Definition mb_wf (mb : MultiBuffer) : Prop := Forall buf_wf mb.
Definition cop_wf (o : cop) : Prop :=
  match o with CWriteMultiBuffer mb => mb_wf mb | _ => True end.

(** A buffer that [Compact] can append to: nothing consumed yet, a full-size
    array, and not empty. *)
Definition compactable (b : Buffer) : Prop :=
  buf_wf b /\ start b = 0 /\ Size <= zlen (v b) /\ content b <> [].

End MultiBuf.

Import MultiBuf.

(** ** Lemmas *)
Lemma mb_content_app a b : mb_content (a ++ b) = mb_content a ++ mb_content b.
Proof. unfold mb_content. by rewrite map_app, concat_app. Qed.
Lemma mb_content_cons b mb : mb_content (b :: mb) = content b ++ mb_content mb.
Proof. done. Qed.
Lemma mb_content_one b : mb_content [b] = content b.
Proof. apply app_nil_r. Qed.

Lemma mb_wf_app a b : mb_wf (a ++ b) <-> mb_wf a /\ mb_wf b.
Proof. apply Forall_app. Qed.

Create Rewrite HintDb mb.
#[export] Hint Rewrite mb_content_app mb_content_cons mb_content_one mb_wf_app : mb.

Lemma MergeBytesLoop_spec fuel dest src :
  mb_wf dest -> (length src <= fuel)%nat ->
  exists mb, MergeBytesLoop fuel dest src = Some (Ok mb) /\ mb_wf mb /\
    mb_content mb = mb_content dest ++ src.
Proof.
  revert dest src. induction fuel as [|f IH]; intros dest src Hd Hl.
  - destruct src; [|simpl in Hl; lia]. exists dest. simpl. by rewrite app_nil_r.
  - destruct src as [|x s]; [exists dest; simpl; by rewrite app_nil_r|].
    cbn [MergeBytesLoop]. rewrite (Write_spec New New_wf), New_room.
    set (src := x :: s) in *. set (n := Z.min 2048 (zlen src)).
    assert (Hn : 1 <= n <= zlen src) by (unfold n, src, zlen; simpl; lia).
    assert (Hp : zlen (take (Z.to_nat 2048) src) <= room New)
      by (rewrite New_room; unfold zlen; rewrite length_take; lia).
    destruct (IH (dest ++ [push New (take (Z.to_nat 2048) src)]) (drop (Z.to_nat n) src))
      as (mb & Hmb & Hwf & Hc).
    + apply mb_wf_app. split; [done|]. constructor; [|done]. by apply push_wf; [apply New_wf|].
    + unfold zlen in *. rewrite length_drop. lia.
    + exists mb. split; [done|]. split; [done|].
      rewrite Hc, mb_content_app, mb_content_one, push_content by apply New_wf.
      rewrite New_content, <- app_assoc. f_equal. cbn [app].
      replace (take (Z.to_nat 2048) src) with (take (Z.to_nat n) src); [apply take_drop|].
      destruct (Z.le_gt_cases (zlen src) 2048).
      * rewrite !take_ge; [done|unfold zlen in *; lia|unfold n, zlen in *; lia].
      * f_equal. lia.
Qed.

Lemma MergeBytes_spec dest src :
  mb_wf dest ->
  exists mb, MergeBytes dest src = Some (Ok mb) /\ mb_wf mb /\
    mb_content mb = mb_content dest ++ src.
Proof.
  intros Hd. unfold MergeBytes. destruct (last dest) as [b|] eqn:El; [|by apply MergeBytesLoop_spec].
  destruct (negb _); [|by apply MergeBytesLoop_spec].
  apply last_Some in El as [k ->]. apply mb_wf_app in Hd as [Hk Hb].
  assert (Hwf : buf_wf b) by by inversion Hb.
  rewrite removelast_last. rewrite (Write_spec b Hwf).
  set (d := take _ _). set (n := Z.min _ _).
  assert (Hr : 0 <= room b) by (unfold buf_wf, room in *; lia).
  assert (Hd : zlen d <= room b) by (unfold d, zlen; rewrite length_take; lia).
  destruct (MergeBytesLoop_spec (length (drop (Z.to_nat n) src)) (k ++ [push b d])
    (drop (Z.to_nat n) src)) as (mb & Hmb & Hwf' & Hc); [|done|].
  - apply mb_wf_app. split; [done|]. constructor; [|done]. by apply push_wf.
  - exists mb. split; [done|]. split; [done|].
    rewrite Hc. autorewrite with mb. rewrite push_content by done. rewrite <- !app_assoc. do 2 f_equal.
    replace d with (take (Z.to_nat n) src); [apply take_drop|]. unfold d, n.
    destruct (Z.le_gt_cases (zlen src) (room b)).
    + rewrite !take_ge; [done|unfold zlen in *; lia|unfold zlen in *; lia].
    + f_equal. lia.
Qed.

Lemma IsEmpty_spec mb : mb_wf mb -> IsEmpty mb = bool_decide (mb_content mb = []).
Proof.
  induction 1 as [|b mb Hb Hmb IH]; [done|]. unfold IsEmpty in *. cbn [forallb].
  rewrite IH, (IsEmpty_wf b Hb), mb_content_cons.
  by destruct (content b).
Qed.

Lemma Len_acc mb z :
  mb_wf mb -> 0 <= z -> z + zlen (mb_content mb) < 2 ^ 31 ->
  fold_left (fun size b => i32 (size + Buf.Len (Some b))) mb z = z + zlen (mb_content mb).
Proof.
  intros Hwf. revert z. induction Hwf as [|b mb Hb Hmb IH]; intros z Hz Hl; [simpl; unfold zlen; simpl; lia|].
  rewrite mb_content_cons, zlen_app in *. cbn [fold_left]. rewrite (Len_wf b Hb).
  pose proof (zlen_nonneg (content b)). pose proof (zlen_nonneg (mb_content mb)).
  rewrite i32_small by lia. rewrite IH; lia.
Qed.

Lemma Len_spec mb :
  mb_wf mb -> zlen (mb_content mb) < 2 ^ 31 -> Len mb = zlen (mb_content mb).
Proof. intros. unfold Len. rewrite Len_acc; [lia|done|lia|lia]. Qed.

(** A reading step on one buffer, errors of empty buffers included. *)
Lemma Read_total b n :
  buf_wf b ->
  exists b' r, Read n b = (b', r) /\ r <> Panic /\ buf_wf b' /\
    content b' = drop n (content b) /\
    (match r with Ok d => d | _ => [] end) = take n (content b).
Proof.
  intros Hwf. destruct (decide (content b = [])) as [E|E].
  - exists b, (Err EOF). rewrite (Read_empty b Hwf n E), E. by rewrite drop_nil, take_nil.
  - destruct (Read_spec b Hwf n E) as (b' & -> & ? & ? & _). by exists b', (Ok (take n (content b))).
Qed.

Lemma SplitBytes_spec mb n :
  mb_wf mb ->
  exists mb', SplitBytes mb n = Ok (mb', take n (mb_content mb)) /\ mb_wf mb' /\
    mb_content mb' = drop n (mb_content mb).
Proof.
  intros Hwf. revert n. induction Hwf as [|b mb Hb Hmb IH]; intros n.
  - exists []. change (mb_content []) with (@nil byte). rewrite take_nil, drop_nil.
    split_and!; [done|constructor|done].
  - destruct (Read_total b n Hb) as (b' & r & Hr & Hnp & Hwf' & Hc & Hd).
    cbn [SplitBytes]. rewrite Hr, (IsEmpty_wf b' Hwf').
    rewrite mb_content_cons. destruct r as [d|e|]; [| |done]; simpl in Hd; subst;
      (case_bool_decide as Hemp; cbn [negb];
       [rewrite Hc in Hemp; apply drop_nil_inv in Hemp
       |exists (b' :: mb); rewrite mb_content_cons, Hc;
        assert (n < length (content b))%nat
          by (destruct (decide (n < length (content b))%nat); [done|];
              contradict Hemp; rewrite Hc; apply drop_ge; lia);
        rewrite take_app_le, drop_app_le by lia; try rewrite <- Hd; split_and!; [done|by constructor|done]]).
    + rewrite take_ge by lia. destruct (IH (n - length (content b))%nat) as (mb' & -> & ? & Hc').
      exists mb'. simpl. by rewrite take_app_ge, drop_app_ge by lia.
    + rewrite take_ge in Hd by lia. rewrite <- Hd in *. simpl in Hemp |- *.
      destruct (IH (n - 0)%nat) as (mb' & -> & ? & Hc').
      exists mb'. simpl. by rewrite Nat.sub_0_r in *.
Qed.

Lemma Copy_spec mb n : mb_wf mb -> Copy mb n = Ok (take n (mb_content mb)).
Proof.
  intros Hwf. revert n. induction Hwf as [|b mb Hb Hmb IH]; intros n; [change (mb_content []) with (@nil byte); by rewrite take_nil|].
  cbn [Copy]. rewrite (Bytes_wf b Hb). simpl. rewrite (Len_wf b Hb), mb_content_cons.
  assert (zlen (content b) < 2 ^ 31) by (rewrite (zlen_content b Hb); unfold buf_wf in Hb; lia).
  rewrite i32_small by (unfold zlen in *; rewrite length_take; lia).
  destruct (zlen (take n (content b)) <? zlen (content b)) eqn:E;
    unfold zlen in E; rewrite length_take in E.
  - by rewrite take_app_le by lia.
  - rewrite IH. simpl. rewrite take_app_ge by lia.
    rewrite take_ge by lia. done.
Qed.

Lemma SplitSizeLoop_spec mb total size :
  mb_wf mb -> 0 <= total -> total + zlen (mb_content mb) < 2 ^ 31 ->
  let '(rest, r) := SplitSizeLoop mb total size in
  mb = r ++ rest /\ (total <= size -> total + zlen (mb_content r) <= size) /\
  (match rest with [] => True | b :: _ => size < total + zlen (mb_content r) + zlen (content b) end).
Proof.
  intros Hwf. revert total. induction Hwf as [|b mb Hb Hmb IH]; intros total Ht Hl.
  - simpl. unfold zlen; simpl. split_and!; [done|lia|done].
  - rewrite mb_content_cons, zlen_app in Hl. cbn [SplitSizeLoop].
    pose proof (zlen_nonneg (mb_content mb)). pose proof (zlen_nonneg (content b)).
    rewrite (Len_wf b Hb). rewrite i32_small by lia.
    destruct (size <? total + zlen (content b)) eqn:E.
    + unfold zlen; simpl. unfold zlen in *. split_and!; [done|lia|lia].
    + specialize (IH (total + zlen (content b))). destruct (SplitSizeLoop mb _ _) as [rest r].
      destruct IH as (-> & IH1 & IH2); [lia|lia|].
      rewrite mb_content_cons, zlen_app. split_and!; [done|lia|].
      destruct rest; [done|]. lia.
Qed.

Lemma Advance_pop b n : buf_wf b -> 0 <= n <= zlen (content b) -> Advance b n = pop b n.
Proof.
  intros Hwf Hn. rewrite (zlen_content b Hwf) in Hn. unfold Advance, pop, buf_wf in *.
  replace (n <? 0) with false by lia. by rewrite i32_small by lia.
Qed.

Lemma New_extend size :
  0 <= size <= 2048 ->
  Extend New size = Ok ({| v := v New; start := 0; end_ := size; owner := managed |}, (0, size)).
Proof.
  intros Hs. unfold Extend. change (end_ New) with 0. rewrite i32_small by lia.
  replace (zlen (v New)) with 2048 by done. replace (2048 <? 0 + size) with false by lia.
  rewrite slice_Some; [done|lia|lia|]. replace (zlen (v New)) with 2048 by done. lia.
Qed.

(** Extending a fresh buffer and filling the window is a write. *)
Lemma New_extend_poke d :
  zlen d <= 2048 ->
  poke {| v := v New; start := 0; end_ := zlen d; owner := managed |} (0, zlen d) d = push New d.
Proof.
  intros Hd. unfold poke, push, copy_at. cbn [fst snd start end_ v New owner].
  rewrite length_replicate. f_equal.
  rewrite (take_ge d) by (unfold zlen in *; lia). rewrite Z.add_0_l.
  unfold zlen in *. change (Z.to_nat 0) with 0%nat. rewrite Nat.min_r by (unfold Size; lia).
  rewrite (take_ge d) by lia. by rewrite Nat2Z.id.
Qed.

Lemma BytesTo_wf b n :
  buf_wf b -> 0 <= n <= zlen (content b) -> BytesTo b n = Ok (take (Z.to_nat n) (content b)).
Proof.
  intros Hwf Hn. rewrite (zlen_content b Hwf) in Hn. unfold BytesTo, buf_wf, content in *.
  replace (n <? 0) with false by lia. rewrite i32_small by lia. rewrite slice_Some by lia.
  simpl. rewrite take_take. do 2 f_equal. lia.
Qed.

Lemma SplitSize_spec mb size :
  mb_wf mb -> 0 <= size -> zlen (mb_content mb) < 2 ^ 31 ->
  (forall b, head mb = Some b -> size < zlen (content b) -> size <= Buf.Size) ->
  exists rest r, SplitSize mb size = Ok (rest, r) /\ mb_wf rest /\ mb_wf r /\
    mb_content mb = mb_content r ++ mb_content rest /\ zlen (mb_content r) <= size /\
    (0 < size -> mb_content mb <> [] -> r <> []).
Proof.
  intros Hwf Hs Hl Hfirst. destruct mb as [|b mb]; [exists [], []; done|].
  pose proof Hwf as Hwf0. apply Forall_cons in Hwf as [Hb Hmb]. unfold SplitSize. rewrite (Len_wf b Hb).
  destruct (size <? zlen (content b)) eqn:E.
  - specialize (Hfirst b eq_refl ltac:(lia)). unfold Buf.Size in Hfirst.
    rewrite New_extend by lia. cbn [mbind res_bind].
    rewrite BytesTo_wf by (auto; lia). cbn [mbind res_bind].
    set (d := take _ _).
    assert (Hd : zlen d = size) by (unfold d, zlen in *; rewrite length_take; lia).
    assert (Hpoke : poke {| v := v New; start := 0; end_ := size; owner := managed |} (0, size) d
      = push New d) by (rewrite <- Hd; apply New_extend_poke; lia).
    rewrite Hpoke.
    rewrite Advance_pop by (auto; lia).
    eexists _, _. split; [reflexivity|]. unfold mb_wf. autorewrite with mb.
    rewrite pop_content, push_content, New_content by (auto with go; lia).
    split_and!.
    + constructor; [apply pop_wf; [done|lia]|done].
    + constructor; [|done]. apply push_wf; [apply New_wf|rewrite New_room; lia].
    + rewrite app_assoc. f_equal. unfold d. cbn [app]. by rewrite take_drop.
    + cbn [app]. lia.
    + done.
  - pose proof (SplitSizeLoop_spec (b :: mb) 0 size Hwf0 ltac:(lia) ltac:(lia)) as Hloop.
    cbn [SplitSizeLoop] in *. rewrite (Len_wf b Hb) in *.
    pose proof (zlen_nonneg (mb_content mb)). pose proof (zlen_nonneg (content b)).
    rewrite mb_content_cons, zlen_app in Hl. rewrite i32_small in * by lia.
    replace (size <? 0 + _) with false in * by lia.
    destruct (SplitSizeLoop mb _ size) as [rest r]. destruct Hloop as (Hmb' & Hle & _).
    exists rest, (b :: r). split; [done|].
    rewrite Hmb' in Hwf0. apply mb_wf_app in Hwf0 as [? ?].
    split_and!; [done|done| |lia|done]. rewrite <- mb_content_app. by rewrite <- Hmb'.
Qed.

Lemma ReadFrom_buffer_spec b c :
  buf_wf b -> buf_wf c -> content c <> [] -> zlen (content c) <= room b ->
  exists c', Buf.ReadFrom (b, c) = ((push b (content c), c'), Ok (zlen (content c))).
Proof.
  intros Hb Hc Hne Hr. unfold Buf.ReadFrom. unfold buf_wf in Hb.
  rewrite slice_Some by lia. cbn [rd buffer_reader]. unfold buffer_rd.
  destruct (Read_spec c Hc (length (take (Z.to_nat (zlen (v b) - end_ b)) (drop (Z.to_nat (end_ b)) (v b)))) Hne)
    as (c' & -> & _).
  exists c'. unfold room in Hr. rewrite take_ge by
    (rewrite length_take, length_drop; unfold zlen in *; lia).
  by rewrite fill_push by (unfold room; auto; lia).
Qed.

Lemma compactable_push b d :
  compactable b -> zlen (content b) + zlen d <= Size -> compactable (push b d).
Proof.
  intros (Hb & Hs & Hv & Hc) Hl. pose proof (zlen_content b Hb).
  assert (zlen d <= room b) by (unfold room; lia).
  split_and!; [by apply push_wf|done|by rewrite push_v_length|].
  rewrite push_content by done. by destruct (content b).
Qed.

Lemma CompactLoop_spec mb2 last mb :
  compactable last -> Forall compactable mb -> zlen (mb_content (last :: mb)) < 2 ^ 31 ->
  exists mb', CompactLoop mb2 last mb = Ok (mb2 ++ mb') /\ Forall compactable mb' /\
    mb_content mb' = mb_content (last :: mb) /\ (1 <= length mb' <= S (length mb))%nat.
Proof.
  intros Hlast Hmb. revert mb2 last Hlast. induction Hmb as [|c mb Hc Hmb IH]; intros mb2 last Hlast Hl.
  - exists [last]. simpl. split_and!; [done|by constructor|done|lia|lia].
  - cbn [CompactLoop]. pose proof Hlast as (Hwf & Hs & Hv & Hne). pose proof Hc as (Hwfc & _ & _ & Hnec).
    rewrite !mb_content_cons, !zlen_app in Hl.
    pose proof (zlen_nonneg (content last)). pose proof (zlen_nonneg (content c)).
    pose proof (zlen_nonneg (mb_content mb)). pose proof (zlen_content last Hwf).
    rewrite !Len_wf by done. rewrite i32_small by lia.
    destruct (Size <? _) eqn:E.
    + destruct (IH (mb2 ++ [last]) c Hc) as (mb' & -> & Hwf' & Hc' & Hlen);
        [rewrite mb_content_cons, zlen_app; lia|].
      exists (last :: mb'). rewrite <- app_assoc, !mb_content_cons, Hc', mb_content_cons.
      simpl. split_and!; [done|by constructor|done|lia|lia].
    + destruct (ReadFrom_buffer_spec last c Hwf Hwfc Hnec) as (c' & ->); [unfold room; lia|].
      destruct (IH mb2 (push last (content c))) as (mb' & -> & Hwf' & Hc' & Hlen).
      * apply compactable_push; [done|lia].
      * rewrite mb_content_cons, push_content, !zlen_app by done. lia.
      * exists mb'. rewrite Hc', !mb_content_cons, push_content, app_assoc by done.
        simpl. split_and!; [done|done|done|lia|lia].
Qed.

Lemma Cause_short c e : Cause (short_error c e) = EOF \/ Cause (short_error c e) = ErrUnexpectedEOF <->
  Cause e = EOF \/ Cause e = ErrUnexpectedEOF.
Proof.
  unfold short_error. case_decide as H; [|done]. destruct H as [_ ->]. simpl. naive_solver.
Qed.

Lemma ReadFromLoop_spec {R} `{Reader R} fuel mb r :
  rd_wf r -> mb_wf mb -> (length (rd_content r) < fuel)%nat ->
  exists r' mb', ReadFromLoop fuel mb r = Some (r', Ok (mb',
      if decide (Cause (rd_end r) = EOF \/ Cause (rd_end r) = ErrUnexpectedEOF) then None
      else Some (short_error (drop ((length (rd_content r)) / 2048 * 2048) (rd_content r)) (rd_end r)))) /\
    mb_wf mb' /\ mb_content mb' = mb_content mb ++ rd_content r /\ rd_content r' = [].
Proof.
  intros Hr. revert mb r Hr. induction fuel as [|f IH]; intros mb r Hr Hmb Hf; [lia|].
  cbn [ReadFromLoop]. destruct (ReadFullFrom_spec New New_wf r Hr Size) as (r1 & Hr1 & He1 & Hc1 & ->);
    [unfold Size; rewrite New_room; lia|]. cbn [fst snd].
  set (d := take (Z.to_nat Size) (rd_content r)) in *.
  assert (Hd : zlen d <= room New) by (rewrite New_room; unfold d, zlen, Size; rewrite length_take; lia).
  rewrite (IsEmpty_wf _ (push_wf New New_wf d Hd)), push_content, New_content by apply New_wf.
  cbn [app]. set (mb1 := if bool_decide (d = []) then mb else mb ++ [push New d]).
  assert (Hmb1 : mb_wf mb1 /\ mb_content mb1 = mb_content mb ++ d).
  { unfold mb1. case_bool_decide as E; [by rewrite E, app_nil_r|].
    rewrite mb_wf_app, mb_content_app, mb_content_one, push_content, New_content by apply New_wf.
    split_and!; [done|constructor; [by apply push_wf; [apply New_wf|]|done]|done]. }
  destruct (Size <=? zlen (rd_content r)) eqn:E.
  - assert (Hlen : (2048 <= length (rd_content r))%nat) by (unfold Size, zlen in *; lia).
    destruct (IH mb1 r1 Hr1) as (r' & mb' & -> & Hwf' & Hc' & Hr'); [tauto|rewrite Hc1, length_drop; unfold Size; lia|].
    exists r', mb'. rewrite He1, Hc1, drop_drop. rewrite Hc', (proj2 Hmb1), Hc1, <- app_assoc.
    split_and!; [|done|by unfold d; rewrite take_drop|done].
    do 4 f_equal. rewrite length_drop. case_decide; [done|]. do 3 f_equal.
    change (Z.to_nat Size) with (1 * 2048)%nat.
    replace (length (rd_content r)) with (1 * 2048 + (length (rd_content r) - 1 * 2048))%nat at 2 by lia.
    rewrite Nat.div_add_l by lia. lia.
  - assert (Hlen : (length (rd_content r) < 2048)%nat) by (unfold Size, zlen in *; lia).
    rewrite Nat.div_small by lia. rewrite drop_0.
    assert (Hdr : d = rd_content r) by (unfold d; apply take_ge; unfold Size; lia).
    destruct Hmb1 as [Hw Hc]. exists r1, mb1.
    split_and!; [|done|by rewrite Hc, Hdr|rewrite Hc1; apply drop_ge; unfold Size; lia].
    destruct (decide (Cause (rd_end r) = _ \/ _)) as [Hx|Hx];
      destruct (decide (Cause (short_error _ _) = _ \/ _)) as [Hy|Hy]; try done;
      rewrite Cause_short in Hy; tauto.
Qed.

Lemma WriteMultiBuffer_sink mb s :
  mb_wf mb ->
  WriteMultiBuffer mb s =
    match broken s with
    | None => ({| sent := sent s ++ map content mb; broken := None |}, Ok ([], None))
    | Some e => (s, Ok (tail mb, if bool_decide (mb = []) then None else Some e))
    end.
Proof.
  intros Hwf. destruct s as [out [e|]]; cbn [broken sent].
  - destruct Hwf as [|b mb Hb Hmb]; [done|]. cbn [WriteMultiBuffer]. by rewrite (Bytes_wf b Hb).
  - revert out. induction Hwf as [|b mb Hb Hmb IH]; intros out; [by rewrite app_nil_r|].
    cbn [WriteMultiBuffer]. rewrite (Bytes_wf b Hb). unfold wr, sink_writer.
    cbn [broken sent]. rewrite IH, <- app_assoc. done.
Qed.

Lemma container_step_refines o c :
  mb_wf (container c) -> cop_wf o ->
  let '(c', r) := container_step o c in
  mb_wf (container c') /\ queue_step o (mb_content (container c)) = (mb_content (container c'), r).
Proof.
  intros Hwf Ho. destruct o as [b|n|mb| |]; cbn [container_step queue_step].
  - unfold container_Write. destruct (MergeBytes_spec _ b Hwf) as (mb' & -> & ? & Hc).
    simpl. by rewrite Hc.
  - unfold container_Read. rewrite IsEmpty_spec by done. case_bool_decide; [done|].
    destruct (SplitBytes_spec _ n Hwf) as (mb' & -> & ? & Hc). simpl. by rewrite Hc.
  - simpl. rewrite mb_content_app. split; [by apply mb_wf_app|done].
  - simpl. split; [constructor|done].
  - simpl. split; [constructor|done].
Qed.

(** ** Theorems *)

(** C28. [MultiBufferContainer] implements a queue of bytes: whatever sequence
    of writes, reads (of any size), merges and closes is run on it, every call
    returns what the byte queue returns and the bytes held agree at the end. *)
Theorem container_refines_byte_queue ops c :
  mb_wf (container c) -> Forall cop_wf ops ->
  let '(c', rs) := run container_step ops c in
  mb_wf (container c') /\
  run queue_step ops (mb_content (container c)) = (mb_content (container c'), rs).
Proof.
  intros Hwf Hops. revert c Hwf. induction Hops as [|o ops Ho Hops IH]; intros c Hwf; [done|].
  cbn [run]. pose proof (container_step_refines o c Hwf Ho) as Hs.
  destruct (container_step o c) as [c1 r1]. destruct Hs as [Hwf1 ->].
  specialize (IH c1 Hwf1). destruct (run container_step ops c1) as [c2 rs].
  destruct IH as [? ->]. done.
Qed.

Definition sample_ops : list cop :=
  [CWrite (lit "hello "); CWrite (lit "world"); CRead 3; CRead 100; CRead 1].

Lemma container_refines_byte_queue_witness :
  run queue_step sample_ops [] =
    ([], (run container_step sample_ops {| container := [] |}).2).
Proof.
  pose proof (container_refines_byte_queue sample_ops {| container := [] |}
    ltac:(constructor) ltac:(repeat constructor)) as H.
  destruct (run container_step sample_ops _) as [c rs] eqn:E.
  vm_compute in E. injection E as <- <-. exact (proj2 H).
Defined.

(** [SplitSize(mb, size)] cuts the content: it never loses or reorders a
    byte, the part split off has at most [size] bytes, and it is not empty when
    there is data and room.  The one condition is that a first buffer larger
    than [size] leaves a [size] that fits a fresh buffer. *)
Theorem SplitSize_cuts mb size :
  mb_wf mb -> 0 <= size -> zlen (mb_content mb) < 2 ^ 31 ->
  (forall b, head mb = Some b -> size < zlen (content b) -> size <= Buf.Size) ->
  exists rest r, SplitSize mb size = Ok (rest, r) /\ mb_wf rest /\ mb_wf r /\
    mb_content mb = mb_content r ++ mb_content rest /\ zlen (mb_content r) <= size /\
    (0 < size -> mb_content mb <> [] -> r <> []).
Proof. apply SplitSize_spec. Qed.

Lemma FromBytes_wf d : zlen d < 2 ^ 31 -> buf_wf (FromBytes d) /\ content (FromBytes d) = d.
Proof.
  intros H. pose proof (zlen_nonneg d). unfold FromBytes, buf_wf, content. cbn [v start end_].
  rewrite i32_small by lia. split; [lia|].
  rewrite drop_0, Z.sub_0_r. apply take_ge. unfold zlen. lia.
Qed.

Lemma SplitSize_cuts_witness :
  exists rest r, SplitSize [FromBytes (lit "abc"); FromBytes (lit "de")] 2 = Ok (rest, r) /\
    mb_content r = lit "ab" /\ mb_content rest = lit "cde".
Proof.
  destruct (SplitSize_cuts [FromBytes (lit "abc"); FromBytes (lit "de")] 2) as (rest & r & H & _);
    [repeat constructor; done|lia|done|intros b [= <-]; vm_compute; discriminate|].
  exists rest, r. split; [exact H|]. vm_compute in H. injection H as <- <-. split; reflexivity.
Defined.

(** A first buffer larger than both [size] and a fresh buffer makes [SplitSize]
    panic: the extension of the fresh buffer is out of bound. *)
Lemma SplitSize_panics b mb size :
  buf_wf b -> Size < size < 2 ^ 31 -> size < zlen (content b) ->
  SplitSize (b :: mb) size = Panic.
Proof.
  intros Hb Hs Hl. unfold SplitSize. rewrite (Len_wf b Hb).
  replace (size <? zlen (content b)) with true by lia.
  unfold Extend. change (end_ New) with 0. unfold Size in *. rewrite i32_small by lia.
  change (zlen (v New)) with 2048. by replace (2048 <? 0 + size) with true by lia.
Qed.

(** [Compact] keeps the content and never grows the list, on buffers none of
    which has been consumed from, is empty, or is smaller than [Size]. *)
Theorem Compact_keeps_content mb :
  Forall compactable mb -> zlen (mb_content mb) < 2 ^ 31 ->
  exists mb', Compact mb = Ok mb' /\ Forall compactable mb' /\
    mb_content mb' = mb_content mb /\ (length mb' <= length mb)%nat.
Proof.
  intros Hwf Hl. destruct mb as [|b mb]; [by exists []|].
  apply Forall_cons in Hwf as [Hb Hmb].
  destruct (CompactLoop_spec [] b mb Hb Hmb Hl) as (mb' & H & ? & ? & ?).
  exists mb'. simpl. split_and!; [done|done|done|lia].
Qed.

Definition small (s : string) : Buffer := push New (lit s).

Lemma Compact_keeps_content_witness :
  exists mb', Compact [small "ab"; small "cd"] = Ok mb' /\ mb_content mb' = lit "abcd" /\
    length mb' = 1%nat.
Proof.
  destruct (Compact_keeps_content [small "ab"; small "cd"]) as (mb' & H & _);
    [repeat constructor; vm_compute; congruence|done|].
  exists mb'. split; [exact H|]. vm_compute in H. injection H as <-. split; reflexivity.
Defined.

(** Once the first buffer has been read from, [Compact] appends behind the
    consumed bytes, where there may be no room, and drops what does not fit. *)
Lemma Compact_loses_bytes :
  exists mb mb', mb_wf mb /\ Compact mb = Ok mb' /\
    zlen (mb_content mb) = 1100 /\ zlen (mb_content mb') = 148.
Proof.
  exists [pop (push New (replicate 2000 x01)) 1900; push New (replicate 1000 x02)].
  eexists. split; [|split; [vm_compute; reflexivity|split; vm_compute; reflexivity]].
  repeat constructor; vm_compute; congruence.
Qed.

(** [common.Must2] makes [Compact] panic on an empty buffer behind another. *)
Lemma Compact_panics_on_empty :
  Compact [small "ab"; New] = Panic.
Proof. vm_compute. reflexivity. Qed.

(** [buf.ReadFrom] returns for every reader, however its data is
    fragmented: it has then used up the reader, holds exactly its content in
    order, and reports an error only if the reader did not end with an end of
    file. *)
Theorem ReadFrom_reads_all {R} `{Reader R} (r : R) :
  rd_wf r ->
  exists r' mb err, MultiBuf.ReadFrom r = Some (r', Ok (mb, err)) /\ mb_wf mb /\
    mb_content mb = rd_content r /\ rd_content r' = [] /\
    (err = None <-> Cause (rd_end r) = EOF \/ Cause (rd_end r) = ErrUnexpectedEOF).
Proof.
  intros Hr. destruct (ReadFromLoop_spec (S (length (rd_content r))) [] r Hr) as (r' & mb & H1 & H2 & H3 & H4);
    [constructor|lia|].
  eexists _, _, _. split; [exact H1|]. split_and!; [done|done|done|].
  by case_decide.
Qed.

Lemma ReadFrom_reads_all_witness :
  exists r' mb, MultiBuf.ReadFrom {| chunks := [lit "ab"; []; lit "c"]; conn_end := EOF |} =
    Some (r', Ok (mb, None)) /\ mb_content mb = lit "abc".
Proof.
  destruct (ReadFrom_reads_all {| chunks := [lit "ab"; []; lit "c"]; conn_end := EOF |} ltac:(exact I))
    as (r' & mb & err & H1 & _ & H2 & _ & H3).
  exists r', mb. rewrite H1. rewrite (proj2 H3 (or_introl eq_refl)). split; [reflexivity|exact H2].
Defined.
