(* ===== verification/NetAddr.v ===== *)
(** * Package common/net: addresses, ports and destinations

    [Module NetAddr] models common/net/address.go, port.go and destination.go:
    the three kinds of [Address], the parser that tells them apart, port ranges
    and the constructors of [Destination].  A nil [Address] is [None]. *)
From S2P Require Import Prelude GoStd.

Module NetAddr.

(** ** address.go *)
Definition AddressFamily := Z.
Definition AddressFamilyIPv4 : AddressFamily := 0.
Definition AddressFamilyIPv6 : AddressFamily := 1.
Definition AddressFamilyDomain : AddressFamily := 2.

Definition IsIPv4 (af : AddressFamily) : bool := af =? AddressFamilyIPv4.
Definition IsIPv6 (af : AddressFamily) : bool := af =? AddressFamilyIPv6.
Definition IsIP (af : AddressFamily) : bool :=
  (af =? AddressFamilyIPv4) || (af =? AddressFamilyIPv6).
Definition IsDomain (af : AddressFamily) : bool := af =? AddressFamilyDomain.

(** The implementations of the interface [Address]; the arrays have 4 and 16
    bytes ([addr_wf]). *)
Inductive Address :=
  | ipv4Address (a : bytes)
  | ipv6Address (a : bytes)
  | domainAddress (d : bytes).

#[export] Instance Address_eq_dec : EqDecision Address.
Proof. solve_decision. Defined.

Definition IP (a : Address) : res bytes :=
  match a with ipv4Address ip | ipv6Address ip => Ok ip | domainAddress _ => Panic end.
Definition Domain (a : Address) : res bytes :=
  match a with domainAddress d => Ok d | _ => Panic end.
Definition Family (a : Address) : AddressFamily :=
  match a with
  | ipv4Address _ => AddressFamilyIPv4
  | ipv6Address _ => AddressFamilyIPv6
  | domainAddress _ => AddressFamilyDomain
  end.

Definition isAlphaNum (c : byte) : bool :=
  between 48 57 (b2z c) || between 97 122 (b2z c) || between 65 90 (b2z c).

Definition bytes0 : bytes := replicate 10 x00.

(** [IPAddress(ip)]: an IPv4-mapped IPv6 address becomes an IPv4 one; [None] is
    the nil of an invalid length. *)
Definition IPAddress (ip : bytes) : option Address :=
  match length ip with
  | 4%nat => Some (ipv4Address ip)
  | 16%nat =>
    if bool_decide (take 10 ip = bytes0) && bool_decide (ip !! 10%nat = Some xff)
       && bool_decide (ip !! 11%nat = Some xff)
    then Some (ipv4Address (take 4 (drop 12 ip)))
    else Some (ipv6Address ip)
  | _ => None
  end.

Definition DomainAddress (domain : bytes) : Address := domainAddress domain.

Definition LocalHostIP : option Address := IPAddress (map z2b [127; 0; 0; 1]).
Definition AnyIP : option Address := IPAddress (map z2b [0; 0; 0; 0]).
Definition LocalHostDomain : Address := DomainAddress (lit "localhost").
Definition LocalHostIPv6 : option Address := IPAddress (replicate 15 x00 ++ [x01]).
Definition AnyIPv6 : option Address := IPAddress (replicate 16 x00).

(** [ParseAddress(addr)]: strips a pair of brackets, trims, and takes what
    [net.ParseIP] accepts as an IP address and the rest as a domain. *)
Definition ParseAddress (addr : bytes) : res (option Address) :=
  let lenAddr := zlen addr in
  a ← (if (0 <? lenAddr) && bool_decide (head addr = Some (z2b 91))
          && bool_decide (last addr = Some (z2b 93))
       then or_panic (slice addr 1 (lenAddr - 1)) else Ok addr);
  let trimmed :=
    match head a, last a with
    | Some c, Some d => if negb (isAlphaNum c) || negb (isAlphaNum d) then TrimSpace a else a
    | _, _ => a
    end in
  match ParseIP trimmed with
  | Some ip => Ok (IPAddress ip)
  | None => Ok (Some (DomainAddress trimmed))
  end.

(** The protobuf oneof [IPOrDomain]; [None] is a nil message. *)
Inductive IPOrDomain :=
  | IPOrDomain_Ip (ip : bytes)
  | IPOrDomain_Domain (domain : bytes).

Definition AsAddress (d : option IPOrDomain) : option Address :=
  match d with
  | None => None
  | Some (IPOrDomain_Ip ip) => IPAddress ip
  | Some (IPOrDomain_Domain dom) => Some (DomainAddress dom)
  end.

Definition NewIPOrDomain (addr : Address) : IPOrDomain :=
  match addr with
  | domainAddress d => IPOrDomain_Domain d
  | ipv4Address ip | ipv6Address ip => IPOrDomain_Ip ip
  end.

(** ** port.go *)
Definition Port := Z.  (* uint16 *)

Definition PortFromBytes (port : bytes) : res Port :=
  b ← or_panic (slice port 0 2); Ok (get_be b).

Definition PortFromInt (val : Z) : res Port :=
  if 65535 <? val then Err (NewError "invalid port range: ") else Ok (u16 val).

Record PortRange := { From : Z; To : Z }.   (* uint32 *)
Definition FromPort (p : PortRange) : Port := u16 (From p).
Definition ToPort (p : PortRange) : Port := u16 (To p).
Definition PortRange_Contains (p : PortRange) (port : Port) : bool :=
  (FromPort p <=? port) && (port <=? ToPort p).
Definition SinglePortRange (p : Port) : PortRange := {| From := p; To := p |}.

Record MemoryPortRange := { MFrom : Port; MTo : Port }.
Definition MemoryPortRange_Contains (r : MemoryPortRange) (port : Port) : bool :=
  (MFrom r <=? port) && (port <=? MTo r).

Definition PortListFromProto (l : list PortRange) : list MemoryPortRange :=
  map (fun r => {| MFrom := u16 (From r); MTo := u16 (To r) |}) l.

Fixpoint MemoryPortList_Contains (mpl : list MemoryPortRange) (port : Port) : bool :=
  match mpl with
  | [] => false
  | pr :: mpl' => if MemoryPortRange_Contains pr port then true else MemoryPortList_Contains mpl' port
  end.

(** ** destination.go and network.go *)
Inductive Network := Network_Unknown | Network_RawTCP | Network_TCP | Network_UDP | Network_UNIX.

#[export] Instance Network_eq_dec : EqDecision Network.
Proof. solve_decision. Defined.

Fixpoint HasNetwork (list : list Network) (network : Network) : bool :=
  match list with
  | [] => false
  | value :: list' => if bool_decide (value = network) then true else HasNetwork list' network
  end.

Record Destination := mkDest { DAddress : option Address; DPort : Port; DNetwork : Network }.

Definition TCPDestination (address : option Address) (port : Port) : Destination :=
  {| DNetwork := Network_TCP; DAddress := address; DPort := port |}.
Definition UDPDestination (address : option Address) (port : Port) : Destination :=
  {| DNetwork := Network_UDP; DAddress := address; DPort := port |}.
Definition UnixDestination (address : option Address) : Destination :=
  {| DNetwork := Network_UNIX; DAddress := address; DPort := 0 |}.

Definition IsValid (d : Destination) : bool := negb (bool_decide (DNetwork d = Network_Unknown)).

(** ** Well-formedness *)

(** What [IPAddress] and [DomainAddress] build: the arrays have their length
    and an IPv6 address is not the mapped form of an IPv4 one. *)
Definition addr_wf (a : Address) : Prop :=
  match a with
  | ipv4Address ip => length ip = 4%nat
  | ipv6Address ip => length ip = 16%nat /\ IPAddress ip = Some (ipv6Address ip)
  | domainAddress _ => True
  end.

End NetAddr.
Import NetAddr.

(** ** Lemmas *)
Lemma IPAddress_wf ip a : IPAddress ip = Some a -> addr_wf a.
Proof.
  unfold IPAddress. destruct (length ip) as [|[|[|[|[|n]]]]] eqn:E; try done; [by intros [= <-]|].
  do 11 (destruct n as [|n]; [done|]). destruct n as [|n]; [|done].
  destruct (_ && _) eqn:Em; intros [= <-].
  - simpl. rewrite length_take, length_drop. lia.
  - split; [done|]. unfold IPAddress. by rewrite E, Em.
Qed.

Lemma IPAddress_ip a ip : addr_wf a -> IP a = Ok ip -> IPAddress ip = Some a.
Proof.
  destruct a; simpl; intros Hwf [= <-]; [|by destruct Hwf]. unfold IPAddress. by rewrite Hwf.
Qed.

Lemma ParseIP_address s ip : ParseIP s = Some ip -> exists a, IPAddress ip = Some a.
Proof.
  intros H%ParseIP_length. unfold IPAddress. rewrite H. case_match; eauto.
Qed.

(** [ParseAddress] never panics and never yields nil: no byte is both brackets,
    and what [net.ParseIP] returns has 16 bytes. *)
Lemma ParseAddress_total s : exists a, ParseAddress s = Ok (Some a) /\ addr_wf a.
Proof.
  unfold ParseAddress.
  assert (exists t, (if (0 <? zlen s) && bool_decide (head s = Some (z2b 91))
          && bool_decide (last s = Some (z2b 93))
       then or_panic (slice s 1 (zlen s - 1)) else Ok s) = Ok t) as [t ->].
  { destruct (_ && _) eqn:E; [|eauto]. rewrite slice_Some; [simpl; eauto|lia| |lia].
    destruct s as [|x [|y s]]; [done| |rewrite !zlen_cons; pose proof (zlen_nonneg s); lia].
    simpl in E. apply andb_true_iff in E as [E1%bool_decide_eq_true E2%bool_decide_eq_true].
    rewrite E1 in E2. vm_compute in E2. done. }
  cbn [mbind res_bind]. set (u := match head t with Some _ => _ | None => _ end).
  destruct (ParseIP u) as [ip|] eqn:E; [|by eexists].
  destruct (ParseIP_address _ _ E) as [a Ha]. rewrite Ha. exists a. split; [done|]. by eapply IPAddress_wf.
Qed.
