(* ===== verification/AddrParser.v ===== *)
(** * Package common/protocol: the address serializer

    [Module AddrParser] models common/protocol/address.go, the codec of an
    address and a port that the mux, trojan, socks, shadowsocks, vmess and vless
    protocols share.  A parser is built from options; reading works on any
    [Reader] through a scratch [Buffer], writing on any [Writer]. *)
From S2P Require Import Prelude GoStd Buf NetAddr.
Import Buf NetAddr.

Module AddrParser.

Definition afInvalid : Z := 255.

Record option := mkOption {
  o_addrTypeMap : list AddressFamily;   (* [16] *)
  o_addrByteMap : list Z;               (* [16]byte *)
  o_portFirst : bool;
  o_typeParser : Datatypes.option (Z -> Z);
}.

Definition AddressOption := option -> option.

Definition PortThenAddress : AddressOption := fun p =>
  {| o_addrTypeMap := o_addrTypeMap p; o_addrByteMap := o_addrByteMap p;
     o_portFirst := true; o_typeParser := o_typeParser p |}.

Definition AddressFamilyByte (b : Z) (f : AddressFamily) : res AddressOption :=
  if 16 <=? b then Panic else
  Ok (fun p =>
    {| o_addrTypeMap := <[Z.to_nat b := f]> (o_addrTypeMap p);
       o_addrByteMap := <[Z.to_nat f := b]> (o_addrByteMap p);
       o_portFirst := o_portFirst p; o_typeParser := o_typeParser p |}).

Definition WithAddressTypeParser (atp : Z -> Z) : AddressOption := fun p =>
  {| o_addrTypeMap := o_addrTypeMap p; o_addrByteMap := o_addrByteMap p;
     o_portFirst := o_portFirst p; o_typeParser := Some atp |}.

Record addressParser := mkParser {
  addrTypeMap : list AddressFamily;
  addrByteMap : list Z;
  typeParser : Datatypes.option (Z -> Z);
}.

(** The two implementations of [AddressSerializer]. *)
Inductive AddressSerializer :=
  | portFirstAddressParser (ap : addressParser)
  | portLastAddressParser (ap : addressParser).

Definition NewAddressParser (options : list AddressOption) : AddressSerializer :=
  let o := fold_left (fun o opt => opt o) options
    {| o_addrTypeMap := replicate 16 afInvalid; o_addrByteMap := replicate 16 afInvalid;
       o_portFirst := false; o_typeParser := None |} in
  let ap := {| addrByteMap := o_addrByteMap o; addrTypeMap := o_addrTypeMap o;
               typeParser := o_typeParser o |} in
  if o_portFirst o then portFirstAddressParser ap else portLastAddressParser ap.

Definition maybeIPPrefix (b : byte) : bool := (b2z b =? 91) || between 48 57 (b2z b).

Definition valid_char (b : byte) : bool :=
  let c := b2z b in
  between 48 57 c || between 97 122 c || between 65 90 c || (c =? 45) || (c =? 46) || (c =? 95).

(** The loop ranges over runes; a byte outside ASCII is part of a rune outside
    the accepted set, or of an invalid one. *)
Fixpoint isValidDomain (d : bytes) : bool :=
  match d with
  | [] => true
  | c :: d' => if negb (valid_char c) then false else isValidDomain d'
  end.

Definition IsDomainTooLong (domain : bytes) : bool := 255 <? zlen domain.

Section Read.
Context {R : Type} `{Reader R}.

Definition buf_lift {A} (f : Buffer -> res A) : ST (Buffer * R) A := fun s => (s, f s.1).

Definition readPort : ST (Buffer * R) Port :=
  _ ← ReadFullFrom 2;
  b ← buf_lift (fun b => BytesFrom b (-2));
  st_lift (PortFromBytes b).

Definition address_of (o : Datatypes.option Address) : ST (Buffer * R) Address :=
  st_lift (or_panic o).

Definition readAddress (p : addressParser) : ST (Buffer * R) Address :=
  _ ← ReadFullFrom 1;
  t ← buf_lift (fun b => Byte b (i32 (Len (Some b) - 1)));
  let addrType := match typeParser p with Some f => f (b2z t) | None => b2z t end in
  if 16 <=? addrType then st_err (NewError "unknown address type: ") else
  addrFamily ← st_lift (or_panic (index (addrTypeMap p) addrType));
  if addrFamily =? afInvalid then st_err (NewError "unknown address type: ") else
  if addrFamily =? AddressFamilyIPv4 then
    _ ← ReadFullFrom 4;
    ip ← buf_lift (fun b => BytesFrom b (-4));
    address_of (IPAddress ip)
  else if addrFamily =? AddressFamilyIPv6 then
    _ ← ReadFullFrom 16;
    ip ← buf_lift (fun b => BytesFrom b (-16));
    address_of (IPAddress ip)
  else if addrFamily =? AddressFamilyDomain then
    _ ← ReadFullFrom 1;
    l ← buf_lift (fun b => Byte b (i32 (Len (Some b) - 1)));
    let domainLength := b2z l in
    _ ← ReadFullFrom domainLength;
    domain ← buf_lift (fun b => BytesFrom b (- domainLength));
    d0 ← st_lift (or_panic (head domain));
    addr ← st_lift (if maybeIPPrefix d0 then ParseAddress domain else Ok None);
    match addr with
    | Some a => if IsIP (Family a) then mret a
                else if negb (isValidDomain domain) then st_err (NewError "invalid domain name: ")
                else mret (DomainAddress domain)
    | None => if negb (isValidDomain domain) then st_err (NewError "invalid domain name: ")
              else mret (DomainAddress domain)
    end
  else st_panic.

(** [ReadAddressPort(buffer, input)] with a buffer. *)
Definition ReadAddressPort_with (s : AddressSerializer) : ST (Buffer * R) (Address * Port) :=
  match s with
  | portFirstAddressParser ap =>
    port ← readPort; addr ← readAddress ap; mret (addr, port)
  | portLastAddressParser ap =>
    addr ← readAddress ap; port ← readPort; mret (addr, port)
  end.

(** [ReadAddressPort(nil, input)]: a fresh buffer, released on return. *)
Definition ReadAddressPort (s : AddressSerializer) : ST R (Address * Port) := fun r =>
  let '((_, r'), a) := ReadAddressPort_with s (New, r) in (r', a).
End Read.

Section Write.
Context {W : Type} `{Writer W}.

Definition writePort (port : Port) : ST W unit := _ ← wr (put_be 2 port); mret tt.

Definition writeAddress (p : addressParser) (address : Address) : ST W unit :=
  tb ← st_lift (or_panic (index (addrByteMap p) (Family address)));
  if tb =? afInvalid then st_err (NewError "unknown address family") else
  match address with
  | ipv4Address ip | ipv6Address ip =>
    _ ← wr [z2b tb]; _ ← wr ip; mret tt
  | domainAddress domain =>
    if IsDomainTooLong domain then st_err (NewError "Super long domain is not supported: ") else
    _ ← wr [z2b tb; z2b (zlen domain)]; _ ← wr domain; mret tt
  end.

Definition WriteAddressPort (s : AddressSerializer) (addr : Address) (port : Port) : ST W unit :=
  match s with
  | portFirstAddressParser ap => _ ← writePort port; writeAddress ap addr
  | portLastAddressParser ap => _ ← writeAddress ap addr; writePort port
  end.
End Write.

(** ** What the codec is meant to do *)

(** The bytes of an address under the family byte [tb]. *)
Definition encode_address (tb : Z) (a : Address) : bytes :=
  match a with
  | ipv4Address ip | ipv6Address ip => z2b tb :: ip
  | domainAddress d => [z2b tb; z2b (zlen d)] ++ d
  end.

Definition parser_of (s : AddressSerializer) : addressParser :=
  match s with portFirstAddressParser ap | portLastAddressParser ap => ap end.

Definition family_byte (s : AddressSerializer) (a : Address) : Z :=
  default afInvalid (index (addrByteMap (parser_of s)) (Family a)).

Definition encode (s : AddressSerializer) (a : Address) (port : Port) : bytes :=
  let ea := encode_address (family_byte s a) a in
  match s with
  | portFirstAddressParser _ => put_be 2 port ++ ea
  | portLastAddressParser _ => ea ++ put_be 2 port
  end.

(** The parser knows the family of [a] and reads its byte back as that family. *)
Definition handles (s : AddressSerializer) (a : Address) : Prop :=
  let p := parser_of s in
  let tb := family_byte s a in
  let t := match typeParser p with Some f => f tb | None => tb end in
  0 <= tb < 255 /\ 0 <= t < 16 /\ index (addrTypeMap p) t = Some (Family a).

(** The addresses that survive the wire: a domain has 1 to 255 bytes of the
    accepted set and does not spell an IP address. *)
Definition serializable (a : Address) : Prop :=
  addr_wf a /\
  match a with
  | domainAddress d =>
    1 <= zlen d <= 255 /\ isValidDomain d = true /\
    match ParseAddress d with Ok (Some a') => IsIP (Family a') = false | _ => False end
  | _ => True
  end.

End AddrParser.
Import AddrParser.

(** ** Lemmas *)
Lemma writes_port {W} `{WriterSpec W} port : writes (writePort port) (put_be 2 port) tt.
Proof.
  eapply writes_last; [apply writes_wr|done].
Qed.

Lemma writes_two {W} `{WriterSpec W} d1 d2 :
  writes (_ ← wr d1; _ ← wr d2; mret tt : ST W unit) (d1 ++ d2) tt.
Proof.
  eapply writes_bind; [apply writes_wr|]. eapply writes_last; [apply writes_wr|done].
Qed.

Lemma family_byte_index s a tb :
  family_byte s a = tb -> 0 <= tb < 255 -> index (addrByteMap (parser_of s)) (Family a) = Some tb.
Proof.
  unfold family_byte. destruct (index _ _); simpl; [by intros ->|]. unfold afInvalid. lia.
Qed.

Lemma writes_address {W} `{WriterSpec W} s a :
  handles s a -> serializable a ->
  writes (writeAddress (parser_of s) a) (encode_address (family_byte s a) a) tt.
Proof.
  intros (Htb & _ & _) [Hwf Hs]. unfold writeAddress.
  rewrite (family_byte_index s a _ eq_refl Htb). set (tb := family_byte s a) in *.
  eapply writes_lift; [done|]. replace (tb =? afInvalid) with false by (unfold afInvalid; lia).
  destruct a as [ip|ip|d]; [apply (writes_two [z2b tb])..|].
  destruct Hs as (Hl & _). unfold IsDomainTooLong. replace (255 <? zlen d) with false by lia.
  apply (writes_two [_; _]).
Qed.

Lemma writes_AddressPort {W} `{WriterSpec W} s a port :
  handles s a -> serializable a -> writes (WriteAddressPort s a port) (encode s a port) tt.
Proof.
  intros Hh Hs. pose proof (writes_address s a Hh Hs) as Ha. unfold WriteAddressPort, encode.
  destruct s; cbn [parser_of] in Ha.
  - eapply writes_bind; [apply writes_port|exact Ha].
  - eapply writes_bind; [exact Ha|apply writes_port].
Qed.

Lemma get_put_be_u16 n : is_u16 n -> get_be (put_be 2 n) = n.
Proof. intros. rewrite get_put_be. apply Z.mod_small. change (256 ^ _) with (2 ^ 16). lia. Qed.

Lemma reads_port {R} `{Reader R} port : is_u16 port -> reads (readPort : ST (Buffer * R) Port) (put_be 2 port) port.
Proof.
  intros Hp. unfold readPort, buf_lift.
  apply (reads_bytes_last 2); [by rewrite zlen_put_be|lia|].
  unfold PortFromBytes. rewrite slice_Some by (rewrite ?zlen_put_be; lia).
  rewrite drop_0, take_ge by (rewrite length_put_be; lia). cbn [or_panic mbind res_bind].
  by rewrite get_put_be_u16 by done.
Qed.

Lemma IsIP_domain a : IsIP (Family a) = false -> exists d, a = domainAddress d.
Proof. destruct a; try done. eauto. Qed.

Lemma reads_ip {R} `{Reader R} (k : Z) ip a :
  zlen ip = k -> 0 < k -> IPAddress ip = Some a ->
  reads (_ ← ReadFullFrom k; x ← buf_lift (fun b => BytesFrom b (- k)); address_of (IPAddress x)
         : ST (Buffer * R) Address) ip a.
Proof.
  intros <- Hk Ha. apply reads_bytes_last; [done|done|]. unfold address_of. by rewrite Ha.
Qed.

Lemma reads_address {R} `{Reader R} s a :
  handles s a -> serializable a ->
  reads (readAddress (parser_of s) : ST (Buffer * R) Address) (encode_address (family_byte s a) a) a.
Proof.
  intros (Htb & Ht & Hf) [Hwf Hs]. set (tb := family_byte s a) in *. unfold readAddress.
  assert (exists d, encode_address tb a = z2b tb :: d) as [d Hd] by (destruct a; eauto).
  rewrite Hd. apply reads_byte. rewrite !z2b_small by lia.
  set (t := match typeParser _ with Some _ => _ | None => _ end) in *.
  replace (16 <=? t) with false by lia. eapply reads_lift; [by rewrite Hf|].
  destruct a as [ip|ip|dom]; simpl in Hd; injection Hd as <-; cbn [Family].
  - apply (reads_ip 4 ip); [unfold zlen; simpl in Hwf; lia|lia|by apply IPAddress_ip].
  - apply (reads_ip 16 ip); [unfold zlen; simpl in Hwf; lia|lia|by destruct Hwf].
  - destruct Hs as (Hl & Hv & Hp). apply reads_byte. rewrite z2b_small by lia.
    apply reads_bytes_last; [done|lia|].
    destruct dom as [|c dom]; [unfold zlen in Hl; simpl in Hl; lia|].
    cbn [head or_panic]. rewrite st_lift_bind.
    destruct (maybeIPPrefix c); [|by rewrite st_lift_bind, Hv].
    destruct (ParseAddress (c :: dom)) as [[a'|]| |]; try done. by rewrite st_lift_bind, Hp, Hv.
Qed.

Lemma reads_AddressPort_with {R} `{Reader R} s a port :
  handles s a -> serializable a -> is_u16 port ->
  reads (ReadAddressPort_with s : ST (Buffer * R) _) (encode s a port) (a, port).
Proof.
  intros Hh Hs Hp. pose proof (reads_address s a Hh Hs) as Ha. pose proof (reads_port port Hp) as Hport.
  unfold ReadAddressPort_with, encode. destruct s; cbn [parser_of] in Ha.
  - eapply reads_bind; [apply Hport|]. eapply reads_last; [apply Ha|done].
  - eapply reads_bind; [apply Ha|]. eapply reads_last; [apply Hport|done].
Qed.

Lemma encode_length s a port : serializable a -> zlen (encode s a port) <= 259.
Proof.
  intros [Hwf Hs]. assert (zlen (encode_address (family_byte s a) a) <= 257).
  { destruct a as [ip|ip|d]; simpl in *; unfold zlen in *; simpl; lia. }
  unfold encode. destruct s; rewrite zlen_app, zlen_put_be; lia.
Qed.

(** The parser as a one-shot consumer of a reader. *)
Lemma ReadAddressPort_spec {R} `{Reader R} s a port (r : R) rest :
  handles s a -> serializable a -> is_u16 port ->
  rd_wf r -> rd_content r = encode s a port ++ rest ->
  exists r', ReadAddressPort s r = (r', Ok (a, port)) /\ rd_wf r' /\ rd_end r' = rd_end r /\
    rd_content r' = rest.
Proof.
  intros Hh Hs Hp Hr Hc. pose proof (encode_length s a port Hs).
  destruct (reads_AddressPort_with s a port Hh Hs Hp New r rest) as (r' & E & ?);
    [apply New_wf|rewrite New_room; lia|done|done|].
  exists r'. unfold ReadAddressPort. by rewrite E.
Qed.


(** ** Reading hostile bytes *)

(** The families a parser can name. *)
Definition known_families (s : AddressSerializer) : Prop :=
  length (addrTypeMap (parser_of s)) = 16%nat /\
  Forall (fun f => f = 0 \/ f = 1 \/ f = 2 \/ f = afInvalid) (addrTypeMap (parser_of s)) /\
  match typeParser (parser_of s) with Some f => forall z, 0 <= z -> 0 <= f z | None => True end.

(** What a parsed address guarantees. *)
Definition sane (a : Address) : Prop :=
  addr_wf a /\ match a with domainAddress d => d <> [] /\ isValidDomain d = true | _ => True end.

Lemma IPAddress_sane ip a : IPAddress ip = Some a -> sane a.
Proof.
  intros Ha. split; [by eapply IPAddress_wf|]. unfold IPAddress in Ha. repeat case_match; naive_solver.
Qed.

Lemma safe_ip {R} `{Reader R} P (k : Z) :
  k = 4 \/ k = 16 ->
  safe P (_ ← ReadFullFrom k; x ← buf_lift (fun b => BytesFrom b (- k)); address_of (IPAddress x)
          : ST (Buffer * R) Address) sane.
Proof.
  intros Hk. apply safe_bytes; [lia|]. intros d Hd. unfold address_of.
  assert (exists a, IPAddress d = Some a) as [a Ha].
  { unfold IPAddress. assert (length d = 4%nat \/ length d = 16%nat) as [->| ->] by (unfold zlen in Hd; lia);
      [eauto|]. case_match; eauto. }
  rewrite Ha. apply (safe_ret anybuf a). by eapply IPAddress_sane.
Qed.

Lemma safe_port {R} `{Reader R} P : safe P (readPort : ST (Buffer * R) Port) (fun p => is_u16 p).
Proof.
  apply safe_bytes; [lia|]. intros d Hd. unfold PortFromBytes.
  rewrite slice_Some by lia. cbn [or_panic mbind res_bind].
  apply (safe_ret anybuf (get_be _)). pose proof (get_be_range (take (Z.to_nat (2 - 0)) (drop (Z.to_nat 0) d))).
  assert (zlen (take (Z.to_nat (2 - 0)) (drop (Z.to_nat 0) d)) = 2) as Hl
    by (unfold zlen in *; rewrite length_take, length_drop; lia).
  rewrite Hl in *. lia.
Qed.

Lemma safe_domain {R} `{Reader R} (dom : bytes) :
  dom <> [] ->
  safe anybuf
    (d0 ← st_lift (or_panic (head dom));
     addr ← st_lift (if maybeIPPrefix d0 then ParseAddress dom else Ok None);
     match addr with
     | Some a => if IsIP (Family a) then mret a
                 else if negb (isValidDomain dom) then st_err (NewError "invalid domain name: ")
                 else mret (DomainAddress dom)
     | None => if negb (isValidDomain dom) then st_err (NewError "invalid domain name: ")
               else mret (DomainAddress dom)
     end : ST (Buffer * R) Address) sane.
Proof.
  intros Hne. destruct dom as [|c dom]; [done|]. cbn [head or_panic]. rewrite st_lift_bind.
  assert (Hd : safe anybuf (if negb (isValidDomain (c :: dom)) then st_err (NewError "invalid domain name: ")
      else mret (DomainAddress (c :: dom)) : ST (Buffer * R) Address) sane).
  { destruct (isValidDomain (c :: dom)) eqn:Hv; cbn [negb]; [|apply safe_err].
    apply safe_ret. by repeat split. }
  destruct (maybeIPPrefix c); [|by rewrite st_lift_bind].
  destruct (ParseAddress_total (c :: dom)) as (a & -> & Ha). rewrite st_lift_bind.
  destruct (IsIP (Family a)) eqn:Hip; [|exact Hd]. apply safe_ret. split; [done|].
  by destruct a.
Qed.

Lemma safe_address {R} `{Reader R} s P :
  known_families s -> safe P (readAddress (parser_of s) : ST (Buffer * R) Address) sane.
Proof.
  intros (Hlen & Hfam & Htp). unfold readAddress. apply safe_byte. intros x.
  set (t := match typeParser _ with Some _ => _ | None => _ end).
  assert (0 <= t) as Ht.
  { unfold t. destruct (typeParser _); [apply Htp|]; apply b2z_range. }
  destruct (16 <=? t) eqn:E16; [apply safe_err|].
  destruct (index (addrTypeMap (parser_of s)) t) as [f|] eqn:Ef; cycle 1.
  { unfold index in Ef. replace (0 <=? t) with true in Ef by lia. apply lookup_ge_None in Ef. lia. }
  cbn [or_panic]. rewrite st_lift_bind. apply index_Some in Ef as [_ Ef].
  rewrite Forall_lookup in Hfam. specialize (Hfam _ _ Ef). unfold afInvalid in *.
  destruct Hfam as [->|[->|[->| ->]]]; cbn.
  - by apply safe_ip; left.
  - by apply safe_ip; right.
  - apply safe_byte. intros l. apply safe_bytes_any; [pose proof (b2z_range l); lia|].
    apply safe_domain.
  - apply safe_err.
Qed.

(** Reading an address never panics, and reads only forward. *)
Lemma safe_AddressPort_with {R} `{Reader R} s :
  known_families s -> safe anybuf (ReadAddressPort_with s : ST (Buffer * R) _) (fun '(a, p) => sane a /\ is_u16 p).
Proof.
  intros Hs. pose proof (safe_address (R := R) s) as Ha. unfold ReadAddressPort_with.
  destruct s as [ap|ap]; cbn [parser_of] in Ha.
  - eapply safe_bind; [apply safe_port|]. intros p Hp. eapply safe_bind; [by apply Ha|].
    intros a Hsane. by apply safe_ret.
  - eapply safe_bind; [by apply Ha|]. intros a Hsane. eapply safe_bind; [apply safe_port|].
    intros p Hp. by apply safe_ret.
Qed.

Lemma ReadAddressPort_later {R} `{Reader R} s (r : R) :
  known_families s -> rd_wf r ->
  exists r' x, ReadAddressPort s r = (r', x) /\ x <> Panic /\ later r r' /\
    forall a port, x = Ok (a, port) -> sane a /\ is_u16 port.
Proof.
  intros Hs Hr.
  pose proof (safe_AddressPort_with (R := R) s Hs) as Hsafe.
  destruct (Hsafe New r) as (b' & r' & x & E & Hx & _ & Hr' & HQ);
    [split; [apply New_wf|done]|done|done|].
  exists r', x. unfold ReadAddressPort. rewrite E. split_and!; [done|done|done|].
  intros a port ->. by apply (HQ (a, port)).
Qed.

(** ** Theorems *)

(** C2. Round trip of the address codec, for addresses that survive the wire: IPv4 and
    IPv6 addresses, and domains of 1 to 255 bytes that [isValidDomain] accepts and
    [ParseAddress] does not read as an IP address.  ([WriteAddressPort] also writes
    other domains - "1.2.3.4", the empty one, one with a space - and [ReadAddressPort]
    refuses those or reads another address.)  For such an address, a 16-bit port and a
    parser whose options give the family a type byte that is mapped back to it, with the
    port first or last: what [WriteAddressPort] writes to any writer with room for it,
    [ReadAddressPort] reads back from any reader that delivers those bytes, in whatever
    fragments, leaving exactly what follows them. *)
Theorem address_port_roundtrip {W R} `{WriterSpec W} `{Reader R} s a port (w : W) (r : R) rest :
  handles s a -> serializable a -> is_u16 port ->
  wr_fits w (zlen (encode s a port)) ->
  rd_wf r -> rd_content r = encode s a port ++ rest ->
  (exists w', WriteAddressPort s a port w = (w', Ok tt) /\ wr_after w (encode s a port) w') /\
  (exists r', ReadAddressPort s r = (r', Ok (a, port)) /\ rd_content r' = rest).
Proof.
  intros Hh Hs Hp Hw Hr Hc. split.
  - destruct (writes_AddressPort s a port Hh Hs w 0) as (w' & ? & ? & _);
      [lia|by rewrite Z.add_0_r|eauto].
  - destruct (ReadAddressPort_spec s a port r rest Hh Hs Hp Hr Hc) as (r' & ? & _ & _ & ?). eauto.
Qed.

Definition opt_family (b : Z) (f : AddressFamily) : AddressOption :=
  match AddressFamilyByte b f with Ok o => o | _ => id end.

Definition demo_parser : AddressSerializer :=
  NewAddressParser [opt_family 1 AddressFamilyIPv4; opt_family 4 AddressFamilyIPv6;
                    opt_family 3 AddressFamilyDomain].

Lemma address_port_roundtrip_witness :
  let enc := encode demo_parser (domainAddress (lit "v2fly.org")) 443 in
  (exists w', WriteAddressPort demo_parser (domainAddress (lit "v2fly.org")) 443 sink_empty = (w', Ok tt)
     /\ concat (sent w') = enc) /\
  (exists r', ReadAddressPort demo_parser (conn_of (enc ++ lit "!")) =
     (r', Ok (domainAddress (lit "v2fly.org"), 443)) /\ rd_content r' = lit "!").
Proof.
  destruct (address_port_roundtrip demo_parser (domainAddress (lit "v2fly.org")) 443 sink_empty
    (conn_of (encode demo_parser (domainAddress (lit "v2fly.org")) 443 ++ lit "!")) (lit "!"))
    as [(w' & H1 & H2 & _) H3].
  - repeat split; vm_compute; congruence.
  - repeat split; vm_compute; congruence.
  - lia.
  - reflexivity.
  - exact I.
  - reflexivity.
  - split; [exists w'; split; [exact H1|exact H2]|exact H3].
Defined.

(** C26. [ReadAddressPort] never panics: whatever bytes arrive, in whatever
    fragments and however they end, it returns an error or an address and a port
    that are well formed (a domain is not empty and has only accepted bytes). *)
Theorem ReadAddressPort_safe {R} `{Reader R} s (r : R) :
  known_families s -> rd_wf r ->
  exists r' x, ReadAddressPort s r = (r', x) /\ x <> Panic /\ rd_wf r' /\
    forall a port, x = Ok (a, port) -> sane a /\ is_u16 port.
Proof.
  intros Hs Hr. destruct (ReadAddressPort_later s r Hs Hr) as (r' & x & ? & ? & (? & _) & ?).
  by exists r', x.
Qed.

Lemma ReadAddressPort_safe_witness :
  exists r' x, ReadAddressPort demo_parser (conn_of (map z2b [3; 0])) = (r', x) /\ x <> Panic.
Proof.
  destruct (ReadAddressPort_safe demo_parser (conn_of (map z2b [3; 0]))) as (r' & x & H & Hx & _).
  - split; [reflexivity|split; [|exact I]]. vm_compute.
    repeat first [apply Forall_nil_2 | apply Forall_cons_2; [tauto|]].
  - exact I.
  - exists r', x. split; [exact H|exact Hx].
Defined.
