(* ===== verification/BufReader.v ===== *)
(** * Package common/buf and common/crypto: buffered and chunked reading

    [Module BufReader] models [BufferedReader] of common/buf/reader.go, [Copy]
    of common/buf/copy.go (without its observers) and the chunk stream of
    common/crypto/chunk.go with plain sizes.  The interfaces [buf.Reader] and
    [buf.Writer] are the classes [MbReader] and [MbWriter]. *)
From S2P Require Import Prelude GoStd Buf MultiBuf.
Import Buf MultiBuf.

Module BufReader.

(** [buf.Reader]: a MultiBuffer and an error that may come with it. *)
Class MbReader (R : Type) := read_mb : R -> R * res (MultiBuffer * option error).

(** [buf.Writer] *)
Class MbWriter (W : Type) := write_mb : MultiBuffer -> ST W unit.

(** The reading end of a link: the MultiBuffers that arrive and the error after
    them. *)
Record link := mkLink { mbs : list MultiBuffer; link_end : error }.

#[export] Instance link_reader : MbReader link := fun l =>
  match mbs l with
  | [] => (l, Ok ([], Some (link_end l)))
  | mb :: rest => ({| mbs := rest; link_end := link_end l |}, Ok (mb, None))
  end.

(** The writing end of a link: what was written, and the error of the next
    write once it is closed. *)
Record out := mkOut { written : list MultiBuffer; closed : option error }.

#[export] Instance out_writer : MbWriter out := fun mb o =>
  match closed o with
  | None => ({| written := written o ++ [mb]; closed := None |}, Ok tt)
  | Some e => (o, Err e)
  end.

Definition out_bytes (o : out) : bytes := concat (map mb_content (written o)).

(** ** BufferedReader with the default [Spliter] *)
Record BufferedReader (R : Type) := mkReader { source : R; Buffer : MultiBuffer }.
Arguments mkReader {R}.
Arguments source {R}.
Arguments Buffer {R}.

Section Buffered.
Context {R : Type} `{MbReader R}.
Abbreviation BufferedReader := (BufferedReader R).

Definition BufferedBytes (r : BufferedReader) : Z := MultiBuf.Len (Buffer r).

Definition Read (n : nat) : ST BufferedReader bytes := fun r =>
  if negb (MultiBuf.IsEmpty (Buffer r)) then
    match SplitBytes (Buffer r) n with
    | Ok (buffer, d) =>
      ({| source := source r; Buffer := if MultiBuf.IsEmpty buffer then [] else buffer |}, Ok d)
    | Err e => (r, Err e)
    | Panic => (r, Panic)
    end
  else
    let '(src, x) := read_mb (source r) in
    match x with
    | Ok (mb, Some e) => ({| source := src; Buffer := Buffer r |}, Err e)
    | Ok (mb, None) =>
      match SplitBytes mb n with
      | Ok (mb, d) =>
        ({| source := src; Buffer := if negb (MultiBuf.IsEmpty mb) then mb else Buffer r |}, Ok d)
      | Err e => ({| source := src; Buffer := Buffer r |}, Err e)
      | Panic => ({| source := src; Buffer := Buffer r |}, Panic)
      end
    | Err e => ({| source := src; Buffer := Buffer r |}, Err e)
    | Panic => ({| source := src; Buffer := Buffer r |}, Panic)
    end.

Definition ReadByte : ST BufferedReader byte := fun r =>
  match Read 1 r with
  | (r, Ok d) => (r, Ok (default x00 (head d)))
  | (r, Err e) => (r, Err e)
  | (r, Panic) => (r, Panic)
  end.

#[export] Instance buffered_mb : MbReader BufferedReader := fun r =>
  if negb (MultiBuf.IsEmpty (Buffer r)) then ({| source := source r; Buffer := [] |}, Ok (Buffer r, None))
  else let '(src, x) := read_mb (source r) in ({| source := src; Buffer := Buffer r |}, x).

Definition ReadAtMost (size : Z) : ST BufferedReader MultiBuffer := fun r =>
  let '(r, stop) :=
    if MultiBuf.IsEmpty (Buffer r) then
      let '(src, x) := read_mb (source r) in
      match x with
      | Ok (mb, e) =>
        if MultiBuf.IsEmpty mb && bool_decide (e <> None)
        then ({| source := src; Buffer := Buffer r |}, match e with Some e => Some (Err e) | None => None end)
        else ({| source := src; Buffer := mb |}, None)
      | Err e => ({| source := src; Buffer := Buffer r |}, Some (Err e))
      | Panic => ({| source := src; Buffer := Buffer r |}, Some Panic)
      end
    else (r, None) in
  match stop with
  | Some x => (r, x)
  | None =>
    match SplitSize (Buffer r) size with
    | Ok (rb, mb) =>
      ({| source := source r; Buffer := if MultiBuf.IsEmpty rb then [] else rb |}, Ok mb)
    | Err e => (r, Err e)
    | Panic => (r, Panic)
    end
  end.

End Buffered.

(** ** Copy *)
Inductive copyError := readError (e : error) | writeError (e : error).
Definition IsReadError (e : copyError) : bool := match e with readError _ => true | _ => false end.
Definition IsWriteError (e : copyError) : bool := match e with writeError _ => true | _ => false end.
Definition inner (e : copyError) : error := match e with readError e | writeError e => e end.

Section Copy.
Context {R : Type} `{MbReader R} {W : Type} `{MbWriter W}.

(** The loop, with the number of rounds as fuel; [None] is out of fuel. *)
Fixpoint copyInternal (fuel : nat) (r : R) (w : W) : option (R * W * res copyError) :=
  match fuel with
  | O => None
  | S f =>
    let '(r, x) := read_mb r in
    match x with
    | Ok (buffer, err) =>
      let '(w, werr) := if negb (MultiBuf.IsEmpty buffer) then write_mb buffer w else (w, Ok tt) in
      match werr with
      | Err e => Some (r, w, Ok (writeError e))
      | Panic => Some (r, w, Panic)
      | Ok _ =>
        match err with
        | Some e => Some (r, w, Ok (readError e))
        | None => copyInternal f r w
        end
      end
    | Err e => Some (r, w, Ok (readError e))
    | Panic => Some (r, w, Panic)
    end
  end.

(** The result is nil ([None]) at the end of the file. *)
Definition Copy (fuel : nat) (r : R) (w : W) : option (R * W * res (option copyError)) :=
  match copyInternal fuel r w with
  | None => None
  | Some (r, w, Ok e) =>
    Some (r, w, Ok (if bool_decide (Cause (inner e) = EOF) then None else Some e))
  | Some (r, w, Err e) => Some (r, w, Err e)
  | Some (r, w, Panic) => Some (r, w, Panic)
  end.
End Copy.

(** [buf.Discard] *)
Record Discard := mkDiscard {}.
#[export] Instance discard_writer : MbWriter Discard := fun _ d => (d, Ok tt).

(** ** crypto.ChunkStreamReader with [PlainChunkSizeParser] *)
Definition PlainSizeBytes : Z := 2.
Definition PlainDecode (b : bytes) : res Z := Uint16 b.

(** The reader's own state beside the buffered reader it shares. *)
Record ChunkStreamReader := mkChunk {
  leftOverSize : Z;        (* int32 *)
  maxNumChunk : Z;         (* uint32 *)
  numChunk : Z;            (* uint32 *)
  reader : BufferedReader link;
}.

Definition NewChunkStreamReaderWithChunkCount (r : BufferedReader link) (count : Z) : ChunkStreamReader :=
  {| leftOverSize := 0; maxNumChunk := count; numChunk := 0; reader := r |}.

(** ** A BufferedReader as io.Reader *)
Definition buffered_rd {R} `{MbReader R} (r : BufferedReader R) (n : nat) : BufferedReader R * (bytes * option error) :=
  match Read n r with
  | (r', Ok d) => (r', (d, None))
  | (r', Err e) => (r', ([], Some e))
  | (r', Panic) => (r', ([], Some (NewError "panic")))
  end.

(** The buffers that travel through links: not empty and at most one array. *)
Definition tidy (b : Buf.Buffer) : Prop := buf_wf b /\ 1 <= zlen (content b) <= 2048.

Definition tidy_mb (mb : MultiBuffer) : Prop := Forall tidy mb /\ zlen (mb_content mb) < 2 ^ 31.

(** What a [buf.Reader] promises: MultiBuffers that are tidy and not empty until
    its content is used up, then an error. *)
Class MbSource (R : Type) `{MbReader R} := {
  source_wf : R -> Prop;
  source_content : R -> bytes;
  source_end : R -> error;
  source_law r : source_wf r -> exists r', source_wf r' /\ source_end r' = source_end r /\
    ((exists mb, read_mb r = (r', Ok (mb, None)) /\ tidy_mb mb /\ mb <> [] /\
       source_content r = mb_content mb ++ source_content r') \/
     (read_mb r = (r', Ok ([], Some (source_end r))) /\ source_content r = [] /\ source_content r' = []));
}.

Section BufferedContent.
Context {R : Type} `{MbSource R}.

Definition reader_wf (r : BufferedReader R) : Prop := tidy_mb (Buffer r) /\ source_wf (source r).

Definition reader_content (r : BufferedReader R) : bytes := mb_content (Buffer r) ++ source_content (source r).
End BufferedContent.

End BufReader.

Import BufReader.

(** ** Tidy MultiBuffers *)
Lemma tidy_wf mb : Forall tidy mb -> mb_wf mb.
Proof. intros H. eapply Forall_impl; [exact H|]. by intros b [? _]. Qed.

Lemma tidy_length mb : Forall tidy mb -> zlen mb <= zlen (mb_content mb).
Proof.
  induction 1 as [|b mb [Hb Hl] H IH]; [done|]. rewrite mb_content_cons, zlen_app, zlen_cons. lia.
Qed.

Lemma tidy_push d : 1 <= zlen d <= 2048 -> tidy (push New d).
Proof.
  intros Hd. split; [apply push_wf; [apply New_wf|rewrite New_room; lia]|].
  rewrite push_content by apply New_wf. by rewrite New_content.
Qed.

Lemma tidy_IsEmpty mb : Forall tidy mb -> MultiBuf.IsEmpty mb = bool_decide (mb = []).
Proof.
  intros H. rewrite IsEmpty_spec by by apply tidy_wf. destruct H as [|b mb [Hb Hl] H]; [done|].
  rewrite !bool_decide_false; [done|done|]. rewrite mb_content_cons. intros E. apply app_eq_nil in E as [E _].
  rewrite E in Hl. rewrite zlen_nil in Hl. lia.
Qed.

Lemma tidy_content mb : Forall tidy mb -> mb_content mb = [] -> mb = [].
Proof.
  intros H E. destruct H as [|b mb [Hb Hl] H]; [done|]. rewrite mb_content_cons in E.
  apply app_eq_nil in E as [E _]. rewrite E, zlen_nil in Hl. lia.
Qed.

Lemma tidy_drop b n b' :
  zlen (content b) <= 2048 -> buf_wf b' -> content b' = drop n (content b) -> content b' <> [] -> tidy b'.
Proof.
  intros Hl Hwf Hc Hne. split; [done|]. split.
  - destruct (content b') as [|x l]; [done|]. rewrite zlen_cons. pose proof (zlen_nonneg l). lia.
  - rewrite Hc. unfold zlen in *. rewrite length_drop. lia.
Qed.

Lemma SplitBytes_tidy mb n mb' d : Forall tidy mb -> SplitBytes mb n = Ok (mb', d) -> Forall tidy mb'.
Proof.
  intros H. revert n mb' d. induction H as [|b mb [Hb Hl] H IH]; intros n mb' d; cbn [SplitBytes].
  - by intros [= <- <-].
  - destruct (Read_total b n Hb) as (b' & r & Hr & Hnp & Hwf' & Hc & _). rewrite Hr.
    rewrite (IsEmpty_wf b' Hwf'). destruct Hl as [_ Hl].
    destruct r as [d0|e|]; [| |done]; case_bool_decide as Hemp; cbn [negb].
    + destruct (SplitBytes mb _) as [[rest d'']| |] eqn:E; [|done|done]. intros [= <- <-]. by eapply IH.
    + intros [= <- <-]. constructor; [|done]. by apply (tidy_drop b n b').
    + destruct (SplitBytes mb _) as [[rest d'']| |] eqn:E; [|done|done]. intros [= <- <-]. by eapply IH.
    + intros [= <- <-]. constructor; [|done]. by apply (tidy_drop b n b').
Qed.

Lemma SplitSizeLoop_app mb total size rest r : SplitSizeLoop mb total size = (rest, r) -> mb = r ++ rest.
Proof.
  revert total rest r. induction mb as [|b mb IH]; intros total rest r; cbn [SplitSizeLoop]; [by intros [= <- <-]|].
  destruct (_ <? _); [by intros [= <- <-]|]. destruct (SplitSizeLoop mb _ size) as [rest' r'] eqn:E.
  intros [= <- <-]. simpl. f_equal. by eapply IH.
Qed.

Lemma Ok_pair_inj {A B} (a c : A) (b d : B) : Ok (a, b) = Ok (c, d) -> a = c /\ b = d.
Proof. by intros [= -> ->]. Qed.

(** The case of a first buffer that is cut in two. *)
Lemma SplitSize_big b mb size :
  buf_wf b -> 0 <= size < zlen (content b) -> size <= 2048 ->
  SplitSize (b :: mb) size = Ok (pop b size :: mb, [push New (take (Z.to_nat size) (content b))]).
Proof.
  intros Hb Hs Hl. unfold SplitSize. rewrite (Len_wf b Hb). replace (size <? _) with true by lia.
  rewrite New_extend by lia. cbn [mbind res_bind]. rewrite BytesTo_wf by (auto; lia). cbn [mbind res_bind].
  rewrite Advance_pop by (auto; lia). do 3 f_equal.
  assert (Hd : zlen (take (Z.to_nat size) (content b)) = size) by (unfold zlen in *; rewrite length_take; lia).
  rewrite <- New_extend_poke by lia. by rewrite Hd.
Qed.

(** On tidy buffers [SplitSize] always cuts something off. *)
Lemma SplitSize_tidy mb size :
  Forall tidy mb -> mb <> [] -> 0 < size -> zlen (mb_content mb) < 2 ^ 31 ->
  exists rest r, SplitSize mb size = Ok (rest, r) /\ Forall tidy rest /\ Forall tidy r /\
    r <> [] /\ mb_content mb = mb_content r ++ mb_content rest /\ zlen (mb_content r) <= size.
Proof.
  intros Ht Hne Hs Hl. pose proof (tidy_wf mb Ht) as Hwf.
  destruct (SplitSize_spec mb size Hwf ltac:(lia) Hl) as (rest & r & E & Hr1 & Hr2 & Hc & Hle & Hrne).
  { intros b Hb Hlt. destruct mb as [|b0 mb]; [done|]. injection Hb as ->.
    apply Forall_cons in Ht as [[_ Hb] _]. unfold Buf.Size. lia. }
  exists rest, r. specialize (Hrne Hs). split; [done|].
  assert (Hrr : r <> []). { apply Hrne. intros E0. by apply tidy_content in E0. }
  assert (Forall tidy rest /\ Forall tidy r) as [? ?]; [|by split_and!].
  pose proof E as E0. unfold SplitSize in E, E0. destruct mb as [|b mb]; [done|].
  apply Forall_cons in Ht as [[Hb Hlb] Ht].
  rewrite (Len_wf b Hb) in E, E0. destruct (size <? zlen (content b)) eqn:Elt.
  - clear E. pose proof (SplitSize_big b mb size Hb ltac:(lia) ltac:(lia)) as E.
    unfold SplitSize in E. rewrite (Len_wf b Hb), Elt in E. rewrite E0 in E.
    apply Ok_pair_inj in E as [-> ->]. apply Forall_cons in Hr1 as [Hp _]. apply Forall_cons in Hr2 as [Hq _].
    assert (Hd : zlen (take (Z.to_nat size) (content b)) = size) by (unfold zlen in *; rewrite length_take; lia).
    split; (constructor; [|done]); (split; [done|]).
    + rewrite pop_content by (done || lia). unfold zlen in *. rewrite length_drop. lia.
    + rewrite push_content by done. change (content New) with (@nil byte). rewrite app_nil_l. lia.
  - injection E as E. change (SplitSizeLoop (b :: mb) 0 size = (rest, r)) in E. apply SplitSizeLoop_app in E.
    assert (H : Forall tidy (b :: mb)) by (constructor; [by split|done]). rewrite E in H.
    apply Forall_app in H. tauto.
Qed.

#[export] Instance link_source : MbSource link.
Proof.
  refine {| source_wf l := Forall (fun mb => tidy_mb mb /\ mb <> []) (mbs l);
            source_content l := concat (map mb_content (mbs l)); source_end := link_end |}.
  intros l Hl. unfold read_mb, link_reader. destruct (mbs l) as [|mb rest] eqn:E.
  - exists l. rewrite E. split; [constructor|]. split; [done|]. by right.
  - apply Forall_cons in Hl as [[Hmb Hne] Hl]. eexists. split; [|split; [|left; by exists mb]]; done.
Defined.

Section BufferedSpec.
Context {R : Type} `{MbSource R}.

Lemma buffered_rd_spec (r : BufferedReader R) n r' bs e :
  reader_wf r -> buffered_rd r n = (r', (bs, e)) ->
  (reader_wf r' /\ (length bs <= n)%nat /\ reader_content r = bs ++ reader_content r' /\
   source_end (source r') = source_end (source r)) /\
  match e with
  | None => (0 < n)%nat -> bs <> []
  | Some err => reader_content r' = [] /\ err = source_end (source r)
  end.
Proof.
  unfold buffered_rd, Read. intros [[Hb Hbl] Hs] Hrd. rewrite (tidy_IsEmpty _ Hb) in Hrd.
  assert (Hlen : forall (l : bytes), zlen l < 2 ^ 31 -> zlen (drop n l) < 2 ^ 31)
    by (intros l; unfold zlen; rewrite length_drop; lia).
  assert (Hne : forall mb, Forall tidy mb -> mb <> [] -> (0 < n)%nat -> take n (mb_content mb) <> []).
  { intros mb Hmb Hmne Hn Et. assert (mb_content mb <> []) by (intros E; by apply tidy_content in E).
    destruct (mb_content mb); [done|]. by destruct n; [lia|]. }
  case_bool_decide as Hemp; cbn [negb] in Hrd.
  - destruct (source_law (source r) Hs) as (src & Hs' & He & [(mb & Emb & [Hmb Hml] & Hmne & Hc)|(Emb & Hc & Hc')]); rewrite Emb in Hrd.
    + destruct (SplitBytes_spec mb n (tidy_wf mb Hmb)) as (mb' & Esp & Hwf' & Hc'). rewrite Esp in Hrd.
      pose proof (SplitBytes_tidy mb n _ _ Hmb Esp) as Ht'. rewrite (tidy_IsEmpty _ Ht') in Hrd.
      injection Hrd as <- <- <-. unfold reader_wf, reader_content. cbn [source Buffer].
      rewrite Hemp, Hc. assert (HB : (if negb (bool_decide (mb' = [])) then mb' else []) = mb') by (case_bool_decide; by subst).
      rewrite HB. split; [|by apply Hne].
      split; [split; [split; [done|rewrite Hc'; auto]|done]|]. split; [rewrite length_take; lia|]. split; [|done].
      rewrite Hc', (app_assoc (take _ _)), take_drop. done.
    + injection Hrd as <- <- <-. unfold reader_wf, reader_content. cbn [source Buffer]. rewrite Hemp, Hc, Hc'.
      split; [|done]. split; [split; [split; constructor|done]|]. split; [simpl; lia|]. by split.
  - destruct (SplitBytes_spec (Buffer r) n (tidy_wf _ Hb)) as (mb' & Esp & Hwf' & Hc'). rewrite Esp in Hrd.
    pose proof (SplitBytes_tidy _ n _ _ Hb Esp) as Ht'. rewrite (tidy_IsEmpty _ Ht') in Hrd.
    injection Hrd as <- <- <-. unfold reader_wf, reader_content. cbn [source Buffer].
    assert (HB : (if bool_decide (mb' = []) then [] else mb') = mb') by (case_bool_decide; by subst).
    rewrite HB. split; [|by apply Hne].
    split; [split; [split; [done|rewrite Hc'; auto]|done]|]. split; [rewrite length_take; lia|]. split; [|done].
    by rewrite Hc', (app_assoc (take _ _)), take_drop.
Qed.

#[export] Instance buffered_reader : Reader (BufferedReader R).
Proof.
  refine {| rd := buffered_rd; rd_content := reader_content; rd_end r := source_end (source r);
            rd_wf := reader_wf |}; intros r n r' bs e Hwf Hr; by eapply buffered_rd_spec.
Defined.

(** A BufferedReader is a source itself. *)
#[export] Instance buffered_source : MbSource (BufferedReader R).
Proof.
  refine {| source_wf := reader_wf; source_content := reader_content; source_end r := source_end (source r) |}.
  intros [src buffer] [[Hb Hbl] Hs]. unfold read_mb, buffered_mb. cbn [source Buffer] in *. rewrite (tidy_IsEmpty _ Hb).
  case_bool_decide as He; cbn [negb].
  - subst buffer. destruct (source_law src Hs) as (src' & Hs' & He & [(mb & -> & Hmb & Hne & Hc)|(-> & Hc & Hc')]);
      exists {| source := src'; Buffer := [] |}; (split; [by split; [split; [constructor|]|]|split; [done|]]); unfold reader_content; cbn [source Buffer].
    + left. exists mb. done.
    + right. by rewrite Hc, Hc'.
  - exists {| source := src; Buffer := [] |}. split; [by split; [split; [constructor|]|]|]. split; [done|]. left. by exists buffer.
Defined.

(** ** ReadAtMost *)
Lemma tidy_mb_parts a b : Forall tidy a -> Forall tidy b -> zlen (mb_content a ++ mb_content b) < 2 ^ 31 ->
  tidy_mb a /\ tidy_mb b.
Proof.
  intros Ha Hb Hl. rewrite zlen_app in Hl. pose proof (zlen_nonneg (mb_content a)).
  pose proof (zlen_nonneg (mb_content b)). split; (split; [done|lia]).
Qed.

Lemma tidy_mb_nil : tidy_mb [].
Proof. by split; [constructor|]. Qed.

(** [ReadAtMost] hands out a non-empty piece of at most [size] bytes. *)
Lemma ReadAtMost_spec (r : BufferedReader R) size :
  reader_wf r -> 0 < size -> reader_content r <> [] ->
  exists r' mb, ReadAtMost size r = (r', Ok mb) /\ reader_wf r' /\ tidy_mb mb /\ mb <> [] /\
    reader_content r = mb_content mb ++ reader_content r' /\ zlen (mb_content mb) <= size /\
    source_end (source r') = source_end (source r).
Proof.
  intros [[Hb Hbl] Hs] Hsz Hne. unfold ReadAtMost. rewrite (tidy_IsEmpty _ Hb).
  assert (Hcut : forall (src : R) buffer, Forall tidy buffer -> buffer <> [] -> zlen (mb_content buffer) < 2 ^ 31 ->
    source_wf src ->
    exists r' mb,
      match SplitSize buffer size with
      | Ok (rb, mb) =>
        ({| source := src; Buffer := if MultiBuf.IsEmpty rb then [] else rb |}, Ok mb)
      | Err e => ({| source := src; Buffer := buffer |}, Err e)
      | Panic => ({| source := src; Buffer := buffer |}, Panic)
      end = (r', Ok mb) /\ reader_wf r' /\ tidy_mb mb /\ mb <> [] /\
      mb_content buffer ++ source_content src = mb_content mb ++ reader_content r' /\
      zlen (mb_content mb) <= size /\ source_end (source r') = source_end src).
  { intros src buffer Ht Hbne Hl Hsrc.
    destruct (SplitSize_tidy buffer size Ht Hbne Hsz Hl) as (rest & p & -> & Hr & Hp & Hpne & Hc & Hle).
    rewrite (tidy_IsEmpty rest Hr).
    assert ((if bool_decide (rest = []) then [] else rest) = rest) as -> by (case_bool_decide; by subst).
    rewrite Hc in Hl. destruct (tidy_mb_parts p rest Hp Hr Hl) as [Hp' Hr'].
    eexists _, _. split; [reflexivity|]. split; [by split|]. split; [done|]. split; [done|].
    split; [|done]. unfold reader_content. cbn [source Buffer]. by rewrite Hc, app_assoc. }
  case_bool_decide as Hemp.
  - unfold reader_content in *. rewrite Hemp in *. change (mb_content [] ++ ?x) with x in *.
    destruct (source_law (source r) Hs) as (src & Hs' & He & [(mb & Emb & [Hmb Hml] & Hmne & Hc)|(Emb & Hc & _)]);
      rewrite Emb; [|done]. rewrite (tidy_IsEmpty mb Hmb), bool_decide_false by done.
    cbn [andb Buffer source]. destruct (Hcut src mb) as (r' & p & E & Hr1 & Hr2 & Hr3 & Hr4 & Hr5 & Hr6);
      [done..|]. exists r', p. rewrite Hc, <- He. done.
  - destruct r as [src buffer]. cbn [source Buffer] in *. apply (Hcut src buffer); done.
Qed.
End BufferedSpec.

(** ** The chunk stream *)
Module Chunk.

Definition readSize (r : ChunkStreamReader) : BufferedReader link * res Z :=
  match ReadFull (reader r) 2 with
  | (br, (_, Some e)) => (br, Err e)
  | (br, (b, None)) => (br, PlainDecode b)
  end.

Definition with_reader (r : ChunkStreamReader) (left num : Z) (br : BufferedReader link) : ChunkStreamReader :=
  {| leftOverSize := left; maxNumChunk := maxNumChunk r; numChunk := num; reader := br |}.

(** The second half of [ReadMultiBuffer]. *)
Definition readChunk (r : ChunkStreamReader) (size : Z)
    : ChunkStreamReader * res (MultiBuffer * option error) :=
  let '(br, x) := ReadAtMost size (reader r) in
  match x with
  | Ok mb =>
    if negb (MultiBuf.IsEmpty mb)
    then (with_reader r (i32 (size - MultiBuf.Len mb)) (numChunk r) br, Ok (mb, None))
    else (with_reader r size (numChunk r) br, Ok ([], None))
  | Err e => (with_reader r size (numChunk r) br, Ok ([], Some e))
  | Panic => (with_reader r size (numChunk r) br, Panic)
  end.

#[export] Instance chunk_mb : MbReader ChunkStreamReader := fun r =>
  if leftOverSize r =? 0 then
    let r := with_reader r (leftOverSize r) (u32 (numChunk r + 1)) (reader r) in
    if (0 <? maxNumChunk r) && (maxNumChunk r <? numChunk r) then (r, Ok ([], Some EOF)) else
    match readSize r with
    | (br, Err e) => (with_reader r (leftOverSize r) (numChunk r) br, Ok ([], Some e))
    | (br, Panic) => (with_reader r (leftOverSize r) (numChunk r) br, Panic)
    | (br, Ok nextSize) =>
      let r := with_reader r (leftOverSize r) (numChunk r) br in
      if nextSize =? 0 then (r, Ok ([], Some EOF)) else readChunk r (i32 nextSize)
    end
  else readChunk r (leftOverSize r).

End Chunk.

Import Chunk.

(** The chunk stream of one chunk with [d] still to come, in front of [rest]:
    in the middle of the chunk, or before its size. *)
Definition in_chunk (r : ChunkStreamReader) (d rest : bytes) : Prop :=
  reader_wf (reader r) /\ maxNumChunk r = 1 /\ numChunk r = 1 /\ leftOverSize r = zlen d /\
  zlen d < 2 ^ 16 /\ reader_content (reader r) = d ++ rest.

Definition before_chunk (r : ChunkStreamReader) (d rest : bytes) : Prop :=
  reader_wf (reader r) /\ maxNumChunk r = 1 /\ numChunk r = 0 /\ leftOverSize r = 0 /\
  0 < zlen d < 2 ^ 16 /\ reader_content (reader r) = put_be 2 (zlen d) ++ d ++ rest.

Lemma tidy_nonempty mb : Forall tidy mb -> mb <> [] -> 0 < zlen (mb_content mb).
Proof.
  intros H Hne. destruct (mb_content mb) eqn:E; [|rewrite zlen_cons; pose proof (zlen_nonneg l); lia].
  by apply tidy_content in E.
Qed.

Lemma readChunk_spec r d rest :
  reader_wf (reader r) -> maxNumChunk r = 1 -> numChunk r = 1 -> 0 < zlen d < 2 ^ 16 ->
  reader_content (reader r) = d ++ rest ->
  exists r' mb d', readChunk r (zlen d) = (r', Ok (mb, None)) /\ tidy_mb mb /\ mb <> [] /\
    d = mb_content mb ++ d' /\ in_chunk r' d' rest.
Proof.
  intros Hwf Hm Hn Hd Hc. unfold readChunk.
  destruct (ReadAtMost_spec (reader r) (zlen d) Hwf ltac:(lia)) as (br & mb & -> & Hwf' & [Ht Hml] & Hne & Hc' & Hle & _).
  { rewrite Hc. intros E. apply app_eq_nil in E as [-> _]. unfold zlen in Hd. simpl in Hd. lia. }
  rewrite (tidy_IsEmpty mb Ht), bool_decide_false by done. cbn [negb].
  assert (Hpre : exists d', d = mb_content mb ++ d' /\ reader_content br = d' ++ rest).
  { exists (drop (length (mb_content mb)) d). rewrite Hc in Hc'.
    assert (Hl : (length (mb_content mb) <= length d)%nat) by (unfold zlen in Hle; lia).
    pose proof (f_equal (take (length (mb_content mb))) Hc') as H1.
    pose proof (f_equal (drop (length (mb_content mb))) Hc') as H2.
    rewrite take_app_le, take_app_length in H1 by done. rewrite drop_app_le, drop_app_length in H2 by done.
    split; [rewrite <- H1 at 1; by rewrite take_drop|done]. }
  destruct Hpre as (d' & -> & Hbr). eexists _, mb, d'. split; [reflexivity|]. split; [done|]. split; [done|].
  split; [done|]. rewrite zlen_app in *. pose proof (zlen_nonneg d'). pose proof (zlen_nonneg (mb_content mb)).
  rewrite (Len_spec mb) by (done || by apply tidy_wf).
  split; [done|]. split; [done|]. split; [done|]. split; [|split; [lia|done]].
  cbn [leftOverSize with_reader]. rewrite i32_small by lia. lia.
Qed.

Lemma before_read r d rest :
  before_chunk r d rest ->
  exists r' mb d', read_mb r = (r', Ok (mb, None)) /\ tidy_mb mb /\ mb <> [] /\
    d = mb_content mb ++ d' /\ in_chunk r' d' rest.
Proof.
  intros (Hwf & Hm & Hn & Hl & Hd & Hc). unfold read_mb, chunk_mb. rewrite Hl.
  change (0 =? 0) with true. cbn [with_reader maxNumChunk numChunk]. rewrite Hm, Hn.
  change ((0 <? 1) && (1 <? u32 (0 + 1))) with false. unfold readSize. cbn [with_reader reader].
  pose proof (ReadFull_spec (reader r) 2) as Hfull. specialize (Hfull Hwf).
  destruct Hfull as (br & Hwf' & _ & Hc' & ->).
  change (rd_content (reader r)) with (reader_content (reader r)) in *.
  change (rd_content br) with (reader_content br) in *. rewrite Hc in *.
  replace (2 <=? length _)%nat with true by len.
  change 2%nat with (length (put_be 2 (zlen d))) in Hc' |- * at 1.
  rewrite take_app_length. rewrite drop_app_length in Hc'. unfold PlainDecode.
  rewrite <- (app_nil_r (put_be 2 (zlen d))), Uint16_app by done.
  rewrite get_be_put_be_small by (change (256 ^ Z.of_nat 2) with (2 ^ 16); lia).
  replace (zlen d =? 0) with false by lia. rewrite i32_small by lia.
  by apply (readChunk_spec (with_reader _ 0 (u32 (0 + 1)) br) d rest).
Qed.

Lemma in_read r d rest :
  in_chunk r d rest ->
  (d <> [] -> exists r' mb d', read_mb r = (r', Ok (mb, None)) /\ tidy_mb mb /\ mb <> [] /\
    d = mb_content mb ++ d' /\ in_chunk r' d' rest) /\
  (d = [] -> exists r', read_mb r = (r', Ok ([], Some EOF)) /\ reader r' = reader r).
Proof.
  intros (Hwf & Hm & Hn & Hl & Hd & Hc). unfold read_mb, chunk_mb. split.
  - intros Hne. assert (0 < zlen d) by (destruct d; [done|rewrite zlen_cons; pose proof (zlen_nonneg d); lia]).
    rewrite Hl. replace (zlen d =? 0) with false by lia. by apply (readChunk_spec r d rest).
  - intros ->. rewrite Hl. change (zlen [] =? 0) with true. cbn [with_reader maxNumChunk numChunk].
    rewrite Hm, Hn. change ((0 <? 1) && (1 <? u32 (1 + 1))) with true. by eexists.
Qed.

(** ** What a [buf.Writer] promises

    [taken w b]: the writer accepts data and has been given [b] so far;
    [refuses w]: it fails from now on. *)
Class MbSink (W : Type) `{MbWriter W} := {
  taken : W -> bytes -> Prop;
  refuses : W -> Prop;
  taken_write w b mb : taken w b -> tidy_mb mb -> mb <> [] ->
    exists w', write_mb mb w = (w', Ok tt) /\ taken w' (b ++ mb_content mb);
  refuses_write w mb : refuses w ->
    exists w' e, write_mb mb w = (w', Err e) /\ refuses w' /\ Cause e <> EOF;
}.

#[export] Instance out_sink : MbSink out.
Proof.
  refine {| taken o b := closed o = None /\ out_bytes o = b /\
              Forall (fun mb => tidy_mb mb /\ mb <> []) (written o);
            refuses o := exists e, closed o = Some e /\ Cause e <> EOF |}.
  - intros w b mb (Hc & Hb & Hf) Ht Hne. unfold write_mb, out_writer. rewrite Hc. eexists. split; [reflexivity|].
    split; [done|]. unfold out_bytes in *. cbn [written]. split.
    + rewrite map_app, concat_app, Hb. simpl. by rewrite app_nil_r.
    + apply Forall_app. split; [done|]. by constructor.
  - intros w mb (e & Hc & He). unfold write_mb, out_writer. rewrite Hc. exists w, e. split; [done|].
    split; [by exists e|done].
Defined.

#[export] Instance discard_sink : MbSink Discard.
Proof.
  refine {| taken (_ : Discard) (_ : bytes) := True; refuses _ := False |}; [|done].
  intros w b mb _ _ _. by exists w.
Defined.

(** ** Copying one chunk *)
Section CopyChunk.
Context {W : Type} `{MbSink W}.

Lemma copy_in_chunk fuel r d rest w b :
  in_chunk r d rest -> taken w b -> (length d < fuel)%nat ->
  exists r' w', copyInternal fuel r w = Some (r', w', Ok (readError EOF)) /\
    taken w' (b ++ d) /\ reader_wf (reader r') /\ reader_content (reader r') = rest.
Proof.
  revert r d w b. induction fuel as [|f IH]; intros r d w b Hin Hw Hf; [lia|]. cbn [copyInternal].
  destruct (in_read r d rest Hin) as [Hsome Hnone]. destruct (decide (d = [])) as [->|Hne].
  - destruct (Hnone eq_refl) as (r' & -> & Hr). destruct Hin as (Hwf & _ & _ & _ & _ & Hc).
    change (MultiBuf.IsEmpty []) with true. cbn [negb]. exists r', w. rewrite app_nil_r, Hr. done.
  - destruct (Hsome Hne) as (r' & mb & d' & -> & [Ht Hl] & Hmne & -> & Hin').
    rewrite (tidy_IsEmpty mb Ht), bool_decide_false by done. cbn [negb].
    destruct (taken_write w b mb Hw (conj Ht Hl) Hmne) as (w' & -> & Hw'). pose proof (tidy_nonempty mb Ht Hmne).
    rewrite length_app in Hf.
    destruct (IH r' d' w' _ Hin' Hw') as (r2 & w2 & E & Hg & Hwf2 & Hc2); [unfold zlen in *; lia|].
    exists r2, w2. rewrite app_assoc. done.
Qed.

Lemma copy_before_chunk fuel r d rest w b :
  before_chunk r d rest -> taken w b -> (length d < fuel)%nat ->
  exists r' w', copyInternal fuel r w = Some (r', w', Ok (readError EOF)) /\
    taken w' (b ++ d) /\ reader_wf (reader r') /\ reader_content (reader r') = rest.
Proof.
  intros Hb Hw Hf. destruct fuel as [|f]; [lia|]. cbn [copyInternal].
  destruct (before_read r d rest Hb) as (r' & mb & d' & -> & [Ht Hl] & Hmne & -> & Hin).
  rewrite (tidy_IsEmpty mb Ht), bool_decide_false by done. cbn [negb].
  destruct (taken_write w b mb Hw (conj Ht Hl) Hmne) as (w' & -> & Hw'). pose proof (tidy_nonempty mb Ht Hmne).
  rewrite length_app in Hf.
  destruct (copy_in_chunk f r' d' rest w' _ Hin Hw') as (r2 & w2 & E & Hg & Hwf2 & Hc2); [unfold zlen in *; lia|].
  exists r2, w2. rewrite app_assoc. done.
Qed.

Lemma Copy_chunk fuel br d rest w b :
  reader_wf br -> reader_content br = put_be 2 (zlen d) ++ d ++ rest -> 0 < zlen d < 2 ^ 16 ->
  taken w b -> (length d < fuel)%nat ->
  exists r' w', Copy fuel (NewChunkStreamReaderWithChunkCount br 1) w = Some (r', w', Ok None) /\
    taken w' (b ++ d) /\ reader_wf (reader r') /\ reader_content (reader r') = rest.
Proof.
  intros Hwf Hc Hd Hw Hf. unfold Copy.
  destruct (copy_before_chunk fuel (NewChunkStreamReaderWithChunkCount br 1) d rest w b) as (r' & w' & -> & H1);
    [unfold before_chunk; by repeat (split; [done|])|done|done|]. by exists r', w'.
Qed.
End CopyChunk.

(** ** Copying one chunk to a writer that refuses everything *)
Section CopyDead.
Context {W : Type} `{MbSink W}.

(** The copy stops inside the chunk, so that the rest can be drained. *)
Lemma Copy_chunk_dead fuel br d rest w :
  reader_wf br -> reader_content br = put_be 2 (zlen d) ++ d ++ rest -> 0 < zlen d < 2 ^ 16 ->
  refuses w -> (0 < fuel)%nat ->
  exists r' w' e d', Copy fuel (NewChunkStreamReaderWithChunkCount br 1) w = Some (r', w', Ok (Some (writeError e))) /\
    refuses w' /\ in_chunk r' d' rest /\ (length d' <= length d)%nat.
Proof.
  intros Hwf Hc Hd Hw Hf. unfold Copy. destruct fuel as [|f]; [lia|]. cbn [copyInternal].
  destruct (before_read (NewChunkStreamReaderWithChunkCount br 1) d rest) as (r' & mb & d' & -> & [Ht Hl] & Hne & -> & Hin);
    [unfold before_chunk; by repeat (split; [done|])|].
  rewrite (tidy_IsEmpty mb Ht), bool_decide_false by done. cbn [negb].
  destruct (refuses_write w mb Hw) as (w' & e & -> & Hw' & He). cbn [inner]. rewrite bool_decide_false by done.
  exists r', w', e, d'. split; [done|]. split; [done|]. split; [done|]. rewrite length_app. lia.
Qed.
End CopyDead.

(** Draining what is left of a chunk. *)
Lemma drain_chunk fuel r d rest :
  in_chunk r d rest -> (length d < fuel)%nat ->
  exists r', Copy fuel r mkDiscard = Some (r', mkDiscard, Ok None) /\
    reader_wf (reader r') /\ reader_content (reader r') = rest.
Proof.
  intros Hin Hf. unfold Copy.
  assert (Ht : taken mkDiscard []) by exact I.
  destruct (copy_in_chunk fuel r d rest mkDiscard [] Hin Ht Hf) as (r' & w' & -> & _ & ?).
  exists r'. destruct w'. done.
Qed.
