(* ===== verification/Codec.v ===== *)
(** * Reading and writing headers: the rules the protocol codecs share

    A reading computation [takes] the bytes of an encoding when it consumes
    exactly those from any reader, however they are fragmented, and is [harmless]
    when no input makes it panic.  Both are closed under the monad, so the
    theorems of a codec follow its code line by line.  Nothing of this file maps
    to a line of the repository beyond the calls of [io.ReadFull]. *)
From S2P Require Import Prelude GoStd Buf MultiBuf NetAddr AddrParser.
Import Buf NetAddr AddrParser.

Abbreviation Cause := MultiBuf.Cause.

Module Codec.
Section Readers.
Context {R : Type} `{Reader R}.

(** [io.ReadFull] into a fresh array of [n] bytes; [wrap] is what the caller does
    to the error. *)
Definition readFull (n : nat) (wrap : error -> error) : ST R bytes := fun r =>
  match ReadFull r n with
  | (r', (bs, None)) => (r', Ok bs)
  | (r', (_, Some e)) => (r', Err (wrap e))
  end.

(** [m] returns [a], having consumed exactly [d]. *)
Definition takes {A} (m : ST R A) (d : bytes) (a : A) : Prop :=
  forall r rest, rd_wf r -> rd_content r = d ++ rest ->
  exists r', m r = (r', Ok a) /\ rd_wf r' /\ rd_end r' = rd_end r /\ rd_content r' = rest.

(** [m] does not panic, reads only forward, and its results satisfy [Q]. *)
Definition harmless {A} (m : ST R A) (Q : A -> Prop) : Prop :=
  forall r, rd_wf r -> exists r' x, m r = (r', x) /\ x <> Panic /\ later r r' /\
    (forall a, x = Ok a -> Q a).

(** At the end of the input [m] fails with the error of the reader, perhaps
    wrapped. *)
Definition ends {A} (m : ST R A) : Prop :=
  forall r, rd_wf r -> rd_content r = [] ->
  exists r' e, m r = (r', Err e) /\ Cause e = Cause (rd_end r).
End Readers.
End Codec.
Import Codec.

Section Takes.
Context {R : Type} `{Reader R}.

Lemma takes_ret {A} (a : A) : takes (mret a : ST R A) [] a.
Proof. intros r rest Hr Hc. by exists r. Qed.

Lemma takes_bind {A B} (m : ST R A) (f : A -> ST R B) d1 d2 a b :
  takes m d1 a -> takes (f a) d2 b -> takes (m ≫= f) (d1 ++ d2) b.
Proof.
  intros Hm Hf r rest Hr Hc. rewrite <- app_assoc in Hc.
  destruct (Hm r (d2 ++ rest) Hr Hc) as (r1 & E1 & Hr1 & He1 & Hc1).
  destruct (Hf r1 rest Hr1 Hc1) as (r2 & E2 & Hr2 & He2 & Hc2).
  exists r2. unfold mbind, st_bind. rewrite E1, E2. split_and!; [done|done|congruence|done].
Qed.

Lemma takes_last {A B} (m : ST R A) (f : A -> ST R B) d a b :
  takes m d a -> f a = mret b -> takes (m ≫= f) d b.
Proof.
  intros Hm Hf. rewrite <- (app_nil_r d). eapply takes_bind; [exact Hm|]. rewrite Hf. apply takes_ret.
Qed.

Lemma takes_lift {A B} (x : res A) a (f : A -> ST R B) d b :
  x = Ok a -> takes (f a) d b -> takes (st_lift x ≫= f) d b.
Proof. intros -> Hf. exact Hf. Qed.

Lemma takes_base {A} msg (m : ST R A) d a : takes m d a -> takes (st_base msg m) d a.
Proof.
  intros Hm r rest Hr Hc. destruct (Hm r rest Hr Hc) as (r' & E & ?). exists r'.
  unfold st_base. by rewrite E.
Qed.

Lemma takes_full n wrap d : length d = n -> takes (readFull n wrap) d d.
Proof.
  intros Hn r rest Hr Hc. destruct (ReadFull_spec r n Hr) as (r' & Hr' & He & Hc' & E).
  exists r'. unfold readFull. rewrite E, Hc in *.
  replace (n <=? length (d ++ rest))%nat with true by (rewrite length_app; lia).
  rewrite take_app_le, take_ge by lia. split_and!; [done|done|done|].
  by rewrite Hc', drop_app_le, drop_ge by lia.
Qed.

Lemma takes_AddressPort s a port :
  handles s a -> serializable a -> is_u16 port ->
  takes (ReadAddressPort s) (encode s a port) (a, port).
Proof. intros Hh Hs Hp r rest Hr Hc. by apply ReadAddressPort_spec. Qed.

(** [ReadFullFrom] into a buffer of one's own. *)
Lemma takes_ReadFullFrom b d rest (r : R) :
  buf_wf b -> zlen d <= room b -> rd_wf r -> rd_content r = d ++ rest ->
  exists r', ReadFullFrom (zlen d) (b, r) = ((push b d, r'), Ok (zlen d)) /\ rd_wf r' /\
    rd_end r' = rd_end r /\ rd_content r' = rest.
Proof. apply ReadFullFrom_exact. Qed.
End Takes.

Section Harmless.
Context {R : Type} `{Reader R}.

Lemma harmless_ret {A} (a : A) (Q : A -> Prop) : Q a -> harmless (mret a : ST R A) Q.
Proof.
  intros HQ r Hr. exists r, (Ok a). split; [done|]. split; [done|]. split; [by apply later_refl|].
  by intros ? [= <-].
Qed.

Lemma harmless_err {A} e (Q : A -> Prop) : harmless (st_err e : ST R A) Q.
Proof.
  intros r Hr. exists r, (Err e). split; [done|]. split; [done|]. split; [by apply later_refl|done].
Qed.

Lemma harmless_bind {A B} (m : ST R A) (f : A -> ST R B) (Q : A -> Prop) (T : B -> Prop) :
  harmless m Q -> (forall a, Q a -> harmless (f a) T) -> harmless (m ≫= f) T.
Proof.
  intros Hm Hf r Hr. destruct (Hm r Hr) as (r1 & x & E & Hx & Hl & HQ).
  unfold mbind, st_bind. rewrite E. destruct x as [a|e|]; [| |done].
  - destruct (Hf a (HQ a eq_refl) r1 (proj1 Hl)) as (r2 & y & E2 & Hy & Hl2 & HT).
    exists r2, y. split; [done|]. split; [done|]. split; [by eapply later_trans|done].
  - by exists r1, (Err e).
Qed.

Lemma harmless_lift {A B} (x : res A) (f : A -> ST R B) (T : B -> Prop) :
  x <> Panic -> (forall a, x = Ok a -> harmless (f a) T) -> harmless (st_lift x ≫= f) T.
Proof.
  intros Hx Hf. destruct x as [a|e|]; [by apply Hf|exact (harmless_err e T)|done].
Qed.

Lemma harmless_base {A} msg (m : ST R A) Q : harmless m Q -> harmless (st_base msg m) Q.
Proof.
  intros Hm r Hr. destruct (Hm r Hr) as (r' & x & E & Hx & Hl & HQ). unfold st_base. rewrite E.
  destruct x as [a|e|]; [by exists r', (Ok a)|by exists r', (Err (Based msg e))|done].
Qed.

Lemma harmless_full n wrap : harmless (readFull n wrap : ST R bytes) (fun d => length d = n).
Proof.
  intros r Hr. destruct (ReadFull_spec r n Hr) as (r' & Hr' & He & Hc & E).
  assert (Hl : later r r'). { split; [done|]. split; [done|]. rewrite Hc. apply suffix_drop. }
  unfold readFull. rewrite E.
  destruct (n <=? length (rd_content r))%nat eqn:Hn; eexists r', _; (split; [done|]); (split; [done|]);
    (split; [done|]); [|done].
  intros d [= <-]. rewrite length_take. lia.
Qed.

Lemma harmless_AddressPort s :
  known_families s ->
  harmless (ReadAddressPort s : ST R _) (fun x => sane x.1 /\ is_u16 x.2).
Proof.
  intros Hs r Hr. destruct (ReadAddressPort_later s r Hs Hr) as (r' & x & E & Hx & Hl & HQ).
  exists r', x. split; [done|]. split; [done|]. split; [done|]. intros [a port] Hx'. by apply HQ.
Qed.

(** A computation on a scratch buffer of its own. *)
Lemma harmless_scratch {A B} (b : Buffer) (m : ST (Buffer * R) A) (f : A -> Buffer -> B) Q :
  safe anybuf m Q -> small_buf b ->
  harmless (fun r => match m (b, r) with
                     | ((b, r), Ok a) => (r, Ok (f a b))
                     | ((_, r), Err e) => (r, Err e)
                     | ((_, r), Panic) => (r, Panic)
                     end) (fun _ => True).
Proof.
  intros Hm Hb r Hr. destruct (Hm b r Hb I Hr) as (b' & r' & x & E & Hx & _ & Hl & _). rewrite E.
  destruct x as [a|e|]; [by eexists r', _|by eexists r', _|done].
Qed.

(** ** The end of the input *)
Lemma ends_bind {A B} (m : ST R A) (f : A -> ST R B) : ends m -> ends (m ≫= f).
Proof.
  intros Hm r Hr Hc. destruct (Hm r Hr Hc) as (r' & e & E & He). exists r', e.
  unfold mbind, st_bind. by rewrite E.
Qed.

Lemma ends_base {A} msg (m : ST R A) : ends m -> ends (st_base msg m).
Proof.
  intros Hm r Hr Hc. destruct (Hm r Hr Hc) as (r' & e & E & He). exists r', (Based msg e).
  unfold st_base. by rewrite E.
Qed.

Lemma ends_full n wrap :
  (0 < n)%nat -> (forall e, Cause (wrap e) = Cause e) -> ends (readFull n wrap : ST R bytes).
Proof.
  intros Hn Hw r Hr Hc. destruct (ReadFull_spec r n Hr) as (r' & _ & _ & _ & E). unfold readFull.
  rewrite E, Hc. replace (n <=? length [])%nat with false by (simpl; lia).
  exists r', (wrap (rd_end r)). split; [|done]. unfold short_error. by rewrite decide_False by naive_solver.
Qed.
End Harmless.

Lemma ReadFullFrom_nothing {R} `{Reader R} b (r : R) k :
  buf_wf b -> 0 < k <= room b -> rd_wf r -> rd_content r = [] ->
  exists s, ReadFullFrom k (b, r) = (s, Err (rd_end r)).
Proof.
  intros Hb Hk Hr Hc. destruct (ReadFullFrom_spec b Hb r Hr k) as (r' & _ & _ & _ & E); [lia|].
  rewrite E, Hc. replace (k <=? zlen []) with false by (rewrite zlen_nil; lia).
  unfold short_error. rewrite decide_False by naive_solver. by eexists.
Qed.

Lemma bind_err {S A B} (m : ST S A) (f : A -> ST S B) s s' e :
  m s = (s', Err e) -> (m ≫= f) s = (s', Err e).
Proof. intros E. unfold mbind, st_bind. by rewrite E. Qed.

Lemma ends_AddressPort {R} `{Reader R} s : ends (ReadAddressPort s : ST R _).
Proof.
  intros r Hr Hc.
  assert (Hend : forall k, 0 < k <= 2048 -> exists st, ReadFullFrom k (New, r) = (st, Err (rd_end r))).
  { intros k Hk. apply ReadFullFrom_nothing; [apply New_wf|rewrite New_room; lia|done|done]. }
  assert (exists st, ReadAddressPort_with s (New, r) = (st, Err (rd_end r))) as [[b r'] E].
  { unfold ReadAddressPort_with. destruct s as [ap|ap].
    - destruct (Hend 2) as [st E]; [lia|]. exists st. apply bind_err. unfold readPort. by apply bind_err.
    - destruct (Hend 1) as [st E]; [lia|]. exists st. apply bind_err. unfold readAddress. by apply bind_err. }
  unfold ReadAddressPort. rewrite E. by eexists r', _.
Qed.

(** ** Buffers of a given size *)
Lemma Alloc_spec size :
  0 <= size < 2 ^ 31 -> exists m, Alloc size = Ok m /\ size <= zlen m < 2 ^ 31 /\
    (size <= 2048 -> zlen m = 2048) /\ (size <= 131072 -> zlen m <= 131072).
Proof.
  intros Hs. unfold Alloc. destruct (list_find _ poolSizes) as [[i ps]|] eqn:E.
  - apply list_find_Some in E as (Hi & Hle & Hmin). eexists. split; [done|].
    assert (Hps : 2048 <= ps <= 131072).
    { destruct i as [|[|[|[|i]]]]; cbn in Hi; [..|done]; injection Hi as <-; lia. }
    assert (Hz : zlen (replicate (Z.to_nat ps) x00) = ps) by (unfold zlen; rewrite length_replicate; lia).
    rewrite Hz.
    split; [lia|]. split; [|lia]. intros Hsm. destruct i as [|i]; [by injection Hi as <-|].
    exfalso. apply (Hmin 0%nat 2048); [done|lia|done].
  - eexists. split; [done|]. unfold zlen. rewrite length_replicate.
    assert (131072 < size).
    { destruct (Z.le_gt_cases size 131072) as [Hle|]; [|lia]. exfalso.
      apply list_find_None in E. unfold poolSizes in E.
      rewrite !Forall_cons in E. destruct E as (_ & _ & _ & E & _). done. }
    lia.
Qed.

Lemma NewWithSize_spec size :
  0 <= size < 2 ^ 31 ->
  exists b, NewWithSize size = Ok b /\ buf_wf b /\ content b = [] /\ size <= room b /\
    (size <= 131072 -> small_buf b).
Proof.
  intros Hs. destruct (Alloc_spec size Hs) as (m & E & Hm & _ & Hsm). unfold NewWithSize. rewrite E.
  eexists. split; [reflexivity|]. unfold small_buf, buf_wf, content, room. cbn [v start end_].
  split; [lia|]. split; [done|]. split; [lia|]. intros ?. split; lia.
Qed.
