(* ===== verification/GoText.v ===== *)
(** * Texts of the Go library: splitting, numbers, host and port, IP addresses

    The functions of packages strings, strconv and net that the sniffers, the
    resolvers and the inbounds call to take texts apart, on byte strings. *)
From S2P Require Import Prelude GoStd.

(** [strings.IndexByte] and [strings.LastIndexByte]: the text before and after. *)
Fixpoint cut (c : byte) (s : bytes) : option (bytes * bytes) :=
  match s with
  | [] => None
  | x :: s' => if decide (x = c) then Some ([], s') else
               match cut c s' with Some (a, b) => Some (x :: a, b) | None => None end
  end.

Fixpoint cut_last (c : byte) (s : bytes) : option (bytes * bytes) :=
  match s with
  | [] => None
  | x :: s' => match cut_last c s' with
               | Some (a, b) => Some (x :: a, b)
               | None => if decide (x = c) then Some ([], s') else None
               end
  end.

(** [strings.Split(s, c)] for a separator of one byte. *)
Fixpoint Split (c : byte) (s : bytes) : list bytes :=
  match s with
  | [] => [[]]
  | x :: s' =>
    if decide (x = c) then [] :: Split c s' else
    match Split c s' with
    | [] => [[x]]
    | p :: ps => (x :: p) :: ps
    end
  end.

(** [strings.EqualFold(s, t)] for [t] of ASCII letters and [s] of the same number of
    bytes: a rune that takes more bytes than the letter it folds to leaves too few. *)
Definition EqualFold (s t : bytes) : bool := bool_decide (ToLower s = ToLower t).

(** ** encoding/hex and hash/fnv *)

(** One digit of lower case hexadecimal, as encoding/hex and [%02x] print it. *)
Definition hexDigit (z : Z) : byte := z2b (if z <? 10 then 48 + z else 87 + z).
Definition hexByte (b : byte) : bytes := [hexDigit (b2z b / 16); hexDigit (b2z b mod 16)].

(** [fmt.Sprintf("%02x", v)] for every byte. *)
Fixpoint hexString (data : bytes) : bytes :=
  match data with [] => [] | v :: data' => hexByte v ++ hexString data' end.

(** [hash/fnv.New32a]. *)
Definition fnv32a (d : bytes) : Z :=
  fold_left (fun h b => u32 (Z.lxor h (b2z b) * 16777619)) d 2166136261.

(** ** strconv.ParseUint(s, 0, bitSize) *)
Definition lower (c : Z) : Z := Z.lor c 32.

Inductive saw := saw_start | saw_digit | saw_underscore | saw_other.

Fixpoint underscore_loop (hex : bool) (s : bytes) (st : saw) : bool :=
  match s with
  | [] => match st with saw_underscore => false | _ => true end
  | x :: s' =>
    let c := b2z x in
    if between 48 57 c || (hex && between 97 102 (lower c)) then underscore_loop hex s' saw_digit else
    if c =? 95 then match st with saw_digit => underscore_loop hex s' saw_underscore | _ => false end else
    match st with saw_underscore => false | _ => underscore_loop hex s' saw_other end
  end.

(** Without a sign, which [ParseUint] refuses before it asks. *)
Definition underscoreOK (s : bytes) : bool :=
  match s with
  | a :: b :: s' =>
    if (b2z a =? 48) && ((lower (b2z b) =? 98) || (lower (b2z b) =? 111) || (lower (b2z b) =? 120))
    then underscore_loop (lower (b2z b) =? 120) s' saw_digit
    else underscore_loop false s saw_start
  | _ => underscore_loop false s saw_start
  end.

Definition ErrSyntax : error := NewError "invalid syntax".
Definition ErrRange : error := NewError "value out of range".

(** The digits of [s] in base [b], below [max]; the flag says if a [_] was seen. *)
Fixpoint digits (b max : Z) (s : bytes) (n : Z) (under : bool) : res (Z * bool) :=
  match s with
  | [] => Ok (n, under)
  | x :: s' =>
    let c := b2z x in
    if c =? 95 then digits b max s' n true else
    match (if between 48 57 c then Some (c - 48)
           else if between 97 122 (lower c) then Some (lower c - 97 + 10) else None) with
    | None => Err ErrSyntax
    | Some d =>
      if b <=? d then Err ErrSyntax else
      if max <? n * b + d then Err ErrRange else digits b max s' (n * b + d) under
    end
  end.

Definition ParseUint0 (s : bytes) (bitSize : Z) : res Z :=
  let '(b, t) :=
    match s with
    | a :: s1 =>
      if b2z a =? 48 then
        match s1 with
        | p :: (_ :: _) as s2 =>
          if lower (b2z p) =? 98 then (2, tail s1) else
          if lower (b2z p) =? 111 then (8, tail s1) else
          if lower (b2z p) =? 120 then (16, tail s1) else (8, s1)
        | _ => (8, s1)
        end
      else (10, s)
    | [] => (10, s)
    end in
  match s with
  | [] => Err ErrSyntax
  | _ =>
    '(n, under) ← digits b (2 ^ bitSize - 1) t 0 false;
    if under && negb (underscoreOK s) then Err ErrSyntax else Ok n
  end.

(** [strconv.ParseUint(s, 10, bitSize)]: base 10 takes no underscore. *)
Definition ParseUint10 (s : bytes) (bitSize : Z) : res Z :=
  match s with
  | [] => Err ErrSyntax
  | _ => if existsb (fun x => b2z x =? 95) s then
           (* the first offence decides: a digit or the range before the underscore *)
           match digits 10 (2 ^ bitSize - 1) (match cut (z2b 95) s with Some (a, _) => a | None => s end) 0 false with
           | Ok _ => Err ErrSyntax
           | Err e => Err e
           | Panic => Panic
           end
         else '(n, _) ← digits 10 (2 ^ bitSize - 1) s 0 false; Ok n
  end.

(** [strconv.Itoa] on a natural number: at most 20 digits for an int64. *)
Fixpoint itoa_loop (fuel : nat) (n : Z) (acc : bytes) : bytes :=
  match fuel with
  | O => acc
  | S f => let acc := z2b (48 + n mod 10) :: acc in
           if n <? 10 then acc else itoa_loop f (n / 10) acc
  end.
Definition Itoa (n : Z) : bytes := itoa_loop 20 n [].

(** ** net.SplitHostPort *)
Definition missingPort : error := NewError "missing port in address".
Definition tooManyColons : error := NewError "too many colons in address".

Definition has (c : byte) (s : bytes) : bool := bool_decide (c ∈ s).

Definition SplitHostPort (hostport : bytes) : res (bytes * bytes) :=
  match cut_last (z2b 58) hostport with
  | None => Err missingPort
  | Some (before, port) =>
    let i := zlen before in
    h0 ← or_panic (index hostport 0);
    '(host, j, k) ←
      (if decide (h0 = z2b 91) then
         match cut (z2b 93) hostport with
         | None => Err (NewError "missing ']' in address")
         | Some (upto, _) =>
           let end_ := zlen upto in
           if end_ + 1 =? zlen hostport then Err missingPort else
           if end_ + 1 =? i then host ← or_panic (slice hostport 1 end_); Ok (host, 1, end_ + 1) else
           c ← or_panic (index hostport (end_ + 1));
           if decide (c = z2b 58) then Err tooManyColons else Err missingPort
         end
       else
         host ← or_panic (slice hostport 0 i);
         if has (z2b 58) host then Err tooManyColons else Ok (host, 0, 0));
    tj ← from hostport j;
    if has (z2b 91) tj then Err (NewError "unexpected '[' in address") else
    tk ← from hostport k;
    if has (z2b 93) tk then Err (NewError "unexpected ']' in address") else
    Ok (host, port)
  end.

(** ** net.IP.String *)

Definition dot : bytes := lit ".".
Definition dotted (ip : bytes) : bytes :=
  match map (fun x => Itoa (b2z x)) ip with
  | [a; b; c; d] => a ++ dot ++ b ++ dot ++ c ++ dot ++ d
  | _ => []
  end.

Definition hex_char (d : Z) : byte := if d <? 10 then z2b (48 + d) else z2b (87 + d).

(** A group of 16 bits without leading zeros ([appendHex]). *)
Definition appendHex (x : Z) : bytes :=
  (if 4096 <=? x then [hex_char (x / 4096)] else []) ++
  (if 256 <=? x then [hex_char (x / 256 mod 16)] else []) ++
  (if 16 <=? x then [hex_char (x / 16 mod 16)] else []) ++
  [hex_char (x mod 16)].

Fixpoint groups (ip : bytes) : list Z :=
  match ip with
  | a :: b :: ip' => b2z a * 256 + b2z b :: groups ip'
  | _ => []
  end.

(** The number of zero groups [gs] starts with. *)
Fixpoint zero_run (gs : list Z) : Z :=
  match gs with g :: gs' => if g =? 0 then 1 + zero_run gs' else 0 | [] => 0 end.

(** The first longest run of at least two zero groups: start and end. *)
Fixpoint longest (gs : list Z) (i : Z) (best : Z * Z) : Z * Z :=
  match gs with
  | [] => best
  | _ :: gs' =>
    let l := zero_run gs in
    longest gs' (i + 1) (if (2 <=? l) && (best.2 - best.1 <? l) then (i, i + l) else best)
  end.

(** [appendTo6]: the group at [i], skipping the run [run]. *)
Fixpoint groups_text (gs : list Z) (i : Z) (run : Z * Z) : bytes :=
  match gs with
  | [] => []
  | g :: gs' =>
    (if i =? run.1 then lit "::" else
     if (run.1 <? i) && (i <? run.2) then [] else
     (if (0 <? i) && negb (i =? run.2) then lit ":" else []) ++ appendHex g) ++
    groups_text gs' (i + 1) run
  end.

Definition ipv6_text (ip : bytes) : bytes :=
  let gs := groups ip in groups_text gs 0 (longest gs 0 (255, 255)).

(** [IP.String] on an address of 4 or 16 bytes. *)
Definition IP_String (ip : bytes) : bytes :=
  match To4 ip with
  | Some p4 => dotted p4
  | None => ipv6_text ip
  end.

Example ip_text :
  IP_String (map z2b [1; 2; 30; 255]) = lit "1.2.30.255" /\
  IP_String (map z2b [32; 1; 13; 184; 0; 0; 0; 0; 0; 1; 0; 0; 0; 0; 0; 1]) = lit "2001:db8::1:0:0:1" /\
  IP_String (map z2b [0; 0; 0; 0; 0; 0; 0; 0; 0; 0; 0; 0; 0; 0; 0; 0]) = lit "::" /\
  IP_String (map z2b [0; 1; 0; 0; 0; 0; 0; 0; 0; 0; 0; 0; 0; 0; 0; 0]) = lit "1::" /\
  IP_String (map z2b [0; 0; 0; 0; 0; 0; 0; 0; 0; 0; 0; 0; 0; 0; 0; 1]) = lit "::1" /\
  IP_String (map z2b [254; 128; 0; 0; 0; 0; 0; 0; 0; 1; 0; 0; 171; 205; 0; 0]) = lit "fe80::1:0:abcd:0".
Proof. repeat split; vm_compute; reflexivity. Qed.

Example ports :
  SplitHostPort (lit "example.org:443") = Ok (lit "example.org", lit "443") /\
  SplitHostPort (lit "[::1]:80") = Ok (lit "::1", lit "80") /\
  SplitHostPort (lit "[::1]") = Err missingPort /\
  SplitHostPort (lit "::1") = Err tooManyColons /\
  ParseUint0 (lit "0x50") 16 = Ok 80 /\ ParseUint0 (lit "65536") 16 = Err ErrRange /\
  ParseUint0 (lit "1_0") 16 = Ok 10 /\ ParseUint0 (lit "1__0") 16 = Err ErrSyntax /\
  ParseUint10 (lit "8080") 16 = Ok 8080 /\ Itoa 65535 = lit "65535" /\ Itoa 0 = lit "0".
Proof. repeat split; vm_compute; reflexivity. Qed.

(** ** Slices in range *)
Lemma from_drop {A} (d : list A) n : 0 <= n <= zlen d -> from d n = Ok (drop (Z.to_nat n) d).
Proof.
  intros. unfold from. rewrite slice_Some by lia. cbn. rewrite firstn_all2 by len. done.
Qed.

Lemma index_ok {A} (d : list A) i : 0 <= i < zlen d -> exists x, index d i = Some x.
Proof.
  intros. destruct (lookup_lt_is_Some_2 d (Z.to_nat i)) as [x Hx]; [len|].
  exists x. apply index_Some. split; [lia|done].
Qed.

Lemma Uint16_ok d : 2 <= zlen d -> exists v, Uint16 d = Ok v /\ is_u16 v.
Proof.
  intros. unfold Uint16. rewrite slice_Some by lia. eexists. split; [done|].
  pose proof (get_be_range (take (Z.to_nat (2 - 0)) (drop (Z.to_nat 0) d))) as R.
  replace (zlen (take _ _)) with 2 in R by len. lia.
Qed.

Lemma slice_app {A} (a b : list A) n : zlen a = n -> slice (a ++ b) 0 n = Some a.
Proof.
  intros <-. rewrite slice_Some by len. f_equal. rewrite drop_0.
  replace (Z.to_nat (zlen a - 0)) with (length a) by len. apply take_app_length.
Qed.

Ltac test := match goal with |- context [if ?b then _ else _] => destruct b eqn:? end.

(** ** Lemmas *)
Lemma cut_None c s : c ∉ s -> cut c s = None.
Proof.
  induction s as [|x s IH]; [done|]. intros [Hx Hs]%not_elem_of_cons. cbn [cut].
  rewrite decide_False by congruence. by rewrite IH.
Qed.

Lemma cut_app c a b : c ∉ a -> cut c (a ++ c :: b) = Some (a, b).
Proof.
  induction a as [|x a IH]; cbn [app cut]; [by rewrite decide_True by done|].
  intros [Hx Hs]%not_elem_of_cons. rewrite decide_False by congruence. by rewrite IH.
Qed.

Lemma cut_Some c s a b : cut c s = Some (a, b) -> s = a ++ c :: b /\ c ∉ a.
Proof.
  revert a b. induction s as [|x s IH]; [done|]. cbn [cut]. intros a b.
  destruct (decide (x = c)) as [->|Hx].
  - intros [= <- <-]. split; [done|apply not_elem_of_nil].
  - destruct (cut c s) as [[a' b']|] eqn:E; [|done]. intros [= <- <-].
    destruct (IH _ _ eq_refl) as [-> H]. split; [done|]. apply not_elem_of_cons. by split.
Qed.

Lemma cut_last_None c s : c ∉ s -> cut_last c s = None.
Proof.
  induction s as [|x s IH]; [done|]. intros [Hx Hs]%not_elem_of_cons. cbn [cut_last].
  rewrite IH by done. by rewrite decide_False by congruence.
Qed.

Lemma cut_last_app c a b : c ∉ b -> cut_last c (a ++ c :: b) = Some (a, b).
Proof.
  intros Hb. induction a as [|x a IH]; cbn [app cut_last]; [|by rewrite IH].
  rewrite cut_last_None by done. by rewrite decide_True by done.
Qed.

Lemma cut_last_Some c s a b : cut_last c s = Some (a, b) -> s = a ++ c :: b.
Proof.
  revert a b. induction s as [|x s IH]; [done|]. cbn [cut_last]. intros a b.
  destruct (cut_last c s) as [[a' b']|] eqn:E.
  - intros [= <- <-]. by rewrite (IH _ _ eq_refl) at 1.
  - destruct (decide (x = c)) as [->|Hx]; [|done]. by intros [= <- <-].
Qed.

Lemma Split_line c l r : c ∉ l -> Split c (l ++ c :: r) = l :: Split c r.
Proof.
  induction l as [|x l IH]; cbn [app Split]; [by rewrite decide_True by done|].
  intros [Hx Hs]%not_elem_of_cons. rewrite decide_False by congruence. by rewrite IH.
Qed.

(** ** Trimming *)
Definition alnumb (c : byte) : bool :=
  between 48 57 (b2z c) || between 65 90 (b2z c) || between 97 122 (b2z c).
Abbreviation alnum c := (alnumb c = true).

Lemma no_space_prefix c s : alnum c -> list_find (fun p => HasPrefix (c :: s) p = true) spaces = None.
Proof.
  intros Hc. apply list_find_None.
  assert (H : Forall (fun p => match p with x :: _ => negb (alnumb x) = true | [] => False end) spaces)
    by (repeat constructor).
  eapply Forall_impl; [exact H|]. intros [|x p]; [done|]. intros Hx (k & E)%HasPrefix_spec.
  injection E as -> _. by rewrite Hc in Hx.
Qed.

Lemma no_space_suffix c s : alnum c -> list_find (fun p => HasSuffix (s ++ [c]) p = true) spaces = None.
Proof.
  intros Hc. apply list_find_None.
  assert (H : Forall (fun p => match last p with Some x => negb (alnumb x) = true | None => False end) spaces)
    by (repeat constructor).
  eapply Forall_impl; [exact H|]. intros p Hx. cbv beta in Hx.
  destruct (last p) as [x|] eqn:E; [|done].
  apply last_Some in E as [q ->]. intros (k & E)%HasSuffix_spec.
  rewrite app_assoc in E. apply app_inj_tail in E as [_ ->]. by rewrite Hc in Hx.
Qed.

Lemma TrimLeftSpace_blank fuel s : TrimLeftSpace (S fuel) (x20 :: s) = TrimLeftSpace fuel s.
Proof.
  cbn [TrimLeftSpace].
  replace (list_find _ _) with (Some (5%nat, [x20])); [done|]. symmetry. apply list_find_Some.
  split; [done|]. split; [by apply HasPrefix_spec; exists s|].
  intros j y Hy Hj.
  do 5 (destruct j as [|j]; [injection Hy as <-; intros (k & E)%HasPrefix_spec; discriminate E|]). lia.
Qed.

Lemma TrimRightSpace_cr fuel s : TrimRightSpace (S fuel) (s ++ [x0d]) = TrimRightSpace fuel s.
Proof.
  cbn [TrimRightSpace].
  replace (list_find _ _) with (Some (4%nat, [x0d])).
  - f_equal. apply take_app_length'. len.
  - symmetry. apply list_find_Some. split; [done|]. split; [by apply HasSuffix_spec; exists s|].
    intros j y Hy Hj.
    do 4 (destruct j as [|j];
      [injection Hy as <-; intros (k & E)%HasSuffix_spec; apply app_inj_tail in E as [_ E]; discriminate E|]).
    lia.
Qed.

(** A text that starts and ends with a letter or a digit. *)
Definition word (s : bytes) : Prop :=
  (exists c r, s = c :: r /\ alnum c) /\ (exists r c, s = r ++ [c] /\ alnum c).

Lemma TrimLeftSpace_word fuel s r : word s -> TrimLeftSpace fuel (s ++ r) = s ++ r.
Proof.
  intros [(c & s' & -> & Hc) _]. destruct fuel; [done|]. cbn [TrimLeftSpace app].
  by rewrite no_space_prefix.
Qed.

Lemma TrimRightSpace_word fuel s : word s -> TrimRightSpace fuel s = s.
Proof.
  intros [_ (s' & c & -> & Hc)]. destruct fuel; [done|]. cbn [TrimRightSpace].
  by rewrite no_space_suffix.
Qed.

Lemma TrimSpace_line s : word s -> TrimSpace (x20 :: s ++ [x0d]) = s.
Proof.
  intros Hs. unfold TrimSpace. cbn [length]. rewrite TrimLeftSpace_blank, TrimLeftSpace_word by done.
  rewrite length_app, Nat.add_comm. cbn [length Nat.add]. rewrite TrimRightSpace_cr.
  by apply TrimRightSpace_word.
Qed.

(** ** Numbers *)
Lemma digits_app b max n acc under d :
  0 <= d < 10 -> d < b -> n * b + d <= max ->
  digits b max (z2b (48 + d) :: acc) n under = digits b max acc (n * b + d) under.
Proof.
  intros Hd Hb Hm. cbn [digits]. rewrite z2b_small by lia. unfold between.
  replace (_ =? 95) with false by lia. replace (_ && _) with true by lia.
  replace (48 + d - 48) with d by lia. by rewrite (proj2 (Z.leb_gt b d)), (proj2 (Z.ltb_ge max _)) by lia.
Qed.

Lemma digits_itoa max fuel n acc :
  0 <= n <= max -> n < 10 ^ Z.of_nat fuel -> (0 < fuel)%nat ->
  digits 10 max (itoa_loop fuel n acc) 0 false = digits 10 max acc n false.
Proof.
  revert n acc. induction fuel as [|fuel IH]; intros n acc Hn Hf Hp; [lia|]. cbn [itoa_loop].
  pose proof (Z.mod_pos_bound n 10 ltac:(lia)). pose proof (Z.div_mod n 10 ltac:(lia)).
  destruct (Z.ltb_spec n 10).
  - rewrite digits_app by lia. f_equal. rewrite Z.mod_small; lia.
  - rewrite Nat2Z.inj_succ, Z.pow_succ_r in Hf by lia.
    rewrite IH.
    + rewrite digits_app by lia. f_equal. lia.
    + split; [apply Z.div_pos; lia|]. apply Z.div_le_upper_bound; lia.
    + apply Z.div_lt_upper_bound; lia.
    + destruct fuel; [change (10 ^ Z.of_nat 0) with 1 in Hf; lia|lia].
Qed.

Definition digit (x : byte) : Prop := between 48 57 (b2z x) = true.

Lemma itoa_digits fuel n acc : 0 <= n -> Forall digit acc -> Forall digit (itoa_loop fuel n acc).
Proof.
  revert n acc. induction fuel as [|fuel IH]; intros n acc Hn Ha; [done|]. cbn [itoa_loop].
  pose proof (Z.mod_pos_bound n 10 ltac:(lia)).
  assert (Forall digit (z2b (48 + n mod 10) :: acc)).
  { constructor; [|done]. unfold digit, between. rewrite z2b_small by lia. lia. }
  destruct (n <? 10); [done|]. apply IH; [|done]. apply Z.div_pos; lia.
Qed.

(** The text of a positive number does not start with a zero. *)
Lemma itoa_head fuel n acc :
  0 < n < 10 ^ Z.of_nat fuel -> exists d r, itoa_loop fuel n acc = z2b (48 + d) :: r /\ 0 < d < 10.
Proof.
  revert n acc. induction fuel as [|fuel IH]; intros n acc Hn; [change (10 ^ Z.of_nat 0) with 1 in Hn; lia|].
  cbn [itoa_loop]. destruct (Z.ltb_spec n 10).
  - exists n, acc. rewrite Z.mod_small by lia. split; [done|lia].
  - apply IH. rewrite Nat2Z.inj_succ, Z.pow_succ_r in Hn by lia. split.
    + apply Z.div_str_pos. lia.
    + apply Z.div_lt_upper_bound; lia.
Qed.

Lemma ParseUint0_Itoa n k : 0 < n < 2 ^ k -> k <= 64 -> ParseUint0 (Itoa n) k = Ok n.
Proof.
  intros Hn Hk.
  assert (n < 10 ^ Z.of_nat 20).
  { assert (2 ^ k <= 2 ^ 64) by (apply Z.pow_le_mono_r; lia). change (10 ^ Z.of_nat 20) with 100000000000000000000.
    change (2 ^ 64) with 18446744073709551616 in *. lia. }
  unfold Itoa. destruct (itoa_head 20 n [] ltac:(lia)) as (d & r & E & Hd).
  pose proof (digits_itoa (2 ^ k - 1) 20 n [] ltac:(lia) ltac:(lia) ltac:(lia)) as D.
  rewrite E in *. unfold ParseUint0. rewrite z2b_small by lia.
  replace (48 + d =? 48) with false by lia. rewrite D. done.
Qed.

(** ** Hexadecimal digits and the FNV hash *)
Lemma length_hexString d : length (hexString d) = (2 * length d)%nat.
Proof. induction d as [|b d IH]; [done|]. simpl. rewrite IH. lia. Qed.

Lemma hexDigit_inj x y : 0 <= x < 16 -> 0 <= y < 16 -> hexDigit x = hexDigit y -> x = y.
Proof.
  intros Hx Hy E. apply (f_equal b2z) in E. unfold hexDigit in E.
  revert E. destruct (x <? 10) eqn:?, (y <? 10) eqn:?; rewrite !z2b_small by lia; lia.
Qed.

Lemma hexString_inj a b : hexString a = hexString b -> a = b.
Proof.
  revert b. induction a as [|x a IH]; intros [|y b]; try done. cbn [hexString hexByte app].
  intros [= E1 E2 E3]. pose proof (b2z_range x). pose proof (b2z_range y).
  apply hexDigit_inj in E1; [|split; [apply Z.div_pos|apply Z.div_lt_upper_bound]; lia..].
  apply hexDigit_inj in E2; [|apply Z.mod_pos_bound; lia..].
  f_equal; [|by apply IH]. apply b2z_inj. rewrite (Z.div_mod (b2z x) 16), (Z.div_mod (b2z y) 16) by lia. lia.
Qed.

Lemma fnv32a_range d : is_u32 (fnv32a d).
Proof.
  unfold fnv32a. assert (forall h, is_u32 h ->
    is_u32 (fold_left (fun h b => u32 (Z.lxor h (b2z b) * 16777619)) d h)) as H; [|apply H; lia].
  induction d as [|b d IH]; intros h Hh; [done|]. cbn [fold_left]. apply IH, u32_range.
Qed.
