(* ===== verification/Sniff.v ===== *)
(** * Sniffing TLS: common/protocol/tls/sniff.go

    [Module TlsSniff] is [SniffTLS] and [ReadClientHello], which sniffing QUIC
    calls too.  Sniffers read the first bytes of untrusted connections: an index
    or a slice out of range is [Panic].  A loop has fuel, the bytes that are left,
    and [None] is out of fuel. *)
From S2P Require Import Prelude GoStd GoText.

(** common.ErrNoClue and protocol.ErrProtoNeedMoreData *)
Definition ErrNoClue : error := NewError "not enough information for making a decision".
Definition ErrProtoNeedMoreData : error :=
  NewError "protocol matches, but need more data to complete sniffing".

(** A sniffer returns: its fuel suffices and it does not panic. *)
Definition settled {A} (o : option (res A)) : Prop := exists r, o = Some r /\ r <> Panic.

Module TlsSniff.

Definition errNotTLS : error := NewError "not TLS header".
Definition errNotClientHello : error := NewError "not client hello".

Definition IsValidTLSVersion (major minor : byte) : bool := b2z major =? 3.

(** [int(data[0])<<8 | int(data[1])] *)
Definition be16 (data : bytes) : res Z :=
  a ← or_panic (index data 0); b ← or_panic (index data 1);
  Ok (Z.lor (Z.shiftl (b2z a) 8) (b2z b)).

Definition byte_at (data : bytes) (i : Z) : res Z := x ← or_panic (index data i); Ok (b2z x).

(** The names of a server_name extension: the first host name, [None] when there
    is none. *)
Fixpoint names (fuel : nat) (d : bytes) : option (res (option bytes)) :=
  match fuel with
  | O => None
  | S fuel' =>
    if zlen d <=? 0 then Some (Ok None) else
    if zlen d <? 3 then Some (Err errNotClientHello) else
    match
      (nameType ← byte_at d 0;
       t ← from d 1; nameLen ← be16 t;
       d ← from d 3;
       if zlen d <? nameLen then Err errNotClientHello else
       if nameType =? 0 then
         serverName ← or_panic (slice d 0 nameLen);
         if HasSuffix serverName (lit ".") then Err errNotClientHello else Ok (inl serverName)
       else d ← from d nameLen; Ok (inr d))
    with
    | Ok (inl serverName) => Some (Ok (Some serverName))
    | Ok (inr d) => names fuel' d
    | Err e => Some (Err e)
    | Panic => Some Panic
    end
  end.

(** The body of a server_name extension. *)
Definition server_name (d : bytes) : option (res (option bytes)) :=
  if zlen d <? 2 then Some (Err errNotClientHello) else
  match (namesLen ← be16 d; d ← from d 2; if negb (zlen d =? namesLen) then Err errNotClientHello else Ok d) with
  | Ok d => names (S (length d)) d
  | Err e => Some (Err e)
  | Panic => Some Panic
  end.

(** The loop over the extensions: the host name it sets and returns with. *)
Fixpoint extensions (fuel : nat) (data : bytes) : option (res bytes) :=
  match fuel with
  | O => None
  | S fuel' =>
    if zlen data =? 0 then Some (Err errNotTLS) else
    if zlen data <? 4 then Some (Err errNotClientHello) else
    match
      (extension ← be16 data; t ← from data 2; length ← be16 t; data ← from data 4;
       if zlen data <? length then Err errNotClientHello else
       d ← or_panic (slice data 0 length); data ← from data length; Ok (extension, d, data))
    with
    | Ok (extension, d, data) =>
      if extension =? 0 then
        match server_name d with
        | Some (Ok (Some serverName)) => Some (Ok serverName)
        | Some (Ok None) => extensions fuel' data
        | Some (Err e) => Some (Err e)
        | Some Panic => Some Panic
        | None => None
        end
      else extensions fuel' data
    | Err e => Some (Err e)
    | Panic => Some Panic
    end
  end.

(** Up to the extensions. *)
Definition hello_extensions (data : bytes) : res bytes :=
  if zlen data <? 42 then Err ErrNoClue else
  sessionIDLen ← byte_at data 38;
  if (32 <? sessionIDLen) || (zlen data <? 39 + sessionIDLen) then Err ErrNoClue else
  data ← from data (39 + sessionIDLen);
  if zlen data <? 2 then Err ErrNoClue else
  cipherSuiteLen ← be16 data;
  if (cipherSuiteLen mod 2 =? 1) || (zlen data <? 2 + cipherSuiteLen) then Err errNotClientHello else
  data ← from data (2 + cipherSuiteLen);
  if zlen data <? 1 then Err ErrNoClue else
  compressionMethodsLen ← byte_at data 0;
  if zlen data <? 1 + compressionMethodsLen then Err ErrNoClue else
  data ← from data (1 + compressionMethodsLen);
  if zlen data =? 0 then Err errNotClientHello else
  if zlen data <? 2 then Err errNotClientHello else
  extensionsLength ← be16 data;
  data ← from data 2;
  if negb (extensionsLength =? zlen data) then Err errNotClientHello else
  Ok data.

(** [ReadClientHello(data, h)]: the domain of [h] on success. *)
Definition ReadClientHello (data : bytes) : option (res bytes) :=
  match hello_extensions data with
  | Ok data => extensions (S (length data)) data
  | Err e => Some (Err e)
  | Panic => Some Panic
  end.

Definition SniffTLS (b : bytes) : option (res bytes) :=
  if zlen b <? 5 then Some (Err ErrNoClue) else
  match
    (b0 ← byte_at b 0;
     if negb (b0 =? 22) then Err errNotTLS else
     b1 ← or_panic (index b 1); b2 ← or_panic (index b 2);
     if negb (IsValidTLSVersion b1 b2) then Err errNotTLS else
     h ← or_panic (slice b 3 5); headerLen ← Uint16 h;
     if zlen b <? 5 + headerLen then Err ErrNoClue else
     or_panic (slice b 5 (5 + headerLen)))
  with
  | Ok d => ReadClientHello d
  | Err e => Some (Err e)
  | Panic => Some Panic
  end.

(** ** A ClientHello on the wire (RFC 8446, 4.1.2) *)
Definition vec16 (d : bytes) : bytes := put_be 2 (zlen d) ++ d.
Definition vec8 (d : bytes) : bytes := put_be 1 (zlen d) ++ d.

Definition encode_extension (e : Z * bytes) : bytes := put_be 2 e.1 ++ vec16 e.2.

Record ClientHello := mkHello {
  preamble : bytes;              (* handshake type, length, version and random: 38 bytes *)
  session_id : bytes;
  cipher_suites : list bytes;    (* of two bytes each *)
  compression : bytes;
  before : list (Z * bytes);     (* extensions before server_name *)
  sni : bytes;
  after : list (Z * bytes);
}.

Definition encode_sni (host : bytes) : Z * bytes := (0, vec16 (x00 :: vec16 host)).

Definition hello_exts (h : ClientHello) : bytes :=
  concat (map encode_extension (before h ++ encode_sni (sni h) :: after h)).

Definition encode_hello (h : ClientHello) : bytes :=
  preamble h ++ vec8 (session_id h) ++ vec16 (concat (cipher_suites h)) ++ vec8 (compression h) ++
  vec16 (hello_exts h).

Definition record_of (minor : byte) (d : bytes) : bytes := x16 :: x03 :: minor :: vec16 d.

Record hello_ok (h : ClientHello) : Prop := {
  ho_preamble : length (preamble h) = 38%nat;
  ho_session : zlen (session_id h) <= 32;
  ho_suites : Forall (fun s => length s = 2%nat) (cipher_suites h);
  ho_suites_len : zlen (concat (cipher_suites h)) < 2 ^ 16;
  ho_compression : zlen (compression h) < 2 ^ 8;
  ho_before : Forall (fun e => 0 < e.1 < 2 ^ 16) (before h);
  ho_exts : zlen (hello_exts h) < 2 ^ 16;
  ho_sni : HasSuffix (sni h) (lit ".") = false;
}.

(** ** What the reads give *)
Lemma byte_at_ok d i : 0 <= i < zlen d -> exists v, byte_at d i = Ok v /\ is_u8 v.
Proof.
  intros. unfold byte_at. destruct (index_ok d i) as [x ->]; [done|].
  eexists. split; [done|]. apply b2z_range.
Qed.

Lemma lor_low a b n : 0 <= n -> 0 <= b < 2 ^ n -> Z.lor (Z.shiftl a n) b = a * 2 ^ n + b.
Proof.
  intros Hn Hb. rewrite <- (Z.shiftl_mul_pow2 a n) by done.
  rewrite <- Z.add_lor_land.
  enough (E : Z.land (Z.shiftl a n) b = 0) by lia.
  apply Z.bits_inj'. intros m Hm. rewrite Z.land_spec, Z.bits_0.
  destruct (Z.ltb_spec m n).
  - by rewrite Z.shiftl_spec_low by lia.
  - rewrite <- (Z.mod_small b (2 ^ n)) by done. by rewrite Z.mod_pow2_bits_high, andb_false_r by lia.
Qed.

Lemma be16_bytes a b r : be16 (a :: b :: r) = Ok (b2z a * 256 + b2z b).
Proof. unfold be16. cbn [index]. simpl. by rewrite lor_low by (try apply b2z_range; lia). Qed.

Lemma be16_ok d : 2 <= zlen d -> exists v, be16 d = Ok v /\ is_u16 v.
Proof.
  destruct d as [|a [|b r]]; [len..|]. intros. rewrite be16_bytes. eexists. split; [done|].
  pose proof (b2z_range a). pose proof (b2z_range b). lia.
Qed.

Lemma be16_put v r : is_u16 v -> be16 (put_be 2 v ++ r) = Ok v.
Proof.
  intros Hv. change (put_be 2 v ++ r) with (z2b (v / 256 ^ 1) :: z2b (v / 256 ^ 0) :: r).
  rewrite be16_bytes. f_equal. pose proof (get_put_be 2 v) as H.
  rewrite (Z.mod_small v) in H by lia. rewrite <- H at 3. done.
Qed.

Ltac reads :=
  repeat match goal with
  | |- context [be16 ?d] =>
    let v := fresh "v" in let E := fresh "E" in let R := fresh "R" in
    destruct (be16_ok d) as (v & E & R); [len|rewrite E; clear E; cbn [mbind res_bind]]
  | |- context [byte_at ?d ?i] =>
    let v := fresh "v" in let E := fresh "E" in let R := fresh "R" in
    destruct (byte_at_ok d i) as (v & E & R); [len|rewrite E; clear E; cbn [mbind res_bind]]
  | |- context [index ?d ?i] =>
    let E := fresh "E" in
    destruct (index_ok d i) as (? & E); [len|rewrite E; clear E; cbn [mbind res_bind or_panic]]
  | |- context [Uint16 ?d] =>
    let v := fresh "v" in let E := fresh "E" in let R := fresh "R" in
    destruct (Uint16_ok d) as (v & E & R); [len|rewrite E; clear E; cbn [mbind res_bind]]
  | |- context [from ?d ?n] => rewrite (from_drop d n) by len; cbn [mbind res_bind]
  | |- context [slice ?d ?a ?b] => rewrite (slice_Some d a b) by len; cbn [mbind res_bind or_panic]
  end.

(** ** Sniffing ends, and never panics *)
Lemma names_settled fuel d : (length d < fuel)%nat -> settled (names fuel d).
Proof.
  revert d. induction fuel as [|fuel IH]; intros d Hd; [lia|]. cbn [names].
  destruct (zlen d <=? 0) eqn:?; [by eexists|].
  destruct (zlen d <? 3) eqn:?; [by eexists|].
  reads. test; [by eexists|].
  test; reads.
  - test; by eexists.
  - apply IH. len.
Qed.

Lemma server_name_settled d : settled (server_name d).
Proof.
  unfold server_name. test; [by eexists|].
  reads. test; [by eexists|]. apply names_settled. lia.
Qed.

Lemma extensions_settled fuel d : (length d < fuel)%nat -> settled (extensions fuel d).
Proof.
  revert d. induction fuel as [|fuel IH]; intros d Hd; [lia|]. cbn [extensions].
  destruct (zlen d =? 0) eqn:?; [by eexists|].
  destruct (zlen d <? 4) eqn:?; [by eexists|].
  reads. test; [by eexists|]. reads.
  test; [|apply IH; len].
  match goal with |- context [server_name ?x] => destruct (server_name_settled x) as (r & -> & Hr) end.
  destruct r as [[?|]|?|]; try done; try by eexists. apply IH. len.
Qed.

Lemma hello_extensions_settled d : hello_extensions d <> Panic.
Proof.
  unfold hello_extensions. test; [done|]. reads.
  test; [done|]. reads.
  test; [done|]. reads.
  test; [done|]. reads.
  test; [done|]. reads.
  test; [done|]. reads.
  test; [done|]. test; [done|]. reads.
  by test.
Qed.

Lemma ReadClientHello_settled d : settled (ReadClientHello d).
Proof.
  unfold ReadClientHello. pose proof (hello_extensions_settled d).
  destruct (hello_extensions d); [apply extensions_settled; lia|by eexists|done].
Qed.

(** Sniffing TLS is safe on every input an attacker can send: the loops over
    the extensions and over the names of an SNI end (the fuel of the model, the
    length of what is left, never runs out), and no index or slice is out of
    range, so the sniffer returns a domain or an error. *)
Theorem tls_sniff_total (b : bytes) : settled (SniffTLS b).
Proof.
  unfold SniffTLS. test; [by eexists|]. reads.
  test; [by eexists|].
  reads. test; [by eexists|]. reads. test; [by eexists|]. reads.
  apply ReadClientHello_settled.
Qed.

(** ** Sniffing reads what a client writes *)
Lemma byte_at_put v r : is_u8 v -> byte_at (put_be 1 v ++ r) 0 = Ok v.
Proof.
  intros. change (byte_at (put_be 1 v ++ r) 0) with (Ok (b2z (z2b (v / 256 ^ 0)))).
  f_equal. rewrite Z.div_1_r. by apply z2b_small.
Qed.

Lemma extension_step fuel e r :
  is_u16 e.1 -> zlen e.2 < 2 ^ 16 ->
  extensions (S fuel) (encode_extension e ++ r) =
  if e.1 =? 0 then
    match server_name e.2 with
    | Some (Ok (Some serverName)) => Some (Ok serverName)
    | Some (Ok None) => extensions fuel r
    | Some (Err e) => Some (Err e)
    | Some Panic => Some Panic
    | None => None
    end
  else extensions fuel r.
Proof.
  intros He Hl. destruct e as [ty d]. cbn [fst snd] in *. cbn [extensions].
  unfold encode_extension, vec16. cbn [fst snd]. rewrite <- !app_assoc.
  pose proof (zlen_nonneg r). pose proof (zlen_nonneg d).
  replace (_ =? 0) with false by len. replace (_ <? 4) with false by len.
  rewrite be16_put by done. cbn [mbind res_bind].
  rewrite (from_app (put_be 2 ty) _ 2) by len. cbn [mbind res_bind].
  rewrite be16_put by (split; len). cbn [mbind res_bind].
  rewrite (app_assoc (put_be 2 ty)), (from_app _ _ 4) by len. cbn [mbind res_bind].
  replace (_ <? _) with false by len.
  rewrite slice_app by done. cbn [or_panic mbind res_bind]. by rewrite from_app by done.
Qed.

Lemma server_name_sni host :
  zlen host < 2 ^ 16 - 3 -> HasSuffix host (lit ".") = false ->
  server_name (encode_sni host).2 = Some (Ok (Some host)).
Proof.
  intros Hl Hd. unfold encode_sni. cbn [snd].
  set (d := x00 :: vec16 host). pose proof (zlen_nonneg host).
  assert (Hd' : d = (x00 :: put_be 2 (zlen host)) ++ host) by done.
  assert (Hn : zlen d = 3 + zlen host) by (rewrite Hd'; len).
  unfold server_name, vec16. replace (_ <? 2) with false by len.
  rewrite be16_put by (split; len). cbn [mbind res_bind].
  rewrite from_app by len. cbn [mbind res_bind]. rewrite Z.eqb_refl. cbn [negb names].
  replace (_ <=? 0) with false by lia. replace (_ <? 3) with false by lia.
  change (byte_at d 0) with (Ok 0). cbn [mbind res_bind].
  change (from d 1) with (from ([x00] ++ vec16 host) 1). rewrite from_app by done.
  cbn [mbind res_bind]. unfold vec16. rewrite be16_put by (split; len). cbn [mbind res_bind].
  rewrite Hd', from_app by done. cbn [mbind res_bind].
  replace (_ <? _) with false by lia. change (0 =? 0) with true. cbn match.
  rewrite slice_Some, drop_0, firstn_all2 by len. cbn [or_panic mbind res_bind]. by rewrite Hd.
Qed.

Lemma extensions_sni fuel before host after :
  Forall (fun e => 0 < e.1 < 2 ^ 16) before ->
  Forall (fun e => zlen e.2 < 2 ^ 16) before ->
  zlen host < 2 ^ 16 - 5 -> HasSuffix host (lit ".") = false -> (length before < fuel)%nat ->
  extensions fuel (concat (map encode_extension (before ++ encode_sni host :: after))) = Some (Ok host).
Proof.
  intros Hb. revert fuel. induction Hb as [|e before He Hb IH]; intros fuel Hl Hh Hd Hf;
    (destruct fuel as [|fuel]; [cbn in Hf; lia|]); cbn [app map concat].
  - rewrite extension_step; [|done|unfold encode_sni, vec16; cbn [snd]; len].
    cbn [encode_sni fst]. rewrite server_name_sni by (done || lia). done.
  - apply Forall_cons in Hl as [Hl Hl']. rewrite extension_step by (done || lia).
    replace (e.1 =? 0) with false by lia. apply IH; try done. cbn in Hf; lia.
Qed.

Lemma hello_extensions_hello h : hello_ok h -> hello_extensions (encode_hello h) = Ok (hello_exts h).
Proof.
  intros [Hp Hs Hc Hcl Hm Hb He Hn].
  assert (Hev : zlen (concat (cipher_suites h)) mod 2 = 0).
  { clear -Hc. induction Hc as [|s ss Hs _ IH]; [done|]. cbn [concat]. rewrite zlen_app.
    rewrite Z.add_mod, IH by lia. unfold zlen. by rewrite Hs. }
  assert (Hp' : zlen (preamble h) = 38) by len.
  destruct h as [p s c m b n a]. cbn [preamble session_id cipher_suites compression] in *.
  set (x := hello_exts _) in *. set (cs := concat c) in *. unfold encode_hello, hello_extensions.
  cbn [preamble session_id cipher_suites compression]. fold x cs.
  pose proof (zlen_nonneg s). pose proof (zlen_nonneg cs). pose proof (zlen_nonneg m).
  pose proof (zlen_nonneg x). unfold vec8, vec16. rewrite <- !app_assoc.
  replace (_ <? 42) with false by len.
  assert (E : byte_at (p ++ put_be 1 (zlen s) ++ s ++ put_be 2 (zlen cs) ++ cs ++ put_be 1 (zlen m) ++
    m ++ put_be 2 (zlen x) ++ x) 38 = Ok (zlen s)).
  { unfold byte_at, index. cbn [Z.leb Z.compare]. rewrite lookup_app_r by lia.
    replace (Z.to_nat 38 - length p)%nat with 0%nat by lia. cbn. f_equal. rewrite Z.div_1_r.
    apply z2b_small. lia. }
  rewrite E. cbn [mbind res_bind]. clear E.
  replace (_ || _) with false by len.
  rewrite (app_assoc p), (app_assoc (p ++ _)), from_app by len. cbn [mbind res_bind].
  replace (_ <? 2) with false by len. rewrite be16_put by (split; len). cbn [mbind res_bind].
  rewrite Hev. replace (_ || _) with false by len.
  rewrite (app_assoc (put_be 2 (zlen cs))), from_app by len. cbn [mbind res_bind].
  replace (_ <? 1) with false by len. rewrite byte_at_put by (split; len). cbn [mbind res_bind].
  replace (_ <? _) with false by len.
  rewrite (app_assoc (put_be 1 (zlen m))), from_app by len. cbn [mbind res_bind].
  replace (_ =? 0) with false by len. replace (_ <? 2) with false by len.
  rewrite be16_put by (split; len). cbn [mbind res_bind].
  rewrite from_app by len. cbn [mbind res_bind]. by rewrite Z.eqb_refl.
Qed.

Lemma zlen_encode_extension e : zlen (encode_extension e) = 4 + zlen e.2.
Proof. unfold encode_extension, vec16. len. Qed.

Lemma ReadClientHello_hello h : hello_ok h -> ReadClientHello (encode_hello h) = Some (Ok (sni h)).
Proof.
  intros Hh. unfold ReadClientHello. rewrite hello_extensions_hello by done.
  destruct Hh as [_ _ _ _ _ Hb He Hn]. unfold hello_exts in *.
  assert (Hx : forall l : list (Z * bytes), zlen (concat (map encode_extension l)) < 2 ^ 16 ->
    Forall (fun e => zlen e.2 < 2 ^ 16 - 4) l /\ zlen l <= zlen (concat (map encode_extension l))).
  { clear. induction l as [|e l IH]; cbn [map concat]; intros; [by split|].
    rewrite zlen_app, zlen_encode_extension in *. pose proof (zlen_nonneg e.2).
    pose proof (zlen_nonneg (concat (map encode_extension l))).
    destruct IH as [IH1 IH2]; [lia|]. split; [constructor; [lia|done]|len]. }
  destruct (Hx _ He) as [H1 H2]. apply Forall_app in H1 as [H1 H3%Forall_inv].
  assert (zlen (encode_sni (sni h)).2 = 5 + zlen (sni h)) by (unfold encode_sni, vec16; cbn [snd]; len).
  apply extensions_sni; [done| |lia|done|len].
  eapply Forall_impl; [exact H1|]. cbn. lia.
Qed.

(** A record is taken off, whatever follows it. *)
Lemma SniffTLS_record minor d rest :
  zlen d < 2 ^ 16 -> SniffTLS (record_of minor d ++ rest) = ReadClientHello d.
Proof.
  intros Hl. pose proof (zlen_nonneg d). pose proof (zlen_nonneg rest).
  unfold SniffTLS, record_of, vec16. cbn [app]. rewrite <- app_assoc. set (l := put_be 2 _).
  assert (Hll : zlen l = 2) by done.
  replace (_ <? 5) with false by len. cbn [byte_at index]. unfold byte_at.
  change (index (x16 :: _) 0) with (Some x16). cbn [or_panic mbind res_bind].
  change (negb (b2z x16 =? 22)) with false. cbn match.
  change (index (x16 :: _) 1) with (Some x03). cbn [or_panic mbind res_bind].
  change (index (x16 :: _) 2) with (Some minor). cbn [or_panic mbind res_bind].
  change (negb (IsValidTLSVersion x03 minor)) with false. cbn match.
  rewrite slice_Some by len.
  change (drop (Z.to_nat 3) _) with (l ++ d ++ rest). change (Z.to_nat (5 - 3)) with (length l).
  rewrite take_app_length. cbn [or_panic mbind res_bind].
  pose proof (Uint16_app l [] Hll) as U. rewrite app_nil_r in U. rewrite U. clear U.
  replace (get_be l) with (zlen d) by (symmetry; apply get_be_put_be_small; split; [done|exact Hl]).
  assert (Ed : drop (Z.to_nat 5) (x16 :: x03 :: minor :: l ++ d ++ rest) = d ++ rest) by done.
  clearbody l. cbn [mbind res_bind]. rewrite !zlen_cons, !zlen_app. test; [lia|].
  rewrite slice_Some by (rewrite ?zlen_cons, ?zlen_app; lia).
  rewrite Ed.
  replace (Z.to_nat (5 + zlen d - 5)) with (length d) by len. by rewrite take_app_length.
Qed.

(** C27. Sniffing TLS finds the host: from the record of any well-formed
    ClientHello (session id of at most 32 bytes, cipher suites of two bytes, any
    extensions around the server name) the sniffer reads the very host name the
    client wrote, whatever follows the record in the buffer. *)
Theorem tls_sniff_finds_sni (minor : byte) (h : ClientHello) (rest : bytes) :
  hello_ok h -> zlen (encode_hello h) < 2 ^ 16 ->
  SniffTLS (record_of minor (encode_hello h) ++ rest) = Some (Ok (sni h)).
Proof. intros Hh Hl. rewrite SniffTLS_record by done. by apply ReadClientHello_hello. Qed.

Definition hello0 : ClientHello :=
  mkHello (replicate 38 x01) [x02; x03] [[x13; x01]; [x13; x02]] [x00]
    [(43, [x02; x03; x04])] (lit "example.org") [(16, lit "h2")].

Lemma tls_sniff_finds_sni_witness :
  hello_ok hello0 /\
  SniffTLS (record_of x01 (encode_hello hello0) ++ lit "more") = Some (Ok (lit "example.org")).
Proof.
  assert (H : hello_ok hello0).
  { constructor; try (vm_compute; done); try (repeat constructor; vm_compute; done). }
  split; [exact H|]. apply (tls_sniff_finds_sni x01 hello0 (lit "more")); [exact H|reflexivity].
Defined.
End TlsSniff.
