(* ===== verification/SniffHttp.v ===== *)
(** * Sniffing HTTP: common/protocol/http

    [Module HttpSniff] models sniff.go and [ParseHost] of headers.go.  A text that
    is not ASCII is put in lower case with the tables of package unicode, the
    parameter [unicode_lower]. *)
From S2P Require Import Prelude GoStd NetAddr GoText Sniff.
Import NetAddr.

Module HttpSniff.

Section Unicode.
Variable unicode_lower : bytes -> bytes.

(** [strings.ToLower] *)
Definition ascii (s : bytes) : bool := forallb (fun x => b2z x <? 128) s.
Definition ToLowerU (s : bytes) : bytes := if ascii s then ToLower s else unicode_lower s.

Definition methods : list bytes :=
  map lit ["get"; "post"; "head"; "put"; "delete"; "options"; "connect"; "patch"; "trace"]%string.

Definition errNotHTTPMethod : error := NewError "not an HTTP method".

Fixpoint begin_loop (ms : list bytes) (b : bytes) : res unit :=
  match ms with
  | [] => Err errNotHTTPMethod
  | m :: ms' =>
    if (zlen m <=? zlen b) && EqualFold (take (length m) b) m then Ok tt else
    if zlen b <? zlen m then Err ErrNoClue else begin_loop ms' b
  end.

Definition beginWithHTTPMethod (b : bytes) : res unit := begin_loop methods b.

(** [Address.String] *)
Definition Address_String (a : option Address) : res bytes :=
  match a with
  | None => Panic
  | Some (ipv4Address ip) => Ok (IP_String ip)
  | Some (ipv6Address ip) => Ok (lit "[" ++ IP_String ip ++ lit "]")
  | Some (domainAddress d) => Ok d
  end.

(** [ParseHost(rawHost, defaultPort)] *)
Definition ParseHost (rawHost : bytes) (defaultPort : Port) : res Destination :=
  '(host, port) ←
    match SplitHostPort rawHost with
    | Err (NewError msg) =>
      if Contains (lit msg) (lit "missing port") then Ok (rawHost, defaultPort) else Err (NewError msg)
    | Err e => Err e
    | Panic => Panic
    | Ok (host, rawPort) =>
      if 0 <? zlen rawPort then intPort ← ParseUint0 rawPort 16; Ok (host, u16 intPort)
      else Ok (host, defaultPort)
    end;
  a ← ParseAddress host;
  Ok (TCPDestination a port).

(** The loop over the lines after the first; [host] is [sh.host] so far. *)
Fixpoint header_loop (headers : list bytes) (host : bytes) : res bytes :=
  match headers with
  | [] => Ok host
  | header :: headers' =>
    if zlen header =? 0 then Ok host else
    match cut (z2b 58) header with
    | None => header_loop headers' host
    | Some (part0, part1) =>
      let key := ToLowerU part0 in
      if decide (key = lit "host") then
        let rawHost := ToLowerU (TrimSpace part1) in
        match ParseHost rawHost 80 with
        | Ok dest =>
          match Address_String (DAddress dest) with
          | Ok h => header_loop headers' h
          | Err e => Err e
          | Panic => Panic
          end
        | Err e => Err e
        | Panic => Panic
        end
      else header_loop headers' host
    end
  end.

(** [SniffHTTP(b)]: the host of the header on success. *)
Definition SniffHTTP (b : bytes) : res bytes :=
  _ ← beginWithHTTPMethod b;
  host ← header_loop (tail (Split (z2b 10) b)) [];
  if 0 <? zlen host then Ok host else Err ErrNoClue.
End Unicode.

(** ** Examples *)
Definition crlf : bytes := map z2b [13; 10].
Definition request (lines : list bytes) (body : bytes) : bytes :=
  concat (map (fun l => l ++ crlf) lines) ++ crlf ++ body.

Example sniff_get :
  SniffHTTP id (request (map lit ["GET / HTTP/1.1"; "Accept: a:b"; "hOsT: Example.ORG:8080"]%string) []) = Ok (lit "example.org") /\
  SniffHTTP id (request (map lit ["get / HTTP/1.1"; "Host: [::1]"]%string) []) = Ok (lit "[::1]") /\
  SniffHTTP id (request (map lit ["GET / HTTP/1.1"; "Host: a:b:c"]%string) []) = Err tooManyColons /\
  SniffHTTP id (lit "PU") = Err ErrNoClue /\ SniffHTTP id (lit "SSH-2.0-x") = Err errNotHTTPMethod.
Proof. repeat split; vm_compute; reflexivity. Qed.

(** ** The sniffer never panics *)
Lemma SplitHostPort_safe s : SplitHostPort s <> Panic.
Proof.
  unfold SplitHostPort. destruct (cut_last _ s) as [[a b]|] eqn:E; [|done].
  apply cut_last_Some in E as ->. cbn [mbind res_bind].
  pose proof (zlen_nonneg a). pose proof (zlen_nonneg b).
  destruct (index_ok (a ++ z2b 58 :: b) 0) as [h0 Eh]; [len|]. rewrite Eh. cbn [or_panic mbind res_bind].
  destruct (decide _) as [->|Hh].
  - destruct (cut (z2b 93) _) as [[u w]|] eqn:Eu; [|done].
    pose proof (cut_Some _ _ _ _ Eu) as [Es Hu]. pose proof (zlen_nonneg u). pose proof (zlen_nonneg w).
    assert (Hl : zlen (a ++ z2b 58 :: b) = zlen u + 1 + zlen w) by (rewrite Es; len).
    set (s := a ++ z2b 58 :: b) in *.
    test; [done|]. test.
    + destruct (decide (1 <= zlen u)).
      * rewrite slice_Some by lia. cbn [or_panic mbind res_bind].
        rewrite !from_drop by lia. cbn [mbind res_bind]. by tests.
      * exfalso. destruct u; [|len]. rewrite Es in Eh. discriminate Eh.
    + destruct (index_ok s (zlen u + 1)) as [c ->]; [lia|]. cbn [or_panic mbind res_bind].
      by destruct (decide _).
  - rewrite slice_Some by len. cbn [or_panic mbind res_bind]. test; [done|].
    cbn [mbind res_bind]. rewrite !from_drop by len. cbn [mbind res_bind]. by tests.
Qed.

Lemma digits_safe b max s n u : digits b max s n u <> Panic.
Proof.
  revert n u. induction s as [|x s IH]; intros n u; cbn [digits]; [done|].
  test; [done|]. destruct (if between 48 57 _ then _ else _); [|done].
  test; [done|]. by test.
Qed.

Lemma ParseUint0_safe s k : ParseUint0 s k <> Panic.
Proof.
  unfold ParseUint0. destruct (match s with [] => (10, s) | _ :: _ => _ end) as [b t].
  destruct s; [done|]. pose proof (digits_safe b (2 ^ k - 1) t 0 false).
  destruct (digits _ _ _ _ _) as [[n u]| |]; [|done..]. cbn. by test.
Qed.

Lemma ParseHost_safe s p : ParseHost s p <> Panic /\ (forall d, ParseHost s p = Ok d -> DAddress d <> None).
Proof.
  assert (E : forall m : res (bytes * Port), m <> Panic ->
    ('(host, port) ← m; a ← ParseAddress host; Ok (TCPDestination a port)) <> Panic /\
    (forall d, ('(host, port) ← m; a ← ParseAddress host; Ok (TCPDestination a port)) = Ok d -> DAddress d <> None)).
  { intros [[h q]|e|] Hm; [|done..]. cbn [mbind res_bind].
    destruct (ParseAddress_total h) as (a & -> & _). cbn [mbind res_bind]. split; [done|].
    by intros d [= <-]. }
  apply E. clear E. pose proof (SplitHostPort_safe s). destruct (SplitHostPort s) as [[h q]|e|]; [| |done].
  - test; [|done]. pose proof (ParseUint0_safe q 16). by destruct (ParseUint0 q 16).
  - destruct e; try done. by destruct (Contains _ _).
Qed.

Lemma header_loop_safe U hs host : header_loop U hs host <> Panic.
Proof.
  revert host. induction hs as [|l hs IH]; intros host; cbn [header_loop]; [done|].
  test; [done|]. destruct (cut _ l) as [[k v]|]; [|done]. destruct (decide _); [|done].
  destruct (ParseHost_safe (ToLowerU U (TrimSpace v)) 80) as [Hs Hd].
  destruct (ParseHost _ 80) as [d|?|]; [|done..]. specialize (Hd d eq_refl).
  destruct (DAddress d) as [[?|?|?]|]; [apply IH..|done].
Qed.

Lemma begin_loop_safe ms b : begin_loop ms b <> Panic.
Proof. induction ms as [|m ms IH]; cbn [begin_loop]; [done|]. test; [done|]. by test. Qed.

(** Sniffing HTTP is safe on every input: no slice and no index of the
    sniffer, of [SplitHostPort] and of [ParseAddress] is out of range, whatever
    the lines, the brackets and the colons of the Host header are. *)
Theorem http_sniff_safe (unicode_lower : bytes -> bytes) (b : bytes) : SniffHTTP unicode_lower b <> Panic.
Proof.
  unfold SniffHTTP, beginWithHTTPMethod. pose proof (begin_loop_safe methods b).
  destruct (begin_loop methods b); [|done..]. cbn [mbind res_bind].
  pose proof (header_loop_safe unicode_lower (tail (Split (z2b 10) b)) []).
  destruct (header_loop _ _ _); [|done..]. cbn [mbind res_bind]. by test.
Qed.

(** ** The sniffer finds the host *)

(** A host name in lower case: letters, digits, hyphens and dots. *)
Definition hchar (x : byte) : bool :=
  between 97 122 (b2z x) || between 48 57 (b2z x) || (b2z x =? 45) || (b2z x =? 46).

Record hostname (h : bytes) : Prop := {
  hn_word : word h;
  hn_chars : Forall (fun x => hchar x = true) h;
  hn_domain : ParseIP h = None;
}.

(** [h] or [h:port] *)
Definition authority (h : bytes) (port : option Port) : bytes :=
  match port with None => h | Some p => h ++ z2b 58 :: Itoa p end.

Definition not_host (U : bytes -> bytes) (l : bytes) : Prop :=
  match cut (z2b 58) l with Some (k, _) => ToLowerU U k <> lit "host" | None => True end.

Lemma hchar_facts x : hchar x = true -> to_lower x = x /\ b2z x < 128 /\ x <> z2b 58 /\ x <> z2b 91 /\ x <> z2b 93.
Proof.
  unfold hchar, to_lower, between. intros H. pose proof (b2z_range x).
  assert (E : forall k, is_u8 k -> b2z x <> k -> x <> z2b k).
  { intros k Hk Hne ->. by rewrite z2b_small in Hne. }
  split; [test; [lia|done]|]. split; [lia|]. repeat split; apply E; lia.
Qed.

Lemma ToLowerU_id U s : Forall (fun x => to_lower x = x /\ b2z x < 128) s -> ToLowerU U s = s.
Proof.
  intros H. unfold ToLowerU. replace (ascii s) with true.
  - unfold ToLower. induction H as [|x s [Hx _] _ IH]; [done|]. cbn [map]. by rewrite Hx, IH.
  - symmetry. unfold ascii. induction H as [|x s [_ Hx] _ IH]; [done|]. cbn [forallb]. rewrite IH. lia.
Qed.

Lemma digit_hchar x : digit x -> hchar x = true.
Proof. unfold digit, hchar. intros ->. by rewrite orb_true_r. Qed.

Lemma hchars_no x s : Forall (fun x => hchar x = true) s -> hchar x = false -> x ∉ s.
Proof. intros H Hx Hin. rewrite Forall_forall in H. rewrite (H x Hin) in Hx. done. Qed.

Lemma Itoa_hchars p : 0 < p -> Forall (fun x => hchar x = true) (Itoa p).
Proof.
  intros. eapply Forall_impl; [apply itoa_digits; [lia|constructor]|]. apply digit_hchar.
Qed.

Lemma ParseAddress_host h : hostname h -> ParseAddress h = Ok (Some (DomainAddress h)).
Proof.
  intros [Hw Hc Hd]. pose proof Hw as [(c & r & -> & Ha) (r' & c' & E & Ha')].
  unfold ParseAddress.
  assert (bool_decide (head (c :: r) = Some (z2b 91)) = false) as ->.
  { apply bool_decide_eq_false. cbn [head]. intros [= ->].
    apply (hchars_no (z2b 91) (z2b 91 :: r)); [done|done|by left]. }
  rewrite andb_false_r. cbn [andb mbind res_bind head].
  assert (El : last (c :: r) = Some c') by (rewrite E; apply last_snoc). rewrite !El.
  assert (N : forall x, alnum x -> isAlphaNum x = true).
  { intros x. unfold alnumb, isAlphaNum, between. intros. lia. }
  rewrite !N by done. cbn [negb orb]. by rewrite Hd.
Qed.

Lemma has_no x s : Forall (fun x => hchar x = true) s -> hchar x = false -> has x s = false.
Proof. intros. apply bool_decide_eq_false. by apply hchars_no. Qed.

Lemma ParseHost_authority h port :
  hostname h -> (forall p, port = Some p -> 0 < p < 2 ^ 16) ->
  exists d, ParseHost (authority h port) 80 = Ok d /\ DAddress d = Some (DomainAddress h).
Proof.
  intros Hh Hp. pose proof (ParseAddress_host h Hh) as Ha.
  destruct Hh as [[(c & r & Eh & Hal) _] Hc _]. unfold ParseHost, authority. destruct port as [p|].
  - specialize (Hp p eq_refl). pose proof (Itoa_hchars p ltac:(lia)) as Hi.
    unfold SplitHostPort. rewrite cut_last_app by (by apply hchars_no).
    replace (index _ 0) with (Some c) by (by rewrite Eh). cbn [or_panic mbind res_bind].
    rewrite decide_False; [|intros ->; rewrite Eh in Hc; by apply (hchars_no (z2b 91) _ Hc eq_refl); left].
    rewrite slice_app by done. cbn [or_panic mbind res_bind].
    rewrite (has_no (z2b 58) h) by done. cbn [mbind res_bind].
    rewrite !from_drop by (split; len). cbn [mbind res_bind]. rewrite drop_0.
    assert (Hn : forall x, hchar x = false -> x <> z2b 58 -> has x (h ++ z2b 58 :: Itoa p) = false).
    { intros x Hx Hne. apply bool_decide_eq_false. rewrite elem_of_app, elem_of_cons.
      intros [H|[H|H]]; [by apply (hchars_no x h) in H|done|by apply (hchars_no x (Itoa p)) in H]. }
    rewrite !Hn by done. replace (0 <? zlen (Itoa p)) with true.
    + rewrite ParseUint0_Itoa by lia. cbn [mbind res_bind]. rewrite Ha. cbn [mbind res_bind].
      eexists. by split.
    + symmetry. apply Z.ltb_lt. destruct (itoa_head 20 p [] ltac:(cbn; lia)) as (d & q & E & _).
      unfold Itoa. rewrite E. len.
  - unfold SplitHostPort. rewrite cut_last_None by (by apply hchars_no).
    unfold missingPort. cbv beta iota.
    change (Contains (lit "missing port in address") (lit "missing port")) with true. cbn [mbind res_bind]. rewrite Ha. cbn [mbind res_bind].
    eexists. by split.
Qed.

Lemma header_loop_not_host U ls h : Forall (not_host U) ls -> header_loop U ls h = Ok h.
Proof.
  induction 1 as [|l ls Hl _ IH]; cbn [header_loop]; [done|]. test; [done|].
  unfold not_host in Hl. destruct (cut _ l) as [[k v]|]; [|done]. by rewrite decide_False.
Qed.

Lemma header_loop_skip U ls ls' h :
  Forall (fun l => not_host U l /\ l <> []) ls -> header_loop U (ls ++ ls') h = header_loop U ls' h.
Proof.
  induction 1 as [|l ls [Hl Hn] _ IH]; cbn [header_loop app]; [done|].
  destruct l as [|x l]; [done|]. replace (_ =? 0) with false by len.
  unfold not_host in Hl. destruct (cut _ _) as [[k v]|]; [|done]. by rewrite decide_False.
Qed.

Lemma begin_loop_method ms m b :
  m ∈ ms -> Forall (fun m => zlen m <= zlen b) ms -> EqualFold (take (length m) b) m = true ->
  begin_loop ms b = Ok tt.
Proof.
  intros Hm Hl He. induction Hl as [|m' ms Hle _ IH]; [by apply elem_of_nil in Hm|]. cbn [begin_loop].
  destruct (_ && _) eqn:E; [done|]. replace (_ <? _) with false by lia.
  apply elem_of_cons in Hm as [->|Hm]; [|by apply IH].
  rewrite He, andb_true_r in E. lia.
Qed.

Lemma Split_lines ls rest :
  Forall (fun l => z2b 10 ∉ l) ls ->
  Split (z2b 10) (concat (map (fun l => l ++ crlf) ls) ++ rest) =
  map (fun l => l ++ [x0d]) ls ++ Split (z2b 10) rest.
Proof.
  induction 1 as [|l ls Hl _ IH]; [done|]. cbn [map concat app].
  unfold crlf at 1. change (map z2b [13; 10]) with ([x0d] ++ [z2b 10]).
  rewrite <- !app_assoc, (app_assoc l). cbn [app]. rewrite Split_line, <- IH; [done|].
  rewrite elem_of_app. intros [H|H]; [done|]. by apply list_elem_of_singleton in H.
Qed.

Lemma not_host_cr U l : not_host U l -> not_host U (l ++ [x0d]).
Proof.
  unfold not_host. destruct (cut (z2b 58) l) as [[k v]|] eqn:E.
  - apply cut_Some in E as [-> Hk]. rewrite <- app_assoc. cbn [app]. by rewrite cut_app.
  - intros _. enough (cut (z2b 58) (l ++ [x0d]) = None) as -> by done.
    apply cut_None. rewrite elem_of_app, list_elem_of_singleton. intros [H| ?]; [|done].
    clear -E H. induction l as [|x l IH]; [by apply elem_of_nil in H|]. cbn [cut] in E.
    destruct (decide (x = z2b 58)); [done|]. apply elem_of_cons in H as [H|H]; [congruence|].
    apply IH; [|done]. by destruct (cut _ l) as [[??]|].
Qed.

Lemma Itoa_nonempty p : 0 < p < 2 ^ 16 -> Itoa p <> [].
Proof.
  intros. destruct (itoa_head 20 p [] ltac:(cbn; lia)) as (d & q & E & _). unfold Itoa. by rewrite E.
Qed.

Lemma word_port h p : word h -> 0 < p < 2 ^ 16 -> word (h ++ z2b 58 :: Itoa p).
Proof.
  intros [(c & r & -> & Hc) _] Hp. split; [by exists c, (r ++ z2b 58 :: Itoa p)|].
  pose proof (Itoa_nonempty p Hp) as Hn. destruct (exists_last Hn) as (r' & d & E).
  exists ((c :: r) ++ z2b 58 :: r'), d. split; [by rewrite E, <- !app_assoc|].
  assert (Hd : Forall digit (Itoa p)) by (apply itoa_digits; [lia|constructor]).
  rewrite E in Hd. apply Forall_app in Hd as [_ Hd%Forall_inv].
  unfold alnumb. unfold digit in Hd. by rewrite Hd.
Qed.

Lemma authority_facts h port :
  hostname h -> (forall p, port = Some p -> 0 < p < 2 ^ 16) ->
  Forall (fun x => hchar x = true \/ x = z2b 58) (authority h port) /\ word (authority h port).
Proof.
  intros [Hw Hc _] Hp. unfold authority. destruct port as [p|].
  - specialize (Hp p eq_refl). split; [|by apply word_port].
    apply Forall_app. split; [eapply Forall_impl; [exact Hc|by left]|].
    constructor; [by right|]. eapply Forall_impl; [apply Itoa_hchars; lia|by left].
  - split; [eapply Forall_impl; [exact Hc|by left]|done].
Qed.

(** Sniffing HTTP finds the host: on a request whose first line starts with a method, in
    any case, and which has one Host header, its name in any case and its value a host
    name with or without a port, the sniffer answers that host name, whatever the other
    headers and the lines of the body are, as long as none of them is a Host line
    itself. *)
Theorem http_sniff_finds_host (U : bytes -> bytes) (m l0 : bytes) (pre post : list bytes) (k h : bytes)
  (port : option Port) (body : bytes) :
  m ∈ methods -> EqualFold (take (length m) l0) m = true -> (7 <= length l0)%nat -> z2b 10 ∉ l0 ->
  Forall (fun l => not_host U l /\ z2b 10 ∉ l) (pre ++ post) ->
  Forall (not_host U) (Split (z2b 10) body) ->
  ToLowerU U k = lit "host" -> z2b 58 ∉ k -> z2b 10 ∉ k ->
  hostname h -> (forall p, port = Some p -> 0 < p < 2 ^ 16) ->
  SniffHTTP U (request (l0 :: pre ++ (k ++ z2b 58 :: x20 :: authority h port) :: post) body) = Ok h.
Proof.
  intros Hm He H7 H0 Hpp Hbody Hk Hk1 Hk2 Hh Hp. apply Forall_app in Hpp as [Hpre Hpost].
  pose proof (authority_facts h port Hh Hp) as Hauth.
  destruct Hauth as [Hac Haw]. set (a := authority h port) in *. 
  assert (Hlow : ToLowerU U a = a).
  { apply ToLowerU_id. eapply Forall_impl; [exact Hac|]. intros x [Hx| ->]; [|done].
    apply hchar_facts in Hx. tauto. }
  assert (Hnl : z2b 10 ∉ a).
  { intros Hin. rewrite Forall_forall in Hac. by destruct (Hac _ Hin). }
  set (line := k ++ z2b 58 :: x20 :: a).
  assert (Hll : z2b 10 ∉ line).
  { unfold line. rewrite elem_of_app, !elem_of_cons. intros [?|[?|[?|?]]]; done. }
  unfold SniffHTTP, beginWithHTTPMethod.
  rewrite (begin_loop_method methods m); [|done|..].
  2:{ repeat constructor; unfold request; cbn [map concat]; len. }
  2:{ unfold request. cbn [map concat]. rewrite <- !app_assoc, take_app_le; [done|].
      revert Hm. clear -H7. intros Hm. repeat (apply elem_of_cons in Hm as [->|Hm]; [cbn; lia|]).
      by apply elem_of_nil in Hm. }
  cbn [mbind res_bind]. unfold request.
  rewrite Split_lines.
  2:{ constructor; [done|]. apply Forall_app. split; [|constructor; [done|]];
      (eapply Forall_impl; [eassumption|]); cbn; tauto. }
  cbn [map app tail]. rewrite map_app, <- app_assoc. cbn [map app].
  rewrite header_loop_skip.
  2:{ apply Forall_map. eapply Forall_impl; [exact Hpre|]. intros l [Hl _]. split; [by apply not_host_cr|].
      by destruct l. }
  cbn [header_loop]. replace (_ =? 0) with false by (unfold line; len).
  unfold line. rewrite <- app_assoc. cbn [app]. rewrite cut_app by done.
  rewrite Hk, decide_True by done. rewrite TrimSpace_line, Hlow by done.
  destruct (ParseHost_authority h port Hh Hp) as (d & Ed & Ead).
  change (authority h port) with a in Ed. rewrite Ed, Ead. cbn [Address_String DomainAddress].
  rewrite header_loop_not_host.
  - cbn [mbind res_bind]. destruct Hh as [[(c & r & -> & _) _] _ _]. by replace (0 <? _) with true by len.
  - apply Forall_app. split.
    + apply Forall_map. eapply Forall_impl; [exact Hpost|]. intros l [Hl _]. by apply not_host_cr.
    + change (crlf ++ body) with ([x0d] ++ z2b 10 :: body). rewrite Split_line.
      * by constructor.
      * intros H%list_elem_of_singleton. done.
Qed.


Definition get_lines : list bytes := map lit ["Accept: */*"; "X-A: b:c"]%string.

Lemma http_sniff_finds_host_witness :
  SniffHTTP id (request (lit "GET / HTTP/1.1" :: get_lines ++
    (lit "hOST" ++ z2b 58 :: x20 :: authority (lit "www.example.org") (Some 8080)) :: []) (lit "k=v")) =
  Ok (lit "www.example.org").
Proof.
  apply (http_sniff_finds_host id (lit "get") (lit "GET / HTTP/1.1") get_lines [] (lit "hOST")
           (lit "www.example.org") (Some 8080) (lit "k=v")).
  all: try (refine (bool_decide_unpack _ _); vm_compute; exact I).
  - repeat constructor; try (refine (bool_decide_unpack _ _); vm_compute; exact I); vm_compute; discriminate.
  - repeat constructor.
  - constructor; [split|repeat constructor|reflexivity].
    + by exists x77, (lit "ww.example.org").
    + by exists (lit "www.example.or"), x67.
  - intros p [= <-]. lia.
Defined.

(** The loop ends at an empty line, but a line of an HTTP request ends with a
    carriage return too: the blank line after the headers is not empty, and a line
    of the body that looks like a Host header overrides the header. *)
Theorem body_overrides_host :
  SniffHTTP id (request (map lit ["POST / HTTP/1.1"; "Host: real.example"]%string) (lit "Host: fake.example")) =
    Ok (lit "fake.example") /\
  SniffHTTP id (lit "POST / HTTP/1.1" ++ [x0a] ++ lit "Host: real.example" ++ [x0a; x0a] ++ lit "Host: fake.example") =
    Ok (lit "real.example").
Proof. split; vm_compute; reflexivity. Qed.
End HttpSniff.
