(* ===== verification/SniffBt.v ===== *)
(** * Sniffing BitTorrent: common/protocol/bittorrent/bittorrent.go

    [SniffBittorrent] on TCP and [SniffUTP] on UDP.  [time.Now().UnixMicro()] is the
    argument [now]; [None] is out of fuel. *)
From S2P Require Import Prelude GoStd Buf GoText Sniff.
Import Buf.

Module BtSniff.

Definition errNotBittorrent : error := NewError "not bittorrent header".

Definition SniffBittorrent (b : bytes) : res unit :=
  if zlen b <? 20 then Err ErrNoClue else
  b0 ← or_panic (index b 0);
  if negb (b2z b0 =? 19) then Err errNotBittorrent else
  name ← or_panic (slice b 1 20);
  if bool_decide (name = lit "BitTorrent protocol") then Ok tt else Err errNotBittorrent.

(** [binary.Read(buffer, binary.BigEndian, &x)] for an unsigned [x] of [n] bytes;
    every caller turns its error into [ErrNoClue]. *)
Definition binary_Read (n : nat) : ST Buffer Z := fun b =>
  match ReadFull b n with
  | (b', (bs, None)) => (b', Ok (get_be bs))
  | (b', (_, Some _)) => (b', Err ErrNoClue)
  end.

(** [common.Error2(buffer.ReadBytes(n))] *)
Definition skip (n : Z) : ST Buffer unit := fun b =>
  match ReadBytes n b with
  | (b', Ok _) => (b', Ok tt)
  | (b', Err _) => (b', Err ErrNoClue)
  | (b', Panic) => (b', Panic)
  end.

(** One round of the loop over the extensions: the next extension. *)
Definition extension_round (extension : Z) : ST Buffer Z :=
  if negb (extension =? 1) then st_err errNotBittorrent else
  extension ← binary_Read 1;
  length ← binary_Read 1;
  _ ← skip length;
  mret extension.

Fixpoint extension_loop (fuel : nat) (extension : Z) (b : Buffer) : option (Buffer * res unit) :=
  if extension =? 0 then Some (b, Ok tt) else
  match fuel with
  | O => None
  | S fuel' =>
    match extension_round extension b with
    | (b', Ok e) => extension_loop fuel' e b'
    | (b', Err e) => Some (b', Err e)
    | (b', Panic) => Some (b', Panic)
    end
  end.

Definition utp_type (b : bytes) : ST Buffer Z :=
  _ ← binary_Read 1;
  b0 ← st_lift (or_panic (index b 0));
  if (4 <? Z.land (Z.shiftr (b2z b0) 4) 15) || negb (Z.land (b2z b0) 15 =? 1) then st_err errNotBittorrent else
  extension ← binary_Read 1;
  if negb (extension =? 0) && negb (extension =? 1) then st_err errNotBittorrent else
  mret extension.

(** The bound [float64(24*time.Hour)] is in nanoseconds; both sides are exact in
    float64 where the comparison is close. *)
Definition utp_time (now : Z) : ST Buffer unit :=
  _ ← skip 2;
  timestamp ← binary_Read 4;
  if 86400000000000 <? Z.abs (now - timestamp) then st_err errNotBittorrent else mret tt.

Definition SniffUTP (now : Z) (b : bytes) : option (res unit) :=
  if zlen b <? 20 then Some (Err ErrNoClue) else
  match utp_type b (FromBytes b) with
  | (buffer, Ok extension) =>
    match extension_loop (S (length b)) extension buffer with
    | Some (buffer, Ok _) => Some (utp_time now buffer).2
    | Some (_, Err e) => Some (Err e)
    | Some (_, Panic) => Some Panic
    | None => None
    end
  | (_, Err e) => Some (Err e)
  | (_, Panic) => Some Panic
  end.

(** ** The sniffers end and never panic *)

(** [m] does not panic, and takes at least [n] bytes when it succeeds. *)
Definition consumes {A} (m : ST Buffer A) (n : nat) (Q : A -> Prop) : Prop :=
  forall b, buf_wf b -> exists b' r, m b = (b', r) /\ r <> Panic /\ buf_wf b' /\
    (forall a, r = Ok a -> Q a /\ (length (content b') + n <= length (content b))%nat).

Lemma consumes_ret {A} (a : A) (Q : A -> Prop) : Q a -> consumes (mret a) 0 Q.
Proof. intros HQ b Hb. exists b, (Ok a). split_and!; try done. intros ? [= <-]. split; [done|lia]. Qed.

Lemma consumes_err {A} e n (Q : A -> Prop) : consumes (st_err e) n Q.
Proof. intros b Hb. by exists b, (Err e). Qed.

Lemma consumes_bind {A B} (m : ST Buffer A) (f : A -> ST Buffer B) n k Q T :
  consumes m n Q -> (forall a, Q a -> consumes (f a) k T) -> consumes (m ≫= f) (n + k) T.
Proof.
  intros Hm Hf b Hb. destruct (Hm b Hb) as (b1 & r & E & Hr & Hb1 & HQ).
  unfold mbind, st_bind. rewrite E. destruct r as [a|e|]; [| |done].
  - destruct (HQ a eq_refl) as [Ha Hl]. destruct (Hf a Ha b1 Hb1) as (b2 & r2 & -> & Hr2 & Hb2 & HT).
    exists b2, r2. split_and!; try done. intros c Hc. destruct (HT c Hc). split; [done|lia].
  - by exists b1, (Err e).
Qed.

Lemma binary_Read_consumes n : consumes (binary_Read n) n (fun v => 0 <= v < 256 ^ Z.of_nat n).
Proof.
  intros b Hb. assert (Hrd : rd_wf b) by exact Hb. destruct (ReadFull_spec b n Hrd) as (b' & Hb' & _ & Hc & E).
  unfold binary_Read. rewrite E. destruct (n <=? _)%nat eqn:Hn; eexists _, _; (split; [done|]); [|done].
  split_and!; [done|done|]. intros a [= <-].
  change (rd_content b) with (content b) in *. change (rd_content b') with (content b') in *. split.
  - pose proof (get_be_range (take n (content b))) as G. unfold zlen in G. rewrite length_take in G.
    by replace (n `min` length (content b))%nat with n in G by lia.
  - rewrite Hc, length_drop. lia.
Qed.

Lemma skip_consumes n : 0 <= n < 2 ^ 31 -> consumes (skip n) 0 (fun _ => True).
Proof.
  intros Hn b Hb. unfold skip. rewrite ReadBytes_wf by done. destruct (n <=? _) eqn:E; eexists _, _; (split; [done|]); [|done].
  assert (buf_wf (pop b n)) by (apply pop_wf; [done|lia]).
  split_and!; [done|done|]. intros a _. split; [done|]. rewrite pop_content by (done || lia).
  rewrite length_drop. lia.
Qed.

Lemma extension_round_consumes e : consumes (extension_round e) 2 (fun v => True).
Proof.
  unfold extension_round. test; [apply consumes_err|].
  apply (consumes_bind _ _ 1 1 _ _ (binary_Read_consumes 1)). intros e' _.
  apply (consumes_bind _ _ 1 0 _ _ (binary_Read_consumes 1)). intros l Hl.
  apply (consumes_bind _ _ 0 0 (fun _ => True)); [apply skip_consumes; cbn in Hl; lia|].
  intros _ _. by apply consumes_ret.
Qed.

Lemma extension_loop_settled fuel e b :
  buf_wf b -> (length (content b) < fuel)%nat ->
  exists b' r, extension_loop fuel e b = Some (b', r) /\ r <> Panic /\ buf_wf b'.
Proof.
  revert e b. induction fuel as [|fuel IH]; intros e b Hb Hf; [lia|]. cbn [extension_loop].
  test; [by exists b, (Ok tt)|].
  destruct (extension_round_consumes e b Hb) as (b' & r & -> & Hr & Hb' & HQ).
  destruct r as [a| |]; [|by eexists _, _|done]. destruct (HQ a eq_refl) as [_ Hl]. apply IH; [done|lia].
Qed.

Lemma utp_type_consumes b : 0 < zlen b -> consumes (utp_type b) 0 (fun _ => True).
Proof.
  intros Hb. unfold utp_type. destruct (index_ok b 0) as [b0 ->]; [lia|].
  assert (W : forall A (m : ST Buffer A) n Q, consumes m n Q -> consumes m 0 Q).
  { intros A m n Q H x Hx. destruct (H x Hx) as (x' & r & ? & ? & ? & HQ). exists x', r. split_and!; try done.
    intros a Ha. destruct (HQ a Ha). split; [done|lia]. }
  apply W with 2%nat. apply (consumes_bind _ _ 1 1 _ _ (binary_Read_consumes 1)). intros v _.
  unfold or_panic. rewrite st_lift_bind. test; [apply consumes_err|].
  apply (consumes_bind _ _ 1 0 _ _ (binary_Read_consumes 1)). intros e _. test; [apply consumes_err|].
  by apply consumes_ret.
Qed.

Lemma utp_time_consumes now : consumes (utp_time now) 4 (fun _ => now < 86400000000000 + 2 ^ 32).
Proof.
  unfold utp_time. apply (consumes_bind _ _ 0 4 (fun _ => True)); [by apply skip_consumes|]. intros _ _.
  apply (consumes_bind _ _ 4 0 _ _ (binary_Read_consumes 4)). intros t Ht.
  change (256 ^ Z.of_nat 4) with (2 ^ 32) in Ht. test; [apply consumes_err|]. apply consumes_ret. lia.
Qed.

(** Sniffing BitTorrent is safe: [SniffBittorrent] indexes nothing out of range. *)
Lemma bittorrent_sniff_safe b : SniffBittorrent b <> Panic.
Proof.
  unfold SniffBittorrent. test; [done|]. destruct (index_ok b 0) as [b0 ->]; [lia|].
  cbn [or_panic mbind res_bind]. test; [done|]. rewrite slice_Some by lia. cbn [or_panic mbind res_bind].
  by test.
Qed.

(** Sniffing uTP ends and never panics, and it never answers that a packet is
    uTP: the sender's microseconds of 32 bits are compared with the microseconds
    since 1970, with a bound of a day in nanoseconds, so after September 1972 the
    difference is always too large. *)
Theorem utp_sniff_never_matches (now : Z) (b : bytes) :
  86400000000000 + 2 ^ 32 <= now -> zlen b < 2 ^ 31 ->
  exists e, SniffUTP now b = Some (Err e).
Proof.
  intros Hnow Hl. unfold SniffUTP. test; [by eexists|]. destruct (FromBytes_content b Hl) as [Hb Hc].
  destruct (utp_type_consumes b ltac:(lia) (FromBytes b) Hb) as (b1 & r & -> & Hr & Hb1 & HQ).
  destruct r as [e|e|]; [|by eexists|done]. destruct (HQ e eq_refl) as [_ Hlen]. rewrite Hc in Hlen.
  destruct (extension_loop_settled (S (length b)) e b1 Hb1 ltac:(lia)) as (b2 & r & -> & Hr2 & Hb2).
  destruct r as [u|e'|]; [|by eexists|done].
  destruct (utp_time_consumes now b2 Hb2) as (b3 & r & -> & Hr3 & _ & HT). cbn [snd].
  destruct r as [[]|e'|]; [|by eexists|done]. destruct (HT tt eq_refl). lia.
Qed.

(** A uTP packet of one extension, sniffed on the first of January 2024, and where
    the clock of the machine reads a day after 1970. *)
Definition utp_packet : bytes := map z2b [65; 1; 0; 2; 0; 0; 0; 1; 0; 0; 0; 100; 0; 0; 0; 0; 0; 0; 0; 0].

Lemma utp_sniff_never_matches_witness :
  SniffUTP 86400000000 utp_packet = Some (Ok tt) /\ exists e, SniffUTP 1704067200000000 utp_packet = Some (Err e).
Proof.
  split; [vm_compute; reflexivity|].
  apply (utp_sniff_never_matches 1704067200000000 utp_packet); vm_compute; [intros [=]|reflexivity].
Defined.
End BtSniff.
