(* ===== verification/SniffQuic.v ===== *)
(** * Sniffing QUIC: common/protocol/quic

    [SniffQUIC] takes the CRYPTO frames out of the Initial packets of the first
    datagrams, puts the pieces of the ClientHello together and reads its server
    name.  The packages crypto and golang.org/x/crypto/hkdf (key derivation, AES and
    AES-GCM) and quicvarint are parameters.

    The bytes are those of the payload of the dispatcher, a slice of a larger
    array: [spare] is the array behind them, which the sample for the header
    protection may reach into.  The array a pooled Buffer starts with is
    [recycled].  What the sniffer writes into the packet (it decrypts in place)
    lies before the rest it goes on with; the loop keeps the array of one packet.
    [None] is out of fuel. *)
From S2P Require Import Prelude GoStd Buf GoText Sniff.
Import Buf.

Module QuicSniff.

Definition versionDraft29 : Z := 4278190109.   (* 0xff00001d *)
Definition version1 : Z := 1.
Definition quicSaltOld : bytes := map z2b
  [175; 191; 236; 40; 153; 147; 210; 76; 158; 151; 134; 241; 156; 97; 17; 224; 67; 144; 168; 153].
Definition quicSalt : bytes := map z2b
  [56; 118; 44; 247; 245; 89; 52; 179; 77; 23; 154; 230; 164; 200; 12; 173; 204; 187; 127; 10].
Definition errNotQuic : error := NewError "not quic".
Definition errNotQuicInitial : error := NewError "not initial packet".
Definition ErrShortBuffer : error := NewError "short buffer".

Section Crypto.
(** hkdf.Extract(SHA256, secret, salt), hkdf.Expand(SHA256, prk, info).Read of
    [length] bytes, AES encryption of a block, and Open of the AES-GCM of crypto/tls
    (key, nonce mask, nonce, ciphertext, additional data). *)
Variable hkdf_Extract : bytes -> bytes -> bytes.
Variable hkdf_Expand : bytes -> bytes -> Z -> bytes.
Variable aes_Encrypt : bytes -> bytes -> bytes.
Variable aead_Open : bytes -> bytes -> bytes -> bytes -> bytes -> option bytes.
(** quicvarint.Read *)
Variable varint_Read : ST Buffer Z.

Definition errOpen : error := NewError "cipher: message authentication failed".

(** [hkdfExpandLabel(hash, secret, context, label, length)] *)
Definition expand_info (context label : bytes) (length : Z) : bytes :=
  put_be 2 length ++ [z2b (6 + zlen label)] ++ lit "tls13 " ++ label ++ [z2b (zlen context)] ++ context.
Definition hkdfExpandLabel (secret context label : bytes) (length : Z) : bytes :=
  hkdf_Expand secret (expand_info context label length) length.

(** A failing read becomes [e]. *)
Definition or_err {S A} (m : ST S A) (e : error) : ST S A := fun s =>
  match m s with (s', Err _) => (s', Err e) | r => r end.

Definition xor (a b : byte) : byte := z2b (Z.lxor (b2z a) (b2z b)).

(** ** The frames of a packet *)

(** The crypto data so far: [cryptoLen] and [cryptoDataBuf]. *)
Record crypto := mkCrypto { cryptoLen : Z; cryptoDataBuf : Buffer }.

Definition unexpected {A} (m : ST Buffer A) : ST Buffer A := or_err m ErrUnexpectedEOF.

(** The rounds of the loop over the ACK ranges; every round reads, so the bytes of
    the packet bound them. *)
Fixpoint ack_ranges (fuel : nat) (count : Z) (b : Buffer) : option (Buffer * res unit) :=
  if count <=? 0 then Some (b, Ok tt) else
  match fuel with
  | O => None
  | S fuel' =>
    match (_ ← unexpected varint_Read; unexpected varint_Read) b with
    | (b', Ok _) => ack_ranges fuel' (count - 1) b'
    | (b', Err e) => Some (b', Err e)
    | (b', Panic) => Some (b', Panic)
    end
  end.

Definition ack_head : ST Buffer Z :=
  _ ← unexpected varint_Read;
  _ ← unexpected varint_Read;
  ackRangeCount ← unexpected varint_Read;
  _ ← unexpected varint_Read;
  mret ackRangeCount.

Definition ecn_counts : ST Buffer unit :=
  _ ← unexpected varint_Read;
  _ ← unexpected varint_Read;
  _ ← unexpected varint_Read;
  mret tt.

Definition ack_frame (frameType : Z) (b : Buffer) : option (Buffer * res unit) :=
  match ack_head b with
  | (b', Ok count) =>
    match ack_ranges (S (length (v b))) count b' with
    | Some (b', Ok _) => Some (if frameType =? 3 then ecn_counts b' else (b', Ok tt))
    | r => r
    end
  | (b', Err e) => Some (b', Err e)
  | (b', Panic) => Some (b', Panic)
  end.

(** The first part of a CRYPTO frame: the buffer grows to hold [end_]. *)
Definition grow (c : crypto) (end_ : Z) : res crypto :=
  let d := cryptoDataBuf c in
  if cryptoLen c <? end_ then
    if Cap (Some d) <? i32 end_ then Err ErrShortBuffer else
    if negb (Len (Some d) =? i32 end_) then
      '(d, _) ← Extend d (i32 (i32 end_ - Len (Some d)));
      Ok (mkCrypto end_ d)
    else Ok (mkCrypto end_ d)
  else Ok c.

(** [BytesRange(from, to)] as a window of the array, to write through. *)
Definition range_window (d : Buffer) (from to : Z) : res (Z * Z) :=
  w ← BytesRange d from to;
  let lo := i32 (start d + (if from <? 0 then i32 (from + Len (Some d)) else from)) in
  Ok (lo, lo + zlen w).

(** The int64 [int(x)] of a uint64 below 2^63 is [x]: a varint has 62 bits. *)
Definition crypto_data (c : crypto) (offset length : Z) : ST Buffer crypto := fun b =>
  if Len (Some b) <? length then (b, Err ErrUnexpectedEOF) else
  match (c ← grow c (offset + length);
         w ← range_window (cryptoDataBuf c) (i32 offset) (i32 (offset + length)); Ok (c, w)) with
  | Ok (c, w) =>
    match unexpected (Read (Z.to_nat (w.2 - w.1))) b with
    | (b', Ok data) => (b', Ok (mkCrypto (cryptoLen c) (poke (cryptoDataBuf c) w data)))
    | (b', Err e) => (b', Err e)
    | (b', Panic) => (b', Panic)
    end
  | Err e => (b, Err e)
  | Panic => (b, Panic)
  end.

Definition crypto_frame (c : crypto) : ST Buffer crypto :=
  offset ← unexpected varint_Read;
  length ← unexpected varint_Read;
  crypto_data c offset length.

Definition close_frame : ST Buffer unit :=
  _ ← unexpected varint_Read;
  _ ← unexpected varint_Read;
  length ← unexpected varint_Read;
  _ ← unexpected (ReadBytes (i32 length));
  mret tt.

(** The loop that skips PADDING: the type of the next frame. *)
Fixpoint frame_type (fuel : nat) (frameType : Z) (b : Buffer) : Buffer * Z :=
  match fuel with
  | O => (b, frameType)
  | S fuel' =>
    if (frameType =? 0) && negb (IsEmpty (Some b)) then
      match ReadByte b with
      | (b', Ok x) => frame_type fuel' (b2z x) b'
      | (b', _) => frame_type fuel' 0 b'
      end
    else (b, frameType)
  end.

(** One round of the loop over the frames. *)
Definition frame_round (c : crypto) (b : Buffer) : option (Buffer * res crypto) :=
  let '(b, frameType) := frame_type (S (length (v b))) 0 b in
  let keep (r : Buffer * res unit) : Buffer * res crypto :=
    match r with
    | (b', Ok _) => (b', Ok c)
    | (b', Err e) => (b', Err e)
    | (b', Panic) => (b', Panic)
    end in
  if frameType =? 0 then Some (b, Ok c) else
  if frameType =? 1 then Some (b, Ok c) else
  if (frameType =? 2) || (frameType =? 3) then keep <$> ack_frame frameType b else
  if frameType =? 6 then Some (crypto_frame c b) else
  if frameType =? 28 then Some (keep (close_frame b)) else
  Some (b, Err errNotQuicInitial).

Fixpoint frames (fuel : nat) (c : crypto) (b : Buffer) : option (res crypto) :=
  if IsEmpty (Some b) then Some (Ok c) else
  match fuel with
  | O => None
  | S fuel' =>
    match frame_round c b with
    | Some (b', Ok c') => frames fuel' c' b'
    | Some (_, Err e) => Some (Err e)
    | Some (_, Panic) => Some Panic
    | None => None
    end
  end.

(** ** The header of a packet *)
Record header := mkHeader {
  versionNumber : Z;
  isQuicInitial : bool;
  destConnID : bytes;
  packetLen : Z;
}.

(** [len_b] is [len(b)]. *)
Definition read_header (len_b : Z) : ST Buffer header :=
  typeByte ← or_err ReadByte errNotQuic;
  if (Z.land (b2z typeByte) 128 =? 0) || (Z.land (b2z typeByte) 64 =? 0) then st_err errNotQuicInitial else
  vb ← or_err (ReadBytes 4) errNotQuic;
  versionNumber ← st_lift (Uint32 vb);
  (* the source tests bit 0x40 again here: the test above settles it *)
  if negb (versionNumber =? versionDraft29) && negb (versionNumber =? version1) then st_err errNotQuic else
  let packetType := Z.shiftr (Z.land (b2z typeByte) 48) 4 in
  let isQuicInitial := packetType =? 0 in
  l ← or_err ReadByte errNotQuic;
  destConnID ← or_err (ReadBytes (b2z l)) errNotQuic;
  l ← or_err ReadByte errNotQuic;
  _ ← or_err (ReadBytes (b2z l)) errNotQuic;
  _ ← (if isQuicInitial then
         tokenLen ← or_err varint_Read errNotQuic;
         if len_b <? tokenLen then st_err errNotQuic else
         or_err (ReadBytes (i32 tokenLen)) errNotQuic
       else mret []);
  packetLen ← or_err varint_Read errNotQuic;
  if packetLen <? 4 then st_err errNotQuic else
  mret (mkHeader versionNumber isQuicInitial destConnID packetLen).

(** ** Removing the protection of an Initial packet: the frames it carries *)
Definition packet_secret (h : header) : bytes :=
  let salt := if versionNumber h =? version1 then quicSalt else quicSaltOld in
  let initialSecret := hkdf_Extract (destConnID h) salt in
  hkdfExpandLabel initialSecret [] (lit "client in") 32.

(** [b[i] ^= x] *)
Definition xor_at (b : bytes) (i : Z) (x : byte) : res bytes :=
  y ← or_panic (index b i); Ok (<[Z.to_nat i := xor y x]> b).

(** The mask on the first byte and on the four bytes at [hdrLen]. *)
Definition unmask (mask b : bytes) (hdrLen : Z) : res bytes :=
  m0 ← or_panic (index mask 0); m1 ← or_panic (index mask 1); m2 ← or_panic (index mask 2);
  m3 ← or_panic (index mask 3); m4 ← or_panic (index mask 4);
  b ← xor_at b 0 (z2b (Z.land (b2z m0) 15));
  b ← xor_at b hdrLen m1;
  b ← xor_at b (hdrLen + 1) m2;
  b ← xor_at b (hdrLen + 2) m3;
  xor_at b (hdrLen + 3) m4.

(** [buffer] stands at [hdrLen] and shares the array of [b]. *)
Definition decrypt (h : header) (b spare : bytes) (hdrLen : Z) : res bytes :=
  origPNBytes ← or_panic (slice b hdrLen (hdrLen + 4));
  let secret := packet_secret h in
  let hpKey := hkdfExpandLabel secret [] (lit "quic hp") 16 in
  sample ← or_panic (slice (b ++ spare) (hdrLen + 4) (hdrLen + 20));
  b ← unmask (aes_Encrypt hpKey sample) b hdrLen;
  b0 ← or_panic (index b 0);
  let packetNumberLength := Z.land (b2z b0) 3 + 1 in
  if negb (packetNumberLength =? 1) then Err errNotQuicInitial else
  packetNumber ← or_panic (index b hdrLen);
  let extHdrLen := hdrLen + packetNumberLength in
  orig ← from origPNBytes packetNumberLength;
  let b := (copy_at b (Z.to_nat extHdrLen) (take 3 orig)).1 in
  data ← or_panic (slice b extHdrLen (packetLen h + hdrLen));
  let key := hkdfExpandLabel secret [] (lit "quic key") 16 in
  let iv := hkdfExpandLabel secret [] (lit "quic iv") 12 in
  let nonce := put_be 8 (b2z packetNumber) in
  aad ← or_panic (slice b 0 extHdrLen);
  match aead_Open key iv nonce data aad with
  | Some decrypted => Ok decrypted
  | None => Err errOpen
  end.

(** ** SniffQUIC *)

(** One round: [inl] goes on with the crypto data and the rest of the bytes. *)
Definition packet_round (c : crypto) (b spare : bytes) : option (res (crypto * bytes + bytes)) :=
  match read_header (zlen b) (FromBytes b) with
  | (buffer, Ok h) =>
    let hdrLen := zlen b - Len (Some buffer) in
    if zlen b <? hdrLen + packetLen h then Some (Err ErrNoClue) else
    match from b (hdrLen + packetLen h) with
    | Ok restPayload =>
      if negb (isQuicInitial h) then Some (Ok (inl (c, restPayload))) else
      match decrypt h b spare hdrLen with
      | Ok decrypted =>
        match frames (S (length decrypted)) c (FromBytes decrypted) with
        | Some (Ok c) =>
          match BytesRange (cryptoDataBuf c) 0 (i32 (cryptoLen c)) with
          | Ok hello =>
            match TlsSniff.ReadClientHello hello with
            | Some (Ok domain) => Some (Ok (inr domain))
            | Some (Err _) => Some (Ok (inl (c, restPayload)))
            | Some Panic => Some Panic
            | None => None
            end
          | Err e => Some (Err e)
          | Panic => Some Panic
          end
        | Some (Err e) => Some (Err e)
        | Some Panic => Some Panic
        | None => None
        end
      | Err e => Some (Err e)
      | Panic => Some Panic
      end
    | Err e => Some (Err e)
    | Panic => Some Panic
    end
  | (_, Err e) => Some (Err e)
  | (_, Panic) => Some Panic
  end.

Fixpoint packets (fuel : nat) (c : crypto) (b spare : bytes) : option (res bytes) :=
  if zlen b <=? 0 then Some (Err ErrProtoNeedMoreData) else
  match fuel with
  | O => None
  | S fuel' =>
    match packet_round c b spare with
    | Some (Ok (inl (c', b'))) => packets fuel' c' b' spare
    | Some (Ok (inr domain)) => Some (Ok domain)
    | Some (Err e) => Some (Err e)
    | Some Panic => Some Panic
    | None => None
    end
  end.

(** [buf.NewWithSize(32767)]: an array of 32768 bytes from the pool, as it was left. *)
Definition cryptoBuf (recycled : bytes) : Buffer :=
  {| v := recycled; start := 0; end_ := 0; owner := bytespools |}.

Definition SniffQUIC (recycled b spare : bytes) : option (res bytes) :=
  if zlen b =? 0 then Some (Err ErrNoClue) else
  packets (S (length b)) (mkCrypto 0 (cryptoBuf recycled)) b spare.
End Crypto.
End QuicSniff.
