(* ===== verification/SniffQuicSpec.v ===== *)
(** * Sniffing QUIC reads what a client writes

    The wire format of Initial packets and of the frames they may carry (RFC 9000,
    17.2.2 and 19), the crypto data as the array the pieces are written to, and the
    theorems that [SniffQUIC] puts a ClientHello together, and that a frame with a
    far offset makes it panic. *)
From S2P Require Import Prelude GoStd Buf GoText Sniff SniffQuic.
Import Buf QuicSniff.

Module QuicSpec.

(** ** Reading from a Buffer whose content is known *)
Definition eats {A} (m : ST Buffer A) (d : bytes) (a : A) : Prop :=
  forall b rest, buf_wf b -> content b = d ++ rest -> m b = (pop b (zlen d), Ok a).

Lemma pop_pop b n m : pop (pop b n) m = pop b (n + m).
Proof. unfold pop. cbn. f_equal. lia. Qed.

Lemma pop_0 b : pop b 0 = b.
Proof. unfold pop. destruct b. cbn. f_equal. lia. Qed.

Lemma popped b d rest : buf_wf b -> content b = d ++ rest ->
  buf_wf (pop b (zlen d)) /\ content (pop b (zlen d)) = rest.
Proof.
  intros Hb Hc. pose proof (zlen_nonneg d). pose proof (zlen_nonneg rest).
  split; [apply pop_wf; [done|rewrite Hc; len]|].
  rewrite pop_content, Hc by (done || lia). apply drop_app_length'. len.
Qed.

Lemma eats_ret {A} (a : A) : eats (mret a) [] a.
Proof. intros b rest Hb Hc. cbn. by rewrite pop_0. Qed.

Lemma eats_bind {A B} (m : ST Buffer A) (f : A -> ST Buffer B) d1 d2 a c :
  eats m d1 a -> eats (f a) d2 c -> eats (m ≫= f) (d1 ++ d2) c.
Proof.
  intros Hm Hf b rest Hb Hc. rewrite <- app_assoc in Hc.
  unfold mbind, st_bind. rewrite (Hm b (d2 ++ rest) Hb Hc).
  destruct (popped b d1 _ Hb Hc) as [Hb' Hc']. rewrite (Hf _ rest Hb' Hc'), pop_pop.
  by rewrite zlen_app.
Qed.

Lemma eats_last {A B} (m : ST Buffer A) (f : A -> ST Buffer B) d a c :
  eats m d a -> f a = mret c -> eats (m ≫= f) d c.
Proof. intros Hm Hf. rewrite <- (app_nil_r d). eapply eats_bind; [exact Hm|]. rewrite Hf. apply eats_ret. Qed.

Lemma eats_or_err {A} (m : ST Buffer A) e d a : eats m d a -> eats (or_err m e) d a.
Proof. intros Hm b rest Hb Hc. unfold or_err. by rewrite (Hm b rest). Qed.

Lemma eats_ReadByte x : eats ReadByte [x] x.
Proof. intros b rest Hb Hc. by rewrite ReadByte_wf, Hc. Qed.

Lemma eats_ReadBytes d : zlen d < 2 ^ 31 -> eats (ReadBytes (zlen d)) d d.
Proof.
  intros Hd b rest Hb Hc. pose proof (zlen_nonneg d). pose proof (zlen_nonneg rest).
  rewrite ReadBytes_wf, Hc by (done || lia). replace (_ <=? _) with true by len.
  do 2 f_equal. apply take_app_length'. len.
Qed.

(** ** Frames *)
Inductive frame :=
  | PADDING
  | PING
  | ACK (largest delay first : Z) (ranges : list (Z * Z))
  | CRYPTO (offset : Z) (data : bytes).

#[export] Instance frame_eq_dec : EqDecision frame.
Proof. solve_decision. Defined.

Abbreviation is_varint x := (0 <= x < 2 ^ 62).

Definition frame_ok (f : frame) : Prop :=
  match f with
  | PADDING | PING => True
  | ACK l d s rs => is_varint l /\ is_varint d /\ is_varint s /\
      Forall (fun r => is_varint r.1 /\ is_varint r.2) rs /\ zlen rs < 2 ^ 31
  | CRYPTO o d => 0 <= o /\ d <> [] /\ o + zlen d <= 32768
  end.

(** The array of the crypto data, and how much of it is in use. *)
Definition place (s : Z * bytes) (f : frame) : Z * bytes :=
  match f with
  | CRYPTO o d => (Z.max s.1 (o + zlen d), (copy_at s.2 (Z.to_nat o) d).1)
  | _ => s
  end.

Definition crypto_of (s : Z * bytes) : crypto :=
  mkCrypto s.1 {| v := s.2; start := 0; end_ := s.1; owner := bytespools |}.

Definition crypto_ok (s : Z * bytes) : Prop := 0 <= s.1 <= 32768 /\ zlen s.2 = 32768.

Lemma place_ok s f : crypto_ok s -> frame_ok f -> crypto_ok (place s f).
Proof.
  intros [Hs Hl] Hf. destruct f as [| | |o d]; try done. destruct Hf as (Ho & _ & Hd).
  pose proof (zlen_nonneg d). split; cbn [place fst snd]; [lia|].
  unfold zlen in *. rewrite copy_at_length; lia.
Qed.

Section Varint.
Variable varint_Read : ST Buffer Z.
Variable varint : Z -> bytes.

(** RFC 9000, 16: what quicvarint.Read reads. *)
Hypothesis varint_eats : forall x, is_varint x -> eats varint_Read (varint x) x.
Hypothesis varint_nonempty : forall x, is_varint x -> varint x <> [].

Definition encode (f : frame) : bytes :=
  match f with
  | PADDING => [x00]
  | PING => [x01]
  | ACK l d s rs => x02 :: varint l ++ varint d ++ varint (zlen rs) ++ varint s ++
      concat (map (fun r => varint r.1 ++ varint r.2) rs)
  | CRYPTO o d => x06 :: varint o ++ varint (zlen d) ++ d
  end.

Lemma eats_varint x : is_varint x -> eats (unexpected varint_Read) (varint x) x.
Proof. intros. by apply eats_or_err, varint_eats. Qed.

(** The type of the frame the content starts with, after padding. *)
Fixpoint first_type (d : bytes) : Z * Z :=
  match d with
  | [] => (0, 0)
  | x :: d' => if b2z x =? 0 then (1 + (first_type d').1, (first_type d').2) else (1, b2z x)
  end.

Lemma frame_type_spec fuel b :
  buf_wf b -> (length (content b) < fuel)%nat ->
  frame_type fuel 0 b = (pop b (first_type (content b)).1, (first_type (content b)).2).
Proof.
  revert b. induction fuel as [|fuel IH]; intros b Hb Hf; [lia|]. cbn [frame_type].
  rewrite IsEmpty_wf by done. destruct (content b) as [|x d] eqn:E.
  - cbn. by rewrite pop_0.
  - rewrite bool_decide_eq_false_2 by done. cbn [negb andb Z.eqb]. change (0 =? 0) with true. cbn match.
    rewrite ReadByte_wf, E by done. destruct (popped b [x] d Hb E) as [Hb' Hc'].
    change (zlen [x]) with 1 in *. cbn [first_type]. destruct (b2z x =? 0) eqn:Hx.
    + apply Z.eqb_eq in Hx. rewrite Hx, IH, Hc', pop_pop; [done|done|]. rewrite Hc'. cbn in Hf. lia.
    + destruct fuel as [|fuel']; [done|]. cbn [frame_type]. by rewrite Hx.
Qed.

Lemma buffer_fuel b : buf_wf b -> (length (content b) < S (length (v b)))%nat.
Proof. intros Hb. pose proof (zlen_content b Hb). unfold buf_wf, zlen in *. lia. Qed.

Lemma frame_round_type b t d :
  buf_wf b -> content b = t :: d -> t <> x00 ->
  frame_type (S (length (v b))) 0 b = (pop b 1, b2z t).
Proof.
  intros Hb Hc Ht. rewrite frame_type_spec by (done || by apply buffer_fuel). rewrite Hc. cbn [first_type].
  destruct (b2z t =? 0) eqn:E; [|done]. exfalso. apply Ht, b2z_inj. by apply Z.eqb_eq in E.
Qed.

(** Padding before a frame changes nothing. *)
Lemma frame_round_padding c b d :
  buf_wf b -> content b = x00 :: d -> frame_round varint_Read c b = frame_round varint_Read c (pop b 1).
Proof.
  intros Hb Hc. destruct (popped b [x00] d Hb Hc) as [Hb' Hc']. change (zlen [x00]) with 1 in *.
  unfold frame_round. rewrite !frame_type_spec by (done || by apply buffer_fuel). rewrite Hc, Hc'.
  cbn [first_type]. change (b2z x00 =? 0) with true. cbn [fst snd]. by rewrite pop_pop.
Qed.

Lemma eats_ranges rs : Forall (fun r => is_varint r.1 /\ is_varint r.2) rs ->
  forall fuel b rest, buf_wf b -> (length rs < fuel)%nat ->
  content b = concat (map (fun r => varint r.1 ++ varint r.2) rs) ++ rest ->
  ack_ranges varint_Read fuel (zlen rs) b =
    Some (pop b (zlen (concat (map (fun r => varint r.1 ++ varint r.2) rs))), Ok tt).
Proof.
  induction 1 as [|r rs [H1 H2] _ IH]; intros fuel b rest Hb Hf Hc; (destruct fuel as [|fuel]; [cbn in Hf; lia|]).
  - cbn. by rewrite pop_0.
  - cbn [ack_ranges]. replace (_ <=? 0) with false by len. cbn [map concat] in *. rewrite <- app_assoc in Hc.
    assert (E : eats (_ ← unexpected varint_Read; unexpected varint_Read) (varint r.1 ++ varint r.2) r.2).
    { eapply eats_bind; by apply eats_varint. }
    rewrite (E b _ Hb Hc). destruct (popped b _ _ Hb Hc) as [Hb' Hc'].
    replace (zlen (r :: rs) - 1) with (zlen rs) by len.
    rewrite (IH fuel _ rest) by (done || cbn in Hf; lia). by rewrite pop_pop, <- zlen_app.
Qed.

Lemma zlen_ranges rs : Forall (fun r => is_varint r.1 /\ is_varint r.2) rs ->
  (length rs <= length (concat (map (fun r => varint r.1 ++ varint r.2) rs)))%nat.
Proof.
  induction 1 as [|r rs [H1 _] _ IH]; cbn [map concat length]; [lia|]. rewrite !length_app.
  pose proof (varint_nonempty _ H1). destruct (varint r.1); [done|]. cbn [length]. lia.
Qed.

Lemma ack_frame_spec l d s rs b rest :
  frame_ok (ACK l d s rs) -> buf_wf b ->
  content b = tail (encode (ACK l d s rs)) ++ rest ->
  ack_frame varint_Read 2 b = Some (pop b (zlen (tail (encode (ACK l d s rs)))), Ok tt).
Proof.
  intros (Hl & Hd & Hs & Hrs & Hn) Hb Hc. cbn [encode tail] in *. set (c := concat _) in *.
  assert (Hn' : is_varint (zlen rs)) by (pose proof (zlen_nonneg rs); lia).
  assert (E : eats (ack_head varint_Read) (varint l ++ varint d ++ varint (zlen rs) ++ varint s) (zlen rs)).
  { unfold ack_head. eapply eats_bind; [by apply eats_varint|].
    eapply eats_bind; [by apply eats_varint|]. eapply eats_bind; [by apply eats_varint|].
    eapply eats_last; [by apply eats_varint|done]. }
  replace ((varint l ++ varint d ++ varint (zlen rs) ++ varint s ++ c) ++ rest)
    with ((varint l ++ varint d ++ varint (zlen rs) ++ varint s) ++ c ++ rest) in Hc by (by rewrite <- !app_assoc).
  unfold ack_frame. rewrite (E b _ Hb Hc). destruct (popped b _ _ Hb Hc) as [Hb' Hc'].
  rewrite (eats_ranges rs Hrs _ _ rest).
  - change (2 =? 3) with false. cbn match. rewrite pop_pop. do 3 f_equal. rewrite <- zlen_app. f_equal.
    unfold c. by rewrite <- !app_assoc.
  - done.
  - pose proof (buffer_fuel b Hb) as F. rewrite Hc, !length_app in F.
    pose proof (zlen_ranges rs Hrs). fold c in H. lia.
  - done.
Qed.

Lemma grow_spec s n :
  crypto_ok s -> n <= 32768 -> 0 <= n ->
  grow (crypto_of s) n = Ok (crypto_of (Z.max s.1 n, s.2)).
Proof.
  destruct s as [m a]. unfold crypto_ok. cbn [fst snd]. intros [Hm Ha] Hn H0. unfold grow, crypto_of, Len, Cap.
  cbn [fst snd cryptoLen cryptoDataBuf start end_ v].
  rewrite Ha. rewrite !(i32_small 32768), !(i32_small n), !i32_small by (rewrite ?i32_small; lia).
  destruct (m <? n) eqn:E.
  - replace (32768 <? n) with false by lia. replace (m - 0 =? n) with false by lia. cbn [negb].
    unfold Extend. cbn [v end_ start]. rewrite i32_small by lia. rewrite Ha.
    replace (32768 <? _) with false by lia. rewrite slice_Some by lia. cbn [or_panic mbind res_bind].
    do 3 f_equal; [lia|f_equal; lia].
  - do 3 f_equal; [lia|f_equal; lia].
Qed.

Lemma copy_at_poke (a : bytes) o (d : bytes) n :
  (o + length d <= length a)%nat -> n = length d ->
  copy_at a o (take n d) = copy_at a o d.
Proof. intros. subst n. by rewrite firstn_all2 by lia. Qed.

Lemma crypto_data_spec s o d b rest :
  crypto_ok s -> frame_ok (CRYPTO o d) -> buf_wf b -> content b = d ++ rest ->
  exists b', crypto_data (crypto_of s) o (zlen d) b = (b', Ok (crypto_of (place s (CRYPTO o d)))) /\
    buf_wf b' /\ content b' = rest.
Proof.
  intros Hs (Ho & Hd & Hn) Hb Hc. pose proof (zlen_nonneg d). pose proof (zlen_nonneg rest).
  unfold crypto_data. rewrite Len_wf, Hc by done. replace (_ <? _) with false by len.
  rewrite grow_spec by (done || lia). destruct s as [m a]. destruct Hs as [Hm Ha]. cbn [fst snd] in *.
  cbn [mbind res_bind]. unfold range_window, BytesRange.
  rewrite !(i32_small o), !(i32_small (o + zlen d)) by lia.
  replace (o <? 0) with false by lia. replace (o + zlen d <? 0) with false by lia.
  unfold crypto_of. cbn [fst snd cryptoDataBuf cryptoLen start v].
  rewrite !i32_small by lia. rewrite slice_Some by lia. cbn [or_panic mbind res_bind fst snd].
  set (w := take _ _). assert (Hw : zlen w = zlen d) by (unfold w; len). rewrite Hw.
  replace (Z.to_nat (0 + o + zlen d - (0 + o))) with (length d) by len.
  destruct (Read_spec b Hb (length d)) as (b' & E & Hb' & Hc' & _).
  { rewrite Hc. by destruct d. }
  unfold unexpected, or_err. rewrite E, Hc. rewrite Hc, drop_app_length in Hc'.
  exists b'. split; [|done]. rewrite take_app_length. do 2 f_equal.
  unfold place, poke. cbn [fst snd v start end_ owner]. f_equal. f_equal.
  rewrite copy_at_poke by len. by replace (Z.to_nat (0 + o)) with (Z.to_nat o) by lia.
Qed.

(** One frame. *)
Lemma frame_round_spec s f b rest :
  crypto_ok s -> frame_ok f -> f <> PADDING -> buf_wf b -> content b = encode f ++ rest ->
  exists b', frame_round varint_Read (crypto_of s) b = Some (b', Ok (crypto_of (place s f))) /\
    buf_wf b' /\ content b' = rest.
Proof.
  intros Hs Hf Hp Hb Hc. unfold frame_round. destruct f as [| |l d x rs|o d]; [done|..].
  - rewrite (frame_round_type b x01 rest) by done. cbn [fst snd]. change (b2z x01) with 1.
    change (1 =? 0) with false. change (1 =? 1) with true. cbn match.
    destruct (popped b [x01] rest Hb Hc). by eexists.
  - rewrite (frame_round_type b x02 (tail (encode (ACK l d x rs)) ++ rest)) by done.
    change (b2z x02) with 2. change (2 =? 0) with false. change (2 =? 1) with false. change (2 =? 2) with true.
    cbn [orb]. cbn match.
    destruct (popped b [x02] (tail (encode (ACK l d x rs)) ++ rest) Hb Hc) as [Hb' Hc'].
    change (zlen [x02]) with 1 in *. rewrite (ack_frame_spec l d x rs _ rest) by done.
    destruct (popped _ _ rest Hb' Hc') as [Hb2 Hc2]. by eexists.
  - rewrite (frame_round_type b x06 (varint o ++ varint (zlen d) ++ d ++ rest))
      by (done || rewrite Hc; cbn [encode app]; by rewrite <- !app_assoc).
    change (b2z x06) with 6. change (6 =? 0) with false. change (6 =? 1) with false.
    change ((6 =? 2) || (6 =? 3)) with false. change (6 =? 6) with true. cbn match.
    assert (Hc0 : content b = [x06] ++ (varint o ++ varint (zlen d) ++ d ++ rest))
      by (rewrite Hc; cbn [encode app]; by rewrite <- !app_assoc).
    destruct (popped b _ _ Hb Hc0) as [Hb' Hc']. change (zlen [x06]) with 1 in *.
    pose proof Hf as (Ho & Hd & Hn). pose proof (zlen_nonneg d).
    unfold crypto_frame. unfold mbind, st_bind.
    rewrite (eats_varint o ltac:(lia) _ _ Hb' Hc'). destruct (popped _ _ _ Hb' Hc') as [Hb2 Hc2].
    rewrite (eats_varint (zlen d) ltac:(lia) _ _ Hb2 Hc2). destruct (popped _ _ _ Hb2 Hc2) as [Hb3 Hc3].
    destruct (crypto_data_spec s o d _ rest Hs Hf Hb3 Hc3) as (b' & E & ?). exists b'. by rewrite E.
Qed.

(** All frames of a packet. *)
Lemma frames_spec fs : Forall frame_ok fs -> forall fuel s b,
  crypto_ok s -> buf_wf b -> content b = concat (map encode fs) -> (length (content b) <= fuel)%nat ->
  frames varint_Read fuel (crypto_of s) b = Some (Ok (crypto_of (foldl place s fs))).
Proof.
  assert (U : forall fuel c b, (content b <> []) -> buf_wf b -> (0 < fuel)%nat ->
    frames varint_Read fuel c b = match frame_round varint_Read c b with
    | Some (b', Ok c') => frames varint_Read (Nat.pred fuel) c' b'
    | Some (_, Err e) => Some (Err e)
    | Some (_, Panic) => Some Panic
    | None => None
    end).
  { intros fuel c b Hc Hb Hf. destruct fuel as [|fuel]; [lia|]. cbn [frames].
    rewrite IsEmpty_wf by done. by rewrite bool_decide_eq_false_2. }
  induction 1 as [|f fs Hf Hfs IH]; intros fuel s b Hs Hb Hc Hl; cbn [map concat foldl] in *.
  - destruct fuel; cbn [frames]; rewrite IsEmpty_wf by done; by rewrite bool_decide_eq_true_2.
  - assert (Hn : content b <> []) by (rewrite Hc; by destruct f).
    assert (0 < fuel)%nat by (destruct (content b); [done|cbn in Hl; lia]).
    destruct (decide (f = PADDING)) as [->|Hp].
    + destruct (popped b [x00] _ Hb Hc) as [Hb' Hc']. change (zlen [x00]) with 1 in *.
      rewrite Hc in Hl. cbn [encode app length] in Hl.
      rewrite U by done. rewrite (frame_round_padding _ b (concat (map encode fs))) by done.
      destruct (decide (content (pop b 1) = [])) as [He|He].
      * unfold frame_round. rewrite frame_type_spec by (done || by apply buffer_fuel).
        rewrite He. cbn [first_type fst snd]. change (0 =? 0) with true. cbn match. rewrite pop_0.
        apply IH; [done|done|done|rewrite Hc'; lia].
      * rewrite <- (U fuel (crypto_of s) (pop b 1)) by done. apply IH; [done|done|done|rewrite Hc'; lia].
    + rewrite U by done.
      destruct (frame_round_spec s f b _ Hs Hf Hp Hb Hc) as (b' & -> & Hb' & Hc').
      apply IH; [by apply place_ok|done|done|]. rewrite Hc'. rewrite Hc, length_app in Hl.
      destruct f; cbn [encode length] in Hl; lia.
Qed.

(** ** The header of an Initial packet *)
Definition header_tail (ver : Z) (dcid scid token : bytes) (plen : Z) : bytes :=
  put_be 4 ver ++ put_be 1 (zlen dcid) ++ dcid ++ put_be 1 (zlen scid) ++ scid ++
  varint (zlen token) ++ token ++ varint plen.

Lemma eats_put1 {B} e (d : bytes) (f : byte -> ST Buffer B) d2 c :
  zlen d < 2 ^ 8 -> (forall x, b2z x = zlen d -> eats (f x) d2 c) ->
  eats (or_err ReadByte e ≫= f) (put_be 1 (zlen d) ++ d2) c.
Proof.
  intros Hd Hf. pose proof (zlen_nonneg d). eapply eats_bind; [apply eats_or_err, eats_ReadByte|].
  apply Hf. rewrite Z.div_1_r. apply z2b_small. lia.
Qed.

Definition long_initial (x : byte) : Prop :=
  Z.land (b2z x) 128 <> 0 /\ Z.land (b2z x) 64 <> 0 /\ Z.land (b2z x) 48 = 0.

Lemma eats_header len_b first ver dcid scid token plen :
  long_initial first -> ver = version1 \/ ver = versionDraft29 ->
  zlen dcid < 2 ^ 8 -> zlen scid < 2 ^ 8 -> zlen token <= len_b -> zlen token < 2 ^ 31 -> 4 <= plen < 2 ^ 62 ->
  eats (read_header varint_Read len_b) (first :: header_tail ver dcid scid token plen)
    (mkHeader ver true dcid plen).
Proof.
  intros (H1 & H2 & H3) Hv Hd Hs Ht Ht' Hp. pose proof (zlen_nonneg token).
  unfold read_header, header_tail. change (first :: ?x) with ([first] ++ x).
  eapply eats_bind; [apply eats_or_err, eats_ReadByte|]. cbn beta.
  replace (_ || _) with false by lia.
  eapply eats_bind; [apply eats_or_err; apply (eats_ReadBytes (put_be 4 ver)); done|]. cbn beta.
  assert (Hu : Uint32 (put_be 4 ver) = Ok ver).
  { pose proof (Uint32_app (put_be 4 ver) [] eq_refl) as U. rewrite app_nil_r in U. rewrite U. f_equal.
    apply get_be_put_be_small. destruct Hv as [-> | ->]; done. }
  rewrite Hu, st_lift_bind.
  replace (negb (ver =? versionDraft29) && negb (ver =? version1)) with false by (destruct Hv as [-> | ->]; done).
  rewrite H3. change (Z.shiftr 0 4 =? 0) with true. cbv zeta.
  apply eats_put1; [done|]. intros x ->.
  eapply eats_bind; [apply eats_or_err; apply eats_ReadBytes; lia|]. cbn beta.
  apply eats_put1; [done|]. intros y ->.
  eapply eats_bind; [apply eats_or_err; apply eats_ReadBytes; lia|]. cbn beta.
  rewrite (app_assoc (varint (zlen token))).
  eapply eats_bind.
  - eapply eats_bind; [apply eats_or_err, varint_eats; lia|]. cbn beta.
    replace (_ <? _) with false by lia. rewrite i32_small by lia. apply eats_or_err, eats_ReadBytes. lia.
  - cbn beta. eapply eats_last; [apply eats_or_err, varint_eats; lia|]. cbn beta.
    by replace (_ <? _) with false by lia.
Qed.

(** ** Sealing a packet, as a client does it (RFC 9001, 5) *)
Section Crypto.
Variable hkdf_Extract : bytes -> bytes -> bytes.
Variable hkdf_Expand : bytes -> bytes -> Z -> bytes.
Variable aes_Encrypt : bytes -> bytes -> bytes.
Variable aead_Open : bytes -> bytes -> bytes -> bytes -> bytes -> option bytes.
Variable aead_Seal : bytes -> bytes -> bytes -> bytes -> bytes -> bytes.

(** What is sealed opens to itself; a block of AES has 16 bytes. *)
Hypothesis open_seal : forall key iv nonce pt aad,
  aead_Open key iv nonce (aead_Seal key iv nonce pt aad) aad = Some pt.
Hypothesis aes_block : forall key block, length (aes_Encrypt key block) = 16%nat.

Record packet := mkPacket {
  p_version : Z; p_dcid : bytes; p_scid : bytes; p_token : bytes; p_number : byte; p_payload : bytes;
}.

Definition p_secret (p : packet) : bytes :=
  packet_secret hkdf_Extract hkdf_Expand (mkHeader (p_version p) true (p_dcid p) 0).
Definition p_key (p : packet) (label : string) (n : Z) : bytes :=
  hkdfExpandLabel hkdf_Expand (p_secret p) [] (lit label) n.

(** The length field counts the packet number and the tag of 16 bytes. *)
Definition p_length (p : packet) : Z := 1 + zlen (p_payload p) + 16.
Definition p_tail (p : packet) : bytes :=
  header_tail (p_version p) (p_dcid p) (p_scid p) (p_token p) (p_length p).
Definition p_sealed (p : packet) : bytes :=
  aead_Seal (p_key p "quic key" 16) (p_key p "quic iv" 12) (put_be 8 (b2z (p_number p))) (p_payload p)
    (xc0 :: p_tail p ++ [p_number p]).

(** Header protection: the sample starts four bytes after the packet number. *)
Definition seal (p : packet) : bytes :=
  let ct := p_sealed p in
  let mask := aes_Encrypt (p_key p "quic hp" 16) (take 16 (drop 3 ct)) in
  xor xc0 (z2b (Z.land (b2z (mask !!! 0%nat)) 15)) :: p_tail p ++ xor (p_number p) (mask !!! 1%nat) :: ct.

Record packet_ok (p : packet) : Prop := {
  po_version : p_version p = version1 \/ p_version p = versionDraft29;
  po_dcid : zlen (p_dcid p) < 2 ^ 8;
  po_scid : zlen (p_scid p) < 2 ^ 8;
  po_token : zlen (p_token p) < 2 ^ 30;
  po_payload : 3 <= zlen (p_payload p) < 2 ^ 30;
  po_sealed : zlen (p_sealed p) = zlen (p_payload p) + 16;
}.

Lemma xor_xor a m : xor (xor a m) m = a.
Proof.
  unfold xor. rewrite !b2z_z2b. apply b2z_inj. rewrite b2z_z2b. unfold u8.
  pose proof (b2z_range a). pose proof (b2z_range m).
  assert (R : 0 <= Z.lxor (b2z a) (b2z m) < 2 ^ 8).
  { split; [apply Z.lxor_nonneg; lia|].
    destruct (Z.eq_dec (Z.lxor (b2z a) (b2z m)) 0) as [->|Hn]; [lia|].
    apply Z.log2_lt_pow2; [pose proof (proj2 (Z.lxor_nonneg (b2z a) (b2z m))); lia|].
    eapply Z.le_lt_trans; [apply Z.log2_lxor; lia|].
    apply Z.max_lub_lt.
    - destruct (Z.eq_dec (b2z a) 0) as [->|]; [done|]. apply Z.log2_lt_pow2; lia.
    - destruct (Z.eq_dec (b2z m) 0) as [->|]; [done|]. apply Z.log2_lt_pow2; lia. }
  rewrite (Z.mod_small (Z.lxor (b2z a) (b2z m))) by done. rewrite Z.lxor_assoc, Z.lxor_nilpotent, Z.lxor_0_r.
  apply Z.mod_small. lia.
Qed.

Lemma masked_initial m : long_initial (xor xc0 (z2b (Z.land (b2z m) 15))).
Proof. destruct m; vm_compute; repeat split; discriminate. Qed.

Lemma xor_at_app a x c m : xor_at (a ++ x :: c) (zlen a) m = Ok (a ++ xor x m :: c).
Proof.
  unfold xor_at. replace (index _ _) with (Some x).
  - cbn [or_panic mbind res_bind]. f_equal. replace (Z.to_nat (zlen a)) with (length a + 0)%nat by len.
    rewrite insert_app_r. done.
  - symmetry. apply index_Some. split; [apply zlen_nonneg|].
    replace (Z.to_nat (zlen a)) with (length a + 0)%nat by len. by rewrite lookup_app_r, Nat.add_0_r, Nat.sub_diag by lia.
Qed.

Lemma xor_at_app' a x c m i : i = zlen a -> xor_at (a ++ x :: c) i m = Ok (a ++ xor x m :: c).
Proof. intros ->. apply xor_at_app. Qed.

Lemma slice_mid {A} (a b c : list A) lo hi :
  lo = zlen a -> hi = zlen a + zlen b -> slice (a ++ b ++ c) lo hi = Some b.
Proof.
  intros -> ->. pose proof (zlen_nonneg a). pose proof (zlen_nonneg b). pose proof (zlen_nonneg c).
  rewrite slice_Some by len. f_equal.
  rewrite drop_app_length' by len. apply take_app_length'. len.
Qed.

Lemma index_app {A} (a : list A) x c i : i = zlen a -> index (a ++ x :: c) i = Some x.
Proof.
  intros ->. apply index_Some. split; [apply zlen_nonneg|].
  rewrite lookup_app_r by len. by replace (Z.to_nat (zlen a) - length a)%nat with 0%nat by len.
Qed.

Lemma copy_at_mid (a b b' c : bytes) n :
  n = length a -> length b' = length b -> (copy_at (a ++ b ++ c) n b').1 = a ++ b' ++ c.
Proof.
  intros -> Hl. unfold copy_at. cbn [fst]. rewrite take_app_length. f_equal.
  replace (_ `min` _)%nat with (length b') by len. rewrite firstn_all. f_equal.
  rewrite app_assoc. apply drop_app_length'. len.
Qed.

Lemma unmask_spec m0 m1 m2 m3 m4 ms tl fb pn c1 c2 c3 rest :
  unmask (m0 :: m1 :: m2 :: m3 :: m4 :: ms) ((fb :: tl) ++ pn :: c1 :: c2 :: c3 :: rest) (1 + zlen tl) =
  Ok ((xor fb (z2b (Z.land (b2z m0) 15)) :: tl) ++ xor pn m1 :: [xor c1 m2; xor c2 m3; xor c3 m4] ++ rest).
Proof.
  unfold unmask. change (index (m0 :: ?l) 0) with (Some m0). change (index (m0 :: m1 :: ?l) 1) with (Some m1).
  change (index (m0 :: m1 :: m2 :: ?l) 2) with (Some m2). change (index (m0 :: m1 :: m2 :: m3 :: ?l) 3) with (Some m3).
  change (index (m0 :: m1 :: m2 :: m3 :: m4 :: ?l) 4) with (Some m4). cbn [or_panic mbind res_bind].
  change ((fb :: tl) ++ ?l) with ([] ++ fb :: (tl ++ l)). rewrite xor_at_app' by done.
  cbn [app mbind res_bind]. change (?x :: tl ++ ?l) with ((x :: tl) ++ l). rewrite xor_at_app' by len.
  cbn [mbind res_bind]. set (a := _ :: tl).
  assert (Ha : zlen a = 1 + zlen tl) by (unfold a; len).
  change (a ++ ?x :: c1 :: ?l) with (a ++ [x] ++ c1 :: l). rewrite (app_assoc a), xor_at_app' by len.
  cbn [mbind res_bind]. rewrite (cons_middle (xor c1 m2)), app_assoc, xor_at_app' by len.
  cbn [mbind res_bind]. rewrite (cons_middle (xor c2 m3)), app_assoc, xor_at_app' by len.
  by rewrite <- !app_assoc.
Qed.

Lemma decrypt_sealed p rest spare :
  packet_ok p ->
  decrypt hkdf_Extract hkdf_Expand aes_Encrypt aead_Open
    (mkHeader (p_version p) true (p_dcid p) (p_length p)) (seal p ++ rest) spare (1 + zlen (p_tail p)) =
  Ok (p_payload p).
Proof using open_seal aes_block.
  intros [_ _ _ _ Hp Hs]. unfold seal. cbv zeta. set (hp := p_key p "quic hp" 16). set (tl := p_tail p) in *.
  assert (Hct : exists c1 c2 c3 ct, p_sealed p = c1 :: c2 :: c3 :: ct /\ zlen ct = zlen (p_payload p) + 13).
  { destruct (p_sealed p) as [|c1 [|c2 [|c3 ct]]]; [len..|]. exists c1, c2, c3, ct. split; [done|len]. }
  destruct Hct as (c1 & c2 & c3 & ct & Ect & Hct). rewrite Ect. cbn [drop]. rewrite ?drop_0.
  assert (Hm : exists m0 m1 m2 m3 m4 ms, aes_Encrypt hp (take 16 ct) = m0 :: m1 :: m2 :: m3 :: m4 :: ms).
  { pose proof (aes_block hp (take 16 ct)) as Hl. destruct (aes_Encrypt _ _) as [|m0 [|m1 [|m2 [|m3 [|m4 ms]]]]]; try done.
    by eexists _, _, _, _, _, _. }
  destruct Hm as (m0 & m1 & m2 & m3 & m4 & ms & Em). rewrite Em.
  change ((m0 :: ?l) !!! 0%nat) with m0. change ((m0 :: m1 :: ?l) !!! 1%nat) with m1.
  set (fb := xor xc0 _). set (pn' := xor (p_number p) m1). pose proof (zlen_nonneg tl). pose proof (zlen_nonneg rest).
  unfold decrypt.
  replace ((fb :: tl ++ pn' :: c1 :: c2 :: c3 :: ct) ++ rest)
    with ((fb :: tl) ++ [pn'; c1; c2; c3] ++ (ct ++ rest)) by (cbn [app]; by rewrite <- !app_assoc).
  rewrite slice_mid by len. cbn [or_panic mbind res_bind].
  replace (slice _ _ _) with (Some (take 16 ct)).
  2:{ replace ((_ ++ _ ++ ct ++ rest) ++ spare)
        with (((fb :: tl) ++ [pn'; c1; c2; c3]) ++ take 16 ct ++ (drop 16 ct ++ rest ++ spare)).
      - symmetry. apply slice_mid; len.
      - rewrite (app_assoc (take 16 ct)), take_drop. by rewrite <- !app_assoc. }
  cbn [or_panic mbind res_bind]. change (hkdfExpandLabel _ _ _ (lit "quic hp") 16) with hp. rewrite Em.
  change ([pn'; c1; c2; c3] ++ ct ++ rest) with (pn' :: c1 :: c2 :: c3 :: ct ++ rest).
  rewrite unmask_spec. unfold fb, pn'. rewrite !xor_xor. cbn [mbind res_bind]. set (xs := [_; _; _]).
  set (a := (xc0 :: tl) ++ [p_number p]). assert (Ha : zlen a = 2 + zlen tl) by (unfold a; len).
  replace (index _ 0) with (Some xc0) by done. cbn [or_panic mbind res_bind].
  change (negb (Z.land (b2z xc0) 3 + 1 =? 1)) with false. cbn match.
  rewrite index_app by len. cbn [or_panic mbind res_bind].
  replace (from [_; c1; c2; c3] _) with (Ok [c1; c2; c3]) by done. cbn [mbind res_bind take].
  change (Z.land (b2z xc0) 3 + 1) with 1.
  replace ((xc0 :: tl) ++ p_number p :: xs ++ ct ++ rest) with (a ++ xs ++ ct ++ rest)
    by (unfold a; by rewrite <- app_assoc).
  rewrite (copy_at_mid a xs [c1; c2; c3]) by (done || len).
  change ([c1; c2; c3] ++ ct ++ rest) with ((c1 :: c2 :: c3 :: ct) ++ rest).
  rewrite (slice_mid a _ rest (1 + zlen tl + 1)) by (unfold p_length; cbn [packetLen]; len).
  cbn [or_panic mbind res_bind]. change (a ++ ?l) with ([] ++ a ++ l).
  rewrite slice_mid by len. cbn [or_panic mbind res_bind]. rewrite <- Ect.
  change (packet_secret _ _ _) with (p_secret p).
  change (hkdfExpandLabel hkdf_Expand (p_secret p) [] (lit "quic key") 16) with (p_key p "quic key" 16).
  change (hkdfExpandLabel hkdf_Expand (p_secret p) [] (lit "quic iv") 12) with (p_key p "quic iv" 12).
  unfold p_sealed. fold tl. change (xc0 :: tl ++ [p_number p]) with a. by rewrite open_seal.
Qed.

Abbreviation round := (packet_round hkdf_Extract hkdf_Expand aes_Encrypt aead_Open varint_Read).

(** What the sniffer makes of the crypto data after a packet. *)
Definition attempt (s : Z * bytes) : option (res bytes) := TlsSniff.ReadClientHello (take (Z.to_nat s.1) s.2).

(** A sealed packet is read up to its payload. *)
Lemma round_sealed p c rest spare :
  packet_ok p -> zlen (seal p ++ rest) < 2 ^ 31 ->
  round c (seal p ++ rest) spare =
  match frames varint_Read (S (length (p_payload p))) c (FromBytes (p_payload p)) with
  | Some (Ok c) =>
    match BytesRange (cryptoDataBuf c) 0 (i32 (cryptoLen c)) with
    | Ok hello =>
      match TlsSniff.ReadClientHello hello with
      | Some (Ok domain) => Some (Ok (inr domain))
      | Some (Err _) => Some (Ok (inl (c, rest)))
      | Some Panic => Some Panic
      | None => None
      end
    | Err e => Some (Err e)
    | Panic => Some Panic
    end
  | Some (Err e) => Some (Err e)
  | Some Panic => Some Panic
  | None => None
  end.
Proof using open_seal aes_block varint_eats.
  intros Hp Hl. pose proof (decrypt_sealed p rest spare Hp) as D.
  destruct Hp as [Hv Hd Hs Ht Hpl Hse]. unfold packet_round.
  destruct (FromBytes_content _ Hl) as [Hb Hc].
  unfold seal in *. cbv zeta in *. set (mask := aes_Encrypt _ _) in *.
  set (fb := xor xc0 _) in *. set (pn := xor (p_number p) _) in *. set (ct := p_sealed p) in *.
  set (hd := fb :: p_tail p). set (b := (fb :: p_tail p ++ pn :: ct) ++ rest) in *.
  assert (Eb : b = hd ++ (pn :: ct) ++ rest) by (unfold b, hd; cbn [app]; by rewrite <- !app_assoc).
  assert (Htl : zlen (p_token p) <= zlen (p_tail p)) by (unfold p_tail, header_tail; rewrite !zlen_app; len).
  pose proof (zlen_nonneg rest). pose proof (zlen_nonneg (p_tail p)).
  assert (Hbl : zlen b = 1 + zlen (p_tail p) + p_length p + zlen rest)
    by (rewrite Eb; unfold hd, p_length; len).
  assert (Hpn : 20 <= p_length p < 2 ^ 31) by (unfold p_length; lia).
  assert (E : eats (read_header varint_Read (zlen b)) hd (mkHeader (p_version p) true (p_dcid p) (p_length p))).
  { unfold hd, p_tail. apply eats_header; try done; [|lia|lia|lia].
    apply masked_initial. }
  rewrite Eb in Hc at 2. rewrite (E _ _ Hb Hc). destruct (popped _ _ _ Hb Hc) as [Hb' Hc'].
  rewrite (Len_wf _ Hb'), Hc'. cbn [packetLen isQuicInitial].
  replace (zlen b - zlen ((pn :: ct) ++ rest)) with (1 + zlen (p_tail p)) by (rewrite Eb; unfold hd; len).
  replace (zlen b <? _) with false by lia.
  replace (from b _) with (Ok rest).
  2:{ rewrite Eb, app_assoc. symmetry. apply from_app. unfold hd, p_length. len. }
  cbn [negb]. by rewrite D.
Qed.

(** A packet of frames, from the crypto data [s]: it goes on or has found the name. *)
Lemma round_frames p fs s rest spare :
  packet_ok p -> zlen (seal p ++ rest) < 2 ^ 31 -> crypto_ok s ->
  Forall frame_ok fs -> p_payload p = concat (map encode fs) ->
  round (crypto_of s) (seal p ++ rest) spare =
  match attempt (foldl place s fs) with
  | Some (Ok domain) => Some (Ok (inr domain))
  | Some (Err _) => Some (Ok (inl (crypto_of (foldl place s fs), rest)))
  | Some Panic => Some Panic
  | None => None
  end.
Proof using open_seal aes_block varint_eats varint_nonempty.
  intros Hp Hl Hs Hfs Hpl. rewrite round_sealed by done.
  pose proof (po_payload p Hp). destruct (FromBytes_content (p_payload p) ltac:(lia)) as [Hb Hc].
  rewrite (frames_spec fs Hfs) by (done || rewrite ?Hc; (done || lia)).
  assert (Hs' : crypto_ok (foldl place s fs)).
  { clear -Hs Hfs. revert s Hs. induction Hfs as [|f fs Hf _ IH]; intros s Hs; [done|]. by apply IH, place_ok. }
  set (s' := foldl place s fs) in *. destruct Hs' as [Hs1 Hs2].
  replace (BytesRange _ _ _) with (Ok (take (Z.to_nat s'.1) s'.2)); [done|]. symmetry.
  unfold BytesRange, crypto_of. cbn [cryptoDataBuf cryptoLen start end_ v].
  rewrite !(i32_small s'.1) by lia. change (0 <? 0) with false. replace (s'.1 <? 0) with false by lia.
  rewrite !i32_small by lia. rewrite slice_Some by lia. cbn [or_panic].
  change (Z.to_nat (0 + 0)) with 0%nat. rewrite drop_0. do 2 f_equal. lia.
Qed.

(** ** Putting the ClientHello together *)

(** The datagrams of a client: its packets, each with its frames. *)
Definition flight := list (packet * list frame).
Definition flight_ok (l : flight) : Prop :=
  Forall (fun e => packet_ok e.1 /\ Forall frame_ok e.2 /\ p_payload e.1 = concat (map encode e.2)) l.
Definition wire (l : flight) : bytes := concat (map (fun e => seal e.1) l).
Definition all_frames (l : flight) : list frame := concat (map snd l).

(** The CRYPTO frames carry pieces of [m], and every byte of [m] is in one. *)
Definition piece_of (m : bytes) (f : frame) : Prop :=
  match f with
  | CRYPTO o d => o + zlen d <= zlen m /\ d = take (length d) (drop (Z.to_nat o) m)
  | _ => True
  end.
Definition covered (fs : list frame) (i : nat) : Prop :=
  exists o d, CRYPTO o d ∈ fs /\ o <= Z.of_nat i < o + zlen d.

Lemma copy_at_lookup (a d : bytes) o i :
  (o + length d <= length a)%nat ->
  (copy_at a o d).1 !! i = if decide (o <= i < o + length d)%nat then d !! (i - o)%nat else a !! i.
Proof.
  intros Hl. unfold copy_at. cbn [fst]. replace (_ `min` _)%nat with (length d) by lia.
  rewrite firstn_all. destruct (decide _) as [Hi|Hi].
  - rewrite lookup_app_r, length_take_le by (rewrite ?length_take; lia). by rewrite lookup_app_l by lia.
  - destruct (decide (i < o)%nat).
    + rewrite lookup_app_l by (rewrite length_take; lia). by rewrite lookup_take_lt.
    + rewrite lookup_app_r, length_take_le by (rewrite ?length_take; lia). rewrite lookup_app_r by lia.
      rewrite lookup_drop. f_equal. lia.
Qed.

Lemma placed_frames m fs : Forall frame_ok fs -> Forall (piece_of m) fs -> forall s done,
  crypto_ok s -> s.1 <= zlen m -> (forall i, covered done i -> s.2 !! i = m !! i /\ Z.of_nat i < s.1) ->
  let s' := foldl place s fs in
  crypto_ok s' /\ s'.1 <= zlen m /\ (forall i, covered (done ++ fs) i -> s'.2 !! i = m !! i /\ Z.of_nat i < s'.1).
Proof using.
  induction 1 as [|f fs Hf _ IH]; intros Hp s done Hs Hm Hd; cbn [foldl].
  - rewrite app_nil_r. by split_and!.
  - apply Forall_cons in Hp as [Hpf Hp]. rewrite cons_middle, app_assoc.
    apply (IH Hp (place s f) (done ++ [f])); [by apply place_ok|..]; destruct f as [| | |o d];
      cbn [place fst snd]; try done.
    1:{ destruct Hpf as [Hpf _]. lia. }
    4:{ destruct Hs as [Hs1 Hs2]. destruct Hf as (Ho & _ & Hod). destruct Hpf as [Hpm Hpd].
        intros i (o' & d' & Hin & Hi). rewrite copy_at_lookup by len.
        apply elem_of_app in Hin as [Hin|Hin%list_elem_of_singleton].
        - destruct (Hd i) as [E Hlt]; [by exists o', d'|]. split; [|lia]. destruct (decide _) as [Hj|]; [|done].
          rewrite Hpd. rewrite lookup_take_lt by lia. rewrite lookup_drop. f_equal. lia.
        - injection Hin as -> ->. rewrite decide_True by len. split; [|lia].
          rewrite Hpd. rewrite lookup_take_lt by len. rewrite lookup_drop. f_equal. len. }
    all: intros i (o' & d' & [Hin|Hin%list_elem_of_singleton]%elem_of_app & Hi); [|done]; apply Hd; by exists o', d'.
Qed.

(** Frames that carry all of [m] leave exactly [m]. *)
Lemma reassembled m fs recycled :
  zlen recycled = 32768 -> m <> [] -> Forall frame_ok fs -> Forall (piece_of m) fs ->
  (forall i, (i < length m)%nat -> covered fs i) ->
  attempt (foldl place (0, recycled) fs) = TlsSniff.ReadClientHello m.
Proof using.
  intros Hr Hm Hfs Hp Hc. unfold attempt.
  destruct (placed_frames m fs Hfs Hp (0, recycled) []) as (Hs & Hle & Hall).
  - by split.
  - apply zlen_nonneg.
  - by intros i (o & d & Hin%elem_of_nil & _).
  - set (s := foldl place (0, recycled) fs) in *. cbn [app] in Hall. f_equal.
    assert (He : s.1 = zlen m).
    { destruct (Hall (length m - 1)%nat) as [_ H]; [apply Hc; destruct m; [done|cbn; lia]|].
      assert (0 < length m)%nat by (destruct m; [done|cbn; lia]). len. }
    rewrite He. replace (Z.to_nat (zlen m)) with (length m) by len. apply list_eq. intros i.
    destruct (decide (i < length m)%nat) as [Hi|Hi].
    + rewrite lookup_take_lt by done. by apply Hall, Hc.
    + rewrite lookup_take_ge by lia. symmetry. apply lookup_ge_None. lia.
Qed.

Lemma seal_nonempty p : (0 < length (seal p))%nat.
Proof using. unfold seal. cbv zeta. cbn [length]. lia. Qed.

(** The packets one after another: until the last no attempt succeeds. *)
Lemma packets_flight l : l <> [] -> flight_ok l -> forall fuel s rest spare domain,
  crypto_ok s -> zlen (wire l ++ rest) < 2 ^ 31 -> (length (wire l ++ rest) <= fuel)%nat ->
  (forall l1 l2, l = l1 ++ l2 -> l1 <> [] -> l2 <> [] ->
     ~ exists d, attempt (foldl place s (all_frames l1)) = Some (Ok d)) ->
  attempt (foldl place s (all_frames l)) = Some (Ok domain) ->
  packets hkdf_Extract hkdf_Expand aes_Encrypt aead_Open varint_Read fuel (crypto_of s) (wire l ++ rest) spare =
    Some (Ok domain).
Proof using open_seal aes_block varint_eats varint_nonempty.
  intros Hn Hl. induction Hl as [|[p fs] l (Hp & Hfs & Hpl) Hl IH]; [done|]. clear Hn. cbn [fst snd] in *.
  intros fuel s rest spare domain Hs Hlen Hf Hno Hyes. unfold wire in *. cbn [map concat fst] in *.
  rewrite <- app_assoc in *. set (tl := concat _ ++ rest) in *. pose proof (seal_nonempty p).
  rewrite length_app in Hf. destruct fuel as [|fuel]; [lia|]. cbn [packets].
  replace (_ <=? 0) with false by len. rewrite (round_frames p fs) by done.
  unfold all_frames in *. cbn [map concat snd] in *. rewrite foldl_app in Hyes.
  assert (Hs' : crypto_ok (foldl place s fs)).
  { clear -Hs Hfs. revert s Hs. induction Hfs as [|f fs Hf _ IH]; intros s Hs; [done|]. by apply IH, place_ok. }
  destruct (decide (l = [])) as [->|Hne].
  - cbn [map concat foldl] in Hyes. by rewrite Hyes.
  - destruct (TlsSniff.ReadClientHello_settled (take (Z.to_nat (foldl place s fs).1) (foldl place s fs).2)) as (r & Er & Hr).
    change (TlsSniff.ReadClientHello _) with (attempt (foldl place s fs)) in Er. rewrite Er.
    destruct r as [d|e|]; [|..|done].
    + exfalso. apply (Hno [(p, fs)] l); [done|done|done|]. exists d. cbn [map concat snd]. by rewrite app_nil_r.
    + assert (zlen tl < 2 ^ 31) by (rewrite zlen_app in Hlen; pose proof (zlen_nonneg (seal p)); lia).
      apply IH; [done|done|done|change (length tl <= fuel)%nat; lia| |done]. intros l1 l2 -> Hl1 Hl2 [d Hd].
      apply (Hno ((p, fs) :: l1) l2); [done|done|done|]. exists d. cbn [map concat snd]. by rewrite foldl_app.
Qed.

(** C16. Sniffing QUIC puts the ClientHello together: a client that cuts it into pieces,
    sends the pieces in CRYPTO frames in any order, twice if it likes, with padding,
    pings and acknowledgements among them, in one sealed Initial packet or over several,
    is sniffed with the server name of the ClientHello.  The packets have packet numbers
    of one byte, and less than 2^31 bytes arrive in all.  The attempts on the packets
    before the last are assumed to find nothing, as the array they read starts with the
    bytes of an earlier use. *)
Theorem quic_sniff_reassembles (l : flight) (h : TlsSniff.ClientHello) (recycled rest spare : bytes) :
  flight_ok l -> TlsSniff.hello_ok h ->
  Forall (piece_of (TlsSniff.encode_hello h)) (all_frames l) ->
  (forall i, (i < length (TlsSniff.encode_hello h))%nat -> covered (all_frames l) i) ->
  zlen recycled = 32768 -> zlen (wire l ++ rest) < 2 ^ 31 ->
  (forall l1 l2, l = l1 ++ l2 -> l1 <> [] -> l2 <> [] ->
     ~ exists d, attempt (foldl place (0, recycled) (all_frames l1)) = Some (Ok d)) ->
  SniffQUIC hkdf_Extract hkdf_Expand aes_Encrypt aead_Open varint_Read recycled (wire l ++ rest) spare =
    Some (Ok (TlsSniff.sni h)).
Proof using open_seal aes_block varint_eats varint_nonempty.
  intros Hl Hh Hp Hc Hr Hlen Hno.
  assert (Hm : TlsSniff.encode_hello h <> []).
  { pose proof (TlsSniff.ho_preamble h Hh) as H. unfold TlsSniff.encode_hello. by destruct (TlsSniff.preamble h). }
  assert (Hfs : Forall frame_ok (all_frames l)).
  { clear -Hl. induction Hl as [|e l (_ & Hf & _) _ IH]; [constructor|]. apply Forall_app. by split. }
  assert (Hn : l <> []).
  { intros ->. destruct (Hc 0%nat) as (o & d & Hin & _); [destruct (TlsSniff.encode_hello h); [done|cbn; lia]|].
    by apply elem_of_nil in Hin. }
  unfold SniffQUIC. destruct (zlen _ =? 0) eqn:E.
  - exfalso. destruct l as [|e l]; [done|]. unfold wire in E. cbn [map concat] in E.
    pose proof (seal_nonempty e.1). len.
  - change (mkCrypto 0 (cryptoBuf recycled)) with (crypto_of (0, recycled)).
    apply packets_flight; [done|done|by split|done|lia|done|].
    rewrite (reassembled (TlsSniff.encode_hello h)) by done. by apply TlsSniff.ReadClientHello_hello.
Qed.

(** ** Frames that make the sniffer panic *)
Lemma crypto_data_far c o n b :
  cryptoLen c = 0 -> start (cryptoDataBuf c) = 0 -> end_ (cryptoDataBuf c) = 0 -> zlen (v (cryptoDataBuf c)) = 32768 ->
  buf_wf b -> 0 <= n <= zlen (content b) -> 2 ^ 31 <= o + n < 2 ^ 32 ->
  crypto_data c o n b = (b, Panic).
Proof using.
  destruct c as [cl [w st e own]]. cbn [cryptoLen cryptoDataBuf start end_ v]. intros -> -> -> Hw Hb Hn Ho.
  unfold crypto_data. rewrite Len_wf by done. replace (_ <? n) with false by lia.
  unfold grow. cbn [cryptoLen cryptoDataBuf]. unfold Len, Cap. cbn [start end_ v].
  assert (Ei : i32 (o + n) = o + n - 2 ^ 32).
  { unfold i32. replace (o + n + 2 ^ 31) with ((o + n - 2 ^ 31) + 1 * 2 ^ 32) by lia.
    rewrite Z.mod_add, Z.mod_small by lia. lia. }
  rewrite Ei, Hw. change (i32 (0 - 0)) with 0. change (i32 32768) with 32768.
  rewrite (i32_small (o + n - 2 ^ 32 - 0)) by lia.
  replace (0 <? _) with true by lia. replace (32768 <? _) with false by lia.
  replace (_ =? _) with false by lia. cbn [negb]. unfold Extend. cbn [start end_ v].
  rewrite (i32_small (0 + _)) by lia. rewrite Hw. replace (32768 <? _) with false by lia.
  unfold slice. by replace (_ && _) with false by lia.
Qed.

(** C35. Anyone who can send a QUIC packet through an inbound that sniffs can make
    the process panic: the keys of an Initial packet are public, and a CRYPTO frame
    whose end is between 2^31 and 2^32 grows the crypto buffer by the negative
    int32 that the offset wraps to. *)
Theorem quic_far_offset_panics (p : packet) (o : Z) (d recycled rest spare : bytes) :
  packet_ok p -> p_payload p = x06 :: varint o ++ varint (zlen d) ++ d ->
  2 ^ 31 <= o + zlen d < 2 ^ 32 -> is_varint o ->
  zlen recycled = 32768 -> zlen (seal p ++ rest) < 2 ^ 31 ->
  SniffQUIC hkdf_Extract hkdf_Expand aes_Encrypt aead_Open varint_Read recycled (seal p ++ rest) spare = Some Panic.
Proof using open_seal aes_block varint_eats.
  intros Hp Hpl Ho Hv Hr Hl. unfold SniffQUIC. pose proof (seal_nonempty p).
  replace (_ =? 0) with false by len. cbn [packets]. replace (_ <=? 0) with false by len.
  rewrite round_sealed by done. pose proof (po_payload p Hp). pose proof (zlen_nonneg d).
  destruct (FromBytes_content (p_payload p) ltac:(lia)) as [Hb Hc]. rewrite Hpl in Hc at 2.
  cbn [frames]. rewrite IsEmpty_wf, Hc by done. rewrite bool_decide_eq_false_2 by done.
  unfold frame_round. rewrite (frame_round_type _ x06 (varint o ++ varint (zlen d) ++ d)) by done.
  change (b2z x06) with 6. change (6 =? 0) with false. change (6 =? 1) with false.
  change ((6 =? 2) || (6 =? 3)) with false. change (6 =? 6) with true. cbn match.
  destruct (popped _ [x06] _ Hb Hc) as [Hb' Hc']. change (zlen [x06]) with 1 in *.
  unfold crypto_frame, mbind, st_bind.
  rewrite (eats_varint o Hv _ _ Hb' Hc'). destruct (popped _ _ _ Hb' Hc') as [Hb2 Hc2].
  assert (zlen d <= zlen (p_payload p)).
  { rewrite Hpl, zlen_cons, !zlen_app. pose proof (zlen_nonneg (varint o)).
    pose proof (zlen_nonneg (varint (zlen d))). lia. }
  rewrite (eats_varint (zlen d) ltac:(lia) _ _ Hb2 Hc2). destruct (popped _ _ _ Hb2 Hc2) as [Hb3 Hc3].
  rewrite crypto_data_far; try done. rewrite Hc3. lia.
Qed.
End Crypto.
End Varint.

(** ** Instances of the parameters, to show that the hypotheses can hold *)
Definition varint_class (x : Z) : Z * nat :=
  if x <? 2 ^ 6 then (0, 0%nat) else if x <? 2 ^ 14 then (1, 1%nat) else
  if x <? 2 ^ 30 then (2, 3%nat) else (3, 7%nat).
Definition varint0 (x : Z) : bytes :=
  let '(k, n) := varint_class x in put_be (S n) (x + k * 64 * 256 ^ Z.of_nat n).
Definition varint_Read0 : ST Buffer Z :=
  first ← ReadByte;
  rest ← ReadBytes (2 ^ (b2z first / 64) - 1);
  mret ((b2z first mod 64) * 256 ^ zlen rest + get_be rest).

Lemma varint0_eats x : is_varint x -> eats varint_Read0 (varint0 x) x.
Proof.
  intros Hx.
  assert (E : forall k n, (k = 0 /\ n = 0 \/ k = 1 /\ n = 1 \/ k = 2 /\ n = 3 \/ k = 3 /\ n = 7)%nat ->
    x < 64 * 256 ^ Z.of_nat n -> eats varint_Read0 (put_be (S n) (x + Z.of_nat k * 64 * 256 ^ Z.of_nat n)) x).
  { intros k n Hkn Hlt. set (B := 256 ^ Z.of_nat n) in *. assert (HB : 0 < B) by (unfold B; lia).
    cbn [put_be]. fold B. set (y := x + Z.of_nat k * 64 * B).
    assert (Hy : y / B = Z.of_nat k * 64 + x / B) by (unfold y; rewrite Z.div_add by lia; lia).
    assert (Hq : 0 <= x / B < 64) by (split; [apply Z.div_pos; lia|apply Z.div_lt_upper_bound; lia]).
    assert (Hb : b2z (z2b (y / B)) = Z.of_nat k * 64 + x / B) by (rewrite Hy; apply z2b_small; lia).
    change (z2b ?a :: ?l) with ([z2b a] ++ l). unfold varint_Read0.
    eapply eats_bind; [apply eats_ReadByte|]. cbn beta. rewrite Hb.
    replace ((Z.of_nat k * 64 + x / B) / 64) with (Z.of_nat k) by (rewrite Z.add_comm, Z.div_add, Z.div_small; lia).
    replace (2 ^ Z.of_nat k - 1) with (zlen (put_be n y))
      by (rewrite zlen_put_be; destruct Hkn as [[-> ->]|[[-> ->]|[[-> ->]|[-> ->]]]]; done).
    eapply eats_last; [apply eats_ReadBytes; rewrite zlen_put_be; lia|]. cbn beta. f_equal.
    rewrite zlen_put_be, get_put_be. fold B.
    replace ((Z.of_nat k * 64 + x / B) mod 64) with (x / B) by (rewrite Z.add_comm, Z.mod_add, Z.mod_small; lia).
    unfold y. rewrite Z.mod_add by lia. pose proof (Z.div_mod x B ltac:(lia)). lia. }
  unfold varint0, varint_class.
  destruct (Z.ltb_spec x (2 ^ 6)); [apply (E 0%nat 0%nat); lia|].
  destruct (Z.ltb_spec x (2 ^ 14)); [apply (E 1%nat 1%nat); lia|].
  destruct (Z.ltb_spec x (2 ^ 30)); [apply (E 2%nat 3%nat); lia|].
  apply (E 3%nat 7%nat); lia.
Qed.

Lemma varint0_nonempty x : is_varint x -> varint0 x <> [].
Proof. intros _. unfold varint0. by destruct (varint_class x). Qed.

Definition extract0 (secret salt : bytes) : bytes := secret.
Definition expand0 (prk info : bytes) (n : Z) : bytes := replicate (Z.to_nat n) x07.
Definition aes0 (key block : bytes) : bytes := replicate 16 x5a.
Definition seal0 (key iv nonce pt aad : bytes) : bytes := pt ++ replicate 16 x00.
Definition open0 (key iv nonce ct aad : bytes) : option bytes := Some (take (length ct - 16) ct).

Lemma open_seal0 key iv nonce pt aad : open0 key iv nonce (seal0 key iv nonce pt aad) aad = Some pt.
Proof.
  unfold open0, seal0. f_equal. apply take_app_length'. rewrite length_app, length_replicate. lia.
Qed.

Lemma aes_block0 key block : length (aes0 key block) = 16%nat.
Proof. apply length_replicate. Qed.

Definition hello1 : bytes := TlsSniff.encode_hello TlsSniff.hello0.
Definition frames1 : list frame := [PING; CRYPTO 50 (drop 50 hello1); PADDING; PADDING].
Definition frames2 : list frame := [ACK 3 0 0 [(1, 1)]; CRYPTO 0 (take 55 hello1); PADDING].
Definition packet1 (number : byte) (fs : list frame) : packet :=
  mkPacket version1 [x01; x02; x03] [] (lit "token") number (concat (map (encode varint0) fs)).
Definition flight1 : flight := [(packet1 x00 frames1, frames1); (packet1 x01 frames2, frames2)].

Lemma flight1_ok : flight_ok varint0 extract0 expand0 seal0 flight1.
Proof.
  constructor; [|constructor; [|constructor]]; (split; [|split; [|reflexivity]]).
  1, 3: constructor; try (left; reflexivity); vm_compute; try done; split; discriminate || reflexivity.
  all: repeat constructor; try (vm_compute; discriminate); try (vm_compute; reflexivity); vm_compute; intros [=].
Qed.

Lemma flight1_covers i : (i < length hello1)%nat -> covered (all_frames flight1) i.
Proof.
  intros Hi. change (all_frames _) with (frames1 ++ frames2). unfold covered. destruct (decide (i < 55)%nat).
  - exists 0, (take 55 hello1). split; [by do 5 right; left|]. change (zlen _) with 55. lia.
  - exists 50, (drop 50 hello1). split; [by right; left|].
    change (zlen _) with (Z.of_nat (length hello1) - 50). lia.
Qed.

Lemma quic_sniff_reassembles_witness :
  SniffQUIC extract0 expand0 aes0 open0 varint_Read0 (replicate 32768 xff)
    (wire varint0 extract0 expand0 aes0 seal0 flight1 ++ lit "rest") [] = Some (Ok (lit "example.org")).
Proof.
  apply (quic_sniff_reassembles varint_Read0 varint0 varint0_eats varint0_nonempty
           extract0 expand0 aes0 open0 seal0 open_seal0 aes_block0 flight1 TlsSniff.hello0).
  - exact flight1_ok.
  - constructor; try (vm_compute; done); try (repeat constructor; vm_compute; done).
  - repeat constructor; vm_compute; discriminate.
  - exact flight1_covers.
  - reflexivity.
  - vm_compute. reflexivity.
  - intros [|x [|y l1]] l2 E H1 H2; [done| |].
    + injection E as <- <-. intros [d Hd]. vm_compute in Hd. discriminate Hd.
    + injection E as _ _ E. destruct l1; [|done]. by destruct l2.
Defined.

Definition packet2 : packet :=
  mkPacket version1 [x01; x02; x03] [] [] x00 (x06 :: varint0 (2 ^ 31) ++ varint0 (zlen (lit "abc")) ++ lit "abc").

Lemma quic_far_offset_panics_witness :
  SniffQUIC extract0 expand0 aes0 open0 varint_Read0 (replicate 32768 xff)
    (seal varint0 extract0 expand0 aes0 seal0 packet2 ++ []) [] = Some Panic.
Proof.
  apply (quic_far_offset_panics varint_Read0 varint0 varint0_eats
           extract0 expand0 aes0 open0 seal0 open_seal0 aes_block0 packet2 (2 ^ 31) (lit "abc")).
  - constructor; try (left; reflexivity); vm_compute; try done; split; discriminate || reflexivity.
  - reflexivity.
  - vm_compute. split; [discriminate|reflexivity].
  - vm_compute. split; [discriminate|reflexivity].
  - reflexivity.
  - vm_compute. reflexivity.
Defined.
End QuicSpec.
