(* ===== verification/SniffQuicEnds.v ===== *)
(** * Sniffing QUIC ends

    Every round of every loop of [SniffQUIC] takes a byte of the packet, so the
    fuel of the model, the bytes that are left, never runs out. *)
From S2P Require Import Prelude GoStd Buf GoText Sniff SniffBt SniffQuic.
Import Buf BtSniff QuicSniff.

Module QuicEnds.

(** [m] leaves the buffer well formed, and takes at least [n] bytes when it succeeds. *)
Definition progress {A} (m : ST Buffer A) (n : nat) (Q : A -> Prop) : Prop :=
  forall b, buf_wf b -> buf_wf (m b).1 /\
    (forall a, (m b).2 = Ok a -> Q a /\ (length (content (m b).1) + n <= length (content b))%nat).

Abbreviation any := (fun _ => True).

Lemma progress_ret {A} (a : A) : progress (mret a) 0 any.
Proof. intros b Hb. split; [done|]. intros ? _. split; [done|cbn; lia]. Qed.

Lemma progress_err {A} e n (Q : A -> Prop) : progress (st_err e) n Q.
Proof. intros b Hb. by split. Qed.

Lemma progress_bind {A B} (m : ST Buffer A) (f : A -> ST Buffer B) n k Q T :
  progress m n Q -> (forall a, Q a -> progress (f a) k T) -> progress (m ≫= f) (n + k) T.
Proof.
  intros Hm Hf b Hb. destruct (Hm b Hb) as [Hb1 HQ]. unfold mbind, st_bind.
  destruct (m b) as [b1 [a|e|]]; cbn [fst snd] in *; [|by split..].
  destruct (HQ a eq_refl) as [Ha Hl]. destruct (Hf a Ha b1 Hb1) as [Hb2 HT]. split; [done|].
  intros c Hc. destruct (HT c Hc). split; [done|lia].
Qed.

Lemma progress_weaken {A} (m : ST Buffer A) n k (Q : A -> Prop) : (k <= n)%nat -> progress m n Q -> progress m k any.
Proof. intros Hk Hm b Hb. destruct (Hm b Hb) as [? HQ]. split; [done|]. intros a Ha. destruct (HQ a Ha). split; [done|lia]. Qed.

Lemma progress_or_err {A} (m : ST Buffer A) n Q e : progress m n Q -> progress (or_err m e) n Q.
Proof.
  intros Hm b Hb. destruct (Hm b Hb) as [? HQ]. unfold or_err. by destruct (m b) as [b' [a|?|]].
Qed.

Lemma progress_lift {A} (r : res A) : progress (st_lift r) 0 any.
Proof. intros b Hb. split; [done|]. intros ? _. split; [done|cbn; lia]. Qed.

Lemma progress_ReadByte : progress ReadByte 1 any.
Proof.
  intros b Hb. rewrite ReadByte_wf by done. destruct (content b) as [|x c] eqn:E; [by split|]. cbn [fst snd].
  assert (1 <= zlen (content b)) by (rewrite E, zlen_cons; pose proof (zlen_nonneg c); lia).
  split; [apply pop_wf; [done|lia]|]. intros _ _. split; [done|]. rewrite pop_content, E by (done || lia). change (Z.to_nat 1) with 1%nat. cbn [drop length]. rewrite drop_0. lia.
Qed.

Lemma progress_ReadBytes n : - 2 ^ 31 <= n < 2 ^ 31 -> progress (ReadBytes n) 0 any.
Proof.
  intros Hn b Hb. destruct (Z.ltb_spec n 0).
  - rewrite ReadBytes_neg by (done || lia). by split.
  - rewrite ReadBytes_wf by (done || lia). destruct (_ <=? _) eqn:E; [|by split]. cbn [fst snd].
    split; [apply pop_wf; [done|lia]|]. intros _ _. split; [done|]. rewrite pop_content by (done || lia).
    rewrite length_drop. lia.
Qed.

Lemma i32_range z : - 2 ^ 31 <= i32 z < 2 ^ 31.
Proof. unfold i32. pose proof (Z.mod_pos_bound (z + 2 ^ 31) (2 ^ 32)). lia. Qed.

Section Ends.
Variable hkdf_Extract : bytes -> bytes -> bytes.
Variable hkdf_Expand : bytes -> bytes -> Z -> bytes.
Variable aes_Encrypt : bytes -> bytes -> bytes.
Variable aead_Open : bytes -> bytes -> bytes -> bytes -> bytes -> option bytes.
Variable varint_Read : ST Buffer Z.

(** quicvarint.Read reads at least a byte; what AES-GCM opens is no longer than
    what it is given. *)
Hypothesis varint_progress : progress varint_Read 1 any.
Hypothesis open_shorter : forall key iv nonce ct aad pt,
  aead_Open key iv nonce ct aad = Some pt -> (length pt <= length ct)%nat.

Abbreviation vr := (unexpected varint_Read).
Lemma progress_varint : progress vr 1 any.
Proof. by apply progress_or_err. Qed.

(** [o] has a result; the buffer stays well formed and does not grow. *)
Definition ends {A} (o : option (Buffer * res A)) (b : Buffer) : Prop :=
  exists b' r, o = Some (b', r) /\ buf_wf b' /\ (forall a, r = Ok a -> (length (content b') <= length (content b))%nat).

Lemma ends_progress {A} (m : ST Buffer A) Q b : progress m 0 Q -> buf_wf b -> ends (Some (m b)) b.
Proof.
  intros Hm Hb. destruct (Hm b Hb) as [Hb' HQ]. destruct (m b) as [b' r]. exists b', r. cbn [fst snd] in *.
  split_and!; [done|done|]. intros a Ha. destruct (HQ a Ha). lia.
Qed.

Lemma ack_ranges_ends fuel count b : buf_wf b -> (length (content b) < fuel)%nat -> ends (ack_ranges varint_Read fuel count b) b.
Proof.
  revert count b. induction fuel as [|fuel IH]; intros count b Hb Hf; [lia|]. cbn [ack_ranges].
  destruct (count <=? 0); [by eexists _, _|].
  assert (P : progress (_ ← vr; vr) (1 + 1) any).
  { eapply progress_bind; [apply progress_varint|]. intros _ _. apply progress_varint. }
  destruct (P b Hb) as [Hb' HQ]. match goal with H : buf_wf (?m b).1 |- _ => destruct (m b) as [b' [a|e|]] end;
    cbn [fst snd] in *; [|by eexists _, _..].
  destruct (HQ a eq_refl) as [_ Hl]. destruct (IH (count - 1) b' Hb' ltac:(lia)) as (b2 & r & -> & ? & H).
  exists b2, r. split_and!; [done|done|]. intros x Hx. specialize (H x Hx). lia.
Qed.

Lemma ack_frame_ends t b : buf_wf b -> ends (ack_frame varint_Read t b) b.
Proof.
  intros Hb. unfold ack_frame.
  assert (P : progress (ack_head varint_Read) 0 any).
  { unfold ack_head. do 4 (apply (progress_bind _ _ 0 0 any); [eapply progress_weaken; [|apply progress_varint]; lia|intros ? _]).
    apply progress_ret. }
  destruct (P b Hb) as [Hb1 HQ]. destruct (ack_head varint_Read b) as [b1 [n|e|]]; cbn [fst snd] in *; [|by eexists _, _..].
  destruct (HQ n eq_refl) as [_ Hl]. pose proof (zlen_content b Hb) as Hz.
  assert (length (content b) <= length (v b))%nat by (unfold buf_wf, zlen in *; lia).
  destruct (ack_ranges_ends (S (length (v b))) n b1 Hb1 ltac:(lia)) as (b2 & r & -> & Hb2 & Hr).
  destruct r as [[]|e|]; [|by eexists _, _..]. specialize (Hr tt eq_refl).
  destruct (t =? 3).
  - assert (P3 : progress (ecn_counts varint_Read) 0 any).
    { unfold ecn_counts. do 3 (apply (progress_bind _ _ 0 0 any); [eapply progress_weaken; [|apply progress_varint]; lia|intros ? _]).
      apply progress_ret. }
    destruct (ends_progress _ _ b2 P3 Hb2) as (b3 & r & -> & Hb3 & Hr3). exists b3, r. split_and!; [done|done|].
    intros x Hx. specialize (Hr3 x Hx). lia.
  - eexists _, _. split_and!; [done|done|]. intros _ _. lia.
Qed.

Lemma progress_Read n : progress (Buf.Read n) 0 any.
Proof.
  intros b Hb. destruct (decide (content b = [])) as [E|E].
  - rewrite Read_empty by done. by split.
  - destruct (Read_spec b Hb n E) as (b' & -> & Hb' & Hc & _). cbn [fst snd]. split; [done|].
    intros _ _. split; [done|]. rewrite Hc, length_drop. lia.
Qed.

Lemma progress_crypto_data c o n : progress (crypto_data c o n) 0 any.
Proof.
  intros b Hb. unfold crypto_data. destruct (_ <? _); [by split|].
  destruct (_ ≫= _) as [[c' w]|e|]; [|by split..].
  destruct (progress_or_err _ _ _ ErrUnexpectedEOF (progress_Read (Z.to_nat (w.2 - w.1))) b Hb) as [Hb' HQ].
  unfold unexpected. destruct (or_err _ _ b) as [b' [d|e|]]; cbn [fst snd] in *; [|by split..].
  destruct (HQ d eq_refl). split; [done|]. intros _ _. split; [done|lia].
Qed.

Lemma progress_crypto c : progress (crypto_frame varint_Read c) 0 any.
Proof.
  unfold crypto_frame. do 2 (apply (progress_bind _ _ 0 0 any); [eapply progress_weaken; [|apply progress_varint]; lia|intros ? _]).
  apply progress_crypto_data.
Qed.

Lemma progress_close : progress (close_frame varint_Read) 0 any.
Proof.
  unfold close_frame. do 3 (apply (progress_bind _ _ 0 0 any); [eapply progress_weaken; [|apply progress_varint]; lia|intros ? _]).
  apply (progress_bind _ _ 0 0 any); [|intros ? _; apply progress_ret].
  apply progress_or_err, progress_ReadBytes, i32_range.
Qed.

Lemma frame_type_progress fuel t b :
  buf_wf b -> (length (content b) < fuel)%nat ->
  buf_wf (frame_type fuel t b).1 /\ (length (content (frame_type fuel t b).1) <= length (content b))%nat /\
  (t = 0 -> content b <> [] -> (length (content (frame_type fuel t b).1) < length (content b))%nat).
Proof.
  revert t b. induction fuel as [|fuel IH]; intros t b Hb Hf; [lia|]. cbn [frame_type].
  rewrite IsEmpty_wf by done. destruct (content b) as [|x c] eqn:E.
  - rewrite bool_decide_eq_true_2 by done. cbn [negb]. rewrite andb_false_r. cbn [fst]. by rewrite E.
  - rewrite bool_decide_eq_false_2 by done. cbn [negb]. rewrite andb_true_r. destruct (t =? 0) eqn:Ht.
    + destruct (progress_ReadByte b Hb) as [Hb' HQ]. rewrite ReadByte_wf, E in * by done. cbn [fst snd] in *.
      destruct (HQ x eq_refl) as [_ Hl].
      destruct (IH (b2z x) (pop b 1) Hb' ltac:(lia)) as (H1 & H2 & _). split_and!; [done|lia|intros; lia].
    + cbn [fst]. rewrite E. split_and!; [done|lia|]. intros ->. done.
Qed.

Lemma frame_round_ends c b : buf_wf b -> content b <> [] ->
  exists b' r, frame_round varint_Read c b = Some (b', r) /\ buf_wf b' /\
    (forall a, r = Ok a -> (length (content b') < length (content b))%nat).
Proof.
  intros Hb Hn. unfold frame_round. pose proof (zlen_content b Hb) as Hz.
  assert (length (content b) <= length (v b))%nat by (unfold buf_wf, zlen in *; lia).
  destruct (frame_type_progress (S (length (v b))) 0 b Hb ltac:(lia)) as (Hb1 & _ & Hl). specialize (Hl eq_refl Hn).
  destruct (frame_type _ _ _) as [b1 t]. cbn [fst] in *.
  assert (K : forall (o : option (Buffer * res unit)), ends o b1 ->
    exists b' r, ((fun r : Buffer * res unit => match r with
      | (b', Ok _) => (b', Ok c) | (b', Err e) => (b', Err e) | (b', Panic) => (b', Panic) end) <$> o) = Some (b', r) /\
      buf_wf b' /\ (forall a, r = Ok a -> (length (content b') < length (content b))%nat)).
  { intros o (b' & r & -> & Hb' & Hr). cbn. destruct r as [u|e|]; eexists _, _; (split_and!; [done|done|]); [|done..].
    intros a _. specialize (Hr u eq_refl). lia. }
  destruct (t =? 0); [eexists _, _; by split_and!|]. destruct (t =? 1); [eexists _, _; by split_and!|].
  destruct (_ || _); [by apply K, ack_frame_ends|]. destruct (t =? 6).
  - destruct (ends_progress _ _ b1 (progress_crypto c) Hb1) as (b' & r & -> & Hb' & Hr).
    exists b', r. split_and!; [done|done|]. intros a Ha. specialize (Hr a Ha). lia.
  - destruct (t =? 28); [|by eexists _, _].
    apply (K (Some (close_frame varint_Read b1))), (ends_progress _ any); [apply progress_close|done].
Qed.

Lemma frames_ends fuel c b : buf_wf b -> (length (content b) <= fuel)%nat -> frames varint_Read fuel c b <> None.
Proof.
  revert c b. induction fuel as [|fuel IH]; intros c b Hb Hf; cbn [frames]; rewrite IsEmpty_wf by done;
    (destruct (bool_decide_reflect (content b = [])) as [E|E]; [done|]).
  - destruct (content b); [done|cbn in Hf; lia].
  - destruct (frame_round_ends c b Hb E) as (b' & r & -> & Hb' & Hr). destruct r as [c'|e|]; [|done..].
    apply IH; [done|]. specialize (Hr c' eq_refl). lia.
Qed.

(** ** Packets *)
Lemma progress_header n : progress (read_header varint_Read n) 0 (fun h => 4 <= packetLen h).
Proof.
  assert (B : forall A (m : ST Buffer A) (f : A -> ST Buffer header),
    progress m 0 any -> (forall a, progress (f a) 0 (fun h => 4 <= packetLen h)) ->
    progress (m ≫= f) 0 (fun h => 4 <= packetLen h)).
  { intros A m f Hm Hf. eapply (progress_bind m f 0 0); [exact Hm|]. intros a _. apply Hf. }
  assert (V : progress (or_err varint_Read errNotQuic) 0 any).
  { eapply progress_weaken; [|by apply progress_or_err]. lia. }
  assert (O : progress (or_err ReadByte errNotQuic) 0 any).
  { eapply progress_weaken; [|apply progress_or_err, progress_ReadByte]. lia. }
  assert (N : forall x : byte, progress (or_err (ReadBytes (b2z x)) errNotQuic) 0 any).
  { intros x. apply progress_or_err, progress_ReadBytes. pose proof (b2z_range x). lia. }
  unfold read_header. apply B; [done|]. intros t. destruct (_ || _); [apply progress_err|].
  apply B; [by apply progress_or_err, progress_ReadBytes|]. intros vb. apply B; [apply progress_lift|]. intros ver.
  destruct (_ && _); [apply progress_err|]. cbv zeta. apply B; [done|]. intros l. apply B; [done|]. intros dcid.
  apply B; [done|]. intros l'. apply B; [done|]. intros _. apply B.
  - destruct (_ =? 0); [|apply progress_ret]. apply (progress_bind _ _ 0 0 any); [done|]. intros tl _.
    destruct (_ <? _); [apply progress_err|]. apply progress_or_err, progress_ReadBytes, i32_range.
  - intros _. apply B; [done|]. intros pl. destruct (pl <? 4) eqn:E; [apply progress_err|].
    intros b Hb. split; [done|]. intros h [= <-]. cbn [packetLen fst mret st_ret]. split; lia.
Qed.

Lemma xor_at_len b i x b' : xor_at b i x = Ok b' -> length b' = length b.
Proof. unfold xor_at. destruct (index b i); [|done]. cbn. intros [= <-]. apply length_insert. Qed.

Lemma bind_Ok {A C} (m : res A) (f : A -> res C) c : (m ≫= f) = Ok c -> exists a, m = Ok a /\ f a = Ok c.
Proof. destruct m as [a|e|]; [|done..]. by exists a. Qed.

Lemma unmask_length m b n b' : unmask m b n = Ok b' -> length b' = length b.
Proof.
  unfold unmask. intros H. do 5 (apply bind_Ok in H as (? & _ & H)).
  do 4 (apply bind_Ok in H as (? & ?E%xor_at_len & H)). apply xor_at_len in H. congruence.
Qed.

Lemma copy_at_len (a : bytes) o d : length (copy_at a o d).1 = length a.
Proof. unfold copy_at. cbn [fst]. rewrite !length_app, !length_take, length_drop. lia. Qed.

Lemma decrypt_length h b spare n d :
  decrypt hkdf_Extract hkdf_Expand aes_Encrypt aead_Open h b spare n = Ok d -> (length d <= length b)%nat.
Proof.
  unfold decrypt. intros H. do 2 (apply bind_Ok in H as (? & _ & H)).
  apply bind_Ok in H as (b1 & E1%unmask_length & H). apply bind_Ok in H as (b0 & _ & H).
  destruct (negb _); [done|]. do 2 (apply bind_Ok in H as (? & _ & H)).
  apply bind_Ok in H as (data & E2 & H). apply bind_Ok in H as (aad & _ & H).
  destruct (slice _ _ (packetLen h + n)) as [data'|] eqn:E3; [|done]. injection E2 as ->.
  destruct (aead_Open _ _ _ _ _) as [pt|] eqn:E4; [|done]. injection H as <-. apply open_shorter in E4.
  apply slice_is_Some in E3 as (_ & _ & ->). rewrite length_take, length_drop, copy_at_len in E4. lia.
Qed.

Lemma packet_round_ends c b spare : zlen b < 2 ^ 31 ->
  exists r, packet_round hkdf_Extract hkdf_Expand aes_Encrypt aead_Open varint_Read c b spare = Some r /\
    (forall c' b', r = Ok (inl (c', b')) -> (length b' < length b)%nat).
Proof.
  intros Hl. unfold packet_round. destruct (FromBytes_content b Hl) as [Hb Hc].
  destruct (progress_header (zlen b) (FromBytes b) Hb) as [Hb1 HQ].
  destruct (read_header _ _ _) as [b1 [h|e|]]; cbn [fst snd] in *; [|by eexists..].
  destruct (HQ h eq_refl) as [Hh Hlen]. rewrite Hc in Hlen. rewrite (Len_wf b1 Hb1).
  set (n := zlen b - zlen (content b1)). assert (Hn : 0 <= n) by (unfold n, zlen; lia).
  destruct (zlen b <? n + packetLen h) eqn:E; [by eexists|]. rewrite from_drop by lia.
  assert (Hd : (length (drop (Z.to_nat (n + packetLen h)) b) < length b)%nat) by len.
  destruct (negb _); [eexists; split; [done|]; by intros ? ? [= <- <-]|].
  destruct (decrypt _ _ _ _ _ _ _ _) as [d|e|] eqn:Ed; [|by eexists..]. apply decrypt_length in Ed.
  destruct (FromBytes_content d ltac:(len)) as [Hb2 Hc2].
  pose proof (frames_ends (S (length d)) c (FromBytes d) Hb2 ltac:(rewrite Hc2; lia)) as F.
  destruct (frames _ _ _ _) as [[c'|e|]|]; [|by eexists..|done].
  destruct (BytesRange _ _ _) as [hello|e|]; [|by eexists..].
  destruct (TlsSniff.ReadClientHello_settled hello) as (r & -> & Hr).
  destruct r as [dom|e|]; [by eexists|eexists; split; [done|]; by intros ? ? [= <- <-]|done].
Qed.

(** C39. Sniffing QUIC ends on every datagram: frames, acknowledged ranges and packets
    are counted by fields of 62 bits, yet every round takes a byte, so the number of
    rounds is bounded by the bytes that came. *)
Theorem quic_sniff_ends (recycled b spare : bytes) :
  zlen b < 2 ^ 31 ->
  SniffQUIC hkdf_Extract hkdf_Expand aes_Encrypt aead_Open varint_Read recycled b spare <> None.
Proof.
  intros Hl. unfold SniffQUIC. destruct (_ =? 0); [done|].
  assert (P : forall fuel c b, zlen b < 2 ^ 31 -> (length b <= fuel)%nat ->
    packets hkdf_Extract hkdf_Expand aes_Encrypt aead_Open varint_Read fuel c b spare <> None).
  { clear b Hl. induction fuel as [|fuel IH]; intros c b Hl Hf; cbn [packets].
    - by replace (_ <=? 0) with true by len.
    - destruct (_ <=? 0); [done|]. destruct (packet_round_ends c b spare Hl) as (r & -> & Hr).
      destruct r as [[[c' b']|d]|e|]; [|done..]. specialize (Hr c' b' eq_refl). apply IH; [len|lia]. }
  apply P; [done|lia].
Qed.
End Ends.

(** The parameters can be met: a reader of one byte, a cipher that opens nothing. *)
Lemma quic_sniff_ends_witness :
  zlen (lit "datagram") < 2 ^ 31 /\
  SniffQUIC (fun a _ => a) (fun _ _ n => replicate (Z.to_nat n) x00) (fun _ _ => replicate 16 x00)
    (fun _ _ _ ct _ => Some ct) (b ← ReadByte; mret (b2z b)) [] (lit "datagram") [] <> None.
Proof.
  split; [vm_compute; reflexivity|].
  apply (quic_sniff_ends (fun a _ => a) (fun _ _ n => replicate (Z.to_nat n) x00) (fun _ _ => replicate 16 x00)
    (fun _ _ _ ct _ => Some ct) (b ← ReadByte; mret (b2z b))); [| |vm_compute; reflexivity].
  - apply (progress_bind _ _ 1 0 any); [apply progress_ReadByte|]. intros x _. apply progress_ret.
  - intros key iv nonce ct aad pt [= <-]. lia.
Defined.
End QuicEnds.
