(* ===== verification/Trojan.v ===== *)
(** * Package proxy/trojan: the protocol

    [Module Trojan] models proxy/trojan/protocol.go and config.go: the account
    with its hashed key, the writer that puts the request header in front of
    the first payload, the packets of UDP, and the readers of both.  SHA-224 is
    a library: it is the argument [sha224] of [hexSha224]. *)
From S2P Require Import Prelude GoStd Buf MultiBuf NetAddr AddrParser Codec GoText.
Import Buf NetAddr AddrParser Codec.

Module Trojan.

(** ** config.go *)
Record MemoryAccount := mkAccount { Password : bytes; Key : bytes }.

(** [hex.Encode(dst, src)]: two digits a byte, a panic when [dst] is short. *)
Definition hexEncode (dst src : bytes) : res bytes :=
  if zlen dst <? 2 * zlen src then Panic
  else Ok (hexString src ++ drop (length (hexString src)) dst).

Definition hexSha224 (sha224 : bytes -> bytes) (password : bytes) : res bytes :=
  hexEncode (replicate 56 x00) (sha224 password).

Definition AsAccount (sha224 : bytes -> bytes) (password : bytes) : res MemoryAccount :=
  key ← hexSha224 sha224 password;
  Ok {| Password := password; Key := key |}.

(** [another] is [None] when it is an account of another protocol. *)
Definition Equals (a : MemoryAccount) (another : Datatypes.option MemoryAccount) : bool :=
  match another with Some account => bool_decide (Password a = Password account) | None => false end.

(** ** protocol.go *)
Definition crlf : bytes := map z2b [13; 10].

Definition trojan_options : res (list AddressOption) :=
  o1 ← AddressFamilyByte 1 AddressFamilyIPv4;
  o2 ← AddressFamilyByte 4 AddressFamilyIPv6;
  o3 ← AddressFamilyByte 3 AddressFamilyDomain;
  Ok [o1; o2; o3].

Definition addrParser : AddressSerializer :=
  NewAddressParser (match trojan_options with Ok l => l | _ => [] end).

Definition commandTCP : Z := 1.
Definition commandUDP : Z := 3.

(** The method call on a nil [Address] panics. *)
Definition write_address (addr : Datatypes.option Address) (port : Port) : ST Buffer unit :=
  match addr with
  | Some a => WriteAddressPort addrParser a port
  | None => st_panic
  end.

Section Writers.
Context {W : Type} `{Writer W}.

Record ConnWriter := mkConnWriter {
  cw_Writer : W;
  cw_Target : Destination;
  cw_Account : MemoryAccount;
  headerSent : bool;
}.

Definition set_cw (c : ConnWriter) (w : W) (sent : bool) : ConnWriter :=
  {| cw_Writer := w; cw_Target := cw_Target c; cw_Account := cw_Account c; headerSent := sent |}.

(** What [writeHeader] puts into its buffer. *)
Definition header_steps (c : ConnWriter) : ST Buffer unit :=
  let command := if decide (DNetwork (cw_Target c) = Network_UDP) then commandUDP else commandTCP in
  _ ← Write (Key (cw_Account c));
  _ ← Write crlf;
  _ ← WriteByte (z2b command);
  _ ← write_address (DAddress (cw_Target c)) (DPort (cw_Target c));
  _ ← Write crlf;
  mret tt.

Definition writeHeader : ST ConnWriter unit := fun c =>
  match header_steps c StackNew with
  | (buffer, Ok _) =>
    match Bytes buffer with
    | Ok data =>
      match wr data (cw_Writer c) with
      | (w, Ok _) => (set_cw c w true, Ok tt)
      | (w, Err e) => (set_cw c w (headerSent c), Err e)
      | (w, Panic) => (set_cw c w (headerSent c), Panic)
      end
    | Err e => (c, Err e)
    | Panic => (c, Panic)
    end
  | (_, Err e) => (c, Err e)
  | (_, Panic) => (c, Panic)
  end.

(** The embedded writer's own [Write]. *)
Definition inner_write (p : bytes) : ST ConnWriter Z := fun c =>
  let '(w, x) := wr p (cw_Writer c) in (set_cw c w (headerSent c), x).

(** [ConnWriter] is an [io.Writer]. *)
#[export] Instance ConnWriter_Write : Writer ConnWriter := fun p c =>
  if negb (headerSent c)
  then (_ ← st_base "failed to write request header" writeHeader; inner_write p) c
  else inner_write p c.

Fixpoint ConnWriter_WriteMultiBuffer (mb : MultiBuf.MultiBuffer) : ST ConnWriter unit :=
  match mb with
  | [] => mret tt
  | b :: mb' =>
    if negb (IsEmpty (Some b))
    then data ← st_lift (Bytes b); _ ← wr data; ConnWriter_WriteMultiBuffer mb'
    else ConnWriter_WriteMultiBuffer mb'
  end.

Definition WriteHeader : ST ConnWriter unit := fun c =>
  if negb (headerSent c) then writeHeader c else (c, Ok tt).

(** ** Packets *)
Definition addrPortLen (a : Address) : res Z :=
  match a with
  | domainAddress d =>
    if IsDomainTooLong d then Err (NewError "Super long domain is not supported: ")
    else Ok (i32 (1 + 1 + i32 (zlen d) + 2))
  | ipv4Address _ => Ok (1 + 4 + 2)
  | ipv6Address _ => Ok (1 + 16 + 2)
  end.

(** What [writePacket] puts into its buffer. *)
Definition packet_steps (payload : bytes) (a : Address) (port : Port) : ST Buffer unit :=
  _ ← WriteAddressPort addrParser a port;
  _ ← Write (put_be 2 (u16 (zlen payload)));
  _ ← Write crlf;
  _ ← Write payload;
  mret tt.

(** [writePacket] on the embedded writer of a [PacketWriter]. *)
Definition writePacket (payload : bytes) (dest : Destination) : ST W Z :=
  a ← st_lift (or_panic (DAddress dest));
  n ← st_lift (addrPortLen a);
  buffer ← st_lift (NewWithSize (i32 (i32 (i32 (n + 2) + 2) + i32 (zlen payload))));
  let '(buffer, x) := packet_steps payload a (DPort dest) buffer in
  _ ← st_lift x;
  data ← st_lift (Bytes buffer);
  _ ← wr data;
  mret (zlen payload).

Fixpoint WriteMultiBufferWithMetadata (mb : MultiBuf.MultiBuffer) (dest : Destination) : ST W unit :=
  match mb with
  | [] => mret tt
  | b :: mb' =>
    if IsEmpty (Some b) then WriteMultiBufferWithMetadata mb' dest
    else data ← st_lift (Bytes b); _ ← writePacket data dest; WriteMultiBufferWithMetadata mb' dest
  end.

(** [PacketWriter.WriteMultiBuffer] with the writer's [Target]. *)
Definition PacketWriter_WriteMultiBuffer (Target : Destination) (mb : MultiBuf.MultiBuffer) : ST W unit :=
  WriteMultiBufferWithMetadata mb Target.
End Writers.
Arguments ConnWriter : clear implicits.

Section Readers.
Context {R : Type} `{Reader R}.

Record ConnReader := mkConnReader {
  cr_Reader : R;
  cr_Target : Destination;
  headerParsed : bool;
}.

Definition readArray (n : nat) (msg : string) : ST R bytes := readFull n (Based msg).

(** Up to the address: the destination. *)
Definition header_target : ST R Destination :=
  _ ← readArray 56 "failed to read user hash";
  _ ← readArray 2 "failed to read crlf";
  command ← readArray 1 "failed to read command";
  let network :=
    if decide (head command = Some (z2b commandUDP)) then Network_UDP else Network_TCP in
  '(addr, port) ← st_base "failed to read address and port" (ReadAddressPort addrParser);
  mret {| DNetwork := network; DAddress := Some addr; DPort := port |}.

Definition ParseHeader : ST ConnReader unit := fun c =>
  match header_target (cr_Reader c) with
  | (r, Ok target) =>
    match readArray 2 "failed to read crlf" r with
    | (r, Ok _) => ({| cr_Reader := r; cr_Target := target; headerParsed := true |}, Ok tt)
    | (r, Err e) => ({| cr_Reader := r; cr_Target := target; headerParsed := headerParsed c |}, Err e)
    | (r, Panic) => ({| cr_Reader := r; cr_Target := target; headerParsed := headerParsed c |}, Panic)
    end
  | (r, Err e) => ({| cr_Reader := r; cr_Target := cr_Target c; headerParsed := headerParsed c |}, Err e)
  | (r, Panic) => ({| cr_Reader := r; cr_Target := cr_Target c; headerParsed := headerParsed c |}, Panic)
  end.

(** [Read(p)]: the bytes and the error of the inner reader. *)
Definition ConnReader_Read (n : nat) : ST ConnReader (bytes * Datatypes.option error) := fun c =>
  match (if negb (headerParsed c) then ParseHeader c else (c, Ok tt)) with
  | (c, Ok _) =>
    let '(r, x) := rd (cr_Reader c) n in
    ({| cr_Reader := r; cr_Target := cr_Target c; headerParsed := headerParsed c |}, Ok x)
  | (c, Err e) => (c, Ok ([], Some e))
  | (c, Panic) => (c, Panic)
  end.

(** ** Packets *)
Record PacketPayload := mkPayload { pp_Target : Destination; pp_Buffer : MultiBuf.MultiBuffer }.

Definition readPayload (dest : Destination) (length : Z) : ST R PacketPayload := fun r =>
  match NewWithSize length with
  | Ok b =>
    match ReadFullFrom length (b, r) with
    | ((b, r), Ok _) => (r, Ok {| pp_Target := dest; pp_Buffer := [b] |})
    | ((_, r), Err e) => (r, Err (Based "failed to read payload" e))
    | ((_, r), Panic) => (r, Panic)
    end
  | Err e => (r, Err e)
  | Panic => (r, Panic)
  end.

Definition ReadMultiBufferWithMetadata : ST R PacketPayload :=
  '(addr, port) ← st_base "failed to read address and port" (ReadAddressPort addrParser);
  lengthBuf ← readArray 2 "failed to read payload length";
  length ← st_lift (Uint16 lengthBuf);
  _ ← readArray 2 "failed to read crlf";
  readPayload (UDPDestination (Some addr) port) length.

Definition PacketReader_ReadMultiBuffer : ST R MultiBuf.MultiBuffer :=
  p ← ReadMultiBufferWithMetadata; mret (pp_Buffer p).

Record PacketConnectionReader := mkPacketConn { pc_reader : R; payload : Datatypes.option PacketPayload }.

(** [ReadFrom(p)] with [n] bytes of room: the bytes and the sender, an IP
    address and a port. *)
Definition PacketConnectionReader_ReadFrom (n : nat) : ST PacketConnectionReader (bytes * (bytes * Z)) := fun r =>
  let '(r, x) :=
    match payload r with
    | Some p =>
      if MultiBuf.IsEmpty (pp_Buffer p)
      then let '(rd, x) := ReadMultiBufferWithMetadata (pc_reader r) in
           ({| pc_reader := rd; payload := match x with Ok p => Some p | _ => None end |}, x)
      else (r, Ok p)
    | None =>
      let '(rd, x) := ReadMultiBufferWithMetadata (pc_reader r) in
      ({| pc_reader := rd; payload := match x with Ok p => Some p | _ => None end |}, x)
    end in
  match x with
  | Err e => (r, Err e)
  | Panic => (r, Panic)
  | Ok p =>
    match (a ← or_panic (DAddress (pp_Target p)); IP a) with
    | Ok ip =>
      match MultiBuf.SplitFirstBytes (pp_Buffer p) n with
      | Ok (mb, d) =>
        ({| pc_reader := pc_reader r; payload := Some {| pp_Target := pp_Target p; pp_Buffer := mb |} |},
         Ok (d, (ip, DPort (pp_Target p))))
      | _ => (r, Panic)
      end
    | _ => (r, Panic)
    end
  end.
End Readers.
Arguments ConnReader : clear implicits.
Arguments PacketConnectionReader : clear implicits.

(** ** The wire format *)
Definition command_byte (n : Network) : byte :=
  z2b (if decide (n = Network_UDP) then commandUDP else commandTCP).

(** The network a header can say: everything but UDP is TCP. *)
Definition wire_network (n : Network) : Network :=
  if decide (n = Network_UDP) then Network_UDP else Network_TCP.

Definition request_bytes (key : bytes) (n : Network) (a : Address) (port : Port) : bytes :=
  key ++ crlf ++ [command_byte n] ++ encode addrParser a port ++ crlf.

Definition packet_bytes (payload : bytes) (a : Address) (port : Port) : bytes :=
  encode addrParser a port ++ put_be 2 (zlen payload) ++ crlf ++ payload.
End Trojan.
Import Trojan.

(** ** Lemmas *)
Lemma trojan_handles a : addr_wf a -> handles addrParser a.
Proof.
  intros Ha. unfold handles. destruct a; (split; [vm_compute; done|split; [vm_compute; done|reflexivity]]).
Qed.

Lemma trojan_known : known_families addrParser.
Proof.
  split; [reflexivity|split; [|exact I]]. vm_compute.
  repeat first [apply Forall_nil_2 | apply Forall_cons_2; [tauto|]].
Qed.

Lemma writes_Write d : writes (Write d) d (zlen d).
Proof. apply (writes_wr (W := Buffer)). Qed.

Lemma writes_header {W} `{Writer W} (c : ConnWriter W) a :
  DAddress (cw_Target c) = Some a -> serializable a ->
  writes (header_steps c)
    (request_bytes (Key (cw_Account c)) (DNetwork (cw_Target c)) a (DPort (cw_Target c))) tt.
Proof.
  intros Ha Hs. unfold header_steps, request_bytes. rewrite Ha.
  repeat (eapply writes_bind; [first [apply writes_Write|apply writes_WriteByte|
    apply writes_AddressPort; [apply trojan_handles, Hs|done]]|]).
  eapply writes_last; [apply writes_Write|done].
Qed.

Lemma request_length key n a port :
  serializable a -> zlen (request_bytes key n a port) <= zlen key + 264.
Proof.
  intros Hs. pose proof (encode_length addrParser a port Hs). unfold request_bytes.
  rewrite !zlen_app. change (zlen crlf) with 2. change (zlen [_]) with 1. lia.
Qed.

Section ConnWriter.
Context {W : Type} `{WriterSpec W}.

(** The header goes out in one call of [Write]. *)
Lemma writeHeader_spec (c : ConnWriter W) a k :
  let h := request_bytes (Key (cw_Account c)) (DNetwork (cw_Target c)) a (DPort (cw_Target c)) in
  DAddress (cw_Target c) = Some a -> serializable a -> zlen (Key (cw_Account c)) <= 1784 -> 0 <= k ->
  wr_fits (cw_Writer c) (zlen h + k) ->
  exists w, writeHeader c = (set_cw c w true, Ok tt) /\ wr_after (cw_Writer c) h w /\ wr_fits w k.
Proof.
  intros h Ha Hs Hk Hk0 Hf. unfold writeHeader.
  pose proof (request_length (Key (cw_Account c)) (DNetwork (cw_Target c)) a (DPort (cw_Target c)) Hs) as Hl.
  fold h in Hl.
  rewrite (writes_push _ h tt StackNew (writes_header c a Ha Hs)) by (apply New_wf || (change (room StackNew) with 2048; lia)).
  rewrite Bytes_wf by (apply push_wf; [apply New_wf|change (room StackNew) with 2048; lia]).
  rewrite push_content by apply New_wf. change (content StackNew) with (content New). rewrite New_content.
  destruct (wr_spec _ h k Hk0 Hf) as (w & E & ? & ?). cbn [app]. rewrite E. by exists w.
Qed.

(** Once the header is out the writer is the inner writer. *)
#[export] Instance ConnWriter_spec : WriterSpec (ConnWriter W).
Proof.
  refine {| wr_fits c n := headerSent c = true /\ wr_fits (cw_Writer c) n;
            wr_after c d c' := exists w, c' = set_cw c w (headerSent c) /\ wr_after (cw_Writer c) d w |}.
  - intros c [_ Hf]. exists (cw_Writer c). split; [by destruct c|by apply wr_after_nil].
  - intros c d1 c1 d2 c2 (w1 & -> & H1) (w2 & -> & H2). exists w2. split; [done|].
    by eapply wr_after_app.
  - intros c d k Hk [Hs Hf]. destruct (wr_spec _ d k Hk Hf) as (w & E & Ha & Hk').
    exists (set_cw c w (headerSent c)). unfold wr at 1, ConnWriter_Write, inner_write. rewrite Hs.
    cbn [negb]. rewrite E. split_and!; [done|by exists w|done|done].
  - intros c n m Hm [Hs Hf]. split; [done|]. by eapply wr_fits_mono.
Defined.

(** The first [Write] sends the header first. *)
Lemma first_write (c : ConnWriter W) a p k :
  let h := request_bytes (Key (cw_Account c)) (DNetwork (cw_Target c)) a (DPort (cw_Target c)) in
  headerSent c = false -> DAddress (cw_Target c) = Some a -> serializable a ->
  zlen (Key (cw_Account c)) <= 1784 -> 0 <= k ->
  wr_fits (cw_Writer c) (zlen h + (zlen p + k)) ->
  exists w, wr p c = (set_cw c w true, Ok (zlen p)) /\ wr_after (cw_Writer c) (h ++ p) w /\ wr_fits w k.
Proof.
  intros h Hsent Ha Hs Hk Hk0 Hf. pose proof (zlen_nonneg p).
  destruct (writeHeader_spec c a (zlen p + k) Ha Hs Hk ltac:(lia) Hf) as (w & E & Hw & Hf').
  destruct (wr_spec w p k Hk0 Hf') as (w2 & E2 & Hw2 & Hf2).
  exists w2. unfold wr at 1, ConnWriter_Write. rewrite Hsent. cbn [negb].
  unfold mbind, st_bind, st_base. rewrite E. unfold inner_write. cbn [set_cw cw_Writer headerSent].
  rewrite E2. split_and!; [done|by eapply wr_after_app|done].
Qed.
End ConnWriter.

Lemma takes_target {R} `{Reader R} key n a port :
  length key = 56%nat -> serializable a -> is_u16 port ->
  takes (header_target : ST R _) (key ++ crlf ++ [command_byte n] ++ encode addrParser a port)
    {| DNetwork := wire_network n; DAddress := Some a; DPort := port |}.
Proof.
  intros Hk Hs Hp. unfold header_target.
  eapply takes_bind; [by apply takes_full|].
  eapply takes_bind; [by apply (takes_full _ _ crlf)|].
  eapply takes_bind; [by apply (takes_full _ _ [command_byte n])|].
  eapply takes_last; [apply takes_base, takes_AddressPort; [apply trojan_handles, Hs|done|done]|].
  unfold command_byte, wire_network. cbn [head]. by destruct (decide (n = Network_UDP)).
Qed.

Lemma ParseHeader_spec {R} `{Reader R} (c : ConnReader R) key n a port rest :
  length key = 56%nat -> serializable a -> is_u16 port ->
  rd_wf (cr_Reader c) -> rd_content (cr_Reader c) = request_bytes key n a port ++ rest ->
  exists r, ParseHeader c = ({| cr_Reader := r; headerParsed := true; cr_Target :=
      {| DNetwork := wire_network n; DAddress := Some a; DPort := port |} |}, Ok tt) /\
    rd_wf r /\ rd_end r = rd_end (cr_Reader c) /\ rd_content r = rest.
Proof.
  intros Hk Hs Hp Hr Hc. unfold request_bytes in Hc.
  destruct (takes_target key n a port Hk Hs Hp (cr_Reader c) (crlf ++ rest) Hr) as (r1 & E1 & Hr1 & He1 & Hc1).
  { by rewrite Hc, <- !app_assoc. }
  destruct (takes_full (R := R) 2 (Based "failed to read crlf") crlf eq_refl r1 rest Hr1 Hc1)
    as (r2 & E2 & Hr2 & He2 & Hc2).
  exists r2. unfold ParseHeader, readArray. rewrite E1, E2. split_and!; [done|done|congruence|done].
Qed.

Lemma crlf_harmless {R} `{Reader R} n msg : harmless (readArray n msg : ST R bytes) (fun d => length d = n).
Proof. apply harmless_full. Qed.

Lemma target_harmless {R} `{Reader R} :
  harmless (header_target : ST R _) (fun t => exists a, DAddress t = Some a /\ sane a /\ is_u16 (DPort t)).
Proof.
  unfold header_target. do 3 (eapply harmless_bind; [apply crlf_harmless|intros ? _]).
  eapply harmless_bind; [apply harmless_base, harmless_AddressPort, trojan_known|].
  intros [addr port] [? ?]. apply harmless_ret. by exists addr.
Qed.

(** A packet of at most 65535 bytes goes out in one call of [Write]. *)
Lemma writePacket_once {W} `{Writer W} p a port n (w : W) :
  serializable a -> zlen p < 2 ^ 16 ->
  writePacket p {| DNetwork := n; DAddress := Some a; DPort := port |} w =
    (_ ← wr (packet_bytes p a port); mret (zlen p)) w.
Proof.
  intros Hs Hp. pose proof (zlen_nonneg p). unfold writePacket. cbn [DAddress DPort or_panic].
  rewrite st_lift_bind.
  assert (exists k, addrPortLen a = Ok k /\ 5 <= k <= 259 /\ zlen (encode addrParser a port) = k) as (k & Ek & Hk & Hl).
  { assert (Hl : zlen (encode addrParser a port) = zlen (encode_address (family_byte addrParser a) a) + 2).
    { change (encode addrParser a port) with (encode_address (family_byte addrParser a) a ++ put_be 2 port).
      by rewrite zlen_app, zlen_put_be. }
    rewrite Hl. destruct Hs as [Hwf Hs], a as [ip|ip|d]; cbn [addrPortLen addr_wf encode_address] in *.
    - exists 7. rewrite zlen_cons. unfold zlen. rewrite Hwf. done.
    - exists 19. rewrite zlen_cons. unfold zlen. destruct Hwf as [-> _]. done.
    - unfold IsDomainTooLong. replace (255 <? zlen d) with false by lia.
      exists (zlen d + 4). rewrite (i32_small (zlen d)), i32_small by lia.
      rewrite zlen_app, !zlen_cons, zlen_nil. split; [f_equal; lia|]. lia. }
  rewrite Ek, st_lift_bind.
  rewrite (i32_small (k + 2)), (i32_small (k + 2 + 2)), (i32_small (zlen p)), i32_small by lia.
  destruct (NewWithSize_spec (k + 2 + 2 + zlen p) ltac:(lia)) as (b & -> & Hwf & Hc & Hroom & _).
  rewrite st_lift_bind.
  assert (Hsteps : writes (packet_steps p a port) (packet_bytes p a port) tt).
  { unfold packet_steps, packet_bytes. rewrite (u16_small (zlen p)) by lia.
    repeat (eapply writes_bind; [first [apply writes_Write|
      apply writes_AddressPort; [apply trojan_handles, Hs|done]]|]).
    eapply writes_last; [apply writes_Write|done]. }
  assert (Hlen : zlen (packet_bytes p a port) <= room b).
  { unfold packet_bytes. rewrite !zlen_app, zlen_put_be. change (zlen crlf) with 2. lia. }
  rewrite (writes_push _ _ _ b Hsteps Hwf Hlen), st_lift_bind.
  rewrite Bytes_wf by by apply push_wf. by rewrite st_lift_bind, push_content, Hc by done.
Qed.

Lemma writes_packet {W} `{WriterSpec W} p a port n :
  serializable a -> zlen p < 2 ^ 16 ->
  writes (writePacket p {| DNetwork := n; DAddress := Some a; DPort := port |})
    (packet_bytes p a port) (zlen p).
Proof.
  intros Hs Hp w k Hk Hf. rewrite writePacket_once by done.
  revert w k Hk Hf. change (writes (_ ← wr (packet_bytes p a port); (mret (zlen p) : ST W Z)) (packet_bytes p a port) (zlen p)).
  eapply writes_last; [apply writes_wr|done].
Qed.

Lemma takes_packet {R} `{Reader R} p a port :
  serializable a -> is_u16 port -> zlen p < 2 ^ 16 ->
  exists b, buf_wf b /\ content b = p /\
    takes (ReadMultiBufferWithMetadata : ST R _) (packet_bytes p a port)
      {| pp_Target := UDPDestination (Some a) port; pp_Buffer := [b] |}.
Proof.
  intros Hs Hp Hl. pose proof (zlen_nonneg p).
  destruct (NewWithSize_spec (zlen p) ltac:(lia)) as (b & Eb & Hwf & Hc & Hroom & _).
  exists (push b p). split; [by apply push_wf|]. split; [by rewrite push_content, Hc|].
  unfold ReadMultiBufferWithMetadata, packet_bytes.
  eapply takes_bind; [apply takes_base, takes_AddressPort; [apply trojan_handles, Hs|done|done]|].
  eapply takes_bind; [by apply takes_full|]. eapply takes_lift.
  { rewrite <- (app_nil_r (put_be 2 _)), Uint16_app by by rewrite zlen_put_be.
    rewrite get_be_put_be_small by lia. done. }
  eapply takes_bind; [by apply (takes_full _ _ crlf)|].
  intros r rest Hr Hcr. unfold readPayload. rewrite Eb.
  destruct (takes_ReadFullFrom b p rest r Hwf Hroom Hr Hcr) as (r' & E & ?). rewrite E. by exists r'.
Qed.

Lemma payload_harmless {R} `{Reader R} dest length :
  is_u16 length -> harmless (readPayload dest length : ST R _) (fun p => pp_Target p = dest).
Proof.
  intros Hl r Hr. unfold readPayload.
  destruct (NewWithSize_spec length ltac:(lia)) as (b & -> & _ & _ & _ & Hsm).
  destruct (ReadFullFrom_cases b r length (Hsm ltac:(lia)) Hr ltac:(lia))
    as [(d & r' & -> & _ & _ & Hl')|(b' & r' & e & -> & _ & Hl')].
  - eexists r', _. split; [done|]. split; [done|]. split; [done|]. by intros ? [= <-].
  - eexists r', _. by split.
Qed.

Lemma Uint16_two d : length d = 2%nat -> exists z, Uint16 d = Ok z /\ is_u16 z.
Proof.
  intros Hd. rewrite <- (app_nil_r d), Uint16_app by (unfold zlen; lia). eexists. split; [done|].
  pose proof (get_be_range d) as Hr. unfold zlen in Hr. rewrite Hd in Hr. lia.
Qed.

Lemma packet_harmless {R} `{Reader R} :
  harmless (ReadMultiBufferWithMetadata : ST R _)
    (fun p => exists a, DAddress (pp_Target p) = Some a /\ sane a /\ is_u16 (DPort (pp_Target p))).
Proof.
  unfold ReadMultiBufferWithMetadata.
  eapply harmless_bind; [apply harmless_base, harmless_AddressPort, trojan_known|]. intros [addr port] [Hs Hp].
  eapply harmless_bind; [apply crlf_harmless|]. intros d Hd.
  destruct (Uint16_two d Hd) as (z & -> & Hz). apply harmless_lift; [done|]. intros ? [= <-].
  eapply harmless_bind; [apply crlf_harmless|]. intros ? _.
  intros r Hr. destruct (payload_harmless (UDPDestination (Some addr) port) z Hz r Hr) as (r' & x & ? & ? & ? & HQ).
  exists r', x. split_and!; try done. intros p Hx. rewrite (HQ p Hx). by exists addr.
Qed.

Lemma packet_ends {R} `{Reader R} : ends (ReadMultiBufferWithMetadata : ST R _).
Proof. apply ends_bind, ends_base, ends_AddressPort. Qed.

(** A packet takes at least the two bytes of its length. *)
Lemma packet_progress {R} `{Reader R} (r r' : R) p :
  rd_wf r -> ReadMultiBufferWithMetadata r = (r', Ok p) ->
  rd_wf r' /\ (length (rd_content r') < length (rd_content r))%nat.
Proof.
  intros Hr. unfold ReadMultiBufferWithMetadata, mbind, st_bind.
  destruct (harmless_base "failed to read address and port" _ _ (harmless_AddressPort addrParser trojan_known) r Hr)
    as (r1 & x & -> & _ & (Hr1 & _ & Hs1) & _).
  destruct x as [[addr port]|e|]; [|done..].
  destruct (ReadFull_spec r1 2 Hr1) as (r2 & Hr2 & _ & Hc2 & E2). unfold readArray, readFull at 1. rewrite E2.
  destruct (2 <=? length (rd_content r1))%nat eqn:Hlen; [|done].
  destruct (Uint16_two (take 2 (rd_content r1))) as (z & -> & Hz); [rewrite length_take; lia|]. cbn [st_lift].
  destruct (harmless_full (R := R) 2 (Based "failed to read crlf") r2 Hr2) as (r3 & y & -> & _ & (Hr3 & _ & Hs3) & _).
  destruct y as [d|e|]; [|done..].
  destruct (payload_harmless (UDPDestination (Some addr) port) z Hz r3 Hr3) as (r4 & w & -> & _ & (Hr4 & _ & Hs4) & _).
  intros [= <- _]. split; [done|].
  apply suffix_length in Hs1, Hs3, Hs4. rewrite Hc2, length_drop in Hs3. lia.
Qed.

(** ** Keys *)
Lemma hexSha224_spec sha224 password :
  length (sha224 password) = 28%nat ->
  hexSha224 sha224 password = Ok (hexString (sha224 password)) /\
  length (hexString (sha224 password)) = 56%nat.
Proof.
  intros Hl. pose proof (length_hexString (sha224 password)) as Hh. rewrite Hl in Hh.
  split; [|lia]. unfold hexSha224, hexEncode. replace (_ <? _) with false by (unfold zlen; rewrite Hl; done).
  by rewrite Hh, drop_ge, app_nil_r by (rewrite length_replicate; lia).
Qed.

(** ** Theorems *)

(** A Trojan request, from the client's first write to the server's parser:
    the writer puts the header (key, command, address) once in front of the
    first payload, and the parser finds the same destination in it - whatever
    the fragmentation, with UDP as UDP and everything else as TCP - and leaves
    exactly the payload to be read. *)
Theorem trojan_request_roundtrip {W R} `{WriterSpec W} `{Reader R}
    (c : ConnWriter W) (cr : ConnReader R) a p rest :
  let t := cw_Target c in
  let h := request_bytes (Key (cw_Account c)) (DNetwork t) a (DPort t) in
  headerSent c = false -> length (Key (cw_Account c)) = 56%nat ->
  DAddress t = Some a -> serializable a -> is_u16 (DPort t) ->
  wr_fits (cw_Writer c) (zlen h + zlen p) ->
  rd_wf (cr_Reader cr) -> rd_content (cr_Reader cr) = h ++ p ++ rest ->
  (exists c', wr p c = (c', Ok (zlen p)) /\ headerSent c' = true /\
     wr_after (cw_Writer c) (h ++ p) (cw_Writer c')) /\
  (exists cr', ParseHeader cr = (cr', Ok tt) /\ headerParsed cr' = true /\
     cr_Target cr' = {| DNetwork := wire_network (DNetwork t); DAddress := Some a; DPort := DPort t |} /\
     rd_content (cr_Reader cr') = p ++ rest).
Proof.
  intros t h Hsent Hk Ha Hs Hp Hf Hr Hc. split.
  - destruct (first_write c a p 0) as (w & E & Hw & _); try done; [unfold zlen; lia| |].
    { by rewrite Z.add_0_r. }
    by exists (set_cw c w true).
  - destruct (ParseHeader_spec cr _ _ a _ (p ++ rest) Hk Hs Hp Hr Hc) as (r & E & _ & _ & Hc').
    rewrite E. by eexists.
Qed.

Definition demo_account : MemoryAccount :=
  {| Password := lit "secret"; Key := hexString (map z2b (seqZ 1 28)) |}.

Definition demo_target : Destination := TCPDestination (Some (domainAddress (lit "v2fly.org"))) 443.

Lemma trojan_request_roundtrip_witness :
  let c := {| cw_Writer := sink_empty; cw_Target := demo_target; cw_Account := demo_account; headerSent := false |} in
  let h := request_bytes (Key demo_account) Network_TCP (domainAddress (lit "v2fly.org")) 443 in
  let cr := {| cr_Reader := conn_of (h ++ lit "GET /" ++ lit "!"); cr_Target := TCPDestination None 0; headerParsed := false |} in
  (exists c', wr (lit "GET /") c = (c', Ok 5) /\ concat (sent (cw_Writer c')) = h ++ lit "GET /") /\
  (exists cr', ParseHeader cr = (cr', Ok tt) /\ cr_Target cr' = demo_target /\
     rd_content (cr_Reader cr') = lit "GET /!").
Proof.
  intros c h cr.
  destruct (trojan_request_roundtrip c cr (domainAddress (lit "v2fly.org")) (lit "GET /") (lit "!"))
    as [(c' & E & _ & Hw & _) (cr' & E' & _ & Ht & Hc)].
  - reflexivity.
  - reflexivity.
  - reflexivity.
  - repeat split; vm_compute; congruence.
  - split; reflexivity || discriminate.
  - reflexivity.
  - exact I.
  - reflexivity.
  - split; [exists c'; split; [exact E|exact Hw]|exists cr'; split; [exact E'|split; [exact Ht|exact Hc]]].
Defined.

(** The reader that hands packets to an application assumes an IP address: a
    packet from a domain, which the decoder accepts, makes it panic. *)
Lemma domain_packet_panics {R} `{Reader R} (r : R) p d port rest n :
  serializable (domainAddress d) -> is_u16 port -> zlen p < 2 ^ 16 ->
  rd_wf r -> rd_content r = packet_bytes p (domainAddress d) port ++ rest ->
  (PacketConnectionReader_ReadFrom n {| pc_reader := r; payload := None |}).2 = Panic.
Proof.
  intros Hs Hp Hl Hr Hc. destruct (takes_packet (R := R) p (domainAddress d) port Hs Hp Hl) as (b & _ & _ & Ht).
  destruct (Ht r rest Hr Hc) as (r' & E & _). unfold PacketConnectionReader_ReadFrom. cbn [payload pc_reader].
  by rewrite E.
Qed.
