(* ===== verification/TrojanServer.v ===== *)
(** * Package proxy/trojan: the inbound

    [Module Validator] models proxy/trojan/validator.go, the table of users, and
    [Module TrojanServer] the decisions of proxy/trojan/server.go: the table of
    fallbacks, who is let in, which fallback serves the others and the PROXY
    header it is told the addresses with, and the loop over UDP packets.
    Goroutines that copy between connections are not modelled. *)
From S2P Require Import Prelude GoStd Buf MultiBuf NetAddr AddrParser Codec GoText Trojan.
Import Buf NetAddr AddrParser Codec Trojan.

Module Validator.

(** [Account] is [None] for an account of another protocol, on which the type
    assertion panics. *)
Record MemoryUser := mkUser {
  Account : Datatypes.option MemoryAccount;
  Email : bytes;
  Level : Z;
}.

(** The two [sync.Map]s. *)
Record Validator := mkValidator {
  email : gmap bytes MemoryUser;
  users : gmap bytes MemoryUser;
}.

Definition key_of (u : MemoryUser) : res bytes :=
  a ← or_panic (Account u); Ok (hexString (Key a)).

Definition Add (u : MemoryUser) : ST Validator unit := fun v =>
  let le := ToLower (Email u) in
  let loaded := bool_decide (is_Some (email v !! le)) in
  if bool_decide (Email u <> []) && loaded then (v, Err (NewError "User ")) else
  let v := if bool_decide (Email u <> [])
           then {| email := <[le := u]> (email v); users := users v |} else v in
  match key_of u with
  | Ok k => ({| email := email v; users := <[k := u]> (users v) |}, Ok tt)
  | Err e => (v, Err e)
  | Panic => (v, Panic)
  end.

Definition Del (e : bytes) : ST Validator unit := fun v =>
  if bool_decide (e = []) then (v, Err (NewError "Email must not be empty.")) else
  let le := ToLower e in
  match email v !! le with
  | None => (v, Err (NewError "User "))
  | Some u =>
    let v := {| email := delete le (email v); users := users v |} in
    match key_of u with
    | Ok k => ({| email := email v; users := delete k (users v) |}, Ok tt)
    | Err e => (v, Err e)
    | Panic => (v, Panic)
    end
  end.

Definition Get (hash : bytes) (v : Validator) : Datatypes.option MemoryUser := users v !! hash.

Definition empty : Validator := {| email := ∅; users := ∅ |}.

(** ** What the table is for: the users that were added and not removed *)
Inductive vop := OAdd (u : MemoryUser) | ODel (e : bytes).

Definition run_op (o : vop) : ST Validator unit := match o with OAdd u => Add u | ODel e => Del e end.

Definition has_key (k : bytes) (u : MemoryUser) : Prop := Key <$> Account u = Some k.
#[export] Instance has_key_dec k u : Decision (has_key k u).
Proof. unfold has_key. apply _. Defined.

Definition same_email (e : bytes) (u : MemoryUser) : Prop := Email u <> [] /\ ToLower (Email u) = ToLower e.
#[export] Instance same_email_dec e u : Decision (same_email e u).
Proof. unfold same_email. apply _. Defined.

(** The specification keeps a list of users: an email names one of them. *)
Definition spec_op (o : vop) : ST (list MemoryUser) unit := fun l =>
  match o with
  | OAdd u =>
    if decide (Email u <> [] /\ Exists (same_email (Email u)) l) then (l, Err (NewError "User "))
    else (u :: l, Ok tt)
  | ODel e =>
    if decide (e = []) then (l, Err (NewError "Email must not be empty."))
    else if decide (Exists (same_email e) l) then (filter (fun u => ~ same_email e u) l, Ok tt)
    else (l, Err (NewError "User "))
  end.

(** A user that is added has an account, with a key no user has that is there. *)
Definition op_ok (o : vop) (l : list MemoryUser) : Prop :=
  match o with
  | OAdd u => exists k, has_key k u /\ Forall (fun u' => ~ has_key k u') l
  | ODel _ => True
  end.

Definition refines (v : Validator) (l : list MemoryUser) : Prop :=
  (forall k u, Get (hexString k) v = Some u <-> u ∈ l /\ has_key k u) /\
  (forall le u, email v !! le = Some u <-> u ∈ l /\ Email u <> [] /\ ToLower (Email u) = le) /\
  Forall (fun u => is_Some (Account u)) l.

Fixpoint run_all {S} (step : vop -> ST S unit) (os : list vop) (s : S) : S * list (res unit) :=
  match os with
  | [] => (s, [])
  | o :: os' => let '(s1, x) := step o s in let '(s2, xs) := run_all step os' s1 in (s2, x :: xs)
  end.

Fixpoint history_ok (os : list vop) (l : list MemoryUser) : Prop :=
  match os with
  | [] => True
  | o :: os' => op_ok o l /\ history_ok os' (spec_op o l).1
  end.
End Validator.
Import Validator.

(** ** The table of users *)
Lemma has_key_account k u : has_key k u <-> exists a, Account u = Some a /\ Key a = k.
Proof. unfold has_key. destruct (Account u); simpl; naive_solver. Qed.

Lemma key_of_has k u : has_key k u -> key_of u = Ok (hexString k).
Proof. intros (a & Ha & <-)%has_key_account. unfold key_of. by rewrite Ha. Qed.

Lemma email_taken v l e :
  refines v l -> (is_Some (email v !! ToLower e) <-> Exists (same_email e) l).
Proof.
  intros (_ & He & _). rewrite Exists_exists. unfold is_Some, same_email. naive_solver.
Qed.

Lemma refines_add v l u :
  refines v l -> op_ok (OAdd u) l ->
  (Add u v).2 = (spec_op (OAdd u) l).2 /\ refines (Add u v).1 (spec_op (OAdd u) l).1.
Proof.
  intros Href (k & Hk & Hfresh). pose proof (email_taken v l (Email u) Href) as Ht. destruct Href as (Hg & He & Ha).
  assert (Hnew : forall k' u', (<[hexString k := u]> (users v)) !! hexString k' = Some u' <->
    u' ∈ u :: l /\ has_key k' u').
  { intros k' u'. rewrite elem_of_cons. destruct (decide (k' = k)) as [->|Hne].
    - rewrite lookup_insert_eq. rewrite Forall_forall in Hfresh. split; [naive_solver|].
      intros [[->|Hin] Hk']; [done|]. by destruct (Hfresh u').
    - rewrite lookup_insert_ne by (intros E; by apply Hne, hexString_inj).
      change (users v !! hexString k') with (Get (hexString k') v). rewrite Hg. unfold has_key in *. naive_solver. }
  assert (Hacc : Forall (fun u => is_Some (Account u)) (u :: l)).
  { constructor; [|done]. apply has_key_account in Hk as (a & -> & _). by exists a. }
  unfold Add. cbn [spec_op]. rewrite (key_of_has k u Hk). destruct (decide (Email u = [])) as [E|Hne].
  - rewrite decide_False by (rewrite E; naive_solver). rewrite bool_decide_false by naive_solver. cbn [andb].
    split; [done|]. split; [done|]. split; [|done]. intros le u'. cbn [email fst].
    rewrite He, elem_of_cons. naive_solver.
  - rewrite bool_decide_true by done. cbn [andb]. destruct (bool_decide _) eqn:Hb.
    + apply bool_decide_eq_true in Hb. rewrite decide_True by (split; [done|by apply Ht]). done.
    + apply bool_decide_eq_false in Hb. rewrite decide_False by (intros [_ ?]; by apply Hb, Ht).
      split; [done|]. split; [done|]. split; [|done]. intros le u'. cbn [email fst].
      rewrite elem_of_cons. destruct (decide (le = ToLower (Email u))) as [->|Hle].
      * rewrite lookup_insert_eq. split; [naive_solver|]. intros ([->|Hin] & Hn & El); [done|].
        exfalso. apply Hb. exists u'. by apply He.
      * rewrite lookup_insert_ne by done. rewrite He. naive_solver.
Qed.

Lemma refines_del v l e :
  refines v l -> (Del e v).2 = (spec_op (ODel e) l).2 /\ refines (Del e v).1 (spec_op (ODel e) l).1.
Proof.
  intros Href. pose proof (email_taken v l e Href) as Ht. unfold Del. cbn [spec_op].
  destruct (decide (e = [])) as [->|Hne]; [by rewrite bool_decide_true|]. rewrite bool_decide_false by done.
  destruct (email v !! ToLower e) as [u|] eqn:Eu; cycle 1.
  { rewrite decide_False; [done|]. intros Hx. apply Ht in Hx as [u Hu]. done. }
  rewrite decide_True by (apply Ht; by exists u). destruct Href as (Hg & He & Ha).
  pose proof (proj1 (He _ _) Eu) as (Hin & Hn & El). pose proof Ha as Ha'. rewrite Forall_forall in Ha'.
  destruct (Ha' u Hin) as [a Hacc]. assert (Hk : has_key (Key a) u) by (apply has_key_account; by exists a).
  rewrite (key_of_has _ _ Hk). split; [done|]. cbn [fst].
  assert (Hsame : forall u', u' ∈ l -> same_email e u' -> u' = u).
  { intros u' Hin' [Hn' El']. assert (email v !! ToLower e = Some u') by (by apply He). congruence. }
  assert (Hu : same_email e u) by done.
  split; [|split].
  - intros k' u'. unfold Get in *. cbn [users]. rewrite list_elem_of_filter.
    destruct (decide (k' = Key a)) as [->|Hk'].
    + rewrite lookup_delete_eq. split; [done|]. intros [[Hns Hin'] Hk'].
      assert (users v !! hexString (Key a) = Some u') as E1 by (by apply Hg).
      assert (users v !! hexString (Key a) = Some u) as E2 by (by apply Hg). congruence.
    + rewrite lookup_delete_ne by (intros E; by apply Hk', hexString_inj). rewrite Hg.
      split; [|naive_solver]. intros [Hin' Hk'']. split_and!; [|done|done]. intros Hs.
      rewrite (Hsame u' Hin' Hs) in Hk''. unfold has_key in *. congruence.
  - intros le u'. cbn [email]. rewrite list_elem_of_filter.
    destruct (decide (le = ToLower e)) as [->|Hle].
    + rewrite lookup_delete_eq. split; [done|]. intros ((Hns & Hin') & Hn' & El'). by destruct Hns.
    + rewrite lookup_delete_ne by done. rewrite He. unfold same_email. naive_solver.
  - apply Forall_forall. intros u' [_ Hin']%list_elem_of_filter. by apply Ha'.
Qed.

Lemma refines_history os v l :
  refines v l -> history_ok os l ->
  (run_all run_op os v).2 = (run_all spec_op os l).2 /\
  refines (run_all run_op os v).1 (run_all spec_op os l).1.
Proof.
  revert v l. induction os as [|o os IH]; intros v l Href; [done|]. intros [Ho Hos].
  assert ((run_op o v).2 = (spec_op o l).2 /\ refines (run_op o v).1 (spec_op o l).1) as [E Href'].
  { destruct o as [u|e]; [by apply refines_add|by apply refines_del]. }
  specialize (IH _ _ Href' Hos). cbn [run_all].
  destruct (run_op o v) as [v1 x], (spec_op o l) as [l1 y]. cbn [fst snd] in *. subst y.
  destruct (run_all run_op os v1), (run_all spec_op os l1). cbn [fst snd] in *.
  destruct IH as [-> ?]. done.
Qed.

Lemma empty_refines : refines empty [].
Proof.
  split; [|split; [|done]]; intros k u; unfold Get; cbn [users email empty]; rewrite lookup_empty; set_solver.
Qed.

Module TrojanServer.

Record Fallback := mkFallback { Type_ : bytes; Dest : bytes; Xver : Z }.

(** One entry of the configuration. *)
Record FallbackConfig := mkFallbackConfig { Alpn : bytes; Path : bytes; Fb : Fallback }.

Abbreviation fallback_table := (gmap bytes (gmap bytes Fallback)).

(** ** NewServer: the fallbacks *)
Definition add_fallback (t : fallback_table) (c : FallbackConfig) : fallback_table :=
  <[Alpn c := <[Path c := Fb c]> (default ∅ (t !! Alpn c))]> t.

(** Every other protocol also gets the paths of the default one; the ranges are
    over maps, and no entry depends on the order. *)
Definition merge_default (t : fallback_table) : fallback_table :=
  match t !! ([] : bytes) with
  | None => t
  | Some base => map_imap (fun alpn pfb => Some (if bool_decide (alpn = []) then pfb else pfb ∪ base)) t
  end.

(** [None] when the configuration has no list of fallbacks. *)
Definition NewServer_fallbacks (cs : Datatypes.option (list FallbackConfig)) : Datatypes.option fallback_table :=
  (fun cs => merge_default (fold_left add_fallback cs ∅)) <$> cs.

Record Server := mkServer {
  validator : Validator;
  fallbacks : Datatypes.option fallback_table;
}.

(** ** fallback: which one *)
Definition CR : byte := z2b 13.
Definition LF : byte := z2b 10.
Definition SP : byte := z2b 32.
Definition SLASH : byte := z2b 47.

(** The inner loop over [j]: the bytes before the next blank, unless the line
    ends first. *)
Fixpoint scan_path (acc l : bytes) : Datatypes.option bytes :=
  match l with
  | [] => None
  | k :: l' =>
    if bool_decide (k = CR) || bool_decide (k = LF) then None
    else if bool_decide (k = SP) then Some acc
    else scan_path (acc ++ [k]) l'
  end.

(** The outer loop over [i]: at the first slash behind a blank it stops, with the
    path or without. *)
Fixpoint find_path (idx : list Z) (firstBytes : bytes) : res (Datatypes.option bytes) :=
  match idx with
  | [] => Ok None
  | i :: idx' =>
    c ← or_panic (index firstBytes i);
    before ← (if bool_decide (c = SLASH) then p ← or_panic (index firstBytes (i - 1)); Ok (Some p) else Ok None);
    if bool_decide (before = Some SP)
    then Ok (scan_path [c] (drop (Z.to_nat (i + 1)) (take 64 firstBytes)))
    else find_path idx' firstBytes
  end.

(** [negotiated] is the protocol of the TLS connection, [None] without TLS. *)
Definition fallback_alpn (apfb : fallback_table) (negotiated : Datatypes.option bytes) : bytes :=
  if (1 <? Z.of_nat (size apfb)) || bool_decide (apfb !! ([] : bytes) = None) then
    match negotiated with
    | Some alpn => if bool_decide (apfb !! alpn = None) then [] else alpn
    | None => []
    end
  else [].

Definition fallback_path (pfb : gmap bytes Fallback) (first : Buffer) (firstLen : Z) : res bytes :=
  if (1 <? Z.of_nat (size pfb)) || bool_decide (pfb !! ([] : bytes) = None) then
    h2c ← (if 18 <=? firstLen then b ← Byte first 4; Ok (bool_decide (b = z2b 42)) else Ok true);
    if h2c : bool then Ok [] else
    firstBytes ← Bytes first;
    path ← find_path [4; 5; 6; 7; 8] firstBytes;
    match path with
    | Some path => Ok (if bool_decide (pfb !! path = None) then [] else path)
    | None => Ok []
    end
  else Ok [].

Definition select_fallback (apfb : fallback_table) (negotiated : Datatypes.option bytes)
    (first : Buffer) (firstLen : Z) : res Fallback :=
  match apfb !! fallback_alpn apfb negotiated with
  | None => Err (NewError "failed to find the default alpn config")
  | Some pfb =>
    path ← fallback_path pfb first firstLen;
    match pfb !! path with
    | None => Err (NewError "failed to find the default path config")
    | Some fb => Ok fb
    end
  end.

(** ** fallback: the PROXY header *)

(** [To4] and [To16] on what [net.ParseIP] returns, [nil] as the empty slice. *)
Definition ip4 (ip : Datatypes.option bytes) : bytes := default [] (ip ≫= To4).
Definition ip16 (ip : Datatypes.option bytes) : bytes := default [] ip.

(** [strconv.ParseUint(s, 10, 16)], its error dropped: 0 for what is no number,
    the largest value for one that is too large. *)
Fixpoint parse_digits (s : bytes) (n : Z) : Z :=
  match s with
  | [] => n
  | c :: s' =>
    if between 48 57 (b2z c) then
      let n := n * 10 + (b2z c - 48) in
      if 65535 <? n then 65535 else parse_digits s' n
    else 0
  end.

Definition proxy_header (xver : Z) (remoteAddr remotePort localAddr localPort : bytes) : ST Buffer unit :=
  let ipv4 := bool_decide (z2b 58 ∉ remoteAddr) in
  if xver =? 1 then
    _ ← Write ((if ipv4 then lit "PROXY TCP4 " else lit "PROXY TCP6 ") ++
               remoteAddr ++ [SP] ++ localAddr ++ [SP] ++ remotePort ++ [SP] ++ localPort ++ crlf);
    mret tt
  else if xver =? 2 then
    _ ← Write (map z2b [13; 10; 13; 10; 0; 13; 10; 81; 85; 73; 84; 10; 33]);
    _ ← (if ipv4
         then _ ← Write (map z2b [17; 0; 12]); _ ← Write (ip4 (ParseIP remoteAddr)); Write (ip4 (ParseIP localAddr))
         else _ ← Write (map z2b [33; 0; 36]); _ ← Write (ip16 (ParseIP remoteAddr)); Write (ip16 (ParseIP localAddr)));
    let p1 := parse_digits remotePort 0 in
    let p2 := parse_digits localPort 0 in
    _ ← Write [z2b (Z.shiftr p1 8); z2b p1; z2b (Z.shiftr p2 8); z2b p2];
    mret tt
  else mret tt.

(** ** Process *)
Inductive outcome :=
  | FellBack (fb : Fallback)
  | Accepted (user : MemoryUser) (destination : Destination).

(** The test of the first bytes: the user they name. *)
Definition authenticate (s : Server) (first : Buffer) (firstLen : Z) : res (Datatypes.option MemoryUser) :=
  if firstLen <? 58 then Ok None else
  b ← Byte first 56;
  if negb (bool_decide (b = CR)) then Ok None else
  hash ← BytesTo first 56;
  Ok (Get (hexString hash) (validator s)).

Section Process.
Context {R : Type} `{Reader R}.

(** [r] is the buffered reader that gives [first] again before the rest. *)
Definition Process (s : Server) (negotiated : Datatypes.option bytes) (first : Buffer) (firstLen : Z)
    : ST R outcome := fun r =>
  match authenticate s first firstLen with
  | Ok None =>
    match fallbacks s with
    | Some apfb => (r, fb ← select_fallback apfb negotiated first firstLen; Ok (FellBack fb))
    | None => (r, Err (NewError "invalid protocol or invalid user"))
    end
  | Ok (Some user) =>
    match ParseHeader {| cr_Reader := r; cr_Target := TCPDestination None 0; headerParsed := false |} with
    | (c, Ok _) => (cr_Reader c, Ok (Accepted user (cr_Target c)))
    | (c, Err e) => (cr_Reader c, Err (Based "failed to create request from: " e))
    | (c, Panic) => (cr_Reader c, Panic)
    end
  | Err e => (r, Err e)
  | Panic => (r, Panic)
  end.

(** [handleUDPPayload]: what is dispatched, and the result; the context is found
    to be done after [rounds] rounds. *)
Fixpoint handleUDPPayload (rounds : nat) (r : R) : R * list (Destination * Buffer) * res unit :=
  match rounds with
  | O => (r, [], Ok tt)
  | S rounds' =>
    match ReadMultiBufferWithMetadata r with
    | (r, Err e) =>
      (r, [], if negb (bool_decide (Cause e = EOF)) then Err (Based "unexpected EOF" e) else Ok tt)
    | (r, Panic) => (r, [], Panic)
    | (r, Ok p) =>
      let '(r, ds, x) := handleUDPPayload rounds' r in
      (r, map (fun b => (pp_Target p, b)) (pp_Buffer p) ++ ds, x)
    end
  end.
End Process.
End TrojanServer.
Import TrojanServer.

(** ** The fallbacks *)
Lemma Byte_content b i :
  buf_wf b -> 0 <= i < zlen (content b) -> exists x, Byte b i = Ok x /\ content b !! Z.to_nat i = Some x.
Proof.
  intros Hwf Hi. rewrite Byte_wf by done.
  destruct (lookup_lt_is_Some_2 (content b) (Z.to_nat i)) as [x E]; [unfold zlen in Hi; lia|].
  rewrite E. by exists x.
Qed.

Lemma find_path_total n i d :
  0 < i -> i + Z.of_nat n <= zlen d -> exists o, find_path (seqZ i (Z.of_nat n)) d = Ok o.
Proof.
  revert i. induction n as [|n IH]; intros i Hi Hd; [by exists None|].
  rewrite seqZ_cons by lia. cbn [find_path]. unfold index.
  replace (0 <=? i) with true by lia. replace (0 <=? i - 1) with true by lia.
  destruct (lookup_lt_is_Some_2 d (Z.to_nat i)) as [c ->]; [unfold zlen in Hd; lia|].
  destruct (lookup_lt_is_Some_2 d (Z.to_nat (i - 1))) as [e ->]; [unfold zlen in Hd; lia|].
  cbn [or_panic mbind res_bind].
  assert (exists o, find_path (seqZ (Z.succ i) (Z.pred (Z.of_nat (S n)))) d = Ok o) as [o Ho].
  { replace (Z.pred _) with (Z.of_nat n) by lia. apply IH; lia. }
  destruct (bool_decide (c = SLASH)); cbn [mbind res_bind]; [|by exists o].
  destruct (bool_decide (Some e = Some SP)); [by eexists|by exists o].
Qed.

Lemma fallback_path_total pfb first firstLen :
  buf_wf first -> firstLen = zlen (content first) ->
  exists path, fallback_path pfb first firstLen = Ok path /\ (path = [] \/ is_Some (pfb !! path)).
Proof.
  intros Hwf Hl. unfold fallback_path. destruct (_ || _); [|eauto].
  destruct (18 <=? firstLen) eqn:E18; [|cbn [mbind res_bind]; eauto].
  destruct (Byte_content first 4 Hwf ltac:(lia)) as (b & -> & _). cbn [mbind res_bind].
  destruct (bool_decide (b = z2b 42)); [eauto|]. rewrite Bytes_wf by done. cbn [mbind res_bind].
  destruct (find_path_total 5 4 (content first)) as [o Ho]; [lia|lia|].
  change (seqZ 4 (Z.of_nat 5)) with [4; 5; 6; 7; 8] in Ho. rewrite Ho. cbn [mbind res_bind].
  destruct o as [path|]; [|eauto]. destruct (pfb !! path) as [fb|] eqn:E.
  - rewrite bool_decide_false by done. exists path. rewrite E. eauto.
  - rewrite bool_decide_true by done. eauto.
Qed.

Lemma fallback_alpn_total apfb negotiated :
  is_Some (apfb !! ([] : bytes)) -> is_Some (apfb !! fallback_alpn apfb negotiated).
Proof.
  intros Hd. unfold fallback_alpn. destruct (_ || _); [|done]. destruct negotiated as [a|]; [|done].
  destruct (bool_decide _) eqn:E; [done|]. apply bool_decide_eq_false in E. by destruct (apfb !! a).
Qed.

Lemma merge_default_lookup t alpn :
  merge_default t !! alpn =
    match t !! alpn with
    | Some pfb => Some (if bool_decide (alpn = []) then pfb else pfb ∪ default ∅ (t !! ([] : bytes)))
    | None => None
    end.
Proof.
  unfold merge_default. destruct (t !! ([] : bytes)) as [base|] eqn:E; cbn [default from_option id].
  - rewrite map_lookup_imap. by destruct (t !! alpn).
  - destruct (t !! alpn) as [pfb|] eqn:Ea; [|done]. case_bool_decide as Hd; [done|]. f_equal.
    symmetry. apply map_union_empty.
Qed.

Lemma add_fallback_keeps t c alpn path :
  is_Some (default ∅ (t !! alpn) !! path) -> is_Some (default ∅ (add_fallback t c !! alpn) !! path).
Proof.
  intros Hp. unfold add_fallback. destruct (decide (Alpn c = alpn)) as [<-|Hne].
  - rewrite lookup_insert_eq. cbn [default from_option id]. destruct (decide (Path c = path)) as [<-|Hp'].
    + rewrite lookup_insert_eq. by eexists.
    + by rewrite lookup_insert_ne.
  - by rewrite lookup_insert_ne.
Qed.

Lemma configured cs t alpn path :
  is_Some (default ∅ (t !! alpn) !! path) \/ (exists c, c ∈ cs /\ Alpn c = alpn /\ Path c = path) ->
  is_Some (default ∅ (fold_left add_fallback cs t !! alpn) !! path).
Proof.
  revert t. induction cs as [|c cs IH]; intros t [Ht|(c' & Hin & Ha & Hp)]; cbn [fold_left];
    [done|set_solver| |].
  - apply IH. left. by apply add_fallback_keeps.
  - apply elem_of_cons in Hin as [->|Hin]; [|apply IH; right; eauto].
    apply IH. left. unfold add_fallback. rewrite <- Ha, <- Hp, lookup_insert_eq. cbn [default from_option id].
    rewrite lookup_insert_eq. by eexists.
Qed.

(** A configuration with a default fallback serves every connection that is
    not Trojan: whatever protocol TLS agreed on and whatever the first bytes
    are, a fallback is selected, without an error and without a panic. *)
Theorem default_fallback_serves cs t negotiated first firstLen :
  NewServer_fallbacks (Some cs) = Some t ->
  (exists c, c ∈ cs /\ Alpn c = [] /\ Path c = []) ->
  buf_wf first -> firstLen = zlen (content first) ->
  exists fb, select_fallback t negotiated first firstLen = Ok fb.
Proof.
  intros [= <-] Hd Hwf Hl. set (t0 := fold_left add_fallback cs ∅).
  assert (Hb : is_Some (default ∅ (t0 !! ([] : bytes)) !! ([] : bytes))) by (apply configured; by right).
  assert (Hbase : exists base, t0 !! ([] : bytes) = Some base /\ is_Some (base !! ([] : bytes))).
  { destruct (t0 !! ([] : bytes)) as [base|]; [by exists base|]. cbn [default from_option id] in Hb.
    rewrite lookup_empty in Hb. by destruct Hb. }
  destruct Hbase as (base & Et & fb0 & Efb). unfold select_fallback.
  destruct (fallback_alpn_total (merge_default t0) negotiated) as [pfb Hpfb].
  { rewrite merge_default_lookup, Et. by eexists. }
  rewrite Hpfb. destruct (fallback_path_total pfb first firstLen Hwf Hl) as (path & -> & Hpath).
  cbn [mbind res_bind]. enough (is_Some (pfb !! path)) as [fb ->] by by exists fb.
  destruct Hpath as [->|?]; [|done]. rewrite merge_default_lookup, Et in Hpfb.
  destruct (t0 !! fallback_alpn _ _) as [p|] eqn:Ep; [|done]. injection Hpfb as <-.
  case_bool_decide as Ha; [rewrite Ha, Et in Ep; injection Ep as <-; by exists fb0|].
  cbn [default from_option id]. rewrite lookup_union_is_Some. right. by exists fb0.
Qed.

Definition demo_fallbacks : list FallbackConfig :=
  [ mkFallbackConfig [] [] (mkFallback (lit "tcp") (lit "127.0.0.1:80") 0);
    mkFallbackConfig (lit "h2") (lit "/ws") (mkFallback (lit "tcp") (lit "127.0.0.1:81") 0) ].

Lemma default_fallback_serves_witness :
  exists t fb, NewServer_fallbacks (Some demo_fallbacks) = Some t /\
    select_fallback t (Some (lit "h2")) (push New (lit "GET / HTTP/1.1....")) 18 = Ok fb.
Proof.
  eexists _.
  destruct (default_fallback_serves demo_fallbacks _ (Some (lit "h2")) (push New (lit "GET / HTTP/1.1....")) 18
    eq_refl) as [fb E].
  - eexists. split; [left|split; reflexivity].
  - apply push_wf; [apply New_wf|]. vm_compute. discriminate.
  - vm_compute. reflexivity.
  - exists fb. split; [reflexivity|exact E].
Defined.

(** ** The path of a request *)
Lemma scan_path_spec acc p rest :
  Forall (fun c => c <> CR /\ c <> LF /\ c <> SP) p -> scan_path acc (p ++ SP :: rest) = Some (acc ++ p).
Proof.
  revert acc. induction p as [|c p IH]; intros acc Hp.
  - by rewrite app_nil_r.
  - apply Forall_cons in Hp as [(H1 & H2 & H3) Hp]. cbn [scan_path app].
    rewrite !bool_decide_false by done. cbn [orb]. rewrite IH by done. by rewrite <- app_assoc.
Qed.

Lemma find_path_http n i method p rest :
  let d := method ++ SP :: SLASH :: p ++ SP :: rest in
  SP ∉ method -> Forall (fun c => c <> CR /\ c <> LF /\ c <> SP) p ->
  zlen method + 2 + zlen p < 64 -> 0 < i <= zlen method + 1 -> zlen method + 1 < i + Z.of_nat n ->
  find_path (seqZ i (Z.of_nat n)) d = Ok (Some (SLASH :: p)).
Proof.
  intros d Hm Hp H64. revert i. induction n as [|n IH]; intros i Hi Hn; [lia|].
  rewrite seqZ_cons by lia. cbn [find_path]. unfold index.
  replace (0 <=? i) with true by lia. replace (0 <=? i - 1) with true by lia.
  destruct (decide (i = zlen method + 1)) as [->|Hne].
  - assert (d !! Z.to_nat (zlen method + 1 - 1) = Some SP) as ->.
    { unfold d. rewrite lookup_app_r by (unfold zlen; lia).
      by replace (_ - _)%nat with 0%nat by (unfold zlen; lia). }
    assert (d !! Z.to_nat (zlen method + 1) = Some SLASH) as ->.
    { unfold d. rewrite lookup_app_r by (unfold zlen; lia).
      by replace (_ - _)%nat with 1%nat by (unfold zlen; lia). }
    cbn [or_panic mbind res_bind].
    rewrite !bool_decide_true by done. cbn [mbind res_bind]. rewrite bool_decide_true by done. f_equal.
    replace (Z.to_nat (zlen method + 1 + 1)) with (length method + 2)%nat by (unfold zlen; lia).
    assert (drop (length method + 2) d = p ++ SP :: rest) as Hd.
    { unfold d. rewrite drop_app_ge by lia. by replace (_ - _)%nat with 2%nat by lia. }
    rewrite skipn_firstn_comm, Hd.
    rewrite take_app_ge by (unfold zlen in H64; lia).
    destruct (64 - (length method + 2) - length p)%nat eqn:El; [unfold zlen in H64; lia|].
    cbn [take]. by rewrite scan_path_spec.
  - assert (exists c, d !! Z.to_nat i = Some c) as [c ->].
    { apply lookup_lt_is_Some_2. unfold d. rewrite length_app. simpl. unfold zlen in Hi. lia. }
    assert (exists e, d !! Z.to_nat (i - 1) = Some e /\ e <> SP) as (e & -> & He).
    { unfold d. rewrite lookup_app_l by (unfold zlen in *; lia).
      destruct (lookup_lt_is_Some_2 method (Z.to_nat (i - 1))) as [e E]; [unfold zlen in *; lia|].
      exists e. split; [done|]. intros ->. by apply Hm, (list_elem_of_lookup_2 _ _ _ E). }
    cbn [or_panic mbind res_bind]. specialize (IH (Z.succ i) ltac:(lia) ltac:(lia)).
    replace (Z.pred (Z.of_nat (S n))) with (Z.of_nat n) by lia.
    destruct (bool_decide (c = SLASH)); cbn [mbind res_bind]; [|done].
    by rewrite bool_decide_false by congruence.
Qed.

(** A plain HTTP request that is not Trojan goes to the fallback of its path:
    for a request line with a method of 3 to 7 letters and a path that ends
    within the first 64 bytes, the fallback is the one configured for exactly
    that path, or else the default of the table. *)
Theorem fallback_by_path pfb first method p rest :
  (1 < size pfb)%nat \/ pfb !! ([] : bytes) = None ->
  buf_wf first -> content first = method ++ SP :: SLASH :: p ++ SP :: rest ->
  3 <= zlen method <= 7 -> SP ∉ method -> z2b 42 ∉ method ->
  Forall (fun c => c <> CR /\ c <> LF /\ c <> SP) p -> zlen method + 2 + zlen p < 64 ->
  18 <= zlen (content first) ->
  fallback_path pfb first (zlen (content first)) =
    Ok (if bool_decide (pfb !! (SLASH :: p) = None) then [] else SLASH :: p).
Proof.
  intros Hpfb Hwf Hc Hm Hsp Hstar Hp H64 H18. unfold fallback_path.
  replace ((1 <? Z.of_nat (size pfb)) || bool_decide (pfb !! ([] : bytes) = None)) with true; cycle 1.
  { destruct Hpfb as [?| ->]; [replace (1 <? _) with true by lia; done|].
    rewrite bool_decide_true by done. by rewrite orb_true_r. }
  replace (18 <=? _) with true by lia.
  destruct (Byte_content first 4 Hwf ltac:(lia)) as (b & -> & Hb). cbn [mbind res_bind].
  rewrite bool_decide_false; cycle 1.
  { intros ->. change (Z.to_nat 4) with 4%nat in Hb. rewrite Hc in Hb.
    destruct (decide (4 < length method)%nat) as [Hl|Hl].
    - rewrite lookup_app_l in Hb by done. by apply Hstar, (list_elem_of_lookup_2 _ _ _ Hb).
    - rewrite lookup_app_r in Hb by lia. unfold zlen in Hm.
      destruct (4 - length method)%nat as [|[|k]] eqn:Ek; [done|done|lia]. }
  rewrite Bytes_wf by done. cbn [mbind res_bind]. rewrite Hc.
  change [4; 5; 6; 7; 8] with (seqZ 4 (Z.of_nat 5)). rewrite find_path_http by (done || lia).
  done.
Qed.

Lemma fallback_by_path_witness :
  fallback_path {[ lit "/ws" := mkFallback (lit "tcp") (lit "127.0.0.1:81") 0 ]}
    (push New (lit "GET /ws HTTP/1.1...")) 19 = Ok (lit "/ws").
Proof.
  rewrite (fallback_by_path {[ lit "/ws" := mkFallback (lit "tcp") (lit "127.0.0.1:81") 0 ]}
    (push New (lit "GET /ws HTTP/1.1...")) (lit "GET") (lit "ws") (lit "HTTP/1.1...")).
  - vm_compute. reflexivity.
  - right. vm_compute. reflexivity.
  - apply push_wf; [apply New_wf|]. vm_compute. discriminate.
  - vm_compute. reflexivity.
  - vm_compute. split; discriminate.
  - refine (bool_decide_unpack _ _). vm_compute. exact I.
  - refine (bool_decide_unpack _ _). vm_compute. exact I.
  - refine (bool_decide_unpack _ _). vm_compute. exact I.
  - reflexivity.
  - vm_compute. discriminate.
Defined.

(** ** The PROXY header *)
Lemma ParseIP_v4 s ip : ParseIP s = Some ip -> z2b 58 ∉ s -> length (ip4 (Some ip)) = 4%nat.
Proof.
  intros E Hn. unfold ip4. cbn [mbind option_bind]. rewrite (ParseIP_dotted s ip E Hn).
  cbn [default from_option id]. by rewrite length_drop, (ParseIP_length _ _ E).
Qed.

Definition proxy_v2_signature : bytes := map z2b [13; 10; 13; 10; 0; 13; 10; 81; 85; 73; 84; 10; 33].

Definition port_pair (p1 p2 : Z) : bytes := [z2b (Z.shiftr p1 8); z2b p1; z2b (Z.shiftr p2 8); z2b p2].

Lemma writes_proxy_v2 remote rport local lport :
  writes (proxy_header 2 remote rport local lport)
    (proxy_v2_signature ++
     (if bool_decide (z2b 58 ∉ remote)
      then map z2b [17; 0; 12] ++ ip4 (ParseIP remote) ++ ip4 (ParseIP local)
      else map z2b [33; 0; 36] ++ ip16 (ParseIP remote) ++ ip16 (ParseIP local)) ++
     port_pair (parse_digits rport 0) (parse_digits lport 0)) tt.
Proof.
  unfold proxy_header. change (2 =? 1) with false. change (2 =? 2) with true. cbv iota zeta.
  eapply writes_bind; [apply writes_Write|].
  eapply (writes_bind _ _ _ _ (if bool_decide (z2b 58 ∉ remote) then zlen (ip4 (ParseIP local))
    else zlen (ip16 (ParseIP local)))).
  - destruct (bool_decide (z2b 58 ∉ remote)); repeat (eapply writes_bind; [apply writes_Write|]); apply writes_Write.
  - eapply writes_last; [apply writes_Write|done].
Qed.

(** Between addresses of one family the length in a version 2 header is the
    number of bytes behind it. *)
Lemma proxy_v2_length remote rport local lport ra la :
  ParseIP remote = Some ra -> ParseIP local = Some la -> (z2b 58 ∈ remote <-> z2b 58 ∈ local) ->
  exists family body, zlen family = 1 /\
    proxy_header 2 remote rport local lport New =
      (push New (proxy_v2_signature ++ family ++ put_be 2 (zlen body) ++ body), Ok tt).
Proof.
  intros Hr Hl Hf. pose proof (writes_proxy_v2 remote rport local lport) as Hw.
  set (ports := port_pair _ _) in Hw. assert (Hports : length ports = 4%nat) by done.
  case_bool_decide as Hc; rewrite Hr, Hl in Hw.
  - pose proof (ParseIP_v4 _ _ Hr Hc) as H1. assert (Hc' : z2b 58 ∉ local) by tauto.
    pose proof (ParseIP_v4 _ _ Hl Hc') as H2.
    exists [z2b 17], (ip4 (Some ra) ++ ip4 (Some la) ++ ports). split; [done|].
    replace (zlen _) with 12 by (unfold zlen; rewrite !length_app, H1, H2, Hports; done).
    rewrite <- !app_assoc in Hw. apply (writes_push _ _ _ New Hw New_wf).
    rewrite New_room. unfold zlen. rewrite !length_app, H1, H2, Hports. done.
  - pose proof (ParseIP_length _ _ Hr) as H1. pose proof (ParseIP_length _ _ Hl) as H2.
    exists [z2b 33], (ra ++ la ++ ports). split; [done|].
    replace (zlen _) with 36 by (unfold zlen; rewrite !length_app, H1, H2, Hports; done).
    rewrite <- !app_assoc in Hw. apply (writes_push _ _ _ New Hw New_wf).
    rewrite New_room. unfold zlen. rewrite !length_app. cbn [ip16 default from_option id].
    rewrite H1, H2, Hports. done.
Qed.

(** ** Process *)

(** C29. The Trojan inbound on hostile input: whatever arrives, it does not panic;
    it lets a connection in only when the first bytes are the hashed key of a
    user it has and a carriage return, and then with a well-formed destination. *)
Theorem Process_admits {R} `{Reader R} s negotiated first (r : R) :
  buf_wf first -> rd_wf r ->
  exists r' x, Process s negotiated first (zlen (content first)) r = (r', x) /\ x <> Panic /\
    forall user d, x = Ok (Accepted user d) ->
      Get (hexString (take 56 (content first))) (validator s) = Some user /\
      content first !! 56%nat = Some CR /\
      exists a, DAddress d = Some a /\ sane a /\ is_u16 (DPort d).
Proof.
  intros Hwf Hr. unfold Process.
  assert (exists o, authenticate s first (zlen (content first)) = Ok o /\
    forall user, o = Some user -> Get (hexString (take 56 (content first))) (validator s) = Some user /\
      content first !! 56%nat = Some CR) as (o & -> & Ho).
  { unfold authenticate. destruct (_ <? 58) eqn:E58; [by exists None|].
    destruct (Byte_content first 56 Hwf ltac:(lia)) as (b & -> & Hb). cbn [mbind res_bind].
    case_bool_decide as Hcr; cbn [negb]; [|by exists None]. rewrite BytesTo_wf by (done || lia).
    cbn [mbind res_bind]. eexists. split; [done|]. subst b. by split. }
  destruct o as [user|].
  - destruct (target_harmless (R := R) r Hr) as (r1 & x & E & Hx & (Hr1 & _) & Ht). unfold ParseHeader. cbn [cr_Reader cr_Target headerParsed].
    rewrite E. destruct x as [t|e|]; [|by eexists _, _|done].
    destruct (crlf_harmless (R := R) 2 "failed to read crlf" r1 Hr1) as (r2 & y & -> & Hy & _).
    destruct y as [d|e|]; [|by eexists _, _|done]. cbn [cr_Target cr_Reader].
    eexists _, _. split; [done|]. split; [done|]. intros u d' [= <- <-].
    destruct (Ho user eq_refl) as [? ?]. destruct (Ht t eq_refl) as (a & ?). by split_and!; [| |exists a].
  - destruct (fallbacks s) as [apfb|]; [|by eexists _, _]. eexists _, _. split; [done|].
    unfold select_fallback. destruct (apfb !! _) as [pfb|]; [|done].
    destruct (fallback_path_total pfb first _ Hwf eq_refl) as (path & -> & _). cbn [mbind res_bind].
    by destruct (pfb !! path).
Qed.

(** ** A UDP session, end to end *)

(** A client that sends packets: payload, address and port. *)
Abbreviation packet := (bytes * Address * Port)%type.

Definition packet_ok (x : packet) : Prop :=
  serializable x.1.2 /\ is_u16 x.2 /\ zlen x.1.1 < 2 ^ 16.

Definition packet_wire (x : packet) : bytes := packet_bytes x.1.1 x.1.2 x.2.

Fixpoint send {W} `{Writer W} (ps : list packet) : ST W unit :=
  match ps with
  | [] => mret tt
  | x :: ps' => _ ← writePacket x.1.1 (UDPDestination (Some x.1.2) x.2); send ps'
  end.

Lemma writes_send {W} `{WriterSpec W} ps :
  Forall packet_ok ps -> writes (send ps) (concat (map packet_wire ps)) tt.
Proof.
  induction 1 as [|[[p a] port] ps (Hs & Hp & Hl) _ IH]; [apply writes_ret|].
  cbn [map concat send]. eapply writes_bind; [by apply writes_packet|exact IH].
Qed.

(** The same through a [ConnWriter] that has not sent its header. *)
Lemma send_first {W} `{WriterSpec W} (c : ConnWriter W) a ps :
  let h := request_bytes (Key (cw_Account c)) (DNetwork (cw_Target c)) a (DPort (cw_Target c)) in
  headerSent c = false -> DAddress (cw_Target c) = Some a -> serializable a ->
  zlen (Key (cw_Account c)) <= 1784 -> ps <> [] -> Forall packet_ok ps ->
  wr_fits (cw_Writer c) (zlen (h ++ concat (map packet_wire ps))) ->
  exists c', send ps c = (c', Ok tt) /\
    wr_after (cw_Writer c) (h ++ concat (map packet_wire ps)) (cw_Writer c').
Proof.
  intros h Hsent Ha Hs Hk Hne Hps Hf. destruct Hps as [|[[p b] port] ps (Hs1 & Hp1 & Hl1) Hps]; [done|].
  cbn [map concat send] in *. change (packet_wire (p, b, port)) with (packet_bytes p b port) in *. cbn [fst snd].
  set (wire := concat (map packet_wire ps)) in *. rewrite !zlen_app in Hf.
  destruct (first_write c a (packet_bytes p b port) (zlen wire) Hsent Ha Hs Hk (zlen_nonneg _) Hf)
    as (w & E & Hw & Hf').
  assert (Hf2 : wr_fits (set_cw c w true) (zlen wire + 0)) by (rewrite Z.add_0_r; by split).
  destruct (writes_send (W := ConnWriter W) ps Hps (set_cw c w true) 0 ltac:(lia) Hf2)
    as (c2 & E2 & (w2 & -> & Hw2) & _).
  exists (set_cw (set_cw c w true) w2 true). split.
  - unfold mbind at 1, st_bind. change (UDPDestination (Some b) port) with (mkDest (Some b) port Network_UDP).
    rewrite writePacket_once by done. unfold mbind, st_bind. rewrite E. cbn [mret st_ret]. exact E2.
  - cbn [set_cw cw_Writer] in *. rewrite app_assoc. by eapply wr_after_app.
Qed.

(** The server's loop dispatches what was sent, and returns at the end. *)
Lemma handle_sent {R} `{Reader R} ps (r : R) rounds :
  Forall packet_ok ps -> (length ps < rounds)%nat ->
  rd_wf r -> rd_content r = concat (map packet_wire ps) -> rd_end r = EOF ->
  exists r' ds, handleUDPPayload rounds r = (r', ds, Ok tt) /\
    Forall2 (fun (x : packet) d => d.1 = UDPDestination (Some x.1.2) x.2 /\ content d.2 = x.1.1) ps ds.
Proof.
  intros Hps. revert r rounds. induction Hps as [|[[p a] port] ps (Hs & Hp & Hl) Hps IH];
    intros r rounds Hn Hr Hc He; (destruct rounds as [|rounds]; [simpl in Hn; lia|]); cbn [handleUDPPayload].
  - destruct (packet_ends (R := R) r Hr Hc) as (r' & e & E & Hcause). rewrite E, Hcause, He.
    exists r', []. by split.
  - cbn [map concat] in Hc. destruct (takes_packet (R := R) p a port Hs Hp Hl) as (b & _ & Hb & Ht).
    destruct (Ht r _ Hr Hc) as (r1 & E & Hr1 & He1 & Hc1). rewrite E.
    destruct (IH r1 rounds) as (r2 & ds & -> & Hds); [simpl in Hn; lia|done|done|congruence|].
    eexists r2, _. split; [done|]. cbn [map pp_Target pp_Buffer app]. by constructor.
Qed.

Lemma authenticate_known s first key rest user :
  buf_wf first -> length key = 56%nat -> content first = key ++ CR :: rest -> 58 <= zlen (content first) ->
  Get (hexString key) (validator s) = Some user ->
  authenticate s first (zlen (content first)) = Ok (Some user).
Proof.
  intros Hwf Hk Hc H58 Hu. unfold authenticate. replace (_ <? 58) with false by lia.
  destruct (Byte_content first 56 Hwf ltac:(lia)) as (b & -> & Hb). cbn [mbind res_bind].
  change (Z.to_nat 56) with 56%nat in Hb.
  rewrite Hc, lookup_app_r, Hk in Hb by lia. injection Hb as <-. rewrite bool_decide_true by done. cbn [negb].
  rewrite BytesTo_wf by (done || lia). cbn [mbind res_bind]. change (Z.to_nat 56) with 56%nat.
  by rewrite Hc, take_app_le, take_ge, Hu by lia.
Qed.

Lemma request_prefix key n a port tail d first :
  request_bytes key n a port ++ tail = content first ++ d -> length key = 56%nat -> 58 <= zlen (content first) ->
  exists rest, content first = key ++ CR :: rest.
Proof.
  intros E Hk Hl. exists (drop 57 (content first)). unfold request_bytes in E.
  assert (E57 : take 57 (content first) = key ++ [CR]).
  { rewrite <- (take_app_le (content first) d 57) by (unfold zlen in Hl; lia). rewrite <- E.
    rewrite <- !app_assoc, take_app_ge, Hk by lia. done. }
  rewrite <- (take_drop 57 (content first)) at 1. by rewrite E57, <- app_assoc.
Qed.

(** C18. A Trojan UDP session end to end: the client sends packets of less than 2^16
    bytes to any mix of 16-bit ports and addresses that survive the wire (IP addresses,
    and domains that are valid and do not spell one) through one connection with room
    for them, the first packet behind the header; the server, which has a user with the
    client's 56-byte key, admits it as UDP - given a first chunk of at least 58 bytes -
    dispatches exactly those packets, in order, each with its destination, and ends
    without an error when the client does. *)
Theorem trojan_udp_session {W R} `{WriterSpec W} `{Reader R} (c : ConnWriter W) a ps
    (s : Server) user negotiated first (r : R) rounds :
  let t := cw_Target c in
  let stream := request_bytes (Key (cw_Account c)) Network_UDP a (DPort t) ++ concat (map packet_wire ps) in
  headerSent c = false -> length (Key (cw_Account c)) = 56%nat -> DNetwork t = Network_UDP ->
  DAddress t = Some a -> serializable a -> is_u16 (DPort t) -> ps <> [] -> Forall packet_ok ps ->
  wr_fits (cw_Writer c) (zlen stream) ->
  Get (hexString (Key (cw_Account c))) (validator s) = Some user ->
  buf_wf first -> content first `prefix_of` stream -> 58 <= zlen (content first) ->
  rd_wf r -> rd_content r = stream -> rd_end r = EOF -> (length ps < rounds)%nat ->
  (exists c', send ps c = (c', Ok tt) /\ wr_after (cw_Writer c) stream (cw_Writer c')) /\
  (exists r1 r2 ds, Process s negotiated first (zlen (content first)) r =
       (r1, Ok (Accepted user (UDPDestination (Some a) (DPort t)))) /\
     handleUDPPayload rounds r1 = (r2, ds, Ok tt) /\
     Forall2 (fun (x : packet) d => d.1 = UDPDestination (Some x.1.2) x.2 /\ content d.2 = x.1.1) ps ds).
Proof.
  intros t stream Hsent Hk Hn Ha Hs Hp Hne Hps Hf Hu Hwf [d Hpre] H58 Hr Hc He Hrounds. split.
  - pose proof (send_first c a ps) as Hsend. cbv zeta in Hsend. fold t in Hsend. rewrite Hn in Hsend.
    apply Hsend; try done. unfold zlen. lia.
  - destruct (request_prefix _ _ _ _ _ _ first Hpre Hk H58) as [rest Hfirst].
    unfold Process. rewrite (authenticate_known s first _ rest user Hwf Hk Hfirst H58 Hu).
    destruct (ParseHeader_spec {| cr_Reader := r; cr_Target := TCPDestination None 0; headerParsed := false |}
      _ _ a _ (concat (map packet_wire ps)) Hk Hs Hp Hr Hc) as (r1 & -> & Hr1 & He1 & Hc1).
    cbn [cr_Reader cr_Target] in *.
    destruct (handle_sent ps r1 rounds Hps Hrounds Hr1 Hc1 ltac:(congruence)) as (r2 & ds & E & Hds).
    by exists r1, r2, ds.
Qed.

Definition demo_user : MemoryUser := {| Account := Some demo_account; Email := lit "a@b"; Level := 0 |}.
Definition demo_server : Server :=
  {| validator := (Add demo_user empty).1; fallbacks := None |}.
Definition demo_packets : list packet :=
  [ (lit "ping", ipv4Address (map z2b [8; 8; 8; 8]), 53); (lit "", domainAddress (lit "v2fly.org"), 443) ].
Definition demo_udp : Destination := UDPDestination (Some (ipv4Address (map z2b [8; 8; 8; 8]))) 53.
Definition demo_stream : bytes :=
  request_bytes (Key demo_account) Network_UDP (ipv4Address (map z2b [8; 8; 8; 8])) 53 ++
  concat (map packet_wire demo_packets).

Lemma trojan_udp_session_witness :
  (exists c', send demo_packets {| cw_Writer := sink_empty; cw_Target := demo_udp; cw_Account := demo_account;
      headerSent := false |} = (c', Ok tt) /\ concat (sent (cw_Writer c')) = demo_stream) /\
  (exists r1, Process demo_server None (push New (take 60 demo_stream)) 60 (conn_of demo_stream) =
     (r1, Ok (Accepted demo_user demo_udp))).
Proof.
  destruct (trojan_udp_session (W := sink) (R := conn)
    {| cw_Writer := sink_empty; cw_Target := demo_udp; cw_Account := demo_account; headerSent := false |}
    (ipv4Address (map z2b [8; 8; 8; 8])) demo_packets demo_server demo_user None
    (push New (take 60 demo_stream)) (conn_of demo_stream) 3)
    as [(c' & E & Hw & _) (r1 & r2 & ds & E2 & _)].
  - reflexivity.
  - reflexivity.
  - reflexivity.
  - reflexivity.
  - split; [reflexivity|exact I].
  - split; reflexivity || discriminate.
  - discriminate.
  - repeat constructor; vm_compute; congruence.
  - reflexivity.
  - vm_compute. reflexivity.
  - apply push_wf; [apply New_wf|]. vm_compute. discriminate.
  - eexists (drop 60 demo_stream). vm_compute. reflexivity.
  - vm_compute. discriminate.
  - exact I.
  - reflexivity.
  - reflexivity.
  - simpl. lia.
  - split; [exists c'; split; [exact E|exact Hw]|exists r1; exact E2].
Defined.

(** The table of Trojan users against its specification, the list of users
    added and not removed: over every history of additions and removals in
    which no two users present share a key, each operation succeeds or fails as
    the specification says (an email names at most one user, whatever its
    case), and a key finds exactly the user that has it. *)
Theorem validator_refines_users os :
  history_ok os [] ->
  (run_all run_op os empty).2 = (run_all spec_op os []).2 /\
  forall k u, Get (hexString k) (run_all run_op os empty).1 = Some u <->
    u ∈ (run_all spec_op os []).1 /\ has_key k u.
Proof.
  intros Hos. destruct (refines_history os empty [] empty_refines Hos) as [E (Hg & _)].
  split; [exact E|exact Hg].
Qed.

Lemma validator_refines_users_witness :
  let os := [OAdd demo_user; ODel (lit "A@B"); OAdd demo_user] in
  history_ok os [] /\ (run_all run_op os empty).2 = [Ok tt; Ok tt; Ok tt].
Proof.
  assert (Hos : history_ok [OAdd demo_user; ODel (lit "A@B"); OAdd demo_user] []).
  { repeat split; (exists (Key demo_account); split; [reflexivity|apply Forall_nil_2]). }
  split; [exact Hos|].
  destruct (validator_refines_users _ Hos) as [E _]. rewrite E. vm_compute. reflexivity.
Defined.

(** Two users may have one password; removing one of them locks both out. *)
Lemma shared_password_lost :
  let u1 := demo_user in
  let u2 := {| Account := Some demo_account; Email := lit "c@d"; Level := 0 |} in
  let v := (run_all run_op [OAdd u1; OAdd u2; ODel (lit "c@d")] empty).1 in
  email v !! lit "a@b" = Some u1 /\ Get (hexString (Key demo_account)) v = None.
Proof. vm_compute. done. Qed.

(** A proxy header between addresses of two families says 12 bytes follow when
    only 8 do. *)
Lemma proxy_v2_mixed_families :
  exists body, zlen body = 8 /\
    proxy_header 2 (lit "1.2.3.4") (lit "80") (lit "::1") (lit "81") New =
      (push New (proxy_v2_signature ++ [z2b 17] ++ put_be 2 12 ++ body), Ok tt).
Proof.
  eexists (map z2b [1; 2; 3; 4; 0; 80; 0; 81]). split; [done|].
  rewrite (writes_push _ _ _ New (writes_proxy_v2 (lit "1.2.3.4") (lit "80") (lit "::1") (lit "81")) New_wf).
  - do 2 f_equal.
  - vm_compute. discriminate.
Qed.

Lemma Process_admits_witness :
  exists r' x, Process demo_server None (push New (take 60 demo_stream))
    (zlen (content (push New (take 60 demo_stream)))) (conn_of demo_stream) = (r', x) /\ x <> Panic.
Proof.
  destruct (Process_admits demo_server None (push New (take 60 demo_stream)) (conn_of demo_stream))
    as (r' & x & E & Hx & _).
  - apply push_wf; [apply New_wf|]. vm_compute. discriminate.
  - exact I.
  - exists r', x. split; [exact E|exact Hx].
Defined.
