(* ===== verification/Talk.v ===== *)
(** * Handshakes: programs that read and write one connection

    A handshake runs on a pair of a reader and a writer.  [talks m d o a] says
    that [m], given [d], answers [o] and returns [a]; [stalls m d o] that [m],
    given [d] and no more, has answered [o] when it runs out of input.  Both
    follow the code line by line.  [rounds] lets two programs feed each other, as
    a Kahn network does: each sees in one round what the other had written by
    the round before.  [WriteAllBytes] is that of common/buf/io.go. *)
From S2P Require Import Prelude GoStd Buf AddrParser Codec.
Import Buf AddrParser Codec.

Module Talk.
Section Conversation.
Context {R W : Type} `{Reader R} `{Writer W}.

(** A computation on one side of the connection. *)
Definition listen {A} (m : ST R A) : ST (R * W) A := fun '(r, w) =>
  let '(r, x) := m r in ((r, w), x).
Definition say {A} (m : ST W A) : ST (R * W) A := fun '(r, w) =>
  let '(w, x) := m w in ((r, w), x).

(** A call whose error nobody looks at. *)
Definition ignoring {S A} (m : ST S A) : ST S unit := fun s =>
  match m s with
  | (s, Panic) => (s, Panic)
  | (s, _) => (s, Ok tt)
  end.

(** A call whose error is looked at. *)
Definition attempt {S A} (m : ST S A) : ST S (A + error) := fun s =>
  match m s with
  | (s, Ok a) => (s, Ok (inl a))
  | (s, Err e) => (s, Ok (inr e))
  | (s, Panic) => (s, Panic)
  end.

(** A computation on a buffer of its own and the reader. *)
Definition scratch {A} (b : Buffer) (m : ST (Buffer * R) A) : ST R A := fun r =>
  let '((_, r), x) := m (b, r) in (r, x).

(** [ReadFullFrom(reader, n)] into the buffer [b] of a function that returns the
    error. *)
Definition recv (n : Z) (b : Buffer) : ST R Buffer := fun r =>
  match ReadFullFrom n (b, r) with
  | ((b, r), Ok _) => (r, Ok b)
  | ((_, r), Err e) => (r, Err e)
  | ((_, r), Panic) => (r, Panic)
  end.

(** What the calls [m] leave in the buffer [b]. *)
Definition build {A} (m : ST Buffer A) (b : Buffer) : res Buffer :=
  match m b with
  | (b, Ok _) => Ok b
  | (_, Err e) => Err e
  | (_, Panic) => Panic
  end.

(** [common.Must(m)]: an error is a panic. *)
Definition Must {S A} (m : ST S A) : ST S A := fun s =>
  match m s with
  | (s, Err _) => (s, Panic)
  | x => x
  end.

(** ** common/buf/io.go *)
Fixpoint WriteAllBytes_loop (fuel : nat) (payload : bytes) : ST W unit :=
  match payload with
  | [] => mret tt
  | _ =>
    match fuel with
    | O => st_err (NewError "no progress")
    | S fuel' =>
      n ← wr payload;
      rest ← st_lift (from payload n);
      WriteAllBytes_loop fuel' rest
    end
  end.

(** Every call of [Write] takes a byte at least, or fails. *)
Definition WriteAllBytes (payload : bytes) : ST W unit := WriteAllBytes_loop (length payload) payload.
End Conversation.

Section Spec.
Context {R W : Type} `{Reader R} `{WriterSpec W}.

Definition talks {A} (m : ST (R * W) A) (d o : bytes) (a : A) : Prop :=
  forall r w rest k, rd_wf r -> rd_content r = d ++ rest -> 0 <= k -> wr_fits w (zlen o + k) ->
  exists r' w', m (r, w) = ((r', w'), Ok a) /\ rd_wf r' /\ rd_content r' = rest /\
    rd_end r' = rd_end r /\ wr_after w o w' /\ wr_fits w' k.

Definition stalls {A} (m : ST (R * W) A) (d o : bytes) : Prop :=
  forall r w k, rd_wf r -> rd_content r = d -> 0 <= k -> wr_fits w (zlen o + k) ->
  exists r' w' e, m (r, w) = ((r', w'), Err e) /\ wr_after w o w' /\ wr_fits w' k.

(** [m] answers [o] to [d] and ends with [x], a value or an error. *)
Definition finishes {A} (m : ST (R * W) A) (d o : bytes) (x : res A) : Prop :=
  forall r w rest k, rd_wf r -> rd_content r = d ++ rest -> 0 <= k -> wr_fits w (zlen o + k) ->
  exists r' w', m (r, w) = ((r', w'), x) /\ wr_after w o w' /\ wr_fits w' k.
End Spec.

(** ** Two programs on one connection *)

(** What [m] has written when its input is [d] and nothing follows. *)
Definition output {A} (m : ST (conn * sink) A) (d : bytes) : bytes :=
  concat (sent (m (conn_of d, sink_empty)).1.2).
Definition result {A} (m : ST (conn * sink) A) (d : bytes) : res A :=
  (m (conn_of d, sink_empty)).2.

(** What has travelled each way after [n] rounds: in each the client runs until
    it has used up what came, and then the server. *)
Fixpoint rounds {A B} (client : ST (conn * sink) A) (server : ST (conn * sink) B) (n : nat)
    : bytes * bytes :=
  match n with
  | O => ([], [])
  | S n' =>
    let up := output client (rounds client server n').2 in (up, output server up)
  end.
End Talk.
Import Talk.

(** ** Lemmas *)
Section Rules.
Context {R W : Type} `{Reader R} `{WriterSpec W}.

Lemma talks_ret {A} (a : A) : talks (mret a : ST (R * W) A) [] [] a.
Proof.
  intros r w rest k Hr Hc Hk Hf. exists r, w. rewrite zlen_nil in Hf. split_and!; try done.
  apply wr_after_nil. by eapply wr_fits_mono; [|exact Hf]; lia.
Qed.

Lemma talks_bind {A B} (m : ST (R * W) A) (f : A -> ST (R * W) B) d1 o1 a d2 o2 b :
  talks m d1 o1 a -> talks (f a) d2 o2 b -> talks (m ≫= f) (d1 ++ d2) (o1 ++ o2) b.
Proof.
  intros Hm Hf r w rest k Hr Hc Hk Hfit. pose proof (zlen_nonneg o2). rewrite <- app_assoc in Hc.
  destruct (Hm r w (d2 ++ rest) (zlen o2 + k) Hr Hc) as (r1 & w1 & E1 & Hr1 & Hc1 & He1 & Hw1 & Hf1);
    [lia|by rewrite Z.add_assoc, <- zlen_app|].
  destruct (Hf r1 w1 rest k Hr1 Hc1 Hk Hf1) as (r2 & w2 & E2 & Hr2 & Hc2 & He2 & Hw2 & Hf2).
  exists r2, w2. unfold mbind, st_bind. rewrite E1, E2. split_and!; try done; [congruence|].
  by eapply wr_after_app.
Qed.

Lemma talks_stalls {A B} (m : ST (R * W) A) (f : A -> ST (R * W) B) d1 o1 a d2 o2 :
  talks m d1 o1 a -> stalls (f a) d2 o2 -> stalls (m ≫= f) (d1 ++ d2) (o1 ++ o2).
Proof.
  intros Hm Hf r w k Hr Hc Hk Hfit. pose proof (zlen_nonneg o2).
  destruct (Hm r w d2 (zlen o2 + k) Hr Hc) as (r1 & w1 & E1 & Hr1 & Hc1 & He1 & Hw1 & Hf1);
    [lia|by rewrite Z.add_assoc, <- zlen_app|].
  destruct (Hf r1 w1 k Hr1 Hc1 Hk Hf1) as (r2 & w2 & e & E2 & Hw2 & Hf2).
  exists r2, w2, e. unfold mbind, st_bind. rewrite E1, E2. split_and!; try done.
  by eapply wr_after_app.
Qed.

Lemma talks_finishes {A B} (m : ST (R * W) A) (f : A -> ST (R * W) B) d1 o1 a d2 o2 x :
  talks m d1 o1 a -> finishes (f a) d2 o2 x -> finishes (m ≫= f) (d1 ++ d2) (o1 ++ o2) x.
Proof.
  intros Hm Hf r w rest k Hr Hc Hk Hfit. pose proof (zlen_nonneg o2). rewrite <- app_assoc in Hc.
  destruct (Hm r w (d2 ++ rest) (zlen o2 + k) Hr Hc) as (r1 & w1 & E1 & Hr1 & Hc1 & He1 & Hw1 & Hf1);
    [lia|by rewrite Z.add_assoc, <- zlen_app|].
  destruct (Hf r1 w1 rest k Hr1 Hc1 Hk Hf1) as (r2 & w2 & E2 & Hw2 & Hf2).
  exists r2, w2. unfold mbind, st_bind. rewrite E1, E2. split_and!; try done.
  by eapply wr_after_app.
Qed.

Lemma finishes_ok {A} (m : ST (R * W) A) d o a : talks m d o a -> finishes m d o (Ok a).
Proof.
  intros Hm r w rest k Hr Hc Hk Hf. destruct (Hm r w rest k Hr Hc Hk Hf) as (r' & w' & E & ? & ? & ? & ? & ?).
  by exists r', w'.
Qed.

Lemma finishes_bind_err {A B} (m : ST (R * W) A) (f : A -> ST (R * W) B) d o e :
  finishes m d o (Err e) -> finishes (m ≫= f) d o (Err e).
Proof.
  intros Hm r w rest k Hr Hc Hk Hf. destruct (Hm r w rest k Hr Hc Hk Hf) as (r' & w' & E & ?).
  exists r', w'. unfold mbind, st_bind. by rewrite E.
Qed.

Lemma finishes_more {A} (m : ST (R * W) A) d d' o x : finishes m d o x -> finishes m (d ++ d') o x.
Proof.
  intros Hm r w rest k Hr Hc. apply (Hm r w (d' ++ rest) k Hr). by rewrite Hc, app_assoc.
Qed.

Lemma finishes_err {A} e : finishes (st_err e : ST (R * W) A) [] [] (Err e).
Proof.
  intros r w rest k Hr Hc Hk Hf. exists r, w. rewrite zlen_nil in Hf. split_and!; try done.
  apply wr_after_nil. by eapply wr_fits_mono; [|exact Hf]; lia.
Qed.

Lemma stalls_bind {A B} (m : ST (R * W) A) (f : A -> ST (R * W) B) d o :
  stalls m d o -> stalls (m ≫= f) d o.
Proof.
  intros Hm r w k Hr Hc Hk Hf. destruct (Hm r w k Hr Hc Hk Hf) as (r' & w' & e & E & ?).
  exists r', w', e. unfold mbind, st_bind. by rewrite E.
Qed.

Lemma talks_base {A} msg (m : ST (R * W) A) d o a : talks m d o a -> talks (st_base msg m) d o a.
Proof.
  intros Hm r w rest k Hr Hc Hk Hf. destruct (Hm r w rest k Hr Hc Hk Hf) as (r' & w' & E & ?).
  exists r', w'. unfold st_base. by rewrite E.
Qed.

Lemma stalls_base {A} msg (m : ST (R * W) A) d o : stalls m d o -> stalls (st_base msg m) d o.
Proof.
  intros Hm r w k Hr Hc Hk Hf. destruct (Hm r w k Hr Hc Hk Hf) as (r' & w' & e & E & ?).
  exists r', w', (Based msg e). unfold st_base. by rewrite E.
Qed.

(** Readers and writers alone. *)
Lemma talks_listen {A} (m : ST R A) d a : takes m d a -> talks (listen m : ST (R * W) A) d [] a.
Proof.
  intros Hm r w rest k Hr Hc Hk Hf. destruct (Hm r rest Hr Hc) as (r' & E & Hr' & He & Hc').
  exists r', w. unfold listen. rewrite E. rewrite zlen_nil in Hf. split_and!; try done.
  apply wr_after_nil. by eapply wr_fits_mono; [|exact Hf]; lia.
Qed.

Lemma stalls_listen {A} (m : ST R A) : ends m -> stalls (listen m : ST (R * W) A) [] [].
Proof.
  intros Hm r w k Hr Hc Hk Hf. destruct (Hm r Hr Hc) as (r' & e & E & _).
  exists r', w, e. unfold listen. rewrite E. rewrite zlen_nil in Hf. split_and!; try done.
  apply wr_after_nil. by eapply wr_fits_mono; [|exact Hf]; lia.
Qed.

Lemma talks_say {A} (m : ST W A) o a : writes m o a -> talks (say m : ST (R * W) A) [] o a.
Proof.
  intros Hm r w rest k Hr Hc Hk Hf. destruct (Hm w k Hk Hf) as (w' & E & Hw & Hf').
  exists r, w'. unfold say. rewrite E. by split_and!.
Qed.

Lemma talks_ignoring {A} (m : ST (R * W) A) d o a : talks m d o a -> talks (ignoring m) d o tt.
Proof.
  intros Hm r w rest k Hr Hc Hk Hf. destruct (Hm r w rest k Hr Hc Hk Hf) as (r' & w' & E & ?).
  exists r', w'. unfold ignoring. by rewrite E.
Qed.

Lemma writes_all d : writes (WriteAllBytes d : ST W unit) d tt.
Proof.
  unfold WriteAllBytes. destruct d as [|b d]; [apply writes_ret|]. cbn [length WriteAllBytes_loop].
  eapply writes_last; [apply writes_wr|]. 
  assert (E : from (b :: d) (zlen (b :: d)) = Ok []) by (rewrite <- (app_nil_r (b :: d)) at 1; by apply from_app).
  rewrite E. by destruct (length d).
Qed.

(** Buffers. *)
Lemma takes_recv n b d :
  buf_wf b -> zlen d = n -> n <= room b -> takes (recv n b : ST R Buffer) d (push b d).
Proof.
  intros Hb <- Hn r rest Hr Hc. destruct (ReadFullFrom_exact b r d rest Hb Hn Hr Hc) as (r' & E & ?).
  exists r'. unfold recv. by rewrite E.
Qed.

Lemma ends_recv n b : buf_wf b -> 0 < n <= room b -> ends (recv n b : ST R Buffer).
Proof.
  intros Hb Hn r Hr Hc. destruct (ReadFullFrom_nothing b r n Hb Hn Hr Hc) as [[b' r'] E].
  exists r', (rd_end r). unfold recv. by rewrite E.
Qed.

Lemma takes_scratch {A} (m : ST (Buffer * R) A) d a b :
  reads m d a -> buf_wf b -> zlen d <= room b -> takes (scratch b m) d a.
Proof.
  intros Hm Hb Hroom r rest Hr Hc. destruct (Hm b r rest Hb Hroom Hr Hc) as (r' & E & ?).
  exists r'. unfold scratch. by rewrite E.
Qed.

Lemma build_writes {A} (m : ST Buffer A) d a b :
  writes m d a -> buf_wf b -> zlen d <= room b -> build m b = Ok (push b d).
Proof. intros Hm Hb Hd. unfold build. by rewrite (writes_push m d a b Hm Hb Hd). Qed.
End Rules.

(** ** Fresh buffers *)
Definition fresh (b : Buffer) : Prop := start b = 0 /\ end_ b = 0 /\ zlen (v b) = 2048.

Lemma BytesRange_wf b lo hi :
  buf_wf b -> 0 <= lo <= hi -> hi <= zlen (content b) ->
  BytesRange b lo hi = Ok (take (Z.to_nat (hi - lo)) (drop (Z.to_nat lo) (content b))).
Proof.
  intros Hwf Hlo Hhi. rewrite (zlen_content b Hwf) in Hhi. unfold BytesRange, buf_wf, content in *.
  replace (lo <? 0) with false by lia. replace (hi <? 0) with false by lia. rewrite !i32_small by lia.
  rewrite slice_Some by lia. cbn [or_panic]. rewrite skipn_firstn_comm, take_take, drop_drop. do 2 f_equal; [lia|]. f_equal. lia.
Qed.

Lemma fresh_New : fresh New.
Proof. done. Qed.
Lemma fresh_StackNew : fresh StackNew.
Proof. done. Qed.

Lemma takes_then {R} `{Reader R} {A B} (m : ST R A) (f : A -> ST R B) d a b :
  takes m d a -> takes (f a) [] b -> takes (m ≫= f) d b.
Proof. intros Hm Hf. rewrite <- (app_nil_r d). by eapply takes_bind. Qed.

Section Fresh.
Context (b : Buffer) (Hb : fresh b).

Lemma fresh_wf : buf_wf b.
Proof. destruct Hb as (Hs & He & Hv). unfold buf_wf. rewrite Hs, He, Hv. lia. Qed.
Lemma fresh_room : room b = 2048.
Proof. destruct Hb as (Hs & He & Hv). unfold room. rewrite He, Hv. lia. Qed.
Lemma fresh_content : content b = [].
Proof. destruct Hb as (Hs & He & Hv). unfold content. by rewrite Hs, He. Qed.

Context (d : bytes) (Hd : zlen d <= 2048).

Lemma fresh_push : buf_wf (push b d) /\ content (push b d) = d /\ room (push b d) = 2048 - zlen d.
Proof.
  pose proof fresh_wf as Hwf. pose proof fresh_room as Hr.
  split; [apply push_wf; [done|lia]|]. split; [by rewrite push_content, fresh_content by done|].
  rewrite push_room by (done || lia). lia.
Qed.

Lemma fresh_again : fresh (Clear (push b d)).
Proof.
  pose proof fresh_wf as Hwf. pose proof fresh_room as Hr. destruct Hb as (Hs & He & Hv).
  split; [done|]. split; [done|]. cbn [Clear v]. rewrite push_v_length by (done || lia). done.
Qed.

Lemma fresh_Bytes : Bytes (push b d) = Ok d.
Proof. destruct fresh_push as (Hwf & Hc & _). by rewrite Bytes_wf, Hc by done. Qed.

Lemma fresh_Byte i x : d !! i = Some x -> Byte (push b d) (Z.of_nat i) = Ok x.
Proof.
  intros Hx. destruct fresh_push as (Hwf & Hc & _). pose proof (lookup_lt_Some _ _ _ Hx) as Hi.
  rewrite Byte_wf by (done || (rewrite Hc; unfold zlen; lia)). by rewrite Hc, Nat2Z.id, Hx.
Qed.

Lemma fresh_BytesRange lo hi x :
  0 <= lo <= hi -> slice d lo hi = Some x -> BytesRange (push b d) lo hi = Ok x.
Proof.
  intros Hlo Hx. destruct Hb as (Hs & He & Hv).
  assert (Hhi : hi <= zlen d) by (revert Hx; unfold slice; case_match; [lia|done]).
  unfold BytesRange. replace (lo <? 0) with false by lia. replace (hi <? 0) with false by lia.
  change (start (push b d)) with (start b). rewrite Hs, !i32_small by lia.
  assert (Hvd : exists tl, v (push b d) = d ++ tl).
  { unfold push. cbn [v]. rewrite He. by eexists. }
  destruct Hvd as [tl ->]. revert Hx. unfold slice. rewrite zlen_app. pose proof (zlen_nonneg tl).
  case_match; [|done]. intros [= <-]. replace (_ && _) with true by lia. cbn [or_panic]. f_equal.
  rewrite drop_app_le, take_app_le by (rewrite ?length_drop; unfold zlen in *; lia). done.
Qed.
End Fresh.

Section FreshRules.
Context {R W : Type} `{Reader R} `{WriterSpec W}.

Lemma takes_fresh b n d :
  fresh b -> zlen d = n -> n <= 2048 -> takes (recv n b : ST R Buffer) d (push b d).
Proof. intros Hb Hd Hn. apply takes_recv; [by apply fresh_wf|done|by rewrite fresh_room]. Qed.

Lemma ends_fresh b n : fresh b -> 0 < n <= 2048 -> ends (recv n b : ST R Buffer).
Proof. intros Hb Hn. apply ends_recv; [by apply fresh_wf|by rewrite fresh_room]. Qed.

Lemma fresh_build {A} (m : ST Buffer A) b d a :
  writes m d a -> fresh b -> zlen d <= 2048 -> build m b = Ok (push b d).
Proof. intros Hm Hb Hd. eapply build_writes; [done|by apply fresh_wf|by rewrite fresh_room]. Qed.

Lemma writes_must {A} (m : ST Buffer A) d a : writes m d a -> writes (Must m) d a.
Proof.
  intros Hm b k Hk Hf. destruct (Hm b k Hk Hf) as (b' & E & ?). exists b'. unfold Must. by rewrite E.
Qed.

Lemma writes_based {U} `{WriterSpec U} {A} msg (m : ST U A) d a : writes m d a -> writes (st_base msg m) d a.
Proof.
  intros Hm w k Hk Hf. destruct (Hm w k Hk Hf) as (w' & E & ?). exists w'. unfold st_base. by rewrite E.
Qed.

Lemma talks_lift {A B} (x : res A) a (f : A -> ST (R * W) B) d o b :
  x = Ok a -> talks (f a) d o b -> talks (st_lift x ≫= f) d o b.
Proof. intros -> Hf. exact Hf. Qed.

Lemma stalls_lift {A B} (x : res A) a (f : A -> ST (R * W) B) d o :
  x = Ok a -> stalls (f a) d o -> stalls (st_lift x ≫= f) d o.
Proof. intros -> Hf. exact Hf. Qed.

Lemma finishes_lift {A B} (x : res A) a (f : A -> ST (R * W) B) d o y :
  x = Ok a -> finishes (f a) d o y -> finishes (st_lift x ≫= f) d o y.
Proof. intros -> Hf. exact Hf. Qed.

Lemma talks_last {A B} (m : ST (R * W) A) (f : A -> ST (R * W) B) d o a b :
  talks m d o a -> f a = mret b -> talks (m ≫= f) d o b.
Proof.
  intros Hm Hf. rewrite <- (app_nil_r d), <- (app_nil_r o). eapply talks_bind; [exact Hm|].
  rewrite Hf. apply talks_ret.
Qed.

(** A message written and nothing read. *)
Lemma talks_tell {A B} (m : ST (R * W) A) (f : A -> ST (R * W) B) d o1 o2 a b :
  talks m [] o1 a -> talks (f a) d o2 b -> talks (m ≫= f) d (o1 ++ o2) b.
Proof. apply (talks_bind m f [] o1 a d o2). Qed.

Lemma stalls_tell {A B} (m : ST (R * W) A) (f : A -> ST (R * W) B) d o1 o2 a :
  talks m [] o1 a -> stalls (f a) d o2 -> stalls (m ≫= f) d (o1 ++ o2).
Proof. apply (talks_stalls m f [] o1 a d o2). Qed.

Lemma finishes_tell {A B} (m : ST (R * W) A) (f : A -> ST (R * W) B) d o1 o2 a x :
  talks m [] o1 a -> finishes (f a) d o2 x -> finishes (m ≫= f) d (o1 ++ o2) x.
Proof. apply (talks_finishes m f [] o1 a d o2). Qed.

Lemma finishes_read {A B} (m : ST R A) (f : A -> ST (R * W) B) d1 d2 o a x :
  takes m d1 a -> finishes (f a) d2 o x -> finishes (listen m ≫= f) (d1 ++ d2) o x.
Proof. intros Hm Hf. apply (talks_finishes _ _ d1 [] a d2 o); [by apply talks_listen|done]. Qed.

Lemma talks_read {A B} (m : ST R A) (f : A -> ST (R * W) B) d1 d2 o a b :
  takes m d1 a -> talks (f a) d2 o b -> talks (listen m ≫= f) (d1 ++ d2) o b.
Proof. intros Hm Hf. apply (talks_bind _ _ d1 [] a d2 o); [by apply talks_listen|done]. Qed.

Lemma stalls_read {A B} (m : ST R A) (f : A -> ST (R * W) B) d1 d2 o a :
  takes m d1 a -> stalls (f a) d2 o -> stalls (listen m ≫= f) (d1 ++ d2) o.
Proof. intros Hm Hf. apply (talks_stalls _ _ d1 [] a d2 o); [by apply talks_listen|done]. Qed.

Lemma stalls_here {A B} (m : ST R A) (f : A -> ST (R * W) B) :
  ends m -> stalls (listen m ≫= f) [] [].
Proof. intros Hm. by apply stalls_bind, stalls_listen. Qed.
End FreshRules.

(** ** Any input *)
Section Any.
Context {R W : Type} `{Reader R} `{Writer W}.

(** Whatever comes, [m] does not panic; it takes some [d] off the input, and when
    it succeeds [Q] holds of [d] and the result. *)
Definition honest {A} (m : ST R A) (Q : bytes -> A -> Prop) : Prop :=
  forall r, rd_wf r -> exists r' x d, m r = (r', x) /\ x <> Panic /\ rd_wf r' /\ rd_end r' = rd_end r /\
    rd_content r = d ++ rd_content r' /\ (forall a, x = Ok a -> Q d a).

Definition polite {A} (m : ST (R * W) A) (Q : bytes -> A -> Prop) : Prop :=
  forall r w, rd_wf r -> exists r' w' x d, m (r, w) = ((r', w'), x) /\ x <> Panic /\ rd_wf r' /\
    rd_end r' = rd_end r /\ rd_content r = d ++ rd_content r' /\ (forall a, x = Ok a -> Q d a).

(** A writer that keeps the contract of [io.Writer]: all of it or an error. *)
Class TotalWriter : Prop := wr_total : forall d (w : W),
  exists w' x, wr d w = (w', x) /\ (x = Ok (zlen d) \/ exists e, x = Err e).

Definition quiet {A} (m : ST W A) : Prop := forall w, exists w' x, m w = (w', x) /\ x <> Panic.

Lemma honest_ret {A} (a : A) (Q : bytes -> A -> Prop) : Q [] a -> honest (mret a : ST R A) Q.
Proof. intros HQ r Hr. exists r, (Ok a), []. split_and!; try done. by intros ? [= <-]. Qed.

Lemma honest_err {A} e (Q : bytes -> A -> Prop) : honest (st_err e : ST R A) Q.
Proof. intros r Hr. by exists r, (Err e), []. Qed.

Lemma honest_bind {A B} (m : ST R A) (f : A -> ST R B) Q T :
  honest m Q -> (forall a d, Q d a -> honest (f a) (fun d' b => T (d ++ d') b)) -> honest (m ≫= f) T.
Proof.
  intros Hm Hf r Hr. destruct (Hm r Hr) as (r1 & x & d & E & Hx & Hr1 & He & Hc & HQ).
  unfold mbind, st_bind. rewrite E. destruct x as [a|e|]; [| |done].
  - destruct (Hf a d (HQ a eq_refl) r1 Hr1) as (r2 & y & d' & E2 & Hy & Hr2 & He2 & Hc2 & HT).
    exists r2, y, (d ++ d'). split_and!; try done; [congruence|by rewrite Hc, Hc2, app_assoc].
  - by exists r1, (Err e), d.
Qed.

Lemma honest_lift {A B} (x : res A) (f : A -> ST R B) T :
  x <> Panic -> (forall a, x = Ok a -> honest (f a) T) -> honest (st_lift x ≫= f) T.
Proof. intros Hx Hf. destruct x as [a|e|]; [by apply Hf|exact (honest_err e T)|done]. Qed.

Lemma honest_base {A} msg (m : ST R A) Q : honest m Q -> honest (st_base msg m) Q.
Proof.
  intros Hm r Hr. destruct (Hm r Hr) as (r' & x & d & E & Hx & ?). unfold st_base. rewrite E.
  destruct x as [a|e|]; [by exists r', (Ok a), d|exists r', (Err (Based msg e)), d; naive_solver|done].
Qed.

Lemma honest_harmless {A} (m : ST R A) Q : harmless m Q -> honest m (fun _ => Q).
Proof.
  intros Hm r Hr. destruct (Hm r Hr) as (r' & x & E & Hx & (Hr' & He & [d Hs]) & HQ).
  by exists r', x, d.
Qed.

Lemma honest_recv n b :
  buf_wf b -> 0 <= n <= room b ->
  honest (recv n b : ST R Buffer) (fun d b' => b' = push b d /\ zlen d = n).
Proof.
  intros Hwf Hn r Hr.
  destruct (ReadFullFrom_spec b Hwf r Hr n) as (r' & Hr' & He & Hc & E); [lia|]. unfold recv. rewrite E.
  exists r'. destruct (n <=? zlen (rd_content r)) eqn:Hl.
  - eexists _, (take (Z.to_nat n) (rd_content r)). split; [done|]. split; [done|]. split; [done|]. split; [done|].
    split; [by rewrite Hc, take_drop|]. intros ? [= <-]. split; [done|]. unfold zlen in *. rewrite length_take. lia.
  - eexists _, (take (Z.to_nat n) (rd_content r)). split; [done|]. split; [done|]. split; [done|]. split; [done|].
    split; [by rewrite Hc, take_drop|done].
Qed.

Lemma honest_attempt {A} (m : ST R A) Q : honest m Q -> honest (attempt m) (fun d x => match x with inl a => Q d a | inr _ => True end).
Proof.
  intros Hm r Hr. destruct (Hm r Hr) as (r' & x & d & E & Hx & Hr' & He & Hc & HQ). unfold attempt. rewrite E.
  destruct x as [a|e|]; [exists r', (Ok (inl a)), d|exists r', (Ok (inr e)), d|done]; (do 5 (split; [done|])); [|by intros ? [= <-]].
  intros ? [= <-]. by apply HQ.
Qed.

Lemma honest_scratch {A} (m : ST (Buffer * R) A) b Q :
  safe anybuf m Q -> small_buf b -> honest (scratch b m) (fun _ => Q).
Proof.
  intros Hm Hb r Hr. destruct (Hm b r Hb I Hr) as (b' & r' & x & E & Hx & _ & (Hr' & He & [d Hs]) & HQ).
  exists r', x, d. unfold scratch. by rewrite E.
Qed.

Lemma honest_fresh n b :
  fresh b -> 0 <= n <= 2048 -> honest (recv n b : ST R Buffer) (fun d b' => b' = push b d /\ zlen d = n).
Proof. intros Hb Hn. apply honest_recv; [by apply fresh_wf|by rewrite fresh_room]. Qed.

Lemma polite_ret {A} (a : A) (Q : bytes -> A -> Prop) : Q [] a -> polite (mret a : ST (R * W) A) Q.
Proof. intros HQ r w Hr. exists r, w, (Ok a), []. split_and!; try done. by intros ? [= <-]. Qed.

Lemma polite_err {A} e (Q : bytes -> A -> Prop) : polite (st_err e : ST (R * W) A) Q.
Proof. intros r w Hr. by exists r, w, (Err e), []. Qed.

Lemma polite_bind {A B} (m : ST (R * W) A) (f : A -> ST (R * W) B) Q T :
  polite m Q -> (forall a d, Q d a -> polite (f a) (fun d' b => T (d ++ d') b)) -> polite (m ≫= f) T.
Proof.
  intros Hm Hf r w Hr. destruct (Hm r w Hr) as (r1 & w1 & x & d & E & Hx & Hr1 & He & Hc & HQ).
  unfold mbind, st_bind. rewrite E. destruct x as [a|e|]; [| |done].
  - destruct (Hf a d (HQ a eq_refl) r1 w1 Hr1) as (r2 & w2 & y & d' & E2 & Hy & Hr2 & He2 & Hc2 & HT).
    exists r2, w2, y, (d ++ d'). split_and!; try done; [congruence|by rewrite Hc, Hc2, app_assoc].
  - by exists r1, w1, (Err e), d.
Qed.

Lemma polite_lift {A B} (x : res A) (f : A -> ST (R * W) B) T :
  x <> Panic -> (forall a, x = Ok a -> polite (f a) T) -> polite (st_lift x ≫= f) T.
Proof. intros Hx Hf. destruct x as [a|e|]; [by apply Hf|exact (polite_err e T)|done]. Qed.

Lemma polite_base {A} msg (m : ST (R * W) A) Q : polite m Q -> polite (st_base msg m) Q.
Proof.
  intros Hm r w Hr. destruct (Hm r w Hr) as (r' & w' & x & d & E & Hx & ?). unfold st_base. rewrite E.
  destruct x as [a|e|]; [by exists r', w', (Ok a), d|exists r', w', (Err (Based msg e)), d; naive_solver|done].
Qed.

Lemma polite_listen {A} (m : ST R A) Q : honest m Q -> polite (listen m : ST (R * W) A) Q.
Proof.
  intros Hm r w Hr. destruct (Hm r Hr) as (r' & x & d & E & ?). exists r', w, x, d. unfold listen. by rewrite E.
Qed.

Lemma polite_say {A} (m : ST W A) : quiet m -> polite (say m : ST (R * W) A) (fun d _ => d = []).
Proof.
  intros Hm r w Hr. destruct (Hm w) as (w' & x & E & Hx). exists r, w', x, []. unfold say. by rewrite E.
Qed.

Lemma polite_ignoring {A} (m : ST (R * W) A) Q :
  polite m Q -> polite (ignoring m) (fun _ _ => True).
Proof.
  intros Hm r w Hr. destruct (Hm r w Hr) as (r' & w' & x & d & E & Hx & ?). unfold ignoring. rewrite E.
  exists r', w', (Ok tt), d. destruct x; naive_solver.
Qed.

Lemma polite_attempt {A} (m : ST (R * W) A) Q :
  polite m Q -> polite (attempt m) (fun _ _ => True).
Proof.
  intros Hm r w Hr. destruct (Hm r w Hr) as (r' & w' & x & d & E & Hx & ?). unfold attempt. rewrite E.
  destruct x as [a|e|]; [exists r', w', (Ok (inl a)), d|exists r', w', (Ok (inr e)), d|done]; naive_solver.
Qed.

Lemma polite_mono {A} (m : ST (R * W) A) Q T :
  polite m Q -> (forall d a, Q d a -> T d a) -> polite m T.
Proof.
  intros Hm HQ r w Hr. destruct (Hm r w Hr) as (r' & w' & x & d & ? & ? & ? & ? & ? & ?).
  exists r', w', x, d. naive_solver.
Qed.

Lemma quiet_all `{!TotalWriter} d : quiet (WriteAllBytes d : ST W unit).
Proof.
  intros w. unfold WriteAllBytes. destruct d as [|b d]; [by eexists _, _|]. cbn [length WriteAllBytes_loop].
  destruct (wr_total (b :: d) w) as (w' & x & E & Hx). unfold mbind, st_bind. rewrite E.
  destruct Hx as [->|[e ->]]; [|by eexists _, _].
  assert (Ed : from (b :: d) (zlen (b :: d)) = Ok []) by (rewrite <- (app_nil_r (b :: d)) at 1; by apply from_app).
  rewrite Ed. cbn [st_lift]. destruct (length d); by eexists _, _.
Qed.
End Any.
#[global] Arguments TotalWriter W {_}.

#[export] Instance sink_total : TotalWriter sink.
Proof.
  intros d w. unfold wr, sink_writer. destruct (broken w); eexists _, _; (split; [done|]); [right; by eexists|by left].
Qed.

(** ** Rounds *)
Lemma output_finishes {A} (m : ST (conn * sink) A) d o x :
  finishes m d o x -> output m d = o /\ result m d = x.
Proof.
  intros Hm. destruct (Hm (conn_of d) sink_empty [] 0) as (r' & w' & E & Hw & _).
  { done. } { cbn. by rewrite !app_nil_r. } { done. } { done. }
  unfold output, result. rewrite E. cbn. cbn in Hw. by destruct Hw.
Qed.

Lemma output_stalls {A} (m : ST (conn * sink) A) d o : stalls m d o -> output m d = o.
Proof.
  intros Hm. destruct (Hm (conn_of d) sink_empty 0) as (r' & w' & e & E & Hw & _).
  { done. } { cbn. by rewrite app_nil_r. } { done. } { done. }
  unfold output. rewrite E. cbn. cbn in Hw. by destruct Hw.
Qed.

