(* ===== verification/BufWriter.v ===== *)
(** * Package common/buf: writers

    [Module BufWriter] models common/buf/writer.go: the writer of a MultiBuffer to
    a byte stream, the writer of packets, and the buffered writer, whose writer
    underneath may or may not be an [io.Writer] ([MaybeWriter]).  Its lock makes
    every method one step.  The theorem below: whatever is called on a buffered
    writer, what has reached the writer underneath and what is still buffered is
    what was written, in order. *)
From S2P Require Import Prelude GoStd Buf MultiBuf BufReader Talk.
Import Buf MultiBuf BufReader Talk.

Module BufWriter.

(** ** BufferToBytesWriter, SequentialWriter *)
Record BufferToBytesWriter (W : Type) := toBytes { to_writer : W }.
Arguments toBytes {W}.
Arguments to_writer {W}.

Record SequentialWriter (W : Type) := sequential { seq_writer : W }.
Arguments sequential {W}.
Arguments seq_writer {W}.

Section Bytes.
Context {W : Type} `{Writer W}.

(** [net.Buffers.WriteTo] of the Go library: what was written before an error
    counts. *)
Fixpoint Buffers_WriteTo (bs : list bytes) (n : Z) : ST W (Z * option error) := fun w =>
  match bs with
  | [] => (w, Ok (n, None))
  | b :: bs =>
    match wr b w with
    | (w, Ok k) => Buffers_WriteTo bs (n + k) w
    | (w, Err e) => (w, Ok (n, Some e))
    | (w, Panic) => (w, Panic)
    end
  end.

(** [net.Buffers.consume] *)
Fixpoint consume (bs : list bytes) (n : Z) : list bytes :=
  match bs with
  | [] => []
  | b :: bs' => if n <? zlen b then drop (Z.to_nat n) b :: bs' else consume bs' (n - zlen b)
  end.

(** The loop of [WriteMultiBuffer]; every call of [WriteTo] takes a byte at least,
    or fails. *)
Fixpoint write_buffers (fuel : nat) (bs : list bytes) (size : Z) : ST W unit := fun w =>
  if 0 <? size then
    match fuel with
    | O => (w, Err (NewError "no progress"))
    | S fuel =>
      match Buffers_WriteTo bs 0 w with
      | (w, Ok (n, None)) => write_buffers fuel (consume bs n) (i32 (size - i32 n)) w
      | (w, Ok (_, Some e)) => (w, Err e)
      | (w, Err e) => (w, Err e)
      | (w, Panic) => (w, Panic)
      end
    end
  else (w, Ok tt).

Definition buffers_bytes (mb : MultiBuffer) : res (list bytes) :=
  foldr (fun b rest => d ← Bytes b; rest ← rest; Ok (d :: rest)) (Ok []) mb.

Definition write_to (mb : MultiBuffer) : ST W unit := fun w =>
  let size := MultiBuf.Len mb in
  if size =? 0 then (w, Ok tt)
  else
    match mb with
    | [b] => (d ← st_lift (Bytes b); WriteAllBytes d) w
    | _ => (bs ← st_lift (buffers_bytes mb); write_buffers (Z.to_nat size) bs size) w
    end.

#[export] Instance bytes_writer : MbWriter (BufferToBytesWriter W) := fun mb w =>
  let '(u, x) := write_to mb (to_writer w) in ({| to_writer := u |}, x).

#[export] Instance sequential_writer : MbWriter (SequentialWriter W) := fun mb w =>
  match MultiBuf.WriteMultiBuffer mb (seq_writer w) with
  | (u, Ok (_, None)) => ({| seq_writer := u |}, Ok tt)
  | (u, Ok (_, Some e)) => ({| seq_writer := u |}, Err e)
  | (u, Err e) => ({| seq_writer := u |}, Err e)
  | (u, Panic) => ({| seq_writer := u |}, Panic)
  end.
End Bytes.

(** ** A MultiBufferContainer as io.Reader *)
Definition container_rd (c : MultiBufferContainer) (n : nat) : MultiBufferContainer * (bytes * option error) :=
  match container_Read n c with
  | (c, Ok d) => (c, (d, None))
  | (c, Err e) => (c, ([], Some e))
  | (c, Panic) => (c, ([], Some (NewError "panic")))
  end.

#[export] Instance container_reader : Reader MultiBufferContainer.
Proof.
  refine {| rd := container_rd; rd_content c := mb_content (container c); rd_end _ := EOF; rd_wf c := mb_wf (container c) |};
    unfold container_rd, container_Read; intros c n c' bs e Hwf; rewrite IsEmpty_spec by done;
    (case_bool_decide as He; [intros [= <- <- <-]; cbn [length app]; auto with lia|]);
    destruct (SplitBytes_spec (container c) n Hwf) as (mb & -> & Hmb & Hc); intros [= <- <- <-]; cbn [container].
  - split; [done|]. split; [rewrite length_take; lia|]. split; [|done]. by rewrite Hc, take_drop.
  - intros Hn E. destruct (mb_content (container c)); [done|]. by destruct n; [lia|].
Defined.

(** ** BufferedWriter *)
Class MaybeWriter (W : Type) := as_writer : option (Writer W).

#[export] Instance bytes_maybe {W} `{Writer W} : MaybeWriter (BufferToBytesWriter W) := Some (fun d w =>
  let '(u, x) := wr d (to_writer w) in ({| to_writer := u |}, x)).
#[export] Instance out_maybe : MaybeWriter out := None.

Record BufferedWriter (W : Type) := mkBuffered { bw_writer : W; bw_buffer : option Buf.Buffer; buffered : bool }.
Arguments mkBuffered {W}.
Arguments bw_writer {W}.
Arguments bw_buffer {W}.
Arguments buffered {W}.

Section Buffered.
Context {W : Type} `{MbWriter W} `{MaybeWriter W}.

Definition NewBufferedWriter (writer : W) : BufferedWriter W :=
  {| bw_writer := writer; bw_buffer := Some New; buffered := true |}.

Definition set_buffer (w : BufferedWriter W) (b : option Buf.Buffer) : BufferedWriter W :=
  {| bw_writer := bw_writer w; bw_buffer := b; buffered := buffered w |}.

Definition set_writer (w : BufferedWriter W) (u : W) : BufferedWriter W :=
  {| bw_writer := u; bw_buffer := bw_buffer w; buffered := buffered w |}.

Definition flushInternal : ST (BufferedWriter W) unit := fun w =>
  match bw_buffer w with
  | None => (w, Ok tt)
  | Some b =>
    if Buf.IsEmpty (Some b) then (w, Ok tt)
    else
      let w := set_buffer w None in
      let '(u, x) :=
        match as_writer with
        | Some f => (d ← st_lift (Bytes b); WriteAllBytes (H0 := f) d) (bw_writer w)
        | None => write_mb [b] (bw_writer w)
        end in
      (set_writer w u, x)
  end.

(** The loop of [Write]; every turn takes a byte. *)
Fixpoint Write_loop (fuel : nat) (b : bytes) (total : Z) : ST (BufferedWriter W) Z := fun w =>
  match b with
  | [] => (w, Ok total)
  | _ =>
    match fuel with
    | O => (w, Err (NewError "no progress"))
    | S fuel =>
      match Buf.Write b (default New (bw_buffer w)) with
      | (x, Ok n) =>
        let w := set_buffer w (Some x) in
        let '(w, err) := if negb (buffered w) || IsFull (Some x) then flushInternal w else (w, Ok tt) in
        match err with
        | Ok _ => match from b n with Ok b => Write_loop fuel b (total + n) w | Err e => (w, Err e) | Panic => (w, Panic) end
        | Err e => (w, Err e)
        | Panic => (w, Panic)
        end
      | (x, Err e) => (set_buffer w (Some x), Err e)
      | (x, Panic) => (set_buffer w (Some x), Panic)
      end
    end
  end.

#[export] Instance buffered_Write : Writer (BufferedWriter W) := fun b w =>
  match b with
  | [] => (w, Ok 0)
  | _ =>
    match (if buffered w then None else as_writer) with
    | Some f => let '(u, x) := f b (bw_writer w) in (set_writer w u, x)
    | None => Write_loop (length b) b 0 w
    end
  end.

Definition WriteByte (c : byte) : ST (BufferedWriter W) unit := _ ← buffered_Write [c]; mret tt.

(** The loop of [WriteMultiBuffer]. *)
Fixpoint fill_loop (fuel : nat) (c : MultiBufferContainer) : ST (BufferedWriter W) unit := fun w =>
  if MultiBuf.IsEmpty (container c) then (w, Ok tt)
  else
    match fuel with
    | O => (w, Err (NewError "no progress"))
    | S fuel =>
      match Buf.ReadFrom (default New (bw_buffer w), c) with
      | ((x, c), Ok _) =>
        let w := set_buffer w (Some x) in
        let '(w, err) := if IsFull (Some x) then flushInternal w else (w, Ok tt) in
        match err with Ok _ => fill_loop fuel c w | e => (w, e) end
      | ((x, _), _) => (set_buffer w (Some x), Panic)
      end
    end.

#[export] Instance buffered_writer : MbWriter (BufferedWriter W) := fun b w =>
  if MultiBuf.IsEmpty b then (w, Ok tt)
  else if negb (buffered w) then let '(u, x) := write_mb b (bw_writer w) in (set_writer w u, x)
  else fill_loop (length (mb_content b)) {| container := b |} w.

Definition Flush : ST (BufferedWriter W) unit := flushInternal.

Definition SetBuffered (f : bool) : ST (BufferedWriter W) unit := fun w =>
  let w := {| bw_writer := bw_writer w; bw_buffer := bw_buffer w; buffered := f |} in
  if negb f then flushInternal w else (w, Ok tt).
End Buffered.
End BufWriter.
Import BufWriter.

(** ** What is written arrives *)

(** An [io.Writer] that takes everything, beside [taken] of [MbSink]. *)
Class WriterSink (W : Type) `{MbSink W} (f : Writer W) : Prop :=
  wr_taken w b d : taken w b -> exists w', f d w = (w', Ok (zlen d)) /\ taken w' (b ++ d).

(** A writer underneath keeps its promise as an [io.Writer], if it is one. *)
Class MaybeSink (W : Type) `{MbSink W} `{MaybeWriter W} : Prop :=
  maybe_taken f : as_writer = Some f -> WriterSink W f.

(** The byte streams: all that was given to [Write]. *)
Class ByteSink (W : Type) `{Writer W} := {
  got : W -> bytes -> Prop;
  got_wr w b d : got w b -> exists w', wr d w = (w', Ok (zlen d)) /\ got w' (b ++ d);
}.

#[export] Instance sink_bytes : ByteSink sink.
Proof.
  refine {| got w b := broken w = None /\ concat (sent w) = b |}.
  intros [l e] b d [Hb <-]. cbn in Hb. subst e. unfold wr, sink_writer. cbn [broken sent]. eexists. split; [done|].
  cbn [broken sent]. split; [done|]. rewrite concat_app. cbn [concat]. by rewrite app_nil_r.
Defined.

Section ByteWriters.
Context {W : Type} `{ByteSink W}.

Lemma got_all w b d : got w b -> exists w', WriteAllBytes d w = (w', Ok tt) /\ got w' (b ++ d).
Proof.
  intros Hw. unfold WriteAllBytes. destruct d as [|x d]; [exists w; by rewrite app_nil_r|].
  cbn [length WriteAllBytes_loop]. destruct (got_wr w b (x :: d) Hw) as (w' & E & Hw'). exists w'. split; [|done].
  unfold mbind, st_bind. rewrite E.
  assert (E2 : from (x :: d) (zlen (x :: d)) = Ok []) by (rewrite <- (app_nil_r (x :: d)) at 1; by apply from_app).
  unfold st_lift. rewrite E2. by destruct (length d).
Qed.

Lemma Buffers_WriteTo_got bs n w b :
  got w b -> exists w', Buffers_WriteTo bs n w = (w', Ok (n + zlen (concat bs), None)) /\ got w' (b ++ concat bs).
Proof.
  revert n w b. induction bs as [|d bs IH]; intros n w b Hw; cbn [Buffers_WriteTo concat].
  - exists w. rewrite zlen_nil, Z.add_0_r, app_nil_r. done.
  - destruct (got_wr w b d Hw) as (w1 & -> & Hw1). destruct (IH (n + zlen d) w1 _ Hw1) as (w2 & -> & Hw2).
    exists w2. rewrite app_assoc, zlen_app, Z.add_assoc. done.
Qed.

Lemma buffers_bytes_wf mb : mb_wf mb -> buffers_bytes mb = Ok (map content mb).
Proof. induction 1 as [|b mb Hb Hmb IH]; [done|]. cbn [buffers_bytes foldr map]. rewrite (Bytes_wf b Hb). unfold buffers_bytes in IH. by rewrite IH. Qed.

Lemma write_to_got mb w b :
  tidy_mb mb -> got w b -> exists w', write_to mb w = (w', Ok tt) /\ got w' (b ++ mb_content mb).
Proof.
  intros [Ht Hl] Hw. pose proof (tidy_wf mb Ht) as Hwf. unfold write_to. rewrite (Len_spec mb Hwf Hl).
  pose proof (zlen_nonneg (mb_content mb)) as H0'. destruct (zlen (mb_content mb) =? 0) eqn:E0.
  { exists w. split; [done|]. destruct (mb_content mb) eqn:Ec; [by rewrite app_nil_r|rewrite zlen_cons in E0; pose proof (zlen_nonneg l); lia]. }
  assert (Hmany : exists w', (bs ← st_lift (buffers_bytes mb); write_buffers (Z.to_nat (zlen (mb_content mb))) bs (zlen (mb_content mb))) w =
    (w', Ok tt) /\ got w' (b ++ mb_content mb)).
  { unfold mbind, st_bind, st_lift. rewrite (buffers_bytes_wf mb Hwf).
    destruct (Z.to_nat (zlen (mb_content mb))) as [|k] eqn:Ek; [lia|]. cbn [write_buffers].
    replace (0 <? zlen (mb_content mb)) with true by lia.
    destruct (Buffers_WriteTo_got (map content mb) 0 w b Hw) as (w' & -> & Hw'). exists w'. split; [|done].
    change (concat (map content mb)) with (mb_content mb). rewrite Z.add_0_l, (i32_small (zlen (mb_content mb))), Z.sub_diag by lia. by destruct k. }
  destruct mb as [|x [|y mb]]; [done| |exact Hmany]. unfold mbind, st_bind, st_lift.
  apply Forall_cons in Hwf as [Hx _]. rewrite (Bytes_wf x Hx), mb_content_one. by apply got_all.
Qed.

#[export] Instance bytes_sink : MbSink (BufferToBytesWriter W).
Proof.
  refine {| taken w b := got (to_writer w) b; refuses _ := False |}; [|done].
  intros w b mb Hw Ht _. unfold write_mb, bytes_writer. destruct (write_to_got mb (to_writer w) b Ht Hw) as (u & -> & Hu).
  by eexists.
Defined.

#[export] Instance bytes_maybe_sink : MaybeSink (BufferToBytesWriter W).
Proof.
  intros f [= <-] w b d Hw. destruct (got_wr (to_writer w) b d Hw) as (u & -> & Hu). by eexists.
Qed.
End ByteWriters.

#[export] Instance out_maybe_sink : MaybeSink out.
Proof. done. Qed.

Section BufferedSpec.
Context {W : Type} `{MaybeSink W}.

(** The buffer is nil or has room. *)
Definition buffer_ok (o : option Buf.Buffer) : Prop :=
  match o with None => True | Some x => buf_wf x /\ zlen (v x) = 2048 /\ 0 < room x end.

Definition pending (o : option Buf.Buffer) : bytes := match o with None => [] | Some x => content x end.

(** [sent] has reached the writer underneath and the rest is buffered. *)
Definition holds_back (w : BufferedWriter W) (sent b : bytes) : Prop :=
  taken (bw_writer w) sent /\ buffer_ok (bw_buffer w) /\ b = sent ++ pending (bw_buffer w) /\
  (buffered w = false -> pending (bw_buffer w) = []).

Definition given (w : BufferedWriter W) (b : bytes) : Prop := exists sent, holds_back w sent b.

Lemma taken_all (f : Writer W) w b d :
  WriterSink W f -> taken w b -> exists w', WriteAllBytes (H0 := f) d w = (w', Ok tt) /\ taken w' (b ++ d).
Proof.
  intros Hf Hw. exact (got_all (H := f) (H0 := {| got := taken; got_wr := wr_taken |}) w b d Hw).
Qed.

(** Flushing a buffer, full or not. *)
Lemma flush_spec (w : BufferedWriter W) sent x :
  taken (bw_writer w) sent -> bw_buffer w = Some x -> buf_wf x -> zlen (v x) = 2048 -> content x <> [] ->
  exists w', flushInternal w = (w', Ok tt) /\ taken (bw_writer w') (sent ++ content x) /\ bw_buffer w' = None /\ buffered w' = buffered w.
Proof.
  intros Hw Hb Hx Hv Hne. unfold flushInternal. rewrite Hb, (IsEmpty_wf x Hx), bool_decide_false by done.
  cbn [set_buffer bw_writer]. pose proof maybe_taken as Hm. destruct as_writer as [f|].
  - destruct (taken_all f (bw_writer w) sent (content x) (Hm f eq_refl) Hw) as (u & E & Hu).
    unfold mbind, st_bind, st_lift. rewrite (Bytes_wf x Hx), E. by eexists.
  - destruct (taken_write (bw_writer w) sent [x] Hw) as (u & -> & Hu); [|done|rewrite mb_content_one in Hu; by eexists].
    assert (Ht : tidy x).
    { split; [done|]. pose proof (zlen_content x Hx) as Hz. unfold buf_wf in Hx.
      assert (0 < zlen (content x)) by (destruct (content x) as [|y l]; [done|rewrite zlen_cons; pose proof (zlen_nonneg l); lia]). lia. }
    split; [by constructor|]. rewrite mb_content_one. destruct Ht. lia.
Qed.

Lemma flush_all (w : BufferedWriter W) sent :
  taken (bw_writer w) sent -> buffer_ok (bw_buffer w) ->
  exists w', flushInternal w = (w', Ok tt) /\ buffered w' = buffered w /\
    holds_back w' (sent ++ pending (bw_buffer w)) (sent ++ pending (bw_buffer w)).
Proof.
  intros Hw Hok. unfold holds_back. destruct (bw_buffer w) as [x|] eqn:Hb; cbn [pending buffer_ok] in *.
  - destruct Hok as (Hx & Hv & Hr). destruct (decide (content x = [])) as [He|Hne].
    + exists w. unfold flushInternal. rewrite Hb, (IsEmpty_wf x Hx), bool_decide_true by done. split; [done|]. split; [done|].
      cbn [pending]. rewrite He, !app_nil_r. done.
    + destruct (flush_spec w sent x Hw Hb Hx Hv Hne) as (w' & -> & Ht & Hn & Hbf). exists w'. rewrite Hn. split; [done|]. split; [done|].
      cbn [pending buffer_ok]. rewrite app_nil_r. done.
  - exists w. unfold flushInternal. rewrite Hb. split; [done|]. split; [done|]. cbn [pending]. rewrite !app_nil_r. done.
Qed.

(** The buffer that takes the next bytes. *)
Lemma next_buffer (w : BufferedWriter W) a :
  given w a -> let x := default New (bw_buffer w) in
  buf_wf x /\ zlen (v x) = 2048 /\ 0 < room x /\ content x = pending (bw_buffer w).
Proof.
  intros (sent & _ & Hok & _). destruct (bw_buffer w) as [x|]; cbn [default pending buffer_ok] in *.
  - destruct Hok as (? & ? & ?). done.
  - split; [apply New_wf|]. split; [done|]. rewrite New_room. done.
Qed.

(** Bytes go into the buffer, which is flushed when it is full or not used. *)
Lemma added (w : BufferedWriter W) a d (force : bool) :
  given w a -> d <> [] -> zlen d <= room (default New (bw_buffer w)) -> (buffered w = false -> force = true) ->
  let x := push (default New (bw_buffer w)) d in
  exists w', (if force || IsFull (Some x) then flushInternal (set_buffer w (Some x)) else (set_buffer w (Some x), Ok tt)) = (w', Ok tt) /\
    given w' (a ++ d) /\ buffered w' = buffered w.
Proof.
  intros Hg Hd Hr Hf x. destruct (next_buffer w a Hg) as (Hx & Hv & Hroom & Hc). destruct Hg as (sent & Hw & _ & -> & Hun).
  assert (Hxw : buf_wf x) by by apply push_wf. assert (Hxv : zlen (v x) = 2048) by (unfold x; by rewrite push_v_length).
  assert (Hxc : content x = pending (bw_buffer w) ++ d) by (unfold x; by rewrite push_content, Hc).
  assert (Hxn : content x <> []) by (rewrite Hxc; intros E; by apply app_eq_nil in E as [_ ?]).
  destruct (force || IsFull (Some x)) eqn:Ef.
  - destruct (flush_spec (set_buffer w (Some x)) sent x Hw eq_refl Hxw Hxv Hxn) as (w' & -> & Ht & Hn & Hb).
    exists w'. split; [done|]. split; [|done]. exists (sent ++ content x). split; [done|]. rewrite Hn. cbn [buffer_ok pending].
    by rewrite app_nil_r, Hxc, app_assoc.
  - apply orb_false_iff in Ef as [-> Ef]. eexists. split; [done|]. split; [|done]. exists sent. split; [done|].
    cbn [bw_buffer set_buffer buffered buffer_ok pending]. split; [|split; [by rewrite Hxc, app_assoc|intros E; by apply Hf in E]].
    split; [done|]. split; [done|]. unfold IsFull in Ef. rewrite Hxv in Ef. change (i32 2048) with 2048 in Ef. unfold room, buf_wf in *. lia.
Qed.

Lemma Write_loop_given fuel b total (w : BufferedWriter W) a :
  given w a -> (length b <= fuel)%nat ->
  exists w', Write_loop fuel b total w = (w', Ok (total + zlen b)) /\ given w' (a ++ b) /\ buffered w' = buffered w.
Proof.
  revert b total w a. induction fuel as [|fuel IH]; intros b total w a Hg Hl; (destruct b as [|y b];
    [exists w; rewrite app_nil_r, zlen_nil, Z.add_0_r; by destruct w|]); [cbn in Hl; lia|].
  cbn [Write_loop]. destruct (next_buffer w a Hg) as (Hx & Hv & Hroom & _). rewrite (Write_spec _ Hx).
  set (rm := room (default New (bw_buffer w))) in *. set (d := take (Z.to_nat rm) (y :: b)).
  assert (Hd : d <> []) by (unfold d; destruct (Z.to_nat rm) eqn:E; [lia|done]).
  assert (Hdl : zlen d = Z.min rm (zlen (y :: b))) by (unfold d, zlen; rewrite length_take; lia).
  destruct (added w a d (negb (buffered w)) Hg Hd) as (w' & E & Hg' & Hb'); [lia|by intros ->|].
  cbv zeta. cbn [buffered set_buffer]. rewrite E. rewrite <- Hdl.
  assert (Hfrom : from (y :: b) (zlen d) = Ok (drop (Z.to_nat rm) (y :: b))).
  { rewrite <- (take_drop (Z.to_nat rm) (y :: b)) at 1. by apply from_app. }
  rewrite Hfrom. destruct (IH (drop (Z.to_nat rm) (y :: b)) (total + zlen d) w' _ Hg') as (w2 & -> & Hg2 & Hb2).
  { rewrite length_drop. cbn [length] in *. lia. }
  exists w2. rewrite <- app_assoc in Hg2. unfold d in Hg2 at 1. rewrite take_drop in Hg2. split; [|split; [done|congruence]].
  do 2 f_equal. rewrite Hdl. unfold zlen. rewrite length_drop. cbn [length]. lia.
Qed.

Lemma fill_loop_given fuel c (w : BufferedWriter W) a :
  given w a -> buffered w = true -> mb_wf (container c) -> (length (mb_content (container c)) <= fuel)%nat ->
  exists w', fill_loop fuel c w = (w', Ok tt) /\ given w' (a ++ mb_content (container c)) /\ buffered w' = true.
Proof.
  revert c w a. induction fuel as [|fuel IH]; intros c w a Hg Hbuf Hwf Hl; cbn [fill_loop];
    (rewrite IsEmpty_spec by done; case_bool_decide as He; [exists w; rewrite He, app_nil_r; done|]);
    [by destruct (mb_content (container c)); [|cbn in Hl; lia]|].
  destruct (next_buffer w a Hg) as (Hx & Hv & Hroom & _). set (x0 := default New (bw_buffer w)) in *.
  unfold Buf.ReadFrom. unfold buf_wf in Hx. rewrite slice_Some by lia. cbn [rd container_reader]. unfold container_rd, container_Read.
  rewrite IsEmpty_spec by done. rewrite bool_decide_false by done.
  set (n := length _). assert (Hn : Z.of_nat n = room x0) by (unfold n, room, zlen in *; rewrite length_take, length_drop; lia).
  destruct (SplitBytes_spec (container c) n Hwf) as (mb & -> & Hmb & Hc). set (d := take n (mb_content (container c))).
  assert (Hd : d <> []) by (unfold d; destruct (mb_content (container c)); [done|by destruct n; [lia|]]).
  assert (Hdl : zlen d <= room x0) by (unfold d, zlen; rewrite length_take; lia).
  rewrite fill_push by done. destruct (added w a d false Hg Hd Hdl) as (w' & E & Hg' & Hb'); [by rewrite Hbuf|].
  fold x0 in E. cbv zeta in E |- *. cbn [orb] in E. rewrite E. destruct (IH {| container := mb |} w' _ Hg') as (w2 & -> & Hg2 & Hb2); [congruence|done| |].
  { cbn [container]. rewrite Hc, length_drop. lia. }
  exists w2. split; [done|]. split; [|done]. cbn [container] in Hg2. rewrite Hc, <- app_assoc in Hg2. unfold d in Hg2. by rewrite take_drop in Hg2.
Qed.

(** An unbuffered write goes straight through. *)
Lemma through (w : BufferedWriter W) a :
  given w a -> buffered w = false -> taken (bw_writer w) a /\ forall u a', taken u a' -> given (set_writer w u) a'.
Proof.
  intros (sent & Hw & Hok & -> & Hun) Hb. rewrite Hun, app_nil_r by done. split; [done|].
  intros u a' Hu. exists a'. split; [done|]. split; [done|]. cbn [set_writer bw_buffer buffered]. by rewrite Hun, app_nil_r.
Qed.

Lemma Write_given (w : BufferedWriter W) a d :
  given w a -> exists w', buffered_Write d w = (w', Ok (zlen d)) /\ given w' (a ++ d) /\ buffered w' = buffered w.
Proof.
  intros Hg. unfold buffered_Write. destruct d as [|y d]; [exists w; rewrite app_nil_r; done|].
  destruct (buffered w) eqn:Hb; [rewrite <- Hb; by apply (Write_loop_given (length (y :: d)) (y :: d) 0)|].
  destruct as_writer as [f|] eqn:Ef; [|rewrite <- Hb; by apply (Write_loop_given (length (y :: d)) (y :: d) 0)].
  destruct (through w a Hg Hb) as [Hw Hu]. destruct (maybe_taken f Ef (bw_writer w) a (y :: d) Hw) as (u & -> & Ht).
  exists (set_writer w u). split; [done|]. split; [by apply Hu|done].
Qed.

Lemma WriteMultiBuffer_given (w : BufferedWriter W) a mb :
  given w a -> tidy_mb mb -> exists w', write_mb mb w = (w', Ok tt) /\ given w' (a ++ mb_content mb) /\ buffered w' = buffered w.
Proof.
  intros Hg [Ht Hl]. unfold write_mb at 1, buffered_writer. rewrite (tidy_IsEmpty mb Ht).
  case_bool_decide as He; [subst mb; exists w; by rewrite app_nil_r|].
  destruct (buffered w) eqn:Hb; cbn [negb].
  - apply fill_loop_given; [done|done|by apply tidy_wf|done].
  - destruct (through w a Hg Hb) as [Hw Hu]. destruct (taken_write (bw_writer w) a mb Hw) as (u & -> & Hu'); [done|done|].
    exists (set_writer w u). split; [done|]. split; [by apply Hu|done].
Qed.

Lemma New_given u a : taken u a -> given (NewBufferedWriter u) a.
Proof.
  intros Hu. exists a. split; [done|]. cbn [NewBufferedWriter bw_buffer buffer_ok pending buffered]. rewrite New_content, app_nil_r, New_room.
  split; [by split; [apply New_wf|]|done].
Qed.

#[export] Instance buffered_sink : MbSink (BufferedWriter W).
Proof.
  refine {| taken := given; refuses _ := False |}; [|done].
  intros w b mb Hw Ht _. destruct (WriteMultiBuffer_given w b mb Hw Ht) as (w' & ? & ? & _). by exists w'.
Defined.

#[export] Instance buffered_bytes : WriterSink (BufferedWriter W) buffered_Write.
Proof. intros w b d Hw. destruct (Write_given w b d Hw) as (w' & ? & ? & _). by exists w'. Qed.

Lemma Flush_given (w : BufferedWriter W) b :
  given w b -> exists w', Flush w = (w', Ok tt) /\ buffered w' = buffered w /\ holds_back w' b b.
Proof. intros (sent & Hw & Hok & -> & _). by apply flush_all. Qed.

Lemma SetBuffered_given (w : BufferedWriter W) a f :
  given w a -> exists w', SetBuffered f w = (w', Ok tt) /\ buffered w' = f /\ given w' a /\ (f = false -> holds_back w' a a).
Proof.
  intros (sent & Hw & Hok & -> & Hun). unfold SetBuffered. destruct f; cbn [negb].
  - eexists. split; [done|]. split; [done|]. split; [|done]. by exists sent.
  - destruct (flush_all {| bw_writer := bw_writer w; bw_buffer := bw_buffer w; buffered := false |} sent Hw Hok) as (w' & -> & Hb & Hh).
    exists w'. split; [done|]. split; [done|]. split; [by eexists|done].
Qed.

(** ** Calls on a buffered writer *)
Inductive bop :=
  | BWrite (d : bytes)
  | BWriteMultiBuffer (mb : MultiBuffer)
  | BFlush
  | BSetBuffered (f : bool).

Definition bop_step (o : bop) : ST (BufferedWriter W) unit :=
  match o with
  | BWrite d => _ ← buffered_Write d; mret tt
  | BWriteMultiBuffer mb => write_mb mb
  | BFlush => Flush
  | BSetBuffered f => SetBuffered f
  end.

Definition bop_bytes (o : bop) : bytes :=
  match o with BWrite d => d | BWriteMultiBuffer mb => mb_content mb | _ => [] end.

Definition bop_ok (o : bop) : Prop := match o with BWriteMultiBuffer mb => tidy_mb mb | _ => True end.

Fixpoint bop_run (ops : list bop) : ST (BufferedWriter W) unit :=
  match ops with [] => mret tt | o :: ops => _ ← bop_step o; bop_run ops end.

Lemma bop_step_given o w a : given w a -> bop_ok o -> exists w', bop_step o w = (w', Ok tt) /\ given w' (a ++ bop_bytes o).
Proof.
  intros Hg Ho. destruct o as [d|mb| |f]; cbn [bop_step bop_bytes].
  - destruct (Write_given w a d Hg) as (w' & E & ? & _). exists w'. unfold mbind, st_bind. by rewrite E.
  - destruct (WriteMultiBuffer_given w a mb Hg Ho) as (w' & ? & ? & _). by exists w'.
  - destruct (Flush_given w a Hg) as (w' & ? & _ & ?). exists w'. rewrite app_nil_r. split; [done|]. by exists a.
  - destruct (SetBuffered_given w a f Hg) as (w' & ? & _ & ? & _). exists w'. by rewrite app_nil_r.
Qed.

Lemma bop_run_given ops w a :
  given w a -> Forall bop_ok ops -> exists w', bop_run ops w = (w', Ok tt) /\ given w' (a ++ concat (map bop_bytes ops)).
Proof.
  intros Hg Ho. revert w a Hg. induction Ho as [|o ops Ho Hos IH]; intros w a Hg; cbn [bop_run map concat].
  - exists w. by rewrite app_nil_r.
  - destruct (bop_step_given o w a Hg Ho) as (w1 & E & Hg1). destruct (IH w1 _ Hg1) as (w2 & E2 & Hg2).
    exists w2. unfold mbind, st_bind. rewrite E, E2, app_assoc. done.
Qed.

(** A buffered writer loses and reorders nothing: after any calls on it, what
    the writer underneath has taken and what is still in the buffer - less than
    2048 bytes, and nothing once buffering is off - are the bytes written, in
    order; flushing hands over all of them. *)
Theorem buffered_writer_transparent (ops : list bop) (u : W) (Hu : taken u []) (Ho : Forall bop_ok ops) :
  exists w sent, bop_run ops (NewBufferedWriter u) = (w, Ok tt) /\ taken (bw_writer w) sent /\
    concat (map bop_bytes ops) = sent ++ pending (bw_buffer w) /\ zlen (pending (bw_buffer w)) < 2048 /\
    (buffered w = false -> pending (bw_buffer w) = []) /\
    exists w', Flush w = (w', Ok tt) /\ taken (bw_writer w') (concat (map bop_bytes ops)).
Proof.
  destruct (bop_run_given ops _ [] (New_given u [] Hu) Ho) as (w & E & Hg). pose proof Hg as (sent & Hw & Hok & Heq & Hun).
  destruct (Flush_given w _ Hg) as (w' & Ef & _ & Hw' & _). exists w, sent. split; [done|]. split; [done|]. split; [done|].
  split; [|split; [done|by exists w']]. destruct (bw_buffer w) as [x|]; cbn [pending buffer_ok] in *; [|done].
  destruct Hok as (Hx & Hv & Hr). rewrite (zlen_content x Hx). unfold room, buf_wf in *. lia.
Qed.
End BufferedSpec.

Definition demo_ops : list bop :=
  [BWrite (lit "ab"); BWriteMultiBuffer [push New (lit "cd"); push New (lit "e")]; BSetBuffered false; BWrite (lit "fg");
   BSetBuffered true; BWrite (lit "h")].

Lemma buffered_writer_transparent_witness :
  exists w sent', bop_run demo_ops (NewBufferedWriter (toBytes sink_empty)) = (w, Ok tt) /\
    concat (sent (to_writer (bw_writer w))) = sent' /\ lit "abcdefgh" = sent' ++ pending (bw_buffer w) /\ pending (bw_buffer w) = lit "h".
Proof.
  assert (Ht : Forall bop_ok demo_ops).
  { constructor; [done|]. constructor; [|by repeat constructor]. split; [|vm_compute; reflexivity].
    constructor; [apply tidy_push; vm_compute; split; discriminate|]. constructor; [apply tidy_push; vm_compute; split; discriminate|constructor]. }
  destruct (buffered_writer_transparent demo_ops (toBytes sink_empty)) as (w & s & E & [_ Hs] & Hc & _ & _ & _); [by split|exact Ht|].
  exists w, s. split; [done|]. split; [done|]. split; [rewrite <- Hc; reflexivity|].
  assert (Ew : w = (bop_run demo_ops (NewBufferedWriter (toBytes sink_empty))).1) by by rewrite E. rewrite Ew. vm_compute. reflexivity.
Defined.
