(* ===== verification/Headers.v ===== *)
(** * Package common/protocol: request headers and users

    The request header that the proxies' codecs exchange with their inbounds and
    outbounds, with its commands, options and destination (headers.go, user.go).
    The account of a user is the type [A] of the protocol at hand. *)
From S2P Require Import Prelude GoStd NetAddr.
Import NetAddr.

Module Headers.

(** [RequestCommand] and [TransferType]. *)
Definition RequestCommandTCP : Z := 1.
Definition RequestCommandUDP : Z := 2.
Definition RequestCommandMux : Z := 3.

Inductive TransferType := TransferTypeStream | TransferTypePacket.

Definition RequestCommand_TransferType (c : Z) : TransferType :=
  if (c =? RequestCommandTCP) || (c =? RequestCommandMux) then TransferTypeStream
  else if c =? RequestCommandUDP then TransferTypePacket
  else TransferTypeStream.

Definition RequestOptionChunkStream : Z := 1.
Definition RequestOptionConnectionReuse : Z := 2.
Definition RequestOptionChunkMasking : Z := 4.
Definition RequestOptionGlobalPadding : Z := 8.
Definition RequestOptionAuthenticatedLength : Z := 16.

(** [Account] is [None] for a nil interface. *)
Record MemoryUser (A : Type) := mkUser { Account : option A; Email : bytes; Level : Z }.

Record RequestHeader (A : Type) := mkRequest {
  Version : Z;
  Command : Z;
  Option : Z;
  Security : Z;
  RPort : Port;
  RAddress : option Address;
  User : option (MemoryUser A);
}.
Arguments mkUser {A}.
Arguments Account {A}.
Arguments Email {A}.
Arguments Level {A}.
Arguments mkRequest {A}.
Arguments Version {A}.
Arguments Command {A}.
Arguments Option {A}.
Arguments Security {A}.
Arguments RPort {A}.
Arguments RAddress {A}.
Arguments User {A}.

(** [RequestHeader.Destination] *)
Definition Destination {A} (h : RequestHeader A) : NetAddr.Destination :=
  if Command h =? RequestCommandUDP then UDPDestination (RAddress h) (RPort h)
  else TCPDestination (RAddress h) (RPort h).
End Headers.
