(* ===== verification/Socks.v ===== *)
(** * Package proxy/socks: the protocol

    [Module Socks] models proxy/socks/protocol.go and config.go: the server's
    side of the SOCKS 4, 4a and 5 handshakes, the client's side, and the
    datagrams of UDP.  The connection is a reader and a writer; the closure
    [flushLastReply] is the data it captured ([callback]). *)
From S2P Require Import Prelude GoStd Buf NetAddr AddrParser Codec Talk Headers.
Import Buf NetAddr AddrParser Codec Talk Headers.

Module Socks.

Definition socks5Version : Z := 5.
Definition socks4Version : Z := 4.
Definition cmdTCPConnect : Z := 1.
Definition cmdTCPBind : Z := 2.
Definition cmdUDPAssociate : Z := 3.
Definition cmdTorResolve : Z := 240.
Definition cmdTorResolvePTR : Z := 241.
Definition socks4RequestGranted : Z := 90.
Definition socks4RequestRejected : Z := 91.
Definition authNotRequired : Z := 0.
Definition authPassword : Z := 2.
Definition authNoMatchingMethod : Z := 255.
Definition statusSuccess : Z := 0.
Definition statusConnRefused : Z := 5.
Definition statusCmdNotSupport : Z := 7.

Definition socks_options : res (list AddressOption) :=
  o1 ← AddressFamilyByte 1 AddressFamilyIPv4;
  o2 ← AddressFamilyByte 4 AddressFamilyIPv6;
  o3 ← AddressFamilyByte 3 AddressFamilyDomain;
  Ok [o1; o2; o3].

Definition addrParser : AddressSerializer :=
  NewAddressParser (match socks_options with Ok l => l | _ => [] end).

(** ** config.go *)
Record SocksAccount := mkAccount { Username : bytes; Password : bytes }.

(** [another] is [None] when it is an account of another protocol. *)
Definition Equals (a : SocksAccount) (another : Datatypes.option SocksAccount) : bool :=
  match another with Some account => bool_decide (Username a = Username account) | None => false end.

Inductive AuthType := AuthType_NO_AUTH | AuthType_PASSWORD.

#[export] Instance AuthType_eq_dec : EqDecision AuthType.
Proof. solve_decision. Defined.

Record ServerConfig := mkConfig {
  c_AuthType : AuthType;
  Accounts : Datatypes.option (gmap bytes bytes);
  c_Address : Datatypes.option IPOrDomain;
  UdpEnabled : bool;
  Timeout : Z;
  UserLevel : Z;
  PacketEncoding : Z;
  DeferLastReply : bool;
}.

Definition HasAccount (c : ServerConfig) (username password : bytes) : bool :=
  match Accounts c with
  | None => false
  | Some accounts =>
    match accounts !! username with
    | None => false
    | Some storedPassed => bool_decide (storedPassed = password)
    end
  end.

(** ** protocol.go: the pieces *)
Abbreviation Request := (RequestHeader SocksAccount).

Fixpoint hasAuthMethod (expectedAuth : Z) (authCandidates : bytes) : bool :=
  match authCandidates with
  | [] => false
  | a :: authCandidates' => if b2z a =? expectedAuth then true else hasAuthMethod expectedAuth authCandidates'
  end.

(** The method call on a nil [Address] panics. *)
Definition WriteAddress {W} `{Writer W} (addr : Datatypes.option Address) (port : Port) : ST W unit :=
  match addr with
  | Some a => WriteAddressPort addrParser a port
  | None => st_panic
  end.

(** What [fun(ok bool) error] may be in [flushLastReply]: nil, the callback that
    does nothing, or one of the two that [handshake4] and [handshake5] pass. *)
Inductive callback :=
  | nil_callback
  | noOpCallback
  | reply4
  | reply5 (responseAddress : Datatypes.option Address) (responsePort : Port).

Record ServerSession := mkSession {
  config : ServerConfig;
  address : Datatypes.option Address;
  port : Port;
  clientAddress : Datatypes.option Address;
  flushLastReply_ : callback;
}.

Definition set_flush (s : ServerSession) (f : callback) : ServerSession :=
  {| config := config s; address := address s; port := port s; clientAddress := clientAddress s;
     flushLastReply_ := f |}.

Section Server.
Context {R W : Type} `{Reader R} `{Writer W}.

Definition writeSocks5AuthenticationResponse (version auth : Z) : ST W unit :=
  WriteAllBytes [z2b version; z2b auth].

Definition socks5_response (errCode : Z) (addr : Datatypes.option Address) (p : Port) : ST Buffer unit :=
  _ ← Must (Write [z2b socks5Version; z2b errCode; x00]);
  WriteAddress addr p.

Definition writeSocks5Response (errCode : Z) (addr : Datatypes.option Address) (p : Port) : ST W unit :=
  buffer ← st_lift (build (socks5_response errCode addr p) New);
  data ← st_lift (Bytes buffer);
  WriteAllBytes data.

(** [buffer.Extend(2)] and [binary.BigEndian.PutUint16] into the window. *)
Definition extend_port (p : Port) : ST Buffer unit := fun b =>
  match Extend b 2 with
  | Ok (b, w) => (poke b w (put_be 2 p), Ok tt)
  | Err e => (b, Err e)
  | Panic => (b, Panic)
  end.

Definition socks4_response (errCode : Z) (addr : Datatypes.option Address) (p : Port) : ST Buffer unit :=
  _ ← Must (WriteByte x00);
  _ ← Must (WriteByte (z2b errCode));
  _ ← extend_port p;
  a ← st_lift (or_panic addr);
  ip ← st_lift (IP a);
  _ ← Must (Write ip);
  mret tt.

Definition writeSocks4Response (errCode : Z) (addr : Datatypes.option Address) (p : Port) : ST W unit :=
  buffer ← st_lift (build (socks4_response errCode addr p) StackNew);
  data ← st_lift (Bytes buffer);
  WriteAllBytes data.

(** One round of the loop adds a byte to the buffer, so its size is enough. *)
Fixpoint ReadUntilNull_loop (fuel : nat) (b : Buffer) : ST R bytes :=
  match fuel with
  | O => st_err (NewError "no progress")
  | S fuel' =>
    b ← recv 1 b;
    c ← st_lift (Byte b (i32 (Len (Some b) - 1)));
    if decide (c = x00)
    then b ← st_lift (Resize b 0 (i32 (Len (Some b) - 1))); st_lift (Bytes b)
    else if IsFull (Some b) then st_err (NewError "buffer overrun")
    else ReadUntilNull_loop fuel' b
  end.

Definition ReadUntilNull : ST R bytes := ReadUntilNull_loop (length (v StackNew)) StackNew.

Definition ReadUsernamePassword : ST R (bytes * bytes) :=
  b ← recv 2 StackNew;
  nUsername ← st_lift (Byte b 1);
  b ← recv (b2z nUsername) (Clear b);
  username ← st_lift (Bytes b);
  b ← recv 1 (Clear b);
  nPassword ← st_lift (Byte b 0);
  b ← recv (b2z nPassword) (Clear b);
  password ← st_lift (Bytes b);
  mret (username, password).

(** ** The server's handshake *)

(** What the callback writes. *)
Definition last_reply (f : callback) (ok : bool) : ST W unit :=
  match f with
  | nil_callback => st_panic
  | noOpCallback => mret tt
  | reply4 => writeSocks4Response (if ok then socks4RequestGranted else socks4RequestRejected) AnyIP 0
  | reply5 responseAddress responsePort =>
    if ok then writeSocks5Response statusSuccess responseAddress responsePort
    else writeSocks5Response statusConnRefused AnyIP 0
  end.

(** The field is reset before the callback runs; what the session is after it. *)
Definition flushLastReply (s : ServerSession) (ok : bool) : ST (R * W) ServerSession :=
  _ ← say (last_reply (flushLastReply_ s) ok);
  mret (set_flush s noOpCallback).

Definition setupLastReply (s : ServerSession) (f : callback) : ST (R * W) ServerSession :=
  if DeferLastReply (config s) then mret (set_flush s f) else flushLastReply (set_flush s f) true.

Definition reject4 {A} (e : error) : ST (R * W) A :=
  _ ← ignoring (say (writeSocks4Response socks4RequestRejected AnyIP 0)); st_err e.

Definition reject5 {A} (e : error) : ST (R * W) A :=
  _ ← ignoring (say (writeSocks5Response statusCmdNotSupport AnyIP 0)); st_err e.

(** Up to the command: the port and the address. *)
Definition request4 : ST R (Port * Datatypes.option Address) :=
  buffer ← st_base "insufficient header" (recv 6 StackNew);
  d ← st_lift (BytesRange buffer 0 2);
  port ← st_lift (PortFromBytes d);
  d ← st_lift (BytesRange buffer 2 6);
  let address := IPAddress d in
  _ ← ReadUntilNull; (* user id *)
  a ← st_lift (or_panic address);
  ip ← st_lift (IP a);
  b0 ← st_lift (or_panic (index ip 0));
  if decide (b0 = x00)
  then domain ← st_base "failed to read domain for socks 4a" ReadUntilNull;
       mret (port, Some (DomainAddress domain))
  else mret (port, address).

Definition handshake4 (s : ServerSession) (cmd : Z) : ST (R * W) (ServerSession * Request) :=
  if decide (c_AuthType (config s) = AuthType_PASSWORD)
  then reject4 (NewError "socks 4 is not allowed when auth is required.")
  else
    '(port, address) ← listen request4;
    if cmd =? cmdTCPConnect
    then s ← setupLastReply s reply4;
         mret (s, {| Command := RequestCommandTCP; RAddress := address; RPort := port;
                     Version := socks4Version; Option := 0; Security := 0; User := None |})
    else reject4 (NewError "unsupported command: ").

Definition auth5 (config : ServerConfig) (nMethod : Z) : ST (R * W) bytes :=
  buffer ← listen (st_base "failed to read auth methods" (recv nMethod StackNew));
  let expectedAuth := if decide (c_AuthType config = AuthType_PASSWORD) then authPassword else authNotRequired in
  methods ← st_lift (BytesRange buffer 0 nMethod);
  if negb (hasAuthMethod expectedAuth methods)
  then _ ← ignoring (say (writeSocks5AuthenticationResponse socks5Version authNoMatchingMethod));
       st_err (NewError "no matching auth method")
  else
    _ ← st_base "failed to write auth response" (say (writeSocks5AuthenticationResponse socks5Version expectedAuth));
    if expectedAuth =? authPassword
    then
      '(username, password) ←
        listen (st_base "failed to read username and password for authentication" ReadUsernamePassword);
      if negb (HasAccount config username password)
      then _ ← ignoring (say (writeSocks5AuthenticationResponse 1 255));
           st_err (NewError "invalid username or password")
      else
        _ ← st_base "failed to write auth response" (say (writeSocks5AuthenticationResponse 1 0));
        mret username
    else mret [].

(** The [RequestCommand] of the byte the client sent, or the refusal. *)
Definition command5 (config : ServerConfig) (cmd : Z) : ST (R * W) Z :=
  if (cmd =? cmdTCPConnect) || (cmd =? cmdTorResolve) || (cmd =? cmdTorResolvePTR)
  then mret RequestCommandTCP
  else if cmd =? cmdUDPAssociate
  then if negb (UdpEnabled config) then reject5 (NewError "UDP is not enabled.") else mret RequestCommandUDP
  else if cmd =? cmdTCPBind then reject5 (NewError "TCP bind is not supported.")
  else reject5 (NewError "unknown command ").

Definition responseAddress (s : ServerSession) (command : Z) : Datatypes.option Address :=
  if command =? RequestCommandUDP then
    match c_Address (config s) with
    | Some a => AsAddress (Some a)
    | None =>
      if decide (clientAddress s = LocalHostIP \/ clientAddress s = LocalHostIPv6)
      then clientAddress s else address s
    end
  else address s.

(** The request up to its address. *)
Definition request5 (config : ServerConfig) (nMethod : Z) : ST (R * W) Request :=
  username ← auth5 config nMethod;
  buffer ← listen (st_base "failed to read request" (recv 3 StackNew));
  cmd ← st_lift (Byte buffer 1);
  command ← command5 config (b2z cmd);
  '(addr, port) ← listen (st_base "failed to read address" (ReadAddressPort addrParser));
  mret {| Command := command; RAddress := Some addr; RPort := port; Version := socks5Version;
          Option := 0; Security := 0;
          User := match username with
                  | [] => None
                  | _ => Some {| Account := None; Email := username; Level := 0 |}
                  end |}.

Definition handshake5 (s : ServerSession) (nMethod : Z) : ST (R * W) (ServerSession * Request) :=
  request ← request5 (config s) nMethod;
  s' ← setupLastReply s (reply5 (responseAddress s (Command request)) (port s));
  mret (s', request).

Definition Handshake (s : ServerSession) : ST (R * W) (ServerSession * Request) :=
  buffer ← listen (st_base "insufficient header" (recv 2 StackNew));
  version ← st_lift (Byte buffer 0);
  cmd ← st_lift (Byte buffer 1);
  if b2z version =? socks4Version then handshake4 s (b2z cmd)
  else if b2z version =? socks5Version then handshake5 s (b2z cmd)
  else st_err (NewError "unknown Socks version: ").
End Server.

(** ** Datagrams *)
Definition DecodeUDPPacket : ST Buffer Request := fun packet =>
  if Len (Some packet) <? 5 then (packet, Err (NewError "insufficient length of packet.")) else
  (frag ← st_lift (Byte packet 2);
   if negb (b2z frag =? 0) then st_err (NewError "discarding fragmented payload.") else
   fun packet =>
     ('(addr, port) ← st_base "failed to read UDP header" (ReadAddressPort addrParser);
      mret {| Version := socks5Version; Command := RequestCommandUDP; RAddress := Some addr;
              RPort := port; Option := 0; Security := 0; User := None |}) (Advance packet 3)) packet.

Definition packet_steps (addr : Datatypes.option Address) (port : Port) (data : bytes) : ST Buffer unit :=
  _ ← Must (Write [x00; x00; x00]);
  _ ← WriteAddress addr port;
  _ ← Must (Write data);
  mret tt.

Definition EncodeUDPPacket (request : Request) (data : bytes) : res Buffer :=
  build (packet_steps (RAddress request) (RPort request) data) New.

Definition EncodeUDPPacketFromAddress (address : NetAddr.Destination) (data : bytes) : res Buffer :=
  build (packet_steps (DAddress address) (DPort address) data) New.

Section UDP.
Context {R W : Type} `{Reader R} `{Writer W}.

Definition UDPReader_ReadMultiBuffer : ST R (list Buffer) := fun r =>
  match ReadFrom (New, r) with
  | ((b, r), Ok _) =>
    match DecodeUDPPacket b with
    | (b, Ok _) => (r, Ok [b])
    | (_, Err e) => (r, Err e)
    | (_, Panic) => (r, Panic)
    end
  | ((_, r), Err e) => (r, Err e)
  | ((_, r), Panic) => (r, Panic)
  end.

(** [ReadFrom(p)] with [n] bytes of room: the bytes, the sender's IP address and
    its port. *)
Definition UDPReader_ReadFrom (n : nat) : ST R (bytes * (bytes * Z)) := fun r =>
  match ReadFrom (New, r) with
  | ((buffer, r), Ok _) =>
    match DecodeUDPPacket buffer with
    | (buffer, Ok req) =>
      (r, data ← Bytes buffer;
          a ← or_panic (RAddress req);
          ip ← IP a;
          Ok (take n data, (ip, RPort req)))
    | (_, Err e) => (r, Err e)
    | (_, Panic) => (r, Panic)
    end
  | ((_, r), Err e) => (r, Err e)
  | ((_, r), Panic) => (r, Panic)
  end.

(** [UDPWriter.Write(b)] with the writer's [request]. *)
Definition UDPWriter_Write (request : Request) (b : bytes) : ST W Z :=
  eb ← st_lift (EncodeUDPPacket request b);
  data ← st_lift (Bytes eb);
  _ ← wr data;
  mret (zlen b).

Definition set_target (h : Request) (address : Datatypes.option Address) (port : Port) : Request :=
  {| Version := Version h; Command := RequestCommandUDP; Option := Option h; Security := Security h;
     RPort := port; RAddress := address; User := User h |}.

(** [WriteTo(payload, addr)] to the UDP address of [ip] and [port]. *)
Definition UDPWriter_WriteTo (request : Request) (payload ip : bytes) (udpPort : Z) : ST W Z :=
  packet ← st_lift (EncodeUDPPacket (set_target request (IPAddress ip) (u16 udpPort)) payload);
  data ← st_lift (Bytes packet);
  _ ← wr data;
  mret (zlen payload).
End UDP.

(** ** The client's handshake *)
Section Client.
Context {R W : Type} `{Reader R} `{Writer W}.

(** [request.User.Account.(asterisk Account)]: a panic when the account is not
    one of this protocol. *)
Definition account_of (request : Request) : res SocksAccount :=
  match User request with
  | Some u => or_panic (Account u)
  | None => Panic
  end.

Definition auth_steps (request : Request) : ST Buffer unit :=
  account ← st_lift (account_of request);
  _ ← Must (WriteByte x01);
  _ ← Must (WriteByte (z2b (u8 (zlen (Username account)))));
  _ ← Must (WriteString (Username account));
  _ ← Must (WriteByte (z2b (u8 (zlen (Password account)))));
  _ ← Must (WriteString (Password account));
  mret tt.

Definition greeting_steps (request : Request) (authByte : Z) (delayAuthWrite : bool) : ST Buffer unit :=
  _ ← Must (Write [z2b socks5Version; x01; z2b authByte]);
  if negb delayAuthWrite && (authByte =? authPassword) then auth_steps request else mret tt.

Definition request_steps (request : Request) : ST Buffer unit :=
  let command := if Command request =? RequestCommandUDP then cmdUDPAssociate else cmdTCPConnect in
  _ ← Must (Write [z2b socks5Version; z2b command; x00]);
  WriteAddress (RAddress request) (RPort request).

(** [steps] on the buffer and [WriteAllBytes(writer, b.Bytes())]. *)
Definition send (steps : ST Buffer unit) (b : Buffer) : ST (R * W) Buffer :=
  b ← st_lift (build steps b);
  data ← st_lift (Bytes b);
  _ ← say (WriteAllBytes data);
  mret b.

(** The password, once the server has chosen it. *)
Definition authenticate (request : Request) (delayAuthWrite : bool) (b : Buffer) : ST (R * W) Buffer :=
  b ← (if delayAuthWrite then b ← send (auth_steps request) b; mret (Clear b) else mret b);
  b ← listen (recv 2 b);
  status ← st_lift (Byte b 1);
  if negb (b2z status =? 0) then st_err (NewError "server rejects account: ") else mret b.

(** The greeting and the authentication, in the buffer [b]. *)
Definition greet (request : Request) (delayAuthWrite : bool) (b : Buffer) : ST (R * W) Buffer :=
  let authByte := match User request with Some _ => authPassword | None => authNotRequired end in
  b ← send (greeting_steps request authByte delayAuthWrite) b;
  b ← listen (recv 2 (Clear b));
  version ← st_lift (Byte b 0);
  if negb (b2z version =? socks5Version) then st_err (NewError "unexpected server version: ") else
  method ← st_lift (Byte b 1);
  if negb (b2z method =? authByte) then st_err (NewError "auth method not supported.") else
  if authByte =? authPassword then authenticate request delayAuthWrite (Clear b) else mret b.

Definition ClientHandshake (request : Request) (delayAuthWrite : bool)
    : ST (R * W) (Datatypes.option Request) :=
  b ← greet request delayAuthWrite New;
  b ← send (request_steps request) (Clear b);
  b ← listen (recv 3 (Clear b));
  resp ← st_lift (Byte b 1);
  if negb (b2z resp =? 0) then st_err (NewError "server rejects request: ") else
  '(address, port) ← listen (scratch (Clear b) (ReadAddressPort_with addrParser));
  mret (if Command request =? RequestCommandUDP
        then Some {| Version := socks5Version; Command := RequestCommandUDP; RAddress := Some address;
                     RPort := port; Option := 0; Security := 0; User := None |}
        else None).

Definition request4_steps (request : Request) : ST Buffer unit :=
  _ ← Must (Write [z2b socks4Version; z2b cmdTCPConnect]);
  _ ← extend_port (RPort request);
  a ← st_lift (or_panic (RAddress request));
  _ ← (match a with
       | ipv4Address ip => Must (Write ip)
       | domainAddress _ => Must (Write [x00; x00; x00; x01])
       | ipv6Address _ => st_err (NewError "ipv6 is not supported in socks4")
       end);
  _ ← (match User request with
       | Some _ => account ← st_lift (account_of request); Must (WriteString (Username account))
       | None => mret 0
       end);
  _ ← Must (WriteByte x00);
  match a with
  | domainAddress d => _ ← Must (WriteString d); Must (WriteByte x00)
  | _ => mret tt
  end.

Definition ClientHandshake4 (request : Request) : ST (R * W) unit :=
  b ← send (request4_steps request) New;
  b ← listen (recv 8 (Clear b));
  version ← st_lift (Byte b 0);
  if negb (b2z version =? 0) then st_err (NewError "unexpected version of the reply code: ") else
  code ← st_lift (Byte b 1);
  if negb (b2z code =? socks4RequestGranted) then st_err (NewError "server rejects request: ")
  else mret tt.
End Client.

(** ** server.go *)
Definition Server_Network (config : ServerConfig) : list Network :=
  Network_TCP :: (if UdpEnabled config then [Network_UDP] else []).

Inductive dispatched (L : Type) :=
  | Linked (link : L)
  | Interrupted (link : L) (e : error).
Arguments Linked {L}.
Arguments Interrupted {L}.

(** What [processTCP] goes on to: copying between the connection and the link of
    the dispatcher, or waiting for the client of a UDP association to hang up.
    The email is that of [inbound.User] when the request names one; [Broken] is
    the error of a link that was interrupted. *)
Inductive outcome (L : Type) :=
  | Transport (link : L) (dest : NetAddr.Destination) (email : Datatypes.option bytes)
  | Associate (email : Datatypes.option bytes)
  | Finished (email : Datatypes.option bytes)
  | Broken (link : L) (e : error).
Arguments Transport {L}.
Arguments Associate {L}.
Arguments Finished {L}.
Arguments Broken {L}.

Section Inbound.
Context {R W L : Type} `{Reader R} `{Writer W}.

(** [handshakeFinalizingDispatcher.Dispatch] over the dispatcher [delegate]: the
    link, or the link it interrupted and the error it returns. *)
Definition Finalizing_Dispatch (delegate : NetAddr.Destination -> res L) (s : ServerSession)
    (dest : NetAddr.Destination) : ST (R * W) (dispatched L) :=
  match delegate dest with
  | Ok link =>
    x ← attempt (flushLastReply s true);
    mret (match x with inl _ => Linked link | inr e => Interrupted link e end)
  | Err e => _ ← ignoring (flushLastReply s false); st_err e
  | Panic => st_panic
  end.

Definition processTCP (config : ServerConfig) (gateway source : NetAddr.Destination)
    (delegate : NetAddr.Destination -> res L) : ST (R * W) (outcome L) :=
  if negb (bool_decide (DNetwork gateway <> Network_Unknown))
  then st_err (NewError "inbound gateway not specified")
  else
    let svrSession := {| config := config; address := DAddress gateway; port := DPort gateway;
                         clientAddress := DAddress source; flushLastReply_ := nil_callback |} in
    '(svrSession, request) ← st_base "failed to read request" (Handshake svrSession);
    let email := match User request with Some u => Some (Email u) | None => None end in
    if Command request =? RequestCommandTCP
    then
      let dest := Destination request in
      x ← Finalizing_Dispatch delegate svrSession dest;
      mret (match x with
            | Linked link => Transport link dest email
            | Interrupted link e => Broken link e
            end)
    else
      _ ← flushLastReply svrSession true;
      mret (if Command request =? RequestCommandUDP then Associate email else Finished email).
End Inbound.

(** The loop of [handleUDPPayload] over what [ReadMultiBuffer] returned: what it
    dispatches. *)
Fixpoint handleUDPPayload (mpayload : list Buffer) : res (list (NetAddr.Destination * Buffer)) :=
  match mpayload with
  | [] => Ok []
  | payload :: mpayload' =>
    match DecodeUDPPacket payload with
    | (_, Err _) => handleUDPPayload mpayload'
    | (_, Panic) => Panic
    | (payload, Ok request) =>
      if IsEmpty (Some payload) then handleUDPPayload mpayload'
      else l ← handleUDPPayload mpayload'; Ok ((Destination request, payload) :: l)
    end
  end.

(** ** client.go: the request [Process] makes for [destination] *)
Inductive ClientVersion := Version_SOCKS5 | Version_SOCKS4 | Version_SOCKS4A.

(** [lookup] is the DNS client, asked for IPv4 addresses. *)
Definition Client_request (version : ClientVersion) (lookup : bytes -> res (list bytes))
    (user : Datatypes.option (MemoryUser SocksAccount)) (destination : NetAddr.Destination) : res Request :=
  a ← or_panic (DAddress destination);
  address ← (match version with
             | Version_SOCKS4 =>
               if IsDomain (Family a)
               then d ← Domain a;
                    ips ← lookup d;
                    match ips with
                    | [] => Err (NewError "empty response")
                    | ip :: _ => Ok (IPAddress ip)
                    end
               else Ok (Some a)
             | _ => Ok (Some a)
             end);
  v ← (match version with
       | Version_SOCKS5 => Ok socks5Version
       | _ =>
         if decide (DNetwork destination = Network_UDP)
         then Err (NewError "udp is not supported in socks4")
         else if IsIPv6 (Family a) then Err (NewError "ipv6 is not supported in socks4")
         else Ok socks4Version
       end);
  Ok {| Version := v; RAddress := address; RPort := DPort destination; Option := 0; Security := 0;
        Command := if decide (DNetwork destination = Network_UDP) then RequestCommandUDP else RequestCommandTCP;
        User := user |}.

(** Where [Process] sends the datagrams: the server's own address when it named
    none. *)
Definition udp_relay (dest : NetAddr.Destination) (udpRequest : Request) : Request :=
  if decide (RAddress udpRequest = AnyIP \/ RAddress udpRequest = AnyIPv6)
  then {| Version := Version udpRequest; Command := Command udpRequest; Option := Option udpRequest;
          Security := Security udpRequest; RPort := RPort udpRequest; RAddress := DAddress dest;
          User := User udpRequest |}
  else udpRequest.
End Socks.
