(* ===== verification/SocksSpec.v ===== *)
(** * Package proxy/socks: the two sides agree

    The client's and the server's handshakes as two programs on one connection:
    what each has written at every point where it waits, and the theorem that
    they finish together with the same request.  The rest: nobody passes a
    server that asks for a password without one, no input makes the server
    panic, and datagrams survive the wire. *)
From S2P Require Import Prelude GoStd Buf MultiBuf NetAddr AddrParser Codec Talk Headers Socks.
Import Buf NetAddr AddrParser Codec Talk Headers Socks.

Module SocksSpec.

(** What the two sides say.  [u] is the account of the request, if any. *)
Definition method_byte (u : Datatypes.option SocksAccount) : byte :=
  match u with Some _ => x02 | None => x00 end.
Definition login (acc : SocksAccount) : bytes :=
  [x01; z2b (zlen (Username acc))] ++ Username acc ++ [z2b (zlen (Password acc))] ++ Password acc.
Definition login_message (u : Datatypes.option SocksAccount) : bytes :=
  match u with Some acc => login acc | None => [] end.

(** The client's messages: the greeting, the password if it waits for the
    server's choice, the request. *)
Definition greeting (u : Datatypes.option SocksAccount) (delay : bool) : bytes :=
  [x05; x01; method_byte u] ++ (if delay then [] else login_message u).
Definition late_login (u : Datatypes.option SocksAccount) (delay : bool) : bytes :=
  if delay then login_message u else [].
Definition command_byte (udp : bool) : byte := if udp then x03 else x01.
Definition request_message (udp : bool) (a : Address) (port : Port) : bytes :=
  [x05; command_byte udp; x00] ++ encode addrParser a port.

(** The server's: the method, the verdict on the password, the last reply. *)
Definition method_reply (u : Datatypes.option SocksAccount) : bytes := [x05; method_byte u].
Definition login_reply (u : Datatypes.option SocksAccount) : bytes :=
  match u with Some _ => [x01; x00] | None => [] end.
Definition reply (status : byte) (a : Address) (port : Port) : bytes :=
  [x05; status; x00] ++ encode addrParser a port.

(** An account that fits the message, and is the server's. *)
Definition account_ok (c : ServerConfig) (u : Datatypes.option SocksAccount) : Prop :=
  match u with
  | Some acc =>
    c_AuthType c = AuthType_PASSWORD /\ HasAccount c (Username acc) (Password acc) = true /\
    zlen (Username acc) <= 255 /\ zlen (Password acc) <= 255
  | None => c_AuthType c = AuthType_NO_AUTH
  end.

Definition user_of (u : Datatypes.option SocksAccount) : Datatypes.option (MemoryUser SocksAccount) :=
  match u with
  | Some acc => Some {| Account := Some acc; Email := []; Level := 0 |}
  | None => None
  end.

Definition request_of (u : Datatypes.option SocksAccount) (udp : bool) (a : Address) (p : Port) : Request :=
  {| Version := socks5Version; Command := if udp then RequestCommandUDP else RequestCommandTCP;
     Option := 0; Security := 0; RPort := p; RAddress := Some a; User := user_of u |}.

(** The server keeps the name only. *)
Definition username (u : Datatypes.option SocksAccount) : bytes :=
  match u with Some acc => Username acc | None => [] end.
Definition email (u : Datatypes.option SocksAccount) : Datatypes.option bytes :=
  match username u with [] => None | n => Some n end.
Definition named_request (u : Datatypes.option SocksAccount) (udp : bool) (a : Address) (p : Port) : Request :=
  {| Version := socks5Version; Command := if udp then RequestCommandUDP else RequestCommandTCP;
     Option := 0; Security := 0; RPort := p; RAddress := Some a;
     User := match username u with
             | [] => None
             | n => Some {| Account := None; Email := n; Level := 0 |}
             end |}.

(** The last reply is a refusal only when it waited for a dispatcher that failed. *)
Definition granted {L} (c : ServerConfig) (udp : bool) (d : res L) : bool :=
  udp || negb (DeferLastReply c) || match d with Ok _ => true | _ => false end.
Definition any_address : Address := ipv4Address (replicate 4 x00).
Definition last_message (ok : bool) (ra : Address) (p : Port) : bytes :=
  if ok then reply x00 ra p else reply x05 any_address 0.

(** How the inbound goes on. *)
Definition target (udp : bool) (a : Address) (p : Port) : NetAddr.Destination :=
  if udp then UDPDestination (Some a) p else TCPDestination (Some a) p.
Definition served {L} (d : res L) (udp : bool) (dest : NetAddr.Destination)
    (name : Datatypes.option bytes) : res (outcome L) :=
  if udp then Ok (Associate name)
  else match d with Ok link => Ok (Transport link dest name) | Err e => Err e | Panic => Panic end.

(** How the client goes on. *)
Definition answered (ok udp : bool) (ra : Address) (p : Port) : res (Datatypes.option Request) :=
  if ok
  then Ok (if udp then Some {| Version := socks5Version; Command := RequestCommandUDP; RAddress := Some ra;
                               RPort := p; Option := 0; Security := 0; User := None |}
           else None)
  else Err (NewError "server rejects request: ").
End SocksSpec.
Import SocksSpec.

(** ** Lemmas *)
Lemma socks_handles a : addr_wf a -> handles addrParser a.
Proof.
  intros Ha. unfold handles. destruct a; (split; [vm_compute; done|split; [vm_compute; done|reflexivity]]).
Qed.

Lemma socks_known : known_families addrParser.
Proof.
  split; [reflexivity|split; [|exact I]]. vm_compute.
  repeat first [apply Forall_nil_2 | apply Forall_cons_2; [tauto|]].
Qed.

Lemma AnyIP_serializable : exists a, AnyIP = Some a /\ serializable a.
Proof. eexists. split; [reflexivity|]. by split. Qed.

Section Messages.
Context {W : Type} `{WriterSpec W}.

Lemma writes_put d : writes (Must (Write d)) d (zlen d).
Proof. apply writes_must, (writes_wr (W := Buffer)). Qed.

Lemma writes_put1 x : writes (Must (WriteByte x)) [x] tt.
Proof. apply writes_must, writes_WriteByte. Qed.

Lemma reply_small status a p : serializable a -> zlen (reply status a p) <= 2048.
Proof.
  intros Ha. pose proof (encode_length addrParser a p Ha). unfold reply. rewrite zlen_app.
  change (zlen [_; _; _]) with 3. lia.
Qed.

Lemma build_reply5 status a p :
  serializable a -> build (socks5_response (b2z status) (Some a) p) New = Ok (push New (reply status a p)).
Proof.
  intros Ha. eapply fresh_build; [|exact fresh_New|by apply reply_small].
  unfold socks5_response, reply. rewrite z2b_b2z.
  eapply writes_bind; [apply writes_put|]. apply writes_AddressPort; [apply socks_handles, Ha|done].
Qed.

Lemma writes_reply5 status a p :
  serializable a -> writes (writeSocks5Response (b2z status) (Some a) p : ST W unit) (reply status a p) tt.
Proof.
  intros Ha. unfold writeSocks5Response. eapply writes_lift; [by apply build_reply5|].
  eapply writes_lift; [apply fresh_Bytes; [exact fresh_New|by apply reply_small]|]. apply writes_all.
Qed.

Lemma writes_method v m : writes (writeSocks5AuthenticationResponse v m : ST W unit) [z2b v; z2b m] tt.
Proof. apply writes_all. Qed.
End Messages.

Section Server.
Context {R W : Type} `{Reader R} `{WriterSpec W}.

Lemma fresh_Byte0 b x d : fresh b -> zlen (x :: d) <= 2048 -> Byte (push b (x :: d)) 0 = Ok x.
Proof. intros Hb Hd. by apply (fresh_Byte b Hb _ Hd 0). Qed.
Lemma fresh_Byte1 b x y d : fresh b -> zlen (x :: y :: d) <= 2048 -> Byte (push b (x :: y :: d)) 1 = Ok y.
Proof. intros Hb Hd. by apply (fresh_Byte b Hb _ Hd 1). Qed.

Lemma takes_login acc :
  zlen (Username acc) <= 255 -> zlen (Password acc) <= 255 ->
  takes (ReadUsernamePassword : ST R _) (login acc) (Username acc, Password acc).
Proof.
  intros Hu Hp. pose proof (zlen_nonneg (Username acc)). pose proof (zlen_nonneg (Password acc)).
  unfold ReadUsernamePassword, login.
  eapply takes_bind; [apply takes_fresh; [exact fresh_StackNew|done|lia]|].
  eapply takes_lift; [by apply fresh_Byte1|].
  assert (G1 : fresh (Clear (push StackNew [x01; z2b (zlen (Username acc))]))) by by apply fresh_again.
  eapply takes_bind; [apply takes_fresh; [exact G1|rewrite z2b_small by lia; done|rewrite z2b_small by lia; lia]|].
  eapply takes_lift; [apply fresh_Bytes; [exact G1|lia]|].
  assert (G2 := fresh_again _ G1 (Username acc) ltac:(lia)).
  eapply takes_bind; [apply takes_fresh; [exact G2|done|lia]|].
  eapply takes_lift; [by apply fresh_Byte0|].
  assert (G3 := fresh_again _ G2 [z2b (zlen (Password acc))] ltac:(done)).
  eapply takes_last; [apply takes_fresh; [exact G3|rewrite z2b_small by lia; done|rewrite z2b_small by lia; lia]|].
  rewrite fresh_Bytes by (done || lia). done.
Qed.

Lemma ends_login : ends (ReadUsernamePassword : ST R _).
Proof. apply ends_bind, ends_fresh; [exact fresh_StackNew|lia]. Qed.

Lemma talks_auth c u :
  account_ok c u ->
  talks (auth5 c 1 : ST (R * W) bytes) (method_byte u :: login_message u)
    (method_reply u ++ login_reply u) (username u).
Proof.
  intros Hu. unfold auth5.
  apply (talks_read _ _ [method_byte u] (login_message u) _ (push StackNew [method_byte u])).
  { apply takes_base, takes_fresh; [exact fresh_StackNew|done|lia]. }
  eapply talks_lift; [by eapply fresh_BytesRange; [exact fresh_StackNew|done|lia|reflexivity]|].
  destruct u as [acc|]; cbn [account_ok] in Hu.
  - destruct Hu as (Ht & Ha & Hlu & Hlp). rewrite decide_True by done. cbn [hasAuthMethod].
    change (b2z (method_byte (Some acc)) =? authPassword) with true. cbn [negb].
    apply (talks_tell _ _ (login acc) (method_reply (Some acc)) [x01; x00] tt).
    { apply talks_base, talks_say, writes_method. }
    change (authPassword =? authPassword) with true.
    rewrite <- (app_nil_r (login acc)).
    eapply talks_read; [apply takes_base, takes_login; done|].
    cbn beta iota. rewrite Ha. cbn [negb].
    eapply talks_last; [apply talks_base, talks_say, (writes_method 1 0)|done].
  - rewrite Hu. rewrite decide_False by done. cbn [hasAuthMethod].
    change (b2z (method_byte None) =? authNotRequired) with true. cbn [negb].
    eapply talks_last; [apply talks_base, talks_say, writes_method|done].
Qed.

(** A client that keeps its password back sees the method first. *)
Lemma stalls_auth c acc :
  c_AuthType c = AuthType_PASSWORD ->
  stalls (auth5 c 1 : ST (R * W) bytes) [method_byte (Some acc)] (method_reply (Some acc)).
Proof.
  intros Ht. unfold auth5. rewrite <- (app_nil_r [_]).
  eapply stalls_read.
  { apply takes_base, takes_fresh; [exact fresh_StackNew|done|lia]. }
  eapply stalls_lift; [by eapply fresh_BytesRange; [exact fresh_StackNew|done|lia|reflexivity]|].
  rewrite decide_True by done. cbn [hasAuthMethod].
  change (b2z (method_byte (Some acc)) =? authPassword) with true. cbn [negb].
  rewrite <- (app_nil_r (method_reply _)).
  apply (stalls_tell _ _ [] (method_reply (Some acc)) [] tt).
  { apply talks_base, talks_say, writes_method. }
  apply stalls_here, ends_base, ends_login.
Qed.

Lemma takes_address a p : serializable a -> is_u16 p ->
  takes (ReadAddressPort addrParser : ST R _) (encode addrParser a p) (a, p).
Proof. intros Ha Hp. apply takes_AddressPort; [apply socks_handles, Ha|done|done]. Qed.

Lemma talks_command c udp :
  (udp = true -> UdpEnabled c = true) ->
  command5 c (b2z (command_byte udp)) =
    (mret (if udp then RequestCommandUDP else RequestCommandTCP) : ST (R * W) Z).
Proof. intros Hu. unfold command5. destruct udp; [|done]. by rewrite Hu. Qed.

Lemma talks_request c u udp a p :
  account_ok c u -> (udp = true -> UdpEnabled c = true) -> serializable a -> is_u16 p ->
  talks (request5 c 1 : ST (R * W) Request)
    ((method_byte u :: login_message u) ++ request_message udp a p)
    (method_reply u ++ login_reply u) (named_request u udp a p).
Proof.
  intros Hu Hudp Ha Hp. unfold request5. rewrite <- (app_nil_r (method_reply u ++ login_reply u)).
  eapply talks_bind; [by apply talks_auth|]. unfold request_message.
  eapply talks_read; [apply takes_base, takes_fresh; [exact fresh_StackNew|done|lia]|].
  eapply talks_lift; [by apply fresh_Byte1; [exact fresh_StackNew|]|].
  rewrite (talks_command c udp Hudp), st_ret_bind.
  eapply talks_last; [apply talks_listen, takes_base, takes_address; done|].
  unfold named_request. by destruct (username u).
Qed.

Lemma stalls_request c u :
  account_ok c u ->
  stalls (request5 c 1 : ST (R * W) Request) (method_byte u :: login_message u)
    (method_reply u ++ login_reply u).
Proof.
  intros Hu. unfold request5. rewrite <- (app_nil_r (method_reply u ++ login_reply u)), <- (app_nil_r (_ :: _)).
  eapply talks_stalls; [by apply talks_auth|].
  apply stalls_here, ends_base, ends_fresh; [exact fresh_StackNew|lia].
Qed.

Lemma stalls_request_early c acc :
  c_AuthType c = AuthType_PASSWORD ->
  stalls (request5 c 1 : ST (R * W) Request) [method_byte (Some acc)] (method_reply (Some acc)).
Proof. intros Hu. by apply stalls_bind, stalls_auth. Qed.
End Server.

(** ** The inbound *)
Section Inbound.
Context {R W L : Type} `{Reader R} `{WriterSpec W}.
Context (c : ServerConfig) (gateway source : NetAddr.Destination) (delegate : NetAddr.Destination -> res L).
Context (Hgw : DNetwork gateway <> Network_Unknown).

Definition session : ServerSession :=
  {| config := c; address := DAddress gateway; port := DPort gateway;
     clientAddress := DAddress source; flushLastReply_ := nil_callback |}.

(** [processTCP] once it has the request. *)
Definition after_handshake (x : ServerSession * Request) : ST (R * W) (outcome L) :=
  let '(s, request) := x in
  let email := match User request with Some u => Some (Email u) | None => None end in
  if Command request =? RequestCommandTCP
  then
    x ← Finalizing_Dispatch delegate s (Destination request);
    mret (match x with
          | Linked link => Transport link (Destination request) email
          | Interrupted link e => Broken link e
          end)
  else
    _ ← flushLastReply s true;
    mret (if Command request =? RequestCommandUDP then Associate email else Finished email).

Lemma processTCP_unfold :
  processTCP c gateway source delegate =
    (x ← st_base "failed to read request" (Handshake session); after_handshake x : ST (R * W) (outcome L)).
Proof. unfold processTCP. by rewrite bool_decide_true by done. Qed.

Lemma handshake_5 (m : byte) d o x :
  talks (handshake5 session (b2z m)) d o x -> talks (Handshake session : ST (R * W) _) (x05 :: m :: d) o x.
Proof.
  intros Hm. unfold Handshake.
  apply (talks_read _ _ [x05; m] d o (push StackNew [x05; m])).
  { apply takes_base, takes_fresh; [exact fresh_StackNew|done|lia]. }
  eapply talks_lift; [by apply fresh_Byte0; [exact fresh_StackNew|]|].
  eapply talks_lift; [by apply fresh_Byte1; [exact fresh_StackNew|]|].
  exact Hm.
Qed.

Lemma handshake_5_stalls (m : byte) d o :
  stalls (request5 c (b2z m)) d o -> stalls (processTCP c gateway source delegate : ST (R * W) _) (x05 :: m :: d) o.
Proof.
  intros Hm. rewrite processTCP_unfold. apply stalls_bind, stalls_base. unfold Handshake.
  apply (stalls_read _ _ [x05; m] d o (push StackNew [x05; m])).
  { apply takes_base, takes_fresh; [exact fresh_StackNew|done|lia]. }
  eapply stalls_lift; [by apply fresh_Byte0; [exact fresh_StackNew|]|].
  eapply stalls_lift; [by apply fresh_Byte1; [exact fresh_StackNew|]|].
  by apply stalls_bind.
Qed.

Context (Hdel : forall dest, delegate dest <> Panic).

Lemma talks_flush s ra p ok :
  serializable ra -> flushLastReply_ s = reply5 (Some ra) p ->
  talks (flushLastReply s ok : ST (R * W) _) [] (last_message ok ra p) (set_flush s noOpCallback).
Proof.
  intros Ha Hs. unfold flushLastReply. rewrite Hs.
  destruct ok; (eapply talks_last; [apply talks_say; cbn [last_reply]|done]).
  - by apply (writes_reply5 x00).
  - by apply (writes_reply5 x05 any_address).
Qed.

Lemma talks_noop s ok :
  flushLastReply_ s = noOpCallback ->
  talks (flushLastReply s ok : ST (R * W) _) [] [] (set_flush s noOpCallback).
Proof.
  intros Hs. unfold flushLastReply. rewrite Hs.
  eapply talks_last; [apply talks_say; cbn [last_reply]; apply writes_ret|done].
Qed.

Lemma talks_attempt {A} (m : ST (R * W) A) d o a : talks m d o a -> talks (attempt m) d o (inl a).
Proof.
  intros Hm r w rest k Hr Hc Hk Hf. destruct (Hm r w rest k Hr Hc Hk Hf) as (r' & w' & E & ?).
  exists r', w'. unfold attempt. by rewrite E.
Qed.

(** The last reply, by any callback [f] that writes [msg]. *)
Section Reply.
Context (f : callback) (msg : bool -> bytes).
Context (Hmsg : forall s ok, flushLastReply_ s = f ->
  talks (flushLastReply s ok : ST (R * W) _) [] (msg ok) (set_flush s noOpCallback)).
Context (req : Request) (udp : bool).
Context (Hcmd : Command req = if udp then RequestCommandUDP else RequestCommandTCP).

(** What the handshake leaves to be said, and what is said after it. *)
Definition pending : ServerSession := set_flush session (if DeferLastReply c then f else noOpCallback).
Definition early : bytes := if DeferLastReply c then [] else msg true.
Definition late (ok : bool) : bytes := if DeferLastReply c then msg ok else [].

Lemma talks_setup : talks (setupLastReply session f : ST (R * W) _) [] early pending.
Proof.
  unfold setupLastReply, early, pending. cbn [config session].
  destruct (DeferLastReply c); [apply talks_ret|]. by apply (Hmsg (set_flush session f)).
Qed.

Lemma talks_late ok :
  talks (flushLastReply pending ok : ST (R * W) _) [] (late ok) (set_flush session noOpCallback).
Proof.
  unfold late, pending. destruct (DeferLastReply c).
  - by apply (Hmsg (set_flush session f)).
  - by apply (talks_noop (set_flush session noOpCallback)).
Qed.

Definition name_of : Datatypes.option bytes :=
  match User req with Some u => Some (Email u) | None => None end.

Lemma finishes_after :
  finishes (after_handshake (pending, req) : ST (R * W) _) []
    (late (udp || match delegate (Destination req) with Ok _ => true | _ => false end))
    (served (delegate (Destination req)) udp (Destination req) name_of).
Proof.
  unfold after_handshake. rewrite Hcmd. destruct udp; cbn [served orb].
  - apply finishes_ok. change (RequestCommandUDP =? RequestCommandTCP) with false.
    eapply talks_last; [apply (talks_late true)|done].
  - change (RequestCommandTCP =? RequestCommandTCP) with true. cbn iota.
    unfold Finalizing_Dispatch. destruct (delegate _) as [link|e|] eqn:Ed; [..|by apply Hdel in Ed].
    + apply finishes_ok. eapply (talks_last _ _ [] (late true) (Linked link)); [|done].
      eapply talks_last; [apply talks_attempt, (talks_late true)|done].
    + apply finishes_bind_err. rewrite <- (app_nil_r (late false)).
      eapply (finishes_tell _ _ [] (late false) [] tt); [|apply finishes_err].
      eapply talks_ignoring, (talks_late false).
Qed.

Lemma finishes_handshake d o :
  talks (Handshake session : ST (R * W) _) d (o ++ early) (pending, req) ->
  finishes (processTCP c gateway source delegate : ST (R * W) _) d
    (o ++ msg (granted c udp (delegate (Destination req))))
    (served (delegate (Destination req)) udp (Destination req) name_of).
Proof.
  intros Hh. rewrite processTCP_unfold, <- (app_nil_r d).
  replace (msg _) with (early ++ late (udp || match delegate (Destination req) with Ok _ => true | _ => false end)).
  - rewrite app_assoc. eapply talks_finishes; [apply talks_base, Hh|apply finishes_after].
  - unfold early, late, granted. destruct (DeferLastReply c); [by rewrite orb_false_r|].
    by rewrite app_nil_r, orb_true_r.
Qed.
End Reply.

Lemma finishes_request u udp a p ra :
  account_ok c u -> (udp = true -> UdpEnabled c = true) -> serializable a -> is_u16 p ->
  responseAddress session (if udp then RequestCommandUDP else RequestCommandTCP) = Some ra -> serializable ra ->
  finishes (processTCP c gateway source delegate : ST (R * W) _)
    (x05 :: x01 :: (method_byte u :: login_message u) ++ request_message udp a p)
    ((method_reply u ++ login_reply u) ++
     last_message (granted c udp (delegate (target udp a p))) ra (DPort gateway))
    (served (delegate (target udp a p)) udp (target udp a p) (email u)).
Proof.
  intros Hu Hudp Ha Hp Hra Hser. set (f := reply5 (Some ra) (DPort gateway)).
  set (msg := fun ok => last_message ok ra (DPort gateway)).
  assert (Hmsg : forall s ok, flushLastReply_ s = f ->
    talks (flushLastReply s ok : ST (R * W) _) [] (msg ok) (set_flush s noOpCallback)) by by intros; apply talks_flush.
  assert (Hdest : Destination (named_request u udp a p) = target udp a p) by by destruct udp.
  assert (Hname : name_of (named_request u udp a p) = email u).
  { unfold name_of, named_request, email. cbn. by destruct (username u). }
  rewrite <- Hdest, <- Hname.
  apply (finishes_handshake f msg Hmsg _ udp); [by destruct udp|].
  apply handshake_5. unfold handshake5. rewrite <- (app_nil_r (_ ++ request_message _ _ _)).
  eapply talks_bind; [by apply talks_request|].
  change (Command (named_request u udp a p)) with (if udp then RequestCommandUDP else RequestCommandTCP).
  rewrite Hra. eapply talks_last; [apply (talks_setup f msg Hmsg)|done].
Qed.
End Inbound.

(** ** The client *)
Section Client.
Context {R W : Type} `{Reader R} `{WriterSpec W}.

Lemma talks_send steps b o :
  writes steps o tt -> fresh b -> zlen o <= 2048 -> talks (send steps b : ST (R * W) Buffer) [] o (push b o).
Proof.
  intros Hs Hb Ho. unfold send. eapply talks_lift; [by eapply fresh_build|].
  eapply talks_lift; [by apply fresh_Bytes|]. by eapply talks_last; [apply talks_say, writes_all|].
Qed.

Context (u : Datatypes.option SocksAccount) (udp : bool) (a : Address) (p : Port) (delay : bool).
Context (Hfit : match u with Some acc => zlen (Username acc) <= 255 /\ zlen (Password acc) <= 255 | None => True end).
Context (Ha : serializable a) (Hp : is_u16 p).

Let request : Request := request_of u udp a p.

Lemma login_length : zlen (login_message u) <= 513.
Proof.
  destruct u as [acc|]; cbn [login_message]; [|by rewrite zlen_nil]. unfold login.
  rewrite !zlen_app, !zlen_cons, !zlen_nil. lia.
Qed.

Lemma writes_login : u <> None -> writes (auth_steps request) (login_message u) tt.
Proof.
  intros Hu. unfold auth_steps. destruct u as [acc|] eqn:Eu; [|done]. destruct Hfit as [Hlu Hlp].
  pose proof (zlen_nonneg (Username acc)). pose proof (zlen_nonneg (Password acc)).
  eapply writes_lift; [done|]. unfold login_message, login. cbn [Account user_of request_of Headers.User].
  rewrite !u8_small by lia.
  change ([x01; z2b (zlen (Username acc))]) with ([x01] ++ [z2b (zlen (Username acc))]). rewrite <- app_assoc.
  eapply writes_bind; [apply writes_put1|]. eapply writes_bind; [apply writes_put1|].
  eapply writes_bind; [apply writes_put|]. eapply writes_bind; [apply writes_put1|].
  by eapply writes_last; [apply writes_put|].
Qed.

Lemma writes_greeting :
  writes (greeting_steps request (b2z (method_byte u)) delay) (greeting u delay) tt.
Proof.
  unfold greeting_steps, greeting.
  rewrite z2b_b2z. eapply writes_bind; [apply writes_put|].
  destruct delay; cbn [negb andb]; [apply writes_ret|].
  destruct (_ =? authPassword) eqn:E; [apply writes_login; by intros Hu; rewrite Hu in E|].
  replace (login_message u) with (@nil byte) by by revert E; destruct u. apply writes_ret.
Qed.

Lemma greeting_length : zlen (greeting u delay) <= 2048.
Proof.
  pose proof login_length. unfold greeting. rewrite zlen_app. change (zlen [_; _; _]) with 3.
  destruct delay; [rewrite zlen_nil|]; lia.
Qed.

(** The buffer after a message of [n] bytes came in. *)
Lemma talks_authenticate b :
  u <> None -> fresh b ->
  exists b', fresh (Clear b') /\
  talks (authenticate request delay b : ST (R * W) Buffer) [x01; x00] (late_login u delay) b'.
Proof.
  intros Hu Hb. pose proof login_length as Hl.
  assert (Hbs : exists b2, fresh b2 /\
    talks (if delay then b ← send (auth_steps request) b; mret (Clear b) else mret b : ST (R * W) Buffer)
      [] (late_login u delay) b2).
  { unfold late_login. destruct delay; [|exists b; split; [done|apply talks_ret]].
    exists (Clear (push b (login_message u))). split; [apply fresh_again; [done|lia]|].
    eapply talks_last; [apply talks_send; [by apply writes_login|done|lia]|done]. }
  destruct Hbs as (b2 & Hb2 & Ht). exists (push b2 [x01; x00]). split; [by apply fresh_again|].
  unfold authenticate. rewrite <- (app_nil_r (late_login _ _)). eapply talks_tell; [exact Ht|].
  rewrite <- (app_nil_r [x01; x00]).
  eapply talks_read; [by apply (takes_fresh _ 2)|].
  eapply talks_lift; [by apply fresh_Byte1|]. apply talks_ret.
Qed.

Lemma talks_greet :
  exists b', fresh (Clear b') /\
  talks (greet request delay New : ST (R * W) Buffer) (method_reply u ++ login_reply u)
    (greeting u delay ++ late_login u delay) b'.
Proof.
  pose proof greeting_length as Hg.
  assert (F1 : fresh (Clear (push New (greeting u delay)))) by by apply fresh_again.
  set (b1 := Clear (push New (greeting u delay))) in *.
  assert (F2 := fresh_again _ F1 (method_reply u) ltac:(done)).
  assert (Hb : exists b', fresh (Clear b') /\
    talks (if b2z (method_byte u) =? authPassword
           then authenticate request delay (Clear (push b1 (method_reply u)))
           else mret (push b1 (method_reply u)) : ST (R * W) Buffer)
      (login_reply u) (late_login u delay) b').
  { destruct (_ =? authPassword) eqn:E.
    - assert (Hu : u <> None) by by intros Hu; rewrite Hu in E.
      destruct (talks_authenticate _ Hu F2) as (b' & ? & ?). exists b'. split; [done|].
      by replace (login_reply u) with [x01; x00] by by revert Hu; destruct u.
    - exists (push b1 (method_reply u)). split; [done|].
      replace (login_reply u) with (@nil byte) by by revert E; destruct u.
      replace (late_login u delay) with (@nil byte) by by revert E; destruct u, delay.
      apply talks_ret. }
  destruct Hb as (b' & Hb' & Ht). exists b'. split; [done|]. unfold greet.
  replace (match Headers.User request with Some _ => authPassword | None => authNotRequired end)
    with (b2z (method_byte u)) by by destruct u.
  eapply talks_tell; [by apply talks_send; [apply writes_greeting|exact fresh_New|]|].
  eapply talks_read; [by apply (takes_fresh _ 2)|].
  eapply talks_lift; [by apply fresh_Byte0|]. change (negb (b2z x05 =? socks5Version)) with false. cbn iota.
  eapply talks_lift; [by apply fresh_Byte1|]. rewrite Z.eqb_refl. cbn [negb]. exact Ht.
Qed.

Lemma stalls_greeting : stalls (ClientHandshake request delay : ST (R * W) _) [] (greeting u delay).
Proof.
  pose proof greeting_length as Hg. unfold ClientHandshake. apply stalls_bind. unfold greet.
  replace (match Headers.User request with Some _ => authPassword | None => authNotRequired end)
    with (b2z (method_byte u)) by by destruct u.
  rewrite <- (app_nil_r (greeting u delay)).
  eapply stalls_tell; [by apply talks_send; [apply writes_greeting|exact fresh_New|]|].
  apply stalls_here, ends_fresh; [by apply fresh_again|lia].
Qed.

(** It sends the password when it has the method. *)
Lemma stalls_login :
  u <> None -> delay = true ->
  stalls (ClientHandshake request delay : ST (R * W) _) (method_reply u) (greeting u delay ++ login_message u).
Proof.
  intros Hu Hd. pose proof greeting_length as Hg. pose proof login_length as Hl.
  unfold ClientHandshake. apply stalls_bind. unfold greet.
  replace (match Headers.User request with Some _ => authPassword | None => authNotRequired end)
    with (b2z (method_byte u)) by by destruct u.
  eapply stalls_tell; [by apply talks_send; [apply writes_greeting|exact fresh_New|]|].
  assert (F1 : fresh (Clear (push New (greeting u delay)))) by by apply fresh_again.
  rewrite <- (app_nil_r (method_reply u)).
  eapply stalls_read; [by apply (takes_fresh _ 2)|].
  eapply stalls_lift; [by apply fresh_Byte0|]. change (negb (b2z x05 =? socks5Version)) with false. cbn iota.
  eapply stalls_lift; [by apply fresh_Byte1|]. rewrite Z.eqb_refl. cbn [negb].
  replace (b2z (method_byte u) =? authPassword) with true by by revert Hu; destruct u.
  unfold authenticate. rewrite Hd, <- (app_nil_r (login_message u)).
  eapply (stalls_tell _ _ _ (login_message u)).
  - eapply talks_last; [apply talks_send; [by apply writes_login|by apply fresh_again|lia]|done].
  - apply stalls_here, ends_fresh; [apply fresh_again; [by apply fresh_again|lia]|lia].
Qed.

(** The message with the address, from a fresh buffer. *)
Lemma talks_request_message b :
  fresh b ->
  talks (send (request_steps request) b : ST (R * W) Buffer) [] (request_message udp a p) (push b (request_message udp a p)).
Proof.
  intros Hb. apply talks_send; [|done|].
  - unfold request_steps, request_message.
    replace (if Command request =? RequestCommandUDP then cmdUDPAssociate else cmdTCPConnect) with (b2z (command_byte udp))
      by by destruct udp.
    rewrite z2b_b2z. eapply writes_bind; [apply writes_put|]. apply writes_AddressPort; [apply socks_handles, Ha|done].
  - pose proof (encode_length addrParser a p Ha). unfold request_message. rewrite zlen_app. change (zlen [_; _; _]) with 3. lia.
Qed.

Lemma request_length_small : zlen (request_message udp a p) <= 2048.
Proof.
  pose proof (encode_length addrParser a p Ha). unfold request_message. rewrite zlen_app. change (zlen [_; _; _]) with 3. lia.
Qed.

Lemma stalls_client :
  stalls (ClientHandshake request delay : ST (R * W) _) (method_reply u ++ login_reply u)
    ((greeting u delay ++ late_login u delay) ++ request_message udp a p).
Proof.
  destruct talks_greet as (b' & Hb' & Ht). unfold ClientHandshake.
  rewrite <- (app_nil_r (method_reply u ++ _)). eapply talks_stalls; [exact Ht|].
  rewrite <- (app_nil_r (request_message udp a p)).
  eapply stalls_tell; [by apply talks_request_message|].
  apply stalls_here, ends_fresh; [apply fresh_again; [done|apply request_length_small]|lia].
Qed.

Lemma finishes_client ok ra rp :
  serializable ra -> is_u16 rp ->
  finishes (ClientHandshake request delay : ST (R * W) _)
    ((method_reply u ++ login_reply u) ++ last_message ok ra rp)
    ((greeting u delay ++ late_login u delay) ++ request_message udp a p) (answered ok udp ra rp).
Proof.
  intros Hra Hrp. destruct talks_greet as (b' & Hb' & Ht). unfold ClientHandshake.
  eapply talks_finishes; [exact Ht|]. rewrite <- (app_nil_r (request_message udp a p)).
  eapply finishes_tell; [by apply talks_request_message|].
  assert (F : fresh (Clear (push (Clear b') (request_message udp a p)))) by (apply fresh_again; [done|apply request_length_small]).
  destruct ok; unfold last_message, reply, answered.
  - eapply finishes_read; [by apply (takes_fresh _ 3)|].
    eapply finishes_lift; [by apply fresh_Byte1|]. change (negb (b2z x00 =? 0)) with false. cbn iota.
    apply finishes_ok. eapply talks_last.
    + apply talks_listen. eapply takes_scratch; [apply reads_AddressPort_with; [apply socks_handles, Hra|done|done]| |].
      * by apply fresh_wf, fresh_again.
      * rewrite fresh_room by by apply fresh_again. pose proof (encode_length addrParser ra rp Hra). lia.
    + by destruct udp.
  - eapply finishes_read; [by apply (takes_fresh _ 3)|].
    eapply finishes_lift; [by apply fresh_Byte1|]. change (negb (b2z x05 =? 0)) with true. cbn iota.
    apply (finishes_more _ []), finishes_err.
Qed.
End Client.

(** ** The two of them *)
Section Meeting.
Context {L : Type} (c : ServerConfig) (gateway source : NetAddr.Destination).
Context (delegate : NetAddr.Destination -> res L).
Context (u : Datatypes.option SocksAccount) (udp : bool) (a : Address) (p : Port) (delay : bool) (ra : Address).
Context (Hgw : DNetwork gateway <> Network_Unknown) (Hdel : forall dest, delegate dest <> Panic).
Context (Hu : account_ok c u) (Hudp : udp = true -> UdpEnabled c = true).
Context (Ha : serializable a) (Hp : is_u16 p).
Context (Hra : responseAddress (session c gateway source) (if udp then RequestCommandUDP else RequestCommandTCP) = Some ra).
Context (Hser : serializable ra) (Hgp : is_u16 (DPort gateway)).

Let client : ST (conn * sink) (Datatypes.option Request) := ClientHandshake (request_of u udp a p) delay.
Let server : ST (conn * sink) (outcome L) := processTCP c gateway source delegate.

Definition all_up : bytes := (greeting u delay ++ late_login u delay) ++ request_message udp a p.
Definition all_down : bytes :=
  (method_reply u ++ login_reply u) ++ last_message (granted c udp (delegate (target udp a p))) ra (DPort gateway).

Lemma fits_account : match u with Some acc => zlen (Username acc) <= 255 /\ zlen (Password acc) <= 255 | None => True end.
Proof. destruct u as [acc|]; [|done]. by destruct Hu as (_ & _ & ? & ?). Qed.

Lemma client_done : output client all_down = all_up /\
  result client all_down = answered (granted c udp (delegate (target udp a p))) udp ra (DPort gateway).
Proof. by apply output_finishes, finishes_client; [apply fits_account|..]. Qed.

Lemma whole_login : greeting u delay ++ late_login u delay = x05 :: x01 :: method_byte u :: login_message u.
Proof. unfold greeting, late_login. cbn [app]. by destruct delay; rewrite ?app_nil_r. Qed.

Lemma server_done : output server all_up = all_down /\
  result server all_up = served (delegate (target udp a p)) udp (target udp a p) (email u).
Proof. unfold all_up. rewrite whole_login. apply output_finishes. by apply finishes_request. Qed.

(** The bytes each side has written after the rounds it takes. *)
Lemma rounds_done : rounds client server 3 = (all_up, all_down).
Proof.
  pose proof fits_account as Hfit. pose proof client_done as [Hc _]. pose proof server_done as [Hs _].
  assert (H1 : output client [] = greeting u delay) by by apply output_stalls, stalls_greeting.
  assert (H2 : output client (method_reply u ++ login_reply u) = all_up) by by apply output_stalls, stalls_client.
  assert (H3 : output server (x05 :: x01 :: method_byte u :: login_message u) = method_reply u ++ login_reply u).
  { apply output_stalls, (handshake_5_stalls c gateway source delegate Hgw x01). by apply stalls_request. }
  destruct (decide (u <> None /\ delay = true)) as [[Hsome Hdelay]|Hnow].
  - assert (H4 : output server (greeting u delay) = method_reply u).
    { unfold greeting. rewrite Hdelay. apply output_stalls, (handshake_5_stalls c gateway source delegate Hgw x01).
      revert Hu Hsome. destruct u as [acc|]; [|done]. intros [? _] _. by apply stalls_request_early. }
    assert (H5 : output client (method_reply u) = x05 :: x01 :: method_byte u :: login_message u).
    { rewrite <- whole_login. unfold late_login. rewrite Hdelay at 2. by apply output_stalls, stalls_login. }
    unfold rounds. cbn zeta. cbn [snd]. rewrite H1, H4, H5, H3, H2, Hs. done.
  - assert (H4 : greeting u delay = x05 :: x01 :: method_byte u :: login_message u).
    { unfold greeting. destruct delay; [|done]. destruct u; [|done]. exfalso. by apply Hnow. }
    unfold rounds. cbn zeta. cbn [snd]. rewrite H1, H4, H3, H2, Hs, Hc, Hs. done.
Qed.
End Meeting.

(** ** Texts that end with a zero, and the reply of version 4 *)
Lemma writes_extend_port p : writes (extend_port p) (put_be 2 p) tt.
Proof.
  intros b k Hk [Hb Hf]. change (zlen (put_be 2 p)) with 2 in Hf.
  assert (Hd : zlen (put_be 2 p) <= room b) by (change (zlen (put_be 2 p)) with 2; lia).
  destruct (Extend_poke b (put_be 2 p) 2 Hb eq_refl Hd) as (ext & E & Hp & _).
  exists (push b (put_be 2 p)). unfold extend_port. rewrite E, Hp. split; [done|].
  split; [by split|]. split; [by apply push_wf|]. rewrite push_room by done.
  change (zlen (put_be 2 p)) with 2. lia.
Qed.

Definition reply_4 (status : byte) : bytes := [x00; status] ++ put_be 2 0 ++ replicate 4 x00.

Lemma build_reply4 status : build (socks4_response (b2z status) AnyIP 0) StackNew = Ok (push StackNew (reply_4 status)).
Proof.
  eapply fresh_build; [|exact fresh_StackNew|done]. unfold socks4_response, reply_4. rewrite z2b_b2z.
  change ([x00; status] ++ put_be 2 0 ++ replicate 4 x00) with ([x00] ++ [status] ++ put_be 2 0 ++ replicate 4 x00 ++ []).
  eapply writes_bind; [apply writes_put1|]. eapply writes_bind; [apply writes_put1|].
  eapply writes_bind; [apply writes_extend_port|]. eapply writes_lift; [done|]. eapply writes_lift; [done|].
  eapply writes_bind; [apply writes_put|]. apply writes_ret.
Qed.

Lemma push_fresh b d e : fresh b -> zlen d + zlen e <= 2048 -> push (push b d) e = push b (d ++ e).
Proof.
  intros Hb Hd. apply push_push; [by apply fresh_wf|]. by rewrite fresh_room by done.
Qed.

(** The last byte, and whether there is room. *)
Lemma Byte_last b acc x :
  fresh b -> zlen acc + 1 <= 2048 ->
  Byte (push b (acc ++ [x])) (i32 (Len (Some (push b (acc ++ [x]))) - 1)) = Ok x.
Proof.
  intros Hb Hl. pose proof (zlen_nonneg acc).
  assert (Hlx : zlen (acc ++ [x]) <= 2048) by (rewrite zlen_app; change (zlen [x]) with 1; lia).
  destruct (fresh_push b Hb _ Hlx) as (Hwf & Hc & _).
  rewrite (Len_wf _ Hwf), Hc, zlen_app. change (zlen [x]) with 1.
  rewrite i32_small by lia. replace (zlen acc + 1 - 1) with (Z.of_nat (length acc)) by (unfold zlen; lia).
  apply fresh_Byte; [done|done|]. by rewrite lookup_app_r, Nat.sub_diag by lia.
Qed.

Lemma IsFull_fresh b d : fresh b -> zlen d <= 2048 -> IsFull (Some (push b d)) = (zlen d =? 2048).
Proof.
  intros Hb Hd. pose proof (zlen_nonneg d). unfold IsFull.
  rewrite push_v_length by (by apply fresh_wf || by rewrite fresh_room).
  destruct Hb as (Hs & He & Hv). rewrite Hv, i32_small by lia. cbn [push end_]. by rewrite He.
Qed.

Section Null.
Context {R : Type} `{Reader R}.

(** The buffer shrinks by the zero it ends with. *)
Lemma Resize_last b d x :
  fresh b -> zlen d + 1 <= 2048 ->
  exists b', Resize (push b (d ++ [x])) 0 (i32 (Len (Some (push b (d ++ [x]))) - 1)) = Ok b' /\ Bytes b' = Ok d.
Proof.
  intros Hb Hd. pose proof (zlen_nonneg d).
  assert (Hl : zlen (d ++ [x]) <= 2048) by (rewrite zlen_app, zlen_cons, zlen_nil; lia).
  destruct (fresh_push b Hb (d ++ [x]) Hl) as (Hwf & Hc & _).
  rewrite (Len_wf _ Hwf), Hc, zlen_app. change (zlen [x]) with 1. rewrite (i32_small (zlen d + 1 - 1)) by lia.
  replace (zlen d + 1 - 1) with (zlen d) by lia. unfold Resize. change (0 <? 0) with false. cbn iota.
  assert (E : (zlen d <? 0) = false) by lia. rewrite !E. eexists. split; [reflexivity|].
  destruct Hb as (Hs & He & Hv). unfold Bytes. cbn [push start end_ v]. rewrite Hs, He, !i32_small by lia.
  change (take (Z.to_nat 0) (v b)) with (@nil byte). cbn [app]. set (tl := drop _ (v b)). pose proof (zlen_nonneg tl).
  rewrite <- app_assoc. unfold slice. rewrite !zlen_app. change (zlen [x]) with 1.
  replace (_ && _) with true by lia. cbn [or_panic]. f_equal.
  replace (Z.to_nat (0 + zlen d - (0 + 0))) with (length d) by (unfold zlen; lia).
  change (drop (Z.to_nat (0 + 0)) (d ++ [x] ++ tl)) with (d ++ [x] ++ tl). by rewrite take_app_length.
Qed.

Lemma takes_null_loop fuel acc s :
  x00 ∉ s -> zlen acc + zlen s < 2048 -> (length s < fuel)%nat ->
  takes (ReadUntilNull_loop fuel (push StackNew acc) : ST R bytes) (s ++ [x00]) (acc ++ s).
Proof.
  revert acc s. induction fuel as [|fuel IH]; intros acc s Hs Hl Hf; [lia|].
  pose proof (zlen_nonneg acc). pose proof (zlen_nonneg s).
  assert (Hnext : forall x, takes (recv 1 (push StackNew acc) : ST R Buffer) [x] (push StackNew (acc ++ [x]))).
  { intros x. rewrite <- push_fresh by (exact fresh_StackNew || (change (zlen [x]) with 1; lia)).
    destruct (fresh_push StackNew fresh_StackNew acc ltac:(lia)) as (Hwf & _ & Hroom).
    apply takes_recv; [done|done|]. rewrite Hroom. lia. }
  cbn [ReadUntilNull_loop]. destruct s as [|x s].
  - rewrite <- (app_nil_r ([] ++ [x00])). eapply takes_bind; [apply (Hnext x00)|].
    eapply takes_lift; [apply Byte_last; [exact fresh_StackNew|cbn in Hl; lia]|]. rewrite decide_True by done.
    destruct (Resize_last StackNew acc x00 fresh_StackNew) as (b' & -> & Hb'); [rewrite zlen_nil in *; lia|].
    rewrite st_lift_bind, Hb', app_nil_r. apply takes_ret.
  - apply not_elem_of_cons in Hs as [Hx Hs]. rewrite zlen_cons in *. pose proof (zlen_nonneg s).
    apply (takes_bind _ _ [x] (s ++ [x00]) (push StackNew (acc ++ [x]))); [apply Hnext|].
    eapply takes_lift; [apply Byte_last; [exact fresh_StackNew|lia]|]. rewrite decide_False by done.
    assert (Hlx : zlen (acc ++ [x]) < 2048) by (rewrite zlen_app; change (zlen [x]) with 1; lia).
    rewrite IsFull_fresh by (exact fresh_StackNew || lia). replace (_ =? 2048) with false by lia.
    replace (acc ++ x :: s) with ((acc ++ [x]) ++ s) by by rewrite <- app_assoc.
    apply IH; [done|rewrite zlen_app; change (zlen [x]) with 1; lia|simpl in Hf; lia].
Qed.

Lemma takes_null s : x00 ∉ s -> zlen s < 2048 -> takes (ReadUntilNull : ST R bytes) (s ++ [x00]) s.
Proof.
  intros Hs Hl. unfold ReadUntilNull. rewrite <- (push_nil StackNew) at 2 by apply fresh_wf, fresh_StackNew.
  apply (takes_null_loop _ []); [done|rewrite zlen_nil; lia|]. unfold zlen in Hl.
  replace (length (v StackNew)) with (Z.to_nat 2048); [lia|].
  destruct fresh_StackNew as (_ & _ & Hv). unfold zlen in Hv. lia.
Qed.

(** Whatever comes: a text, or an error when the buffer is full. *)
Lemma honest_null_loop fuel acc :
  zlen acc <= 2047 -> honest (ReadUntilNull_loop fuel (push StackNew acc) : ST R bytes) (fun _ _ => True).
Proof.
  revert acc. induction fuel as [|fuel IH]; intros acc Hl; [apply honest_err|].
  pose proof (zlen_nonneg acc). cbn [ReadUntilNull_loop].
  destruct (fresh_push StackNew fresh_StackNew acc ltac:(lia)) as (Hwf & Hc & Hroom).
  eapply honest_bind; [apply honest_recv; [done|lia]|].
  intros b d [-> Hd]. destruct d as [|x [|y d]]; [done| |rewrite !zlen_cons in Hd; pose proof (zlen_nonneg d); lia].
  rewrite push_fresh by (exact fresh_StackNew || lia).
  assert (Hlx : zlen (acc ++ [x]) <= 2048) by (rewrite zlen_app; lia).
  rewrite Byte_last by (exact fresh_StackNew || lia). rewrite st_lift_bind.
  destruct (decide (x = x00)).
  - destruct (Resize_last StackNew acc x fresh_StackNew ltac:(lia)) as (b' & -> & Hb'). rewrite st_lift_bind, Hb'.
    by apply (honest_ret acc).
  - rewrite IsFull_fresh by done. destruct (zlen (acc ++ [x]) =? 2048) eqn:E; [apply honest_err|].
    apply IH. lia.
Qed.

Lemma honest_null : honest (ReadUntilNull : ST R bytes) (fun _ _ => True).
Proof.
  unfold ReadUntilNull. rewrite <- (push_nil StackNew) at 2 by apply fresh_wf, fresh_StackNew.
  apply honest_null_loop. by rewrite zlen_nil.
Qed.
End Null.

(** ** Any client *)
Lemma two_bytes (d : bytes) : zlen d = 2 -> exists x y, d = [x; y].
Proof. destruct d as [|x [|y [|z d]]]; intros Hd; try done; [by exists x, y|]. rewrite !zlen_cons in Hd. pose proof (zlen_nonneg d). lia. Qed.
Lemma one_byte (d : bytes) : zlen d = 1 -> exists x, d = [x].
Proof. destruct d as [|x [|y d]]; intros Hd; try done; [by exists x|]. rewrite !zlen_cons in Hd. pose proof (zlen_nonneg d). lia. Qed.

(** [login] as bytes of the wire, whatever the version byte. *)
Definition login_on_wire (d name pass : bytes) : Prop :=
  exists ver nl pl, d = [ver; nl] ++ name ++ [pl] ++ pass /\ zlen name = b2z nl /\ zlen pass = b2z pl.

Section AnyClient.
Context {R W L : Type} `{Reader R} `{Writer W} `{!TotalWriter W}.

Lemma honest_login : honest (ReadUsernamePassword : ST R _) (fun d x => login_on_wire d x.1 x.2).
Proof.
  unfold ReadUsernamePassword.
  eapply honest_bind; [apply honest_fresh; [exact fresh_StackNew|lia]|].
  intros b d [-> Hd]. destruct (two_bytes d Hd) as (ver & nl & ->).
  rewrite fresh_Byte1 by (exact fresh_StackNew || done). rewrite st_lift_bind.
  pose proof (b2z_range nl). assert (G1 := fresh_again _ fresh_StackNew [ver; nl] ltac:(done)).
  eapply honest_bind; [apply honest_fresh; [exact G1|lia]|]. intros b name [-> Hn].
  rewrite fresh_Bytes by (exact G1 || lia). rewrite st_lift_bind.
  assert (G2 := fresh_again _ G1 name ltac:(lia)).
  eapply honest_bind; [apply honest_fresh; [exact G2|lia]|]. intros b d' [-> Hd'].
  destruct (one_byte d' Hd') as (pl & ->).
  rewrite fresh_Byte0 by (exact G2 || done). rewrite st_lift_bind.
  pose proof (b2z_range pl). assert (G3 := fresh_again _ G2 [pl] ltac:(done)).
  eapply honest_bind; [apply honest_fresh; [exact G3|lia]|]. intros b pass [-> Hp].
  rewrite fresh_Bytes by (exact G3 || lia). rewrite st_lift_bind. apply honest_ret.
  exists ver, nl, pl. by rewrite app_nil_r.
Qed.

Lemma polite_tell (v m : Z) : polite (say (writeSocks5AuthenticationResponse v m) : ST (R * W) _) (fun d _ => d = []).
Proof. apply polite_say, quiet_all. Qed.

Lemma quiet_reply5 status a p :
  serializable a -> quiet (writeSocks5Response (b2z status) (Some a) p : ST W unit).
Proof.
  intros Ha. unfold writeSocks5Response. rewrite (build_reply5 status a p Ha), st_lift_bind.
  rewrite fresh_Bytes by (exact fresh_New || by apply reply_small). rewrite st_lift_bind. apply quiet_all.
Qed.

Lemma quiet_reply4 status : quiet (writeSocks4Response (b2z status) AnyIP 0 : ST W unit).
Proof.
  unfold writeSocks4Response. rewrite build_reply4, st_lift_bind.
  rewrite fresh_Bytes by (exact fresh_StackNew || done). rewrite st_lift_bind. apply quiet_all.
Qed.

Lemma polite_reject5 {A} e (Q : bytes -> A -> Prop) : polite (reject5 e : ST (R * W) A) Q.
Proof.
  unfold reject5. eapply polite_bind; [eapply polite_ignoring, polite_say, (quiet_reply5 x07 any_address 0); done|].
  intros ? ? _. apply polite_err.
Qed.

Lemma polite_reject4 {A} e (Q : bytes -> A -> Prop) : polite (reject4 e : ST (R * W) A) Q.
Proof.
  unfold reject4. eapply polite_bind; [eapply polite_ignoring, polite_say, (quiet_reply4 x5b)|].
  intros ? ? _. apply polite_err.
Qed.

(** Who passes a server that asks for a password has sent one it knows. *)
Definition entitled (c : ServerConfig) (d name : bytes) : Prop :=
  c_AuthType c = AuthType_PASSWORD ->
  exists methods w rest pass, d = methods ++ w ++ rest /\ x02 ∈ methods /\
    login_on_wire w name pass /\ HasAccount c name pass = true.

Lemma hasAuthMethod_spec e l : hasAuthMethod e l = true <-> exists x, x ∈ l /\ b2z x = e.
Proof.
  induction l as [|y l IH]; cbn [hasAuthMethod]; [set_solver|].
  destruct (b2z y =? e) eqn:E.
  - split; [|done]. intros _. exists y. split; [left|lia].
  - rewrite IH. split; intros (x & Hx & Hb); exists x; (split; [|done]); [by right|].
    apply elem_of_cons in Hx as [->|]; [lia|done].
Qed.

Lemma polite_auth c n : is_u8 n -> polite (auth5 c n : ST (R * W) bytes) (fun d name => entitled c d name).
Proof.
  intros Hn. unfold auth5.
  eapply polite_bind; [apply polite_listen, honest_base, honest_fresh; [exact fresh_StackNew|lia]|].
  intros b d [-> Hd]. assert (Hr : BytesRange (push StackNew d) 0 n = Ok d).
  { apply fresh_BytesRange; [exact fresh_StackNew|lia|lia|].
    rewrite <- Hd. unfold slice. rewrite Z.leb_refl, (proj2 (Z.leb_le 0 (zlen d))) by apply zlen_nonneg.
    rewrite Z.leb_refl. cbn [andb]. rewrite Z.sub_0_r.
    change (drop (Z.to_nat 0) d) with d. unfold zlen. by rewrite Nat2Z.id, take_ge. }
  rewrite Hr, st_lift_bind.
  destruct (decide (c_AuthType c = AuthType_PASSWORD)) as [Ht|Ht].
  - destruct (hasAuthMethod authPassword d) eqn:Hm; cbn [negb].
    2: { eapply polite_bind; [eapply polite_ignoring, polite_tell|]. intros ? ? _. apply polite_err. }
    eapply polite_bind; [apply polite_base, polite_tell|]. intros [] ? ->.
    change (authPassword =? authPassword) with true. cbn iota.
    eapply polite_bind; [apply polite_listen, honest_base, honest_login|]. intros [name pass] w Hw. cbn [fst snd] in Hw.
    destruct (HasAccount c name pass) eqn:Ha; cbn [negb].
    2: { eapply polite_bind; [eapply polite_ignoring, polite_tell|]. intros ? ? _. apply polite_err. }
    eapply polite_bind; [apply polite_base, polite_tell|]. intros [] ? ->.
    apply polite_ret. intros _. exists d, w, [], pass.
    apply hasAuthMethod_spec in Hm as (x & Hx & E). assert (x = x02) as -> by by apply b2z_inj.
    split; [|done]. by rewrite !app_nil_r.
  - destruct (hasAuthMethod authNotRequired d) eqn:Hm; cbn [negb].
    2: { eapply polite_bind; [eapply polite_ignoring, polite_tell|]. intros ? ? _. apply polite_err. }
    eapply polite_bind; [apply polite_base, polite_tell|]. intros [] ? ->.
    change (authNotRequired =? authPassword) with false. cbn iota. apply polite_ret. intros Ht'. by apply Ht in Ht'.
Qed.

(** The user of a request, by the name that was sent. *)
Definition user_named (name : bytes) : Datatypes.option (MemoryUser SocksAccount) :=
  match name with [] => None | _ => Some {| Account := None; Email := name; Level := 0 |} end.

Lemma polite_command c cmd : polite (command5 c cmd : ST (R * W) Z)
  (fun d x => d = [] /\ (x = RequestCommandTCP \/ x = RequestCommandUDP)).
Proof.
  unfold command5. repeat case_match; try apply polite_reject5; apply polite_ret; auto.
Qed.

Lemma polite_request c n : is_u8 n ->
  polite (request5 c n : ST (R * W) Request) (fun d req =>
    (Command req = RequestCommandTCP \/ Command req = RequestCommandUDP) /\
    exists name, entitled c d name /\ Headers.User req = user_named name).
Proof.
  intros Hn. unfold request5. eapply polite_bind; [by apply polite_auth|]. intros name d1 He.
  eapply polite_bind; [apply polite_listen, honest_base, honest_fresh; [exact fresh_StackNew|lia]|].
  intros b d2 [-> Hd2].
  assert (Hcmd : exists x, d2 !! 1%nat = Some x) by (apply lookup_lt_is_Some; unfold zlen in Hd2; lia).
  destruct Hcmd as [cmd Hcmd].
  change 1 with (Z.of_nat 1). rewrite (fresh_Byte StackNew fresh_StackNew d2 ltac:(lia) 1 cmd Hcmd), st_lift_bind.
  eapply polite_bind; [apply polite_command|]. intros command ? [-> Hc].
  eapply polite_bind; [apply polite_listen, honest_base, honest_harmless, harmless_AddressPort, socks_known|].
  intros [addr port] d3 _. apply polite_ret. split; [done|]. exists name. split; [|by destruct name].
  intros Ht. destruct (He Ht) as (methods & w & rest & pass & -> & ?).
  exists methods, w, (rest ++ d2 ++ d3), pass. split; [|done]. by rewrite app_nil_r, <- !app_assoc.
Qed.

(** A session whose last reply can be sent. *)
Definition ready (s : ServerSession) : Prop :=
  match flushLastReply_ s with
  | nil_callback => False
  | reply5 a _ => exists x, a = Some x /\ serializable x
  | _ => True
  end.

Lemma polite_flush s ok : ready s -> polite (flushLastReply s ok : ST (R * W) _) (fun d s' => d = [] /\ ready s').
Proof.
  unfold ready, flushLastReply. intros Hs.
  eapply (polite_bind _ _ (fun d _ => d = [])).
  - apply polite_say. destruct (flushLastReply_ s) as [| | |a p]; cbn [last_reply]; [done| | |].
    + intros w. by eexists _, _.
    + destruct ok; [apply (quiet_reply4 x5a)|apply (quiet_reply4 x5b)].
    + destruct Hs as (x & -> & Hx). destruct ok; [by apply (quiet_reply5 x00)|by apply (quiet_reply5 x05 any_address)].
  - intros [] ? ->. by apply polite_ret.
Qed.

Lemma polite_setup s f :
  ready (set_flush s f) -> polite (setupLastReply s f : ST (R * W) _) (fun d s' => d = [] /\ ready s').
Proof. intros Hs. unfold setupLastReply. destruct (DeferLastReply _); [by apply polite_ret|by apply polite_flush]. Qed.

Lemma honest_request4 : honest (request4 : ST R _) (fun _ _ => True).
Proof.
  unfold request4. eapply honest_bind; [apply honest_base, honest_fresh; [exact fresh_StackNew|lia]|].
  intros b d [-> Hd]. destruct d as [|x0 [|x1 [|x2 [|x3 [|x4 [|x5 d]]]]]]; try done.
  destruct d; [|rewrite !zlen_cons in Hd; pose proof (zlen_nonneg d); lia].
  set (d := [x0; x1; x2; x3; x4; x5]).
  rewrite (fresh_BytesRange _ fresh_StackNew d ltac:(done) 0 2 [x0; x1] ltac:(lia) eq_refl), st_lift_bind.
  change (PortFromBytes [x0; x1]) with (Ok (get_be [x0; x1])). rewrite st_lift_bind.
  rewrite (fresh_BytesRange _ fresh_StackNew d ltac:(done) 2 6 [x2; x3; x4; x5] ltac:(lia) eq_refl), st_lift_bind.
  eapply honest_bind; [apply honest_null|]. intros ? ? _.
  change (IPAddress [x2; x3; x4; x5]) with (Some (ipv4Address [x2; x3; x4; x5])). cbn [or_panic].
  rewrite st_lift_bind. change (IP (ipv4Address [x2; x3; x4; x5])) with (Ok [x2; x3; x4; x5]). rewrite st_lift_bind.
  change (or_panic (index [x2; x3; x4; x5] 0)) with (Ok x2). rewrite st_lift_bind.
  destruct (decide _); [|by apply honest_ret].
  eapply honest_bind; [apply honest_base, honest_null|]. intros ? ? _. by apply honest_ret.
Qed.

Context (c : ServerConfig) (gateway source : NetAddr.Destination).

(** The addresses the server may answer with. *)
Definition presentable : Prop :=
  (exists a, DAddress gateway = Some a /\ serializable a) /\
  match c_Address c with Some a => exists x, AsAddress (Some a) = Some x /\ serializable x | None => True end.

Lemma presentable_response command :
  presentable -> exists a, responseAddress (session c gateway source) command = Some a /\ serializable a.
Proof.
  intros [Hg Hc]. unfold responseAddress. cbn [config address clientAddress session].
  destruct (command =? RequestCommandUDP); [|done]. destruct (c_Address c); [done|].
  destruct (decide _) as [Hl|]; [|done].
  destruct Hl as [->| ->]; eexists; (split; [reflexivity|done]).
Qed.

(** What a successful handshake says about the client. *)
Definition admitted (d : bytes) (req : Request) : Prop :=
  c_AuthType c = AuthType_PASSWORD ->
  exists n methods w rest name pass, d = [x05; n] ++ methods ++ w ++ rest /\ x02 ∈ methods /\
    login_on_wire w name pass /\ HasAccount c name pass = true /\ Headers.User req = user_named name.

Lemma polite_handshake :
  presentable ->
  polite (Handshake (session c gateway source) : ST (R * W) _) (fun d x =>
    ready x.1 /\ (Command x.2 = RequestCommandTCP \/ Command x.2 = RequestCommandUDP) /\ admitted d x.2).
Proof.
  intros Hpres. unfold Handshake.
  eapply polite_bind; [apply polite_listen, honest_base, honest_fresh; [exact fresh_StackNew|lia]|].
  intros b d [-> Hd]. destruct (two_bytes d Hd) as (ver & n & ->).
  rewrite fresh_Byte0, st_lift_bind by (exact fresh_StackNew || done).
  rewrite fresh_Byte1, st_lift_bind by (exact fresh_StackNew || done).
  destruct (b2z ver =? socks4Version) eqn:E4; [|destruct (b2z ver =? socks5Version) eqn:E5; [|apply polite_err]].
  - unfold handshake4. cbn [config session].
    destruct (decide (c_AuthType c = AuthType_PASSWORD)) as [Ht|Ht]; [apply polite_reject4|].
    eapply polite_bind; [apply polite_listen, honest_request4|]. intros [port addr] d' _.
    destruct (b2z n =? cmdTCPConnect); [|apply polite_reject4].
    eapply polite_bind; [by apply polite_setup|]. intros s ? [-> Hs]. apply polite_ret.
    split; [done|]. split; [by left|]. intros Ht'. by apply Ht in Ht'.
  - assert (ver = x05) as ->. { apply b2z_inj. change (b2z x05) with 5. unfold socks5Version in E5. lia. }
    unfold handshake5. pose proof (b2z_range n).
    eapply polite_bind; [by apply polite_request|]. intros req d' [Hcmd (name & He & Hname)].
    destruct (presentable_response (Command req) Hpres) as (ra & Hra & Hser).
    eapply polite_bind; [apply polite_setup; by exists ra|]. intros s ? [-> Hs]. apply polite_ret.
    split; [done|]. split; [done|]. intros Ht. destruct (He Ht) as (methods & w & rest & pass & -> & ?).
    exists n, methods, w, rest, name, pass. split; [|naive_solver]. by rewrite !app_nil_r.
Qed.

Definition named (o : outcome L) (req : Request) : Prop :=
  let name := match Headers.User req with Some u => Some (Email u) | None => None end in
  match o with
  | Transport _ dest m => dest = Destination req /\ m = name
  | Associate m | Finished m => m = name
  | Broken _ _ => True
  end.

Lemma polite_processTCP (delegate : NetAddr.Destination -> res L) :
  presentable -> (forall dest, delegate dest <> Panic) ->
  polite (processTCP c gateway source delegate : ST (R * W) _) (fun d o => exists d' rest req,
    d = d' ++ rest /\ admitted d' req /\ named o req).
Proof.
  intros Hpres Hdel. unfold processTCP. destruct (negb _); [apply polite_err|].
  eapply polite_bind; [apply polite_base, (polite_handshake Hpres)|]. intros [s req] d1 (Hs & Hcmd & Hadm).
  cbn [fst snd] in *. destruct Hcmd as [Ec|Ec]; rewrite Ec.
  - change (RequestCommandTCP =? RequestCommandTCP) with true. cbn iota. unfold Finalizing_Dispatch.
    destruct (delegate _) as [link|e|] eqn:Ed; [..|by apply Hdel in Ed].
    + eapply (polite_bind _ _ (fun d x => True)).
      { eapply polite_bind; [eapply polite_attempt, (polite_flush s true Hs)|]. intros ? ? _. by apply polite_ret. }
      intros [l|l e] d2 _; apply polite_ret; exists d1, (d2 ++ []), req; done.
    + eapply (polite_bind _ _ (fun d x => False)); [|done].
      eapply polite_bind; [eapply polite_ignoring, (polite_flush s false Hs)|]. intros ? ? _. apply polite_err.
  - change (RequestCommandUDP =? RequestCommandTCP) with false. cbn iota.
    eapply polite_bind; [apply (polite_flush s true Hs)|]. intros s' ? [-> _]. apply polite_ret.
    exists d1, ([] ++ []), req. by destruct (RequestCommandUDP =? RequestCommandUDP).
Qed.
End AnyClient.

(** ** Version 4 *)
Section Version4.
Context {R W L : Type} `{Reader R} `{WriterSpec W}.

(** What the client sends for an IPv4 address or, as 4a, for a domain; [id] is
    the name of its account. *)
Definition request_4 (a : Address) (p : Port) (id : bytes) : bytes :=
  [x04; x01] ++ put_be 2 p ++
  (match a with ipv4Address ip => ip | _ => [x00; x00; x00; x01] end) ++ id ++ [x00] ++
  (match a with domainAddress d => d ++ [x00] | _ => [] end).

(** The address is not one that SOCKS 4 takes for the mark of a domain. *)
Definition request_4_ok (a : Address) (id : bytes) : Prop :=
  x00 ∉ id /\
  match a with
  | ipv4Address ip => length ip = 4%nat /\ head ip <> Some x00
  | domainAddress d => x00 ∉ d
  | ipv6Address _ => False
  end.

Lemma writes_request4 a p u :
  request_4_ok a (username u) -> writes (request4_steps (request_of u false a p)) (request_4 a p (username u)) tt.
Proof.
  intros [Hid Ha]. unfold request4_steps, request_4.
  eapply writes_bind; [apply writes_put|]. eapply writes_bind; [apply writes_extend_port|].
  eapply writes_lift; [reflexivity|].
  assert (Huser : writes (match Headers.User (request_of u false a p) with
       | Some _ => account ← st_lift (account_of (request_of u false a p)); Must (WriteString (Username account))
       | None => mret 0 end) (username u) (match u with Some acc => zlen (Username acc) | None => 0 end)).
  { destruct u as [acc|]; [|apply writes_ret]. eapply writes_lift; [reflexivity|]. apply writes_put. }
  destruct a as [ip|ip|d]; [|done|]; (eapply writes_bind; [apply writes_put|]);
    (eapply writes_bind; [exact Huser|]); (eapply writes_bind; [apply writes_put1|]); [apply writes_ret|].
  eapply writes_bind; [apply writes_put|apply writes_put1].
Qed.

Lemma takes_request4 a p id :
  request_4_ok a id -> is_u16 p -> zlen (request_4 a p id) <= 2048 ->
  takes (request4 : ST R _) (drop 2 (request_4 a p id)) (p, Some a).
Proof.
  intros [Hid Ha] Hp Hl. unfold request_4 in *. cbn [drop app] in *. rewrite !zlen_cons, !zlen_app, zlen_put_be in Hl.
  set (ip := match a with ipv4Address ip => ip | _ => [x00; x00; x00; x01] end) in *.
  assert (Hip : exists i0 i1 i2 i3, ip = [i0; i1; i2; i3]).
  { destruct a as [i|i|d]; [|done|by eexists _, _, _, _]. destruct Ha as [Hi _]. unfold ip.
    destruct i as [|i0 [|i1 [|i2 [|i3 [|]]]]]; try done. by exists i0, i1, i2, i3. }
  destruct Hip as (i0 & i1 & i2 & i3 & Hip). 
  set (tl := match a with domainAddress d => d ++ [x00] | _ => [] end) in *.
  pose proof (zlen_nonneg id). pose proof (zlen_nonneg tl). rewrite zlen_cons in Hl.
  rewrite Hip in Hl |- *. change (zlen [i0; i1; i2; i3]) with 4 in Hl.
  assert (Hd : zlen (put_be 2 p ++ [i0; i1; i2; i3]) = 6) by done.
  replace (drop _ _) with ((put_be 2 p ++ [i0; i1; i2; i3]) ++ (id ++ [x00]) ++ tl) by by rewrite <- !app_assoc.
  unfold request4.
  eapply takes_bind; [apply takes_base, takes_fresh; [exact fresh_StackNew|exact Hd|lia]|].
  eapply takes_lift; [eapply fresh_BytesRange; [exact fresh_StackNew|lia|lia|]; reflexivity|].
  eapply takes_lift; [reflexivity|].
  eapply takes_lift; [eapply fresh_BytesRange; [exact fresh_StackNew|lia|lia|]; reflexivity|].
  eapply takes_bind; [apply takes_null; [done|lia]|].
  change (take (Z.to_nat (6 - 2)) _) with [i0; i1; i2; i3].
  do 3 (eapply takes_lift; [reflexivity|]). unfold tl, ip in *. destruct a as [ip'|ip'|d]; [|done|].
  - destruct Ha as [_ Ha]. rewrite decide_False by (intros ->; apply Ha; by rewrite Hip).
    rewrite Hip. change (get_be _) with (get_be (put_be 2 p)). rewrite get_put_be_u16 by done. apply takes_ret.
  - injection Hip as <- <- <- <-. rewrite decide_True by done.
    rewrite zlen_app in Hl, H3. change (zlen [x00]) with 1 in *. pose proof (zlen_nonneg d).
    eapply takes_last; [apply takes_base, takes_null; [done|lia]|].
    change (get_be _) with (get_be (put_be 2 p)). by rewrite get_put_be_u16.
Qed.

Lemma takes_request4_message a p id :
  request_4 a p id = [x04; x01] ++ drop 2 (request_4 a p id).
Proof. done. Qed.

Lemma talks_flush4 s ok :
  flushLastReply_ s = reply4 ->
  talks (flushLastReply s ok : ST (R * W) _) [] (reply_4 (if ok then x5a else x5b)) (set_flush s noOpCallback).
Proof.
  intros Hs. unfold flushLastReply. rewrite Hs. eapply talks_last; [|done]. apply talks_say. cbn [last_reply].
  assert (Hw : forall status, writes (writeSocks4Response (b2z status) AnyIP 0 : ST W unit) (reply_4 status) tt).
  { intros status. unfold writeSocks4Response. eapply writes_lift; [apply build_reply4|].
    eapply writes_lift; [by apply fresh_Bytes|]. apply writes_all. }
  destruct ok; [apply (Hw x5a)|apply (Hw x5b)].
Qed.

Lemma finishes_server4 c gateway source (delegate : NetAddr.Destination -> res L) a p id :
  DNetwork gateway <> Network_Unknown -> (forall dest, delegate dest <> Panic) ->
  c_AuthType c = AuthType_NO_AUTH -> request_4_ok a id -> is_u16 p -> zlen (request_4 a p id) <= 2048 ->
  finishes (processTCP c gateway source delegate : ST (R * W) _) (request_4 a p id)
    (reply_4 (if granted c false (delegate (target false a p)) then x5a else x5b))
    (served (delegate (target false a p)) false (target false a p) None).
Proof.
  intros Hgw Hdel Ht Hok Hp Hl.
  set (req := {| Command := RequestCommandTCP; RAddress := Some a; RPort := p; Version := socks4Version;
                 Option := 0; Security := 0; User := None |} : Request).
  change (target false a p) with (Destination req). change None with (name_of req).
  apply (finishes_handshake c gateway source delegate Hgw Hdel reply4 (fun ok : bool => reply_4 (if ok then x5a else x5b))
    talks_flush4 req false eq_refl _ []).
  unfold Handshake. rewrite (takes_request4_message a p id), app_nil_l.
  eapply talks_read; [apply takes_base, takes_fresh; [exact fresh_StackNew|done|lia]|].
  eapply talks_lift; [by apply fresh_Byte0|]. eapply talks_lift; [by apply fresh_Byte1|].
  change (b2z x04 =? socks4Version) with true. cbn iota. unfold handshake4. cbn [config session]. rewrite Ht.
  rewrite decide_False by done. rewrite <- (app_nil_r (drop 2 _)).
  eapply talks_read; [by apply takes_request4|]. change (b2z x01 =? cmdTCPConnect) with true. cbn iota.
  eapply talks_last; [by apply (talks_setup c gateway source reply4 (fun ok : bool => reply_4 (if ok then x5a else x5b)) talks_flush4)|done].
Qed.

Lemma stalls_client4 a p u :
  request_4_ok a (username u) -> zlen (request_4 a p (username u)) <= 2048 ->
  stalls (ClientHandshake4 (request_of u false a p) : ST (R * W) _) [] (request_4 a p (username u)).
Proof.
  intros Hok Hl. unfold ClientHandshake4. rewrite <- (app_nil_r (request_4 _ _ _)).
  eapply stalls_tell; [by apply talks_send; [apply writes_request4| |]|].
  apply stalls_here, ends_fresh; [by apply fresh_again|lia].
Qed.

Lemma finishes_client4 a p u (ok : bool) :
  request_4_ok a (username u) -> zlen (request_4 a p (username u)) <= 2048 ->
  finishes (ClientHandshake4 (request_of u false a p) : ST (R * W) _) (reply_4 (if ok then x5a else x5b))
    (request_4 a p (username u)) (if ok : bool then Ok tt else Err (NewError "server rejects request: ")).
Proof.
  intros Hok Hl. unfold ClientHandshake4. rewrite <- (app_nil_r (request_4 _ _ _)).
  eapply finishes_tell; [by apply talks_send; [apply writes_request4| |]|].
  assert (F := fresh_again _ fresh_New _ Hl).
  rewrite <- (app_nil_r (reply_4 _)). eapply finishes_read; [by apply (takes_fresh _ 8)|].
  eapply finishes_lift; [by apply fresh_Byte0|]. change (negb (b2z x00 =? 0)) with false. cbn iota.
  eapply finishes_lift; [by apply fresh_Byte1|].
  destruct ok; [apply finishes_ok, talks_ret|apply finishes_err].
Qed.
End Version4.

(** ** Datagrams *)
Definition datagram (a : Address) (port : Port) (p : bytes) : bytes :=
  [x00; x00; x00] ++ encode addrParser a port ++ p.

Lemma writes_datagram a port p :
  serializable a -> writes (packet_steps (Some a) port p) (datagram a port p) tt.
Proof.
  intros Ha. unfold packet_steps, datagram. eapply writes_bind; [apply writes_put|].
  eapply writes_bind; [apply writes_AddressPort; [apply socks_handles, Ha|done]|].
  by eapply writes_last; [apply writes_put|].
Qed.

Lemma encode_at_least a port : serializable a -> 2 <= zlen (encode addrParser a port).
Proof.
  intros Ha. change (encode addrParser a port) with (encode_address (family_byte addrParser a) a ++ put_be 2 port).
  rewrite zlen_app, zlen_put_be. pose proof (zlen_nonneg (encode_address (family_byte addrParser a) a)). lia.
Qed.

Lemma Decode_spec b a port p :
  buf_wf b -> content b = datagram a port p -> serializable a -> is_u16 port ->
  exists b', DecodeUDPPacket b = (b', Ok {| Version := socks5Version; Command := RequestCommandUDP;
    RAddress := Some a; RPort := port; Option := 0; Security := 0; User := None |}) /\
    buf_wf b' /\ content b' = p.
Proof.
  intros Hwf Hc Ha Hp. pose proof (encode_at_least a port Ha) as He. pose proof (zlen_nonneg p).
  assert (Hl : zlen (content b) = 3 + (zlen (encode addrParser a port) + zlen p)).
  { rewrite Hc. unfold datagram. rewrite !zlen_app. done. }
  unfold DecodeUDPPacket. rewrite (Len_wf b Hwf). replace (_ <? 5) with false by lia.
  unfold mbind at 1, st_bind. rewrite Byte_wf by (done || lia).
  replace (content b !! Z.to_nat 2) with (Some x00) by by rewrite Hc. cbn [or_panic st_lift].
  change (negb (b2z x00 =? 0)) with false. cbn beta iota. rewrite Advance_pop by (done || lia).
  assert (Hc3 : content (pop b 3) = encode addrParser a port ++ p) by (rewrite pop_content by (done || lia); by rewrite Hc).
  assert (Hw3 : buf_wf (pop b 3)) by (apply pop_wf; [done|lia]).
  pose proof (takes_base (R := Buffer) "failed to read UDP header" _ _ _ (takes_address a port Ha Hp)) as Ht.
  destruct (Ht (pop b 3) p Hw3 Hc3) as (b' & E & Hb' & _ & Hcb').
  exists b'. unfold mbind, st_bind. rewrite E. done.
Qed.

(** Version 4 and 4a: two rounds, with no authentication. *)
Lemma socks4_handshake_completes {L} c gateway source (delegate : NetAddr.Destination -> res L) u a p :
  DNetwork gateway <> Network_Unknown -> (forall dest, delegate dest <> Panic) ->
  c_AuthType c = AuthType_NO_AUTH -> request_4_ok a (username u) -> is_u16 p ->
  zlen (request_4 a p (username u)) <= 2048 ->
  let client := ClientHandshake4 (request_of u false a p) in
  let server := processTCP c gateway source delegate in
  let d := delegate (target false a p) in
  let '(up, down) := rounds client server 2 in
  result server up = served d false (target false a p) None /\
  result client down = (if granted c false d then Ok tt else Err (NewError "server rejects request: ")).
Proof.
  intros Hgw Hdel Ht Hok Hp Hl client server d.
  pose proof (finishes_server4 (R := conn) (W := sink) c gateway source delegate a p (username u) Hgw Hdel Ht Hok Hp Hl) as Hs.
  apply output_finishes in Hs as [Hs1 Hs2].
  pose proof (finishes_client4 (R := conn) (W := sink) a p u (granted c false d) Hok Hl) as Hc.
  apply output_finishes in Hc as [Hc1 Hc2].
  pose proof (stalls_client4 (R := conn) (W := sink) a p u Hok Hl) as H0. apply output_stalls in H0.
  unfold rounds. cbn zeta. cbn [snd]. unfold client, server. rewrite H0, Hs1.
  fold d. rewrite Hc1, Hs1. split; [exact Hs2|exact Hc2].
Qed.

(** A payload that does not fit is cut, and [Write] reports all of it as written. *)
Lemma datagram_cut {W} `{WriterSpec W} request a p (w : W) :
  RAddress request = Some a -> serializable a ->
  2048 < zlen (datagram a (RPort request) p) -> wr_fits w 2048 ->
  exists w', UDPWriter_Write request p w = (w', Ok (zlen p)) /\
    wr_after w (take 2048 (datagram a (RPort request) p)) w'.
Proof.
  intros Ha Hser Hl Hfit. pose proof (encode_length addrParser a (RPort request) Hser) as He.
  set (h := [x00; x00; x00] ++ encode addrParser a (RPort request)).
  assert (Hh : zlen h = 3 + zlen (encode addrParser a (RPort request))) by by unfold h; rewrite zlen_app.
  assert (Hd : datagram a (RPort request) p = h ++ p) by (unfold datagram, h; by rewrite <- app_assoc).
  pose proof (encode_at_least a (RPort request) Hser).
  destruct (fresh_push New fresh_New h ltac:(lia)) as (Hwf & Hc & Hroom).
  assert (Hcut : take (Z.to_nat (room (push New h))) p = take (2048 - length h) p).
  { f_equal. rewrite Hroom. unfold zlen. lia. }
  assert (Hpush : zlen (h ++ take (2048 - length h) p) = 2048).
  { rewrite Hd, zlen_app in Hl. rewrite zlen_app. unfold zlen in *. rewrite length_take. lia. }
  assert (E : EncodeUDPPacket request p = Ok (push New (h ++ take (2048 - length h) p))).
  { unfold EncodeUDPPacket. rewrite Ha. unfold build, packet_steps.
    assert (Hsteps : writes (_ ← Must (Write [x00; x00; x00]); WriteAddress (Some a) (RPort request)) h tt).
    { eapply writes_bind; [apply writes_put|]. apply writes_AddressPort; [apply socks_handles, Hser|done]. }
    pose proof (writes_push _ _ _ New Hsteps (fresh_wf _ fresh_New) ltac:(rewrite fresh_room by done; lia)) as Hp.
    unfold mbind, st_bind in Hp |- *. destruct (Must (Write [x00; x00; x00]) New) as [b1 [n|e|]]; [|done..].
    rewrite Hp. unfold Must at 1. rewrite (Write_spec _ Hwf p), Hcut.
    rewrite push_push; [done|apply fresh_wf, fresh_New|]. rewrite fresh_room by done. rewrite <- zlen_app. lia. }
  unfold UDPWriter_Write. rewrite E, st_lift_bind, fresh_Bytes by (exact fresh_New || lia). rewrite st_lift_bind.
  destruct (wr_spec w (h ++ take (2048 - length h) p) 0) as (w' & Ew & Hw & _); [lia|by rewrite Hpush|].
  exists w'. unfold mbind, st_bind. rewrite Ew. split; [done|].
  rewrite Hd, take_app. by rewrite (take_ge h) by (unfold zlen in *; lia).
Qed.

(** ** Theorems *)

(** C9. The two handshakes of SOCKS 5 finish together, for a client the server serves:
    its account, if the server asks for one, is an account of the server (name and
    password of at most 255 bytes), UDP is enabled if it asks for UDP, and the address
    it asks for and the one the server answers with survive the wire.  Whether the
    client keeps its password back until the server has chosen the method, whether the
    server defers its last reply and whether the dispatcher, which does not panic,
    succeeds: after three rounds of running each side as far as what it was sent takes
    it, the server goes on with the destination the client asked for and the name it
    gave - or with the dispatcher's error -, and the client has the reply: among these
    clients, a refusal exactly when the dispatcher failed before the last reply was out.
    *)
Theorem socks5_handshake_completes {L} c gateway source (delegate : NetAddr.Destination -> res L)
    u udp a p delay ra :
  DNetwork gateway <> Network_Unknown -> (forall dest, delegate dest <> Panic) ->
  account_ok c u -> (udp = true -> UdpEnabled c = true) -> serializable a -> is_u16 p ->
  responseAddress (session c gateway source) (if udp then RequestCommandUDP else RequestCommandTCP) = Some ra ->
  serializable ra -> is_u16 (DPort gateway) ->
  let client := ClientHandshake (request_of u udp a p) delay in
  let server := processTCP c gateway source delegate in
  let d := delegate (target udp a p) in
  let '(up, down) := rounds client server 3 in
  result server up = served d udp (target udp a p) (email u) /\
  result client down = answered (granted c udp d) udp ra (DPort gateway) /\
  output client down = up /\ output server up = down.
Proof.
  intros Hgw Hdel Hu Hudp Ha Hp Hra Hser Hgp client server d.
  pose proof (client_done c gateway delegate u udp a p delay ra Hu Ha Hser Hgp) as [Hc1 Hc2].
  pose proof (server_done c gateway source delegate u udp a p delay ra Hgw Hdel Hu Hudp Ha Hp Hra Hser) as [Hs1 Hs2].
  unfold client, server. by rewrite (rounds_done c gateway source delegate u udp a p delay ra).
Qed.

Definition demo_config : ServerConfig :=
  {| c_AuthType := AuthType_PASSWORD; Accounts := Some {[lit "alice" := lit "wonder"]}; c_Address := None;
     UdpEnabled := true; Timeout := 0; UserLevel := 0; PacketEncoding := 0; DeferLastReply := true |}.
Definition demo_gateway : NetAddr.Destination := TCPDestination (Some (ipv4Address (map z2b [10; 0; 0; 1]))) 1080.
Definition demo_source : NetAddr.Destination := TCPDestination (Some (ipv4Address (map z2b [10; 0; 0; 9]))) 40000.
Definition demo_account : SocksAccount := {| Username := lit "alice"; Password := lit "wonder" |}.

Lemma socks5_handshake_completes_witness :
  let client := ClientHandshake (request_of (Some demo_account) false (domainAddress (lit "v2fly.org")) 443) true in
  let server := processTCP demo_config demo_gateway demo_source (fun _ => Ok tt) in
  let '(up, down) := rounds client server 3 in
  result server up = Ok (Transport tt (TCPDestination (Some (domainAddress (lit "v2fly.org"))) 443) (Some (lit "alice"))) /\
  result client down = Ok None /\ output client down = up /\ output server up = down.
Proof.
  apply (socks5_handshake_completes demo_config demo_gateway demo_source (fun _ => Ok tt) (Some demo_account) false
    (domainAddress (lit "v2fly.org")) 443 true (ipv4Address (map z2b [10; 0; 0; 1]))).
  - discriminate.
  - discriminate.
  - repeat split; vm_compute; congruence.
  - discriminate.
  - repeat split; vm_compute; congruence.
  - lia.
  - reflexivity.
  - repeat split.
  - vm_compute. by split.
Defined.

(** Over TCP a server that asks for a password serves nobody without one: whatever the
    client sends, if the addresses the server answers with can be written, nothing
    panics in [processTCP], and when it goes on - with a TCP connection or a UDP
    association - the client offered the password method in SOCKS 5 and sent the name
    and the password of one of its accounts, and the session runs under that name.
    (Datagrams that come in on the UDP port are not authenticated: [Server.Process]
    hands them to handleUDPPayload.) *)
Theorem socks_password_required {R W L} `{Reader R} `{Writer W} `{!TotalWriter W}
    c gateway source (delegate : NetAddr.Destination -> res L) (r : R) (w : W) :
  presentable c gateway -> (forall dest, delegate dest <> Panic) -> rd_wf r ->
  exists r' w' x, processTCP c gateway source delegate (r, w) = ((r', w'), x) /\ x <> Panic /\
    (c_AuthType c = AuthType_PASSWORD -> forall o, x = Ok o ->
     exists n methods sent rest name pass req,
       rd_content r = [x05; n] ++ methods ++ sent ++ rest /\ x02 ∈ methods /\
       login_on_wire sent name pass /\ HasAccount c name pass = true /\
       Headers.User req = user_named name /\ named o req).
Proof.
  intros Hpres Hdel Hr.
  destruct (polite_processTCP (R := R) (W := W) c gateway source delegate Hpres Hdel r w Hr)
    as (r' & w' & x & d & E & Hx & _ & _ & Hc & HQ).
  exists r', w', x. split; [done|]. split; [done|]. intros Ht o Ho.
  destruct (HQ o Ho) as (d' & rest & req & -> & Hadm & Hn).
  destruct (Hadm Ht) as (n & methods & sent & rest' & name & pass & -> & ? & ? & ? & ?).
  exists n, methods, sent, (rest' ++ rest ++ rd_content r'), name, pass, req.
  split_and!; try done. by rewrite Hc, <- !app_assoc.
Qed.

Lemma socks_password_required_witness :
  exists r' w' x, processTCP demo_config demo_gateway demo_source (fun _ => Ok tt) (conn_of [x05; x01; x00], sink_empty) =
    ((r', w'), x) /\ x <> Panic /\ concat (sent w') = [x05; xff].
Proof.
  destruct (socks_password_required demo_config demo_gateway demo_source (fun _ => Ok tt) (conn_of [x05; x01; x00]) sink_empty)
    as (r' & w' & x & E & Hx & _).
  - split; [|exact I]. eexists. split; [reflexivity|]. by split.
  - discriminate.
  - exact I.
  - exists r', w', x. split; [exact E|]. split; [exact Hx|].
    replace w' with (processTCP demo_config demo_gateway demo_source (fun _ => Ok tt) (conn_of [x05; x01; x00], sink_empty)).1.2
      by by rewrite E.
    vm_compute. reflexivity.
Defined.

(** A datagram that fits its buffer comes out of [DecodeUDPPacket] with the
    address, the port and the payload that [EncodeUDPPacket] put in. *)
Theorem socks_udp_roundtrip request a p :
  RAddress request = Some a -> serializable a -> is_u16 (RPort request) ->
  zlen (datagram a (RPort request) p) <= 2048 ->
  exists b b' h, EncodeUDPPacket request p = Ok b /\ content b = datagram a (RPort request) p /\
    DecodeUDPPacket b = (b', Ok h) /\ content b' = p /\ Destination h = UDPDestination (Some a) (RPort request).
Proof.
  intros Ha Hser Hp Hl. unfold EncodeUDPPacket. rewrite Ha.
  rewrite (fresh_build _ New _ tt (writes_datagram a (RPort request) p Hser) fresh_New Hl).
  destruct (fresh_push New fresh_New _ Hl) as (Hwf & Hc & _).
  destruct (Decode_spec _ a (RPort request) p Hwf Hc Hser Hp) as (b' & E & _ & Hc').
  by eexists _, b', _.
Qed.

Lemma socks_udp_roundtrip_witness :
  exists b b' h, EncodeUDPPacket (request_of None true (ipv4Address (map z2b [8; 8; 8; 8])) 53) (lit "query") = Ok b /\
    DecodeUDPPacket b = (b', Ok h) /\ content b' = lit "query".
Proof.
  destruct (socks_udp_roundtrip (request_of None true (ipv4Address (map z2b [8; 8; 8; 8])) 53)
    (ipv4Address (map z2b [8; 8; 8; 8])) (lit "query")) as (b & b' & h & E & _ & E' & Hc & _).
  - reflexivity.
  - repeat split.
  - cbn. lia.
  - vm_compute. discriminate.
  - exists b, b', h. split; [exact E|]. split; [exact E'|exact Hc].
Defined.
