(* ===== verification/Auth.v ===== *)
(** * Package common/crypto: authenticated chunk streams

    [Module Auth] models auth.go (authenticators over an AEAD, the reader and the
    writer of chunks), chunk.go (the size parsers) and io.go (stream ciphers).
    The AEAD and the stream cipher are classes.  The reader and the writer work
    on a [Framing]: one state for everything the authenticator, the size parser
    and the padding generator keep and may share through pointers, as
    [AEADChunkSizeParser] shares its authenticator. *)
From S2P Require Import Prelude GoStd Buf MultiBuf Headers BufReader.
Import Buf MultiBuf BufReader.
Abbreviation TransferType := Headers.TransferType.
Abbreviation TransferTypeStream := Headers.TransferTypeStream.
Abbreviation TransferTypePacket := Headers.TransferTypePacket.

Module Auth.

(** ** Nonces: the closures of auth.go, and of proxy/vmess/encoding/client.go for
    chunks *)
Inductive BytesGenerator :=
  | EmptyBytes
  | StaticBytes (content : bytes)
  | IncreasingNonce (c : bytes)
  | ChunkNonce (c : bytes) (count size : Z).   (* count: uint16, size: uint32 *)

(** One is added to a little-endian number, modulo its size. *)
Fixpoint increase (c : bytes) : bytes :=
  match c with
  | [] => []
  | x :: c' => let x := z2b (b2z x + 1) in if b2z x =? 0 then x :: increase c' else x :: c'
  end.

(** [PutUint16] at the start of the nonce; the nonces are at least two bytes. *)
Definition next_bytes (g : BytesGenerator) : BytesGenerator * res bytes :=
  match g with
  | EmptyBytes => (g, Ok [])
  | StaticBytes content => (g, Ok content)
  | IncreasingNonce c => (IncreasingNonce (increase c), Ok (increase c))
  | ChunkNonce c count size =>
    if zlen c <? 2 then (g, Panic)
    else
      let c := put_be 2 count ++ drop 2 c in
      (ChunkNonce c (u16 (count + 1)) size, or_panic (slice c 0 size))
  end.

Definition GenerateEmptyBytes : BytesGenerator := EmptyBytes.
Definition GenerateStaticBytes (content : bytes) : BytesGenerator := StaticBytes content.
Definition GenerateIncreasingNonce (nonce : bytes) : BytesGenerator := IncreasingNonce nonce.
Definition GenerateInitialAEADNonce : BytesGenerator := GenerateIncreasingNonce (replicate 12 xff).

(** ** cipher.AEAD *)
Class AeadCipher (C : Type) := {
  NonceSize : C -> Z;
  aead_Overhead : C -> Z;
  aead_Open : C -> bytes -> bytes -> bytes -> res bytes;   (* nonce, ciphertext, additional data *)
  aead_Seal : C -> bytes -> bytes -> bytes -> res bytes;
}.

Record AEADAuthenticator (C : Type) := mkAuth {
  AEAD : C;
  NonceGenerator : BytesGenerator;
  AdditionalDataGenerator : option BytesGenerator;
}.
Arguments mkAuth {C}.
Arguments AEAD {C}.
Arguments NonceGenerator {C}.
Arguments AdditionalDataGenerator {C}.

Section Authenticator.
Context {C : Type} `{AeadCipher C}.

(** Nonce and additional data of the next operation. *)
Definition next_inputs : ST (AEADAuthenticator C) (bytes * bytes) := fun v =>
  match next_bytes (NonceGenerator v) with
  | (g, Ok iv) =>
    let v := {| AEAD := AEAD v; NonceGenerator := g; AdditionalDataGenerator := AdditionalDataGenerator v |} in
    if decide (zlen iv <> NonceSize (AEAD v)) then (v, Err (NewError "invalid AEAD nonce size: "))
    else
      match AdditionalDataGenerator v with
      | None => (v, Ok (iv, []))
      | Some a =>
        let '(a, ad) := next_bytes a in
        ({| AEAD := AEAD v; NonceGenerator := g; AdditionalDataGenerator := Some a |}, ad ← ad; Ok (iv, ad))
      end
  | (g, x) =>
    ({| AEAD := AEAD v; NonceGenerator := g; AdditionalDataGenerator := AdditionalDataGenerator v |}, iv ← x; Ok (iv, []))
  end.

Definition Open (cipherText : bytes) : ST (AEADAuthenticator C) bytes := fun v =>
  match next_inputs v with
  | (v, Ok (iv, ad)) => (v, aead_Open (AEAD v) iv cipherText ad)
  | (v, Err e) => (v, Err e)
  | (v, Panic) => (v, Panic)
  end.

Definition Seal (plainText : bytes) : ST (AEADAuthenticator C) bytes := fun v =>
  match next_inputs v with
  | (v, Ok (iv, ad)) => (v, aead_Seal (AEAD v) iv plainText ad)
  | (v, Err e) => (v, Err e)
  | (v, Panic) => (v, Panic)
  end.

(** ** chunk.go: sizes *)
Definition AEAD_SizeBytes (p : AEADAuthenticator C) : Z := i32 (2 + aead_Overhead (AEAD p)).

(** [common.Must(err)] *)
Definition AEAD_Encode (size : Z) : ST (AEADAuthenticator C) bytes := fun p =>
  match Seal (put_be 2 (u16 (size - u16 (aead_Overhead (AEAD p))))) p with
  | (p, Ok b) => (p, Ok b)
  | (p, _) => (p, Panic)
  end.

Definition AEAD_Decode (b : bytes) : ST (AEADAuthenticator C) Z := fun p =>
  match Open b p with
  | (p, Ok b) => (p, n ← Uint16 b; Ok (u16 (n + u16 (aead_Overhead (AEAD p)))))
  | (p, Err e) => (p, Err e)
  | (p, Panic) => (p, Panic)
  end.
End Authenticator.

Definition Plain_SizeBytes : Z := 2.
Definition Plain_Encode (size : Z) : bytes := put_be 2 size.
Definition Plain_Decode (b : bytes) : res Z := Uint16 b.

(** ** The state of a reader or writer beside its stream

    [offset] is [HasConstantOffset], 0 for a parser without it; [padding] tells
    whether there is a padding generator; [random] are the bytes of padding. *)
Class Framing (S : Type) := {
  Overhead : S -> Z;
  auth_Open : bytes -> ST S bytes;
  auth_Seal : bytes -> ST S bytes;
  SizeBytes : S -> Z;
  Decode : bytes -> ST S Z;
  Encode : Z -> ST S bytes;
  offset : S -> Z;
  padding : S -> bool;
  NextPaddingLen : S -> S * Z;
  MaxPaddingLen : S -> Z;
  random : Z -> S -> S * bytes;
}.

(** The authenticator that parses the sizes of its own stream, without padding. *)
#[export] Instance shared_framing {C} `{AeadCipher C} : Framing (AEADAuthenticator C) := {|
  Overhead v := aead_Overhead (AEAD v);
  auth_Open := Open; auth_Seal := Seal;
  SizeBytes := AEAD_SizeBytes; Decode := AEAD_Decode; Encode := AEAD_Encode;
  offset _ := 0; padding _ := false; NextPaddingLen v := (v, 0); MaxPaddingLen _ := 0; random _ v := (v, []) |}.

#[export] Instance TransferType_eq_dec : EqDecision TransferType.
Proof. solve_decision. Defined.

Definition errSoft : error := NewError "waiting for more data".

Section Streams.
Context {S : Type} `{Framing S} {L : Type} `{MbSource L}.

(** ** AuthenticationReader *)
Record AuthenticationReader := mkReader {
  r_auth : S;
  r_reader : BufferedReader L;
  r_size : Z;           (* uint16 *)
  r_paddingLen : Z;     (* uint16 *)
  hasSize : bool;
  done_ : bool;
}.

Definition NewAuthenticationReader (auth : S) (reader : BufferedReader L) : AuthenticationReader :=
  {| r_auth := auth; r_reader := reader; r_size := 0; r_paddingLen := 0; hasSize := false; done_ := false |}.

Definition set_stream (r : AuthenticationReader) (auth : S) (reader : BufferedReader L) : AuthenticationReader :=
  {| r_auth := auth; r_reader := reader; r_size := r_size r; r_paddingLen := r_paddingLen r; hasSize := hasSize r; done_ := done_ r |}.

Definition set_size (r : AuthenticationReader) (has : bool) (size padding : Z) : AuthenticationReader :=
  {| r_auth := r_auth r; r_reader := r_reader r; r_size := size; r_paddingLen := padding; hasSize := has; done_ := done_ r |}.

Definition set_done (r : AuthenticationReader) : AuthenticationReader :=
  {| r_auth := r_auth r; r_reader := r_reader r; r_size := r_size r; r_paddingLen := r_paddingLen r; hasSize := hasSize r; done_ := true |}.

(** Size and padding of the next chunk. *)
Definition readSize : ST AuthenticationReader (Z * Z) := fun r =>
  if hasSize r then (set_size r false (r_size r) (r_paddingLen r), Ok (r_size r, r_paddingLen r))
  else
    match ReadFull (r_reader r) (Z.to_nat (SizeBytes (r_auth r))) with
    | (br, (_, Some err)) => (set_stream r (r_auth r) br, Err err)
    | (br, (sizeBytes, None)) =>
      let '(s, pad) := if padding (r_auth r) then NextPaddingLen (r_auth r) else (r_auth r, 0) in
      let '(s, size) := Decode sizeBytes s in
      (set_stream r s br, size ← size; Ok (size, pad))
    end.

(** The chunk is opened in place: the plain text ends up at the start of the
    array. *)
Definition readBuffer (size pad : Z) : ST AuthenticationReader Buf.Buffer := fun r =>
  match ReadFullFrom size (New, r_reader r) with
  | ((b, br), Ok _) =>
    let r := set_stream r (r_auth r) br in
    match BytesTo b (i32 (size - pad)) with
    | Ok cipherText =>
      let '(s, rb) := auth_Open cipherText (r_auth r) in
      (set_stream r s br, rb ← rb; Resize (poke b (start b, end_ b) rb) 0 (i32 (zlen rb)))
    | Err e => (r, Err e)
    | Panic => (r, Panic)
    end
  | ((_, br), Err e) => (set_stream r (r_auth r) br, Err e)
  | ((_, br), Panic) => (set_stream r (r_auth r) br, Panic)
  end.

(** A chunk of more than a buffer. *)
Definition readLarge (effectiveSize pad : Z) (mb : MultiBuffer) : ST AuthenticationReader MultiBuffer := fun r =>
  match ReadFull (r_reader r) (Z.to_nat effectiveSize) with
  | (br, (_, Some e)) => (set_stream r (r_auth r) br, Err e)
  | (br, (payload, None)) =>
    match slice payload 0 (i32 (effectiveSize - pad)) with
    | None => (set_stream r (r_auth r) br, Panic)
    | Some cipherText =>
      let '(s, rb) := auth_Open cipherText (r_auth r) in
      (set_stream r s br, rb ← rb; default Panic (MergeBytes mb rb))
    end
  end.

Definition readInternal (soft : bool) (mb : MultiBuffer) : ST AuthenticationReader MultiBuffer := fun r =>
  if soft && (BufferedBytes (r_reader r) <? SizeBytes (r_auth r)) then (r, Err errSoft)
  else if done_ r then (r, Err EOF)
  else
    match readSize r with
    | (r, Ok (size, pad)) =>
      if u16 (size + offset (r_auth r)) =? u16 (u16 (Overhead (r_auth r)) + pad) then (set_done r, Err EOF)
      else
        let effectiveSize := size + offset (r_auth r) in
        if soft && (BufferedBytes (r_reader r) <? effectiveSize) then (set_size r true size pad, Err errSoft)
        else if effectiveSize <=? Buf.Size then
          let '(r, b) := readBuffer effectiveSize pad r in (r, b ← b; Ok (mb ++ [b]))
        else readLarge effectiveSize pad mb r
    | (r, Err e) => (r, Err e)
    | (r, Panic) => (r, Panic)
    end.

(** The further chunks that have arrived, at most [n]; an error drops them all. *)
Fixpoint readMore (n : nat) (mb : MultiBuffer) : ST AuthenticationReader MultiBuffer := fun r =>
  match n with
  | O => (r, Ok mb)
  | Datatypes.S n =>
    match readInternal true mb r with
    | (r, Ok mb) => readMore n mb r
    | (r, Err e) => if decide (e = errSoft \/ e = EOF) then (r, Ok mb) else (r, Err e)
    | (r, Panic) => (r, Panic)
    end
  end.

Definition ReadMultiBuffer : ST AuthenticationReader MultiBuffer :=
  mb ← readInternal false []; readMore 15 mb.

#[export] Instance auth_reader : MbReader AuthenticationReader := fun r =>
  match ReadMultiBuffer r with
  | (r, Ok mb) => (r, Ok (mb, None))
  | (r, Err e) => (r, Ok ([], Some e))
  | (r, Panic) => (r, Panic)
  end.

(** ** AuthenticationWriter *)

(** Size, sealed chunk and padding in one buffer. *)
Definition seal (b : bytes) : ST S Buf.Buffer := fun s =>
  let encryptedSize := i32 (zlen b + Overhead s) in
  let '(s, paddingSize) := if padding s then NextPaddingLen s else (s, 0) in
  let sizeBytes := SizeBytes s in
  let totalSize := i32 (sizeBytes + encryptedSize + paddingSize) in
  if Buf.Size <? totalSize then (s, Err (NewError "size too large: "))
  else
    match Extend New sizeBytes with
    | Ok (eb, w) =>
      match Encode (u16 (encryptedSize + paddingSize)) s with
      | (s, Ok sizes) =>
        match Extend (poke eb w sizes) encryptedSize with
        | Ok (eb, w) =>
          match auth_Seal b s with
          | (s, Ok sealed) =>
            let eb := poke eb w sealed in
            if 0 <? paddingSize then
              match Extend eb paddingSize with
              | Ok (eb, w) => let '(s, pad) := random paddingSize s in (s, Ok (poke eb w pad))
              | Err e => (s, Err e)
              | Panic => (s, Panic)
              end
            else (s, Ok eb)
          | (s, Err e) => (s, Err e)
          | (s, Panic) => (s, Panic)
          end
        | Err e => (s, Err e)
        | Panic => (s, Panic)
        end
      | (s, Err e) => (s, Err e)
      | (s, Panic) => (s, Panic)
      end
    | Err e => (s, Err e)
    | Panic => (s, Panic)
    end.

(** The loop of [writeStream]; one turn for every byte is enough. *)
Fixpoint seal_stream (fuel : nat) (payloadSize : nat) (mb mb2Write : MultiBuffer) : S -> option (S * res MultiBuffer) :=
  match fuel with
  | O => fun _ => None
  | Datatypes.S fuel => fun s =>
    match SplitBytes mb payloadSize with
    | Ok (mb, rawBytes) =>
      match seal rawBytes s with
      | (s, Ok eb) =>
        if MultiBuf.IsEmpty mb then Some (s, Ok (mb2Write ++ [eb]))
        else seal_stream fuel payloadSize mb (mb2Write ++ [eb]) s
      | (s, Err e) => Some (s, Err e)
      | (s, Panic) => Some (s, Panic)
      end
    | Err e => Some (s, Err e)
    | Panic => Some (s, Panic)
    end
  end.

Context {W : Type} `{MbWriter W}.

Record AuthenticationWriter := mkWriter { w_auth : S; w_writer : W; w_transferType : TransferType }.

Definition NewAuthenticationWriter (auth : S) (writer : W) (transferType : TransferType) : AuthenticationWriter :=
  {| w_auth := auth; w_writer := writer; w_transferType := transferType |}.

(** Sealed buffers go to the writer underneath. *)
Definition write_sealed (x : S * res MultiBuffer) : ST AuthenticationWriter unit := fun w =>
  match x with
  | (s, Ok mb) =>
    let '(u, r) := write_mb mb (w_writer w) in
    ({| w_auth := s; w_writer := u; w_transferType := w_transferType w |}, r)
  | (s, Err e) => ({| w_auth := s; w_writer := w_writer w; w_transferType := w_transferType w |}, Err e)
  | (s, Panic) => ({| w_auth := s; w_writer := w_writer w; w_transferType := w_transferType w |}, Panic)
  end.

Definition tooLarge (n : Z) : bool := 64 * 1024 * 1024 <? n.

Definition writeStream (mb : MultiBuffer) : ST AuthenticationWriter unit := fun w =>
  let s := w_auth w in
  let maxPadding := if padding s then MaxPaddingLen s else 0 in
  let payloadSize := Buf.Size - Overhead s - SizeBytes s - maxPadding in
  if tooLarge (zlen mb + 10) then (w, Err (NewError "value too large"))
  else
    match Extend New payloadSize with
    | Ok _ =>
      match seal_stream (Datatypes.S (length (mb_content mb))) (Z.to_nat payloadSize) mb [] s with
      | Some x => write_sealed x w
      | None => (w, Panic)
      end
    | Err e => (w, Err e)
    | Panic => (w, Panic)
    end.

(** A buffer that cannot be sealed is dropped. *)
Fixpoint seal_packets (mb mb2Write : MultiBuffer) : ST S MultiBuffer := fun s =>
  match mb with
  | [] => (s, Ok mb2Write)
  | b :: mb =>
    if Buf.IsEmpty (Some b) then seal_packets mb mb2Write s
    else
      match Bytes b with
      | Ok d =>
        match seal d s with
        | (s, Ok eb) => seal_packets mb (mb2Write ++ [eb]) s
        | (s, Err _) => seal_packets mb mb2Write s
        | (s, Panic) => (s, Panic)
        end
      | Err e => (s, Err e)
      | Panic => (s, Panic)
      end
  end.

Definition writePacket (mb : MultiBuffer) : ST AuthenticationWriter unit := fun w =>
  if tooLarge (zlen mb + 1) then (w, Err (NewError "value too large"))
  else
    match seal_packets mb [] (w_auth w) with
    | (s, Ok mb2Write) =>
      if MultiBuf.IsEmpty mb2Write
      then ({| w_auth := s; w_writer := w_writer w; w_transferType := w_transferType w |}, Ok tt)
      else write_sealed (s, Ok mb2Write) w
    | x => write_sealed x w
    end.

(** An empty MultiBuffer ends the stream with an empty chunk. *)
#[export] Instance auth_writer : MbWriter AuthenticationWriter := fun mb w =>
  if MultiBuf.IsEmpty mb then
    match seal [] (w_auth w) with
    | (s, Ok eb) => write_sealed (s, Ok [eb]) w
    | (s, _) => write_sealed (s, Panic) w
    end
  else if decide (w_transferType w = TransferTypeStream) then writeStream mb w
  else writePacket mb w.
End Streams.
Arguments AuthenticationReader : clear implicits.
Arguments AuthenticationWriter : clear implicits.

(** ** io.go *)
Class Stream (T : Type) := XORKeyStream : bytes -> T -> T * bytes.

Record CryptionReader (T R : Type) := mkCryption { c_stream : T; c_reader : R }.
Arguments mkCryption {T R}.
Arguments c_stream {T R}.
Arguments c_reader {T R}.

Definition Cryption_Read {T R} `{Stream T} `{Reader R} (r : CryptionReader T R) (n : nat)
    : CryptionReader T R * (bytes * option error) :=
  let '(u, (data, err)) := rd (c_reader r) n in
  if 0 <? zlen data then
    let '(s, data) := XORKeyStream data (c_stream r) in ({| c_stream := s; c_reader := u |}, (data, err))
  else ({| c_stream := c_stream r; c_reader := u |}, (data, err)).

Record CryptionWriter (T W : Type) := mkCryptionWriter { cw_stream : T; cw_writer : W }.
Arguments mkCryptionWriter {T W}.
Arguments cw_stream {T W}.
Arguments cw_writer {T W}.

(** In place: the buffers are changed even if the write fails. *)
Fixpoint xor_buffers {T} `{Stream T} (mb : MultiBuffer) (s : T) : T * res MultiBuffer :=
  match mb with
  | [] => (s, Ok [])
  | b :: mb =>
    match Bytes b with
    | Ok d =>
      let '(s, x) := XORKeyStream d s in
      let '(s, rest) := xor_buffers mb s in
      (s, rest ← rest; Ok (poke b (start b, end_ b) x :: rest))
    | Err e => (s, Err e)
    | Panic => (s, Panic)
    end
  end.

#[export] Instance cryption_writer {T W} `{Stream T} `{MbWriter W} : MbWriter (CryptionWriter T W) := fun mb w =>
  match xor_buffers mb (cw_stream w) with
  | (s, Ok mb) => let '(u, x) := write_mb mb (cw_writer w) in ({| cw_stream := s; cw_writer := u |}, x)
  | (s, Err e) => ({| cw_stream := s; cw_writer := cw_writer w |}, Err e)
  | (s, Panic) => ({| cw_stream := s; cw_writer := cw_writer w |}, Panic)
  end.
End Auth.
