(* ===== verification/AuthSpec.v ===== *)
(** * Package common/crypto: an authenticated stream arrives as it was written

    What a pair of framings promises - the reader's opens what the writer's
    sealed - is the class [FramingOk]; for it the chunks of the writer, in
    whatever pieces they arrive, give the reader the bytes that were written,
    then the end. *)
From S2P Require Import Prelude GoStd Buf MultiBuf BufReader Auth.
Import Buf MultiBuf BufReader Auth.

(** [P w r]: a writer in the state [w] and a reader in the state [r] agree. *)
Class FramingOk (S : Type) `{Framing S} (P : S -> S -> Prop) (ov sb mp off : Z) : Prop := {
  fr_range : 0 <= ov /\ 0 < sb /\ 0 <= mp /\ ov + sb + mp < 2048 /\ 0 <= off <= ov;
  fr_const w r : P w r ->
    (Overhead w = ov /\ Overhead r = ov) /\ (SizeBytes w = sb /\ SizeBytes r = sb) /\
    (padding w = padding r /\ MaxPaddingLen w = mp /\ (padding w = false -> mp = 0)) /\ offset r = off;
  fr_pad w r : P w r -> padding w = true ->
    (NextPaddingLen w).2 = (NextPaddingLen r).2 /\ 0 <= (NextPaddingLen w).2 <= mp /\
    P (NextPaddingLen w).1 (NextPaddingLen r).1;
  fr_size w r n : P w r -> ov <= n <= 2048 ->
    exists w' bs r', Encode n w = (w', Ok bs) /\ zlen bs = sb /\ Decode bs r = (r', Ok (n - off)) /\ P w' r';
  fr_chunk w r d : P w r -> zlen d + ov <= 2048 ->
    exists w' ct r', auth_Seal d w = (w', Ok ct) /\ zlen ct = zlen d + ov /\ auth_Open ct r = (r', Ok d) /\ P w' r';
  fr_random w r n : P w r -> 0 <= n <= mp -> zlen (random n w).2 = n /\ P (random n w).1 r;
}.

(** Writing one MultiBuffer after the other. *)
Section WriteAll.
Context {W : Type} `{MbWriter W}.

Fixpoint write_all (l : list MultiBuffer) : ST W unit := fun w =>
  match l with
  | [] => (w, Ok tt)
  | mb :: l => match write_mb mb w with (w, Ok _) => write_all l w | x => x end
  end.

Lemma write_all_app l1 l2 w : write_all (l1 ++ l2) w = match write_all l1 w with (w, Ok _) => write_all l2 w | x => x end.
Proof.
  revert w. induction l1 as [|mb l1 IH]; intros w; [done|]. cbn [app write_all]. destruct (write_mb mb w) as [w' [u|e|]]; [apply IH|done|done].
Qed.
End WriteAll.

Section Reading.
Context {S : Type} `{Framing S} {L : Type} `{MbSource L}.

(** ** Chunks as a reader opens them *)

(** The rest of a chunk whose size and padding are known. *)
Definition body_at (r : S) (n pad : Z) (body d : bytes) (r' : S) : Prop :=
  (0 <= pad /\ 0 <= n /\ 0 <= Overhead r /\ 0 <= offset r) /\
  n + offset r = zlen body /\ zlen body = zlen d + Overhead r + pad /\ zlen body <= 2048 /\
  exists ct padb, body = ct ++ padb /\ zlen padb = pad /\ auth_Open ct r = (r', Ok d).

Definition opens (r : S) (sizes body d : bytes) (r' : S) : Prop :=
  zlen sizes = SizeBytes r /\ 0 < SizeBytes r /\
  exists r0 pad r1 n, (if padding r then NextPaddingLen r else (r, 0)) = (r0, pad) /\
    Decode sizes r0 = (r1, Ok n) /\ body_at r1 n pad body d r'.

Inductive stream : S -> list bytes -> bytes -> S -> Prop :=
  | stream_nil r : 0 < SizeBytes r -> stream r [] [] r
  | stream_cons r d ds sizes body out r1 r2 :
      opens r sizes body d r1 -> stream r1 ds out r2 -> stream r (d :: ds) (sizes ++ body ++ out) r2.

Lemma stream_app r ds1 out1 r1 ds2 out2 r2 :
  stream r ds1 out1 r1 -> stream r1 ds2 out2 r2 -> stream r (ds1 ++ ds2) (out1 ++ out2) r2.
Proof.
  induction 1 as [r Hr|r d ds sizes body out r1 r1' Ho Hs IH]; intros Happ; [done|].
  cbn [app]. rewrite <- !app_assoc. econstructor; eauto.
Qed.

(** The bytes still arrive, and end with [e]. *)
Definition live (e : error) (br : BufferedReader L) : Prop := reader_wf br /\ source_end (source br) = e.

(** The reader stands before these chunks, perhaps behind the size of the first. *)
Definition at_chunks (e : error) (r : AuthenticationReader S L) (ds : list bytes) (rest : bytes) : Prop :=
  live e (r_reader r) /\ done_ r = false /\
  exists out last,
    (hasSize r = false /\ stream (r_auth r) ds out last /\ reader_content (r_reader r) = out ++ rest) \/
    (hasSize r = true /\ exists d ds' body r1, ds = d :: ds' /\
       body_at (r_auth r) (r_size r) (r_paddingLen r) body d r1 /\ stream r1 ds' out last /\
       reader_content (r_reader r) = body ++ out ++ rest).

Definition behind_size (e : error) (r : AuthenticationReader S L) (d : bytes) (ds : list bytes) (rest : bytes) (n pad : Z) : Prop :=
  live e (r_reader r) /\ done_ r = false /\
  exists out last body r1, body_at (r_auth r) n pad body d r1 /\ stream r1 ds out last /\
    reader_content (r_reader r) = body ++ out ++ rest.

Lemma ReadFull_content e br n d rest :
  live e br -> reader_content br = d ++ rest -> Z.of_nat n = zlen d ->
  exists br', ReadFull br n = (br', (d, None)) /\ live e br' /\ reader_content br' = rest.
Proof.
  intros [Hwf He] Hc Hn. pose proof (ReadFull_spec br n) as Hfull. specialize (Hfull Hwf). destruct Hfull as (br' & Hwf' & He' & Hc' & ->).
  assert (Hl : live e br') by (split; [done|by rewrite <- He]).
  change (rd_content br) with (reader_content br) in *. change (rd_content br') with (reader_content br') in *.
  rewrite Hc in *. assert (n = length d) as -> by (unfold zlen in Hn; lia).
  rewrite take_app_length, drop_app_length in *. exists br'. split; [|done].
  replace (_ <=? _)%nat with true; [done|]. rewrite length_app. lia.
Qed.

Lemma readSize_chunks e r d ds rest :
  at_chunks e r (d :: ds) rest ->
  exists r' n pad, readSize r = (r', Ok (n, pad)) /\ behind_size e r' d ds rest n pad /\
    hasSize r' = false.
Proof.
  intros (Hwf & Hd & out & last & [(Hh & Hs & Hc)|(Hh & d' & ds' & body & r1 & Heq & Hb & Hs & Hc)]); unfold readSize; rewrite Hh.
  - inversion Hs as [|? ? ? sizes body out' r1 ? (Hz & Hpos & r0 & pad & r2 & n & Hp & Hdec & Hb) Hs']; subst.
    rewrite <- !app_assoc in Hc.
    destruct (ReadFull_content e (r_reader r) (Z.to_nat (SizeBytes (r_auth r))) sizes _ Hwf Hc) as (br & -> & Hwf' & Hc'); [lia|].
    rewrite Hp, Hdec. cbn [mbind res_bind]. eexists _, n, pad. split; [done|]. split; [|done].
    split; [done|]. split; [done|]. by exists out', last, body, r1.
  - injection Heq as <- <-. eexists _, _, _. split; [done|]. split; [|done]. split; [done|]. split; [done|]. by exists out, last, body, r1.
Qed.

(** In-place opening leaves the plain text as the content. *)
Lemma opened_buffer body rb :
  zlen body <= 2048 -> zlen rb <= zlen body ->
  exists b, Resize (poke (push New body) (start (push New body), end_ (push New body)) rb) 0 (i32 (zlen rb)) = Ok b /\
    buf_wf b /\ content b = rb /\ zlen (v b) = 2048.
Proof.
  intros Hb Hr. pose proof (zlen_nonneg rb) as Hrb0. pose proof (zlen_nonneg body) as Hbd0.
  assert (Hpv : zlen (v (push New body)) = 2048) by (rewrite push_v_length; [done|apply New_wf|rewrite New_room; lia]).
  assert (Hend : end_ (push New body) = zlen body) by (change (0 + zlen body = zlen body); lia). rewrite Hend. change (start (push New body)) with 0.
  unfold Resize. rewrite i32_small by lia. assert (Hlt : (zlen rb <? 0) = false) by lia. rewrite Hlt.
  change (0 <? 0) with false. cbv iota. rewrite Hlt. cbn [poke start v end_ owner]. change (start (push New body)) with 0.
  set (dst := v (push New body)) in *. rewrite Z.sub_0_r.
  cbn [fst snd]. rewrite (take_ge rb) by (unfold zlen in *; lia). set (a := (copy_at _ _ _).1).
  assert (Ha : length a = length dst) by (unfold a; apply copy_at_length; unfold zlen in *; lia).
  eexists. split; [reflexivity|]. change (i32 (0 + 0)) with 0. rewrite (i32_small (0 + zlen rb)) by lia.
  unfold buf_wf, content. cbn [start end_ v]. split; [|split].
  - unfold zlen in *. lia.
  - change (Z.to_nat 0) with 0%nat. rewrite drop_0. unfold a, copy_at. cbn [fst take app]. change (Z.to_nat 0) with 0%nat.
    rewrite take_0. cbn [app]. rewrite Nat.sub_0_r. rewrite Nat.min_r by (unfold zlen in *; lia).
    rewrite take_app_le by (rewrite length_take; unfold zlen in *; lia). rewrite firstn_all. apply take_ge. unfold zlen. lia.
  - unfold zlen in *. lia.
Qed.

Lemma readBuffer_body e r d ds rest n pad :
  behind_size e r d ds rest n pad ->
  exists r' b, readBuffer (n + offset (r_auth r)) pad r = (r', Ok b) /\ content b = d /\ buf_wf b /\ zlen (v b) = 2048 /\
    hasSize r' = hasSize r /\ live e (r_reader r') /\ done_ r' = false /\
    exists out last, stream (r_auth r') ds out last /\ reader_content (r_reader r') = out ++ rest.
Proof.
  intros ([Hwf He] & Hd & out & last & body & r1 & ((Hp0 & Hn0 & Ho0 & Hf0) & Hz & Hzb & Hle & ct & padb & -> & Hpb & Hop) & Hs & Hc).
  unfold readBuffer. pose proof (zlen_nonneg d) as Hd0. pose proof (zlen_nonneg ct) as Hct0. rewrite zlen_app in *.
  assert (Hroom : 0 <= n + offset (r_auth r) <= room New) by (rewrite New_room; lia).
  pose proof (ReadFullFrom_spec New New_wf (r_reader r)) as Hrf. specialize (Hrf Hwf (n + offset (r_auth r)) Hroom).
  destruct Hrf as (br & Hwf' & He' & Hc' & Heq). rewrite Heq.
  assert (Hl : live e br) by (split; [done|by rewrite <- He]).
  change (rd_content (r_reader r)) with (reader_content (r_reader r)) in *. change (rd_content br) with (reader_content br) in *.
  rewrite Hc in *.
  assert (Hlen : Z.to_nat (n + offset (r_auth r)) = length (ct ++ padb)) by (rewrite length_app; unfold zlen in *; lia).
  rewrite Hlen in *. rewrite take_app_length. rewrite drop_app_length in Hc'.
  replace (n + offset (r_auth r) <=? zlen _) with true by (rewrite !zlen_app; pose proof (zlen_nonneg out); pose proof (zlen_nonneg rest); lia).
  assert (Hpw : buf_wf (push New (ct ++ padb))) by (apply push_wf; [apply New_wf|rewrite New_room, zlen_app; lia]).
  assert (Hpc : content (push New (ct ++ padb)) = ct ++ padb) by (rewrite push_content by apply New_wf; by rewrite New_content).
  rewrite i32_small by lia. rewrite BytesTo_wf by (done || rewrite Hpc, zlen_app; lia). rewrite Hpc.
  replace (Z.to_nat (n + offset (r_auth r) - pad)) with (length ct) by (unfold zlen in *; lia). rewrite take_app_length. cbn [r_auth set_stream]. rewrite Hop. cbn [mbind res_bind].
  destruct (opened_buffer (ct ++ padb) d) as (b & Hr & Hbw & Hbc & Hbl); [rewrite zlen_app; lia|rewrite zlen_app; lia|]. rewrite Hr.
  eexists _, b. split; [done|]. split; [done|]. split; [done|]. split; [done|]. split; [done|].
  split; [done|]. split; [done|]. by exists out, last.
Qed.

Lemma behind_at_chunks e r d ds rest n pad :
  behind_size e r d ds rest n pad -> at_chunks e (set_size r true n pad) (d :: ds) rest.
Proof.
  intros (Hwf & Hd & out & last & body & r1 & Hb & Hs & Hc). split; [done|]. split; [done|].
  exists out, last. right. split; [done|]. by exists d, ds, body, r1.
Qed.

(** One step before a chunk: not enough has arrived, or it is read, or it is the
    empty one that ends the stream. *)
Lemma readInternal_chunk e soft r d ds rest mb :
  at_chunks e r (d :: ds) rest ->
  (soft = true /\ exists r', readInternal soft mb r = (r', Err errSoft) /\ at_chunks e r' (d :: ds) rest) \/
  (d <> [] /\ exists r' b, readInternal soft mb r = (r', Ok (mb ++ [b])) /\ content b = d /\ tidy b /\ at_chunks e r' ds rest) \/
  (d = [] /\ exists r', readInternal soft mb r = (r', Err EOF) /\ done_ r' = true).
Proof.
  intros Hat. unfold readInternal. destruct (soft && _) eqn:Hsoft.
  { left. apply andb_true_iff in Hsoft as [-> _]. split; [done|]. by exists r. }
  clear Hsoft. pose proof Hat as (_ & Hd & _). rewrite Hd.
  destruct (readSize_chunks e r d ds rest Hat) as (r' & n & pad & -> & Hb & Hh).
  pose proof Hb as (Hwf & Hd' & out & last & body & r1 & ((Hp0 & Hn0 & Ho0 & Hf0) & Hz & Hzb & Hle & _) & _).
  pose proof (zlen_nonneg d) as Hd0. pose proof (zlen_nonneg body) as Hb0.
  rewrite (u16_small (n + offset (r_auth r'))) by lia. rewrite (u16_small (Overhead (r_auth r'))) by lia. rewrite u16_small by lia.
  destruct (decide (d = [])) as [->|Hne].
  { right. right. split; [done|]. rewrite zlen_nil in Hzb. replace (_ =? _) with true by lia. by exists (set_done r'). }
  assert (Hpos : 0 < zlen d) by (destruct d; [done|rewrite zlen_cons; pose proof (zlen_nonneg d); lia]).
  replace (_ =? _) with false by lia. destruct (soft && _) eqn:Hsoft.
  { left. apply andb_true_iff in Hsoft as [-> _]. split; [done|]. exists (set_size r' true n pad). split; [done|]. by apply behind_at_chunks. }
  right. left. split; [done|]. replace (n + offset (r_auth r') <=? Buf.Size) with true by (unfold Buf.Size; lia).
  destruct (readBuffer_body e r' d ds rest n pad Hb) as (r2 & b & -> & Hbc & Hbw & Hbl & Hh2 & Hwf2 & Hd2 & out2 & last2 & Hs2 & Hc2).
  exists r2, b. split; [done|]. split; [done|]. split; [split; [done|rewrite Hbc; lia]|].
  split; [done|]. split; [done|]. exists out2, last2. left. by rewrite Hh2.
Qed.

Lemma readInternal_done soft r mb : done_ r = true -> readInternal soft mb r = (r, Err errSoft) \/ readInternal soft mb r = (r, Err EOF).
Proof. intros Hd. unfold readInternal. rewrite Hd. destruct (_ && _); auto. Qed.

(** Where all chunks have been read and the bytes end. *)
Lemma readInternal_cut e soft r mb :
  at_chunks e r [] [] -> exists r', readInternal soft mb r = (r', Err (if soft then errSoft else e)) /\ at_chunks e r' [] [].
Proof.
  intros Hat. pose proof Hat as ([Hwf He] & Hd & out & last & [(Hh & Hs & Hc)|(_ & ? & ? & ? & ? & ? & _)]); [|done].
  inversion Hs as [? Hsb|]; subst. cbn [app] in Hc.
  assert (Hb : BufReader.Buffer (r_reader r) = []).
  { destruct Hwf as [[Ht _] _]. apply tidy_content; [done|]. unfold reader_content in Hc. by apply app_eq_nil in Hc as [? _]. }
  unfold readInternal. destruct soft; cbn [andb].
  { exists r. split; [|done]. unfold BufferedBytes. rewrite Hb. change (MultiBuf.Len []) with 0. replace (0 <? _) with true by lia. done. }
  rewrite Hd. unfold readSize. rewrite Hh. pose proof (ReadFull_spec (r_reader r) (Z.to_nat (SizeBytes (r_auth r)))) as Hfull.
  specialize (Hfull Hwf). destruct Hfull as (br & Hwf' & He' & Hc' & ->).
  change (rd_content (r_reader r)) with (reader_content (r_reader r)) in *. rewrite Hc in *.
  replace (_ <=? _)%nat with false by (cbn [length]; lia). unfold short_error. rewrite decide_False by tauto.
  eexists. split; [done|]. split; [split; [done|exact He']|]. split; [done|]. exists [], (r_auth r). left. split; [done|]. split; [done|].
  change (rd_content br) with (reader_content br) in Hc'. cbn [r_reader set_stream app]. by rewrite Hc', drop_nil.
Qed.

(** A stream ends with the empty chunk, whatever follows it, or with the bytes. *)
Inductive ending := Finished (rest : bytes) | Cut (e : error).

Definition end_error (tl : ending) : error := match tl with Finished _ => EOF | Cut e => e end.

(** The rest of a stream: chunks that are not empty, then the end. *)
Definition before (r : AuthenticationReader S L) (ds : list bytes) (tl : ending) : Prop :=
  Forall (fun d => d <> []) ds /\
  match tl with Finished rest => exists e, at_chunks e r (ds ++ [[]]) rest | Cut e => at_chunks e r ds [] end.

Definition after (r : AuthenticationReader S L) (ds : list bytes) (tl : ending) : Prop :=
  before r ds tl \/ (done_ r = true /\ ds = [] /\ end_error tl = EOF).

(** One step before such a stream: nothing more yet, a chunk, or the end. *)
Lemma readInternal_before soft r ds tl mb :
  before r ds tl ->
  (exists r', readInternal soft mb r = (r', Err errSoft) /\ soft = true /\ after r' ds tl) \/
  (exists r' b d ds', ds = d :: ds' /\ readInternal soft mb r = (r', Ok (mb ++ [b])) /\ content b = d /\ tidy b /\ before r' ds' tl) \/
  (ds = [] /\ exists r', readInternal soft mb r = (r', Err (end_error tl)) /\ after r' [] tl /\ (soft = true -> end_error tl = EOF)).
Proof.
  intros [Hne Hat]. destruct tl as [rest|e]; [destruct Hat as [e Hat]|]; destruct ds as [|d ds]; cbn [app] in Hat;
    try apply Forall_cons in Hne as [Hd Hne].
  - destruct (readInternal_chunk e soft r [] [] rest mb Hat) as [(-> & r' & Heq & Hat')|[[? _]|(_ & r' & Heq & Hdn)]]; [|done|].
    + left. exists r'. split; [done|]. split; [done|]. left. split; [constructor|]. by exists e.
    + right. right. split; [done|]. exists r'. split; [done|]. split; [by right|done].
  - destruct (readInternal_chunk e soft r d _ rest mb Hat) as [(-> & r' & Heq & Hat')|[(_ & r' & b & Heq & Hbc & Hbt & Hat')|[? _]]]; [| |done].
    + left. exists r'. split; [done|]. split; [done|]. left. split; [by constructor|]. by exists e.
    + right. left. exists r', b, d, ds. split; [done|]. split; [done|]. split; [done|]. split; [done|]. split; [done|]. by exists e.
  - destruct (readInternal_cut e soft r mb Hat) as (r' & Heq & Hat'). destruct soft.
    + left. exists r'. split; [done|]. split; [done|]. by left.
    + right. right. split; [done|]. exists r'. split; [done|]. split; [by left|done].
  - destruct (readInternal_chunk e soft r d _ [] mb Hat) as [(-> & r' & Heq & Hat')|[(_ & r' & b & Heq & Hbc & Hbt & Hat')|[? _]]]; [| |done].
    + left. exists r'. split; [done|]. split; [done|]. left. by split; [constructor|].
    + right. left. exists r', b, d, ds. split; [done|]. split; [done|]. split; [done|]. split; [done|]. by split.
Qed.

Lemma tidy_at_most mb : Forall tidy mb -> zlen (mb_content mb) <= 2048 * Z.of_nat (length mb).
Proof.
  induction 1 as [|b mb [_ Hb] _ IH]; [done|]. rewrite mb_content_cons, zlen_app. cbn [length]. lia.
Qed.

Lemma readMore_before n r ds tl mb :
  before r ds tl -> Forall tidy mb ->
  exists k r' mb', (k <= length ds)%nat /\ readMore n mb r = (r', Ok (mb ++ mb')) /\
    (Forall tidy (mb ++ mb') /\ (length mb' <= n)%nat) /\ mb_content mb' = concat (take k ds) /\ after r' (drop k ds) tl.
Proof.
  assert (Hstop : forall r' ds mb m, Forall tidy mb -> after r' ds tl ->
    exists k r2 mb', (k <= length ds)%nat /\ (r', Ok mb) = (r2, Ok (mb ++ mb')) /\
      (Forall tidy (mb ++ mb') /\ (length mb' <= m)%nat) /\ mb_content mb' = concat (take k ds) /\ after r2 (drop k ds) tl).
  { intros r' ds' mb' m Ht Ha. exists 0%nat, r', []. rewrite app_nil_r. split; [lia|]. split; [done|].
    split; [by split; [|cbn; lia]|]. by split. }
  revert r ds mb. induction n as [|n IH]; intros r ds mb Hb Hmb; cbn [readMore]; [apply Hstop; [done|by left]|].
  destruct (readInternal_before true r ds tl mb Hb) as [(r' & -> & _ & Ha)|[(r' & b & d & ds' & -> & -> & Hbc & Hbt & Hb')|(-> & r' & -> & Ha & He)]].
  - rewrite decide_True by auto. by apply Hstop.
  - destruct (IH r' ds' (mb ++ [b]) Hb') as (k & r2 & mb' & Hk & Heq2 & [Ht Hl] & Hc & Ha); [apply Forall_app; split; [done|by constructor]|].
    exists (Datatypes.S k), r2, (b :: mb'). rewrite Heq2, <- !app_assoc. rewrite <- app_assoc in Ht.
    split; [cbn; lia|]. split; [done|]. split; [by split; [|cbn; lia]|]. split; [|done]. by rewrite mb_content_cons, Hbc, Hc.
  - rewrite He, decide_True by auto. by apply Hstop.
Qed.

Lemma ReadMultiBuffer_before r d ds tl :
  before r (d :: ds) tl ->
  exists k r' mb, (1 <= k <= Datatypes.S (length ds))%nat /\ ReadMultiBuffer r = (r', Ok mb) /\ tidy_mb mb /\ mb <> [] /\
    mb_content mb = concat (take k (d :: ds)) /\ after r' (drop k (d :: ds)) tl.
Proof.
  intros Hb. unfold ReadMultiBuffer, mbind, st_bind.
  destruct (readInternal_before false r _ tl [] Hb) as [(r' & _ & ? & _)|[(r' & b & d' & ds' & [= <- <-] & -> & Hbc & Hbt & Hb')|(? & _)]]; [done| |done].
  destruct (readMore_before 15 r' ds tl [b] Hb') as (k & r2 & mb' & Hk & Heq & [Ht Hl] & Hc & Ha); [by constructor|].
  exists (Datatypes.S k), r2, ([b] ++ mb'). cbn [app] in *. rewrite Heq. split; [lia|]. split; [done|].
  split; [split; [done|apply tidy_at_most in Ht; cbn in *; lia]|]. split; [done|]. split; [|done]. by rewrite mb_content_cons, Hbc, Hc.
Qed.

Lemma ReadMultiBuffer_end r tl :
  after r [] tl -> exists r', ReadMultiBuffer r = (r', Err (end_error tl)) /\ after r' [] tl.
Proof.
  intros [Hb|(Hd & _ & He)]; unfold ReadMultiBuffer, mbind, st_bind.
  - destruct (readInternal_before false r _ tl [] Hb) as [(r' & _ & ? & _)|[(r' & b & d' & ds' & ? & _)|(_ & r' & -> & Ha & _)]]; [done|done|].
    by exists r'.
  - exists r. unfold readInternal. rewrite Hd. cbn [andb]. rewrite He. split; [done|]. by right.
Qed.

(** ** Reading until the error *)
Fixpoint read_until (n : nat) (r : AuthenticationReader S L) : option (bytes * error) :=
  match n with
  | O => None
  | Datatypes.S n =>
    match ReadMultiBuffer r with
    | (r, Ok mb) => '(d, e) ← read_until n r; Some (mb_content mb ++ d, e)
    | (_, Err e) => Some ([], e)
    | (_, Panic) => None
    end
  end.

Lemma read_until_after n r ds tl :
  after r ds tl -> (length ds < n)%nat -> read_until n r = Some (concat ds, end_error tl).
Proof.
  revert r ds. induction n as [|n IH]; intros r ds Ha Hn; [lia|]. cbn [read_until].
  destruct ds as [|d ds]; [by destruct (ReadMultiBuffer_end r tl Ha) as (r' & -> & _)|].
  destruct Ha as [Hb|(_ & ? & _)]; [|done].
  destruct (ReadMultiBuffer_before r d ds tl Hb) as (k & r' & mb & Hk & -> & _ & _ & Hc & Ha).
  rewrite (IH r' (drop k (d :: ds)) Ha) by (rewrite length_drop; cbn in *; lia). cbn [mbind option_bind].
  by rewrite Hc, <- concat_app, take_drop.
Qed.

(** ** The reader as a source of MultiBuffers *)
Lemma stream_length r ds out last : stream r ds out last -> (length ds <= length out)%nat.
Proof.
  induction 1 as [r Hr|r d ds sizes body out r1 r2 (Hs & Hpos & _) _ IH]; [done|].
  rewrite !length_app. unfold zlen in *. cbn [length]. lia.
Qed.

Lemma after_length r ds tl : after r ds tl -> (length ds <= length (reader_content (r_reader r)))%nat.
Proof.
  intros [[Hne Hat]|(_ & -> & _)]; [|cbn; lia].
  assert (Hgo : exists e ds2 rest, at_chunks e r (ds ++ ds2) rest).
  { destruct tl as [rest|e]; [destruct Hat as [e Hat]; by exists e, [[]], rest|]. exists e, [], []. by rewrite app_nil_r. }
  clear Hat. destruct Hgo as (e & ds2 & rest & Hwf & _ & out & last & Hat).
  destruct Hat as [(_ & Hs & ->)|(_ & d & ds' & body & r1 & Heq & Hb & Hs & ->)].
  - apply stream_length in Hs. rewrite length_app in *. lia.
  - apply stream_length in Hs. pose proof (f_equal length Heq) as Hl. rewrite length_app in Hl. cbn in Hl.
    destruct ds as [|d0 ds]; [cbn; lia|]. injection Heq as <- _. apply Forall_cons in Hne as [Hd _].
    destruct Hb as ((? & ? & ? & ?) & ? & Hbl & _). rewrite !length_app.
    destruct d0 as [|x d0]; [done|]. rewrite zlen_cons in Hbl. pose proof (zlen_nonneg d0). unfold zlen in Hbl at 1. cbn in *. lia.
Qed.

(** What it will still deliver, and the error then. *)
Definition auth_rest (r : AuthenticationReader S L) : bytes * error :=
  default ([], EOF) (read_until (Datatypes.S (length (reader_content (r_reader r)))) r).

Lemma auth_rest_after r ds tl : after r ds tl -> auth_rest r = (concat ds, end_error tl).
Proof.
  intros Ha. unfold auth_rest. rewrite (read_until_after _ r ds tl Ha); [done|].
  pose proof (after_length r ds tl Ha). lia.
Qed.

#[export] Instance auth_source : MbSource (AuthenticationReader S L).
Proof.
  refine {| source_wf r := exists ds tl, after r ds tl; source_content r := (auth_rest r).1; source_end r := (auth_rest r).2 |}.
  intros r (ds & tl & Ha). rewrite (auth_rest_after r ds tl Ha). unfold read_mb, auth_reader.
  destruct ds as [|d ds].
  - destruct (ReadMultiBuffer_end r tl Ha) as (r' & -> & Ha'). exists r'. split; [by exists [], tl|].
    rewrite (auth_rest_after r' [] tl Ha'). split; [done|]. by right.
  - destruct Ha as [Hb|(_ & ? & _)]; [|done].
    destruct (ReadMultiBuffer_before r d ds tl Hb) as (k & r' & mb & Hk & -> & Ht & Hne & Hc & Ha).
    exists r'. split; [by exists (drop k (d :: ds)), tl|]. rewrite (auth_rest_after r' _ tl Ha). split; [done|]. left. exists mb. split; [done|].
    split; [done|]. split; [done|]. cbn [fst]. by rewrite Hc, <- concat_app, take_drop.
Defined.
End Reading.

(** ** The writer *)
Section Writing.
Context {S : Type} `{Framing S} {P : S -> S -> Prop} {ov sb mp off : Z} `{FO : !FramingOk S P ov sb mp off}.

Lemma agree_live w r : P w r -> 0 < SizeBytes r.
Proof. intros HP. destruct fr_range as (_ & ? & _), (fr_const w r HP) as (_ & (_ & ->) & _). done. Qed.

Lemma extend_with b d n :
  buf_wf b -> zlen d = n -> n <= room b ->
  exists b' w, Extend b n = Ok (b', w) /\ poke b' w d = push b d.
Proof. intros Hb Hd Hr. destruct (Extend_poke b d n Hb) as (ext & He & Hp & _); [done|lia|]. by eexists _, _. Qed.

Lemma seal_spec d w r :
  P w r -> zlen d + ov + sb + mp <= 2048 ->
  exists w' eb r' sizes body, seal d w = (w', Ok eb) /\ tidy eb /\ P w' r' /\
    content eb = sizes ++ body /\ opens r sizes body d r'.
Proof.
  intros HP Hle. destruct fr_range as (Hov & Hsb & Hmp & Hsum & Hoff). pose proof (zlen_nonneg d) as Hd0.
  destruct (fr_const w r HP) as ((Hw1 & Hr1) & (Hw2 & Hr2) & (Hw3 & Hw4 & _) & Hr3).
  assert (Hpad : exists w1 r1 p, (if padding w then NextPaddingLen w else (w, 0)) = (w1, p) /\
    (if padding r then NextPaddingLen r else (r, 0)) = (r1, p) /\ P w1 r1 /\ 0 <= p <= mp).
  { rewrite <- Hw3. destruct (padding w) eqn:Hp; [|exists w, r, 0; split; [done|]; split; [done|]; split; [done|lia]].
    destruct (fr_pad w r HP Hp) as (He & Hb & HP'). exists (NextPaddingLen w).1, (NextPaddingLen r).1, (NextPaddingLen w).2.
    split; [by destruct (NextPaddingLen w)|]. split; [rewrite He; by destruct (NextPaddingLen r)|done]. }
  destruct Hpad as (w1 & r1 & p & Hpw & Hpr & HP1 & Hp).
  destruct (fr_const w1 r1 HP1) as (_ & (Hw5 & _) & _ & _).
  destruct (fr_size w1 r1 (zlen d + ov + p) HP1) as (w2 & sizes & r2 & Henc & Hzs & Hdec & HP2); [lia|].
  destruct (fr_const w2 r2 HP2) as ((_ & Ho2) & _ & _ & Hf2).
  destruct (fr_chunk w2 r2 d HP2) as (w3 & ct & r3 & Hseal & Hzc & Hopen & HP3); [lia|].
  unfold seal. rewrite Hw1, Hpw, Hw5. rewrite (i32_small (zlen d + ov)) by lia. rewrite i32_small by lia.
  replace (Buf.Size <? _) with false by (unfold Buf.Size; lia). rewrite u16_small by lia.
  destruct (extend_with New sizes sb New_wf) as (b1 & x1 & -> & Hpk1); [done|rewrite New_room; lia|].
  rewrite Henc, Hpk1. set (e1 := push New sizes).
  assert (He1 : buf_wf e1 /\ content e1 = sizes /\ room e1 = 2048 - sb).
  { unfold e1. rewrite push_content, New_content by apply New_wf. rewrite push_room by (apply New_wf || rewrite New_room; lia). rewrite New_room.
    split; [apply push_wf; [apply New_wf|rewrite New_room; lia]|]. split; [done|lia]. }
  destruct He1 as (He1 & Hc1 & Hm1).
  destruct (extend_with e1 ct (zlen d + ov) He1) as (b2 & x2 & -> & Hpk2); [done|lia|]. rewrite Hseal, Hpk2. set (e2 := push e1 ct).
  assert (He2 : buf_wf e2 /\ content e2 = sizes ++ ct /\ room e2 = 2048 - sb - zlen ct).
  { unfold e2. rewrite push_content, Hc1 by done. rewrite push_room by (done || lia). split; [apply push_wf; [done|lia]|]. split; [done|lia]. }
  destruct He2 as (He2 & Hc2 & Hm2). pose proof (zlen_nonneg ct) as Hct0.
  assert (Hop : forall padb, zlen padb = p -> opens r sizes (ct ++ padb) d r3).
  { intros padb Hzp. split; [lia|]. split; [lia|]. exists r1, p, r2, (zlen d + ov + p - off). split; [done|]. split; [done|].
    split; [lia|]. rewrite zlen_app. split; [lia|]. split; [lia|]. split; [lia|]. by exists ct, padb. }
  destruct (0 <? p) eqn:Hp0.
  - destruct (fr_random w3 r3 p HP3) as [Hzr HP4]; [lia|]. destruct (random p w3) as [w4 padb] eqn:Hrand. cbn [fst snd] in *.
    destruct (extend_with e2 padb p He2) as (b3 & x3 & -> & Hpk3); [done|lia|]. cbv iota beta. rewrite Hpk3.
    exists w4, (push e2 padb), r3, sizes, (ct ++ padb). split; [done|].
    assert (Hc3 : content (push e2 padb) = sizes ++ ct ++ padb) by (rewrite push_content by done; by rewrite Hc2, <- app_assoc).
    split; [split; [apply push_wf; [done|lia]|rewrite Hc3, !zlen_app; lia]|]. split; [done|]. split; [done|]. by apply Hop.
  - exists w3, e2, r3, sizes, ct. split; [done|]. split; [split; [done|rewrite Hc2, zlen_app; lia]|]. split; [done|]. split; [done|].
    rewrite <- (app_nil_r ct). apply Hop. rewrite zlen_nil. lia.
Qed.

(** The buffers of a run of the writer are the chunks of a stream. *)
Lemma seal_stream_spec fuel n mb acc w r :
  P w r -> Forall tidy mb -> mb_content mb <> [] -> (0 < n)%nat -> Z.of_nat n + ov + sb + mp <= 2048 ->
  (length (mb_content mb) <= fuel)%nat ->
  exists w' r' eb ds out, seal_stream fuel n mb acc w = Some (w', Ok (acc ++ eb)) /\ (Forall tidy eb /\ eb <> []) /\ P w' r' /\
    Forall (fun d => d <> []) ds /\ concat ds = mb_content mb /\ stream r ds out r' /\ mb_content eb = out /\ length eb = length ds.
Proof.
  revert mb acc w r. induction fuel as [|fuel IH]; intros mb acc w r HP Ht Hne Hn Hle Hf.
  { destruct (mb_content mb); [done|cbn in Hf; lia]. }
  cbn [seal_stream]. destruct (SplitBytes_spec mb n (tidy_wf mb Ht)) as (mb' & Hsp & Hwf & Hc). rewrite Hsp.
  pose proof (SplitBytes_tidy mb n _ _ Ht Hsp) as Ht'. set (d := take n (mb_content mb)) in *.
  assert (Hd : d <> []) by (unfold d; destruct (mb_content mb); [done|by destruct n; [lia|]]).
  destruct (seal_spec d w r HP) as (w1 & eb & r1 & sizes & body & -> & Hte & HP1 & Hce & Hop).
  { assert (zlen d <= Z.of_nat n) by (unfold d, zlen; rewrite length_take; lia). lia. }
  assert (Hs1 : stream r [d] (sizes ++ body ++ []) r1) by (econstructor; [done|constructor; by eapply agree_live]).
  rewrite (tidy_IsEmpty mb' Ht'). case_bool_decide as Hemp.
  - exists w1, r1, [eb], [d], (sizes ++ body ++ []). split; [done|]. split; [split; [by constructor|done]|]. split; [done|]. split; [by constructor|].
    split; [|split; [done|split; [by rewrite mb_content_one, Hce, app_nil_r|done]]].
    cbn [concat]. rewrite app_nil_r. subst mb'. change (mb_content []) with (@nil byte) in Hc. unfold d.
    rewrite <- (take_drop n (mb_content mb)) at 2. by rewrite <- Hc, app_nil_r.
  - destruct (IH mb' (acc ++ [eb]) w1 r1 HP1 Ht') as (w2 & r2 & ebs & ds & out & Heq & [Hts _] & HP2 & Hnes & Hcs & Hss & Hos & Hlen); [|done|done| |].
    { intros E. by apply tidy_content in E. }
    { rewrite Hc, length_drop. destruct (mb_content mb); [done|]. cbn in *. lia. }
    exists w2, r2, (eb :: ebs), (d :: ds), ((sizes ++ body ++ []) ++ out). rewrite Heq, <- app_assoc. split; [done|].
    split; [split; [by constructor|done]|]. split; [done|]. split; [by constructor|]. split; [|split; [|split]].
    + cbn [concat]. rewrite Hcs, Hc. apply take_drop.
    + apply (stream_app _ [d] _ r1); done.
    + by rewrite mb_content_cons, Hce, Hos, app_nil_r.
    + cbn [length]. by rewrite Hlen.
Qed.

(** What travels: at most half a megabyte at once, in buffers that are not empty. *)
Definition sendable (mb : MultiBuffer) : Prop := Forall tidy mb /\ mb <> [] /\ zlen (mb_content mb) <= 2 ^ 19.

Lemma chunks_length (ds : list bytes) : Forall (fun d => d <> []) ds -> (length ds <= length (concat ds))%nat.
Proof.
  induction 1 as [|d ds Hd _ IH]; [done|]. cbn [concat]. rewrite length_app. destruct d; [done|]. cbn in *. lia.
Qed.

Context {W : Type} `{MbSink W} {L : Type} `{MbSource L}.

Lemma write_stream_spec (w : AuthenticationWriter S W) mb r b :
  P (w_auth w) r -> w_transferType w = TransferTypeStream -> taken (w_writer w) b -> sendable mb ->
  exists w' r' ds o, write_mb mb w = (w', Ok tt) /\ P (w_auth w') r' /\ w_transferType w' = TransferTypeStream /\
    taken (w_writer w') (b ++ o) /\ Forall (fun d => d <> []) ds /\ concat ds = mb_content mb /\ stream r ds o r'.
Proof.
  intros HP Htt Hw (Ht & Hne & Hz). unfold write_mb at 1, auth_writer at 1. rewrite (tidy_IsEmpty mb Ht), bool_decide_false by done.
  rewrite decide_True by done. unfold writeStream. destruct fr_range as (Hov & Hsb & Hmp & Hsum & Hoff).
  destruct (fr_const (w_auth w) r HP) as ((Hw1 & _) & (Hw2 & _) & (_ & Hw4 & Hw5) & _). rewrite Hw1, Hw2, Hw4.
  assert (Hmax : (if padding (w_auth w) then mp else 0) = mp) by (destruct (padding (w_auth w)); [done|symmetry; auto]). rewrite Hmax.
  pose proof (tidy_length mb Ht). unfold tooLarge. replace (_ <? _) with false by lia. set (n := Buf.Size - ov - sb - mp) in *. unfold Buf.Size in n.
  destruct (extend_with New (replicate (Z.to_nat n) x00) n New_wf) as (b' & x & -> & _);
    [unfold zlen; rewrite length_replicate; lia|rewrite New_room; lia|].
  assert (Hc : mb_content mb <> []) by (intros E; by apply tidy_content in E).
  destruct (seal_stream_spec (Datatypes.S (length (mb_content mb))) (Z.to_nat n) mb [] (w_auth w) r HP Ht Hc)
    as (w1 & r1 & eb & ds & o & -> & [Hte Hneb] & HP1 & Hds & Hcd & Hs & Ho & Hlen); [lia|lia|lia|].
  unfold write_sealed. cbn [app].
  assert (Hteb : tidy_mb eb).
  { split; [done|]. pose proof (tidy_at_most eb Hte). apply chunks_length in Hds. rewrite Hcd in Hds. unfold zlen in Hz. lia. }
  destruct (taken_write (w_writer w) b eb Hw Hteb Hneb) as (u & -> & Hu). rewrite Ho in Hu.
  by eexists _, r1, ds, o.
Qed.

Lemma write_end_spec (w : AuthenticationWriter S W) r b :
  P (w_auth w) r -> taken (w_writer w) b ->
  exists w' r' o, write_mb [] w = (w', Ok tt) /\ stream r [[]] o r' /\ taken (w_writer w') (b ++ o).
Proof.
  intros HP Hw. destruct fr_range as (Hov & Hsb & Hmp & Hsum & Hoff). unfold write_mb at 1, auth_writer at 1. cbn [MultiBuf.IsEmpty forallb].
  destruct (seal_spec [] (w_auth w) r HP) as (w1 & eb & r1 & sizes & body & -> & Hte & HP1 & Hc & Hop); [rewrite zlen_nil; lia|].
  unfold write_sealed. destruct (taken_write (w_writer w) b [eb] Hw) as (u & -> & Hu); [|done|].
  { split; [by constructor|]. rewrite mb_content_one. destruct Hte. lia. }
  eexists _, r1, (sizes ++ body ++ []). split; [done|].
  split; [econstructor; [done|constructor; by eapply agree_live]|]. cbn [w_writer]. by rewrite app_nil_r, <- Hc, <- mb_content_one.
Qed.

Lemma write_all_spec l (w : AuthenticationWriter S W) r b :
  P (w_auth w) r -> w_transferType w = TransferTypeStream -> taken (w_writer w) b -> Forall sendable l ->
  exists w' r' ds o, write_all l w = (w', Ok tt) /\ P (w_auth w') r' /\ w_transferType w' = TransferTypeStream /\
    taken (w_writer w') (b ++ o) /\ Forall (fun d => d <> []) ds /\ concat ds = concat (map mb_content l) /\ stream r ds o r'.
Proof.
  intros HP Htt Hw Hl. revert w r b HP Htt Hw. induction Hl as [|mb l Hmb Hl IH]; intros w r b HP Htt Hw; cbn [write_all].
  - exists w, r, [], []. rewrite app_nil_r. split; [done|]. split; [done|]. split; [done|]. split; [done|]. split; [constructor|].
    split; [done|]. constructor. by eapply agree_live.
  - destruct (write_stream_spec w mb r b HP Htt Hw Hmb) as (w1 & r1 & ds1 & o1 & -> & HP1 & Htt1 & Hw1 & Hd1 & Hc1 & Hs1).
    destruct (IH w1 r1 _ HP1 Htt1 Hw1) as (w2 & r2 & ds2 & o2 & -> & HP2 & Htt2 & Hw2 & Hd2 & Hc2 & Hs2).
    exists w2, r2, (ds1 ++ ds2), (o1 ++ o2). rewrite app_assoc, concat_app, Hc1, Hc2. split; [done|]. split; [done|]. split; [done|].
    split; [done|]. split; [by apply Forall_app|]. split; [done|]. by eapply stream_app.
Qed.

(** A reader that stands before the bytes of a stream. *)
Lemma new_reader_after (br : BufferedReader L) r ds o r' tl :
  reader_wf br -> Forall (fun d => d <> []) ds ->
  match tl with
  | Finished rest => stream r (ds ++ [[]]) o r' /\ reader_content br = o ++ rest
  | Cut e => stream r ds o r' /\ reader_content br = o /\ source_end (source br) = e
  end -> after (NewAuthenticationReader r br) ds tl.
Proof.
  intros Hwf Hd Hs. left. split; [done|]. destruct tl as [rest|e].
  - destruct Hs as [Hs Hc]. exists (source_end (source br)). split; [done|]. split; [done|]. exists o, r'. by left.
  - destruct Hs as (Hs & Hc & He). split; [done|]. split; [done|]. exists o, r'. left. by rewrite app_nil_r.
Qed.

(** C5. An authenticated stream arrives as it was written.  Writer and reader are of any
    framing that satisfies [FramingOk] - what one end seals, sizes and pads, the other
    opens, sizes and skips, and a chunk fits a buffer -, in states that agree.  Over a
    connection that takes what is written, the writer seals MultiBuffers that are not
    empty, of buffers of 1 to 2048 bytes and of at most 512 KB each; it may end with an
    empty one, or the connection may just be closed behind it.  The reader, however the
    bytes on the way were cut and, behind an empty MultiBuffer, whatever follows them,
    delivers exactly what was written, in order, and then the end of the stream: EOF, or
    the error of the connection that was closed. *)
Theorem authenticated_stream_delivers w r (l : list MultiBuffer) (u : W) (HP : P w r) (Hl : Forall sendable l) (Hu : taken u []) :
  exists w' sent, write_all l (NewAuthenticationWriter w u TransferTypeStream) = (w', Ok tt) /\ taken (w_writer w') sent /\
  exists w2 more, write_mb [] w' = (w2, Ok tt) /\ taken (w_writer w2) (sent ++ more) /\
    forall (br : BufferedReader L) n, reader_wf br -> (length (concat (map mb_content l)) < n)%nat ->
      (reader_content br = sent ->
       read_until n (NewAuthenticationReader r br) = Some (concat (map mb_content l), source_end (source br))) /\
      (forall rest, reader_content br = sent ++ more ++ rest ->
       read_until n (NewAuthenticationReader r br) = Some (concat (map mb_content l), EOF)).
Proof.
  destruct (write_all_spec l (NewAuthenticationWriter w u TransferTypeStream) r [] HP eq_refl Hu Hl)
    as (w' & r' & ds & o & Hw & HP' & _ & Hw' & Hd & Hc & Hs). exists w', o. split; [done|]. split; [done|].
  destruct (write_end_spec w' r' o HP' Hw') as (w2 & r2 & o2 & Hw2 & Hs2 & Hu2). exists w2, o2. split; [done|]. split; [done|].
  intros br n Hwf Hn. rewrite <- Hc in *. pose proof (chunks_length ds Hd). split; [intros Hbr|intros d Hbr].
  - apply (read_until_after n _ ds (Cut (source_end (source br)))); [|lia]. by apply (new_reader_after _ _ _ o r').
  - apply (read_until_after n _ ds (Finished d)); [|lia]. apply (new_reader_after _ _ _ (o ++ o2) r2); [done|done|].
    rewrite <- app_assoc. split; [by eapply stream_app|done].
Qed.
End Writing.

(** ** The authenticator that also seals the sizes *)
Class AeadOk (C : Type) `{AeadCipher C} (ov : Z) : Prop := {
  aead_range : 0 <= ov <= 512;
  aead_overhead c : aead_Overhead c = ov;
  aead_seal_open c nonce d ad : zlen nonce = NonceSize c ->
    exists ct, aead_Seal c nonce d ad = Ok ct /\ zlen ct = zlen d + ov /\ aead_Open c nonce ct ad = Ok d;
}.

Section Shared.
Context {C : Type} `{AeadCipher C} {ov : Z} `{AO : !AeadOk C ov}.

(** Both ends count the same nonces. *)
Definition in_step (w r : AEADAuthenticator C) : Prop :=
  w = r /\ AdditionalDataGenerator w = None /\
  exists c, NonceGenerator w = IncreasingNonce c /\ zlen c = NonceSize (AEAD w).

Lemma increase_length c : length (increase c) = length c.
Proof. induction c as [|x c IH]; [done|]. cbn [increase]. destruct (_ =? 0); cbn; congruence. Qed.

Lemma in_step_seal w r d :
  in_step w r -> exists w' ct r', Seal d w = (w', Ok ct) /\ zlen ct = zlen d + ov /\ Open ct r = (r', Ok d) /\ in_step w' r'.
Proof.
  intros (<- & Ha & c & Hc & Hz). unfold Seal, Open, next_inputs. rewrite Hc. cbn [next_bytes AEAD AdditionalDataGenerator NonceGenerator].
  assert (Hi : zlen (increase c) = NonceSize (AEAD w)) by (unfold zlen in *; by rewrite increase_length).
  rewrite decide_False by (intros Hn; by apply Hn). rewrite Ha. cbn [AEAD].
  destruct (aead_seal_open (AEAD w) (increase c) d [] Hi) as (ct & -> & Hzc & Ho). cbn [AEAD].
  eexists _, ct, _. split; [done|]. split; [done|]. rewrite Ho. split; [done|]. split; [done|]. split; [done|]. by exists (increase c).
Qed.

#[export] Instance shared_ok : FramingOk (AEADAuthenticator C) in_step ov (2 + ov) 0 0.
Proof.
  destruct aead_range as [H0 H1]. split.
  - lia.
  - intros w r (<- & _). cbn. unfold AEAD_SizeBytes. rewrite aead_overhead, i32_small by lia. repeat split.
  - done.
  - intros w r n Hs Hn. destruct (in_step_seal w r (put_be 2 (u16 (n - u16 ov))) Hs) as (w' & ct & r' & Hse & Hz & Ho & Hs').
    cbn [Encode Decode shared_framing]. unfold AEAD_Encode, AEAD_Decode. rewrite (aead_overhead (AEAD w)), Hse.
    exists w', ct, r'. split; [done|]. split; [rewrite Hz, zlen_put_be; lia|]. split; [|done]. rewrite Ho.
    rewrite (aead_overhead (AEAD r')). rewrite (u16_small ov), (u16_small (n - ov)) by lia.
    rewrite <- (app_nil_r (put_be 2 _)), Uint16_app by done. cbn [mbind res_bind].
    rewrite get_be_put_be_small by (change (256 ^ Z.of_nat 2) with (2 ^ 16); lia). rewrite u16_small by lia. do 2 f_equal. lia.
  - intros w r d Hs _. by apply in_step_seal.
  - intros w r n Hs Hn. replace n with 0 by lia. done.
Qed.
End Shared.

(** ** Nonces *)

(** The little-endian number of a nonce. *)
Fixpoint little (c : bytes) : Z := match c with [] => 0 | x :: c => b2z x + 256 * little c end.

Lemma little_bound c : 0 <= little c < 256 ^ zlen c.
Proof.
  induction c as [|x c IH]; [done|]. cbn [little]. rewrite zlen_cons, Z.pow_add_r by (pose proof (zlen_nonneg c); lia).
  pose proof (b2z_range x). lia.
Qed.

Lemma little_increase c : little (increase c) = (little c + 1) mod 256 ^ zlen c.
Proof.
  induction c as [|x c IH]; [done|]. cbn [increase little].
  assert (Hp : 256 ^ zlen (x :: c) = 256 * 256 ^ zlen c) by (rewrite zlen_cons, Z.pow_add_r by (pose proof (zlen_nonneg c); lia); lia).
  rewrite Hp. pose proof (b2z_range x) as Hx. pose proof (little_bound c) as Hc. destruct (decide (b2z x = 255)) as [H255|Hn].
  - assert (Hz : b2z (z2b (b2z x + 1)) = 0) by (rewrite H255; done). rewrite Hz. cbn [Z.eqb little]. rewrite Hz, IH, H255.
    replace (255 + 256 * little c + 1) with (256 * (little c + 1)) by lia. rewrite Zmult_mod_distr_l. lia.
  - assert (Hz : b2z (z2b (b2z x + 1)) = b2z x + 1) by (apply z2b_small; lia).
    rewrite Hz. replace (b2z x + 1 =? 0) with false by lia. cbn [little]. rewrite Hz, Z.mod_small; lia.
Qed.

Definition generated (k : nat) (g : BytesGenerator) : res bytes := (next_bytes (Nat.iter k (fun g => (next_bytes g).1) g)).2.

Lemma generated_increasing k c :
  exists c', generated k (GenerateIncreasingNonce c) = Ok c' /\ zlen c' = zlen c /\
    little c' = (little c + Z.of_nat k + 1) mod 256 ^ zlen c.
Proof.
  assert (Hk : exists c', Nat.iter k (fun g => (next_bytes g).1) (GenerateIncreasingNonce c) = IncreasingNonce c' /\ zlen c' = zlen c /\
    little c' = (little c + Z.of_nat k) mod 256 ^ zlen c).
  { induction k as [|k (c' & Hc & Hz & Hl)].
    - exists c. split; [done|]. split; [done|]. rewrite Z.add_0_r, Z.mod_small; [done|apply little_bound].
    - cbn [Nat.iter nat_rect]. change (nat_rect _ _ _ k) with (Nat.iter k (fun g => (next_bytes g).1) (GenerateIncreasingNonce c)).
      rewrite Hc. exists (increase c'). split; [done|]. split; [unfold zlen in *; by rewrite increase_length|].
      rewrite little_increase, Hz, Hl, Zplus_mod_idemp_l. f_equal. lia. }
  destruct Hk as (c' & Hc & Hz & Hl). exists (increase c'). unfold generated. rewrite Hc. split; [done|].
  split; [unfold zlen in *; by rewrite increase_length|]. rewrite little_increase, Hz, Hl, Zplus_mod_idemp_l. done.
Qed.

(** No nonce of a stream comes twice: a generator that counts from any nonce
    of [n] bytes gives 256^n different nonces, all of [n] bytes, before it gives
    one again. *)
Theorem nonces_never_repeat c (j k : nat) (Hjk : (j < k)%nat) (Hk : Z.of_nat k - Z.of_nat j < 256 ^ zlen c) :
  generated j (GenerateIncreasingNonce c) <> generated k (GenerateIncreasingNonce c) /\
  exists n, generated k (GenerateIncreasingNonce c) = Ok n /\ zlen n = zlen c.
Proof.
  destruct (generated_increasing j c) as (a & -> & Ha & Hla), (generated_increasing k c) as (b & Hb & Hbz & Hlb). rewrite Hb.
  split; [|by exists b]. intros [= ->]. rewrite Hlb in Hla.
  assert (H0 : 0 < 256 ^ zlen c) by (apply Z.pow_pos_nonneg; [lia|apply zlen_nonneg]).
  assert (Hd : (Z.of_nat k - Z.of_nat j) mod 256 ^ zlen c = 0).
  { replace (Z.of_nat k - Z.of_nat j) with ((little c + Z.of_nat k + 1) - (little c + Z.of_nat j + 1)) by lia.
    rewrite Zminus_mod, Hla, Z.sub_diag. by rewrite Z.mod_0_l by lia. }
  rewrite Z.mod_small in Hd by lia. lia.
Qed.

(** ** A cipher that appends the first two bytes of the nonce *)
Definition toy_open (nonce ct : bytes) : res bytes :=
  if decide (drop (length ct - 2) ct = take 2 nonce) then Ok (take (length ct - 2) ct) else Err (NewError "message authentication failed").
#[local] Instance toy_aead : AeadCipher unit := {|
  NonceSize _ := 12; aead_Overhead _ := 2;
  aead_Open _ nonce ct _ := toy_open nonce ct; aead_Seal _ nonce d _ := Ok (d ++ take 2 nonce) |}.

#[local] Instance toy_ok : AeadOk unit 2.
Proof.
  split; [lia|done|]. intros c nonce d ad Hn. cbn in *. eexists. split; [done|].
  assert (Hl : length (take 2 nonce) = 2%nat) by (rewrite length_take; unfold zlen in Hn; lia).
  split; [unfold zlen in *; rewrite length_app, Hl; lia|]. unfold toy_open. rewrite length_app, Hl, Nat.add_sub.
  by rewrite drop_app_length, take_app_length, decide_True.
Qed.

Definition toy_auth : AEADAuthenticator unit := mkAuth tt GenerateInitialAEADNonce None.
Definition toy_sent : list MultiBuffer := [[push New (lit "hello ")]; [push New (lit "wor"); push New (lit "ld")]].
Definition toy_writer := NewAuthenticationWriter toy_auth (mkOut [] None) TransferTypeStream.
Definition toy_written (l : list MultiBuffer) : bytes := out_bytes (w_writer (write_all l toy_writer).1).

(** The bytes arrive cut in two. *)
Definition toy_reader (d : bytes) (e : error) : BufferedReader link :=
  BufReader.mkReader (mkLink [[push New (take 7 d)]; [push New (drop 7 d)]] e) [].

Lemma toy_reader_wf d e : 8 <= zlen d <= 2048 -> reader_wf (toy_reader d e) /\ reader_content (toy_reader d e) = d.
Proof.
  intros Hd. assert (Ht : forall x, 1 <= zlen x <= 2048 -> tidy_mb [push New x] /\ [push New x] <> []).
  { intros x Hx. pose proof (tidy_push x Hx) as Ht. split; [|discriminate]. split; [by constructor|].
    rewrite mb_content_one. destruct Ht as [_ Ht]. lia. }
  split; [split; [apply tidy_mb_nil|]|].
  - constructor; [apply Ht|constructor; [apply Ht|constructor]]; unfold zlen in *; rewrite ?length_take, ?length_drop; lia.
  - unfold reader_content, toy_reader. cbn [BufReader.Buffer source source_content link_source mbs map concat].
    rewrite !mb_content_one, !push_content, New_content by apply New_wf. change (mb_content []) with (@nil byte).
    cbn [app]. rewrite app_nil_r. apply take_drop.
Qed.

Lemma authenticated_stream_delivers_witness :
  read_until 20 (NewAuthenticationReader toy_auth (toy_reader (toy_written toy_sent) (NewError "reset"))) =
    Some (lit "hello world", NewError "reset") /\
  read_until 20 (NewAuthenticationReader toy_auth (toy_reader (toy_written (toy_sent ++ [[]]) ++ lit "rest") (NewError "reset"))) =
    Some (lit "hello world", EOF).
Proof.
  assert (HP : in_step toy_auth toy_auth) by (split; [done|]; split; [done|]; by exists (replicate 12 xff)).
  assert (Hl : Forall sendable toy_sent).
  { repeat (constructor; [split; [repeat (constructor; [apply tidy_push; vm_compute; split; discriminate|]); constructor|split; [discriminate|vm_compute; discriminate]]|]). constructor. }
  destruct (authenticated_stream_delivers toy_auth toy_auth toy_sent (mkOut [] None) HP Hl)
    as (w' & sent & Hw & (_ & Hs & _) & w2 & more & Hw2 & (_ & Hs2 & _) & Hr); [by split|].
  assert (E1 : toy_written toy_sent = sent) by (unfold toy_written, toy_writer; by rewrite Hw).
  assert (E2 : toy_written (toy_sent ++ [[]]) = sent ++ more).
  { unfold toy_written, toy_writer. rewrite write_all_app, Hw. cbn [write_all]. by rewrite Hw2. }
  split.
  - destruct (toy_reader_wf (toy_written toy_sent) (NewError "reset")) as [Hwf Hc]; [vm_compute; split; discriminate|].
    rewrite (proj1 (Hr _ 20%nat Hwf ltac:(vm_compute; lia))); [vm_compute; reflexivity|]. by rewrite Hc, E1.
  - destruct (toy_reader_wf (toy_written (toy_sent ++ [[]]) ++ lit "rest") (NewError "reset")) as [Hwf Hc]; [vm_compute; split; discriminate|].
    rewrite (proj2 (Hr _ 20%nat Hwf ltac:(vm_compute; lia)) (lit "rest")); [vm_compute; reflexivity|]. by rewrite Hc, E2, app_assoc.
Defined.

Lemma nonces_never_repeat_witness :
  generated 0 GenerateInitialAEADNonce = Ok (replicate 12 x00) /\
  generated 0 GenerateInitialAEADNonce <> generated 1000 GenerateInitialAEADNonce.
Proof.
  split; [vm_compute; reflexivity|].
  exact (proj1 (nonces_never_repeat (replicate 12 xff) 0 1000 ltac:(lia) ltac:(vm_compute; reflexivity))).
Defined.
