(* ===== verification/Replay.v ===== *)
(** * Package common/antireplay

    [Module Replay] models the filter of replayed values - two cuckoo filters that
    are emptied in turn - and the ring of Bloom filters.  The filters of the
    libraries are the class [Filter]. *)
From S2P Require Import Prelude GoStd.

Module Replay.

Class Filter (F : Type) := {
  NewFilter : F;
  Reset : F -> F;
  InsertUnique : bytes -> F -> F * bool;
}.

(** ** replayfilter.go; times in seconds *)
Record ReplayFilter (F : Type) := mkFilter {
  poolA : F; poolB : F;        (* nil until the first check, which makes them *)
  poolSwap : bool;
  lastSwap : Z;
  interval : Z;
}.
Arguments mkFilter {F}.
Arguments poolA {F}.
Arguments poolB {F}.
Arguments poolSwap {F}.
Arguments lastSwap {F}.
Arguments interval {F}.

Section ReplayFilter.
Context {F : Type} `{Filter F}.

Definition NewReplayFilter (interval : Z) : ReplayFilter F := mkFilter NewFilter NewFilter false 0 interval.

Definition started (now : Z) (f : ReplayFilter F) : ReplayFilter F :=
  if lastSwap f =? 0 then mkFilter NewFilter NewFilter (poolSwap f) now (interval f) else f.

Definition swapped (now : Z) (f : ReplayFilter F) : ReplayFilter F :=
  if interval f <=? now - lastSwap f then
    mkFilter (if poolSwap f then Reset (poolA f) else poolA f) (if poolSwap f then poolB f else Reset (poolB f))
      (negb (poolSwap f)) now (interval f)
  else f.

Definition Check (sum : bytes) (now : Z) (f : ReplayFilter F) : ReplayFilter F * bool :=
  let f := swapped now (started now f) in
  let '(a, fresh) := InsertUnique sum (poolA f) in
  if fresh : bool then
    let '(b, fresh) := InsertUnique sum (poolB f) in
    (mkFilter a b (poolSwap f) (lastSwap f) (interval f), fresh)
  else (mkFilter a (poolB f) (poolSwap f) (lastSwap f) (interval f), false).
End ReplayFilter.

(** ** bloomring.go *)
Class Ring (B : Type) := { NewRing : B; Test_ : bytes -> B -> bool; Add : bytes -> B -> B }.

Definition BloomRing_Check {B} `{Ring B} (sum : bytes) (b : B) : B * bool :=
  if Test_ sum b then (b, false) else (Add sum b, true).
End Replay.
Import Replay.

(** ** A value is not accepted twice within the interval *)

(** [holds x f]: the filter remembers [x].  It forgets nothing but by [Reset] - as
    long as it is not full. *)
Class FilterOk (F : Type) `{Filter F} (holds : bytes -> F -> Prop) : Prop := {
  holds_rejects x f : holds x f -> (InsertUnique x f).2 = false;
  holds_inserted x f : (InsertUnique x f).2 = true -> holds x (InsertUnique x f).1;
  holds_kept x y f : holds x f -> holds x (InsertUnique y f).1;
}.

Section Replayed.
Context {F : Type} `{Filter F} {holds : bytes -> F -> Prop} `{!FilterOk F holds}.

(** [x] was accepted at the time [t]. *)
Definition remembered (x : bytes) (t : Z) (f : ReplayFilter F) : Prop :=
  lastSwap f <> 0 /\
  ((holds x (poolA f) /\ holds x (poolB f)) \/ (t <= lastSwap f /\ (holds x (poolA f) \/ holds x (poolB f)))).

Lemma started_at t f : 0 < t -> lastSwap f <= t -> lastSwap (started t f) <> 0 /\ lastSwap (started t f) <= t.
Proof. intros ? ?. unfold started. destruct (Z.eqb_spec (lastSwap f) 0); cbn; lia. Qed.

Lemma Check_accepts x t f f' : 0 < t -> Check x t f = (f', true) -> lastSwap f <= t -> remembered x t f' /\ lastSwap f' <= t.
Proof.
  intros Ht Hc Hl. unfold Check in Hc. set (g := swapped t (started t f)) in *.
  assert (Hg : lastSwap g <> 0 /\ lastSwap g <= t).
  { unfold g. generalize (started_at t f Ht Hl). generalize (started t f). intros h Hh. unfold swapped.
    destruct (interval h <=? t - lastSwap h); cbn; lia. }
  pose proof (holds_inserted x (poolA g)) as Ha. destruct (InsertUnique x (poolA g)) as [a [|]]; [|done].
  pose proof (holds_inserted x (poolB g)) as Hb. destruct (InsertUnique x (poolB g)) as [b [|]]; [|done].
  injection Hc as <-. split; [|cbn; lia]. split; [cbn; lia|]. left. cbn in *. auto.
Qed.

Lemma Check_remembers x t y now f :
  0 < t -> remembered x t f -> lastSwap f <= now -> t <= now -> now - t < interval f ->
  remembered x t (Check y now f).1 /\ (x = y -> (Check y now f).2 = false) /\
  lastSwap (Check y now f).1 <= now /\ interval (Check y now f).1 = interval f.
Proof.
  intros Hpos [Hz Hr] Hl Ht Hi. unfold Check. assert (Hs : started now f = f) by (unfold started; destruct (Z.eqb_spec (lastSwap f) 0); done).
  rewrite Hs. set (g := swapped now f).
  assert (Hg : lastSwap g <> 0 /\ lastSwap g <= now /\ interval g = interval f /\
    ((holds x (poolA g) /\ holds x (poolB g)) \/ (t <= lastSwap g /\ (holds x (poolA g) \/ holds x (poolB g))))).
  { unfold g, swapped. destruct (Z.leb_spec (interval f) (now - lastSwap f)); [|done].
    destruct Hr as [[Ha Hb]|[Hlt _]]; [|lia]. cbn [lastSwap interval poolA poolB].
    split; [lia|]. split; [lia|]. split; [done|]. right. split; [done|]. destruct (poolSwap f); auto. }
  destruct Hg as (Hz' & Hl' & Hi' & Hr'). clear Hr Hs.
  assert (Hrej : forall p, x = y -> holds x p -> (InsertUnique y p).2 = false) by (intros p <-; apply holds_rejects).
  pose proof (holds_kept x y (poolA g)) as Ka. pose proof (Hrej (poolA g)) as Ra. destruct (InsertUnique y (poolA g)) as [a fa].
  pose proof (holds_kept x y (poolB g)) as Kb. pose proof (Hrej (poolB g)) as Rb. destruct (InsertUnique y (poolB g)) as [b fb].
  cbn [fst snd] in *. destruct fa; cbn [fst snd lastSwap interval].
  - split; [split; [done|cbn [poolA poolB lastSwap]; naive_solver]|]. split; [|done]. intros Hxy. specialize (Ra Hxy). specialize (Rb Hxy). naive_solver.
  - split; [split; [done|cbn [poolA poolB lastSwap]; naive_solver]|]. done.
Qed.

(** The checks between, each with its time. *)
Fixpoint checks (l : list (bytes * Z)) (f : ReplayFilter F) : ReplayFilter F :=
  match l with [] => f | (y, now) :: l => checks l (Check y now f).1 end.

(** What is remembered is rejected until the interval has passed. *)
Lemma remembered_rejected x t u f (l : list (bytes * Z)) now :
  0 < t -> Sorted Z.le (u :: map snd l ++ [now]) -> t <= u -> remembered x t f -> lastSwap f <= u ->
  now - t < interval f -> (Check x now (checks l f)).2 = false.
Proof.
  intros Ht. revert u f. induction l as [|[y v] l IH]; intros u f Hs Hu Hr Hlt Hn; cbn [map app checks] in *.
  - apply Sorted_inv in Hs as [_ Hh]. inversion Hh; subst. by eapply (Check_remembers x t x now f); [done|done|lia|lia|done|].
  - assert (Hall : Forall (Z.le v) (map snd l ++ [now])).
    { apply Sorted_inv in Hs as [Hs _]. apply Sorted_StronglySorted in Hs; [|intros ? ? ?; lia]. by inversion Hs. }
    assert (Hvn : v <= now) by (rewrite Forall_forall in Hall; apply Hall; apply elem_of_app; right; by left).
    apply Sorted_inv in Hs as [Hs Hh]. inversion Hh; subst.
    destruct (Check_remembers x t y v f Ht Hr) as (Hr' & _ & Hl' & Hi'); [lia|lia|cbn in *; lia|].
    apply (IH v); [done|cbn in *; lia|done|done|by rewrite Hi'].
Qed.

(** A value is accepted at most once in an interval: after it was accepted,
    whatever is checked in between and however often the pools are emptied, it is
    rejected until the interval has passed. *)
Theorem replay_rejected x t f f' (l : list (bytes * Z)) now
    (Ht : 0 < t) (Hl : lastSwap f <= t) (Ha : Check x t f = (f', true))
    (Hs : Sorted Z.le (t :: map snd l ++ [now])) (Hn : now - t < interval f') :
  (Check x now (checks l f')).2 = false.
Proof.
  destruct (Check_accepts x t f f' Ht Ha Hl) as [Hr Hlt]. by apply (remembered_rejected x t t f' l now).
Qed.
End Replayed.

(** ** A filter that keeps a list *)
#[export] Instance list_filter : Filter (list bytes) := {
  NewFilter := [];
  Reset _ := [];
  InsertUnique x l := if bool_decide (x ∈ l) then (l, false) else (x :: l, true);
}.

#[export] Instance list_filter_ok : FilterOk (list bytes) (fun x l => x ∈ l).
Proof.
  split; cbn.
  - intros x l Hx. by rewrite bool_decide_eq_true_2.
  - intros x l. case_bool_decide; [done|]. intros _. by left.
  - intros x y l Hx. case_bool_decide; [done|]. by right.
Qed.

Lemma replay_rejected_witness :
  let f := (Check [x02] 10 (NewReplayFilter (F := list bytes) 180)).1 in
  (Check [x01] 270 (checks [([x03], 195); ([x04], 200)] (Check [x01] 100 f).1)).2 = false.
Proof.
  apply (replay_rejected (holds := fun x l => x ∈ l) [x01] 100 (Check [x02] 10 (NewReplayFilter (F := list bytes) 180)).1).
  - lia.
  - vm_compute. discriminate.
  - vm_compute. reflexivity.
  - cbn. repeat (apply Sorted_cons || apply Sorted_nil || apply HdRel_cons || apply HdRel_nil || lia).
  - vm_compute. reflexivity.
Defined.
