(* ===== verification/Drain.v ===== *)
(** * Packages common/drain and common/dice

    [Module Drain] models the drainer that reads on for a while after a failed
    handshake, so that the moment the connection closes tells nothing.  The
    generators of math/rand are the class [Rand]. *)
From S2P Require Import Prelude GoStd.

Module Drain.

(** [rand.New(rand.NewSource(seed))] and [Intn]. *)
Class Rand (G : Type) := {
  NewSource : Z -> G;
  Intn : Z -> G -> G * Z;
}.

(** [DeterministicDice.Roll] and, over the generator of the program, [dice.Roll]. *)
Definition Roll {G} `{Rand G} (n : Z) (g : G) : G * Z := if n =? 1 then (g, 0) else Intn n g.

Inductive Drainer :=
  | BehaviorSeedLimitedDrainer (DrainSize : Z)
  | NopDrainer.

Definition NewBehaviorSeedLimitedDrainer {G} `{Rand G} (behaviorSeed drainFoundation maxBaseDrainSize maxRandDrain : Z)
    (rand : G) : G * Drainer :=
  let '(behaviorRand, base) := Roll maxBaseDrainSize (NewSource behaviorSeed) in
  let '(behaviorRand, randMax) := Roll maxRandDrain behaviorRand in
  let '(rand, rolled) := Roll (randMax + 1) rand in
  (rand, BehaviorSeedLimitedDrainer (drainFoundation + base + rolled)).

Definition AcknowledgeReceive (size : Z) (d : Drainer) : Drainer :=
  match d with
  | BehaviorSeedLimitedDrainer n => BehaviorSeedLimitedDrainer (n - size)
  | NopDrainer => NopDrainer
  end.

Section Reading.
Context {R : Type} `{Reader R}.

(** [io.CopyN(io.Discard, reader, n)]: reads of at most 8192 bytes. *)
Fixpoint drain_loop (fuel : nat) (n : Z) (r : R) : R * option error :=
  if n <=? 0 then (r, None)
  else
    match fuel with
    | O => (r, Some (NewError "no progress"))
    | S fuel =>
      match rd r (Z.to_nat (Z.min n 8192)) with
      | (r, (bs, None)) => drain_loop fuel (n - zlen bs) r
      | (r, (bs, Some e)) => (r, if n - zlen bs <=? 0 then None else Some e)
      end
    end.

Definition drainReadN (n : Z) (r : R) : R * option error := drain_loop (Z.to_nat n) n r.

Definition Drain (d : Drainer) (reader : R) : R * option error :=
  match d with
  | BehaviorSeedLimitedDrainer n =>
    if 0 <? n then
      match drainReadN n reader with
      | (r, None) => (r, Some (NewError "drained connection"))
      | (r, Some err) => (r, Some (Based "unable to drain connection" err))
      end
    else (reader, None)
  | NopDrainer => (reader, None)
  end.

(** The text of an error that is used as a message. *)
Definition message (e : error) : string := match e with NewError s | Based s _ => s | _ => "EOF"%string end.

Definition WithError (drainer : Drainer) (reader : R) (err : error) : R * error :=
  match Drain drainer reader with
  | (r, None) => (r, err)
  | (r, Some drainErr) => (r, Based (message drainErr) err)
  end.
End Reading.
End Drain.
Import Drain.

(** ** What a drainer reads *)
Section Drained.
Context {R : Type} `{Reader R}.

Lemma drain_loop_spec fuel n (r : R) :
  rd_wf r -> (Z.to_nat n <= fuel)%nat ->
  exists r', drain_loop fuel n r = (r', if n <=? zlen (rd_content r) then None else Some (rd_end r)) /\
    rd_wf r' /\ rd_end r' = rd_end r /\ rd_content r' = drop (Z.to_nat n) (rd_content r).
Proof.
  revert n r. induction fuel as [|fuel IH]; intros n r Hr Hf; cbn [drain_loop]; pose proof (zlen_nonneg (rd_content r)) as Hz.
  - destruct (n <=? 0) eqn:En; [|lia]. exists r. replace (n <=? zlen _) with true by lia. replace (Z.to_nat n) with 0%nat by lia. done.
  - destruct (n <=? 0) eqn:En; [exists r; replace (n <=? zlen _) with true by lia; replace (Z.to_nat n) with 0%nat by lia; done|].
    destruct (rd r (Z.to_nat (Z.min n 8192))) as [r1 [bs e]] eqn:Erd. pose proof (rd_progress _ _ _ _ _ Hr Erd) as Hp.
    destruct (rd_law _ _ _ _ _ Hr Erd) as (Hr1 & Hl & Hc & He). destruct e as [e|].
    + destruct Hp as [Hc1 ->]. exists r1. rewrite Hc, Hc1, app_nil_r in *.
      assert (Hd : drop (Z.to_nat n) bs = []) by (apply drop_ge; lia). rewrite Hd.
      replace (n - zlen bs <=? 0) with (n <=? zlen bs) by lia. by destruct (n <=? zlen bs).
    + assert (Hbs : bs <> []) by (apply Hp; lia). assert (0 < length bs)%nat by (destruct bs; [done|cbn; lia]).
      destruct (IH (n - zlen bs) r1 Hr1) as (r2 & E & Hr2 & He2 & Hc2); [unfold zlen; lia|].
      exists r2. rewrite E, He2, He, Hc2, Hc, zlen_app, drop_app. split; [|split; [done|split; [done|]]].
      * replace (n - zlen bs <=? zlen (rd_content r1)) with (n <=? zlen bs + zlen (rd_content r1)) by lia. done.
      * rewrite (drop_ge bs) by lia. cbn [app]. f_equal. unfold zlen. lia.
Qed.

(** A drainer reads as much as it has left, or all there is. *)
Lemma WithError_spec n (r : R) err :
  rd_wf r -> exists r' err', WithError (BehaviorSeedLimitedDrainer n) r err = (r', err') /\ rd_wf r' /\ rd_end r' = rd_end r /\
    rd_content r' = drop (Z.to_nat n) (rd_content r).
Proof.
  intros Hr. unfold WithError, Drain, drainReadN. destruct (0 <? n) eqn:En.
  - destruct (drain_loop_spec (Z.to_nat n) n r Hr) as (r' & -> & ? & ? & ?); [lia|]. exists r'. destruct (n <=? _); by eexists.
  - exists r, err. replace (Z.to_nat n) with 0%nat by lia. done.
Qed.
End Drained.
