(* ===== verification/Shadow.v ===== *)
(** * Package proxy/shadowsocks: ciphers and protocol

    [Module Shadow] models config.go and protocol.go: accounts and their keys, the
    cipher of streams and packets, the header of a TCP session in both
    directions, UDP packets with their reader and writer.  The primitives - MD5,
    HKDF, the AEADs, the seed of the drainer - are the class [Primitives].  The
    replay filter that the sessions of an account share is a state beside the
    account, [None] when it is nil. *)
From S2P Require Import Prelude GoStd Buf MultiBuf NetAddr AddrParser Headers BufReader Talk Auth AuthSpec Replay Drain.
Import Buf NetAddr AddrParser BufReader Talk Auth Replay Drain.
Import Headers(RequestHeader, MemoryUser).

Module Shadow.

(** ** config.go *)
Inductive CipherType :=
  | UNKNOWN | AES_128_GCM | AES_256_GCM | CHACHA20_POLY1305 | NONE
  | SS2022_BLAKE3_AES_128_GCM | SS2022_BLAKE3_AES_256_GCM.
#[export] Instance CipherType_eq_dec : EqDecision CipherType.
Proof. solve_decision. Defined.

Record AccountConfig := mkConfig { Password : bytes; CipherType_ : CipherType; IvCheck : bool; ReducedIvHeadEntropy : bool }.

Definition one_of (c : bytes) (names : list string) : bool := existsb (fun s => bool_decide (c = lit s)) names.

Definition CipherFromString (c : bytes) : CipherType :=
  let c := ToLower c in
  if one_of c ["aes-128-gcm"; "aes_128_gcm"; "aead_aes_128_gcm"] then AES_128_GCM
  else if one_of c ["aes-256-gcm"; "aes_256_gcm"; "aead_aes_256_gcm"] then AES_256_GCM
  else if one_of c ["chacha20-poly1305"; "chacha20_poly1305"; "aead_chacha20_poly1305"; "chacha20-ietf-poly1305"] then CHACHA20_POLY1305
  else if one_of c ["none"; "plain"] then NONE
  else if one_of c ["2022-blake3-aes-128-gcm"; "ss2022-blake3-aes-128-gcm"] then SS2022_BLAKE3_AES_128_GCM
  else if one_of c ["2022-blake3-aes-256-gcm"; "ss2022-blake3-aes-256-gcm"] then SS2022_BLAKE3_AES_256_GCM
  else UNKNOWN.

(** [behaviorSeed] is the CRC-32 of the HMAC-SHA-256 of the key; [crc32] is
    [crc32.ChecksumIEEE]. *)
Class Primitives (C : Type) := {
  md5 : bytes -> bytes;
  hkdfSHA1 : bytes -> bytes -> Z -> bytes;     (* secret, salt, size of the output *)
  createAesGcm : bytes -> C;
  createChaCha20Poly1305 : bytes -> C;
  behaviorSeed : bytes -> Z;
  crc32 : bytes -> Z;
}.

(** The loop of [passwordToCipherKey]; every turn adds bytes. *)
Fixpoint key_loop (md5 : bytes -> bytes) (fuel : nat) (password md5Sum key : bytes) (keySize : Z) : bytes :=
  match fuel with
  | O => key
  | Datatypes.S fuel =>
    if zlen key <? keySize then
      let md5Sum := md5 (md5Sum ++ password) in
      key_loop md5 fuel password md5Sum (key ++ md5Sum) keySize
    else key
  end.

Inductive Cipher (C : Type) :=
  | AEADCipher (KeyBytes IVBytes : Z) (AEADAuthCreator : bytes -> C)
  | NoneCipher.
Arguments AEADCipher {C}.
Arguments NoneCipher {C}.

Record MemoryAccount (C : Type) := mkAccount { Cipher_ : Cipher C; Key : bytes; ReducedIVEntropy : bool }.
Arguments mkAccount {C}.
Arguments Cipher_ {C}.
Arguments Key {C}.
Arguments ReducedIVEntropy {C}.

Section Config.
Context {C : Type} `{AeadCipher C} `{Primitives C}.

Definition Equals (a : MemoryAccount C) (another : Datatypes.option (MemoryAccount C)) : bool :=
  match another with Some account => bool_decide (Key a = Key account) | None => false end.

Definition KeySize (c : Cipher C) : Z := match c with AEADCipher k _ _ => k | NoneCipher => 0 end.
Definition IVSize (c : Cipher C) : Z := match c with AEADCipher _ i _ => i | NoneCipher => 0 end.
Definition IsAEAD (c : Cipher C) : bool := match c with AEADCipher _ _ _ => true | NoneCipher => false end.

Definition passwordToCipherKey (password : bytes) (keySize : Z) : bytes :=
  let md5Sum := md5 password in key_loop md5 (Z.to_nat keySize) password md5Sum md5Sum keySize.

Definition getCipher (t : CipherType) : res (Cipher C) :=
  match t with
  | AES_128_GCM => Ok (AEADCipher 16 16 createAesGcm)
  | AES_256_GCM => Ok (AEADCipher 32 32 createAesGcm)
  | CHACHA20_POLY1305 => Ok (AEADCipher 32 32 createChaCha20Poly1305)
  | NONE => Ok NoneCipher
  | SS2022_BLAKE3_AES_128_GCM => Ok (AEADCipher 16 16 createAesGcm)
  | SS2022_BLAKE3_AES_256_GCM => Ok (AEADCipher 32 32 createAesGcm)
  | UNKNOWN => Err (NewError "Unsupported cipher.")
  end.

Definition createAuthenticator (KeyBytes : Z) (create : bytes -> C) (key iv : bytes) : AEADAuthenticator C :=
  {| AEAD := create (hkdfSHA1 key iv KeyBytes); NonceGenerator := GenerateInitialAEADNonce; AdditionalDataGenerator := None |}.

(** ** Streams *)
Inductive Body :=
  | PlainBody (r : BufferedReader link)
  | SealedBody (r : AuthenticationReader (AEADAuthenticator C) link).

Definition NewDecryptionReader (c : Cipher C) (key iv : bytes) (reader : BufferedReader link) : Body :=
  match c with
  | AEADCipher k _ create => SealedBody (NewAuthenticationReader (createAuthenticator k create key iv) reader)
  | NoneCipher => PlainBody reader
  end.

(** The connection that a body reads. *)
Definition under (b : Body) : BufferedReader link := match b with PlainBody r => r | SealedBody r => r_reader r end.

#[export] Instance body_reader : MbReader Body := fun b =>
  match b with
  | PlainBody r => let '(r, x) := read_mb r in (PlainBody r, x)
  | SealedBody r => let '(r, x) := read_mb r in (SealedBody r, x)
  end.

#[export] Instance body_source : MbSource Body.
Proof.
  refine {| source_wf b := match b with PlainBody r => source_wf r | SealedBody r => source_wf r end;
            source_content b := match b with PlainBody r => source_content r | SealedBody r => source_content r end;
            source_end b := match b with PlainBody r => source_end r | SealedBody r => source_end r end |}.
  intros [r|r] Hr; destruct (source_law r Hr) as (r' & ? & ? & [(mb & E & ?)|(E & ?)]);
    unfold read_mb in E |- *; unfold body_reader; unfold read_mb; rewrite E.
  - exists (PlainBody r'). split; [done|]. split; [done|]. left. exists mb. by split.
  - exists (PlainBody r'). split; [done|]. split; [done|]. right. split; [reflexivity|eassumption].
  - exists (SealedBody r'). split; [done|]. split; [done|]. left. exists mb. split; [reflexivity|eassumption].
  - exists (SealedBody r'). split; [done|]. split; [done|]. right. split; [reflexivity|eassumption].
Defined.

(** ** Packets *)
Definition EncodePacket (c : Cipher C) (key : bytes) (b : Buf.Buffer) : res Buf.Buffer :=
  match c with
  | NoneCipher => Ok b
  | AEADCipher k ivLen create =>
    let payloadLen := Len (Some b) in
    iv ← BytesTo b ivLen;
    let auth := createAuthenticator k create key iv in
    '(b, _) ← Extend b (i32 (aead_Overhead (AEAD auth)));
    iv ← BytesTo b ivLen;
    plain ← BytesRange b ivLen payloadLen;
    sealed ← (Seal plain auth).2;
    Ok (poke b (i32 (start b + ivLen), end_ b) sealed)
  end.

Definition DecodePacket (c : Cipher C) (key : bytes) (b : Buf.Buffer) : res Buf.Buffer :=
  match c with
  | NoneCipher => Ok b
  | AEADCipher k ivLen create =>
    if Len (Some b) <=? ivLen then Err (NewError "insufficient data: ")
    else
      let payloadLen := Len (Some b) in
      iv ← BytesTo b ivLen;
      let auth := createAuthenticator k create key iv in
      sealed ← BytesRange b ivLen payloadLen;
      plain ← (Open sealed auth).2;
      Resize (poke b (i32 (start b + ivLen), end_ b) plain) ivLen (i32 (zlen (iv ++ plain)))
  end.
End Config.
Arguments Body : clear implicits.

(** The writer of a body over the writer [W]. *)
Inductive BodyWriter (C W : Type) :=
  | PlainWriter (w : W)
  | SealedWriter (w : AuthenticationWriter (AEADAuthenticator C) W).
Arguments PlainWriter {C W}.
Arguments SealedWriter {C W}.

Section BodyWriter.
Context {C W : Type} `{AeadCipher C} `{Primitives C} `{MbWriter W}.

Definition NewEncryptionWriter (c : Cipher C) (key iv : bytes) (writer : W) : BodyWriter C W :=
  match c with
  | AEADCipher k _ create => SealedWriter (NewAuthenticationWriter (createAuthenticator k create key iv) writer TransferTypeStream)
  | NoneCipher => PlainWriter writer
  end.

Definition into (w : BodyWriter C W) : W := match w with PlainWriter w => w | SealedWriter w => w_writer w end.

#[export] Instance body_writer : MbWriter (BodyWriter C W) := fun mb w =>
  match w with
  | PlainWriter u => let '(u, x) := write_mb mb u in (PlainWriter u, x)
  | SealedWriter u => let '(u, x) := write_mb mb u in (SealedWriter u, x)
  end.
End BodyWriter.

(** ** protocol.go *)
Definition Version : Z := 1.

Definition shadow_options : res (list AddressOption) :=
  o1 ← AddressFamilyByte 1 AddressFamilyIPv4;
  o2 ← AddressFamilyByte 4 AddressFamilyIPv6;
  o3 ← AddressFamilyByte 3 AddressFamilyDomain;
  Ok [o1; o2; o3; WithAddressTypeParser (fun b => Z.land b 15)].

Definition addrParser : AddressSerializer :=
  NewAddressParser (match shadow_options with Ok l => l | _ => [] end).

(** The characters of [remapToPrintable]. *)
Definition charSet : bytes :=
  lit "ABCDEFGHIJKLMNOPQRSTUVWXYZabcdefghijklmnopqrstuvwxyz0123456789!#$%&()*+,./:;<=>?@[]^_`{|}~\" ++ [z2b 34].

Fixpoint remap_loop {G} `{Rand G} (n : nat) (g : G) : bytes :=
  match n with
  | O => []
  | Datatypes.S n => let '(g, i) := Intn (zlen charSet) g in default x00 (charSet !! Z.to_nat i) :: remap_loop n g
  end.

Section Protocol.
Context {B G C : Type} `{Ring B} `{Rand G} `{AeadCipher C} `{Primitives C}.

Abbreviation Account := (MemoryAccount C).
Abbreviation Request := (RequestHeader (MemoryAccount C)).

Definition AsAccount (a : AccountConfig) : res (Account * Datatypes.option B) :=
  match getCipher (CipherType_ a) with
  | Ok c =>
    Ok ({| Cipher_ := c; Key := passwordToCipherKey (Password a) (KeySize c); ReducedIVEntropy := ReducedIvHeadEntropy a |},
        if IvCheck a then Some NewRing else None)
  | Err e => Err (Based "failed to get cipher" e)
  | Panic => Panic
  end.

Definition CheckIV (iv : bytes) : ST (Datatypes.option B) unit := fun f =>
  match f with
  | None => (None, Ok tt)
  | Some b => let '(b, fresh) := BloomRing_Check iv b in (Some b, if fresh : bool then Ok tt else Err (NewError "IV is not unique"))
  end.

(** [user.Account.(asterisk MemoryAccount)] *)
Definition account_of (user : MemoryUser Account) : res Account := or_panic (Headers.Account user).

Definition new_request (user : MemoryUser Account) (command : Z) (addr : Address) (port : Port) : Request :=
  {| Headers.Version := Version; Headers.Command := command; Headers.Option := 0; Headers.Security := 0;
     Headers.RPort := port; Headers.RAddress := Some addr; Headers.User := Some user |}.

(** The drainer of a session; [rand] is the generator of the program. *)
Definition new_drainer (account : Account) (rand : G) : Drainer :=
  (NewBehaviorSeedLimitedDrainer (behaviorSeed (Key account)) (16 + 38) 3266 64 rand).2.

(** The state is the replay filter and the connection, which the body that is
    returned goes on reading. *)
Definition ReadTCPSession (user : MemoryUser Account) (rand : G) : ST (Datatypes.option B * BufferedReader link) (Request * BufferedReader (Body C)) :=
  fun '(filter, reader) =>
  match account_of user with
  | Ok account =>
    let drainer := new_drainer account rand in
    let fail (drainer : Drainer) (b : Buf.Buffer) (r : BufferedReader link) (f : Datatypes.option B) (e : error) :=
      let '(r, e) := WithError (AcknowledgeReceive (Len (Some b)) drainer) r e in ((f, r), Err e) in
    let ivLen := IVSize (Cipher_ account) in
    let '((buffer, reader), x) := if 0 <? ivLen then ReadFullFrom ivLen (New, reader) else ((New, reader), Ok 0) in
    match x with
    | Ok _ =>
      match (if 0 <? ivLen then BytesTo buffer ivLen else Ok []) with
      | Ok iv =>
        let br := {| source := NewDecryptionReader (Cipher_ account) (Key account) iv reader; Buffer := [] |} in
        let drainer := AcknowledgeReceive (Len (Some buffer)) drainer in
        match ReadAddressPort_with addrParser (Clear buffer, br) with
        | ((buffer, br), Ok (addr, port)) =>
          match CheckIV iv filter with
          | (filter, Ok _) => ((filter, under (source br)), Ok (new_request user Headers.RequestCommandTCP addr port, br))
          | (filter, Err e) => fail drainer buffer (under (source br)) filter (Based "failed iv check" e)
          | (filter, Panic) => ((filter, under (source br)), Panic)
          end
        | ((buffer, br), Err e) => fail drainer buffer (under (source br)) filter (Based "failed to read address" e)
        | ((_, br), Panic) => ((filter, under (source br)), Panic)
        end
      | Err e => ((filter, reader), Err e)
      | Panic => ((filter, reader), Panic)
      end
    | Err e => fail drainer buffer reader filter (Based "failed to read IV" e)
    | Panic => ((filter, reader), Panic)
    end
  | Err e => ((filter, reader), Err e)
  | Panic => ((filter, reader), Panic)
  end.

Definition ReadTCPResponse (user : MemoryUser Account) (rand : G) : ST (Datatypes.option B * BufferedReader link) (Body C) :=
  fun '(filter, reader) =>
  match account_of user with
  | Ok account =>
    let drainer := new_drainer account rand in
    let ivLen := IVSize (Cipher_ account) in
    let '(reader, (iv, err)) := if 0 <? ivLen then ReadFull reader (Z.to_nat ivLen) else (reader, ([], None)) in
    match err with
    | Some e => ((filter, reader), Err (Based "failed to read IV" e))
    | None =>
      match CheckIV iv filter with
      | (filter, Ok _) => ((filter, reader), Ok (NewDecryptionReader (Cipher_ account) (Key account) iv reader))
      | (filter, Err e) =>
        let '(reader, e) := WithError (AcknowledgeReceive (zlen iv) drainer) reader (Based "failed iv check" e) in
        ((filter, reader), Err e)
      | (filter, Panic) => ((filter, reader), Panic)
      end
    end
  | Err e => ((filter, reader), Err e)
  | Panic => ((filter, reader), Panic)
  end.

Section Writing.
Context {W : Type} `{Writer W} `{MbWriter W}.

(** The IV of a writer: random bytes, the first six remapped if the account says
    so; the filter is told, and the IV written; [failed] is the error then. *)
Definition remapToPrintable (input : bytes) : bytes := remap_loop (length input) (NewSource (crc32 input)).

Definition write_iv (account : Account) (reduced : bool) (failed : error -> error) (random : bytes) : ST (Datatypes.option B * W) bytes := fun '(filter, writer) =>
  if 0 <? IVSize (Cipher_ account) then
    match (if reduced then head ← or_panic (slice random 0 6); Ok (remapToPrintable head ++ drop 6 random) else Ok random) with
    | Ok iv =>
      match CheckIV iv filter with
      | (filter, Ok _) =>
        match WriteAllBytes iv writer with
        | (writer, Ok _) => ((filter, writer), Ok iv)
        | (writer, Err e) => ((filter, writer), Err (failed e))
        | (writer, Panic) => ((filter, writer), Panic)
        end
      | (filter, Err e) => ((filter, writer), Err (Based "failed to mark outgoing iv" e))
      | (filter, Panic) => ((filter, writer), Panic)
      end
    | Err e => ((filter, writer), Err e)
    | Panic => ((filter, writer), Panic)
    end
  else ((filter, writer), Ok []).

Definition account_of_request (request : Request) : res Account := user ← or_panic (Headers.User request); account_of user.

(** The writer that is returned goes on writing to the writer of the state. *)
Definition WriteTCPRequest (request : Request) (random : bytes) : ST (Datatypes.option B * W) (BodyWriter C W) := fun s =>
  match account_of_request request with
  | Ok account =>
    match write_iv account (ReducedIVEntropy account) (fun _ => NewError "failed to write IV") random s with
    | ((filter, writer), Ok iv) =>
      let w := NewEncryptionWriter (Cipher_ account) (Key account) iv writer in
      match (a ← st_lift (or_panic (Headers.RAddress request)); WriteAddressPort addrParser a (Headers.RPort request)) New with
      | (header, Ok _) =>
        match write_mb [header] w with
        | (w, Ok _) => ((filter, into w), Ok w)
        | (w, Err e) => ((filter, into w), Err (Based "failed to write header" e))
        | (w, Panic) => ((filter, into w), Panic)
        end
      | (_, Err e) => ((filter, writer), Err (Based "failed to write address" e))
      | (_, Panic) => ((filter, writer), Panic)
      end
    | (s, Err e) => (s, Err e)
    | (s, Panic) => (s, Panic)
    end
  | Err e => (s, Err e)
  | Panic => (s, Panic)
  end.

(** The IV of a response is not remapped. *)
Definition WriteTCPResponse (request : Request) (random : bytes) : ST (Datatypes.option B * W) (BodyWriter C W) := fun s =>
  match account_of_request request with
  | Ok account =>
    match write_iv account false (Based "failed to write IV.") random s with
    | ((filter, writer), Ok iv) => ((filter, writer), Ok (NewEncryptionWriter (Cipher_ account) (Key account) iv writer))
    | (s, Err e) => (s, Err e)
    | (s, Panic) => (s, Panic)
    end
  | Err e => (s, Err e)
  | Panic => (s, Panic)
  end.
End Writing.

(** ** UDP; [random] are the bytes of the IV *)
Definition EncodeUDPPacket (request : Request) (random payload : bytes) : res Buf.Buffer :=
  account ← account_of_request request;
  let steps : ST Buf.Buffer unit :=
    _ ← (if 0 <? IVSize (Cipher_ account) then _ ← Buf.Write random; mret tt else mret tt);
    a ← st_lift (or_panic (Headers.RAddress request));
    _ ← st_base "failed to write address" (WriteAddressPort addrParser a (Headers.RPort request));
    _ ← Buf.Write payload;
    mret tt in
  match steps New with
  | (buffer, Ok _) =>
    match EncodePacket (Cipher_ account) (Key account) buffer with
    | Err e => Err (Based "failed to encrypt UDP payload" e)
    | x => x
    end
  | (_, Err e) => Err e
  | (_, Panic) => Panic
  end.

Definition DecodeUDPPacket (user : MemoryUser Account) (payload : Buf.Buffer) : res (Request * Buf.Buffer) :=
  account ← account_of user;
  match DecodePacket (Cipher_ account) (Key account) payload with
  | Ok payload =>
    first ← Byte payload 0;
    payload ← SetByte payload 0 (z2b (Z.land (b2z first) 15));
    match ReadAddressPort addrParser payload with
    | (payload, Ok (addr, port)) => Ok (new_request user Headers.RequestCommandUDP addr port, payload)
    | (_, Err e) => Err (Based "failed to parse address" e)
    | (_, Panic) => Panic
    end
  | Err e => Err (Based "failed to decrypt UDP payload" e)
  | Panic => Panic
  end.

Section UDP.
Context {R W : Type} `{Reader R} `{Writer W}.

Definition UDPReader_ReadMultiBuffer (user : MemoryUser Account) : ST R MultiBuf.MultiBuffer := fun r =>
  match ReadFrom (New, r) with
  | ((buffer, r), Ok _) => (r, '(_, payload) ← DecodeUDPPacket user buffer; Ok [payload])
  | ((_, r), Err e) => (r, Err e)
  | ((_, r), Panic) => (r, Panic)
  end.

(** [ReadFrom(p)] with [n] bytes of room: the bytes, the sender's IP address and
    its port. *)
Definition UDPReader_ReadFrom (user : MemoryUser Account) (n : nat) : ST R (bytes * (bytes * Z)) := fun r =>
  match ReadFrom (New, r) with
  | ((buffer, r), Ok _) =>
    (r, '(vaddr, payload) ← DecodeUDPPacket user buffer;
        d ← Bytes payload;
        a ← or_panic (Headers.RAddress vaddr);
        ip ← IP a;
        Ok (take n d, (ip, Headers.RPort vaddr)))
  | ((_, r), Err e) => (r, Err e)
  | ((_, r), Panic) => (r, Panic)
  end.

Definition UDPWriter_Write (request : Request) (random payload : bytes) : ST W Z :=
  packet ← st_lift (EncodeUDPPacket request random payload);
  d ← st_lift (Bytes packet);
  _ ← wr d;
  mret (zlen payload).

Definition UDPWriter_WriteTo (request : Request) (random payload ip : bytes) (udpPort : Z) : ST W Z :=
  UDPWriter_Write
    {| Headers.Version := Headers.Version request; Headers.Command := Headers.RequestCommandUDP;
       Headers.Option := Headers.Option request; Headers.Security := Headers.Security request;
       Headers.RPort := u16 udpPort; Headers.RAddress := IPAddress ip; Headers.User := Headers.User request |}
    random payload.
End UDP.
End Protocol.
End Shadow.
