(* ===== verification/ShadowSpec.v ===== *)
(** * Package proxy/shadowsocks: what its protocol promises

    A TCP session opens with the address that was asked for and delivers the
    bytes behind it; a connection without the key is drained by an amount that
    does not depend on what it sends; a UDP packet is read back, if it fits into
    a buffer. *)
From S2P Require Import Prelude GoStd Buf MultiBuf NetAddr AddrParser Headers BufReader BufWriter Talk Auth AuthSpec Replay Drain Shadow.
Import Buf MultiBuf NetAddr AddrParser BufReader BufWriter Talk Auth Replay Drain Shadow.
Import Headers(RequestHeader, MemoryUser).

(** The AEADs of the ciphers take nonces of 12 bytes. *)
Class CipherOk (C : Type) `{AeadCipher C} `{Primitives C} : Prop := {
  gcm_nonce key : NonceSize (createAesGcm key) = 12;
  chacha_nonce key : NonceSize (createChaCha20Poly1305 key) = 12;
}.

Lemma shadow_handles a : addr_wf a -> handles addrParser a.
Proof.
  intros Ha. unfold handles. destruct a; (split; [vm_compute; done|split; [vm_compute; done|reflexivity]]).
Qed.

Section Streams.
Context {C : Type} `{AeadCipher C} `{Primitives C} `{AO : !AeadOk C 16} `{CO : !CipherOk C}.

Definition cipher_ok (c : Cipher C) : Prop :=
  match c with
  | NoneCipher => True
  | AEADCipher k iv create => 16 <= iv <= 32 /\ forall key, NonceSize (create key) = 12
  end.

Lemma getCipher_ok t c : getCipher t = Ok c -> cipher_ok c.
Proof.
  pose proof gcm_nonce. pose proof chacha_nonce.
  destruct t; intros [= <-]; cbn [cipher_ok]; try done; (split; [lia|done]).
Qed.

Lemma authenticator_in_step k iv0 create key iv :
  cipher_ok (AEADCipher k iv0 create) -> in_step (createAuthenticator k create key iv) (createAuthenticator k create key iv).
Proof. intros [_ Hn]. split; [done|]. split; [done|]. exists (replicate 12 xff). split; [done|]. cbn [createAuthenticator AEAD]. by rewrite Hn. Qed.

(** [wire] is what a body writer makes of the bytes [d]. *)
Definition conveys (c : Cipher C) (key iv d wire : bytes) : Prop :=
  match c with
  | NoneCipher => wire = d
  | AEADCipher k _ create => exists ds r', Forall (fun d => d <> []) ds /\ concat ds = d /\
      stream (createAuthenticator k create key iv) ds wire r'
  end.

Context {W : Type} `{MbSink W}.

Lemma write_all_plain l (u : W) b :
  taken u b -> Forall sendable l -> exists u', write_all l u = (u', Ok tt) /\ taken u' (b ++ concat (map mb_content l)).
Proof.
  intros Hu Hl. revert u b Hu. induction Hl as [|mb l (Ht & Hne & Hz) Hl IH]; intros u b Hu; cbn [write_all map concat].
  - exists u. by rewrite app_nil_r.
  - destruct (taken_write u b mb Hu) as (u1 & -> & Hu1); [split; [done|lia]|done|].
    destruct (IH u1 _ Hu1) as (u2 & -> & Hu2). exists u2. by rewrite app_assoc.
Qed.

Lemma write_all_body l (w : BodyWriter C W) :
  write_all l w = match w with
                  | PlainWriter u => let '(u, x) := write_all l u in (PlainWriter u, x)
                  | SealedWriter u => let '(u, x) := write_all l u in (SealedWriter u, x)
                  end.
Proof.
  revert w. induction l as [|mb l IH]; intros w; [by destruct w|]. cbn [write_all].
  unfold write_mb at 1, body_writer. destruct w as [u|u]; destruct (write_mb mb u) as [u' [x|e|]]; rewrite ?IH; done.
Qed.

Lemma body_written c key iv (u : W) b l :
  cipher_ok c -> taken u b -> Forall sendable l ->
  exists w' wire, write_all l (NewEncryptionWriter c key iv u) = (w', Ok tt) /\ taken (into w') (b ++ wire) /\
    conveys c key iv (concat (map mb_content l)) wire.
Proof.
  intros Hc Hu Hl. rewrite write_all_body. destruct c as [k n create|]; cbn [NewEncryptionWriter].
  - pose proof (authenticator_in_step k n create key iv Hc) as HP.
    destruct (write_all_spec l (NewAuthenticationWriter (createAuthenticator k create key iv) u TransferTypeStream) _ b HP eq_refl Hu Hl)
      as (w' & r' & ds & o & -> & _ & _ & Hw & Hd & Hcd & Hs). exists (SealedWriter w'), o. split; [done|]. split; [done|].
    by exists ds, r'.
  - destruct (write_all_plain l u b Hu Hl) as (u' & -> & Hu'). by exists (PlainWriter u'), (concat (map mb_content l)).
Qed.

(** A body over the bytes of a writer holds what was written. *)
Lemma body_read c key iv (br : BufferedReader link) d wire :
  conveys c key iv d wire -> reader_wf br -> reader_content br = wire ->
  let body := NewDecryptionReader c key iv br in
  source_wf body /\ source_content body = d /\ source_end body = link_end (source br).
Proof.
  intros Hv Hwf Hc. destruct c as [k n create|]; cbn [NewDecryptionReader].
  - destruct Hv as (ds & r' & Hd & Hcd & Hs).
    assert (Ha : after (NewAuthenticationReader (createAuthenticator k create key iv) br) ds (Cut (link_end (source br)))).
    { apply (new_reader_after br _ ds wire r'); done. }
    split; [by exists ds, (Cut (link_end (source br)))|]. cbn [source_content source_end body_source auth_source].
    rewrite (auth_rest_after _ _ _ Ha). done.
  - split; [done|]. split; [by rewrite <- Hv|done].
Qed.
End Streams.

(** ** A TCP session *)
Section Session.
Context {B G C W : Type} `{Ring B} `{Rand G} `{AeadCipher C} `{Primitives C} `{AO : !AeadOk C 16} `{CO : !CipherOk C}.
Context `{MbSink W} `{Wr : Writer W} `{WS : !WriterSink W Wr}.

(** The IV that a client sends, given the random bytes. *)
Definition session_iv (account : MemoryAccount C) (random : bytes) : bytes :=
  if 0 <? IVSize (Cipher_ account) then
    if ReducedIVEntropy account then remapToPrintable (G := G) (take 6 random) ++ drop 6 random else random
  else [].

Lemma remap_length n (g : G) : length (remap_loop n g) = n.
Proof. revert g. induction n as [|n IH]; intros g; [done|]. cbn [remap_loop]. destruct (Intn _ g). cbn [length]. by rewrite IH. Qed.

Lemma session_iv_length account random :
  cipher_ok (Cipher_ account) -> zlen random = IVSize (Cipher_ account) -> zlen (session_iv account random) = IVSize (Cipher_ account).
Proof.
  intros Hc Hr. unfold session_iv. destruct (Cipher_ account) as [k n create|]; cbn [IVSize] in *; [|done].
  destruct Hc as [Hn _]. replace (0 <? n) with true by lia. destruct (ReducedIVEntropy account); [|done].
  unfold remapToPrintable, zlen in *. rewrite length_app, remap_length, <- length_app, take_drop. done.
Qed.

Lemma write_iv_spec account (filter : Datatypes.option B) failed random (u : W) :
  cipher_ok (Cipher_ account) -> zlen random = IVSize (Cipher_ account) -> taken u [] ->
  (CheckIV (session_iv account random) filter).2 = Ok tt ->
  exists filter' u', write_iv (G := G) account (ReducedIVEntropy account) failed random (filter, u) =
    ((filter', u'), Ok (session_iv account random)) /\ taken u' (session_iv account random).
Proof.
  intros Hc Hr Hu Hf. unfold session_iv, write_iv in *. destruct (Cipher_ account) as [k n create|]; cbn [IVSize] in *; [|by exists filter, u].
  destruct Hc as [Hn _]. assert (Hpos : (0 <? n) = true) by lia. rewrite Hpos in *.
  assert (Hiv : (if ReducedIVEntropy account then head ← or_panic (slice random 0 6); Ok (remapToPrintable (G := G) head ++ drop 6 random) else Ok random) =
    Ok (if ReducedIVEntropy account then remapToPrintable (G := G) (take 6 random) ++ drop 6 random else random)).
  { destruct (ReducedIVEntropy account); [|done]. rewrite slice_Some by lia. done. }
  rewrite Hiv. destruct (CheckIV _ filter) as [f' x]. cbn [snd] in Hf. subst x.
  destruct (taken_all Wr u [] (if ReducedIVEntropy account then remapToPrintable (G := G) (take 6 random) ++ drop 6 random else random) WS Hu)
    as (u' & -> & Hu'). by exists f', u'.
Qed.

Lemma header_written (account : MemoryAccount C) (request : RequestHeader (MemoryAccount C)) user a filter filter' (u u1 : W) iv random w' l :
  Headers.User request = Some user -> Headers.Account user = Some account -> Headers.RAddress request = Some a -> serializable a ->
  write_iv (G := G) account (ReducedIVEntropy account) (fun _ => NewError "failed to write IV") random (filter, u) = ((filter' : Datatypes.option B, u1), Ok iv) ->
  write_all ([push New (encode addrParser a (Headers.RPort request))] :: l) (NewEncryptionWriter (Cipher_ account) (Key account) iv u1) = (w', Ok tt) ->
  exists s w, WriteTCPRequest (G := G) request random (filter, u) = (s, Ok w) /\ write_all l w = (w', Ok tt).
Proof.
  intros Hu Ha Hr Hs Hiv Hw. unfold WriteTCPRequest, account_of_request, account_of. rewrite Hu. cbn [or_panic mbind res_bind]. rewrite Ha.
  cbn [or_panic]. rewrite Hiv. pose proof (encode_length addrParser a (Headers.RPort request) Hs) as Hle.
  pose proof (writes_push _ _ _ New (writes_AddressPort (W := Buf.Buffer) addrParser a (Headers.RPort request) (shadow_handles a (proj1 Hs)) Hs) New_wf) as Hh.
  rewrite New_room in Hh. specialize (Hh ltac:(lia)).
  replace ((a0 ← st_lift (or_panic (Headers.RAddress request)); WriteAddressPort addrParser a0 (Headers.RPort request)) New)
    with (push New (encode addrParser a (Headers.RPort request)), Ok tt : res unit)
    by (rewrite Hr; unfold mbind, st_bind, st_lift; cbn [or_panic]; by rewrite Hh).
  cbn [write_all] in Hw. destruct (write_mb _ _) as [w1 [[]|e|]]; [|done|done]. by eexists _, w1.
Qed.

Lemma header_sendable a port : serializable a -> sendable [push New (encode addrParser a port)].
Proof.
  intros Hs. pose proof (encode_length addrParser a port Hs). pose proof (zlen_nonneg (encode addrParser a port)).
  assert (Hpos : 0 < zlen (encode addrParser a port)).
  { unfold encode. change addrParser with (portLastAddressParser (parser_of addrParser)). cbv iota. rewrite zlen_app, zlen_put_be.
    match goal with |- 0 < zlen ?x + _ => pose proof (zlen_nonneg x) end. lia. }
  split; [constructor; [apply tidy_push; lia|constructor]|]. split; [done|]. rewrite mb_content_one, push_content, New_content by apply New_wf.
  cbn [app]. lia.
Qed.

(** The server's side of a session whose bytes are [iv ++ wire]. *)
Lemma ReadTCPSession_spec (account : MemoryAccount C) user a port iv d wire (filter : Datatypes.option B) (rand : G) br :
  Headers.Account user = Some account -> cipher_ok (Cipher_ account) -> zlen iv = IVSize (Cipher_ account) ->
  serializable a -> is_u16 port -> (CheckIV iv filter).2 = Ok tt ->
  conveys (Cipher_ account) (Key account) iv (encode addrParser a port ++ d) wire -> reader_wf br -> reader_content br = iv ++ wire ->
  exists s body, ReadTCPSession user rand (filter, br) = (s, Ok (new_request user Headers.RequestCommandTCP a port, body)) /\
    rd_wf body /\ rd_content body = d /\ rd_end body = link_end (source br).
Proof.
  intros Hu Hc Hiv Hs Hp Hf Hv Hwf Hbr. unfold ReadTCPSession, account_of. rewrite Hu. cbn [or_panic].
  assert (Hread : exists buffer br', (if 0 <? IVSize (Cipher_ account) then ReadFullFrom (IVSize (Cipher_ account)) (New, br) else ((New, br), Ok 0)) =
    ((buffer, br'), Ok (zlen iv)) /\ (if 0 <? IVSize (Cipher_ account) then BytesTo buffer (IVSize (Cipher_ account)) else Ok []) = Ok iv /\
    fresh (Clear buffer) /\ reader_wf br' /\ link_end (source br') = link_end (source br) /\ reader_content br' = wire).
  { rewrite <- Hiv. assert (Hle : zlen iv <= 32) by (destruct (Cipher_ account); cbn in Hc, Hiv; lia). pose proof (zlen_nonneg iv) as H0'.
    destruct (0 <? zlen iv) eqn:E.
    - destruct (ReadFullFrom_exact New br iv wire New_wf ltac:(rewrite New_room; lia) Hwf Hbr) as (br' & -> & Hwf' & He & Hc').
      destruct (fresh_push New fresh_New iv ltac:(lia)) as (Hpw & Hpc & _). exists (push New iv), br'. split; [done|].
      split; [rewrite BytesTo_wf by (done || rewrite Hpc; lia); rewrite Hpc; f_equal; unfold zlen; apply take_ge; lia|].
      split; [apply fresh_again; [apply fresh_New|lia]|done].
    - assert (iv = []) as -> by (destruct iv; [done|rewrite zlen_cons in E; pose proof (zlen_nonneg iv); lia]).
      exists New, br. done. }
  destruct Hread as (buffer & br' & -> & -> & Hfr & Hwf' & He & Hc').
  destruct (body_read (Cipher_ account) (Key account) iv br' _ wire Hv Hwf' Hc') as (Hsw & Hsc & Hse).
  set (br0 := {| source := NewDecryptionReader (Cipher_ account) (Key account) iv br'; Buffer := [] |}).
  assert (Hw0 : rd_wf br0) by (split; [apply tidy_mb_nil|done]).
  assert (Hc0 : rd_content br0 = encode addrParser a port ++ d) by exact Hsc.
  pose proof (encode_length addrParser a port Hs) as Hle.
  destruct (reads_AddressPort_with (R := BufferedReader (Body C)) addrParser a port (shadow_handles a (proj1 Hs)) Hs Hp (Clear buffer) br0 d) as (r' & -> & Hwr & Her & Hcr);
    [by apply fresh_wf|rewrite fresh_room by done; lia|done|done|].
  destruct (CheckIV iv filter) as [filter' x]. cbn [snd] in Hf. subst x. eexists _, r'. split; [done|]. split; [done|]. split; [done|].
  rewrite Her. change (rd_end br0) with (source_end (NewDecryptionReader (Cipher_ account) (Key account) iv br')). by rewrite Hse.
Qed.

(** C14. A Shadowsocks session arrives, over a connection that takes and delivers what
    is written: client and server hold an account made from one configuration, whose
    cipher opens what it seals with a tag of 16 bytes and nonces of 12; the client asks
    for an address that survives the wire and a 16-bit port and writes MultiBuffers that
    are not empty, of buffers of 1 to 2048 bytes and of at most 512 KB each; the random
    bytes are as many as the IV needs, and neither side has seen the IV before.  Then
    the server reads from the connection, however it was cut, that address, and behind
    it exactly the bytes the client wrote, until the connection ends. *)
Theorem tcp_session_delivers conf account filter0 (user user' : MemoryUser (MemoryAccount C)) (request : RequestHeader (MemoryAccount C))
    a random l (u : W) (client server : Datatypes.option B) (rand : G)
    (Hconf : AsAccount conf = Ok (account, filter0))
    (Hreq : Headers.User request = Some user /\ Headers.RAddress request = Some a /\ is_u16 (Headers.RPort request))
    (Hacc : Headers.Account user = Some account /\ Headers.Account user' = Some account) (Hs : serializable a)
    (Hrnd : zlen random = IVSize (Cipher_ account)) (Hu : taken u []) (Hl : Forall sendable l)
    (Hiv : (CheckIV (session_iv account random) client).2 = Ok tt /\ (CheckIV (session_iv account random) server).2 = Ok tt) :
  exists s w w' sent, WriteTCPRequest (G := G) request random (client, u) = (s, Ok w) /\ write_all l w = (w', Ok tt) /\ taken (into w') sent /\
    forall br, reader_wf br -> reader_content br = sent ->
      exists s' body, ReadTCPSession user' rand (server, br) =
          (s', Ok (new_request user' Headers.RequestCommandTCP a (Headers.RPort request), body)) /\
        rd_wf body /\ rd_content body = concat (map mb_content l) /\ rd_end body = link_end (source br).
Proof.
  destruct Hreq as (Huser & Haddr & Hport), Hacc as [Ha Ha'], Hiv as [Hivc Hivs].
  assert (Hc : cipher_ok (Cipher_ account)).
  { unfold AsAccount in Hconf. destruct (getCipher (CipherType_ conf)) as [c|e|] eqn:E; [|done|done]. injection Hconf as <- _. by eapply getCipher_ok. }
  destruct (write_iv_spec account client (fun _ => NewError "failed to write IV") random u Hc Hrnd Hu Hivc) as (f' & u1 & Hiv & Hu1).
  destruct (body_written (Cipher_ account) (Key account) (session_iv account random) u1 _
    ([push New (encode addrParser a (Headers.RPort request))] :: l) Hc Hu1) as (w' & wire & Hw & Ht & Hv); [by constructor; [apply header_sendable|]|].
  destruct (header_written account request user a client f' u u1 _ random w' l Huser Ha Haddr Hs Hiv Hw) as (s & w & E1 & E2).
  exists s, w, w', (session_iv account random ++ wire). split; [done|]. split; [done|]. split; [done|]. intros br Hwf Hbr.
  apply (ReadTCPSession_spec account user' a (Headers.RPort request) (session_iv account random) _ wire server rand br); try done.
  - by apply session_iv_length.
  - cbn [map concat] in Hv. rewrite mb_content_one, push_content, New_content in Hv by apply New_wf. exact Hv.
Qed.
End Session.

(** ** Buffers changed in place *)
Lemma content_parts b pre mid post :
  v b = pre ++ mid ++ post -> zlen pre = start b -> zlen mid = end_ b - start b -> content b = mid.
Proof.
  intros Hv Hp Hm. unfold content, zlen in *. rewrite Hv. replace (Z.to_nat (start b)) with (length pre) by lia.
  replace (Z.to_nat (end_ b - start b)) with (length mid) by lia. by rewrite drop_app_length, take_app_length.
Qed.

Lemma copy_at_parts (pre mid post d : bytes) lo :
  (lo + length d <= length mid)%nat ->
  (copy_at (pre ++ mid ++ post) (length pre + lo) d).1 = pre ++ (take lo mid ++ d ++ drop (lo + length d) mid) ++ post.
Proof.
  intros Hl. unfold copy_at. cbn [fst]. rewrite !length_app. rewrite Nat.min_r by lia. rewrite (take_ge d) by lia.
  rewrite take_app_add, <- Nat.add_assoc, drop_app_add. rewrite (take_app_le mid) by lia. rewrite (drop_app_le mid) by lia.
  by rewrite <- !app_assoc.
Qed.

Lemma poke_content b lo d :
  buf_wf b -> 0 <= lo -> start b + lo + zlen d <= end_ b ->
  let b' := poke b (i32 (start b + lo), end_ b) d in
  buf_wf b' /\ content b' = take (Z.to_nat lo) (content b) ++ d ++ drop (Z.to_nat (lo + zlen d)) (content b) /\
  start b' = start b /\ end_ b' = end_ b.
Proof.
  intros Hb Hlo Hle b'. pose proof (zlen_nonneg d) as Hd. pose proof (zlen_content b Hb) as Hz. unfold buf_wf in Hb.
  set (pre := take (Z.to_nat (start b)) (v b)). set (post := drop (Z.to_nat (end_ b)) (v b)).
  assert (Hpre : zlen pre = start b) by (unfold pre, zlen in *; rewrite length_take; lia).
  assert (Hv : v b = pre ++ content b ++ post).
  { unfold content, post, pre. rewrite <- (take_drop (Z.to_nat (start b)) (v b)) at 1. f_equal.
    rewrite <- (take_drop (Z.to_nat (end_ b - start b)) (drop _ _)) at 1. f_equal. rewrite drop_drop. f_equal. lia. }
  assert (Hv' : v b' = pre ++ (take (Z.to_nat lo) (content b) ++ d ++ drop (Z.to_nat (lo + zlen d)) (content b)) ++ post).
  { unfold b', poke. rewrite i32_small by lia. cbn [v fst snd]. rewrite (take_ge d) by (unfold zlen in *; lia). rewrite Hv at 1.
    replace (Z.to_nat (start b + lo)) with (length pre + Z.to_nat lo)%nat by (unfold zlen in *; lia).
    replace (Z.to_nat (lo + zlen d)) with (Z.to_nat lo + length d)%nat by (unfold zlen; lia).
    apply copy_at_parts. unfold zlen in *. lia. }
  assert (Hm : zlen (take (Z.to_nat lo) (content b) ++ d ++ drop (Z.to_nat (lo + zlen d)) (content b)) = end_ b - start b).
  { unfold zlen in *. rewrite !length_app, length_take, length_drop. lia. }
  split; [|split; [by apply (content_parts b' pre _ post)|done]].
  assert (Hl : zlen (v b') = zlen (v b)) by (rewrite Hv, Hv', !zlen_app in *; lia). unfold buf_wf. rewrite Hl. done.
Qed.

Lemma Resize_content b x y z :
  buf_wf b -> content b = x ++ y ++ z ->
  exists b', Resize b (zlen x) (i32 (zlen (x ++ y))) = Ok b' /\ buf_wf b' /\ content b' = y.
Proof.
  intros Hb Hc. pose proof (zlen_content b Hb) as Hz. rewrite Hc, !zlen_app in Hz. rewrite zlen_app.
  pose proof (zlen_nonneg x). pose proof (zlen_nonneg y). pose proof (zlen_nonneg z). unfold buf_wf in Hb.
  unfold Resize. rewrite (i32_small (zlen x + zlen y)) by lia. replace (zlen x <? 0) with false by lia.
  replace (zlen x + zlen y <? 0) with false by lia. replace (zlen x + zlen y <? zlen x) with false by lia.
  eexists. split; [done|]. unfold buf_wf. cbn [start end_ v]. rewrite !i32_small by lia. split; [lia|].
  unfold content in *. cbn [start end_ v].
  assert (Hy : take (length y) (drop (length x) (x ++ y ++ z)) = y) by (by rewrite drop_app_length, take_app_length).
  rewrite <- Hc, skipn_firstn_comm, take_take, drop_drop in Hy. unfold zlen in *.
  replace (Z.to_nat (start b + Z.of_nat (length x))) with (Z.to_nat (start b) + length x)%nat by lia.
  rewrite <- Hy at 2. f_equal. lia.
Qed.

Lemma SetByte_same b x d :
  buf_wf b -> content b = x :: d -> Byte b 0 = Ok x /\ exists b', SetByte b 0 x = Ok b' /\ buf_wf b' /\ content b' = x :: d.
Proof.
  intros Hb Hc. pose proof (zlen_content b Hb) as Hz. rewrite Hc, zlen_cons in Hz. pose proof (zlen_nonneg d).
  assert (Hx : v b !! Z.to_nat (start b) = Some x).
  { assert (E : content b !! 0%nat = Some x) by by rewrite Hc. unfold content in E.
    rewrite lookup_take_lt in E by lia. rewrite lookup_drop, Nat.add_0_r in E. done. }
  unfold buf_wf in Hb. unfold Byte, SetByte. rewrite Z.add_0_r, i32_small by lia. unfold index. replace (0 <=? start b) with true by lia.
  rewrite Hx. cbn [or_panic mbind res_bind]. split; [done|]. rewrite list_insert_id by done. destruct b as [v0 s0 e0 o0]. by eexists.
Qed.

(** ** Packets *)
Section Packets.
Context {C : Type} `{AeadCipher C} `{Primitives C} `{AO : !AeadOk C 16} `{CO : !CipherOk C}.

Definition overhead (c : Cipher C) : Z := match c with AEADCipher _ _ _ => 16 | NoneCipher => 0 end.

(** The packet [pkt] carries [plain] under [iv]. *)
Definition encodes (c : Cipher C) (key iv plain pkt : bytes) : Prop :=
  match c with
  | NoneCipher => pkt = plain
  | AEADCipher k _ create => exists ct, pkt = iv ++ ct /\ zlen ct = zlen plain + 16 /\
      (Open ct (createAuthenticator k create key iv)).2 = Ok plain
  end.

Lemma EncodePacket_spec c key b iv plain :
  cipher_ok c -> buf_wf b -> zlen (v b) = 2048 -> content b = iv ++ plain -> zlen iv = IVSize c ->
  if overhead c <=? room b then exists b', EncodePacket c key b = Ok b' /\ buf_wf b' /\ encodes c key iv plain (content b')
  else EncodePacket c key b = Panic.
Proof.
  intros Hc Hb Hv Hcb Hiv. pose proof (zlen_content b Hb) as Hz. pose proof (zlen_nonneg iv). pose proof (zlen_nonneg plain).
  rewrite Hcb, zlen_app in Hz. destruct c as [k n create|]; cbn [overhead EncodePacket IVSize] in *.
  2:{ assert (0 <= room b) by (unfold room, buf_wf in *; lia). replace (0 <=? room b) with true by lia. exists b.
      assert (iv = []) as -> by (destruct iv; [done|rewrite zlen_cons in Hiv; pose proof (zlen_nonneg iv); lia]). done. }
  rewrite (Len_wf b Hb), Hcb. rewrite BytesTo_wf by (done || rewrite Hcb, zlen_app; lia). rewrite Hcb.
  replace (take (Z.to_nat n) (iv ++ plain)) with iv by (rewrite take_app_length'; [done|unfold zlen in *; lia]). cbn [mbind res_bind].
  set (auth := createAuthenticator k create key iv). rewrite (aead_overhead (AEAD auth)). change (i32 16) with 16.
  unfold buf_wf in Hb. destruct (16 <=? room b) eqn:Er; unfold room in Er; unfold Extend; rewrite (i32_small (end_ b + 16)) by lia.
  2:{ by replace (zlen (v b) <? end_ b + 16) with true by lia. }
  replace (zlen (v b) <? end_ b + 16) with false by lia. rewrite slice_Some by lia. cbn [or_panic mbind res_bind].
  set (e := {| v := v b; start := start b; end_ := end_ b + 16; owner := owner b |}).
  assert (He : buf_wf e) by (unfold buf_wf, e; cbn [start end_ v]; lia).
  assert (Hce : exists tail, content e = iv ++ plain ++ tail /\ zlen tail = 16).
  { exists (take 16 (drop (Z.to_nat (end_ b)) (v b))). unfold zlen in *. rewrite length_take, length_drop. split; [|lia].
    rewrite app_assoc, <- Hcb. unfold content, e. cbn [start end_ v].
    replace (Z.to_nat (end_ b + 16 - start b)) with (Z.to_nat (end_ b - start b) + 16)%nat by lia.
    rewrite <- take_take_drop, drop_drop. do 3 f_equal. lia. }
  destruct Hce as (tail & Hce & Ht).
  rewrite BytesTo_wf by (done || rewrite Hce, zlen_app; pose proof (zlen_nonneg (plain ++ tail)); lia). cbn [mbind res_bind].
  rewrite BytesRange_wf by (done || rewrite ?Hce, ?zlen_app; lia). rewrite Hce, zlen_app. cbn [mbind res_bind].
  replace (Z.to_nat n) with (length iv) by (unfold zlen in *; lia). rewrite drop_app_length.
  replace (Z.to_nat (zlen iv + zlen plain - n)) with (length plain) by (unfold zlen in *; lia). rewrite take_app_length.
  destruct (in_step_seal auth auth plain (authenticator_in_step k n create key iv Hc)) as (w' & ct & r' & Es & Hzc & Eo & _).
  rewrite Es. cbn [snd mbind res_bind].
  destruct (poke_content e n ct He) as (Hw & Hcc & _ & _); [lia|unfold e; cbn [start end_]; lia|].
  eexists. split; [reflexivity|]. split; [exact Hw|]. exists ct. fold auth. rewrite Eo. split; [|by split].
  change (start b) with (start e). change (end_ b + 16) with (end_ e). rewrite Hcc, Hce.
  rewrite take_app_length' by (unfold zlen in *; lia). f_equal. rewrite drop_ge; [apply app_nil_r|].
  unfold zlen in *. rewrite !length_app. lia.
Qed.

Lemma DecodePacket_spec c key b iv plain :
  cipher_ok c -> buf_wf b -> zlen iv = IVSize c -> encodes c key iv plain (content b) ->
  exists b', DecodePacket c key b = Ok b' /\ buf_wf b' /\ content b' = plain.
Proof.
  intros Hc Hb Hiv He. destruct c as [k n create|]; cbn [DecodePacket IVSize encodes] in *; [|by exists b].
  destruct He as (ct & Hcb & Hz & Ho). pose proof (zlen_nonneg iv). pose proof (zlen_nonneg plain).
  rewrite (Len_wf b Hb), Hcb, zlen_app. replace (zlen iv + zlen ct <=? n) with false by lia.
  rewrite BytesTo_wf by (done || rewrite Hcb, zlen_app; lia). rewrite Hcb.
  rewrite take_app_length' by (unfold zlen in *; lia). cbn [mbind res_bind].
  rewrite BytesRange_wf by (done || rewrite ?Hcb, ?zlen_app; lia). rewrite Hcb. cbn [mbind res_bind].
  replace (Z.to_nat n) with (length iv) by (unfold zlen in *; lia). rewrite drop_app_length.
  rewrite take_ge by (unfold zlen in *; lia). rewrite Ho. cbn [mbind res_bind].
  pose proof (zlen_content b Hb) as Hzb. rewrite Hcb, zlen_app in Hzb.
  destruct (poke_content b n plain Hb) as (Hw & Hcc & _ & _); [lia|lia|].
  rewrite Hcb, take_app_length' in Hcc by (unfold zlen in *; lia).
  destruct (Resize_content _ iv plain _ Hw Hcc) as (b' & E & Hb' & Hc'). rewrite Hiv in E. by exists b'.
Qed.
End Packets.

(** ** UDP packets *)
Section Udp.
Context {B C : Type} `{Ring B} `{AeadCipher C} `{Primitives C} `{AO : !AeadOk C 16} `{CO : !CipherOk C}.

Abbreviation Request := (RequestHeader (MemoryAccount C)).

(** The packet before it is sealed: what does not fit is left out. *)
Lemma packet_written n a port random payload :
  serializable a -> zlen random = n -> n <= 32 ->
  let hdr := encode addrParser a port in
  let kept := take (Z.to_nat (2048 - n - zlen hdr)) payload in
  exists b, (_ ← (if 0 <? n then _ ← Buf.Write random; mret tt else mret tt : ST Buf.Buffer unit);
             a ← st_lift (or_panic (Some a));
             _ ← st_base "failed to write address" (WriteAddressPort addrParser a port);
             _ ← Buf.Write payload;
             mret tt) New = (b, Ok tt) /\
    buf_wf b /\ zlen (v b) = 2048 /\ content b = random ++ hdr ++ kept /\ room b = 2048 - n - zlen hdr - zlen kept.
Proof.
  intros Hs Hr Hn hdr kept. pose proof (encode_length addrParser a port Hs) as Hh. fold hdr in Hh. pose proof (zlen_nonneg random). pose proof (zlen_nonneg hdr).
  assert (Hfirst : (if 0 <? n then _ ← Buf.Write random; mret tt else mret tt : ST Buf.Buffer unit) New = (push New random, Ok tt)).
  { destruct (0 <? n) eqn:En.
    - unfold mbind, st_bind. rewrite Write_fits by (apply New_wf || rewrite New_room; lia). done.
    - assert (random = []) as -> by (destruct random as [|x l]; [done|rewrite zlen_cons in *; pose proof (zlen_nonneg l); lia]).
      by rewrite push_nil by apply New_wf. }
  destruct (fresh_push New fresh_New random ltac:(lia)) as (H1w & H1c & H1r).
  pose proof (writes_push _ _ _ (push New random) (writes_AddressPort (W := Buf.Buffer) addrParser a port (shadow_handles a (proj1 Hs)) Hs) H1w ltac:(fold hdr; lia)) as Hw.
  fold hdr in Hw. set (b2 := push (push New random) hdr) in *.
  assert (Hb2 : buf_wf b2 /\ content b2 = random ++ hdr /\ room b2 = 2048 - n - zlen hdr /\ zlen (v b2) = 2048).
  { unfold b2. split; [apply push_wf; [done|lia]|]. split; [by rewrite push_content, H1c|]. split; [rewrite push_room by (done || lia); lia|].
    rewrite push_v_length by (done || lia). rewrite push_v_length; [done|apply New_wf|rewrite New_room; lia]. }
  destruct Hb2 as (H2w & H2c & H2r & H2v).
  assert (Hk : zlen kept <= room b2) by (rewrite H2r; unfold kept, zlen in *; rewrite length_take; lia).
  exists (push b2 kept). unfold mbind at 1, st_bind at 1. rewrite Hfirst. unfold mbind, st_bind, st_lift, st_base. cbn [or_panic]. rewrite Hw.
  rewrite (Write_spec b2 H2w), H2r. fold kept. split; [done|]. split; [by apply push_wf|]. split; [by rewrite push_v_length|].
  split; [by rewrite push_content, H2c, <- app_assoc|]. rewrite push_room by done. lia.
Qed.

(** The first byte of an address keeps its low bits. *)
Lemma address_first a port : serializable a -> exists x d, encode addrParser a port = x :: d /\ z2b (Z.land (b2z x) 15) = x.
Proof.
  intros [Ha _]. unfold encode. change addrParser with (portLastAddressParser (parser_of addrParser)). cbv iota. cbn [parser_of].
  destruct a; cbn [encode_address app]; (eexists _, _; split; [reflexivity|vm_compute; reflexivity]).
Qed.

Lemma DecodeUDPPacket_spec (account : MemoryAccount C) user a port iv payload b :
  Headers.Account user = Some account -> cipher_ok (Cipher_ account) -> zlen iv = IVSize (Cipher_ account) -> serializable a -> is_u16 port ->
  buf_wf b -> encodes (Cipher_ account) (Key account) iv (encode addrParser a port ++ payload) (content b) ->
  exists b', DecodeUDPPacket user b = Ok (new_request user Headers.RequestCommandUDP a port, b') /\ buf_wf b' /\ content b' = payload.
Proof.
  intros Hu Hc Hiv Hs Hp Hb He. unfold DecodeUDPPacket, account_of. rewrite Hu. cbn [or_panic mbind res_bind].
  destruct (DecodePacket_spec _ _ b iv _ Hc Hb Hiv He) as (b1 & -> & Hb1 & Hc1).
  destruct (address_first a port Hs) as (x & d & Hx & Hland).
  destruct (SetByte_same b1 x (d ++ payload) Hb1) as (-> & b2 & E & Hb2 & Hc2); [by rewrite Hc1, Hx|]. cbn [mbind res_bind].
  rewrite Hland, E. cbn [mbind res_bind].
  pose proof (ReadAddressPort_spec addrParser a port b2 payload (shadow_handles a (proj1 Hs)) Hs Hp) as Hread. specialize (Hread Hb2).
  destruct Hread as (b3 & -> & Hb3 & _ & Hc3); [change (content b2 = encode addrParser a port ++ payload); by rewrite Hc2, Hx|]. by exists b3.
Qed.

(** A UDP packet of Shadowsocks that fits into a buffer with its IV, its
    address and its tag comes out as it went in: same address, same payload,
    wherever the receiver's buffer holds it.  One that does not fit is not
    refused: with an AEAD the program panics, without a cipher the payload is
    cut. *)
Theorem udp_packet_fits_or_breaks conf account filter (user user' : MemoryUser (MemoryAccount C)) (request : Request) a random payload
    (Hconf : AsAccount conf = Ok (account, filter : Datatypes.option B))
    (Hreq : Headers.User request = Some user /\ Headers.RAddress request = Some a /\ is_u16 (Headers.RPort request))
    (Hacc : Headers.Account user = Some account /\ Headers.Account user' = Some account)
    (Hs : serializable a) (Hrnd : zlen random = IVSize (Cipher_ account)) :
  let hdr := encode addrParser a (Headers.RPort request) in
  let delivers kept := exists b, EncodeUDPPacket request random payload = Ok b /\
    forall b', buf_wf b' -> content b' = content b ->
      exists b'', DecodeUDPPacket user' b' = Ok (new_request user' Headers.RequestCommandUDP a (Headers.RPort request), b'') /\
        content b'' = kept in
  if IVSize (Cipher_ account) + zlen hdr + zlen payload + overhead (Cipher_ account) <=? 2048 then delivers payload
  else if IsAEAD (Cipher_ account) then EncodeUDPPacket request random payload = Panic
  else delivers (take (Z.to_nat (2048 - zlen hdr)) payload).
Proof.
  intros hdr delivers. destruct Hreq as (Hu & Ha & Hp), Hacc as [Hacc Hacc'].
  assert (Hc : cipher_ok (Cipher_ account)).
  { unfold AsAccount in Hconf. destruct (getCipher (CipherType_ conf)) as [c|e|] eqn:E; [|done|done]. injection Hconf as <- _. by eapply getCipher_ok. }
  assert (Hn : IVSize (Cipher_ account) <= 32) by (destruct (Cipher_ account); cbn in *; lia).
  destruct (packet_written (IVSize (Cipher_ account)) a (Headers.RPort request) random payload Hs Hrnd Hn) as (b & Hst & Hb & Hv & Hcb & Hroom).
  fold hdr in Hst, Hcb, Hroom. set (kept := take (Z.to_nat (2048 - IVSize (Cipher_ account) - zlen hdr)) payload) in *.
  pose proof (EncodePacket_spec (Cipher_ account) (Key account) b random (hdr ++ kept) Hc Hb Hv Hcb Hrnd) as He.
  assert (Henc : EncodeUDPPacket request random payload =
    match EncodePacket (Cipher_ account) (Key account) b with Err e => Err (Based "failed to encrypt UDP payload" e) | x => x end).
  { unfold EncodeUDPPacket, account_of_request, account_of. rewrite Hu, Ha. cbn [or_panic mbind res_bind]. rewrite Hacc. cbn [or_panic] in Hst |- *.
    change (Ok account ≫= ?f) with (f account). cbv beta zeta. by rewrite Hst. }
  pose proof (zlen_nonneg kept) as Hk0. pose proof (zlen_nonneg random). pose proof (encode_length addrParser a (Headers.RPort request) Hs) as Hle. fold hdr in Hle.
  assert (Hkl : zlen kept = Z.min (2048 - IVSize (Cipher_ account) - zlen hdr) (zlen payload)) by (unfold kept, zlen in *; rewrite length_take; lia).
  assert (Hdel : overhead (Cipher_ account) <= room b -> delivers kept).
  { intros Hov. replace (_ <=? room b) with true in He by lia. destruct He as (b1 & E & Hb1 & Hen). exists b1. rewrite Henc, E. split; [done|].
    intros b' Hb' Hcb'. rewrite <- Hcb' in Hen.
    destruct (DecodeUDPPacket_spec account user' a _ random kept b' Hacc' Hc Hrnd Hs Hp Hb' Hen) as (b2 & ? & _ & ?). by exists b2. }
  assert (Hov0 : 0 <= overhead (Cipher_ account)) by (destruct (Cipher_ account); cbn; lia).
  destruct (_ <=? 2048) eqn:Efit.
  - assert (Hkp : kept = payload) by (apply take_ge; unfold zlen in *; lia).
    assert (Hd : delivers kept) by (apply Hdel; lia). by rewrite Hkp in Hd.
  - destruct (Cipher_ account) as [k n create|] eqn:Ec; cbn [IsAEAD IVSize overhead] in *.
    + rewrite Henc. replace (16 <=? room b) with false in He by lia. by rewrite He.
    + unfold kept in Hdel, Hroom, Hkl. rewrite Z.sub_0_r in *. apply Hdel. lia.
Qed.
End Udp.

(** ** Connections without the key *)
Class RandOk (G : Type) `{Rand G} : Prop := intn_range n (g : G) : 0 < n -> 0 <= (Intn n g).2 < n.

Lemma roll_range {G} `{RandOk G} n (g : G) : 0 < n -> 0 <= (Roll n g).2 < n.
Proof. intros Hn. unfold Roll. destruct (n =? 1) eqn:E; [cbn; lia|]. by apply intn_range. Qed.

Section Probe.
Context {B G C : Type} `{Ring B} `{RandOk G} `{AeadCipher C} `{Primitives C} `{AO : !AeadOk C 16} `{CO : !CipherOk C}.

Lemma new_drainer_range (account : MemoryAccount C) (rand : G) :
  exists D, new_drainer account rand = BehaviorSeedLimitedDrainer D /\ 54 <= D <= 54 + 3265 + 63.
Proof.
  unfold new_drainer, NewBehaviorSeedLimitedDrainer. set (g := NewSource _).
  pose proof (roll_range 3266 g ltac:(lia)) as Hr1. destruct (Roll 3266 g) as [g1 base]. cbn [snd] in Hr1.
  pose proof (roll_range 64 g1 ltac:(lia)) as Hr2. destruct (Roll 64 g1) as [g2 mx]. cbn [snd] in Hr2.
  pose proof (roll_range (mx + 1) rand ltac:(lia)) as Hr3. destruct (Roll (mx + 1) rand) as [g3 rolled]. cbn [snd] in Hr3 |- *.
  eexists. split; [done|]. lia.
Qed.

(** What the server finds where it expects the size of the first chunk. *)
Definition refused (auth : AEADAuthenticator C) (d : bytes) : Prop := zlen d < 18 \/ exists e, (Open (take 18 d) auth).2 = Err e.

Lemma refused_read (auth : AEADAuthenticator C) (br : BufferedReader link) :
  reader_wf br -> refused auth (reader_content br) ->
  exists ar e, Auth.ReadMultiBuffer (NewAuthenticationReader auth br) = (ar, Err e) /\ reader_wf (r_reader ar) /\
    reader_content (r_reader ar) = drop 18 (reader_content br).
Proof.
  intros Hwf Hr. unfold Auth.ReadMultiBuffer, readInternal, readSize, mbind, st_bind. cbn [andb NewAuthenticationReader done_ hasSize r_auth r_reader].
  cbn [SizeBytes shared_framing]. unfold AEAD_SizeBytes. rewrite (aead_overhead (AEAD auth)). change (Z.to_nat (i32 (2 + 16))) with 18%nat.
  pose proof (ReadFull_spec br 18) as Hfull. specialize (Hfull Hwf). destruct Hfull as (br' & Hwf' & _ & Hc' & ->).
  change (rd_content br) with (reader_content br) in *. change (rd_content br') with (reader_content br') in Hc'.
  destruct (18 <=? length (reader_content br))%nat eqn:El.
  - destruct Hr as [Hr|[e Hr]]; [unfold zlen in Hr; lia|]. cbn [padding shared_framing Decode]. unfold AEAD_Decode.
    destruct (Open (take 18 (reader_content br)) auth) as [auth' x]. cbn [snd] in Hr. subst x. by eexists _, e.
  - by eexists _, _.
Qed.

(** Reading an address from a stream whose first chunk does not open. *)
Lemma refused_address auth (br : BufferedReader link) b :
  reader_wf br -> refused auth (reader_content br) -> fresh b ->
  exists b' br' e, ReadAddressPort_with addrParser (b, {| source := SealedBody (NewAuthenticationReader auth br); Buffer := [] |} : BufferedReader (Body C)) =
    ((b', br'), Err e) /\ Buf.Len (Some b') = 0 /\ reader_wf (under (source br')) /\ reader_content (under (source br')) = drop 18 (reader_content br).
Proof.
  intros Hwf Hr Hb. destruct (refused_read auth br Hwf Hr) as (ar & e & E & Hwa & Hca). pose proof (fresh_wf b Hb) as Hbw.
  destruct Hb as (Hs & He & Hv). change addrParser with (portLastAddressParser (parser_of addrParser)). unfold ReadAddressPort_with, readAddress.
  unfold mbind at 1, st_bind at 1. unfold mbind at 1, st_bind at 1. unfold ReadFullFrom at 1. rewrite He, Hv. change (i32 (0 + 1)) with 1.
  change (2048 <? 1) with false. cbv iota. rewrite slice_Some by lia.
  replace (length (take (Z.to_nat (1 - 0)) (drop (Z.to_nat 0) (v b)))) with 1%nat by (unfold zlen in Hv; rewrite length_take, length_drop; lia).
  unfold ReadFull. cbn [ReadAtLeast length Nat.leb Nat.sub]. cbn [rd buffered_reader]. unfold buffered_rd, BufReader.Read. cbn [BufReader.Buffer source MultiBuf.IsEmpty forallb negb].
  unfold read_mb at 1, body_reader at 1. unfold read_mb at 1, auth_reader at 1. rewrite E. cbn [app length Nat.leb]. rewrite decide_False by tauto.
  eexists _, _, e. split; [reflexivity|]. cbn [source under]. split; [|done].
  rewrite fill_push by (done || (rewrite zlen_nil; unfold room; lia)). rewrite push_nil by done. unfold Buf.Len. by rewrite Hs, He.
Qed.

(** C36. Who does not know the key learns nothing from when the server hangs up.  For an
    account with an AEAD cipher and a connection that ends before the salt is complete,
    before 18 bytes of the first chunk, or whose first 18 bytes behind the salt do not
    open under the key: reading the session fails and takes in all D + 18 bytes from the
    connection (or what it has), where D is between 54 and 3382 and depends on the
    account's key and one roll of the dice only, not on what was sent; and the replay
    filter is not told. *)
Theorem probe_is_drained (account : MemoryAccount C) (user : MemoryUser (MemoryAccount C)) k n create (filter : Datatypes.option B) (rand : G) br
    (Hu : Headers.Account user = Some account) (Hk : Cipher_ account = AEADCipher k n create) (Hc : cipher_ok (Cipher_ account)) (Hwf : reader_wf br)
    (Hr : zlen (reader_content br) < n \/
          refused (createAuthenticator k create (Key account) (take (Z.to_nat n) (reader_content br))) (drop (Z.to_nat n) (reader_content br))) :
  exists D br' e, new_drainer account rand = BehaviorSeedLimitedDrainer D /\ 54 <= D <= 54 + 3265 + 63 /\
    ReadTCPSession user rand (filter, br) = ((filter, br'), Err e) /\
    reader_content br' = drop (Z.to_nat (D + 18)) (reader_content br).
Proof.
  destruct (new_drainer_range account rand) as (D & HD & Hrange). rewrite Hk in Hc. destruct Hc as [Hn _].
  unfold ReadTCPSession, account_of. rewrite Hu. cbn [or_panic]. rewrite Hk, HD. cbn [IVSize]. replace (0 <? n) with true by lia.
  pose proof (ReadFullFrom_spec New New_wf br) as Hf. specialize (Hf Hwf n ltac:(rewrite New_room; lia)). destruct Hf as (br' & Hwf' & _ & Hc' & ->).
  change (rd_content br) with (reader_content br) in *. change (rd_content br') with (reader_content br') in *.
  set (c := reader_content br) in *. set (iv := take (Z.to_nat n) c) in *.
  assert (Hiv : zlen iv <= 32) by (unfold iv, zlen; rewrite length_take; lia). destruct (fresh_push New fresh_New iv ltac:(lia)) as (Hpw & Hpc & _).
  destruct (n <=? zlen c) eqn:Enc.
  - destruct Hr as [Hr|Hr]; [lia|]. assert (Hl : zlen iv = n) by (unfold iv, zlen in *; rewrite length_take; lia).
    rewrite BytesTo_wf by (done || rewrite Hpc; lia). rewrite Hpc.
    replace (take (Z.to_nat n) iv) with iv by (symmetry; apply take_ge; unfold zlen in Hl; lia).
    cbn [NewDecryptionReader]. rewrite <- Hc' in Hr.
    destruct (refused_address _ br' (Clear (push New iv)) Hwf' Hr) as (b' & br2 & e & -> & Hlen & Hw2 & Hc2); [apply fresh_again; [apply fresh_New|lia]|].
    rewrite Hlen, (Len_wf _ Hpw), Hpc, Hl. cbn [AcknowledgeReceive]. rewrite Z.sub_0_r.
    destruct (WithError_spec (D - n) (under (source br2)) (Based "failed to read address" e)) as (r3 & e3 & -> & _ & _ & Hc3); [exact Hw2|].
    exists D, r3, e3. split; [done|]. split; [lia|]. split; [done|]. change (rd_content r3) with (reader_content r3) in Hc3.
    change (rd_content (under (source br2))) with (reader_content (under (source br2))) in Hc3. rewrite Hc3, Hc2, Hc', !drop_drop. f_equal. lia.
  - destruct (WithError_spec (D - Buf.Len (Some (push New iv))) br' (Based "failed to read IV" (short_error c (rd_end br)))) as (r3 & e3 & E & _ & _ & Hc3); [exact Hwf'|].
    cbn [AcknowledgeReceive]. rewrite E. exists D, r3, e3. split; [done|]. split; [lia|]. split; [done|].
    change (rd_content r3) with (reader_content r3) in Hc3. change (rd_content br') with (reader_content br') in Hc3.
    rewrite Hc3, Hc'. rewrite (drop_ge c (Z.to_nat n)) by (unfold zlen in *; lia). rewrite drop_nil.
    symmetry. apply drop_ge. unfold zlen in *. lia.
Qed.
End Probe.

(** ** Where the code goes wrong *)

(** Without a cipher there is no IV, and the filter is asked about nothing: it
    refuses every session but the first. *)
Lemma none_cipher_second_session {B} `{Ring B} (f f' : Datatypes.option B) :
  (forall b, Test_ [] (Add [] b) = true) -> f <> None -> CheckIV [] f = (f', Ok tt) -> (CheckIV [] f').2 = Err (NewError "IV is not unique").
Proof.
  intros Hadd Hf. destruct f as [b|]; [|done]. unfold CheckIV, BloomRing_Check.
  destruct (Test_ [] b); [done|]. intros [= <-]. by rewrite Hadd.
Qed.

(** A packet whose source is a domain. *)
Lemma UDPReader_ReadFrom_domain {C R} `{Reader R} `{AeadCipher C} `{Primitives C} (user : MemoryUser (MemoryAccount C)) n (r r' : R) b k d port x :
  Buf.ReadFrom (New, r) = ((b, r'), Ok k) -> buf_wf x ->
  DecodeUDPPacket user b = Ok (new_request user Headers.RequestCommandUDP (domainAddress d) port, x) ->
  UDPReader_ReadFrom user n r = (r', Panic).
Proof.
  intros Hr Hx Hd. unfold UDPReader_ReadFrom. rewrite Hr, Hd. cbn [mbind res_bind]. by rewrite (Bytes_wf x Hx).
Qed.

(** ** Primitives to try it on: a tag that is the nonce, a filter that is a list *)
#[local] Instance tag_aead : AeadCipher unit := {|
  NonceSize _ := 12; aead_Overhead _ := 16;
  aead_Open _ nonce ct _ :=
    if decide (drop (length ct - 16) ct = take 16 (nonce ++ replicate 16 x00)) then Ok (take (length ct - 16) ct)
    else Err (NewError "message authentication failed");
  aead_Seal _ nonce d _ := Ok (d ++ take 16 (nonce ++ replicate 16 x00)) |}.

#[local] Instance tag_ok : AeadOk unit 16.
Proof.
  split; [lia|done|]. intros c nonce d ad Hn. cbn [NonceSize aead_Seal aead_Open tag_aead] in *. eexists. split; [done|].
  assert (Hl : length (take 16 (nonce ++ replicate 16 x00)) = 16%nat) by (rewrite length_take, length_app, length_replicate; lia).
  split; [unfold zlen in *; rewrite length_app, Hl; lia|]. rewrite length_app, Hl, Nat.add_sub.
  by rewrite drop_app_length, take_app_length, decide_True.
Qed.

#[local] Instance tag_primitives : Primitives unit := {|
  md5 d := take 16 (d ++ replicate 16 x00); hkdfSHA1 secret salt n := take (Z.to_nat n) (secret ++ salt);
  createAesGcm _ := tt; createChaCha20Poly1305 _ := tt; behaviorSeed _ := 7; crc32 _ := 9 |}.

#[local] Instance tag_cipher_ok : CipherOk unit.
Proof. done. Qed.

#[local] Instance counter_rand : Rand Z := {| NewSource seed := seed; Intn n g := (g + 1, g mod n) |}.

#[local] Instance counter_ok : RandOk Z.
Proof. intros n g Hn. by apply Z.mod_pos_bound. Qed.

#[local] Instance list_ring : Ring (list bytes) := {| NewRing := []; Test_ x l := bool_decide (x ∈ l); Add x l := x :: l |}.

(** A writer that appends to a list. *)
#[local] Instance log_mb : MbWriter bytes := fun mb w => (w ++ mb_content mb, Ok tt).
#[local] Instance log_writer : Writer bytes := fun d w => (w ++ d, Ok (zlen d)).
#[local] Instance log_sink : MbSink bytes.
Proof.
  refine {| taken w b := w = b; refuses _ := False |}; [|done]. intros w b mb -> _ _. by eexists.
Defined.
#[local] Instance log_bytes : WriterSink bytes log_writer.
Proof. intros w b d ->. by eexists. Qed.

Definition demo_conf : AccountConfig := mkConfig (lit "secret") AES_128_GCM true true.
Definition demo_account : MemoryAccount unit :=
  mkAccount (AEADCipher 16 16 createAesGcm) (passwordToCipherKey (lit "secret") 16) true.
Definition demo_user : MemoryUser (MemoryAccount unit) := Headers.mkUser (Some demo_account) (lit "user") 0.
Definition demo_addr : Address := ipv4Address (map z2b [1; 2; 3; 4]).
Definition demo_request : RequestHeader (MemoryAccount unit) := new_request demo_user Headers.RequestCommandTCP demo_addr 80.
Definition demo_random : bytes := replicate 16 x05.
Definition demo_body : list MultiBuffer := [[push New (lit "hello ")]; [push New (lit "world")]].
Definition demo_wire : bytes :=
  match WriteTCPRequest (G := Z) demo_request demo_random (Some ([] : list bytes), []) with
  | (_, Ok w) => into (write_all demo_body w).1
  | _ => []
  end.

Lemma demo_as_account : AsAccount demo_conf = Ok (demo_account, Some ([] : list bytes)).
Proof. vm_compute. reflexivity. Qed.
Lemma demo_port : is_u16 80.
Proof. lia. Qed.
Lemma demo_serializable : serializable demo_addr.
Proof. done. Qed.

Lemma tcp_session_delivers_witness :
  exists s body, ReadTCPSession demo_user 3 (Some ([] : list bytes), toy_reader demo_wire EOF) =
      (s, Ok (new_request demo_user Headers.RequestCommandTCP demo_addr 80, body)) /\
    rd_content body = lit "hello world" /\ rd_end body = EOF.
Proof.
  assert (Hl : Forall sendable demo_body).
  { repeat (constructor; [split; [constructor; [apply tidy_push; vm_compute; split; discriminate|constructor]|split; [discriminate|vm_compute; discriminate]]|]). constructor. }
  destruct (tcp_session_delivers demo_conf demo_account (Some ([] : list bytes)) demo_user demo_user demo_request demo_addr demo_random demo_body
    [] (Some []) (Some []) 3) as (s & w & w' & sent & E1 & E2 & E3 & Hread).
  - exact demo_as_account.
  - split; [reflexivity|split; [reflexivity|exact demo_port]].
  - split; reflexivity.
  - apply demo_serializable.
  - vm_compute. reflexivity.
  - reflexivity.
  - exact Hl.
  - split; vm_compute; reflexivity.
  - assert (Hs : demo_wire = sent) by (unfold demo_wire; rewrite E1, E2; exact E3).
    destruct (toy_reader_wf demo_wire EOF) as [Hwf Hc]; [vm_compute; split; discriminate|].
    destruct (Hread (toy_reader demo_wire EOF) Hwf) as (s' & body & E & _ & Hcb & He); [by rewrite Hc|].
    exists s', body. split; [exact E|]. split; [rewrite Hcb; vm_compute; reflexivity|exact He].
Defined.

Lemma udp_packet_fits_or_breaks_witness :
  (exists b b', EncodeUDPPacket demo_request demo_random (lit "query") = Ok b /\
     DecodeUDPPacket demo_user b = Ok (new_request demo_user Headers.RequestCommandUDP demo_addr 80, b') /\ content b' = lit "query") /\
  EncodeUDPPacket demo_request demo_random (replicate 2010 x00) = Panic.
Proof.
  assert (Hgo : forall payload, zlen demo_random = 16 -> _) by
    (intros payload Hr; exact (udp_packet_fits_or_breaks demo_conf demo_account (Some ([] : list bytes)) demo_user demo_user demo_request demo_addr
      demo_random payload demo_as_account (conj eq_refl (conj eq_refl demo_port)) (conj eq_refl eq_refl) demo_serializable Hr)).
  split.
  - specialize (Hgo (lit "query") eq_refl). cbv zeta in Hgo.
    match type of Hgo with if ?c then _ else _ => assert (E : c = true) by (vm_compute; reflexivity); rewrite E in Hgo; clear E end.
    destruct Hgo as (b & Eb & Hd). assert (Hb : buf_wf b).
    { assert (Hb : EncodeUDPPacket demo_request demo_random (lit "query") = Ok b) by exact Eb.
      assert (Hc : match EncodeUDPPacket demo_request demo_random (lit "query") with Ok b => bool_decide (buf_wf b) | _ => false end = true)
        by (vm_compute; reflexivity). rewrite Hb in Hc. apply bool_decide_eq_true in Hc. exact Hc. }
    destruct (Hd b Hb eq_refl) as (b' & Eb' & Hc'). exists b, b'. split; [exact Eb|split; [exact Eb'|exact Hc']].
  - specialize (Hgo (replicate 2010 x00) eq_refl). cbv zeta in Hgo.
    match type of Hgo with if ?c then _ else _ => assert (E : c = false) by (vm_compute; reflexivity); rewrite E in Hgo; clear E end.
    exact Hgo.
Defined.

Lemma probe_is_drained_witness :
  exists D br' e, new_drainer demo_account 3 = BehaviorSeedLimitedDrainer D /\ D = 64 /\
    ReadTCPSession demo_user 3 (Some ([] : list bytes), toy_reader (replicate 200 x41) EOF) = ((Some [], br'), Err e) /\
    reader_content br' = replicate 118 x41.
Proof.
  destruct (toy_reader_wf (replicate 200 x41) EOF) as [Hwf Hc]; [vm_compute; split; discriminate|].
  destruct (probe_is_drained demo_account demo_user 16 16 createAesGcm (Some ([] : list bytes)) 3 (toy_reader (replicate 200 x41) EOF) eq_refl eq_refl)
    as (D & br' & e & HD & _ & E & Hcb); [by split|exact Hwf| |].
  - right. rewrite Hc. right. vm_compute. by eexists.
  - exists D, br', e. split; [exact HD|]. assert (D = 64) as -> by (vm_compute in HD; congruence).
    split; [done|]. split; [exact E|]. rewrite Hcb, Hc. reflexivity.
Defined.
