(* ===== verification/Uuid.v ===== *)
(** * Packages common/uuid and common/protocol (id.go): identities

    [Module Uuid] models UUIDs with their text, and the identities of VMess and
    VLESS users with the keys derived from them.  MD5 is an argument. *)
From S2P Require Import Prelude GoStd GoText.

(** [hex.Decode] of an even number of digits. *)
Fixpoint hexDecode (src : bytes) : res bytes :=
  match src with
  | a :: b :: src =>
    match hex_digit (b2z a), hex_digit (b2z b) with
    | Some x, Some y => d ← hexDecode src; Ok (z2b (x * 16 + y) :: d)
    | _, _ => Err (NewError "encoding/hex: invalid byte")
    end
  | [_] => Err (NewError "encoding/hex: odd length hex string")
  | [] => Ok []
  end.

(** crypto/hmac over the hash [H], whose blocks are of 64 bytes. *)
Definition hmac (H : bytes -> bytes) (key message : bytes) : bytes :=
  let key := if 64 <? zlen key then H key else key in
  let key := key ++ replicate (64 - length key) x00 in
  let pad c := map (fun b => z2b (Z.lxor (b2z b) c)) key in
  H (pad 92 ++ H (pad 54 ++ message)).

Module Uuid.

(** ** uuid.go: sixteen bytes *)
Abbreviation UUID := bytes.

Definition byteGroups : list nat := [8; 4; 4; 4; 12]%nat.

Definition dash : byte := z2b 45.

Fixpoint groups_loop (groups : list nat) (u : bytes) : bytes :=
  match groups with
  | [] => []
  | g :: groups => dash :: hexString (take (g / 2) u) ++ groups_loop groups (drop (g / 2) u)
  end.

Definition String (u : UUID) : bytes :=
  match byteGroups with
  | [] => []
  | g :: groups => hexString (take (g / 2) u) ++ groups_loop groups (drop (g / 2) u)
  end.

(** [None] is a nil pointer. *)
Definition Equals (u another : option UUID) : bool :=
  match u, another with
  | None, None => true
  | Some u, Some another => bool_decide (u = another)
  | _, _ => false
  end.

Definition ParseBytes (b : bytes) : res UUID :=
  if zlen b =? 16 then Ok b else Err (NewError "invalid UUID: ").

(** The loop of [ParseString].  [text] is a slice: behind its end are [spare] more
    bytes of its array, zero. *)
Fixpoint parse_groups (spare : nat) (groups : list nat) (text : bytes) : res UUID :=
  match groups with
  | [] => Ok []
  | byteGroup :: groups =>
    first ← or_panic (index text 0);
    text ← (if bool_decide (first = dash) then from text 1 else Ok text);
    digits ← or_panic (slice (text ++ replicate spare x00) 0 (Z.of_nat byteGroup));
    b ← hexDecode digits;
    text ← from text (Z.of_nat byteGroup);
    rest ← parse_groups spare groups text;
    Ok (b ++ rest)
  end.

(** [spare] depends on how the run-time system rounds allocations: none for 32
    bytes, for instance. *)
Definition ParseString (spare : nat) (str : bytes) : res UUID :=
  if zlen str <? 32 then Err (NewError "invalid UUID: ")
  else parse_groups spare byteGroups str.

(** ** id.go *)
Definition IDBytesLen : Z := 16.

Record ID := mkID { uuid : UUID; cmdKey : bytes }.
#[export] Instance ID_eq_dec : EqDecision ID.
Proof. solve_decision. Defined.

Definition ID_Equals (id another : ID) : bool := Equals (Some (uuid id)) (Some (uuid another)).

Section Derived.
Variable md5 : bytes -> bytes.

(** [DefaultIDHash(key)] on what is written to it. *)
Definition DefaultIDHash (key : bytes) : bytes -> bytes := hmac md5 key.

Definition NewID (u : UUID) : ID :=
  {| uuid := u; cmdKey := md5 (u ++ lit "c48619fe-8f02-49e0-b9e9-edf763e17e21") |}.

(** The loop of [nextID]: [written] is what the hash has been given. *)
Fixpoint nextID_loop (fuel : nat) (u written : bytes) : option UUID :=
  match fuel with
  | O => None
  | S fuel =>
    let newid := md5 written in
    if bool_decide (newid = u) then nextID_loop fuel u (written ++ lit "533eff8a-4113-4b10-b5ce-0f5d76b98cd2")
    else Some newid
  end.

Definition nextID (fuel : nat) (u : UUID) : option UUID :=
  nextID_loop fuel u (u ++ lit "16167dc8-16b6-4e6d-b8bb-65dd68113a81").

Fixpoint alter_loop (fuel : nat) (n : nat) (prevID : UUID) : option (list ID) :=
  match n with
  | O => Some []
  | S n =>
    match nextID fuel prevID with
    | Some newid => ids ← alter_loop fuel n newid; Some (NewID newid :: ids)
    | None => None
    end
  end.

Definition NewAlterIDs (fuel : nat) (primary : ID) (alterIDCount : Z) : option (list ID) :=
  alter_loop fuel (Z.to_nat alterIDCount) (uuid primary).
End Derived.
End Uuid.
Import Uuid.

(** ** Texts *)
Lemma hex_digit_hexDigit x : 0 <= x < 16 -> hex_digit (b2z (hexDigit x)) = Some x.
Proof.
  intros Hx. unfold hexDigit, hex_digit, between. destruct (x <? 10) eqn:E; rewrite !z2b_small by lia.
  - replace ((48 <=? 48 + x) && (48 + x <=? 57)) with true by lia. f_equal. lia.
  - replace ((48 <=? 87 + x) && (87 + x <=? 57)) with false by lia.
    replace ((97 <=? 87 + x) && (87 + x <=? 102)) with true by lia. f_equal. lia.
Qed.

Lemma nibbles b : 0 <= b2z b / 16 < 16 /\ 0 <= b2z b mod 16 < 16 /\ b2z b / 16 * 16 + b2z b mod 16 = b2z b.
Proof.
  pose proof (b2z_range b). pose proof (Z.mod_pos_bound (b2z b) 16). pose proof (Z.div_mod (b2z b) 16).
  split; [split; [apply Z.div_pos|apply Z.div_lt_upper_bound]; lia|]. split; lia.
Qed.

Lemma hexDecode_hexString d : hexDecode (hexString d) = Ok d.
Proof.
  induction d as [|b d IH]; [done|]. cbn [hexString hexByte app hexDecode]. destruct (nibbles b) as (Hh & Hl & Hb).
  rewrite !hex_digit_hexDigit by lia. rewrite IH. cbn [mbind res_bind]. do 2 f_equal.
  apply b2z_inj. rewrite Hb. apply z2b_small, b2z_range.
Qed.

Lemma hexDigit_not_dash x : 0 <= x < 16 -> hexDigit x <> dash.
Proof.
  intros Hx E. apply (f_equal b2z) in E. unfold hexDigit, dash in E. revert E.
  destruct (x <? 10) eqn:?; rewrite !z2b_small by lia; lia.
Qed.

Lemma index_head {A} (x : A) l : index (x :: l) 0 = Some x.
Proof. done. Qed.

(** One group of digits, perhaps with its dash. *)
Lemma parse_group spare g groups (d rest : bytes) (pre : bytes) :
  g = (2 * length d)%nat -> d <> [] -> pre = [] \/ pre = [dash] ->
  parse_groups spare (g :: groups) (pre ++ hexString d ++ rest) =
  (r ← parse_groups spare groups rest; Ok (d ++ r)).
Proof.
  intros Hg Hd Hpre. cbn [parse_groups].
  assert (Hl : length (hexString d) = g) by (rewrite length_hexString; lia).
  assert (Hstep : (first ← or_panic (index (pre ++ hexString d ++ rest) 0);
    (if bool_decide (first = dash) then from (pre ++ hexString d ++ rest) 1 else Ok (pre ++ hexString d ++ rest))) = Ok (hexString d ++ rest)).
  { destruct Hpre as [-> | ->].
    - destruct d as [|b d]; [done|]. cbn [app hexString hexByte]. rewrite index_head.
      cbn [or_panic mbind res_bind]. rewrite bool_decide_false by (apply hexDigit_not_dash, nibbles). done.
    - cbn [app]. rewrite index_head. cbn [or_panic mbind res_bind].
      rewrite bool_decide_true by done. by apply (from_app [dash]). }
  destruct (or_panic (index (pre ++ hexString d ++ rest) 0)) as [first|e|]; cbn [mbind res_bind] in Hstep |- *; [|done..].
  rewrite Hstep. cbn [mbind res_bind]. rewrite <- app_assoc. rewrite slice_Some by (unfold zlen; rewrite ?length_app; lia).
  rewrite Z.sub_0_r. change (Z.to_nat 0) with 0%nat. rewrite drop_0, Nat2Z.id, <- Hl, take_app_length. cbn [or_panic mbind res_bind].
  rewrite hexDecode_hexString. cbn [mbind res_bind]. change (Z.of_nat (length (hexString d))) with (zlen (hexString d)). by rewrite from_app by done.
Qed.

Lemma groups_spec spare groups u rest :
  Forall (fun g => Nat.Even g /\ g <> O) groups -> sum_list groups = (2 * length u)%nat ->
  parse_groups spare groups (groups_loop groups u ++ rest) = Ok u.
Proof.
  intros Hg. revert u. induction Hg as [|g groups [[k Hk] Hne] Hg IH]; intros u Hu; cbn [sum_list_with sum_list] in Hu; try change (id g) with g in Hu.
  - destruct u; [done|cbn in Hu; lia].
  - assert (Hh : (g / 2)%nat = k) by (rewrite Hk, Nat.mul_comm; by apply Nat.div_mul). cbn [groups_loop]. rewrite Hh.
    cbn [app]. change (dash :: ?x) with ([dash] ++ x). rewrite <- app_assoc.
    assert (Hl : length (take k u) = k) by (rewrite length_take; lia).
    rewrite parse_group; [|lia|intros E; rewrite E in Hl; cbn in Hl; lia|by right].
    rewrite IH by (rewrite length_drop; lia). cbn [mbind res_bind]. by rewrite take_drop.
Qed.

(** The text of a UUID stands for it, whatever follows the text. *)
Lemma ParseString_String spare u rest : length u = 16%nat -> ParseString spare (String u ++ rest) = Ok u.
Proof.
  intros Hu. unfold ParseString, String, byteGroups.
  replace (zlen _ <? 32) with false by (unfold zlen; cbn [groups_loop]; repeat (rewrite length_app || rewrite length_cons || rewrite length_hexString || rewrite length_take || rewrite length_drop); rewrite Hu; cbn; lia).
  rewrite <- app_assoc. change (8 / 2)%nat with 4%nat. assert (Hl : length (take 4 u) = 4%nat) by (rewrite length_take; lia).
  pose proof (parse_group spare 8 [4; 4; 4; 12]%nat (take 4 u) (groups_loop [4; 4; 4; 12]%nat (drop 4 u) ++ rest) []) as Hp.
  cbn [app] in Hp. rewrite Hp; [clear Hp|lia|intros E; rewrite E in Hl; done|by left].
  rewrite groups_spec; [cbn [mbind res_bind]; by rewrite take_drop| |rewrite length_drop; cbn; lia].
  repeat constructor; try done; [exists 2%nat|exists 2%nat|exists 2%nat|exists 6%nat]; done.
Qed.

(** Thirty-two characters with dashes are taken for hexadecimal digits until the
    last group, which is short: without spare bytes, a run-time panic. *)
Lemma ParseString_short_panics : ParseString 0 (lit "00000000-0000-0000-0000-00000000") = Panic.
Proof. vm_compute. reflexivity. Qed.

(** From 36 characters on there is no panic. *)
Lemma hexDecode_safe d : hexDecode d <> Panic.
Proof.
  assert (Hn : forall n d, (length d <= n)%nat -> hexDecode d <> Panic); [|by apply (Hn (length d))].
  clear d. induction n as [|n IH]; intros [|a [|b d]] Hl; cbn in Hl; try done; try lia.
  cbn [hexDecode]. destruct (hex_digit (b2z a)), (hex_digit (b2z b)); try done.
  specialize (IH d ltac:(lia)). by destruct (hexDecode d).
Qed.

Lemma parse_groups_safe spare groups text :
  (sum_list groups + length groups <= length text)%nat -> parse_groups spare groups text <> Panic.
Proof.
  revert text. induction groups as [|g groups IH]; intros text Hl; [done|]. cbn [parse_groups]. cbn [sum_list_with length] in Hl. change (id g) with g in Hl.
  destruct text as [|x text]; [cbn in Hl; lia|]. rewrite index_head. cbn [or_panic mbind res_bind]. cbn [length] in Hl.
  assert (exists text', (if bool_decide (x = dash) then from (x :: text) 1 else Ok (x :: text)) = Ok text' /\
    (g + sum_list groups + length groups <= length text')%nat) as (text' & -> & Hl').
  { case_bool_decide; [exists text; split; [by apply (from_app [x])|lia]|exists (x :: text); split; [done|cbn [length]; lia]]. }
  cbn [mbind res_bind]. rewrite slice_Some by (unfold zlen; rewrite ?length_app; lia). cbn [or_panic mbind res_bind].
  pose proof (hexDecode_safe (take (Z.to_nat (Z.of_nat g - 0)) (drop (Z.to_nat 0) (text' ++ replicate spare x00)))) as Hd.
  destruct (hexDecode _) as [b|e|]; [|done|done]. cbn [mbind res_bind].
  replace text' with (take g text' ++ drop g text') by apply take_drop.
  assert (Hg : Z.of_nat g = zlen (take g text')) by (unfold zlen; rewrite length_take; lia).
  rewrite Hg, from_app by done. cbn [mbind res_bind].
  specialize (IH (drop g text') ltac:(rewrite length_drop; lia)). by destruct (parse_groups _ _ _).
Qed.

Lemma ParseString_safe spare str : 36 < zlen str -> ParseString spare str <> Panic.
Proof.
  intros Hl. unfold ParseString. destruct (_ <? _); [done|]. apply parse_groups_safe. unfold zlen in Hl. cbn. lia.
Qed.

(** ** Alternative identities: enough turns give all of them *)
Lemma NewAlterIDs_all md5 fuel primary n :
  (forall u w, is_Some (nextID_loop md5 fuel u w)) -> 0 <= n ->
  exists ids, NewAlterIDs md5 fuel primary n = Some ids /\ zlen ids = n.
Proof.
  intros Hf Hn. unfold NewAlterIDs. generalize (uuid primary).
  rewrite <- (Z2Nat.id n) by done. rewrite Nat2Z.id. generalize (Z.to_nat n). clear Hn n. intros n. induction n as [|n IH]; intros u; [by exists []|]. cbn [alter_loop]. unfold nextID.
  destruct (Hf u (u ++ lit "16167dc8-16b6-4e6d-b8bb-65dd68113a81")) as [v ->].
  destruct (IH v) as (ids & -> & Hz). eexists. split; [done|]. unfold zlen in *. cbn [length]. lia.
Qed.
