(* ===== verification/Vless.v ===== *)
(** * Package proxy/vless: accounts, the table of users and the protocol

    [Module Vless] models account.go and validator.go, and of package encoding the
    headers of requests and responses and the packets of UDP (encoding.go,
    addons.go); [Module VlessServer] who is let in by the inbound and who falls
    back.  The protocol buffer that carries the addons is the class
    [AddonsCodec].  Vision, which the flow of an account may ask for, is not
    modelled: [BodyWriter] only says when it is used. *)
From S2P Require Import Prelude GoStd GoText Uuid Buf MultiBuf NetAddr AddrParser Headers BufReader Codec Talk TrojanServer.
Import Uuid Buf NetAddr AddrParser BufReader Codec Talk.
Import Headers(RequestHeader, MemoryUser).

Module Vless.

(** ** account.go *)
Record MemoryAccount := mkAccount {
  ID_ : ID; Flow : bytes; Encryption : bytes; XorMode : Z; Seconds : Z; Padding : bytes }.

Abbreviation User := (MemoryUser MemoryAccount).
Abbreviation Request := (RequestHeader MemoryAccount).

Definition account_Equals (a : MemoryAccount) (account : Datatypes.option MemoryAccount) : bool :=
  match account with Some vlessAccount => ID_Equals (ID_ a) (ID_ vlessAccount) | None => false end.

Definition parseEncryption (encryption : bytes) : Z * Z * bytes :=
  if bool_decide (encryption = []) || bool_decide (encryption = lit "none") then (0, 0, [])
  else
    let parts := Split (z2b 46) encryption in
    if zlen parts <? 2 then (0, 0, [])
    else
      let modeStr := default [] (parts !! 1%nat) in
      let xorMode := if bool_decide (modeStr = lit "native") then 0 else if bool_decide (modeStr = lit "xorpub") then 1
                     else if bool_decide (modeStr = lit "random") then 2 else 0 in
      let seconds := if (3 <=? zlen parts) && Contains (default [] (parts !! 2%nat)) (lit "1rtt") then 3600 else 0 in
      let padding := if 4 <=? zlen parts then default [] (parts !! 3%nat) else [] in
      (xorMode, seconds, padding).

Definition AsAccount (md5 : bytes -> bytes) (spare : nat) (id flow encryption : bytes) : res MemoryAccount :=
  match ParseString spare id with
  | Ok u =>
    let '(xorMode, seconds, padding) := parseEncryption encryption in
    Ok {| ID_ := NewID md5 u; Flow := flow; Encryption := encryption; XorMode := xorMode; Seconds := seconds; Padding := padding |}
  | Err e => Err (Based "failed to parse ID" e)
  | Panic => Panic
  end.

(** ** validator.go *)

(** [id] is an array of 16 bytes. *)
Definition ProcessUUID (id : UUID) : UUID := <[7%nat := x00]> (<[6%nat := x00]> id).

Record Validator := mkValidator { email : gmap bytes User; users : gmap bytes User }.

Definition NewValidator : Validator := {| email := ∅; users := ∅ |}.

Definition key_of (u : User) : res UUID := a ← or_panic (Headers.Account u); Ok (ProcessUUID (uuid (ID_ a))).

Definition Add (u : User) : ST Validator unit := fun v =>
  let le := ToLower (Headers.Email u) in
  let loaded := bool_decide (is_Some (email v !! le)) in
  if bool_decide (Headers.Email u <> []) && loaded then (v, Err (NewError "User  already exists."))
  else
    let v := if bool_decide (Headers.Email u <> []) then {| email := <[le := u]> (email v); users := users v |} else v in
    match key_of u with
    | Ok k => ({| email := email v; users := <[k := u]> (users v) |}, Ok tt)
    | Err e => (v, Err e)
    | Panic => (v, Panic)
    end.

Definition Del (e : bytes) : ST Validator unit := fun v =>
  if bool_decide (e = []) then (v, Err (NewError "Email must not be empty."))
  else
    let le := ToLower e in
    match email v !! le with
    | None => (v, Err (NewError "User  not found."))
    | Some u =>
      let v := {| email := delete le (email v); users := users v |} in
      match key_of u with
      | Ok k => ({| email := email v; users := delete k (users v) |}, Ok tt)
      | Err e => (v, Err e)
      | Panic => (v, Panic)
      end
    end.

Definition Get (id : UUID) (v : Validator) : Datatypes.option User := users v !! ProcessUUID id.

(** ** encoding.go and addons.go *)
Definition Version : Z := 0.

Definition vless_options : res (list AddressOption) :=
  o1 ← AddressFamilyByte 1 AddressFamilyIPv4;
  o2 ← AddressFamilyByte 2 AddressFamilyDomain;
  o3 ← AddressFamilyByte 3 AddressFamilyIPv6;
  Ok [o1; o2; o3; PortThenAddress].

Definition addrParser : AddressSerializer :=
  NewAddressParser (match vless_options with Ok l => l | _ => [] end).

Record Addons := mkAddons { a_Flow : bytes; a_Seed : bytes }.

Class AddonsCodec := {
  proto_Marshal : Addons -> res bytes;
  proto_Unmarshal : bytes -> res Addons;
}.

Definition XRV : bytes := lit "xtls-rprx-vision".

Section Protocol.
Context `{AddonsCodec}.

Definition EncodeHeaderAddons (addons : Addons) : ST Buf.Buffer unit :=
  if bool_decide (a_Flow addons = XRV) then
    data ← st_base "failed to marshal addons protobuf value" (st_lift (proto_Marshal addons));
    if 255 <? zlen data then st_err (NewError "addons protobuf too large")
    else
      _ ← st_base "failed to write addons protobuf length" (Buf.WriteByte (z2b (zlen data)));
      _ ← st_base "failed to write addons protobuf value" (Write data);
      mret tt
  else st_base "failed to write addons protobuf length" (Buf.WriteByte x00).

Definition request_header (request : Request) (requestAddons : Addons) : ST Buf.Buffer unit :=
  _ ← st_base "failed to write request version" (Buf.WriteByte (z2b (Headers.Version request)));
  user ← st_lift (or_panic (Headers.User request));
  account ← st_lift (or_panic (Headers.Account user));
  _ ← st_base "failed to write request user id" (Write (uuid (ID_ account)));
  _ ← st_base "failed to encode request header addons" (EncodeHeaderAddons requestAddons);
  _ ← st_base "failed to write request command" (Buf.WriteByte (z2b (Headers.Command request)));
  if decide (Headers.Command request = Headers.RequestCommandMux) then mret tt
  else
    a ← st_lift (or_panic (Headers.RAddress request));
    st_base "failed to write request address and port" (WriteAddressPort addrParser a (Headers.RPort request)).

Definition response_header (request : Request) (responseAddons : Addons) : ST Buf.Buffer unit :=
  _ ← st_base "failed to write response version" (Buf.WriteByte (z2b (Headers.Version request)));
  st_base "failed to encode response header addons" (EncodeHeaderAddons responseAddons).

Section Streams.
Context {W : Type} `{Writer W}.

Definition EncodeRequestHeader (request : Request) (requestAddons : Addons) : ST W unit :=
  buffer ← st_lift (build (request_header request requestAddons) StackNew);
  headerBytes ← st_lift (Bytes buffer);
  _ ← st_base "failed to write request header" (wr headerBytes);
  mret tt.

Definition EncodeResponseHeader (request : Request) (responseAddons : Addons) : ST W unit :=
  buffer ← st_lift (build (response_header request responseAddons) StackNew);
  d ← st_lift (Bytes buffer);
  _ ← st_base "failed to write response header" (wr d);
  mret tt.
End Streams.

Section Readers.
Context {R : Type} `{Reader R}.

(** The buffer of the caller is passed on. *)
Definition DecodeHeaderAddons (buffer : Buf.Buffer) : ST R (Addons * Buf.Buffer) :=
  buffer ← st_base "failed to read addons protobuf length" (recv 1 (Clear buffer));
  length ← st_lift (Byte buffer 0);
  if decide (b2z length <> 0) then
    buffer ← st_base "failed to read addons protobuf value" (recv (b2z length) (Clear buffer));
    d ← st_lift (Bytes buffer);
    addons ← st_base "failed to unmarshal addons protobuf value" (st_lift (proto_Unmarshal d));
    mret (addons, buffer)
  else mret ({| a_Flow := []; a_Seed := [] |}, buffer).

(** The destination; an error leaves it out. *)
Definition read_target (command : Z) (buffer : Buf.Buffer) : ST R (Datatypes.option (Address * Port)) :=
  if decide (command = Headers.RequestCommandMux) then mret (Some (domainAddress (lit "v1.mux.cool"), 0))
  else if decide (command = Headers.RequestCommandTCP \/ command = Headers.RequestCommandUDP) then
    x ← attempt (scratch buffer (ReadAddressPort_with addrParser));
    mret (match x with inl t => Some t | inr _ => None end)
  else mret None.

(** What [DecodeRequestHeader] reads behind the ID of [user]. *)
Definition decode_rest (version : Z) (user : User) (buffer : Buf.Buffer) : ST R (Request * Addons) :=
  '(requestAddons, buffer) ← st_base "failed to decode request header addons" (DecodeHeaderAddons buffer);
  buffer ← st_base "failed to read request command" (recv 1 (Clear buffer));
  command ← st_lift (Byte buffer 0);
  target ← read_target (b2z command) buffer;
  match target with
  | Some (addr, port) =>
    mret ({| Headers.Version := version; Headers.Command := b2z command; Headers.Option := 0; Headers.Security := 0;
             Headers.RPort := port; Headers.RAddress := Some addr; Headers.User := Some user |}, requestAddons)
  | None => st_err (NewError "invalid request address")
  end.

(** Version and ID, read from the connection. *)
Definition decode_start (buffer : Buf.Buffer) : ST R (Z * Buf.Buffer) :=
  buffer ← st_base "failed to read request version" (recv 1 buffer);
  version ← st_lift (Byte buffer 0);
  mret (b2z version, buffer).

Definition decode_id (buffer : Buf.Buffer) : ST R (UUID * Buf.Buffer) :=
  buffer ← st_base "failed to read request user id" (recv 16 (Clear buffer));
  id ← st_lift (Bytes buffer);
  mret (id, buffer).

(** [DecodeRequestHeader] without a fallback; its third result is false. *)
Definition DecodeRequestHeader (validator : Validator) : ST R (Request * Addons) :=
  '(version, buffer) ← decode_start StackNew;
  if decide (version = 0) then
    '(id, buffer) ← decode_id buffer;
    match Get id validator with
    | Some user => decode_rest version user buffer
    | None => st_err (NewError "invalid request user id")
    end
  else st_err (NewError "invalid request version").

Definition DecodeResponseHeader (request : Request) : ST R Addons :=
  buffer ← st_base "failed to read response version" (recv 1 StackNew);
  version ← st_lift (Byte buffer 0);
  if decide (b2z version <> Headers.Version request) then st_err (NewError "unexpected response version. ")
  else
    '(responseAddons, _) ← st_base "failed to decode response header addons" (DecodeHeaderAddons buffer);
    mret responseAddons.

(** ** Packets *)

(** The loop of [LengthPacketReader]; one turn for every byte is enough. *)
Fixpoint packet_loop (fuel : nat) (length : Z) (mb : MultiBuf.MultiBuffer) : ST R MultiBuf.MultiBuffer :=
  match fuel with
  | O => mret mb
  | S fuel =>
    if 0 <? length then
      let size := if Buf.Size <? length then Buf.Size else length in
      b ← st_base "failed to read packet payload" (recv size New);
      packet_loop fuel (length - size) (mb ++ [b])
    else mret mb
  end.

Definition LengthPacketReader_ReadMultiBuffer : ST R MultiBuf.MultiBuffer :=
  cache ← readFull 2 (Based "failed to read packet length");
  let length := get_be cache in
  packet_loop (Z.to_nat length) length [].
End Readers.

(** ** With a fallback: [first] is the first buffer of the reader

    The second result tells whether to fall back. *)
Definition DecodeRequestHeader_fb (validator : Validator) (r : BufferedReader link)
    : BufferedReader link * bool * res (Request * Addons) :=
  match BufReader.Buffer r with
  | [] => (r, true, Panic)
  | first :: others =>
    match Byte first 0 with
    | Ok version =>
      if decide (b2z version = 0) then
        match BytesRange first 1 17 with
        | Ok id =>
          match Get id validator with
          | None => (r, true, Err (NewError "invalid request user id"))
          | Some user =>
            let r := {| source := source r; BufReader.Buffer := Advance first 17 :: others |} in
            let '(r, x) := decode_rest 0 user StackNew r in (r, false, x)
          end
        | Err e => (r, true, Err e)
        | Panic => (r, true, Panic)
        end
      else (r, true, Err (NewError "invalid request version"))
    | Err e => (r, true, Err e)
    | Panic => (r, true, Panic)
    end
  end.
End Protocol.

(** ** The writers of packets *)
Section Writers.
Context {W : Type} `{MbWriter W}.

(** A packet of no bytes, or of more than fit behind the length, is left out. *)
Fixpoint length_packets (mb : MultiBuf.MultiBuffer) : res MultiBuf.MultiBuffer :=
  match mb with
  | [] => Ok []
  | b :: mb =>
    let length := Len (Some b) in
    if (length =? 0) || (Buf.Size <? i32 (length + 2)) then length_packets mb
    else
      d ← Bytes b;
      match (_ ← Buf.WriteByte (z2b (Z.shiftr length 8)); _ ← Buf.WriteByte (z2b length); Write d) New with
      | (eb, Ok _) => rest ← length_packets mb; Ok (eb :: rest)
      | (_, Err _) => length_packets mb
      | (_, Panic) => Panic
      end
  end.

Definition MultiLengthPacketWriter_WriteMultiBuffer (mb : MultiBuf.MultiBuffer) : ST W unit :=
  if 64 * 1024 * 1024 <? zlen mb + 1 then st_err (NewError "value too large")
  else
    mb2Write ← st_lift (length_packets mb);
    if MultiBuf.IsEmpty mb2Write then mret tt else write_mb mb2Write.
End Writers.

Fixpoint all_bytes (mb : MultiBuf.MultiBuffer) : res bytes :=
  match mb with
  | [] => Ok []
  | b :: mb => d ← Bytes b; rest ← all_bytes mb; Ok (d ++ rest)
  end.

(** One packet of all buffers; its length is cut to two bytes. *)
Definition LengthPacketWriter_WriteMultiBuffer {W} `{Writer W} (mb : MultiBuf.MultiBuffer) : ST W unit :=
  let length := MultiBuf.Len mb in
  if length =? 0 then mret tt
  else
    d ← st_lift (all_bytes mb);
    _ ← st_base "failed to write a packet" (wr ([z2b (Z.shiftr length 8); z2b length] ++ d));
    mret tt.

(** ** Which reader and writer a body gets *)
Inductive BodyWriter := PacketBody | VisionBody | PlainBody.

Definition EncodeBodyAddons (request : Request) (addons : Datatypes.option Addons) : BodyWriter :=
  if decide (Headers.Command request = Headers.RequestCommandUDP) then PacketBody
  else if bool_decide (a_Flow <$> addons = Some XRV) then VisionBody
  else PlainBody.

Definition DecodeBodyAddons (request : Request) : BodyWriter :=
  if decide (Headers.Command request = Headers.RequestCommandUDP) then PacketBody else PlainBody.
End Vless.
Import Vless.

Module VlessServer.
Section Inbound.
Context `{AddonsCodec}.

Record Handler := mkHandler {
  validator : Vless.Validator;
  fallbacks : Datatypes.option TrojanServer.fallback_table;   (* built as that of proxy/trojan *)
}.

Inductive outcome :=
  | FellBack (fb : TrojanServer.Fallback)
  | Accepted (request : Request) (addons : Addons).

Definition rejected (e : error) : error := if decide (Cause e = EOF) then e else Based "invalid request from " e.

(** [firstLen] bytes were read into the first buffer of [r].  The fallback is
    chosen as that of proxy/trojan, by the protocol TLS agreed on and the path. *)
Definition Process (h : Handler) (negotiated : Datatypes.option bytes) (firstLen : Z) : ST (BufferedReader link) outcome := fun r =>
  let fall (apfb : TrojanServer.fallback_table) (r : BufferedReader link) :=
    match BufReader.Buffer r with
    | first :: _ => (r, fb ← TrojanServer.select_fallback apfb negotiated first firstLen; Ok (FellBack fb))
    | [] => (r, Panic)
    end in
  match fallbacks h with
  | Some apfb =>
    if firstLen <? 18 then fall apfb r
    else
      match DecodeRequestHeader_fb (validator h) r with
      | (r, true, Err _) => fall apfb r
      | (r, _, Ok (request, addons)) => (r, Ok (Accepted request addons))
      | (r, false, Err e) => (r, Err (rejected e))
      | (r, _, Panic) => (r, Panic)
      end
  | None =>
    match DecodeRequestHeader (validator h) r with
    | (r, Ok (request, addons)) => (r, Ok (Accepted request addons))
    | (r, Err e) => (r, Err (rejected e))
    | (r, Panic) => (r, Panic)
    end
  end.
End Inbound.
End VlessServer.
