(* ===== verification/VlessSpec.v ===== *)
(** * Package proxy/vless: what its protocol promises

    A request is read back as it was written, with or without a fallback behind
    it; only the ID of a user is let in, and whoever falls back has lost no byte;
    packets keep their boundaries, if they fit. *)
From S2P Require Import Prelude GoStd Uuid Buf MultiBuf NetAddr AddrParser Headers BufReader Codec Talk TrojanServer AuthSpec Vless.
Import Uuid MultiBuf Buf NetAddr AddrParser BufReader Codec Talk Vless VlessServer.
Import Headers(RequestHeader, MemoryUser).

Lemma vless_handles a : addr_wf a -> handles addrParser a.
Proof. intros Ha. unfold handles. destruct a; (split; [vm_compute; done|split; [vm_compute; done|reflexivity]]). Qed.

Lemma vless_known : known_families addrParser.
Proof. split; [done|]. split; [|done]. repeat (constructor; [auto|]). constructor. Qed.

(** Protocol buffers: what is marshalled is read back, and a message with a flow
    is not empty; bytes that are no message are an error. *)
Class AddonsOk `{AddonsCodec} : Prop := {
  unmarshal_marshal a d : proto_Marshal a = Ok d -> proto_Unmarshal d = Ok a;
  marshal_nonempty a d : proto_Marshal a = Ok d -> a_Flow a <> [] -> d <> [];
  unmarshal_safe d : proto_Unmarshal d <> Panic;
}.

Section Spec.
Context `{AddonsOk}.

(** ** Addons *)

(** Only those of Vision are sent. *)
Definition carried (addons : Addons) : Addons :=
  if bool_decide (a_Flow addons = XRV) then addons else {| a_Flow := []; a_Seed := [] |}.

Definition addons_wire (addons : Addons) : bytes :=
  if bool_decide (a_Flow addons = XRV) then
    match proto_Marshal addons with Ok d => z2b (zlen d) :: d | _ => [] end
  else [x00].

Definition addons_fit (addons : Addons) : Prop :=
  a_Flow addons = XRV -> exists d, proto_Marshal addons = Ok d /\ zlen d <= 255.

Lemma addons_wire_length addons : addons_fit addons -> 1 <= zlen (addons_wire addons) <= 256.
Proof.
  intros Hf. unfold addons_wire. case_bool_decide as E; [|done]. destruct (Hf E) as (d & -> & Hd).
  rewrite zlen_cons. pose proof (zlen_nonneg d). lia.
Qed.

Lemma writes_addons addons : addons_fit addons -> writes (EncodeHeaderAddons addons) (addons_wire addons) tt.
Proof.
  intros Hf. unfold EncodeHeaderAddons, addons_wire. case_bool_decide as E; [|].
  - destruct (Hf E) as (d & -> & Hd). refine (writes_lift (Ok d) d _ _ _ eq_refl _). replace (255 <? zlen d) with false by lia.
    apply (writes_bind _ _ [z2b (zlen d)] d tt tt); [apply writes_based, writes_WriteByte|].
    eapply writes_last; [apply writes_based, (writes_wr (W := Buf.Buffer))|done].
  - apply writes_based, writes_WriteByte.
Qed.

(** ** Requests *)

(** The user has an account with the ID [id]. *)
Definition identified (user : User) (id : UUID) : Prop :=
  exists account, Headers.Account user = Some account /\ uuid (ID_ account) = id /\ length id = 16%nat.

Definition mux_request (request : Request) : bool := bool_decide (Headers.Command request = Headers.RequestCommandMux).

Definition target_wire (request : Request) (a : Address) : bytes :=
  if mux_request request then [] else encode addrParser a (Headers.RPort request).

Definition request_wire (request : Request) (addons : Addons) (id : UUID) (a : Address) : bytes :=
  z2b (Headers.Version request) :: id ++ addons_wire addons ++ z2b (Headers.Command request) :: target_wire request a.

(** A request that can be sent: a command of the protocol, and an address that
    the codec keeps unless the command is for the mux. *)
Definition request_ok (request : Request) (addons : Addons) (a : Address) : Prop :=
  Headers.Version request = 0 /\ Headers.RAddress request = Some a /\ is_u16 (Headers.RPort request) /\ addons_fit addons /\
  (Headers.Command request = Headers.RequestCommandMux \/
   ((Headers.Command request = Headers.RequestCommandTCP \/ Headers.Command request = Headers.RequestCommandUDP) /\ serializable a)).

Lemma target_length request addons a : request_ok request addons a -> zlen (target_wire request a) <= 259.
Proof.
  intros (_ & _ & _ & _ & Hc). unfold target_wire, mux_request. case_bool_decide as E; [done|].
  destruct Hc as [?|[_ Hs]]; [done|]. by apply encode_length.
Qed.

Lemma vless_request_length request addons id a :
  request_ok request addons a -> length id = 16%nat -> 18 <= zlen (request_wire request addons id a) <= 2048.
Proof.
  intros Hr Hid. pose proof (target_length _ _ _ Hr). pose proof (zlen_nonneg (target_wire request a)).
  destruct Hr as (_ & _ & _ & Hf & _). pose proof (addons_wire_length addons Hf).
  unfold request_wire. rewrite zlen_cons, !zlen_app, zlen_cons. assert (zlen id = 16) by (unfold zlen; lia). lia.
Qed.

Lemma writes_vless_header request addons user id a :
  request_ok request addons a -> Headers.User request = Some user -> identified user id ->
  writes (request_header request addons) (request_wire request addons id a) tt.
Proof.
  intros (_ & Ha & _ & Hf & Hc) Hu (account & Hac & Hid & _). unfold request_header, request_wire. rewrite Hu, Ha.
  apply (writes_bind _ _ [z2b (Headers.Version request)] _ tt tt); [apply writes_based, writes_WriteByte|].
  refine (writes_lift (Ok user) user _ _ _ eq_refl _). rewrite Hac. refine (writes_lift (Ok account) account _ _ _ eq_refl _).
  rewrite Hid. eapply writes_bind; [apply writes_based, (writes_wr (W := Buf.Buffer))|].
  eapply writes_bind; [by apply writes_based, writes_addons|].
  apply (writes_bind _ _ [z2b (Headers.Command request)] _ tt tt); [apply writes_based, writes_WriteByte|].
  unfold target_wire, mux_request. case_bool_decide as E; [rewrite decide_True by done; apply writes_ret|].
  rewrite decide_False by done. refine (writes_lift (Ok a) a _ _ _ eq_refl _). destruct Hc as [?|[_ Hs]]; [done|].
  apply writes_based, writes_AddressPort; [apply vless_handles, Hs|done].
Qed.

Lemma EncodeRequestHeader_writes {W} `{WriterSpec W} request addons user id a :
  request_ok request addons a -> Headers.User request = Some user -> identified user id ->
  writes (EncodeRequestHeader request addons : ST W unit) (request_wire request addons id a) tt.
Proof.
  intros Hr Hu Hi. pose proof Hi as (_ & _ & _ & Hid). pose proof (vless_request_length request addons id a Hr Hid) as Hl. unfold EncodeRequestHeader.
  rewrite (fresh_build _ StackNew _ tt (writes_vless_header _ _ _ _ _ Hr Hu Hi) fresh_StackNew) by lia.
  refine (writes_lift (Ok _) _ _ _ _ eq_refl _). rewrite (fresh_Bytes StackNew fresh_StackNew) by lia.
  refine (writes_lift (Ok _) _ _ _ _ eq_refl _). eapply writes_last; [apply writes_based, writes_wr|done].
Qed.

(** What the server makes of it. *)
Definition received (request : Request) (user : User) (a : Address) : Request :=
  {| Headers.Version := 0; Headers.Command := Headers.Command request; Headers.Option := 0; Headers.Security := 0;
     Headers.RPort := if mux_request request then 0 else Headers.RPort request;
     Headers.RAddress := Some (if mux_request request then domainAddress (lit "v1.mux.cool") else a);
     Headers.User := Some user |}.

Section Reading.
Context {R : Type} `{Reader R}.

Lemma takes_addons b addons :
  fresh (Clear b) -> addons_fit addons ->
  exists b', fresh (Clear b') /\ takes (DecodeHeaderAddons b : ST R _) (addons_wire addons) (carried addons, b').
Proof.
  intros Hb Hf. unfold DecodeHeaderAddons, addons_wire, carried. case_bool_decide as E.
  - destruct (Hf E) as (d & Hm & Hd). rewrite Hm. pose proof (zlen_nonneg d) as H0d.
    assert (Hz : b2z (z2b (zlen d)) = zlen d) by (apply z2b_small; lia).
    assert (Hne : d <> []) by (eapply marshal_nonempty; [done|by rewrite E]).
    assert (Hpos : zlen d <> 0) by (destruct d; [done|rewrite zlen_cons; pose proof (zlen_nonneg d); lia]).
    assert (Hb1 : fresh (Clear (push (Clear b) [z2b (zlen d)]))) by (apply fresh_again; [done|by rewrite zlen_cons]).
    exists (push (Clear (push (Clear b) [z2b (zlen d)])) d). split; [apply fresh_again; [done|lia]|].
    apply (takes_bind _ _ [z2b (zlen d)] d (push (Clear b) [z2b (zlen d)])); [apply takes_base; by apply takes_fresh|].
    eapply takes_lift; [by apply (fresh_Byte (Clear b) Hb [z2b (zlen d)] ltac:(by rewrite zlen_cons) 0 (z2b (zlen d)))|].
    rewrite Hz, decide_True by done. eapply takes_then; [apply takes_base, takes_fresh; [done|done|lia]|].
    eapply takes_lift; [apply fresh_Bytes; [done|lia]|].
    apply (takes_then _ _ [] addons); [|apply takes_ret].
    apply takes_base. rewrite (unmarshal_marshal addons d Hm). apply takes_ret.
  - exists (push (Clear b) [x00]). split; [apply fresh_again; [done|by rewrite zlen_cons]|].
    apply (takes_then _ _ [x00] (push (Clear b) [x00])); [apply takes_base; by apply takes_fresh|].
    eapply takes_lift; [by apply (fresh_Byte (Clear b) Hb [x00] ltac:(by rewrite zlen_cons) 0 x00)|].
    rewrite decide_False by (intros Hn; by apply Hn). apply takes_ret.
Qed.

Lemma takes_vless_target request addons a b x :
  request_ok request addons a -> fresh b ->
  takes (read_target (Headers.Command request) (push b [x]) : ST R _) (target_wire request a)
    (Some (if mux_request request then (domainAddress (lit "v1.mux.cool"), 0) else (a, Headers.RPort request))).
Proof.
  intros Hr Hb. pose proof (target_length _ _ _ Hr) as Hl. destruct Hr as (_ & _ & Hp & _ & Hc). unfold read_target, target_wire in *.
  unfold mux_request in *. case_bool_decide as E; [rewrite decide_True by done; apply takes_ret|].
  rewrite decide_False by done. destruct Hc as [?|[Hc Hs]]; [done|]. rewrite decide_True by done.
  destruct (fresh_push b Hb [x] ltac:(by rewrite zlen_cons)) as (Hw & _ & Hroom). rewrite zlen_cons, zlen_nil in Hroom.
  apply (takes_last _ _ _ (inl (a, Headers.RPort request))); [|done]. intros r rest Hr' Hct.
  destruct (takes_scratch (R := R) (ReadAddressPort_with addrParser) _ (a, Headers.RPort request) (push b [x])
    (reads_AddressPort_with addrParser a _ (vless_handles a (proj1 Hs)) Hs Hp) Hw ltac:(lia) r rest Hr' Hct) as (r' & E' & ?).
  exists r'. unfold attempt. by rewrite E'.
Qed.

Lemma takes_decode_rest request addons user a b :
  request_ok request addons a -> fresh (Clear b) -> is_u8 (Headers.Command request) ->
  takes (decode_rest 0 user b : ST R _) (addons_wire addons ++ z2b (Headers.Command request) :: target_wire request a)
    (received request user a, carried addons).
Proof.
  intros Hr Hb Hcm. pose proof Hr as (_ & _ & _ & Hf & _). unfold decode_rest.
  destruct (takes_addons b addons Hb Hf) as (b' & Hb' & Ht). eapply takes_bind; [by apply takes_base|].
  cbv beta iota. set (c := Headers.Command request) in *. change (z2b c :: target_wire request a) with ([z2b c] ++ target_wire request a).
  eapply takes_bind; [apply takes_base; by apply takes_fresh|].
  eapply takes_lift; [by apply (fresh_Byte (Clear b') Hb' [z2b c] ltac:(by rewrite zlen_cons) 0 (z2b c))|].
  assert (Hz : b2z (z2b c) = c) by (apply z2b_small; lia). rewrite Hz.
  eapply takes_last; [by eapply (takes_vless_target request addons a)|]. unfold received. destruct (mux_request request); done.
Qed.

Lemma takes_DecodeRequestHeader v request addons user id a :
  request_ok request addons a -> is_u8 (Headers.Command request) -> length id = 16%nat -> Get id v = Some user ->
  takes (DecodeRequestHeader v : ST R _) (request_wire request addons id a) (received request user a, carried addons).
Proof.
  intros Hr Hcm Hid Hu. pose proof Hr as (Hv & _). assert (Hzid : zlen id = 16) by (unfold zlen; lia).
  unfold DecodeRequestHeader, request_wire. rewrite Hv.
  assert (Hb1 : fresh (Clear (push StackNew [z2b 0]))) by (apply fresh_again; [apply fresh_StackNew|done]).
  assert (Hb2 : fresh (Clear (push (Clear (push StackNew [z2b 0])) id))) by (apply fresh_again; [done|lia]).
  apply (takes_bind _ _ [z2b 0] _ (0, push StackNew [z2b 0])).
  { unfold decode_start. eapply takes_then; [apply takes_base; by apply takes_fresh|].
    eapply takes_lift; [by apply (fresh_Byte StackNew fresh_StackNew [z2b 0] ltac:(done) 0 (z2b 0))|]. apply takes_ret. }
  cbv beta iota. rewrite decide_True by done. apply (takes_bind _ _ id _ (id, push (Clear (push StackNew [z2b 0])) id)).
  { unfold decode_id. eapply takes_then; [apply takes_base; apply takes_fresh; [done|done|lia]|].
    eapply takes_lift; [by apply fresh_Bytes; [|lia]|]. apply takes_ret. }
  cbv beta iota. rewrite Hu. by apply takes_decode_rest.
Qed.
End Reading.

(** ** With a fallback *)

(** What the inbound has read at first, and what follows. *)
Definition first_read (r : BufferedReader link) (first : Buf.Buffer) : Prop := exists others, BufReader.Buffer r = first :: others.

Lemma first_content r first : reader_wf r -> first_read r first -> tidy first /\ exists rest, reader_content r = content first ++ rest.
Proof.
  intros [[Ht _] _] [others Hb]. rewrite Hb in Ht. apply Forall_cons in Ht as [Ht _]. split; [done|].
  unfold reader_content. rewrite Hb, mb_content_cons, <- app_assoc. by eexists.
Qed.

Lemma advanced r first others n :
  reader_wf r -> BufReader.Buffer r = first :: others -> 0 <= n < zlen (content first) ->
  let r' := {| source := source r; BufReader.Buffer := Advance first n :: others |} in
  reader_wf r' /\ reader_content r' = drop (Z.to_nat n) (reader_content r).
Proof.
  intros [[Ht Hz] Hs] Hb Hn r'. rewrite Hb in Ht, Hz. apply Forall_cons in Ht as [[Hw Hl] Ht].
  rewrite mb_content_cons, zlen_app in Hz. pose proof (zlen_nonneg (mb_content others)).
  assert (Hc : content (Advance first n) = drop (Z.to_nat n) (content first)) by (rewrite Advance_pop by (done || lia); by apply pop_content; [|lia]).
  assert (Hlen : zlen (drop (Z.to_nat n) (content first)) = zlen (content first) - n) by (unfold zlen in *; rewrite length_drop; lia).
  split.
  - split; [|done]. cbn [BufReader.Buffer r']. split.
    + constructor; [|done]. split; [rewrite Advance_pop by (done || lia); apply pop_wf; [done|lia]|]. rewrite Hc, Hlen. lia.
    + rewrite mb_content_cons, Hc, zlen_app, Hlen. lia.
  - unfold reader_content, r'. cbn [BufReader.Buffer source]. rewrite Hb, !mb_content_cons, Hc, <- !app_assoc.
    by rewrite drop_app_le by (unfold zlen in Hn; lia).
Qed.

Lemma DecodeRequestHeader_fb_eq v r first others :
  reader_wf r -> BufReader.Buffer r = first :: others -> 18 <= zlen (content first) ->
  exists version id tail, reader_content r = version :: id ++ tail /\ length id = 16%nat /\
  let r' := {| source := source r; BufReader.Buffer := Advance first 17 :: others |} in
  reader_wf r' /\ reader_content r' = tail /\ source_end (source r') = source_end (source r) /\
  DecodeRequestHeader_fb v r =
    if decide (b2z version = 0) then
      match Get id v with
      | None => (r, true, Err (NewError "invalid request user id"))
      | Some user => let '(r', x) := decode_rest 0 user StackNew r' in (r', false, x)
      end
    else (r, true, Err (NewError "invalid request version")).
Proof.
  intros Hwf Hb Hl. destruct (first_content r first Hwf ltac:(by exists others)) as ((Hw & Hlen) & rest & Hc).
  destruct (advanced r first others 17 Hwf Hb ltac:(lia)) as [Hwf' Hc']. unfold DecodeRequestHeader_fb. rewrite Hb.
  destruct (Byte_content first 0 Hw ltac:(lia)) as (version & -> & Hv). rewrite BytesRange_wf by (done || lia).
  set (id := take (Z.to_nat (17 - 1)) (drop (Z.to_nat 1) (content first))).
  exists version, id, (drop 17 (reader_content r)). change (Z.to_nat 17) with 17%nat in Hc'.
  split; [|split; [|done]].
  - rewrite Hc. destruct (content first) as [|x d] eqn:Ed; [done|]. injection Hv as ->. cbn [app]. f_equal.
    unfold id. change (Z.to_nat 1) with 1%nat. change (Z.to_nat (17 - 1)) with 16%nat. cbn [drop]. rewrite zlen_cons in Hl.
    rewrite drop_0, <- (take_app_le d rest 16) by (unfold zlen in Hl; lia). symmetry. apply take_drop.
  - unfold id. rewrite length_take, length_drop. unfold zlen in Hl. change (Z.to_nat 1) with 1%nat. lia.
Qed.

(** ** Whatever arrives *)

(** A request that names a user and a destination. *)
Definition proper (user : User) (request : Request) : Prop :=
  Headers.User request = Some user /\ exists a, Headers.RAddress request = Some a /\ sane a /\ is_u16 (Headers.RPort request).

Section Hostile.
Context {R : Type} `{Reader R}.

Lemma clear_again b d : fresh (Clear b) -> zlen d <= 2048 -> fresh (Clear (push (Clear b) d)).
Proof. intros Hb Hd. by apply fresh_again. Qed.

Lemma byte_read b d : fresh b -> zlen d = 1 -> exists x, Byte (push b d) 0 = Ok x.
Proof.
  intros Hb Hd. destruct d as [|x d]; [done|]. exists x. apply (fresh_Byte b Hb (x :: d) ltac:(lia) 0). done.
Qed.

Lemma honest_just {A} (x : res A) : x <> Panic -> honest (st_lift x : ST R A) (fun _ _ => True).
Proof. intros Hx r Hr. by exists r, x, []. Qed.

Lemma honest_addons b : fresh (Clear b) -> honest (DecodeHeaderAddons b : ST R _) (fun _ x => fresh (Clear x.2)).
Proof.
  intros Hb. unfold DecodeHeaderAddons. eapply honest_bind; [apply honest_base; apply honest_fresh; [done|lia]|].
  intros b1 d [-> Hd]. destruct (byte_read (Clear b) d Hb Hd) as [x ->]. refine (honest_lift (Ok x) _ _ _ _); [done|]. intros ? [= <-].
  pose proof (b2z_range x) as Hx. assert (Hb1 : fresh (Clear (push (Clear b) d))) by (apply clear_again; [done|lia]).
  case_decide as E; [|by apply honest_ret].
  eapply honest_bind; [apply honest_base; apply honest_fresh; [done|lia]|]. intros b2 d2 [-> Hd2].
  rewrite fresh_Bytes by (done || lia). refine (honest_lift (Ok d2) _ _ _ _); [done|]. intros ? [= <-].
  eapply honest_bind; [apply honest_base, honest_just, unmarshal_safe|]. intros addons d3 _.
  apply honest_ret. apply clear_again; [done|lia].
Qed.

Lemma honest_target c b d :
  fresh b -> zlen d = 1 ->
  honest (read_target c (push b d) : ST R _) (fun _ x => match x with Some (a, port) => sane a /\ is_u16 port | None => True end).
Proof.
  intros Hb Hd. unfold read_target. case_decide; [apply honest_ret; split; [split; [done|by vm_compute]|lia]|]. case_decide; [|by apply honest_ret].
  destruct (fresh_push b Hb d ltac:(lia)) as (Hw & _).
  assert (Hs : small_buf (push b d)).
  { split; [done|]. rewrite push_v_length; [|by apply fresh_wf|rewrite fresh_room by done; lia]. destruct Hb as (_ & _ & ->). lia. }
  eapply honest_bind; [apply honest_attempt, honest_scratch; [apply safe_AddressPort_with, vless_known|done]|].
  intros [[a port]|e] d2 Hq; apply honest_ret; done.
Qed.

Lemma honest_decode_rest user b :
  fresh (Clear b) -> honest (decode_rest 0 user b : ST R _) (fun _ x => proper user x.1).
Proof.
  intros Hb. unfold decode_rest. eapply honest_bind; [by apply honest_base, honest_addons|]. intros [addons b1] d1 Hb1. cbv beta iota. cbn [snd] in Hb1.
  eapply honest_bind; [apply honest_base; apply honest_fresh; [done|lia]|]. intros b2 d2 [-> Hd2].
  destruct (byte_read _ d2 Hb1 Hd2) as [x ->]. refine (honest_lift (Ok x) _ _ _ _); [done|]. intros ? [= <-].
  eapply honest_bind; [by apply honest_target|]. intros [[a port]|] d3 Hq; [|apply honest_err].
  apply honest_ret. split; [done|]. by exists a.
Qed.

Lemma honest_DecodeRequestHeader v :
  honest (DecodeRequestHeader v : ST R _) (fun d x =>
    exists id user tail, d = x00 :: id ++ tail /\ length id = 16%nat /\ Get id v = Some user /\ proper user x.1).
Proof.
  unfold DecodeRequestHeader, decode_start, decode_id.
  apply (honest_bind _ _ (fun d' x => exists y, d' = [y] /\ x.1 = b2z y /\ fresh (Clear x.2))).
  { eapply honest_bind; [apply honest_base; apply honest_fresh; [apply fresh_StackNew|lia]|]. intros b d [-> Hd].
    destruct (byte_read _ d fresh_StackNew Hd) as [x Hx]. rewrite Hx. refine (honest_lift (Ok x) _ _ _ _); [done|]. intros ? [= <-].
    apply honest_ret. exists x. rewrite app_nil_r.
    destruct d as [|y [|z d]]; [done| |rewrite !zlen_cons in Hd; pose proof (zlen_nonneg d); lia].
    pose proof (fresh_Byte StackNew fresh_StackNew [y] ltac:(done) 0 y eq_refl) as Hy. change (Z.of_nat 0) with 0 in Hy. rewrite Hy in Hx. injection Hx as ->.
    split; [done|]. split; [done|]. apply fresh_again; [apply fresh_StackNew|done]. }
  intros [version b] d1 (y & -> & Hv & Hb). cbn [fst snd] in Hv, Hb. cbv beta iota. subst version. case_decide as Hy; [|apply honest_err].
  assert (y = x00) as -> by (by apply b2z_inj).
  apply (honest_bind _ _ (fun d' x => d' = x.1 /\ length x.1 = 16%nat /\ fresh (Clear x.2))).
  { eapply honest_bind; [apply honest_base; apply honest_fresh; [done|lia]|]. intros b2 d [-> Hd].
    rewrite fresh_Bytes by (done || lia). refine (honest_lift (Ok d) _ _ _ _); [done|]. intros ? [= <-].
    apply honest_ret. rewrite app_nil_r.
    split; [done|]. split; [cbn [fst]; unfold zlen in Hd; lia|]. apply clear_again; [done|lia]. }
  intros [id b2] d2 (-> & Hid & Hb2). cbn [fst snd] in *. cbv beta iota. destruct (Get id v) as [user|] eqn:Hu; [|apply honest_err].
  intros r Hr. destruct (honest_decode_rest user b2 Hb2 r Hr) as (r' & x & d & E & Hx & Hr' & He & Hc & HQ).
  exists r', x, d. split; [done|]. split; [done|]. split; [done|]. split; [done|]. split; [done|].
  intros q ->. exists id, user, d. split; [done|]. split; [done|]. split; [done|]. by apply HQ.
Qed.
End Hostile.

(** The connection opens with the ID of a user, who is the one of the request. *)
Definition admitted (v : Vless.Validator) (d : bytes) (request : Request) : Prop :=
  exists id user tail, d = x00 :: id ++ tail /\ length id = 16%nat /\ Get id v = Some user /\ proper user request.

Lemma select_fallback_safe apfb negotiated first :
  buf_wf first -> TrojanServer.select_fallback apfb negotiated first (zlen (content first)) <> Panic.
Proof.
  intros Hw. unfold TrojanServer.select_fallback. destruct (apfb !! _) as [pfb|]; [|done].
  destruct (fallback_path_total pfb first _ Hw eq_refl) as (path & -> & _). cbn [mbind res_bind]. by destruct (pfb !! path).
Qed.


(** C15. A VLESS request arrives: the bytes the client writes for a TCP or UDP request
    to an address that survives the wire, or for a mux request, with addons that fit
    their length byte, make the inbound - with fallbacks, given a first chunk of at
    least 18 bytes, or without - accept the same request for the user its validator has
    under the client's 16-byte ID, and leave exactly the bytes behind the header to be
    read.  Bytes 6 and 7 of the ID do not count.  The addons are assumed to be decoded
    by protobuf as they were encoded; those of a flow other than XTLS vision are not
    sent. *)
Theorem vless_request_arrives {W} `{WriterSpec W} h negotiated request addons user id a user'
    (Hreq : request_ok request addons a) (Hu : Headers.User request = Some user) (Hid : identified user id)
    (Hv : Get id (validator h) = Some user') :
  exists d, writes (EncodeRequestHeader request addons : ST W unit) d tt /\
  forall (r : BufferedReader link) first rest, reader_wf r -> reader_content r = d ++ rest ->
    (fallbacks h <> None -> first_read r first /\ 18 <= zlen (content first)) ->
    exists r', Process h negotiated (zlen (content first)) r = (r', Ok (Accepted (received request user' a) (carried addons))) /\
      reader_wf r' /\ reader_content r' = rest /\ source_end (source r') = source_end (source r).
Proof.
  exists (request_wire request addons id a). split; [by eapply EncodeRequestHeader_writes|]. intros r first rest Hr Hc Hf.
  pose proof Hid as (_ & _ & _ & Hlen).
  assert (Hcm : is_u8 (Headers.Command request)) by (destruct Hreq as (_ & _ & _ & _ & [-> | [[-> | ->] _]]); vm_compute; split; discriminate || reflexivity).
  unfold Process. destruct (fallbacks h) as [apfb|].
  - destruct (Hf ltac:(done)) as [[others Hb] H18]. replace (_ <? 18) with false by lia.
    destruct (DecodeRequestHeader_fb_eq (validator h) r first others Hr Hb H18) as (version & id' & tail & Hc' & Hid' & Hr1 & Hc1 & He1 & ->).
    rewrite Hc in Hc'. unfold request_wire in Hc'. rewrite (proj1 Hreq) in Hc'. cbn [app] in Hc'. injection Hc' as <- Hc'.
    rewrite <- app_assoc in Hc'. apply app_inj_1 in Hc' as [<- <-]; [|by rewrite Hid'].
    rewrite decide_True by done. rewrite Hv.
    pose proof (takes_decode_rest (R := BufferedReader link) request addons user' a StackNew Hreq fresh_StackNew Hcm) as Ht.
    destruct (Ht _ rest Hr1) as (r2 & -> & Hr2 & He2 & Hc2); [by rewrite <- Hc1|].
    exists r2. split; [done|]. split; [done|]. split; [done|]. etransitivity; [exact He2|exact He1].
  - pose proof (takes_DecodeRequestHeader (R := BufferedReader link) (validator h) request addons user' id a Hreq Hcm Hlen Hv) as Ht.
    destruct (Ht r rest Hr Hc) as (r2 & -> & Hr2 & He2 & Hc2).
    by exists r2.
Qed.
End Spec.

(** ** Responses *)
Lemma response_roundtrip `{AddonsOk} {W R} `{WriterSpec W} `{Reader R} request addons :
  addons_fit addons -> is_u8 (Headers.Version request) ->
  let d := z2b (Headers.Version request) :: addons_wire addons in
  writes (EncodeResponseHeader request addons : ST W unit) d tt /\ takes (DecodeResponseHeader request : ST R _) d (carried addons).
Proof.
  intros Hf Hv d. pose proof (addons_wire_length addons Hf) as Hl. assert (Hz : b2z (z2b (Headers.Version request)) = Headers.Version request) by (apply z2b_small; lia).
  assert (Hw : writes (response_header request addons) d tt).
  { apply (writes_bind _ _ [z2b (Headers.Version request)] _ tt tt); [apply writes_based, writes_WriteByte|by apply writes_based, writes_addons]. }
  assert (Hd : zlen d <= 2048) by (unfold d; rewrite zlen_cons; lia). split.
  - unfold EncodeResponseHeader. rewrite (fresh_build _ StackNew _ tt Hw fresh_StackNew Hd). refine (writes_lift (Ok _) _ _ _ _ eq_refl _).
    rewrite (fresh_Bytes StackNew fresh_StackNew _ Hd). refine (writes_lift (Ok _) _ _ _ _ eq_refl _). eapply writes_last; [apply writes_based, writes_wr|done].
  - unfold DecodeResponseHeader. set (c := z2b (Headers.Version request)) in *.
    apply (takes_bind _ _ [c] _ (push StackNew [c])); [apply takes_base; by apply takes_fresh|].
    eapply takes_lift; [by apply (fresh_Byte StackNew fresh_StackNew [c] ltac:(done) 0 c)|]. rewrite decide_False by (intros Hn; by apply Hn).
    assert (Hb : fresh (Clear (push StackNew [c]))) by (apply fresh_again; [apply fresh_StackNew|done]).
    destruct (takes_addons (R := R) (push StackNew [c]) addons Hb Hf) as (b' & _ & Ht). eapply takes_last; [by apply takes_base|done].
Qed.

(** ** Packets *)

(** The buffers that are sent: not empty, and with room for the length. *)
Definition sent_packets (mb : MultiBuffer) : MultiBuffer := filter (fun b => 1 <= zlen (content b) <= 2046) mb.

Definition length_wire (b : Buf.Buffer) : bytes := put_be 2 (zlen (content b)) ++ content b.

Lemma put_be2 n : put_be 2 n = [z2b (Z.shiftr n 8); z2b n].
Proof. cbn [put_be]. rewrite Z.shiftr_div_pow2 by lia. change (256 ^ Z.of_nat 0) with 1. by rewrite Z.div_1_r. Qed.

Lemma length_packet b :
  buf_wf b -> 1 <= zlen (content b) <= 2046 ->
  (_ ← Buf.WriteByte (z2b (Z.shiftr (Buf.Len (Some b)) 8)); _ ← Buf.WriteByte (z2b (Buf.Len (Some b))); Write (content b)) New =
  (push New (length_wire b), Ok (zlen (content b))).
Proof.
  intros Hb Hl. rewrite Len_wf by done. unfold length_wire. rewrite put_be2. apply writes_push; [|apply New_wf|rewrite New_room, zlen_app; unfold zlen in *; cbn; lia].
  apply (writes_bind _ _ [z2b (Z.shiftr (zlen (content b)) 8)] _ tt); [apply writes_WriteByte|].
  apply (writes_bind _ _ [z2b (zlen (content b))] _ tt); [apply writes_WriteByte|apply (writes_wr (W := Buf.Buffer))].
Qed.

Lemma length_packets_spec mb :
  Forall buf_wf mb -> Forall (fun b => zlen (content b) < 2 ^ 31 - 2) mb ->
  length_packets mb = Ok (map (fun b => push New (length_wire b)) (sent_packets mb)).
Proof.
  intros Hw Hs. induction Hw as [|b mb Hb Hw IH]; [done|]. apply Forall_cons in Hs as [Hz Hs]. cbn [length_packets]. specialize (IH Hs).
  pose proof (zlen_nonneg (content b)). rewrite (Len_wf b Hb), i32_small by lia. unfold sent_packets. unfold Buf.Size. destruct (_ || _) eqn:E.
  - rewrite filter_cons_False by lia. done.
  - rewrite filter_cons_True by lia. rewrite Bytes_wf by done. cbn [mbind res_bind].
    pose proof (length_packet b Hb ltac:(lia)) as Hp. rewrite (Len_wf b Hb) in Hp. rewrite Hp, IH. done.
Qed.

Lemma sent_tidy mb : Forall tidy (map (fun b => push New (length_wire b)) (sent_packets mb)) /\
  Forall (fun b => 1 <= zlen (content b) <= 2046) (sent_packets mb) /\
  mb_content (map (fun b => push New (length_wire b)) (sent_packets mb)) = concat (map length_wire (sent_packets mb)).
Proof.
  induction mb as [|b mb (IH1 & IH2 & IH3)]; [done|]. unfold sent_packets in *. rewrite filter_cons. case_decide as Hb; [|done].
  assert (Hz : zlen (length_wire b) = 2 + zlen (content b)) by (unfold length_wire; by rewrite zlen_app, zlen_put_be).
  cbn [map concat]. split; [|split; [by constructor|]].
  - constructor; [|done]. apply tidy_push. lia.
  - rewrite mb_content_cons, push_content, New_content by apply New_wf. cbn [app]. by rewrite IH3.
Qed.

(** Reading packet after packet. *)
Fixpoint read_packets {R} `{Reader R} (n : nat) : ST R (list bytes) :=
  match n with
  | O => mret []
  | S n => mb ← LengthPacketReader_ReadMultiBuffer; ds ← read_packets n; mret (mb_content mb :: ds)
  end.

Section Packets.
Context {R : Type} `{Reader R}.

Lemma takes_length_packet b : 1 <= zlen (content b) <= 2046 ->
  takes (LengthPacketReader_ReadMultiBuffer : ST R _) (length_wire b) [push New (content b)].
Proof.
  intros Hb. unfold LengthPacketReader_ReadMultiBuffer, length_wire. eapply takes_bind; [by apply takes_full, length_put_be|].
  rewrite get_be_put_be_small by (change (256 ^ Z.of_nat 2) with 65536; lia).
  destruct (Z.to_nat (zlen (content b))) as [|[|n]] eqn:En; [lia| |].
  - assert (zlen (content b) = 1) as H1 by lia. cbn [packet_loop]. rewrite H1. change (0 <? 1) with true. change (Buf.Size <? 1) with false. cbv iota zeta.
    eapply takes_last; [apply takes_base, takes_fresh; [apply fresh_New|done|done]|done].
  - cbn [packet_loop]. replace (0 <? zlen (content b)) with true by lia. unfold Buf.Size. replace (2048 <? zlen (content b)) with false by lia.
    eapply takes_last; [apply takes_base, takes_fresh; [apply fresh_New|done|lia]|]. replace (0 <? _) with false by lia. done.
Qed.

Lemma takes_packets bs : Forall (fun b => 1 <= zlen (content b) <= 2046) bs ->
  takes (read_packets (length bs) : ST R _) (concat (map length_wire bs)) (map content bs).
Proof.
  induction 1 as [|b bs Hb Hbs IH]; [apply takes_ret|]. cbn [map concat length read_packets].
  eapply takes_bind; [by apply takes_length_packet|]. eapply takes_last; [exact IH|].
  by rewrite mb_content_one, push_content, New_content by apply New_wf.
Qed.
End Packets.

(** UDP over VLESS keeps the boundaries of packets: of the buffers written at
    once those of 1 to 2046 bytes are sent - an empty one and a fuller one are
    left out - and the other side reads exactly their contents, one packet a
    read, in order. *)
Theorem packets_keep_boundaries {W R} `{MbSink W} `{Reader R} (w : W) b mb
    (Hw : taken w b) (Hmb : Forall buf_wf mb) (Hs : zlen mb < 2 ^ 19 /\ Forall (fun b => zlen (content b) < 2 ^ 31 - 2) mb) :
  exists w' d, MultiLengthPacketWriter_WriteMultiBuffer mb w = (w', Ok tt) /\ taken w' (b ++ d) /\
    takes (read_packets (length (sent_packets mb)) : ST R _) d (map content (sent_packets mb)).
Proof.
  destruct Hs as [Hs Hz]. destruct (sent_tidy mb) as (Ht & Hp & Hc).
  set (d := concat (map length_wire (sent_packets mb))) in *.
  assert (Htake : takes (read_packets (length (sent_packets mb)) : ST R _) d (map content (sent_packets mb))) by by apply takes_packets.
  unfold MultiLengthPacketWriter_WriteMultiBuffer. replace (_ <? zlen mb + 1) with false by lia. unfold mbind, st_bind, st_lift.
  rewrite length_packets_spec by done. rewrite IsEmpty_spec by (by apply tidy_wf). case_bool_decide as E.
  - exists w, []. rewrite app_nil_r. split; [done|]. split; [done|]. rewrite Hc in E. by rewrite <- E.
  - destruct (taken_write w b (map (fun b => push New (length_wire b)) (sent_packets mb)) Hw) as (w' & -> & Hw').
    + split; [done|]. apply tidy_at_most in Ht. rewrite length_map in Ht. pose proof (length_filter (fun b => 1 <= zlen (content b) <= 2046) mb) as Hl.
      fold (sent_packets mb) in Hl. unfold zlen in *. lia.
    + intros Hn. by rewrite Hn in E.
    + exists w', d. split; [done|]. by rewrite Hc in Hw'.
Qed.

(** ** A server with one user, and addons that carry their flow *)
#[local] Instance demo_codec : AddonsCodec := {|
  proto_Marshal a := if bool_decide (a_Seed a = []) then Ok (a_Flow a) else Err (NewError "no seed");
  proto_Unmarshal d := Ok {| a_Flow := d; a_Seed := [] |} |}.

#[local] Instance demo_addons_ok : AddonsOk.
Proof.
  split; cbn.
  - intros [fl sd] d. cbn. case_bool_decide as E; [|done]. subst sd. by intros [= ->].
  - intros a d. case_bool_decide; [|done]. by intros [= <-].
  - done.
Qed.

Definition demo_id : UUID := map z2b (seqZ 1 16).
Definition demo_account : MemoryAccount := mkAccount (NewID (fun _ => []) demo_id) XRV [] 0 0 [].
Definition demo_vless_user : User := Headers.mkUser (Some demo_account) (lit "a@b") 0.
Definition demo_validator : Vless.Validator := (Add demo_vless_user NewValidator).1.
Definition demo_vless_address : Address := domainAddress (lit "example.com").
Definition demo_request (c : Z) : Request := Headers.mkRequest 0 c 0 0 443 (Some demo_vless_address) (Some demo_vless_user).
Definition vision : Addons := {| a_Flow := XRV; a_Seed := [] |}.
Definition demo_fallback : TrojanServer.Fallback := TrojanServer.mkFallback (lit "tcp") (lit "127.0.0.1:80") 0.
Definition demo_handler : Handler := {| validator := demo_validator; fallbacks := Some {[ [] := {[ [] := demo_fallback ]} ]} |}.

(** The first chunk has [n] bytes. *)
Definition demo_reader (n : nat) (d : bytes) : BufferedReader link :=
  BufReader.mkReader (mkLink [[push New (drop n d)]] EOF) [push New (take n d)].

Lemma demo_reader_wf n d : (1 <= n < length d)%nat -> zlen d <= 2048 ->
  reader_wf (demo_reader n d) /\ reader_content (demo_reader n d) = d /\ first_read (demo_reader n d) (push New (take n d)) /\
  content (push New (take n d)) = take n d.
Proof.
  intros Hn Hd. assert (Hc : forall x, content (push New x) = x) by (intros x; by rewrite push_content, New_content by apply New_wf).
  assert (Ht : forall x, 1 <= zlen x <= 2048 -> tidy_mb [push New x]).
  { intros x Hx. split; [constructor; [by apply tidy_push|constructor]|]. rewrite mb_content_one, Hc. lia. }
  split; [split; [apply Ht; unfold zlen in *; rewrite length_take; lia|]|split; [|split; [by exists []|apply Hc]]].
  - constructor; [|constructor]. split; [apply Ht; unfold zlen in *; rewrite length_drop; lia|discriminate].
  - unfold reader_content, demo_reader. cbn [BufReader.Buffer source source_content link_source mbs map concat].
    rewrite !mb_content_one, !Hc. cbn [app]. rewrite app_nil_r. apply take_drop.
Qed.

Definition demo_sent (c : Z) : bytes := request_wire (demo_request c) vision demo_id demo_vless_address.

Lemma demo_request_ok : request_ok (demo_request 1) vision demo_vless_address.
Proof.
  split; [done|]. split; [done|]. split; [cbn; lia|]. split; [intros _; by exists XRV|]. right. split; [by left|].
  split; [done|]. split; [vm_compute; split; discriminate|]. split; vm_compute; reflexivity.
Qed.

Lemma vless_request_arrives_witness :
  exists r', Process demo_handler None 20 (demo_reader 20 (demo_sent 1 ++ lit "GET /")) =
    (r', Ok (Accepted (received (demo_request 1) demo_vless_user demo_vless_address) vision)) /\ reader_content r' = lit "GET /".
Proof.
  assert (Hi : identified demo_vless_user demo_id) by (exists demo_account; split; [reflexivity|split; reflexivity]).
  destruct (vless_request_arrives (W := sink) demo_handler None (demo_request 1) vision demo_vless_user demo_id demo_vless_address demo_vless_user
    demo_request_ok eq_refl Hi ltac:(vm_compute; reflexivity)) as (d & Hd & Hr).
  assert (Hds : d = demo_sent 1).
  { destruct (Hd sink_empty 0 ltac:(lia) eq_refl) as (w' & E & [Hw _] & _).
    assert (E2 : (EncodeRequestHeader (demo_request 1) vision : ST sink unit) sink_empty = ({| sent := [demo_sent 1]; broken := None |}, Ok tt)) by (vm_compute; reflexivity).
    rewrite E2 in E. injection E as <-. symmetry. exact Hw. }
  subst d. destruct (demo_reader_wf 20 (demo_sent 1 ++ lit "GET /")) as (Hwf & Hc & Hf & Hfc); [vm_compute; lia|vm_compute; discriminate|].
  destruct (Hr (demo_reader 20 (demo_sent 1 ++ lit "GET /")) (push New (take 20 (demo_sent 1 ++ lit "GET /"))) (lit "GET /") Hwf Hc) as (r' & E & _ & Hc' & _).
  { intros _. split; [exact Hf|]. rewrite Hfc. vm_compute. discriminate. }
  exists r'. split; [|exact Hc']. rewrite Hfc in E. exact E.
Defined.


Lemma packets_keep_boundaries_witness :
  exists w' d, MultiLengthPacketWriter_WriteMultiBuffer [push New (lit "one"); New; push New (lit "three")] (mkOut [] None) = (w', Ok tt) /\
    taken w' d /\ takes (read_packets 2 : ST conn _) d [lit "one"; lit "three"].
Proof.
  destruct (packets_keep_boundaries (R := conn) (mkOut [] None) [] [push New (lit "one"); New; push New (lit "three")]) as (w' & d & E & Ht & Hr).
  - split; [reflexivity|]. split; [reflexivity|constructor].
  - repeat (constructor; [vm_compute; repeat split; discriminate|]). constructor.
  - split; [vm_compute; reflexivity|]. repeat (constructor; [vm_compute; reflexivity|]). constructor.
  - exists w', d. split; [exact E|]. split; [exact Ht|exact Hr].
Defined.

(** ** What the table of users does not refuse *)

(** Two users whose IDs differ in bytes 6 and 7 only: the second takes the place
    of the first, and removing the first removes it. *)
Definition twin_id : UUID := <[6%nat := z2b 99]> demo_id.
Definition twin : User := Headers.mkUser (Some (mkAccount (NewID (fun _ => []) twin_id) [] [] 0 0 [])) (lit "c@d") 0.

Lemma twin_replaces :
  let v := (Add twin demo_validator).1 in
  (Add twin demo_validator).2 = Ok tt /\ Get demo_id v = Some twin /\ Get twin_id (Del (lit "a@b") v).1 = None.
Proof. vm_compute. repeat split. Qed.
