(* ===== verification/VmessAead.v ===== *)
(** * Package proxy/vmess/aead: authentication IDs and sealed headers

    [Module VmessAead] models kdf.go, authid.go and encrypt.go, over the
    primitives of the class [VmessCrypto], which all of proxy/vmess shares. *)
From S2P Require Import Prelude GoStd GoText Uuid Auth Replay.
Import Auth Replay.

Module VmessAead.

(** SHA-256, MD5, CRC-32 (IEEE), AES on a block, AES-GCM and ChaCha20-Poly1305 from
    a key, AES in CFB mode from key and IV, SHAKE-128 from what is written to it,
    and random bytes. *)
Class VmessCrypto (C T K G : Type) := {
  sha256 : bytes -> bytes;
  md5 : bytes -> bytes;
  crc32 : bytes -> Z;
  aes_Encrypt : bytes -> bytes -> bytes;
  aes_Decrypt : bytes -> bytes -> bytes;
  NewAesGcm : bytes -> C;
  chacha20poly1305_New : bytes -> C;
  NewAesEncryptionStream : bytes -> bytes -> T;
  NewAesDecryptionStream : bytes -> bytes -> T;
  NewShake128 : bytes -> K;
  shake_Read : nat -> K -> K * bytes;
  random_Read : Z -> G -> G * bytes;
}.

(** ** consts.go and kdf.go *)
Definition KDFSaltConstAuthIDEncryptionKey := lit "AES Auth ID Encryption".
Definition KDFSaltConstAEADRespHeaderLenKey := lit "AEAD Resp Header Len Key".
Definition KDFSaltConstAEADRespHeaderLenIV := lit "AEAD Resp Header Len IV".
Definition KDFSaltConstAEADRespHeaderPayloadKey := lit "AEAD Resp Header Key".
Definition KDFSaltConstAEADRespHeaderPayloadIV := lit "AEAD Resp Header IV".
Definition KDFSaltConstVMessAEADKDF := lit "VMess AEAD KDF".
Definition KDFSaltConstVMessHeaderPayloadAEADKey := lit "VMess Header AEAD Key".
Definition KDFSaltConstVMessHeaderPayloadAEADIV := lit "VMess Header AEAD Nonce".
Definition KDFSaltConstVMessHeaderPayloadLengthAEADKey := lit "VMess Header AEAD Key_Length".
Definition KDFSaltConstVMessHeaderPayloadLengthAEADIV := lit "VMess Header AEAD Nonce_Length".

Section Aead.
Context {C T K G : Type} `{AeadCipher C} `{VmessCrypto C T K G}.

(** HMACs nested: the hash of each is the HMAC before it. *)
Definition KDF (key : bytes) (path : list bytes) : bytes :=
  fold_left (fun H v => hmac H v) path (hmac sha256 KDFSaltConstVMessAEADKDF) key.

Definition KDF16 (key : bytes) (path : list bytes) : bytes := take 16 (KDF key path).

(** ** authid.go *)

(** [time] is an int64, [random] four bytes. *)
Definition CreateAuthID (cmdKey : bytes) (time : Z) (random : bytes) : bytes :=
  let buf := put_be 8 time ++ random in
  let buf := buf ++ put_be 4 (crc32 buf) in
  aes_Encrypt (KDF16 cmdKey [KDFSaltConstAuthIDEncryptionKey]) buf.

Definition i64 (z : Z) : Z := (z + 2 ^ 63) mod 2 ^ 64 - 2 ^ 63.

(** Time, checksum and the bytes; the random number is not used. *)
Definition Decode (cmdKey data : bytes) : Z * Z * bytes :=
  let d := aes_Decrypt (KDF16 cmdKey [KDFSaltConstAuthIDEncryptionKey]) data in
  (i64 (get_be (take 8 d)), get_be (take 4 (drop 12 d)), d).

Record AuthIDDecoderHolder (F Ticket : Type) := mkHolder {
  decoders : gmap bytes Ticket;     (* by key; the cipher of an item comes from the key *)
  filter : ReplayFilter F;
}.
Arguments mkHolder {F Ticket}.
Arguments decoders {F Ticket}.
Arguments filter {F Ticket}.

Definition ErrNotFound : error := NewError "user do not exist".
Definition ErrReplay : error := NewError "replayed request".

Section Holder.
Context {F Ticket : Type} `{Filter F}.

Definition NewAuthIDDecoderHolder : AuthIDDecoderHolder F Ticket := mkHolder ∅ (NewReplayFilter 120).

Definition AddUser (key : bytes) (ticket : Ticket) (a : AuthIDDecoderHolder F Ticket) : AuthIDDecoderHolder F Ticket :=
  mkHolder (<[key := ticket]> (decoders a)) (filter a).

Definition RemoveUser (key : bytes) (a : AuthIDDecoderHolder F Ticket) : AuthIDDecoderHolder F Ticket :=
  mkHolder (delete key (decoders a)) (filter a).

(** Whether the decoder of a key takes the ID for one of its own: the checksum
    and a time within two minutes.  The times are compared as floating-point
    numbers, which are exact where it matters. *)
Definition accepts (now : Z) (authID key : bytes) : bool :=
  let '(t, z, d) := Decode key authID in
  (z =? crc32 (take 12 d)) && (0 <=? t) && (Z.abs (Z.abs t - now) <=? 120).

(** The loop over the map, in the order [items] that the run-time system gives. *)
Fixpoint match_loop (now : Z) (authID : bytes) (items : list (bytes * Ticket)) : option Ticket :=
  match items with
  | [] => None
  | (key, ticket) :: items => if accepts now authID key then Some ticket else match_loop now authID items
  end.

Definition Match (now : Z) (items : list (bytes * Ticket)) (authID : bytes) : ST (AuthIDDecoderHolder F Ticket) Ticket := fun a =>
  match match_loop now authID items with
  | None => (a, Err ErrNotFound)
  | Some ticket =>
    let '(f, fresh) := Check authID now (filter a) in
    (mkHolder (decoders a) f, if fresh : bool then Ok ticket else Err ErrReplay)
  end.
End Holder.

(** ** encrypt.go *)

(** Key and nonce of one of the two sealed parts. *)
Definition part_aead (key saltKey generatedAuthID connectionNonce : bytes) : C :=
  NewAesGcm (KDF16 key [saltKey; generatedAuthID; connectionNonce]).
Definition part_nonce (key saltIV generatedAuthID connectionNonce : bytes) : bytes :=
  take 12 (KDF key [saltIV; generatedAuthID; connectionNonce]).

Definition header_seal (key saltKey saltIV authid nonce d : bytes) : res bytes :=
  aead_Seal (part_aead key saltKey authid nonce) (part_nonce key saltIV authid nonce) d authid.
Definition header_open (key saltKey saltIV authid nonce d : bytes) : res bytes :=
  aead_Open (part_aead key saltKey authid nonce) (part_nonce key saltIV authid nonce) d authid.

(** [time] and the random bytes of the ID, and the random [connectionNonce]. *)
Definition SealVMessAEADHeader (key data : bytes) (time : Z) (random connectionNonce : bytes) : res bytes :=
  let generatedAuthID := CreateAuthID key time random in
  let headerPayloadDataLen := u16 (zlen data) in
  payloadHeaderLengthAEADEncrypted ← header_seal key KDFSaltConstVMessHeaderPayloadLengthAEADKey KDFSaltConstVMessHeaderPayloadLengthAEADIV
    generatedAuthID connectionNonce (put_be 2 headerPayloadDataLen);
  payloadHeaderAEADEncrypted ← header_seal key KDFSaltConstVMessHeaderPayloadAEADKey KDFSaltConstVMessHeaderPayloadAEADIV
    generatedAuthID connectionNonce data;
  Ok (generatedAuthID ++ payloadHeaderLengthAEADEncrypted ++ connectionNonce ++ payloadHeaderAEADEncrypted).

(** What [OpenVMessAEADHeader] returns: the data, or an error and whether to drain;
    and the bytes it has read. *)
Inductive opened :=
  | Opened (data : bytes)
  | NotOpened (shouldDrain : bool) (bytesRead : Z) (errorReason : error).

Section Open.
Context {R : Type} `{Reader R}.

(** [make] and [io.ReadFull]; [k] goes on with the bytes. *)
Definition read_part (n : nat) (bytesRead : Z) (k : bytes -> Z -> ST R opened) : ST R opened := fun r =>
  match ReadFull r n with
  | (r, (d, Some err)) => (r, Ok (NotOpened false (bytesRead + zlen d) err))
  | (r, (d, None)) => k d (bytesRead + zlen d) r
  end.

Definition open_part (x : res bytes) (bytesRead : Z) (k : bytes -> ST R opened) : ST R opened := fun r =>
  match x with
  | Ok d => k d r
  | Err erropenAEAD => (r, Ok (NotOpened true bytesRead erropenAEAD))
  | Panic => (r, Panic)
  end.

(** [length+16] is a sum of uint16. *)
Definition OpenVMessAEADHeader (key authid : bytes) : ST R opened :=
  read_part 18 0 (fun payloadHeaderLengthAEADEncrypted bytesRead =>
  read_part 8 bytesRead (fun nonce bytesRead =>
  open_part (header_open key KDFSaltConstVMessHeaderPayloadLengthAEADKey KDFSaltConstVMessHeaderPayloadLengthAEADIV authid nonce
    payloadHeaderLengthAEADEncrypted) bytesRead (fun decryptedAEADHeaderLengthPayload =>
  length ← st_lift (or_panic (slice decryptedAEADHeaderLengthPayload 0 2));
  read_part (Z.to_nat (u16 (get_be length + 16))) bytesRead (fun payloadHeaderAEADEncrypted bytesRead =>
  open_part (header_open key KDFSaltConstVMessHeaderPayloadAEADKey KDFSaltConstVMessHeaderPayloadAEADIV authid nonce
    payloadHeaderAEADEncrypted) bytesRead (fun decryptedAEADHeaderPayload =>
  mret (Opened decryptedAEADHeaderPayload)))))).
End Open.
End Aead.
#[global] Arguments mkHolder {F Ticket}.
#[global] Arguments decoders {F Ticket}.
#[global] Arguments filter {F Ticket}.
End VmessAead.
