(* ===== verification/VmessAeadSpec.v ===== *)
(** * Package proxy/vmess/aead: what its IDs and headers promise

    An ID that a user's client creates is the user's and is taken once, whatever
    order the map of users is walked in; a sealed header opens to what was
    sealed. *)
From S2P Require Import Prelude GoStd GoText Uuid Codec Auth AuthSpec Replay VmessAead.
Import Auth Replay Codec VmessAead.

(** Documented sizes; AES is invertible. *)
Class VmessCryptoOk (C T K G : Type) `{AeadCipher C} `{VmessCrypto C T K G} : Prop := {
  sha256_length d : length (sha256 d) = 32%nat;
  md5_length d : length (md5 d) = 16%nat;
  aes_length key b : length b = 16%nat -> length (aes_Encrypt key b) = 16%nat;
  aes_inverse key b : length b = 16%nat -> aes_Decrypt key (aes_Encrypt key b) = b;
  gcm_nonce_size key : NonceSize (NewAesGcm key) = 12;
  chacha_nonce_size key : NonceSize (chacha20poly1305_New key) = 12;
  shake_length n k : length (shake_Read n k).2 = n;
  random_length n g : 0 <= n -> zlen (random_Read n g).2 = n;
}.

Section Aead.
Context {C T K G : Type} `{VmessCryptoOk C T K G}.

Lemma KDF_length key path : length (KDF key path) = 32%nat.
Proof.
  unfold KDF. assert (H0' : forall m, length (hmac sha256 KDFSaltConstVMessAEADKDF m) = 32%nat) by (intros m; apply sha256_length).
  revert H0'. generalize (hmac sha256 KDFSaltConstVMessAEADKDF). induction path as [|p path IH]; intros Hh Hl; [apply Hl|].
  cbn [fold_left]. apply IH. intros m. apply Hl.
Qed.

(** ** Authentication IDs *)
Definition auth_plain (time : Z) (random : bytes) : bytes := put_be 8 time ++ random.

Lemma CreateAuthID_length key time random : length random = 4%nat -> length (CreateAuthID key time random) = 16%nat.
Proof. intros Hr. unfold CreateAuthID. apply aes_length. rewrite !length_app, !length_put_be, Hr. done. Qed.

Lemma Decode_CreateAuthID key time random :
  length random = 4%nat -> 0 <= time < 2 ^ 63 -> 0 <= crc32 (auth_plain time random) < 2 ^ 32 ->
  exists d, Decode key (CreateAuthID key time random) = (time, crc32 (auth_plain time random), d) /\ take 12 d = auth_plain time random.
Proof.
  intros Hr Ht Hcrc. unfold Decode, CreateAuthID. fold (auth_plain time random).
  rewrite aes_inverse by (unfold auth_plain; rewrite !length_app, !length_put_be, Hr; done). eexists. split; [|].
  - f_equal; f_equal.
    + unfold auth_plain. rewrite <- !app_assoc. change 8%nat with (length (put_be 8 time)) at 1.
      rewrite take_app_length, get_be_put_be_small by (change (256 ^ Z.of_nat 8) with (2 ^ 64); lia).
      unfold i64. rewrite Z.mod_small by lia. lia.
    + replace 12%nat with (length (auth_plain time random)) by (unfold auth_plain; rewrite length_app, length_put_be, Hr; done).
      rewrite drop_app_length. rewrite <- (app_nil_r (put_be 4 _)). rewrite take_app_le, take_ge by (rewrite length_put_be; lia).
      apply get_be_put_be_small. change (256 ^ Z.of_nat 4) with (2 ^ 32). lia.
  - replace 12%nat with (length (auth_plain time random)) by (unfold auth_plain; rewrite length_app, length_put_be, Hr; done).
    apply take_app_length.
Qed.

Lemma accepts_own key time random now :
  length random = 4%nat -> 0 <= time < 2 ^ 63 -> 0 <= crc32 (auth_plain time random) < 2 ^ 32 ->
  accepts now (CreateAuthID key time random) key = (Z.abs (time - now) <=? 120).
Proof.
  intros Hr Ht Hcrc. unfold accepts. destruct (Decode_CreateAuthID key time random Hr Ht Hcrc) as (d & -> & ->).
  rewrite Z.eqb_refl. cbn [andb]. replace (0 <=? time) with true by lia. cbn [andb]. by rewrite (Z.abs_eq time) by lia.
Qed.

Section Holder.
Context {F Ticket : Type} `{Filter F} {holds : bytes -> F -> Prop} `{!FilterOk F holds}.

(** No other key of the holder happens to decode the ID. *)
Definition only_key (now : Z) (authID key : bytes) (a : AuthIDDecoderHolder F Ticket) : Prop :=
  forall key' ticket, decoders a !! key' = Some ticket -> accepts now authID key' = true -> key' = key.

Lemma match_loop_only now authID key ticket (items : list (bytes * Ticket)) :
  (key, ticket) ∈ items -> accepts now authID key = true ->
  (forall key' t', (key', t') ∈ items -> accepts now authID key' = true -> t' = ticket) ->
  match_loop now authID items = Some ticket.
Proof.
  intros Hin Ha Ho. induction items as [|[key' t'] items IH]; [by apply elem_of_nil in Hin|]. cbn [match_loop].
  destruct (accepts now authID key') eqn:E.
  - f_equal. apply (Ho key'); [by left|done].
  - apply elem_of_cons in Hin as [[= <- <-]|Hin]; [congruence|]. apply IH; [done|]. intros k t Hk. apply Ho. by right.
Qed.

Lemma match_loop_none now authID (items : list (bytes * Ticket)) :
  (forall key t, (key, t) ∈ items -> accepts now authID key = false) -> match_loop now authID items = None.
Proof.
  intros Hn. induction items as [|[key t] items IH]; [done|]. cbn [match_loop]. rewrite (Hn key t) by by left.
  apply IH. intros k t' Hk. apply (Hn k t'). by right.
Qed.

Lemma match_finds (a : AuthIDDecoderHolder F Ticket) key ticket time random now items :
  length random = 4%nat -> 0 <= time < 2 ^ 63 -> 0 <= crc32 (auth_plain time random) < 2 ^ 32 -> Z.abs (time - now) <= 120 ->
  decoders a !! key = Some ticket -> only_key now (CreateAuthID key time random) key a -> items ≡ₚ map_to_list (decoders a) ->
  match_loop now (CreateAuthID key time random) items = Some ticket.
Proof.
  intros Hr Ht Hcrc Hnow Hk Honly Hi. apply (match_loop_only now _ key ticket).
  - rewrite Hi. by apply elem_of_map_to_list.
  - rewrite accepts_own by done. lia.
  - intros key' t' Hin Ha. rewrite Hi in Hin. apply elem_of_map_to_list in Hin. rewrite (Honly key' t' Hin Ha), Hk in Hin. congruence.
Qed.

(** An authentication ID is its user's, and works once.  Made with four random
    bytes and the key of a user of the holder, for a time at most two minutes before or
    after now, it is matched to that user in whatever order the run-time system walks
    the map - if no other key takes it for its own, and the filter has not seen it; and
    when it is presented again, the ID being still within its two minutes and less than
    the filter's interval (two minutes) having passed, whatever was checked in between
    at times that do not decrease, it is a replay.  AES is assumed to decrypt what it
    encrypted, the checksum to have 32 bits, and the filter to keep what it holds, as a
    cuckoo filter does while it is not full. *)
Theorem auth_id_matches_once (a : AuthIDDecoderHolder F Ticket) key ticket time random now items
    (Hr : length random = 4%nat) (Ht : 0 <= time < 2 ^ 63) (Hcrc : 0 <= crc32 (auth_plain time random) < 2 ^ 32)
    (Hnow : Z.abs (time - now) <= 120) (Hk : decoders a !! key = Some ticket)
    (Honly : forall now', only_key now' (CreateAuthID key time random) key a) (Hitems : items ≡ₚ map_to_list (decoders a))
    (Hpos : 0 < now) (Hswap : lastSwap (filter a) <= now) (Hfresh : (Check (CreateAuthID key time random) now (filter a)).2 = true) :
  let authID := CreateAuthID key time random in
  exists a', Match now items authID a = (a', Ok ticket) /\ decoders a' = decoders a /\
    forall l now' items', Sorted Z.le (now :: map snd l ++ [now']) -> items' ≡ₚ map_to_list (decoders a) ->
      Z.abs (time - now') <= 120 -> now' - now < interval (filter a') ->
      (Match now' items' authID (mkHolder (decoders a) (checks l (filter a')))).2 = Err ErrReplay.
Proof.
  intros authID.
  assert (Hmatch : forall now' items', Z.abs (time - now') <= 120 -> items' ≡ₚ map_to_list (decoders a) -> match_loop now' authID items' = Some ticket).
  { intros now' items' Hn Hi. by apply (match_finds a key). }
  unfold Match. rewrite (Hmatch now items Hnow Hitems). fold authID in Hfresh. destruct (Check authID now (filter a)) as [f fresh] eqn:E. cbn [snd] in Hfresh. subst fresh.
  eexists. split; [done|]. split; [done|]. intros l now' items' Hs Hi Hn Hlt. cbn [filter decoders]. rewrite (Hmatch now' items' Hn Hi).
  destruct (Check_accepts authID now (filter a) f Hpos E Hswap) as [Hrem Hl].
  pose proof (remembered_rejected authID now now f l now' Hpos Hs ltac:(lia) Hrem Hl Hlt) as Hrej.
  destruct (Check authID now' (checks l f)) as [f2 fresh]. cbn [snd] in Hrej. by subst fresh.
Qed.
End Holder.

(** ** Sealed headers *)
Context `{AO : !AeadOk C 16}.

Lemma header_sealed key saltKey saltIV authid nonce d :
  exists ct, header_seal key saltKey saltIV authid nonce d = Ok ct /\ zlen ct = zlen d + 16 /\
    header_open key saltKey saltIV authid nonce ct = Ok d.
Proof.
  unfold header_seal, header_open, part_aead, part_nonce. apply aead_seal_open.
  rewrite gcm_nonce_size. unfold zlen. rewrite length_take, KDF_length. done.
Qed.

Lemma takes_part {R} `{Reader R} n m k d1 d2 a :
  n = length d1 -> takes (k d1 (m + zlen d1) : ST R opened) d2 a -> takes (read_part n m k) (d1 ++ d2) a.
Proof.
  intros -> Hk r rest Hr Hc. rewrite <- app_assoc in Hc. unfold read_part.
  destruct (takes_full (length d1) id d1 eq_refl r (d2 ++ rest) Hr Hc) as (r1 & E & Hr1 & He1 & Hc1). unfold readFull in E.
  destruct (ReadFull r (length d1)) as [r0 [bs [e|]]]; [done|]. injection E as -> ->.
  destruct (Hk r1 rest Hr1 Hc1) as (r2 & -> & Hr2 & He2 & Hc2). exists r2. split; [done|]. split; [done|]. by split; [congruence|].
Qed.

(** The header opens, the ID read before. *)
Lemma sealed_header_opens {R} `{Reader R} key data time random nonce :
  zlen data <= 65519 -> length nonce = 8%nat -> length random = 4%nat ->
  exists d, SealVMessAEADHeader key data time random nonce = Ok (CreateAuthID key time random ++ d) /\
    takes (OpenVMessAEADHeader key (CreateAuthID key time random) : ST R opened) d (Opened data).
Proof.
  intros Hd Hn Hr. pose proof (zlen_nonneg data) as H0d. unfold SealVMessAEADHeader. set (authID := CreateAuthID key time random).
  destruct (header_sealed key KDFSaltConstVMessHeaderPayloadLengthAEADKey KDFSaltConstVMessHeaderPayloadLengthAEADIV authID nonce
    (put_be 2 (u16 (zlen data)))) as (ct1 & -> & Hz1 & Ho1).
  destruct (header_sealed key KDFSaltConstVMessHeaderPayloadAEADKey KDFSaltConstVMessHeaderPayloadAEADIV authID nonce data) as (ct2 & -> & Hz2 & Ho2).
  cbn [mbind res_bind]. exists (ct1 ++ nonce ++ ct2). split; [done|]. rewrite zlen_put_be in Hz1. unfold OpenVMessAEADHeader.
  apply takes_part; [unfold zlen in Hz1; lia|]. apply takes_part; [done|]. rewrite Ho1. unfold open_part at 1.
  eapply takes_lift; [rewrite slice_Some by (rewrite ?zlen_put_be; lia); reflexivity|].
  change (Z.to_nat (2 - 0)) with (length (put_be 2 (u16 (zlen data)))). change (Z.to_nat 0) with 0%nat. rewrite drop_0, take_ge by done.
  rewrite get_be_put_be_small by (change (256 ^ Z.of_nat 2) with 65536; pose proof (u16_range (zlen data)); lia).
  rewrite (u16_small (zlen data)) by lia. rewrite u16_small by lia. rewrite <- (app_nil_r ct2). apply takes_part; [unfold zlen in *; lia|]. rewrite Ho2. apply takes_ret.
Qed.
End Aead.

(** ** Primitives to try the theorems on *)
Module DemoCrypto.
Definition tag (nonce ad : bytes) : bytes := take 16 (nonce ++ ad ++ replicate 16 x00).

#[export] Instance demo_aead : AeadCipher bytes := {|
  NonceSize _ := 12; aead_Overhead _ := 16;
  aead_Seal _ nonce d ad := Ok (d ++ tag nonce ad);
  aead_Open _ nonce ct ad :=
    if decide (drop (length ct - 16) ct = tag nonce ad) then Ok (take (length ct - 16) ct) else Err (NewError "message authentication failed") |}.

#[export] Instance demo_aead_ok : AeadOk bytes 16.
Proof.
  split; [lia|done|]. intros c nonce d ad Hn. cbn in *. eexists. split; [done|].
  assert (Hl : length (tag nonce ad) = 16%nat) by (unfold tag; rewrite length_take, !length_app, length_replicate; lia).
  split; [unfold zlen in *; rewrite length_app, Hl; lia|]. rewrite length_app, Hl, Nat.add_sub.
  by rewrite drop_app_length, take_app_length, decide_True.
Qed.

(** Folding the input over the output. *)
Fixpoint fold_in (n : nat) (d acc : bytes) : bytes :=
  match d with
  | [] => take n (acc ++ replicate n x00)
  | x :: d => fold_in n d (match acc with [] => [x] | y :: acc => acc ++ [z2b (b2z x * 5 + b2z y + 1)] end)
  end.

Lemma fold_in_length n d acc : length (fold_in n d acc) = n.
Proof. revert acc. induction d as [|x d IH]; intros acc; [cbn [fold_in]; rewrite length_take, length_app, length_replicate; lia|apply IH]. Qed.

Definition demo_hash (n : nat) (d : bytes) : bytes := fold_in n d (replicate n x00).

#[export] Instance demo_crypto : VmessCrypto bytes bytes nat nat := {|
  sha256 := demo_hash 32; md5 := demo_hash 16; crc32 d := get_be (demo_hash 4 d);
  aes_Encrypt key b := rev b; aes_Decrypt key b := rev b;
  NewAesGcm key := key; chacha20poly1305_New key := key;
  NewAesEncryptionStream key iv := key; NewAesDecryptionStream key iv := key;
  NewShake128 d := length d; shake_Read n k := (S k, replicate n (z2b (Z.of_nat k)));
  random_Read n g := (S g, replicate (Z.to_nat n) (z2b (Z.of_nat g))) |}.

#[export] Instance demo_crypto_ok : VmessCryptoOk bytes bytes nat nat.
Proof.
  split; cbn; intros; try done; try apply fold_in_length; rewrite ?length_rev; try done.
  - apply rev_involutive.
  - apply length_replicate.
  - unfold zlen. rewrite length_replicate. lia.
Qed.
End DemoCrypto.
Import DemoCrypto.

Definition demo_key : bytes := map z2b (seqZ 1 16).
Definition demo_holder : AuthIDDecoderHolder (list bytes) Z := AddUser demo_key 7 NewAuthIDDecoderHolder.
Definition demo_random : bytes := map z2b [9; 8; 7; 6].

Lemma auth_id_matches_once_witness :
  let authID := CreateAuthID demo_key 1000 demo_random in
  let a := (Match 1010 [(demo_key, 7)] authID demo_holder).1 in
  (Match 1010 [(demo_key, 7)] authID demo_holder).2 = Ok 7 /\
  (Match 1100 [(demo_key, 7)] authID (mkHolder (decoders demo_holder) (checks [([x01], 1050)] (filter a)))).2 = Err ErrReplay.
Proof.
  intros authID a.
  assert (Hk : forall key' t, decoders demo_holder !! key' = Some t -> key' = demo_key).
  { intros key' t Hl. unfold demo_holder, AddUser in Hl. cbn [decoders] in Hl. apply lookup_insert_Some in Hl as [[? _]|[_ Hl]]; [done|].
    unfold NewAuthIDDecoderHolder in Hl. cbn [decoders] in Hl. by rewrite lookup_empty in Hl. }
  destruct (auth_id_matches_once (holds := fun x l => x ∈ l) demo_holder demo_key 7 1000 demo_random 1010 [(demo_key, 7)]) as (a' & E & _ & Hr).
  - reflexivity.
  - lia.
  - vm_compute. split; [discriminate|reflexivity].
  - vm_compute. discriminate.
  - vm_compute. reflexivity.
  - intros now' key' t Hl _. exact (Hk key' t Hl).
  - vm_compute. reflexivity.
  - lia.
  - vm_compute. discriminate.
  - vm_compute. reflexivity.
  - unfold a, authID. rewrite E. split; [reflexivity|]. apply (Hr [([x01], 1050)] 1100 [(demo_key, 7)]).
    + cbn. repeat (apply Sorted_cons || apply Sorted_nil || apply HdRel_cons || apply HdRel_nil || lia).
    + vm_compute. reflexivity.
    + vm_compute. discriminate.
    + assert (Hi : interval (filter a') = 120) by (apply (f_equal (fun x => interval (filter x.1))) in E; cbn [fst] in E; rewrite <- E; vm_compute; reflexivity).
      rewrite Hi. lia.
Defined.

(** The window for the time of an ID is wider than what the filter remembers: an
    ID of a clock that is two minutes ahead is taken again. *)
Lemma auth_id_taken_twice :
  let authID := CreateAuthID demo_key 1120 demo_random in
  let a0 := (Match 881 [(demo_key, 7)] (CreateAuthID demo_key 900 demo_random) demo_holder).1 in
  let a1 := Match 1000 [(demo_key, 7)] authID a0 in
  let a2 := Match 1001 [(demo_key, 7)] (CreateAuthID demo_key 1001 demo_random) a1.1 in
  a1.2 = Ok 7 /\ (Match 1121 [(demo_key, 7)] authID a2.1).2 = Ok 7.
Proof. vm_compute. split; reflexivity. Qed.
