(* ===== verification/VmessUsers.v ===== *)
(** * Package proxy/vmess: accounts and the table of users

    [Module VmessUsers] models account.go and validator.go: the users, the hashes
    of the legacy protocol that stand for a user at a time, with the fuse that
    marks one as attacked, and the decoders of authentication IDs.  Times are in
    seconds. *)
From S2P Require Import Prelude GoStd GoText Uuid Headers Auth Replay VmessAead.
Import Uuid Auth Replay VmessAead.
Import Headers(MemoryUser).

Module VmessUsers.

(** ** account.go *)
Record MemoryAccount := mkAccount {
  ID_ : ID;
  AlterIDs : list ID;
  Security : Z;
  AuthenticatedLengthExperiment : bool;
  NoTerminationSignal : bool;
}.
Abbreviation User := (MemoryUser MemoryAccount).

Record AccountConfig := mkConfig { Id : bytes; AlterId : Z; SecurityType : Z; TestsEnabled : bytes }.

(** [roll] is [dice.Roll(len(a.AlterIDs))]. *)
Definition AnyValidID (a : MemoryAccount) (roll : nat) : res ID :=
  match AlterIDs a with [] => Ok (ID_ a) | ids => or_panic (ids !! roll) end.

Definition Equals (a : MemoryAccount) (account : option MemoryAccount) : bool :=
  match account with Some vmessAccount => ID_Equals (ID_ a) (ID_ vmessAccount) | None => false end.

Definition ErrNotFound : error := NewError "Not Found".
Definition ErrTainted : error := NewError "ErrTainted".

Definition cacheDurationSec : Z := 120.

(** ** validator.go *)
Record user := mkUser { u_user : User; lastSec : Z }.

(** The fuse belongs to one entry of the map: it is part of it. *)
Record indexTimePair := mkPair { p_user : User; timeInc : Z; taintedFuse : bool }.

Record TimedUserValidator (F : Type) := mkValidator {
  users : list user;
  userHash : gmap bytes indexTimePair;
  baseTime : Z;
  behaviorSeed : Z;
  behaviorFused : bool;
  aeadDecoderHolder : AuthIDDecoderHolder F User;
  legacyWarnShown : bool;
}.
Arguments mkValidator {F}.
Arguments users {F}.
Arguments userHash {F}.
Arguments baseTime {F}.
Arguments behaviorSeed {F}.
Arguments behaviorFused {F}.
Arguments aeadDecoderHolder {F}.
Arguments legacyWarnShown {F}.

Section Users.
Context {C T K G F : Type} `{AeadCipher C} `{VmessCrypto C T K G} `{Filter F}.

(** [crc64 seed d] is [crc64.Update] with the ECMA table. *)
Variable crc64 : Z -> bytes -> Z.

(** [spare] and [fuel] are those of [ParseString] and [NewAlterIDs]. *)
Definition AsAccount (spare fuel : nat) (a : AccountConfig) : option (res MemoryAccount) :=
  match ParseString spare (Id a) with
  | Ok id =>
    let protoID := NewID md5 id in
    ids ← NewAlterIDs md5 fuel protoID (u16 (AlterId a));
    Some (Ok {| ID_ := protoID; AlterIDs := ids; Security := SecurityType a;
                AuthenticatedLengthExperiment := Contains (TestsEnabled a) (lit "AuthenticatedLength");
                NoTerminationSignal := Contains (TestsEnabled a) (lit "NoTerminationSignal") |})
  | Err e => Some (Err (Based "failed to parse ID" e))
  | Panic => Some Panic
  end.

(** The hash is [DefaultIDHash]. *)
Definition hasher (id : ID) (ts : Z) : bytes := DefaultIDHash md5 (uuid id) (put_be 8 ts).

Definition NewTimedUserValidator (now : Z) : TimedUserValidator F :=
  mkValidator [] ∅ (now - cacheDurationSec * 2) 0 false NewAuthIDDecoderHolder false.

(** [genHashForID] *)
Definition genHashForID (base nowSec : Z) (u : user) (m : gmap bytes indexTimePair) (id : ID) : gmap bytes indexTimePair :=
  let genEndSec := nowSec + cacheDurationSec in
  let genBeginSec := if lastSec u <? nowSec - cacheDurationSec then nowSec - cacheDurationSec else lastSec u in
  fold_left (fun m ts => <[hasher id ts := {| p_user := u_user u; timeInc := u32 (ts - base); taintedFuse := false |}]> m)
    (seqZ genBeginSec (genEndSec - genBeginSec + 1)) m.

(** [generateNewHashes]: the map and the user with its new [lastSec]. *)
Definition generateNewHashes (base nowSec : Z) (u : user) (m : gmap bytes indexTimePair) : res (gmap bytes indexTimePair * user) :=
  account ← or_panic (Headers.Account (u_user u));
  Ok (fold_left (genHashForID base nowSec u) (ID_ account :: AlterIDs account) m,
      {| u_user := u_user u; lastSec := nowSec + cacheDurationSec |}).

Definition removeExpiredHashes (expire : Z) (m : gmap bytes indexTimePair) : gmap bytes indexTimePair :=
  base.filter (fun kv => expire <= timeInc kv.2) m.

Fixpoint generate_all (base nowSec : Z) (us : list user) (m : gmap bytes indexTimePair) : res (gmap bytes indexTimePair * list user) :=
  match us with
  | [] => Ok (m, [])
  | u :: us =>
    '(m, u) ← generateNewHashes base nowSec u m;
    '(m, us) ← generate_all base nowSec us m;
    Ok (m, u :: us)
  end.

(** [updateUserHash] runs every ten seconds. *)
Definition updateUserHash (now : Z) : ST (TimedUserValidator F) unit := fun v =>
  match generate_all (baseTime v) now (users v) (userHash v) with
  | Ok (m, us) =>
    let expire := now - cacheDurationSec in
    let m := if baseTime v <? expire then removeExpiredHashes (u32 (expire - baseTime v)) m else m in
    (mkValidator us m (baseTime v) (behaviorSeed v) (behaviorFused v) (aeadDecoderHolder v) (legacyWarnShown v), Ok tt)
  | Err e => (v, Err e)
  | Panic => (v, Panic)
  end.

Definition Add (now : Z) (u : User) : ST (TimedUserValidator F) unit := fun v =>
  match generateNewHashes (baseTime v) now {| u_user := u; lastSec := now - cacheDurationSec |} (userHash v), Headers.Account u with
  | Ok (m, uu), Some account =>
    let seed := if behaviorFused v then behaviorSeed v
                else crc64 (behaviorSeed v) (hmac sha256 (lit "VMESSBSKDF") (uuid (ID_ account))) in
    (mkValidator (users v ++ [uu]) m (baseTime v) seed (behaviorFused v) (AddUser (cmdKey (ID_ account)) u (aeadDecoderHolder v)) (legacyWarnShown v), Ok tt)
  | _, _ => (v, Panic)
  end.

Definition fused (v : TimedUserValidator F) : TimedUserValidator F :=
  mkValidator (users v) (userHash v) (baseTime v) (behaviorSeed v) true (aeadDecoderHolder v) (legacyWarnShown v).

(** The user and the timestamp of its hash. *)
Definition Get (hash : bytes) : ST (TimedUserValidator F) (User * Z) := fun v =>
  (fused v,
   match userHash v !! hash with
   | Some p => if taintedFuse p then Err ErrTainted else Ok (p_user p, timeInc p + baseTime v)
   | None => Err ErrNotFound
   end).

Definition GetAEAD (now : Z) (items : list (bytes * User)) (hash : bytes) : ST (TimedUserValidator F) User := fun v =>
  let '(h, x) := Match now items hash (aeadDecoderHolder v) in
  (mkValidator (users v) (userHash v) (baseTime v) (behaviorSeed v) (behaviorFused v) h (legacyWarnShown v), x).

(** The index of the first user with that email. *)
Fixpoint find_user (email : bytes) (us : list user) : option nat :=
  match us with
  | [] => None
  | u :: us => if EqualFold (Headers.Email (u_user u)) email then Some O else Datatypes.S <$> find_user email us
  end.

(** The last user takes the place of the one that is removed; its hashes stay. *)
Definition Remove (email : bytes) : ST (TimedUserValidator F) bool := fun v =>
  let email := ToLower email in
  match find_user email (users v) with
  | None => (v, Ok false)
  | Some idx =>
    match users v !! idx, last (users v) with
    | Some u, Some end_ =>
      match Headers.Account (u_user u) with
      | Some account =>
        (mkValidator (removelast (<[idx := end_]> (users v))) (userHash v) (baseTime v) (behaviorSeed v) (behaviorFused v)
          (RemoveUser (cmdKey (ID_ account)) (aeadDecoderHolder v)) (legacyWarnShown v), Ok true)
      | None => (v, Panic)
      end
    | _, _ => (v, Panic)
    end
  end.

(** [roll] is [dice.RollUint64]. *)
Definition GetBehaviorSeed (roll : Z) (v : TimedUserValidator F) : TimedUserValidator F * Z :=
  let seed := if behaviorSeed v =? 0 then roll else behaviorSeed v in
  (mkValidator (users v) (userHash v) (baseTime v) seed true (aeadDecoderHolder v) (legacyWarnShown v), seed).

Definition BurnTaintFuse (hash : bytes) : ST (TimedUserValidator F) unit := fun v =>
  match userHash v !! hash with
  | Some p =>
    if taintedFuse p then (v, Err ErrTainted)
    else
      (mkValidator (users v) (<[hash := {| p_user := p_user p; timeInc := timeInc p; taintedFuse := true |}]> (userHash v))
        (baseTime v) (behaviorSeed v) (behaviorFused v) (aeadDecoderHolder v) (legacyWarnShown v), Ok tt)
  | None => (v, Err ErrNotFound)
  end.

Definition ShouldShowLegacyWarn (v : TimedUserValidator F) : TimedUserValidator F * bool :=
  if legacyWarnShown v then (v, false)
  else (mkValidator (users v) (userHash v) (baseTime v) (behaviorSeed v) (behaviorFused v) (aeadDecoderHolder v) true, true).
End Users.
#[global] Arguments mkValidator {F}.
#[global] Arguments users {F}.
#[global] Arguments userHash {F}.
#[global] Arguments baseTime {F}.
#[global] Arguments behaviorSeed {F}.
#[global] Arguments behaviorFused {F}.
#[global] Arguments aeadDecoderHolder {F}.
#[global] Arguments legacyWarnShown {F}.
End VmessUsers.
