(* ===== verification/VmessUsersSpec.v ===== *)
(** * Package proxy/vmess: what the table of legacy hashes promises

    Whatever the validator goes through, a hash in its table is one of the user
    it names and of the second it names, and no hash of the next and the last
    two minutes is missing after the table was brought up to date. *)
From S2P Require Import Prelude GoStd GoText Uuid Headers Auth Replay VmessAead VmessAeadSpec VmessUsers.
Import Uuid Auth Replay VmessAead VmessUsers.
Import Headers(MemoryUser).

Section Users.
Context {C T K G F : Type} `{AeadCipher C} `{VmessCrypto C T K G} `{Filter F}.
Variable crc64 : Z -> bytes -> Z.

Definition ids_of (u : User) : list ID :=
  match Headers.Account u with Some a => ID_ a :: AlterIDs a | None => [] end.

(** The IDs of the users that there ever are; their hashes tell the second. *)
Variable known : list ID.
Definition times_apart (base : Z) : Prop := forall id id' ts ts', id ∈ known -> id' ∈ known ->
  base <= ts < base + 2 ^ 32 -> base <= ts' < base + 2 ^ 32 -> hasher id ts = hasher id' ts' -> ts = ts'.

(** What the validator goes through, the clock not going back. *)
Inductive reach : Z -> TimedUserValidator F -> Prop :=
  | R_new t0 : reach t0 (NewTimedUserValidator t0)
  | R_later now now' v : reach now v -> now <= now' -> reach now' v
  | R_add now v u v' : reach now v -> ids_of u ⊆ known -> Add crc64 now u v = (v', Ok tt) -> reach now v'
  | R_update now v v' : reach now v -> updateUserHash now v = (v', Ok tt) -> reach now v'
  | R_remove now v email v' x : reach now v -> Remove email v = (v', x) -> reach now v'
  | R_get now v hash : reach now v -> reach now (Get hash v).1
  | R_aead now v items hash : reach now v -> reach now (GetAEAD now items hash v).1
  | R_burn now v hash : reach now v -> reach now (BurnTaintFuse hash v).1
  | R_seed now v roll : reach now v -> reach now (GetBehaviorSeed roll v).1.

(** An entry is a hash of its user at its second. *)
Definition sound_entry (base : Z) (h : bytes) (p : indexTimePair) : Prop :=
  0 <= timeInc p < 2 ^ 32 /\ ids_of (p_user p) ⊆ known /\
  exists id, id ∈ ids_of (p_user p) /\ h = hasher id (timeInc p + base).
Definition sound (base : Z) (m : gmap bytes indexTimePair) : Prop := map_Forall (sound_entry base) m.

(** No hash of the user is missing from a second on. *)
Definition covers (from : Z) (m : gmap bytes indexTimePair) (u : user) : Prop :=
  ids_of (u_user u) ⊆ known /\
  forall id ts, id ∈ ids_of (u_user u) -> from <= ts <= lastSec u -> is_Some (m !! hasher id ts).

Definition good (now base : Z) (us : list user) (m : gmap bytes indexTimePair) : Prop :=
  base + 240 <= now /\ sound base m /\ Forall (fun u => covers (now - 120) m u /\ lastSec u <= now + 120) us.

Section Table.
Variable base now : Z.
Hypothesis Hbase : base + 240 <= now.
Hypothesis Hroom : now + 121 <= base + 2 ^ 32.

Definition grows (m m' : gmap bytes indexTimePair) : Prop := forall h, is_Some (m !! h) -> is_Some (m' !! h).

Lemma covers_grows from u m m' : grows m m' -> covers from m u -> covers from m' u.
Proof. intros Hg [Hi Hc]. split; [done|]. intros id ts Hid Hts. by apply Hg, Hc. Qed.

Lemma insert_all_ok u id l m :
  ids_of u ⊆ known -> id ∈ ids_of u -> Forall (fun ts => base <= ts < base + 2 ^ 32) l -> sound base m ->
  let m' := fold_left (fun m ts => <[hasher id ts := {| p_user := u; timeInc := u32 (ts - base); taintedFuse := false |}]> m) l m in
  sound base m' /\ grows m m' /\ forall ts, ts ∈ l -> is_Some (m' !! hasher id ts).
Proof.
  intros Hk Hid Hl. revert m. induction Hl as [|ts l Hts _ IH]; intros m Hs m'.
  - split; [done|]. split; [by intros h|]. intros ts Hts. by apply elem_of_nil in Hts.
  - destruct (IH (<[hasher id ts := {| p_user := u; timeInc := u32 (ts - base); taintedFuse := false |}]> m)) as (Hs' & Hg & Hin).
    { apply map_Forall_insert_2; [|done]. unfold sound_entry. cbn [timeInc p_user]. rewrite (u32_small (ts - base)) by lia.
      split; [lia|]. split; [done|]. exists id. split; [done|]. f_equal. lia. }
    cbn [fold_left] in m'. fold m' in Hs', Hg, Hin. split; [done|]. split.
    + intros h Hh. apply Hg. destruct (decide (h = hasher id ts)) as [->|Hne]; [by rewrite lookup_insert_eq|by rewrite lookup_insert_ne].
    + intros ts' Hts'. apply elem_of_cons in Hts' as [->|?]; [|by apply Hin]. apply Hg. by rewrite lookup_insert_eq.
Qed.

Lemma genHashForID_ok u m id :
  ids_of (u_user u) ⊆ known -> id ∈ ids_of (u_user u) -> lastSec u <= now + 120 -> sound base m ->
  let m' := genHashForID base now u m id in
  sound base m' /\ grows m m' /\
  forall ts, lastSec u <= ts \/ lastSec u < now - 120 -> now - 120 <= ts <= now + 120 -> is_Some (m' !! hasher id ts).
Proof.
  intros Hk Hid Hls Hs m'. unfold m', genHashForID, cacheDurationSec.
  set (b := if lastSec u <? now - 120 then now - 120 else lastSec u).
  assert (Hb : now - 120 <= b <= now + 120 /\ (b = lastSec u \/ lastSec u < now - 120 /\ b = now - 120)) by (unfold b; destruct (Z.ltb_spec (lastSec u) (now - 120)); lia).
  destruct (insert_all_ok (u_user u) id (seqZ b (now + 120 - b + 1)) m Hk Hid) as (Hs' & Hg & Hin); [|done|].
  - apply Forall_forall. intros ts Hts. apply elem_of_seqZ in Hts. lia.
  - split; [done|]. split; [done|]. intros ts Hts Hw. apply Hin, elem_of_seqZ. lia.
Qed.

Lemma genHashForIDs_ok u l m :
  ids_of (u_user u) ⊆ known -> l ⊆ ids_of (u_user u) -> lastSec u <= now + 120 -> sound base m ->
  let m' := fold_left (genHashForID base now u) l m in
  sound base m' /\ grows m m' /\
  forall id ts, id ∈ l -> lastSec u <= ts \/ lastSec u < now - 120 -> now - 120 <= ts <= now + 120 -> is_Some (m' !! hasher id ts).
Proof.
  intros Hk Hl Hls. revert m. induction l as [|id l IH]; intros m Hs m'.
  - split; [done|]. split; [by intros h|]. intros id ts Hid. by apply elem_of_nil in Hid.
  - destruct (genHashForID_ok u m id Hk ltac:(apply Hl; by left) Hls Hs) as (Hs1 & Hg1 & Hin1).
    destruct (IH ltac:(intros x Hx; apply Hl; by right) _ Hs1) as (Hs2 & Hg2 & Hin2). cbn [fold_left] in m'. fold m' in Hs2, Hg2, Hin2.
    split; [done|]. split; [by intros h Hh; apply Hg2, Hg1|]. intros id' ts Hid' Hts Hw.
    apply elem_of_cons in Hid' as [->|Hid']; [by apply Hg2, Hin1|by apply Hin2].
Qed.

(** A user's hashes brought up to date. *)
Lemma generateNewHashes_ok u m m' u' :
  generateNewHashes base now u m = Ok (m', u') -> sound base m -> ids_of (u_user u) ⊆ known -> lastSec u <= now + 120 ->
  (forall id ts, id ∈ ids_of (u_user u) -> now - 120 <= ts < lastSec u -> is_Some (m !! hasher id ts)) ->
  sound base m' /\ grows m m' /\ covers (now - 120) m' u' /\ u_user u' = u_user u /\ lastSec u' = now + 120.
Proof.
  unfold generateNewHashes. intros E Hs Hk Hls Hold. destruct (Headers.Account (u_user u)) as [a|] eqn:Ha; [|done].
  assert (Hids : ids_of (u_user u) = ID_ a :: AlterIDs a) by (unfold ids_of; by rewrite Ha).
  assert (m' = fold_left (genHashForID base now u) (ids_of (u_user u)) m) as -> by (rewrite Hids; cbn [or_panic mbind res_bind] in E; congruence).
  assert (u' = {| u_user := u_user u; lastSec := now + cacheDurationSec |}) as -> by (cbn [or_panic mbind res_bind] in E; congruence).
  clear E. destruct (genHashForIDs_ok u (ids_of (u_user u)) m Hk ltac:(done) Hls Hs) as (Hs' & Hg & Hin).
  split; [done|]. split; [done|]. split; [|done]. split; [done|]. cbn [lastSec u_user]. unfold cacheDurationSec. intros id ts Hid Hts.
  destruct (Z_lt_le_dec ts (lastSec u)) as [Hlt|Hge].
  - destruct (Z_lt_le_dec (lastSec u) (now - 120)); [apply Hin; [done|by right|lia]|]. apply Hg, Hold; [done|lia].
  - apply Hin; [done|by left|lia].
Qed.

Lemma generate_all_ok us m m' us' :
  generate_all base now us m = Ok (m', us') -> sound base m -> Forall (covers (now - 120) m) us -> Forall (fun u => lastSec u <= now + 120) us ->
  sound base m' /\ grows m m' /\ Forall (fun u => covers (now - 120) m' u /\ lastSec u = now + 120) us' /\ map u_user us' = map u_user us.
Proof.
  revert m m' us'. induction us as [|u us IH]; intros m m' us' E Hs Hc Hls; cbn [generate_all] in E.
  - injection E as <- <-. split; [done|]. split; [by intros h|]. by split.
  - inversion Hc as [|?? [Hk Hcu] Hcs]; subst. inversion Hls as [|?? Hl Hls']; subst.
    destruct (generateNewHashes base now u m) as [[m1 u1]|?|] eqn:E1; try discriminate E. cbn [mbind res_bind] in E.
    destruct (generate_all base now us m1) as [[m2 us2]|?|] eqn:E2; try discriminate E. injection E as <- <-.
    destruct (generateNewHashes_ok u m m1 u1 E1 Hs Hk Hl) as (Hs1 & Hg1 & Hc1 & Hu1 & Hl1); [intros id ts Hid Hts; apply Hcu; [done|lia]|].
    destruct (IH m1 m2 us2 E2 Hs1) as (Hs2 & Hg2 & Hc2 & Hus); [|done|].
    + eapply Forall_impl; [exact Hcs|]. intros x. by apply covers_grows.
    + split; [done|]. split; [by intros h Hh; apply Hg2, Hg1|]. split.
      * apply Forall_cons. split; [|done]. split; [|done]. by apply (covers_grows _ _ m1).
      * cbn [map]. congruence.
Qed.

(** Only hashes of seconds gone by expire. *)
Lemma expired_ok m us :
  times_apart base -> sound base m -> Forall (fun u => covers (now - 120) m u /\ lastSec u = now + 120) us ->
  let m' := removeExpiredHashes (u32 (now - 120 - base)) m in
  sound base m' /\ Forall (fun u => covers (now - 120) m' u /\ lastSec u = now + 120) us.
Proof.
  intros Hapart Hs Hc m'. unfold m', removeExpiredHashes. rewrite u32_small by lia. split.
  - intros h p Hp. apply map_lookup_filter_Some in Hp as [Hp _]. by apply Hs.
  - eapply Forall_impl; [exact Hc|]. intros u [[Hk Hcu] Hl]. split; [|done]. split; [done|]. intros id ts Hid Hts.
    destruct (Hcu id ts Hid Hts) as [p Hp]. exists p. apply map_lookup_filter_Some. split; [done|]. cbn [snd].
    destruct (Hs _ _ Hp) as (Hr & Hk' & id' & Hid' & E). rewrite Hl in Hts.
    pose proof (Hapart id id' ts (timeInc p + base) (Hk _ Hid) (Hk' _ Hid') ltac:(lia) ltac:(lia) E). lia.
Qed.
End Table.

Definition good_v (now : Z) (v : TimedUserValidator F) : Prop := good now (baseTime v) (users v) (userHash v).

Lemma Add_good now u v v' :
  ids_of u ⊆ known -> Add crc64 now u v = (v', Ok tt) -> now + 121 <= baseTime v + 2 ^ 32 -> good_v now v -> good_v now v' /\ baseTime v' = baseTime v.
Proof.
  unfold Add. intros Hk E Hroom (Hb & Hs & Hc).
  destruct (generateNewHashes (baseTime v) now _ (userHash v)) as [[m uu]|?|] eqn:Eg; try discriminate E.
  destruct (Headers.Account u) as [a|]; [|discriminate E]. injection E as <-.
  eapply generateNewHashes_ok in Eg as (Hs' & Hg & Hcu & Hu & Hl); cbn [u_user lastSec]; [|done|done|done|done|unfold cacheDurationSec; lia|unfold cacheDurationSec; lia].
  split; [|done]. split; [done|]. split; [done|]. cbn [users userHash]. apply Forall_app. split.
  - eapply Forall_impl; [exact Hc|]. intros x [Hx Hlx]. split; [|done]. by apply (covers_grows _ _ _ _ Hg).
  - apply Forall_singleton. split; [done|lia].
Qed.

Lemma updateUserHash_good now v v' :
  times_apart (baseTime v) -> updateUserHash now v = (v', Ok tt) -> now + 121 <= baseTime v + 2 ^ 32 -> good_v now v ->
  good_v now v' /\ baseTime v' = baseTime v /\ Forall (fun u => lastSec u = now + 120) (users v').
Proof.
  unfold updateUserHash. intros Hapart E Hroom (Hb & Hs & Hc).
  destruct (generate_all (baseTime v) now (users v) (userHash v)) as [[m us]|?|] eqn:Eg; try discriminate E. injection E as <-.
  eapply generate_all_ok in Eg as (Hs' & Hg & Hc' & _); [|done|done|done|eapply Forall_impl; [exact Hc|by intros ? []]..].
  unfold cacheDurationSec. replace (baseTime v <? now - 120) with true by lia.
  destruct (expired_ok (baseTime v) now Hb Hroom m us Hapart Hs' Hc') as [Hs2 Hc2]. unfold good_v. cbn [baseTime users userHash].
  split; [|split; [done|eapply Forall_impl; [exact Hc2|by intros ? []]]].
  split; [done|]. split; [done|]. eapply Forall_impl; [exact Hc2|]. intros u [Hx ->]. split; [done|lia].
Qed.

Lemma Remove_good now email v :
  good_v now v -> good_v now (Remove email v).1 /\ baseTime (Remove email v).1 = baseTime v.
Proof.
  intros (Hb & Hs & Hc). unfold Remove. destruct (find_user _ _) as [idx|]; [|done].
  destruct (users v !! idx) as [u|]; [|done]. destruct (last (users v)) as [e|] eqn:El; [|done]. destruct (Headers.Account (u_user u)); [|done].
  split; [|done]. split; [done|]. split; [done|]. cbn [fst users userHash]. apply Forall_forall. intros x Hx. rewrite Forall_forall in Hc. apply Hc.
  assert (Hin : x ∈ <[idx := e]> (users v)).
  { revert Hx. generalize (<[idx := e]> (users v)). intros l Hx. destruct l as [|y l] using rev_ind; [done|]. rewrite removelast_last in Hx. apply elem_of_app. by left. }
  apply list_elem_of_lookup in Hin as [i Hi]. apply list_lookup_insert_Some in Hi as [(-> & <- & _)|[_ Hi]].
  - rewrite last_lookup in El. by apply list_elem_of_lookup_2 in El.
  - by apply list_elem_of_lookup_2 in Hi.
Qed.

Lemma BurnTaintFuse_good now hash v :
  good_v now v -> good_v now (BurnTaintFuse hash v).1 /\ baseTime (BurnTaintFuse hash v).1 = baseTime v.
Proof.
  intros (Hb & Hs & Hc). unfold BurnTaintFuse. destruct (userHash v !! hash) as [p|] eqn:E; [|done]. destruct (taintedFuse p); [done|].
  split; [|done]. split; [done|]. cbn [fst users userHash baseTime]. split.
  - apply map_Forall_insert_2; [|done]. exact (Hs _ _ E).
  - eapply Forall_impl; [exact Hc|]. intros u [Hx Hl]. split; [|done]. eapply covers_grows; [|exact Hx].
    intros h Hh. destruct (decide (h = hash)) as [->|Hne]; [by rewrite lookup_insert_eq|by rewrite lookup_insert_ne].
Qed.

Lemma reach_good now v : reach now v -> times_apart (baseTime v) -> now + 121 <= baseTime v + 2 ^ 32 -> good_v now v.
Proof.
  induction 1 as [t0|now now' v Hr IH Hle|now v u v' Hr IH Hk E|now v v' Hr IH E|now v email v' x Hr IH E|now v hash Hr IH|now v items hash Hr IH|now v hash Hr IH|now v roll Hr IH];
    intros Hapart Hroom.
  - unfold good_v, NewTimedUserValidator, cacheDurationSec. split; [cbn [baseTime]; lia|]. split; [apply map_Forall_empty|done].
  - destruct (IH Hapart ltac:(lia)) as (Hb & Hs & Hc). split; [lia|]. split; [done|]. eapply Forall_impl; [exact Hc|].
    intros u [[Hk Hx] Hl]. split; [|lia]. split; [done|]. intros id ts Hid Hts. apply Hx; [done|lia].
  - assert (Hbv : baseTime v' = baseTime v).
    { unfold Add in E. destruct (generateNewHashes _ _ _ _) as [[? ?]|?|]; try discriminate E. destruct (Headers.Account u); [|discriminate E]. by injection E as <-. }
    rewrite Hbv in Hapart, Hroom. by apply (Add_good now u v v' Hk E Hroom), IH.
  - assert (Hbv : baseTime v' = baseTime v).
    { unfold updateUserHash in E. destruct (generate_all _ _ _ _) as [[? ?]|?|]; try discriminate E. by injection E as <-. }
    rewrite Hbv in Hapart, Hroom. by apply (updateUserHash_good now v v' Hapart E Hroom), IH.
  - apply (f_equal fst) in E. cbn [fst] in E. subst v'.
    assert (Hbv : baseTime (Remove email v).1 = baseTime v).
    { unfold Remove. destruct (find_user _ _); [|done]. destruct (users v !! _); [|done]. destruct (last _); [|done]. by destruct (Headers.Account _). }
    rewrite Hbv in Hapart, Hroom. by apply Remove_good, IH.
  - apply IH; done.
  - unfold GetAEAD in Hapart, Hroom |- *. destruct (Match now items hash (aeadDecoderHolder v)) as [h y]. apply IH; done.
  - assert (Hbv : baseTime (BurnTaintFuse hash v).1 = baseTime v) by (unfold BurnTaintFuse; destruct (userHash v !! hash) as [p|]; [|done]; by destruct (taintedFuse p)).
    rewrite Hbv in Hapart, Hroom. by apply BurnTaintFuse_good, IH.
  - apply IH; done.
Qed.

(** A legacy hash tells its user and its second.  In whatever state the
    validator can come to - users added and removed, hashes burnt, the table brought up
    to date, in any order - a hash that [Get] takes is the hash of an ID of the user it
    returns, at the second it returns; and when the table was just brought up to date,
    every ID of every user is known for every second of the last and the next two
    minutes: [Get] then either takes the hash, for that second, or refuses it as
    tainted. *)
Theorem legacy_hash_is_users now v v'
    (Hr : reach now v) (Hapart : times_apart (baseTime v)) (Hroom : now + 121 <= baseTime v + 2 ^ 32)
    (E : updateUserHash now v = (v', Ok tt)) :
  (forall hash u ts, (Get hash v).2 = Ok (u, ts) -> exists id, id ∈ ids_of u /\ hash = hasher id ts) /\
  forall u id ts, u ∈ users v' -> id ∈ ids_of (u_user u) -> now - 120 <= ts <= now + 120 ->
    (Get (hasher id ts) v').2 = Err ErrTainted \/ exists u', (Get (hasher id ts) v').2 = Ok (u', ts).
Proof.
  pose proof (reach_good now v Hr Hapart Hroom) as Hg. destruct (updateUserHash_good now v v' Hapart E Hroom Hg) as ((Hb' & Hs' & Hc') & Hbv & Hl').
  destruct Hg as (Hb & Hs & _). split.
  - intros hash u ts. unfold Get. cbn [snd]. destruct (userHash v !! hash) as [p|] eqn:Ep; [|discriminate]. destruct (taintedFuse p); [discriminate|].
    injection 1 as <- <-. destruct (Hs _ _ Ep) as (_ & _ & id & Hid & ->). by exists id.
  - intros u id ts Hu Hid Hts. rewrite Forall_forall in Hc'. destruct (Hc' u Hu) as [[Hk Hcu] _]. rewrite Forall_forall in Hl'.
    destruct (Hcu id ts Hid) as [p Hp]; [rewrite (Hl' u Hu); lia|]. unfold Get. cbn [snd]. rewrite Hp.
    destruct (taintedFuse p); [by left|]. right. exists (p_user p). do 2 f_equal. destruct (Hs' _ _ Hp) as (Hrg & Hk' & id' & Hid' & Eh).
    rewrite Hbv in *. symmetry. apply (Hapart id id'); [by apply Hk|by apply Hk'|lia|lia|exact Eh].
Qed.
End Users.

(** ** Hashes that show what they are of *)
Module DemoUsers.
Import DemoCrypto.
Definition last16 (d : bytes) : bytes := drop (length d - 16) d.

#[local] Instance tail_crypto : VmessCrypto bytes bytes nat nat := {|
  sha256 := last16; md5 := last16; crc32 d := 0;
  aes_Encrypt key b := b; aes_Decrypt key b := b;
  NewAesGcm key := key; chacha20poly1305_New key := key;
  NewAesEncryptionStream key iv := key; NewAesDecryptionStream key iv := key;
  NewShake128 d := length d; shake_Read n k := (k, replicate n x00);
  random_Read n g := (g, replicate (Z.to_nat n) x00) |}.
Definition demo_id : ID := NewID md5 (map z2b (seqZ 1 16)).
Definition demo_user : User :=
  {| Headers.Email := lit "a@b"; Headers.Level := 0;
     Headers.Account := Some {| ID_ := demo_id; AlterIDs := []; Security := 3; AuthenticatedLengthExperiment := false; NoTerminationSignal := false |} |}.

Definition v0 : TimedUserValidator (list bytes) := NewTimedUserValidator 760.
Definition v1 := (Add (fun z d => z) 1000 demo_user v0).1.
Definition v2 := (Get (hasher demo_id 990) v1).1.
Definition v3 := (updateUserHash 1005 v2).1.

Lemma demo_apart : times_apart [demo_id] 520.
Proof.
  intros id id' ts ts' Hid Hid' Hts Hts' E. apply list_elem_of_singleton in Hid as ->. apply list_elem_of_singleton in Hid' as ->.
  assert (Hh : forall t, exists p, hasher demo_id t = p ++ put_be 8 t /\ length p = 8%nat).
  { intros t. set (k := uuid demo_id ++ replicate 48 x00). assert (Hk : length k = 64%nat) by reflexivity.
    set (i := map (fun b => z2b (Z.lxor (b2z b) 54)) k). set (o := map (fun b => z2b (Z.lxor (b2z b) 92)) k).
    change (hasher demo_id t) with (last16 (o ++ last16 (i ++ put_be 8 t))).
    assert (Hi : length i = 64%nat) by (unfold i; by rewrite length_map). assert (Ho : length o = 64%nat) by (unfold o; by rewrite length_map).
    exists (drop 56 i). split; [|by rewrite length_drop, Hi].
    assert (Hin : last16 (i ++ put_be 8 t) = drop 56 i ++ put_be 8 t).
    { unfold last16. rewrite length_app, length_put_be, Hi. change (64 + 8 - 16)%nat with 56%nat. by rewrite drop_app_le by lia. }
    rewrite Hin. unfold last16. rewrite !length_app, length_drop, length_put_be, Hi, Ho. change (64 + (64 - 56 + 8) - 16)%nat with 64%nat.
    by rewrite <- Ho, drop_app_length. }
  destruct (Hh ts) as (p & E1 & Hp). destruct (Hh ts') as (p' & E2 & Hp'). rewrite E1, E2 in E.
  apply app_inj_1 in E as [_ E]; [|congruence]. apply (put_be_inj 8 ts ts') in E; [done|change (256 ^ Z.of_nat 8) with (2 ^ 64); lia..].
Qed.

Lemma legacy_hash_is_users_witness :
  (Get (hasher demo_id 1100) v3).2 = Err ErrTainted \/ exists u', (Get (hasher demo_id 1100) v3).2 = Ok (u', 1100).
Proof.
  destruct (legacy_hash_is_users (fun z d => z) [demo_id] 1005 v2 v3) as [_ Hc].
  - apply R_later with 1000; [|lia]. apply R_get. apply (R_add _ _ 1000 v0 demo_user).
    + apply R_later with 760; [apply R_new|lia].
    + intros x Hx. exact Hx.
    + apply injective_projections; [reflexivity|vm_compute; reflexivity].
  - exact demo_apart.
  - vm_compute. discriminate.
  - apply injective_projections; [reflexivity|vm_compute; reflexivity].
  - apply (Hc {| u_user := demo_user; lastSec := 1125 |} demo_id 1100).
    + vm_compute. left.
    + vm_compute. left.
    + lia.
Defined.

(** A removed user's hashes stay: it still gets in until they expire. *)
Lemma removed_user_gets_in :
  let '(v, removed) := Remove (lit "a@b") v1 in
  removed = Ok true /\ (exists ts, (Get (hasher demo_id 1100) v).2 = Ok (demo_user, ts)).
Proof. vm_compute. split; [reflexivity|]. eexists. reflexivity. Qed.

(** The hash of the last second of the table is generated anew by the next update, which
    forgets that it was burnt. *)
Lemma burnt_hash_comes_back :
  let v := (BurnTaintFuse (hasher demo_id 1120) v1).1 in
  (Get (hasher demo_id 1120) v).2 = Err ErrTainted /\
  exists x, (Get (hasher demo_id 1120) (updateUserHash 1005 v).1).2 = Ok x.
Proof. vm_compute. split; [reflexivity|]. eexists. reflexivity. Qed.
End DemoUsers.
