(* ===== verification/VmessBody.v ===== *)
(** * Package proxy/vmess/encoding: the streams of the bodies

    [Module VmessBody] models auth.go and, of client.go and server.go, how the
    body of a request or a response is put together: the authenticator, the
    parser of the sizes, the padding.  The four functions that do so differ in
    the keys only; [body_stream] is what they share.  What they return reads
    from or writes to the connection they are given. *)
From S2P Require Import Prelude GoStd GoText Headers Auth VmessAead.
Import VmessAead Auth.

Module VmessBody.

(** ** auth.go *)
Definition Authenticate (b : bytes) : Z := fnv32a b.

(** [NoOpAuthenticator], [FnvAuthenticator] and the ciphers of the libraries. *)
Inductive Kind (C : Type) := NoOpAuthenticator | FnvAuthenticator | Cipher (c : C).
Arguments NoOpAuthenticator {C}.
Arguments FnvAuthenticator {C}.
Arguments Cipher {C}.

Definition Fnv_Seal (plaintext : bytes) : bytes := put_be 4 (Authenticate plaintext) ++ plaintext.

(** A slice that starts behind its end panics. *)
Definition Fnv_Open (ciphertext : bytes) : res bytes :=
  if zlen ciphertext <? 4 then Panic
  else if decide (get_be (take 4 ciphertext) <> Authenticate (drop 4 ciphertext)) then Err (NewError "invalid authentication")
  else Ok (drop 4 ciphertext).

#[export] Instance kind_aead {C} `{AeadCipher C} : AeadCipher (Kind C) := {|
  NonceSize k := match k with Cipher c => NonceSize c | _ => 0 end;
  aead_Overhead k := match k with NoOpAuthenticator => 0 | FnvAuthenticator => 4 | Cipher c => aead_Overhead c end;
  aead_Open k nonce ct ad :=
    match k with NoOpAuthenticator => Ok ct | FnvAuthenticator => Fnv_Open ct | Cipher c => aead_Open c nonce ct ad end;
  aead_Seal k nonce d ad :=
    match k with NoOpAuthenticator => Ok d | FnvAuthenticator => Ok (Fnv_Seal d) | Cipher c => aead_Seal c nonce d ad end |}.

(** ** The streams *)
Inductive SizeParser (C : Type) :=
  | PlainChunkSizeParser
  | ShakeSizeParser
  | AEADSizeParser (lengthAuth : AEADAuthenticator (Kind C)).
Arguments PlainChunkSizeParser {C}.
Arguments ShakeSizeParser {C}.
Arguments AEADSizeParser {C}.

(** What a reader or writer of authenticated chunks keeps.  The generator of the
    padding and the parser of the sizes may be one object: [b_shake]. *)
Record Body (C K G : Type) := mkBody {
  b_auth : AEADAuthenticator (Kind C);
  b_sizes : SizeParser C;
  b_shake : option K;
  b_padding : bool;
  b_random : G;
}.
Arguments mkBody {C K G}.
Arguments b_auth {C K G}.
Arguments b_sizes {C K G}.
Arguments b_shake {C K G}.
Arguments b_padding {C K G}.
Arguments b_random {C K G}.

(** [Crypted]: behind the stream cipher; its stream may be missing. *)
Inductive BodyStream (C T K G : Type) :=
  | Raw
  | Chunks (sizes : SizeParser C) (shake : option K)
  | Sealed (t : TransferType) (b : Body C K G)
  | Crypted (s : option T)
  | CryptedSealed (s : option T) (t : TransferType) (b : Body C K G).
Arguments Raw {C T K G}.
Arguments Chunks {C T K G}.
Arguments Sealed {C T K G}.
Arguments Crypted {C T K G}.
Arguments CryptedSealed {C T K G}.

Definition SecurityType_UNKNOWN : Z := 0.
Definition SecurityType_LEGACY : Z := 1.
Definition SecurityType_AUTO : Z := 2.
Definition SecurityType_AES128_GCM : Z := 3.
Definition SecurityType_CHACHA20_POLY1305 : Z := 4.
Definition SecurityType_NONE : Z := 5.
Definition SecurityType_ZERO : Z := 6.

(** [bitmask.Byte.Has] *)
Definition Has (b bit : Z) : bool := negb (Z.land b bit =? 0).

Section Body.
Context {C T K G : Type} `{AeadCipher C} `{VmessCrypto C T K G}.

Definition GenerateChacha20Poly1305Key (b : bytes) : bytes :=
  let t := md5 b in t ++ md5 t.

Definition NewShakeSizeParser (nonce : bytes) : K := NewShake128 nonce.

Definition next (s : K) : K * Z := let '(s, b) := shake_Read 2 s in (s, get_be b).

Definition Shake_Decode (b : bytes) (s : K) : K * res Z :=
  let '(s, mask) := next s in (s, size ← Uint16 b; Ok (Z.lxor mask size)).
Definition Shake_Encode (size : Z) (s : K) : K * bytes :=
  let '(s, mask) := next s in (s, put_be 2 (Z.lxor mask size)).
Definition Shake_NextPaddingLen (s : K) : K * Z := let '(s, n) := next s in (s, n mod 64).
Definition Shake_MaxPaddingLen : Z := 64.

Definition set_auth (b : Body C K G) (a : AEADAuthenticator (Kind C)) : Body C K G :=
  mkBody a (b_sizes b) (b_shake b) (b_padding b) (b_random b).
Definition set_sizes (b : Body C K G) (p : SizeParser C) : Body C K G :=
  mkBody (b_auth b) p (b_shake b) (b_padding b) (b_random b).
Definition set_shake (b : Body C K G) (s : K) : Body C K G :=
  mkBody (b_auth b) (b_sizes b) (Some s) (b_padding b) (b_random b).

Definition body_Decode (d : bytes) : ST (Body C K G) Z := fun b =>
  match b_sizes b, b_shake b with
  | PlainChunkSizeParser, _ => (b, Plain_Decode d)
  | ShakeSizeParser, Some s => let '(s, n) := Shake_Decode d s in (set_shake b s, n)
  | ShakeSizeParser, None => (b, Panic)
  | AEADSizeParser a, _ => let '(a, n) := AEAD_Decode d a in (set_sizes b (AEADSizeParser a), n)
  end.

Definition body_Encode (size : Z) : ST (Body C K G) bytes := fun b =>
  match b_sizes b, b_shake b with
  | PlainChunkSizeParser, _ => (b, Ok (Plain_Encode size))
  | ShakeSizeParser, Some s => let '(s, d) := Shake_Encode size s in (set_shake b s, Ok d)
  | ShakeSizeParser, None => (b, Panic)
  | AEADSizeParser a, _ => let '(a, d) := AEAD_Encode size a in (set_sizes b (AEADSizeParser a), d)
  end.

#[export] Instance body_framing : Framing (Body C K G) := {|
  Overhead b := aead_Overhead (AEAD (b_auth b));
  auth_Open ct b := let '(a, x) := Open ct (b_auth b) in (set_auth b a, x);
  auth_Seal d b := let '(a, x) := Seal d (b_auth b) in (set_auth b a, x);
  SizeBytes b := match b_sizes b with AEADSizeParser a => AEAD_SizeBytes a | _ => 2 end;
  Decode := body_Decode;
  Encode := body_Encode;
  offset _ := 0;
  padding b := b_padding b;
  NextPaddingLen b := match b_shake b with Some s => let '(s, n) := Shake_NextPaddingLen s in (set_shake b s, n) | None => (b, 0) end;
  MaxPaddingLen b := if b_padding b then Shake_MaxPaddingLen else 0;
  random n b := let '(g, d) := random_Read n (b_random b) in (mkBody (b_auth b) (b_sizes b) (b_shake b) (b_padding b) g, d) |}.

Definition GenerateChunkNonce (nonce : bytes) (size : Z) : BytesGenerator := ChunkNonce nonce 0 (u32 size).

Definition authenticator (k : Kind C) (nonces : BytesGenerator) : AEADAuthenticator (Kind C) :=
  mkAuth k nonces (Some GenerateEmptyBytes).

(** An authenticator with a cipher, and its parser of sizes. *)
Definition cipher_auth (c : C) (iv : bytes) : AEADAuthenticator (Kind C) :=
  authenticator (Cipher c) (GenerateChunkNonce iv (NonceSize c)).

(** [lengthNonce] is the nonce size of the cipher of the chunks, as the code has it. *)
Definition length_auth (lengthCipher c : C) (lengthIV : bytes) : AEADAuthenticator (Kind C) :=
  authenticator (Cipher lengthCipher) (GenerateChunkNonce lengthIV (NonceSize c)).

(** Option, security and transfer type of a request; key and IV of the body, and of
    its lengths; the stream of the legacy security; and the random bytes. *)
Definition body_stream (option security : Z) (transfer : TransferType) (key iv lengthKey lengthIV : bytes) (legacy : Datatypes.option T) (g : G)
    : res (BodyStream C T K G) :=
  let masking := Has option Headers.RequestOptionChunkMasking in
  let chunked := Has option Headers.RequestOptionChunkStream in
  let shake := if masking then Some (NewShakeSizeParser iv) else None in
  let sizeParser := if masking then ShakeSizeParser else PlainChunkSizeParser in
  let padding := Has option Headers.RequestOptionGlobalPadding in
  let AuthenticatedLengthKey := KDF16 lengthKey [lit "auth_len"] in
  let sealed aead lengthAEAD :=
    let sizes := if Has option Headers.RequestOptionAuthenticatedLength then AEADSizeParser (length_auth (lengthAEAD AuthenticatedLengthKey) aead lengthIV) else sizeParser in
    Ok (Sealed transfer (mkBody (cipher_auth aead iv) sizes shake padding g)) in
  if padding && negb masking then Err (NewError "invalid option: RequestOptionGlobalPadding")
  else if security =? SecurityType_NONE then
    if chunked then
      match transfer with
      | Headers.TransferTypeStream => Ok (Chunks sizeParser shake)
      | Headers.TransferTypePacket => Ok (Sealed TransferTypePacket (mkBody (authenticator NoOpAuthenticator GenerateEmptyBytes) sizeParser shake padding g))
      end
    else Ok Raw
  else if security =? SecurityType_LEGACY then
    if chunked then Ok (CryptedSealed legacy transfer (mkBody (authenticator FnvAuthenticator GenerateEmptyBytes) sizeParser shake padding g))
    else Ok (Crypted legacy)
  else if security =? SecurityType_AES128_GCM then sealed (NewAesGcm key) NewAesGcm
  else if security =? SecurityType_CHACHA20_POLY1305 then
    sealed (chacha20poly1305_New (GenerateChacha20Poly1305Key key)) (fun k => chacha20poly1305_New (GenerateChacha20Poly1305Key k))
  else Err (NewError "invalid option: Security").
End Body.
#[global] Arguments NoOpAuthenticator {C}.
#[global] Arguments FnvAuthenticator {C}.
#[global] Arguments Cipher {C}.
#[global] Arguments PlainChunkSizeParser {C}.
#[global] Arguments ShakeSizeParser {C}.
#[global] Arguments AEADSizeParser {C}.
#[global] Arguments mkBody {C K G}.
#[global] Arguments b_auth {C K G}.
#[global] Arguments b_sizes {C K G}.
#[global] Arguments b_shake {C K G}.
#[global] Arguments b_padding {C K G}.
#[global] Arguments b_random {C K G}.
#[global] Arguments Raw {C T K G}.
#[global] Arguments Chunks {C T K G}.
#[global] Arguments Sealed {C T K G}.
#[global] Arguments Crypted {C T K G}.
#[global] Arguments CryptedSealed {C T K G}.
End VmessBody.
