(* ===== verification/VmessBodySpec.v ===== *)
(** * Package proxy/vmess/encoding: a body arrives as it was written

    The two ends of a body that were set up with the same keys and options stay
    in step, whatever authenticates the chunks, masks or seals their sizes and
    pads them. *)
From S2P Require Import Prelude GoStd GoText Buf MultiBuf Headers BufReader Auth AuthSpec VmessAead VmessAeadSpec VmessBody.
Import MultiBuf Buf BufReader VmessAead Auth VmessBody.

(** ** Masked sizes *)
Lemma lxor_bits n a b : 0 <= n -> 0 <= a < 2 ^ n -> 0 <= b < 2 ^ n -> 0 <= Z.lxor a b < 2 ^ n.
Proof.
  intros Hn0 Ha Hb. assert (Hn : 0 <= Z.lxor a b) by (apply Z.lxor_nonneg; lia). split; [done|].
  assert (E : Z.lxor a b mod 2 ^ n = Z.lxor a b).
  { apply Z.bits_inj'. intros i Hn'. destruct (Z_lt_le_dec i n) as [Hlt|Hge]; [by rewrite Z.mod_pow2_bits_low|].
    rewrite Z.mod_pow2_bits_high, Z.lxor_spec by lia.
    rewrite <- (Z.mod_small a (2 ^ n)), <- (Z.mod_small b (2 ^ n)), !Z.mod_pow2_bits_high by lia. done. }
  rewrite <- E. apply Z.mod_pos_bound. lia.
Qed.

Lemma lxor_u16 a b : 0 <= a < 2 ^ 16 -> 0 <= b < 2 ^ 16 -> 0 <= Z.lxor a b < 2 ^ 16.
Proof. by apply lxor_bits. Qed.

Lemma lxor_again a b : Z.lxor a (Z.lxor a b) = b.
Proof. by rewrite <- Z.lxor_assoc, Z.lxor_nilpotent, Z.lxor_0_l. Qed.

Lemma Uint16_put n : 0 <= n < 2 ^ 16 -> Uint16 (put_be 2 n) = Ok n.
Proof.
  intros Hn. rewrite <- (app_nil_r (put_be 2 n)), Uint16_app by done. by rewrite get_be_put_be_small by (change (256 ^ Z.of_nat 2) with (2 ^ 16); lia).
Qed.

Section Spec.
Context {C T K G : Type} `{VmessCryptoOk C T K G} `{AO : !AeadOk C 16}.

Lemma Fnv_Open_Seal d : Fnv_Open (Fnv_Seal d) = Ok d /\ zlen (Fnv_Seal d) = zlen d + 4.
Proof.
  assert (Hz : zlen (Fnv_Seal d) = zlen d + 4) by (unfold Fnv_Seal; rewrite zlen_app, zlen_put_be; lia). split; [|done].
  pose proof (zlen_nonneg d) as H0d. unfold Fnv_Open. replace (zlen (Fnv_Seal d) <? 4) with false by lia. unfold Fnv_Seal.
  set (h := put_be 4 (Authenticate d)). assert (Ht : take 4 (h ++ d) = h) by (change 4%nat with (length h); apply take_app_length).
  assert (Hd : drop 4 (h ++ d) = d) by (change 4%nat with (length h); apply drop_app_length). rewrite Ht, Hd. unfold h.
  rewrite get_be_put_be_small by (unfold Authenticate; pose proof (fnv32a_range d) as Hr; change (256 ^ Z.of_nat 4) with (2 ^ 32); lia).
  by rewrite decide_False by (intros Hn; by apply Hn).
Qed.

Lemma kind_overhead (k : Kind C) : 0 <= aead_Overhead k <= 16.
Proof. destruct k as [| |c]; cbn [aead_Overhead kind_aead]; [lia|lia|]. rewrite aead_overhead. lia. Qed.

Lemma kind_seal_open (k : Kind C) nonce d ad :
  zlen nonce = NonceSize k ->
  exists ct, aead_Seal k nonce d ad = Ok ct /\ zlen ct = zlen d + aead_Overhead k /\ aead_Open k nonce ct ad = Ok d.
Proof.
  intros Hn. destruct k as [| |c]; cbn in *.
  - exists d. split; [done|]. split; [lia|done].
  - destruct (Fnv_Open_Seal d). by exists (Fnv_Seal d).
  - rewrite aead_overhead. by apply aead_seal_open.
Qed.

(** ** Authenticators *)

(** The nonce is empty, or counts chunks in as many bytes as the cipher wants. *)
Definition nonces_for (n : Z) (g : BytesGenerator) : Prop :=
  (g = EmptyBytes /\ n = 0) \/
  exists c count, g = ChunkNonce c count n /\ 2 <= zlen c /\ 0 <= n <= zlen c /\ 0 <= count < 2 ^ 16.

Definition ready (a : AEADAuthenticator (Kind C)) : Prop :=
  AdditionalDataGenerator a = Some EmptyBytes /\ nonces_for (NonceSize (AEAD a)) (NonceGenerator a).

Lemma nonces_next n g :
  nonces_for n g -> exists iv, next_bytes g = ((next_bytes g).1, Ok iv) /\ zlen iv = n /\ nonces_for n (next_bytes g).1.
Proof.
  intros [[-> ->]|(c & count & -> & H2 & Hn & Hc)].
  - exists []. split; [done|]. split; [done|]. by left.
  - cbn [next_bytes]. replace (zlen c <? 2) with false by lia.
    assert (Hz : zlen (put_be 2 count ++ drop 2 c) = zlen c).
    { rewrite zlen_app, zlen_put_be. unfold zlen in *. rewrite length_drop. lia. }
    rewrite slice_Some by lia. cbn [or_panic fst]. eexists. split; [done|]. split.
    + unfold zlen in *. rewrite length_take, length_drop. lia.
    + right. exists (put_be 2 count ++ drop 2 c), (u16 (count + 1)). split; [done|]. rewrite Hz. split; [lia|]. split; [lia|]. apply u16_range.
Qed.

Lemma next_inputs_ready a :
  ready a -> exists a' iv, next_inputs a = (a', Ok (iv, [])) /\ AEAD a' = AEAD a /\ zlen iv = NonceSize (AEAD a) /\ ready a'.
Proof.
  intros [Ha Hn]. destruct (nonces_next _ _ Hn) as (iv & E & Hz & Hn'). unfold next_inputs. rewrite E. cbn [AEAD AdditionalDataGenerator].
  rewrite decide_False by (intros Hne; by apply Hne). rewrite Ha. cbn [next_bytes]. eexists _, iv. split; [done|]. by split.
Qed.

Lemma ready_seal a d :
  ready a -> exists a' ct, Seal d a = (a', Ok ct) /\ zlen ct = zlen d + aead_Overhead (AEAD a) /\ Open ct a = (a', Ok d) /\ AEAD a' = AEAD a /\ ready a'.
Proof.
  intros Ha. destruct (next_inputs_ready a Ha) as (a' & iv & E & Hk & Hz & Ha'). unfold Seal, Open. rewrite E.
  rewrite <- Hk in Hz |- *. destruct (kind_seal_open (AEAD a') iv d [] Hz) as (ct & -> & Hzc & Ho). exists a', ct. by rewrite Ho.
Qed.

(** ** Both ends *)
Definition sizes_ready (p : SizeParser C) (shake : option K) (sb : Z) : Prop :=
  match p with
  | PlainChunkSizeParser => sb = 2
  | ShakeSizeParser => sb = 2 /\ is_Some shake
  | AEADSizeParser a => sb = 2 + aead_Overhead (AEAD a) /\ ready a
  end.

Definition paddings (b : bool) : Z := if b then 64 else 0.

Record agree (ov sb mp : Z) (w r : Body C K G) : Prop := {
  ag_auth : b_auth w = b_auth r; ag_sizes : b_sizes w = b_sizes r; ag_shake : b_shake w = b_shake r; ag_padding : b_padding w = b_padding r;
  ag_ready : ready (b_auth w); ag_ov : aead_Overhead (AEAD (b_auth w)) = ov;
  ag_sb : sizes_ready (b_sizes w) (b_shake w) sb;
  ag_mp : paddings (b_padding w) = mp; ag_has : b_padding w = true -> is_Some (b_shake w);
}.

Lemma next_range s : 0 <= (next s).2 < 2 ^ 16.
Proof.
  unfold next. pose proof (shake_length 2 s) as Hl. destruct (shake_Read 2 s) as [s' b]. cbn [snd] in *.
  pose proof (get_be_range b) as Hg. unfold zlen in Hg. rewrite Hl in Hg. exact Hg.
Qed.

Lemma agree_size ov sb mp w r n :
  agree ov sb mp w r -> 0 <= ov -> ov <= n <= 2048 ->
  exists w' bs r', Encode n w = (w', Ok bs) /\ zlen bs = sb /\ Decode bs r = (r', Ok (n - 0)) /\ agree ov sb mp w' r'.
Proof.
  intros [Ha Hs Hk Hp Hr Ho Hsb Hmp Hhas] Hov Hn. rewrite Z.sub_0_r. cbn [Encode Decode body_framing]. unfold body_Encode, body_Decode. rewrite <- Hs, <- Hk.
  destruct (b_sizes w) as [| |a] eqn:Es; cbn [sizes_ready] in Hsb.
  - exists w, (put_be 2 n), r. split; [done|]. split; [by rewrite zlen_put_be|]. unfold Plain_Decode. rewrite Uint16_put by lia.
    split; [done|]. by split; rewrite ?Es.
  - destruct Hsb as [-> [s Hsome]]. rewrite Hsome. unfold Shake_Encode, Shake_Decode. pose proof (next_range s) as Hm. destruct (next s) as [s' mask]. cbn [snd] in Hm.
    exists (set_shake w s'), (put_be 2 (Z.lxor mask n)), (set_shake r s'). split; [done|]. split; [by rewrite zlen_put_be|].
    rewrite Uint16_put by (apply lxor_u16; lia). cbn [mbind res_bind]. rewrite lxor_again. split; [done|].
    split; cbn [b_auth b_sizes b_shake b_padding set_shake]; rewrite ?Es; done.
  - destruct Hsb as [-> Hra]. pose proof (kind_overhead (AEAD a)) as Hko. unfold AEAD_Encode, AEAD_Decode. rewrite (u16_small (aead_Overhead (AEAD a))) by lia.
    destruct (ready_seal a (put_be 2 (u16 (n - aead_Overhead (AEAD a)))) Hra) as (a' & ct & -> & Hz & Hopen & Hk' & Hra').
    exists (set_sizes w (AEADSizeParser a')), ct, (set_sizes r (AEADSizeParser a')). split; [done|]. split; [rewrite Hz, zlen_put_be; lia|].
    rewrite Hopen, Uint16_put by apply u16_range. cbn [mbind res_bind]. rewrite Hk'. split.
    + do 2 f_equal. rewrite (u16_small (aead_Overhead _)) by lia. unfold u16. rewrite Zplus_mod_idemp_l. apply (u16_small (n - aead_Overhead (AEAD a) + aead_Overhead (AEAD a)) ltac:(lia)) || (rewrite Z.sub_add, Z.mod_small by lia; done).
    + split; cbn [b_auth b_sizes b_shake b_padding set_sizes sizes_ready]; try done. rewrite Hk'. by split.
Qed.

Lemma body_ok ov sb mp : 0 <= ov <= 16 -> 2 <= sb <= 18 -> 0 <= mp <= 64 -> FramingOk (Body C K G) (agree ov sb mp) ov sb mp 0.
Proof.
  intros Hov Hsb Hmp. split.
  - lia.
  - intros w r [Ha Hs Hk Hp Hr Ho Hsz Hm Hhas]. cbn [Overhead SizeBytes padding MaxPaddingLen offset body_framing]. rewrite <- Ha, <- Hs, <- Hp.
    split; [done|]. assert (Hsb' : match b_sizes w with AEADSizeParser a => AEAD_SizeBytes a | _ => 2 end = sb).
    { unfold sizes_ready in Hsz. destruct (b_sizes w) as [| |a]; [done|by destruct Hsz|]. destruct Hsz as [-> _]. unfold AEAD_SizeBytes.
      pose proof (kind_overhead (AEAD a)). by rewrite i32_small by lia. }
    split; [done|]. split; [|done]. split; [done|]. unfold paddings, Shake_MaxPaddingLen in *. split; [done|]. intros E. by rewrite E in Hm.
  - intros w r [Ha Hs Hk Hp Hr Ho Hsz Hm Hhas] Hpad. cbn [padding body_framing] in Hpad. cbn [NextPaddingLen body_framing]. destruct (Hhas Hpad) as [s Hsome]. rewrite <- Hk, Hsome.
    unfold Shake_NextPaddingLen. destruct (next s) as [s' n]. cbn [fst snd]. split; [done|]. rewrite <- Hm, Hpad. unfold paddings.
    pose proof (Z.mod_pos_bound n 64). split; [lia|]. split; cbn [b_auth b_sizes b_shake b_padding set_shake]; try done; [|by rewrite Hpad].
    unfold sizes_ready in *. destruct (b_sizes w); try done. by destruct Hsz.
  - intros w r n Hag Hn. by apply agree_size; [|lia|].
  - intros w r d [Ha Hs Hk Hp Hr Ho Hsz Hm Hhas] Hd. cbn [auth_Seal auth_Open body_framing]. rewrite <- Ha.
    destruct (ready_seal (b_auth w) d Hr) as (a' & ct & -> & Hz & Hopen & Hka & Hra). exists (set_auth w a'), ct, (set_auth r a'). split; [done|].
    rewrite Hz, Ho. split; [done|]. rewrite Hopen. split; [done|]. split; cbn [b_auth b_sizes b_shake b_padding set_auth]; try done. by rewrite Hka.
  - intros w r n [Ha Hs Hk Hp Hr Ho Hsz Hm Hhas] Hn. cbn [random body_framing]. pose proof (random_length n (b_random w) ltac:(lia)) as Hl.
    destruct (random_Read n (b_random w)) as [g d]. cbn [fst snd] in *. split; [done|]. split; done.
Qed.

(** ** What the options set up *)

(** Two ends given the same keys are in step. *)
Lemma body_stream_agree option security transfer key iv lengthKey lengthIV lw lr gw gr t w :
  length iv = 16%nat -> length lengthIV = 16%nat ->
  body_stream option security transfer key iv lengthKey lengthIV lw gw = Ok (Sealed (T := T) t w) ->
  exists r sb mp, body_stream option security transfer key iv lengthKey lengthIV lr gr = Ok (Sealed (T := T) t r) /\
    2 <= sb <= 18 /\ 0 <= mp <= 64 /\ agree (aead_Overhead (AEAD (b_auth w))) sb mp w r.
Proof.
  intros Hiv Hliv. unfold body_stream. set (masking := Has option Headers.RequestOptionChunkMasking). set (pad := Has option Headers.RequestOptionGlobalPadding).
  set (shake := if masking then _ else None). set (sizeParser := if masking then ShakeSizeParser else PlainChunkSizeParser).
  destruct (pad && negb masking) eqn:Epm; [discriminate|]. assert (Hsome : masking = true -> is_Some shake) by (unfold shake; by intros ->).
  assert (Hpad : pad = true -> is_Some shake) by (intros ->; destruct masking; [by apply Hsome|discriminate Epm]).
  assert (Hplain : sizes_ready sizeParser shake 2) by (unfold sizeParser, shake; destruct masking; cbn; [|done]; split; [done|by eexists]).
  assert (Hcipher : forall (c c' : C) i, length i = 16%nat -> NonceSize c = 12 -> NonceSize c' = 12 -> ready (authenticator (Cipher c) (GenerateChunkNonce i (NonceSize c')))).
  { intros c c' i Hi Hc Hc'. split; [done|]. right. exists i, 0. unfold GenerateChunkNonce. cbn [NonceSize kind_aead AEAD authenticator]. rewrite Hc, Hc'. unfold zlen. rewrite Hi. split; [done|lia]. }
  assert (Hmp : 0 <= paddings pad <= 64) by (unfold paddings; destruct pad; lia).
  destruct (security =? SecurityType_NONE) eqn:En.
  { destruct (Has option Headers.RequestOptionChunkStream); [|discriminate]. destruct transfer; [discriminate|]. injection 1 as <- <-.
    eexists _, 2, (paddings pad). split; [done|]. split; [lia|]. split; [done|]. split; try done. split; [done|]. by left. }
  destruct (security =? SecurityType_LEGACY); [by destruct (Has option Headers.RequestOptionChunkStream)|].
  set (lk := KDF16 lengthKey _).
  assert (Hsealed : forall (c lc : C), NonceSize c = 12 -> NonceSize lc = 12 ->
    let sizes := if Has option Headers.RequestOptionAuthenticatedLength then AEADSizeParser (length_auth lc c lengthIV) else sizeParser in
    exists sb, 2 <= sb <= 18 /\ agree (aead_Overhead (Cipher c)) sb (paddings pad) (mkBody (cipher_auth c iv) sizes shake pad gw) (mkBody (cipher_auth c iv) sizes shake pad gr)).
  { intros c lc Hc Hlc sizes. exists (if Has option Headers.RequestOptionAuthenticatedLength then 18 else 2). split; [by destruct (Has option Headers.RequestOptionAuthenticatedLength)|]. split; try done.
    - by apply Hcipher.
    - cbn [b_sizes b_shake]. unfold sizes. destruct (Has option Headers.RequestOptionAuthenticatedLength); [|done]. cbn [sizes_ready].
      unfold length_auth, authenticator at 1. cbn [AEAD aead_Overhead kind_aead]. rewrite aead_overhead. split; [lia|]. by apply Hcipher. }
  destruct (security =? SecurityType_AES128_GCM).
  { injection 1 as <- <-. destruct (Hsealed (NewAesGcm key) (NewAesGcm lk) (gcm_nonce_size _) (gcm_nonce_size _)) as (sb & Hsb & Hag). eexists _, sb, (paddings pad). by split. }
  destruct (security =? SecurityType_CHACHA20_POLY1305); [|discriminate].
  injection 1 as <- <-. destruct (Hsealed (chacha20poly1305_New (GenerateChacha20Poly1305Key key)) (chacha20poly1305_New (GenerateChacha20Poly1305Key lk))
    (chacha_nonce_size _) (chacha_nonce_size _)) as (sb & Hsb & Hag). eexists _, sb, (paddings pad). by split.
Qed.
End Spec.

(** ** Bodies *)
Section Delivery.
Context {C T K G : Type} `{VmessCryptoOk C T K G} `{AO : !AeadOk C 16}.
Context {W : Type} `{MbSink W} {L : Type} `{MbSource L}.

(** C21. A body in sealed chunks arrives, for a stream request with a security
    (AES-128-GCM or ChaCha20-Poly1305, whose ciphers open what they seal with tags of 16
    bytes and nonces of 12): whatever the options ask for - sizes in the clear, masked
    or sealed, with padding or without -, if they set the body up at the writing end,
    the other end sets it up from the same keys and IVs of 16 bytes; and MultiBuffers
    that are not empty, of buffers of 1 to 2048 bytes and of at most 512 KB each, that
    are written to it, over a connection that takes them, and then ended come out as
    they were written, in order, however the bytes are cut on the way, and then the end
    of the body, whatever follows it. *)
Theorem vmess_body_delivers option security key iv lengthKey lengthIV (lw lr : Datatypes.option T) (gw gr : G) w (l : list MultiBuffer) (u : W)
    (Hiv : length iv = 16%nat) (Hliv : length lengthIV = 16%nat)
    (Ew : body_stream option security TransferTypeStream key iv lengthKey lengthIV lw gw = Ok (Sealed TransferTypeStream w))
    (Hl : Forall sendable l) (Hu : taken u []) :
  exists r, body_stream option security TransferTypeStream key iv lengthKey lengthIV lr gr = Ok (Sealed TransferTypeStream r) /\
  exists w' sent, write_all l (NewAuthenticationWriter w u TransferTypeStream) = (w', Ok tt) /\ taken (w_writer w') sent /\
  exists w2 more, write_mb [] w' = (w2, Ok tt) /\ taken (w_writer w2) (sent ++ more) /\
    forall (br : BufferedReader L) n rest, reader_wf br -> (length (concat (map mb_content l)) < n)%nat ->
      reader_content br = sent ++ more ++ rest ->
      read_until n (NewAuthenticationReader r br) = Some (concat (map mb_content l), EOF).
Proof.
  destruct (body_stream_agree option security TransferTypeStream key iv lengthKey lengthIV lw lr gw gr TransferTypeStream w Hiv Hliv Ew)
    as (r & sb & mp & Er & Hsb & Hmp & Hag). exists r. split; [done|].
  pose proof (body_ok (C := C) (K := K) (G := G) _ sb mp (kind_overhead (AEAD (b_auth w))) Hsb Hmp) as FO.
  destruct (write_all_spec (FO := FO) l (NewAuthenticationWriter w u TransferTypeStream) r [] Hag eq_refl Hu Hl)
    as (w' & r' & ds & o & Hw & HP' & _ & Hw' & Hd & Hc & Hs). exists w', o. split; [done|]. split; [done|].
  destruct (write_end_spec (FO := FO) w' r' o HP' Hw') as (w2 & r2 & o2 & Hw2 & Hs2 & Hu2). exists w2, o2. split; [done|]. split; [done|].
  intros br n rest Hwf Hn Hbr. rewrite <- Hc in *. pose proof (chunks_length ds Hd).
  apply (read_until_after n _ ds (Finished rest)); [|lia]. apply (new_reader_after _ _ _ (o ++ o2) r2); [done|done|].
  rewrite <- app_assoc. split; [by eapply stream_app|done].
Qed.
End Delivery.

Module DemoBody.
Import DemoCrypto.
Definition demo_iv : bytes := map z2b (seqZ 40 16).

(** With every option there is. *)
Definition demo_stream (legacy : Datatypes.option bytes) (g : nat) : res (BodyStream bytes bytes nat nat) :=
  body_stream 29 SecurityType_AES128_GCM TransferTypeStream demo_key demo_iv demo_key demo_iv legacy g.
Definition demo_body (g : nat) : Datatypes.option (Body bytes nat nat) := match demo_stream None g with Ok (Sealed _ b) => Some b | _ => None end.
Definition demo_written : bytes :=
  match demo_body 1 with
  | Some b => out_bytes (w_writer (write_all (toy_sent ++ [[]]) (NewAuthenticationWriter b (mkOut [] None) TransferTypeStream)).1)
  | None => []
  end.

Lemma vmess_body_delivers_witness :
  exists r, demo_body 2 = Some r /\
    read_until 20 (NewAuthenticationReader r (toy_reader (demo_written ++ lit "rest") (NewError "reset"))) = Some (lit "hello world", EOF).
Proof.
  assert (Hl : Forall sendable toy_sent).
  { repeat (constructor; [split; [repeat (constructor; [apply tidy_push; vm_compute; split; discriminate|]); constructor|split; [discriminate|vm_compute; discriminate]]|]). constructor. }
  destruct (demo_body 1) as [b|] eqn:Eb; [|vm_compute in Eb; discriminate Eb]. pose proof Eb as Eb'. unfold demo_body, demo_stream in Eb'.
  destruct (body_stream _ _ _ _ _ _ _ _ _) as [[| |t b'| |]|?|] eqn:Es; try discriminate Eb'. injection Eb' as ->.
  assert (t = TransferTypeStream) as -> by (vm_compute in Es; congruence).
  destruct (vmess_body_delivers 29 SecurityType_AES128_GCM demo_key demo_iv demo_key demo_iv None None 1%nat 2%nat b toy_sent (mkOut [] None))
    as (r & Er & w' & sent & Hw & _ & w2 & more & Hw2 & (_ & Hs2 & _) & Hr); [done|done|exact Es|exact Hl|by split|].
  exists r. split; [unfold demo_body, demo_stream; by rewrite Er|].
  assert (E2 : demo_written = sent ++ more).
  { unfold demo_written. rewrite Eb, write_all_app, Hw. cbn [write_all]. by rewrite Hw2. }
  destruct (toy_reader_wf (demo_written ++ lit "rest") (NewError "reset")) as [Hwf Hc]; [vm_compute; split; discriminate|].
  rewrite (Hr _ 20%nat (lit "rest") Hwf ltac:(vm_compute; lia)); [vm_compute; reflexivity|]. by rewrite Hc, E2, app_assoc.
Defined.

(** A chunk shorter than its checksum: the reader of the legacy security panics. *)
Definition legacy_body (sizes : SizeParser bytes) : Body bytes nat nat :=
  mkBody (authenticator FnvAuthenticator GenerateEmptyBytes) sizes None false 0%nat.

Lemma short_legacy_chunk_panics :
  (forall t, body_stream 1 SecurityType_LEGACY t demo_key demo_iv demo_key demo_iv (Some demo_key) 0%nat =
    Ok (CryptedSealed (C := bytes) (T := bytes) (K := nat) (Some demo_key) t (legacy_body PlainChunkSizeParser))) /\
  forall b, In b [0; 1; 2; 3] -> (ReadMultiBuffer (NewAuthenticationReader (legacy_body PlainChunkSizeParser) (toy_reader (put_be 2 b ++ lit "abcdefgh") (NewError "reset")))).2 = Panic.
Proof.
  split; [by intros []; vm_compute|].
  intros b Hb. repeat (destruct Hb as [<-|Hb]; [vm_compute; reflexivity|]). destruct Hb.
Qed.
End DemoBody.
