(* ===== verification/Cryption.v ===== *)
(** * Package common/crypto: reading through a stream cipher

    [Auth.Cryption_Read] makes a reader of a stream and a reader.  [cryption_reader]
    gives it the contract of readers, with the documented behaviour of
    [cipher.Stream] - calls in a row work as one on all the bytes - as the class
    [StreamOk]; [cryption_at] moreover says what is left on the connection. *)
From S2P Require Import Prelude GoStd Auth.
Import Auth.

Class StreamOk (T : Type) `{Stream T} : Prop := {
  xor_nil s : XORKeyStream [] s = (s, []);
  xor_app a b s : XORKeyStream (a ++ b) s =
    (let '(s1, x) := XORKeyStream a s in let '(s2, y) := XORKeyStream b s1 in (s2, x ++ y));
  xor_length d s : length (XORKeyStream d s).2 = length d;
}.

Section Cryption.
Context {T R : Type} `{StreamOk T} `{Reader R}.

(** What the bytes become, and the stream behind them. *)
Definition deciphered (d : bytes) (s : T) : bytes := (XORKeyStream d s).2.
Definition stream_after (d : bytes) (s : T) : T := (XORKeyStream d s).1.

Lemma deciphered_app a b s : deciphered (a ++ b) s = deciphered a s ++ deciphered b (stream_after a s).
Proof.
  unfold deciphered, stream_after. rewrite xor_app. destruct (XORKeyStream a s) as [s1 x]. cbn [fst]. by destruct (XORKeyStream b s1).
Qed.

Lemma stream_after_app a b s : stream_after (a ++ b) s = stream_after b (stream_after a s).
Proof. unfold stream_after. rewrite xor_app. destruct (XORKeyStream a s) as [s1 x]. cbn [fst]. by destruct (XORKeyStream b s1). Qed.

Lemma deciphered_length d s : length (deciphered d s) = length d.
Proof. apply xor_length. Qed.

(** A read takes bytes off the connection and moves the stream past them. *)
Lemma Cryption_Read_spec (r : CryptionReader T R) n r' bs e :
  rd_wf (c_reader r) -> Cryption_Read r n = (r', (bs, e)) ->
  exists data, rd (c_reader r) n = (c_reader r', (data, e)) /\ bs = deciphered data (c_stream r) /\ c_stream r' = stream_after data (c_stream r).
Proof.
  intros Hwf E. unfold Cryption_Read in E. destruct (rd (c_reader r) n) as [u [data err]] eqn:Er. exists data.
  unfold deciphered, stream_after. destruct (0 <? zlen data) eqn:Ez.
  - destruct (XORKeyStream data (c_stream r)) as [s x]. by injection E as <- <- <-.
  - assert (data = []) as -> by (destruct data; [done|unfold zlen in Ez; cbn in Ez; lia]). rewrite xor_nil. by injection E as <- <- <-.
Qed.

#[export] Instance cryption_reader : Reader (CryptionReader T R).
Proof.
  refine {| rd := Cryption_Read; rd_content r := deciphered (rd_content (c_reader r)) (c_stream r);
            rd_end r := rd_end (c_reader r); rd_wf r := rd_wf (c_reader r) |}.
  - intros r n r' bs e Hwf E. destruct (Cryption_Read_spec r n r' bs e Hwf E) as (data & Er & -> & ->).
    destruct (rd_law _ _ _ _ _ Hwf Er) as (Hwf' & Hl & Hc & He). split; [done|]. split; [by rewrite deciphered_length|].
    split; [|done]. by rewrite Hc, deciphered_app.
  - intros r n r' bs e Hwf E. destruct (Cryption_Read_spec r n r' bs e Hwf E) as (data & Er & -> & ->).
    pose proof (rd_progress _ _ _ _ _ Hwf Er) as Hp. destruct e as [e|].
    + destruct Hp as [Hc ->]. rewrite Hc. split; [|done]. unfold deciphered. by rewrite xor_nil.
    + intros Hn. specialize (Hp Hn). intros Hd. apply Hp. apply (f_equal length) in Hd. rewrite deciphered_length in Hd. by destruct data.
Defined.

(** The same reader, keeping in mind the bytes [all] and the stream [s0] it began with. *)
Definition stands_in (all : bytes) (s0 : T) (r : CryptionReader T R) : Prop :=
  rd_wf (c_reader r) /\ exists used, all = used ++ rd_content (c_reader r) /\ c_stream r = stream_after used s0.

Definition cryption_at (all : bytes) (s0 : T) : Reader (CryptionReader T R).
Proof.
  refine {| rd := Cryption_Read; rd_content r := deciphered (rd_content (c_reader r)) (c_stream r);
            rd_end r := rd_end (c_reader r); rd_wf := stands_in all s0 |}.
  - intros r n r' bs e [Hwf (used & Ha & Hs)] E. destruct (rd_law (Reader := cryption_reader) r n r' bs e Hwf E) as (Hwf' & Hl & Hc & He).
    split; [|done]. split; [done|]. destruct (Cryption_Read_spec r n r' bs e Hwf E) as (data & Er & _ & Hs').
    destruct (rd_law _ _ _ _ _ Hwf Er) as (_ & _ & Hcr & _). exists (used ++ data). split; [by rewrite Ha, Hcr, app_assoc|].
    by rewrite Hs', Hs, stream_after_app.
  - intros r n r' bs e [Hwf _] E. exact (rd_progress (Reader := cryption_reader) r n r' bs e Hwf E).
Defined.

(** Where the reader stands when [d] is left to be deciphered: the connection has
    the bytes of [all] that have not become anything yet. *)
Lemma stands_left all s0 (r : CryptionReader T R) n :
  stands_in all s0 r -> length (deciphered (rd_content (c_reader r)) (c_stream r)) = (length all - n)%nat -> (n <= length all)%nat ->
  rd_content (c_reader r) = drop n all /\ c_stream r = stream_after (take n all) s0.
Proof.
  intros [Hwf (used & Ha & Hs)] Hl Hn. rewrite deciphered_length in Hl. assert (Hu : length used = n).
  { apply (f_equal length) in Ha. rewrite length_app in Ha. lia. }
  rewrite Ha, <- Hu, take_app_length, drop_app_length. by rewrite <- Hs.
Qed.
End Cryption.
