(* ===== verification/Vmess.v ===== *)
(** * Package proxy/vmess/encoding: commands, sessions and headers

    [Module Vmess] models commands.go, and of server.go and client.go the history
    of sessions, the headers of requests and responses and the keys of the bodies.
    The body streams themselves are in [VmessBody].  Times are in seconds. *)
From S2P Require Import Prelude GoStd GoText Uuid Buf MultiBuf NetAddr AddrParser Headers Codec Talk Auth Cryption Replay Drain VmessAead VmessUsers VmessBody.
Import Uuid Buf NetAddr AddrParser Codec Talk Replay Drain VmessAead VmessUsers Auth VmessBody.
Import Headers(RequestHeader, MemoryUser).

Module Vmess.

(** ** commands.go *)
Record CommandSwitchAccount := mkCommand {
  c_Host : Datatypes.option Address; c_Port : Port; c_ID : UUID; c_Level : Z; c_AlterIds : Z; c_ValidMin : byte }.

Definition ErrUnknownCommand : error := NewError "Unknown command.".
Definition ErrCommandTooLarge : error := NewError "Command too large.".
Definition ErrInsufficientLength : error := NewError "Insufficient length.".
Definition ErrInvalidAuth : error := NewError "Invalid auth.".

(** [Address.String] *)
Definition Address_String (a : Address) : bytes :=
  match a with
  | ipv4Address ip => IP_String ip
  | ipv6Address ip => [z2b 91] ++ IP_String ip ++ [z2b 93]
  | domainAddress d => d
  end.

(** [CommandSwitchAccountFactory.Marshal], into a buffer. *)
Definition factory_Marshal (cmd : CommandSwitchAccount) : ST Buf.Buffer unit :=
  let hostStr := match c_Host cmd with Some a => Address_String a | None => [] end in
  _ ← Must (Write [z2b (zlen hostStr)]);
  _ ← (if 0 <? zlen hostStr then (_ ← Must (Write hostStr); mret tt) else mret tt);
  _ ← Must (Write (put_be 2 (c_Port cmd)));
  _ ← Must (Write (c_ID cmd));
  _ ← Must (Write (put_be 2 (c_AlterIds cmd)));
  _ ← Must (Write [z2b (c_Level cmd)]);
  _ ← Must (Write [c_ValidMin cmd]);
  mret tt.

(** What [MarshalCommand] writes, a call of [Write] each. *)
Definition MarshalCommand (command : Datatypes.option CommandSwitchAccount) : res (list bytes) :=
  match command with
  | None => Err ErrUnknownCommand
  | Some cmd =>
    buffer ← build (factory_Marshal cmd) New;
    d ← Bytes buffer;
    let length := i32 (Len (Some buffer) + 4) in
    if 255 <? length then Err ErrCommandTooLarge
    else Ok [[x01; z2b length] ++ put_be 4 (Authenticate d); d]
  end.

(** [data[start:start+n]], behind a check of the length. *)
Definition field (data : bytes) (start n : Z) : res bytes :=
  if zlen data <? start + n then Err ErrInsufficientLength else or_panic (slice data start (start + n)).

Definition factory_Unmarshal (data : bytes) : res CommandSwitchAccount :=
  if zlen data =? 0 then Err ErrInsufficientLength
  else
    l ← or_panic (index data 0);
    let lenHost := b2z l in
    if zlen data <? lenHost + 1 then Err ErrInsufficientLength
    else
      host ← (if 0 <? lenHost then text ← or_panic (slice data 1 (1 + lenHost)); ParseAddress text else Ok None);
      let portStart := 1 + lenHost in
      port ← field data portStart 2;
      port ← PortFromBytes port;
      let idStart := portStart + 2 in
      id ← field data idStart 16;
      let id := match ParseBytes id with Ok id => id | _ => replicate 16 x00 end in
      let alterIDStart := idStart + 16 in
      alter ← field data alterIDStart 2;
      let levelStart := alterIDStart + 2 in
      level ← field data levelStart 1;
      let timeStart := levelStart + 1 in
      time ← field data timeStart 1;
      validMin ← or_panic (head time);
      Ok {| c_Host := host; c_Port := port; c_ID := id; c_Level := get_be level; c_AlterIds := get_be alter; c_ValidMin := validMin |}.

Definition UnmarshalCommand (cmdID : byte) (data : bytes) : res CommandSwitchAccount :=
  if zlen data <=? 4 then Err ErrInsufficientLength
  else
    actualAuth ← or_panic (slice data 0 4);
    if decide (Authenticate (drop 4 data) <> get_be actualAuth) then Err ErrInvalidAuth
    else if b2z cmdID =? 1 then factory_Unmarshal (drop 4 data)
    else Err ErrUnknownCommand.

(** ** encoding.go *)
Definition Version : byte := x01.

Definition vmess_options : res (list AddressOption) :=
  o1 ← AddressFamilyByte 1 AddressFamilyIPv4;
  o2 ← AddressFamilyByte 2 AddressFamilyDomain;
  o3 ← AddressFamilyByte 3 AddressFamilyIPv6;
  Ok [o1; o2; o3; PortThenAddress].

Definition addrParser : AddressSerializer :=
  NewAddressParser (match vmess_options with Ok l => l | _ => [] end).

(** ** The history of sessions *)

(** User, key and nonce. *)
Abbreviation sessionID := (bytes * bytes * bytes)%type.
(** [cache]; the entries are the times they expire at. *)
Abbreviation SessionHistory := (gmap (bytes * bytes * bytes) Z).

Definition addIfNotExits (now : Z) (session : sessionID) (h : SessionHistory) : SessionHistory * bool :=
  if match h !! session with Some expire => now <? expire | None => false end then (h, false)
  else (<[session := now + 180]> h, true).

Definition removeExpiredEntries (now : Z) (h : SessionHistory) : SessionHistory * Datatypes.option error :=
  if bool_decide (h = ∅) then (h, Some (NewError "nothing to do"))
  else (base.filter (fun kv => now <= kv.2) h, None).

Abbreviation Request := (RequestHeader MemoryAccount).
Record ResponseHeader := mkResponse { r_Option : Z; r_Command : Datatypes.option CommandSwitchAccount }.

(** Keys and IVs are arrays of 16 bytes. *)
Record Keys := mkKeys { bodyKey : bytes; bodyIV : bytes }.

Definition parseSecurityType (b : Z) : Z :=
  if (0 <=? b) && (b <=? 6) then (if b =? SecurityType_UNKNOWN then SecurityType_LEGACY else b) else SecurityType_UNKNOWN.

Section Sessions.
Context {C T K G F : Type} `{AeadCipher C} `{VmessCrypto C T K G} `{Filter F} `{StreamOk T}.

Definition hashTimestamp (t : Z) : bytes := md5 (put_be 8 t ++ put_be 8 t ++ put_be 8 t ++ put_be 8 t).

(** The keys of the response. *)
Definition response_keys (aead : bool) (request : Keys) : Keys :=
  if aead then {| bodyKey := take 16 (sha256 (bodyKey request)); bodyIV := take 16 (sha256 (bodyIV request)) |}
  else {| bodyKey := md5 (bodyKey request); bodyIV := md5 (bodyIV request) |}.

(** ** ServerSession *)
Record ServerSession := mkServer {
  s_request : Keys;
  s_response : Keys;
  s_responseWriter : Datatypes.option T;    (* the stream of the writer *)
  s_responseHeader : byte;
  isAEADRequest : bool;
  isAEADForced : bool;
}.

Definition zero_keys : Keys := {| bodyKey := replicate 16 x00; bodyIV := replicate 16 x00 |}.

Definition NewServerSession (forced : bool) : ServerSession := mkServer zero_keys zero_keys None x00 false forced.

Definition set_request (s : ServerSession) (aead : bool) (keys : Keys) : ServerSession :=
  mkServer keys (s_response s) (s_responseWriter s) (s_responseHeader s) aead (isAEADForced s).
Definition set_aead (s : ServerSession) (aead : bool) : ServerSession := set_request s aead (s_request s).
Definition set_header (s : ServerSession) (h : byte) : ServerSession :=
  mkServer (s_request s) (s_response s) (s_responseWriter s) h (isAEADRequest s) (isAEADForced s).

(** What is read behind the first 38 bytes; why it may be refused. *)
Inductive refusal :=
  | BadPadding (err : error)
  | BadChecksum (err : error)
  | InvalidAuth
  | Refused (err : error).

Section Parse.
Context {D : Type} `{Reader D}.

Definition read_target (command : Z) : ST (Buf.Buffer * D) (Datatypes.option (Address * Port)) :=
  if command =? Headers.RequestCommandMux then mret (Some (domainAddress (lit "v1.mux.cool"), 0))
  else if (command =? Headers.RequestCommandTCP) || (command =? Headers.RequestCommandUDP) then
    x ← attempt (ReadAddressPort_with addrParser);
    mret (match x with inl t => Some t | inr _ => None end)
  else mret None.

(** The checksum over all that the buffer has. *)
Definition check_sum : ST (Buf.Buffer * D) bool :=
  d ← buf_lift (fun b => BytesTo b (-4));
  expected ← buf_lift (fun b => BytesFrom b (-4));
  mret (bool_decide (fnv32a d = get_be expected)).

Definition read_tail (user : User) (version option security command : Z) (paddingLen : Z) : ST (Buf.Buffer * D) (Request + refusal) :=
  target ← read_target command;
  pad ← (if 0 <? paddingLen then attempt (ReadFullFrom paddingLen) else mret (inl 0));
  match pad with
  | inr err => mret (inr (BadPadding err))
  | inl _ =>
    sum ← attempt (ReadFullFrom 4);
    match sum with
    | inr err => mret (inr (BadChecksum err))
    | inl _ =>
      valid ← check_sum;
      if negb valid then mret (inr InvalidAuth)
      else
        match target with
        | None => mret (inr (Refused (NewError "invalid remote address")))
        | Some (addr, port) =>
          if (security =? SecurityType_UNKNOWN) || (security =? SecurityType_AUTO)
          then mret (inr (Refused (NewError "unknown security type: ")))
          else mret (inl {| Headers.Version := version; Headers.Command := command; Headers.Option := option; Headers.Security := security;
                            Headers.RPort := port; Headers.RAddress := Some addr; Headers.User := Some user |})
        end
    end
  end.
End Parse.

(** What a session shares with others, its connection and the generator of the
    program's random numbers. *)
Record World (R G2 : Type) := mkWorld {
  userValidator : TimedUserValidator F;
  sessionHistory : SessionHistory;
  reader : R;
  dice : G2;
}.
Arguments mkWorld {R G2}.
Arguments userValidator {R G2}.
Arguments sessionHistory {R G2}.
Arguments reader {R G2}.
Arguments dice {R G2}.

Section Server.
Context {R G2 : Type} `{Reader R} `{Rand G2}.
Abbreviation World := (World R G2).

Definition with_reader (w : World) (r : R) : World := mkWorld (userValidator w) (sessionHistory w) r (dice w).
Definition with_validator (w : World) (v : TimedUserValidator F) : World := mkWorld v (sessionHistory w) (reader w) (dice w).
Definition with_history (w : World) (h : SessionHistory) : World := mkWorld (userValidator w) h (reader w) (dice w).

(** [drainConnection], [n] being the length of the buffer. *)
Definition drainConnection {A} (drainer : Drainer) (n : Z) (e : error) : ST World A := fun w =>
  let '(r, e) := WithError (AcknowledgeReceive n drainer) (reader w) e in (with_reader w r, Err e).

(** Burn the hash of a legacy request: the message, and the error of the fuse. *)
Definition burn (authID : bytes) (tainted failed : string) : ST World (string * Datatypes.option error) := fun w =>
  match BurnTaintFuse authID (userValidator w) with
  | (v, Ok _) => (with_validator w v, Ok (tainted, None))
  | (v, Err e) => (with_validator w v, Ok (failed, Some e))
  | (v, Panic) => (with_validator w v, Panic)
  end.

Definition based_on (x : string * Datatypes.option error) : error :=
  match x with (msg, None) => NewError msg | (msg, Some e) => Based msg e end.

Definition refuse {A} (aead : bool) (authID : bytes) (drainer : Drainer) (n : Z) (why : refusal) : ST World A :=
  match why with
  | BadPadding err =>
    if aead then st_err (Based "failed to read padding" err)
    else '(msg, _) ← burn authID "failed to read padding, userHash tainted" "failed to read padding, failed to taint userHash"; st_err (Based msg err)
  | BadChecksum err =>
    if aead then st_err (Based "failed to read checksum" err)
    else '(msg, _) ← burn authID "failed to read checksum, userHash tainted" "failed to read checksum, failed to taint userHash"; st_err (Based msg err)
  | InvalidAuth =>
    if aead then st_err (NewError "invalid auth, but this is a AEAD request")
    else x ← burn authID "invalid auth, legacy userHash tainted" "invalid auth, can't taint legacy userHash"; drainConnection drainer n (based_on x)
  | Refused err => st_err err
  end.

Definition duplicated {A} (aead : bool) (authID : bytes) (drainer : Drainer) (n : Z) : ST World A :=
  if aead then st_err (NewError "duplicated session id, possibly under replay attack, but this is a AEAD request")
  else x ← burn authID "duplicated session id, possibly under replay attack, userHash tainted"
             "duplicated session id, possibly under replay attack, and failed to taint userHash"; drainConnection drainer n (based_on x).

(** An action on the world of the session. *)
Definition in_world {A} (s : ServerSession) (m : ST World A) : ST (ServerSession * World) A := fun '(_, w) =>
  let '(w, x) := m w in ((s, w), x).

(** From the decryptor on, whichever it is; [back] is the connection it has left. *)
Definition decode_plain {D} `{Reader D} (back : D -> R) (aead : bool) (now : Z) (user : User) (account : MemoryAccount) (authID : bytes)
    (drainer : Drainer) (buffer : Buf.Buffer) (decryptor : D) : ST (ServerSession * World) Request := fun '(s, w) =>
  let s := set_aead s aead in
  let drainer := AcknowledgeReceive (Len (Some buffer)) drainer in
  match ReadFullFrom 38 (Clear buffer, decryptor) with
  | ((_, d), Err err) => ((s, with_reader w (back d)), Err (Based "failed to read request header" err))
  | ((_, d), Panic) => ((s, with_reader w (back d)), Panic)
  | ((b, d), Ok _) =>
    let w := with_reader w (back d) in
    match (version ← Byte b 0; iv ← BytesRange b 1 17; key ← BytesRange b 17 33;
           header ← Byte b 33; option ← Byte b 34; b35 ← Byte b 35; command ← Byte b 37;
           Ok (version, iv, key, header, option, b35, command)) with
    | Ok (version, iv, key, header, option, b35, command) =>
      let s := set_request s aead {| bodyKey := key; bodyIV := iv |} in
      let '(h, fresh) := addIfNotExits now (uuid (ID_ account), key, iv) (sessionHistory w) in
      let w := with_history w h in
      if negb fresh then in_world s (duplicated aead authID drainer (Len (Some b))) (s, w)
      else
        let s := set_header s header in
        match read_tail user (b2z version) (b2z option) (parseSecurityType (Z.land (b2z b35) 15)) (b2z command) (Z.shiftr (b2z b35) 4) (b, d) with
        | ((_, d), Ok (inl request)) => ((s, with_reader w (back d)), Ok request)
        | ((b, d), Ok (inr why)) => in_world s (refuse aead authID drainer (Len (Some b)) why) (s, with_reader w (back d))
        | ((_, d), Err e) => ((s, with_reader w (back d)), Err e)
        | ((_, d), Panic) => ((s, with_reader w (back d)), Panic)
        end
    | Err e => ((s, w), Err e)
    | Panic => ((s, w), Panic)
    end
  end.

Definition decode_aead (now : Z) (user : User) (authID : bytes) (drainer : Drainer) (buffer : Buf.Buffer) : ST (ServerSession * World) Request := fun '(s, w) =>
  match Headers.Account user with
  | None => ((s, w), Panic)
  | Some account =>
    match OpenVMessAEADHeader (cmdKey (ID_ account)) authID (reader w) with
    | (r, Ok (Opened aeadData)) => decode_plain (fun _ => r) true now user account authID drainer buffer (conn_of aeadData) (s, w)
    | (r, Ok (NotOpened shouldDrain bytesRead errorReason)) =>
      let '(drainer, msg) := if shouldDrain : bool then (AcknowledgeReceive bytesRead drainer, "AEAD read failed"%string) else (drainer, "AEAD read failed, drain skipped"%string) in
      in_world s (drainConnection drainer (Len (Some buffer)) (Based msg errorReason)) (s, with_reader w r)
    | (r, Err e) => ((s, with_reader w r), Err e)
    | (r, Panic) => ((s, with_reader w r), Panic)
    end
  end.

Definition decode_legacy (now : Z) (authID : bytes) (drainer : Drainer) (buffer : Buf.Buffer) : ST (ServerSession * World) Request := fun '(s, w) =>
  match VmessUsers.Get authID (userValidator w) with
  | (v, Err e) => in_world s (drainConnection drainer (Len (Some buffer)) (Based "invalid user" e)) (s, with_validator w v)
  | (v, Panic) => ((s, with_validator w v), Panic)
  | (v, Ok (user, timestamp)) =>
    if isAEADForced s then
      in_world s (drainConnection drainer (Len (Some buffer)) (NewError "invalid user: VMessAEAD is enforced and a non VMessAEAD connection is received. ")) (s, with_validator w v)
    else
      let '(v, _) := ShouldShowLegacyWarn v in
      match Headers.Account user with
      | None => ((s, with_validator w v), Panic)
      | Some account =>
        let aesStream := NewAesDecryptionStream (cmdKey (ID_ account)) (hashTimestamp timestamp) in
        decode_plain c_reader (isAEADRequest s) now user account authID drainer buffer (mkCryption aesStream (reader w)) (s, with_validator w v)
      end
  end.

(** [roll] is what [dice.RollUint64] would give, [items] the order the map of
    decoders is walked in. *)
Definition DecodeRequestHeader (now roll : Z) (items : list (bytes * User)) : ST (ServerSession * World) Request := fun '(s, w) =>
  let '(v, seed) := GetBehaviorSeed roll (userValidator w) in
  let '(g, drainer) := NewBehaviorSeedLimitedDrainer (i64 seed) (16 + 38) 3266 64 (dice w) in
  let w := mkWorld v (sessionHistory w) (reader w) g in
  match ReadFullFrom 16 (New, reader w) with
  | ((_, r), Err err) => ((s, with_reader w r), Err (Based "failed to read request header" err))
  | ((_, r), Panic) => ((s, with_reader w r), Panic)
  | ((buffer, r), Ok _) =>
    let w := with_reader w r in
    match Bytes buffer with
    | Ok authID =>
      let '(v, found) := GetAEAD now items authID (userValidator w) in
      let w := with_validator w v in
      match found with
      | Ok user => decode_aead now user authID drainer buffer (s, w)
      | Err errorAEAD =>
        if decide (errorAEAD = VmessAead.ErrNotFound) then decode_legacy now authID drainer buffer (s, w)
        else in_world s (drainConnection drainer (Len (Some buffer)) (Based "invalid user" errorAEAD)) (s, w)
      | Panic => ((s, w), Panic)
      end
    | Err e => ((s, w), Err e)
    | Panic => ((s, w), Panic)
    end
  end.
End Server.

(** ** The response, from the server *)

(** What is written before it is encrypted, a call of [Write] each; a command that
    cannot be sent is left out. *)
Definition response_writes (s : ServerSession) (header : ResponseHeader) : res (list bytes) :=
  let first := [s_responseHeader s; z2b (r_Option header)] in
  match MarshalCommand (r_Command header) with
  | Ok l => Ok (first :: l)
  | Err _ => Ok [first; [x00; x00]]
  | Panic => Panic
  end.

(** One of the two sealed parts of a response header. *)
Definition response_aead (keys : Keys) (saltKey : bytes) : C := NewAesGcm (KDF16 (bodyKey keys) [saltKey]).
Definition response_nonce (keys : Keys) (saltIV : bytes) : bytes := take 12 (KDF (bodyIV keys) [saltIV]).

Definition response_seal (keys : Keys) (saltKey saltIV d : bytes) : res bytes :=
  aead_Seal (response_aead keys saltKey) (response_nonce keys saltIV) d [].
Definition response_open (keys : Keys) (saltKey saltIV d : bytes) : res bytes :=
  aead_Open (response_aead keys saltKey) (response_nonce keys saltIV) d [].

Section Writing.
Context {W : Type} `{Writer W}.

(** [CryptionWriter.Write], [common.Must2]. *)
Fixpoint write_encrypted (l : list bytes) (s : T) : ST W T :=
  match l with
  | [] => mret s
  | d :: l => let '(s, d) := XORKeyStream d s in _ ← Must (wr d); write_encrypted l s
  end.

Definition EncodeResponseHeader (header : ResponseHeader) (s : ServerSession) : ST W ServerSession :=
  let keys := response_keys (isAEADRequest s) (s_request s) in
  let aesStream := NewAesEncryptionStream (bodyKey keys) (bodyIV keys) in
  let session stream := mkServer (s_request s) keys (Some stream) (s_responseHeader s) (isAEADRequest s) (isAEADForced s) in
  plain ← st_lift (response_writes s header);
  if isAEADRequest s then
    AEADEncryptedLength ← Must (st_lift (response_seal keys KDFSaltConstAEADRespHeaderLenKey KDFSaltConstAEADRespHeaderLenIV (put_be 2 (u16 (zlen (concat plain))))));
    _ ← Must (wr AEADEncryptedLength);
    aeadEncryptedHeaderPayload ← Must (st_lift (response_seal keys KDFSaltConstAEADRespHeaderPayloadKey KDFSaltConstAEADRespHeaderPayloadIV (concat plain)));
    _ ← Must (wr aeadEncryptedHeaderPayload);
    mret (session aesStream)
  else
    stream ← write_encrypted plain aesStream;
    mret (session stream).
End Writing.

(** ** ClientSession *)
Record ClientSession := mkClient {
  isAEAD : bool;
  c_request : Keys;
  c_response : Keys;
  c_responseReader : Datatypes.option T;   (* the stream of the reader *)
  c_responseHeader : byte;
  readDrainer : Drainer;
}.

(** [randomBytes] are 33. *)
Definition NewClientSession {G2} `{Rand G2} (aead : bool) (behaviorSeed : Z) (randomBytes : bytes) (g : G2) : G2 * res ClientSession :=
  let '(g, drainer) := NewBehaviorSeedLimitedDrainer behaviorSeed 18 3266 64 g in
  (g, key ← or_panic (slice randomBytes 0 16);
      iv ← or_panic (slice randomBytes 16 32);
      header ← or_panic (index randomBytes 32);
      let request := {| bodyKey := key; bodyIV := iv |} in
      Ok (mkClient aead request (response_keys aead request) None header drainer)).

(** What is rolled for a request: the timestamp (half a minute around now), the ID
    of the account, the padding, and what seals the header. *)
Record Rolls := mkRolls {
  timestamp : Z; idRoll : nat; padding_ : bytes; authTime : Z; authRandom : bytes; connectionNonce : bytes }.

Definition with_checksum : ST Buf.Buffer unit := fun b =>
  match (d ← Bytes b; '(e, w) ← Extend b 4; Ok (poke e w (put_be 4 (fnv32a d)))) with
  | Ok b => (b, Ok tt)
  | Err e => (b, Err e)
  | Panic => (b, Panic)
  end.

Definition request_fields (c : ClientSession) (header : Request) (padding : bytes) : ST Buf.Buffer unit :=
  _ ← Must (Buf.WriteByte Version);
  _ ← Must (Write (bodyIV (c_request c)));
  _ ← Must (Write (bodyKey (c_request c)));
  _ ← Must (Buf.WriteByte (c_responseHeader c));
  _ ← Must (Buf.WriteByte (z2b (Headers.Option header)));
  let security := Z.lor (u8 (Z.shiftl (zlen padding) 4)) (u8 (Headers.Security header)) in
  _ ← Must (Write [z2b security; x00; z2b (Headers.Command header)]);
  _ ← (if decide (Headers.Command header <> Headers.RequestCommandMux) then
         a ← st_lift (or_panic (Headers.RAddress header));
         st_base "failed to writer address and port" (WriteAddressPort addrParser a (Headers.RPort header))
       else mret tt);
  if 0 <? zlen padding then (_ ← Must (Write padding); mret tt) else mret tt.

Definition request_plain (c : ClientSession) (header : Request) (padding : bytes) : ST Buf.Buffer unit :=
  _ ← request_fields c header padding; with_checksum.

Section Requests.
Context {W : Type} `{Writer W}.

Definition EncodeRequestHeader (c : ClientSession) (header : Request) (rolls : Rolls) : ST W unit :=
  user ← st_lift (or_panic (Headers.User header));
  account ← st_lift (or_panic (Headers.Account user));
  _ ← (if isAEAD c then mret tt
       else
         id ← st_lift (AnyValidID account (idRoll rolls));
         _ ← Must (wr (hasher id (timestamp rolls)));
         mret tt);
  buffer ← st_lift (build (request_plain c header (padding_ rolls)) New);
  d ← st_lift (Bytes buffer);
  if isAEAD c then
    vmessout ← Must (st_lift (SealVMessAEADHeader (cmdKey (ID_ account)) d (authTime rolls) (authRandom rolls) (connectionNonce rolls)));
    _ ← Must (wr vmessout);
    mret tt
  else
    let '(_, d) := XORKeyStream d (NewAesEncryptionStream (cmdKey (ID_ account)) (hashTimestamp (timestamp rolls))) in
    _ ← Must (wr d);
    mret tt.
End Requests.

Section Responses.
Context {D : Type} `{Reader D}.

Definition response_fields (c : ClientSession) : ST D ResponseHeader :=
  buffer ← st_base "failed to read response header" (recv 4 StackNew);
  b0 ← st_lift (Byte buffer 0);
  if decide (b0 <> c_responseHeader c) then st_err (NewError "unexpected response header. ")
  else
    option ← st_lift (Byte buffer 1);
    cmdID ← st_lift (Byte buffer 2);
    if decide (b2z cmdID <> 0) then
      dataLen ← st_lift (Byte buffer 3);
      buffer ← st_base "failed to read response command" (recv (b2z dataLen) (Clear buffer));
      d ← st_lift (Bytes buffer);
      match UnmarshalCommand cmdID d with
      | Ok command => mret {| r_Option := b2z option; r_Command := Some command |}
      | Err _ => mret {| r_Option := b2z option; r_Command := None |}
      | Panic => st_panic
      end
    else mret {| r_Option := b2z option; r_Command := None |}.
End Responses.

Section Client.
Context {R : Type} `{Reader R}.

Definition set_drainer (c : ClientSession) (d : Drainer) : ClientSession :=
  mkClient (isAEAD c) (c_request c) (c_response c) (c_responseReader c) (c_responseHeader c) d.
Definition set_responseReader (c : ClientSession) (s : T) : ClientSession :=
  mkClient (isAEAD c) (c_request c) (c_response c) (Some s) (c_responseHeader c) (readDrainer c).

Definition drain_with {A} (e : error) : ST (ClientSession * R) A := fun '(c, r) =>
  let '(r, e) := WithError (readDrainer c) r e in ((c, r), Err e).

(** [io.ReadFull] of a part, acknowledged to the drainer. *)
Definition read_acknowledged (n : nat) (msg : string) : ST (ClientSession * R) bytes := fun '(c, r) =>
  match ReadFull r n with
  | (r, (d, err)) =>
    let c := set_drainer c (AcknowledgeReceive (zlen d) (readDrainer c)) in
    match err with Some err => drain_with (Based msg err) (c, r) | None => ((c, r), Ok d) end
  end.

Definition open_response (saltKey saltIV d : bytes) (msg : string) : ST (ClientSession * R) bytes := fun '(c, r) =>
  match response_open (c_response c) saltKey saltIV d with
  | Ok d => ((c, r), Ok d)
  | Err err => drain_with (Based msg err) (c, r)
  | Panic => ((c, r), Panic)
  end.

Definition fields_aead (decryptedHeader : bytes) : ST (ClientSession * R) ResponseHeader := fun '(c, r) =>
  let '(_, header) := response_fields c (conn_of decryptedHeader) in
  ((set_responseReader c (NewAesDecryptionStream (bodyKey (c_response c)) (bodyIV (c_response c))), r), header).

Definition fields_legacy : ST (ClientSession * R) ResponseHeader := fun '(c, r) =>
  let aesStream := NewAesDecryptionStream (bodyKey (c_response c)) (bodyIV (c_response c)) in
  let '(d, header) := response_fields c (mkCryption aesStream r) in
  ((set_responseReader c (c_stream d), c_reader d), header).

(** [responseReader] is what it is after a success; an error ends the session. *)
Definition DecodeResponseHeader : ST (ClientSession * R) ResponseHeader :=
  isAEAD ← (fun '(c, r) => ((c, r), Ok (isAEAD c)));
  if isAEAD : bool then
    encryptedLength ← read_acknowledged 18 "Unable to Read Header Len";
    decryptedLength ← open_response KDFSaltConstAEADRespHeaderLenKey KDFSaltConstAEADRespHeaderLenIV encryptedLength "Failed To Decrypt Length";
    length ← st_lift (or_panic (slice decryptedLength 0 2));
    encryptedHeader ← read_acknowledged (Z.to_nat (get_be length + 16)) "Unable to Read Header Data";
    decryptedHeader ← open_response KDFSaltConstAEADRespHeaderPayloadKey KDFSaltConstAEADRespHeaderPayloadIV encryptedHeader "Failed To Decrypt Payload";
    fields_aead decryptedHeader
  else fields_legacy.
End Client.

(** ** The bodies *)
Definition request_transfer (request : Request) : TransferType := Headers.RequestCommand_TransferType (Headers.Command request).

Definition EncodeRequestBody (c : ClientSession) (request : Request) (g : G) : res (BodyStream C T K G) :=
  let k := c_request c in
  body_stream (Headers.Option request) (Headers.Security request) (request_transfer request) (bodyKey k) (bodyIV k) (bodyKey k) (bodyIV k)
    (Some (NewAesEncryptionStream (bodyKey k) (bodyIV k))) g.

Definition DecodeRequestBody (s : ServerSession) (request : Request) (g : G) : res (BodyStream C T K G) :=
  let k := s_request s in
  body_stream (Headers.Option request) (Headers.Security request) (request_transfer request) (bodyKey k) (bodyIV k) (bodyKey k) (bodyIV k)
    (Some (NewAesDecryptionStream (bodyKey k) (bodyIV k))) g.

Definition EncodeResponseBody (s : ServerSession) (request : Request) (g : G) : res (BodyStream C T K G) :=
  let k := s_response s in
  body_stream (Headers.Option request) (Headers.Security request) (request_transfer request) (bodyKey k) (bodyIV k) (bodyKey (s_request s)) (bodyIV (s_request s))
    (s_responseWriter s) g.

Definition DecodeResponseBody (c : ClientSession) (request : Request) (g : G) : res (BodyStream C T K G) :=
  let k := c_response c in
  body_stream (Headers.Option request) (Headers.Security request) (request_transfer request) (bodyKey k) (bodyIV k) (bodyKey (c_request c)) (bodyIV (c_request c))
    (c_responseReader c) g.
End Sessions.
#[global] Arguments mkWorld {F R G2}.
#[global] Arguments userValidator {F R G2}.
#[global] Arguments sessionHistory {F R G2}.
#[global] Arguments reader {F R G2}.
#[global] Arguments dice {F R G2}.
End Vmess.
