(* ===== verification/VmessSpec.v ===== *)
(** * Package proxy/vmess/encoding: what the protocol promises

    A request is read back as it was written, over either kind of header, and both
    ends then hold the same keys; nobody else is let in, and no session twice; a
    response and its command come back. *)
From S2P Require Import Prelude GoStd GoText Uuid Buf MultiBuf NetAddr AddrParser Headers Codec Talk Auth AuthSpec Cryption Replay Drain VmessAead VmessAeadSpec VmessUsers VmessBody VmessBodySpec Vmess.
Import MultiBuf Uuid Buf NetAddr AddrParser Codec Talk Replay Drain VmessAead VmessUsers Auth VmessBody VmessBodySpec Vmess.
Import Headers(RequestHeader, MemoryUser).

Lemma vmess_handles a : addr_wf a -> handles addrParser a.
Proof. intros Ha. unfold handles. destruct a; (split; [vm_compute; done|split; [vm_compute; done|reflexivity]]). Qed.

(** ** The plain header *)
Section Plain.
Context {C T K G F : Type} `{VmessCryptoOk C T K G} `{StreamOk T}.

Definition mux_request (request : Request) : bool := bool_decide (Headers.Command request = Headers.RequestCommandMux).
Definition target_wire (request : Request) (a : Address) : bytes :=
  if mux_request request then [] else encode addrParser a (Headers.RPort request).

(** A request that can be sent, to the address [a], with a padding. *)
Record request_ok (c : ClientSession (T := T)) (request : Request) (a : Address) (padding : bytes) : Prop := {
  ok_key : length (bodyKey (c_request c)) = 16%nat; ok_iv : length (bodyIV (c_request c)) = 16%nat;
  ok_option : is_u8 (Headers.Option request);
  ok_security : 0 < Headers.Security request <= 6 /\ Headers.Security request <> SecurityType_AUTO;
  ok_address : Headers.RAddress request = Some a; ok_port : is_u16 (Headers.RPort request);
  ok_command : Headers.Command request = Headers.RequestCommandMux \/
    ((Headers.Command request = Headers.RequestCommandTCP \/ Headers.Command request = Headers.RequestCommandUDP) /\ serializable a);
  ok_padding : zlen padding <= 15;
}.

Definition security_byte (request : Request) (padding : bytes) : byte :=
  z2b (Z.lor (u8 (Z.shiftl (zlen padding) 4)) (u8 (Headers.Security request))).

(** The first 38 bytes; what has a variable length; and the checksum. *)
Definition fixed_wire (c : ClientSession (T := T)) (request : Request) (padding : bytes) : bytes :=
  [Vmess.Version] ++ bodyIV (c_request c) ++ bodyKey (c_request c) ++ [c_responseHeader c] ++ [z2b (Headers.Option request)] ++
  [security_byte request padding; x00; z2b (Headers.Command request)].
Definition fields_wire (c : ClientSession (T := T)) (request : Request) (a : Address) (padding : bytes) : bytes :=
  fixed_wire c request padding ++ target_wire request a ++ padding.
Definition plain_wire (c : ClientSession (T := T)) (request : Request) (a : Address) (padding : bytes) : bytes :=
  fields_wire c request a padding ++ put_be 4 (fnv32a (fields_wire c request a padding)).

Lemma vmess_target_length c request a padding : request_ok c request a padding -> zlen (target_wire request a) <= 259.
Proof.
  intros Hr. unfold target_wire, mux_request. case_bool_decide as E; [done|].
  destruct (ok_command _ _ _ _ Hr) as [?|[_ Hs]]; [done|]. by apply encode_length.
Qed.

Lemma fixed_length c request a padding : request_ok c request a padding -> length (fixed_wire c request padding) = 38%nat.
Proof. intros Hr. unfold fixed_wire. rewrite !length_app, (ok_iv _ _ _ _ Hr), (ok_key _ _ _ _ Hr). done. Qed.

Lemma fields_length c request a padding : request_ok c request a padding -> 38 <= zlen (fields_wire c request a padding) <= 312.
Proof.
  intros Hr. unfold fields_wire. rewrite !zlen_app. pose proof (fixed_length c request a padding Hr) as Hf. pose proof (vmess_target_length c request a padding Hr).
  pose proof (ok_padding _ _ _ _ Hr). pose proof (zlen_nonneg padding). pose proof (zlen_nonneg (target_wire request a)). unfold zlen at 1 4. rewrite Hf. lia.
Qed.

Lemma writes_fields c request a padding :
  request_ok c request a padding -> writes (request_fields c request padding) (fields_wire c request a padding) tt.
Proof.
  intros Hr. unfold request_fields, fields_wire, fixed_wire. rewrite <- !app_assoc.
  eapply writes_bind; [apply writes_must, writes_WriteByte|]. eapply writes_bind; [apply writes_must, (writes_wr (W := Buf.Buffer))|].
  eapply writes_bind; [apply writes_must, (writes_wr (W := Buf.Buffer))|]. eapply writes_bind; [apply writes_must, writes_WriteByte|].
  eapply writes_bind; [apply writes_must, writes_WriteByte|]. fold (security_byte request padding).
  eapply writes_bind; [apply writes_must, (writes_wr (W := Buf.Buffer))|]. eapply (writes_bind _ _ (target_wire request a)).
  - unfold target_wire, mux_request. case_bool_decide as E; [rewrite decide_False by (intros Hn; by apply Hn); apply writes_ret|].
    rewrite decide_True by done. rewrite (ok_address _ _ _ _ Hr). refine (writes_lift (Ok a) a _ _ _ eq_refl _).
    destruct (ok_command _ _ _ _ Hr) as [?|[_ Hs]]; [done|]. apply writes_based, writes_AddressPort; [apply vmess_handles, Hs|done].
  - destruct (0 <? zlen padding) eqn:Ez; [eapply writes_last; [apply writes_must, (writes_wr (W := Buf.Buffer))|done]|].
    assert (padding = []) as -> by (destruct padding; [done|unfold zlen in Ez; cbn in Ez; lia]). apply writes_ret.
Qed.

Lemma request_plain_built c request a padding :
  request_ok c request a padding ->
  build (request_plain c request padding) New = Ok (push New (plain_wire c request a padding)) /\
  Bytes (push New (plain_wire c request a padding)) = Ok (plain_wire c request a padding) /\ zlen (plain_wire c request a padding) <= 316.
Proof.
  intros Hr. pose proof (fields_length c request a padding Hr) as Hl. set (d := fields_wire c request a padding) in *.
  assert (Hp : plain_wire c request a padding = d ++ put_be 4 (fnv32a d)) by done. rewrite Hp.
  assert (Hz : zlen (d ++ put_be 4 (fnv32a d)) <= 316) by (rewrite zlen_app, zlen_put_be; lia). split; [|split; [by apply (fresh_Bytes New fresh_New); lia|done]].
  unfold build, request_plain, mbind, st_bind. rewrite (writes_push _ d tt New (writes_fields c request a padding Hr) New_wf) by (rewrite New_room; lia).
  destruct (fresh_push New fresh_New d ltac:(lia)) as (Hw & _ & Hroom). unfold with_checksum. rewrite (fresh_Bytes New fresh_New d) by lia. cbn [mbind res_bind].
  destruct (Extend_poke (push New d) (put_be 4 (fnv32a d)) 4 Hw) as (ext & -> & Hpoke & _); [done|rewrite zlen_put_be; lia|].
  cbn [mbind res_bind]. by rewrite Hpoke, push_push by (apply New_wf || (rewrite New_room, zlen_put_be; lia)).
Qed.

(** What the server makes of a request. *)
Definition received (request : Request) (user : User) (a : Address) : Request :=
  {| Headers.Version := 1; Headers.Command := Headers.Command request; Headers.Option := Headers.Option request; Headers.Security := Headers.Security request;
     Headers.RPort := if mux_request request then 0 else Headers.RPort request;
     Headers.RAddress := Some (if mux_request request then domainAddress (lit "v1.mux.cool") else a);
     Headers.User := Some user |}.

Section Reading.
Context {D : Type} `{Reader D}.

Lemma reads_attempt {A} (m : ST (Buf.Buffer * D) A) d a : reads m d a -> reads (attempt m) d (inl a).
Proof. intros Hm b r rest Hb Hd Hr Hc. destruct (Hm b r rest Hb Hd Hr Hc) as (r' & E & ?). exists r'. unfold attempt. by rewrite E. Qed.

Lemma reads_exact n d : n = zlen d -> reads (ReadFullFrom n : ST (Buf.Buffer * D) Z) d (zlen d).
Proof. intros -> b r rest Hb Hd Hr Hc. by apply ReadFullFrom_exact. Qed.

Lemma reads_target c request a padding :
  request_ok c request a padding ->
  reads (read_target (Headers.Command request) : ST (Buf.Buffer * D) _) (target_wire request a)
    (Some (if mux_request request then (domainAddress (lit "v1.mux.cool"), 0) else (a, Headers.RPort request))).
Proof.
  intros Hr. unfold read_target, target_wire, mux_request. case_bool_decide as E; [rewrite E; apply reads_ret|].
  destruct (ok_command _ _ _ _ Hr) as [?|[Hc Hs]]; [done|].
  replace (Headers.Command request =? Headers.RequestCommandMux) with false by lia.
  replace ((Headers.Command request =? Headers.RequestCommandTCP) || (Headers.Command request =? Headers.RequestCommandUDP)) with true by lia.
  apply (reads_last _ _ _ (inl (a, Headers.RPort request))); [|done]. apply reads_attempt. apply reads_AddressPort_with; [apply vmess_handles, Hs|done|exact (ok_port _ _ _ _ Hr)].
Qed.

(** The checksum of a buffer that ends with that of the rest. *)
Lemma check_sum_spec b d (r : D) :
  buf_wf b -> content b = d ++ put_be 4 (fnv32a d) -> zlen d <= 1024 -> check_sum (b, r) = ((b, r), Ok true).
Proof.
  intros Hb Hc Hd. pose proof (zlen_nonneg d). unfold check_sum, buf_lift, mbind, st_bind. cbn [fst].
  assert (Hz : zlen (content b) = zlen d + 4) by (rewrite Hc, zlen_app, zlen_put_be; lia).
  assert (Hto : BytesTo b (-4) = Ok d).
  { unfold BytesTo. replace (-4 <? 0) with true by done. rewrite (Len_wf b Hb), Hz, (i32_small (-4 + (zlen d + 4))) by lia.
    pose proof (BytesTo_wf b (zlen d) Hb ltac:(lia)) as Hb2. unfold BytesTo in Hb2. replace (zlen d <? 0) with false in Hb2 by lia.
    replace (-4 + (zlen d + 4)) with (zlen d) by lia. rewrite Hb2, Hc. unfold zlen. by rewrite Nat2Z.id, take_app_length. }
  pose proof (BytesFrom_neg b 4 Hb ltac:(lia)) as Hfrom. change (- (4)) with (-4) in Hfrom. rewrite Hto, Hfrom, Hz, Hc.
  replace (Z.to_nat (zlen d + 4 - 4)) with (length d) by (unfold zlen; lia). rewrite drop_app_length.
  rewrite get_be_put_be_small by (pose proof (fnv32a_range d); change (256 ^ Z.of_nat 4) with (2 ^ 32); lia).
  by rewrite bool_decide_true.
Qed.

Lemma reads_padding padding : zlen padding <= 15 ->
  reads ((if 0 <? zlen padding then attempt (ReadFullFrom (zlen padding)) else mret (inl 0)) : ST (Buf.Buffer * D) (Z + error)) padding (inl (zlen padding)).
Proof.
  intros Hp. destruct (0 <? zlen padding) eqn:Ez; [by apply reads_attempt, reads_exact|].
  assert (padding = []) as -> by (destruct padding; [done|unfold zlen in Ez; cbn in Ez; lia]). apply reads_ret.
Qed.

(** Behind the first 38 bytes. *)
Lemma read_tail_spec c request a padding user b (d : D) rest :
  request_ok c request a padding -> buf_wf b -> content b = fixed_wire c request padding -> 512 <= room b -> rd_wf d ->
  rd_content d = target_wire request a ++ padding ++ put_be 4 (fnv32a (fields_wire c request a padding)) ++ rest ->
  exists b' d', read_tail user 1 (Headers.Option request) (Headers.Security request) (Headers.Command request) (zlen padding) (b, d) =
    ((b', d'), Ok (inl (received request user a))) /\ rd_wf d' /\ rd_end d' = rd_end d /\ rd_content d' = rest.
Proof.
  intros Hr Hb Hcb Hroom Hd Hc. pose proof (vmess_target_length c request a padding Hr) as Hlt. pose proof (ok_padding _ _ _ _ Hr) as Hlp.
  pose proof (fields_length c request a padding Hr) as Hlf. set (sum := put_be 4 (fnv32a (fields_wire c request a padding))) in *.
  destruct (reads_target c request a padding Hr b d (padding ++ sum ++ rest) Hb ltac:(lia) Hd Hc) as (d1 & E1 & Hd1 & He1 & Hc1).
  set (b1 := push b (target_wire request a)) in *. assert (Hb1 : buf_wf b1) by (apply push_wf; [done|lia]).
  assert (Hroom1 : 200 <= room b1) by (unfold b1; rewrite push_room by (done || lia); lia).
  destruct (reads_padding padding Hlp b1 d1 (sum ++ rest) Hb1 ltac:(lia) Hd1 Hc1) as (d2 & E2 & Hd2 & He2 & Hc2).
  set (b2 := push b1 padding) in *. assert (Hb2 : buf_wf b2) by (apply push_wf; [done|lia]).
  assert (Hroom2 : 100 <= room b2) by (unfold b2; rewrite push_room by (done || lia); lia).
  assert (Hzs : 4 = zlen sum) by (unfold sum; by rewrite zlen_put_be).
  destruct (reads_attempt _ _ _ (reads_exact 4 sum Hzs) b2 d2 rest Hb2 ltac:(lia) Hd2 Hc2) as (d3 & E3 & Hd3 & He3 & Hc3).
  set (b3 := push b2 sum) in *. assert (Hb3 : buf_wf b3) by (apply push_wf; [done|lia]).
  assert (Hc3b : content b3 = fields_wire c request a padding ++ sum).
  { unfold b3, b2, b1. rewrite !push_content, Hcb by done. unfold fields_wire. by rewrite <- !app_assoc. }
  exists b3, d3. split; [|split; [done|split; [congruence|done]]].
  unfold read_tail, mbind, st_bind. rewrite E1, E2, E3. rewrite (check_sum_spec b3 (fields_wire c request a padding) d3) by (done || lia). cbn [negb].
  destruct (ok_security _ _ _ _ Hr) as [Hs1 Hs2]. unfold SecurityType_UNKNOWN, SecurityType_AUTO in *.
  replace (_ || _) with false by lia. unfold received. by destruct (mux_request request).
Qed.

(** The fields at their places. *)
Definition placed (c : ClientSession (T := T)) (request : Request) (padding : bytes) (b : Buf.Buffer) : Prop :=
  Byte b 0 = Ok Vmess.Version /\ BytesRange b 1 17 = Ok (bodyIV (c_request c)) /\ BytesRange b 17 33 = Ok (bodyKey (c_request c)) /\
  Byte b 33 = Ok (c_responseHeader c) /\ Byte b 34 = Ok (z2b (Headers.Option request)) /\
  Byte b 35 = Ok (security_byte request padding) /\ Byte b 37 = Ok (z2b (Headers.Command request)).

Lemma fixed_placed c request a padding b :
  request_ok c request a padding -> fresh b -> placed c request padding (push b (fixed_wire c request padding)).
Proof.
  intros Hr Hb. pose proof (fixed_length c request a padding Hr) as Hl. assert (Hz : zlen (fixed_wire c request padding) <= 2048) by (unfold zlen; rewrite Hl; lia).
  pose proof (ok_key _ _ _ _ Hr) as Hk. pose proof (ok_iv _ _ _ _ Hr) as Hi.
  set (last5 := [c_responseHeader c; z2b (Headers.Option request); security_byte request padding; x00; z2b (Headers.Command request)]).
  assert (Hf : fixed_wire c request padding = ([Vmess.Version] ++ bodyIV (c_request c) ++ bodyKey (c_request c)) ++ last5) by (unfold fixed_wire; by rewrite <- !app_assoc).
  assert (Hat : forall i x, last5 !! i = Some x -> Byte (push b (fixed_wire c request padding)) (33 + Z.of_nat i) = Ok x).
  { intros i x Hx. replace (33 + Z.of_nat i) with (Z.of_nat (33 + i)) by lia. apply (fresh_Byte b Hb _ Hz).
    rewrite Hf, lookup_app_r by (rewrite !length_app, Hi, Hk; cbn; lia). rewrite !length_app, Hi, Hk. cbn [length]. by replace (33 + i - (1 + (16 + 16)))%nat with i by lia. }
  split; [|split; [|split; [|split; [exact (Hat 0%nat _ eq_refl)|split; [exact (Hat 1%nat _ eq_refl)|split; [exact (Hat 2%nat _ eq_refl)|exact (Hat 4%nat _ eq_refl)]]]]]].
  - by apply (fresh_Byte b Hb _ Hz 0).
  - apply (fresh_BytesRange b Hb _ Hz); [lia|]. rewrite slice_Some by (unfold zlen; rewrite ?Hl; lia). f_equal. unfold fixed_wire.
    change (Z.to_nat 1) with (length [Vmess.Version]). rewrite drop_app_length. change (Z.to_nat (17 - 1)) with 16%nat. rewrite <- Hi. apply take_app_length.
  - apply (fresh_BytesRange b Hb _ Hz); [lia|]. rewrite slice_Some by (unfold zlen; rewrite ?Hl; lia). f_equal. rewrite Hf, <- !app_assoc, app_assoc.
    replace (Z.to_nat 17) with (length ([Vmess.Version] ++ bodyIV (c_request c))) by (rewrite length_app, Hi; done). rewrite drop_app_length.
    change (Z.to_nat (33 - 17)) with 16%nat. rewrite <- Hk. apply take_app_length.
Qed.

Lemma security_packed p s : 0 <= p <= 15 -> 1 <= s <= 6 ->
  let b := b2z (z2b (Z.lor (u8 (Z.shiftl p 4)) (u8 s))) in parseSecurityType (Z.land b 15) = s /\ Z.shiftr b 4 = p.
Proof.
  intros Hp Hs. assert (Hall : forallb (fun p => forallb (fun s => let b := b2z (z2b (Z.lor (u8 (Z.shiftl p 4)) (u8 s))) in
    (parseSecurityType (Z.land b 15) =? s) && (Z.shiftr b 4 =? p)) (seqZ 1 6)) (seqZ 0 16) = true) by (vm_compute; reflexivity).
  assert (Hin : In p (seqZ 0 16) /\ In s (seqZ 1 6)) by (split; apply list_elem_of_In, elem_of_seqZ; lia). destruct Hin as [Hinp Hins].
  rewrite forallb_forall in Hall. specialize (Hall p Hinp). rewrite forallb_forall in Hall. specialize (Hall s Hins). cbv zeta in Hall |- *. lia.
Qed.
End Reading.

(** ** The session *)

(** No session with these keys is remembered. *)
Definition new_session (now : Z) (account : MemoryAccount) (keys : Keys) (h : SessionHistory) : Prop :=
  forall expire, h !! (uuid (ID_ account), bodyKey keys, bodyIV keys) = Some expire -> expire <= now.
Definition remember (now : Z) (account : MemoryAccount) (keys : Keys) (h : SessionHistory) : SessionHistory :=
  <[(uuid (ID_ account), bodyKey keys, bodyIV keys) := now + 180]> h.

(** The session of the server holds the keys of the client. *)
Definition agreed (aead : bool) (c : ClientSession (T := T)) (s s' : ServerSession (T := T)) : Prop :=
  s_request s' = c_request c /\ s_responseHeader s' = c_responseHeader c /\ isAEADRequest s' = aead /\ isAEADForced s' = isAEADForced s.

Section Server.
Context {R G2 D : Type} `{Reader R} `{Rand G2} `{Reader D}.

Lemma decode_plain_spec c request a padding (back : D -> R) aead now user account authID drainer buffer (d : D) rest (s : ServerSession (T := T)) (w : World (F := F) R G2) :
  request_ok c request a padding -> fresh (Clear buffer) -> is_u8 (Headers.Command request) -> rd_wf d -> rd_content d = plain_wire c request a padding ++ rest ->
  new_session now account (c_request c) (sessionHistory w) ->
  exists s' d', decode_plain back aead now user account authID drainer buffer d (s, w) =
    ((s', mkWorld (userValidator w) (remember now account (c_request c) (sessionHistory w)) (back d') (dice w)), Ok (received request user a)) /\
    agreed aead c s s' /\ rd_wf d' /\ rd_end d' = rd_end d /\ rd_content d' = rest.
Proof.
  intros Hr Hb Hcmd Hd Hc Hnew. unfold decode_plain. set (s0 := set_aead s aead). set (dr := AcknowledgeReceive _ drainer).
  pose proof (fixed_length c request a padding Hr) as Hl38. set (f := fixed_wire c request padding) in *.
  assert (Hz : zlen f = 38) by (unfold zlen; rewrite Hl38; done). unfold plain_wire, fields_wire in Hc. fold f in Hc. rewrite <- !app_assoc in Hc.
  destruct (ReadFullFrom_exact (Clear buffer) d f _ (fresh_wf _ Hb) ltac:(rewrite fresh_room by done; lia) Hd Hc) as (d1 & E1 & Hd1 & He1 & Hc1).
  rewrite <- Hz, E1. destruct (fixed_placed c request a padding (Clear buffer) Hr Hb) as (P0 & P1 & P2 & P3 & P4 & P5 & P6). fold f in P0, P1, P2, P3, P4, P5, P6.
  rewrite P0, P1, P2, P3, P4, P5, P6. cbn [mbind res_bind]. unfold addIfNotExits. cbn [sessionHistory with_reader].
  assert (Hno : match sessionHistory w !! (uuid (ID_ account), bodyKey (c_request c), bodyIV (c_request c)) with Some expire => now <? expire | None => false end = false).
  { destruct (sessionHistory w !! _) as [e|] eqn:Ee; [|done]. specialize (Hnew e Ee). lia. }
  rewrite Hno. cbn [negb]. destruct (fresh_push (Clear buffer) Hb f ltac:(lia)) as (Hwp & Hcp & Hrp).
  destruct (ok_security _ _ _ _ Hr) as [Hs1 Hs2]. pose proof (ok_padding _ _ _ _ Hr) as Hp. pose proof (zlen_nonneg padding).
  destruct (security_packed (zlen padding) (Headers.Security request) ltac:(lia) ltac:(lia)) as [Hsec Hpad]. fold (security_byte request padding) in Hsec, Hpad.
  pose proof (ok_option _ _ _ _ Hr) as Ho. rewrite Hsec, Hpad, !(z2b_small) by lia. change (b2z Vmess.Version) with 1.
  destruct (read_tail_spec c request a padding user (push (Clear buffer) f) d1 rest Hr Hwp Hcp ltac:(lia) Hd1) as (b2 & d2 & E2 & Hd2 & He2 & Hc2).
  { rewrite Hc1. unfold fields_wire. fold f. by rewrite <- ?app_assoc. }
  rewrite E2. exists (set_header (set_request s0 aead (c_request c)) (c_responseHeader c)), d2. split; [|split; [|split; [done|split; [congruence|done]]]].
  - unfold with_history, with_reader, remember. cbn [userValidator sessionHistory dice reader]. by destruct (c_request c).
  - by repeat split.
Qed.
End Server.

(** ** Requests with a sealed header *)
Context `{AO : !AeadOk C 16} `{Filter F}.

Lemma ok_command_u8 c request a padding : request_ok c request a padding -> is_u8 (Headers.Command request).
Proof. intros Hr. destruct (ok_command _ _ _ _ Hr) as [E|[[E|E] _]]; rewrite E; done. Qed.

(** The random numbers and the time of a header. *)
Record rolls_ok (rolls : Rolls) (now : Z) : Prop := {
  roll_random : length (authRandom rolls) = 4%nat; roll_nonce : length (connectionNonce rolls) = 8%nat;
  roll_time : 0 <= authTime rolls < 2 ^ 63; roll_crc : 0 <= crc32 (auth_plain (authTime rolls) (authRandom rolls)) < 2 ^ 32;
  roll_now : Z.abs (authTime rolls - now) <= 120;
}.

Definition request_authID (account : MemoryAccount) (rolls : Rolls) : bytes := CreateAuthID (cmdKey (ID_ account)) (authTime rolls) (authRandom rolls).

Lemma writes_wr_must {W} `{WriterSpec W} d : writes (Must (wr d) : ST W Z) d (zlen d).
Proof. intros w k Hk Hf. destruct (writes_wr (W := W) d w k Hk Hf) as (w' & E & ?). exists w'. unfold Must. by rewrite E. Qed.

Lemma request_sealed {W} `{WriterSpec W} {R} `{Reader R} c request a rolls u account now :
  isAEAD c = true -> request_ok c request a (padding_ rolls) -> rolls_ok rolls now ->
  Headers.User request = Some u -> Headers.Account u = Some account ->
  exists d, writes (EncodeRequestHeader c request rolls : ST W unit) (request_authID account rolls ++ d) tt /\
    takes (OpenVMessAEADHeader (cmdKey (ID_ account)) (request_authID account rolls) : ST R opened) d (Opened (plain_wire c request a (padding_ rolls))).
Proof.
  intros Ha Hok Hro Hu Hac. destruct (request_plain_built c request a (padding_ rolls) Hok) as (Hb & Hd & Hz). set (plain := plain_wire c request a (padding_ rolls)) in *.
  destruct (sealed_header_opens (R := R) (cmdKey (ID_ account)) plain (authTime rolls) (authRandom rolls) (connectionNonce rolls) ltac:(lia) (roll_nonce _ _ Hro) (roll_random _ _ Hro))
    as (d & Hs & Ht). exists d. split; [|exact Ht]. unfold EncodeRequestHeader. rewrite Hu. refine (writes_lift (Ok u) u _ _ _ eq_refl _).
  rewrite Hac. refine (writes_lift (Ok account) account _ _ _ eq_refl _). rewrite Ha. apply (writes_bind _ _ [] _ tt tt); [apply writes_ret|].
  rewrite Hb. refine (writes_lift (Ok _) _ _ _ _ eq_refl _). rewrite Hd. refine (writes_lift (Ok _) _ _ _ _ eq_refl _).
  rewrite Hs. refine (writes_lift (Ok _) _ _ _ _ eq_refl _). by eapply writes_last; [apply writes_wr_must|].
Qed.

Section Arrives.
Context {R G2 : Type} `{Reader R} `{Rand G2}.

(** The validator knows the user, and nobody else's key takes the ID. *)
Record admitted (now : Z) (items : list (bytes * User)) (account : MemoryAccount) (user : User) (authID : bytes) (v : TimedUserValidator F) : Prop := {
  adm_user : decoders (aeadDecoderHolder v) !! cmdKey (ID_ account) = Some user;
  adm_only : only_key now authID (cmdKey (ID_ account)) (aeadDecoderHolder v);
  adm_items : items ≡ₚ map_to_list (decoders (aeadDecoderHolder v));
  adm_fresh : (Check authID now (filter (aeadDecoderHolder v))).2 = true;
}.

(** C10. A request with a sealed header arrives.  The client sends keys and an IV of 16
    bytes, a security type other than unknown and automatic, at most 15 bytes of padding
    and, unless it is a mux request, TCP or UDP with an address that survives the wire;
    its clock is within two minutes of the server's; the server knows a user with the
    client's key, no other key takes the authentication ID for its own, the filter has
    not seen it, and no session of that user with these keys is remembered; ciphers and
    hashes have their documented sizes and open what they sealed.  Then the server reads
    what the client writes, in whatever pieces it comes, as that request of that user;
    its session holds the client's keys and is remembered, the connection stands behind
    the header; and if the options set the body up in sealed chunks, the server's reader
    of the body is set up in step with the client's writer. *)
Theorem vmess_request_arrives {W} `{WriterSpec W} c request a rolls u account user account' now roll items (s : ServerSession (T := T)) (w : World (F := F) R G2)
    (Haead : isAEAD c = true) (Hok : request_ok c request a (padding_ rolls)) (Hro : rolls_ok rolls now)
    (Hu : Headers.User request = Some u) (Hac : Headers.Account u = Some account)
    (Hadm : admitted now items account user (request_authID account rolls) (userValidator w))
    (Hac' : Headers.Account user = Some account') (Hkey : cmdKey (ID_ account') = cmdKey (ID_ account))
    (Hnew : new_session now account' (c_request c) (sessionHistory w)) (Hrd : rd_wf (reader w)) :
  exists d, writes (EncodeRequestHeader c request rolls : ST W unit) d tt /\
    forall rest, rd_content (reader w) = d ++ rest ->
    exists s' w', DecodeRequestHeader now roll items (s, w) = ((s', w'), Ok (received request user a)) /\ agreed true c s s' /\
      sessionHistory w' = remember now account' (c_request c) (sessionHistory w) /\
      rd_wf (reader w') /\ rd_end (reader w') = rd_end (reader w) /\ rd_content (reader w') = rest /\
      forall gw gr t bw, EncodeRequestBody c request gw = Ok (Sealed t bw) ->
        exists br ov sb mp, DecodeRequestBody s' (received request user a) gr = Ok (Sealed t br) /\ agree ov sb mp bw br.
Proof.
  destruct (request_sealed (W := W) (R := R) c request a rolls u account now Haead Hok Hro Hu Hac) as (d & Hw & Ht).
  set (authID := request_authID account rolls) in *. exists (authID ++ d). split; [exact Hw|]. intros rest Hc. rewrite <- app_assoc in Hc.
  assert (Hz : zlen authID = 16) by (unfold zlen, authID, request_authID; rewrite CreateAuthID_length; [done|exact (roll_random _ _ Hro)]).
  unfold DecodeRequestHeader, GetBehaviorSeed. set (seed := if behaviorSeed _ =? 0 then roll else _).
  destruct (NewBehaviorSeedLimitedDrainer (i64 seed) (16 + 38) 3266 64 (dice w)) as [g drainer]. cbn [reader].
  destruct (ReadFullFrom_exact New (reader w) authID (d ++ rest) New_wf ltac:(rewrite New_room; lia) Hrd Hc) as (r1 & E1 & Hr1 & He1 & Hc1).
  rewrite Hz in E1. rewrite E1, (fresh_Bytes New fresh_New) by lia. unfold GetAEAD. cbn [userValidator with_reader aeadDecoderHolder].
  unfold Match. unfold authID, request_authID in Hadm |- *.
  rewrite (match_finds (aeadDecoderHolder (userValidator w)) (cmdKey (ID_ account)) user (authTime rolls) (authRandom rolls) now items
    (roll_random _ _ Hro) (roll_time _ _ Hro) (roll_crc _ _ Hro) (roll_now _ _ Hro) (adm_user _ _ _ _ _ _ Hadm) (adm_only _ _ _ _ _ _ Hadm) (adm_items _ _ _ _ _ _ Hadm)).
  pose proof (adm_fresh _ _ _ _ _ _ Hadm) as Hf. destruct (Check _ now (filter (aeadDecoderHolder (userValidator w)))) as [f fresh_]. cbn [snd] in Hf. subst fresh_.
  unfold decode_aead. rewrite Hac', Hkey. unfold with_validator. cbn [reader]. fold (request_authID account rolls). fold authID.
  destruct (Ht r1 rest Hr1 Hc1) as (r2 & E2 & Hr2 & He2 & Hc2). cbn [with_reader reader]. rewrite E2.
  destruct (decode_plain_spec (D := conn) c request a (padding_ rolls) (fun _ => r2) true now user account' authID drainer (push New authID)
    (conn_of (plain_wire c request a (padding_ rolls))) [] s
    (mkWorld (mkValidator (users (userValidator w)) (userHash (userValidator w)) (baseTime (userValidator w)) seed true (mkHolder (decoders (aeadDecoderHolder (userValidator w))) f) (legacyWarnShown (userValidator w)))
      (sessionHistory w) r1 g) Hok) as (s' & d' & E3 & Hag & _).
  - by apply fresh_again; [|lia].
  - by eapply ok_command_u8.
  - done.
  - unfold conn_of. cbn. by rewrite !app_nil_r.
  - done.
  - eexists s', _. split; [exact E3|]. split; [done|]. cbn [sessionHistory reader]. split; [done|]. split; [done|]. split; [congruence|]. split; [done|].
    intros gw gr t bw Ebw. unfold EncodeRequestBody in Ebw. unfold DecodeRequestBody. destruct Hag as (-> & _).
    eapply (body_stream_agree _ _ _ _ _ _ _ _ (Some (NewAesDecryptionStream (bodyKey (c_request c)) (bodyIV (c_request c)))) gw gr) in Ebw as (br & sb & mp & Ebr & _ & _ & Hagr);
      [|exact (ok_iv _ _ _ _ Hok)..]. exists br, (aead_Overhead (AEAD (b_auth bw))), sb, mp. by split.
Qed.

(** ** Legacy requests *)

(** What one stream does to bytes the other undoes. *)
Definition undone : Prop := forall key iv d, deciphered (deciphered d (NewAesEncryptionStream key iv)) (NewAesDecryptionStream key iv) = d.

Lemma request_enciphered {W} `{WriterSpec W} c request a rolls u account id :
  isAEAD c = false -> request_ok c request a (padding_ rolls) ->
  Headers.User request = Some u -> Headers.Account u = Some account -> AnyValidID account (idRoll rolls) = Ok id ->
  writes (EncodeRequestHeader c request rolls : ST W unit)
    (hasher id (timestamp rolls) ++ deciphered (plain_wire c request a (padding_ rolls)) (NewAesEncryptionStream (cmdKey (ID_ account)) (hashTimestamp (timestamp rolls)))) tt.
Proof.
  intros Ha Hok Hu Hac Hid. destruct (request_plain_built c request a (padding_ rolls) Hok) as (Hb & Hd & _). set (plain := plain_wire c request a (padding_ rolls)) in *.
  unfold EncodeRequestHeader. rewrite Hu. refine (writes_lift (Ok u) u _ _ _ eq_refl _).
  rewrite Hac. refine (writes_lift (Ok account) account _ _ _ eq_refl _). rewrite Ha. apply (writes_bind _ _ (hasher id (timestamp rolls)) _ tt tt).
  - rewrite Hid. refine (writes_lift (Ok id) id _ _ _ eq_refl _). by eapply writes_last; [apply writes_wr_must|].
  - rewrite Hb. refine (writes_lift (Ok _) _ _ _ _ eq_refl _). rewrite Hd. refine (writes_lift (Ok _) _ _ _ _ eq_refl _).
    unfold deciphered. destruct (XORKeyStream plain _) as [x ct]. cbn [snd]. by eapply writes_last; [apply writes_wr_must|].
Qed.

(** A legacy request arrives too: the hash of an ID of the account and the plain
    header, enciphered with the time, are read by a server that takes legacy
    requests, if the table knows the hash and no decoder takes it for an authentication ID. *)
Theorem vmess_legacy_request_arrives {W} `{WriterSpec W} c request a rolls u account user account' id now roll items (s : ServerSession (T := T)) (w : World (F := F) R G2)
    (Haead : isAEAD c = false) (Hok : request_ok c request a (padding_ rolls)) (Hu : Headers.User request = Some u) (Hac : Headers.Account u = Some account)
    (Hid : AnyValidID account (idRoll rolls) = Ok id) (Hundone : undone) (Hforced : isAEADForced s = false) (Hs : isAEADRequest s = false)
    (Hnone : forall key t, (key, t) ∈ items -> accepts now (hasher id (timestamp rolls)) key = false)
    (Hget : (VmessUsers.Get (hasher id (timestamp rolls)) (userValidator w)).2 = Ok (user, timestamp rolls))
    (Hac' : Headers.Account user = Some account') (Hkey : cmdKey (ID_ account') = cmdKey (ID_ account))
    (Hnew : new_session now account' (c_request c) (sessionHistory w)) (Hrd : rd_wf (reader w)) :
  exists d, writes (EncodeRequestHeader c request rolls : ST W unit) d tt /\
    forall rest, rd_content (reader w) = d ++ rest ->
    exists s' w', DecodeRequestHeader now roll items (s, w) = ((s', w'), Ok (received request user a)) /\ agreed false c s s' /\
      sessionHistory w' = remember now account' (c_request c) (sessionHistory w) /\
      rd_wf (reader w') /\ rd_end (reader w') = rd_end (reader w) /\ rd_content (reader w') = rest.
Proof.
  pose proof (request_enciphered (W := W) c request a rolls u account id Haead Hok Hu Hac Hid) as Hw. set (hash := hasher id (timestamp rolls)) in *.
  set (s0 := NewAesEncryptionStream (cmdKey (ID_ account)) (hashTimestamp (timestamp rolls))) in *.
  set (plain := plain_wire c request a (padding_ rolls)) in *. eexists. split; [exact Hw|]. intros rest Hc. rewrite <- app_assoc in Hc.
  assert (Hz : zlen hash = 16) by (unfold zlen, hash, hasher, DefaultIDHash, hmac; rewrite md5_length; done).
  unfold DecodeRequestHeader, GetBehaviorSeed. set (seed := if behaviorSeed _ =? 0 then roll else _).
  destruct (NewBehaviorSeedLimitedDrainer (i64 seed) (16 + 38) 3266 64 (dice w)) as [g drainer]. cbn [reader].
  destruct (ReadFullFrom_exact New (reader w) hash (deciphered plain s0 ++ rest) New_wf ltac:(rewrite New_room; lia) Hrd Hc) as (r1 & E1 & Hr1 & He1 & Hc1).
  rewrite Hz in E1. rewrite E1, (fresh_Bytes New fresh_New) by lia. unfold GetAEAD. cbn [userValidator with_reader aeadDecoderHolder].
  unfold Match. rewrite (match_loop_none now hash items Hnone). rewrite decide_True by done.
  unfold decode_legacy. cbn [userValidator with_validator]. unfold VmessUsers.Get in Hget |- *. cbn [snd userHash baseTime] in *. rewrite Hget, Hforced.
  destruct (ShouldShowLegacyWarn _) as [v2 shown]. rewrite Hac', Hkey, Hs. cbn [with_validator with_reader reader sessionHistory dice userValidator].
  set (s1 := NewAesDecryptionStream (cmdKey (ID_ account)) (hashTimestamp (timestamp rolls))).
  set (all := deciphered plain s0 ++ rest) in *.
  assert (Hall : deciphered all s1 = plain ++ deciphered rest (stream_after (deciphered plain s0) s1)) by (unfold all; rewrite deciphered_app; unfold s0, s1; by rewrite Hundone).
  pose proof (decode_plain_spec (D := CryptionReader T R) (H6 := cryption_at all s1) c request a (padding_ rolls) c_reader false now user account' hash drainer (push New hash)
    (mkCryption s1 r1) (deciphered rest (stream_after (deciphered plain s0) s1)) s (mkWorld v2 (sessionHistory w) r1 g) Hok) as Hplain.
  destruct Hplain as (s' & d' & E3 & Hag & Hwf' & He' & Hc').
  - by apply fresh_again; [|lia].
  - by eapply ok_command_u8.
  - split; [done|]. exists []. cbn [c_reader c_stream]. split; [by rewrite Hc1|]. unfold stream_after. by rewrite xor_nil.
  - cbn [rd_content cryption_at c_reader c_stream]. by rewrite Hc1.
  - done.
  - cbn [rd_content rd_wf cryption_at] in Hwf', Hc'. destruct (stands_left all s1 d' (length (deciphered plain s0)) Hwf') as [Hleft _].
    + rewrite Hc', deciphered_length. unfold all. rewrite length_app. lia.
    + unfold all. rewrite length_app. lia.
    + eexists s', _. split; [exact E3|]. split; [done|]. cbn [sessionHistory reader]. split; [done|]. split; [exact (proj1 Hwf')|].
      cbn [rd_end cryption_at c_reader] in He'. split; [congruence|]. rewrite Hleft. unfold all. apply drop_app_length.
Qed.
End Arrives.

(** ** Who is let in *)
Section Admission.
Context {R G2 : Type} `{Reader R} `{Rand G2}.
Abbreviation World := (World (F := F) R G2).

(** A step that refuses, and leaves the history alone. *)
Definition refuses {A} (m : ST World A) : Prop := forall w, sessionHistory (m w).1 = sessionHistory w /\ forall a, (m w).2 <> Ok a.

Lemma drain_refuses {A} drainer n e : refuses (drainConnection drainer n e : ST World A).
Proof. intros w. unfold drainConnection. by destruct (WithError _ _ _). Qed.

Lemma err_refuses {A} e : refuses (st_err e : ST World A).
Proof. by intros w. Qed.

Lemma burn_refuses {A} authID t f (k : string * Datatypes.option error -> ST World A) :
  (forall x, refuses (k x)) -> refuses (x ← burn authID t f; k x).
Proof.
  intros Hk w. unfold mbind, st_bind, burn. destruct (BurnTaintFuse authID (userValidator w)) as [v [[]|e|]]; [| |done].
  - exact (Hk (t, None) (with_validator w v)).
  - exact (Hk (f, Some e) (with_validator w v)).
Qed.

Lemma refuse_refuses {A} aead authID drainer n why : refuses (refuse aead authID drainer n why : ST World A).
Proof.
  destruct why as [e|e| |e]; cbn [refuse]; [destruct aead; [apply err_refuses|]..|apply err_refuses]; apply burn_refuses; intros [msg x];
    apply err_refuses || apply drain_refuses.
Qed.

Lemma duplicated_refuses {A} aead authID drainer n : refuses (duplicated aead authID drainer n : ST World A).
Proof. unfold duplicated. destruct aead; [apply err_refuses|]. apply burn_refuses. intros x. apply drain_refuses. Qed.

Lemma in_world_refuses {A} (s : ServerSession (T := T)) (m : ST World A) w s' w' x :
  refuses m -> in_world s m (s, w) = ((s', w'), x) -> sessionHistory w' = sessionHistory w /\ forall a, x <> Ok a.
Proof. intros Hm E. unfold in_world in E. specialize (Hm w). destruct (m w) as [w1 y]. by injection E as <- <- <-. Qed.

Lemma read_tail_user {D} `{Reader D} user v o sec cmd pad st st' req :
  read_tail (D := D) user v o sec cmd pad st = (st', Ok (inl req)) -> Headers.User req = Some user.
Proof.
  unfold read_tail, mbind, st_bind. intros E. destruct (read_target cmd st) as [st1 [t|?|]]; try discriminate E.
  lazymatch type of E with (let (_, _) := ?x in _) = _ => destruct x as [st2 [[n|e]|?|]] end; try discriminate E.
  destruct (attempt (ReadFullFrom 4) st2) as [st3 [[n'|e]|?|]]; try discriminate E.
  destruct (check_sum st3) as [st4 [[|]|?|]]; try discriminate E. cbn [negb] in E.
  destruct t as [[addr port]|]; try discriminate E. destruct (_ || _); try discriminate E. by injection E as _ <-.
Qed.

(** How a session came to be: the keys were not remembered, and are now. *)
Definition entered (now : Z) (account : MemoryAccount) (keys : Keys) (w w' : World) : Prop :=
  new_session now account keys (sessionHistory w) /\ sessionHistory w' = remember now account keys (sessionHistory w).

Definition decided (now : Z) (user : User) (account : MemoryAccount) (aead : bool) (w w' : World) (s' : ServerSession (T := T)) (x : res Request) : Prop :=
  (sessionHistory w' = sessionHistory w /\ forall req, x <> Ok req) \/
  exists keys, entered now account keys w w' /\ forall req, x = Ok req -> Headers.User req = Some user /\ s_request s' = keys /\ isAEADRequest s' = aead.

Lemma decode_plain_decided {D} `{Reader D} (back : D -> R) aead now user account authID drainer buffer (d : D) s (w : World) s' w' x :
  decode_plain back aead now user account authID drainer buffer d (s, w) = ((s', w'), x) -> decided now user account aead w w' s' x.
Proof.
  unfold decode_plain. destruct (ReadFullFrom 38 _) as [[b d1] [n|e|]]; [|injection 1 as <- <- <-; by left..].
  destruct (_ ≫= _) as [[[[[[[version iv] key] header] option] b35] command]|e|]; [|injection 1 as <- <- <-; by left..].
  unfold addIfNotExits. cbn [sessionHistory with_reader]. set (sid := (uuid (ID_ account), key, iv)).
  destruct (match sessionHistory w !! sid with Some expire => now <? expire | None => false end) eqn:Eold; cbn [negb]; intros E.
  { left. eapply in_world_refuses in E; [exact E|apply duplicated_refuses]. }
  right. exists {| bodyKey := key; bodyIV := iv |}. assert (Hnew : new_session now account {| bodyKey := key; bodyIV := iv |} (sessionHistory w)).
  { intros expire He. cbn [bodyKey bodyIV] in He. fold sid in He. rewrite He in Eold. lia. }
  destruct (read_tail _ _ _ _ _ _ _) as [[b2 d2] [[req|why]|e|]] eqn:Et.
  - injection E as <- <- <-. split; [done|]. intros req' [= <-]. split; [by eapply read_tail_user|]. done.
  - eapply in_world_refuses in E as [Eh Ex]; [|apply refuse_refuses]. split; [split; [done|by rewrite Eh]|]. intros req Hreq. by destruct (Ex req).
  - injection E as <- <- <-. by split.
  - injection E as <- <- <-. by split.
Qed.

(** The first bytes of the connection admit the user at that time: as a sealed
    header or, unless they are forbidden, as a legacy one. *)
Definition let_in (now : Z) (items : list (bytes * User)) (forced aead : bool) (v : TimedUserValidator F) (authID : bytes) (user : User) : Prop :=
  (aead = true /\ (exists key, (key, user) ∈ items /\ accepts now authID key = true) /\ (Check authID now (filter (aeadDecoderHolder v))).2 = true) \/
  (forced = false /\ (forall key t, (key, t) ∈ items -> accepts now authID key = false) /\ exists ts, (VmessUsers.Get authID v).2 = Ok (user, ts)).

Lemma match_loop_cases now authID (items : list (bytes * User)) :
  match match_loop now authID items with
  | Some user => exists key, (key, user) ∈ items /\ accepts now authID key = true
  | None => forall key t, (key, t) ∈ items -> accepts now authID key = false
  end.
Proof.
  induction items as [|[key t] items IH]; cbn [match_loop]; [intros key t Hin; by apply elem_of_nil in Hin|].
  destruct (accepts now authID key) eqn:E; [exists key; split; [by left|done]|]. destruct (match_loop now authID items) as [u|].
  - destruct IH as (k & Hk & Ha). exists k. split; [by right|done].
  - intros k t' Hin. apply elem_of_cons in Hin as [[= -> ->]|Hin]; [done|by eapply IH].
Qed.

Lemma DecodeRequestHeader_decided now roll items s (w : World) s' w' x :
  rd_wf (reader w) -> DecodeRequestHeader now roll items (s, w) = ((s', w'), x) ->
  (sessionHistory w' = sessionHistory w /\ forall req, x <> Ok req) \/
  exists user account aead keys, Headers.Account user = Some account /\ entered now account keys w w' /\
    let_in now items (isAEADForced s) aead (userValidator w) (take 16 (rd_content (reader w))) user /\
    forall req, x = Ok req -> Headers.User req = Some user /\ s_request s' = keys.
Proof.
  intros Hrd. unfold DecodeRequestHeader, GetBehaviorSeed. set (seed := if behaviorSeed _ =? 0 then roll else _).
  destruct (NewBehaviorSeedLimitedDrainer _ _ _ _ _) as [g drainer]. cbn [reader].
  destruct (ReadFullFrom_spec New New_wf (reader w) Hrd 16) as (r1 & Hr1 & _ & Hc1 & E1); [rewrite New_room; lia|]. rewrite E1.
  change (Z.to_nat 16) with 16%nat in *. set (authID := take 16 (rd_content (reader w))) in *.
  destruct (16 <=? zlen (rd_content (reader w))) eqn:Ez; [|intros E; left; by injection E as <- <- <-].
  assert (Hz : zlen authID = 16) by (unfold authID, zlen in *; rewrite length_take; lia).
  rewrite (fresh_Bytes New fresh_New) by lia. unfold GetAEAD, Match. cbn [userValidator with_reader aeadDecoderHolder].
  pose proof (match_loop_cases now authID items) as Hm. destruct (match_loop now authID items) as [user|].
  - destruct (Check authID now (filter (aeadDecoderHolder (userValidator w)))) as [f fresh_] eqn:Ech. destruct fresh_.
    + unfold decode_aead. destruct (Headers.Account user) as [account|] eqn:Ea; [|intros E; left; by injection E as <- <- <-].
      destruct (OpenVMessAEADHeader _ _ _) as [r2 [[data|sd n e]|e|]]; [| |intros E; left; by injection E as <- <- <-..].
      * intros E. apply decode_plain_decided in E as [Hold|(keys & Hin & Hreq)]; [by left|]. right. exists user, account, true, keys. split; [done|]. split; [exact Hin|].
        split; [|intros req Hq; by destruct (Hreq req Hq) as (? & ? & _)]. left. split; [done|]. split; [done|]. by rewrite Ech.
      * intros E. left. destruct sd; cbn [in_world] in E; (eapply in_world_refuses in E; [exact E|apply drain_refuses]).
    + rewrite decide_False by done. intros E. left. eapply in_world_refuses in E; [exact E|apply drain_refuses].
  - rewrite decide_True by done. unfold decode_legacy. cbn [userValidator with_validator].
    destruct (VmessUsers.Get authID _) as [v1 [[user ts]|e|]] eqn:Eg; [|intros E; left; eapply in_world_refuses in E; [exact E|apply drain_refuses]|intros E; left; by injection E as <- <- <-].
    destruct (isAEADForced s) eqn:Ef; [intros E; left; eapply in_world_refuses in E; [exact E|apply drain_refuses]|].
    destruct (ShouldShowLegacyWarn v1) as [v2 shown]. destruct (Headers.Account user) as [account|] eqn:Ea; [|intros E; left; by injection E as <- <- <-].
    intros E. apply decode_plain_decided in E as [Hold|(keys & Hin & Hreq)]; [by left|]. right. exists user, account, (isAEADRequest s), keys. split; [done|]. split; [exact Hin|].
    split; [|intros req Hq; by destruct (Hreq req Hq) as (? & ? & _)]. right. split; [done|]. split; [exact Hm|]. exists ts.
    apply (f_equal snd) in Eg. exact Eg.
Qed.

(** Nobody else is let in.  When the server takes a request, its user is one whose
    decoder takes the first sixteen bytes for an authentication ID of its own that the
    filter has not seen, or - only if legacy requests are not forbidden, and no decoder
    takes them - the one whose hash they are in the table; and its session is new: no
    session of that user with these keys is remembered, and from now on it is. *)
Theorem vmess_admission now roll items s (w : World) s' w' req
    (Hrd : rd_wf (reader w)) (E : DecodeRequestHeader now roll items (s, w) = ((s', w'), Ok req)) :
  exists user account aead, Headers.User req = Some user /\ Headers.Account user = Some account /\
    let_in now items (isAEADForced s) aead (userValidator w) (take 16 (rd_content (reader w))) user /\
    entered now account (s_request s') w w'.
Proof.
  destruct (DecodeRequestHeader_decided now roll items s w s' w' _ Hrd E) as [[_ Hno]|(user & account & aead & keys & Ha & Hin & Hlet & Hreq)];
    [by destruct (Hno req)|]. destruct (Hreq req eq_refl) as [Hu <-]. by exists user, account, aead.
Qed.

(** What happens to the history between two requests: others are decoded, or
    refused, with it; it is cleaned; time passes. *)
Inductive passes (t0 : Z) (h0 : SessionHistory) : Z -> SessionHistory -> Prop :=
  | passes_none : passes t0 h0 t0 h0
  | passes_time t t' h : passes t0 h0 t h -> t <= t' -> passes t0 h0 t' h
  | passes_decode t roll items s (w : World) s' w' x : passes t0 h0 t (sessionHistory w) -> rd_wf (reader w) ->
      DecodeRequestHeader t roll items (s, w) = ((s', w'), x) -> passes t0 h0 t (sessionHistory w')
  | passes_clean t h : passes t0 h0 t h -> passes t0 h0 t (removeExpiredEntries t h).1.

Lemma passes_keep t0 h0 t h sid e : passes t0 h0 t h -> h0 !! sid = Some e -> t < e -> h !! sid = Some e.
Proof.
  intros Hp He. induction Hp as [|t t' h Hp IH Hle|t roll items s w s' w' x Hp IH Hrd E|t h Hp IH]; intros Ht.
  - done.
  - apply IH. lia.
  - specialize (IH Ht). destruct (DecodeRequestHeader_decided t roll items s w s' w' x Hrd E) as [[-> _]|(user & account & aead & keys & _ & [Hnew ->] & _)]; [done|].
    unfold remember. rewrite lookup_insert_ne; [done|]. intros <-. specialize (Hnew e IH). lia.
  - specialize (IH Ht). unfold removeExpiredEntries. case_bool_decide as Eh; [done|]. cbn [fst]. apply map_lookup_filter_Some. split; [done|]. cbn. lia.
Qed.

(** C17. A session is taken once.  Two requests that the server takes, the second less
    than three minutes after the first, with a history of sessions that the first one
    left and that since then went through any further requests, taken or refused,
    through clean-ups and time that does not run backwards, are of different users or
    have another key or IV: what is replayed to the server within these three minutes,
    under whatever authentication ID, is refused. *)
Theorem vmess_session_once t1 roll1 items1 s1 (w1 : World) s1' w1' req1 t2 roll2 items2 s2 (w2 : World) s2' w2' req2 user1 account1 user2 account2
    (Hrd1 : rd_wf (reader w1)) (E1 : DecodeRequestHeader t1 roll1 items1 (s1, w1) = ((s1', w1'), Ok req1))
    (Hp : passes t1 (sessionHistory w1') t2 (sessionHistory w2)) (Ht : t2 < t1 + 180)
    (Hrd2 : rd_wf (reader w2)) (E2 : DecodeRequestHeader t2 roll2 items2 (s2, w2) = ((s2', w2'), Ok req2))
    (Hu1 : Headers.User req1 = Some user1) (Ha1 : Headers.Account user1 = Some account1)
    (Hu2 : Headers.User req2 = Some user2) (Ha2 : Headers.Account user2 = Some account2) :
  (uuid (ID_ account1), s_request s1') <> (uuid (ID_ account2), s_request s2').
Proof.
  destruct (DecodeRequestHeader_decided _ _ _ _ _ _ _ _ Hrd1 E1) as [[_ Hno]|(u1 & a1 & ? & k1 & Hac1 & [_ Hh1] & _ & Hq1)]; [by destruct (Hno req1)|].
  destruct (DecodeRequestHeader_decided _ _ _ _ _ _ _ _ Hrd2 E2) as [[_ Hno]|(u2 & a2 & ? & k2 & Hac2 & [Hnew2 _] & _ & Hq2)]; [by destruct (Hno req2)|].
  destruct (Hq1 req1 eq_refl) as [Hv1 ->], (Hq2 req2 eq_refl) as [Hv2 ->]. assert (a1 = account1) as -> by congruence. assert (a2 = account2) as -> by congruence.
  intros Heq. apply pair_equal_spec in Heq as [Hid ->].
  assert (Hl : sessionHistory w2 !! (uuid (ID_ account1), bodyKey k2, bodyIV k2) = Some (t1 + 180)).
  { apply (passes_keep t1 (sessionHistory w1') t2); [done| |lia]. rewrite Hh1. unfold remember. by rewrite lookup_insert_eq. }
  rewrite Hid in Hl. specialize (Hnew2 _ Hl). lia.
Qed.
End Admission.

End Plain.

(** ** Commands *)
Definition host_text (cmd : CommandSwitchAccount) : bytes := match c_Host cmd with Some a => Address_String a | None => [] end.

(** A command whose host is read back as what its text says. *)
Record command_ok (cmd : CommandSwitchAccount) : Prop := {
  cmd_host : zlen (host_text cmd) <= 228 /\ forall a, c_Host cmd = Some a -> host_text cmd <> [] /\ ParseAddress (host_text cmd) = Ok (Some a);
  cmd_port : is_u16 (c_Port cmd); cmd_id : length (c_ID cmd) = 16%nat; cmd_alter : is_u16 (c_AlterIds cmd); cmd_level : is_u8 (c_Level cmd);
}.

Definition command_wire (cmd : CommandSwitchAccount) : bytes :=
  [z2b (zlen (host_text cmd))] ++ host_text cmd ++ put_be 2 (c_Port cmd) ++ c_ID cmd ++ put_be 2 (c_AlterIds cmd) ++ [z2b (c_Level cmd)] ++ [c_ValidMin cmd].

Lemma command_wire_length cmd : length (c_ID cmd) = 16%nat -> zlen (command_wire cmd) = 23 + zlen (host_text cmd).
Proof. intros Hid. unfold command_wire. rewrite !zlen_app, !zlen_put_be. unfold zlen. rewrite Hid. cbn [length]. lia. Qed.

Lemma writes_command cmd : writes (factory_Marshal cmd) (command_wire cmd) tt.
Proof.
  unfold factory_Marshal, command_wire. fold (host_text cmd). assert (Hw : forall d, writes (Must (Write d)) d (zlen d)) by (intros d; apply writes_must, (writes_wr (W := Buf.Buffer))).
  eapply writes_bind; [apply Hw|]. eapply writes_bind.
  - destruct (0 <? zlen (host_text cmd)) eqn:Ez; [by eapply writes_last; [apply Hw|]|].
    assert (host_text cmd = []) as -> by (destruct (host_text cmd); [done|unfold zlen in Ez; cbn in Ez; lia]). apply writes_ret.
  - cbv beta. eapply writes_bind; [apply Hw|]. eapply writes_bind; [apply Hw|]. eapply writes_bind; [apply Hw|]. eapply writes_bind; [apply Hw|].
    by eapply writes_last; [apply Hw|].
Qed.

Lemma MarshalCommand_wire cmd :
  length (c_ID cmd) = 16%nat -> zlen (host_text cmd) <= 228 ->
  MarshalCommand (Some cmd) = Ok [[x01; z2b (zlen (command_wire cmd) + 4)] ++ put_be 4 (Authenticate (command_wire cmd)); command_wire cmd].
Proof.
  intros Hid Hh. pose proof (command_wire_length cmd Hid) as Hl. pose proof (zlen_nonneg (host_text cmd)). set (d := command_wire cmd) in *.
  unfold MarshalCommand. rewrite (fresh_build _ New d tt (writes_command cmd) fresh_New) by lia. cbn [mbind res_bind]. rewrite (fresh_Bytes New fresh_New d) by lia. cbn [mbind res_bind].
  destruct (fresh_push New fresh_New d ltac:(lia)) as (Hw & Hc & _). rewrite (Len_wf _ Hw), Hc, i32_small by lia. replace (255 <? zlen d + 4) with false by lia. done.
Qed.

Lemma field_at (pre f post : bytes) start n : start = zlen pre -> n = zlen f -> field (pre ++ f ++ post) start n = Ok f.
Proof.
  intros -> ->. pose proof (zlen_nonneg post). pose proof (zlen_nonneg pre). pose proof (zlen_nonneg f). unfold field. rewrite !zlen_app.
  replace (_ <? _) with false by lia. rewrite slice_Some by (rewrite ?zlen_app; lia). cbn [or_panic]. f_equal.
  replace (Z.to_nat (zlen pre)) with (length pre) by (unfold zlen; lia). rewrite drop_app_length.
  replace (Z.to_nat (zlen pre + zlen f - zlen pre)) with (length f) by (unfold zlen; lia). apply take_app_length.
Qed.

Lemma host_parsed cmd rest : command_ok cmd ->
  (if 0 <? zlen (host_text cmd) then text ← or_panic (slice (z2b (zlen (host_text cmd)) :: host_text cmd ++ rest) 1 (1 + zlen (host_text cmd))); ParseAddress text else Ok None) = Ok (c_Host cmd).
Proof.
  intros Hok. destruct (cmd_host _ Hok) as [Hh Hparse]. set (h := host_text cmd) in *. pose proof (zlen_nonneg rest). pose proof (zlen_nonneg h). destruct (0 <? zlen h) eqn:Ez.
  - rewrite slice_Some by (rewrite ?zlen_cons, ?zlen_app; lia). cbn [or_panic mbind res_bind]. change (Z.to_nat 1) with 1%nat. cbn [drop].
    replace (Z.to_nat (1 + zlen h - 1)) with (length h) by (unfold zlen; lia). rewrite drop_0, take_app_length.
    destruct (c_Host cmd) as [a|] eqn:Ea; [by apply Hparse|]. unfold h, host_text in Ez. rewrite Ea in Ez. done.
  - destruct (c_Host cmd) as [a|] eqn:Ea; [|done]. destruct (Hparse a eq_refl) as [Hne _]. destruct h; [done|unfold zlen in Ez; cbn in Ez; lia].
Qed.

Lemma factory_Unmarshal_wire cmd : command_ok cmd -> factory_Unmarshal (command_wire cmd) = Ok cmd.
Proof.
  intros Hok. destruct (cmd_host _ Hok) as [Hh _]. pose proof (cmd_id _ Hok) as Hid. pose proof (command_wire_length cmd Hid) as Hl. pose proof (zlen_nonneg (host_text cmd)) as H0h.
  pose proof (host_parsed cmd (put_be 2 (c_Port cmd) ++ c_ID cmd ++ put_be 2 (c_AlterIds cmd) ++ [z2b (c_Level cmd)] ++ [c_ValidMin cmd]) Hok) as Hhost.
  set (h := host_text cmd) in *. set (l0 := z2b (zlen h)) in *. assert (Hl0 : b2z l0 = zlen h) by (apply z2b_small; lia).
  assert (Hzi : zlen (c_ID cmd) = 16) by (unfold zlen; by rewrite Hid).
  assert (Hw : command_wire cmd = [l0] ++ h ++ put_be 2 (c_Port cmd) ++ c_ID cmd ++ put_be 2 (c_AlterIds cmd) ++ [z2b (c_Level cmd)] ++ [c_ValidMin cmd]) by done.
  change (l0 :: h ++ _) with (command_wire cmd) in Hhost. set (wire := command_wire cmd) in *.
  assert (Hp : forall pre f post start, wire = pre ++ f ++ post -> start = zlen pre -> field wire start (zlen f) = Ok f) by (intros pre f post start -> ->; by apply field_at).
  assert (F1 : field wire (1 + zlen h) 2 = Ok (put_be 2 (c_Port cmd))).
  { eapply (Hp ([l0] ++ h) (put_be 2 _)); [rewrite Hw, <- !app_assoc; reflexivity|by rewrite zlen_app]. }
  assert (F2 : field wire (1 + zlen h + 2) 16 = Ok (c_ID cmd)).
  { rewrite <- Hzi. eapply (Hp ([l0] ++ h ++ put_be 2 (c_Port cmd))); [rewrite Hw, <- !app_assoc; reflexivity|rewrite !zlen_app, zlen_put_be; change (zlen [l0]) with 1; try change (zlen [z2b (c_Level cmd)]) with 1; lia]. }
  assert (F3 : field wire (1 + zlen h + 2 + 16) 2 = Ok (put_be 2 (c_AlterIds cmd))).
  { eapply (Hp ([l0] ++ h ++ put_be 2 (c_Port cmd) ++ c_ID cmd) (put_be 2 _)); [rewrite Hw, <- !app_assoc; reflexivity|rewrite !zlen_app, zlen_put_be, Hzi; change (zlen [l0]) with 1; try change (zlen [z2b (c_Level cmd)]) with 1; lia]. }
  assert (F4 : field wire (1 + zlen h + 2 + 16 + 2) 1 = Ok [z2b (c_Level cmd)]).
  { eapply (Hp ([l0] ++ h ++ put_be 2 (c_Port cmd) ++ c_ID cmd ++ put_be 2 (c_AlterIds cmd)) [_]); [rewrite Hw, <- !app_assoc; reflexivity|rewrite !zlen_app, !zlen_put_be, Hzi; change (zlen [l0]) with 1; try change (zlen [z2b (c_Level cmd)]) with 1; lia]. }
  assert (F5 : field wire (1 + zlen h + 2 + 16 + 2 + 1) 1 = Ok [c_ValidMin cmd]).
  { eapply (Hp ([l0] ++ h ++ put_be 2 (c_Port cmd) ++ c_ID cmd ++ put_be 2 (c_AlterIds cmd) ++ [z2b (c_Level cmd)]) [_] []); [rewrite Hw, <- !app_assoc; reflexivity|rewrite !zlen_app, !zlen_put_be, Hzi; change (zlen [l0]) with 1; try change (zlen [z2b (c_Level cmd)]) with 1; lia]. }
  unfold factory_Unmarshal. replace (zlen wire =? 0) with false by lia.
  assert (Hix : index wire 0 = Some l0) by done. rewrite Hix. cbn [or_panic mbind res_bind]. rewrite Hl0.
  replace (zlen wire <? zlen h + 1) with false by lia. rewrite Hhost. cbn [mbind res_bind].
  rewrite F1. cbn [mbind res_bind]. unfold PortFromBytes. change (b ← or_panic (slice (put_be 2 (c_Port cmd)) 0 2); Ok (get_be b)) with (Uint16 (put_be 2 (c_Port cmd))).
  rewrite Uint16_put by exact (cmd_port _ Hok). cbn [mbind res_bind].
  rewrite F2. cbn [mbind res_bind]. unfold ParseBytes. rewrite Hzi. cbn [Z.eqb Pos.eqb]. rewrite F3. cbn [mbind res_bind]. rewrite F4. cbn [mbind res_bind]. rewrite F5. cbn [mbind res_bind or_panic head].
  rewrite get_be_put_be_small by (change (256 ^ Z.of_nat 2) with (2 ^ 16); exact (cmd_alter _ Hok)).
  assert (Hlev : get_be [z2b (c_Level cmd)] = c_Level cmd) by (rewrite get_be_cons; change (get_be []) with 0; change (256 ^ zlen []) with 1; rewrite z2b_small by exact (cmd_level _ Hok); lia).
  rewrite Hlev. by destruct cmd.
Qed.

Lemma UnmarshalCommand_wire cmd : command_ok cmd ->
  UnmarshalCommand x01 (put_be 4 (Authenticate (command_wire cmd)) ++ command_wire cmd) = Ok cmd.
Proof.
  intros Hok. pose proof (command_wire_length cmd (cmd_id _ Hok)) as Hl. pose proof (zlen_nonneg (host_text cmd)). set (d := command_wire cmd) in *. set (h := put_be 4 (Authenticate d)).
  assert (Hzh : zlen h = 4) by (unfold h; by rewrite zlen_put_be). unfold UnmarshalCommand. rewrite zlen_app, Hzh. replace (4 + zlen d <=? 4) with false by lia.
  rewrite (slice_app h d 4 Hzh). cbn [or_panic mbind res_bind]. assert (Hdrop : drop 4 (h ++ d) = d) by (change 4%nat with (length h); apply drop_app_length). rewrite Hdrop.
  unfold h. rewrite get_be_put_be_small by (unfold Authenticate; pose proof (fnv32a_range d); change (256 ^ Z.of_nat 4) with (2 ^ 32); lia).
  rewrite decide_False by (intros Hn; by apply Hn). change (b2z x01 =? 1) with true. cbv iota. exact (factory_Unmarshal_wire cmd Hok).
Qed.

Lemma field_settled data start n : 0 <= start -> 0 <= n -> field data start n <> Panic /\ forall f, field data start n = Ok f -> zlen f = n.
Proof.
  intros Hs Hn. unfold field. destruct (zlen data <? start + n) eqn:E; [done|]. rewrite slice_Some by lia. cbn [or_panic]. split; [done|].
  intros f [= <-]. unfold zlen in *. rewrite length_take, length_drop. lia.
Qed.

(** A command is read back as it was written, and whatever bytes come in its place
    - of whatever kind, with a checksum or without - are a command or an error, never
    a panic. *)
Theorem command_roundtrip :
  (forall cmd, command_ok cmd -> exists head d, MarshalCommand (Some cmd) = Ok [x01 :: z2b (zlen (head ++ d)) :: head; d] /\ zlen (head ++ d) <= 255 /\
    UnmarshalCommand x01 (head ++ d) = Ok cmd) /\
  forall cmdID data, UnmarshalCommand cmdID data <> Panic.
Proof.
  split.
  - intros cmd Hok. pose proof (command_wire_length cmd (cmd_id _ Hok)) as Hl. destruct (cmd_host _ Hok) as [Hh _].
    exists (put_be 4 (Authenticate (command_wire cmd))), (command_wire cmd). rewrite zlen_app, zlen_put_be, (Z.add_comm (Z.of_nat 4)). change (Z.of_nat 4) with 4.
    split; [by apply MarshalCommand_wire; [exact (cmd_id _ Hok)|]|]. split; [lia|by apply UnmarshalCommand_wire].
  - intros cmdID data. unfold UnmarshalCommand. destruct (zlen data <=? 4) eqn:E4; [done|]. rewrite slice_Some by lia. cbn [or_panic mbind res_bind].
    destruct (decide _); [done|]. destruct (b2z cmdID =? 1); [|done]. generalize (drop 4 data). clear. intros data. unfold factory_Unmarshal.
    destruct (zlen data =? 0) eqn:E0; [done|]. destruct data as [|l data]; [done|]. change (index (l :: data) 0) with (Some l). cbn [or_panic mbind res_bind]. pose proof (b2z_range l).
    set (n := b2z l) in *. destruct (zlen (l :: data) <? n + 1) eqn:En; [done|].
    assert (Hhost : (if 0 <? n then text ← or_panic (slice (l :: data) 1 (1 + n)); ParseAddress text else Ok None) <> Panic).
    { destruct (0 <? n); [|done]. rewrite slice_Some by lia. cbn [or_panic mbind res_bind]. destruct (ParseAddress_total (take (Z.to_nat (1 + n - 1)) (drop (Z.to_nat 1) (l :: data)))) as (? & -> & _). done. }
    destruct (if 0 <? n then _ else _) as [host|?|]; [|done|done]. cbn [mbind res_bind].
    destruct (field_settled (l :: data) (1 + n) 2 ltac:(lia) ltac:(lia)) as [H1 Hf1]. destruct (field (l :: data) (1 + n) 2) as [f1|?|]; [|done|done]. cbn [mbind res_bind].
    unfold PortFromBytes. rewrite slice_Some by (specialize (Hf1 _ eq_refl); lia). cbn [or_panic mbind res_bind].
    destruct (field_settled (l :: data) (1 + n + 2) 16 ltac:(lia) ltac:(lia)) as [H2 _]. destruct (field (l :: data) (1 + n + 2) 16) as [f2|?|]; [|done|done]. cbn [mbind res_bind].
    destruct (field_settled (l :: data) (1 + n + 2 + 16) 2 ltac:(lia) ltac:(lia)) as [H3 _]. destruct (field (l :: data) (1 + n + 2 + 16) 2) as [f3|?|]; [|done|done]. cbn [mbind res_bind].
    destruct (field_settled (l :: data) (1 + n + 2 + 16 + 2) 1 ltac:(lia) ltac:(lia)) as [H4 _]. destruct (field (l :: data) (1 + n + 2 + 16 + 2) 1) as [f4|?|]; [|done|done]. cbn [mbind res_bind].
    destruct (field_settled (l :: data) (1 + n + 2 + 16 + 2 + 1) 1 ltac:(lia) ltac:(lia)) as [H5 Hf5]. destruct (field (l :: data) (1 + n + 2 + 16 + 2 + 1) 1) as [f5|?|]; [|done|done]. cbn [mbind res_bind].
    specialize (Hf5 _ eq_refl). by destruct f5.
Qed.

(** ** Responses *)
Section Responses.
Context {C T K G : Type} `{VmessCryptoOk C T K G} `{StreamOk T} `{AO : !AeadOk C 16}.

Record response_ok (header : ResponseHeader) : Prop := {
  resp_option : is_u8 (r_Option header); resp_command : forall cmd, r_Command header = Some cmd -> command_ok cmd }.

Definition command_part (command : Datatypes.option CommandSwitchAccount) : bytes :=
  match command with
  | Some cmd => [x01; z2b (zlen (command_wire cmd) + 4)] ++ put_be 4 (Authenticate (command_wire cmd)) ++ command_wire cmd
  | None => [x00; x00]
  end.
Definition response_wire (s : ServerSession (T := T)) (header : ResponseHeader) : bytes :=
  [s_responseHeader s; z2b (r_Option header)] ++ command_part (r_Command header).

Lemma response_writes_wire s header : response_ok header ->
  exists l, response_writes s header = Ok l /\ concat l = response_wire s header /\ zlen (response_wire s header) <= 259.
Proof.
  intros [_ Hcmd]. unfold response_writes, response_wire. destruct (r_Command header) as [cmd|]; [|by eexists].
  specialize (Hcmd cmd eq_refl). destruct (cmd_host _ Hcmd) as [Hh _]. pose proof (command_wire_length cmd (cmd_id _ Hcmd)) as Hl.
  rewrite (MarshalCommand_wire cmd (cmd_id _ Hcmd) Hh). eexists. split; [done|]. cbn [command_part concat]. split; [by rewrite app_nil_r, <- !app_assoc|].
  rewrite !zlen_app, zlen_put_be. unfold zlen at 1 2. cbn [length]. lia.
Qed.

Section Reading.
Context {R : Type} `{Reader R}.

Lemma takes_response (c : ClientSession (T := T)) s header : response_ok header -> s_responseHeader s = c_responseHeader c ->
  takes (response_fields c : ST R ResponseHeader) (response_wire s header) header.
Proof.
  intros Hok Hh. destruct Hok as [Ho Hcmd]. unfold response_fields, response_wire.
  assert (Hhead : exists x y tail, [s_responseHeader s; z2b (r_Option header)] ++ command_part (r_Command header) =
    [s_responseHeader s; z2b (r_Option header); x; y] ++ tail /\
    match r_Command header with
    | Some cmd => x = x01 /\ b2z y = zlen tail /\ zlen tail <= 255 /\ UnmarshalCommand x01 tail = Ok cmd
    | None => x = x00 /\ tail = []
    end).
  { destruct (r_Command header) as [cmd|]; [|by exists x00, x00, []]. specialize (Hcmd cmd eq_refl). pose proof (command_wire_length cmd (cmd_id _ Hcmd)) as Hl.
    destruct (cmd_host _ Hcmd) as [Hhost _]. pose proof (zlen_nonneg (host_text cmd)). exists x01, (z2b (zlen (command_wire cmd) + 4)), (put_be 4 (Authenticate (command_wire cmd)) ++ command_wire cmd).
    split; [by cbn [command_part app]|]. split; [done|]. rewrite zlen_app, zlen_put_be, z2b_small by lia. split; [lia|]. split; [lia|]. by apply UnmarshalCommand_wire. }
  destruct Hhead as (x & y & tail & -> & Hc). set (first := [s_responseHeader s; z2b (r_Option header); x; y]).
  assert (Hat : forall i z, first !! i = Some z -> Byte (push StackNew first) (Z.of_nat i) = Ok z) by (intros i z Hz; by apply (fresh_Byte StackNew fresh_StackNew first)).
  eapply takes_bind; [apply takes_base, (takes_fresh StackNew 4 first fresh_StackNew eq_refl); lia|].
  eapply takes_lift; [exact (Hat 0%nat _ eq_refl)|]. rewrite decide_False by (intros Hn; by apply Hn).
  eapply takes_lift; [exact (Hat 1%nat _ eq_refl)|]. eapply takes_lift; [exact (Hat 2%nat _ eq_refl)|].
  rewrite z2b_small by exact Ho. destruct header as [o command]. cbn [r_Option r_Command] in *. destruct command as [cmd|].
  - destruct Hc as (-> & Hy & Hl & Hu). rewrite decide_True by done. eapply takes_lift; [exact (Hat 3%nat _ eq_refl)|]. rewrite Hy.
    pose proof (fresh_again StackNew fresh_StackNew first ltac:(vm_compute; discriminate)) as Hf.
    eapply takes_then; [apply takes_base, (takes_fresh _ (zlen tail) tail Hf eq_refl); lia|].
    eapply takes_lift; [apply (fresh_Bytes _ Hf); lia|]. rewrite Hu. apply takes_ret.
  - destruct Hc as [-> ->]. rewrite decide_False by (intros Hn; by apply Hn). apply takes_ret.
Qed.
End Reading.

(** ** Both ends *)

(** The stream of the reader undoes that of the writer, from where they stand. *)
Definition undoes (reads writes : T) : Prop := forall d, deciphered (deciphered d writes) reads = d.

Lemma undone_on key iv d : undone (C := C) (T := T) (K := K) (G := G) ->
  undoes (stream_after (deciphered d (NewAesEncryptionStream key iv)) (NewAesDecryptionStream key iv)) (stream_after d (NewAesEncryptionStream key iv)).
Proof.
  intros Hu x. pose proof (Hu key iv (d ++ x)) as E. rewrite deciphered_app, (deciphered_app (deciphered d _)), Hu in E. by apply app_inv_head in E.
Qed.

Lemma response_sealed keys saltKey saltIV d :
  exists ct, response_seal keys saltKey saltIV d = Ok ct /\ zlen ct = zlen d + 16 /\ response_open keys saltKey saltIV ct = Ok d.
Proof.
  unfold response_seal, response_open, response_aead, response_nonce. apply aead_seal_open.
  rewrite gcm_nonce_size. unfold zlen. rewrite length_take, KDF_length. done.
Qed.

Lemma writes_encrypted {W} `{WriterSpec W} l (stream : T) :
  writes (write_encrypted l stream : ST W T) (deciphered (concat l) stream) (stream_after (concat l) stream).
Proof.
  revert stream. induction l as [|d l IH]; intros stream.
  - unfold deciphered, stream_after. cbn [concat write_encrypted]. rewrite xor_nil. apply writes_ret.
  - cbn [concat write_encrypted]. rewrite deciphered_app, stream_after_app. destruct (XORKeyStream d stream) as [s1 ct] eqn:E.
    assert (stream_after d stream = s1) as -> by (unfold stream_after; by rewrite E). assert (deciphered d stream = ct) as -> by (unfold deciphered; by rewrite E).
    eapply writes_bind; [apply writes_wr_must|apply IH].
Qed.

Lemma read_acknowledged_full {R} `{Reader R} n msg (c : ClientSession (T := T)) (r : R) d rest :
  n = length d -> rd_wf r -> rd_content r = d ++ rest ->
  exists r', read_acknowledged n msg (c, r) = ((set_drainer c (AcknowledgeReceive (zlen d) (readDrainer c)), r'), Ok d) /\
    rd_wf r' /\ rd_end r' = rd_end r /\ rd_content r' = rest.
Proof.
  intros -> Hr Hc. destruct (takes_full (length d) id d eq_refl r rest Hr Hc) as (r1 & E & Hr1 & He1 & Hc1). unfold readFull in E. unfold read_acknowledged.
  destruct (ReadFull r (length d)) as [r0 [bs [e|]]]; [done|]. injection E as -> ->. by exists r1.
Qed.

(** Client and server of one request. *)
Record counterparts (c : ClientSession (T := T)) (s : ServerSession (T := T)) : Prop := {
  cp_aead : isAEADRequest s = isAEAD c; cp_keys : s_request s = c_request c; cp_header : s_responseHeader s = c_responseHeader c;
  cp_response : c_response c = response_keys (isAEAD c) (c_request c); cp_iv : length (bodyIV (c_request c)) = 16%nat;
}.

Lemma response_iv_length aead (keys : Keys) : length (bodyIV (response_keys aead keys)) = 16%nat.
Proof. destruct aead; cbn [response_keys bodyIV]; [by rewrite length_take, sha256_length|apply md5_length]. Qed.

(** What the response's body needs: the streams, where there is no more than a
    cipher, and the chunks. *)
Definition response_body_agrees (c : ClientSession (T := T)) (s : ServerSession (T := T)) : Prop :=
  (exists sw sr, s_responseWriter s = Some sw /\ c_responseReader c = Some sr /\ undoes sr sw) /\
  forall request (gw gr : G) t bw, EncodeResponseBody s request gw = Ok (Sealed t bw) ->
    exists br ov sb mp, DecodeResponseBody c request gr = Ok (Sealed t br) /\ agree ov sb mp bw br.

Lemma response_bodies sw sr aead (keys : Keys) header forced d :
  length (bodyIV keys) = 16%nat -> undoes sr sw ->
  response_body_agrees (mkClient aead keys (response_keys aead keys) (Some sr) header d) (mkServer keys (response_keys aead keys) (Some sw) header aead forced).
Proof.
  intros Hiv Hu. split; [by exists sw, sr|]. intros request gw gr t bw E. unfold EncodeResponseBody in E. unfold DecodeResponseBody.
  cbn [s_response s_request s_responseWriter c_response c_request c_responseReader] in *.
  eapply (body_stream_agree _ _ _ _ _ _ _ _ (Some sr) gw gr) in E as (br & sb & mp & Ebr & _ & _ & Hagr); [|apply response_iv_length|exact Hiv].
  by exists br, (aead_Overhead (AEAD (b_auth bw))), sb, mp.
Qed.

Section Arrives.
Context {W R : Type} `{WriterSpec W} `{Reader R}.

Definition responds (c : ClientSession (T := T)) (s : ServerSession (T := T)) (header : ResponseHeader) : Prop :=
  exists d s', writes (EncodeResponseHeader header s : ST W _) d s' /\
    forall (r : R) rest, rd_wf r -> rd_content r = d ++ rest ->
    exists c' r', DecodeResponseHeader (c, r) = ((c', r'), Ok header) /\ rd_wf r' /\ rd_end r' = rd_end r /\ rd_content r' = rest /\
      response_body_agrees c' s'.

Lemma responds_aead c s header : counterparts c s -> response_ok header -> undone (C := C) (T := T) (K := K) (G := G) -> isAEAD c = true -> responds c s header.
Proof.
  intros [Ha Hk Hh Hr Hiv] Hok Hu Hc. rewrite Hc in Ha, Hr. destruct (response_writes_wire s header Hok) as (l & El & Hcat & Hz). set (plain := response_wire s header) in *.
  set (keys := response_keys true (c_request c)) in *. pose proof (zlen_nonneg plain).
  destruct (response_sealed keys KDFSaltConstAEADRespHeaderLenKey KDFSaltConstAEADRespHeaderLenIV (put_be 2 (u16 (zlen plain)))) as (ct1 & E1 & Hz1 & O1).
  destruct (response_sealed keys KDFSaltConstAEADRespHeaderPayloadKey KDFSaltConstAEADRespHeaderPayloadIV plain) as (ct2 & E2 & Hz2 & O2). rewrite zlen_put_be in Hz1.
  eexists (ct1 ++ ct2), _. split.
  - unfold EncodeResponseHeader. rewrite Ha, Hk. fold keys. rewrite El. refine (writes_lift (Ok l) l _ _ _ eq_refl _). rewrite Hcat, E1. refine (writes_lift (Ok ct1) ct1 _ _ _ eq_refl _).
    eapply writes_bind; [apply writes_wr_must|]. rewrite E2. refine (writes_lift (Ok ct2) ct2 _ _ _ eq_refl _). eapply writes_last; [apply writes_wr_must|done].
  - intros r rest Hwf Hcont. rewrite <- app_assoc in Hcont. unfold DecodeResponseHeader, mbind, st_bind. rewrite Hc.
    destruct (read_acknowledged_full 18 "Unable to Read Header Len" c r ct1 (ct2 ++ rest) ltac:(unfold zlen in Hz1; lia) Hwf Hcont) as (r1 & -> & Hwf1 & He1 & Hc1).
    unfold open_response at 1. cbn [c_response set_drainer]. rewrite Hr. fold keys. rewrite O1.
    assert (Hlen : slice (put_be 2 (u16 (zlen plain))) 0 2 = Some (put_be 2 (u16 (zlen plain)))).
    { rewrite slice_Some by (rewrite ?zlen_put_be; lia). by rewrite take_ge by (rewrite length_drop, length_put_be; lia). }
    rewrite Hlen. cbn [or_panic st_lift]. rewrite (get_be_put_be_small 2) by (rewrite u16_small by lia; change (256 ^ Z.of_nat 2) with (2 ^ 16); lia). rewrite (u16_small (zlen plain)) by lia.
    destruct (read_acknowledged_full (Z.to_nat (zlen plain + 16)) "Unable to Read Header Data" (set_drainer c (AcknowledgeReceive (zlen ct1) (readDrainer c))) r1 ct2 rest
      ltac:(unfold zlen in *; lia) Hwf1 Hc1) as (r2 & -> & Hwf2 & He2 & Hc2).
    unfold open_response. cbn [c_response set_drainer]. rewrite Hr. fold keys. rewrite O2. unfold fields_aead.
    set (c2 := set_drainer _ _). destruct (takes_response c2 s header Hok Hh (conn_of plain) []) as (x & -> & _); [done|unfold conn_of; cbn; by rewrite !app_nil_r|].
    eexists _, r2. split; [done|]. split; [done|]. split; [congruence|]. split; [done|]. unfold set_responseReader, c2. cbn. rewrite Hc, Hr, ?Hk, ?Hh, ?Ha. fold keys.
    apply response_bodies; [exact Hiv|]. intros d. apply Hu.
Qed.

Lemma responds_legacy c s header : counterparts c s -> response_ok header -> undone (C := C) (T := T) (K := K) (G := G) -> isAEAD c = false -> responds c s header.
Proof.
  intros [Ha Hk Hh Hr Hiv] Hok Hu Hc. rewrite Hc in Ha, Hr. destruct (response_writes_wire s header Hok) as (l & El & Hcat & _). set (plain := response_wire s header) in *.
  set (keys := response_keys false (c_request c)) in *. set (s0 := NewAesEncryptionStream (bodyKey keys) (bodyIV keys)).
  set (s1 := NewAesDecryptionStream (bodyKey keys) (bodyIV keys)). eexists (deciphered plain s0), _. split.
  - unfold EncodeResponseHeader. rewrite Ha, Hk. fold keys. rewrite El. refine (writes_lift (Ok l) l _ _ _ eq_refl _). fold s0. rewrite <- Hcat.
    eapply writes_last; [apply writes_encrypted|done].
  - intros r rest Hwf Hcont. set (all := deciphered plain s0 ++ rest) in *.
    assert (Hall : deciphered all s1 = plain ++ deciphered rest (stream_after (deciphered plain s0) s1)) by (unfold all; rewrite deciphered_app; unfold s0, s1; by rewrite Hu).
    destruct (takes_response (H4 := cryption_at all s1) c s header Hok Hh (mkCryption s1 r) (deciphered rest (stream_after (deciphered plain s0) s1))) as (d' & E & Hwf' & He' & Hc').
    + split; [done|]. exists []. cbn [c_reader c_stream]. split; [by rewrite Hcont|]. unfold stream_after. by rewrite xor_nil.
    + cbn [rd_content cryption_at c_reader c_stream]. by rewrite Hcont.
    + cbn [rd_content rd_wf cryption_at] in Hwf', Hc'. destruct (stands_left all s1 d' (length (deciphered plain s0)) Hwf') as [Hleft Hstream].
      * rewrite Hc', deciphered_length. unfold all. rewrite length_app. lia.
      * unfold all. rewrite length_app. lia.
      * unfold all in Hleft, Hstream. rewrite drop_app_length in Hleft. rewrite take_app_length in Hstream. cbn [rd_end cryption_at c_reader] in He'.
        unfold DecodeResponseHeader, mbind, st_bind. rewrite Hc. unfold fields_legacy. rewrite Hr. fold keys s1.
        assert (E' : response_fields c (mkCryption s1 r) = (d', Ok header)) by exact E. rewrite E'. eexists _, _. split; [done|]. split; [exact (proj1 Hwf')|]. split; [exact He'|]. split; [exact Hleft|].
        unfold set_responseReader. rewrite Hc, Hr, Hstream, ?Hk, ?Hh, ?Ha, ?Hcat. fold keys. apply response_bodies; [exact Hiv|]. by apply undone_on.
Qed.

End Arrives.
End Responses.

(** ** Sessions of one user *)
Module DemoVmess.
Import DemoCrypto.
#[local] Instance xor_stream : Stream bytes := fun d key => (key, map (fun b => z2b (Z.lxor (b2z (hd x00 key)) (b2z b))) d).
#[local] Instance xor_ok : StreamOk bytes.
Proof. split; intros; unfold XORKeyStream, xor_stream; [done|by rewrite map_app|apply length_map]. Qed.

Lemma xor_byte a b : z2b (Z.lxor (b2z a) (b2z (z2b (Z.lxor (b2z a) (b2z b))))) = b.
Proof.
  pose proof (b2z_range a). pose proof (b2z_range b).
  pose proof (lxor_bits 8 (b2z a) (b2z b) ltac:(lia) ltac:(change (2 ^ 8) with 256; lia) ltac:(change (2 ^ 8) with 256; lia)) as Hr. change (2 ^ 8) with 256 in Hr.
  rewrite z2b_small, lxor_again by lia. apply z2b_b2z.
Qed.

Lemma xor_undone : undone (C := bytes) (T := bytes) (K := nat) (G := nat).
Proof.
  intros key iv d. unfold deciphered, XORKeyStream, xor_stream. cbn [snd NewAesEncryptionStream NewAesDecryptionStream demo_crypto].
  rewrite map_map. induction d as [|b d IH]; [done|]. cbn [map]. by rewrite xor_byte, IH.
Qed.

#[local] Instance demo_rand : Rand Z := {| NewSource seed := seed; Intn n g := (g + 1, g mod n) |}.

Definition demo_id : ID := NewID md5 (map z2b (seqZ 1 16)).
Definition demo_account : MemoryAccount := {| ID_ := demo_id; AlterIDs := []; Security := 3; AuthenticatedLengthExperiment := false; NoTerminationSignal := false |}.
Definition demo_user : User := {| Headers.Email := lit "a@b"; Headers.Level := 0; Headers.Account := Some demo_account |}.
Definition demo_keys : Keys := {| bodyKey := map z2b (seqZ 20 16); bodyIV := map z2b (seqZ 40 16) |}.
Definition demo_client (aead : bool) : ClientSession (T := bytes) := mkClient aead demo_keys (response_keys aead demo_keys) None x07 NopDrainer.
Definition demo_address : Address := ipv4Address (map z2b [10; 0; 0; 1]).
Definition demo_request : Request :=
  {| Headers.Version := 1; Headers.Command := 1; Headers.Option := 5; Headers.Security := 3; Headers.RPort := 443; Headers.RAddress := Some demo_address; Headers.User := Some demo_user |}.
Definition demo_rolls : Rolls := mkRolls 990 0 (map z2b [1; 2; 3]) 1000 (map z2b [9; 8; 7; 6]) (map z2b (seqZ 60 8)).
Definition demo_validator : TimedUserValidator (list bytes) := (Add (fun z d => z) 1000 demo_user (NewTimedUserValidator 760)).1.
Definition demo_wire (aead : bool) : bytes := concat (sent (EncodeRequestHeader (demo_client aead) demo_request demo_rolls sink_empty).1).
Definition demo_world (d : bytes) : World (F := list bytes) conn Z := mkWorld demo_validator ∅ (conn_of (d ++ lit "rest")) 3.
Definition demo_items : list (bytes * User) := [(cmdKey demo_id, demo_user)].

Lemma demo_ok aead : request_ok (demo_client aead) demo_request demo_address (padding_ demo_rolls).
Proof. destruct aead; (split; try (vm_compute; intuition congruence)). Qed.

Lemma demo_written aead d : writes (EncodeRequestHeader (demo_client aead) demo_request demo_rolls : ST sink unit) d tt -> demo_wire aead = d.
Proof. intros Hw. destruct (Hw sink_empty 0) as (w & E & [Hd _] & _); [done|done|]. unfold demo_wire. rewrite E. exact Hd. Qed.

Lemma demo_rolls_ok : rolls_ok demo_rolls 1010.
Proof. split; [done|done|cbn; lia| |cbn; lia]. vm_compute. split; [discriminate|done]. Qed.

Lemma demo_decoders : decoders (aeadDecoderHolder demo_validator) = {[ cmdKey demo_id := demo_user ]}.
Proof.
  assert (E : (Add (fun z d => z) 1000 demo_user (NewTimedUserValidator 760 : TimedUserValidator (list bytes))).2 = Ok tt) by (vm_compute; reflexivity).
  unfold demo_validator. unfold Add in E |- *. destruct (generateNewHashes _ _ _ _) as [[m u]|?|]; [|discriminate E..].
  cbn [demo_user Headers.Account fst aeadDecoderHolder decoders AddUser NewTimedUserValidator NewAuthIDDecoderHolder demo_account ID_]. apply insert_empty.
Qed.

Lemma demo_admitted authID : (Check authID 1010 (filter (aeadDecoderHolder demo_validator))).2 = true ->
  admitted 1010 demo_items demo_account demo_user authID demo_validator.
Proof.
  intros Hf. split; rewrite ?demo_decoders; [apply lookup_singleton_eq| |by rewrite map_to_list_singleton|exact Hf].
  intros key' u Hl _. rewrite demo_decoders in Hl. by apply lookup_singleton_Some in Hl as [<- _].
Qed.

Lemma vmess_request_arrives_witness :
  exists s' w', DecodeRequestHeader 1010 5 demo_items (NewServerSession true, demo_world (demo_wire true)) = ((s', w'), Ok (received demo_request demo_user demo_address)) /\
    s_request s' = demo_keys /\ rd_content (reader w') = lit "rest".
Proof.
  destruct (vmess_request_arrives (W := sink) (demo_client true) demo_request demo_address demo_rolls demo_user demo_account demo_user demo_account 1010 5 demo_items
    (NewServerSession true) (demo_world (demo_wire true))) as (d & Hw & Hd).
  - reflexivity.
  - exact (demo_ok true).
  - exact demo_rolls_ok.
  - reflexivity.
  - reflexivity.
  - apply demo_admitted. vm_compute. reflexivity.
  - reflexivity.
  - reflexivity.
  - intros e He. cbn in He. by rewrite lookup_empty in He.
  - done.
  - destruct (Hd (lit "rest")) as (s' & w' & E & (Hk & _) & _ & _ & _ & Hc & _).
    + rewrite <- (demo_written true d Hw). apply app_nil_r.
    + exists s', w'. split; [exact E|]. split; [exact Hk|exact Hc].
Defined.

Lemma vmess_legacy_request_arrives_witness :
  exists s' w', DecodeRequestHeader 1010 5 demo_items (NewServerSession false, demo_world (demo_wire false)) = ((s', w'), Ok (received demo_request demo_user demo_address)) /\
    s_request s' = demo_keys /\ rd_content (reader w') = lit "rest".
Proof.
  destruct (vmess_legacy_request_arrives (W := sink) (demo_client false) demo_request demo_address demo_rolls demo_user demo_account demo_user demo_account demo_id 1010 5 demo_items
    (NewServerSession false) (demo_world (demo_wire false))) as (d & Hw & Hd).
  - reflexivity.
  - exact (demo_ok false).
  - reflexivity.
  - reflexivity.
  - reflexivity.
  - exact xor_undone.
  - reflexivity.
  - reflexivity.
  - intros key t Hin. apply list_elem_of_singleton in Hin as [= -> ->]. vm_compute. reflexivity.
  - vm_compute. reflexivity.
  - reflexivity.
  - reflexivity.
  - intros e He. cbn in He. by rewrite lookup_empty in He.
  - done.
  - destruct (Hd (lit "rest")) as (s' & w' & E & (Hk & _) & _ & _ & _ & Hc).
    + rewrite <- (demo_written false d Hw). apply app_nil_r.
    + exists s', w'. split; [exact E|]. split; [exact Hk|exact Hc].
Defined.

(** Two requests of the user, with other keys, half a minute apart. *)
Definition other_client : ClientSession (T := bytes) :=
  mkClient true {| bodyKey := map z2b (seqZ 21 16); bodyIV := map z2b (seqZ 40 16) |} (response_keys true demo_keys) None x07 NopDrainer.
Definition other_rolls : Rolls := mkRolls 990 0 [] 1035 (map z2b [5; 8; 7; 6]) (map z2b (seqZ 80 8)).
Definition other_wire : bytes := concat (sent (EncodeRequestHeader other_client demo_request other_rolls sink_empty).1).
Definition next_world (w : World (F := list bytes) conn Z) : World (F := list bytes) conn Z :=
  mkWorld (userValidator w) (sessionHistory w) (conn_of other_wire) 3.
Definition demo_received : Request := received demo_request demo_user demo_address.

Lemma both_taken : exists s1 w1 s2 w2,
  DecodeRequestHeader 1010 5 demo_items (NewServerSession true, demo_world (demo_wire true)) = ((s1, w1), Ok demo_received) /\
  DecodeRequestHeader 1040 5 demo_items (NewServerSession true, next_world w1) = ((s2, w2), Ok demo_received).
Proof.
  assert (H2 : (DecodeRequestHeader 1040 5 demo_items (NewServerSession true,
    next_world (DecodeRequestHeader 1010 5 demo_items (NewServerSession true, demo_world (demo_wire true))).1.2)).2 = Ok demo_received) by (vm_compute; reflexivity).
  assert (H1 : (DecodeRequestHeader 1010 5 demo_items (NewServerSession true, demo_world (demo_wire true))).2 = Ok demo_received) by (vm_compute; reflexivity).
  destruct (DecodeRequestHeader 1010 5 demo_items (NewServerSession true, demo_world (demo_wire true))) as [[s1 w1] x1]. cbn [fst snd] in *. exists s1, w1.
  destruct (DecodeRequestHeader 1040 5 demo_items (NewServerSession true, next_world w1)) as [[s2 w2] x2]. cbn [snd] in H2. exists s2, w2. by rewrite H1, H2.
Qed.

Lemma vmess_admission_witness :
  exists user account aead, Headers.User demo_received = Some user /\ Headers.Account user = Some account /\
    let_in 1010 demo_items true aead demo_validator (take 16 (demo_wire true ++ lit "rest")) user.
Proof.
  destruct both_taken as (s1 & w1 & _ & _ & E1 & _).
  destruct (vmess_admission 1010 5 demo_items (NewServerSession true) (demo_world (demo_wire true)) s1 w1 demo_received) as (user & account & aead & Hu & Ha & Hl & _).
  - done.
  - exact E1.
  - exists user, account, aead. split; [exact Hu|]. split; [exact Ha|]. rewrite <- (app_nil_r (demo_wire true ++ lit "rest")). exact Hl.
Defined.

Lemma vmess_session_once_witness : exists s1 w1 s2 w2,
  DecodeRequestHeader 1010 5 demo_items (NewServerSession true, demo_world (demo_wire true)) = ((s1, w1), Ok demo_received) /\
  DecodeRequestHeader 1040 5 demo_items (NewServerSession true, next_world w1) = ((s2, w2), Ok demo_received) /\
  (uuid demo_id, s_request s1) <> (uuid demo_id, s_request s2).
Proof.
  destruct both_taken as (s1 & w1 & s2 & w2 & E1 & E2). exists s1, w1, s2, w2. split; [exact E1|]. split; [exact E2|].
  apply (vmess_session_once 1010 5 demo_items (NewServerSession true) (demo_world (demo_wire true)) s1 w1 demo_received
    1040 5 demo_items (NewServerSession true) (next_world w1) s2 w2 demo_received demo_user demo_account demo_user demo_account).
  - done.
  - exact E1.
  - apply (passes_time _ _ 1010); [apply passes_none|lia].
  - lia.
  - done.
  - exact E2.
  - reflexivity.
  - reflexivity.
  - reflexivity.
  - reflexivity.
Defined.

(** A response with a command. *)
Definition demo_command : CommandSwitchAccount :=
  {| c_Host := Some (domainAddress (lit "example.com")); c_Port := 8443; c_ID := map z2b (seqZ 1 16); c_Level := 1; c_AlterIds := 4; c_ValidMin := x0a |}.
Definition demo_response : ResponseHeader := {| r_Option := 1; r_Command := Some demo_command |}.
Definition demo_server (aead : bool) : ServerSession (T := bytes) := mkServer demo_keys zero_keys None x07 aead false.
Definition response_run (aead : bool) := EncodeResponseHeader demo_response (demo_server aead) sink_empty.
Definition response_arrives_to (aead : bool) : Prop :=
  exists c' r', DecodeResponseHeader (demo_client aead, conn_of (concat (sent (response_run aead).1) ++ lit "body")) = ((c', r'), Ok demo_response) /\ rd_content r' = lit "body".

End DemoVmess.
