(* ===== verification/Pipe.v ===== *)
(** * Package transport/pipe: the pipe between two goroutines

    [Module Pipe] models transport/pipe/impl.go: a buffer with a size limit
    between any number of writers and a reader, each a thread with a program
    counter.  What runs under the lock is one step; the signals (channels of
    capacity one) and the selects are steps of their own, so that every
    interleaving of the code is a run of the model. *)
From S2P Require Import Prelude GoStd Buf MultiBuf BufReader.
Import Buf MultiBuf BufReader.

Module Pipe.

Inductive pstate := open | closed | errord.
#[export] Instance pstate_eq_dec : EqDecision pstate.
Proof. solve_decision. Defined.

Record pipeOption := mkOption { limit : Z (* int32 *); discardOverflow : bool }.

Definition isFull (o : pipeOption) (curSize : Z) : bool := (0 <=? limit o) && (limit o <? curSize).

(** [data] is nil when it is empty; a signal is a channel that holds at most one
    token; [done] is the closed channel. *)
Record pipe := mkPipe {
  data : MultiBuffer;
  readSignal : bool;
  writeSignal : bool;
  done : bool;
  option : pipeOption;
  state : pstate;
}.

Definition errBufferFull : error := NewError "buffer full".
Definition errSlowDown : error := NewError "slow down".
Definition ErrReadTimeout : error := NewError "IO timeout".

(** The options of [New] and the pipe they make. *)
Definition WithoutSizeLimit (o : pipeOption) : pipeOption :=
  {| limit := -1; discardOverflow := discardOverflow o |}.
Definition WithSizeLimit (l : Z) (o : pipeOption) : pipeOption :=
  {| limit := l; discardOverflow := discardOverflow o |}.
Definition DiscardOverflow (o : pipeOption) : pipeOption :=
  {| limit := limit o; discardOverflow := true |}.
Definition New (opts : list (pipeOption -> pipeOption)) : pipe :=
  {| data := []; readSignal := false; writeSignal := false; done := false;
     option := fold_left (fun o f => f o) opts {| limit := -1; discardOverflow := false |}; state := open |}.

Definition getState (p : pipe) (forRead : bool) : Datatypes.option error :=
  match state p with
  | open => if negb forRead && isFull (option p) (MultiBuf.Len (data p)) then Some errBufferFull else None
  | closed =>
    if negb forRead then Some ErrClosedPipe
    else if negb (MultiBuf.IsEmpty (data p)) then None else Some EOF
  | errord => Some ErrClosedPipe
  end.

Definition set_data (d : MultiBuffer) (p : pipe) : pipe :=
  {| data := d; readSignal := readSignal p; writeSignal := writeSignal p; done := done p;
     option := option p; state := state p |}.

Definition readMultiBufferInternal (p : pipe) : pipe * res MultiBuffer :=
  match getState p true with
  | Some e => (p, Err e)
  | None => (set_data [] p, Ok (data p))
  end.

Definition writeMultiBufferInternal (mb : MultiBuffer) (p : pipe) : pipe * Datatypes.option error :=
  match getState p false with
  | Some e => (p, Some e)
  | None =>
    match data p with
    | [] => (set_data mb p, None)
    | d => (set_data (MergeMulti d mb).1 p, Some errSlowDown)
    end
  end.

(** [Signal()] of the two notifiers, and a receive from them. *)
Definition set_readSignal (b : bool) (p : pipe) : pipe :=
  {| data := data p; readSignal := b; writeSignal := writeSignal p; done := done p;
     option := option p; state := state p |}.
Definition set_writeSignal (b : bool) (p : pipe) : pipe :=
  {| data := data p; readSignal := readSignal p; writeSignal := b; done := done p;
     option := option p; state := state p |}.

Definition Close (p : pipe) : pipe :=
  match state p with
  | open => {| data := data p; readSignal := readSignal p; writeSignal := writeSignal p; done := true;
               option := option p; state := closed |}
  | _ => p
  end.

Definition Interrupt (p : pipe) : pipe :=
  match state p with
  | open => {| data := if negb (MultiBuf.IsEmpty (data p)) then [] else data p;
               readSignal := readSignal p; writeSignal := writeSignal p; done := true;
               option := option p; state := errord |}
  | _ => p
  end.

(** ** Threads *)

(** A call of [WriteMultiBuffer]: about to take the lock, about to signal the
    reader and return, in the select, returned. *)
Inductive wpc :=
  | WTry (mb : MultiBuffer)
  | WNotify (e : Datatypes.option error)
  | WWait (mb : MultiBuffer)
  | WRet (e : Datatypes.option error).

Definition WriteMultiBuffer (mb : MultiBuffer) : wpc :=
  if MultiBuf.IsEmpty mb then WRet None else WTry mb.

(** The body of the loop, up to the signal, the select or the return. *)
Definition write_try (mb : MultiBuffer) (p : pipe) : pipe * wpc :=
  match writeMultiBufferInternal mb p with
  | (p, None) => (p, WNotify None)
  | (p, Some e) =>
    if bool_decide (e = errSlowDown) then (p, WNotify None)
    else if bool_decide (e = errBufferFull) && discardOverflow (option p) then (p, WRet None)
    else if negb (bool_decide (e = errBufferFull)) then (p, WNotify (Some e))
    else (p, WWait mb)
  end.

(** A call of [ReadMultiBuffer], or of [ReadMultiBufferTimeout] when [timed]. *)
Inductive rpc :=
  | RTry (timed : bool)
  | RNotify (x : res MultiBuffer)
  | RWait (timed : bool)
  | RRet (x : res MultiBuffer).

Definition read_try (timed : bool) (p : pipe) : pipe * rpc :=
  match readMultiBufferInternal p with
  | (p, Ok []) => (p, RWait timed)
  | (p, x) => (p, RNotify x)
  end.

(** A pipe with its threads; [accepted] and [delivered] record what the writes
    put into the buffer and what the reads took out. *)
Record config := mkConfig {
  the_pipe : pipe;
  writers : list wpc;
  reader : rpc;
  accepted : bytes;
  delivered : bytes;
}.

Definition content_of (x : res MultiBuffer) : bytes := match x with Ok mb => mb_content mb | _ => [] end.

(** What a write accepted: the difference its step made. *)
Definition takes (mb : MultiBuffer) (p : pipe) : bool := bool_decide (getState p false = None).

(** The steps of the writer [i]. *)
Inductive wstep (i : nat) : config -> config -> Prop :=
  | w_try c mb p' pc :
      writers c !! i = Some (WTry mb) -> write_try mb (the_pipe c) = (p', pc) ->
      wstep i c {| the_pipe := p'; writers := <[i := pc]> (writers c); reader := reader c;
                   accepted := if takes mb (the_pipe c) then accepted c ++ mb_content mb else accepted c;
                   delivered := delivered c |}
  | w_notify c e :
      writers c !! i = Some (WNotify e) ->
      wstep i c {| the_pipe := set_readSignal true (the_pipe c); writers := <[i := WRet e]> (writers c);
                   reader := reader c; accepted := accepted c; delivered := delivered c |}
  | w_wake c mb :
      writers c !! i = Some (WWait mb) -> writeSignal (the_pipe c) = true ->
      wstep i c {| the_pipe := set_writeSignal false (the_pipe c); writers := <[i := WTry mb]> (writers c);
                   reader := reader c; accepted := accepted c; delivered := delivered c |}
  | w_done c mb :
      writers c !! i = Some (WWait mb) -> done (the_pipe c) = true ->
      wstep i c {| the_pipe := the_pipe c; writers := <[i := WRet (Some ErrClosedPipe)]> (writers c);
                   reader := reader c; accepted := accepted c; delivered := delivered c |}.

(** The steps of the reader inside a call. *)
Inductive rstep : config -> config -> Prop :=
  | r_try c t p' pc :
      reader c = RTry t -> read_try t (the_pipe c) = (p', pc) ->
      rstep c {| the_pipe := p'; writers := writers c; reader := pc; accepted := accepted c;
                 delivered := delivered c ++ content_of (readMultiBufferInternal (the_pipe c)).2 |}
  | r_notify c x :
      reader c = RNotify x ->
      rstep c {| the_pipe := set_writeSignal true (the_pipe c); writers := writers c; reader := RRet x;
                 accepted := accepted c; delivered := delivered c |}
  | r_wake c t :
      reader c = RWait t -> readSignal (the_pipe c) = true ->
      rstep c {| the_pipe := set_readSignal false (the_pipe c); writers := writers c; reader := RTry t;
                 accepted := accepted c; delivered := delivered c |}
  | r_done c t :
      reader c = RWait t -> done (the_pipe c) = true ->
      rstep c {| the_pipe := the_pipe c; writers := writers c; reader := RTry t;
                 accepted := accepted c; delivered := delivered c |}.

(** What the owners of the two ends do: calls, the timer, [Close], [Interrupt]. *)
Inductive estep (M : Z) : config -> config -> Prop :=
  | e_write c mb :
      tidy_mb mb -> zlen (mb_content mb) <= M ->
      estep M c {| the_pipe := the_pipe c; writers := writers c ++ [WriteMultiBuffer mb]; reader := reader c;
                   accepted := accepted c; delivered := delivered c |}
  | e_read c x t :
      reader c = RRet x ->
      estep M c {| the_pipe := the_pipe c; writers := writers c; reader := RTry t;
                   accepted := accepted c; delivered := delivered c |}
  | e_timer c :
      reader c = RWait true ->
      estep M c {| the_pipe := the_pipe c; writers := writers c; reader := RRet (Err ErrReadTimeout);
                   accepted := accepted c; delivered := delivered c |}
  | e_close c :
      estep M c {| the_pipe := Close (the_pipe c); writers := writers c; reader := reader c;
                   accepted := accepted c; delivered := delivered c |}
  | e_interrupt c :
      estep M c {| the_pipe := Interrupt (the_pipe c); writers := writers c; reader := reader c;
                   accepted := accepted c; delivered := delivered c |}.

Definition istep (c c' : config) : Prop := (exists i, wstep i c c') \/ rstep c c'.
Definition step (M : Z) (c c' : config) : Prop := istep c c' \/ estep M c c'.

Definition config0 (opts : list (pipeOption -> pipeOption)) : config :=
  {| the_pipe := New opts; writers := []; reader := RRet (Ok []); accepted := []; delivered := [] |}.

Definition reachable (M : Z) (opts : list (pipeOption -> pipeOption)) : config -> Prop := rtc (step M) (config0 opts).

Definition waits (pc : wpc) : Prop := match pc with WWait _ => True | _ => False end.
Definition tries (pc : wpc) : Prop := match pc with WTry _ => True | _ => False end.
Definition notifies (pc : wpc) : Prop := match pc with WNotify _ => True | _ => False end.

(** The invariant of a pipe whose limit is [limit] and whose writes have at most
    [M] bytes. *)
Record pipe_ok (M : Z) (c : config) : Prop := {
  ok_done : done (the_pipe c) = negb (bool_decide (state (the_pipe c) = open));
  ok_tidy : Forall tidy (data (the_pipe c));
  ok_limit : 0 <= M /\ (0 <= limit (option (the_pipe c)) -> limit (option (the_pipe c)) + M < 2 ^ 31);
  ok_fits : 0 <= limit (option (the_pipe c)) -> zlen (mb_content (data (the_pipe c))) <= limit (option (the_pipe c)) + M;
  ok_pc : Forall (fun pc => match pc with
                            | WTry mb | WWait mb => tidy_mb mb /\ mb <> [] /\ zlen (mb_content mb) <= M
                            | _ => True
                            end) (writers c);
  ok_fifo : if bool_decide (state (the_pipe c) = errord) then delivered c `prefix_of` accepted c
            else accepted c = delivered c ++ mb_content (data (the_pipe c));
  ok_reader : data (the_pipe c) <> [] -> (exists t, reader c = RWait t) -> done (the_pipe c) = false ->
              readSignal (the_pipe c) = true \/ Exists notifies (writers c);
  ok_writer : Exists waits (writers c) -> done (the_pipe c) = false ->
              data (the_pipe c) <> [] \/ writeSignal (the_pipe c) = true \/ (exists x, reader c = RNotify x) \/
              Exists tries (writers c);
}.

End Pipe.
Import Pipe.

Lemma tidy_app a b : Forall tidy a -> Forall tidy b -> Forall tidy (a ++ b).
Proof. intros. by apply Forall_app. Qed.

Lemma tidy_IsEmpty_nil d : Forall tidy d -> MultiBuf.IsEmpty d = true <-> d = [].
Proof. intros Ht. rewrite (tidy_IsEmpty d Ht). apply bool_decide_eq_true. Qed.

(** What taking the lock does, in each state. *)
Lemma getState_read p : Forall tidy (data p) ->
  getState p true =
  match state p with
  | open => None
  | closed => if decide (data p = []) then Some EOF else None
  | errord => Some ErrClosedPipe
  end.
Proof.
  intros Ht. unfold getState. destruct (state p); [done| |done]. cbn [negb]. rewrite (tidy_IsEmpty _ Ht).
  by destruct (decide (data p = [])) as [E|E]; [rewrite bool_decide_true|rewrite bool_decide_false].
Qed.

Lemma getState_write p :
  getState p false =
  match state p with
  | open => if isFull (option p) (MultiBuf.Len (data p)) then Some errBufferFull else None
  | _ => Some ErrClosedPipe
  end.
Proof. by destruct p as [? ? ? ? ? []]. Qed.

(** The outcomes of one round of a writer. *)
Lemma write_try_cases mb p p' pc :
  write_try mb p = (p', pc) ->
  (getState p false = None /\ p' = set_data (data p ++ mb) p /\ pc = WNotify None) \/
  (state p = open /\ isFull (option p) (MultiBuf.Len (data p)) = true /\ p' = p /\ (pc = WRet None \/ pc = WWait mb)) \/
  (state p <> open /\ p' = p /\ pc = WNotify (Some ErrClosedPipe)).
Proof.
  unfold write_try, writeMultiBufferInternal. rewrite getState_write. destruct (state p) eqn:Es.
  - destruct (isFull _ _) eqn:Ef.
    + rewrite bool_decide_false by done. rewrite bool_decide_true by done. cbn [andb negb].
      intros E. right. left. destruct (discardOverflow (option p)); injection E as <- <-; naive_solver.
    + destruct (data p) as [|x d] eqn:Ed; [|rewrite bool_decide_true by done]; intros [= <- <-]; left; by rewrite ?Ed.
  - rewrite !bool_decide_false by done. cbn [andb negb]. intros [= <- <-]. right. right. by rewrite ?Es.
  - rewrite !bool_decide_false by done. cbn [andb negb]. intros [= <- <-]. right. right. by rewrite ?Es.
Qed.

(** The outcomes of one round of the reader. *)
Lemma read_try_cases t p p' pc :
  Forall tidy (data p) -> read_try t p = (p', pc) ->
  (state p <> errord /\ data p <> [] /\ p' = set_data [] p /\ pc = RNotify (Ok (data p)) /\
     (readMultiBufferInternal p).2 = Ok (data p)) \/
  (state p = open /\ data p = [] /\ p' = p /\ pc = RWait t /\ (readMultiBufferInternal p).2 = Ok []) \/
  (exists e, state p <> open /\ (state p = closed -> data p = [] /\ e = EOF) /\ p' = p /\ pc = RNotify (Err e) /\
     (readMultiBufferInternal p).2 = Err e).
Proof.
  intros Ht. unfold read_try, readMultiBufferInternal. rewrite (getState_read p Ht).
  assert (Hn : data p = [] -> set_data [] p = p) by (intros E; unfold set_data; rewrite <- E; by destruct p).
  destruct (state p) eqn:Es.
  - destruct (data p) as [|x d] eqn:Ed; intros [= <- <-]; [right; left|left]; cbn [snd]; rewrite ?Hn by done; done.
  - case_decide as Ed; intros E.
    + injection E as <- <-. right. right. exists EOF. done.
    + left. destruct (data p) as [|x d] eqn:Ed'; [done|]. injection E as <- <-. done.
  - intros [= <- <-]. right. right. exists ErrClosedPipe. split; [done|]. done.
Qed.

Lemma isFull_data o d : Forall tidy d -> isFull o (MultiBuf.Len d) = true -> d <> [].
Proof. intros Ht E ->. unfold isFull in E. change (MultiBuf.Len []) with 0 in E. lia. Qed.

(** Replacing the program counter of one thread. *)
Lemma Exists_insert (P : wpc -> Prop) (l : list wpc) i x :
  (i < length l)%nat -> P x -> Exists P (<[i := x]> l).
Proof. intros Hi Hx. apply Exists_exists. exists x. split; [|done]. eapply list_elem_of_lookup_2, list_lookup_insert_eq, Hi. Qed.

Lemma Exists_insert_other (P : wpc -> Prop) (l : list wpc) i x y :
  l !! i = Some y -> ~ P y -> Exists P l -> Exists P (<[i := x]> l).
Proof.
  intros Hi Hy Hex. apply Exists_exists in Hex as (z & Hz & HP). apply list_elem_of_lookup in Hz as [k Hk].
  apply Exists_exists. exists z. split; [|done]. apply list_elem_of_lookup. exists k.
  rewrite list_lookup_insert_ne; [done|]. intros <-. congruence.
Qed.

Ltac other := eapply Exists_insert_other; [eassumption|intros []|eassumption].

Lemma Exists_insert_inv (P : wpc -> Prop) (l : list wpc) i x :
  ~ P x -> Exists P (<[i := x]> l) -> Exists P l.
Proof.
  intros Hx Hex. apply Exists_exists in Hex as (z & Hz & HP). apply list_elem_of_lookup in Hz as [k Hk].
  destruct (decide (i = k)) as [<-|Hne].
  - apply list_lookup_insert_Some in Hk as [(_ & <- & _)|[? _]]; done.
  - rewrite list_lookup_insert_ne in Hk by done. apply Exists_exists. exists z. split; [|done].
    by eapply list_elem_of_lookup_2.
Qed.

Definition pc_ok (M : Z) (pc : wpc) : Prop :=
  match pc with
  | WTry mb | WWait mb => tidy_mb mb /\ mb <> [] /\ zlen (mb_content mb) <= M
  | _ => True
  end.

Lemma not_full_len M c :
  pipe_ok M c -> isFull (option (the_pipe c)) (MultiBuf.Len (data (the_pipe c))) = false ->
  0 <= limit (option (the_pipe c)) -> zlen (mb_content (data (the_pipe c))) <= limit (option (the_pipe c)).
Proof.
  intros Hok Hf Hl. destruct (ok_limit _ _ Hok) as [_ Hlim]. pose proof (ok_fits _ _ Hok Hl) as Hfit. specialize (Hlim Hl).
  rewrite Len_spec in Hf by (apply tidy_wf, Hok || lia). unfold isFull in Hf. lia.
Qed.

Lemma wstep_ok M i c c' : pipe_ok M c -> wstep i c c' -> pipe_ok M c'.
Proof.
  intros Hok Hs. pose proof Hok as [Hd Ht Hlim Hfit Hpc Hfifo Hrd Hwr].
  assert (Hset : forall pc, pc_ok M pc -> Forall (pc_ok M) (<[i := pc]> (writers c))).
  { intros pc Hp. by apply Forall_insert. }
  destruct Hs as [c mb p' pc Hi Htry|c e Hi|c mb Hi Hsig|c mb Hi Hdn].
  - pose proof (lookup_lt_Some _ _ _ Hi) as Hlt.
    assert (Hmb : pc_ok M (WTry mb)) by (rewrite Forall_lookup in Hpc; exact (Hpc i _ Hi)). destruct Hmb as ([Hmt Hml] & Hne & HmM).
    unfold takes. destruct (write_try_cases mb _ _ _ Htry) as [(Hg & -> & ->)|[(Ho & Hf & -> & Hcase)|(Ho & -> & ->)]].
    + rewrite bool_decide_true by done. rewrite getState_write in Hg.
      destruct (state (the_pipe c)) eqn:Es; [|done|done]. destruct (isFull _ _) eqn:Ef; [done|].
      split; cbn [the_pipe set_data data option done state writers reader accepted delivered readSignal writeSignal].
      * by rewrite Hd, Es.
      * by apply tidy_app.
      * done.
      * intros Hl. rewrite mb_content_app, zlen_app. pose proof (not_full_len M c Hok Ef Hl). lia.
      * by apply Hset.
      * rewrite Es in *. rewrite bool_decide_false in * by done. by rewrite Hfifo, mb_content_app, app_assoc.
      * intros _ _ _. right. by apply Exists_insert.
      * intros _ _. left. intros E. apply app_eq_nil in E as [_ E]. done.
    + rewrite bool_decide_false by (rewrite getState_write, Ho, Hf; done).
      assert (Hnn : data (the_pipe c) <> []) by (by eapply isFull_data).
      split; cbn [the_pipe writers reader accepted delivered]; [done|done|done|done| |done| |].
      * apply Hset. destruct Hcase as [->| ->]; [done|]. by split.
      * intros Hdn Hr Hdo. destruct (Hrd Hdn Hr Hdo) as [?|Hex]; [by left|right]. by other.
      * intros _ _. by left.
    + rewrite bool_decide_false by (rewrite getState_write; destruct (state (the_pipe c)); done).
      assert (Hdone : done (the_pipe c) = true) by (rewrite Hd, bool_decide_false by done; done).
      split; cbn [the_pipe writers reader accepted delivered]; [done|done|done|done| |done| |].
      * by apply Hset.
      * congruence.
      * congruence.
  - split; cbn [the_pipe set_readSignal data option done state writers reader accepted delivered readSignal writeSignal]; [done|done|done|done| |done| |].
    + by apply Hset.
    + intros _ _ _. by left.
    + intros Hex Hdo. apply Exists_insert_inv in Hex; [|by intros []].
      destruct (Hwr Hex Hdo) as [?|[?|[?|Htr]]]; [by left|by right; left|by right; right; left|].
      right. right. right. by other.
  - pose proof (lookup_lt_Some _ _ _ Hi) as Hlt.
    assert (Hmb : pc_ok M (WTry mb)) by (rewrite Forall_lookup in Hpc; exact (Hpc i _ Hi)).
    split; cbn [the_pipe set_writeSignal data option done state writers reader accepted delivered readSignal writeSignal]; [done|done|done|done| |done| |].
    + by apply Hset.
    + intros Hdn Hr Hdo. destruct (Hrd Hdn Hr Hdo) as [?|Hex]; [by left|right]. by other.
    + intros _ _. right. right. right. by apply Exists_insert.
  - split; cbn [the_pipe writers reader accepted delivered]; [done|done|done|done| |done| |].
    + by apply Hset.
    + congruence.
    + congruence.
Qed.

Lemma rstep_ok M c c' : pipe_ok M c -> rstep c c' -> pipe_ok M c'.
Proof.
  intros Hok Hs. pose proof Hok as [Hd Ht Hlim Hfit Hpc Hfifo Hrd Hwr].
  destruct Hs as [c t p' pc Hr Htry|c x Hr|c t Hr Hsig|c t Hr Hdn].
  - destruct (read_try_cases t _ _ _ Ht Htry) as [(Hne & Hdn & -> & -> & ->)|[(Ho & Hdn & -> & -> & ->)|(e & Ho & Hcl & -> & -> & ->)]]; cbn [content_of].
    + split; cbn [the_pipe set_data data option done state writers reader accepted delivered readSignal writeSignal]; [done|constructor|done| |done| | |].
      * intros Hl. change (zlen (mb_content [])) with 0. lia.
      * rewrite bool_decide_false in * by done. by rewrite Hfifo, app_nil_r.
      * done.
      * intros _ _. right. right. left. by eexists.
    + rewrite app_nil_r. split; cbn [the_pipe writers reader accepted delivered]; try done.
      intros Hex Hdo. destruct (Hwr Hex Hdo) as [?|[?|[[x Hx]|?]]]; [done|by right; left|congruence|by right; right; right].
    + rewrite app_nil_r. assert (Hdone : done (the_pipe c) = true) by (rewrite Hd, bool_decide_false by done; done).
      split; cbn [the_pipe writers reader accepted delivered]; try done; congruence.
  - split; cbn [the_pipe set_writeSignal data option done state writers reader accepted delivered readSignal writeSignal]; try done.
    + by intros _ [t Hx].
    + intros _ _. by right; left.
  - split; cbn [the_pipe set_readSignal data option done state writers reader accepted delivered readSignal writeSignal]; try done.
    + by intros _ [t' Hx].
    + intros Hex Hdo. destruct (Hwr Hex Hdo) as [?|[?|[[x Hx]|?]]]; [by left|by right; left|congruence|by right; right; right].
  - split; cbn [the_pipe writers reader accepted delivered]; try done; congruence.
Qed.

Lemma estep_ok M c c' : pipe_ok M c -> estep M c c' -> pipe_ok M c'.
Proof.
  intros Hok Hs. pose proof Hok as [Hd Ht Hlim Hfit Hpc Hfifo Hrd Hwr].
  destruct Hs as [c mb Hmb HM|c x t Hr|c Hr|c|c].
  - split; cbn [the_pipe writers reader accepted delivered]; try done.
    + apply Forall_app. split; [done|]. constructor; [|done]. unfold WriteMultiBuffer. rewrite (tidy_IsEmpty mb) by apply Hmb.
      destruct (bool_decide_reflect (mb = [])); [done|]. by split.
    + intros Hdn Hx Hdo. destruct (Hrd Hdn Hx Hdo) as [?|?]; [by left|right]. apply Exists_app. by left.
    + intros Hex Hdo. apply Exists_app in Hex as [Hex|Hex].
      * destruct (Hwr Hex Hdo) as [?|[?|[?|?]]]; [by left|by right; left|by right; right; left|].
        right. right. right. apply Exists_app. by left.
      * exfalso. apply Exists_exists in Hex as (z & Hz & Hw). apply list_elem_of_singleton in Hz as ->.
        unfold WriteMultiBuffer in Hw. by destruct (MultiBuf.IsEmpty mb).
  - split; cbn [the_pipe writers reader accepted delivered]; try done.
    + by intros _ [t' Hx].
    + intros Hex Hdo. destruct (Hwr Hex Hdo) as [?|[?|[[y Hy]|?]]]; [by left|by right; left|congruence|by right; right; right].
  - split; cbn [the_pipe writers reader accepted delivered]; try done.
    + by intros _ [t' Hx].
    + intros Hex Hdo. destruct (Hwr Hex Hdo) as [?|[?|[[y Hy]|?]]]; [by left|by right; left|congruence|by right; right; right].
  - unfold Close. destruct (state (the_pipe c)) eqn:Es; [|by destruct c|by destruct c].
    rewrite bool_decide_false in Hfifo by done.
    split; cbn [the_pipe data option done state writers reader accepted delivered readSignal writeSignal]; done.
  - unfold Interrupt. destruct (state (the_pipe c)) eqn:Es; [|by destruct c|by destruct c].
    rewrite bool_decide_false in Hfifo by done.
    split; cbn [the_pipe data option done state writers reader accepted delivered readSignal writeSignal]; try done.
    + destruct (MultiBuf.IsEmpty _); [done|constructor].
    + intros Hl. destruct (MultiBuf.IsEmpty _); [by apply Hfit|]. cbn [negb]. change (zlen (mb_content [])) with 0. lia.
    + rewrite bool_decide_true by done. rewrite Hfifo. apply prefix_app_r. done.
Qed.

Lemma pipe_step_ok M c c' : pipe_ok M c -> step M c c' -> pipe_ok M c'.
Proof. intros Hok [[[i Hs]|Hs]|Hs]; [by eapply wstep_ok|by eapply rstep_ok|by eapply estep_ok]. Qed.

Definition limit_of (opts : list (pipeOption -> pipeOption)) : Z := limit (option (New opts)).

Lemma config0_ok M opts :
  0 <= M -> (0 <= limit_of opts -> limit_of opts + M < 2 ^ 31) -> pipe_ok M (config0 opts).
Proof.
  intros HM Hl. split; cbn [config0 the_pipe New data option done state writers reader accepted delivered readSignal writeSignal]; try done.
  - intros Hl0. change (zlen (mb_content [])) with 0. change (0 <= limit_of opts + M). change (0 <= limit_of opts) in Hl0. lia.
  - intros Hex. by apply Exists_nil in Hex.
Qed.

Lemma reachable_ok M opts c :
  0 <= M -> (0 <= limit_of opts -> limit_of opts + M < 2 ^ 31) -> reachable M opts c -> pipe_ok M c.
Proof.
  intros HM Hl Hr. assert (Hgen : forall c1 c2, rtc (step M) c1 c2 -> pipe_ok M c1 -> pipe_ok M c2).
  { clear. intros c1 c2 Hs. induction Hs as [|x y z Hxy _ IH]; [done|]. intros Hx. apply IH. by eapply pipe_step_ok. }
  apply (Hgen _ _ Hr). by apply config0_ok.
Qed.

(** ** No call spins *)
Definition wweight (pc : wpc) : nat :=
  match pc with WTry _ => 4 | WNotify _ => 3 | WWait _ => 3 | WRet _ => 0 end.

Definition rweight (d : bool) (pc : rpc) : nat :=
  match pc with RTry _ => 5 | RNotify _ => 3 | RWait _ => if d then 6 else 4 | RRet _ => 0 end.

Definition weight (c : config) : nat :=
  sum_list_with wweight (writers c) + rweight (done (the_pipe c)) (reader c) +
  (if readSignal (the_pipe c) then 2 else 0) + (if writeSignal (the_pipe c) then 2 else 0).

Lemma sum_insert (f : wpc -> nat) (l : list wpc) i x y :
  l !! i = Some x -> (sum_list_with f (<[i := y]> l) + f x = sum_list_with f l + f y)%nat.
Proof.
  revert i. induction l as [|z l IH]; intros [|i]; cbn; [done|done| |].
  - intros [= ->]. lia.
  - intros Hi. specialize (IH i Hi).
    change (f z + sum_list_with f (<[i := y]> l) + f x = f z + sum_list_with f l + f y)%nat. lia.
Qed.

Lemma istep_weight M c c' : pipe_ok M c -> istep c c' -> (weight c' < weight c)%nat.
Proof.
  intros Hok [[i Hs]|Hs]; unfold weight.
  - destruct Hs as [c mb p' pc Hi Htry|c e Hi|c mb Hi Hsig|c mb Hi Hdn]; cbn [the_pipe writers reader set_readSignal set_writeSignal readSignal writeSignal done].
    + pose proof (sum_insert wweight _ _ _ pc Hi) as Hsum.
      destruct (write_try_cases mb _ _ _ Htry) as [(_ & -> & ->)|[(_ & _ & -> & [->| ->])|(_ & -> & ->)]];
        cbn [wweight set_data readSignal writeSignal done] in *; lia.
    + pose proof (sum_insert wweight _ _ _ (WRet e) Hi) as Hsum. cbn [wweight] in Hsum. destruct (readSignal _); lia.
    + pose proof (sum_insert wweight _ _ _ (WTry mb) Hi) as Hsum. cbn [wweight] in Hsum. rewrite Hsig. lia.
    + pose proof (sum_insert wweight _ _ _ (WRet (Some ErrClosedPipe)) Hi) as Hsum. cbn [wweight] in Hsum. lia.
  - destruct Hs as [c t p' pc Hr Htry|c x Hr|c t Hr Hsig|c t Hr Hdn]; cbn [the_pipe writers reader set_readSignal set_writeSignal readSignal writeSignal done]; rewrite Hr.
    + pose proof (ok_done _ _ Hok) as Hd.
      destruct (read_try_cases t _ _ _ (ok_tidy _ _ Hok) Htry) as [(_ & _ & -> & -> & _)|[(Ho & _ & -> & -> & _)|(e & _ & _ & -> & -> & _)]];
        cbn [rweight set_data readSignal writeSignal done]; [lia| |lia].
      rewrite Hd, Ho, bool_decide_true by done. cbn [negb]. lia.
    + cbn [rweight]. destruct (writeSignal _); lia.
    + cbn [rweight]. rewrite Hsig. destruct (done _); lia.
    + cbn [rweight]. rewrite Hdn. lia.
Qed.

(** ** What keeps a pipe from making a step *)
Definition returned (pc : wpc) : Prop := match pc with WRet _ => True | _ => False end.

Lemma writer_moves c i pc :
  writers c !! i = Some pc -> (~ returned pc) -> (waits pc -> writeSignal (the_pipe c) = true \/ done (the_pipe c) = true) ->
  exists c', istep c c'.
Proof.
  intros Hi Hnr Hw. destruct pc as [mb|e|mb|e].
  - destruct (write_try mb (the_pipe c)) as [p' pc] eqn:E. eexists. left. exists i. by eapply w_try.
  - eexists. left. exists i. by eapply w_notify.
  - destruct (Hw Logic.I) as [Hs|Hs]; eexists; left; exists i; [by eapply w_wake|by eapply w_done].
  - by destruct Hnr.
Qed.

Lemma exists_moves c (P : wpc -> Prop) :
  Exists P (writers c) -> (forall pc, P pc -> ~ returned pc /\ ~ waits pc) -> exists c', istep c c'.
Proof.
  intros Hex HP. apply Exists_exists in Hex as (pc & Hin & Hpc). apply list_elem_of_lookup in Hin as [i Hi].
  destruct (HP pc Hpc) as [Hr Hw]. by apply (writer_moves c i pc Hi Hr).
Qed.

Lemma quiescent M c :
  pipe_ok M c -> (forall c', ~ istep c c') ->
  (exists x, reader c = RRet x) \/
  (exists t, reader c = RWait t) /\ data (the_pipe c) = [] /\ done (the_pipe c) = false /\ Forall returned (writers c).
Proof.
  intros Hok Hq. assert (Hstuck : ~ exists c', istep c c') by (intros [c' Hc']; by apply (Hq c')).
  destruct (reader c) as [t|x|t|x] eqn:Er; [exfalso|exfalso|right|left; by exists x].
  - apply Hstuck. destruct (read_try t (the_pipe c)) as [p' pc] eqn:E. eexists. right. by eapply r_try.
  - apply Hstuck. eexists. right. by eapply r_notify.
  - assert (Hdn : done (the_pipe c) = false).
    { destruct (done (the_pipe c)) eqn:Ed; [|done]. destruct Hstuck. eexists. right. by eapply r_done. }
    assert (Hrs : readSignal (the_pipe c) = false).
    { destruct (readSignal (the_pipe c)) eqn:Ed; [|done]. destruct Hstuck. eexists. right. by eapply r_wake. }
    assert (Hdata : data (the_pipe c) = []).
    { destruct (decide (data (the_pipe c) = [])) as [E|E]; [done|].
      destruct (ok_reader _ _ Hok E (ex_intro _ t Er) Hdn) as [?|Hex]; [congruence|]. destruct Hstuck.
      apply (exists_moves c notifies Hex). intros []; cbn; tauto. }
    split; [by exists t|]. split; [done|]. split; [done|].
    assert (Hnt : ~ Exists tries (writers c)) by (intros Hex; apply Hstuck, (exists_moves c tries Hex); intros []; cbn; tauto).
    assert (Hnw : ~ Exists waits (writers c)).
    { intros Hex. destruct (ok_writer _ _ Hok Hex Hdn) as [?|[Hs|[[x Hx]|Htr]]]; [done| |congruence|done].
      apply Exists_exists in Hex as (pc & Hin & Hpc). apply list_elem_of_lookup in Hin as [i Hi]. apply Hstuck.
      apply (writer_moves c i pc Hi); [destruct pc; try done; by intros []|by left]. }
    assert (Hnn : ~ Exists notifies (writers c)) by (intros Hex; apply Hstuck, (exists_moves c notifies Hex); intros []; cbn; tauto).
    apply Forall_forall. intros pc Hin. destruct pc as [mb|e|mb|e]; [| | |done].
    + destruct Hnt. apply Exists_exists. by exists (WTry mb).
    + destruct Hnn. apply Exists_exists. by exists (WNotify e).
    + destruct Hnw. apply Exists_exists. by exists (WWait mb).
Qed.

(** ** Theorems *)

(** C12. The pipe is a bounded first-in-first-out queue of bytes under every
    interleaving of its threads: until it is interrupted, what the writes put in
    is what the reads took out followed by what is in the buffer, also after
    [Close]; after an interrupt what was read is still a prefix of what was
    written; and with a size limit the buffer never holds more than the limit
    and one write. *)
Theorem pipe_fifo M opts c :
  0 <= M -> (0 <= limit_of opts -> limit_of opts + M < 2 ^ 31) -> reachable M opts c ->
  delivered c `prefix_of` accepted c /\
  (state (the_pipe c) <> errord -> accepted c = delivered c ++ mb_content (data (the_pipe c))) /\
  (0 <= limit (option (the_pipe c)) ->
     zlen (mb_content (data (the_pipe c))) <= limit (option (the_pipe c)) + M).
Proof.
  intros HM Hl Hr. pose proof (reachable_ok M opts c HM Hl Hr) as Hok. pose proof (ok_fifo _ _ Hok) as Hf.
  split; [|split; [|apply (ok_fits _ _ Hok)]].
  - destruct (bool_decide_reflect (state (the_pipe c) = errord)); [done|]. rewrite Hf. by apply prefix_app_r.
  - intros Hs. by rewrite bool_decide_false in Hf.
Qed.

(** C19. No wake-up is lost and no call spins: from every reachable state the
    threads inside their calls can make only boundedly many steps, and when none
    can move, either the reader's call has returned, or the pipe is open and
    empty and every write has returned - a reader never sleeps while there is
    data, and a writer never sleeps while a reader waits. *)
Theorem pipe_progress M opts c :
  0 <= M -> (0 <= limit_of opts -> limit_of opts + M < 2 ^ 31) -> reachable M opts c ->
  (forall n c', nsteps istep n c c' -> (n <= weight c)%nat) /\
  ((forall c', ~ istep c c') ->
   (exists x, reader c = RRet x) \/
   (exists t, reader c = RWait t) /\ data (the_pipe c) = [] /\ state (the_pipe c) = open /\
     Forall returned (writers c)).
Proof.
  intros HM Hl Hr. pose proof (reachable_ok M opts c HM Hl Hr) as Hok. split.
  - clear Hr. intros n c' Hn. revert Hok. induction Hn as [x|n x y z Hxy Hyz IH]; intros Hok; [lia|].
    pose proof (istep_weight M x y Hok Hxy). assert (n <= weight y)%nat; [|lia]. apply IH.
    eapply (pipe_step_ok M); [done|by left].
  - intros Hq. destruct (quiescent M c Hok Hq) as [?|(Ht & Hd & Hdn & Hw)]; [by left|right].
    split; [done|]. split; [done|]. split; [|done]. pose proof (ok_done _ _ Hok) as Hdo. rewrite Hdn in Hdo.
    destruct (bool_decide_reflect (state (the_pipe c) = open)); done.
Qed.

(** Closing loses nothing: in a closed pipe a read that is under way or
    begins returns - without waiting for anybody - everything that is left, and
    once nothing is left, io.EOF; and no write puts anything in. *)
Theorem closed_pipe_drains M opts c t :
  0 <= M -> (0 <= limit_of opts -> limit_of opts + M < 2 ^ 31) -> reachable M opts c ->
  state (the_pipe c) = closed -> reader c = RTry t \/ reader c = RWait t ->
  exists c', rtc rstep c c' /\ data (the_pipe c') = [] /\ delivered c' = accepted c' /\ accepted c' = accepted c /\
    reader c' = RRet (if decide (data (the_pipe c) = []) then Err EOF else Ok (data (the_pipe c))) /\
    forall i c2, wstep i c' c2 -> data (the_pipe c2) = [] /\ accepted c2 = accepted c'.
Proof.
  intros HM Hl Hr Hst Hrd. pose proof (reachable_ok M opts c HM Hl Hr) as Hok.
  assert (Htry : exists c1, rtc rstep c c1 /\ reader c1 = RTry t /\ the_pipe c1 = the_pipe c /\
    accepted c1 = accepted c /\ pipe_ok M c1).
  { destruct Hrd as [Hrd|Hrd]; [by exists c|]. assert (Hdn : done (the_pipe c) = true).
    { rewrite (ok_done _ _ Hok), Hst. done. }
    eexists. split; [apply rtc_once; by eapply r_done|]. split; [done|]. split; [done|]. split; [done|].
    eapply rstep_ok; [done|by eapply r_done]. }
  destruct Htry as (c1 & Hc1 & Hr1 & Hp1 & Ha1 & Hok1). rewrite <- Hp1 in *.
  destruct (read_try t (the_pipe c1)) as [p' pc] eqn:E. pose proof (r_try c1 t p' pc Hr1 E) as Hs.
  pose proof (rstep_ok M _ _ Hok1 Hs) as Hok2.
  assert (Hx : exists x, pc = RNotify x /\ data p' = [] /\ state p' = closed /\
    x = if decide (data (the_pipe c1) = []) then Err EOF else Ok (data (the_pipe c1))).
  { destruct (read_try_cases t _ _ _ (ok_tidy _ _ Hok1) E) as [(_ & Hne & -> & -> & _)|[(Ho & _)|(e & _ & Hcl & -> & -> & _)]]; [|congruence|].
    - eexists. split; [done|]. split; [done|]. split; [done|]. by rewrite decide_False.
    - destruct (Hcl Hst) as [Hn ->]. eexists. split; [done|]. split; [done|]. split; [done|]. by rewrite decide_True. }
  destruct Hx as (x & -> & Hd & Hs' & ->).
  eexists. split; [etrans; [exact Hc1|]; eapply rtc_l; [exact Hs|]; apply rtc_once; by eapply r_notify|].
  cbn [the_pipe set_writeSignal data reader accepted delivered writers]. split; [done|].
  split; [|split; [done|split; [done|]]].
  - pose proof (ok_fifo _ _ Hok2) as Hf. cbn [the_pipe accepted delivered] in Hf. rewrite Hs' in Hf.
    rewrite bool_decide_false in Hf by done. rewrite Hd in Hf. by rewrite Hf, app_nil_r.
  - intros i c2 Hw. inversion Hw as [? mb p2 pc2 Hi Htry2|? e Hi|? mb Hi Hsig|? mb Hi Hdn]; subst; cbn [the_pipe accepted set_readSignal set_writeSignal data]; try done.
    cbn [the_pipe] in Htry2. unfold takes. rewrite getState_write. cbn [set_writeSignal state]. rewrite Hs'. rewrite bool_decide_false by done.
    destruct (write_try_cases mb _ _ _ Htry2) as [(Hg & _)|[(Ho & _)|(_ & -> & _)]]; [|cbn in Ho; congruence|done].
    rewrite getState_write in Hg. cbn [set_writeSignal state] in Hg. by rewrite Hs' in Hg.
Qed.

(** ** Witnesses *)
Definition demo_opts : list (pipeOption -> pipeOption) := [WithSizeLimit 4].
Definition demo_mb : MultiBuffer := [push Buf.New (lit "hello")].

Definition demo_c1 : config :=
  {| the_pipe := New demo_opts; writers := [WTry demo_mb]; reader := RRet (Ok []); accepted := []; delivered := [] |}.
Definition demo_c2 : config :=
  {| the_pipe := set_data demo_mb (New demo_opts); writers := [WNotify None]; reader := RRet (Ok []);
     accepted := lit "hello"; delivered := [] |}.
Definition demo_c3 : config :=
  {| the_pipe := Close (set_data demo_mb (New demo_opts)); writers := [WNotify None]; reader := RTry false;
     accepted := lit "hello"; delivered := [] |}.

Lemma demo_tidy : tidy_mb demo_mb.
Proof.
  split; [|by vm_compute]. constructor; [|constructor].
  split; [apply push_wf; [apply New_wf|by vm_compute]|by vm_compute].
Qed.

Lemma demo_reach2 : reachable 10 demo_opts demo_c2.
Proof.
  eapply rtc_l; [right; exact (e_write 10 (config0 demo_opts) demo_mb demo_tidy ltac:(by vm_compute))|].
  change (rtc (step 10) demo_c1 demo_c2). apply rtc_once. left. left. exists 0%nat.
  exact (w_try 0 demo_c1 demo_mb (set_data demo_mb (New demo_opts)) (WNotify None) eq_refl eq_refl).
Qed.

Lemma demo_reach3 : reachable 10 demo_opts demo_c3.
Proof.
  eapply rtc_r; [eapply rtc_r; [exact demo_reach2|right; exact (e_close 10 demo_c2)]|].
  right. exact (e_read 10 {| the_pipe := Close (the_pipe demo_c2); writers := writers demo_c2; reader := reader demo_c2;
    accepted := accepted demo_c2; delivered := delivered demo_c2 |} (Ok []) false eq_refl).
Qed.

Lemma demo_limit : 0 <= limit_of demo_opts -> limit_of demo_opts + 10 < 2 ^ 31.
Proof. intros _. by vm_compute. Qed.

Lemma pipe_fifo_witness :
  accepted demo_c2 = delivered demo_c2 ++ mb_content (data (the_pipe demo_c2)) /\ delivered demo_c2 `prefix_of` accepted demo_c2.
Proof.
  destruct (pipe_fifo 10 demo_opts demo_c2 ltac:(lia) demo_limit demo_reach2) as (H1 & H2 & _).
  split; [apply H2; discriminate|exact H1].
Defined.

Lemma pipe_progress_witness :
  weight demo_c2 = 3%nat /\ (forall n c', nsteps istep n demo_c2 c' -> (n <= 3)%nat).
Proof. split; [reflexivity|exact (proj1 (pipe_progress 10 demo_opts demo_c2 ltac:(lia) demo_limit demo_reach2))]. Defined.

Lemma closed_pipe_drains_witness :
  exists c', rtc rstep demo_c3 c' /\ delivered c' = lit "hello" /\ reader c' = RRet (Ok demo_mb).
Proof.
  destruct (closed_pipe_drains 10 demo_opts demo_c3 false ltac:(lia) demo_limit demo_reach3 eq_refl (or_introl eq_refl))
    as (c' & H1 & _ & H2 & H3 & H4 & _).
  exists c'. split; [exact H1|]. split; [rewrite H2, H3; reflexivity|]. rewrite H4. reflexivity.
Defined.
