(* ===== verification/Lru.v ===== *)
(** * Package common/cache: the two-way LRU cache

    [Module Lru] models common/cache/lru.go: a doubly linked list of elements,
    most recently used first, and two maps into it, from keys and from values.
    Elements are pointers, because an element that was evicted can still be
    reached from a map.  Every method runs under the lock and is one step. *)
From S2P Require Import Prelude.

Module Lru.
Section Lru.
Context {K V : Type} `{Countable K} `{Countable V}.

(** [order] is the linked list, [elements] the memory of its elements. *)
Record lru := mkLru {
  capacity : Z;
  order : list nat;
  elements : gmap nat (K * V);
  allocated : nat;
  keyToElement : gmap K nat;
  valueToElement : gmap V nat;
}.

Definition NewLru (cap : Z) : lru :=
  {| capacity := cap; order := []; elements := ∅; allocated := 0; keyToElement := ∅; valueToElement := ∅ |}.

(** [list.MoveToFront]; an element that is not in the list stays out. *)
Definition MoveToFront (e : nat) (l : list nat) : list nat :=
  if decide (e ∈ l) then e :: filter (fun x => x <> e) l else l.

Definition set_order (o : list nat) (l : lru) : lru :=
  {| capacity := capacity l; order := o; elements := elements l; allocated := allocated l;
     keyToElement := keyToElement l; valueToElement := valueToElement l |}.

Definition Get (key : K) (l : lru) : lru * option V :=
  match keyToElement l !! key with
  | Some e => (set_order (MoveToFront e (order l)) l, snd <$> elements l !! e)
  | None => (l, None)
  end.

Definition GetKeyFromValue (value : V) (l : lru) : lru * option K :=
  match valueToElement l !! value with
  | Some e => (set_order (MoveToFront e (order l)) l, fst <$> elements l !! e)
  | None => (l, None)
  end.

(** The element at the back of the list leaves it and, with its key and value,
    the maps. *)
Definition evict (l : lru) : lru :=
  match last (order l) with
  | Some e =>
    match elements l !! e with
    | Some (k, v) =>
      {| capacity := capacity l; order := filter (fun x => x <> e) (order l); elements := elements l;
         allocated := allocated l; keyToElement := delete k (keyToElement l);
         valueToElement := delete v (valueToElement l) |}
    | None => l
    end
  | None => l
  end.

Definition Put (key : K) (value : V) (l : lru) : lru :=
  match keyToElement l !! key with
  | Some e =>
    {| capacity := capacity l; order := MoveToFront e (order l); elements := <[e := (key, value)]> (elements l);
       allocated := allocated l; keyToElement := keyToElement l; valueToElement := valueToElement l |}
  | None =>
    let e := allocated l in
    let l := {| capacity := capacity l; order := e :: order l; elements := <[e := (key, value)]> (elements l);
                allocated := S e; keyToElement := <[key := e]> (keyToElement l);
                valueToElement := <[value := e]> (valueToElement l) |} in
    if capacity l <? zlen (order l) then evict l else l
  end.

(** ** The abstract cache: the pairs, most recently used first *)


Definition drop_key (k : K) (c : list (K * V)) : list (K * V) := filter (fun x => x.1 <> k) c.

Definition find_key (k : K) (c : list (K * V)) : option (K * V) := head (filter (fun x => x.1 = k) c).
Definition find_value (v : V) (c : list (K * V)) : option (K * V) := head (filter (fun x => x.2 = v) c).

Definition touch (o : option (K * V)) (c : list (K * V)) : list (K * V) :=
  match o with Some x => x :: drop_key x.1 c | None => c end.

Definition a_put (cap : Z) (k : K) (v : V) (c : list (K * V)) : list (K * V) :=
  take (Z.to_nat cap) ((k, v) :: drop_key k c).

(** ** Histories *)
Inductive op := OGet (k : K) | OGetKey (v : V) | OPut (k : K) (v : V).
Inductive answer := AValue (o : option V) | AKey (o : option K) | ANone.

Definition step (o : op) (l : lru) : lru * answer :=
  match o with
  | OGet k => let '(l, x) := Get k l in (l, AValue x)
  | OGetKey v => let '(l, x) := GetKeyFromValue v l in (l, AKey x)
  | OPut k v => (Put k v l, ANone)
  end.

Definition a_step (cap : Z) (o : op) (c : list (K * V)) : list (K * V) * answer :=
  match o with
  | OGet k => (touch (find_key k c) c, AValue (snd <$> find_key k c))
  | OGetKey v => (touch (find_value v c) c, AKey (fst <$> find_value v c))
  | OPut k v => (a_put cap k v c, ANone)
  end.

Fixpoint run {S} (f : op -> S -> S * answer) (ops : list op) (s : S) : S * list answer :=
  match ops with
  | [] => (s, [])
  | o :: ops => let '(s, a) := f o s in let '(s, r) := run f ops s in (s, a :: r)
  end.

(** A [Put] of a pair that is there, or of a key and a value that are not. *)
Definition two_way (o : op) (c : list (K * V)) : Prop :=
  match o with
  | OPut k v => (k, v) ∈ c \/ (k ∉ map fst c /\ v ∉ map snd c)
  | _ => True
  end.

Definition by_key (o : op) (c : list (K * V)) : Prop := match o with OGetKey _ => False | _ => True end.

Fixpoint along (P : op -> list (K * V) -> Prop) (cap : Z) (ops : list op) (c : list (K * V)) : Prop :=
  match ops with
  | [] => True
  | o :: ops => P o c /\ along P cap ops (a_step cap o c).1
  end.

(** The abstract cache of a concrete one. *)
Definition abs (l : lru) : list (K * V) := omap (fun e => elements l !! e) (order l).

Record lru_wf (l : lru) : Prop := {
  ok_nodup : NoDup (order l);
  ok_new : forall e, e ∈ order l -> (e < allocated l)%nat;
  ok_elem : forall e, e ∈ order l -> exists k v, elements l !! e = Some (k, v) /\ keyToElement l !! k = Some e;
  ok_key : forall k e, keyToElement l !! k = Some e -> e ∈ order l /\ exists v, elements l !! e = Some (k, v);
}.

Definition lru_ok (l : lru) : Prop := lru_wf l /\ 0 <= capacity l /\ zlen (order l) <= capacity l.

(** The map from values mirrors the list too. *)
Definition values_ok (l : lru) : Prop :=
  (forall e k v, e ∈ order l -> elements l !! e = Some (k, v) -> valueToElement l !! v = Some e) /\
  (forall v e, valueToElement l !! v = Some e -> e ∈ order l /\ exists k, elements l !! e = Some (k, v)).
End Lru.
Arguments lru : clear implicits.
Arguments lru K V {_ _} {_ _}.
Arguments op : clear implicits.
End Lru.
Import Lru.

Section Proofs.
Context {K V : Type} `{Countable K} `{Countable V}.
Implicit Types (l : lru K V) (c : list (K * V)).

(** ** Lists of elements and the pairs they carry *)
Section Pairs.
Context (f : nat -> option (K * V)).

Lemma omap_drop_key (o : list nat) (e : nat) k v :
  f e = Some (k, v) -> (forall e' v', e' ∈ o -> f e' = Some (k, v') -> e' = e) ->
  drop_key k (omap f o) = omap f (filter (fun x => x <> e) o).
Proof.
  intros He. induction o as [|x o IH]; intros Hu; [done|].
  assert (Hu' : forall e' v', e' ∈ o -> f e' = Some (k, v') -> e' = e) by (intros e' v' Hin; apply Hu; by right).
  specialize (IH Hu'). unfold drop_key in *. rewrite filter_cons. cbn [omap list_omap].
  destruct (f x) as [[k' v']|] eqn:Ex.
  - rewrite filter_cons. cbn [fst]. destruct (decide (k' <> k)) as [Hk|Hk].
    + rewrite decide_True by (intros ->; congruence). cbn [omap list_omap]. rewrite Ex. by rewrite IH.
    + rewrite decide_False; [done|]. intros Hx. apply Hx, (Hu x v'); [by left|]. rewrite Ex. by destruct (decide (k' = k)); subst.
  - case_decide; [|done]. cbn [omap list_omap]. by rewrite Ex.
Qed.

Lemma find_key_in (o : list nat) (e : nat) k v :
  e ∈ o -> f e = Some (k, v) -> (forall e' v', e' ∈ o -> f e' = Some (k, v') -> e' = e) ->
  find_key k (omap f o) = Some (k, v).
Proof.
  intros Hin He. induction o as [|x o IH]; intros Hu; [by apply elem_of_nil in Hin|].
  unfold find_key in *. cbn [omap list_omap]. destruct (decide (x = e)) as [->|Hne].
  - rewrite He, filter_cons_True by done. done.
  - apply elem_of_cons in Hin as [->|Hin]; [done|]. specialize (IH Hin ltac:(intros e' v' Hi; apply Hu; by right)).
    destruct (f x) as [[k' v']|] eqn:Ex; [|done]. rewrite filter_cons_False; [done|]. cbn. intros ->.
    apply Hne, (Hu x v'); [by left|done].
Qed.

Lemma find_value_in (o : list nat) (e : nat) k v :
  e ∈ o -> f e = Some (k, v) -> (forall e' k', e' ∈ o -> f e' = Some (k', v) -> e' = e) ->
  find_value v (omap f o) = Some (k, v).
Proof.
  intros Hin He. induction o as [|x o IH]; intros Hu; [by apply elem_of_nil in Hin|].
  unfold find_value in *. cbn [omap list_omap]. destruct (decide (x = e)) as [->|Hne].
  - rewrite He, filter_cons_True by done. done.
  - apply elem_of_cons in Hin as [->|Hin]; [done|]. specialize (IH Hin ltac:(intros e' v' Hi; apply Hu; by right)).
    destruct (f x) as [[k' v']|] eqn:Ex; [|done]. rewrite filter_cons_False; [done|]. cbn. intros ->.
    apply Hne, (Hu x k'); [by left|done].
Qed.

Lemma elem_of_pairs (o : list nat) x : x ∈ omap f o <-> exists e, e ∈ o /\ f e = Some x.
Proof. apply list_elem_of_omap. Qed.
End Pairs.

Lemma find_key_none k c : (forall x, x ∈ c -> x.1 <> k) -> find_key k c = None /\ drop_key k c = c.
Proof.
  intros Hc. split.
  - unfold find_key. rewrite filter_none; [done|]. by apply Forall_forall.
  - unfold drop_key. apply filter_all. by apply Forall_forall.
Qed.

Lemma find_value_none v c : (forall x, x ∈ c -> x.2 <> v) -> find_value v c = None.
Proof. intros Hc. unfold find_value. rewrite filter_none; [done|]. by apply Forall_forall. Qed.

Lemma filter_last (o : list nat) e : NoDup o -> last o = Some e ->
  filter (fun x => x <> e) o = take (length o - 1) o.
Proof.
  intros Hnd Hl. apply last_Some in Hl as [o' ->]. apply NoDup_app in Hnd as (_ & Hd & _).
  rewrite filter_app, (filter_all (fun x => x <> e) o').
  - rewrite filter_cons_False by (intros Hx; by apply Hx). rewrite filter_nil, app_nil_r, length_app. cbn [length].
    by rewrite take_app_le, take_ge by lia.
  - apply Forall_forall. intros x Hx ->. apply (Hd e Hx). by left.
Qed.

(** ** The invariant *)
Lemma key_unique l e e' k v v' :
  lru_wf l -> e ∈ order l -> e' ∈ order l -> elements l !! e = Some (k, v) -> elements l !! e' = Some (k, v') -> e' = e.
Proof.
  intros Hok He He' E E'. destruct (ok_elem l Hok e He) as (k1 & v1 & E1 & M1).
  destruct (ok_elem l Hok e' He') as (k2 & v2 & E2 & M2). congruence.
Qed.

Lemma absent_key l k : lru_wf l -> keyToElement l !! k = None -> forall x, x ∈ abs l -> x.1 <> k.
Proof.
  intros Hok Hk x Hx <-. apply elem_of_pairs in Hx as (e & He & Ex).
  destruct (ok_elem l Hok e He) as (k1 & v1 & E1 & M1). rewrite E1 in Ex. injection Ex as <-. cbn in Hk. congruence.
Qed.

Lemma element_there l : lru_wf l -> forall e, e ∈ order l -> is_Some (elements l !! e).
Proof. intros Hok e He. destruct (ok_elem l Hok e He) as (k & v & -> & _). by eexists. Qed.

Lemma abs_length l : lru_wf l -> length (abs l) = length (order l).
Proof.
  intros Hok. unfold abs. pose proof (element_there l Hok) as Hall.
  induction (order l) as [|x o IH]; [done|]. cbn [omap list_omap length].
  destruct (Hall x ltac:(by left)) as [y ->]. cbn [length]. rewrite IH; [done|]. intros e He. apply Hall. by right.
Qed.

Lemma elem_of_MoveToFront e o x : e ∈ o -> x ∈ MoveToFront e o <-> x ∈ o.
Proof.
  intros He. unfold MoveToFront. rewrite decide_True by done. rewrite elem_of_cons, list_elem_of_filter.
  split; [intros [->|[_ ?]]; done|]. intros Hx. destruct (decide (x = e)); [by left|by right].
Qed.

Lemma MoveToFront_facts e o : e ∈ o -> NoDup o -> NoDup (MoveToFront e o) /\ length (MoveToFront e o) = length o.
Proof.
  intros He Hnd. unfold MoveToFront. rewrite decide_True by done.
  assert (Hn : NoDup (e :: filter (fun x => x <> e) o)).
  { constructor; [|by apply NoDup_filter]. intros Hx. apply list_elem_of_filter in Hx as [Hx _]. done. }
  split; [done|]. apply Permutation_length, NoDup_Permutation; [done|done|]. intros x.
  rewrite <- (elem_of_MoveToFront e o x He). unfold MoveToFront. by rewrite decide_True.
Qed.

(** The element [e] of the key [k] in front of the list with the value [v],
    which [Get] reads and [Put] writes. *)
Definition fronted (e : nat) (k : K) (v : V) l : lru K V :=
  {| capacity := capacity l; order := MoveToFront e (order l); elements := <[e := (k, v)]> (elements l);
     allocated := allocated l; keyToElement := keyToElement l; valueToElement := valueToElement l |}.

Lemma fronted_facts e k v v0 l :
  lru_wf l -> e ∈ order l -> elements l !! e = Some (k, v0) ->
  lru_wf (fronted e k v l) /\ abs (fronted e k v l) = (k, v) :: drop_key k (abs l) /\
  length (order (fronted e k v l)) = length (order l) /\ find_key k (abs l) = Some (k, v0).
Proof.
  intros Hok He Ee. pose proof Hok as [Hnd Hnew Hel Hkey].
  destruct (MoveToFront_facts e (order l) He Hnd) as [Hnd' Hlen].
  assert (Hu : forall e' v', e' ∈ order l -> elements l !! e' = Some (k, v') -> e' = e).
  { intros e' v' He' E'. by eapply key_unique. }
  split; [|split; [|split; [done|by apply (find_key_in _ _ e)]]].
  - split; cbn [fronted order elements allocated keyToElement]; [done| | |].
    + intros x Hx%(elem_of_MoveToFront e (order l) x He). by apply Hnew.
    + intros x Hx%(elem_of_MoveToFront e (order l) x He). destruct (Hel x Hx) as (k' & v' & Ex & Mx).
      destruct (decide (x = e)) as [->|Hne]; [|exists k', v'; by rewrite lookup_insert_ne].
      exists k, v. rewrite lookup_insert_eq. split; [done|]. congruence.
    + intros k' x Hx. destruct (Hkey k' x Hx) as (Hin & v' & Ex). split; [by apply elem_of_MoveToFront|].
      destruct (decide (e = x)) as [<-|Hne]; [|exists v'; by rewrite lookup_insert_ne].
      exists v. rewrite lookup_insert_eq. congruence.
  - unfold abs. cbn [fronted order elements]. unfold MoveToFront. rewrite decide_True by done.
    cbn [omap list_omap]. rewrite lookup_insert_eq, (omap_drop_key _ _ e k v0) by done.
    f_equal. apply omap_ext_in. intros x [Hx _]%list_elem_of_filter. by rewrite lookup_insert_ne by done.
Qed.

(** Reading writes back what is there. *)
Lemma set_order_fronted e k v l :
  elements l !! e = Some (k, v) -> set_order (MoveToFront e (order l)) l = fronted e k v l.
Proof. intros E. unfold set_order, fronted. by rewrite insert_id. Qed.

Lemma Get_abs k l :
  lru_ok l -> lru_ok (Get k l).1 /\ abs (Get k l).1 = touch (find_key k (abs l)) (abs l) /\
    (Get k l).2 = snd <$> find_key k (abs l).
Proof.
  intros (Hok & Hc0 & Hc). unfold Get. destruct (keyToElement l !! k) as [e|] eqn:Ek; cbn [fst snd].
  - destruct (ok_key l Hok k e Ek) as (He & v & Ee). rewrite (set_order_fronted e k v) by done.
    destruct (fronted_facts e k v v l Hok He Ee) as (Hok' & Ha & Hlen & ->). rewrite Ee.
    split; [|done]. split; [done|]. split; [done|]. unfold zlen in *. by rewrite Hlen.
  - destruct (find_key_none k (abs l) (absent_key l k Hok Ek)) as [-> _]. by split.
Qed.

(** A new element in front of the list. *)
Definition pushed (k : K) (v : V) l : lru K V :=
  {| capacity := capacity l; order := allocated l :: order l; elements := <[allocated l := (k, v)]> (elements l);
     allocated := S (allocated l); keyToElement := <[k := allocated l]> (keyToElement l);
     valueToElement := <[v := allocated l]> (valueToElement l) |}.

Lemma pushed_facts k v l :
  lru_wf l -> keyToElement l !! k = None -> lru_wf (pushed k v l) /\ abs (pushed k v l) = (k, v) :: abs l.
Proof.
  intros Hok Hk. pose proof Hok as [Hnd Hnew Hel Hkey].
  assert (Hfresh : forall e, e ∈ order l -> e <> allocated l) by (intros e He ->; specialize (Hnew _ He); lia).
  split; [split|]; cbn [pushed order elements allocated keyToElement].
  - constructor; [|done]. intros Hx. by apply (Hfresh _ Hx).
  - intros e [->|He]%elem_of_cons; [lia|]. specialize (Hnew e He). lia.
  - intros e [->|He]%elem_of_cons.
    + exists k, v. by rewrite !lookup_insert_eq.
    + destruct (Hel e He) as (k' & v' & Ee & Ek). exists k', v'. rewrite lookup_insert_ne by (intros E; by apply (Hfresh e He)).
      rewrite lookup_insert_ne by congruence. done.
  - intros k' e. destruct (decide (k = k')) as [<-|Hne].
    + rewrite lookup_insert_eq. intros [= <-]. split; [by left|]. exists v. by rewrite lookup_insert_eq.
    + rewrite lookup_insert_ne by done. intros Ek. destruct (Hkey k' e Ek) as (He & v' & Ee).
      split; [by right|]. exists v'. rewrite lookup_insert_ne; [done|]. intros E. by apply (Hfresh e He).
  - unfold abs. cbn [pushed order elements omap list_omap]. rewrite lookup_insert_eq. f_equal. apply omap_ext_in.
    intros e He. rewrite lookup_insert_ne; [done|]. intros E. by apply (Hfresh e He).
Qed.

Lemma omap_take {A B} (f : A -> option B) (o : list A) n :
  (forall x, x ∈ o -> is_Some (f x)) -> omap f (take n o) = take n (omap f o).
Proof.
  revert n. induction o as [|x o IH]; intros [|n] Ho; [done..|]. cbn [take omap list_omap].
  destruct (Ho x ltac:(by left)) as [y ->]. cbn [take]. rewrite IH; [done|]. intros z Hz. apply Ho. by right.
Qed.

Lemma evict_facts l :
  lru_wf l -> order l <> [] ->
  lru_wf (evict l) /\ abs (evict l) = take (length (order l) - 1) (abs l) /\
  length (order (evict l)) = (length (order l) - 1)%nat /\ capacity (evict l) = capacity l.
Proof.
  intros Hok Hne. pose proof Hok as [Hnd Hnew Hel Hkey]. unfold evict.
  destruct (last (order l)) as [e|] eqn:El; [|by apply last_None in El].
  assert (Hin : e ∈ order l) by (apply last_Some in El as [o' ->]; apply elem_of_app; right; by left).
  destruct (Hel e Hin) as (k & v & E & M). rewrite E. pose proof (filter_last _ _ Hnd El) as Hfl.
  split; [split|split; [|split]]; cbn [order elements allocated keyToElement capacity].
  - by apply NoDup_filter.
  - intros x [_ Hx]%list_elem_of_filter. by apply Hnew.
  - intros x [Hx' Hx]%list_elem_of_filter. destruct (Hel x Hx) as (k2 & v2 & E2 & M2). exists k2, v2. split; [done|].
    rewrite lookup_delete_ne; [done|]. congruence.
  - intros k2 x [Hk2 Hx]%lookup_delete_Some. destruct (Hkey k2 x Hx) as (Hin2 & v2 & E2). split; [|by exists v2].
    apply list_elem_of_filter. split; [|done]. intros ->. congruence.
  - unfold abs. cbn [order elements]. rewrite Hfl. apply omap_take. by apply element_there.
  - rewrite Hfl, length_take. lia.
  - done.
Qed.

Lemma Put_new k v l :
  keyToElement l !! k = None ->
  Put k v l = if capacity l <? zlen (order (pushed k v l)) then evict (pushed k v l) else pushed k v l.
Proof. intros Hk. unfold Put. by rewrite Hk. Qed.

Lemma Put_abs k v l :
  lru_ok l -> lru_ok (Put k v l) /\ abs (Put k v l) = a_put (capacity l) k v (abs l) /\ capacity (Put k v l) = capacity l.
Proof.
  intros (Hok & Hc0 & Hc). unfold a_put. pose proof (abs_length l Hok) as Hla.
  destruct (keyToElement l !! k) as [e|] eqn:Ek.
  - destruct (ok_key l Hok k e Ek) as (He & v0 & Ee). unfold Put. rewrite Ek. fold (fronted e k v l).
    destruct (fronted_facts e k v v0 l Hok He Ee) as (Hok' & Ha & Hlen & _).
    split; [|split; [|done]].
    + split; [done|]. split; [done|]. cbn [fronted capacity]. unfold zlen in *. by rewrite Hlen.
    + rewrite Ha. symmetry. apply take_ge. pose proof (abs_length _ Hok') as Hl2. rewrite Ha, Hlen in Hl2.
      unfold zlen in Hc. lia.
  - destruct (find_key_none k (abs l) (absent_key l k Hok Ek)) as [_ ->]. rewrite Put_new by done.
    destruct (pushed_facts k v l Hok Ek) as (Hok1 & Habs1). pose proof (zlen_cons (allocated l) (order l)) as Hlen1.
    change (allocated l :: order l) with (order (pushed k v l)) in Hlen1. destruct (_ <? _) eqn:Ecap.
    + destruct (evict_facts (pushed k v l) Hok1) as (Hok2 & Ha & Hlen & Hcap); [done|].
      rewrite Ha, Habs1, Hcap. split; [|split; [|done]].
      * split; [done|]. rewrite Hcap. unfold zlen in *. rewrite Hlen. cbn [pushed capacity]. lia.
      * f_equal. unfold zlen in *. lia.
    + split; [|split; [|done]].
      * split; [done|]. cbn [pushed capacity]. unfold zlen in *. lia.
      * rewrite Habs1. symmetry. apply take_ge. cbn [length]. unfold zlen in *. lia.
Qed.

(** ** The map from values *)
Lemma values_fronted e k v l :
  values_ok l -> e ∈ order l -> elements l !! e = Some (k, v) -> values_ok (fronted e k v l).
Proof.
  intros [Hv1 Hv2] He Ee. unfold fronted. rewrite insert_id by done.
  split; cbn [order elements valueToElement].
  - intros x k' v' Hx%(elem_of_MoveToFront e (order l) x He). by apply Hv1.
  - intros v' x Hx. destruct (Hv2 v' x Hx) as [Hin Hk]. split; [|done]. by apply elem_of_MoveToFront.
Qed.

Lemma values_pushed k v l :
  lru_wf l -> values_ok l -> v ∉ map snd (abs l) -> values_ok (pushed k v l).
Proof.
  intros Hok [Hv1 Hv2] Hnew. assert (Hfresh : allocated l ∉ order l) by (intros Hx%(ok_new l Hok); lia).
  split; cbn [pushed order elements valueToElement].
  - intros e k' v' [->|He]%elem_of_cons.
    + rewrite lookup_insert_eq. intros [= <- <-]. by rewrite lookup_insert_eq.
    + rewrite lookup_insert_ne by (intros <-; done). intros Ee. rewrite lookup_insert_ne; [by apply (Hv1 e k')|].
      intros <-. apply Hnew, list_elem_of_fmap. exists (k', v). split; [done|]. apply elem_of_pairs. by exists e.
  - intros v' e. destruct (decide (v = v')) as [<-|Hne].
    + rewrite lookup_insert_eq. intros [= <-]. split; [by left|]. exists k. by rewrite lookup_insert_eq.
    + rewrite lookup_insert_ne by done. intros Hx. destruct (Hv2 v' e Hx) as [Hin [k' Ee]]. split; [by right|].
      exists k'. rewrite lookup_insert_ne by (intros <-; done). done.
Qed.

Lemma values_evict l : values_ok l -> values_ok (evict l).
Proof.
  intros [Hv1 Hv2]. unfold evict. destruct (last (order l)) as [e|] eqn:El; [|done].
  destruct (elements l !! e) as [[k v]|] eqn:E; [|done].
  assert (Hin : e ∈ order l) by (apply last_Some in El as [o' ->]; apply elem_of_app; right; by left).
  pose proof (Hv1 e k v Hin E) as Hve. split; cbn [order elements valueToElement].
  - intros x k2 v2 [Hne Hx]%list_elem_of_filter E2. pose proof (Hv1 x k2 v2 Hx E2).
    rewrite lookup_delete_ne; [done|]. congruence.
  - intros v2 x [Hne Hx]%lookup_delete_Some. destruct (Hv2 v2 x Hx) as [Hx' [k2 E2]]. split; [|by exists k2].
    apply list_elem_of_filter. split; [|done]. intros ->. congruence.
Qed.

Lemma absent_pair_key k l : lru_wf l -> k ∉ map fst (abs l) -> keyToElement l !! k = None.
Proof.
  intros Hok Hk. destruct (keyToElement l !! k) as [e|] eqn:Ek; [|done]. exfalso.
  destruct (ok_key l Hok k e Ek) as (He & v & Ee). apply Hk, list_elem_of_fmap. exists (k, v). split; [done|].
  apply elem_of_pairs. by exists e.
Qed.

Lemma values_Put k v l : lru_wf l -> values_ok l -> two_way (OPut k v) (abs l) -> values_ok (Put k v l).
Proof.
  intros Hok Hv [(e & He & Ee)%elem_of_pairs|[Hk Hnew]].
  - destruct (ok_elem l Hok e He) as (k' & v' & Ee' & Mk). rewrite Ee in Ee'. injection Ee' as <- <-.
    unfold Put. rewrite Mk. by apply values_fronted.
  - apply absent_pair_key in Hk; [|done]. rewrite Put_new by done. pose proof (values_pushed k v l Hok Hv Hnew).
    case_match; [by apply values_evict|done].
Qed.

Lemma values_Get k l : lru_wf l -> values_ok l -> values_ok (Get k l).1.
Proof.
  intros Hok Hv. unfold Get. destruct (keyToElement l !! k) as [e|] eqn:Ek; [|done].
  destruct (ok_key l Hok k e Ek) as (He & v & Ee). cbn [fst]. rewrite (set_order_fronted e k v) by done.
  by apply values_fronted.
Qed.

Lemma GetKeyFromValue_abs v l :
  lru_ok l -> values_ok l ->
  lru_ok (GetKeyFromValue v l).1 /\ values_ok (GetKeyFromValue v l).1 /\
    abs (GetKeyFromValue v l).1 = touch (find_value v (abs l)) (abs l) /\
    (GetKeyFromValue v l).2 = fst <$> find_value v (abs l).
Proof.
  intros (Hok & Hc0 & Hc) Hv. unfold GetKeyFromValue. destruct (valueToElement l !! v) as [e|] eqn:Ev; cbn [fst snd].
  - destruct (proj2 Hv v e Ev) as (He & k & Ee). rewrite (set_order_fronted e k v) by done.
    destruct (fronted_facts e k v v l Hok He Ee) as (Hok' & Ha & Hlen & _). rewrite Ee.
    assert (find_value v (abs l) = Some (k, v)) as ->.
    { apply (find_value_in _ _ e); [done..|]. intros e' k' He' E'. pose proof (proj1 Hv e' k' v He' E'). congruence. }
    split; [|split; [by apply values_fronted|done]]. split; [done|]. split; [done|]. unfold zlen in *. by rewrite Hlen.
  - rewrite find_value_none; [done|]. intros x (e & He & Ex)%elem_of_pairs <-. destruct x as [k v].
    pose proof (proj1 Hv e k v He Ex). cbn in Ev. congruence.
Qed.

(** ** Histories *)
Lemma Get_capacity k l : capacity (Get k l).1 = capacity l.
Proof. unfold Get. by case_match. Qed.
Lemma GetKey_capacity v l : capacity (GetKeyFromValue v l).1 = capacity l.
Proof. unfold GetKeyFromValue. by case_match. Qed.

Lemma NewLru_ok cap : 0 <= cap -> lru_ok (NewLru cap : lru K V) /\ values_ok (NewLru cap : lru K V).
Proof.
  intros Hc. split.
  - split; [|done]. split; cbn [NewLru order elements allocated keyToElement].
    + constructor.
    + intros e He. by apply elem_of_nil in He.
    + intros e He. by apply elem_of_nil in He.
    + intros k e He. by rewrite lookup_empty in He.
  - split; cbn [NewLru order elements valueToElement].
    + intros e k v He. by apply elem_of_nil in He.
    + intros v e He. by rewrite lookup_empty in He.
Qed.

(** One operation by keys. *)
Lemma step_by_key o l :
  lru_ok l -> by_key o (abs l) ->
  lru_ok (step o l).1 /\ capacity (step o l).1 = capacity l /\
  a_step (capacity l) o (abs l) = (abs (step o l).1, (step o l).2).
Proof.
  intros Hok Ho. destruct o as [k|v|k v]; [| |]; cbn [step a_step by_key] in *; [|done|].
  - pose proof (Get_abs k l Hok) as (Hok' & Ha & Hx). pose proof (Get_capacity k l).
    destruct (Get k l) as [l' x]. cbn [fst snd] in *. by rewrite Ha, Hx.
  - pose proof (Put_abs k v l Hok) as (Hok' & Ha & Hc). cbn [fst snd]. by rewrite Ha.
Qed.

(** One operation of a one-to-one history. *)
Lemma step_two_way o l :
  lru_ok l -> values_ok l -> two_way o (abs l) ->
  lru_ok (step o l).1 /\ values_ok (step o l).1 /\ capacity (step o l).1 = capacity l /\
  a_step (capacity l) o (abs l) = (abs (step o l).1, (step o l).2).
Proof.
  intros Hok Hv Ho. pose proof Hok as (Hwf & _). destruct o as [k|v|k v].
  - pose proof (step_by_key (OGet k) l Hok Logic.I) as (H1 & H2 & H3). split; [done|]. split; [|done].
    pose proof (values_Get k l Hwf Hv) as H4. cbn [step] in *. by destruct (Get k l).
  - pose proof (GetKeyFromValue_abs v l Hok Hv) as (Hok' & Hv' & Ha & Hx). pose proof (GetKey_capacity v l).
    cbn [step a_step]. destruct (GetKeyFromValue v l) as [l' x]. cbn [fst snd] in *. by rewrite Ha, Hx.
  - pose proof (step_by_key (OPut k v) l Hok Logic.I) as (H1 & H2 & H3). split; [done|]. split; [|done].
    by apply values_Put.
Qed.

(** Used through its keys, the cache is the textbook LRU cache: for every
    history of Get and Put from an empty cache of capacity [cap >= 0], the
    answers are those of the list of pairs, most recently used first, in which
    Get moves the pair of its key to the front and Put replaces it there and
    cuts the list to [cap] pairs; the memory that remains holds that list. *)
Theorem lru_by_key (cap : Z) (ops : list (op K V)) (Hcap : 0 <= cap) (Hops : along by_key cap ops []) :
  (run step ops (NewLru cap)).2 = (run (a_step cap) ops []).2 /\
  abs (run step ops (NewLru cap)).1 = (run (a_step cap) ops []).1.
Proof.
  assert (Hgen : forall ops l, lru_ok l -> along by_key (capacity l) ops (abs l) ->
    (run step ops l).2 = (run (a_step (capacity l)) ops (abs l)).2 /\
    abs (run step ops l).1 = (run (a_step (capacity l)) ops (abs l)).1).
  { clear. induction ops as [|o ops IH]; intros l Hok Hal; [done|]. destruct Hal as [Ho Hal].
    destruct (step_by_key o l Hok Ho) as (Hok' & Hc & Ha). cbn [run]. rewrite Ha in *. cbn [fst] in Hal.
    destruct (step o l) as [l' x]. cbn [fst snd] in *. rewrite <- Hc in *. destruct (IH l' Hok' Hal) as [IH1 IH2].
    destruct (run step ops l') as [l2 r2], (run (a_step (capacity l')) ops (abs l')) as [c2 r3].
    cbn [fst snd] in *. by subst. }
  apply (Hgen ops (NewLru cap)); [by apply NewLru_ok|done].
Qed.

(** Used as a one-to-one map, it is an LRU cache in both directions: when
    every Put of a history is of a pair that is there or of a key and a value
    neither of which is, Get, GetKeyFromValue and Put answer as the list of
    pairs does, in which a lookup by value finds the pair of the value and
    moves it to the front. *)
Theorem lru_two_way (cap : Z) (ops : list (op K V)) (Hcap : 0 <= cap) (Hops : along two_way cap ops []) :
  (run step ops (NewLru cap)).2 = (run (a_step cap) ops []).2 /\
  abs (run step ops (NewLru cap)).1 = (run (a_step cap) ops []).1.
Proof.
  assert (Hgen : forall ops l, lru_ok l -> values_ok l -> along two_way (capacity l) ops (abs l) ->
    (run step ops l).2 = (run (a_step (capacity l)) ops (abs l)).2 /\
    abs (run step ops l).1 = (run (a_step (capacity l)) ops (abs l)).1).
  { clear. induction ops as [|o ops IH]; intros l Hok Hv Hal; [done|]. destruct Hal as [Ho Hal].
    destruct (step_two_way o l Hok Hv Ho) as (Hok' & Hv' & Hc & Ha). cbn [run]. rewrite Ha in *. cbn [fst] in Hal.
    destruct (step o l) as [l' x]. cbn [fst snd] in *. rewrite <- Hc in *. destruct (IH l' Hok' Hv' Hal) as [IH1 IH2].
    destruct (run step ops l') as [l2 r2], (run (a_step (capacity l')) ops (abs l')) as [c2 r3].
    cbn [fst snd] in *. by subst. }
  apply (Hgen ops (NewLru cap)); [by apply NewLru_ok..|done].
Qed.
End Proofs.

(** Three puts into two places with a read between them. *)
Definition lru_history : list (op nat nat) :=
  [OPut 1%nat 10%nat; OPut 2%nat 20%nat; OGet 1%nat; OPut 3%nat 30%nat; OGet 2%nat; OGetKey 10%nat; OGetKey 20%nat].

Lemma lru_by_key_witness :
  abs (run step (take 5 lru_history) (NewLru 2)).1 = [(3, 30); (1, 10)]%nat /\
  (run step (take 5 lru_history) (NewLru 2)).2 = (run (a_step 2) (take 5 lru_history) []).2.
Proof.
  split; [vm_compute; reflexivity|]. apply (lru_by_key 2 (take 5 lru_history)); [lia|]. vm_compute. tauto.
Defined.

Lemma lru_two_way_witness :
  (run step lru_history (NewLru 2)).2 =
    [ANone; ANone; AValue (Some 10%nat); ANone; AValue None; AKey (Some 1%nat); AKey None] /\
  (run step lru_history (NewLru 2)).2 = (run (a_step 2) lru_history []).2.
Proof.
  split; [vm_compute; reflexivity|]. apply (lru_two_way 2 lru_history); [lia|].
  cbn [along lru_history]. repeat split; right; cbn; split; set_solver.
Defined.

(** Outside one-to-one use the map from values goes stale: after a second value
    is put under a key, the first still leads to the key and the second does not. *)
Lemma stale_value :
  (run step [OPut 1%nat 10%nat; OPut 1%nat 11%nat; OGetKey 10%nat; OGetKey 11%nat] (NewLru 2)).2 =
    [ANone; ANone; AKey (Some 1%nat); AKey None].
Proof. vm_compute. reflexivity. Qed.

(** The eviction of one of two keys with the same value hides the other. *)
Lemma shared_value_lost :
  (run step [OPut 1%nat 10%nat; OPut 2%nat 10%nat; OPut 3%nat 30%nat; OGet 2%nat; OGetKey 10%nat] (NewLru 2)).2 =
    [ANone; ANone; ANone; AValue (Some 10%nat); AKey None].
Proof. vm_compute. reflexivity. Qed.
