(* ===== verification/FakeDns.v ===== *)
(** * Package app/dns/fakedns: fake addresses for domains

    [Module FakeDns] models app/dns/fakedns/fake.go.  A [Holder] hands out the
    addresses of a network to domains, in turn, and remembers the latest pairs
    in the two-way cache of [Lru]; several holders are in [FakeDnsMulti].  A
    big integer is a [Z]; a holder that is not started has [None] where the source has nil pointers. *)
From S2P Require Import Prelude GoStd NetAddr Lru.
Import NetAddr Lru.

Module FakeDns.

#[export] Instance Address_countable : Countable Address.
Proof.
  apply (inj_countable'
    (fun a => match a with
              | ipv4Address ip => inl ip | ipv6Address ip => inr (inl ip) | domainAddress d => inr (inr d)
              end)
    (fun x => match x with inl ip => ipv4Address ip | inr (inl ip) => ipv6Address ip | inr (inr d) => domainAddress d end)).
  by intros [].
Defined.

Record FakeDnsPool := mkFakeDnsPool { IpPool : bytes; LruSize : Z }.   (* int64 *)

(** The fields that [initialize] sets; addresses are interfaces and may be nil. *)
Record started := mkStarted {
  domainToIP : lru bytes (option Address);
  nextIP : Z;
  ipRange : IPNet;
}.

Record Holder := mkHolder {
  running : option started;
  config : option FakeDnsPool;
}.

Definition NewFakeDNSHolderConfigOnly (conf : option FakeDnsPool) : Holder :=
  {| running := None; config := conf |}.

(** [math.Log2(float64(lruSize)) >= float64(rooms)]: exact on sizes below 2^47;
    of a negative size it is NaN. *)
Definition Log2_ge (lruSize rooms : Z) : bool := (0 <? lruSize) && (2 ^ rooms <=? lruSize).

Definition initialize (ipPoolCidr : bytes) (lruSize : Z) : ST Holder unit := fun h =>
  match ParseCIDR ipPoolCidr with
  | None => (h, Err (NewError "Unable to parse CIDR for Fake DNS IP assignment"))
  | Some (ipaddr, range) =>
    let currentIP := match To4 ipaddr with Some ip => get_be ip | None => get_be ipaddr end in
    let rooms := net_bits range - net_ones range in
    if Log2_ge lruSize rooms then (h, Err (NewError "LRU size is bigger than subnet size"))
    else ({| running := Some {| domainToIP := NewLru lruSize; nextIP := currentIP; ipRange := range |};
             config := config h |}, Ok tt)
  end.

Definition Start : ST Holder unit := fun h =>
  match config h with
  | Some c =>
    if negb (bool_decide (IpPool c = [])) && negb (LruSize c =? 0)
    then initialize (IpPool c) (LruSize c) h
    else (h, Err (NewError "invalid fakeDNS setting"))
  | None => (h, Err (NewError "invalid fakeDNS setting"))
  end.

Definition Close (h : Holder) : Holder := {| running := None; config := config h |}.

Definition NewFakeDNSHolder : res Holder :=
  match initialize (lit "198.18.0.0/15") 65535 (NewFakeDNSHolderConfigOnly None) with
  | (h, Ok _) => Ok h
  | (_, Err e) => Err e
  | (_, Panic) => Panic
  end.

(** On a holder that is not started the nil pointer is dereferenced. *)
Definition with_running {A} (f : started -> started * A) : ST Holder A := fun h =>
  match running h with
  | None => (h, Panic)
  | Some p => let '(p, a) := f p in ({| running := Some p; config := config h |}, Ok a)
  end.

Definition in_range (range : IPNet) (a : Address) : bool :=
  match IP a with Ok ip => IPNet_Contains range ip | _ => false end.

Definition IsIPInIPPool (ip : Address) : ST Holder bool :=
  if IsDomain (Family ip) then mret false
  else with_running (fun p => (p, in_range (ipRange p) ip)).

(** One round of the loop: the address of the counter, the counter after it, and
    whether the address is taken - which moves its pair to the front. *)
Definition round (p : started) : started * option Address * bool :=
  let ip := IPAddress (big_Bytes (nextIP p)) in
  let next := nextIP p + 1 in
  let next := if negb (IPNet_Contains (ipRange p) (big_Bytes next)) then get_be (net_IP (ipRange p)) else next in
  let '(cache, k) := Lru.GetKeyFromValue ip (domainToIP p) in
  ({| domainToIP := cache; nextIP := next; ipRange := ipRange p |}, ip, bool_decide (is_Some k)).

(** The loop, with the number of rounds as fuel; [None] is out of fuel. *)
Fixpoint pick (fuel : nat) (p : started) : option (started * option Address) :=
  match fuel with
  | O => None
  | S fuel' =>
    let '(p, ip, taken) := round p in
    if taken then pick fuel' p else Some (p, ip)
  end.

(** The type assertion on a remembered nil panics. *)
Definition fake_ip (fuel : nat) (domain : bytes) (p : started) : option (started * res (option Address)) :=
  match Lru.Get domain (domainToIP p) with
  | (cache, Some v) =>
    Some ({| domainToIP := cache; nextIP := nextIP p; ipRange := ipRange p |},
          match v with Some _ => Ok v | None => Panic end)
  | (cache, None) =>
    match pick fuel {| domainToIP := cache; nextIP := nextIP p; ipRange := ipRange p |} with
    | None => None
    | Some (p, ip) =>
      Some ({| domainToIP := Put domain ip (domainToIP p); nextIP := nextIP p; ipRange := ipRange p |}, Ok ip)
    end
  end.

Definition GetFakeIPForDomain (fuel : nat) (domain : bytes) (h : Holder)
    : option (Holder * res (list (option Address))) :=
  match running h with
  | None => Some (h, Panic)
  | Some p =>
    match fake_ip fuel domain p with
    | None => None
    | Some (p, x) => Some ({| running := Some p; config := config h |}, ip ← x; Ok [ip])
    end
  end.

Definition GetFakeIPForDomain3 (fuel : nat) (domain : bytes) (ipv4 ipv6 : bool) (h : Holder)
    : option (Holder * res (list (option Address))) :=
  match running h with
  | None => Some (h, Panic)
  | Some p =>
    let isIPv6 := bool_decide (To4 (net_IP (ipRange p)) = None) in
    if (isIPv6 && ipv6) || (negb isIPv6 && ipv4) then GetFakeIPForDomain fuel domain h
    else Some (h, Ok [])
  end.

(** The key as a string, empty when there is none. *)
Definition domain_of (a : Address) (p : started) : started * bytes :=
  if negb (in_range (ipRange p) a) then (p, []) else
  let '(cache, k) := Lru.GetKeyFromValue (Some a) (domainToIP p) in
  ({| domainToIP := cache; nextIP := nextIP p; ipRange := ipRange p |}, default [] k).

Definition GetDomainFromFakeDNS (ip : Address) : ST Holder bytes :=
  if negb (IsIP (Family ip)) then mret [] else with_running (domain_of ip).

(** ** What a started pool looks like *)
Definition rooms (n : IPNet) : Z := net_bits n - net_ones n.
Definition base (n : IPNet) : Z := get_be (net_IP n).
Definition in_pool (n : IPNet) (x : Z) : Prop := base n <= x < base n + 2 ^ rooms n.

(** The address of a number, in a network of addresses of [length (net_IP n)]
    bytes. *)
Definition addr (n : IPNet) (x : Z) : Address :=
  if decide (length (net_IP n) = 4%nat) then ipv4Address (put_be 4 x) else ipv6Address (put_be 16 x).

(** The networks that can serve as pools: what [ParseCIDR] builds, with an
    address whose first byte is not 0. *)
Record net_ok (n : IPNet) : Prop := {
  net_len : length (net_IP n) = 4%nat \/ length (net_IP n) = 16%nat;
  net_bits_ok : net_bits n = 8 * zlen (net_IP n);
  net_ones_ok : 0 <= net_ones n <= net_bits n;
  net_base : base n mod 2 ^ rooms n = 0;
  net_high : 256 ^ (zlen (net_IP n) - 1) <= base n;
}.

Definition pairs (p : started) : list (bytes * option Address) := abs (domainToIP p).

Record pool_ok (p : started) : Prop := {
  po_net : net_ok (ipRange p);
  po_next : in_pool (ipRange p) (nextIP p);
  po_lru : lru_ok (domainToIP p);
  po_values : values_ok (domainToIP p);
  po_cap : 0 < capacity (domainToIP p) < 2 ^ rooms (ipRange p);
  po_pairs : forall d a, (d, a) ∈ pairs p -> exists x, in_pool (ipRange p) x /\ a = Some (addr (ipRange p) x);
}.

(** ** Histories of a holder *)
Definition enough (h : Holder) : nat := match running h with Some p => S (length (pairs p)) | None => 0%nat end.

(** The requests a holder has served from [h0]; the log has the addresses it gave,
    the latest first. *)
Inductive history (h0 : Holder) : list (bytes * option Address) -> Holder -> Prop :=
  | h_start : history h0 [] h0
  | h_fake log h d a h' :
      history h0 log h -> GetFakeIPForDomain (enough h) d h = Some (h', Ok [a]) -> history h0 ((d, a) :: log) h'
  | h_domain log h a h' x :
      history h0 log h -> GetDomainFromFakeDNS a h = (h', x) -> history h0 log h'.

(** The domain an address was last given to. *)
Definition last_given (a : option Address) (log : list (bytes * option Address)) : option bytes :=
  fst <$> head (filter (fun x => x.2 = a) log).
End FakeDns.
Import FakeDns.

(** ** Networks and numbers *)
Lemma get_be_bound d : 0 <= get_be d < 256 ^ zlen d.
Proof. apply get_be_range. Qed.

Lemma pow256 k : 0 <= k -> 256 ^ k = 2 ^ (8 * k).
Proof. intros Hk. change 256 with (2 ^ 8). by rewrite <- Z.pow_mul_r by lia. Qed.

(** A number with [l] significant bytes. *)
Lemma big_Bytes_spec l x :
  0 < l -> 256 ^ (l - 1) <= x < 256 ^ l -> big_Bytes x = put_be (Z.to_nat l) x.
Proof.
  intros Hl Hx. rewrite !pow256 in Hx by lia. assert (0 < 2 ^ (8 * (l - 1))) by (apply Z.pow_pos_nonneg; lia).
  unfold big_Bytes. replace (x =? 0) with false by lia. f_equal. f_equal.
  assert (8 * (l - 1) <= Z.log2 x) by (apply Z.log2_le_pow2; lia).
  assert (Z.log2 x < 8 * l) by (apply Z.log2_lt_pow2; lia).
  symmetry. apply Z.div_unique with (Z.log2 x + 8 - 8 * l); lia.
Qed.

Lemma length_big_Bytes l x : 0 < l -> 256 ^ (l - 1) <= x < 256 ^ l -> zlen (big_Bytes x) = l.
Proof. intros Hl Hx. rewrite (big_Bytes_spec l) by done. rewrite zlen_put_be. lia. Qed.

Lemma shiftr_same x y k : 0 <= k -> y mod 2 ^ k = 0 -> (Z.shiftr y k =? Z.shiftr x k) = true <-> y <= x < y + 2 ^ k.
Proof.
  intros Hk Hy. rewrite Z.eqb_eq, !Z.shiftr_div_pow2 by done.
  assert (0 < 2 ^ k) by (apply Z.pow_pos_nonneg; lia).
  pose proof (Z.div_mod y (2 ^ k) ltac:(lia)). pose proof (Z.div_mod x (2 ^ k) ltac:(lia)).
  pose proof (Z.mod_pos_bound x (2 ^ k) ltac:(lia)). split; [intros E; rewrite E in *; nia|]. intros ?.
  apply Z.div_unique with (x - y); [lia|nia].
Qed.

Section Net.
Context (n : IPNet) (Hn : net_ok n).

Lemma net_len_cases : zlen (net_IP n) = 4 \/ zlen (net_IP n) = 16.
Proof. destruct (net_len n Hn) as [E|E]; unfold zlen; rewrite E; [by left|by right]. Qed.

Lemma rooms_range : 0 <= rooms n <= 8 * zlen (net_IP n).
Proof. pose proof (net_ones_ok n Hn). pose proof (net_bits_ok n Hn). unfold rooms. lia. Qed.

(** The whole pool lies below the largest address. *)
Lemma pool_top : base n + 2 ^ rooms n <= 256 ^ zlen (net_IP n).
Proof.
  pose proof (get_be_bound (net_IP n)) as Hb. fold (base n) in Hb. pose proof rooms_range as Hr.
  rewrite pow256 in * by apply zlen_nonneg. set (k := rooms n) in *. set (t := 8 * zlen (net_IP n)) in *.
  assert (E : 2 ^ t = 2 ^ k * 2 ^ (t - k)) by (rewrite <- Z.pow_add_r by lia; f_equal; lia).
  assert (0 < 2 ^ k) by (apply Z.pow_pos_nonneg; lia).
  pose proof (Z.div_mod (base n) (2 ^ k) ltac:(lia)) as Hd. fold k in Hn. pose proof (net_base n Hn) as Hm. fold k in Hm.
  rewrite Hm in Hd. rewrite E in *. assert (base n / 2 ^ k < 2 ^ (t - k)) by nia. nia.
Qed.

Lemma in_pool_bytes x : in_pool n x -> 256 ^ (zlen (net_IP n) - 1) <= x < 256 ^ zlen (net_IP n).
Proof. intros Hx. unfold in_pool in Hx. pose proof pool_top. pose proof (net_high n Hn). lia. Qed.

(** The top byte of an address of a pool is not 0, so that it is not the mapped
    form of an IPv4 address. *)
Lemma not_mapped x : 256 ^ 15 <= x < 256 ^ 16 -> take 10 (put_be 16 x) <> replicate 10 x00.
Proof.
  intros Hx E. pose proof (f_equal (fun l => get_be l) E) as E'. cbn beta in E'.
  assert (Hz : get_be (replicate 10 x00) = 0) by reflexivity. rewrite Hz in E'.
  pose proof (get_put_be 16 x) as Hg. rewrite <- (take_drop 10 (put_be 16 x)), get_be_app, E' in Hg.
  rewrite Z.mod_small in Hg by (change (Z.of_nat 16) with 16; lia).
  pose proof (get_be_bound (drop 10 (put_be 16 x))) as Hb. revert Hb. unfold zlen. rewrite length_drop, length_put_be.
  change (Z.of_nat (16 - 10)) with 6. intros Hb.
  assert (256 ^ 6 < 256 ^ 15) by (vm_compute; done). lia.
Qed.

Lemma To4_v6 x : 256 ^ 15 <= x < 256 ^ 16 -> To4 (put_be 16 x) = None.
Proof.
  intros Hx. unfold To4. rewrite bool_decide_false by (by rewrite length_put_be). rewrite (bool_decide_false (take 12 _ = _)).
  - by rewrite andb_false_r.
  - intros E. apply (not_mapped x Hx). apply (f_equal (take 10)) in E. rewrite take_take in E. done.
Qed.

Lemma networkNumber_ok : networkNumber n = Some (net_IP n, net_ones n).
Proof.
  unfold networkNumber. pose proof (net_bits_ok n Hn) as Hb. pose proof (net_high n Hn) as Hh.
  pose proof (get_be_bound (net_IP n)) as Hg. destruct (net_len n Hn) as [E|E].
  - unfold To4. rewrite bool_decide_true by done. unfold zlen in Hb. rewrite E in Hb. rewrite Hb. done.
  - assert (Hz : zlen (net_IP n) = 16) by (unfold zlen; by rewrite E). rewrite Hz in *. unfold base in Hh.
    rewrite <- (put_get_be (net_IP n)) at 1. rewrite E, To4_v6 by lia. rewrite bool_decide_true by done.
    rewrite Hb. done.
Qed.

Lemma To4_long d : (length d <> 4)%nat -> (length d <> 16)%nat -> To4 d = None.
Proof. intros H4 H16. unfold To4. rewrite bool_decide_false by done. by rewrite (bool_decide_false (length d = 16%nat)). Qed.

(** [Contains] on the bytes of a number at or above the base. *)
Lemma Contains_bytes x :
  base n <= x <= base n + 2 ^ rooms n -> IPNet_Contains n (big_Bytes x) = bool_decide (in_pool n x).
Proof.
  intros Hx. unfold IPNet_Contains. rewrite networkNumber_ok. pose proof pool_top as Ht. pose proof (net_high n Hn) as Hh.
  pose proof rooms_range as Hrr. assert (Hk : 8 * zlen (net_IP n) - net_ones n = rooms n) by (unfold rooms; rewrite (net_bits_ok n Hn); done).
  assert (Hl : 0 < zlen (net_IP n)) by (destruct net_len_cases; lia).
  assert (0 < 2 ^ rooms n) by (apply Z.pow_pos_nonneg; lia).
  destruct (decide (x < 256 ^ zlen (net_IP n))) as [Hlt|Hge].
  - rewrite (big_Bytes_spec (zlen (net_IP n))) by lia.
    assert (Hid : default (put_be (Z.to_nat (zlen (net_IP n))) x) (To4 (put_be (Z.to_nat (zlen (net_IP n))) x)) =
      put_be (Z.to_nat (zlen (net_IP n))) x).
    { destruct net_len_cases as [E|E]; rewrite E in *; [done|].
      change (Z.to_nat 16) with 16%nat. by rewrite To4_v6 by lia. }
    rewrite Hid, bool_decide_true by (rewrite length_put_be; unfold zlen; lia). cbn [andb]. rewrite Hk.
    rewrite get_put_be, Z2Nat.id, Z.mod_small by lia. fold (base n).
    apply eq_true_iff_eq. rewrite shiftr_same, bool_decide_eq_true by (lia || apply (net_base n Hn)). done.
  - assert (Hlen : zlen (big_Bytes x) = zlen (net_IP n) + 1).
    { apply length_big_Bytes; [lia|]. replace (zlen (net_IP n) + 1 - 1) with (zlen (net_IP n)) by lia.
      rewrite Z.pow_add_r by lia. lia. }
    rewrite (bool_decide_false (in_pool n x)) by (unfold in_pool; lia).
    rewrite To4_long by (destruct net_len_cases as [E|E]; unfold zlen in *; lia). cbn [default from_option id].
    rewrite bool_decide_false by (unfold zlen in *; lia). done.
Qed.

Lemma IPAddress_pool x : in_pool n x -> IPAddress (big_Bytes x) = Some (addr n x).
Proof.
  intros Hx. pose proof (in_pool_bytes x Hx) as Hb. unfold addr.
  destruct (net_len n Hn) as [E|E]; (assert (Hz : zlen (net_IP n) = Z.of_nat (length (net_IP n))) by done);
    rewrite E in Hz; rewrite Hz in Hb; rewrite E, (big_Bytes_spec (zlen (net_IP n))) by (rewrite Hz; lia); rewrite Hz.
  - done.
  - rewrite decide_False by done. change (Z.to_nat (Z.of_nat 16)) with 16%nat.
    unfold IPAddress. rewrite length_put_be. rewrite bool_decide_false; [done|].
    by apply not_mapped.
Qed.

Lemma addr_inj x y : in_pool n x -> in_pool n y -> addr n x = addr n y -> x = y.
Proof.
  intros Hx Hy. apply in_pool_bytes in Hx, Hy. unfold addr.
  destruct net_len_cases as [E|E]; rewrite E in *; (destruct (decide _) as [E'|E']; [|]); unfold zlen in E;
    try lia; intros E2; apply (f_equal (fun a => match a with ipv4Address d | ipv6Address d | domainAddress d => get_be d end)) in E2;
    cbv beta iota in E2; rewrite !get_put_be in E2;
    rewrite !Z.mod_small in E2 by (change (Z.of_nat 4) with 4; change (Z.of_nat 16) with 16; lia); done.
Qed.

Lemma addr_in_range x : in_pool n x -> in_range n (addr n x) = true.
Proof.
  intros Hx. pose proof (in_pool_bytes x Hx) as Hb. unfold in_range.
  assert (Hip : IP (addr n x) = Ok (big_Bytes x)).
  { unfold addr. destruct (net_len n Hn) as [E|E]; (assert (Hz : zlen (net_IP n) = Z.of_nat (length (net_IP n))) by done);
      rewrite E in Hz; rewrite Hz in Hb; rewrite E, (big_Bytes_spec (zlen (net_IP n))) by (rewrite Hz; lia); by rewrite Hz. }
  rewrite Hip, Contains_bytes by (unfold in_pool in Hx; lia). by apply bool_decide_true.
Qed.
End Net.

(** ** The cache as a set of pairs *)
Section Cache.
Context {K V : Type} `{Countable K} `{Countable V}.
Implicit Types (l : lru K V).

Lemma pair_key_unique l x y : lru_wf l -> x ∈ abs l -> y ∈ abs l -> x.1 = y.1 -> x = y.
Proof.
  intros Hok (e & He & Ex)%elem_of_pairs (e' & He' & Ey)%elem_of_pairs E. destruct x as [k v], y as [k' v'].
  cbn in E. subst k'. pose proof (key_unique l e e' k v v' Hok He He' Ex Ey). congruence.
Qed.

Lemma NoDup_omap_inj {A B} (f : A -> option B) (o : list A) :
  NoDup o -> (forall x y z, x ∈ o -> y ∈ o -> f x = Some z -> f y = Some z -> x = y) -> NoDup (omap f o).
Proof.
  induction 1 as [|x o Hx Hnd IH]; intros Hinj; [constructor|]. cbn [omap list_omap].
  assert (NoDup (omap f o)) by (apply IH; intros y y' z Hy Hy'; apply Hinj; by right).
  destruct (f x) as [z|] eqn:E; [|done]. constructor; [|done]. intros (y & Hy & Ey)%list_elem_of_omap.
  apply Hx. assert (x = y) as ->; [|done]. apply (Hinj x y z); [by left|by right|done|done].
Qed.

Lemma abs_NoDup l : lru_wf l -> NoDup (abs l).
Proof.
  intros Hok. apply NoDup_omap_inj; [apply Hok|]. intros e e' [k v] He He' E E'. by eapply key_unique.
Qed.

Lemma pair_value_unique l x y : values_ok l -> x ∈ abs l -> y ∈ abs l -> x.2 = y.2 -> x = y.
Proof.
  intros [Hv _] (e & He & Ex)%elem_of_pairs (e' & He' & Ey)%elem_of_pairs E. destruct x as [k v], y as [k' v'].
  cbn in E. subst v'. pose proof (Hv e k v He Ex). pose proof (Hv e' k' v He' Ey). congruence.
Qed.

Lemma find_key_Some k (c : list (K * V)) x : find_key k c = Some x -> x ∈ c /\ x.1 = k.
Proof.
  intros E. unfold find_key in E. apply head_Some_elem_of, list_elem_of_filter in E. tauto.
Qed.

Lemma find_value_Some v (c : list (K * V)) x : find_value v c = Some x -> x ∈ c /\ x.2 = v.
Proof.
  intros E. unfold find_value in E. apply head_Some_elem_of, list_elem_of_filter in E. tauto.
Qed.

Lemma find_key_None k (c : list (K * V)) : find_key k c = None -> forall x, x ∈ c -> x.1 <> k.
Proof.
  intros E x Hx Hk. unfold find_key in E. apply head_None in E.
  assert (Hf : x ∈ filter (fun x => x.1 = k) c) by (by apply list_elem_of_filter). rewrite E in Hf. by apply elem_of_nil in Hf.
Qed.

Lemma find_value_None v (c : list (K * V)) : find_value v c = None -> forall x, x ∈ c -> x.2 <> v.
Proof.
  intros E x Hx Hk. unfold find_value in E. apply head_None in E.
  assert (Hf : x ∈ filter (fun x => x.2 = v) c) by (by apply list_elem_of_filter). rewrite E in Hf. by apply elem_of_nil in Hf.
Qed.

(** Moving a pair to the front keeps the pairs. *)
Lemma touch_same l o y :
  lru_wf l -> (forall x, o = Some x -> x ∈ abs l) -> y ∈ touch o (abs l) <-> y ∈ abs l.
Proof.
  intros Hok Ho. destruct o as [x|]; [|done]. specialize (Ho x eq_refl). cbn [touch].
  rewrite elem_of_cons. unfold drop_key. rewrite list_elem_of_filter.
  split; [intros [->|[_ ?]]; done|]. intros Hy. destruct (decide (y.1 = x.1)) as [E|E]; [|by right].
  left. by eapply pair_key_unique.
Qed.
End Cache.

Section Pool.
Implicit Types (p : started).

(** The numbers the counter runs through from [x]. *)
Definition turn (n : IPNet) (x : Z) (k : nat) : Z := base n + (x - base n + Z.of_nat k) mod 2 ^ rooms n.

Lemma turn_in_pool n x k : net_ok n -> in_pool n (turn n x k).
Proof.
  intros Hn. pose proof (rooms_range n Hn). unfold in_pool, turn.
  pose proof (Z.mod_pos_bound (x - base n + Z.of_nat k) (2 ^ rooms n) ltac:(apply Z.pow_pos_nonneg; lia)). lia.
Qed.

Lemma turn_0 n x : in_pool n x -> turn n x 0 = x.
Proof. intros Hx. unfold turn, in_pool in *. rewrite Z.mod_small by lia. lia. Qed.

Lemma turn_S n x k : net_ok n -> turn n x (S k) = turn n (turn n x 1) k.
Proof.
  intros Hn. unfold turn. f_equal. pose proof (rooms_range n Hn).
  assert (0 < 2 ^ rooms n) by (apply Z.pow_pos_nonneg; lia).
  rewrite Z.add_simpl_l, Z.add_mod_idemp_l by lia. f_equal. lia.
Qed.

Lemma turn_inj n x j k :
  net_ok n -> Z.of_nat j < 2 ^ rooms n -> Z.of_nat k < 2 ^ rooms n -> turn n x j = turn n x k -> j = k.
Proof.
  intros Hn Hj Hk E. unfold turn in E. apply Z.add_cancel_l in E. set (m := 2 ^ rooms n) in *. set (y := x - base n) in *.
  assert (Hd : (Z.of_nat j - Z.of_nat k) mod m = 0).
  { replace (Z.of_nat j - Z.of_nat k) with ((y + Z.of_nat j) - (y + Z.of_nat k)) by lia.
    rewrite Zminus_mod, E, Z.sub_diag. by apply Z.mod_0_l; lia. }
  apply Z.mod_divide in Hd as [q Hq]; [|lia]. assert (q = 0) by nia. lia.
Qed.

Definition values p : list (option Address) := map snd (pairs p).

Lemma elem_of_values p a : a ∈ values p <-> exists d, (d, a) ∈ pairs p.
Proof.
  unfold values. rewrite list_elem_of_fmap. split; [intros ([d v] & -> & ?); by exists d|intros [d ?]; by exists (d, a)].
Qed.

(** [p'] is [p] after lookups and the counter moving on. *)
Definition same_pairs p p' : Prop :=
  pool_ok p' /\ ipRange p' = ipRange p /\ capacity (domainToIP p') = capacity (domainToIP p) /\
  forall y, y ∈ pairs p' <-> y ∈ pairs p.

Lemma same_refl p : pool_ok p -> same_pairs p p.
Proof. intros Hp. split; [exact Hp|]. by repeat split. Qed.

Lemma same_trans p p1 p2 : same_pairs p p1 -> same_pairs p1 p2 -> same_pairs p p2.
Proof.
  intros (? & E1 & C1 & H1) (? & E2 & C2 & H2). split; [done|]. split; [congruence|]. split; [congruence|].
  intros y. by rewrite H2.
Qed.

(** A new cache with the same pairs, and a counter in the pool. *)
Lemma same_intro p cache x :
  pool_ok p -> lru_ok cache -> values_ok cache -> capacity cache = capacity (domainToIP p) ->
  (forall y, y ∈ abs cache <-> y ∈ pairs p) -> in_pool (ipRange p) x ->
  same_pairs p {| domainToIP := cache; nextIP := x; ipRange := ipRange p |}.
Proof.
  intros Hp Hl Hv Hc Ha Hx. split; [|done]. split; cbn [ipRange nextIP domainToIP]; [apply Hp|done..| |].
  - rewrite Hc. apply Hp.
  - intros d a Hda. apply (po_pairs p Hp d a). by apply Ha.
Qed.

Lemma round_spec p :
  pool_ok p ->
  let v := Some (addr (ipRange p) (nextIP p)) in
  exists p' taken, round p = (p', v, taken) /\ same_pairs p p' /\
    nextIP p' = turn (ipRange p) (nextIP p) 1 /\ (taken = true <-> v ∈ values p).
Proof.
  intros Hp v. pose proof (po_net p Hp) as Hn. pose proof (po_next p Hp) as Hx. pose proof (rooms_range _ Hn) as Hr.
  assert (0 < 2 ^ rooms (ipRange p)) by (apply Z.pow_pos_nonneg; lia).
  unfold round. rewrite (IPAddress_pool _ Hn _ Hx). fold v.
  rewrite (Contains_bytes _ Hn) by (unfold in_pool in Hx; lia). fold (base (ipRange p)).
  assert (Hnext : (if negb (bool_decide (in_pool (ipRange p) (nextIP p + 1))) then base (ipRange p) else nextIP p + 1) =
    turn (ipRange p) (nextIP p) 1).
  { unfold turn, in_pool in *. case_bool_decide as Hin; cbn [negb].
    - rewrite Z.mod_small by lia. lia.
    - replace (nextIP p - base (ipRange p) + Z.of_nat 1) with (2 ^ rooms (ipRange p)) by lia.
      rewrite Z.mod_same by lia. lia. }
  rewrite Hnext. clear Hnext.
  pose proof (GetKeyFromValue_abs v (domainToIP p) (po_lru p Hp) (po_values p Hp)) as (Hl & Hv & Ha & Hk).
  pose proof (GetKey_capacity v (domainToIP p)) as Hc.
  destruct (Lru.GetKeyFromValue v (domainToIP p)) as [cache k]. cbn [fst snd] in *.
  eexists _, _. split; [reflexivity|]. split; [|split; [done|]].
  - apply same_intro; [done..| |by apply turn_in_pool]. intros y. rewrite Ha. apply touch_same; [apply (po_lru p Hp)|].
    intros x' E. by apply find_value_Some in E as [? _].
  - rewrite bool_decide_eq_true, Hk, elem_of_values. fold (pairs p). split.
    + intros [d E]. destruct (find_value v (pairs p)) as [[d' v']|] eqn:Ef; [|done].
      apply find_value_Some in Ef as [Hin Hv']. cbn in Hv'. subst v'. by exists d'.
    + intros [d Hin]. destruct (find_value v (pairs p)) as [x|] eqn:Ef; [by eexists|].
      by apply (find_value_None v _ Ef) in Hin.
Qed.

(** The loop stops at the first address that is free. *)
Lemma pick_spec k fuel p :
  pool_ok p -> (k < fuel)%nat ->
  (forall j, (j < k)%nat -> Some (addr (ipRange p) (turn (ipRange p) (nextIP p) j)) ∈ values p) ->
  Some (addr (ipRange p) (turn (ipRange p) (nextIP p) k)) ∉ values p ->
  exists p', pick fuel p = Some (p', Some (addr (ipRange p) (turn (ipRange p) (nextIP p) k))) /\ same_pairs p p'.
Proof.
  revert fuel p. induction k as [|k IH]; intros [|fuel] p Hp Hf Hbefore Hfree; [lia| |lia|]; cbn [pick];
    destruct (round_spec p Hp) as (p1 & taken & -> & Hsame & Hnext & Ht).
  - rewrite turn_0 in * by apply (po_next p Hp). destruct taken; [by destruct Hfree; apply Ht|]. by exists p1.
  - specialize (Hbefore 0%nat ltac:(lia)) as H0. rewrite turn_0 in H0 by apply (po_next p Hp).
    rewrite (proj2 Ht H0). pose proof Hsame as (Hp1 & Er & _ & Hy).
    assert (Hval : forall a, a ∈ values p1 <-> a ∈ values p) by (intros a; rewrite !elem_of_values; by setoid_rewrite Hy).
    destruct (IH fuel p1 Hp1 ltac:(lia)) as (p2 & E2 & Hs2).
    + intros j Hj. rewrite Hval, Er, Hnext, <- turn_S by apply (po_net p Hp). apply Hbefore. lia.
    + rewrite Hval, Er, Hnext, <- turn_S by apply (po_net p Hp). done.
    + exists p2. rewrite E2, Er, Hnext, <- turn_S by apply (po_net p Hp). split; [done|]. by eapply same_trans.
Qed.

(** More addresses than pairs: within one more round than there are pairs, an
    address is free. *)
Lemma free_address p :
  pool_ok p -> exists k, (k <= length (pairs p))%nat /\
    (forall j, (j < k)%nat -> Some (addr (ipRange p) (turn (ipRange p) (nextIP p) j)) ∈ values p) /\
    Some (addr (ipRange p) (turn (ipRange p) (nextIP p) k)) ∉ values p.
Proof.
  intros Hp. pose proof (po_net p Hp) as Hn. set (n := ipRange p). set (f := fun k => Some (addr n (turn n (nextIP p) k))).
  pose proof (po_lru p Hp) as (Hwf & _ & Hlen). pose proof (abs_length _ Hwf) as Habs. fold (pairs p) in Habs.
  pose proof (po_cap p Hp) as Hcap. set (m := length (pairs p)).
  destruct (list_find (fun k => f k ∉ values p) (seq 0 (S m))) as [[i k]|] eqn:E.
  - apply list_find_Some in E as (Hi & Hfree & Hmin). apply lookup_seq in Hi as [-> Hi]. exists i. cbn in Hfree.
    split; [lia|]. split; [|done]. intros j Hj. destruct (decide (f j ∈ values p)) as [|Hno]; [done|]. exfalso.
    apply (Hmin j j); [|done|done]. apply lookup_seq. lia.
  - exfalso. apply list_find_None in E. rewrite Forall_forall in E.
    assert (Hsub : f <$> seq 0 (S m) ⊆+ values p).
    { apply NoDup_submseteq.
      - apply NoDup_fmap_2_strong; [|apply NoDup_seq]. intros j k Hj Hk Ejk. apply elem_of_seq in Hj, Hk.
        injection Ejk as Ejk. apply (addr_inj n Hn) in Ejk; [|by apply turn_in_pool..].
        apply (turn_inj n (nextIP p)) in Ejk; [done|done| |]; unfold zlen in *; fold n in Hcap; lia.
      - intros a (k & -> & Hk)%list_elem_of_fmap. specialize (E k Hk). cbn in E. destruct (decide (f k ∈ values p)); done. }
    apply submseteq_length in Hsub. unfold values in Hsub. rewrite !length_fmap, length_seq in Hsub. fold m in Hsub. lia.
Qed.
End Pool.

(** ** One request *)
Section Requests.
Implicit Types (p : started).

Lemma Get_same p d :
  pool_ok p ->
  same_pairs p {| domainToIP := (Lru.Get d (domainToIP p)).1; nextIP := nextIP p; ipRange := ipRange p |} /\
  match (Lru.Get d (domainToIP p)).2 with
  | Some a => (d, a) ∈ pairs p
  | None => d ∉ map fst (pairs p)
  end.
Proof.
  intros Hp. pose proof (po_lru p Hp) as Hl. pose proof (Get_abs d (domainToIP p) Hl) as (Hl' & Ha & Hk).
  split.
  - apply same_intro; [done|done|by apply values_Get, (po_values p Hp); apply Hl|apply Get_capacity| |apply (po_next p Hp)].
    intros y. rewrite Ha. apply touch_same; [apply Hl|]. intros x E. by apply find_key_Some in E as [? _].
  - rewrite Hk. fold (pairs p). destruct (find_key d (pairs p)) as [[d' a]|] eqn:E; cbn [fmap option_fmap option_map snd].
    + apply find_key_Some in E as [Hin Hd]. cbn in Hd. by subst d'.
    + intros (x & -> & Hx)%list_elem_of_fmap. by apply (find_key_None _ _ E x Hx).
Qed.

(** Remembering a fresh pair. *)
Lemma Put_fresh p d x :
  pool_ok p -> in_pool (ipRange p) x -> d ∉ map fst (pairs p) -> Some (addr (ipRange p) x) ∉ values p ->
  let a := Some (addr (ipRange p) x) in
  let p' := {| domainToIP := Put d a (domainToIP p); nextIP := nextIP p; ipRange := ipRange p |} in
  pool_ok p' /\ (d, a) ∈ pairs p' /\ forall y, y ∈ pairs p' -> y = (d, a) \/ y ∈ pairs p.
Proof.
  intros Hp Hx Hd Hv a p'. pose proof (po_lru p Hp) as Hl. pose proof (po_cap p Hp) as Hcap.
  pose proof (Put_abs d a (domainToIP p) Hl) as (Hl' & Ha & Hc).
  assert (Hpairs : forall y, y ∈ pairs p' -> y = (d, a) \/ y ∈ pairs p).
  { intros y. unfold pairs, p'. cbn [domainToIP]. rewrite Ha. unfold a_put. intros Hy.
    apply subseteq_take in Hy. apply elem_of_cons in Hy as [->|Hy]; [by left|]. right.
    unfold drop_key in Hy. by apply list_elem_of_filter in Hy as [_ Hy]. }
  split; [|split; [|exact Hpairs]].
  - split; cbn [p' ipRange nextIP domainToIP]; [apply Hp|apply Hp|done| |by rewrite Hc|].
    + apply values_Put; [apply Hl|apply Hp|]. right. by split.
    + intros d' a' [[= -> ->]|Hin]%Hpairs; [by exists x|]. by apply (po_pairs p Hp d' a').
  - unfold pairs, p'. cbn [domainToIP]. rewrite Ha. unfold a_put.
    destruct (Z.to_nat (capacity (domainToIP p))) eqn:E; [lia|]. by left.
Qed.

Lemma fake_ip_spec p d :
  pool_ok p ->
  exists p' x, let a := Some (addr (ipRange p) x) in
    fake_ip (S (length (pairs p))) d p = Some (p', Ok a) /\ in_pool (ipRange p) x /\
    pool_ok p' /\ ipRange p' = ipRange p /\ (d, a) ∈ pairs p' /\
    (forall y, y ∈ pairs p' -> y = (d, a) \/ y ∈ pairs p) /\
    ((d, a) ∈ pairs p \/ (d ∉ map fst (pairs p) /\ a ∉ values p)).
Proof.
  intros Hp. unfold fake_ip. destruct (Get_same p d Hp) as [Hs Hk]. destruct (Lru.Get d (domainToIP p)) as [cache o].
  cbn [fst snd] in *. set (p1 := {| domainToIP := cache; nextIP := nextIP p; ipRange := ipRange p |}) in *.
  pose proof Hs as (Hp1 & Er & _ & Hy). destruct o as [a|].
  - destruct (po_pairs p Hp d a Hk) as (x & Hx & ->). exists p1, x. split_and!; try done.
    + by apply Hy.
    + intros y Hin. right. by apply Hy.
    + by left.
  - assert (Hlen : length (pairs p1) = length (pairs p)).
    { apply Permutation_length, NoDup_Permutation; [apply abs_NoDup, (po_lru p1 Hp1)|apply abs_NoDup, (po_lru p Hp)|done]. }
    destruct (free_address p1 Hp1) as (k & Hk1 & Hbefore & Hfree).
    destruct (pick_spec k (S (length (pairs p))) p1 Hp1 ltac:(lia) Hbefore Hfree) as (p2 & -> & Hs2).
    set (x := turn (ipRange p1) (nextIP p1) k) in *. rewrite Er in *.
    pose proof (same_trans _ _ _ Hs Hs2) as (Hp2 & Er2 & _ & Hy2).
    assert (Hx : in_pool (ipRange p) x) by (unfold x; rewrite Er; apply turn_in_pool, (po_net p Hp)).
    assert (Hfree' : Some (addr (ipRange p) x) ∉ values p).
    { rewrite elem_of_values in *. setoid_rewrite Hy in Hfree. done. }
    assert (Hd2 : d ∉ map fst (pairs p2)).
    { intros (y & -> & Hin)%list_elem_of_fmap. apply Hk, list_elem_of_fmap. exists y. by rewrite <- Hy2. }
    assert (Hv2 : Some (addr (ipRange p) x) ∉ values p2).
    { rewrite elem_of_values in *. setoid_rewrite Hy2. done. }
    pose proof (Put_fresh p2 d x Hp2) as Hput. rewrite Er2 in Hput. destruct (Hput Hx Hd2 Hv2) as (Hp3 & Hin & Hall).
    eexists _, x. split; [reflexivity|]. rewrite Er2. split; [done|]. split; [exact Hp3|]. split; [done|]. split; [exact Hin|].
    split; [|by right]. intros y [?|?]%Hall; [by left|right; by apply Hy2].
Qed.
End Requests.

(** ** Starting *)
Lemma shiftl_shiftr z k : 0 <= k -> Z.shiftl (Z.shiftr z k) k = z - z mod 2 ^ k.
Proof.
  intros Hk. rewrite Z.shiftl_mul_pow2, Z.shiftr_div_pow2 by done.
  pose proof (Z.div_mod z (2 ^ k)) as E. assert (0 < 2 ^ k) by (apply Z.pow_pos_nonneg; lia). lia.
Qed.

Lemma dtoi_nonneg s n m : 0 <= n -> dtoi s n = Some m -> 0 <= m.
Proof.
  revert n. induction s as [|c s IH]; intros n Hn E; cbn [dtoi] in E; [by injection E as <-|].
  destruct (between 48 57 (b2z c)) eqn:Hc; [|done]. destruct (_ <=? _); [done|]. apply IH in E; [done|].
  unfold between in Hc. lia.
Qed.

(** An address with its mask applied. *)
Lemma masked_net ip k :
  (length ip = 4%nat \/ length ip = 16%nat) -> 0 <= k <= 8 * zlen ip ->
  let t := 8 * zlen ip - k in
  let n := {| net_IP := put_be (length ip) (Z.shiftl (Z.shiftr (get_be ip) t) t); net_ones := k; net_bits := 8 * zlen ip |} in
  256 ^ (zlen (net_IP n) - 1) <= base n -> net_ok n /\ in_pool n (get_be ip).
Proof.
  intros Hlen Hk t n. pose proof (get_be_bound ip) as Hb. assert (H2 : 0 < 2 ^ t) by (apply Z.pow_pos_nonneg; lia).
  pose proof (Z.mod_pos_bound (get_be ip) _ H2) as Hmod. pose proof (Z.mod_le (get_be ip) _ (proj1 Hb) H2) as Hle.
  assert (Hbase : base n = get_be ip - get_be ip mod 2 ^ t).
  { unfold base, n. cbn [net_IP]. rewrite shiftl_shiftr, get_put_be by lia. apply Z.mod_small. unfold zlen in Hb. lia. }
  intros Hhigh. split.
  - split; [unfold n; cbn [net_IP]; by rewrite length_put_be| |done| |done].
    + unfold n. cbn [net_IP net_bits]. by rewrite zlen_put_be.
    + change (rooms n) with t. rewrite Hbase. pose proof (Z.div_mod (get_be ip) (2 ^ t) ltac:(lia)) as Hdm.
      replace (get_be ip - _) with ((get_be ip / 2 ^ t) * 2 ^ t) by lia. apply Z.mod_mul. lia.
  - unfold in_pool. change (rooms n) with t. rewrite Hbase. lia.
Qed.

(** The networks of [ParseCIDR] serve as pools when their first byte is not 0. *)
Lemma ParseCIDR_pool s ip n :
  ParseCIDR s = Some (ip, n) -> 256 ^ (zlen (net_IP n) - 1) <= base n ->
  net_ok n /\ in_pool n (match To4 ip with Some ip => get_be ip | None => get_be ip end).
Proof.
  unfold ParseCIDR. destruct (list_find _ s) as [[i c]|]; [|done].
  destruct (ParseIP (take i s)) as [ip0|] eqn:Eip; [|destruct (bool_decide _); done].
  pose proof (ParseIP_length _ _ Eip) as Hlen.
  destruct (if bool_decide (drop (S i) s = []) then None else _) as [k|] eqn:Ek; [|destruct (bool_decide _); done].
  assert (Hk : 0 <= k). { destruct (bool_decide _) in Ek; [done|]. by eapply dtoi_nonneg. }
  destruct (bool_decide (z2b 58 ∈ take i s)) eqn:Hcolon; cbn [mbind option_bind]; (destruct (_ <? k) eqn:Hbk; [done|]);
    intros [= <- <-] Hhigh.
  - assert (Hz : 128 = 8 * zlen ip0) by (unfold zlen; by rewrite Hlen).
    assert (Hm : net_ok (mkIPNet (put_be (length ip0) (Z.shiftl (Z.shiftr (get_be ip0) (128 - k)) (128 - k))) k 128) /\
      in_pool (mkIPNet (put_be (length ip0) (Z.shiftl (Z.shiftr (get_be ip0) (128 - k)) (128 - k))) k 128) (get_be ip0)).
    { rewrite Hz in *. apply masked_net; [by right|lia|done]. }
    destruct Hm as [Hn Hx]. split; [exact Hn|].
    pose proof (in_pool_bytes _ Hn _ Hx) as Hb. cbn [net_IP] in Hb. rewrite zlen_put_be, Hlen in Hb.
    assert (To4 ip0 = None) as ->; [|exact Hx]. rewrite <- (put_get_be ip0), Hlen. by apply To4_v6.
  - apply bool_decide_eq_false in Hcolon. rewrite (ParseIP_dotted _ _ Eip Hcolon).
    assert (Hl : length (drop 12 ip0) = 4%nat) by (by rewrite length_drop, Hlen).
    assert (Hz : 32 = 8 * zlen (drop 12 ip0)) by (unfold zlen; by rewrite Hl).
    change (32 =? 32) with true in *. cbn [net_IP] in *. cbv iota in *.
    rewrite Hz in *. apply masked_net; [by left|lia|done].
Qed.

Lemma initialize_pool s size h h' ip n :
  initialize s size h = (h', Ok tt) -> ParseCIDR s = Some (ip, n) ->
  0 < size -> 256 ^ (zlen (net_IP n) - 1) <= base n ->
  exists p, running h' = Some p /\ pool_ok p /\ pairs p = [] /\ ipRange p = n.
Proof.
  unfold initialize. intros E Hs Hsz Hhigh. rewrite Hs in E. destruct (ParseCIDR_pool s ip n Hs Hhigh) as [Hn Hx].
  destruct (Log2_ge _ _) eqn:Hlog in E; [done|]. injection E as <-. eexists. split; [reflexivity|].
  unfold Log2_ge in Hlog. replace (0 <? size) with true in Hlog by lia. cbn [andb] in Hlog. fold (rooms n) in Hlog.
  destruct (NewLru_ok (K := bytes) (V := option Address) size ltac:(lia)) as [Hl Hv].
  split; [|done]. split; cbn [ipRange nextIP domainToIP]; [done|done|done|done|cbn [NewLru capacity]; lia|].
  intros d a Hda. by apply elem_of_nil in Hda.
Qed.

(** ** Looking a domain up *)
Lemma domain_of_spec a p :
  pool_ok p ->
  same_pairs p (domain_of a p).1 /\
  ((domain_of a p).2 = [] \/ ((domain_of a p).2, Some a) ∈ pairs p) /\
  (forall d, in_range (ipRange p) a = true -> (d, Some a) ∈ pairs p -> (domain_of a p).2 = d).
Proof.
  intros Hp. unfold domain_of. destruct (in_range (ipRange p) a) eqn:Ein; cbn [negb].
  - pose proof (GetKeyFromValue_abs (Some a) (domainToIP p) (po_lru p Hp) (po_values p Hp)) as (Hl & Hv & Ha & Hk).
    pose proof (GetKey_capacity (Some a) (domainToIP p)) as Hc.
    destruct (Lru.GetKeyFromValue (Some a) (domainToIP p)) as [cache k]. cbn [fst snd] in *. fold (pairs p) in Hk.
    split; [|split].
    + apply same_intro; [done..| |apply (po_next p Hp)]. intros y. rewrite Ha.
      apply touch_same; [apply (po_lru p Hp)|]. intros x E. by apply find_value_Some in E as [? _].
    + subst k. destruct (find_value (Some a) (pairs p)) as [[d v]|] eqn:E; [right|by left].
      apply find_value_Some in E as [Hin Hd]. cbn in Hd. by subst v.
    + intros d _ Hin. subst k. destruct (find_value (Some a) (pairs p)) as [[d' v]|] eqn:E.
      * apply find_value_Some in E as [Hin' Hd]. cbn in Hd. subst v. cbn.
        assert ((d', Some a) = (d, Some a)) as E; [|by injection E].
        eapply pair_value_unique; [apply (po_values p Hp)|done..].
      * by apply (find_value_None _ _ E) in Hin.
  - split; [by apply same_refl|]. split; [by left|done].
Qed.

(** ** What holds along every history *)
Definition remembers (n : IPNet) (log : list (bytes * option Address)) (h : Holder) : Prop :=
  exists p, running h = Some p /\ pool_ok p /\ ipRange p = n /\
    forall d a, (d, a) ∈ pairs p -> last_given a log = Some d.

Lemma last_given_cons a d a' log :
  last_given a ((d, a') :: log) = if decide (a' = a) then Some d else last_given a log.
Proof. unfold last_given. rewrite filter_cons. cbn [snd]. by destruct (decide (a' = a)). Qed.

Lemma GetDomain_spec n log h a :
  remembers n log h ->
  exists h' d, GetDomainFromFakeDNS a h = (h', Ok d) /\ remembers n log h' /\
    (d = [] \/ last_given (Some a) log = Some d).
Proof.
  intros (p & E & Hp & Hr & Hlog). unfold GetDomainFromFakeDNS.
  destruct (IsIP (Family a)); cbn [negb]; [|eexists h, []; split; [done|]; split; [by exists p|by left]].
  unfold with_running. rewrite E. destruct (domain_of_spec a p Hp) as ((Hp' & Er' & _ & Hy) & Hd & _).
  destruct (domain_of a p) as [p' d]. cbn [fst snd] in *. eexists _, d. split; [done|]. split.
  - exists p'. split; [done|]. split; [done|]. split; [congruence|]. intros d' a' Hin%Hy. by apply Hlog.
  - destruct Hd as [?|Hd]; [by left|right]. by apply Hlog.
Qed.

Lemma GetFake_spec n log h d :
  remembers n log h ->
  exists h' x, let a := addr n x in
    GetFakeIPForDomain (enough h) d h = Some (h', Ok [Some a]) /\ in_pool n x /\
    remembers n ((d, Some a) :: log) h' /\ (GetDomainFromFakeDNS a h').2 = Ok d.
Proof.
  intros (p & E & Hp & <- & Hlog). unfold GetFakeIPForDomain, enough. rewrite E.
  destruct (fake_ip_spec p d Hp) as (p' & x & -> & Hx & Hp' & Er & Hin & Hall & Hold).
  eexists _, x. split; [reflexivity|]. split; [done|]. split.
  - exists p'. split; [done|]. split; [done|]. split; [done|]. intros d' a Hd'. rewrite last_given_cons.
    destruct (decide (Some (addr (ipRange p) x) = a)) as [<-|Hne].
    + f_equal. symmetry.
      exact (f_equal fst (pair_value_unique _ (d', _) (d, _) (po_values p' Hp') Hd' Hin eq_refl)).
    + apply Hall in Hd' as [E2|Hd']; [congruence|]. by apply Hlog.
  - assert (HIP : IsIP (Family (addr (ipRange p) x)) = true) by (unfold addr; by destruct (decide _)).
    unfold GetDomainFromFakeDNS. rewrite HIP. cbn [negb with_running running].
    destruct (domain_of_spec (addr (ipRange p) x) p' Hp') as (_ & _ & Hd).
    specialize (Hd d). rewrite Er in Hd. specialize (Hd (addr_in_range _ (po_net p Hp) x Hx) Hin).
    unfold with_running. cbn [running]. destruct (domain_of _ p'). cbn [fst snd] in *. by subst.
Qed.

(** ** Theorems *)

(** C22. Fake DNS over every history of requests from a holder started on a
    network (with a first byte that is not 0) and a positive cache size: a
    request for a domain always ends - the search for a free address needs at
    most one round more than there are pairs remembered - with an address of
    the network, and looking that address up gives the domain back; and whatever
    was remembered and forgotten in between, an address never leads to a domain
    other than the one it was last given to. *)
Theorem fakedns_history s size h00 h0 ip n log h :
  initialize s size h00 = (h0, Ok tt) -> ParseCIDR s = Some (ip, n) ->
  0 < size -> 256 ^ (zlen (net_IP n) - 1) <= base n -> history h0 log h ->
  (forall d, exists h' x, GetFakeIPForDomain (enough h) d h = Some (h', Ok [Some (addr n x)]) /\ in_pool n x /\
     (GetDomainFromFakeDNS (addr n x) h').2 = Ok d) /\
  (forall a, exists d, (GetDomainFromFakeDNS a h).2 = Ok d /\ (d = [] \/ last_given (Some a) log = Some d)).
Proof.
  intros Hinit Hs Hsz Hhigh Hhist.
  assert (Hrem : remembers n log h).
  { induction Hhist as [|log h d a h' _ IH Hf|log h a h' x _ IH Hf].
    - destruct (initialize_pool _ _ _ _ _ _ Hinit Hs Hsz Hhigh) as (p & E & Hp & Hpairs & Hr).
      exists p. split_and!; [done|done|done|]. intros d a Hin. rewrite Hpairs in Hin. by apply elem_of_nil in Hin.
    - destruct (GetFake_spec n log h d IH) as (h2 & x & E & _ & Hr & _). rewrite Hf in E.
      injection E as -> ->. exact Hr.
    - destruct (GetDomain_spec n log h a IH) as (h2 & d & E & Hr & _). rewrite Hf in E. by injection E as -> _. }
  split.
  - intros d. destruct (GetFake_spec n log h d Hrem) as (h' & x & E & Hx & _ & Hd). by exists h', x.
  - intros a. destruct (GetDomain_spec n log h a Hrem) as (h' & d & -> & _ & Hd). by exists d.
Qed.

Definition demo_holder : Holder := (initialize (lit "198.18.0.0/30") 2 (NewFakeDNSHolderConfigOnly None)).1.
Definition demo_net : IPNet := mkIPNet (map z2b [198; 18; 0; 0]) 30 32.

Lemma fakedns_history_witness :
  exists h' x, GetFakeIPForDomain 1 (lit "v2fly.org") demo_holder = Some (h', Ok [Some (addr demo_net x)]) /\
    in_pool demo_net x /\ (GetDomainFromFakeDNS (addr demo_net x) h').2 = Ok (lit "v2fly.org").
Proof.
  destruct (fakedns_history (lit "198.18.0.0/30") 2 (NewFakeDNSHolderConfigOnly None) demo_holder
    (replicate 10 x00 ++ map z2b [255; 255; 198; 18; 0; 0]) demo_net [] demo_holder) as [H _].
  - vm_compute. reflexivity.
  - vm_compute. reflexivity.
  - lia.
  - vm_compute. discriminate.
  - apply h_start.
  - destruct (H (lit "v2fly.org")) as (h' & x & E & Hx & Ed). exists h', x. split; [exact E|split; [exact Hx|exact Ed]].
Defined.

(** A network whose addresses start with a zero byte is not usable: the bytes of
    the counter lose the zeros, the first domain gets a nil address, and the
    second request never ends, under the lock; asking again for the first domain
    panics. *)
Definition zero_holder : Holder := (initialize (lit "0.0.0.0/8") 10 (NewFakeDNSHolderConfigOnly None)).1.

Lemma zero_pool_hangs :
  exists h, GetFakeIPForDomain 1 (lit "a") zero_holder = Some (h, Ok [None]) /\
    (exists h', GetFakeIPForDomain 1 (lit "a") h = Some (h', Panic)) /\
    forall fuel, GetFakeIPForDomain fuel (lit "b") h = None.
Proof.
  eexists. split; [vm_compute; reflexivity|]. split; [eexists; vm_compute; reflexivity|]. intros fuel. unfold GetFakeIPForDomain. cbn [running].
  set (p := mkStarted _ _ _). unfold fake_ip.
  assert (Lru.Get (lit "b") (domainToIP p) = (domainToIP p, None)) as -> by (vm_compute; reflexivity).
  assert (Hp : {| domainToIP := domainToIP p; nextIP := nextIP p; ipRange := ipRange p |} = p) by reflexivity.
  rewrite Hp. assert (Hround : round p = (p, None, true)) by (vm_compute; reflexivity).
  assert (pick fuel p = None) as ->; [|done].
  induction fuel as [|fuel IH]; [done|]. cbn [pick]. by rewrite Hround.
Qed.
