(* ===== verification/FakeDnsMulti.v ===== *)
(** * Package app/dns/fakedns: several holders

    [Module FakeDnsMulti] models the [HolderMulti] of app/dns/fakedns/fake.go:
    several holders over networks that must not overlap.  The holders are shared
    - the HolderMulti of a DNS client and the one of the application have the
    same - so they live in a heap and a [HolderMulti] is a list of pointers. *)
From S2P Require Import Prelude GoStd NetAddr Lru FakeDns.
Import NetAddr Lru FakeDns.

Module FakeDnsMulti.

Abbreviation heap := (list Holder).
Abbreviation HolderMulti := (list nat).

(** A method of the holder a pointer leads to. *)
Definition at_ptr {A} (f : ST Holder A) (v : nat) : ST heap A := fun s =>
  match s !! v with
  | Some h => let '(h, x) := f h in (<[v := h]> s, x)
  | None => (s, Panic)
  end.

Fixpoint Multi_IsIPInIPPool_loop (h : HolderMulti) (ip : Address) : ST heap bool :=
  match h with
  | [] => mret false
  | v :: h' => b ← at_ptr (IsIPInIPPool ip) v; if b : bool then mret true else Multi_IsIPInIPPool_loop h' ip
  end.

Definition Multi_IsIPInIPPool (h : HolderMulti) (ip : Address) : ST heap bool :=
  if IsDomain (Family ip) then mret false else Multi_IsIPInIPPool_loop h ip.

(** The addresses of every holder, each with its own fuel. *)
Fixpoint Multi_GetFakeIPForDomain (fuel : nat) (domain : bytes) (h : HolderMulti) (s : heap)
    : option (heap * res (list (option Address))) :=
  match h with
  | [] => Some (s, Ok [])
  | v :: h' =>
    match s !! v with
    | None => Some (s, Panic)
    | Some holder =>
      match GetFakeIPForDomain fuel domain holder with
      | None => None
      | Some (holder, Ok ips) =>
        match Multi_GetFakeIPForDomain fuel domain h' (<[v := holder]> s) with
        | Some (s, Ok rest) => Some (s, Ok (ips ++ rest))
        | r => r
        end
      | Some (holder, x) => Some (<[v := holder]> s, x)
      end
    end
  end.

Fixpoint Multi_GetFakeIPForDomain3 (fuel : nat) (domain : bytes) (ipv4 ipv6 : bool) (h : HolderMulti) (s : heap)
    : option (heap * res (list (option Address))) :=
  match h with
  | [] => Some (s, Ok [])
  | v :: h' =>
    match s !! v with
    | None => Some (s, Panic)
    | Some holder =>
      match GetFakeIPForDomain3 fuel domain ipv4 ipv6 holder with
      | None => None
      | Some (holder, Ok ips) =>
        match Multi_GetFakeIPForDomain3 fuel domain ipv4 ipv6 h' (<[v := holder]> s) with
        | Some (s, Ok rest) => Some (s, Ok (ips ++ rest))
        | r => r
        end
      | Some (holder, x) => Some (<[v := holder]> s, x)
      end
    end
  end.

Fixpoint Multi_GetDomainFromFakeDNS (h : HolderMulti) (ip : Address) : ST heap bytes :=
  match h with
  | [] => mret []
  | v :: h' =>
    domain ← at_ptr (GetDomainFromFakeDNS ip) v;
    if negb (bool_decide (domain = [])) then mret domain else Multi_GetDomainFromFakeDNS h' ip
  end.

(** The network of a holder: of its state when it is started, else of its
    configuration. *)
Definition holder_range (v : Holder) : res IPNet :=
  match running v with
  | Some p => Ok (ipRange p)
  | None =>
    match config v with
    | None => Panic
    | Some c => match ParseCIDR (IpPool c) with Some (_, n) => Ok n | None => Err (NewError "invalid CIDR address") end
    end
  end.

(** The loop of [AddPool]: the holder of the same network, or whether some
    holder is started. *)
Fixpoint find_pool (s : heap) (h : HolderMulti) (newIPRange : IPNet) (started : bool) : res (nat + bool) :=
  match h with
  | [] => Ok (inr started)
  | v :: h' =>
    holder ← or_panic (s !! v);
    ipRange ← holder_range holder;
    if same_String ipRange newIPRange then Ok (inl v) else
    if IPNet_Contains ipRange (net_IP newIPRange) || IPNet_Contains newIPRange (net_IP ipRange)
    then Err (NewError "Trying to add ip pool ") else
    find_pool s h' newIPRange (started || bool_decide (is_Some (running holder)))
  end.

Definition AddPool (poolConfig : FakeDnsPool) : ST (heap * HolderMulti) nat := fun '(s, h) =>
  match ParseCIDR (IpPool poolConfig) with
  | None => ((s, h), Err (NewError "invalid CIDR address"))
  | Some (_, newIPRange) =>
    match find_pool s h newIPRange false with
    | Ok (inl v) => ((s, h), Ok v)
    | Ok (inr started) =>
      let holder := NewFakeDNSHolderConfigOnly (Some poolConfig) in
      let '(holder, x) := if started : bool then Start holder else (holder, Ok tt) in
      match x with
      | Ok _ => ((s ++ [holder], h ++ [length s]), Ok (length s))
      | Err e => ((s ++ [holder], h), Err e)
      | Panic => ((s, h), Panic)
      end
    | Err e => ((s, h), Err e)
    | Panic => ((s, h), Panic)
    end
  end.

(** The pointers of the new [HolderMulti], which shares its holders with [h]. *)
Fixpoint AddPoolMulti (pools : list FakeDnsPool) : ST (heap * HolderMulti) HolderMulti :=
  match pools with
  | [] => mret []
  | c :: pools' => pool ← AddPool c; rest ← AddPoolMulti pools'; mret (pool :: rest)
  end.

Fixpoint Multi_Start (h : HolderMulti) : ST heap unit :=
  match h with
  | [] => mret tt
  | v :: h' => _ ← st_base "Cannot start all fake dns pools" (at_ptr Start v); Multi_Start h'
  end.

Fixpoint Multi_Close (h : HolderMulti) : ST heap unit :=
  match h with
  | [] => mret tt
  | v :: h' => _ ← at_ptr (fun v => (Close v, Ok tt)) v; Multi_Close h'
  end.

Fixpoint createHolderGroups (pools : list FakeDnsPool) : ST (heap * HolderMulti) unit :=
  match pools with
  | [] => mret tt
  | c :: pools' => _ ← AddPool c; createHolderGroups pools'
  end.

Definition NewFakeDNSHolderMulti (pools : list FakeDnsPool) : heap * res HolderMulti :=
  match createHolderGroups pools ([], []) with
  | ((s, h), Ok _) => (s, Ok h)
  | ((s, _), Err e) => (s, Err e)
  | ((s, _), Panic) => (s, Panic)
  end.

(** ** Histories of several holders *)
Inductive mop :=
  | MAdd (c : FakeDnsPool) | MStart | MClose
  | MFake (fuel : nat) (domain : bytes) (ipv4 ipv6 : bool) | MDomain (a : Address).

(** The state after an operation, whatever it answered; a request without enough
    fuel changes nothing. *)
Definition multi_step (o : mop) (x : heap * HolderMulti) : heap * HolderMulti :=
  let '(s, h) := x in
  match o with
  | MAdd c => (AddPool c (s, h)).1
  | MStart => ((Multi_Start h s).1, h)
  | MClose => ((Multi_Close h s).1, h)
  | MFake fuel d v4 v6 =>
    (match Multi_GetFakeIPForDomain3 fuel d v4 v6 h s with Some (s', _) => s' | None => s end, h)
  | MDomain a => ((Multi_GetDomainFromFakeDNS h a s).1, h)
  end.
End FakeDnsMulti.
Import FakeDnsMulti.

(** ** Networks that do not overlap *)
Definition cidr (n : IPNet) : Prop :=
  exists nn ones, networkNumber n = Some (nn, ones) /\ 0 <= ones <= 8 * zlen nn.

Lemma ParseCIDR_cidr s ip n : ParseCIDR s = Some (ip, n) -> cidr n.
Proof.
  unfold ParseCIDR. destruct (list_find _ s) as [[i c]|]; [|done].
  destruct (ParseIP (take i s)) as [ip0|] eqn:Eip; [|destruct (bool_decide _); done].
  pose proof (ParseIP_length _ _ Eip) as Hlen.
  destruct (if bool_decide (drop (S i) s = []) then None else _) as [k|] eqn:Ek; [|destruct (bool_decide _); done].
  assert (Hk : 0 <= k). { destruct (bool_decide _) in Ek; [done|]. by eapply dtoi_nonneg. }
  destruct (bool_decide (z2b 58 ∈ take i s)); cbn [mbind option_bind]; (destruct (_ <? k) eqn:Hbk; [done|]); intros [= <- <-];
    unfold cidr, networkNumber; cbn [net_IP net_bits net_ones].
  - change (128 =? 32) with false. change (128 =? 128) with true. cbv iota.
    set (d := put_be (length ip0) _). assert (Hd : length d = 16%nat) by (unfold d; by rewrite length_put_be).
    destruct (To4 d) as [d4|] eqn:E4.
    + exists d4, (Z.max 0 (k - 96)). split; [done|]. unfold To4 in E4. rewrite Hd in E4.
      rewrite bool_decide_false in E4 by done. destruct (_ && _); [|done]. injection E4 as <-.
      unfold zlen. rewrite length_drop, Hd. lia.
    + rewrite bool_decide_true by done. exists d, k. split; [done|]. unfold zlen. rewrite Hd. lia.
  - change (32 =? 32) with true. cbv iota. set (d := put_be (length (drop 12 ip0)) _).
    assert (Hd : length d = 4%nat) by (unfold d; by rewrite length_put_be, length_drop, Hlen).
    unfold To4. rewrite bool_decide_true by done. exists d, k. split; [done|]. unfold zlen. rewrite Hd. lia.
Qed.

Lemma networkNumber_IP n nn ones : networkNumber n = Some (nn, ones) -> default (net_IP n) (To4 (net_IP n)) = nn.
Proof.
  unfold networkNumber. destruct (To4 (net_IP n)) as [d|]; [|by case_match; intros [= <- _]].
  destruct (_ =? 32); [by intros [= -> _]|]. destruct (_ =? 128); [by intros [= -> _]|done].
Qed.

(** Two networks with a common address: the wider one contains the address of the
    other. *)
Lemma overlap_contains n m ip :
  cidr n -> cidr m -> IPNet_Contains n ip = true -> IPNet_Contains m ip = true ->
  IPNet_Contains n (net_IP m) = true \/ IPNet_Contains m (net_IP n) = true.
Proof.
  intros (a & j & Ea & Hj) (b & k & Eb & Hk). unfold IPNet_Contains. rewrite Ea, Eb.
  rewrite (networkNumber_IP n a j Ea), (networkNumber_IP m b k Eb).
  set (x := default ip (To4 ip)). rewrite !andb_true_iff, !bool_decide_eq_true, !Z.eqb_eq.
  intros [La Sa] [Lb Sb]. assert (Hz : zlen a = zlen b) by (unfold zlen; lia). rewrite Hz in *.
  destruct (Z.le_ge_cases j k) as [Hle|Hle]; [left|right]; (split; [congruence|]).
  - rewrite Sa. replace (8 * zlen b - j) with ((8 * zlen b - k) + (k - j)) by lia.
    rewrite <- !Z.shiftr_shiftr by lia. by rewrite Sb.
  - rewrite Sb. replace (8 * zlen b - k) with ((8 * zlen b - j) + (j - k)) by lia.
    rewrite <- !Z.shiftr_shiftr by lia. by rewrite Sa.
Qed.

(** A holder with a configuration for the network [n], started on it or not. *)
Definition holder_net (h : Holder) (n : IPNet) : Prop :=
  exists c ip, config h = Some c /\ ParseCIDR (IpPool c) = Some (ip, n) /\
    forall p, running h = Some p -> ipRange p = n.

Definition net_at (s : heap) (v : nat) (n : IPNet) : Prop := exists h, s !! v = Some h /\ holder_net h n.

(** The holders are where they were, with their networks. *)
Definition keeps (s s' : heap) : Prop := forall v n, net_at s v n -> net_at s' v n.

Lemma keeps_refl s : keeps s s.
Proof. by intros v n. Qed.

Lemma keeps_trans s1 s2 s3 : keeps s1 s2 -> keeps s2 s3 -> keeps s1 s3.
Proof. intros H1 H2 v n H. by apply H2, H1. Qed.

Lemma keeps_update s v h h' :
  s !! v = Some h -> (forall n, holder_net h n -> holder_net h' n) -> keeps s (<[v := h']> s).
Proof.
  intros E Hh w n (h2 & E2 & Hn). destruct (decide (w = v)) as [->|Hne].
  - exists h'. split; [|apply Hh; congruence]. apply list_lookup_insert_eq. by eapply lookup_lt_Some.
  - exists h2. by rewrite list_lookup_insert_ne by done.
Qed.

Lemma keeps_app s h : keeps s (s ++ [h]).
Proof. intros v n (h2 & E & Hn). exists h2. split; [|done]. by apply lookup_app_l_Some. Qed.

Definition net_stable {A} (f : ST Holder A) : Prop := forall h n, holder_net h n -> holder_net (f h).1 n.

Lemma at_ptr_keeps {A} (f : ST Holder A) v s : net_stable f -> keeps s (at_ptr f v s).1.
Proof.
  intros Hf. unfold at_ptr. destruct (s !! v) as [h|] eqn:E; [|apply keeps_refl].
  specialize (Hf h). destruct (f h) as [h' x]. cbn [fst] in *. by apply (keeps_update s v h h').
Qed.

Lemma domain_of_range a p : ipRange (domain_of a p).1 = ipRange p.
Proof. unfold domain_of. destruct (negb _); [done|]. by destruct (Lru.GetKeyFromValue _ _). Qed.

Lemma pick_range fuel p p' a : pick fuel p = Some (p', a) -> ipRange p' = ipRange p.
Proof.
  revert p. induction fuel as [|fuel IH]; intros p; [done|]. cbn [pick]. unfold round.
  destruct (Lru.GetKeyFromValue _ _) as [cache k]. destruct (bool_decide _); [intros E; by rewrite (IH _ E)|].
  by intros [= <- _].
Qed.

Lemma fake_ip_range fuel d p p' a : fake_ip fuel d p = Some (p', a) -> ipRange p' = ipRange p.
Proof.
  unfold fake_ip. destruct (Lru.Get d _) as [cache [v|]]; [by intros [= <- _]|].
  destruct (pick _ _) as [[p1 ip]|] eqn:E; [|done]. intros [= <- _]. by apply pick_range in E.
Qed.

Lemma stable_running h h' n :
  holder_net h n -> config h' = config h ->
  (forall p', running h' = Some p' -> exists p, running h = Some p /\ ipRange p' = ipRange p) -> holder_net h' n.
Proof.
  intros (c & ip & Hc & Hs & Hr) Ec Hp. exists c, ip. split; [congruence|]. split; [done|].
  intros p' E. destruct (Hp p' E) as (p & Ep & ->). by apply Hr.
Qed.

Lemma GetDomain_stable a : net_stable (GetDomainFromFakeDNS a).
Proof.
  intros h n Hh. unfold GetDomainFromFakeDNS. destruct (negb _); [done|]. unfold with_running.
  destruct (running h) as [p|] eqn:E; [|done]. pose proof (domain_of_range a p) as Hr.
  destruct (domain_of a p) as [p' d]. cbn [fst] in *. apply (stable_running h); [done|done|].
  intros p2 [= <-]. by exists p.
Qed.

Lemma Start_stable : net_stable Start.
Proof.
  intros h n Hh. pose proof Hh as (c & ip & Hc & Hs & Hr). unfold Start. rewrite Hc.
  destruct (_ && _); [|done]. unfold initialize. rewrite Hs. destruct (Log2_ge _ _); [done|].
  exists c, ip. split; [done|]. split; [done|]. by intros p [= <-].
Qed.

Lemma Close_stable : net_stable (fun v => (Close v, Ok tt)).
Proof. intros h n Hh. by apply (stable_running h). Qed.

Lemma GetFake3_stable fuel d v4 v6 h n h' x :
  GetFakeIPForDomain3 fuel d v4 v6 h = Some (h', x) -> holder_net h n -> holder_net h' n.
Proof.
  intros E Hh. unfold GetFakeIPForDomain3 in E. destruct (running h) as [p|] eqn:Er; [|by injection E as <- _].
  destruct (_ || _); [|by injection E as <- _]. unfold GetFakeIPForDomain in E. rewrite Er in E.
  destruct (fake_ip fuel d p) as [[p' a]|] eqn:Ef; [|done]. injection E as <- _.
  apply (stable_running h); [done|done|]. intros p2 [= <-]. exists p. split; [done|]. by eapply fake_ip_range.
Qed.

(** ** Every operation keeps the networks *)
Lemma GetDomain_keeps h a s : keeps s (Multi_GetDomainFromFakeDNS h a s).1.
Proof.
  revert s. induction h as [|v h IH]; intros s; [apply keeps_refl|]. cbn [Multi_GetDomainFromFakeDNS].
  unfold mbind, st_bind. pose proof (at_ptr_keeps _ v s (GetDomain_stable a)) as Hk.
  destruct (at_ptr _ v s) as [s1 [d|e|]]; cbn [fst] in *; [|done|done].
  destruct (negb _); [done|]. by eapply keeps_trans.
Qed.

Lemma Multi_Start_keeps h s : keeps s (Multi_Start h s).1.
Proof.
  revert s. induction h as [|v h IH]; intros s; [apply keeps_refl|]. cbn [Multi_Start].
  unfold mbind, st_bind, st_base. pose proof (at_ptr_keeps _ v s Start_stable) as Hk.
  destruct (at_ptr _ v s) as [s1 [d|e|]]; cbn [fst] in *; [|done|done]. by eapply keeps_trans.
Qed.

Lemma Multi_Close_keeps h s : keeps s (Multi_Close h s).1.
Proof.
  revert s. induction h as [|v h IH]; intros s; [apply keeps_refl|]. cbn [Multi_Close].
  unfold mbind, st_bind. pose proof (at_ptr_keeps _ v s Close_stable) as Hk.
  destruct (at_ptr _ v s) as [s1 [d|e|]]; cbn [fst] in *; [|done|done]. by eapply keeps_trans.
Qed.

Lemma Multi_GetFake_keeps fuel d v4 v6 h s s' x :
  Multi_GetFakeIPForDomain3 fuel d v4 v6 h s = Some (s', x) -> keeps s s'.
Proof.
  revert s s' x. induction h as [|v h IH]; intros s s' x; cbn [Multi_GetFakeIPForDomain3]; [intros [= <- _]; apply keeps_refl|].
  destruct (s !! v) as [holder|] eqn:Ev; [|intros [= <- _]; apply keeps_refl].
  destruct (GetFakeIPForDomain3 fuel d v4 v6 holder) as [[holder' y]|] eqn:E; [|done].
  assert (Hk : keeps s (<[v := holder']> s)).
  { apply (keeps_update s v holder); [done|]. intros n. by apply (GetFake3_stable _ _ _ _ _ _ _ _ E). }
  destruct y as [ips|e|]; [|by intros [= <- _]..].
  destruct (Multi_GetFakeIPForDomain3 fuel d v4 v6 h _) as [[s2 z]|] eqn:E2; [|done]. apply IH in E2.
  pose proof (keeps_trans _ _ _ Hk E2). by destruct z; intros [= <- _].
Qed.

(** The holders of [h] have networks, and no two of them overlap. *)
Definition apart (x : heap * HolderMulti) : Prop :=
  (forall v, v ∈ x.2 -> exists n, net_at x.1 v n) /\
  forall i j v w n m ip, x.2 !! i = Some v -> x.2 !! j = Some w -> net_at x.1 v n -> net_at x.1 w m ->
    IPNet_Contains n ip = true -> IPNet_Contains m ip = true -> i = j.

Lemma holder_net_unique h n m : holder_net h n -> holder_net h m -> n = m.
Proof. intros (c & ip & Hc & Hs & _) (c' & ip' & Hc' & Hs' & _). congruence. Qed.

Lemma net_at_unique s v n m : net_at s v n -> net_at s v m -> n = m.
Proof. intros (h & E & Hn) (h' & E' & Hm). assert (h = h') as -> by congruence. by eapply holder_net_unique. Qed.

Lemma apart_keeps s s' h : apart (s, h) -> keeps s s' -> apart (s', h).
Proof.
  intros [Hn Hd] Hk. split; cbn [fst snd] in *.
  - intros v Hv. destruct (Hn v Hv) as [n Hvn]. exists n. by apply Hk.
  - intros i j v w n m ip Hi Hj Hvn Hwm. destruct (Hn v ltac:(by eapply list_elem_of_lookup_2)) as [n' Hn'].
    destruct (Hn w ltac:(by eapply list_elem_of_lookup_2)) as [m' Hm'].
    rewrite (net_at_unique _ _ _ _ Hvn (Hk _ _ Hn')), (net_at_unique _ _ _ _ Hwm (Hk _ _ Hm')). by eapply Hd.
Qed.

Lemma holder_range_net h n : holder_net h n -> holder_range h = Ok n.
Proof.
  intros (c & ip & Hc & Hs & Hr). unfold holder_range. destruct (running h) as [p|] eqn:E; [by rewrite (Hr p eq_refl)|].
  by rewrite Hc, Hs.
Qed.

Lemma holder_net_cidr h n : holder_net h n -> cidr n.
Proof. intros (c & ip & _ & Hs & _). by eapply ParseCIDR_cidr. Qed.

(** The loop lets a network through when it overlaps with none. *)
Lemma find_pool_apart s h new started b v n ip :
  find_pool s h new started = Ok (inr b) -> cidr new -> v ∈ h -> net_at s v n ->
  IPNet_Contains n ip = true -> IPNet_Contains new ip = true -> False.
Proof.
  intros Hf Hnew Hv (holder & Ev & Hn). revert started Hf. induction h as [|w h IH]; intros started Hf Hc Hc';
    [by apply elem_of_nil in Hv|]. apply elem_of_cons in Hv as [<-|Hv].
  - cbn [find_pool] in Hf. rewrite Ev in Hf. cbn [or_panic mbind res_bind] in Hf.
    rewrite (holder_range_net _ _ Hn) in Hf. cbn [mbind res_bind] in Hf. destruct (same_String n new); [done|].
    destruct (overlap_contains n new ip (holder_net_cidr _ _ Hn) Hnew Hc Hc') as [E|E]; rewrite E in Hf; [done|].
    by rewrite orb_true_r in Hf.
  - cbn [find_pool] in Hf. destruct (s !! w) as [hw|]; cbn [or_panic mbind res_bind] in Hf; [|done].
    destruct (holder_range hw) as [r|e|]; cbn [mbind res_bind] in Hf; [|done..].
    destruct (same_String r new); [done|]. destruct (_ || _); [done|]. by eapply IH.
Qed.

Lemma apart_added s h c ip n holder :
  apart (s, h) -> ParseCIDR (IpPool c) = Some (ip, n) -> holder_net holder n ->
  (exists st b, find_pool s h n st = Ok (inr b)) -> apart (s ++ [holder], h ++ [length s]).
Proof.
  intros Hap Hs Hn (st & b & Hf). pose proof (apart_keeps s (s ++ [holder]) h Hap (keeps_app s holder)) as [H1 H2].
  assert (Hnew : net_at (s ++ [holder]) (length s) n) by (exists holder; split; [by rewrite lookup_app_r, Nat.sub_diag by lia|done]).
  assert (Hcl : forall v m x, v ∈ h -> net_at (s ++ [holder]) v m -> IPNet_Contains m x = true -> IPNet_Contains n x = true -> False).
  { intros v m x Hv Hvm. destruct (proj1 Hap v Hv) as [m' Hm']. cbn [fst] in Hm'.
    rewrite (net_at_unique _ _ _ _ Hvm (keeps_app s holder _ _ Hm')).
    eapply find_pool_apart; [exact Hf|by eapply ParseCIDR_cidr|exact Hv|exact Hm']. }
  split; cbn [fst snd] in *.
  - intros v [Hv|Hv]%elem_of_app; [by apply H1|]. apply list_elem_of_singleton in Hv as ->. by exists n.
  - intros i j v w m m' x Hi Hj Hvm Hwm Hx Hx'.
    apply lookup_app_Some in Hi as [Hi|[Hi Ei]], Hj as [Hj|[Hj Ej]].
    + by eapply H2.
    + exfalso. apply list_lookup_singleton_Some in Ej as [Ej <-].
      rewrite (net_at_unique _ _ _ _ Hwm Hnew) in Hx'.
      by eapply (Hcl v m x); [eapply list_elem_of_lookup_2| | |].
    + exfalso. apply list_lookup_singleton_Some in Ei as [Ei <-].
      rewrite (net_at_unique _ _ _ _ Hvm Hnew) in Hx.
      by eapply (Hcl w m' x); [eapply list_elem_of_lookup_2| | |].
    + apply list_lookup_singleton_Some in Ei as [Ei _], Ej as [Ej _]. lia.
Qed.

Lemma AddPool_apart c x : apart x -> apart (AddPool c x).1.
Proof.
  destruct x as [s h]. intros Hap. unfold AddPool. destruct (ParseCIDR (IpPool c)) as [[ip n]|] eqn:Hs; [|done].
  destruct (find_pool s h n false) as [[v|b]|e|] eqn:Hf; [done| |done..].
  assert (Hn0 : holder_net (NewFakeDNSHolderConfigOnly (Some c)) n) by (by exists c, ip).
  destruct b.
  - pose proof (Start_stable _ _ Hn0) as Hn1. destruct (Start _) as [holder [y|e|]]; cbn [fst] in *; [| |done].
    + by eapply apart_added; eauto.
    + eapply apart_keeps; [exact Hap|apply keeps_app].
  - cbn [fst]. by eapply apart_added; eauto.
Qed.

Lemma multi_apart o x : apart x -> apart (multi_step o x).
Proof.
  destruct x as [s h]. intros Hap. destruct o as [c| | |fuel d v4 v6|a]; cbn [multi_step].
  - by apply AddPool_apart.
  - eapply apart_keeps; [exact Hap|apply Multi_Start_keeps].
  - eapply apart_keeps; [exact Hap|apply Multi_Close_keeps].
  - destruct (Multi_GetFakeIPForDomain3 _ _ _ _ _ _) as [[s' y]|] eqn:E; [|done].
    eapply apart_keeps; [exact Hap|]. by eapply Multi_GetFake_keeps.
  - eapply apart_keeps; [exact Hap|apply GetDomain_keeps].
Qed.

(** C37. The pools of fake addresses never overlap: along every history of adding
    pools (before or after the start), starting, closing, requests and lookups,
    no address is in the networks of two different holders - so the holder that
    knows an address is the only one that could have given it out. *)
Theorem pools_never_overlap (os : list mop) i j v w hv hw a :
  let '(s, h) := fold_left (fun x o => multi_step o x) os ([], []) in
  h !! i = Some v -> h !! j = Some w -> s !! v = Some hv -> s !! w = Some hw ->
  (IsIPInIPPool a hv).2 = Ok true -> (IsIPInIPPool a hw).2 = Ok true -> i = j.
Proof.
  assert (Hap : forall os x, apart x -> apart (fold_left (fun x o => multi_step o x) os x)).
  { clear. induction os as [|o os IH]; intros x Hx; [done|]. by apply IH, multi_apart. }
  assert (Hap0 : apart ([], [])) by (split; [intros v' Hv; by apply elem_of_nil in Hv|intros i' j' v' w' n m ip Hi; done]).
  specialize (Hap os _ Hap0). destruct (fold_left _ os _) as [s h]. destruct Hap as [Hn Hd]. cbn [fst snd] in *.
  intros Hi Hj Ev Ew Ha Hb.
  assert (Hin : forall v hv k, h !! k = Some v -> s !! v = Some hv -> (IsIPInIPPool a hv).2 = Ok true ->
    exists n ip, net_at s v n /\ IP a = Ok ip /\ IPNet_Contains n ip = true).
  { clear - Hn. intros v hv k Hk Ev Ha. destruct (Hn v ltac:(by eapply list_elem_of_lookup_2)) as [n Hvn].
    pose proof Hvn as (h' & E & c & ip' & _ & _ & Hr). assert (h' = hv) as -> by congruence.
    unfold IsIPInIPPool in Ha. destruct (IsDomain _); [done|]. unfold with_running in Ha.
    destruct (running hv) as [p|]; [|done]. cbn [snd] in Ha. injection Ha as Ha. unfold in_range in Ha.
    rewrite (Hr p eq_refl) in Ha. destruct (IP a) as [ip|e|]; [|done..]. by exists n, ip. }
  destruct (Hin v hv i Hi Ev Ha) as (n & ip & Hvn & E1 & Hc1). destruct (Hin w hw j Hj Ew Hb) as (m & ip' & Hwm & E2 & Hc2).
  assert (ip' = ip) as -> by congruence. by eapply Hd.
Qed.

Lemma pools_never_overlap_witness :
  let os := [MAdd (mkFakeDnsPool (lit "198.18.0.0/15") 100); MAdd (mkFakeDnsPool (lit "198.19.0.0/16") 100);
             MStart; MAdd (mkFakeDnsPool (lit "fc00::/18") 100)] in
  let '(s, h) := fold_left (fun x o => multi_step o x) os ([], []) in
  h = [0; 1]%nat /\ forall hv hw, s !! 0%nat = Some hv -> s !! 1%nat = Some hw ->
    (IsIPInIPPool (ipv4Address (map z2b [198; 19; 1; 1])) hv).2 = Ok true ->
    (IsIPInIPPool (ipv4Address (map z2b [198; 19; 1; 1])) hw).2 = Ok true -> 0%nat = 1%nat.
Proof.
  intros os. pose proof (fun hv hw => pools_never_overlap os 0 1 0 1 hv hw (ipv4Address (map z2b [198; 19; 1; 1]))) as H.
  cbv beta in H. revert H. assert (Hh : (fold_left (fun x o => multi_step o x) os ([], [])).2 = [0; 1]%nat)
    by (vm_compute; reflexivity).
  destruct (fold_left _ os _) as [s h]. cbn [snd] in Hh. subst h. intros H. split; [reflexivity|].
  intros hv hw Hv Hw. apply H; [reflexivity|reflexivity|exact Hv|exact Hw].
Defined.
