(* ===== verification/StrMatch.v ===== *)
(** * Package common/strmatcher: matchers, their groups and the linear index

    [Module StrMatch] models matchers.go, the groups of full, domain, substring
    and general matchers (matchergroup_full.go, matchergroup_domain.go,
    matchergroup_substr.go, matchergroup_simple.go) and the index matcher over
    them (indexmatcher_linear.go).  The regular expressions of the Go library
    are a type with its [MatchString]; the Punycode of golang.org/x/net/idna is
    a function of [ToDomain]. *)
From S2P Require Import Prelude GoStd.

Module StrMatch.

Definition dot : byte := x2e.

(** ** Matchers *)
Inductive Type_ := Full | Domain | Substr | Regex.

Inductive Matcher (Regexp : Type) :=
  | FullMatcher (p : bytes)
  | DomainMatcher (p : bytes)
  | SubstrMatcher (p : bytes)
  | RegexMatcher (r : Regexp).
Arguments FullMatcher {Regexp} p.
Arguments DomainMatcher {Regexp} p.
Arguments SubstrMatcher {Regexp} p.
Arguments RegexMatcher {Regexp} r.

Definition full_match (p s : bytes) : bool := bool_decide (p = s).

Definition domain_match (p s : bytes) : bool :=
  if negb (HasSuffix s p) then false
  else (zlen s =? zlen p) || bool_decide (index s (zlen s - zlen p - 1) = Some dot).

Definition substr_match (p s : bytes) : bool := Contains s p.

Definition Match {Regexp} (MatchString : Regexp -> bytes -> bool) (m : Matcher Regexp) (s : bytes) : bool :=
  match m with
  | FullMatcher p => full_match p s
  | DomainMatcher p => domain_match p s
  | SubstrMatcher p => substr_match p s
  | RegexMatcher r => MatchString r s
  end.

Definition matcher_type {Regexp} (m : Matcher Regexp) : Type_ :=
  match m with
  | FullMatcher _ => Full
  | DomainMatcher _ => Domain
  | SubstrMatcher _ => Substr
  | RegexMatcher _ => Regex
  end.

(** *** [ToDomain]

    One pass over the pattern: is it ASCII so far, has it upper case letters;
    [None] when a character is outside the letters, digits, hyphen and period. *)
Fixpoint ldh_scan (p : bytes) (hasUpper : bool) : option (bool * bool) :=
  match p with
  | [] => Some (true, hasUpper)
  | c :: p =>
    if 128 <=? b2z c then Some (false, hasUpper)
    else if between 65 90 (b2z c) then ldh_scan p true
    else if between 97 122 (b2z c) then ldh_scan p hasUpper
    else if between 48 57 (b2z c) then ldh_scan p hasUpper
    else if bool_decide (c = x2d) then ldh_scan p hasUpper
    else if bool_decide (c = dot) then ldh_scan p hasUpper
    else None
  end.

(** The loop goes round again after a conversion; [fuel] bounds the rounds. *)
Fixpoint ToDomain (ToASCII : bytes -> res bytes) (fuel : nat) (pattern : bytes) : option (res bytes) :=
  match fuel with
  | O => None
  | S f =>
    match ldh_scan pattern false with
    | None => Some (Err (NewError "pattern string does not conform to Letter-Digit-Hyphen (LDH) subset"))
    | Some (false, _) =>
      match ToASCII pattern with
      | Ok p => ToDomain ToASCII f p
      | Err e => Some (Err e)
      | Panic => Some Panic
      end
    | Some (true, hasUpper) => Some (Ok (if hasUpper then ToLower pattern else pattern))
    end
  end.

(** [Type.New] and [Type.NewDomainPattern]. *)
Definition New {Regexp} (Compile : bytes -> res Regexp) (ToASCII : bytes -> res bytes) (fuel : nat)
    (t : Type_) (pattern : bytes) : option (res (Matcher Regexp)) :=
  match t with
  | Full => Some (Ok (FullMatcher pattern))
  | Substr => Some (Ok (SubstrMatcher pattern))
  | Domain => r ← ToDomain ToASCII fuel pattern; Some (p ← r; Ok (DomainMatcher p))
  | Regex => Some (r ← Compile pattern; Ok (RegexMatcher r))
  end.

Definition NewDomainPattern {Regexp} (Compile : bytes -> res Regexp) (ToASCII : bytes -> res bytes) (fuel : nat)
    (t : Type_) (pattern : bytes) : option (res (Matcher Regexp)) :=
  match t with
  | Full => r ← ToDomain ToASCII fuel pattern; Some (p ← r; Ok (FullMatcher p))
  | Substr => r ← ToDomain ToASCII fuel pattern; Some (p ← r; Ok (SubstrMatcher p))
  | Domain => r ← ToDomain ToASCII fuel pattern; Some (p ← r; Ok (DomainMatcher p))
  | Regex => Some (r ← Compile pattern; Ok (RegexMatcher r))
  end.

(** ** Lists of matches *)
Definition CompositeMatches (matches : list (list Z)) : list Z :=
  match matches with
  | [] => []
  | [m] => m
  | _ => fold_left (fun result m => result ++ m) matches []
  end.

Definition CompositeMatchesReverse (matches : list (list Z)) : list Z :=
  match matches with
  | [] => []
  | [m] => m
  | _ => fold_left (fun result m => result ++ m) (reverse matches) []
  end.

(** ** The group of full matchers *)
Abbreviation FullMatcherGroup := (gmap bytes (list Z)).
Definition NewFullMatcherGroup : FullMatcherGroup := ∅.
Definition AddFullMatcher (p : bytes) (value : Z) (g : FullMatcherGroup) : FullMatcherGroup :=
  <[p := default [] (g !! p) ++ [value]]> g.
Definition full_Match (g : FullMatcherGroup) (input : bytes) : list Z := default [] (g !! input).
Definition full_MatchAny (g : FullMatcherGroup) (input : bytes) : bool := bool_decide (is_Some (g !! input)).

(** ** The group of domain matchers: a trie on the labels, from the right

    [children] is nil when it is empty: no edge is ever removed. *)
Inductive trieNode := TrieNode (values : list Z) (children : gmap bytes trieNode).
Definition newNode : trieNode := TrieNode [] ∅.
Definition values (n : trieNode) : list Z := let '(TrieNode v _) := n in v.
Definition children (n : trieNode) : gmap bytes trieNode := let '(TrieNode _ c) := n in c.

(** The inner loop of the three methods: the label that ends at [i] and where
    the scan goes on; [None] is the run-time panic. *)
Fixpoint scan_label (s : bytes) (i j : nat) : option (bytes * nat) :=
  match s !! j with
  | None => None
  | Some c =>
    if bool_decide (c = dot) then Some (take (i - (j + 1)) (drop (j + 1) s), j)
    else match j with
         | O => Some (take (i - j) (drop j s), j)
         | S j' => scan_label s i j'
         end
  end.

Definition next_label (s : bytes) (i : nat) : option (bytes * nat) := scan_label s i (i - 1).

(** The outer loops; [i] falls in every round, so [i] rounds are enough. *)
Fixpoint add_from (fuel : nat) (pattern : bytes) (i : nat) (value : Z) (node : trieNode) : option trieNode :=
  match i with
  | O => Some (TrieNode (values node ++ [value]) (children node))
  | S _ =>
    match fuel with
    | O => None
    | S f =>
      '(part, i') ← next_label pattern i;
      next ← add_from f pattern i' value (default newNode (children node !! part));
      Some (TrieNode (values node) (<[part := next]> (children node)))
    end
  end.

Definition AddDomainMatcher (pattern : bytes) (value : Z) (g : trieNode) : option trieNode :=
  add_from (length pattern) pattern (length pattern) value g.

Fixpoint match_from (fuel : nat) (input : bytes) (i : nat) (node : trieNode) (matches : list (list Z))
    : option (list (list Z)) :=
  match i with
  | O => Some matches
  | S _ =>
    match fuel with
    | O => None
    | S f =>
      '(part, i') ← next_label input i;
      match children node !! part with
      | None => Some matches
      | Some node =>
        let matches := if 0 <? zlen (values node) then matches ++ [values node] else matches in
        if bool_decide (children node = ∅) then Some matches else match_from f input i' node matches
      end
    end
  end.

Definition domain_Match (g : trieNode) (input : bytes) : option (list Z) :=
  CompositeMatchesReverse <$> match_from (length input) input (length input) g [].

Fixpoint any_from (fuel : nat) (input : bytes) (i : nat) (node : trieNode) : option bool :=
  match i with
  | O => Some false
  | S _ =>
    match fuel with
    | O => None
    | S f =>
      '(part, i') ← next_label input i;
      match children node !! part with
      | None => Some false
      | Some node =>
        if 0 <? zlen (values node) then Some true
        else if bool_decide (children node = ∅) then Some false else any_from f input i' node
      end
    end
  end.

Definition domain_MatchAny (g : trieNode) (input : bytes) : option bool :=
  any_from (length input) input (length input) g.

(** ** The group of substring matchers *)
Record SubstrMatcherGroup := mkSubstr { sub_patterns : list bytes; sub_values : list Z }.

Definition AddSubstrMatcher (p : bytes) (value : Z) (g : SubstrMatcherGroup) : SubstrMatcherGroup :=
  {| sub_patterns := sub_patterns g ++ [p]; sub_values := sub_values g ++ [value] |}.

(** [strings.LastIndex]: [None] is -1. *)
Fixpoint last_index_from (s p : bytes) (j : nat) : option nat :=
  if HasPrefix (drop j s) p then Some j
  else match j with O => None | S j' => last_index_from s p j' end.
Definition LastIndex (s p : bytes) : option nat := last_index_from s p (length s).

(** The positions the inner loop visits; [fuel] bounds its rounds. *)
Fixpoint occurrences (fuel : nat) (input p : bytes) : option (list nat) :=
  match fuel with
  | O => None
  | S f =>
    match LastIndex input p with
    | None => Some []
    | Some j => js ← occurrences f (take j input) p; Some (j :: js)
    end
  end.

(** uint32(j)<<16 | uint32(i)&0xffff *)
Definition entry (j i : nat) : Z := Z.lor (u32 (Z.shiftl (u32 (Z.of_nat j)) 16)) (Z.land (u32 (Z.of_nat i)) 65535).

Fixpoint substr_entries (fuel : nat) (ps : list bytes) (i : nat) (input : bytes) : option (list Z) :=
  match ps with
  | [] => Some []
  | p :: ps =>
    js ← occurrences fuel input p;
    rest ← substr_entries fuel ps (S i) input;
    Some (map (fun j => entry j i) js ++ rest)
  end.

Definition sort_entries (result : list Z) : list Z :=
  match result with
  | [] => []
  | [a] => [a]
  | [a; b] => if b <? a then [b; a] else [a; b]
  | _ => merge_sort Z.le result
  end.

(** [None] is the panic of an index out of range, or no fuel. *)
Definition substr_Match (fuel : nat) (g : SubstrMatcherGroup) (input : bytes) : option (list Z) :=
  result ← substr_entries fuel (sub_patterns g) 0 input;
  mapM (fun e => index (sub_values g) (Z.land e 65535)) (sort_entries result).

Definition substr_MatchAny (g : SubstrMatcherGroup) (input : bytes) : bool :=
  existsb (fun p => Contains input p) (sub_patterns g).

(** ** The group of any matchers *)
Section General.
Context {Regexp : Type} (MatchString : Regexp -> bytes -> bool).

Abbreviation SimpleMatcherGroup := (list (Matcher Regexp * Z)).
Definition AddMatcher (m : Matcher Regexp) (value : Z) (g : SimpleMatcherGroup) : SimpleMatcherGroup := g ++ [(m, value)].
Definition simple_Match (g : SimpleMatcherGroup) (input : bytes) : list Z :=
  fold_left (fun result e => if Match MatchString e.1 input then result ++ [e.2] else result) g [].
Definition simple_MatchAny (g : SimpleMatcherGroup) (input : bytes) : bool :=
  existsb (fun e => Match MatchString e.1 input) g.

(** ** The linear index *)
Record LinearIndexMatcher := mkLinear {
  count : Z;
  full : option FullMatcherGroup;
  domain : option trieNode;
  substr : option SubstrMatcherGroup;
  regex : option SimpleMatcherGroup;
}.

Definition NewLinearIndexMatcher : LinearIndexMatcher :=
  {| count := 0; full := None; domain := None; substr := None; regex := None |}.

(** The index matcher and the index of the new matcher. *)
Definition Add (m : Matcher Regexp) (g : LinearIndexMatcher) : option (LinearIndexMatcher * Z) :=
  let index := u32 (count g + 1) in
  match m with
  | FullMatcher p =>
    Some ({| count := index; full := Some (AddFullMatcher p index (default NewFullMatcherGroup (full g)));
             domain := domain g; substr := substr g; regex := regex g |}, index)
  | DomainMatcher p =>
    d ← AddDomainMatcher p index (default newNode (domain g));
    Some ({| count := index; full := full g; domain := Some d; substr := substr g; regex := regex g |}, index)
  | SubstrMatcher p =>
    Some ({| count := index; full := full g; domain := domain g;
             substr := Some (AddSubstrMatcher p index (default (mkSubstr [] []) (substr g))); regex := regex g |}, index)
  | RegexMatcher _ =>
    Some ({| count := index; full := full g; domain := domain g; substr := substr g;
             regex := Some (AddMatcher m index (default [] (regex g))) |}, index)
  end.

Fixpoint Add_all (ms : list (Matcher Regexp)) (g : LinearIndexMatcher) : option LinearIndexMatcher :=
  match ms with
  | [] => Some g
  | m :: ms => '(g, _) ← Add m g; Add_all ms g
  end.

(** A group's matches, when it is there and has some. *)
Definition found (o : option (list Z)) (result : list (list Z)) : list (list Z) :=
  match o with
  | Some matches => if 0 <? zlen matches then result ++ [matches] else result
  | None => result
  end.

Definition Linear_Match (fuel : nat) (g : LinearIndexMatcher) (input : bytes) : option (list Z) :=
  let result := found ((fun x => full_Match x input) <$> full g) [] in
  result ← match domain g with
           | Some x => m ← domain_Match x input; Some (found (Some m) result)
           | None => Some result
           end;
  result ← match substr g with
           | Some x => m ← substr_Match fuel x input; Some (found (Some m) result)
           | None => Some result
           end;
  Some (CompositeMatches (found ((fun x => simple_Match x input) <$> regex g) result)).

Definition Linear_MatchAny (g : LinearIndexMatcher) (input : bytes) : option bool :=
  if match full g with Some x => full_MatchAny x input | None => false end then Some true
  else
    d ← match domain g with Some x => domain_MatchAny x input | None => Some false end;
    if d : bool then Some true
    else if match substr g with Some x => substr_MatchAny x input | None => false end then Some true
    else Some (match regex g with Some x => simple_MatchAny x input | None => false end).

Definition Size (g : LinearIndexMatcher) : Z := count g.
End General.
Arguments LinearIndexMatcher : clear implicits.

(** ** What the groups promise

    The parts of a string at label boundaries, the longest first. *)
Fixpoint after_dots (s : bytes) : list bytes :=
  match s with
  | [] => []
  | c :: s' => (if bool_decide (c = dot) then [s'] else []) ++ after_dots s'
  end.
Definition domain_suffixes (s : bytes) : list bytes := s :: after_dots s.

(** The values a list of pairs has for a pattern, in order. *)
Definition values_of (x : bytes) (added : list (bytes * Z)) : list Z :=
  omap (fun e => if bool_decide (e.1 = x) then Some e.2 else None) added.

(** A domain pattern with a first label. *)
Definition good_domain (p : bytes) : Prop := match p with [] => False | c :: _ => c <> dot end.

(** The matches of a group of domain matchers: the longest pattern first, equal
    patterns in the order they were added. *)
Definition domain_spec (added : list (bytes * Z)) (input : bytes) : list Z :=
  flat_map (fun x => values_of x added) (domain_suffixes input).

(** The pattern [p] occurs in [s] at [j]. *)
Definition occurs_at (s p : bytes) (j : nat) : Prop := exists a b, s = a ++ p ++ b /\ length a = j.

Definition hit_le (x y : nat * nat) : Prop := (x.1 < y.1)%nat \/ (x.1 = y.1 /\ (x.2 < y.2)%nat).

(** The matches of a group of substring matchers: values of hits (position and
    pattern) in increasing order, each of them an occurrence, the last
    occurrence of every pattern among them. *)
Definition substr_spec (added : list (bytes * Z)) (input : bytes) (result : list Z) : Prop :=
  exists hits : list (nat * nat),
    StronglySorted hit_le hits /\
    (forall j i, (j, i) ∈ hits -> exists e, added !! i = Some e /\ occurs_at input e.1 j) /\
    (forall i e, added !! i = Some e -> Contains input e.1 = true ->
       exists j, (j, i) ∈ hits /\ forall k, occurs_at input e.1 k -> (k <= j)%nat) /\
    Forall2 (fun h v => exists e, added !! h.2 = Some e /\ v = e.2) hits result.
End StrMatch.
Import StrMatch.

(** ** Composed lists *)
Lemma fold_app (l : list (list Z)) acc : fold_left (fun result m => result ++ m) l acc = acc ++ concat l.
Proof.
  revert acc. induction l as [|m l IH]; intros acc; cbn [fold_left concat]; [by rewrite app_nil_r|].
  by rewrite IH, app_assoc.
Qed.

Lemma CompositeMatches_concat l : CompositeMatches l = concat l.
Proof. destruct l as [|m [|m' l]]; [done|symmetry; apply app_nil_r|]. unfold CompositeMatches. by rewrite fold_app. Qed.

Lemma CompositeMatchesReverse_concat l : CompositeMatchesReverse l = concat (reverse l).
Proof. destruct l as [|m [|m' l]]; [done|symmetry; apply app_nil_r|]. unfold CompositeMatchesReverse. by rewrite fold_app. Qed.

(** ** Labels

    The labels of a string, from the left; a string is its labels. *)
Fixpoint labels (s : bytes) : list bytes :=
  match s with
  | [] => [[]]
  | c :: s =>
    if decide (c = dot) then [] :: labels s
    else match labels s with [] => [[c]] | l :: ls => (c :: l) :: ls end
  end.

Lemma labels_ne s : labels s <> [].
Proof. destruct s as [|c s]; [done|]. cbn [labels]. case_decide; [done|]. by destruct (labels s). Qed.

Lemma labels_no_dot w : dot ∉ w -> labels w = [w].
Proof.
  induction w as [|c w IH]; intros Hd; [done|]. apply not_elem_of_cons in Hd as [Hc Hd]. cbn [labels].
  rewrite decide_False by done. by rewrite IH.
Qed.

Lemma labels_snoc u w : dot ∉ w -> labels (u ++ dot :: w) = labels u ++ [w].
Proof.
  intros Hw. induction u as [|c u IH]; cbn [app labels].
  - rewrite decide_True by done. by rewrite labels_no_dot.
  - rewrite IH. case_decide; [done|]. pose proof (labels_ne u). by destruct (labels u).
Qed.

Lemma labels_dot s : exists ls, labels (dot :: s) = [] :: ls /\ ls = labels s.
Proof. cbn [labels]. rewrite decide_True by done. by eexists. Qed.

Lemma labels_inj a b : labels a = labels b -> a = b.
Proof.
  revert b. induction a as [|c a IH]; intros [|d b]; cbn [labels]; [done| | |].
  - case_decide; [pose proof (labels_ne b); destruct (labels b); congruence|]. by destruct (labels b).
  - case_decide; [pose proof (labels_ne a); destruct (labels a); congruence|]. by destruct (labels a).
  - pose proof (labels_ne a) as Ha. pose proof (labels_ne b) as Hb. specialize (IH b).
    destruct (decide (c = dot)) as [->|Hc], (decide (d = dot)) as [->|Hd].
    + intros [= E]. f_equal. by apply IH.
    + by destruct (labels b).
    + by destruct (labels a).
    + destruct (labels a) as [|x l], (labels b) as [|y k]; [done..|]. intros [= -> -> ->]. f_equal. by apply IH.
Qed.

(** The labels the loops go over: the first one is left out when it is empty. *)
Definition trie_labels (s : bytes) : list bytes :=
  match s with
  | [] => []
  | c :: s' => if decide (c = dot) then labels s' else labels s
  end.

Lemma trie_labels_good p : good_domain p -> trie_labels p = labels p.
Proof. destruct p as [|c p]; [done|]. cbn [good_domain trie_labels]. intros Hc. by rewrite decide_False. Qed.

(** One round of the scan. *)
Lemma scan_label_spec s i j w i' :
  (j < i <= length s)%nat -> (forall k, (j < k < i)%nat -> s !! k <> Some dot) -> scan_label s i j = Some (w, i') ->
  (i' < i)%nat /\ dot ∉ w /\ (take i s = take i' s ++ dot :: w \/ (i' = 0%nat /\ take i s = w)).
Proof.
  revert i'. induction j as [|j IH]; intros i' Hj Hno; cbn [scan_label].
  all: destruct (s !! _) as [c|] eqn:Ec; [|done].
  all: assert (Hnd : forall n, (n <= i)%nat -> (forall k, (n <= k < i)%nat -> s !! k <> Some dot) ->
         dot ∉ take (i - n) (drop n s)).
  1,3: intros n Hn Hall [k Hk]%list_elem_of_lookup; apply lookup_take_Some in Hk as [Hk Hlt];
       rewrite lookup_drop in Hk; by apply (Hall (n + k)%nat); [lia|].
  all: destruct (bool_decide_reflect (c = dot)) as [->|Hc].
  - intros [= <- <-]. split; [lia|]. split; [apply Hnd; [lia|intros k Hk; apply Hno; lia]|left].
    pose proof (take_drop_middle s 0 dot Ec) as Hs. cbn [take app] in *. rewrite <- Hs at 1.
    destruct i as [|i]; [lia|]. cbn [take]. by rewrite Nat.sub_succ, Nat.sub_0_r.
  - intros [= <- <-]. split; [lia|]. split.
    + apply Hnd; [lia|]. intros k Hk. destruct (decide (k = 0%nat)) as [->|]; [congruence|apply Hno; lia].
    + right. split; [done|]. by rewrite Nat.sub_0_r, drop_0.
  - intros [= <- <-]. split; [lia|]. split; [apply Hnd; [lia|intros k Hk; apply Hno; lia]|left].
    pose proof (take_drop_middle s (S j) dot Ec) as Hs. rewrite <- Hs at 1.
    rewrite take_app, (take_ge (take (S j) s)) by (rewrite length_take; lia). f_equal.
    rewrite length_take. replace (i - S j `min` length s)%nat with (S (i - (S j + 1))) by lia.
    cbn [take]. by replace (S (S j)) with (S j + 1)%nat by lia.
  - intros Hs. apply IH in Hs; [done|lia|]. intros k Hk. destruct (decide (k = S j)) as [->|]; [congruence|apply Hno; lia].
Qed.

Lemma scan_label_total s i j : (j < length s)%nat -> is_Some (scan_label s i j).
Proof.
  induction j as [|j IH]; intros Hj; cbn [scan_label]; destruct (s !! _) as [c|] eqn:Ec;
    [|by apply lookup_ge_None in Ec; lia| |by apply lookup_ge_None in Ec; lia].
  - by destruct (bool_decide _).
  - destruct (bool_decide _); [done|]. apply IH. lia.
Qed.

(** A round of the loops takes the last label. *)
Lemma next_label_spec s i :
  (0 < i <= length s)%nat ->
  exists w i', next_label s i = Some (w, i') /\ (i' < i)%nat /\
    trie_labels (take i s) = trie_labels (take i' s) ++ [w].
Proof.
  intros Hi. unfold next_label. destruct (scan_label_total s i (i - 1)) as [[w i'] E]; [lia|].
  exists w, i'. split; [done|]. destruct (scan_label_spec s i (i - 1) w i') as (Hlt & Hw & Hs); [lia|lia|done|].
  split; [done|]. destruct Hs as [->|[-> Ht]].
  - destruct (take i' s) as [|c u]; cbn [app trie_labels].
    + rewrite decide_True by done. by rewrite labels_no_dot.
    + case_decide as Hc; [by rewrite labels_snoc|]. change (c :: u ++ dot :: w) with ((c :: u) ++ dot :: w).
      by rewrite labels_snoc.
  - rewrite Ht. change (take 0 s) with (@nil byte). cbn [trie_labels app].
    assert (Hlen : length w = i) by (rewrite <- Ht, length_take; lia).
    destruct w as [|c w]; [cbn in Hlen; lia|]. cbn [trie_labels]. apply not_elem_of_cons in Hw as Hw'.
    rewrite decide_False by (intros ->; tauto). by rewrite labels_no_dot.
Qed.

(** ** The trie

    The values at the end of a path, and those on the way of one. *)
Fixpoint vals (path : list bytes) (t : trieNode) : list Z :=
  match path with
  | [] => values t
  | l :: path => match children t !! l with None => [] | Some n => vals path n end
  end.

Fixpoint walk (path : list bytes) (t : trieNode) : list (list Z) :=
  match path with
  | [] => []
  | l :: path => match children t !! l with None => [] | Some n => values n :: walk path n end
  end.

(** The suffixes of a list, the longest first. *)
Fixpoint tails {A} (l : list A) : list (list A) :=
  match l with [] => [] | x :: l' => l :: tails l' end.

Lemma vals_new path : vals path newNode = [].
Proof. destruct path; [done|]. cbn [vals newNode children]. by rewrite lookup_empty. Qed.

Lemma add_from_spec p v fuel i t :
  (i <= fuel)%nat -> (i <= length p)%nat ->
  exists t', add_from fuel p i v t = Some t' /\
    forall path, vals path t' =
      vals path t ++ (if decide (path = reverse (trie_labels (take i p))) then [v] else []).
Proof.
  revert i t. induction fuel as [|f IH]; intros i t Hf Hi.
  - destruct i; [|lia]. cbn [add_from]. eexists. split; [done|]. intros [|l path]; cbn [vals values children].
    + by rewrite decide_True.
    + by rewrite decide_False, app_nil_r.
  - destruct i as [|i]; cbn [add_from].
    + eexists. split; [done|]. intros [|l path]; cbn [vals values children].
      * by rewrite decide_True.
      * by rewrite decide_False, app_nil_r.
    + destruct (next_label_spec p (S i)) as (w & i' & -> & Hlt & Hl); [lia|]. cbn [mbind option_bind].
      destruct (IH i' (default newNode (children t !! w))) as (t' & -> & Ht'); [lia..|]. cbn [mbind option_bind].
      eexists. split; [done|]. rewrite Hl, reverse_snoc. intros [|l path]; cbn [vals values children].
      * by rewrite decide_False, app_nil_r.
      * destruct (decide (w = l)) as [<-|Hne].
        -- rewrite lookup_insert_eq, Ht'. destruct (children t !! w) as [n|]; cbn [default from_option]; rewrite ?vals_new.
           all: destruct (decide (path = _)) as [->|Hp]; [by rewrite decide_True|rewrite decide_False by congruence; done].
        -- rewrite lookup_insert_ne by done. rewrite decide_False by congruence. by rewrite app_nil_r.
Qed.

Lemma walk_app_one path l t :
  (exists y, walk (path ++ [l]) t = walk path t ++ [y] /\ y = vals (path ++ [l]) t) \/
  (walk (path ++ [l]) t = walk path t /\ vals (path ++ [l]) t = []).
Proof.
  revert t. induction path as [|x path IH]; intros t; cbn [app walk vals].
  - destruct (children t !! l) as [n|]; [left; by exists (values n)|by right].
  - destruct (children t !! x) as [n|]; [|by right]. destruct (IH n) as [(y & -> & Hy)|[-> Hv]]; [left; by exists y|by right].
Qed.

Lemma walk_tails l t : concat (reverse (walk (reverse l) t)) = flat_map (fun x => vals (reverse x) t) (tails l).
Proof.
  induction l as [|x l IH]; [done|]. cbn [tails flat_map]. rewrite reverse_cons.
  destruct (walk_app_one (reverse l) x t) as [(y & -> & ->)|[-> ->]]; [|exact IH].
  rewrite reverse_snoc. cbn [concat]. by rewrite IH.
Qed.

Lemma values_step acc n : exists m,
  (if 0 <? zlen (values n) then acc ++ [values n] else acc) = acc ++ m /\ concat (reverse m) = values n.
Proof.
  destruct (values n) as [|z v]; [exists []; by rewrite app_nil_r|]. exists [z :: v].
  rewrite zlen_cons. pose proof (zlen_nonneg v). replace (0 <? 1 + zlen v) with true by lia.
  split; [done|]. cbn. by rewrite app_nil_r.
Qed.

Lemma walk_leaf path n : children n = ∅ -> walk path n = [].
Proof. intros Hn. destruct path as [|l path]; [done|]. cbn [walk]. by rewrite Hn, lookup_empty. Qed.

Lemma match_from_spec s fuel i t acc :
  (i <= fuel)%nat -> (i <= length s)%nat ->
  exists ms, match_from fuel s i t acc = Some (acc ++ ms) /\ concat (reverse ms) = concat (reverse (walk (reverse (trie_labels (take i s))) t)).
Proof.
  revert i t acc. induction fuel as [|f IH]; intros i t acc Hf Hi.
  - destruct i; [|lia]. exists []. cbn [match_from]. by rewrite app_nil_r.
  - destruct i as [|i]; cbn [match_from]; [exists []; by rewrite app_nil_r|].
    destruct (next_label_spec s (S i)) as (w & i' & -> & Hlt & Hl); [lia|]. cbn [mbind option_bind].
    rewrite Hl, reverse_snoc. cbn [walk]. destruct (children t !! w) as [n|]; [|exists []; by rewrite app_nil_r].
    destruct (values_step acc n) as (m & -> & Hm). rewrite reverse_cons, concat_app. cbn [concat]. rewrite app_nil_r, <- Hm.
    destruct (bool_decide_reflect (children n = ∅)) as [Hn|Hn].
    + exists m. split; [done|]. by rewrite walk_leaf.
    + destruct (IH i' n (acc ++ m)) as (ms & -> & Hms); [lia..|]. exists (m ++ ms). split; [by rewrite app_assoc|].
      by rewrite reverse_app, concat_app, Hms.
Qed.

Lemma domain_Match_vals g s :
  domain_Match g s = Some (flat_map (fun x => vals (reverse x) g) (tails (trie_labels s))).
Proof.
  unfold domain_Match. destruct (match_from_spec s (length s) (length s) g []) as (ms & -> & Hms); [lia..|].
  cbn [fmap option_fmap option_map app]. by rewrite CompositeMatchesReverse_concat, Hms, firstn_all, walk_tails.
Qed.

(** MatchAny stops at the first match, and answers as Match does. *)
Lemma any_from_spec s fuel i t :
  (i <= fuel)%nat -> (i <= length s)%nat ->
  any_from fuel s i t = Some (bool_decide (concat (walk (reverse (trie_labels (take i s))) t) <> [])).
Proof.
  revert i t. induction fuel as [|f IH]; intros i t Hf Hi; [by destruct i; [|lia]|].
  destruct i as [|i]; [done|]. cbn [any_from].
  destruct (next_label_spec s (S i)) as (w & i' & -> & Hlt & Hl); [lia|]. cbn [mbind option_bind].
  rewrite Hl, reverse_snoc. cbn [walk]. destruct (children t !! w) as [n|]; [|done]. cbn [concat].
  destruct (values n) as [|z v]; cbn [app].
  - destruct (bool_decide_reflect (children n = ∅)) as [Hn|Hn]; [by rewrite walk_leaf|].
    rewrite IH by lia. done.
  - rewrite zlen_cons. pose proof (zlen_nonneg v). by replace (0 <? 1 + zlen v) with true by lia.
Qed.

Lemma concat_nil_iff {A} (l : list (list A)) : concat l = [] <-> Forall (fun m => m = []) l.
Proof.
  induction l as [|m l IH]; cbn [concat]; [by split|]. rewrite Forall_cons, <- IH. split; [by intros [-> ->]%app_eq_nil|].
  by intros [-> ->].
Qed.

Lemma domain_MatchAny_Match g s ms :
  domain_Match g s = Some ms -> domain_MatchAny g s = Some (bool_decide (ms <> [])).
Proof.
  unfold domain_MatchAny. rewrite any_from_spec by lia. rewrite domain_Match_vals. intros [= <-].
  rewrite firstn_all, <- walk_tails. f_equal. apply bool_decide_ext. rewrite !concat_nil_iff.
  by rewrite Forall_reverse.
Qed.

(** What the paths of a group hold. *)
Definition trie_holds (added : list (bytes * Z)) (g : trieNode) : Prop :=
  forall path, vals path g =
    omap (fun e => if bool_decide (reverse (trie_labels e.1) = path) then Some e.2 else None) added.

Lemma trie_holds_new : trie_holds [] newNode.
Proof. intros path. by rewrite vals_new. Qed.

Lemma AddDomainMatcher_holds added g p v :
  trie_holds added g -> exists g', AddDomainMatcher p v g = Some g' /\ trie_holds (added ++ [(p, v)]) g'.
Proof.
  intros Hg. unfold AddDomainMatcher. destruct (add_from_spec p v (length p) (length p) g) as (g' & -> & Hg'); [lia..|].
  exists g'. split; [done|]. intros path. rewrite Hg', Hg, firstn_all, omap_app. f_equal. cbn [omap list_omap fst snd].
  destruct (bool_decide_reflect (reverse (trie_labels p) = path)) as [->|Hne]; [by rewrite decide_True|by rewrite decide_False].
Qed.

(** The suffixes at label boundaries are the suffixes of the labels. *)
Lemma labels_suffixes s : map labels (domain_suffixes s) = tails (labels s).
Proof.
  assert (Hgen : map labels (after_dots s) = tails (tail (labels s))).
  { induction s as [|c s IH]; [done|]. cbn [after_dots labels]. rewrite map_app, IH.
    destruct (decide (c = dot)) as [->|Hc]; cbn [bool_decide].
    - rewrite bool_decide_true by done. cbn [map tail app]. pose proof (labels_ne s). by destruct (labels s).
    - rewrite bool_decide_false by done. pose proof (labels_ne s). by destruct (labels s). }
  unfold domain_suffixes. cbn [map]. rewrite Hgen. pose proof (labels_ne s). by destruct (labels s).
Qed.

Lemma flat_map_map {A B C} (f : B -> list C) (g : A -> B) l : flat_map f (map g l) = flat_map (fun x => f (g x)) l.
Proof. induction l as [|x l IH]; [done|]. cbn [map flat_map]. by rewrite IH. Qed.

Lemma omap_none {A B} (f : A -> option B) (l : list A) : (forall x, x ∈ l -> f x = None) -> omap f l = [].
Proof.
  induction l as [|x l IH]; intros Hf; [done|]. cbn [omap list_omap]. rewrite (Hf x) by by left.
  apply IH. intros y Hy. apply Hf. by right.
Qed.

Lemma domain_Match_spec added g s :
  trie_holds added g -> Forall (fun e => good_domain e.1) added -> domain_Match g s = Some (domain_spec added s).
Proof.
  intros Hg Hgood. rewrite domain_Match_vals. f_equal.
  set (V := fun x => omap (fun e : bytes * Z => if bool_decide (labels e.1 = x) then Some e.2 else None) added).
  assert (HV : forall x, vals (reverse x) g = V x).
  { intros x. rewrite Hg. unfold V. apply omap_ext_in. intros e He. rewrite Forall_forall in Hgood.
    rewrite trie_labels_good by by apply Hgood. f_equal. erewrite bool_decide_ext; [done|]. split; [apply (inj reverse)|by intros ->]. }
  assert (HL : forall x, values_of x added = V (labels x)).
  { intros x. unfold values_of, V. apply omap_ext_in. intros e _. erewrite bool_decide_ext; [done|].
    split; [by intros ->|apply labels_inj]. }
  assert (HN : forall x, trie_labels x <> labels x -> V (labels x) = []).
  { intros x Hx. unfold V. apply omap_none. intros e He.
    rewrite bool_decide_false; [done|]. intros E%labels_inj. rewrite Forall_forall in Hgood. apply Hx.
    rewrite <- E. by apply trie_labels_good, Hgood. }
  unfold domain_spec. rewrite (flat_map_ext _ _ HV), (flat_map_ext _ _ HL), <- (flat_map_map V labels), labels_suffixes.
  destruct (decide (trie_labels s = labels s)) as [->|Hne]; [done|]. specialize (HN s Hne).
  assert (exists l, labels s = l :: trie_labels s) as [l Hl].
  { destruct s as [|c s]; [by eexists|]. cbn [trie_labels] in *. case_decide as Hc; [|done]. subst.
    destruct (labels_dot s) as (ls & E & ->). by eexists. }
  rewrite Hl in HN. rewrite Hl. cbn [tails flat_map]. by rewrite HN.
Qed.

(** The suffixes at label boundaries are the domains the string belongs to. *)
Lemma elem_of_after_dots x s : x ∈ after_dots s <-> exists a, s = a ++ dot :: x.
Proof.
  induction s as [|c s IH]; cbn [after_dots].
  - split; [by intros ?%elem_of_nil|]. intros [[|? ?] E]; discriminate E.
  - rewrite elem_of_app, IH. split.
    + intros [Hx|[a ->]]; [|by exists (c :: a)]. destruct (bool_decide_reflect (c = dot)) as [->|]; [|by apply elem_of_nil in Hx].
      apply list_elem_of_singleton in Hx as ->. by exists [].
    + intros [[|d a] E]; injection E as <- ->; [left; rewrite bool_decide_true by done; by left|right; by exists a].
Qed.

Lemma domain_match_spec p s : domain_match p s = true <-> p = s \/ exists a, s = a ++ dot :: p.
Proof.
  unfold domain_match. destruct (HasSuffix s p) eqn:Hs; cbn [negb].
  - apply HasSuffix_spec in Hs as [a ->]. rewrite orb_true_iff, bool_decide_eq_true. split.
    + intros [Hl|Hi].
      * left. destruct a as [|c a]; [done|]. unfold zlen in Hl. rewrite length_app in Hl. cbn [length] in Hl. lia.
      * right. apply index_Some in Hi as [Hpos Hi]. unfold zlen in *. rewrite length_app in *.
        rewrite lookup_app_l in Hi by lia. replace (Z.to_nat _) with (length a - 1)%nat in Hi by lia.
        destruct a as [|c a _] using rev_ind; [done|]. rewrite length_app in Hi. cbn [length] in Hi.
        rewrite lookup_app_r in Hi by lia. replace (length a + 1 - 1 - length a)%nat with 0%nat in Hi by lia.
        injection Hi as ->. exists a. by rewrite <- app_assoc.
    + intros [E|[b E]].
      * left. rewrite <- E. lia.
      * right. apply index_Some. rewrite E. unfold zlen. rewrite length_app. cbn [length]. split; [lia|].
        rewrite lookup_app_r by lia. by replace (_ - _)%nat with 0%nat by lia.
  - split; [done|]. intros Hp. assert (HasSuffix s p = true); [|congruence]. apply HasSuffix_spec.
    destruct Hp as [->|[a ->]]; [done|]. exists (a ++ [dot]). by rewrite <- app_assoc.
Qed.

Lemma domain_suffixes_match p s : p ∈ domain_suffixes s <-> domain_match p s = true.
Proof. unfold domain_suffixes. by rewrite elem_of_cons, elem_of_after_dots, domain_match_spec. Qed.

Lemma elem_of_values_of v x added : v ∈ values_of x added <-> (x, v) ∈ added.
Proof.
  unfold values_of. rewrite list_elem_of_omap. split.
  - intros ([y w] & Hin & E). cbn [fst snd] in E. destruct (bool_decide_reflect (y = x)) as [->|]; [|done]. by injection E as ->.
  - intros Hin. exists (x, v). cbn [fst snd]. by rewrite bool_decide_true.
Qed.

Lemma elem_of_domain_spec v added s :
  v ∈ domain_spec added s <-> exists p, (p, v) ∈ added /\ domain_match p s = true.
Proof.
  unfold domain_spec. rewrite list_elem_of_In, in_flat_map. split.
  - intros (x & Hx & Hv). rewrite <- !list_elem_of_In in *. exists x. by rewrite <- elem_of_values_of, <- domain_suffixes_match.
  - intros (p & Hp & Hm). exists p. rewrite <- !list_elem_of_In. by rewrite elem_of_values_of, domain_suffixes_match.
Qed.

(** ** Occurrences of a pattern *)
Lemma occurs_at_spec s p j : occurs_at s p j <-> (j <= length s)%nat /\ HasPrefix (drop j s) p = true.
Proof.
  rewrite HasPrefix_spec. split.
  - intros (a & b & -> & <-). rewrite length_app, drop_app_length. split; [lia|by exists b].
  - intros [Hj [b Hb]]. exists (take j s), b. by rewrite <- Hb, take_drop, length_take, Nat.min_l.
Qed.

Lemma Contains_occurs s p : Contains s p = true <-> exists j, occurs_at s p j.
Proof.
  rewrite Contains_spec. split; [intros (a & b & ->); exists (length a), a, b; done|].
  intros (j & a & b & -> & _). by exists a, b.
Qed.

Lemma last_index_from_spec s p j :
  (j <= length s)%nat ->
  match last_index_from s p j with
  | Some k => occurs_at s p k /\ (k <= j)%nat /\ forall i, (i <= j)%nat -> occurs_at s p i -> (i <= k)%nat
  | None => forall i, (i <= j)%nat -> ~ occurs_at s p i
  end.
Proof.
  induction j as [|j IH]; intros Hj; cbn [last_index_from]; destruct (HasPrefix _ p) eqn:E.
  - split; [by apply occurs_at_spec|]. split; [lia|]. intros; lia.
  - intros i Hi Ho. apply occurs_at_spec in Ho as [_ Ho]. assert (i = 0)%nat as -> by lia. congruence.
  - split; [by apply occurs_at_spec|]. split; [lia|]. intros; lia.
  - specialize (IH ltac:(lia)). assert (Hno : ~ occurs_at s p (S j)) by (intros [_ Ho]%occurs_at_spec; congruence).
    destruct (last_index_from s p j) as [k|].
    + destruct IH as (Hk & Hle & Hmax). split; [done|]. split; [lia|]. intros i Hi Ho.
      destruct (decide (i = S j)) as [->|]; [done|]. apply Hmax; [lia|done].
    + intros i Hi Ho. destruct (decide (i = S j)) as [->|]; [done|]. apply (IH i); [lia|done].
Qed.

Lemma occurs_in_range s p j : occurs_at s p j -> (j + length p <= length s)%nat.
Proof. intros (a & b & -> & <-). rewrite !length_app. lia. Qed.

Lemma LastIndex_spec s p :
  match LastIndex s p with
  | Some k => occurs_at s p k /\ forall i, occurs_at s p i -> (i <= k)%nat
  | None => forall i, ~ occurs_at s p i
  end.
Proof.
  unfold LastIndex. pose proof (last_index_from_spec s p (length s) ltac:(lia)) as H. destruct (last_index_from _ _ _) as [k|].
  - destruct H as (Hk & _ & Hmax). split; [done|]. intros i Hi. apply Hmax; [|done]. apply occurs_in_range in Hi. lia.
  - intros i Hi. apply (H i); [|done]. apply occurs_in_range in Hi. lia.
Qed.

Lemma occurs_at_take s p j n : occurs_at (take n s) p j -> occurs_at s p j.
Proof. intros (a & b & E & <-). exists a, (b ++ drop n s). split; [|done]. rewrite <- (take_drop n s) at 1. by rewrite E, <- !app_assoc. Qed.

Lemma occurrences_spec p fuel s :
  p <> [] -> (length s < fuel)%nat ->
  exists js, occurrences fuel s p = Some js /\ StronglySorted gt js /\ Forall (fun j => occurs_at s p j) js /\
    (Contains s p = true -> exists j, head js = Some j /\ forall k, occurs_at s p k -> (k <= j)%nat).
Proof.
  intros Hp. revert s. induction fuel as [|f IH]; intros s Hf; [lia|]. cbn [occurrences].
  pose proof (LastIndex_spec s p) as HL. destruct (LastIndex s p) as [j|].
  - destruct HL as [Hj Hmax]. pose proof (occurs_in_range s p j Hj). assert (0 < length p)%nat by (destruct p; [done|cbn; lia]).
    destruct (IH (take j s)) as (js & -> & Hs & Ho & _); [rewrite length_take; lia|]. cbn [mbind option_bind].
    exists (j :: js). split; [done|]. split; [|split].
    + constructor; [done|]. apply Forall_forall. intros k Hk. rewrite Forall_forall in Ho.
      pose proof (occurs_in_range _ _ _ (Ho k Hk)) as Hr. rewrite length_take in Hr. lia.
    + constructor; [done|]. eapply Forall_impl; [exact Ho|]. intros k. apply occurs_at_take.
    + intros _. by exists j.
  - exists []. split; [done|]. split; [constructor|]. split; [constructor|].
    intros (j & Hj)%Contains_occurs. by apply HL in Hj.
Qed.

(** The empty pattern matches at the end of every prefix: the loop of Match
    goes on for ever. *)
Lemma empty_keyword_diverges fuel s : occurrences fuel s [] = None.
Proof.
  revert s. induction fuel as [|f IH]; intros s; [done|]. cbn [occurrences].
  assert (LastIndex s [] = Some (length s)) as -> by (unfold LastIndex; by destruct (length s)).
  by rewrite IH.
Qed.

(** ** The packed entries *)
Lemma entry_sum j i : Z.of_nat j < 65536 -> Z.of_nat i < 65536 -> entry j i = Z.of_nat j * 65536 + Z.of_nat i.
Proof.
  intros Hj Hi. unfold entry. rewrite (u32_small (Z.of_nat j)), (u32_small (Z.of_nat i)) by lia.
  rewrite Z.shiftl_mul_pow2, (u32_small (Z.of_nat j * 2 ^ 16)) by lia.
  change 65535 with (Z.ones 16). rewrite Z.land_ones, Z.mod_small by lia.
  assert (Hz : Z.land (Z.of_nat j * 2 ^ 16) (Z.of_nat i) = 0).
  { apply Z.bits_inj'. intros n Hn. rewrite Z.land_spec, Z.bits_0, <- Z.shiftl_mul_pow2 by lia.
    destruct (decide (n < 16)).
    - by rewrite Z.shiftl_spec_low.
    - rewrite (Z.bits_above_log2 (Z.of_nat i)), andb_false_r; [done|lia|].
      apply Z.lt_le_trans with 16; [|lia]. destruct (decide (i = 0%nat)) as [->|]; [done|]. apply Z.log2_lt_pow2; lia. }
  rewrite <- Z.lxor_lor, <- Z.add_nocarry_lxor by done. done.
Qed.

Definition hit_entry (h : nat * nat) : Z := Z.of_nat h.1 * 65536 + Z.of_nat h.2.
Definition entry_hit (e : Z) : nat * nat := (Z.to_nat (e / 65536), Z.to_nat (e mod 65536)).

Lemma entry_hit_entry h : Z.of_nat h.2 < 65536 -> entry_hit (hit_entry h) = h.
Proof.
  destruct h as [j i]. cbn. intros Hi. unfold entry_hit, hit_entry. cbn [fst snd].
  rewrite (Z.add_comm (Z.of_nat j * 65536)), Z.div_add, Z.mod_add, Z.div_small, Z.mod_small by lia.
  f_equal; lia.
Qed.

Lemma substr_entries_spec fuel ps i0 s :
  Forall (fun p => p <> []) ps -> (length s < fuel)%nat ->
  exists hits, substr_entries fuel ps i0 s = Some (map (fun h => entry h.1 h.2) hits) /\ NoDup hits /\
    (forall j i, (j, i) ∈ hits -> (i0 <= i)%nat /\ exists p, ps !! (i - i0)%nat = Some p /\ occurs_at s p j) /\
    (forall i p, ps !! i = Some p -> Contains s p = true ->
       exists j, (j, (i0 + i)%nat) ∈ hits /\ forall k, occurs_at s p k -> (k <= j)%nat).
Proof.
  intros Hps Hf. revert i0. induction Hps as [|p ps Hp Hps IH]; intros i0; cbn [substr_entries].
  { exists []. split; [done|]. split; [constructor|]. split; [intros j i Hn; by apply elem_of_nil in Hn|done]. }
  destruct (occurrences_spec p fuel s Hp Hf) as (js & -> & Hsort & Ho & Hlast). cbn [mbind option_bind].
  destruct (IH (S i0)) as (hits & -> & Hnd & Hin & Hall). cbn [mbind option_bind].
  exists (map (fun j => (j, i0)) js ++ hits). rewrite map_app, map_map. split; [done|]. split; [|split].
  - apply NoDup_app. split; [|split; [|done]].
    + apply (NoDup_fmap_2 (fun j => (j, i0)) js). clear -Hsort. induction Hsort as [|x l Hl IH Hx]; constructor; [|done].
      intros Hin. rewrite Forall_forall in Hx. specialize (Hx x Hin). lia.
    + intros [j i] Hx Hy. apply (list_elem_of_fmap (fun j => (j, i0)) js) in Hx as (k & [= -> ->] & _). apply Hin in Hy as [Hle _]. lia.
  - intros j i [Hx|Hx]%elem_of_app.
    + apply (list_elem_of_fmap (fun j => (j, i0)) js) in Hx as (k & [= -> ->] & Hk). split; [lia|]. exists p.
      rewrite Nat.sub_diag. split; [done|]. rewrite Forall_forall in Ho. by apply Ho.
    + apply Hin in Hx as (Hle & q & Hq & Hoq). split; [lia|]. exists q. split; [|done].
      by replace (i - i0)%nat with (S (i - S i0)) by lia.
  - intros [|i] q Hq Hc; cbn [lookup list_lookup] in Hq.
    + injection Hq as <-. destruct (Hlast Hc) as (j & Hj & Hmax). exists j. split; [|done]. rewrite Nat.add_0_r.
      apply elem_of_app. left. apply (list_elem_of_fmap_2 (fun j => (j, i0))). destruct js as [|k js]; [done|].
      injection Hj as ->. by left.
    + destruct (Hall i q Hq Hc) as (j & Hj & Hmax). exists j. split; [|done]. apply elem_of_app. right.
      by replace (i0 + S i)%nat with (S i0 + i)%nat by lia.
Qed.

Lemma sort_entries_spec l : Permutation (sort_entries l) l /\ StronglySorted Z.le (sort_entries l).
Proof.
  destruct l as [|a [|b [|c l]]]; [by split; [|constructor]|by split; [|repeat constructor]| |].
  - unfold sort_entries. destruct (b <? a) eqn:E; (split; [|repeat constructor; lia]); [constructor|done].
  - unfold sort_entries. split; [by apply merge_sort_Permutation|apply (StronglySorted_merge_sort Z.le)].
Qed.

Lemma StronglySorted_map {A B} (R : A -> A -> Prop) (S : B -> B -> Prop) (f : A -> B) l :
  (forall x y, x ∈ l -> y ∈ l -> R x y -> S (f x) (f y)) -> StronglySorted R l -> StronglySorted S (map f l).
Proof.
  intros Hf Hs. induction Hs as [|x l Hl IH Hx]; cbn [map]; constructor.
  - apply IH. intros y z Hy Hz. apply Hf; by right.
  - apply Forall_map. rewrite Forall_forall in *. intros y Hy. apply Hf; [by left|by right|by apply Hx].
Qed.

Lemma mapM_index {A} (f : Z -> Z) (l : list Z) (vs : list A) :
  Forall (fun e => 0 <= f e < zlen vs) l ->
  exists r, mapM (fun e => index vs (f e)) l = Some r /\ Forall2 (fun e v => vs !! Z.to_nat (f e) = Some v) l r.
Proof.
  induction 1 as [|e l He Hl (r & Hr & H2)]; [exists []; split; [done|constructor]|]. cbn [mapM].
  unfold zlen in He. destruct (lookup_lt_is_Some_2 vs (Z.to_nat (f e))) as [v Hv]; [lia|].
  assert (index vs (f e) = Some v) as -> by (apply index_Some; split; [lia|done]). cbn [mbind option_bind].
  rewrite Hr. cbn [mbind option_bind]. exists (v :: r). split; [done|]. by constructor.
Qed.

Lemma StronglySorted_strict l : NoDup l -> StronglySorted Z.le l -> StronglySorted Z.lt l.
Proof.
  intros Hnd Hs. induction Hs as [|x l Hl IH Hx]; [constructor|]. apply NoDup_cons in Hnd as [Hn Hnd].
  constructor; [by apply IH|]. rewrite Forall_forall in *. intros y Hy. specialize (Hx y Hy).
  assert (x <> y) by (intros ->; done). lia.
Qed.

Lemma Forall2_impl_elem {A B} (P Q : A -> B -> Prop) l k :
  Forall2 P l k -> (forall x y, x ∈ l -> P x y -> Q x y) -> Forall2 Q l k.
Proof.
  induction 1 as [|x y l k Hx Hl IH]; intros HPQ; constructor; [apply HPQ; [by left|done]|].
  apply IH. intros z w Hz. apply HPQ. by right.
Qed.

(** The group of substring matchers, with the shortcuts of its sort. *)
Lemma substr_Match_spec fuel added s :
  Forall (fun e => e.1 <> []) added -> zlen added <= 65536 -> zlen s < 65536 -> (length s < fuel)%nat ->
  exists r, substr_Match fuel (mkSubstr (map fst added) (map snd added)) s = Some r /\ substr_spec added s r.
Proof.
  intros Hne Hn Hs Hf. unfold substr_Match. cbn [sub_patterns sub_values].
  destruct (substr_entries_spec fuel (map fst added) 0 s) as (hits & -> & Hnd & Hin & Hall); [by apply Forall_map|done|].
  cbn [mbind option_bind]. setoid_rewrite Nat.sub_0_r in Hin.
  assert (Hb : forall h, h ∈ hits -> Z.of_nat h.1 < 65536 /\ Z.of_nat h.2 < zlen added).
  { intros [j i] Hh. destruct (Hin j i Hh) as (_ & p & Hp & Ho). apply occurs_in_range in Ho.
    apply lookup_lt_Some in Hp. rewrite length_map in Hp. unfold zlen in *. cbn. lia. }
  assert (Hes : map (fun h => entry h.1 h.2) hits = map hit_entry hits).
  { apply map_ext_in. intros h Hh%list_elem_of_In. apply Hb in Hh. apply entry_sum; lia. }
  rewrite Hes. destruct (sort_entries_spec (map hit_entry hits)) as [Hperm Hsort].
  set (es := sort_entries (map hit_entry hits)) in *.
  assert (Hel : forall e, e ∈ es -> exists h, h ∈ hits /\ e = hit_entry h /\ entry_hit e = h).
  { intros e He. rewrite Hperm in He. apply list_elem_of_fmap in He as (h & -> & Hh). exists h.
    split; [done|]. split; [done|]. apply entry_hit_entry. apply Hb in Hh. lia. }
  assert (Hmod : forall e, e ∈ es -> Z.land e 65535 = Z.of_nat (entry_hit e).2).
  { intros e He. destruct (Hel e He) as (h & Hh & E & _). change 65535 with (Z.ones 16). rewrite Z.land_ones by lia.
    unfold entry_hit. cbn [snd]. change (2 ^ 16) with 65536. pose proof (Z.mod_pos_bound e 65536). lia. }
  destruct (mapM_index (fun e => Z.land e 65535) es (map snd added)) as (r & -> & Hr).
  { apply Forall_forall. intros e He. rewrite (Hmod e He). destruct (Hel e He) as (h & Hh & _ & ->).
    apply Hb in Hh. unfold zlen in *. rewrite length_map. lia. }
  exists r. split; [done|]. exists (map entry_hit es). split; [|split; [|split]].
  - apply (StronglySorted_map Z.lt); [|apply StronglySorted_strict; [|done]].
    + intros x y Hx Hy. destruct (Hel x Hx) as (h & Hh & -> & ->), (Hel y Hy) as (k & Hk & -> & ->).
      destruct (Hb h Hh), (Hb k Hk). unfold hit_entry, hit_le. lia.
    + rewrite Hperm. apply NoDup_fmap_2_strong; [|done]. intros h k Hh Hk E. apply Hb in Hh, Hk. apply (f_equal entry_hit) in E.
      by rewrite !entry_hit_entry in E by lia.
  - intros j i (e & E & He)%list_elem_of_fmap. destruct (Hel e He) as (h & Hh & _ & Eh). rewrite Eh in E. subst h.
    destruct (Hin j i Hh) as (_ & p & Hp & Ho). rewrite list_lookup_fmap in Hp.
    destruct (added !! i) as [a|]; [|done]. injection Hp as <-. by exists a.
  - intros i e He Hc. destruct (Hall i e.1) as (j & Hj & Hmax); [by rewrite list_lookup_fmap, He|done|].
    exists j. split; [|done]. apply list_elem_of_fmap. exists (hit_entry (j, i)). split.
    + symmetry. apply entry_hit_entry. apply Hb in Hj. cbn in *. lia.
    + rewrite Hperm. by apply list_elem_of_fmap_2.
  - apply Forall2_fmap_l. eapply Forall2_impl_elem; [exact Hr|]. intros e v He Hv.
    cbn beta in Hv. rewrite (Hmod e He), Nat2Z.id in Hv.
    rewrite list_lookup_fmap in Hv. destruct (added !! _) as [a|] eqn:Ea; [|done]. injection Hv as <-. by exists a.
Qed.


(** ** The linear index *)
Section Linear.
Context {Regexp : Type} (MatchString : Regexp -> bytes -> bool).
Implicit Types (ms : list (Matcher Regexp)) (g : LinearIndexMatcher Regexp).

(** The matchers with their indices, and those of each kind. *)
Definition indexed ms : list (Matcher Regexp * Z) := imap (fun i m => (m, Z.of_nat i + 1)) ms.

Definition fulls (l : list (Matcher Regexp * Z)) : list (bytes * Z) :=
  omap (fun e => match e.1 with FullMatcher p => Some (p, e.2) | _ => None end) l.
Definition domains (l : list (Matcher Regexp * Z)) : list (bytes * Z) :=
  omap (fun e => match e.1 with DomainMatcher p => Some (p, e.2) | _ => None end) l.
Definition substrs (l : list (Matcher Regexp * Z)) : list (bytes * Z) :=
  omap (fun e => match e.1 with SubstrMatcher p => Some (p, e.2) | _ => None end) l.
Definition regexes (l : list (Matcher Regexp * Z)) : list (Matcher Regexp * Z) :=
  omap (fun e => match e.1 with RegexMatcher _ => Some e | _ => None end) l.

(** The matchers the groups are made for. *)
Definition usable (m : Matcher Regexp) : Prop :=
  match m with
  | DomainMatcher p => good_domain p
  | SubstrMatcher p => p <> []
  | _ => True
  end.

Record linear_holds (l : list (Matcher Regexp * Z)) g : Prop := {
  lh_count : count g = zlen l;
  lh_full : forall p, default NewFullMatcherGroup (full g) !! p =
    if decide (values_of p (fulls l) = []) then None else Some (values_of p (fulls l));
  lh_domain : trie_holds (domains l) (default newNode (domain g));
  lh_substr : default (mkSubstr [] []) (substr g) = mkSubstr (map fst (substrs l)) (map snd (substrs l));
  lh_regex : default [] (regex g) = regexes l;
}.

Lemma linear_holds_new : linear_holds [] NewLinearIndexMatcher.
Proof. split; [done|done|apply trie_holds_new|done|done]. Qed.

Lemma values_of_app p a b : values_of p (a ++ b) = values_of p a ++ values_of p b.
Proof. apply omap_app. Qed.

Lemma values_of_one q p v : values_of q [(p, v)] = if decide (q = p) then [v] else [].
Proof.
  unfold values_of. cbn [omap list_omap fst snd]. destruct (decide (q = p)) as [->|Hne]; [by rewrite bool_decide_true|].
  by rewrite bool_decide_false.
Qed.

Lemma Add_holds l g m :
  linear_holds l g -> zlen l + 1 < 2 ^ 32 ->
  exists g', Add m g = Some (g', zlen l + 1) /\ linear_holds (l ++ [(m, zlen l + 1)]) g'.
Proof.
  intros [Hc Hf Hd Hs Hr] Hl. pose proof (zlen_nonneg l) as Hl0. unfold Add. rewrite Hc, u32_small by lia.
  assert (Hlen : zlen (l ++ [(m, zlen l + 1)]) = zlen l + 1) by (rewrite zlen_app; done).
  destruct m as [p|p|p|r].
  2: destruct (AddDomainMatcher_holds (domains l) (default newNode (domain g)) p (zlen l + 1) Hd) as (t & -> & Ht);
     cbn [mbind option_bind].
  all: eexists; split; [done|]; split; cbn [count full domain substr regex from_option id];
    unfold fulls, domains, substrs, regexes in *; rewrite ?omap_app; cbn [omap list_omap fst snd app]; rewrite ?app_nil_r; try done.
  - intros q. unfold AddFullMatcher. rewrite values_of_app, values_of_one. destruct (decide (q = p)) as [->|Hne].
    + rewrite lookup_insert_eq, Hf. rewrite (decide_False (P := _ ++ _ = [])) by (intros E; by apply app_nil in E as [_ ?]).
      case_decide as E; cbn [from_option id]; [by rewrite E|done].
    + rewrite lookup_insert_ne by done. by rewrite Hf, app_nil_r.
  - unfold AddSubstrMatcher. rewrite Hs. cbn [sub_patterns sub_values]. by rewrite !map_app.
  - unfold AddMatcher. by rewrite Hr.
Qed.

Lemma Add_all_holds ms l g :
  linear_holds l g -> zlen l + zlen ms < 2 ^ 32 ->
  exists g', Add_all ms g = Some g' /\
    linear_holds (l ++ imap (fun i m => (m, zlen l + Z.of_nat i + 1)) ms) g'.
Proof.
  revert l g. induction ms as [|m ms IH]; intros l g Hg Hl; cbn [Add_all].
  - exists g. by rewrite app_nil_r.
  - rewrite zlen_cons in Hl. pose proof (zlen_nonneg ms). destruct (Add_holds l g m Hg) as (g1 & -> & Hg1); [lia|].
    cbn [mbind option_bind]. destruct (IH _ _ Hg1) as (g2 & -> & Hg2); [rewrite zlen_app, zlen_cons, zlen_nil; lia|].
    exists g2. split; [done|]. rewrite imap_cons. rewrite <- app_assoc in Hg2. rewrite zlen_app in Hg2. cbn [app] in Hg2.
    replace (zlen l + Z.of_nat 0 + 1) with (zlen l + 1) by lia.
    rewrite (imap_ext _ (fun i m => (m, zlen l + 1 + Z.of_nat i + 1)) ms); [done|].
    intros i x _. unfold compose. f_equal. lia.
Qed.

Lemma New_holds ms : zlen ms < 2 ^ 32 -> exists g, Add_all ms NewLinearIndexMatcher = Some g /\ linear_holds (indexed ms) g.
Proof.
  intros Hl. destruct (Add_all_holds ms [] _ linear_holds_new) as (g & -> & Hg); [by rewrite zlen_nil|].
  exists g. split; [done|]. by rewrite zlen_nil in Hg.
Qed.

Lemma elem_of_indexed ms m k : (m, k) ∈ indexed ms <-> 1 <= k /\ ms !! Z.to_nat (k - 1) = Some m.
Proof.
  unfold indexed. rewrite elem_of_lookup_imap. split.
  - intros (i & x & [= -> ->] & Hi). split; [lia|]. by replace (Z.to_nat _) with i by lia.
  - intros [Hk Hi]. exists (Z.to_nat (k - 1)), m. split; [f_equal; lia|done].
Qed.

Lemma concat_found o r : concat (found o r) = concat r ++ default [] o.
Proof.
  destruct o as [[|z m]|]; cbn [found from_option id]; rewrite ?app_nil_r; try done.
  rewrite zlen_cons. pose proof (zlen_nonneg m). replace (0 <? 1 + zlen m) with true by lia.
  by rewrite concat_app; cbn [concat]; rewrite app_nil_r.
Qed.

Lemma simple_Match_spec (l : list (Matcher Regexp * Z)) s :
  simple_Match MatchString l s = omap (fun e => if Match MatchString e.1 s then Some e.2 else None) l.
Proof.
  unfold simple_Match.
  assert (Hgen : forall acc, fold_left (fun result e => if Match MatchString e.1 s then result ++ [e.2] else result) l acc =
    acc ++ omap (fun e => if Match MatchString e.1 s then Some e.2 else None) l).
  { induction l as [|e l IH]; intros acc; cbn [fold_left omap list_omap]; [by rewrite app_nil_r|].
    rewrite IH. destruct (Match MatchString e.1 s); [by rewrite <- app_assoc|done]. }
  apply Hgen.
Qed.

Lemma simple_MatchAny_spec (l : list (Matcher Regexp * Z)) s :
  simple_MatchAny MatchString l s = bool_decide (simple_Match MatchString l s <> []).
Proof.
  rewrite simple_Match_spec. unfold simple_MatchAny. induction l as [|e l IH]; [done|]. cbn [existsb omap list_omap].
  destruct (Match MatchString e.1 s); [done|exact IH].
Qed.

Lemma full_Match_holds l g s :
  linear_holds l g ->
  default [] ((fun x => full_Match x s) <$> full g) = values_of s (fulls l) /\
  match full g with Some x => full_MatchAny x s | None => false end = bool_decide (values_of s (fulls l) <> []).
Proof.
  intros Hg. pose proof (lh_full _ _ Hg s) as Hf. unfold full_Match, full_MatchAny.
  destruct (full g) as [x|]; cbn [from_option id fmap option_fmap option_map] in *.
  - rewrite Hf. case_decide as E; [by rewrite E|]. cbn. split; [done|]. by rewrite !bool_decide_true.
  - unfold NewFullMatcherGroup in Hf. rewrite lookup_empty in Hf. case_decide as E; [by rewrite E|done].
Qed.

Lemma domain_Match_holds l g s :
  linear_holds l g -> Forall (fun e => good_domain e.1) (domains l) ->
  domain_Match (default newNode (domain g)) s = Some (domain_spec (domains l) s) /\
  domain_MatchAny (default newNode (domain g)) s = Some (bool_decide (domain_spec (domains l) s <> [])) /\
  (domain g = None -> domain_spec (domains l) s = []).
Proof.
  intros Hg Hgood. pose proof (lh_domain _ _ Hg) as Hd.
  pose proof (domain_Match_spec _ _ s Hd Hgood) as Hm. split; [done|]. split; [by apply domain_MatchAny_Match|].
  intros E. rewrite E in Hm. cbn [from_option id] in Hm.
  rewrite (domain_Match_spec [] newNode s trie_holds_new) in Hm by constructor. injection Hm as <-.
  unfold domain_spec. by induction (domain_suffixes s).
Qed.

Lemma elem_of_substr_spec v added s r :
  substr_spec added s r -> v ∈ r <-> exists p, (p, v) ∈ added /\ Contains s p = true.
Proof.
  intros (hits & _ & Hocc & Hall & H2). split.
  - intros [n Hn]%list_elem_of_lookup. destruct (Forall2_lookup_r _ _ _ _ _ H2 Hn) as ([j i] & Hh & [p w] & He & ->).
    exists p. split; [by eapply list_elem_of_lookup_2|]. apply list_elem_of_lookup_2 in Hh.
    destruct (Hocc j i Hh) as (e & He' & Ho). cbn [snd] in He. rewrite He in He'. injection He' as <-.
    apply Contains_occurs. by exists j.
  - intros (p & [i Hi]%list_elem_of_lookup & Hc). destruct (Hall i (p, v) Hi Hc) as (j & [n Hn]%list_elem_of_lookup & _).
    destruct (Forall2_lookup_l _ _ _ _ _ H2 Hn) as (w & Hw & e & He & ->). cbn [snd] in He. rewrite Hi in He.
    injection He as <-. by eapply list_elem_of_lookup_2.
Qed.

Lemma substr_MatchAny_spec added s r :
  substr_spec added s r -> existsb (fun p => Contains s p) (map fst added) = bool_decide (r <> []).
Proof.
  intros Hr. apply eq_bool_prop_intro. rewrite bool_decide_spec, Is_true_true, existsb_exists. split.
  - intros (p & Hp & Hc) ->. apply list_elem_of_In, list_elem_of_fmap in Hp as ([q v] & -> & Hin).
    apply (elem_of_nil v), (elem_of_substr_spec v added s [] Hr). by exists q.
  - intros Hne. destruct r as [|v r]; [done|].
    destruct (proj1 (elem_of_substr_spec v added s (v :: r) Hr) ltac:(by left)) as (p & Hp & Hc).
    exists p. split; [|done]. apply list_elem_of_In, list_elem_of_fmap. by exists (p, v).
Qed.

Lemma substr_Match_holds l g s :
  linear_holds l g -> Forall (fun e => e.1 <> []) (substrs l) -> zlen (substrs l) <= 65536 -> zlen s < 65536 ->
  exists r, substr_Match (S (length s)) (default (mkSubstr [] []) (substr g)) s = Some r /\
    substr_spec (substrs l) s r /\
    match substr g with Some x => substr_MatchAny x s | None => false end = bool_decide (r <> []) /\
    (substr g = None -> r = []).
Proof.
  intros Hg Hne Hn Hs. pose proof (lh_substr _ _ Hg) as He.
  destruct (substr_Match_spec (S (length s)) _ s Hne Hn Hs) as (r & Hr & Hspec); [lia|]. rewrite <- He in Hr.
  pose proof (substr_MatchAny_spec _ _ _ Hspec) as Hany. exists r. split; [done|]. split; [done|].
  destruct (substr g) as [x|]; cbn [from_option id] in *.
  - split; [|done]. by rewrite He.
  - injection Hr as <-. by split.
Qed.

Lemma Linear_Match_spec l g s :
  linear_holds l g -> Forall (fun e => usable e.1) l -> zlen (substrs l) <= 65536 -> zlen s < 65536 ->
  exists r, substr_spec (substrs l) s r /\
    let all := values_of s (fulls l) ++ domain_spec (domains l) s ++ r ++ simple_Match MatchString (regexes l) s in
    Linear_Match MatchString (S (length s)) g s = Some all /\
    Linear_MatchAny MatchString g s = Some (bool_decide (all <> [])).
Proof.
  intros Hg Hu Hn Hs. destruct (full_Match_holds l g s Hg) as [Hf1 Hf2].
  assert (Hgood : Forall (fun e => good_domain e.1) (domains l)).
  { apply Forall_forall. intros [p v] ([m k] & Hin & E)%list_elem_of_omap. rewrite Forall_forall in Hu. specialize (Hu _ Hin).
    destruct m; try done. by injection E as -> ->. }
  assert (Hne : Forall (fun e => e.1 <> []) (substrs l)).
  { apply Forall_forall. intros [p v] ([m k] & Hin & E)%list_elem_of_omap. rewrite Forall_forall in Hu. specialize (Hu _ Hin).
    destruct m; try done. by injection E as -> ->. }
  destruct (domain_Match_holds l g s Hg Hgood) as (Hd1 & Hd2 & Hd3).
  destruct (substr_Match_holds l g s Hg Hne Hn Hs) as (r & Hr1 & Hr2 & Hr3 & Hr4).
  pose proof (lh_regex _ _ Hg) as Hx. exists r. split; [done|]. cbv zeta. split.
  - unfold Linear_Match.
    assert (exists a, (match domain g with
      | Some x => m ← domain_Match x s; Some (found (Some m) (found ((fun x => full_Match x s) <$> full g) []))
      | None => Some (found ((fun x => full_Match x s) <$> full g) []) end) = Some a /\
      concat a = values_of s (fulls l) ++ domain_spec (domains l) s) as (a & -> & Ha).
    { destruct (domain g) as [t|]; cbn [from_option id] in *.
      - rewrite Hd1. eexists. split; [done|]. by rewrite !concat_found, Hf1.
      - eexists. split; [done|]. by rewrite concat_found, Hf1, Hd3, app_nil_r. }
    cbn [mbind option_bind].
    assert (exists b, (match substr g with
      | Some x => m ← substr_Match (S (length s)) x s; Some (found (Some m) a)
      | None => Some a end) = Some b /\ concat b = concat a ++ r) as (b & -> & Hb).
    { destruct (substr g) as [t|]; cbn [from_option id] in *.
      - rewrite Hr1. eexists. split; [done|]. by rewrite concat_found.
      - eexists. split; [done|]. by rewrite Hr4, app_nil_r. }
    cbn [mbind option_bind]. rewrite CompositeMatches_concat, concat_found, Hb, Ha, <- !app_assoc. do 4 f_equal.
    rewrite <- Hx. by destruct (regex g).
  - unfold Linear_MatchAny. rewrite Hf2.
    assert (Hxa : match regex g with Some x => simple_MatchAny MatchString x s | None => false end =
      bool_decide (simple_Match MatchString (regexes l) s <> [])).
    { rewrite <- Hx. destruct (regex g); [apply simple_MatchAny_spec|done]. }
    assert (Hda : match domain g with Some x => domain_MatchAny x s | None => Some false end =
      Some (bool_decide (domain_spec (domains l) s <> []))).
    { destruct (domain g); [done|]. by rewrite Hd3. }
    rewrite Hda, Hr3, Hxa. cbn [mbind option_bind].
    destruct (values_of s (fulls l)), (domain_spec (domains l) s), r, (simple_Match MatchString (regexes l) s); done.
Qed.

Lemma length_omap {A B} (f : A -> option B) (l : list A) : (length (omap f l) <= length l)%nat.
Proof. induction l as [|x l IH]; [done|]. cbn [omap list_omap]. destruct (f x); cbn [length]; lia. Qed.

Lemma indexed_ready ms :
  zlen ms <= 65536 -> Forall usable ms ->
  Forall (fun e => usable e.1) (indexed ms) /\ zlen (substrs (indexed ms)) <= 65536.
Proof.
  intros Hl Hu. split.
  - apply Forall_forall. intros [m k] Hin%elem_of_indexed. rewrite Forall_forall in Hu.
    apply Hu. eapply list_elem_of_lookup_2, Hin.
  - unfold zlen in *. unfold substrs. pose proof (length_omap (fun e => match e.1 with SubstrMatcher p => Some (p, e.2) | _ => None end) (indexed ms)).
    unfold indexed in *. rewrite length_imap in *. lia.
Qed.

(** Every kind of matcher has its part of the answer. *)
Lemma elem_of_parts k l s r :
  substr_spec (substrs l) s r ->
  k ∈ values_of s (fulls l) ++ domain_spec (domains l) s ++ r ++ simple_Match MatchString (regexes l) s <->
  exists m, (m, k) ∈ l /\ Match MatchString m s = true.
Proof.
  intros Hr. rewrite !elem_of_app, elem_of_values_of, elem_of_domain_spec, (elem_of_substr_spec _ _ _ _ Hr), simple_Match_spec.
  unfold fulls, domains, substrs, regexes. do 2 setoid_rewrite list_elem_of_omap. split.
  - intros [([m v] & Hin & E)|[(p & ([m v] & Hin & E) & Hm)|[(p & ([m v] & Hin & E) & Hm)|([m v] & ([m' v'] & Hin & E) & Hm)]]].
    + exists m. destruct m as [p| | |]; try done. cbn in E. injection E as -> ->. split; [done|]. by apply bool_decide_eq_true.
    + exists m. destruct m as [|q| |]; try done. cbn in E. by injection E as -> ->.
    + exists m. destruct m as [| |q|]; try done. cbn in E. by injection E as -> ->.
    + exists m'. destruct m' as [| | |x]; try done. cbn in E. injection E as <- <-. cbn [fst snd] in Hm.
      destruct (Match MatchString (RegexMatcher x) s) eqn:Ex; [|done]. by injection Hm as ->.
  - intros (m & Hin & Hm). destruct m as [p|p|p|x].
    + left. exists (FullMatcher p, k). split; [done|]. cbn. apply bool_decide_eq_true in Hm. by subst.
    + right. left. exists p. split; [|done]. by exists (DomainMatcher p, k).
    + right. right. left. exists p. split; [|done]. by exists (SubstrMatcher p, k).
    + right. right. right. exists (RegexMatcher x, k). split; [by exists (RegexMatcher x, k)|]. cbn [fst snd]. by rewrite Hm.
Qed.

Lemma existsb_elem_of {A} (f : A -> bool) (l : list A) : existsb f l = true <-> exists x, x ∈ l /\ f x = true.
Proof. rewrite existsb_exists. by setoid_rewrite <- list_elem_of_In. Qed.

Lemma linear_answers ms g s :
  linear_holds (indexed ms) g -> zlen ms <= 65536 -> Forall usable ms -> zlen s < 65536 ->
  exists r, Linear_Match MatchString (S (length s)) g s = Some r /\
    (forall k, k ∈ r <-> 1 <= k /\ exists m, ms !! Z.to_nat (k - 1) = Some m /\ Match MatchString m s = true) /\
    Linear_MatchAny MatchString g s = Some (existsb (fun m => Match MatchString m s) ms).
Proof.
  intros Hholds Hl Hu Hs. destruct (indexed_ready ms Hl Hu) as [Hiu Hin].
  destruct (Linear_Match_spec _ _ s Hholds Hiu Hin Hs) as (r & Hr & Hm & Hany). cbv zeta in *.
  eexists _. split; [exact Hm|].
  assert (Hel : forall k, k ∈ values_of s (fulls (indexed ms)) ++ domain_spec (domains (indexed ms)) s ++ r ++
      simple_Match MatchString (regexes (indexed ms)) s <->
      1 <= k /\ exists m, ms !! Z.to_nat (k - 1) = Some m /\ Match MatchString m s = true).
  { intros k. rewrite (elem_of_parts _ _ _ _ Hr). setoid_rewrite elem_of_indexed. naive_solver. }
  split; [exact Hel|]. rewrite Hany. f_equal. apply eq_bool_prop_intro. rewrite bool_decide_spec, Is_true_true, existsb_elem_of.
  set (all := _ ++ _) in *. split.
  - intros Hne. destruct all as [|k all]; [done|]. destruct (proj1 (Hel k) ltac:(by left)) as (_ & m & Hm' & Hx).
    exists m. split; [|done]. by eapply list_elem_of_lookup_2.
  - intros (m & [i Hi]%list_elem_of_lookup & Hx) Hnil. rewrite Hnil in Hel. apply (elem_of_nil (Z.of_nat i + 1)), Hel.
    split; [lia|]. exists m. split; [|done]. by replace (Z.to_nat _) with i by lia.
Qed.

(** The linear index answers exactly as asking every matcher in turn would: for at most
    65536 usable matchers (a domain pattern is not empty and does not start with a
    period, a keyword is not empty), added to an empty index, and any input below 64K
    bytes, Match returns the indices of the matchers that match and no others, MatchAny
    says whether there is one, and Size counts the matchers. *)
Theorem linear_index_matches ms s (Hl : zlen ms <= 65536) (Hu : Forall usable ms) (Hs : zlen s < 65536) :
  exists g r, Add_all ms NewLinearIndexMatcher = Some g /\ Size g = zlen ms /\
    Linear_Match MatchString (S (length s)) g s = Some r /\
    (forall k, k ∈ r <-> 1 <= k /\ exists m, ms !! Z.to_nat (k - 1) = Some m /\ Match MatchString m s = true) /\
    Linear_MatchAny MatchString g s = Some (existsb (fun m => Match MatchString m s) ms).
Proof.
  destruct (New_holds ms) as (g & Hg & Hholds); [lia|]. destruct (linear_answers ms g s Hholds Hl Hu Hs) as (r & Hr & Hk & Hany).
  exists g, r. split; [done|]. split; [|by auto]. unfold Size. rewrite (lh_count _ _ Hholds). unfold zlen, indexed. by rewrite length_imap.
Qed.

(** The order of the answer is the priority the package documents: first
    the full matchers, then the domain matchers - the longest pattern first -,
    then the keywords - by the position of their occurrences -, then the regular
    expressions, and within each of these in the order they were added. *)
Theorem linear_index_priority ms s (Hl : zlen ms <= 65536) (Hu : Forall usable ms) (Hs : zlen s < 65536) :
  exists g r, Add_all ms NewLinearIndexMatcher = Some g /\
    Linear_Match MatchString (S (length s)) g s =
      Some (values_of s (fulls (indexed ms)) ++ domain_spec (domains (indexed ms)) s ++ r ++
        omap (fun e => if Match MatchString e.1 s then Some e.2 else None) (regexes (indexed ms))) /\
    substr_spec (substrs (indexed ms)) s r.
Proof.
  destruct (New_holds ms) as (g & Hg & Hholds); [lia|]. destruct (indexed_ready ms Hl Hu) as [Hiu Hin].
  destruct (Linear_Match_spec _ _ s Hholds Hiu Hin Hs) as (r & Hr & Hm & _). cbv zeta in Hm.
  exists g, r. split; [done|]. split; [|done]. by rewrite <- simple_Match_spec.
Qed.
End Linear.

(** ** [ToDomain] *)

(** The characters of a domain: lower case letters, digits, hyphen, period. *)
Definition ldh (c : byte) : bool :=
  between 97 122 (b2z c) || between 48 57 (b2z c) || bool_decide (c = x2d) || bool_decide (c = dot).
Definition is_domain (s : bytes) : Prop := Forall (fun c => ldh c = true) s.
Definition ascii (s : bytes) : Prop := Forall (fun c => b2z c < 128) s.

Lemma to_lower_ldh c : between 65 90 (b2z c) = true -> ldh (to_lower c) = true.
Proof.
  intros Hc. unfold to_lower. rewrite Hc. unfold ldh, between in *. pose proof (b2z_range c).
  rewrite b2z_z2b, u8_small by lia. lia.
Qed.

Lemma to_lower_id c : between 65 90 (b2z c) = false -> to_lower c = c.
Proof. intros Hc. unfold to_lower. by rewrite Hc. Qed.

Definition upper (c : byte) : bool := between 65 90 (b2z c).

(** The scan of an ASCII string, and of one that is not. *)
Lemma ldh_scan_ascii p u :
  ascii p ->
  ldh_scan p u = if forallb (fun c => ldh (to_lower c)) p then Some (true, u || existsb upper p) else None.
Proof.
  intros Hp. revert u. induction Hp as [|c p Hc Hp IH]; intros u; cbn [ldh_scan forallb existsb]; [by rewrite orb_false_r|].
  replace (128 <=? b2z c) with false by lia. rewrite !IH. change (upper c) with (between 65 90 (b2z c)). destruct (between 65 90 (b2z c)) eqn:Eu.
  - rewrite to_lower_ldh by done. cbn [andb orb]. by rewrite orb_true_r.
  - rewrite to_lower_id by done. cbn [orb].
    assert (Hldh : ldh c = between 97 122 (b2z c) || between 48 57 (b2z c) || bool_decide (c = x2d) || bool_decide (c = dot)) by done.
    rewrite Hldh.
    destruct (between 97 122 (b2z c)); [done|]. destruct (between 48 57 (b2z c)); [done|].
    destruct (bool_decide (c = x2d)); [done|]. destruct (bool_decide (c = dot)); done.
Qed.

Lemma ldh_scan_not_ascii p u : ~ ascii p -> ldh_scan p u = None \/ exists v, ldh_scan p u = Some (false, v).
Proof.
  revert u. induction p as [|c p IH]; intros u Hp; [by destruct Hp; constructor|]. cbn [ldh_scan].
  destruct (128 <=? b2z c) eqn:Ec; [right; by eexists|].
  assert (Hn : ~ ascii p) by (intros Ha; apply Hp; constructor; [lia|done]).
  tests; auto.
Qed.

Lemma ToLower_plain p : existsb upper p = false -> ToLower p = p.
Proof.
  induction p as [|c p IH]; [done|]. cbn [existsb]. intros [Hc Hp]%orb_false_iff. unfold ToLower. cbn [map].
  rewrite to_lower_id by done. f_equal. by apply IH.
Qed.

Lemma is_domain_lower p : is_domain (ToLower p) <-> forallb (fun c => ldh (to_lower c)) p = true.
Proof. unfold is_domain, ToLower. rewrite Forall_map, forallb_forall, Forall_forall. by setoid_rewrite list_elem_of_In. Qed.

(** A round of the loop on an ASCII pattern is the last. *)
Lemma ToDomain_ascii ToASCII fuel p :
  ascii p ->
  ToDomain ToASCII (S fuel) p =
    Some (if decide (is_domain (ToLower p)) then Ok (ToLower p)
          else Err (NewError "pattern string does not conform to Letter-Digit-Hyphen (LDH) subset")).
Proof.
  intros Hp. cbn [ToDomain]. rewrite ldh_scan_ascii by done. cbn [orb].
  destruct (forallb (fun c => ldh (to_lower c)) p) eqn:E.
  - rewrite decide_True by by apply is_domain_lower. destruct (existsb upper p) eqn:Eu; [done|]. by rewrite ToLower_plain.
  - rewrite decide_False; [done|]. rewrite is_domain_lower. congruence.
Qed.

(** C40. Every domain pattern is well formed: ToDomain ends after at most two
    rounds (given that Punycode yields ASCII, as it documents, and does not
    panic), its result holds lower case letters, digits, hyphens and periods
    only, an ASCII pattern becomes its lower case form when that is of this form
    and is an error otherwise, and no input makes it panic. *)
Theorem ToDomain_well_formed (ToASCII : bytes -> res bytes) p
    (Hascii : forall a b, ToASCII a = Ok b -> ascii b) (Hpanic : forall a, ToASCII a <> Panic) :
  exists r, (forall fuel, (2 <= fuel)%nat -> ToDomain ToASCII fuel p = Some r) /\ r <> Panic /\
    (forall d, r = Ok d -> is_domain d) /\
    (ascii p -> is_domain (ToLower p) -> r = Ok (ToLower p)) /\
    (ascii p -> ~ is_domain (ToLower p) -> exists e, r = Err e).
Proof.
  assert (Hasc : forall q fuel, ascii q -> exists r, ToDomain ToASCII (S fuel) q = Some r /\ r <> Panic /\
    (forall d, r = Ok d -> is_domain d) /\ (is_domain (ToLower q) -> r = Ok (ToLower q)) /\
    (~ is_domain (ToLower q) -> exists e, r = Err e)).
  { intros q fuel Hq. rewrite ToDomain_ascii by done. eexists. split; [done|]. case_decide as Hd; [|by split; [done|split; [done|split; [done|eauto]]]].
    split; [done|]. split; [by intros ? [= <-]|]. by split. }
  destruct (decide (ascii p)) as [Hp|Hp].
  - destruct (Hasc p 0%nat Hp) as (r & Hr & H1 & H2 & H3 & H4). exists r. split; [|by auto].
    intros [|fuel] Hf; [lia|]. rewrite ToDomain_ascii in * by done. done.
  - destruct (ldh_scan_not_ascii p false Hp) as [E|[v E]].
    + eexists. split; [intros [|fuel] Hf; [lia|]; cbn [ToDomain]; by rewrite E|]. done.
    + destruct (ToASCII p) as [q|e|] eqn:Eq; [| |by apply Hpanic in Eq].
      * pose proof (Hascii _ _ Eq) as Hq. destruct (Hasc q 0%nat Hq) as (r & Hr & H1 & H2 & _).
        exists r. split; [|done]. intros [|[|fuel]] Hf; [lia..|]. cbn [ToDomain]. rewrite E, Eq.
        change (ToDomain ToASCII (S fuel) q = Some r). rewrite ToDomain_ascii in * by done. done.
      * eexists. split; [intros [|fuel] Hf; [lia|]; cbn [ToDomain]; by rewrite E, Eq|]. done.
Qed.

(** ** Witnesses *)
Definition demo_matchers : list (Matcher (bytes -> bool)) :=
  [SubstrMatcher (lit "oo"); DomainMatcher (lit "com"); FullMatcher (lit "a.foo.com"); DomainMatcher (lit "foo.com");
   RegexMatcher (fun s => HasPrefix s (lit "a.")); SubstrMatcher (lit ".")].

Lemma demo_usable : Forall usable demo_matchers.
Proof. repeat (apply Forall_cons_2; [cbn; done|]). apply Forall_nil_2. Qed.

Lemma linear_index_matches_witness :
  (g ← Add_all demo_matchers NewLinearIndexMatcher; Linear_Match (fun r s => r s) 10 g (lit "a.foo.com")) =
    Some [3; 4; 2; 6; 1; 6; 5] /\
  exists g, Add_all demo_matchers NewLinearIndexMatcher = Some g /\
    Linear_MatchAny (fun r s => r s) g (lit "a.foo.com") = Some true.
Proof.
  split; [vm_compute; reflexivity|].
  destruct (linear_index_matches (fun r s => r s) demo_matchers (lit "a.foo.com") ltac:(by vm_compute) demo_usable ltac:(by vm_compute))
    as (g & r & Hg & _ & _ & _ & H). by exists g.
Defined.

Lemma linear_index_priority_witness :
  exists g r, Add_all demo_matchers NewLinearIndexMatcher = Some g /\
    Linear_Match (fun r s => r s) 10 g (lit "a.foo.com") = Some ([3] ++ [4; 2] ++ r ++ [5]).
Proof.
  destruct (linear_index_priority (fun r s => r s) demo_matchers (lit "a.foo.com") ltac:(by vm_compute) demo_usable ltac:(by vm_compute))
    as (g & r & Hg & Hm & _).
  exists g, r. split; [exact Hg|]. exact Hm.
Defined.

(** A Punycode that knows one name. *)
Definition demo_ToASCII (p : bytes) : res bytes :=
  if decide (p = z2b 195 :: z2b 169 :: lit ".FR") then Ok (lit "xn--9ca.FR") else Err (NewError "idna").

Lemma ToDomain_well_formed_witness :
  ToDomain demo_ToASCII 2 (z2b 195 :: z2b 169 :: lit ".FR") = Some (Ok (lit "xn--9ca.fr")) /\
  is_domain (lit "xn--9ca.fr").
Proof.
  split; [vm_compute; reflexivity|].
  destruct (ToDomain_well_formed demo_ToASCII (z2b 195 :: z2b 169 :: lit ".FR")) as (r & Hr & _ & Hd & _).
  - intros a b. unfold demo_ToASCII. case_decide; [|discriminate]. intros [= <-].
    repeat (apply Forall_cons_2; [vm_compute; reflexivity|]). apply Forall_nil_2.
  - intros a. unfold demo_ToASCII. by case_decide.
  - apply Hd. specialize (Hr 2%nat ltac:(lia)). vm_compute in Hr. injection Hr as <-. reflexivity.
Defined.

(** A pattern with an empty first label is its rest in the trie, but not as a
    matcher. *)
Lemma leading_dot_differs :
  (g ← AddDomainMatcher (lit ".com") 1 newNode; domain_Match g (lit "com")) = Some [1] /\
  domain_match (lit ".com") (lit "com") = false.
Proof. split; vm_compute; reflexivity. Qed.
