(* ===== verification/StrAC.v ===== *)
(** * Package common/strmatcher: the Aho-Corasick group

    [Module StrAC] models matchergroup_ac_automation.go: one automaton over the
    letters, digits, hyphen and period for full, domain and substring matchers,
    which reads the input from its end.  Nodes are indices into a growing table,
    as in the source; [None] is the panic of an index out of range, or no fuel. *)
From S2P Require Import Prelude GoStd StrMatch.
Import StrMatch.

Module StrAC.

#[export] Instance Type_eq_dec : EqDecision Type_.
Proof. solve_decision. Defined.

Definition acValidCharCount : nat := 39.

(** Upper and lower case letters share an edge; every other character outside
    the set shares edge 0. *)
Definition acCharset (c : byte) : nat :=
  let z := b2z c in
  if between 65 90 z then Z.to_nat (z - 64)
  else if between 97 122 z then Z.to_nat (z - 96)
  else if z =? 45 then 27
  else if z =? 46 then 28
  else if between 48 57 z then Z.to_nat (z - 48 + 29)
  else 0.

(** [edge] is true for acTrieEdge and false for acFailEdge. *)
Record acNode := mkNode { next : list nat; edge : list bool; fail : nat; match_ : nat }.

Definition acNode0 : acNode :=
  {| next := replicate acValidCharCount 0%nat; edge := replicate acValidCharCount false; fail := 0; match_ := 0 |}.

Record acValue := mkValue { v_full : list Z; v_domain : list Z; v_substr : list Z }.
Definition acValue0 : acValue := {| v_full := []; v_domain := []; v_substr := [] |}.

Definition add_value (t : Type_) (x : Z) (v : acValue) : option acValue :=
  match t with
  | Full => Some {| v_full := v_full v ++ [x]; v_domain := v_domain v; v_substr := v_substr v |}
  | Domain => Some {| v_full := v_full v; v_domain := v_domain v ++ [x]; v_substr := v_substr v |}
  | Substr => Some {| v_full := v_full v; v_domain := v_domain v; v_substr := v_substr v ++ [x] |}
  | Regex => None
  end.

Record ACAutomatonMatcherGroup := mkAC { nodes : list acNode; values : list acValue }.

Definition addNode (ac : ACAutomatonMatcherGroup) : ACAutomatonMatcherGroup * nat :=
  let ns := nodes ac ++ [acNode0] in
  ({| nodes := ns; values := values ac |}, Z.to_nat (u32 (zlen ns - 1))).

Definition addMatchEntry (ac : ACAutomatonMatcherGroup) : ACAutomatonMatcherGroup * nat :=
  let vs := values ac ++ [acValue0] in
  ({| nodes := nodes ac; values := vs |}, Z.to_nat (u32 (zlen vs - 1))).

Definition NewACAutomatonMatcherGroup : ACAutomatonMatcherGroup :=
  (addMatchEntry (addNode {| nodes := []; values := [] |}).1).1.

(** ** Updates of a node *)
Definition set_next (e m : nat) (b : bool) (n : acNode) : acNode :=
  {| next := <[e := m]> (next n); edge := <[e := b]> (edge n); fail := fail n; match_ := match_ n |}.
Definition set_fail (f : nat) (n : acNode) : acNode :=
  {| next := next n; edge := edge n; fail := f; match_ := match_ n |}.
Definition set_match (m : nat) (n : acNode) : acNode :=
  {| next := next n; edge := edge n; fail := fail n; match_ := m |}.
Definition on_node (i : nat) (f : acNode -> acNode) (ac : ACAutomatonMatcherGroup) : ACAutomatonMatcherGroup :=
  {| nodes := alter f i (nodes ac); values := values ac |}.

(** ** Adding patterns *)

(** The loop of [addPattern]; [chars] are the characters from the last to the
    first. *)
Fixpoint add_chars (chars : bytes) (nodeIdx : nat) (ac : ACAutomatonMatcherGroup)
    : option (ACAutomatonMatcherGroup * nat) :=
  match chars with
  | [] => Some (ac, nodeIdx)
  | c :: chars =>
    node ← nodes ac !! nodeIdx;
    let nextIdx := next node !!! acCharset c in
    if decide (nextIdx = 0%nat) then
      let '(ac, nextIdx) := addNode ac in
      add_chars chars nextIdx (on_node nodeIdx (set_next (acCharset c) nextIdx true) ac)
    else add_chars chars nextIdx ac
  end.

(** The end of [addPattern]: the value goes to the match entry of the node. *)
Definition register (nodeIdx : nat) (t : Type_) (value : Z) (ac : ACAutomatonMatcherGroup)
    : option ACAutomatonMatcherGroup :=
  node ← nodes ac !! nodeIdx;
  let '(ac, m) :=
    if decide (match_ node = 0%nat)
    then let '(ac, m) := addMatchEntry ac in (on_node nodeIdx (set_match m) ac, m)
    else (ac, match_ node) in
  v ← values ac !! m;
  v ← add_value t value v;
  Some {| nodes := nodes ac; values := <[m := v]> (values ac) |}.

Definition addPattern (nodeIdx : nat) (pattern : bytes) (t : Type_) (value : Z) (ac : ACAutomatonMatcherGroup)
    : option (ACAutomatonMatcherGroup * nat) :=
  '(ac, nodeIdx) ← add_chars (reverse pattern) nodeIdx ac;
  ac ← register nodeIdx t value ac;
  Some (ac, nodeIdx).

Definition AddFullMatcher (p : bytes) (value : Z) (ac : ACAutomatonMatcherGroup) : option ACAutomatonMatcherGroup :=
  fst <$> addPattern 0 p Full value ac.
Definition AddDomainMatcher (p : bytes) (value : Z) (ac : ACAutomatonMatcherGroup) : option ACAutomatonMatcherGroup :=
  '(ac, node) ← addPattern 0 p Domain value ac;
  fst <$> addPattern node [dot] Domain value ac.
Definition AddSubstrMatcher (p : bytes) (value : Z) (ac : ACAutomatonMatcherGroup) : option ACAutomatonMatcherGroup :=
  fst <$> addPattern 0 p Substr value ac.

(** ** Build: the failure links, breadth first *)
Record build_state := mkBuild { b_nodes : list acNode; b_fail : list nat; b_queue : list nat }.

(** One edge of the node [n] whose failure node is [f]. *)
Definition build_edge (vs : list acValue) (n f : nat) (e : nat) (b : build_state) : option build_state :=
  node ← b_nodes b !! n;
  failNode ← b_nodes b !! f;
  let nodeIdx := next node !!! e in
  let failIdx := next failNode !!! e in
  if decide (nodeIdx <> 0%nat) then
    target ← b_nodes b !! failIdx;
    _ ← b_nodes b !! nodeIdx;
    to ← (if decide (match_ target <> 0%nat) then
            v ← vs !! match_ target;
            Some (if 0 <? zlen (v_substr v) then failIdx else fail target)
          else Some (fail target));
    Some {| b_nodes := alter (set_fail to) nodeIdx (b_nodes b); b_fail := <[nodeIdx := failIdx]> (b_fail b);
            b_queue := b_queue b ++ [nodeIdx] |}
  else
    Some {| b_nodes := alter (set_next e failIdx false) n (b_nodes b); b_fail := b_fail b; b_queue := b_queue b |}.

Fixpoint build_edges (vs : list acValue) (n f : nat) (es : list nat) (b : build_state) : option build_state :=
  match es with
  | [] => Some b
  | e :: es => b ← build_edge vs n f e b; build_edges vs n f es b
  end.

Fixpoint build_loop (fuel : nat) (vs : list acValue) (b : build_state) : option build_state :=
  match b_queue b with
  | [] => Some b
  | n :: q =>
    match fuel with
    | O => None
    | S fuel =>
      f ← b_fail b !! n;
      b ← build_edges vs n f (seq 0 acValidCharCount) {| b_nodes := b_nodes b; b_fail := b_fail b; b_queue := q |};
      build_loop fuel vs b
    end
  end.

(** Every node is queued once, so that many rounds are enough. *)
Definition Build (ac : ACAutomatonMatcherGroup) : option ACAutomatonMatcherGroup :=
  root ← nodes ac !! 0%nat;
  b ← build_loop (length (nodes ac)) (values ac)
        {| b_nodes := nodes ac; b_fail := replicate (length (nodes ac)) 0%nat;
           b_queue := filter (fun i => i <> 0%nat) (map (fun e => next root !!! e) (seq 0 acValidCharCount)) |};
  Some {| nodes := b_nodes b; values := values ac |}.

(** ** Matching *)

(** The loop over the failure path: both variables of the [for] statement are
    assigned at once, so that [failNode] becomes the node of the old index. *)
Fixpoint fail_path (fuel : nat) (ac : ACAutomatonMatcherGroup) (failIdx failNode : nat) (acc : list (list Z))
    : option (list (list Z)) :=
  match failIdx with
  | O => Some acc
  | _ =>
    match fuel with
    | O => None
    | S fuel =>
      node ← nodes ac !! failNode;
      v ← values ac !! match_ node;
      _ ← nodes ac !! failIdx;
      fail_path fuel ac (fail node) failIdx (acc ++ [v_substr v])
    end
  end.

Record match_state := mkMatch {
  m_node : nat;
  fullMatch : bool;
  suffixMatches : list (list Z);
  substrMatches : list (list Z);
}.

Definition append_some (ms : list (list Z)) (m : list Z) : list (list Z) := if 0 <? zlen m then ms ++ [m] else ms.

Definition match_char (fuel : nat) (ac : ACAutomatonMatcherGroup) (c : byte) (m : match_state) : option match_state :=
  node ← nodes ac !! m_node m;
  let e := acCharset c in
  let full := fullMatch m && (edge node !!! e) in
  let n := next node !!! e in
  node ← nodes ac !! n;
  subs ← (if decide (fail node <> 0%nat) then fail_path fuel ac (fail node) (fail node) (substrMatches m)
          else Some (substrMatches m));
  if decide (match_ node <> 0%nat) then
    v ← values ac !! match_ node;
    Some {| m_node := n; fullMatch := full;
            suffixMatches := if full && bool_decide (c = dot) then append_some (suffixMatches m) (v_domain v)
                             else suffixMatches m;
            substrMatches := append_some subs (v_substr v) |}
  else Some {| m_node := n; fullMatch := full; suffixMatches := suffixMatches m; substrMatches := subs |}.

Fixpoint match_chars (fuel : nat) (ac : ACAutomatonMatcherGroup) (cs : bytes) (m : match_state) : option match_state :=
  match cs with
  | [] => Some m
  | c :: cs => m ← match_char fuel ac c m; match_chars fuel ac cs m
  end.

(** The failure path is no longer than what was read, and visits a node twice. *)
Definition ac_Match (ac : ACAutomatonMatcherGroup) (input : bytes) : option (list Z) :=
  m ← match_chars (2 * length input) ac (reverse input)
        {| m_node := 0; fullMatch := true; suffixMatches := []; substrMatches := [] |};
  node ← nodes ac !! m_node m;
  suffixes ← (if fullMatch m && negb (bool_decide (match_ node = 0%nat)) then
                v ← values ac !! match_ node;
                Some (append_some (append_some (suffixMatches m) (v_domain v)) (v_full v))
              else Some (suffixMatches m));
  Some (if decide (substrMatches m = []) then CompositeMatchesReverse suffixes
        else CompositeMatchesReverse (substrMatches m ++ suffixes)).

Fixpoint any_chars (ac : ACAutomatonMatcherGroup) (cs : bytes) (n : nat) (full : bool) : option bool :=
  node ← nodes ac !! n;
  match cs with
  | [] => Some (full && negb (bool_decide (match_ node = 0%nat)))
  | c :: cs =>
    let e := acCharset c in
    let full := full && (edge node !!! e) in
    let n := next node !!! e in
    node ← nodes ac !! n;
    if decide (fail node <> 0%nat) then Some true
    else if decide (match_ node <> 0%nat) then
      v ← values ac !! match_ node;
      if 0 <? zlen (v_substr v) then Some true
      else if full && bool_decide (c = dot) && (0 <? zlen (v_domain v)) then Some true
      else any_chars ac cs n full
    else any_chars ac cs n full
  end.

Definition ac_MatchAny (ac : ACAutomatonMatcherGroup) (input : bytes) : option bool :=
  any_chars ac (reverse input) 0 true.

(** A group with its matchers added in order, then built. *)
Fixpoint Add_matchers {R} (ms : list (Matcher R * Z)) (ac : ACAutomatonMatcherGroup) : option ACAutomatonMatcherGroup :=
  match ms with
  | [] => Some ac
  | (m, value) :: ms =>
    ac ← match m with
         | FullMatcher p => AddFullMatcher p value ac
         | DomainMatcher p => AddDomainMatcher p value ac
         | SubstrMatcher p => AddSubstrMatcher p value ac
         | RegexMatcher _ => Some ac
         end;
    Add_matchers ms ac
  end.

Definition built {R} (ms : list (Matcher R * Z)) : option ACAutomatonMatcherGroup :=
  ac ← Add_matchers ms NewACAutomatonMatcherGroup; Build ac.

(** ** Words

    A node stands for the word of edges that leads to it; [words] lists the
    words of the nodes in the order of the table. *)
Definition word_of (s : bytes) : list nat := map acCharset (reverse s).

Record trie_ok (words : list (list nat)) (ns : list acNode) : Prop := {
  tw_len : length ns = length words;
  tw_root : words !! 0%nat = Some [];
  tw_nodup : NoDup words;
  tw_prefix : forall w e, w ++ [e] ∈ words -> w ∈ words /\ (e < acValidCharCount)%nat;
  tw_sizes : Forall (fun nd => length (next nd) = acValidCharCount /\ length (edge nd) = acValidCharCount) ns;
  tw_fail : Forall (fun nd => fail nd = 0%nat) ns;
  tw_next : forall n nd w e, ns !! n = Some nd -> words !! n = Some w -> (e < acValidCharCount)%nat ->
    (next nd !!! e = 0%nat /\ edge nd !!! e = false /\ w ++ [e] ∉ words) \/
    (next nd !!! e <> 0%nat /\ edge nd !!! e = true /\ words !! (next nd !!! e) = Some (w ++ [e]));
}.

(** A registration: a word, a kind and a value. *)
Abbreviation reg := (list nat * Type_ * Z)%type.

Definition sel (t : Type_) (w : list nat) (regs : list reg) : list Z :=
  omap (fun r => if decide (r.1 = (w, t)) then Some r.2 else None) regs.

(** The match entries of the nodes hold the registrations of their words. *)
Record regs_ok (words : list (list nat)) (regs : list reg) (ms : list nat) (vs : list acValue) : Prop := {
  rg_in : Forall (fun r => r.1.1 ∈ words /\ r.1.2 <> Regex) regs;
  rg_len : length ms = length words;
  rg_zero : vs !! 0%nat = Some acValue0;
  rg_one : forall n n' m, ms !! n = Some m -> ms !! n' = Some m -> m <> 0%nat -> n = n';
  rg_value : forall n m w, ms !! n = Some m -> words !! n = Some w ->
    vs !! m = Some {| v_full := sel Full w regs; v_domain := sel Domain w regs; v_substr := sel Substr w regs |};
  rg_some : forall n m w, ms !! n = Some m -> words !! n = Some w -> m = 0%nat <-> Forall (fun r => r.1.1 <> w) regs;
}.

Definition group_ok (words : list (list nat)) (regs : list reg) (ac : ACAutomatonMatcherGroup) : Prop :=
  trie_ok words (nodes ac) /\ regs_ok words regs (map match_ (nodes ac)) (values ac).

(** The registrations of a matcher, and the room they take. *)
Definition regs_of {R} (e : Matcher R * Z) : list reg :=
  match e.1 with
  | FullMatcher p => [(word_of p, Full, e.2)]
  | DomainMatcher p => [(word_of p, Domain, e.2); (word_of p ++ word_of [dot], Domain, e.2)]
  | SubstrMatcher p => [(word_of p, Substr, e.2)]
  | RegexMatcher _ => []
  end.

Definition room {R} (e : Matcher R * Z) : Z :=
  match e.1 with
  | FullMatcher p | DomainMatcher p | SubstrMatcher p => zlen p + 2
  | RegexMatcher _ => 0
  end.

Fixpoint rooms {R} (ms : list (Matcher R * Z)) : Z :=
  match ms with [] => 0 | e :: ms => room e + rooms ms end.

(** The longest suffix of [u] among the words, and the longest one with a
    substring matcher. *)
Section Suffixes.
Context (words : list (list nat)).
Fixpoint lsuf (u : list nat) : list nat :=
  if decide (u ∈ words) then u else match u with [] => [] | _ :: u' => lsuf u' end.
End Suffixes.

Section Subs.
Context (regs : list reg).
Definition is_sub (w : list nat) : bool := bool_decide (sel Substr w regs <> []).
Fixpoint lsub (u : list nat) : list nat :=
  if is_sub u then u else match u with [] => [] | _ :: u' => lsub u' end.
End Subs.

(** A node of the finished automaton, and its failure link. *)
Definition done_edge (words : list (list nat)) (nd : acNode) (w : list nat) (e : nat) : Prop :=
  words !! (next nd !!! e) = Some (lsuf words (w ++ [e])) /\ edge nd !!! e = bool_decide (w ++ [e] ∈ words).

Definition trie_edge (words : list (list nat)) (nd : acNode) (w : list nat) (e : nat) : Prop :=
  (next nd !!! e = 0%nat /\ edge nd !!! e = false /\ w ++ [e] ∉ words) \/
  (next nd !!! e <> 0%nat /\ edge nd !!! e = true /\ words !! (next nd !!! e) = Some (w ++ [e])).

Definition has_fail (words : list (list nat)) (regs : list reg) (nd : acNode) (w : list nat) : Prop :=
  words !! fail nd = Some (lsub regs (tail w)).

Definition depth (words : list (list nat)) (n : nat) : nat := length (default [] (words !! n)).

(** [Build] with the nodes [D] done and, while the node [n] is under way, its
    edges from [k] on still to be visited. *)
Record build_ok (words : list (list nat)) (regs : list reg) (ms : list nat) (D : list nat) (cur : option (nat * nat))
    (b : build_state) : Prop := {
  bo_len : length (b_nodes b) = length words /\ length (b_fail b) = length words;
  bo_sizes : Forall (fun nd => length (next nd) = acValidCharCount /\ length (edge nd) = acValidCharCount) (b_nodes b);
  bo_match : map match_ (b_nodes b) = ms;
  bo_done : forall n nd w e, b_nodes b !! n = Some nd -> words !! n = Some w -> (e < acValidCharCount)%nat ->
    n ∈ D \/ (exists k, cur = Some (n, k) /\ (e < k)%nat) -> done_edge words nd w e;
  bo_todo : forall n nd w e, b_nodes b !! n = Some nd -> words !! n = Some w -> (e < acValidCharCount)%nat ->
    n ∉ D -> (forall k, cur = Some (n, k) -> (k <= e)%nat) -> trie_edge words nd w e;
  bo_fail : forall n nd w, b_nodes b !! n = Some nd -> words !! n = Some w ->
    n ∈ D \/ n ∈ b_queue b \/ (exists k, cur = Some (n, k)) ->
    has_fail words regs nd w /\
    (n <> 0%nat -> exists f, b_fail b !! n = Some f /\ words !! f = Some (lsuf words (tail w)));
  bo_D : NoDup D /\ 0%nat ∈ D /\ Forall (fun n => (n < length words)%nat) D;
  bo_queue : NoDup (b_queue b) /\ Forall (fun n => (n < length words)%nat /\ n ∉ D /\ forall k, cur <> Some (n, k)) (b_queue b);
  bo_sorted : StronglySorted (fun a c => depth words a <= depth words c <= S (depth words a))%nat (b_queue b);
  bo_cover : forall n w, words !! n = Some w -> n ∉ D ->
    (exists m u, m ∈ b_queue b /\ words !! m = Some u /\ u `prefix_of` w) \/
    (exists c k u, cur = Some (c, k) /\ words !! c = Some u /\
       (n = c \/ exists e, (k <= e < acValidCharCount)%nat /\ u ++ [e] `prefix_of` w));
  bo_parent : forall n u e, n ∈ D \/ n ∈ b_queue b \/ (exists k, cur = Some (n, k)) -> words !! n = Some (u ++ [e]) ->
    exists p, words !! p = Some u /\ (p ∈ D \/ exists k, cur = Some (p, k) /\ (e < k)%nat);
}.

(** The finished automaton. *)
Record built_ok (words : list (list nat)) (regs : list reg) (ac : ACAutomatonMatcherGroup) : Prop := {
  bt_len : length (nodes ac) = length words;
  bt_root : words !! 0%nat = Some [];
  bt_nodup : NoDup words;
  bt_prefix : forall w e, w ++ [e] ∈ words -> w ∈ words;
  bt_edge : forall n nd w e, nodes ac !! n = Some nd -> words !! n = Some w -> (e < acValidCharCount)%nat ->
    done_edge words nd w e;
  bt_fail : forall n nd w, nodes ac !! n = Some nd -> words !! n = Some w -> has_fail words regs nd w;
  bt_regs : regs_ok words regs (map match_ (nodes ac)) (values ac);
}.

(** The value [v] is due when the characters [cs] follow the word [u]: at a
    character, for a keyword that ends there or a domain at a period; at the
    end, for a domain or a full match. *)
Definition due (regs : list reg) (v : Z) (u : list nat) (c : byte) : Prop :=
  (exists x, x `suffix_of` u /\ (x, Substr, v) ∈ regs) \/ (c = dot /\ (u, Domain, v) ∈ regs).

Fixpoint hits (regs : list reg) (v : Z) (u : list nat) (cs : bytes) : Prop :=
  match cs with
  | [] => (u, Domain, v) ∈ regs \/ (u, Full, v) ∈ regs
  | c :: cs => due regs v (u ++ [acCharset c]) c \/ hits regs v (u ++ [acCharset c]) cs
  end.

(** The matchers the automaton is made for, and the inputs: upstream keeps to
    the lower case letters, digits, hyphen and period. *)
Definition ac_usable {R} (m : Matcher R) : Prop :=
  match m with
  | FullMatcher p => is_domain p
  | DomainMatcher p => is_domain p /\ good_domain p
  | SubstrMatcher p => is_domain p /\ p <> []
  | RegexMatcher _ => False
  end.
End StrAC.
Import StrAC.


Lemma acCharset_lt c : (acCharset c < acValidCharCount)%nat.
Proof. unfold acCharset, acValidCharCount, between. pose proof (b2z_range c). tests; lia. Qed.

Lemma map_alter_fixed {A B} (f : A -> B) (g : A -> A) i (l : list A) : (forall x, f (g x) = f x) -> map f (alter g i l) = map f l.
Proof.
  intros Hfg. revert i. induction l as [|x l IH]; intros [|i]; [done..| |].
  - cbn. by rewrite Hfg.
  - cbn. f_equal. apply IH.
Qed.

(** A new child of the node [n]. *)
Lemma trie_grow words ns n nd w e :
  trie_ok words ns -> ns !! n = Some nd -> words !! n = Some w -> (e < acValidCharCount)%nat -> next nd !!! e = 0%nat ->
  trie_ok (words ++ [w ++ [e]]) (alter (set_next e (length words) true) n (ns ++ [acNode0])).
Proof.
  intros [Hlen Hroot Hnd Hpre Hsz Hfl Hnx] Hn Hw He H0.
  assert (Hnew : w ++ [e] ∉ words) by (destruct (Hnx n nd w e Hn Hw He) as [(_ & _ & ?)|(? & _)]; done).
  assert (Hne : (length words <> 0)%nat) by (apply lookup_lt_Some in Hroot; lia).
  split.
  - rewrite length_alter, !length_app. cbn [length]. lia.
  - by apply lookup_app_l_Some.
  - apply NoDup_app. split; [done|]. split; [|apply NoDup_singleton]. intros x Hx ->%list_elem_of_singleton. done.
  - intros x e' [Hx|Hx%list_elem_of_singleton]%elem_of_app.
    + destruct (Hpre x e' Hx). split; [|done]. apply elem_of_app. by left.
    + apply app_inj_tail in Hx as [-> ->]. split; [|done]. apply elem_of_app. left. by eapply list_elem_of_lookup_2.
  - apply Forall_alter; [|intros; cbn; by rewrite !length_insert]. apply Forall_app. split; [done|]. by repeat constructor.
  - apply Forall_alter; [|done]. apply Forall_app. split; [done|]. by repeat constructor.
  - intros m md v e' Hm Hv He'. destruct (decide (m = n)) as [->|Hmn].
    + rewrite list_lookup_alter_eq, (lookup_app_l_Some _ _ _ _ Hn) in Hm. injection Hm as <-.
      rewrite (lookup_app_l_Some _ _ _ _ Hw) in Hv. injection Hv as <-.
      rewrite Forall_forall in Hsz. destruct (Hsz nd ltac:(by eapply list_elem_of_lookup_2)) as [Hs1 Hs2].
      cbn [set_next next edge]. destruct (decide (e' = e)) as [->|Hee].
      * right. rewrite !list_lookup_total_insert_eq by lia. split; [done|]. split; [done|].
        rewrite lookup_app_r by lia. by rewrite Nat.sub_diag.
      * rewrite !list_lookup_total_insert_ne by done. destruct (Hnx n nd w e' Hn Hw He') as [(?&?&Hx)|(?&?&Hx)]; [left|right].
        -- split; [done|]. split; [done|]. intros [|Hy%list_elem_of_singleton]%elem_of_app; [done|].
           by apply app_inj_tail in Hy as [_ ?].
        -- split; [done|]. split; [done|]. by apply lookup_app_l_Some.
    + rewrite list_lookup_alter_ne in Hm by done. destruct (decide (m < length words)%nat) as [Hlt|Hge].
      * rewrite lookup_app_l in Hm by lia; rewrite lookup_app_l in Hv by lia. destruct (Hnx m md v e' Hm Hv He') as [(?&?&Hx)|(?&?&Hx)]; [left|right].
        -- split; [done|]. split; [done|]. intros [|Hy%list_elem_of_singleton]%elem_of_app; [done|].
           apply app_inj_tail in Hy as [-> _]. apply Hmn. by eapply NoDup_lookup.
        -- split; [done|]. split; [done|]. by apply lookup_app_l_Some.
      * rewrite lookup_app_r in Hm by lia; rewrite lookup_app_r in Hv by lia. destruct (m - length ns)%nat eqn:Em; [|done].
        injection Hm as <-. assert (m = length words) as -> by lia. rewrite Nat.sub_diag in Hv. injection Hv as <-. left.
        cbn [acNode0 next edge]. rewrite !lookup_total_replicate_2 by done. split; [done|]. split; [done|].
        intros [Hx|Hx%list_elem_of_singleton]%elem_of_app; [by apply Hpre in Hx as [? _]|].
        apply (f_equal length) in Hx. rewrite !length_app in Hx. cbn in Hx. lia.
Qed.

Lemma Forall_app_one {A} (P : A -> Prop) l x : Forall P l -> P x -> Forall P (l ++ [x]).
Proof. intros. apply Forall_app. split; [done|]. by constructor. Qed.

Lemma regs_grow words regs ms vs w :
  regs_ok words regs ms vs -> w ∉ words -> regs_ok (words ++ [w]) regs (ms ++ [0%nat]) vs.
Proof.
  intros [Hin Hlen Hz Hone Hval Hsome] Hw.
  assert (Hnone : Forall (fun r : reg => r.1.1 <> w) regs).
  { eapply Forall_impl; [exact Hin|]. intros r [Hr _] E. by rewrite E in Hr. }
  assert (Hsel : forall t, sel t w regs = []).
  { intros t. apply omap_none. intros r Hr. rewrite Forall_forall in Hnone. rewrite decide_False; [done|].
    intros E. apply (Hnone r Hr). by rewrite E. }
  split.
  - eapply Forall_impl; [exact Hin|]. intros r [Hr Ht]. split; [|done]. apply elem_of_app. by left.
  - rewrite !length_app. cbn. lia.
  - done.
  - intros n n' m Hn Hn' Hm. assert (Hold : forall k, (ms ++ [0%nat]) !! k = Some m -> ms !! k = Some m).
    { intros k Hk. apply lookup_app_Some in Hk as [Hk|[Hge Hk]]; [done|].
      destruct (k - length ms)%nat; [|done]. by injection Hk as <-. }
    apply (Hone n n' m); auto.
  - intros n m v Hn Hv. destruct (decide (n < length words)%nat) as [Hlt|Hge].
    + rewrite lookup_app_l in Hn by lia. rewrite lookup_app_l in Hv by lia. by apply (Hval n).
    + rewrite lookup_app_r in Hn by lia. rewrite lookup_app_r in Hv by lia. rewrite Hlen in Hn.
      destruct (n - length words)%nat; [|done]. injection Hn as <-. injection Hv as <-. by rewrite !Hsel.
  - intros n m v Hn Hv. destruct (decide (n < length words)%nat) as [Hlt|Hge].
    + rewrite lookup_app_l in Hn by lia. rewrite lookup_app_l in Hv by lia. by apply (Hsome n).
    + rewrite lookup_app_r in Hn by lia. rewrite lookup_app_r in Hv by lia. rewrite Hlen in Hn.
      destruct (n - length words)%nat; [|done]. injection Hn as <-. injection Hv as <-. by split.
Qed.

(** The loop of addPattern follows the word and adds what is missing. *)
Lemma add_chars_spec chars words regs n w ac :
  group_ok words regs ac -> words !! n = Some w -> zlen (nodes ac) + zlen chars < 2 ^ 32 ->
  exists words' ac' n', add_chars chars n ac = Some (ac', n') /\ words `prefix_of` words' /\
    group_ok words' regs ac' /\ words' !! n' = Some (w ++ map acCharset chars) /\
    zlen (nodes ac') <= zlen (nodes ac) + zlen chars /\ values ac' = values ac.
Proof.
  revert words n w ac. induction chars as [|c chars IH]; intros words n w ac Hok Hw Hb; cbn [add_chars map].
  { exists words, ac, n. rewrite app_nil_r, zlen_nil. split; [done|]. split; [done|]. split; [done|]. split; [done|]. split; [lia|done]. }
  rewrite zlen_cons in *. pose proof (zlen_nonneg chars). destruct Hok as [Ht Hr].
  assert (exists nd, nodes ac !! n = Some nd) as [nd Hn].
  { apply lookup_lt_is_Some. rewrite (tw_len _ _ Ht). by eapply lookup_lt_Some. }
  rewrite Hn. cbn [mbind option_bind]. pose proof (acCharset_lt c) as He. set (e := acCharset c) in *.
  replace (w ++ e :: map acCharset chars) with ((w ++ [e]) ++ map acCharset chars) by by rewrite <- app_assoc.
  destruct (tw_next _ _ Ht n nd w e Hn Hw He) as [(H0 & _ & Hnew)|(H0 & _ & Hx)].
  - rewrite decide_True by done. unfold addNode.
    assert (Z.to_nat (u32 (zlen (nodes ac ++ [acNode0]) - 1)) = length words) as ->.
    { pose proof (tw_len _ _ Ht). rewrite zlen_app, u32_small; unfold zlen in *; cbn [length]; lia. }
    unfold on_node. cbn [nodes values].
    pose proof (trie_grow words (nodes ac) n nd w e Ht Hn Hw He H0) as Ht'.
    edestruct (IH (words ++ [w ++ [e]]) (length words) (w ++ [e])) as (words' & ac' & n' & -> & Hp & Hok' & Hw' & Hl & Hv);
      [| |  |exists words', ac', n'; split; [done|]; split; [by etrans; [by eexists|exact Hp]|]; split; [done|]; split; [done|]; split; [|done]].
    + split; [exact Ht'|]. cbn [nodes values]. rewrite map_alter_fixed, map_app by done. by apply regs_grow.
    + rewrite lookup_app_r by lia. by rewrite Nat.sub_diag.
    + cbn [nodes]. unfold zlen in *. rewrite length_alter, length_app. cbn [length]. lia.
    + cbn [nodes] in Hl. unfold zlen in *. rewrite length_alter, length_app in Hl. cbn [length] in Hl. lia.
  - rewrite decide_False by done. destruct (IH words (next nd !!! e) (w ++ [e]) ac) as (words' & ac' & n' & -> & Hp & Hok' & Hw' & Hl & Hv);
      [done|done|lia|]. exists words', ac', n'. split; [done|]. split; [done|]. split; [done|]. split; [done|]. split; [lia|done].
Qed.

Lemma sel_app t w a b : sel t w (a ++ b) = sel t w a ++ sel t w b.
Proof. apply omap_app. Qed.

Lemma sel_one t w t' w' v : sel t w [(w', t', v)] = if decide (w' = w /\ t' = t) then [v] else [].
Proof.
  unfold sel. cbn [omap list_omap fst snd]. destruct (decide ((w', t') = (w, t))) as [E|E].
  - injection E as -> ->. by rewrite decide_True.
  - rewrite decide_False; [done|]. by intros [-> ->].
Qed.

(** The value of one registration more. *)
Lemma add_value_sel t w v regs :
  t <> Regex ->
  add_value t v {| v_full := sel Full w regs; v_domain := sel Domain w regs; v_substr := sel Substr w regs |} =
  Some {| v_full := sel Full w (regs ++ [(w, t, v)]); v_domain := sel Domain w (regs ++ [(w, t, v)]);
          v_substr := sel Substr w (regs ++ [(w, t, v)]) |}.
Proof.
  intros Ht. rewrite !sel_app, !sel_one. destruct t; try done; cbn [add_value v_full v_domain v_substr];
    repeat case_decide; try (by exfalso; naive_solver); by rewrite !app_nil_r.
Qed.

Lemma sel_other t w w' t' v regs : w' <> w -> sel t w (regs ++ [(w', t', v)]) = sel t w regs.
Proof. intros Hne. rewrite sel_app, sel_one, decide_False by (intros [? _]; done). by rewrite app_nil_r. Qed.

(** A registration at the node [n], whose match entry is [m] from then on. *)
Lemma regs_register words regs ms vs vs' n m0 m w t v :
  regs_ok words regs ms vs -> ms !! n = Some m0 -> words !! n = Some w -> NoDup words -> t <> Regex ->
  m <> 0%nat -> m0 = m \/ m ∉ ms ->
  vs' !! m = Some {| v_full := sel Full w (regs ++ [(w, t, v)]); v_domain := sel Domain w (regs ++ [(w, t, v)]);
                     v_substr := sel Substr w (regs ++ [(w, t, v)]) |} ->
  (forall k, k ∈ ms -> k <> m -> vs' !! k = vs !! k) -> vs' !! 0%nat = Some acValue0 ->
  regs_ok words (regs ++ [(w, t, v)]) (<[n := m]> ms) vs'.
Proof.
  intros [Hin Hlen Hz Hone Hval Hsome] Hn Hw Hnd Ht Hm Hm0 Hvm Hvo Hv0.
  assert (Hnl : (n < length ms)%nat) by by eapply lookup_lt_Some.
  assert (Hother : forall k, k <> n -> ms !! k = Some m -> False).
  { intros k Hk Hkm. destruct Hm0 as [->|Hm0]; [by eapply Hk, Hone|]. by eapply Hm0, list_elem_of_lookup_2. }
  split.
  - apply Forall_app_one; [done|]. split; [by eapply list_elem_of_lookup_2|done].
  - by rewrite length_insert.
  - done.
  - intros k k' x Hk Hk' Hx. destruct (decide (k = n)) as [->|Hkn], (decide (k' = n)) as [->|Hkn']; [done| | |].
    + rewrite list_lookup_insert_eq in Hk by done. injection Hk as <-. rewrite list_lookup_insert_ne in Hk' by done.
      exfalso. by eapply Hother.
    + rewrite list_lookup_insert_eq in Hk' by done. injection Hk' as <-. rewrite list_lookup_insert_ne in Hk by done.
      exfalso. by eapply Hother.
    + rewrite list_lookup_insert_ne in Hk by done. rewrite list_lookup_insert_ne in Hk' by done. by eapply Hone.
  - intros k x u Hk Hu. destruct (decide (k = n)) as [->|Hkn].
    + rewrite list_lookup_insert_eq in Hk by done. injection Hk as <-. rewrite Hw in Hu. by injection Hu as <-.
    + rewrite list_lookup_insert_ne in Hk by done. assert (w <> u) by (intros ->; apply Hkn; by eapply NoDup_lookup).
      rewrite !sel_other by done. rewrite (Hvo x); [by eapply Hval|by eapply list_elem_of_lookup_2|].
      intros ->. by eapply Hother.
  - intros k x u Hk Hu. rewrite Forall_app, Forall_singleton. destruct (decide (k = n)) as [->|Hkn].
    + rewrite list_lookup_insert_eq in Hk by done. injection Hk as <-. rewrite Hw in Hu. injection Hu as <-.
      cbn. split; [done|]. by intros [_ ?].
    + rewrite list_lookup_insert_ne in Hk by done. assert (w <> u) by (intros ->; apply Hkn; by eapply NoDup_lookup).
      rewrite (Hsome k x u Hk Hu). cbn. naive_solver.
Qed.

Lemma map_match_set n m ns : map match_ (alter (set_match m) n ns) = <[n := m]> (map match_ ns).
Proof. revert n. induction ns as [|x ns IH]; intros [|n]; [done..|]. cbn. f_equal. apply IH. Qed.

Lemma trie_set_match words ns n m : trie_ok words ns -> trie_ok words (alter (set_match m) n ns).
Proof.
  intros [Hlen Hroot Hnd Hpre Hsz Hfl Hnx]. split; [by rewrite length_alter|done|done|done| | |].
  - by apply Forall_alter.
  - by apply Forall_alter.
  - intros k nd w e Hk. destruct (decide (k = n)) as [->|Hne].
    + rewrite list_lookup_alter_eq in Hk. destruct (ns !! n) as [x|] eqn:Ex; [|done]. injection Hk as <-. by apply (Hnx n x).
    + rewrite list_lookup_alter_ne in Hk by done. by apply Hnx.
Qed.

Lemma register_spec words regs n w t v ac :
  group_ok words regs ac -> words !! n = Some w -> t <> Regex -> zlen (values ac) < 2 ^ 32 ->
  exists ac', register n t v ac = Some ac' /\ group_ok words (regs ++ [(w, t, v)]) ac' /\
    zlen (nodes ac') = zlen (nodes ac) /\ zlen (values ac') <= zlen (values ac) + 1.
Proof.
  intros [Ht Hr] Hw Htt Hb. pose proof (tw_nodup _ _ Ht) as Hnd.
  assert (exists nd, nodes ac !! n = Some nd) as [nd Hn].
  { apply lookup_lt_is_Some. rewrite (tw_len _ _ Ht). by eapply lookup_lt_Some. }
  unfold register. rewrite Hn. cbn [mbind option_bind].
  assert (Hmn : map match_ (nodes ac) !! n = Some (match_ nd)) by (rewrite list_lookup_fmap, Hn; done).
  pose proof (rg_value _ _ _ _ Hr n _ w Hmn Hw) as Hval. pose proof (rg_zero _ _ _ _ Hr) as Hz.
  assert (Hbig : forall k, k ∈ map match_ (nodes ac) -> (k < length (values ac))%nat).
  { intros k [i Hi]%list_elem_of_lookup. assert (exists u, words !! i = Some u) as [u Hu].
    { apply lookup_lt_is_Some. rewrite <- (rg_len _ _ _ _ Hr). by eapply lookup_lt_Some. }
    eapply lookup_lt_Some, (rg_value _ _ _ _ Hr i k u Hi Hu). }
  destruct (decide (match_ nd = 0%nat)) as [E|E].
  - unfold addMatchEntry. cbn [on_node nodes values].
    assert (Z.to_nat (u32 (zlen (values ac ++ [acValue0]) - 1)) = length (values ac)) as ->.
    { rewrite zlen_app, u32_small; unfold zlen in *; cbn [length]; lia. }
    rewrite lookup_app_r, Nat.sub_diag by lia. cbn [lookup list_lookup mbind option_bind].
    assert (Hv0 : (0 < length (values ac))%nat) by by eapply lookup_lt_Some.
    rewrite E, Hz in Hval. apply (inj Some) in Hval. rewrite Hval, add_value_sel by done.
    cbn [mbind option_bind]. eexists. split; [done|]. cbn [nodes values]. split; [|unfold zlen; rewrite length_alter, length_insert, length_app; cbn; lia].
    split; [by apply trie_set_match|]. cbn [nodes values]. rewrite map_match_set.
    eapply (regs_register _ _ _ _ _ _ (match_ nd)); [done..|lia| | | |].
    + right. intros Hx%Hbig. lia.
    + rewrite list_lookup_insert_eq; [done|]. rewrite length_app. cbn. lia.
    + intros k Hk Hne. rewrite list_lookup_insert_ne by done. apply lookup_app_l. by apply Hbig.
    + rewrite list_lookup_insert_ne by lia. by rewrite lookup_app_l.
  - cbn [values nodes]. rewrite Hval. cbn [mbind option_bind]. rewrite add_value_sel by done. cbn [mbind option_bind].
    eexists. split; [done|]. cbn [nodes values]. split; [|unfold zlen; rewrite length_insert; lia].
    split; [done|]. cbn [nodes values]. rewrite <- (list_insert_id _ _ _ Hmn) at 1.
    eapply (regs_register _ _ _ _ _ _ (match_ nd)); [done..|by left| | |].
    + rewrite list_lookup_insert_eq; [done|by eapply lookup_lt_Some].
    + intros k Hk Hne. by rewrite list_lookup_insert_ne.
    + by rewrite list_lookup_insert_ne.
Qed.

Lemma addPattern_spec words regs n w p t v ac :
  group_ok words regs ac -> words !! n = Some w -> t <> Regex ->
  zlen (nodes ac) + zlen p < 2 ^ 32 -> zlen (values ac) < 2 ^ 32 ->
  exists words' ac' n', addPattern n p t v ac = Some (ac', n') /\ words `prefix_of` words' /\
    group_ok words' (regs ++ [(w ++ word_of p, t, v)]) ac' /\ words' !! n' = Some (w ++ word_of p) /\
    zlen (nodes ac') <= zlen (nodes ac) + zlen p /\ zlen (values ac') <= zlen (values ac) + 1.
Proof.
  intros Hok Hw Ht Hb1 Hb2. assert (Hlen : zlen (reverse p) = zlen p) by (unfold zlen; by rewrite length_reverse).
  unfold addPattern. destruct (add_chars_spec (reverse p) words regs n w ac Hok Hw) as (words' & ac1 & n' & -> & Hp & Hok1 & Hw1 & Hl1 & Hv1);
    [lia|]. cbn [mbind option_bind].
  destruct (register_spec words' regs n' _ t v ac1 Hok1 Hw1 Ht) as (ac2 & -> & Hok2 & Hl2 & Hv2); [by rewrite Hv1|].
  cbn [mbind option_bind]. exists words', ac2, n'. split; [done|]. split; [done|]. split; [done|]. split; [done|].
  rewrite Hv1 in Hv2. lia.
Qed.

(** ** The group before [Build] *)
Lemma New_ok : group_ok [[]] [] NewACAutomatonMatcherGroup.
Proof.
  split; split.
  - done.
  - done.
  - apply NoDup_singleton.
  - intros w e Hx%list_elem_of_singleton. by apply app_nil in Hx as [_ ?].
  - by repeat constructor.
  - by repeat constructor.
  - intros [|n] nd w e; [|done]. intros [= <-] [= <-] He. left.
    cbn [acNode0 next edge]. rewrite !lookup_total_replicate_2 by done. split; [done|]. split; [done|].
    intros Hx%list_elem_of_singleton. done.
  - constructor.
  - done.
  - done.
  - intros [|n] [|n'] m; done.
  - intros [|n] m w; [|done]. by intros [= <-] [= <-].
  - intros [|n] m w; [|done]. intros [= <-] [= <-]. by split.
Qed.

Lemma room_nonneg {R} (e : Matcher R * Z) : 0 <= room e.
Proof. destruct e as [[]]; unfold room, zlen; cbn; lia. Qed.

Lemma rooms_nonneg {R} (ms : list (Matcher R * Z)) : 0 <= rooms ms.
Proof. induction ms as [|e ms IH]; cbn [rooms]; [lia|]. pose proof (room_nonneg e). lia. Qed.

Lemma word_of_dot w : w ++ word_of [dot] = w ++ [acCharset dot].
Proof. done. Qed.

Lemma Add_matchers_spec {R} (ms : list (Matcher R * Z)) words regs ac :
  group_ok words regs ac -> zlen (nodes ac) + rooms ms < 2 ^ 32 -> zlen (values ac) + rooms ms < 2 ^ 32 ->
  exists words' ac', Add_matchers ms ac = Some ac' /\ group_ok words' (regs ++ flat_map regs_of ms) ac' /\
    zlen (nodes ac') <= zlen (nodes ac) + rooms ms.
Proof.
  revert words regs ac. induction ms as [|[m v] ms IH]; intros words regs ac Hok Hb1 Hb2; cbn [Add_matchers flat_map rooms] in *.
  { exists words, ac. rewrite app_nil_r. split; [done|]. split; [done|lia]. }
  pose proof (rooms_nonneg ms) as Hms. pose proof (tw_root _ _ (proj1 Hok)) as Hroot.
  assert (Hone : exists words1 ac1, (match m with
       | FullMatcher p => AddFullMatcher p v ac
       | DomainMatcher p => AddDomainMatcher p v ac
       | SubstrMatcher p => AddSubstrMatcher p v ac
       | RegexMatcher _ => Some ac
       end) = Some ac1 /\ group_ok words1 (regs ++ regs_of (m, v)) ac1 /\
       zlen (nodes ac1) <= zlen (nodes ac) + room (m, v) /\ zlen (values ac1) <= zlen (values ac) + room (m, v)).
  { unfold room, regs_of in *. cbn [fst snd] in *. destruct m as [p|p|p|r]; try (pose proof (zlen_nonneg p)).
    - destruct (addPattern_spec words regs 0 [] p Full v ac Hok Hroot) as (w1 & a1 & n1 & E & _ & Hok1 & _ & Hl & Hv); [done|lia..|].
      exists w1, a1. unfold AddFullMatcher. rewrite E. split; [done|]. split; [done|lia].
    - destruct (addPattern_spec words regs 0 [] p Domain v ac Hok Hroot) as (w1 & a1 & n1 & E & _ & Hok1 & Hw1 & Hl & Hv); [done|lia..|].
      destruct (addPattern_spec w1 _ n1 _ [dot] Domain v a1 Hok1 Hw1) as (w2 & a2 & n2 & E2 & _ & Hok2 & Hw2 & Hl2 & Hv2);
        [done|change (zlen [dot]) with 1; lia|lia|].
      exists w2, a2. unfold AddDomainMatcher. rewrite E. cbn [mbind option_bind]. rewrite E2. split; [done|].
      rewrite <- app_assoc in Hok2. split; [done|]. change (zlen [dot]) with 1 in *. lia.
    - destruct (addPattern_spec words regs 0 [] p Substr v ac Hok Hroot) as (w1 & a1 & n1 & E & _ & Hok1 & _ & Hl & Hv); [done|lia..|].
      exists w1, a1. unfold AddSubstrMatcher. rewrite E. split; [done|]. split; [done|lia].
    - exists words, ac. rewrite app_nil_r. split; [done|]. split; [done|lia]. }
  destruct Hone as (w1 & a1 & -> & Hok1 & Hl1 & Hv1). cbn [mbind option_bind].
  destruct (IH w1 _ a1 Hok1) as (w2 & a2 & -> & Hok2 & Hl2); [lia..|]. exists w2, a2. split; [done|].
  rewrite <- app_assoc in Hok2. split; [done|]. lia.
Qed.

(** ** Suffixes *)
Lemma suffix_cons_cases {A} (x u : list A) y : x `suffix_of` y :: u -> x = y :: u \/ x `suffix_of` u.
Proof. intros [[|z k] E]; [by left|]. injection E as -> ->. right. by exists k. Qed.

Section SuffixFacts.
Context (words : list (list nat)) (Hroot : [] ∈ words) (Hpre : forall w e, w ++ [e] ∈ words -> w ∈ words).

Lemma lsuf_in u : lsuf words u ∈ words.
Proof. induction u as [|x u IH]; cbn [lsuf]; case_decide; done. Qed.

Lemma lsuf_suffix u : lsuf words u `suffix_of` u.
Proof. induction u as [|x u IH]; cbn [lsuf]; case_decide; [done..|]. by apply suffix_cons_r. Qed.

Lemma lsuf_longest u x : x ∈ words -> x `suffix_of` u -> x `suffix_of` lsuf words u.
Proof.
  intros Hx. induction u as [|y u IH]; intros Hs; cbn [lsuf]; case_decide as Hu; [done..|].
  apply suffix_cons_cases in Hs as [->|Hs]; [done|]. by apply IH.
Qed.

Lemma lsuf_same u : u ∈ words -> lsuf words u = u.
Proof. intros Hu. destruct u; cbn [lsuf]; by rewrite decide_True. Qed.

Lemma suffix_antisym (a b : list nat) : a `suffix_of` b -> b `suffix_of` a -> a = b.
Proof.
  intros [k ->] [j Hj]. apply (f_equal length) in Hj as Hl. rewrite !length_app in Hl.
  destruct k; [done|]. cbn in Hl. lia.
Qed.

(** The automaton: one character more. *)
Lemma lsuf_step u e : lsuf words (lsuf words u ++ [e]) = lsuf words (u ++ [e]).
Proof.
  apply suffix_antisym.
  - apply lsuf_longest; [apply lsuf_in|]. etrans; [apply lsuf_suffix|]. apply suffix_snoc, lsuf_suffix.
  - apply lsuf_longest; [apply lsuf_in|]. pose proof (lsuf_in (u ++ [e])) as Hin. pose proof (lsuf_suffix (u ++ [e])) as Hs.
    destruct (lsuf words (u ++ [e])) as [|y x _] using rev_ind; [apply suffix_nil|].
    apply suffix_snoc_inv_1 in Hs as E. subst y. apply suffix_snoc_inv_2 in Hs. apply suffix_snoc.
    apply lsuf_longest; [|done]. by eapply Hpre.
Qed.

Lemma lsuf_tail u : u ∉ words -> lsuf words u = lsuf words (tail u).
Proof. destruct u as [|x u]; [done|]. intros Hu. cbn [lsuf tail]. by rewrite decide_False. Qed.
End SuffixFacts.

Section SubFacts.
Context (regs : list reg) (words : list (list nat)).
Context (Hin : Forall (fun r : reg => r.1.1 ∈ words /\ r.1.2 <> Regex) regs) (Hnil : is_sub regs [] = false).

Lemma elem_of_sel v t w : v ∈ sel t w regs <-> (w, t, v) ∈ regs.
Proof.
  unfold sel. rewrite list_elem_of_omap. split.
  - intros ([[w' t'] v'] & Hr & E). cbn [fst snd] in E. case_decide as Ex; [|done]. injection E as ->. injection Ex as -> ->. exact Hr.
  - intros Hr. exists (w, t, v). split; [done|]. cbn. by rewrite decide_True.
Qed.

Lemma is_sub_word w : is_sub regs w = true -> w ∈ words.
Proof.
  unfold is_sub. rewrite bool_decide_eq_true. intros Hs. destruct (sel Substr w regs) as [|v l] eqn:E; [done|].
  assert (Hv : v ∈ sel Substr w regs) by (rewrite E; by left). apply elem_of_sel in Hv.
  rewrite Forall_forall in Hin. by apply Hin in Hv as [? _].
Qed.

Lemma lsub_suffix u : lsub regs u `suffix_of` u.
Proof. induction u as [|x u IH]; cbn [lsub]; case_match; try done. by apply suffix_cons_r. Qed.

Lemma lsub_or_nil u : lsub regs u = [] \/ is_sub regs (lsub regs u) = true.
Proof. induction u as [|x u IH]; cbn [lsub]; case_match; auto. Qed.

Lemma lsub_longest u x : is_sub regs x = true -> x `suffix_of` u -> x `suffix_of` lsub regs u.
Proof.
  intros Hx. induction u as [|y u IH]; intros Hs; cbn [lsub].
  - apply suffix_nil_inv in Hs as ->. by destruct (is_sub regs []).
  - destruct (is_sub regs (y :: u)) eqn:E; [done|]. apply suffix_cons_cases in Hs as [->|Hs]; [congruence|]. by apply IH.
Qed.

(** The compressed failure link of the source. *)
Lemma lsub_lsuf u : [] ∈ words -> lsub regs u = if is_sub regs (lsuf words u) then lsuf words u else lsub regs (tail (lsuf words u)).
Proof.
  intros Hroot. induction u as [|x u IH]; cbn [lsuf].
  - case_decide; cbn [lsub tail]; by rewrite !Hnil.
  - destruct (decide (x :: u ∈ words)) as [Hx|Hx]; [done|]. cbn [lsub].
    destruct (is_sub regs (x :: u)) eqn:E; [by apply is_sub_word in E|done].
Qed.

Lemma lsub_word u : [] ∈ words -> lsub regs u ∈ words.
Proof. intros Hroot. destruct (lsub_or_nil u) as [->|Hs]; [done|by apply is_sub_word]. Qed.
End SubFacts.

(** ** [Build] *)
Section Building.
Context (words : list (list nat)) (regs : list reg) (ms : list nat) (vs : list acValue).
Context (Hroot : words !! 0%nat = Some []) (Hnd : NoDup words).
Context (Hpre : forall w e, w ++ [e] ∈ words -> w ∈ words /\ (e < acValidCharCount)%nat).
Context (Hregs : regs_ok words regs ms vs) (Hnil : is_sub regs [] = false).

Lemma words_root : [] ∈ words.
Proof. by eapply list_elem_of_lookup_2. Qed.

Lemma words_prefix w e : w ++ [e] ∈ words -> w ∈ words.
Proof. intros Hw. by apply Hpre in Hw as [? _]. Qed.

Lemma words_prefixes w u : u ∈ words -> w `prefix_of` u -> w ∈ words.
Proof.
  intros Hu [k ->]. induction k as [|e k IH] using rev_ind; [by rewrite app_nil_r in Hu|].
  apply IH. rewrite app_assoc in Hu. by eapply words_prefix.
Qed.

Lemma depth_word n w : words !! n = Some w -> depth words n = length w.
Proof. unfold depth. by intros ->. Qed.

Lemma word_unique n m w : words !! n = Some w -> words !! m = Some w -> n = m.
Proof. intros Hn Hm. eapply NoDup_lookup; [exact Hnd|exact Hn|exact Hm]. Qed.

Lemma word_at w : w ∈ words -> exists n, words !! n = Some w.
Proof. apply list_elem_of_lookup_1. Qed.

Lemma node_there D cur b n w :
  build_ok words regs ms D cur b -> words !! n = Some w -> exists nd, b_nodes b !! n = Some nd.
Proof. intros Hb Hw. apply lookup_lt_is_Some. rewrite (proj1 (bo_len _ _ _ _ _ _ Hb)). by eapply lookup_lt_Some. Qed.

Lemma word_there D cur b n nd :
  build_ok words regs ms D cur b -> b_nodes b !! n = Some nd -> exists w, words !! n = Some w.
Proof. intros Hb Hn. apply lookup_lt_is_Some. rewrite <- (proj1 (bo_len _ _ _ _ _ _ Hb)). by eapply lookup_lt_Some. Qed.

(** The substring values of a node say whether its word has any. *)
Lemma is_sub_node n m w v :
  ms !! n = Some m -> words !! n = Some w -> vs !! m = Some v ->
  (if decide (m <> 0%nat) then 0 <? zlen (v_substr v) else false) = is_sub regs w.
Proof.
  intros Hm Hw Hv. rewrite (rg_value _ _ _ _ Hregs n m w Hm Hw) in Hv. injection Hv as <-. cbn [v_substr].
  unfold is_sub. case_decide as Hz.
  - destruct (sel Substr w regs) as [|x l]; [done|]. rewrite zlen_cons. pose proof (zlen_nonneg l).
    rewrite bool_decide_true by done. lia.
  - rewrite bool_decide_false; [done|]. intros Hs. apply Hs.
    apply (rg_some _ _ _ _ Hregs n m w Hm Hw) in Hz. apply omap_none. intros r Hr. rewrite Forall_forall in Hz.
    rewrite decide_False; [done|]. intros E. apply (Hz r Hr). by rewrite E.
Qed.

(** While [n] is under way, every node that is not deeper has its links. *)
Lemma shallow_known D n k w b x u :
  build_ok words regs ms D (Some (n, k)) b -> words !! n = Some w ->
  Forall (fun m => (length w <= depth words m)%nat) (b_queue b) ->
  words !! x = Some u -> (length u <= length w)%nat ->
  x ∈ D \/ x ∈ b_queue b \/ exists k', Some (n, k) = Some (x, k').
Proof.
  intros Hb Hw Hq Hx Hlen. destruct (decide (x ∈ D)) as [HD|HD]; [by left|].
  destruct (bo_cover _ _ _ _ _ _ Hb x u Hx HD) as [(m & v & Hm & Hv & Hp)|(c & k' & v & [= <- <-] & Hv & [->|(e & _ & Hp)])].
  - right. left. rewrite Forall_forall in Hq. specialize (Hq m Hm). rewrite (depth_word m v Hv) in Hq.
    assert (v = u) as ->; [|by rewrite <- (word_unique m x u Hv Hx)].
    destruct Hp as [j ->]. rewrite length_app in Hlen. assert (j = []) as ->; [destruct j; [done|cbn in Hlen; lia]|]. by rewrite app_nil_r.
  - right. right. by exists k.
  - rewrite Hw in Hv. injection Hv as <-. apply prefix_length in Hp. rewrite length_app in Hp. cbn in Hp. lia.
Qed.

Lemma alter_set_fail to c (ns : list acNode) x nd' :
  alter (set_fail to) c ns !! x = Some nd' ->
  exists nd, ns !! x = Some nd /\ next nd' = next nd /\ edge nd' = edge nd /\ fail nd' = (if decide (x = c) then to else fail nd).
Proof.
  destruct (decide (x = c)) as [->|Hne].
  - rewrite list_lookup_alter_eq. destruct (ns !! c) as [nd|]; [|done]. intros [= <-]. by exists nd.
  - rewrite list_lookup_alter_ne by done. intros Hx. by exists nd'.
Qed.

Lemma parent_of_child D n k w b c :
  build_ok words regs ms D (Some (n, k)) b -> words !! n = Some w -> n ∉ D -> words !! c = Some (w ++ [k]) ->
  c ∉ D /\ c ∉ b_queue b /\ c <> n.
Proof.
  intros Hb Hw HnD Hc.
  assert (Hno : ~ (c ∈ D \/ c ∈ b_queue b \/ exists k', Some (n, k) = Some (c, k'))).
  { intros H. destruct (bo_parent _ _ _ _ _ _ Hb c w k H Hc) as (p & Hp & HD).
    rewrite (word_unique p n w Hp Hw) in *. destruct HD as [HD|(k' & [= <-] & Hk)]; [done|lia]. }
  split; [by intros H; apply Hno; left|]. split; [by intros H; apply Hno; right; left|].
  intros ->. apply Hno. right. right. by exists k.
Qed.

(** One edge further. *)
Lemma parent_next D n k b x u e :
  build_ok words regs ms D (Some (n, k)) b ->
  x ∈ D \/ x ∈ b_queue b \/ (exists k', Some (n, S k) = Some (x, k')) -> words !! x = Some (u ++ [e]) ->
  exists p, words !! p = Some u /\ (p ∈ D \/ exists k', Some (n, S k) = Some (p, k') /\ (e < k')%nat).
Proof.
  intros Hb Hin Hx. destruct (bo_parent _ _ _ _ _ _ Hb x u e) as (p & Hp & HD); [|done|].
  - destruct Hin as [?|[?|(k' & [= <- _])]]; [by left|by right; left|]. right. right. by exists k.
  - exists p. split; [done|]. destruct HD as [?|(k' & [= <- <-] & ?)]; [by left|]. right. exists (S k). split; [done|lia].
Qed.

Lemma cover_next D n k w b x u :
  build_ok words regs ms D (Some (n, k)) b -> words !! n = Some w -> words !! x = Some u -> x ∉ D ->
  (exists m v, m ∈ b_queue b /\ words !! m = Some v /\ v `prefix_of` u) \/ w ++ [k] `prefix_of` u \/
  (exists c k' v, Some (n, S k) = Some (c, k') /\ words !! c = Some v /\
     (x = c \/ exists e, (k' <= e < acValidCharCount)%nat /\ v ++ [e] `prefix_of` u)).
Proof.
  intros Hb Hw Hu HxD.
  destruct (bo_cover _ _ _ _ _ _ Hb x u Hu HxD) as [?|(m & k' & v & [= <- <-] & Hv & Hor)]; [by left|].
  rewrite Hw in Hv. injection Hv as <-. destruct Hor as [->|(e & Hke & Hp)].
  - right. right. exists n, (S k), w. split; [done|]. split; [done|]. by left.
  - destruct (decide (e = k)) as [->|Hek]; [by right; left|].
    right. right. exists n, (S k), w. split; [done|]. split; [done|]. right. exists e. split; [lia|done].
Qed.

(** The edge [k] leads to a child, which is queued. *)
Lemma child_step D n k w b nd c fi to :
  build_ok words regs ms D (Some (n, k)) b -> words !! n = Some w -> n ∉ D -> (k < acValidCharCount)%nat ->
  Forall (fun m => (length w <= depth words m <= S (length w))%nat) (b_queue b) ->
  b_nodes b !! n = Some nd -> next nd !!! k = c -> edge nd !!! k = true -> c <> 0%nat -> words !! c = Some (w ++ [k]) ->
  words !! fi = Some (lsuf words (tail (w ++ [k]))) -> words !! to = Some (lsub regs (tail (w ++ [k]))) ->
  build_ok words regs ms D (Some (n, S k))
    {| b_nodes := alter (set_fail to) c (b_nodes b); b_fail := <[c := fi]> (b_fail b); b_queue := b_queue b ++ [c] |}.
Proof.
  intros Hb Hw HnD Hk Hq Hn Hnc Hne Hc0 Hc Hfi Hto.
  destruct (parent_of_child D n k w b c Hb Hw HnD Hc) as (HcD & Hcq & Hcn).
  assert (Hcl : (c < length words)%nat) by by eapply lookup_lt_Some.
  split; cbn [b_nodes b_fail b_queue].
  - rewrite length_alter, length_insert. apply (bo_len _ _ _ _ _ _ Hb).
  - apply Forall_alter; [apply (bo_sizes _ _ _ _ _ _ Hb)|done].
  - rewrite map_alter_fixed by done. apply (bo_match _ _ _ _ _ _ Hb).
  - intros x xd u e (xd0 & Hx & Enx & Eed & _)%alter_set_fail Hu He HD. unfold done_edge. rewrite Enx, Eed.
    destruct (decide (x = n /\ e = k)) as [[-> ->]|Hxe].
    + rewrite Hn in Hx. injection Hx as <-. rewrite Hw in Hu. injection Hu as <-. rewrite Hnc, Hne.
      assert (w ++ [k] ∈ words) by by eapply list_elem_of_lookup_2.
      rewrite lsuf_same by done. by rewrite bool_decide_true.
    + apply (bo_done _ _ _ _ _ _ Hb x xd0 u e Hx Hu He). destruct HD as [HD|(k' & [= <- <-] & Hk')]; [by left|].
      right. exists k. split; [done|]. destruct (decide (e = k)) as [->|]; [by destruct Hxe|lia].
  - intros x xd u e (xd0 & Hx & Enx & Eed & _)%alter_set_fail Hu He HxD Hcur. unfold trie_edge. rewrite Enx, Eed.
    apply (bo_todo _ _ _ _ _ _ Hb x xd0 u e Hx Hu He HxD). intros k' [= -> <-]. specialize (Hcur (S k) eq_refl). lia.
  - intros x xd u (xd0 & Hx & _ & _ & Ef)%alter_set_fail Hu Hin. unfold has_fail. rewrite Ef.
    destruct (decide (x = c)) as [->|Hxc].
    + rewrite Hc in Hu. injection Hu as <-. split; [done|]. intros _. exists fi. rewrite list_lookup_insert_eq; [done|].
      by rewrite (proj2 (bo_len _ _ _ _ _ _ Hb)).
    + rewrite list_lookup_insert_ne by done. apply (bo_fail _ _ _ _ _ _ Hb x xd0 u Hx Hu).
      destruct Hin as [?|[[?|?%list_elem_of_singleton]%elem_of_app|(k' & [= <- <-])]]; [by left|by right; left|done|].
      right. right. by exists k.
  - apply (bo_D _ _ _ _ _ _ Hb).
  - destruct (bo_queue _ _ _ _ _ _ Hb) as [Hqn Hqf]. split.
    + apply NoDup_app. split; [done|]. split; [|apply NoDup_singleton]. by intros x Hx ->%list_elem_of_singleton.
    + apply Forall_app_one; [|split; [done|split; [done|intros k' [= E]; done]]].
      eapply Forall_impl; [exact Hqf|]. intros x (H1 & H2 & H3). split; [done|]. split; [done|].
      intros k' [= -> _]. by apply (H3 k).
  - pose proof (bo_sorted _ _ _ _ _ _ Hb) as Hs.
    assert (Hdc : depth words c = S (length w)) by (rewrite (depth_word c _ Hc), length_app; cbn; lia).
    clear -Hs Hq Hdc. induction Hs as [|x l Hl IH Hx]; cbn [app]; [by repeat constructor|].
    apply Forall_cons in Hq as [Hqx Hql]. constructor; [by apply IH|]. apply Forall_app_one; [done|]. lia.
  - intros x u Hu HxD. destruct (cover_next D n k w b x u Hb Hw Hu HxD) as [(m & v & Hm & Hv & Hp)|[Hp|Hr]]; [left..|by right].
    + exists m, v. split; [apply elem_of_app; by left|done].
    + exists c, (w ++ [k]). split; [|done]. apply elem_of_app. right. by left.
  - intros x u e Hin Hx. destruct Hin as [Hin|[[Hin| ->%list_elem_of_singleton]%elem_of_app|Hin]].
    + apply (parent_next D n k b x u e Hb); [by left|done].
    + apply (parent_next D n k b x u e Hb); [by right; left|done].
    + rewrite Hc in Hx. injection Hx as Hx. apply app_inj_tail in Hx as [<- <-]. exists n. split; [done|].
      right. exists (S k). split; [done|lia].
    + apply (parent_next D n k b x u e Hb); [by right; right|done].
Qed.

(** The edge [k] leads nowhere: it becomes the edge of the failure node. *)
Lemma no_child_step D n k w b nd fi :
  build_ok words regs ms D (Some (n, k)) b -> words !! n = Some w -> n ∉ D -> (k < acValidCharCount)%nat ->
  b_nodes b !! n = Some nd -> w ++ [k] ∉ words -> words !! fi = Some (lsuf words (w ++ [k])) ->
  build_ok words regs ms D (Some (n, S k))
    {| b_nodes := alter (set_next k fi false) n (b_nodes b); b_fail := b_fail b; b_queue := b_queue b |}.
Proof.
  intros Hb Hw HnD Hk Hn Hnw Hfi.
  pose proof (bo_sizes _ _ _ _ _ _ Hb) as Hsz. rewrite Forall_forall in Hsz.
  destruct (Hsz nd ltac:(by eapply list_elem_of_lookup_2)) as [Hs1 Hs2].
  assert (Hlook : forall x xd', alter (set_next k fi false) n (b_nodes b) !! x = Some xd' ->
    exists xd, b_nodes b !! x = Some xd /\ fail xd' = fail xd /\
      (x <> n -> xd' = xd) /\ (x = n -> xd = nd /\ xd' = set_next k fi false nd)).
  { intros x xd'. destruct (decide (x = n)) as [->|Hne].
    - rewrite list_lookup_alter_eq, Hn. intros [= <-]. by exists nd.
    - rewrite list_lookup_alter_ne by done. intros Hx. by exists xd'. }
  split; cbn [b_nodes b_fail b_queue].
  - rewrite length_alter. apply (bo_len _ _ _ _ _ _ Hb).
  - apply Forall_alter; [apply (bo_sizes _ _ _ _ _ _ Hb)|]. intros; cbn. by rewrite !length_insert.
  - rewrite map_alter_fixed by done. apply (bo_match _ _ _ _ _ _ Hb).
  - intros x xd u e (xd0 & Hx & _ & Hne & Heq)%Hlook Hu He HD. destruct (decide (x = n)) as [->|Hxn].
    + destruct (Heq eq_refl) as [-> ->]. rewrite Hw in Hu. injection Hu as <-. destruct HD as [?|(k' & [= <-] & Hlt)]; [done|].
      unfold done_edge. cbn [set_next next edge]. destruct (decide (e = k)) as [->|Hek].
      * rewrite !list_lookup_total_insert_eq by lia. by rewrite bool_decide_false.
      * rewrite !list_lookup_total_insert_ne by done. apply (bo_done _ _ _ _ _ _ Hb n nd w e); [done..|].
        right. exists k. split; [done|lia].
    + rewrite (Hne Hxn). apply (bo_done _ _ _ _ _ _ Hb x xd0 u e Hx Hu He).
      destruct HD as [?|(k' & [= ? ?] & _)]; [by left|congruence].
  - intros x xd u e (xd0 & Hx & _ & Hne & Heq)%Hlook Hu He HxD Hcur. destruct (decide (x = n)) as [->|Hxn].
    + destruct (Heq eq_refl) as [-> ->]. specialize (Hcur (S k) eq_refl). unfold trie_edge. cbn [set_next next edge].
      rewrite !list_lookup_total_insert_ne by lia. apply (bo_todo _ _ _ _ _ _ Hb n nd u e); [done..|].
      intros k' [= <-]. lia.
    + rewrite (Hne Hxn). apply (bo_todo _ _ _ _ _ _ Hb x xd0 u e Hx Hu He HxD). intros k' [= ? ?]. congruence.
  - intros x xd u (xd0 & Hx & Ef & _)%Hlook Hu Hin. unfold has_fail. rewrite Ef.
    apply (bo_fail _ _ _ _ _ _ Hb x xd0 u Hx Hu). destruct Hin as [?|[?|(k' & [= <- _])]]; [by left|by right; left|].
    right. right. by exists k.
  - apply (bo_D _ _ _ _ _ _ Hb).
  - destruct (bo_queue _ _ _ _ _ _ Hb) as [Hqn Hqf]. split; [done|].
    eapply Forall_impl; [exact Hqf|]. intros x (H1 & H2 & H3). split; [done|]. split; [done|].
    intros k' [= -> _]. by apply (H3 k).
  - apply (bo_sorted _ _ _ _ _ _ Hb).
  - intros x u Hu HxD. destruct (cover_next D n k w b x u Hb Hw Hu HxD) as [?|[Hp|?]]; [by left| |by right].
    exfalso. apply Hnw. eapply words_prefixes; [|exact Hp]. by eapply list_elem_of_lookup_2.
  - intros x u e. by apply parent_next.
Qed.

(** What stays while the edges of [n] are visited. *)
Definition visiting (D : list nat) (n k : nat) (w : list nat) (f : nat) (b : build_state) : Prop :=
  build_ok words regs ms D (Some (n, k)) b /\ b_fail b !! n = Some f /\
  Forall (fun m => (length w <= depth words m <= S (length w))%nat) (b_queue b).

Lemma build_edge_step D n k w f b :
  visiting D n k w f b -> words !! n = Some w -> w <> [] -> n ∉ D -> (k < acValidCharCount)%nat ->
  words !! f = Some (lsuf words (tail w)) ->
  exists b', build_edge vs n f k b = Some b' /\ visiting D n (S k) w f b'.
Proof.
  intros (Hb & Hbf & Hq) Hw Hw0 HnD Hk Hf. unfold build_edge.
  destruct (node_there _ _ _ n w Hb Hw) as [nd Hn]. destruct (node_there _ _ _ f _ Hb Hf) as [fd Hfn].
  rewrite Hn, Hfn. cbn [mbind option_bind].
  assert (Hqs : Forall (fun m => (length w <= depth words m)%nat) (b_queue b)) by (eapply Forall_impl; [exact Hq|]; intros m [? ?]; done).
  assert (Hlen : (length (lsuf words (tail w)) < length w)%nat).
  { pose proof (suffix_length _ _ (lsuf_suffix words (tail w))). destruct w; [done|]. cbn in *. lia. }
  assert (HfD : f ∈ D).
  { destruct (decide (f ∈ D)) as [?|HfD]; [done|].
    destruct (bo_cover _ _ _ _ _ _ Hb f _ Hf HfD) as [(m & v & Hm & Hv & Hp)|(c & k' & v & [= <- <-] & Hv & Hor)].
    - rewrite Forall_forall in Hqs. specialize (Hqs m Hm). rewrite (depth_word m v Hv) in Hqs. apply prefix_length in Hp. lia.
    - rewrite Hw in Hv. injection Hv as <-. destruct Hor as [->|(e & _ & Hp)].
      { rewrite Hw in Hf. injection Hf as E. apply (f_equal length) in E. lia. }
      apply prefix_length in Hp. rewrite length_app in Hp. lia. }
  destruct (bo_done _ _ _ _ _ _ Hb f fd _ k Hfn Hf Hk) as [Hfi _]; [by left|].
  rewrite (lsuf_step words words_root words_prefix) in Hfi.
  replace (tail w ++ [k]) with (tail (w ++ [k])) in Hfi by by destruct w.
  destruct (bo_todo _ _ _ _ _ _ Hb n nd w k Hn Hw Hk HnD) as [(E0 & _ & Hnw)|(E0 & Et & Hc)]; [intros k' [= <-]; lia| |].
  - rewrite E0, decide_False by (intros H; by apply H). eexists. split; [done|].
    split; [|split; [done|done]]. eapply no_child_step; [done..|]. rewrite lsuf_tail by done. exact Hfi.
  - rewrite decide_True by done.
    destruct (node_there _ _ _ _ _ Hb Hfi) as [td Htd]. destruct (node_there _ _ _ _ _ Hb Hc) as [cd Hcd].
    rewrite Htd, Hcd. cbn [mbind option_bind].
    assert (Hms : ms !! (next fd !!! k) = Some (match_ td)) by (rewrite <- (bo_match _ _ _ _ _ _ Hb), list_lookup_fmap, Htd; done).
    pose proof (rg_value _ _ _ _ Hregs _ _ _ Hms Hfi) as Hv. pose proof (is_sub_node _ _ _ _ Hms Hfi Hv) as Hsub.
    assert (Hshallow : (length (lsuf words (tail (w ++ [k]))) <= length w)%nat).
    { pose proof (suffix_length _ _ (lsuf_suffix words (tail (w ++ [k])))) as Hl.
      assert (length (tail (w ++ [k])) = length w) by (destruct w; [done|cbn; rewrite length_app; cbn; lia]). lia. }
    destruct (bo_fail _ _ _ _ _ _ Hb _ td _ Htd Hfi (shallow_known D n k w b _ _ Hb Hw Hqs Hfi Hshallow)) as [Htf _].
    pose proof (lsub_lsuf regs words (rg_in _ _ _ _ Hregs) Hnil (tail (w ++ [k])) words_root) as Hls.
    assert (Hto : exists to, (if decide (match_ td <> 0%nat) then
        v ← vs !! match_ td; Some (if 0 <? zlen (v_substr v) then next fd !!! k else fail td) else Some (fail td)) = Some to /\
        words !! to = Some (lsub regs (tail (w ++ [k])))).
    { rewrite Hls, <- Hsub. case_decide; [|by exists (fail td)]. rewrite Hv. cbn [mbind option_bind v_substr].
      eexists. split; [done|]. destruct (0 <? zlen (sel Substr _ regs)); [exact Hfi|exact Htf]. }
    destruct Hto as (to & -> & Hto). cbn [mbind option_bind]. eexists. split; [done|]. split; [|split].
    + by eapply (child_step D n k w b nd).
    + cbn [b_fail]. rewrite list_lookup_insert_ne; [done|].
      destruct (parent_of_child D n k w b _ Hb Hw HnD Hc) as (_ & _ & Hne). done.
    + cbn [b_queue]. apply Forall_app_one; [done|]. rewrite (depth_word _ _ Hc), length_app. cbn. lia.
Qed.

Lemma build_edges_spec D n w f j k b :
  (k + j = acValidCharCount)%nat -> visiting D n k w f b -> words !! n = Some w -> w <> [] -> n ∉ D ->
  words !! f = Some (lsuf words (tail w)) ->
  exists b', build_edges vs n f (seq k j) b = Some b' /\ visiting D n acValidCharCount w f b'.
Proof.
  revert k b. induction j as [|j IH]; intros k b Hk Hb Hw Hw0 HnD Hf; cbn [seq build_edges].
  - exists b. rewrite Nat.add_0_r in Hk. by subst.
  - destruct (build_edge_step D n k w f b Hb Hw Hw0 HnD) as (b1 & -> & Hb1); [lia|done|]. cbn [mbind option_bind].
    apply IH; [lia|done..].
Qed.

(** The front of the queue becomes the node under way, and then a done node. *)
Lemma pop_visiting D n q b :
  build_ok words regs ms D None b -> b_queue b = n :: q ->
  exists w f, words !! n = Some w /\ w <> [] /\ n ∉ D /\ b_fail b !! n = Some f /\ words !! f = Some (lsuf words (tail w)) /\
    visiting D n 0 w f {| b_nodes := b_nodes b; b_fail := b_fail b; b_queue := q |}.
Proof.
  intros Hb Eq. destruct (bo_queue _ _ _ _ _ _ Hb) as [Hqn Hqf]. rewrite Eq in *.
  apply NoDup_cons in Hqn as [Hnq Hqn]. apply Forall_cons in Hqf as [(Hnl & HnD & _) Hqf].
  destruct (lookup_lt_is_Some_2 words n Hnl) as [w Hw]. destruct (node_there _ _ _ n w Hb Hw) as [nd Hn].
  destruct (bo_D _ _ _ _ _ _ Hb) as (_ & H0D & _). assert (Hn0 : n <> 0%nat) by (intros ->; done).
  destruct (bo_fail _ _ _ _ _ _ Hb n nd w Hn Hw) as [_ Hfail]; [right; left; rewrite Eq; by left|].
  destruct (Hfail Hn0) as (f & Hf & Hfw). exists w, f. split; [done|]. split; [intros ->; apply Hn0; by eapply word_unique|].
  split; [done|]. split; [done|]. split; [done|]. pose proof (bo_sorted _ _ _ _ _ _ Hb) as Hs. rewrite Eq in Hs.
  apply StronglySorted_inv in Hs as [Hs Hhead]. rewrite (depth_word n w Hw) in Hhead.
  split; [|split; [done|done]]. split; cbn [b_nodes b_fail b_queue].
  - apply (bo_len _ _ _ _ _ _ Hb).
  - apply (bo_sizes _ _ _ _ _ _ Hb).
  - apply (bo_match _ _ _ _ _ _ Hb).
  - intros x xd u e Hx Hu He [?|(k & [= <- <-] & ?)]; [|lia]. apply (bo_done _ _ _ _ _ _ Hb x xd u e Hx Hu He). by left.
  - intros x xd u e Hx Hu He HxD _. by apply (bo_todo _ _ _ _ _ _ Hb x xd u e Hx Hu He HxD).
  - intros x xd u Hx Hu Hin. apply (bo_fail _ _ _ _ _ _ Hb x xd u Hx Hu). rewrite Eq.
    destruct Hin as [?|[?|(k & [= <- _])]]; [by left|right; left; by right|right; left; by left].
  - apply (bo_D _ _ _ _ _ _ Hb).
  - split; [done|]. apply Forall_forall. intros x Hx. rewrite Forall_forall in Hqf. destruct (Hqf x Hx) as (H1 & H2 & _).
    split; [done|]. split; [done|]. intros k [= ->]. done.
  - done.
  - intros x u Hu HxD. destruct (bo_cover _ _ _ _ _ _ Hb x u Hu HxD) as [(m & v & Hm & Hv & Hp)|(c & k & v & ? & _)]; [|done].
    rewrite Eq in Hm. apply elem_of_cons in Hm as [->|Hm]; [|left; by exists m, v].
    right. exists n, 0%nat, w. split; [done|]. split; [done|]. rewrite Hw in Hv. injection Hv as <-.
    destruct Hp as [[|e r] ->]; [left; rewrite app_nil_r in Hu; by eapply word_unique|right].
    exists e. split; [|by exists r; rewrite <- app_assoc]. split; [lia|]. apply (Hpre w e).
    eapply (words_prefixes _ (w ++ e :: r)); [by eapply list_elem_of_lookup_2|]. exists r. by rewrite <- app_assoc.
  - intros x u e Hin Hx. destruct (bo_parent _ _ _ _ _ _ Hb x u e) as (p & Hp & [HD|(k & ? & _)]); [|done| |done].
    + rewrite Eq. destruct Hin as [?|[?|(k & [= <- _])]]; [by left|right; left; by right|right; left; by left].
    + exists p. split; [done|]. by left.
Qed.

Lemma finish_visiting D n w f b :
  visiting D n acValidCharCount w f b -> words !! n = Some w -> n ∉ D -> build_ok words regs ms (n :: D) None b.
Proof.
  intros (Hb & _ & _) Hw HnD. split.
  - apply (bo_len _ _ _ _ _ _ Hb).
  - apply (bo_sizes _ _ _ _ _ _ Hb).
  - apply (bo_match _ _ _ _ _ _ Hb).
  - intros x xd u e Hx Hu He [Hin|(k & ? & _)]; [|done]. apply (bo_done _ _ _ _ _ _ Hb x xd u e Hx Hu He).
    apply elem_of_cons in Hin as [->|?]; [right; by eexists|by left].
  - intros x xd u e Hx Hu He Hin _. apply not_elem_of_cons in Hin as [Hxn HxD].
    apply (bo_todo _ _ _ _ _ _ Hb x xd u e Hx Hu He HxD). intros k [= ? ?]. congruence.
  - intros x xd u Hx Hu Hin. apply (bo_fail _ _ _ _ _ _ Hb x xd u Hx Hu).
    destruct Hin as [[->|?]%elem_of_cons|[?|(k & ?)]]; [right; right; by eexists|by left|by right; left|done].
  - destruct (bo_D _ _ _ _ _ _ Hb) as (H1 & H2 & H3). split; [by constructor|]. split; [by right|].
    constructor; [by eapply lookup_lt_Some|done].
  - destruct (bo_queue _ _ _ _ _ _ Hb) as [Hqn Hqf]. split; [done|]. eapply Forall_impl; [exact Hqf|].
    intros x (H1 & H2 & H3). split; [done|]. split; [|done]. apply not_elem_of_cons. split; [|done]. intros ->. by eapply H3.
  - apply (bo_sorted _ _ _ _ _ _ Hb).
  - intros x u Hu Hin. apply not_elem_of_cons in Hin as [Hxn HxD]. left.
    destruct (bo_cover _ _ _ _ _ _ Hb x u Hu HxD) as [?|(c & k & v & [= <- <-] & _ & [?|(e & ? & _)])]; [done|congruence|lia].
  - intros x u e Hin Hx. destruct (bo_parent _ _ _ _ _ _ Hb x u e) as (p & Hp & HD); [|done|].
    + destruct Hin as [[->|?]%elem_of_cons|[?|(k & ?)]]; [right; right; by eexists|by left|by right; left|done].
    + exists p. split; [done|]. left. destruct HD as [?|(k & [= <- _] & _)]; [by right|by left].
Qed.

Lemma NoDup_bound (l : list nat) n : NoDup l -> Forall (fun x => (x < n)%nat) l -> (length l <= n)%nat.
Proof.
  intros Hl Hf. rewrite <- (length_seq n 0). apply (NoDup_incl_length (l := l)); [by apply NoDup_ListNoDup|].
  intros x Hx%list_elem_of_In. rewrite Forall_forall in Hf. apply in_seq. specialize (Hf x Hx). lia.
Qed.

Lemma build_loop_spec fuel D b :
  build_ok words regs ms D None b -> (length words <= length D + fuel)%nat ->
  exists D' b', build_loop fuel vs b = Some b' /\ build_ok words regs ms D' None b' /\ b_queue b' = [].
Proof.
  revert D b. induction fuel as [|fuel IH]; intros D b Hb Hf; cbn [build_loop]; destruct (b_queue b) as [|n q] eqn:Eq;
    [by exists D, b| |by exists D, b|].
  - exfalso. destruct (bo_D _ _ _ _ _ _ Hb) as (H1 & _ & H3).
    destruct (pop_visiting D n q b Hb Eq) as (w & f & Hw & _ & HnD & _).
    assert (length (n :: D) <= length words)%nat; [|cbn in *; lia].
    apply NoDup_bound; [by constructor|]. constructor; [by eapply lookup_lt_Some|done].
  - destruct (pop_visiting D n q b Hb Eq) as (w & f & Hw & Hw0 & HnD & -> & Hfw & Hv). cbn [mbind option_bind].
    destruct (build_edges_spec D n w f acValidCharCount 0 _ ltac:(done) Hv Hw Hw0 HnD Hfw) as (b1 & -> & Hv1).
    cbn [mbind option_bind]. apply (IH (n :: D)); [by eapply finish_visiting|]. cbn. lia.
Qed.

(** The queue at the start: the children of the root. *)
Definition children (root : acNode) : list nat :=
  filter (fun i => i <> 0%nat) (map (fun e => next root !!! e) (seq 0 acValidCharCount)).

Lemma NoDup_filter_map {A} (P : nat -> Prop) `{!forall x, Decision (P x)} (f : A -> nat) (l : list A) :
  NoDup l -> (forall x y, x ∈ l -> y ∈ l -> P (f x) -> f x = f y -> x = y) -> NoDup (filter P (map f l)).
Proof.
  induction 1 as [|x l Hx Hl IH]; intros Hinj; cbn [map]; [constructor|]. rewrite filter_cons.
  assert (NoDup (filter P (map f l))) by (apply IH; intros y z Hy Hz; apply Hinj; by right).
  case_decide as HP; [|done]. constructor; [|done]. intros [_ (y & E & Hy)%list_elem_of_fmap]%list_elem_of_filter.
  apply Hx. rewrite (Hinj x y); [done|by left|by right|done|done].
Qed.

Lemma children_spec ns root :
  trie_ok words ns -> ns !! 0%nat = Some root ->
  NoDup (children root) /\ forall c, c ∈ children root <-> exists e, words !! c = Some [e].
Proof.
  intros Ht Hr. pose proof (tw_next _ _ Ht 0%nat root [] ) as Hnx. split.
  - apply NoDup_filter_map; [apply NoDup_seq|]. intros x y Hx%elem_of_seq Hy%elem_of_seq Hne E.
    destruct (Hnx x Hr Hroot) as [(? & _)|(_ & _ & Hwx)]; [lia|done|].
    destruct (Hnx y Hr Hroot) as [(? & _)|(_ & _ & Hwy)]; [lia|congruence|]. rewrite E in Hwx. rewrite Hwx in Hwy. by injection Hwy.
  - intros c. unfold children. rewrite list_elem_of_filter, list_elem_of_fmap. split.
    + intros (Hc & e & -> & He%elem_of_seq). exists e. destruct (Hnx e Hr Hroot) as [(? & _)|(_ & _ & Hw)]; [lia|done|done].
    + intros (e & Hc). assert (He : (e < acValidCharCount)%nat) by (apply (Hpre [] e); by eapply list_elem_of_lookup_2).
      destruct (Hnx e Hr Hroot He) as [(_ & _ & Hn)|(Hn & _ & Hw)]; [destruct Hn; by eapply list_elem_of_lookup_2|].
      rewrite (word_unique c _ _ Hc Hw). split; [done|]. exists e. split; [done|]. apply elem_of_seq. lia.
Qed.

Lemma build_start ns root :
  trie_ok words ns -> map match_ ns = ms -> ns !! 0%nat = Some root ->
  build_ok words regs ms [0%nat] None
    {| b_nodes := ns; b_fail := replicate (length ns) 0%nat; b_queue := children root |}.
Proof.
  intros Ht Hms Hr. destruct (children_spec ns root Ht Hr) as [Hcn Hc].
  pose proof (tw_fail _ _ Ht) as Hfl. rewrite Forall_forall in Hfl.
  split; cbn [b_nodes b_fail b_queue].
  - rewrite length_replicate. split; apply (tw_len _ _ Ht).
  - apply (tw_sizes _ _ Ht).
  - done.
  - intros n nd w e Hn Hw He [->%list_elem_of_singleton|(k & ? & _)]; [|done].
    rewrite Hroot in Hw. injection Hw as <-. destruct (tw_next _ _ Ht _ nd [] e Hn Hroot He) as [(E1 & E2 & Hx)|(E1 & E2 & Hx)].
    + unfold done_edge. rewrite E1, E2, bool_decide_false, lsuf_tail by done. split; [|done]. rewrite Hroot. cbn. by case_decide.
    + assert (Hin : [] ++ [e] ∈ words) by by eapply list_elem_of_lookup_2. unfold done_edge. by rewrite E2, bool_decide_true, lsuf_same.
  - intros n nd w e Hn Hw He _ _. by apply (tw_next _ _ Ht n nd w e).
  - intros n nd w Hn Hw Hin.
    assert (Ht0 : tail w = []).
    { destruct Hin as [->%list_elem_of_singleton|[[e Hx]%Hc|(k & ?)]]; [|by rewrite Hx in Hw; injection Hw as <-|done].
      rewrite Hroot in Hw. by injection Hw as <-. }
    unfold has_fail. rewrite Ht0, (Hfl nd) by by eapply list_elem_of_lookup_2. cbn [lsub lsuf].
    assert ((if is_sub regs [] then [] else []) = @nil nat) as -> by by case_match.
    split; [done|]. intros _. exists 0%nat. split; [|case_decide; done].
    apply lookup_replicate_2. by eapply lookup_lt_Some.
  - split; [apply NoDup_singleton|]. split; [by left|]. constructor; [by eapply lookup_lt_Some|done].
  - split; [done|]. apply Forall_forall. intros n [e Hn]%Hc. split; [by eapply lookup_lt_Some|]. split; [|done].
    intros ->%list_elem_of_singleton. rewrite Hroot in Hn. done.
  - assert (Hd : Forall (fun n => depth words n = 1%nat) (children root)).
    { apply Forall_forall. intros n [e Hn]%Hc. by rewrite (depth_word n _ Hn). }
    clear -Hd. induction Hd as [|x l Hx Hl IH]; constructor; [done|]. eapply Forall_impl; [exact Hl|]. cbn. intros y Hy. lia.
  - intros n w Hn HnD. left. destruct w as [|e w].
    + destruct HnD. rewrite (word_unique n 0%nat [] Hn Hroot). by left.
    + destruct (word_at [e]) as [c Hce]; [eapply words_prefixes; [by eapply list_elem_of_lookup_2|by exists w]|].
      exists c, [e]. split; [apply Hc; by exists e|]. split; [done|]. by exists w.
  - intros n u e Hin Hn. exists 0%nat. split; [|left; by left].
    destruct Hin as [->%list_elem_of_singleton|[[e' Hx]%Hc|(k & ?)]]; [| |done].
    + rewrite Hroot in Hn. injection Hn as Hn. symmetry in Hn. by apply app_nil in Hn as [_ ?].
    + rewrite Hn in Hx. injection Hx as Hx. apply (app_inj_tail u [] e e') in Hx as [-> _]. done.
Qed.
End Building.

Lemma Build_spec words regs ac :
  group_ok words regs ac -> is_sub regs [] = false -> exists ac', Build ac = Some ac' /\ built_ok words regs ac'.
Proof.
  intros [Ht Hr] Hnil. pose proof (tw_root _ _ Ht) as Hroot. pose proof (tw_nodup _ _ Ht) as Hnd. pose proof (tw_prefix _ _ Ht) as Hpre.
  assert (exists root, nodes ac !! 0%nat = Some root) as [root Hn].
  { apply lookup_lt_is_Some. rewrite (tw_len _ _ Ht). by eapply lookup_lt_Some. }
  unfold Build. rewrite Hn. cbn [mbind option_bind]. fold (children root).
  pose proof (build_start words regs (map match_ (nodes ac)) Hroot Hnd Hpre Hnil (nodes ac) root Ht eq_refl Hn) as Hb.
  destruct (build_loop_spec words regs (map match_ (nodes ac)) (values ac) Hroot Hnd Hpre Hr Hnil
    (length (nodes ac)) _ _ Hb) as (D & b & -> & Hb' & Hq).
  { rewrite <- (tw_len _ _ Ht). cbn. lia. }
  cbn [mbind option_bind]. eexists. split; [done|].
  assert (Hall : forall n w, words !! n = Some w -> n ∈ D).
  { intros n w Hw. destruct (decide (n ∈ D)) as [?|HD]; [done|].
    destruct (bo_cover _ _ _ _ _ _ Hb' n w Hw HD) as [(m & v & Hm & _)|(c & k & v & ? & _)]; [|done].
    rewrite Hq in Hm. by apply elem_of_nil in Hm. }
  split; cbn [nodes values].
  - apply (bo_len _ _ _ _ _ _ Hb').
  - done.
  - done.
  - intros w e Hw. by apply Hpre in Hw as [? _].
  - intros n nd w e Hx Hw He. apply (bo_done _ _ _ _ _ _ Hb' n nd w e Hx Hw He). left. by eapply Hall.
  - intros n nd w Hx Hw. apply (bo_fail _ _ _ _ _ _ Hb' n nd w Hx Hw). left. by eapply Hall.
  - by rewrite (bo_match _ _ _ _ _ _ Hb').
Qed.

(** ** Matching *)
Section Matching.
Context (words : list (list nat)) (regs : list reg) (ac : ACAutomatonMatcherGroup).
Context (Hb : built_ok words regs ac) (Hnil : is_sub regs [] = false).

Lemma node_of n w : words !! n = Some w -> exists nd, nodes ac !! n = Some nd.
Proof. intros Hw. apply lookup_lt_is_Some. rewrite (bt_len _ _ _ Hb). by eapply lookup_lt_Some. Qed.

Lemma root_in : [] ∈ words.
Proof. eapply list_elem_of_lookup_2, (bt_root _ _ _ Hb). Qed.

Lemma reg_word w t v : (w, t, v) ∈ regs -> w ∈ words.
Proof. intros Hr. pose proof (rg_in _ _ _ _ (bt_regs _ _ _ Hb)) as Hin. rewrite Forall_forall in Hin. by apply Hin in Hr as [? _]. Qed.

Lemma reg_sub x v : (x, Substr, v) ∈ regs -> is_sub regs x = true.
Proof.
  intros Hx. apply bool_decide_eq_true. intros E. apply elem_of_sel in Hx. rewrite E in Hx. by apply elem_of_nil in Hx.
Qed.

Lemma sub_reg x : is_sub regs x = true -> exists v, (x, Substr, v) ∈ regs.
Proof.
  intros Hx%bool_decide_eq_true. destruct (sel Substr x regs) as [|v l] eqn:E; [done|]. exists v.
  apply elem_of_sel. rewrite E. by left.
Qed.

Lemma no_empty_sub v : ([], Substr, v) ∉ regs.
Proof. intros Hx%reg_sub. congruence. Qed.

(** The values at a node. *)
Lemma values_at n nd w :
  nodes ac !! n = Some nd -> words !! n = Some w ->
  values ac !! match_ nd = Some {| v_full := sel Full w regs; v_domain := sel Domain w regs; v_substr := sel Substr w regs |} /\
  (match_ nd = 0%nat <-> forall t v, (w, t, v) ∉ regs).
Proof.
  intros Hn Hw. assert (Hm : map match_ (nodes ac) !! n = Some (match_ nd)) by (rewrite list_lookup_fmap, Hn; done).
  pose proof (bt_regs _ _ _ Hb) as Hr. split; [by eapply rg_value|].
  rewrite (rg_some _ _ _ _ Hr n _ w Hm Hw), Forall_forall. split.
  - intros H t v Hx. by apply (H (w, t, v) Hx).
  - intros H [[w' t] v] Hx. cbn. intros ->. by apply (H t v).
Qed.

(** A node is the root when its word is empty. *)
Lemma zero_word n w : words !! n = Some w -> n = 0%nat <-> w = [].
Proof.
  intros Hw. pose proof (bt_root _ _ _ Hb) as Hr. split; [intros ->; congruence|].
  intros ->. eapply NoDup_lookup; [apply (bt_nodup _ _ _ Hb)|exact Hw|exact Hr].
Qed.

Lemma fail_path_step fuel f g acc nd w gw :
  f <> 0%nat -> words !! f = Some gw -> nodes ac !! g = Some nd -> words !! g = Some w ->
  fail_path (S fuel) ac f g acc = fail_path fuel ac (fail nd) f (acc ++ [sel Substr w regs]).
Proof.
  intros Hf Hfw Hn Hw. destruct (values_at g nd w Hn Hw) as [Hv _]. destruct (node_of f gw Hfw) as [fd Hfd].
  destruct f as [|f]; [done|]. cbn [fail_path]. rewrite Hn. cbn [mbind option_bind]. rewrite Hv. cbn [mbind option_bind].
  by rewrite Hfd.
Qed.

(** The failure path yields, with repetitions, the keywords that are suffixes. *)
Lemma fail_path_spec k : forall y f fuel acc,
  (length y <= k)%nat -> words !! f = Some y -> y = [] \/ is_sub regs y = true -> (2 * length y <= fuel)%nat ->
  exists ms, fail_path fuel ac f f acc = Some (acc ++ ms) /\
    forall v, v ∈ concat ms <-> exists x, x `suffix_of` y /\ (x, Substr, v) ∈ regs.
Proof.
  induction k as [|k IH]; intros y f fuel acc Hk Hf Hy Hfuel.
  all: destruct (decide (y = [])) as [->|Hy0].
  1,3: apply (zero_word f [] Hf) in Hy0 as -> || (rewrite (proj2 (zero_word f [] Hf) eq_refl); exists [];
         rewrite app_nil_r; split; [by destruct fuel|]; intros v; split; [by intros ?%elem_of_nil|];
         intros (x & ->%suffix_nil_inv & Hx); by apply no_empty_sub in Hx).
  { destruct y; [done|cbn in Hk; lia]. }
  assert (Hf0 : f <> 0%nat) by (intros E; by apply (zero_word f y Hf) in E).
  destruct (node_of f y Hf) as [nd Hn]. pose proof (bt_fail _ _ _ Hb f nd y Hn Hf) as Hz. unfold has_fail in Hz.
  set (z := lsub regs (tail y)) in *.
  assert (Hzl : (S (length z) <= length y)%nat).
  { pose proof (suffix_length _ _ (lsub_suffix regs Hnil (tail y))) as Hl. fold z in Hl.
    assert (S (length (tail y)) = length y) by (by destruct y). lia. }
  assert (Hmem : forall v ms, (forall w, w ∈ concat ms <-> exists x, x `suffix_of` z /\ (x, Substr, w) ∈ regs) ->
    v ∈ sel Substr y regs \/ v ∈ concat ms <-> exists x, x `suffix_of` y /\ (x, Substr, v) ∈ regs).
  { intros v ms Hms. rewrite Hms, elem_of_sel. split.
    - intros [Hv|(x & Hx & Hv)]; [by exists y|]. exists x. split; [|done]. etrans; [exact Hx|].
      etrans; [apply (lsub_suffix regs Hnil)|]. destruct y; [done|]. by apply suffix_cons_r.
    - intros (x & Hx & Hv). destruct y as [|e y]; [done|]. apply suffix_cons_cases in Hx as [->|Hx]; [by left|right].
      exists x. split; [|done]. apply lsub_longest; [done|by eapply reg_sub|done]. }
  destruct fuel as [|[|fuel]]; [lia..|]. rewrite (fail_path_step _ f f acc nd y y) by done.
  destruct (decide (z = [])) as [Hz0|Hz0].
  - rewrite (proj2 (zero_word _ _ Hz) Hz0). exists [sel Substr y regs]. split; [done|]. intros v. cbn [concat]. rewrite app_nil_r.
    rewrite <- (Hmem v []), elem_of_nil; [tauto|]. intros w. cbn. rewrite elem_of_nil. split; [done|].
    rewrite Hz0. intros (x & ->%suffix_nil_inv & Hx). by apply no_empty_sub in Hx.
  - assert (Hfn0 : fail nd <> 0%nat) by (intros E; by apply (zero_word _ _ Hz) in E).
    rewrite (fail_path_step _ (fail nd) f _ nd y z) by done.
    destruct (IH z (fail nd) fuel ((acc ++ [sel Substr y regs]) ++ [sel Substr y regs])) as (ms & -> & Hms);
      [lia|done|destruct (lsub_or_nil regs Hnil (tail y)); [done|by right]|lia|].
    exists ([sel Substr y regs; sel Substr y regs] ++ ms). split; [by rewrite <- !app_assoc|]. intros v.
    rewrite <- (Hmem v ms Hms). cbn [app concat]. rewrite !elem_of_app. tauto.
Qed.

(** The state after the word [u]. *)
Definition at_word (u : list nat) (n : nat) (full : bool) : Prop :=
  words !! n = Some (lsuf words u) /\ full = bool_decide (u ∈ words).

Lemma words_prefix_closed w e : w ++ [e] ∈ words -> w ∈ words.
Proof. apply (bt_prefix _ _ _ Hb). Qed.

(** One character: the next node, and what is known of it. *)
Lemma advance u n full nd e :
  at_word u n full -> nodes ac !! n = Some nd -> (e < acValidCharCount)%nat ->
  at_word (u ++ [e]) (next nd !!! e) (full && (edge nd !!! e)).
Proof.
  intros [Hn ->] Hnd He. destruct (bt_edge _ _ _ Hb n nd _ e Hnd Hn He) as [Hnx Hed].
  rewrite (lsuf_step words root_in words_prefix_closed) in Hnx. split; [done|]. rewrite Hed.
  destruct (bool_decide_reflect (u ∈ words)) as [Hu|Hu]; cbn [andb].
  - by rewrite lsuf_same.
  - symmetry. apply bool_decide_false. intros Hx. by apply words_prefix_closed in Hx.
Qed.

(** The keywords that end at the word [u]: those of the failure path of its
    node and those of the node. *)
Lemma subs_at u n nd v :
  words !! n = Some (lsuf words u) -> nodes ac !! n = Some nd ->
  (exists x, x `suffix_of` u /\ (x, Substr, v) ∈ regs) <->
  (exists x, x `suffix_of` lsub regs (tail (lsuf words u)) /\ (x, Substr, v) ∈ regs) \/ v ∈ sel Substr (lsuf words u) regs.
Proof.
  intros Hn Hnd. set (w := lsuf words u) in *. rewrite elem_of_sel. split.
  - intros (x & Hx & Hv). assert (Hxw : x `suffix_of` w) by (apply lsuf_longest; [by eapply reg_word|done]).
    destruct w as [|e w]; [apply suffix_nil_inv in Hxw as ->; by right|].
    apply suffix_cons_cases in Hxw as [->|Hxw]; [by right|left]. exists x. split; [|done].
    apply lsub_longest; [done|by eapply reg_sub|done].
  - intros [(x & Hx & Hv)|Hv]; [|exists w; split; [apply lsuf_suffix|done]].
    exists x. split; [|done]. etrans; [exact Hx|]. etrans; [apply (lsub_suffix regs Hnil)|].
    etrans; [|apply (lsuf_suffix words)]. fold w. destruct w; [done|]. cbn [tail]. by apply suffix_cons_r.
Qed.

Lemma elem_of_append_some v ms m : v ∈ concat (append_some ms m) <-> v ∈ concat ms \/ v ∈ m.
Proof.
  unfold append_some. destruct m as [|x m].
  - cbn. rewrite elem_of_nil. tauto.
  - rewrite zlen_cons. pose proof (zlen_nonneg m). replace (0 <? 1 + zlen m) with true by lia.
    rewrite concat_app, elem_of_app. cbn [concat]. by rewrite app_nil_r.
Qed.

(** The failure path of a node that is no longer than [k]. *)
Lemma path_of_node u n nd fuel acc :
  words !! n = Some (lsuf words u) -> nodes ac !! n = Some nd -> (2 * length u <= fuel)%nat ->
  exists ms, (if decide (fail nd <> 0%nat) then fail_path fuel ac (fail nd) (fail nd) acc else Some acc) = Some (acc ++ ms) /\
    forall v, v ∈ concat ms <-> exists x, x `suffix_of` lsub regs (tail (lsuf words u)) /\ (x, Substr, v) ∈ regs.
Proof.
  intros Hn Hnd Hfuel. pose proof (bt_fail _ _ _ Hb n nd _ Hnd Hn) as Hz. unfold has_fail in Hz.
  set (z := lsub regs (tail (lsuf words u))) in *.
  assert (Hl : (length z <= length u)%nat).
  { pose proof (suffix_length _ _ (lsub_suffix regs Hnil (tail (lsuf words u)))) as H1. fold z in H1.
    pose proof (suffix_length _ _ (lsuf_suffix words u)) as H2.
    assert (length (tail (lsuf words u)) <= length (lsuf words u))%nat by (destruct (lsuf words u); cbn; lia). lia. }
  case_decide as Hf.
  - apply (fail_path_spec (length z)); [done|done|apply (lsub_or_nil regs Hnil)|lia].
  - exists []. rewrite app_nil_r. split; [done|]. intros v. apply (zero_word _ _ Hz) in Hf. rewrite Hf. cbn. rewrite elem_of_nil.
    split; [done|]. intros (x & ->%suffix_nil_inv & Hx). by apply no_empty_sub in Hx.
Qed.

(** What [match_char] adds. *)
Lemma match_char_spec fuel u c m :
  at_word u (m_node m) (fullMatch m) -> (2 * S (length u) <= fuel)%nat ->
  exists m', match_char fuel ac c m = Some m' /\
    at_word (u ++ [acCharset c]) (m_node m') (fullMatch m') /\
    forall v, v ∈ concat (substrMatches m') \/ v ∈ concat (suffixMatches m') <->
      v ∈ concat (substrMatches m) \/ v ∈ concat (suffixMatches m) \/ due regs v (u ++ [acCharset c]) c.
Proof.
  intros Ha Hfuel. destruct Ha as [Hn Hfull]. destruct (node_of _ _ Hn) as [nd Hnd]. unfold match_char. rewrite Hnd. cbn [mbind option_bind].
  pose proof (advance u _ _ nd _ (conj Hn Hfull) Hnd (acCharset_lt c)) as Ha. set (u' := u ++ [acCharset c]) in *.
  destruct Ha as [Hn' Hf']. destruct (node_of _ _ Hn') as [nd' Hnd']. rewrite Hnd'. cbn [mbind option_bind].
  destruct (path_of_node u' _ nd' fuel (substrMatches m) Hn' Hnd') as (ms & -> & Hms).
  { unfold u'. rewrite length_app. cbn. lia. }
  cbn [mbind option_bind]. destruct (values_at _ nd' _ Hnd' Hn') as [Hv Hz].
  assert (Hsub : forall v, (exists x, x `suffix_of` u' /\ (x, Substr, v) ∈ regs) <-> v ∈ concat ms \/ v ∈ sel Substr (lsuf words u') regs).
  { intros v. rewrite (subs_at u' _ nd' v Hn' Hnd'), Hms. done. }
  set (full' := fullMatch m && (edge nd !!! acCharset c)) in *.
  assert (Hdom : forall v, full' = false -> (u', Domain, v) ∉ regs).
  { intros v E Hx. apply reg_word in Hx. rewrite bool_decide_true in Hf' by done. congruence. }
  assert (Hlu : full' = true -> lsuf words u' = u').
  { intros E. rewrite E in Hf'. symmetry in Hf'. apply bool_decide_eq_true in Hf'. by apply lsuf_same. }
  assert (Hdue : forall v, v ∈ concat (suffixMatches m) \/ (c = dot /\ (u', Domain, v) ∈ regs) <->
    v ∈ concat (if full' && bool_decide (c = dot) then append_some (suffixMatches m) (sel Domain (lsuf words u') regs) else suffixMatches m)).
  { intros v. destruct full' eqn:Ef; cbn [andb].
    - destruct (bool_decide_reflect (c = dot)) as [Hc|Hc]; [|tauto].
      rewrite elem_of_append_some, elem_of_sel, (Hlu eq_refl). tauto.
    - specialize (Hdom v eq_refl). tauto. }
  destruct (decide (match_ nd' <> 0%nat)) as [Hm0|Hm0%dec_stable].
  - rewrite Hv. cbn [mbind option_bind v_domain v_substr]. eexists. split; [done|]. split; [done|].
    intros v. cbn [substrMatches suffixMatches]. unfold due. rewrite <- Hdue, elem_of_append_some, concat_app, elem_of_app, Hsub. tauto.
  - eexists. split; [done|]. split; [done|]. pose proof (proj1 Hz Hm0) as Hnone.
    intros v. cbn [substrMatches suffixMatches]. unfold due. rewrite concat_app, elem_of_app, Hsub, elem_of_sel.
    pose proof (Hnone Substr v). destruct full' eqn:Ef.
    + pose proof (Hnone Domain v) as Hd. rewrite (Hlu eq_refl) in Hd. tauto.
    + pose proof (Hdom v eq_refl). tauto.
Qed.

(** What is due from the word [u] on, apart from the end. *)
Fixpoint due_in (v : Z) (u : list nat) (cs : bytes) : Prop :=
  match cs with
  | [] => False
  | c :: cs => due regs v (u ++ [acCharset c]) c \/ due_in v (u ++ [acCharset c]) cs
  end.

Lemma hits_due v u cs :
  hits regs v u cs <-> due_in v u cs \/ (u ++ map acCharset cs, Domain, v) ∈ regs \/ (u ++ map acCharset cs, Full, v) ∈ regs.
Proof.
  revert u. induction cs as [|c cs IH]; intros u; cbn [hits due_in map]; [rewrite app_nil_r; tauto|].
  rewrite IH, <- app_assoc. cbn [app]. tauto.
Qed.

Lemma match_chars_spec fuel cs u m :
  at_word u (m_node m) (fullMatch m) -> (2 * (length u + length cs) <= fuel)%nat ->
  exists m', match_chars fuel ac cs m = Some m' /\ at_word (u ++ map acCharset cs) (m_node m') (fullMatch m') /\
    forall v, v ∈ concat (substrMatches m') \/ v ∈ concat (suffixMatches m') <->
      v ∈ concat (substrMatches m) \/ v ∈ concat (suffixMatches m) \/ due_in v u cs.
Proof.
  revert u m. induction cs as [|c cs IH]; intros u m Ha Hfuel; cbn [match_chars map due_in length] in *.
  { exists m. rewrite app_nil_r. split; [done|]. split; [done|]. intros v. tauto. }
  destruct (match_char_spec fuel u c m Ha) as (m1 & -> & Ha1 & H1); [lia|]. cbn [mbind option_bind].
  destruct (IH _ _ Ha1) as (m2 & -> & Ha2 & H2); [rewrite length_app; cbn; lia|]. exists m2. split; [done|].
  rewrite <- app_assoc in Ha2. split; [done|]. intros v. rewrite H2. specialize (H1 v). tauto.
Qed.

Lemma elem_of_Reverse v l : v ∈ CompositeMatchesReverse l <-> v ∈ concat l.
Proof.
  rewrite CompositeMatchesReverse_concat, !list_elem_of_In, !in_concat.
  setoid_rewrite <- list_elem_of_In. by setoid_rewrite elem_of_reverse.
Qed.

(** Match finds exactly what is due. *)
Lemma ac_Match_spec s :
  exists r, ac_Match ac s = Some r /\ forall v, v ∈ r <-> hits regs v [] (reverse s).
Proof.
  unfold ac_Match. assert (Ha0 : at_word [] 0 true).
  { split; [|by rewrite bool_decide_true by apply root_in]. rewrite lsuf_same by apply root_in. apply (bt_root _ _ _ Hb). }
  destruct (match_chars_spec (2 * length s) (reverse s) [] {| m_node := 0; fullMatch := true; suffixMatches := []; substrMatches := [] |})
    as (m & -> & [Hn Hfull] & Hm); [done|rewrite length_reverse; cbn; lia|]. cbn [mbind option_bind substrMatches suffixMatches concat] in *.
  destruct (node_of _ _ Hn) as [nd Hnd]. rewrite Hnd. cbn [mbind option_bind].
  destruct (values_at _ nd _ Hnd Hn) as [Hv Hz]. set (E := [] ++ map acCharset (reverse s)) in *.
  assert (Hend : exists suf, (if fullMatch m && negb (bool_decide (match_ nd = 0%nat)) then
        v ← values ac !! match_ nd; Some (append_some (append_some (suffixMatches m) (v_domain v)) (v_full v))
      else Some (suffixMatches m)) = Some suf /\
    forall v, v ∈ concat suf <-> v ∈ concat (suffixMatches m) \/ (E, Domain, v) ∈ regs \/ (E, Full, v) ∈ regs).
  { rewrite Hfull. destruct (bool_decide_reflect (E ∈ words)) as [HE|HE]; cbn [andb].
    - rewrite (lsuf_same words E HE) in *. destruct (bool_decide_reflect (match_ nd = 0%nat)) as [H0|H0]; cbn [negb].
      + eexists. split; [done|]. intros v. pose proof (proj1 Hz H0 Domain v). pose proof (proj1 Hz H0 Full v). tauto.
      + rewrite Hv. cbn [mbind option_bind v_domain v_full]. eexists. split; [done|]. intros v.
        rewrite !elem_of_append_some, !elem_of_sel. tauto.
    - eexists. split; [done|]. intros v. split; [tauto|]. intros [?|[Hx|Hx]]; [done|by apply reg_word in Hx..]. }
  destruct Hend as (suf & -> & Hsuf). cbn [mbind option_bind]. eexists. split; [done|]. intros v. rewrite hits_due.
  change ([] ++ map acCharset (reverse s)) with E. specialize (Hm v). specialize (Hsuf v).
  assert (Hin : v ∈ (if decide (substrMatches m = []) then CompositeMatchesReverse suf
      else CompositeMatchesReverse (substrMatches m ++ suf)) <-> v ∈ concat (substrMatches m) \/ v ∈ concat suf).
  { destruct (decide (substrMatches m = [])) as [Es|Es]; rewrite elem_of_Reverse; [|by rewrite concat_app, elem_of_app].
    rewrite Es. cbn. rewrite elem_of_nil. tauto. }
  rewrite Hin. rewrite !elem_of_nil in Hm. tauto.
Qed.

(** A node with a match entry has a registration. *)
Lemma some_reg u n nd : nodes ac !! n = Some nd -> words !! n = Some u -> match_ nd <> 0%nat -> exists t v, (u, t, v) ∈ regs.
Proof.
  intros Hnd Hn H0. destruct (decide (Exists (fun r : reg => r.1.1 = u) regs)) as [Hex|Hex].
  - apply Exists_exists in Hex as ([[w t] v] & Hr & E). cbn in E. subst w. by exists t, v.
  - exfalso. apply H0, (proj2 (values_at n nd u Hnd Hn)). intros t v Hx. apply Hex, Exists_exists. by exists (u, t, v).
Qed.

(** What [MatchAny] asks at a character: is anything due? *)
Definition due_here (c : byte) (full : bool) (nd : acNode) (w : list nat) : bool :=
  bool_decide (fail nd <> 0%nat) || (0 <? zlen (sel Substr w regs)) ||
  (full && bool_decide (c = dot) && (0 <? zlen (sel Domain w regs))).

Lemma zlen_pos {A} (l : list A) : (0 <? zlen l) = bool_decide (l <> []).
Proof. destruct l; [done|]. rewrite zlen_cons. pose proof (zlen_nonneg l). rewrite bool_decide_true by done. lia. Qed.

Lemma sel_some t w : sel t w regs <> [] <-> exists v, (w, t, v) ∈ regs.
Proof.
  split.
  - intros Hs. destruct (sel t w regs) as [|v l] eqn:E; [done|]. exists v. apply elem_of_sel. rewrite E. by left.
  - intros [v Hv%elem_of_sel] E. rewrite E in Hv. by apply elem_of_nil in Hv.
Qed.

Lemma due_here_spec u n full nd c :
  at_word u n full -> nodes ac !! n = Some nd ->
  due_here c full nd (lsuf words u) = true <-> exists v, due regs v u c.
Proof.
  intros [Hn Hfull] Hnd. unfold due_here. rewrite !zlen_pos, !orb_true_iff, !andb_true_iff, !bool_decide_eq_true, !sel_some.
  pose proof (bt_fail _ _ _ Hb n nd _ Hnd Hn) as Hz. unfold has_fail in Hz. rewrite (zero_word _ _ Hz).
  assert (Hsub : forall v, (exists x, x `suffix_of` u /\ (x, Substr, v) ∈ regs) <-> _) by (intros v; apply (subs_at u n nd v Hn Hnd)).
  setoid_rewrite elem_of_sel in Hsub. split.
  - intros [[Hne|[v Hv]]|[[-> ->] [v Hv]]].
    + destruct (lsub_or_nil regs Hnil (tail (lsuf words u))) as [?|Hs]; [done|]. destruct (sub_reg _ Hs) as [v Hv].
      exists v. left. apply Hsub. left. by eexists.
    + exists v. left. apply Hsub. by right.
    + exists v. right. split; [done|]. symmetry in Hfull. apply bool_decide_eq_true in Hfull. by rewrite (lsuf_same words u Hfull) in Hv.
  - intros (v & [Hx|[-> Hx]]).
    + apply Hsub in Hx as [(x & Hx & Hv)|Hv]; left; [left|right; by exists v].
      intros E. rewrite E in Hx. apply suffix_nil_inv in Hx as ->. by apply no_empty_sub in Hv.
    + right. pose proof (reg_word _ _ _ Hx) as Hu. rewrite (lsuf_same words u Hu). rewrite Hfull, bool_decide_true by done.
      split; [done|]. by exists v.
Qed.

Lemma any_chars_step cs c n full nd nd' w :
  nodes ac !! n = Some nd -> nodes ac !! (next nd !!! acCharset c) = Some nd' -> words !! (next nd !!! acCharset c) = Some w ->
  any_chars ac (c :: cs) n full =
    if due_here c (full && (edge nd !!! acCharset c)) nd' w then Some true
    else any_chars ac cs (next nd !!! acCharset c) (full && (edge nd !!! acCharset c)).
Proof.
  intros Hnd Hnd' Hw. destruct (values_at _ nd' w Hnd' Hw) as [Hv Hz]. unfold due_here. cbn [any_chars]. rewrite Hnd. cbn [mbind option_bind].
  rewrite Hnd'. cbn [mbind option_bind]. destruct (bool_decide_reflect (fail nd' <> 0%nat)) as [Hf|Hf];
    [by rewrite decide_True|rewrite decide_False by done]. cbn [orb].
  destruct (decide (match_ nd' <> 0%nat)) as [Hm|Hm%dec_stable].
  - rewrite Hv. cbn [mbind option_bind v_substr v_domain]. by destruct (0 <? zlen (sel Substr w regs)).
  - assert (Hs : forall t, sel t w regs = []).
    { intros t. destruct (decide (sel t w regs = [])) as [?|Hne]; [done|]. apply sel_some in Hne as [v Hx].
      by apply (proj1 Hz Hm) in Hx. }
    rewrite !Hs. cbn [zlen length]. change (0 <? zlen []) with false. by rewrite !andb_false_r.
Qed.

(** MatchAny stops at the first thing that is due. *)
Lemma any_chars_spec cs u n full :
  at_word u n full -> (forall v, (u, Substr, v) ∉ regs) ->
  exists b, any_chars ac cs n full = Some b /\ (b = true <-> exists v, hits regs v u cs).
Proof.
  revert u n full. induction cs as [|c cs IH]; intros u n full Ha Hno; pose proof Ha as [Hn Hfull];
    destruct (node_of _ _ Hn) as [nd Hnd]; cbn [hits].
  - cbn [any_chars]. rewrite Hnd. cbn [mbind option_bind].
    eexists. split; [done|]. destruct (values_at n nd _ Hnd Hn) as [_ Hz]. rewrite Hfull.
    destruct (bool_decide_reflect (u ∈ words)) as [Hu|Hu]; cbn [andb].
    + rewrite (lsuf_same words u Hu) in *. destruct (bool_decide_reflect (match_ nd = 0%nat)) as [H0|H0]; cbn [negb].
      * split; [done|]. intros (v & [Hx|Hx]); by apply (proj1 Hz H0) in Hx.
      * split; [|done]. intros _. destruct (some_reg u n nd Hnd Hn H0) as (t & v & Hx).
        pose proof (rg_in _ _ _ _ (bt_regs _ _ _ Hb)) as Hin. rewrite Forall_forall in Hin. destruct (Hin _ Hx) as [_ Ht].
        exists v. destruct t; [by right|by left|by apply Hno in Hx|done].
    + split; [done|]. by intros (v & [Hx|Hx]); apply reg_word in Hx.
  - pose proof (advance u _ _ nd _ Ha Hnd (acCharset_lt c)) as Ha'. set (u' := u ++ [acCharset c]) in *.
    pose proof Ha' as [Hn' _]. destruct (node_of _ _ Hn') as [nd' Hnd']. rewrite (any_chars_step cs c n full nd nd' _ Hnd Hnd' Hn').
    pose proof (due_here_spec u' _ _ nd' c Ha' Hnd') as Hdue. destruct (due_here c _ nd' _).
    + exists true. split; [done|]. split; [|done]. intros _. destruct (proj1 Hdue eq_refl) as [v Hv]. exists v. by left.
    + destruct (IH u' _ _ Ha') as (b & -> & Hbv).
      { intros v Hx. assert (false = true); [|done]. apply Hdue. exists v. left. by exists u'. }
      exists b. split; [done|]. rewrite Hbv. split; [intros [v Hv]; exists v; by right|]. intros (v & [Hv|Hv]); [|by exists v].
      assert (false = true); [|done]. apply Hdue. by exists v.
Qed.
End Matching.

(** ** The automaton and the matchers *)
Lemma acCharset_inj a b : ldh a = true -> ldh b = true -> acCharset a = acCharset b -> a = b.
Proof.
  intros Ha Hb E. apply b2z_inj.
  assert (Hz : forall c, ldh c = true -> (97 <= b2z c <= 122 /\ acCharset c = Z.to_nat (b2z c - 96)) \/
    (b2z c = 45 /\ acCharset c = 27%nat) \/ (b2z c = 46 /\ acCharset c = 28%nat) \/
    (48 <= b2z c <= 57 /\ acCharset c = Z.to_nat (b2z c - 19))).
  { intros c Hc. unfold ldh in Hc. rewrite !orb_true_iff, !bool_decide_eq_true in Hc. unfold acCharset, between in *.
    destruct Hc as [[[Hc|Hc]|Hc]|Hc].
    - left. split; [lia|]. replace (_ && _) with false by lia. by rewrite Hc.
    - right. right. right. split; [lia|]. tests; lia.
    - subst c. by right; left.
    - subst c. by right; right; left. }
  destruct (Hz a Ha) as [[]|[[]|[[]|[]]]], (Hz b Hb) as [[]|[[]|[[]|[]]]]; lia.
Qed.

Lemma charset_map_inj a b : is_domain a -> is_domain b -> map acCharset a = map acCharset b -> a = b.
Proof.
  intros Ha. revert b. induction Ha as [|x a Hx Ha IH]; intros [|y b] Hb E; [done..|]. apply Forall_cons in Hb as [Hy Hb].
  injection E as Exy E. f_equal; [by apply acCharset_inj|by apply IH].
Qed.

Lemma is_domain_reverse s : is_domain s -> is_domain (reverse s).
Proof. unfold is_domain. by rewrite Forall_reverse. Qed.

Lemma reverse_swap (s t : bytes) : reverse s = t -> s = reverse t.
Proof. intros <-. by rewrite reverse_involutive. Qed.

Section Matchers.
Context {R : Type} (MatchString : R -> bytes -> bool).
Implicit Types ms : list (Matcher R * Z).

Lemma elem_of_regs w t v ms :
  (w, t, v) ∈ flat_map regs_of ms <-> exists m, (m, v) ∈ ms /\
    match m with
    | FullMatcher p => t = Full /\ w = word_of p
    | DomainMatcher p => t = Domain /\ (w = word_of p \/ w = word_of p ++ word_of [dot])
    | SubstrMatcher p => t = Substr /\ w = word_of p
    | RegexMatcher _ => False
    end.
Proof.
  rewrite list_elem_of_In, in_flat_map. setoid_rewrite <- list_elem_of_In. split.
  - intros ([m v'] & Hin & Hr). unfold regs_of in Hr. cbn [fst snd] in Hr.
    destruct m; rewrite ?elem_of_cons, ?elem_of_nil in Hr; naive_solver.
  - intros (m & Hin & Hr). exists (m, v). split; [done|]. unfold regs_of. cbn [fst snd].
    destruct m; rewrite ?elem_of_cons, ?elem_of_nil; naive_solver.
Qed.

Lemma due_in_spec regs v u cs :
  due_in regs v u cs <-> exists p c q, cs = p ++ c :: q /\ due regs v (u ++ map acCharset (p ++ [c])) c.
Proof.
  revert u. induction cs as [|c cs IH]; intros u; cbn [due_in].
  - split; [done|]. by intros ([|] & c & q & ? & _).
  - rewrite IH. split.
    + intros [Hd|(p & d & q & -> & Hd)]; [by exists [], c, cs|]. exists (c :: p), d, q. split; [done|].
      cbn [app map]. by rewrite <- app_assoc in Hd.
    + intros ([|c' p] & d & q & E & Hd); injection E as <- ->; [by left|right]. exists p, d, q. split; [done|].
      cbn [app map] in Hd. by rewrite <- app_assoc.
Qed.

(** A keyword in the word of a string is a keyword in the string. *)
Lemma word_suffix k t : is_domain k -> is_domain t -> word_of k `suffix_of` map acCharset t -> reverse k `suffix_of` t.
Proof.
  intros Hk Ht [j Hj]. apply map_eq_app in Hj as (a & b & -> & <- & Hb). exists a. f_equal.
  apply charset_map_inj; [by apply Forall_app in Ht as [_ ?]|by apply is_domain_reverse|exact Hb].
Qed.

Lemma hits_match ms v s :
  Forall (fun e => ac_usable e.1) ms -> is_domain s -> hits (flat_map regs_of ms) v [] (reverse s) ->
  exists m, (m, v) ∈ ms /\ Match MatchString m s = true.
Proof.
  intros Hms Hs. rewrite Forall_forall in Hms. pose proof (is_domain_reverse s Hs) as Hr.
  rewrite hits_due, due_in_spec. cbn [app]. rewrite !elem_of_regs.
  intros [(p & c & q & E & [(x & Hx & Hv)|[-> Hv]])|[(m & Hin & Hm)|(m & Hin & Hm)]].
  - apply elem_of_regs in Hv as (m & Hin & Hm). destruct m as [k|k|k|]; try by destruct Hm. destruct Hm as [_ ->].
    exists (SubstrMatcher k). split; [done|]. destruct (Hms _ Hin) as [Hk _]. rewrite E in Hr. apply reverse_swap in E.
    rewrite (cons_middle c), app_assoc in Hr. apply Forall_app in Hr as [Hr _]. apply word_suffix in Hx as [j Hj]; [|done..].
    apply Contains_spec. exists (reverse q), (reverse j). rewrite E, (cons_middle c), app_assoc, Hj, !reverse_app, reverse_involutive.
    done.
  - apply elem_of_regs in Hv as (m & Hin & Hm). destruct m as [k|k|k|]; try by destruct Hm. destruct Hm as [_ Hm].
    exists (DomainMatcher k). split; [done|]. destruct (Hms _ Hin) as [Hk Hg]. rewrite E in Hr.
    rewrite (cons_middle dot), app_assoc in Hr. apply Forall_app in Hr as [Hr _]. apply is_domain_reverse in Hk as Hk'.
    apply domain_match_spec. destruct Hm as [Hm|Hm].
    + apply charset_map_inj in Hm; [|done..]. symmetry in Hm. apply reverse_swap in Hm. rewrite reverse_snoc in Hm. by rewrite Hm in Hg.
    + unfold word_of in Hm. rewrite <- map_app in Hm. apply charset_map_inj in Hm; [|done|].
      * change (reverse [dot]) with [dot] in Hm. apply app_inj_tail in Hm as [-> _]. right. exists (reverse q).
        apply reverse_swap in E. by rewrite E, (cons_middle dot), !reverse_app, reverse_involutive, <- app_assoc.
      * apply Forall_app. split; [done|]. by apply Forall_app in Hr as [_ ?].
  - destruct m as [k|k|k|]; try by destruct Hm. destruct Hm as [_ Hm]. destruct (Hms _ Hin) as [Hk Hg].
    apply is_domain_reverse in Hk as Hk'. exists (DomainMatcher k). split; [done|]. apply domain_match_spec. destruct Hm as [Hm|Hm].
    + left. apply charset_map_inj in Hm; [|done..]. apply (inj reverse) in Hm. done.
    + right. exists []. unfold word_of in Hm. rewrite <- map_app in Hm. apply charset_map_inj in Hm; [|done|].
      * apply reverse_swap in Hm. by rewrite reverse_app, !reverse_involutive in Hm.
      * apply Forall_app. split; [done|]. by repeat constructor.
  - destruct m as [k|k|k|]; try by destruct Hm. destruct Hm as [_ Hm]. pose proof (Hms _ Hin) as Hk.
    exists (FullMatcher k). split; [done|]. apply bool_decide_eq_true. apply charset_map_inj in Hm; [|done|by apply is_domain_reverse].
    by apply (inj reverse) in Hm.
Qed.

Lemma match_hits ms v m s :
  ac_usable m -> (m, v) ∈ ms -> Match MatchString m s = true -> hits (flat_map regs_of ms) v [] (reverse s).
Proof.
  intros Hu Hin Hm. rewrite hits_due, due_in_spec. cbn [app]. destruct m as [p|p|p|]; [| | |done].
  - right. right. apply elem_of_regs. exists (FullMatcher p). apply bool_decide_eq_true in Hm as <-. done.
  - apply domain_match_spec in Hm as [<-|[a ->]].
    + right. left. apply elem_of_regs. exists (DomainMatcher p). split; [done|]. split; [done|by left].
    + left. exists (reverse p), dot, (reverse a). rewrite reverse_app, reverse_cons, <- app_assoc. split; [done|]. right. split; [done|].
      apply elem_of_regs. exists (DomainMatcher p). split; [done|]. split; [done|]. right. by rewrite map_app.
  - apply Contains_spec in Hm as (a & b & ->). destruct Hu as [_ Hne]. left.
    assert (exists k c, reverse p = k ++ [c]) as (k & c & Hk).
    { destruct p as [|c p]; [done|]. exists (reverse p), c. by rewrite reverse_cons. }
    exists (reverse b ++ k), c, (reverse a). rewrite !reverse_app, Hk, <- !app_assoc. split; [done|]. left.
    exists (word_of p). split; [|apply elem_of_regs; by exists (SubstrMatcher p)].
    unfold word_of. rewrite Hk, !map_app. by exists (map acCharset (reverse b)).
Qed.

Lemma no_empty_keyword ms : Forall (fun e => ac_usable e.1) ms -> is_sub (flat_map regs_of ms) [] = false.
Proof.
  intros Hms. apply bool_decide_false. intros [v Hv]%sel_some. apply elem_of_regs in Hv as (m & Hin & Hm).
  rewrite Forall_forall in Hms. specialize (Hms _ Hin). destruct m as [p|p|p|]; try by destruct Hm. destruct Hm as [_ Hm], Hms as [_ Hne].
  apply Hne. unfold word_of in Hm. symmetry in Hm. apply map_eq_nil in Hm. by destruct p; [|rewrite reverse_cons in Hm; destruct (reverse p)].
Qed.

Lemma built_spec ms :
  Forall (fun e => ac_usable e.1) ms -> rooms ms + 2 < 2 ^ 32 ->
  exists words ac, built ms = Some ac /\ built_ok words (flat_map regs_of ms) ac.
Proof.
  intros Hms Hb. unfold built.
  destruct (Add_matchers_spec ms [[]] [] NewACAutomatonMatcherGroup New_ok) as (words & ac & -> & Hok & _);
    [change (zlen _) with 1; lia|change (zlen _) with 1; lia|]. cbn [mbind option_bind app] in *.
  destruct (Build_spec _ _ _ Hok (no_empty_keyword ms Hms)) as (ac' & -> & Hb'). by exists words, ac'.
Qed.

Lemma hits_iff ms v s :
  Forall (fun e => ac_usable e.1) ms -> is_domain s ->
  hits (flat_map regs_of ms) v [] (reverse s) <-> exists m, (m, v) ∈ ms /\ Match MatchString m s = true.
Proof.
  intros Hms Hs. split; [by apply hits_match|]. intros (m & Hin & Hm). apply (match_hits ms v m s); [|done..].
  rewrite Forall_forall in Hms. by apply (Hms (m, v)).
Qed.

Lemma ac_Match_holds words ac ms s :
  Forall (fun e => ac_usable e.1) ms -> built_ok words (flat_map regs_of ms) ac -> is_domain s ->
  exists r, ac_Match ac s = Some r /\ (forall v, v ∈ r <-> exists m, (m, v) ∈ ms /\ Match MatchString m s = true).
Proof.
  intros Hms Hok Hs. destruct (ac_Match_spec words _ ac Hok (no_empty_keyword ms Hms) s) as (r & Hr & Hv). exists r.
  split; [done|]. intros v. by rewrite Hv, hits_iff.
Qed.

Lemma ac_MatchAny_holds words ac ms s :
  Forall (fun e => ac_usable e.1) ms -> built_ok words (flat_map regs_of ms) ac -> is_domain s ->
  ac_MatchAny ac s = Some (existsb (fun e => Match MatchString e.1 s) ms).
Proof.
  intros Hms Hok Hs. pose proof (no_empty_keyword ms Hms) as Hnil. unfold ac_MatchAny.
  destruct (any_chars_spec words _ ac Hok Hnil (reverse s) [] 0 true) as (b & -> & Hbv).
  - split; [|by rewrite bool_decide_true by apply (root_in words _ ac Hok)].
    rewrite lsuf_same by apply (root_in words _ ac Hok). apply (bt_root _ _ _ Hok).
  - intros v Hx. by apply (no_empty_sub _ Hnil) in Hx.
  - f_equal. apply eq_bool_prop_intro. rewrite !Is_true_true, Hbv, existsb_elem_of. setoid_rewrite hits_iff; [|done..]. split.
    + intros (v & m & Hin & Hm). by exists (m, v).
    + intros ([m v] & Hin & Hm). by exists v, m.
Qed.

(** C25. The Aho-Corasick automaton answers exactly as asking every matcher in
    turn would: for full, domain and keyword matchers over the lower case
    letters, digits, hyphen and period (a domain pattern starts with a label, a
    keyword is not empty) that fit its 32-bit node numbers, adding them and
    Build succeed, and for every input over the same characters Match returns
    the values of the matchers that match and no others, and MatchAny says
    whether there is one. *)
Theorem ac_matches ms s (Hms : Forall (fun e => ac_usable e.1) ms) (Hb : rooms ms + 2 < 2 ^ 32) (Hs : is_domain s) :
  exists ac r, built ms = Some ac /\ ac_Match ac s = Some r /\
    (forall v, v ∈ r <-> exists m, (m, v) ∈ ms /\ Match MatchString m s = true) /\
    ac_MatchAny ac s = Some (existsb (fun e => Match MatchString e.1 s) ms).
Proof.
  destruct (built_spec ms Hms Hb) as (words & ac & Hac & Hok).
  destruct (ac_Match_holds words ac ms s Hms Hok Hs) as (r & Hr & Hv). exists ac, r.
  repeat (split; [done|]). by apply (ac_MatchAny_holds words).
Qed.
End Matchers.

(** ** Witness *)
Definition demo_ac : list (Matcher unit * Z) :=
  [(SubstrMatcher (lit "oo"), 1); (DomainMatcher (lit "com"), 2); (FullMatcher (lit "a.foo.com"), 3);
   (DomainMatcher (lit "foo.com"), 4); (SubstrMatcher (lit "o.c"), 5)].

Lemma ac_matches_witness :
  (ac ← built demo_ac; ac_Match ac (lit "a.foo.com")) = Some [3; 4; 2; 1; 5] /\
  exists ac, built demo_ac = Some ac /\ ac_MatchAny ac (lit "a.foo.com") = Some true.
Proof.
  split; [vm_compute; reflexivity|].
  destruct (ac_matches (fun _ _ => false) demo_ac (lit "a.foo.com")) as (ac & r & Hac & _ & _ & Hany).
  - repeat (apply Forall_cons_2; [vm_compute; repeat split; (discriminate || (repeat constructor))|]). apply Forall_nil_2.
  - vm_compute. reflexivity.
  - repeat (apply Forall_cons_2; [vm_compute; reflexivity|]). apply Forall_nil_2.
  - exists ac. split; [exact Hac|exact Hany].
Defined.

(** The loop over the failure path assigns both of its variables at once and so
    visits every node but the last twice. *)
Lemma keyword_reported_twice :
  (ac ← built (R := unit) [(SubstrMatcher (lit "a"), 1); (SubstrMatcher (lit "ab"), 2); (SubstrMatcher (lit "abc"), 3)];
   ac_Match ac (lit "abc")) = Some [3; 1; 2; 2].
Proof. vm_compute. reflexivity. Qed.
