(* ===== verification/StrMph.v ===== *)
(** * Package common/strmatcher: the perfect-hash group

    [Module StrMph] models matchergroup_mph.go: full and domain matchers in a
    minimal perfect hash table, looked up while a rolling hash runs over the
    input from its end.  The hash function of the Go run time ([strhash]) and
    the order [sort.Slice] gives equal elements are parameters; [spreads] is
    what the search for seeds needs of the hash function: on the patterns at hand
    the first [N] seeds are enough.  [None] is the panic
    of an index out of range, or no fuel: [mph_of_spec] shows that neither
    happens. *)
From S2P Require Import Prelude GoStd StrMatch StrAC.
Import StrMatch StrAC.

Module StrMph.

Definition PrimeRK : Z := 16777619.

Fixpoint roll (hash : Z) (cs : bytes) : Z :=
  match cs with
  | [] => hash
  | c :: cs => roll (u32 (hash * PrimeRK + b2z c)) cs
  end.

(** From the last character to the first. *)
Definition RollingHash (hash : Z) (input : bytes) : Z := roll hash (reverse input).

Record mphRuleInfo := mkInfo { rollingHash : Z; info_full : list Z; info_domain : list Z }.

(** [ruleInfos] is nil once the table is built. *)
Record MphMatcherGroup := mkMph {
  rules : list bytes;
  mph_values : list (list Z);
  level0 : list Z;
  level0Mask : Z;
  level1 : list Z;
  level1Mask : Z;
  ruleInfos : option (gmap bytes mphRuleInfo);
}.

Definition NewMphMatcherGroup : MphMatcherGroup :=
  {| rules := [[]]; mph_values := [[]]; level0 := []; level0Mask := 0; level1 := []; level1Mask := 0;
     ruleInfos := Some ∅ |}.

Definition add_info (t : Type_) (value : Z) (i : mphRuleInfo) : option mphRuleInfo :=
  match t with
  | Full => Some {| rollingHash := rollingHash i; info_full := info_full i ++ [value]; info_domain := info_domain i |}
  | Domain => Some {| rollingHash := rollingHash i; info_full := info_full i; info_domain := info_domain i ++ [value] |}
  | _ => None
  end.

Definition mph_addPattern (suffixHash : Z) (suffixPattern pattern : bytes) (t : Type_) (value : Z) (g : MphMatcherGroup)
    : option (MphMatcherGroup * Z) :=
  let fullPattern := pattern ++ suffixPattern in
  infos ← ruleInfos g;
  let '(info, rs, vs) :=
    match infos !! fullPattern with
    | Some info => (info, rules g, mph_values g)
    | None => ({| rollingHash := RollingHash suffixHash pattern; info_full := []; info_domain := [] |},
               rules g ++ [fullPattern], mph_values g ++ [[]])
    end in
  info ← add_info t value info;
  Some ({| rules := rs; mph_values := vs; level0 := level0 g; level0Mask := level0Mask g; level1 := level1 g;
           level1Mask := level1Mask g; ruleInfos := Some (<[fullPattern := info]> infos) |}, rollingHash info).

Definition mph_AddFullMatcher (p : bytes) (value : Z) (g : MphMatcherGroup) : option MphMatcherGroup :=
  fst <$> mph_addPattern 0 [] (ToLower p) Full value g.
Definition mph_AddDomainMatcher (p : bytes) (value : Z) (g : MphMatcherGroup) : option MphMatcherGroup :=
  let pattern := ToLower p in
  '(g, hash) ← mph_addPattern 0 [] pattern Domain value g;
  fst <$> mph_addPattern hash pattern [dot] Domain value g.

(** The power of two above [v]; [uint] has 64 bits. *)
Definition nextPow2 (v : Z) : Z :=
  if v <=? 1 then 1 else Z.shiftr (2 ^ 64 - 1) (64 - (Z.log2 v + 1)) + 1.

Section Mph.
Context (strhash : bytes -> Z -> Z) (sortSlice : (nat -> nat -> bool) -> list nat -> list nat).

Definition MemHash (seed : Z) (input : bytes) : Z := u32 (strhash input seed).

(** *** Build

    The buckets of the rules and the values of the rules. *)
Fixpoint fill_buckets (infos : gmap bytes mphRuleInfo) (mask : Z) (rs : list bytes) (ruleIdx : nat)
    (buckets : list (list nat)) (vs : list (list Z)) : option (list (list nat) * list (list Z)) :=
  match rs with
  | [] => Some (buckets, vs)
  | r :: rs =>
    let info := default {| rollingHash := 0; info_full := []; info_domain := [] |} (infos !! r) in
    let bucketIdx := Z.to_nat (Z.land (rollingHash info) mask) in
    _ ← buckets !! bucketIdx;
    _ ← vs !! ruleIdx;
    fill_buckets infos mask rs (S ruleIdx) (alter (fun b => b ++ [ruleIdx]) bucketIdx buckets)
      (<[ruleIdx := info_full info ++ info_domain info]> vs)
  end.

(** The tables while they are filled: the slots in use and the second level. *)
Record table := mkTable { occupied : list bool; slots : list Z }.

Definition slot (mask seed : Z) (r : bytes) : nat := Z.to_nat (Z.land (MemHash seed r) mask).

(** One seed for a bucket, up to the first collision: did all rules find a
    place, and the hashes given out. *)
Fixpoint place (rs : list bytes) (mask seed : Z) (bucket : list nat) (t : table) (hashed : list nat)
    : option (bool * table * list nat) :=
  match bucket with
  | [] => Some (true, t, hashed)
  | ruleIdx :: bucket =>
    r ← rs !! ruleIdx;
    let memHash := slot mask seed r in
    o ← occupied t !! memHash;
    if o : bool then
      Some (false,
        fold_left (fun t h => {| occupied := <[h := false]> (occupied t); slots := <[h := 0]> (slots t) |}) hashed t, [])
    else
      place rs mask seed bucket
        {| occupied := <[memHash := true]> (occupied t); slots := <[memHash := Z.of_nat ruleIdx]> (slots t) |} (hashed ++ [memHash])
  end.

(** Seeds are tried in turn; [fuel] bounds their number. *)
Fixpoint seek (fuel : nat) (rs : list bytes) (mask seed : Z) (bucket : list nat) (t : table) : option (table * Z) :=
  if decide (bucket = []) then Some (t, seed)
  else
    match fuel with
    | O => None
    | S f =>
      '(ok, t, _) ← place rs mask seed bucket t [];
      if ok : bool then Some (t, seed) else seek f rs mask (u32 (seed + 1)) bucket t
    end.

Fixpoint fill_levels (fuel : nat) (rs : list bytes) (mask : Z) (buckets : list (list nat)) (idxs : list nat) (t : table)
    (l0 : list Z) : option (table * list Z) :=
  match idxs with
  | [] => Some (t, l0)
  | i :: idxs =>
    bucket ← buckets !! i;
    '(t, seed) ← seek fuel rs mask 0 bucket t;
    fill_levels fuel rs mask buckets idxs t (<[i := seed]> l0)
  end.

Definition mph_Build (fuel : nat) (g : MphMatcherGroup) : option MphMatcherGroup :=
  infos ← ruleInfos g;
  let ruleCount := Z.of_nat (size infos) in
  let n0 := Z.to_nat (nextPow2 (ruleCount / 4)) in
  let mask0 := u32 (Z.of_nat n0 - 1) in
  let n1 := Z.to_nat (nextPow2 ruleCount) in
  let mask1 := u32 (Z.of_nat n1 - 1) in
  '(buckets, vs) ← fill_buckets infos mask0 (drop 1 (rules g)) 1 (replicate n0 []) (mph_values g);
  let larger i j := (length (default [] (buckets !! j)) <? length (default [] (buckets !! i)))%nat in
  '(t, l0) ← fill_levels fuel (rules g) mask1 buckets (sortSlice larger (seq 0 n0))
               {| occupied := replicate n1 false; slots := replicate n1 0 |} (replicate n0 0);
  Some {| rules := rules g; mph_values := vs; level0 := l0; level0Mask := mask0; level1 := slots t; level1Mask := mask1;
          ruleInfos := None |}.

(** *** Matching *)
Definition Lookup (g : MphMatcherGroup) (rolling : Z) (input : bytes) : option nat :=
  seed ← level0 g !! Z.to_nat (Z.land rolling (level0Mask g));
  n ← level1 g !! Z.to_nat (Z.land (MemHash seed input) (level1Mask g));
  r ← rules g !! Z.to_nat n;
  Some (if decide (r = input) then Z.to_nat n else 0%nat).

(** The loop over the input from its end: the characters still to be read, the
    suffix read so far, its hash. *)
Fixpoint mph_match_from (g : MphMatcherGroup) (cs suffix : bytes) (hash : Z) (matches : list (list Z))
    : option (list (list Z) * Z) :=
  match cs with
  | [] => Some (matches, hash)
  | c :: cs =>
    let hash := u32 (hash * PrimeRK + b2z c) in
    matches ← (if decide (c = dot) then
                 n ← Lookup g hash (c :: suffix);
                 if decide (n = 0%nat) then Some matches else v ← mph_values g !! n; Some (matches ++ [v])
               else Some matches);
    mph_match_from g cs (c :: suffix) hash matches
  end.

Definition mph_Match (g : MphMatcherGroup) (input : bytes) : option (list Z) :=
  '(matches, hash) ← mph_match_from g (reverse input) [] 0 [];
  n ← Lookup g hash input;
  matches ← (if decide (n = 0%nat) then Some matches else v ← mph_values g !! n; Some (matches ++ [v]));
  Some (CompositeMatchesReverse matches).

Fixpoint mph_any_from (g : MphMatcherGroup) (cs suffix : bytes) (hash : Z) : option bool :=
  match cs with
  | [] => n ← Lookup g hash suffix; Some (negb (bool_decide (n = 0%nat)))
  | c :: cs =>
    let hash := u32 (hash * PrimeRK + b2z c) in
    hit ← (if decide (c = dot) then n ← Lookup g hash (c :: suffix); Some (negb (bool_decide (n = 0%nat))) else Some false);
    if hit : bool then Some true else mph_any_from g cs (c :: suffix) hash
  end.

Definition mph_MatchAny (g : MphMatcherGroup) (input : bytes) : option bool := mph_any_from g (reverse input) [] 0.
End Mph.

(** ** What the group holds

    The values registered for a pattern, full matchers first. *)
Abbreviation rule := (bytes * Type_ * Z)%type.
Definition pick (t : Type_) (p : bytes) (added : list rule) : list Z :=
  omap (fun e => if decide (e.1 = (p, t)) then Some e.2 else None) added.

Definition rules_of {R} (e : Matcher R * Z) : list rule :=
  match e.1 with
  | FullMatcher p => [(ToLower p, Full, e.2)]
  | DomainMatcher p => [(ToLower p, Domain, e.2); (dot :: ToLower p, Domain, e.2)]
  | _ => []
  end.

Fixpoint mph_Add_matchers {R} (ms : list (Matcher R * Z)) (g : MphMatcherGroup) : option MphMatcherGroup :=
  match ms with
  | [] => Some g
  | (m, value) :: ms =>
    g ← match m with
        | FullMatcher p => mph_AddFullMatcher p value g
        | DomainMatcher p => mph_AddDomainMatcher p value g
        | _ => Some g
        end;
    mph_Add_matchers ms g
  end.

(** The patterns in the order they are first seen. *)
Definition see (seen : list bytes) (p : bytes) : list bytes := if decide (p ∈ seen) then seen else seen ++ [p].
Definition first_seen (l : list bytes) : list bytes := fold_left see l [].

(** The group before it is built: [rs] are its patterns. *)
Record adding (added : list rule) (rs : list bytes) (infos : gmap bytes mphRuleInfo) (g : MphMatcherGroup) : Prop := {
  ad_infos : ruleInfos g = Some infos;
  ad_rules : rules g = [] :: rs;
  ad_nodup : NoDup rs;
  ad_order : rs = first_seen (map (fun e => e.1.1) added);
  ad_values : length (mph_values g) = length (rules g);
  ad_in : forall p, p ∈ rs <-> is_Some (infos !! p);
  ad_info : forall p i, infos !! p = Some i ->
    rollingHash i = RollingHash 0 p /\ info_full i = pick Full p added /\ info_domain i = pick Domain p added;
  ad_added : Forall (fun e => e.1.1 ∈ rs) added;
  ad_size : (length rs <= length added)%nat;
  ad_some : forall p, p ∈ rs -> exists v, (p, Full, v) ∈ added \/ (p, Domain, v) ∈ added;
}.

(** The group once it is built. *)
Record mph_built (strhash : bytes -> Z -> Z) (added : list rule) (rs : list bytes) (g : MphMatcherGroup) : Prop := {
  mb_rules : rules g = [] :: rs;
  mb_values : forall n p, rs !! n = Some p -> mph_values g !! S n = Some (pick Full p added ++ pick Domain p added);
  mb_found : forall n p, rs !! n = Some p -> Lookup strhash g (RollingHash 0 p) p = Some (S n);
  mb_only : forall h s, exists n, Lookup strhash g h s = Some n /\ (n <> 0%nat -> rules g !! n = Some s);
  mb_added : Forall (fun e => e.1.1 ∈ rs) added;
  mb_some : forall p, p ∈ rs -> exists v, (p, Full, v) ∈ added \/ (p, Domain, v) ∈ added;
}.

(** The tables hold the placed rules [P], each with its slot. *)
Record filled (rs : list bytes) (n1 : nat) (P : list (nat * nat)) (t : table) : Prop := {
  fl_len : length (occupied t) = n1 /\ length (slots t) = n1;
  fl_occ : forall h, occupied t !! h = Some true <-> h ∈ map snd P;
  fl_slot : forall r h, (r, h) ∈ P -> slots t !! h = Some (Z.of_nat r);
  fl_nodup : NoDup (map snd P);
  fl_range : Forall (fun x => 0 <= x < zlen rs) (slots t);
}.

(** The rule indices of a bucket. *)
Fixpoint idxs_in (bk : bytes -> nat) (i : nat) (rs : list bytes) (ruleIdx : nat) : list nat :=
  match rs with
  | [] => []
  | r :: rs => (if decide (bk r = i) then [ruleIdx] else []) ++ idxs_in bk i rs (S ruleIdx)
  end.

(** The search for seeds without the tables: bucket by bucket, the first of [fuel] seeds
    that gives the keys of the bucket slots of their own, none of them taken. *)
Section Seeds.
Context (strhash : bytes -> Z -> Z) (mask : Z).

Fixpoint first_seed (fuel : nat) (seed : Z) (keys : list bytes) (taken : list nat) : option (list nat) :=
  match fuel with
  | O => None
  | S f =>
    let hs := map (slot strhash mask seed) keys in
    if decide (NoDup hs /\ Forall (fun h => h ∉ taken) hs) then Some hs else first_seed f (seed + 1) keys taken
  end.

Fixpoint seeds_found (fuel : nat) (buckets : list (list bytes)) (taken : list nat) : bool :=
  match buckets with
  | [] => true
  | keys :: buckets =>
    if decide (keys = []) then seeds_found fuel buckets taken
    else
      match first_seed fuel 0 keys taken with
      | Some hs => seeds_found fuel buckets (taken ++ hs)
      | None => false
      end
  end.
End Seeds.

Definition bucket_indices (n0 : nat) (rs : list bytes) : list (list nat) :=
  map (fun i => idxs_in (fun p => Z.to_nat (Z.land (RollingHash 0 p) (Z.of_nat n0 - 1))) i rs 1) (seq 0 n0).

(** On the patterns [rs] the first [N] seeds are enough: each bucket, larger ones first,
    finds one among them. *)
Definition spreads (strhash : bytes -> Z -> Z) (sortSlice : (nat -> nat -> bool) -> list nat -> list nat) (rs : list bytes) (N : Z) : Prop :=
  let n0 := Z.to_nat (nextPow2 (zlen rs / 4)) in
  let buckets := bucket_indices n0 rs in
  let larger i j := (length (default [] (buckets !! j)) <? length (default [] (buckets !! i)))%nat in
  seeds_found strhash (nextPow2 (zlen rs) - 1) (Z.to_nat N)
    (map (fun i => map (fun r => default [] (([] :: rs) !! r)) (default [] (buckets !! i))) (sortSlice larger (seq 0 n0))) [] = true.

(** The value [v] is registered for the pattern [x]. *)
Definition holds (added : list rule) (x : bytes) (v : Z) : Prop := (x, Full, v) ∈ added \/ (x, Domain, v) ∈ added.

(** What the loop finds from the suffix [x] on. *)
Fixpoint dots_hold (added : list rule) (v : Z) (x cs : bytes) : Prop :=
  match cs with
  | [] => False
  | c :: cs => (c = dot /\ holds added (c :: x) v) \/ dots_hold added v (c :: x) cs
  end.

(** The matchers the table is made for: patterns in lower case, none of which
    starts with a period. *)
Definition mph_usable {R} (m : Matcher R) : Prop :=
  match m with
  | FullMatcher p => ToLower p = p /\ match p with c :: _ => c <> dot | [] => True end
  | DomainMatcher p => ToLower p = p /\ good_domain p
  | _ => False
  end.

Definition patterns {R} (ms : list (Matcher R * Z)) : list bytes :=
  first_seen (map (fun e => e.1.1) (flat_map rules_of ms)).

(** A group with its matchers added in order, then built. *)
Definition mph_of {R} (strhash : bytes -> Z -> Z) (sortSlice : (nat -> nat -> bool) -> list nat -> list nat) (fuel : nat)
    (ms : list (Matcher R * Z)) : option MphMatcherGroup :=
  g ← mph_Add_matchers ms NewMphMatcherGroup; mph_Build strhash sortSlice fuel g.
End StrMph.
Import StrMph.

Lemma roll_app h a b : roll h (a ++ b) = roll (roll h a) b.
Proof. revert h. induction a as [|c a IH]; intros h; [done|]. cbn [app roll]. apply IH. Qed.

Lemma RollingHash_app p x : RollingHash (RollingHash 0 x) p = RollingHash 0 (p ++ x).
Proof. unfold RollingHash. by rewrite reverse_app, roll_app. Qed.

Lemma pick_app t p a b : pick t p (a ++ b) = pick t p a ++ pick t p b.
Proof. apply omap_app. Qed.

Lemma pick_one t p t' p' v : pick t p [(p', t', v)] = if decide (p' = p /\ t' = t) then [v] else [].
Proof.
  unfold pick. cbn [omap list_omap fst snd]. destruct (decide ((p', t') = (p, t))) as [E|E].
  - injection E as -> ->. by rewrite decide_True.
  - rewrite decide_False; [done|]. by intros [-> ->].
Qed.

Lemma pick_same t p v : pick t p [(p, t, v)] = [v].
Proof. by rewrite pick_one, decide_True. Qed.

Lemma pick_kind t t' p p' v : t' <> t -> pick t p [(p', t', v)] = [].
Proof. intros Ht. rewrite pick_one, decide_False; [done|]. by intros [_ ?]. Qed.

Lemma elem_of_pick v t p added : v ∈ pick t p added <-> (p, t, v) ∈ added.
Proof.
  unfold pick. rewrite list_elem_of_omap. split.
  - intros ([[p' t'] v'] & Hr & E). cbn [fst snd] in E. case_decide as Ex; [|done]. injection E as ->. by injection Ex as -> ->.
  - intros Hr. exists (p, t, v). split; [done|]. cbn. by rewrite decide_True.
Qed.

Lemma pick_absent t p added (rs : list bytes) : Forall (fun e : rule => e.1.1 ∈ rs) added -> p ∉ rs -> pick t p added = [].
Proof.
  intros Ha Hp. apply omap_none. intros e He. rewrite Forall_forall in Ha. rewrite decide_False; [done|].
  intros E. apply Hp. specialize (Ha e He). by rewrite E in Ha.
Qed.

Lemma adding_new : adding [] [] ∅ NewMphMatcherGroup.
Proof.
  split; [done|done|constructor|done|done| | |constructor|done|].
  - intros p. rewrite lookup_empty. split; [by intros ?%elem_of_nil|by intros [? ?]].
  - intros p i. by rewrite lookup_empty.
  - by intros p ?%elem_of_nil.
Qed.

(** One pattern more: it is in the table, and its information is extended. *)
Lemma addPattern_adding added rs infos g x p t v :
  adding added rs infos g -> t = Full \/ t = Domain ->
  exists rs' infos' g', mph_addPattern (RollingHash 0 x) x p t v g = Some (g', RollingHash 0 (p ++ x)) /\
    adding (added ++ [(p ++ x, t, v)]) rs' infos' g'.
Proof.
  intros [Hi Hr Hnd Hord Hv Hin Hinfo Hadd Hsz Hsome] Ht. unfold mph_addPattern. rewrite Hi. cbn [mbind option_bind]. set (fp := p ++ x) in *.
  assert (Hsee : first_seen (map (fun e => e.1.1) (added ++ [(fp, t, v)])) = see rs fp).
  { unfold first_seen. rewrite map_app, fold_left_app. cbn [map fst fold_left]. fold (first_seen (map (fun e => e.1.1) added)). by rewrite <- Hord. }
  assert (Hseen : fp ∈ rs -> rs = first_seen (map (fun e => e.1.1) (added ++ [(fp, t, v)]))) by (intros ?; rewrite Hsee; unfold see; by rewrite decide_True).
  assert (Hunseen : fp ∉ rs -> rs ++ [fp] = first_seen (map (fun e => e.1.1) (added ++ [(fp, t, v)]))) by (intros ?; rewrite Hsee; unfold see; by rewrite decide_False).
  assert (Hnew : exists w, (fp, Full, w) ∈ added ++ [(fp, t, v)] \/ (fp, Domain, w) ∈ added ++ [(fp, t, v)]).
  { exists v. destruct Ht as [->| ->]; [left|right]; apply elem_of_app; right; by left. }
  assert (Hold : forall q, q ∈ rs -> exists w, (q, Full, w) ∈ added ++ [(fp, t, v)] \/ (q, Domain, w) ∈ added ++ [(fp, t, v)]).
  { intros q Hq. destruct (Hsome q Hq) as [w Hw]. exists w. rewrite !elem_of_app. tauto. }
  assert (Hother : forall t' q, q <> fp -> pick t' q (added ++ [(fp, t, v)]) = pick t' q added).
  { intros t' q Hq. rewrite pick_app, pick_one, decide_False by (intros [? _]; done). by rewrite app_nil_r. }
  assert (Hinfo' : forall i0, rollingHash i0 = RollingHash 0 fp -> info_full i0 = pick Full fp added ->
    info_domain i0 = pick Domain fp added -> exists i1, add_info t v i0 = Some i1 /\ rollingHash i1 = RollingHash 0 fp /\
      info_full i1 = pick Full fp (added ++ [(fp, t, v)]) /\ info_domain i1 = pick Domain fp (added ++ [(fp, t, v)])).
  { intros i0 E1 E2 E3. rewrite !pick_app. destruct Ht as [->| ->]; eexists; (split; [done|]); cbn [rollingHash info_full info_domain].
    - rewrite pick_same, (pick_kind Domain Full) by done. by rewrite E1, E2, E3, app_nil_r.
    - rewrite pick_same, (pick_kind Full Domain) by done. by rewrite E1, E2, E3, app_nil_r. }
  destruct (infos !! fp) as [i|] eqn:Ei.
  - destruct (Hinfo fp i Ei) as (E1 & E2 & E3). destruct (Hinfo' i E1 E2 E3) as (i1 & -> & F1 & F2 & F3). cbn [mbind option_bind].
    exists rs, (<[fp := i1]> infos). eexists. split; [by rewrite F1|]. split; [done|done|done|by apply Hseen; apply Hin; eexists|done| | | | |exact Hold].
    + intros q. rewrite lookup_insert_is_Some, Hin. split; [|naive_solver]. intros Hq. destruct (decide (fp = q)); [by left|by right].
    + intros q j. destruct (decide (fp = q)) as [<-|Hne]; [rewrite lookup_insert_eq; by intros [= <-]|].
      rewrite lookup_insert_ne, !Hother by done. apply Hinfo.
    + apply Forall_app. split; [done|]. constructor; [|done]. apply Hin. by eexists.
    + rewrite length_app. lia.
  - assert (Hfp : fp ∉ rs) by (rewrite Hin, Ei; by intros [? ?]).
    destruct (Hinfo' {| rollingHash := RollingHash (RollingHash 0 x) p; info_full := []; info_domain := [] |}) as (i1 & -> & F1 & F2 & F3);
      [apply RollingHash_app|symmetry; by eapply pick_absent|symmetry; by eapply pick_absent|]. cbn [mbind option_bind].
    exists (rs ++ [fp]), (<[fp := i1]> infos). eexists. split; [by rewrite F1|]. split; cbn [ruleInfos rules mph_values].
    + done.
    + by rewrite Hr.
    + apply NoDup_app. split; [done|]. split; [|apply NoDup_singleton]. by intros y Hy ->%list_elem_of_singleton.
    + by apply Hunseen.
    + rewrite !length_app. cbn. lia.
    + intros q. rewrite lookup_insert_is_Some, elem_of_app, list_elem_of_singleton, Hin. split; [|naive_solver].
      intros [Hq| ->]; [|by left]. destruct (decide (fp = q)); [by left|by right].
    + intros q j. destruct (decide (fp = q)) as [<-|Hne]; [rewrite lookup_insert_eq; by intros [= <-]|].
      rewrite lookup_insert_ne, !Hother by done. apply Hinfo.
    + apply Forall_app. split; [|constructor; [|done]]; [|apply elem_of_app; right; by left].
      eapply Forall_impl; [exact Hadd|]. intros e He. apply elem_of_app. by left.
    + rewrite !length_app. cbn. lia.
    + intros q [Hq| ->%list_elem_of_singleton]%elem_of_app; [by apply Hold|done].
Qed.

Lemma mph_Add_matchers_spec {R} (ms : list (Matcher R * Z)) added rs infos g :
  adding added rs infos g ->
  exists rs' infos' g', mph_Add_matchers ms g = Some g' /\ adding (added ++ flat_map rules_of ms) rs' infos' g'.
Proof.
  revert added rs infos g. induction ms as [|[m v] ms IH]; intros added rs infos g Hg; cbn [mph_Add_matchers flat_map].
  { exists rs, infos, g. by rewrite app_nil_r. }
  assert (Hone : exists rs1 infos1 g1, (match m with
      | FullMatcher p => mph_AddFullMatcher p v g
      | DomainMatcher p => mph_AddDomainMatcher p v g
      | _ => Some g
      end) = Some g1 /\ adding (added ++ rules_of (m, v)) rs1 infos1 g1).
  { unfold rules_of. cbn [fst snd]. destruct m as [p|p|p|r]; [| |by exists rs, infos, g; rewrite app_nil_r..].
    - destruct (addPattern_adding added rs infos g [] (ToLower p) Full v Hg) as (rs1 & in1 & g1 & E & H1); [by left|].
      exists rs1, in1, g1. unfold mph_AddFullMatcher. change 0 with (RollingHash 0 []). rewrite E. rewrite app_nil_r in H1. done.
    - destruct (addPattern_adding added rs infos g [] (ToLower p) Domain v Hg) as (rs1 & in1 & g1 & E & H1); [by right|].
      rewrite app_nil_r in E, H1.
      destruct (addPattern_adding _ rs1 in1 g1 (ToLower p) [dot] Domain v H1) as (rs2 & in2 & g2 & E2 & H2); [by right|].
      exists rs2, in2, g2. unfold mph_AddDomainMatcher. change (RollingHash 0 []) with 0 in E. rewrite E. cbn [mbind option_bind].
      rewrite E2. rewrite <- app_assoc in H2. done. }
  destruct Hone as (rs1 & in1 & g1 & -> & H1). cbn [mbind option_bind].
  destruct (IH _ _ _ _ H1) as (rs2 & in2 & g2 & -> & H2). exists rs2, in2, g2. rewrite <- app_assoc in H2. done.
Qed.

(** ** Powers of two *)
Lemma nextPow2_spec v : 0 <= v < 2 ^ 31 -> exists k, 0 <= k <= 31 /\ nextPow2 v = 2 ^ k /\ v <= 2 ^ k.
Proof.
  intros Hv. unfold nextPow2. destruct (v <=? 1) eqn:E; [exists 0; split; [lia|]; split; [done|lia]|].
  pose proof (Z.log2_spec v ltac:(lia)) as [H1 H2].
  assert (Hk : Z.log2 v < 31) by (apply Z.log2_lt_pow2; lia). pose proof (Z.log2_nonneg v).
  exists (Z.log2 v + 1). split; [lia|]. replace (Z.succ (Z.log2 v)) with (Z.log2 v + 1) in H2 by lia. split; [|lia].
  rewrite Z.shiftr_div_pow2 by lia. set (m := Z.log2 v + 1) in *.
  replace (2 ^ 64 - 1) with ((2 ^ m - 1) * 2 ^ (64 - m) + (2 ^ (64 - m) - 1)).
  - assert (0 < 2 ^ (64 - m)) by (apply Z.pow_pos_nonneg; lia). rewrite Z.div_add_l, Z.div_small by lia. lia.
  - rewrite Z.mul_sub_distr_r, <- Z.pow_add_r by lia. replace (m + (64 - m)) with 64 by lia. lia.
Qed.

Lemma mask_range h k : 0 <= k -> 0 <= Z.land h (2 ^ k - 1) < 2 ^ k.
Proof.
  intros Hk. replace (2 ^ k - 1) with (Z.ones k) by (rewrite Z.ones_equiv; lia). rewrite Z.land_ones by done.
  apply Z.mod_pos_bound, Z.pow_pos_nonneg; lia.
Qed.

(** ** The buckets *)
Lemma elem_of_idxs bk i rs r0 j :
  j ∈ idxs_in bk i rs r0 <-> exists m p, rs !! m = Some p /\ j = (r0 + m)%nat /\ bk p = i.
Proof.
  revert r0. induction rs as [|r rs IH]; intros r0; cbn [idxs_in].
  - rewrite elem_of_nil. split; [done|]. by intros (m & p & ? & _).
  - rewrite elem_of_app, IH. split.
    + intros [Hj|(m & p & Hm & -> & Hp)]; [|exists (S m), p; split; [done|split; [lia|done]]].
      case_decide as Hb; [|by apply elem_of_nil in Hj]. apply list_elem_of_singleton in Hj as ->.
      exists 0%nat, r. split; [done|]. split; [lia|done].
    + intros ([|m] & p & Hm & -> & Hp).
      * left. injection Hm as ->. rewrite decide_True by done. apply list_elem_of_singleton. lia.
      * right. exists m, p. split; [done|]. split; [lia|done].
Qed.

Lemma idxs_in_ext bk bk' i rs r0 : (forall p, p ∈ rs -> bk p = bk' p) -> idxs_in bk i rs r0 = idxs_in bk' i rs r0.
Proof.
  revert r0. induction rs as [|r rs IH]; intros r0 Hp; cbn [idxs_in]; [done|]. rewrite (Hp r) by by left. f_equal. apply IH. intros p Hq. apply Hp. by right.
Qed.

Lemma fill_buckets_spec infos mask k rs r0 buckets vs :
  0 <= k -> mask = 2 ^ k - 1 -> Z.of_nat (length buckets) = 2 ^ k -> (r0 + length rs <= length vs)%nat ->
  let info p := default {| rollingHash := 0; info_full := []; info_domain := [] |} (infos !! p) in
  let bk p := Z.to_nat (Z.land (rollingHash (info p)) mask) in
  exists buckets' vs', fill_buckets infos mask rs r0 buckets vs = Some (buckets', vs') /\
    (forall i, buckets' !! i = (fun b => b ++ idxs_in bk i rs r0) <$> buckets !! i) /\
    (forall j, (j < r0)%nat -> vs' !! j = vs !! j) /\
    (forall m p, rs !! m = Some p -> vs' !! (r0 + m)%nat = Some (info_full (info p) ++ info_domain (info p))).
Proof.
  intros Hk -> Hlen Hvs info bk. revert r0 buckets vs Hlen Hvs. induction rs as [|r rs IH]; intros r0 buckets vs Hlen Hvs; cbn [fill_buckets].
  - exists buckets, vs. split; [done|]. split; [|done]. intros i. cbn [idxs_in]. destruct (buckets !! i); [|done]. cbn. by rewrite app_nil_r.
  - fold (info r). fold (bk r). cbn [length] in Hvs.
    assert (Hbk : (bk r < length buckets)%nat) by (unfold bk; pose proof (mask_range (rollingHash (info r)) k Hk); lia).
    destruct (lookup_lt_is_Some_2 buckets (bk r) Hbk) as [b Hb]. destruct (lookup_lt_is_Some_2 vs r0) as [v Hv]; [lia|].
    rewrite Hb, Hv. cbn [mbind option_bind].
    destruct (IH (S r0) (alter (fun b => b ++ [r0]) (bk r) buckets) (<[r0 := info_full (info r) ++ info_domain (info r)]> vs))
      as (b' & vs' & -> & H1 & H2 & H3); [by rewrite length_alter|rewrite length_insert; lia|].
    exists b', vs'. split; [done|]. split; [|split].
    + intros i. rewrite H1. cbn [idxs_in]. destruct (decide (bk r = i)) as [<-|Hne].
      * rewrite list_lookup_alter_eq, Hb. cbn. by rewrite <- app_assoc.
      * by rewrite list_lookup_alter_ne.
    + intros j Hj. rewrite H2 by lia. by rewrite list_lookup_insert_ne by lia.
    + intros [|m] p Hp; cbn [lookup list_lookup] in Hp.
      * injection Hp as ->. rewrite H2 by lia. rewrite Nat.add_0_r. apply list_lookup_insert_eq. lia.
      * rewrite <- (H3 m p Hp). f_equal. lia.
Qed.

(** ** The placement *)
Section Placement.
Context (strhash : bytes -> Z -> Z) (rs : list bytes) (n1 : nat) (k1 : Z).
Context (Hk1 : 0 <= k1) (Hn1 : Z.of_nat n1 = 2 ^ k1).

Let slot_of (seed : Z) (r : nat) : nat := slot strhash (Z.of_nat n1 - 1) seed (default [] (rs !! r)).
Let valid (r : nat) : Prop := (r < length rs)%nat.

Lemma slot_lt seed p : (slot strhash (Z.of_nat n1 - 1) seed p < n1)%nat.
Proof. unfold slot. rewrite Hn1. pose proof (mask_range (MemHash strhash seed p) k1 Hk1). lia. Qed.

Lemma filled_insert P t r h :
  filled rs n1 P t -> valid r -> occupied t !! h = Some false ->
  filled rs n1 (P ++ [(r, h)]) {| occupied := <[h := true]> (occupied t); slots := <[h := Z.of_nat r]> (slots t) |}.
Proof.
  intros [[Hl1 Hl2] Hocc Hsl Hnd Hr] Hv Hh. assert (Hlt : (h < n1)%nat) by (rewrite <- Hl1; by eapply lookup_lt_Some).
  assert (Hnew : h ∉ map snd P) by (intros Hx%Hocc; congruence).
  split; cbn [occupied slots].
  - by rewrite !length_insert.
  - intros x. rewrite map_app. cbn [map snd]. rewrite elem_of_app, list_elem_of_singleton, <- Hocc. destruct (decide (x = h)) as [->|Hne].
    + rewrite list_lookup_insert_eq by lia. naive_solver.
    + rewrite list_lookup_insert_ne by done. naive_solver.
  - intros x y [Hx|[= -> ->]%list_elem_of_singleton]%elem_of_app; [|apply list_lookup_insert_eq; lia].
    rewrite list_lookup_insert_ne; [by apply Hsl|]. intros <-. apply Hnew, list_elem_of_fmap. by exists (x, h).
  - rewrite map_app. cbn [map snd]. apply NoDup_app. split; [done|]. split; [|apply NoDup_singleton]. by intros x Hx ->%list_elem_of_singleton.
  - apply Forall_insert; [done|]. unfold valid, zlen in *. lia.
Qed.

Lemma filled_reset P Q r h t :
  filled rs n1 (P ++ (r, h) :: Q) t ->
  filled rs n1 (P ++ Q) {| occupied := <[h := false]> (occupied t); slots := <[h := 0]> (slots t) |}.
Proof.
  intros [[Hl1 Hl2] Hocc Hsl Hnd Hr]. rewrite map_app in Hnd. cbn [map snd] in Hnd.
  assert (Hh : occupied t !! h = Some true) by (apply Hocc; rewrite map_app, elem_of_app; right; by left).
  assert (Hlt : (h < n1)%nat) by (rewrite <- Hl1; by eapply lookup_lt_Some).
  apply NoDup_app in Hnd as (Hp & Hpq & Hq). apply NoDup_cons in Hq as [Hhq Hq].
  assert (Hhn : h ∉ map snd (P ++ Q)).
  { rewrite map_app, elem_of_app. intros [Hx|Hx]; [|done]. by apply (Hpq h Hx); left. }
  assert (Hval : 0 <= 0 < zlen rs).
  { assert (Hx : exists x, slots t !! h = Some x) by (apply lookup_lt_is_Some; lia). destruct Hx as [x Hx].
    rewrite Forall_forall in Hr. specialize (Hr x ltac:(by eapply list_elem_of_lookup_2)). lia. }
  split; cbn [occupied slots].
  - by rewrite !length_insert.
  - intros x. destruct (decide (x = h)) as [->|Hne].
    + rewrite list_lookup_insert_eq by lia. naive_solver.
    + rewrite list_lookup_insert_ne, Hocc by done. rewrite !map_app, !elem_of_app. cbn [map snd]. rewrite elem_of_cons. naive_solver.
  - intros x y Hxy. rewrite list_lookup_insert_ne.
    + apply Hsl. apply elem_of_app in Hxy as [?|?]; apply elem_of_app; [by left|right; by right].
    + intros <-. apply Hhn, list_elem_of_fmap. by exists (x, h).
  - rewrite map_app. apply NoDup_app. split; [done|]. split; [|done]. intros x Hx Hx'. by apply (Hpq x Hx); right.
  - by apply Forall_insert.
Qed.

Lemma filled_revert P Q t :
  filled rs n1 (P ++ Q) t ->
  filled rs n1 P (fold_left (fun t h => {| occupied := <[h := false]> (occupied t); slots := <[h := 0]> (slots t) |}) (map snd Q) t).
Proof.
  revert t. induction Q as [|[r h] Q IH]; intros t Ht; cbn [map fold_left snd].
  - by rewrite app_nil_r in Ht.
  - apply IH. by eapply filled_reset.
Qed.

(** One seed: all rules of the bucket are placed, or the tables are as before. *)
Lemma place_spec seed bucket P Q t :
  filled rs n1 (P ++ Q) t -> Forall valid bucket ->
  exists ok t' hs, place strhash rs (Z.of_nat n1 - 1) seed bucket t (map snd Q) = Some (ok, t', hs) /\
    (ok = false -> filled rs n1 P t') /\
    (ok = true -> filled rs n1 (P ++ Q ++ map (fun r => (r, slot_of seed r)) bucket) t') /\
    (NoDup (map (slot_of seed) bucket) -> Forall (fun h => h ∉ map snd (P ++ Q)) (map (slot_of seed) bucket) -> ok = true).
Proof.
  intros Ht Hv. revert Q t Ht. induction Hv as [|r bucket Hr Hv IH]; intros Q t Ht; cbn [place].
  { exists true, t, (map snd Q). split; [done|]. split; [done|]. split; [|done]. cbn. by rewrite app_nil_r. }
  destruct (lookup_lt_is_Some_2 rs r Hr) as [p Hp]. rewrite Hp. cbn [mbind option_bind].
  assert (Hs : slot strhash (Z.of_nat n1 - 1) seed p = slot_of seed r) by (unfold slot_of; by rewrite Hp).
  rewrite Hs. destruct (lookup_lt_is_Some_2 (occupied t) (slot_of seed r)) as [o Ho].
  { rewrite (proj1 (fl_len _ _ _ _ Ht)). apply slot_lt. }
  rewrite Ho. cbn [mbind option_bind]. destruct o.
  - do 3 eexists. split; [done|]. split; [intros _; by apply filled_revert|]. split; [done|]. intros _ Hfree.
    apply Forall_cons in Hfree as [Hfree _]. by apply (fl_occ _ _ _ _ Ht) in Ho.
  - pose proof (filled_insert _ t r _ Ht Hr Ho) as Ht1. rewrite <- app_assoc in Ht1.
    destruct (IH (Q ++ [(r, slot_of seed r)]) _ Ht1) as (ok & t' & hs & E & H1 & H2 & H3). rewrite map_app in E. cbn [map snd] in E.
    exists ok, t', hs. split; [done|]. split; [done|]. split.
    + intros Hok. specialize (H2 Hok). rewrite <- app_assoc in H2. done.
    + cbn [map]. intros [Hn Hnd]%NoDup_cons [Hf Hfree]%Forall_cons. apply H3; [done|]. apply Forall_forall. intros h Hh.
      rewrite Forall_forall in Hfree. specialize (Hfree h Hh). rewrite !map_app in *. cbn [map snd].
      rewrite !elem_of_app, list_elem_of_singleton in *. intros [?|[?| ->]]; [tauto|tauto|done].
Qed.

Lemma seek_spec fuel seed bucket P t hs :
  filled rs n1 P t -> Forall valid bucket -> 0 <= seed -> seed + Z.of_nat fuel <= 2 ^ 32 -> bucket <> [] ->
  first_seed strhash (Z.of_nat n1 - 1) fuel seed (map (fun r => default [] (rs !! r)) bucket) (map snd P) = Some hs ->
  exists t' s, seek strhash fuel rs (Z.of_nat n1 - 1) seed bucket t = Some (t', s) /\ hs = map (slot_of s) bucket /\
    filled rs n1 (P ++ map (fun r => (r, slot_of s r)) bucket) t'.
Proof.
  intros Ht Hv. revert seed t Ht. induction fuel as [|f IH]; intros seed t Ht H0 Hb Hne; cbn [first_seed]; [done|]. rewrite map_map.
  change (map (fun r => slot strhash (Z.of_nat n1 - 1) seed (default [] (rs !! r))) bucket) with (map (slot_of seed) bucket). intros Efirst. cbn [seek].
  rewrite decide_False by done. pose proof Ht as Ht0. rewrite <- (app_nil_r P) in Ht0.
  destruct (place_spec seed bucket P [] t Ht0 Hv) as (ok & t' & hs' & E & H1 & H2 & H3). cbn [map] in E. rewrite E. cbn [mbind option_bind].
  destruct ok.
  - specialize (H2 eq_refl). exists t', seed. split; [done|]. split; [|exact H2]. pose proof (fl_nodup _ _ _ _ H2) as Hnd.
    cbn [app] in Hnd. rewrite map_app, map_map in Hnd. cbn [snd] in Hnd. change (map (fun r => slot_of seed r) bucket) with (map (slot_of seed) bucket) in Hnd.
    apply NoDup_app in Hnd as (_ & Hdis & Hnd). rewrite decide_True in Efirst; [by injection Efirst as <-|]. split; [exact Hnd|].
    apply Forall_forall. intros h Hh Hp. by apply (Hdis h Hp).
  - rewrite decide_False in Efirst.
    + assert (f <> 0%nat) by (by intros ->). rewrite u32_small by lia. apply (IH (seed + 1) t' (H1 eq_refl)); [lia|lia|done|]. exact Efirst.
    + intros [Hnd Hfree]. rewrite app_nil_r in H3. by specialize (H3 Hnd Hfree).
Qed.
End Placement.

(** ** The levels *)
Section Levels.
Context (strhash : bytes -> Z -> Z) (prs : list bytes) (n1 : nat) (k1 N : Z).
Context (Hk1 : 0 <= k1) (Hn1 : Z.of_nat n1 = 2 ^ k1) (HN : N <= 2 ^ 32).

Let rs : list bytes := [] :: prs.
Let key (r : nat) : bytes := default [] (rs !! r).
Let slot_at (seed : Z) (r : nat) : nat := slot strhash (Z.of_nat n1 - 1) seed (key r).
Let rule_idx (r : nat) : Prop := (0 < r < length rs)%nat.

(** One bucket finds its seed, and the search goes on behind it. *)
Lemma seek_bucket fuel bucket P t :
  filled rs n1 P t -> Forall rule_idx bucket -> Z.of_nat fuel = N ->
  forall rest, (if decide (map key bucket = []) then seeds_found strhash (Z.of_nat n1 - 1) fuel rest (map snd P)
    else match first_seed strhash (Z.of_nat n1 - 1) fuel 0 (map key bucket) (map snd P) with
         | Some hs => seeds_found strhash (Z.of_nat n1 - 1) fuel rest (map snd P ++ hs) | None => false end) = true ->
  exists t' s, seek strhash fuel rs (Z.of_nat n1 - 1) 0 bucket t = Some (t', s) /\
    filled rs n1 (P ++ map (fun r => (r, slot_at s r)) bucket) t' /\
    seeds_found strhash (Z.of_nat n1 - 1) fuel rest (map snd (P ++ map (fun r => (r, slot_at s r)) bucket)) = true.
Proof.
  intros Ht Hv Hf rest Hfound. destruct (decide (bucket = [])) as [->|Hne].
  - exists t, 0. rewrite decide_True in Hfound by done. split; [by destruct fuel|]. cbn [map]. by rewrite app_nil_r.
  - rewrite decide_False in Hfound by (by destruct bucket).
    destruct (first_seed strhash (Z.of_nat n1 - 1) fuel 0 (map key bucket) (map snd P)) as [hs|] eqn:E; [|done].
    destruct (seek_spec strhash rs n1 k1 Hk1 Hn1 fuel 0 bucket P t hs Ht) as (t' & s & Es & Hhs & Ht'); [|lia|lia|done|exact E|].
    + eapply Forall_impl; [exact Hv|]. by intros r [? ?].
    + exists t', s. split; [done|]. split; [exact Ht'|]. rewrite map_app, map_map. cbn [snd]. by rewrite Hhs in Hfound.
Qed.

Lemma fill_levels_spec fuel buckets idxs P t l0 :
  Z.of_nat fuel = N -> NoDup idxs -> Forall (fun i => (i < length l0)%nat /\ (i < length buckets)%nat) idxs ->
  (forall i b, buckets !! i = Some b -> Forall rule_idx b) ->
  filled rs n1 P t ->
  seeds_found strhash (Z.of_nat n1 - 1) fuel (map (fun i => map key (default [] (buckets !! i))) idxs) (map snd P) = true ->
  exists t' l0' P', fill_levels strhash fuel rs (Z.of_nat n1 - 1) buckets idxs t l0 = Some (t', l0') /\
    filled rs n1 P' t' /\ P ⊆ P' /\ length l0' = length l0 /\ (forall i, i ∉ idxs -> l0' !! i = l0 !! i) /\
    (forall i b, i ∈ idxs -> buckets !! i = Some b -> exists sd, l0' !! i = Some sd /\ forall r, r ∈ b -> (r, slot_at sd r) ∈ P').
Proof.
  intros Hf. revert P t l0. induction idxs as [|i idxs IH]; intros P t l0 Hni Hlt Hbk Ht Hseeds; cbn [fill_levels].
  { exists t, l0, P. split; [done|]. split; [done|]. split; [done|]. split; [done|]. split; [done|]. by intros i b ?%elem_of_nil. }
  apply NoDup_cons in Hni as [Hii Hni]. apply Forall_cons in Hlt as [[Hi1 Hi2] Hlt].
  destruct (lookup_lt_is_Some_2 buckets i Hi2) as [b Hb]. rewrite Hb. cbn [mbind option_bind].
  cbn [map seeds_found] in Hseeds. rewrite Hb in Hseeds. cbn [default from_option id] in Hseeds.
  destruct (seek_bucket fuel b P t Ht (Hbk i b Hb) Hf _ Hseeds) as (t1 & s & -> & Ht1 & Hseeds1).
  cbn [mbind option_bind]. set (P1 := P ++ map (fun r => (r, slot_at s r)) b) in *.
  destruct (IH P1 t1 (<[i := s]> l0)) as (t' & l0' & P' & -> & Ht' & Hsub & Hl & Hkeep & Hall); [done| |done|done|exact Hseeds1|].
  - by rewrite length_insert.
  - exists t', l0', P'. split; [done|]. split; [done|]. split; [unfold P1 in Hsub; set_solver|].
    split; [by rewrite Hl, length_insert|]. split.
    + intros j Hj. apply not_elem_of_cons in Hj as [Hji Hj]. rewrite Hkeep by done. by rewrite list_lookup_insert_ne.
    + intros j c Hj Hc. apply elem_of_cons in Hj as [->|Hj]; [|by apply Hall]. rewrite Hb in Hc. injection Hc as <-.
      exists s. split; [rewrite Hkeep by done; by apply list_lookup_insert_eq|]. intros r Hr. apply Hsub. unfold P1.
      apply elem_of_app. right. by apply (list_elem_of_fmap_2 (fun r => (r, slot_at s r))).
Qed.
End Levels.

(** ** Build *)
Lemma infos_size added rs infos g : adding added rs infos g -> size infos = length rs.
Proof.
  intros Hg. rewrite <- (size_dom (D := gset bytes)).
  assert (dom infos = list_to_set rs :> gset bytes) as ->.
  { apply set_eq. intros p. by rewrite elem_of_dom, elem_of_list_to_set, (ad_in _ _ _ _ Hg). }
  apply size_list_to_set, (ad_nodup _ _ _ _ Hg).
Qed.

Lemma filled_start rs n1 : (0 < length rs)%nat -> filled rs n1 [] {| occupied := replicate n1 false; slots := replicate n1 0 |}.
Proof.
  intros Hr. split; cbn [occupied slots].
  - by rewrite !length_replicate.
  - intros h. cbn. rewrite elem_of_nil. split; [|done]. by intros [? _]%lookup_replicate_1.
  - by intros r h ?%elem_of_nil.
  - constructor.
  - apply Forall_replicate. unfold zlen. lia.
Qed.

(** Looking up in tables of the right sizes. *)
Lemma Lookup_at strhash g h p sd r :
  level0 g !! Z.to_nat (Z.land h (level0Mask g)) = Some sd ->
  level1 g !! slot strhash (level1Mask g) sd p = Some (Z.of_nat r) -> rules g !! r = Some p ->
  Lookup strhash g h p = Some r.
Proof.
  intros H0 H1 Hr. unfold Lookup. rewrite H0. cbn [mbind option_bind]. unfold slot in H1. rewrite H1. cbn [mbind option_bind].
  rewrite Nat2Z.id, Hr. cbn [mbind option_bind]. by rewrite decide_True.
Qed.

Lemma Lookup_any strhash g k0 k1 h s :
  0 <= k0 -> 0 <= k1 -> level0Mask g = 2 ^ k0 - 1 -> level1Mask g = 2 ^ k1 - 1 ->
  Z.of_nat (length (level0 g)) = 2 ^ k0 -> Z.of_nat (length (level1 g)) = 2 ^ k1 ->
  Forall (fun x => 0 <= x < zlen (rules g)) (level1 g) ->
  exists n, Lookup strhash g h s = Some n /\ (n <> 0%nat -> rules g !! n = Some s).
Proof.
  intros Hk0 Hk1 E0 E1 Hl0 Hl1 Hr. unfold Lookup. rewrite E0, E1.
  destruct (lookup_lt_is_Some_2 (level0 g) (Z.to_nat (Z.land h (2 ^ k0 - 1)))) as [sd ->].
  { pose proof (mask_range h k0 Hk0). lia. }
  cbn [mbind option_bind].
  destruct (lookup_lt_is_Some_2 (level1 g) (Z.to_nat (Z.land (MemHash strhash sd s) (2 ^ k1 - 1)))) as [x Hx].
  { pose proof (mask_range (MemHash strhash sd s) k1 Hk1). lia. }
  rewrite Hx. cbn [mbind option_bind]. rewrite Forall_forall in Hr. specialize (Hr x ltac:(by eapply list_elem_of_lookup_2)).
  destruct (lookup_lt_is_Some_2 (rules g) (Z.to_nat x)) as [r Hrx]; [unfold zlen in Hr; lia|]. rewrite Hrx. cbn [mbind option_bind].
  eexists. split; [done|]. case_decide as E; [by subst|done].
Qed.

(** Step 1 fills the buckets with the rules by their hash, and the values of each rule. *)
Lemma fill_buckets_fresh added prs infos g n0 k0 :
  adding added prs infos g -> 0 <= k0 -> Z.of_nat n0 = 2 ^ k0 ->
  exists vs, fill_buckets infos (Z.of_nat n0 - 1) prs 1 (replicate n0 []) (mph_values g) = Some (bucket_indices n0 prs, vs) /\
    forall n p, prs !! n = Some p -> vs !! S n = Some (pick Full p added ++ pick Domain p added).
Proof.
  intros Hg Hk0 Hn0.
  destruct (fill_buckets_spec infos (Z.of_nat n0 - 1) k0 prs 1 (replicate n0 []) (mph_values g)) as (buckets & vs & -> & Hbk & _ & Hvs);
    [lia|lia|by rewrite length_replicate|rewrite (ad_values _ _ _ _ Hg), (ad_rules _ _ _ _ Hg); cbn; lia|].
  assert (Hinfo : forall p, p ∈ prs -> exists i, infos !! p = Some i /\ rollingHash i = RollingHash 0 p /\
    info_full i = pick Full p added /\ info_domain i = pick Domain p added).
  { intros p [i Hp]%(ad_in _ _ _ _ Hg). exists i. split; [done|]. by apply (ad_info _ _ _ _ Hg). }
  exists vs. split.
  - do 2 f_equal. apply list_eq. intros i. rewrite Hbk. unfold bucket_indices. rewrite list_lookup_fmap. destruct (decide (i < n0)%nat) as [Hi|Hi].
    + rewrite lookup_replicate_2, lookup_seq_lt by done. cbn [fmap option_fmap option_map app]. f_equal. apply idxs_in_ext. intros p Hp.
      destruct (Hinfo p Hp) as (x & Ex & E2 & _). rewrite Ex. cbn. by rewrite E2.
    + rewrite (lookup_ge_None_2 (replicate n0 [])) by (rewrite length_replicate; lia). by rewrite lookup_seq_ge by lia.
  - intros n p Hp. change (S n) with (1 + n)%nat. rewrite (Hvs n p Hp).
    destruct (Hinfo p) as (i & -> & _ & E2 & E3); [by eapply list_elem_of_lookup_2|]. cbn. by rewrite E2, E3.
Qed.

Lemma bucket_indices_lookup n0 prs i b :
  bucket_indices n0 prs !! i = Some b -> b = idxs_in (fun p => Z.to_nat (Z.land (RollingHash 0 p) (Z.of_nat n0 - 1))) i prs 1.
Proof. unfold bucket_indices. rewrite list_lookup_fmap. intros (j & [-> _]%lookup_seq & ->)%fmap_Some. done. Qed.

Lemma nextPow2_nat x : 0 <= x < 2 ^ 31 -> exists k, 0 <= k /\ Z.of_nat (Z.to_nat (nextPow2 x)) = 2 ^ k /\ 0 < 2 ^ k <= 2 ^ 31.
Proof.
  intros Hx. destruct (nextPow2_spec x) as (k & Hk & E & _); [lia|]. exists k.
  assert (0 < 2 ^ k <= 2 ^ 31) by (split; [apply Z.pow_pos_nonneg; lia|apply Z.pow_le_mono_r; lia]). rewrite E. repeat split; lia.
Qed.

Section BuildSpec.
Context (strhash : bytes -> Z -> Z) (sortSlice : (nat -> nat -> bool) -> list nat -> list nat).
Context (Hsort : forall less l, sortSlice less l ≡ₚ l).

Lemma mph_Build_spec added prs infos g N fuel :
  adding added prs infos g -> zlen prs < 2 ^ 31 -> spreads strhash sortSlice prs N -> N <= 2 ^ 32 -> Z.of_nat fuel = N ->
  exists g', mph_Build strhash sortSlice fuel g = Some g' /\ mph_built strhash added prs g'.
Proof.
  intros Hg Hl Hspread HN Hfuel. unfold mph_Build. rewrite (ad_infos _ _ _ _ Hg). cbn [mbind option_bind].
  rewrite (infos_size _ _ _ _ Hg), (ad_rules _ _ _ _ Hg). fold (zlen prs). change (drop 1 ([] :: prs)) with prs. pose proof (zlen_nonneg prs).
  destruct (nextPow2_nat (zlen prs / 4)) as (k0 & Hk0 & Hn0 & Hp0); [split; [apply Z.div_pos; lia|apply Z.div_lt_upper_bound; lia]|].
  destruct (nextPow2_nat (zlen prs)) as (k1 & Hk1 & Hn1 & Hp1); [lia|]. unfold spreads in Hspread.
  set (n0 := Z.to_nat (nextPow2 (zlen prs / 4))) in *. set (n1 := Z.to_nat (nextPow2 (zlen prs))) in *.
  replace (nextPow2 (zlen prs)) with (Z.of_nat n1) in Hspread by lia. rewrite <- Hfuel, Nat2Z.id in Hspread.
  rewrite (u32_small (Z.of_nat n0 - 1)), (u32_small (Z.of_nat n1 - 1)) by lia.
  destruct (fill_buckets_fresh _ _ _ _ n0 k0 Hg Hk0 Hn0) as (vs & -> & Hvs).
  pose proof (bucket_indices_lookup n0 prs) as Hb. assert (Hlb : length (bucket_indices n0 prs) = n0) by (unfold bucket_indices; by rewrite length_map, length_seq).
  cbn [mbind option_bind]. set (order := sortSlice _ _) in *.
  assert (Hperm : order ≡ₚ seq 0 n0) by apply Hsort.
  assert (Hin : forall i, i ∈ order <-> (i < n0)%nat) by (intros i; rewrite Hperm, elem_of_seq; lia).
  destruct (fill_levels_spec strhash prs n1 k1 N ltac:(lia) Hn1 HN
    fuel (bucket_indices n0 prs) order [] {| occupied := replicate n1 false; slots := replicate n1 0 |} (replicate n0 0) Hfuel)
    as (t & l0 & P & -> & Ht & _ & Hl0 & _ & Hall).
  - rewrite Hperm. apply NoDup_seq.
  - apply Forall_forall. intros i Hi%Hin. by rewrite length_replicate, Hlb.
  - intros i b ->%Hb. apply Forall_forall. intros r (m & p & Hm & -> & _)%elem_of_idxs.
    apply lookup_lt_Some in Hm. cbn. lia.
  - apply filled_start. cbn. lia.
  - exact Hspread.
  - cbn [mbind option_bind]. eexists. split; [done|].
    split; [done|exact Hvs| | |apply (ad_added _ _ _ _ Hg)|apply (ad_some _ _ _ _ Hg)].
    + intros n p Hp. set (i := Z.to_nat (Z.land (RollingHash 0 p) (Z.of_nat n0 - 1))).
      assert (Hlt : (i < n0)%nat) by (pose proof (mask_range (RollingHash 0 p) k0 ltac:(lia)); unfold i; rewrite Hn0; lia).
      destruct (lookup_lt_is_Some_2 (bucket_indices n0 prs) i) as [b Hx]; [by rewrite Hlb|].
      destruct (Hall i b) as (sd & Hsd & HP); [by apply Hin|done|].
      assert (Hr : S n ∈ b) by (rewrite (Hb _ _ Hx); apply elem_of_idxs; exists n, p; done). specialize (HP (S n) Hr).
      change (default [] (([] :: prs) !! S n)) with (default [] (prs !! n)) in HP. rewrite Hp in HP.
      eapply Lookup_at; [exact Hsd|exact (fl_slot _ _ _ _ Ht _ _ HP)|exact Hp].
    + intros h s. apply (Lookup_any _ _ k0 k1); cbn [level0 level0Mask level1 level1Mask rules]; [lia|lia|lia|lia| | |apply (fl_range _ _ _ _ Ht)].
      * by rewrite Hl0, length_replicate.
      * by rewrite (proj2 (fl_len _ _ _ _ Ht)).
Qed.
End BuildSpec.

(** ** Matching *)
Section MphMatching.
Context (strhash : bytes -> Z -> Z) (added : list rule) (rs : list bytes) (g : MphMatcherGroup).
Context (Hg : mph_built strhash added rs g).

Lemma pattern_index n p : n <> 0%nat -> rules g !! n = Some p -> exists m, n = S m /\ rs !! m = Some p.
Proof. intros Hn Hp. rewrite (mb_rules _ _ _ _ Hg) in Hp. destruct n as [|m]; [done|]. by exists m. Qed.

Lemma holds_in x v : holds added x v -> x ∈ rs.
Proof.
  pose proof (mb_added _ _ _ _ Hg) as Ha. rewrite Forall_forall in Ha. intros [Hx|Hx]; by apply (Ha _ Hx).
Qed.

(** A lookup with the hash of the pattern finds the values registered for it. *)
Lemma lookup_holds x :
  exists n, Lookup strhash g (RollingHash 0 x) x = Some n /\
    (n = 0%nat -> forall v, ~ holds added x v) /\
    (n <> 0%nat -> (exists v, holds added x v) /\ exists vs, mph_values g !! n = Some vs /\ forall v, v ∈ vs <-> holds added x v).
Proof.
  destruct (mb_only _ _ _ _ Hg (RollingHash 0 x) x) as (n & Hn & Hrule). exists n. split; [done|]. split.
  - intros -> v Hv. apply holds_in in Hv as [m Hm]%list_elem_of_lookup. rewrite (mb_found _ _ _ _ Hg m x Hm) in Hn. done.
  - intros H0. destruct (pattern_index n x H0 (Hrule H0)) as (m & -> & Hm). split.
    + destruct (mb_some _ _ _ _ Hg x) as [v Hv]; [by eapply list_elem_of_lookup_2|]. by exists v.
    + eexists. split; [apply (mb_values _ _ _ _ Hg m x Hm)|]. intros v. by rewrite elem_of_app, !elem_of_pick.
Qed.

Lemma lookup_append x matches :
  exists ms, (n ← Lookup strhash g (RollingHash 0 x) x;
    if decide (n = 0%nat) then Some matches else v ← mph_values g !! n; Some (matches ++ [v])) = Some (matches ++ ms) /\
    forall v, v ∈ concat ms <-> holds added x v.
Proof.
  destruct (lookup_holds x) as (n & -> & H0 & H1). cbn [mbind option_bind]. case_decide as Hn.
  - exists []. rewrite app_nil_r. split; [done|]. intros v. cbn. rewrite elem_of_nil. split; [done|]. by apply H0.
  - destruct (H1 Hn) as (_ & vs & -> & Hv). exists [vs]. split; [done|]. intros v. cbn [concat]. by rewrite app_nil_r.
Qed.

Lemma lookup_any x :
  exists b, (n ← Lookup strhash g (RollingHash 0 x) x; Some (negb (bool_decide (n = 0%nat)))) = Some b /\
    (b = true <-> exists v, holds added x v).
Proof.
  destruct (lookup_holds x) as (n & -> & H0 & H1). cbn [mbind option_bind]. eexists. split; [done|].
  destruct (bool_decide_reflect (n = 0%nat)) as [Hn|Hn]; cbn [negb].
  - split; [done|]. intros [v Hv]. by apply H0 in Hv.
  - split; [|done]. intros _. by apply H1.
Qed.

Lemma roll_cons c x : u32 (RollingHash 0 x * PrimeRK + b2z c) = RollingHash 0 (c :: x).
Proof. unfold RollingHash. by rewrite reverse_cons, roll_app. Qed.

Lemma mph_match_from_spec cs x matches :
  exists ms, mph_match_from strhash g cs x (RollingHash 0 x) matches = Some (matches ++ ms, RollingHash 0 (reverse cs ++ x)) /\
    forall v, v ∈ concat ms <-> dots_hold added v x cs.
Proof.
  revert x matches. induction cs as [|c cs IH]; intros x matches; cbn [mph_match_from dots_hold].
  { exists []. rewrite app_nil_r. split; [done|]. intros v. by rewrite elem_of_nil. }
  rewrite roll_cons. destruct (decide (c = dot)) as [->|Hc].
  - destruct (lookup_append (dot :: x) matches) as (m1 & -> & H1). cbn [mbind option_bind].
    destruct (IH (dot :: x) (matches ++ m1)) as (m2 & -> & H2). exists (m1 ++ m2).
    rewrite reverse_cons, <- !app_assoc. split; [done|]. intros v. rewrite concat_app, elem_of_app, H1, H2. tauto.
  - cbn [mbind option_bind]. destruct (IH (c :: x) matches) as (m2 & -> & H2). exists m2.
    rewrite reverse_cons, <- !app_assoc. split; [done|]. intros v. rewrite H2. tauto.
Qed.

Lemma mph_Match_spec s :
  exists r, mph_Match strhash g s = Some r /\ forall v, v ∈ r <-> dots_hold added v [] (reverse s) \/ holds added s v.
Proof.
  unfold mph_Match. change 0 with (RollingHash 0 []) at 1.
  destruct (mph_match_from_spec (reverse s) [] []) as (m1 & -> & H1). cbn [mbind option_bind app].
  rewrite reverse_involutive, app_nil_r. destruct (lookup_append s m1) as (m2 & E & H2).
  destruct (Lookup strhash g (RollingHash 0 s) s) as [n|]; [|done]. cbn [mbind option_bind] in *. rewrite E. cbn [mbind option_bind].
  eexists. split; [done|]. intros v. by rewrite elem_of_Reverse, concat_app, elem_of_app, H1, H2.
Qed.

Lemma mph_any_from_spec cs x :
  exists b, mph_any_from strhash g cs x (RollingHash 0 x) = Some b /\
    (b = true <-> exists v, dots_hold added v x cs \/ holds added (reverse cs ++ x) v).
Proof.
  revert x. induction cs as [|c cs IH]; intros x; cbn [mph_any_from dots_hold].
  { destruct (lookup_any x) as (b & -> & Hb). exists b. split; [done|]. rewrite Hb. cbn. naive_solver. }
  rewrite roll_cons, reverse_cons, <- app_assoc. cbn [app]. destruct (decide (c = dot)) as [->|Hc].
  - destruct (lookup_any (dot :: x)) as (b & -> & Hb). cbn [mbind option_bind]. destruct b.
    + exists true. split; [done|]. split; [|done]. intros _. destruct (proj1 Hb eq_refl) as [v Hv]. exists v. by left; left.
    + destruct (IH (dot :: x)) as (b & -> & Hb2). exists b. split; [done|]. rewrite Hb2. split.
      * intros (v & [?|?]); exists v; [by left; right|by right].
      * intros (v & [[[_ Hv]|?]|?]); [|exists v; by left|exists v; by right].
        assert (false = true); [|done]. apply Hb. by exists v.
  - cbn [mbind option_bind]. destruct (IH (c :: x)) as (b & -> & Hb2). exists b. split; [done|]. rewrite Hb2. naive_solver.
Qed.
End MphMatching.

Lemma dots_hold_spec added v x cs :
  dots_hold added v x cs <-> exists p q, cs = p ++ dot :: q /\ holds added (dot :: reverse p ++ x) v.
Proof.
  revert x. induction cs as [|c cs IH]; intros x; cbn [dots_hold].
  - split; [done|]. by intros ([|] & q & ? & _).
  - rewrite IH. split.
    + intros [[-> Hv]|(p & q & -> & Hv)]; [by exists [], cs|]. exists (c :: p), q. split; [done|].
      by rewrite reverse_cons, <- app_assoc.
    + intros ([|d p] & q & E & Hv); injection E as -> ->; [by left|right]. exists p, q. split; [done|].
      by rewrite reverse_cons, <- app_assoc in Hv.
Qed.

(** ** The table and the matchers *)
Section MphMatchers.
Context {R : Type} (MatchString : R -> bytes -> bool).
Implicit Types ms : list (Matcher R * Z).

Lemma elem_of_rules x t v ms :
  (x, t, v) ∈ flat_map rules_of ms <-> exists m, (m, v) ∈ ms /\
    match m with
    | FullMatcher p => t = Full /\ x = ToLower p
    | DomainMatcher p => t = Domain /\ (x = ToLower p \/ x = dot :: ToLower p)
    | _ => False
    end.
Proof.
  rewrite list_elem_of_In, in_flat_map. setoid_rewrite <- list_elem_of_In. split.
  - intros ([m v'] & Hin & Hr). unfold rules_of in Hr. cbn [fst snd] in Hr.
    destruct m; rewrite ?elem_of_cons, ?elem_of_nil in Hr; naive_solver.
  - intros (m & Hin & Hr). exists (m, v). split; [done|]. unfold rules_of. cbn [fst snd].
    destruct m; rewrite ?elem_of_cons, ?elem_of_nil; naive_solver.
Qed.

Lemma rule_match ms v s :
  Forall (fun e => mph_usable e.1) ms ->
  dots_hold (flat_map rules_of ms) v [] (reverse s) \/ holds (flat_map rules_of ms) s v <->
  exists m, (m, v) ∈ ms /\ Match MatchString m s = true.
Proof.
  intros Hms. rewrite Forall_forall in Hms. rewrite dots_hold_spec. unfold holds. setoid_rewrite elem_of_rules. split.
  - intros [(p & q & E & Hv)|Hv].
    + apply reverse_swap in E. rewrite reverse_app, reverse_cons, <- app_assoc in E. rewrite app_nil_r in Hv. cbn [app] in E.
      destruct Hv as [(m & Hin & Hm)|(m & Hin & Hm)]; destruct m as [k|k| |]; try (by destruct Hm); destruct (Hms _ Hin) as [Hk Hg]; cbn in Hk; rewrite Hk in Hm; destruct Hm as [_ Hm].
      * subst k. done.
      * exists (DomainMatcher k). split; [done|]. apply domain_match_spec. right. exists (reverse q).
        destruct Hm as [Hm|Hm]; [by subst k|]. injection Hm as Hm. by rewrite E, Hm.
    + destruct Hv as [(m & Hin & Hm)|(m & Hin & Hm)]; destruct m as [k|k| |]; try (by destruct Hm); destruct (Hms _ Hin) as [Hk Hg]; cbn in Hk; rewrite Hk in Hm; destruct Hm as [_ Hm].
      * exists (FullMatcher k). split; [done|]. apply bool_decide_eq_true. done.
      * exists (DomainMatcher k). split; [done|]. apply domain_match_spec. destruct Hm as [->| ->]; [by left|right; by exists []].
  - intros (m & Hin & Hm). pose proof (Hms _ Hin) as Hu. destruct m as [k|k| |]; [| |done..]; destruct Hu as [Hk _]; cbn in Hk.
    + right. left. exists (FullMatcher k). apply bool_decide_eq_true in Hm as <-. by rewrite Hk.
    + apply domain_match_spec in Hm as [<-|[a ->]].
      * right. right. exists (DomainMatcher k). rewrite Hk. split; [done|]. split; [done|by left].
      * left. exists (reverse k), (reverse a). rewrite reverse_app, reverse_cons, <- app_assoc. split; [done|]. right.
        exists (DomainMatcher k). rewrite Hk, reverse_involutive, app_nil_r. split; [done|]. split; [done|by right].
Qed.
End MphMatchers.

(** ** A group with its matchers *)
Lemma length_rules {R} (ms : list (Matcher R * Z)) : (length (flat_map rules_of ms) <= 2 * length ms)%nat.
Proof.
  induction ms as [|[m v] ms IH]; cbn [flat_map length]; [lia|]. rewrite length_app. unfold rules_of at 1. cbn [fst snd].
  destruct m; cbn [length]; lia.
Qed.

Section MphGroup.
Context {R : Type} (MatchString : R -> bytes -> bool).
Context (strhash : bytes -> Z -> Z) (sortSlice : (nat -> nat -> bool) -> list nat -> list nat).
Context (Hsort : forall less l, sortSlice less l ≡ₚ l).
Implicit Types ms : list (Matcher R * Z).

Lemma mph_of_spec ms N fuel :
  2 * zlen ms < 2 ^ 31 -> spreads strhash sortSlice (patterns ms) N -> N <= 2 ^ 32 -> Z.of_nat fuel = N ->
  exists g rs, mph_of strhash sortSlice fuel ms = Some g /\ mph_built strhash (flat_map rules_of ms) rs g.
Proof.
  intros Hl Hsp HN Hf. unfold mph_of.
  destruct (mph_Add_matchers_spec ms [] [] ∅ NewMphMatcherGroup adding_new) as (prs & infos & g & -> & Hg). cbn [mbind option_bind app] in *.
  pose proof (ad_size _ _ _ _ Hg) as Hsz. pose proof (length_rules ms) as Hr.
  destruct (mph_Build_spec strhash sortSlice Hsort (flat_map rules_of ms) prs infos g N fuel Hg) as (g' & Hb & Hok);
    [unfold zlen in *; lia|by rewrite (ad_order _ _ _ _ Hg)|done|done|].
  by exists g', prs.
Qed.

(** The group answers as its matchers do. *)
Lemma mph_Match_holds ms rs g s :
  Forall (fun e => mph_usable e.1) ms -> mph_built strhash (flat_map rules_of ms) rs g ->
  exists r, mph_Match strhash g s = Some r /\ (forall v, v ∈ r <-> exists m, (m, v) ∈ ms /\ Match MatchString m s = true).
Proof.
  intros Hms Hg. destruct (mph_Match_spec strhash _ rs g Hg s) as (r & Hr & Hv). exists r. split; [done|].
  intros v. by rewrite Hv, rule_match.
Qed.

Lemma mph_MatchAny_holds ms rs g s :
  Forall (fun e => mph_usable e.1) ms -> mph_built strhash (flat_map rules_of ms) rs g ->
  mph_MatchAny strhash g s = Some (existsb (fun e => Match MatchString e.1 s) ms).
Proof.
  intros Hms Hg. unfold mph_MatchAny. change 0 with (RollingHash 0 []).
  destruct (mph_any_from_spec strhash _ rs g Hg (reverse s) []) as (b & -> & Hb). rewrite reverse_involutive, app_nil_r in Hb.
  f_equal. apply eq_bool_prop_intro. rewrite !Is_true_true, Hb, existsb_elem_of. setoid_rewrite rule_match; [|done]. split.
  - intros (v & m & Hin & Hm). by exists (m, v).
  - intros ([m v] & Hin & Hm). by exists v, m.
Qed.
End MphGroup.
