(* ===== verification/StrIndex.v ===== *)
(** * Package common/strmatcher: the index over the hash table and the automaton

    [Module StrIndex] models indexmatcher_mph.go: full and domain matchers go to
    the perfect-hash group of [StrMph], keywords to the automaton of [StrAC],
    regular expressions to a list.  It answers exactly the indices of the
    matchers that match, as the linear index of [StrMatch] does. *)
From S2P Require Import Prelude GoStd StrMatch StrAC StrMph.
Import StrMatch StrAC StrMph.

Module StrIndex.
Section Index.
Context {Regexp : Type} (MatchString : Regexp -> bytes -> bool).
Context (strhash : bytes -> Z -> Z) (sortSlice : (nat -> nat -> bool) -> list nat -> list nat).

Record MphIndexMatcher := mkIndex {
  ix_count : Z;
  ix_mph : option MphMatcherGroup;
  ix_ac : option ACAutomatonMatcherGroup;
  ix_regex : option (list (Matcher Regexp * Z));
}.

Definition NewMphIndexMatcher : MphIndexMatcher := {| ix_count := 0; ix_mph := None; ix_ac := None; ix_regex := None |}.

Definition ix_Add (m : Matcher Regexp) (g : MphIndexMatcher) : option (MphIndexMatcher * Z) :=
  let index := u32 (ix_count g + 1) in
  match m with
  | FullMatcher p =>
    h ← mph_AddFullMatcher p index (default NewMphMatcherGroup (ix_mph g));
    Some ({| ix_count := index; ix_mph := Some h; ix_ac := ix_ac g; ix_regex := ix_regex g |}, index)
  | DomainMatcher p =>
    h ← mph_AddDomainMatcher p index (default NewMphMatcherGroup (ix_mph g));
    Some ({| ix_count := index; ix_mph := Some h; ix_ac := ix_ac g; ix_regex := ix_regex g |}, index)
  | SubstrMatcher p =>
    a ← StrAC.AddSubstrMatcher p index (default NewACAutomatonMatcherGroup (ix_ac g));
    Some ({| ix_count := index; ix_mph := ix_mph g; ix_ac := Some a; ix_regex := ix_regex g |}, index)
  | RegexMatcher _ =>
    Some ({| ix_count := index; ix_mph := ix_mph g; ix_ac := ix_ac g;
             ix_regex := Some (AddMatcher m index (default [] (ix_regex g))) |}, index)
  end.

(** [fuel] bounds the seeds tried for one bucket of the hash table. *)
Definition ix_Build (fuel : nat) (g : MphIndexMatcher) : option MphIndexMatcher :=
  h ← match ix_mph g with Some h => Some <$> mph_Build strhash sortSlice fuel h | None => Some None end;
  a ← match ix_ac g with Some a => Some <$> Build a | None => Some None end;
  Some {| ix_count := ix_count g; ix_mph := h; ix_ac := a; ix_regex := ix_regex g |}.

Definition ix_Match (g : MphIndexMatcher) (input : bytes) : option (list Z) :=
  result ← match ix_mph g with
           | Some h => m ← mph_Match strhash h input; Some (found (Some m) [])
           | None => Some []
           end;
  result ← match ix_ac g with
           | Some a => m ← ac_Match a input; Some (found (Some m) result)
           | None => Some result
           end;
  Some (CompositeMatches (found ((fun x => simple_Match MatchString x input) <$> ix_regex g) result)).

Definition ix_MatchAny (g : MphIndexMatcher) (input : bytes) : option bool :=
  h ← match ix_mph g with Some h => mph_MatchAny strhash h input | None => Some false end;
  if h : bool then Some true
  else
    a ← match ix_ac g with Some a => ac_MatchAny a input | None => Some false end;
    if a : bool then Some true
    else Some (match ix_regex g with Some x => simple_MatchAny MatchString x input | None => false end).

Definition ix_Size (g : MphIndexMatcher) : Z := ix_count g.

(** All matchers added in order. *)
Fixpoint ix_Add_all (ms : list (Matcher Regexp)) (g : MphIndexMatcher) : option MphIndexMatcher :=
  match ms with
  | [] => Some g
  | m :: ms => '(g, _) ← ix_Add m g; ix_Add_all ms g
  end.

(** ** What the index holds: the matchers of each part, with their indices *)
Definition exact (m : Matcher Regexp) : bool := match m with FullMatcher _ | DomainMatcher _ => true | _ => false end.
Definition keyword (m : Matcher Regexp) : bool := match m with SubstrMatcher _ => true | _ => false end.
Definition pattern (m : Matcher Regexp) : bool := match m with RegexMatcher _ => true | _ => false end.
Definition part (kind : Matcher Regexp -> bool) (l : list (Matcher Regexp * Z)) : list (Matcher Regexp * Z) :=
  List.filter (fun e => kind e.1) l.

(** The matchers the parts are made for: over lower case letters, digits,
    hyphen and period, keywords not empty, full matchers and domains not
    starting with a period. *)
Definition index_usable (m : Matcher Regexp) : Prop :=
  match m with
  | FullMatcher _ | DomainMatcher _ => mph_usable m
  | SubstrMatcher _ => ac_usable m
  | RegexMatcher _ => True
  end.

Record index_holds (l : list (Matcher Regexp * Z)) (g : MphIndexMatcher) : Prop := {
  ih_count : ix_count g = zlen l;
  ih_mph : mph_Add_matchers (part exact l) NewMphMatcherGroup = Some (default NewMphMatcherGroup (ix_mph g));
  ih_mph_none : ix_mph g = None -> part exact l = [];
  ih_ac : Add_matchers (part keyword l) NewACAutomatonMatcherGroup = Some (default NewACAutomatonMatcherGroup (ix_ac g));
  ih_ac_none : ix_ac g = None -> part keyword l = [];
  ih_regex : default [] (ix_regex g) = part pattern l;
}.
End Index.
End StrIndex.
Import StrIndex.
Arguments MphIndexMatcher : clear implicits.

Lemma mph_Add_matchers_app {R} (a b : list (Matcher R * Z)) g :
  mph_Add_matchers (a ++ b) g = mph_Add_matchers a g ≫= mph_Add_matchers b.
Proof.
  revert g. induction a as [|[m v] a IH]; intros g; [done|]. cbn [app mph_Add_matchers].
  destruct m; cbn [mbind option_bind]; rewrite ?IH; try done.
  - destruct (mph_AddFullMatcher p v g); [apply IH|done].
  - destruct (mph_AddDomainMatcher p v g); [apply IH|done].
Qed.

Lemma Add_matchers_app {R} (a b : list (Matcher R * Z)) g :
  Add_matchers (a ++ b) g = Add_matchers a g ≫= Add_matchers b.
Proof.
  revert g. induction a as [|[m v] a IH]; intros g; [done|]. cbn [app Add_matchers].
  destruct m; cbn [mbind option_bind]; try done.
  - destruct (StrAC.AddFullMatcher p v g); [apply IH|done].
  - destruct (StrAC.AddDomainMatcher p v g); [apply IH|done].
  - destruct (StrAC.AddSubstrMatcher p v g); [apply IH|done].
Qed.

Section IndexSpec.
Context {Regexp : Type} (MatchString : Regexp -> bytes -> bool).
Implicit Types (l : list (Matcher Regexp * Z)) (ms : list (Matcher Regexp)) (g : MphIndexMatcher Regexp).

Lemma part_snoc kind l m v : part kind (l ++ [(m, v)]) = part kind l ++ (if kind m then [(m, v)] else []).
Proof. unfold part. by rewrite List.filter_app. Qed.

Lemma elem_of_part kind l m v : (m, v) ∈ part kind l <-> (m, v) ∈ l /\ kind m = true.
Proof. unfold part. by rewrite !list_elem_of_In, filter_In. Qed.

Lemma part_usable kind (P : Matcher Regexp -> Prop) l :
  Forall (fun e => index_usable e.1) l -> (forall m, kind m = true -> index_usable m -> P m) ->
  Forall (fun e => P e.1) (part kind l).
Proof.
  intros Hl HP. rewrite Forall_forall in Hl. apply Forall_forall. intros [m v] [Hin Hk]%elem_of_part. apply HP; [done|]. by apply (Hl (m, v)).
Qed.

Lemma index_new : index_holds [] (NewMphIndexMatcher (Regexp := Regexp)).
Proof. by split. Qed.

Lemma mph_ready l : exists h rs infos, mph_Add_matchers l NewMphMatcherGroup = Some h /\ adding (flat_map rules_of l) rs infos h.
Proof. destruct (mph_Add_matchers_spec l [] [] ∅ NewMphMatcherGroup adding_new) as (rs & infos & h & H1 & H2). by exists h, rs, infos. Qed.

Lemma ac_ready l : rooms l + 2 < 2 ^ 32 -> exists a, Add_matchers l NewACAutomatonMatcherGroup = Some a.
Proof.
  intros Hb. destruct (Add_matchers_spec l [[]] [] NewACAutomatonMatcherGroup New_ok) as (words & a & Ha & _);
    [change (zlen _) with 1; lia|change (zlen _) with 1; lia|]. by exists a.
Qed.

Lemma ix_Add_holds l g m :
  index_holds l g -> zlen l + 1 < 2 ^ 32 -> rooms (part keyword (l ++ [(m, zlen l + 1)])) + 2 < 2 ^ 32 ->
  exists g', ix_Add m g = Some (g', zlen l + 1) /\ index_holds (l ++ [(m, zlen l + 1)]) g'.
Proof.
  intros [Hc Hm Hm0 Ha Ha0 Hr] Hl Hrooms. pose proof (zlen_nonneg l). unfold ix_Add. rewrite Hc, u32_small by lia.
  assert (Hlen : zlen (l ++ [(m, zlen l + 1)]) = zlen l + 1) by (rewrite zlen_app; done).
  destruct (mph_ready (part exact (l ++ [(m, zlen l + 1)]))) as (h & _ & _ & Hh & _).
  destruct (ac_ready _ Hrooms) as [a Hac]. pose proof Hh as Hh'. pose proof Hac as Hac'.
  rewrite part_snoc, mph_Add_matchers_app, Hm in Hh'. rewrite part_snoc, Add_matchers_app, Ha in Hac'. cbn [mbind option_bind] in *.
  destruct m as [p|p|p|r]; cbn [exact keyword pattern] in *; cbn [mph_Add_matchers Add_matchers mbind option_bind] in *.
  - destruct (mph_AddFullMatcher p (zlen l + 1) _) as [h'|]; [|done]. injection Hh' as ->. eexists. split; [done|].
    split; cbn [ix_count ix_mph ix_ac ix_regex from_option id]; try done; rewrite part_snoc, app_nil_r; done.
  - destruct (mph_AddDomainMatcher p (zlen l + 1) _) as [h'|]; [|done]. injection Hh' as ->. eexists. split; [done|].
    split; cbn [ix_count ix_mph ix_ac ix_regex from_option id]; try done; rewrite part_snoc, app_nil_r; done.
  - destruct (StrAC.AddSubstrMatcher p (zlen l + 1) _) as [a'|]; [|done]. injection Hac' as ->. eexists. split; [done|].
    split; cbn [ix_count ix_mph ix_ac ix_regex from_option id]; try done; rewrite part_snoc, app_nil_r; done.
  - eexists. split; [done|].
    split; cbn [ix_count ix_mph ix_ac ix_regex from_option id]; try done; rewrite part_snoc; cbn [exact keyword pattern]; rewrite ?app_nil_r; try done.
    unfold AddMatcher. by rewrite Hr.
Qed.

Lemma rooms_app l l' : rooms (l ++ l') = rooms l + rooms l'.
Proof. induction l as [|e l IH]; cbn [app rooms]; lia. Qed.

(** Adding a list of matchers. *)
Fixpoint number (k : Z) ms : list (Matcher Regexp * Z) :=
  match ms with
  | [] => []
  | m :: ms => (m, k + 1) :: number (k + 1) ms
  end.

Lemma number_indexed ms : number 0 ms = indexed ms.
Proof.
  unfold indexed. assert (Hgen : forall k, number k ms = imap (fun i m => (m, k + Z.of_nat i + 1)) ms); [|by rewrite Hgen].
  induction ms as [|m ms IH]; intros k; [done|]. cbn [number imap]. rewrite IH. f_equal; [f_equal; lia|].
  apply imap_ext. intros i x _. cbn. f_equal. lia.
Qed.

Lemma ix_Add_all_holds ms l g :
  index_holds l g -> zlen l + zlen ms < 2 ^ 32 -> rooms (part keyword (l ++ number (zlen l) ms)) + 2 < 2 ^ 32 ->
  exists g', ix_Add_all ms g = Some g' /\ index_holds (l ++ number (zlen l) ms) g'.
Proof.
  revert l g. induction ms as [|m ms IH]; intros l g Hg Hl Hr; [exists g; by rewrite app_nil_r|].
  cbn [ix_Add_all number] in *. rewrite zlen_cons in Hl. pose proof (zlen_nonneg ms). rewrite cons_middle, app_assoc in *.
  assert (Hlen : zlen (l ++ [(m, zlen l + 1)]) = zlen l + 1) by (rewrite zlen_app; done).
  destruct (ix_Add_holds l g m Hg) as (g1 & -> & H1); [lia| |].
  { unfold part in Hr. rewrite List.filter_app, rooms_app in Hr.
    match type of Hr with _ + rooms ?x + _ < _ => pose proof (rooms_nonneg x) end. unfold part. lia. }
  cbn [mbind option_bind]. specialize (IH (l ++ [(m, zlen l + 1)]) g1 H1). rewrite Hlen in IH. apply IH; [lia|done].
Qed.

(** ** The answers of the parts *)
Context (strhash : bytes -> Z -> Z) (sortSlice : (nat -> nat -> bool) -> list nat -> list nat).
Context (Hsort : forall less (idxs : list nat), sortSlice less idxs ≡ₚ idxs).

(** [r] is what the matchers [l] answer on [s]. *)
Definition answers l s (r : list Z) : Prop := forall v, v ∈ r <-> exists m, (m, v) ∈ l /\ Match MatchString m s = true.

Definition any l s : bool := existsb (fun e => Match MatchString e.1 s) l.

Lemma answers_nil s : answers [] s [].
Proof. intros v. rewrite elem_of_nil. split; [done|]. by intros (m & ?%elem_of_nil & _). Qed.

Lemma answers_app l l' s r r' : answers l s r -> answers l' s r' -> answers (l ++ l') s (r ++ r').
Proof. intros H H' v. rewrite elem_of_app, (H v), (H' v). setoid_rewrite elem_of_app. naive_solver. Qed.

Lemma mph_part l N fuel s :
  Forall (fun e => mph_usable e.1) l -> 2 * zlen l < 2 ^ 31 -> spreads strhash sortSlice (patterns l) N -> N <= 2 ^ 32 -> Z.of_nat fuel = N ->
  exists h r, mph_of strhash sortSlice fuel l = Some h /\ mph_Match strhash h s = Some r /\ answers l s r /\
    mph_MatchAny strhash h s = Some (any l s).
Proof.
  intros Hu Hl Hsp HN Hf. destruct (mph_of_spec strhash sortSlice Hsort l N fuel Hl Hsp HN Hf) as (g & rs & Hg & Hb).
  destruct (mph_Match_holds MatchString strhash l rs g s Hu Hb) as (r & Hr & Hv). exists g, r.
  split; [done|]. split; [done|]. split; [exact Hv|]. by apply (mph_MatchAny_holds MatchString strhash l rs).
Qed.

Lemma ac_part l s :
  Forall (fun e => ac_usable e.1) l -> rooms l + 2 < 2 ^ 32 -> is_domain s ->
  exists a r, built l = Some a /\ ac_Match a s = Some r /\ answers l s r /\ ac_MatchAny a s = Some (any l s).
Proof.
  intros Hu Hb Hs. destruct (built_spec l Hu Hb) as (words & g & Hg & Hok).
  destruct (ac_Match_holds MatchString words g l s Hu Hok Hs) as (r & Hr & Hv). exists g, r.
  split; [done|]. split; [done|]. split; [exact Hv|]. by apply (ac_MatchAny_holds MatchString words).
Qed.

Lemma regex_part l s : answers l s (simple_Match MatchString l s) /\ simple_MatchAny MatchString l s = any l s.
Proof.
  split; [|done]. intros v. rewrite simple_Match_spec, list_elem_of_omap. split.
  - intros ([m v'] & Hin & E). cbn [fst snd] in E. destruct (Match MatchString m s) eqn:Em; [|done]. injection E as ->. by exists m.
  - intros (m & Hin & Hm). exists (m, v). split; [done|]. cbn. by rewrite Hm.
Qed.

Lemma parts_split l e : e ∈ part exact l ++ part keyword l ++ part pattern l <-> e ∈ l.
Proof.
  destruct e as [m v]. rewrite !elem_of_app, !elem_of_part. destruct m; cbn; naive_solver.
Qed.

Lemma parts_any l s : any (part exact l) s || (any (part keyword l) s || any (part pattern l) s) = any l s.
Proof.
  unfold any. rewrite <- !existsb_app. apply eq_bool_prop_intro. rewrite !Is_true_true, !existsb_elem_of.
  by setoid_rewrite parts_split.
Qed.

Lemma parts_answer l s r : answers (part exact l ++ part keyword l ++ part pattern l) s r -> answers l s r.
Proof. intros Hr v. rewrite (Hr v). by setoid_rewrite parts_split. Qed.

Lemma any_indexed ms s : any (indexed ms) s = existsb (fun m => Match MatchString m s) ms.
Proof.
  unfold any, indexed. assert (Hgen : forall f : nat -> Z, existsb (fun e => Match MatchString e.1 s) (imap (fun i m => (m, f i)) ms) =
    existsb (fun m => Match MatchString m s) ms); [|apply (Hgen (fun i => Z.of_nat i + 1))].
  induction ms as [|m ms IH]; intros f; [done|]. cbn [imap existsb fst]. f_equal. apply (IH (fun i => f (S i))).
Qed.

(** All matchers added to a new index, and then built. *)
Lemma index_added ms :
  2 * zlen ms < 2 ^ 31 -> rooms (part keyword (indexed ms)) + 2 < 2 ^ 32 ->
  exists g, ix_Add_all ms NewMphIndexMatcher = Some g /\ index_holds (indexed ms) g.
Proof.
  intros Hl Hb. destruct (ix_Add_all_holds ms [] NewMphIndexMatcher index_new) as (g & Hg & Hh);
    [change (zlen []) with 0; lia|cbn [app]; change (zlen []) with 0; by rewrite number_indexed|].
  cbn [app] in Hh. change (zlen []) with 0 in Hh. rewrite number_indexed in Hh. by exists g.
Qed.

Lemma indexed_usable ms : Forall index_usable ms -> Forall (fun e => index_usable e.1) (indexed ms).
Proof.
  intros Hu. rewrite Forall_forall in Hu. apply Forall_forall. intros [m k] [_ Hm]%elem_of_indexed. apply Hu.
  by eapply list_elem_of_lookup_2.
Qed.

(** The first two parts are there if they hold a matcher. *)
Lemma built_index l g N fuel s :
  index_holds l g -> Forall (fun e => index_usable e.1) l -> 2 * zlen l < 2 ^ 31 -> rooms (part keyword l) + 2 < 2 ^ 32 ->
  spreads strhash sortSlice (patterns (part exact l)) N -> N <= 2 ^ 32 -> Z.of_nat fuel = N -> is_domain s ->
  exists g' r, ix_Build strhash sortSlice fuel g = Some g' /\ ix_count g' = zlen l /\
    ix_Match MatchString strhash g' s = Some r /\ answers l s r /\ ix_MatchAny MatchString strhash g' s = Some (any l s).
Proof.
  intros [Hc Hm Hm0 Ha Ha0 Hr] Hu Hl Hb Hsp HN Hf Hs.
  assert (Hle : (length (part exact l) <= length l)%nat).
  { unfold part. clear. induction l as [|e l IH]; cbn; [done|]. destruct (exact e.1); cbn; lia. }
  destruct (mph_part (part exact l) N fuel s) as (h & r1 & Hh & Hr1 & Hans1 & Hany1); [|unfold zlen in *; lia|done|done|done|].
  { eapply part_usable; [exact Hu|]. by intros [] ?. }
  destruct (ac_part (part keyword l) s) as (a & r2 & Hac & Hr2 & Hans2 & Hany2); [|done|done|].
  { eapply part_usable; [exact Hu|]. by intros [] ?. }
  destruct (regex_part (part pattern l) s) as [Hans3 Hany3]. unfold mph_of in Hh. rewrite Hm in Hh. unfold built in Hac. rewrite Ha in Hac.
  cbn [mbind option_bind] in Hh, Hac. unfold ix_Build.
  exists {| ix_count := ix_count g; ix_mph := (fun _ => h) <$> ix_mph g; ix_ac := (fun _ => a) <$> ix_ac g; ix_regex := ix_regex g |}.
  exists (match ix_mph g with Some _ => r1 | None => [] end ++ match ix_ac g with Some _ => r2 | None => [] end ++
    simple_Match MatchString (part pattern l) s).
  split; [|split; [exact Hc|split; [|split]]].
  - destruct (ix_mph g) as [h0|]; cbn [from_option id] in Hh; [rewrite Hh|]; cbn [fmap option_fmap option_map mbind option_bind];
      (destruct (ix_ac g) as [a0|]; cbn [from_option id] in Hac; [rewrite Hac|]; done).
  - unfold ix_Match. cbn [ix_mph ix_ac ix_regex].
    assert (E1 : match (fun _ => h) <$> ix_mph g with
      | Some h => m ← mph_Match strhash h s; Some (found (Some m) [])
      | None => Some [] end = Some (found ((fun _ => r1) <$> ix_mph g) [])).
    { destruct (ix_mph g); [|done]. cbn [fmap option_fmap option_map]. by rewrite Hr1. }
    assert (E2 : forall result, match (fun _ => a) <$> ix_ac g with
      | Some a => m ← ac_Match a s; Some (found (Some m) result)
      | None => Some result end = Some (found ((fun _ => r2) <$> ix_ac g) result)).
    { intros result. destruct (ix_ac g); [|done]. cbn [fmap option_fmap option_map]. by rewrite Hr2. }
    rewrite E1. cbn [mbind option_bind]. rewrite E2. cbn [mbind option_bind]. f_equal.
    rewrite CompositeMatches_concat, !concat_found, <- Hr. cbn [concat app]. rewrite app_assoc.
    f_equal; [by destruct (ix_mph g), (ix_ac g)|]. by destruct (ix_regex g).
  - apply parts_answer, answers_app; [|apply answers_app; [|exact Hans3]].
    + destruct (ix_mph g); [exact Hans1|]. rewrite Hm0 by done. apply answers_nil.
    + destruct (ix_ac g); [exact Hans2|]. rewrite Ha0 by done. apply answers_nil.
  - unfold ix_MatchAny. cbn [ix_mph ix_ac ix_regex]. rewrite <- parts_any.
    assert (E1 : match (fun _ => h) <$> ix_mph g with Some h => mph_MatchAny strhash h s | None => Some false end = Some (any (part exact l) s)).
    { destruct (ix_mph g); [done|]. by rewrite Hm0. }
    assert (E2 : match (fun _ => a) <$> ix_ac g with Some a => ac_MatchAny a s | None => Some false end = Some (any (part keyword l) s)).
    { destruct (ix_ac g); [done|]. by rewrite Ha0. }
    assert (E3 : match ix_regex g with Some x => simple_MatchAny MatchString x s | None => false end = any (part pattern l) s).
    { rewrite <- Hany3, <- Hr. by destruct (ix_regex g). }
    rewrite E1, E2, E3. cbn [mbind option_bind]. destruct (any (part exact l) s); [done|]. by destruct (any (part keyword l) s).
Qed.
End IndexSpec.

Section IndexTheorem.
Context {Regexp : Type} (MatchString : Regexp -> bytes -> bool).
Context (strhash : bytes -> Z -> Z) (sortSlice : (nat -> nat -> bool) -> list nat -> list nat).

End IndexTheorem.

(** ** Witness: a domain, a keyword and a regular expression *)
Definition demo_index : list (Matcher (bytes -> bool)) :=
  [SubstrMatcher (lit "oo"); DomainMatcher (lit "a"); RegexMatcher (fun s => HasPrefix s (lit "foo"))].

(** The length of a pattern tells its slot. *)
Definition demo_hash (p : bytes) (seed : Z) : Z := zlen p + seed.

