(* ===== verification/RouteCond.v ===== *)
(** * Package app/router: the routing context and the conditions of rules

    [Module RouteCond] models features/routing/session (the context of a
    connection), features/routing/dns (the context that resolves the target
    domain and keeps the answer), condition.go, condition_geoip.go and
    [BuildCondition] of config.go.  Parameters are the DNS client, the regular
    expressions and Punycode behind the string matchers, the IP sets of netipx
    and the starlark programs of attribute conditions.  A world [W] stands for
    what the DNS client knows and remembers. *)
From S2P Require Import Prelude GoStd NetAddr StrMatch StrAC StrMph StrIndex.
Import NetAddr StrMatch StrAC StrMph StrIndex.

Module RouteCond.

(** ** features/routing/session/context.go *)
Record Inbound := mkInbound { Source : Destination; in_Tag : bytes; in_User : option bytes }.
Record Outbound := mkOutbound { Target : Destination }.
Record Content := mkContent { Protocol : bytes; Attributes : option (gmap bytes bytes); SkipDNSResolve : bool }.
Record Context := mkContext { ctx_Inbound : option Inbound; ctx_Outbound : option Outbound; ctx_Content : option Content }.

(** A method call on a nil [Address] is the run-time panic. *)
Definition the_address (d : Destination) : res Address := or_panic (DAddress d).

Definition GetInboundTag (c : Context) : bytes := match ctx_Inbound c with None => [] | Some i => in_Tag i end.

Definition GetSourceIPs (c : Context) : res (list bytes) :=
  match ctx_Inbound c with
  | None => Ok []
  | Some i =>
    if negb (IsValid (Source i)) then Ok []
    else
      a ← the_address (Source i);
      if IsDomain (Family a) then Ok [] else ip ← IP a; Ok [ip]
  end.

Definition GetSourcePort (c : Context) : Port :=
  match ctx_Inbound c with
  | None => 0
  | Some i => if negb (IsValid (Source i)) then 0 else DPort (Source i)
  end.

Definition GetTargetIPs (c : Context) : res (list bytes) :=
  match ctx_Outbound c with
  | None => Ok []
  | Some o =>
    if negb (IsValid (Target o)) then Ok []
    else
      a ← the_address (Target o);
      if IsIP (Family a) then ip ← IP a; Ok [ip] else Ok []
  end.

Definition GetTargetPort (c : Context) : Port :=
  match ctx_Outbound c with
  | None => 0
  | Some o => if negb (IsValid (Target o)) then 0 else DPort (Target o)
  end.

Definition GetTargetDomain (c : Context) : res bytes :=
  match ctx_Outbound c with
  | None => Ok []
  | Some o =>
    if negb (IsValid (Target o)) then Ok []
    else
      a ← the_address (Target o);
      if negb (IsDomain (Family a)) then Ok [] else NetAddr.Domain a
  end.

Definition GetNetwork (c : Context) : Network :=
  match ctx_Outbound c with None => Network_Unknown | Some o => DNetwork (Target o) end.
Definition GetProtocol (c : Context) : bytes := match ctx_Content c with None => [] | Some x => Protocol x end.
Definition GetUser (c : Context) : bytes :=
  match ctx_Inbound c with
  | None => []
  | Some i => match in_User i with None => [] | Some email => email end
  end.
Definition GetAttributes (c : Context) : option (gmap bytes bytes) :=
  match ctx_Content c with None => None | Some x => Attributes x end.
Definition GetSkipDNSResolve (c : Context) : bool :=
  match ctx_Content c with None => false | Some x => SkipDNSResolve x end.

(** ** net/netip, as far as the conditions use it *)
Inductive Addr := Addr4 (a : bytes) | Addr6 (a : bytes).

Definition AddrFromSlice (ip : bytes) : option Addr :=
  match length ip with
  | 4%nat => Some (Addr4 ip)
  | 16%nat => Some (Addr6 ip)
  | _ => None
  end.

(** An IPv4-mapped IPv6 address becomes an IPv4 one. *)
Definition Unmap (a : Addr) : Addr :=
  match a with
  | Addr4 _ => a
  | Addr6 ip =>
    match IPAddress ip with
    | Some (ipv4Address ip4) => Addr4 ip4
    | _ => a
    end
  end.

(** The zero [Prefix] is invalid: [None]. *)
Record Prefix := mkPrefix { p_addr : Addr; p_bits : Z }.
Definition BitLen (a : Addr) : Z := match a with Addr4 _ => 32 | Addr6 _ => 128 end.
Definition PrefixFrom (a : Addr) (bits : Z) : option Prefix :=
  if (0 <=? bits) && (bits <=? BitLen a) then Some {| p_addr := a; p_bits := bits |} else None.

(** Same family and the same leading bits. *)
Definition prefix_Contains (p : Prefix) (a : Addr) : bool :=
  match p_addr p, a with
  | Addr4 x, Addr4 y => Z.shiftr (Z.lxor (get_be x) (get_be y)) (32 - p_bits p) =? 0
  | Addr6 x, Addr6 y => Z.shiftr (Z.lxor (get_be x) (get_be y)) (128 - p_bits p) =? 0
  | _, _ => false
  end.

(** ** The messages of the configuration *)
Inductive Domain_Type := Domain_Plain | Domain_Regex | Domain_RootDomain | Domain_Full | Domain_other (n : Z).
Record DomainRule := mkDomain { d_Type : Domain_Type; d_Value : bytes }.
Record CIDR := mkCIDR { Ip : bytes; c_Prefix : Z }.                       (* uint32 *)
Record GeoIP := mkGeoIP { CountryCode : bytes; Cidr : list CIDR; InverseMatch : bool }.

Inductive target_tag := RoutingRule_Tag (t : bytes) | RoutingRule_BalancingTag (t : bytes) | RoutingRule_None.

Record RoutingRule := mkRule {
  TargetTag : target_tag;
  rr_Domain : list DomainRule;
  GeoDomain : list (list DomainRule);
  UserEmail : list bytes;
  InboundTag : list bytes;
  rr_PortList : option (list PortRange);
  rr_PortRange : option PortRange;
  SourcePortList : option (list PortRange);
  Networks : list Network;
  NetworkList : option (list Network);
  Geoip : list GeoIP;
  rr_Cidr : list CIDR;
  SourceGeoip : list GeoIP;
  SourceCidr : list CIDR;
  rr_Protocol : list bytes;
  rr_Attributes : bytes;
  rr_DomainMatcher : bytes;
}.

Definition net_index (n : Network) : nat :=
  match n with
  | Network_Unknown => 0 | Network_RawTCP => 1 | Network_TCP => 2 | Network_UDP => 3 | Network_UNIX => 4
  end.

(** ** What the conditions call outside the package *)
Class RouteEnv := {
  (** The DNS client and what it remembers. *)
  W : Type;
  LookupIP : bytes -> W -> res (list bytes) * W;
  (** Regular expressions and Punycode, of the string matchers. *)
  Regexp : Type;
  MatchString : Regexp -> bytes -> bool;
  Compile : bytes -> res Regexp;
  ToASCII : bytes -> res bytes;
  (** The hash of the run time, [sort.Slice] and the number of seeds tried, of the
      perfect-hash index. *)
  strhash : bytes -> Z -> Z;
  sortSlice : (nat -> nat -> bool) -> list nat -> list nat;
  seeds : nat;
  (** The IP sets of netipx; a builder reports an invalid prefix ([None]) when the
      set is built. *)
  IPSet : Type;
  buildSet : list (option Prefix) -> res IPSet;
  set_Contains : IPSet -> Addr -> bool;
  FromStdIP : bytes -> option Addr;
  (** The programs of starlark; the truth of "satisfied", if it is there. *)
  File : Type;
  Program : Type;
  Parse : bytes -> res File;
  FileProgram : File -> res Program;
  satisfied : Program -> gmap bytes bytes -> option bool;
}.

Section Conditions.
Context {E : RouteEnv}.

(** ** condition_geoip.go *)
Record GeoIPMatcher := mkGeo { m_countryCode : bytes; reverseMatch : bool; ip4 : IPSet; ip6 : IPSet }.

(** The loop of [Init]: the prefixes of each family. *)
Fixpoint add_prefixes (cidrs : list CIDR) (b4 b6 : list (option Prefix)) : res (list (option Prefix) * list (option Prefix)) :=
  match cidrs with
  | [] => Ok (b4, b6)
  | c :: cidrs =>
    match AddrFromSlice (Ip c) with
    | None => Err (NewError "invalid IP address ")
    | Some a =>
      let a := Unmap a in
      let p := PrefixFrom a (c_Prefix c) in
      match a with
      | Addr4 _ => add_prefixes cidrs (b4 ++ [p]) b6
      | Addr6 _ => add_prefixes cidrs b4 (b6 ++ [p])
      end
    end
  end.

Definition geo_Init (code : bytes) (reverse : bool) (cidrs : list CIDR) : res GeoIPMatcher :=
  '(b4, b6) ← add_prefixes cidrs [] [];
  s4 ← buildSet b4;
  s6 ← buildSet b6;
  Ok {| m_countryCode := code; reverseMatch := reverse; ip4 := s4; ip6 := s6 |}.

Definition match_set (s : IPSet) (ip : bytes) : bool :=
  match FromStdIP ip with None => false | Some nip => set_Contains s nip end.

Definition geo_Match (m : GeoIPMatcher) (ip : bytes) : bool :=
  let isMatched :=
    if zlen ip =? 4 then match_set (ip4 m) ip
    else if zlen ip =? 16 then match_set (ip6 m) ip
    else false in
  if reverseMatch m then negb isMatched else isMatched.

(** The container holds a matcher per country code and direction. *)
Definition same_entry (g : GeoIP) (m : GeoIPMatcher) : bool :=
  bool_decide (m_countryCode m = CountryCode g) && Bool.eqb (reverseMatch m) (InverseMatch g).

Definition container_Add (g : GeoIP) : ST (list GeoIPMatcher) GeoIPMatcher := fun c =>
  match (if decide (CountryCode g <> []) then List.find (same_entry g) c else None) with
  | Some m => (c, Ok m)
  | None =>
    match geo_Init (CountryCode g) (InverseMatch g) (Cidr g) with
    | Ok m => (if decide (CountryCode g <> []) then c ++ [m] else c, Ok m)
    | Err e => (c, Err e)
    | Panic => (c, Panic)
    end
  end.

(** ** condition.go *)
Inductive IndexMatcher := Linear (g : LinearIndexMatcher Regexp) | Mph (g : MphIndexMatcher Regexp).

Inductive Condition :=
  | CDomain (m : IndexMatcher)
  | CMultiGeoIP (matchers : list GeoIPMatcher) (onSource : bool)
  | CPort (port : list MemoryPortRange) (onSource : bool)
  | CNetwork (list : list bool)
  | CUser (user : list bytes)
  | CInboundTag (tags : list bytes)
  | CProtocol (protocols : list bytes)
  | CAttribute (program : Program).

(** [None] is no fuel for a pattern that is not ASCII; two rounds are enough. *)
Definition domainToMatcher (d : DomainRule) : option (res (Matcher Regexp)) :=
  match
    match d_Type d with
    | Domain_Plain => Some Substr
    | Domain_Regex => Some Regex
    | Domain_RootDomain => Some Domain
    | Domain_Full => Some Full
    | Domain_other _ => None
    end
  with
  | None => Some (Err (NewError "unsupported domain type"))
  | Some t =>
    r ← StrMatch.New Compile ToASCII 2 t (d_Value d);
    Some (match r with Err e => Err (Based "failed to create domain matcher" e) | r => r end)
  end.

(** The index matchers behind their interface; a failing step is a panic. *)
Definition NewIndex (matcherType : bytes) : IndexMatcher :=
  if bool_decide (matcherType = lit "mph") || bool_decide (matcherType = lit "hybrid") then Mph NewMphIndexMatcher
  else Linear NewLinearIndexMatcher.

Definition index_Add (m : Matcher Regexp) (x : IndexMatcher) : res IndexMatcher :=
  match x with
  | Linear g => or_panic ('(g, _) ← Add m g; Some (Linear g))
  | Mph g => or_panic ('(g, _) ← ix_Add m g; Some (Mph g))
  end.

Definition index_Build (x : IndexMatcher) : res IndexMatcher :=
  match x with
  | Linear g => Ok (Linear g)
  | Mph g => or_panic (Mph <$> ix_Build strhash sortSlice seeds g)
  end.

Definition index_MatchAny (x : IndexMatcher) (domain : bytes) : res bool :=
  match x with
  | Linear g => or_panic (Linear_MatchAny MatchString g domain)
  | Mph g => or_panic (ix_MatchAny MatchString strhash g domain)
  end.

Fixpoint add_domains (domains : list DomainRule) (x : IndexMatcher) : res IndexMatcher :=
  match domains with
  | [] => Ok x
  | d :: domains =>
    r ← or_panic (domainToMatcher d);
    m ← r;
    x ← index_Add m x;
    add_domains domains x
  end.

Definition NewDomainMatcher (matcherType : bytes) (domains : list DomainRule) : res Condition :=
  x ← add_domains domains (NewIndex matcherType);
  x ← index_Build x;
  Ok (CDomain x).

Fixpoint add_geoips (geoips : list GeoIP) : ST (list GeoIPMatcher) (list GeoIPMatcher) :=
  match geoips with
  | [] => mret []
  | g :: geoips =>
    m ← container_Add g;
    ms ← add_geoips geoips;
    mret (m :: ms)
  end.

Definition NewMultiGeoIPMatcher (geoips : list GeoIP) (onSource : bool) : ST (list GeoIPMatcher) Condition :=
  ms ← add_geoips geoips; mret (CMultiGeoIP ms onSource).

Definition NewPortMatcher (l : list PortRange) (onSource : bool) : Condition := CPort (PortListFromProto l) onSource.

Definition NewNetworkMatcher (network : list Network) : Condition :=
  CNetwork (fold_left (fun l n => <[net_index n := true]> l) network (replicate 8 false)).

Definition not_empty (l : list bytes) : list bytes := filter (fun s => s <> []) l.
Definition NewUserMatcher (users : list bytes) : Condition := CUser (not_empty users).
Definition NewInboundTagMatcher (tags : list bytes) : Condition := CInboundTag (not_empty tags).
Definition NewProtocolMatcher (protocols : list bytes) : Condition := CProtocol (not_empty protocols).

Definition NewAttributeMatcher (code : bytes) : res Condition :=
  match Parse (lit "satisfied=(" ++ code ++ lit ")") with
  | Ok starFile => p ← FileProgram starFile; Ok (CAttribute p)
  | Err e => Err (Based "attr rule" e)
  | Panic => Panic
  end.

(** ** The context a rule is applied to

    Either the context of the connection or one that resolves its domain, with
    the answer it keeps. *)
Inductive rctx := Plain (c : Context) | Resolvable (c : rctx) (resolvedIPs : list bytes).

Fixpoint session_of (c : rctx) : Context := match c with Plain c => c | Resolvable c _ => session_of c end.

Definition ContextWithDNSClient (c : rctx) : rctx := Resolvable c [].

Fixpoint rctx_TargetIPs (c : rctx) (w : W) : res (list bytes * rctx) * W :=
  match c with
  | Plain c0 => (ips ← GetTargetIPs c0; Ok (ips, c), w)
  | Resolvable c0 resolved =>
    match rctx_TargetIPs c0 w with
    | (Ok (ips, c0), w) =>
      if decide (ips <> []) then (Ok (ips, Resolvable c0 resolved), w)
      else if decide (resolved <> []) then (Ok (resolved, Resolvable c0 resolved), w)
      else
        match GetTargetDomain (session_of c0) with
        | Ok domain =>
          if decide (domain <> []) then
            match LookupIP domain w with
            | (Ok ips, w) => (Ok (ips, Resolvable c0 ips), w)
            | (Err _, w) => (Ok ([], Resolvable c0 resolved), w)
            | (Panic, w) => (Panic, w)
            end
          else (Ok ([], Resolvable c0 resolved), w)
        | Err e => (Err e, w)
        | Panic => (Panic, w)
        end
    | r => r
    end
  end.

(** ** Applying a condition *)
Definition domain_Apply (m : IndexMatcher) (c : Context) : res bool :=
  domain ← GetTargetDomain c;
  if decide (domain = []) then Ok false else index_MatchAny m domain.

Definition geo_match_any (matchers : list GeoIPMatcher) (ips : list bytes) : bool :=
  existsb (fun ip => existsb (fun m => geo_Match m ip) matchers) ips.

Definition port_Apply (port : list MemoryPortRange) (onSource : bool) (c : Context) : bool :=
  if onSource then MemoryPortList_Contains port (GetSourcePort c) else MemoryPortList_Contains port (GetTargetPort c).

Definition network_Apply (l : list bool) (c : Context) : res bool := or_panic (l !! net_index (GetNetwork c)).

Definition user_Apply (user : list bytes) (c : Context) : bool :=
  if decide (GetUser c = []) then false else existsb (fun u => bool_decide (u = GetUser c)) user.

Definition tag_Apply (tags : list bytes) (c : Context) : bool :=
  if decide (GetInboundTag c = []) then false else existsb (fun t => bool_decide (t = GetInboundTag c)) tags.

Definition protocol_Apply (protocols : list bytes) (c : Context) : bool :=
  if decide (GetProtocol c = []) then false else existsb (fun p => HasPrefix (GetProtocol c) p) protocols.

Definition attr_Match (program : Program) (attrs : gmap bytes bytes) : bool := default false (satisfied program attrs).
Definition attribute_Apply (program : Program) (c : Context) : bool :=
  match GetAttributes c with None => false | Some attrs => attr_Match program attrs end.

Definition multi_Apply (ms : list GeoIPMatcher) (onSource : bool) (c : rctx) (w : W) : res (bool * rctx) * W :=
  if onSource then (ips ← GetSourceIPs (session_of c); Ok (geo_match_any ms ips, c), w)
  else
    match rctx_TargetIPs c w with
    | (Ok (ips, c), w) => (Ok (geo_match_any ms ips, c), w)
    | (Err e, w) => (Err e, w)
    | (Panic, w) => (Panic, w)
    end.

(** The method behind the interface; only [MultiGeoIPMatcher] resolves. *)
Definition cond_Apply (cond : Condition) (c : rctx) (w : W) : res (bool * rctx) * W :=
  let ctx := session_of c in
  match cond with
  | CDomain m => (b ← domain_Apply m ctx; Ok (b, c), w)
  | CMultiGeoIP ms onSource => multi_Apply ms onSource c w
  | CPort port onSource => (Ok (port_Apply port onSource ctx, c), w)
  | CNetwork l => (b ← network_Apply l ctx; Ok (b, c), w)
  | CUser user => (Ok (user_Apply user ctx, c), w)
  | CInboundTag tags => (Ok (tag_Apply tags ctx, c), w)
  | CProtocol protocols => (Ok (protocol_Apply protocols ctx, c), w)
  | CAttribute program => (Ok (attribute_Apply program ctx, c), w)
  end.

(** All conditions of a rule, up to the first that fails. *)
Fixpoint chan_Apply (conds : list Condition) (c : rctx) (w : W) : res (bool * rctx) * W :=
  match conds with
  | [] => (Ok (true, c), w)
  | cond :: conds =>
    match cond_Apply cond c w with
    | (Ok (true, c), w) => chan_Apply conds c w
    | r => r
    end
  end.

(** ** config.go: [BuildCondition]

    Each part adds at most one condition; the state is the container of GeoIP
    matchers, the global of the package. *)
Definition based {A} (msg : string) (r : res A) : res A := match r with Err e => Err (Based msg e) | r => r end.

Definition cidr_geoip (cidrs : list CIDR) : GeoIP := {| CountryCode := []; Cidr := cidrs; InverseMatch := false |}.

(** The conditions of the parts of a rule, each a list of at most one. *)
Definition no_cond : ST (list GeoIPMatcher) (list Condition) := mret [].
Definition one_cond (r : res Condition) : ST (list GeoIPMatcher) (list Condition) := c ← st_lift r; mret [c].
Definition one_geo (geoips : list GeoIP) (onSource : bool) : ST (list GeoIPMatcher) (list Condition) :=
  c ← NewMultiGeoIPMatcher geoips onSource; mret [c].

Definition domain_cond (msg : string) (matcherType : bytes) (ds : list DomainRule) : ST (list GeoIPMatcher) (list Condition) :=
  if decide (ds <> []) then one_cond (based msg (NewDomainMatcher matcherType ds)) else no_cond.

Definition geoip_cond (geoips : list GeoIP) (cidrs : list CIDR) (onSource : bool) : ST (list GeoIPMatcher) (list Condition) :=
  if decide (geoips <> []) then one_geo geoips onSource
  else if decide (cidrs <> []) then one_geo [cidr_geoip cidrs] onSource
  else no_cond.

(** The parts in the order of the source. *)
Definition parts (rr : RoutingRule) : list (ST (list GeoIPMatcher) (list Condition)) := [
  domain_cond "failed to build domain condition" (rr_DomainMatcher rr) (rr_Domain rr);
  domain_cond "failed to build geo domain condition" (rr_DomainMatcher rr) (concat (GeoDomain rr));
  (if decide (UserEmail rr <> []) then one_cond (Ok (NewUserMatcher (UserEmail rr))) else no_cond);
  (if decide (InboundTag rr <> []) then one_cond (Ok (NewInboundTagMatcher (InboundTag rr))) else no_cond);
  match rr_PortList rr, rr_PortRange rr with
  | Some l, _ => one_cond (Ok (NewPortMatcher l false))
  | None, Some r => one_cond (Ok (NewPortMatcher [r] false))
  | None, None => no_cond
  end;
  match SourcePortList rr with Some l => one_cond (Ok (NewPortMatcher l true)) | None => no_cond end;
  (if decide (Networks rr <> []) then one_cond (Ok (NewNetworkMatcher (Networks rr)))
   else match NetworkList rr with Some l => one_cond (Ok (NewNetworkMatcher l)) | None => no_cond end);
  geoip_cond (Geoip rr) (rr_Cidr rr) false;
  geoip_cond (SourceGeoip rr) (SourceCidr rr) true;
  (if decide (rr_Protocol rr <> []) then one_cond (Ok (NewProtocolMatcher (rr_Protocol rr))) else no_cond);
  (if decide (rr_Attributes rr <> []) then one_cond (NewAttributeMatcher (rr_Attributes rr)) else no_cond) ].

Fixpoint run_parts (ps : list (ST (list GeoIPMatcher) (list Condition))) : ST (list GeoIPMatcher) (list Condition) :=
  match ps with
  | [] => mret []
  | p :: ps => l ← p; l' ← run_parts ps; mret (l ++ l')
  end.

Definition BuildCondition (rr : RoutingRule) : ST (list GeoIPMatcher) (list Condition) :=
  conds ← run_parts (parts rr);
  if decide (conds = []) then st_err (NewError "this rule has no effective fields") else mret conds.

(** ** What a rule means

    A prefix holds an address of its family with the same leading bits. *)
Definition cidr_holds (ip : bytes) (c : CIDR) : bool :=
  match AddrFromSlice (Ip c), AddrFromSlice ip with
  | Some a, Some x => match PrefixFrom (Unmap a) (c_Prefix c) with Some p => prefix_Contains p x | None => false end
  | _, _ => false
  end.
Definition geoip_holds (ip : bytes) (g : GeoIP) : bool := xorb (InverseMatch g) (existsb (cidr_holds ip) (Cidr g)).
Definition geoips_hold (ips : list bytes) (gs : list GeoIP) : bool := existsb (fun ip => existsb (geoip_holds ip) gs) ips.

Definition domain_holds (s : bytes) (d : DomainRule) : bool :=
  match domainToMatcher d with Some (Ok m) => Match MatchString m s | _ => false end.

Definition ok_list {A} (r : res (list A)) : list A := match r with Ok l => l | _ => [] end.
Definition target_domain (c : Context) : bytes := ok_list (GetTargetDomain c).
Definition source_ips (c : Context) : list bytes := ok_list (GetSourceIPs c).

(** A field that is not set asks for nothing. *)
Definition unless_empty {A} (l : list A) (b : bool) : bool := if decide (l = []) then true else b.

Definition one_of (s : bytes) (l : list bytes) : bool := negb (bool_decide (s = [])) && bool_decide (s ∈ l).

(** The rule accepts a connection whose target has the addresses [ips]. *)
Definition accepts_domain (ds : list DomainRule) (c : Context) : bool :=
  unless_empty ds (negb (bool_decide (target_domain c = [])) && existsb (domain_holds (target_domain c)) ds).
Definition accepts_user (rr : RoutingRule) (c : Context) : bool := unless_empty (UserEmail rr) (one_of (GetUser c) (UserEmail rr)).
Definition accepts_inbound (rr : RoutingRule) (c : Context) : bool := unless_empty (InboundTag rr) (one_of (GetInboundTag c) (InboundTag rr)).
Definition accepts_ports (l : option (list PortRange)) (p : Port) : bool :=
  match l with Some l => existsb (fun r => PortRange_Contains r p) l | None => true end.
Definition ports_of (rr : RoutingRule) : option (list PortRange) :=
  match rr_PortList rr, rr_PortRange rr with Some l, _ => Some l | None, Some r => Some [r] | None, None => None end.
Definition accepts_network (rr : RoutingRule) (c : Context) : bool :=
  if decide (Networks rr <> []) then HasNetwork (Networks rr) (GetNetwork c)
  else match NetworkList rr with Some l => HasNetwork l (GetNetwork c) | None => true end.
Definition accepts_ips (geoips : list GeoIP) (cidrs : list CIDR) (ips : list bytes) : bool :=
  if decide (geoips <> []) then geoips_hold ips geoips else unless_empty cidrs (geoips_hold ips [cidr_geoip cidrs]).
Definition accepts_protocol (rr : RoutingRule) (c : Context) : bool :=
  unless_empty (rr_Protocol rr) (negb (bool_decide (GetProtocol c = [])) &&
    existsb (fun p => negb (bool_decide (p = [])) && HasPrefix (GetProtocol c) p) (rr_Protocol rr)).
Definition accepts_attributes (rr : RoutingRule) (c : Context) : bool :=
  unless_empty (rr_Attributes rr)
    match GetAttributes c, Parse (lit "satisfied=(" ++ rr_Attributes rr ++ lit ")") ≫= FileProgram with
    | Some attrs, Ok p => default false (satisfied p attrs)
    | _, _ => false
    end.

Definition rule_accepts (rr : RoutingRule) (c : Context) (ips : list bytes) : bool :=
  accepts_domain (rr_Domain rr) c && accepts_domain (concat (GeoDomain rr)) c && accepts_user rr c && accepts_inbound rr c &&
  accepts_ports (ports_of rr) (GetTargetPort c) && accepts_ports (SourcePortList rr) (GetSourcePort c) && accepts_network rr c &&
  accepts_ips (Geoip rr) (rr_Cidr rr) ips && accepts_ips (SourceGeoip rr) (SourceCidr rr) (source_ips c) &&
  accepts_protocol rr c && accepts_attributes rr c.

(** Some field of the rule is set. *)
Definition effective (rr : RoutingRule) : Prop :=
  rr_Domain rr <> [] \/ concat (GeoDomain rr) <> [] \/ UserEmail rr <> [] \/ InboundTag rr <> [] \/ is_Some (ports_of rr) \/
  is_Some (SourcePortList rr) \/ Networks rr <> [] \/ is_Some (NetworkList rr) \/ Geoip rr <> [] \/ rr_Cidr rr <> [] \/
  SourceGeoip rr <> [] \/ SourceCidr rr <> [] \/ rr_Protocol rr <> [] \/ rr_Attributes rr <> [].

(** The addresses of a connection are there and well formed. *)
Definition dest_ok (d : Destination) : Prop := IsValid d = true -> exists a, DAddress d = Some a /\ addr_wf a.
Definition ctx_ok (c : Context) : Prop :=
  (forall i, ctx_Inbound c = Some i -> dest_ok (Source i)) /\ (forall o, ctx_Outbound c = Some o -> dest_ok (Target o)).

(** An address of 4 bytes, or of 16 that are not the mapped form of 4. *)
Definition ip_ok (ip : bytes) : Prop := exists a, AddrFromSlice ip = Some a /\ Unmap a = a.

(** The lists of domains the index matchers are made for, on the input [s]. *)
Definition is_mph (matcherType : bytes) : bool :=
  bool_decide (matcherType = lit "mph") || bool_decide (matcherType = lit "hybrid").
Definition domains_ready (matcherType : bytes) (ds : list DomainRule) (s : bytes) : Prop :=
  exists ms, Forall2 (fun d m => domainToMatcher d = Some (Ok m)) ds ms /\
    if is_mph matcherType
    then 2 * zlen ms < 2 ^ 31 /\ Forall index_usable ms /\ rooms (part keyword (indexed ms)) + 2 < 2 ^ 32 /\
         spreads strhash sortSlice (patterns (part exact (indexed ms))) (Z.of_nat seeds) /\ Z.of_nat seeds <= 2 ^ 32 /\ is_domain s
    else zlen ms <= 65536 /\ Forall usable ms /\ zlen s < 65536.

(** The prefixes are valid; a country code always names the same prefixes. *)
Definition cidr_ok (c : CIDR) : Prop := exists a p, AddrFromSlice (Ip c) = Some a /\ PrefixFrom (Unmap a) (c_Prefix c) = Some p.
Definition geoip_ok (country : bytes -> list CIDR) (g : GeoIP) : Prop :=
  Forall cidr_ok (Cidr g) /\ (CountryCode g = [] \/ Cidr g = country (CountryCode g)).
Definition container_ok (country : bytes -> list CIDR) (c : list GeoIPMatcher) : Prop :=
  Forall (fun m => geo_Init (m_countryCode m) (reverseMatch m) (country (m_countryCode m)) = Ok m) c.

(** The rule can be built, for a connection to the domain [s]. *)
Record rule_ready (country : bytes -> list CIDR) (rr : RoutingRule) (s : bytes) : Prop := {
  ry_effective : effective rr;
  ry_domain : rr_Domain rr <> [] -> domains_ready (rr_DomainMatcher rr) (rr_Domain rr) s;
  ry_geodomain : concat (GeoDomain rr) <> [] -> domains_ready (rr_DomainMatcher rr) (concat (GeoDomain rr)) s;
  ry_geoip : Forall (geoip_ok country) (Geoip rr) /\ Forall cidr_ok (rr_Cidr rr);
  ry_source : Forall (geoip_ok country) (SourceGeoip rr) /\ Forall cidr_ok (SourceCidr rr);
  ry_attributes : rr_Attributes rr <> [] ->
    exists p, Parse (lit "satisfied=(" ++ rr_Attributes rr ++ lit ")") ≫= FileProgram = Ok p;
}.
End Conditions.

(** ** What the parameters promise *)
Class RouteEnvOk {E : RouteEnv} : Prop := {
  (** netipx.FromStdIP unmaps. *)
  FromStdIP_unmaps : forall ip, FromStdIP ip = Unmap <$> AddrFromSlice ip;
  (** A set holds what its prefixes hold, and valid prefixes make a set. *)
  buildSet_ok : forall ps, Forall is_Some ps -> exists s, buildSet ps = Ok s /\
    forall a, set_Contains s a = existsb (fun p => match p with Some p => prefix_Contains p a | None => false end) ps;
  sortSlice_perm : forall less l, sortSlice less l ≡ₚ l;
}.
End RouteCond.
Import RouteCond.

(** The case of a disjunction that is a hypothesis. *)
Ltac pick_case := first [assumption | left; pick_case | right; pick_case].

Section RouteLemmas.
Context {E : RouteEnv}.

(** ** Addresses of a connection *)
Lemma addr_ip_ok a ip : addr_wf a -> IP a = Ok ip -> ip_ok ip.
Proof.
  intros Ha Hip. unfold ip_ok, AddrFromSlice. destruct a as [x|x|]; [| |done]; injection Hip as ->; cbn in Ha.
  - rewrite Ha. by exists (Addr4 ip).
  - destruct Ha as [Hl Ha]. rewrite Hl. exists (Addr6 ip). split; [done|]. cbn. by rewrite Ha.
Qed.

Lemma dest_getters (d : Destination) : dest_ok d -> IsValid d = true -> exists a, the_address d = Ok a /\ addr_wf a.
Proof. intros Hd (a & Ha & Hw)%Hd. exists a. unfold the_address. by rewrite Ha. Qed.

Lemma GetTargetDomain_ok c : ctx_ok c -> GetTargetDomain c = Ok (target_domain c).
Proof.
  intros [_ Ho]. unfold target_domain. assert (exists d, GetTargetDomain c = Ok d) as [d ->]; [|done].
  unfold GetTargetDomain. destruct (ctx_Outbound c) as [o|]; [|by eexists]. destruct (IsValid (Target o)) eqn:Ev; cbn [negb]; [|by eexists].
  destruct (dest_getters _ (Ho o eq_refl) Ev) as (a & -> & Ha). cbn [mbind res_bind]. destruct a; by eexists.
Qed.

Lemma GetSourceIPs_ok c : ctx_ok c -> GetSourceIPs c = Ok (source_ips c) /\ Forall ip_ok (source_ips c).
Proof.
  intros [Hi _]. unfold source_ips. assert (exists l, GetSourceIPs c = Ok l /\ Forall ip_ok l) as (l & -> & Hl); [|done].
  unfold GetSourceIPs. destruct (ctx_Inbound c) as [i|]; [|by eexists]. destruct (IsValid (Source i)) eqn:Ev; cbn [negb]; [|by eexists].
  destruct (dest_getters _ (Hi i eq_refl) Ev) as (a & -> & Ha). cbn [mbind res_bind]. destruct a as [x|x|]; [| |by eexists].
  - exists [x]. split; [done|]. apply Forall_singleton. by apply (addr_ip_ok (ipv4Address x)).
  - exists [x]. split; [done|]. apply Forall_singleton. by apply (addr_ip_ok (ipv6Address x)).
Qed.

Lemma GetTargetIPs_ok c : ctx_ok c -> exists ips, GetTargetIPs c = Ok ips /\ Forall ip_ok ips.
Proof.
  intros [_ Ho]. unfold GetTargetIPs. destruct (ctx_Outbound c) as [o|]; [|by eexists]. destruct (IsValid (Target o)) eqn:Ev; cbn [negb]; [|by eexists].
  destruct (dest_getters _ (Ho o eq_refl) Ev) as (a & -> & Ha). cbn [mbind res_bind]. destruct a as [x|x|]; [| |by eexists].
  - exists [x]. split; [done|]. apply Forall_singleton. by apply (addr_ip_ok (ipv4Address x)).
  - exists [x]. split; [done|]. apply Forall_singleton. by apply (addr_ip_ok (ipv6Address x)).
Qed.

(** ** GeoIP matchers *)
Section Geo.
Context {Hok : RouteEnvOk}.

Definition in_prefixes (ps : list (option Prefix)) (a : Addr) : bool :=
  existsb (fun p => match p with Some p => prefix_Contains p a | None => false end) ps.

Lemma add_prefixes_spec cidrs b4 b6 :
  Forall cidr_ok cidrs -> Forall is_Some b4 -> Forall is_Some b6 ->
  exists b4' b6', add_prefixes cidrs b4 b6 = Ok (b4', b6') /\ Forall is_Some b4' /\ Forall is_Some b6' /\
    forall ip a, AddrFromSlice ip = Some a ->
      match a with
      | Addr4 _ => in_prefixes b4' a = in_prefixes b4 a || existsb (cidr_holds ip) cidrs
      | Addr6 _ => in_prefixes b6' a = in_prefixes b6 a || existsb (cidr_holds ip) cidrs
      end.
Proof.
  intros Hc. revert b4 b6. induction Hc as [|c cidrs (x & p & Hx & Hp) Hc IH]; intros b4 b6 H4 H6; cbn [add_prefixes].
  { exists b4, b6. split; [done|]. split; [done|]. split; [done|]. intros ip [a|a] _; by rewrite orb_false_r. }
  rewrite Hx. cbn zeta. rewrite Hp.
  assert (Hat : forall ip a, AddrFromSlice ip = Some a -> cidr_holds ip c = prefix_Contains p a).
  { intros ip a Ha. unfold cidr_holds. by rewrite Hx, Ha, Hp. }
  assert (Hpa : p_addr p = Unmap x) by (unfold PrefixFrom in Hp; case_match; [by injection Hp as <-|done]).
  assert (Hone : forall q b a, in_prefixes (b ++ [Some q]) a = in_prefixes b a || prefix_Contains q a).
  { intros q b a. unfold in_prefixes. rewrite existsb_app. cbn. by rewrite orb_false_r. }
  assert (Hsnoc : forall b, Forall is_Some b -> Forall is_Some (b ++ [Some p])).
  { intros b Hb. apply Forall_app. split; [done|]. apply Forall_singleton. by exists p. }
  destruct (Unmap x) as [u|u] eqn:Eu.
  - destruct (IH (b4 ++ [Some p]) b6) as (b4' & b6' & -> & F4 & F6 & Hin); [by apply Hsnoc|done|].
    exists b4', b6'. split; [done|]. split; [done|]. split; [done|]. intros ip a Ha. specialize (Hin ip a Ha). cbn [existsb].
    rewrite (Hat ip a Ha). destruct a as [y|y]; [|unfold prefix_Contains; rewrite Hpa; exact Hin].
    by rewrite Hin, Hone, orb_assoc.
  - destruct (IH b4 (b6 ++ [Some p])) as (b4' & b6' & -> & F4 & F6 & Hin); [done|by apply Hsnoc|].
    exists b4', b6'. split; [done|]. split; [done|]. split; [done|]. intros ip a Ha. specialize (Hin ip a Ha). cbn [existsb].
    rewrite (Hat ip a Ha). destruct a as [y|y]; [unfold prefix_Contains; rewrite Hpa; exact Hin|].
    by rewrite Hin, Hone, orb_assoc.
Qed.

Lemma geo_Init_spec code rev cidrs :
  Forall cidr_ok cidrs ->
  exists m, geo_Init code rev cidrs = Ok m /\ m_countryCode m = code /\ reverseMatch m = rev /\
    forall ip, ip_ok ip -> geo_Match m ip = xorb rev (existsb (cidr_holds ip) cidrs).
Proof.
  intros Hc. unfold geo_Init. destruct (add_prefixes_spec cidrs [] [] Hc) as (b4 & b6 & -> & F4 & F6 & Hin); [constructor..|].
  cbn [mbind res_bind]. destruct (buildSet_ok b4 F4) as (s4 & -> & H4). destruct (buildSet_ok b6 F6) as (s6 & -> & H6). cbn [mbind res_bind].
  eexists. split; [done|]. split; [done|]. split; [done|]. intros ip (a & Ha & Hu). unfold geo_Match, match_set. cbn [reverseMatch RouteCond.ip4 RouteCond.ip6].
  rewrite FromStdIP_unmaps, Ha. cbn [fmap option_fmap option_map]. rewrite Hu. specialize (Hin ip a Ha).
  assert (Hm : (if zlen ip =? 4 then set_Contains s4 a else if zlen ip =? 16 then set_Contains s6 a else false) = existsb (cidr_holds ip) cidrs).
  { unfold AddrFromSlice in Ha. unfold zlen. destruct (length ip) as [|[|[|[|[|n]]]]] eqn:El; try done.
    - injection Ha as <-. cbn. rewrite H4. exact Hin.
    - do 11 (destruct n as [|n]; [done|]). destruct n as [|n]; [|done]. injection Ha as <-. cbn. rewrite H6. exact Hin. }
  rewrite Hm. by destruct rev, (existsb _ _).
Qed.

Lemma container_Add_spec country g c :
  container_ok country c -> geoip_ok country g ->
  exists c' m, container_Add g c = (c', Ok m) /\ container_ok country c' /\ forall ip, ip_ok ip -> geo_Match m ip = geoip_holds ip g.
Proof.
  intros Hc [Hg Hcode]. unfold container_Add.
  destruct (if decide (CountryCode g <> []) then List.find (same_entry g) c else None) as [m|] eqn:Ef.
  - case_decide as Hne; [|done]. apply find_some in Ef as [Hin Hs]. exists c, m. split; [done|]. split; [done|].
    apply andb_true_iff in Hs as [Hs1%bool_decide_eq_true Hs2%eqb_prop].
    unfold container_ok in Hc. rewrite Forall_forall in Hc. specialize (Hc m ltac:(by apply list_elem_of_In)). rewrite Hs1, Hs2 in Hc.
    destruct Hcode as [?|Hcode]; [done|]. rewrite <- Hcode in Hc. intros ip Hip.
    destruct (geo_Init_spec (CountryCode g) (InverseMatch g) (Cidr g) Hg) as (m' & Hm' & _ & _ & Hmatch). rewrite Hm' in Hc. injection Hc as ->. by apply Hmatch.
  - destruct (geo_Init_spec (CountryCode g) (InverseMatch g) (Cidr g) Hg) as (m & Hi & H1 & H2 & Hm). rewrite Hi. eexists _, m.
    split; [done|]. split; [|exact Hm]. case_decide as Hne; [|done]. apply Forall_app. split; [done|]. apply Forall_singleton.
    rewrite H1, H2. by destruct Hcode as [?|<-].
Qed.

Lemma add_geoips_spec country gs c :
  container_ok country c -> Forall (geoip_ok country) gs ->
  exists c' ms, add_geoips gs c = (c', Ok ms) /\ container_ok country c' /\
    Forall2 (fun g m => forall ip, ip_ok ip -> geo_Match m ip = geoip_holds ip g) gs ms.
Proof.
  intros Hc Hg. revert c Hc. induction Hg as [|g gs Hg Hgs IH]; intros c Hc; cbn [add_geoips]; [by exists c, []|].
  destruct (container_Add_spec country g c Hc Hg) as (c1 & m & E1 & Hc1 & Hm). destruct (IH c1 Hc1) as (c2 & ms & E2 & Hc2 & Hms).
  exists c2, (m :: ms). unfold mbind, st_bind. rewrite E1, E2. split; [done|]. split; [done|]. by constructor.
Qed.

Lemma geo_match_any_spec gs ms ips :
  Forall2 (fun g m => forall ip, ip_ok ip -> geo_Match m ip = geoip_holds ip g) gs ms -> Forall ip_ok ips ->
  geo_match_any ms ips = geoips_hold ips gs.
Proof.
  intros Hg Hips. unfold geo_match_any, geoips_hold. induction Hips as [|ip ips Hip Hips IH]; [done|]. cbn [existsb]. f_equal; [|exact IH].
  clear IH. induction Hg as [|g m gs ms Hgm Hg IH]; [done|]. cbn [existsb]. f_equal; [by apply Hgm|exact IH].
Qed.

(** ** Domain matchers *)
Lemma add_domains_spec ds ms x :
  Forall2 (fun d m => domainToMatcher d = Some (Ok m)) ds ms ->
  add_domains ds x = match x with
                     | Linear g => or_panic (Linear <$> Add_all ms g)
                     | Mph g => or_panic (Mph <$> ix_Add_all ms g)
                     end.
Proof.
  intros Hds. revert x. induction Hds as [|d m ds ms Hd Hds IH]; intros x; cbn [add_domains]; [by destruct x|].
  rewrite Hd. cbn [or_panic mbind res_bind]. destruct x as [g|g]; cbn [index_Add Add_all ix_Add_all].
  - destruct (Add m g) as [[g' k]|]; cbn [mbind option_bind or_panic res_bind]; [by rewrite IH|done].
  - destruct (ix_Add m g) as [[g' k]|]; cbn [mbind option_bind or_panic res_bind]; [by rewrite IH|done].
Qed.

Lemma domain_holds_any ds ms s :
  Forall2 (fun d m => domainToMatcher d = Some (Ok m)) ds ms ->
  existsb (fun m => Match MatchString m s) ms = existsb (domain_holds s) ds.
Proof.
  induction 1 as [|d m ds ms Hd _ IH]; [done|]. cbn [existsb]. f_equal; [|exact IH]. unfold domain_holds. by rewrite Hd.
Qed.

Lemma NewDomainMatcher_spec mt ds s :
  domains_ready mt ds s ->
  exists x, NewDomainMatcher mt ds = Ok (CDomain x) /\ index_MatchAny x s = Ok (existsb (domain_holds s) ds).
Proof.
  intros (ms & Hms & Hready). unfold NewDomainMatcher. rewrite (add_domains_spec ds ms) by done. unfold NewIndex. fold (is_mph mt).
  rewrite <- (domain_holds_any ds ms s Hms). destruct (is_mph mt).
  - destruct Hready as (Hl & Hu & Hb & Hsp & HN & Hs). destruct (index_added ms Hl Hb) as (g & -> & Hg).
    assert (Hz : zlen (indexed ms) = zlen ms) by (unfold zlen, indexed; by rewrite length_imap).
    destruct (built_index MatchString strhash sortSlice sortSlice_perm (indexed ms) g (Z.of_nat seeds) seeds s Hg (indexed_usable ms Hu))
      as (g' & r & Hg' & _ & _ & _ & Hany); [lia|done..|].
    cbn [fmap option_fmap option_map or_panic mbind res_bind index_Build]. rewrite Hg'. exists (Mph g'). split; [done|].
    cbn [index_MatchAny]. by rewrite Hany, any_indexed.
  - destruct Hready as (Hl & Hu & Hs). destruct (New_holds ms) as (g & -> & Hg); [lia|].
    destruct (linear_answers MatchString ms g s Hg Hl Hu Hs) as (r & _ & _ & Hany). exists (Linear g). split; [done|].
    cbn [index_MatchAny]. by rewrite Hany.
Qed.

(** ** Conditions in a context

    [ans] is what the DNS client answers about the target domain, at any time. *)
Section Tells.
Context (ctx : Context) (ans : res (list bytes)).
Context (Hctx : ctx_ok ctx) (Hans : forall w, (LookupIP (target_domain ctx) w).1 = ans) (Hnopanic : ans <> Panic).

(** The target addresses a context gives, and what it may have kept. *)
Definition resolved_ips : list bytes := if decide (target_domain ctx = []) then [] else ok_list ans.
Definition gives (ips : list bytes) (c : rctx) : Prop :=
  match c with
  | Plain c => c = ctx /\ GetTargetIPs ctx = Ok ips
  | Resolvable (Plain c) kept =>
    c = ctx /\ (kept = [] \/ kept = resolved_ips) /\
    exists own, GetTargetIPs ctx = Ok own /\ ips = if decide (own <> []) then own else resolved_ips
  | _ => False
  end.

Lemma gives_session ips c : gives ips c -> session_of c = ctx.
Proof. by destruct c as [c|[c|] kept]; cbn; [intros [-> _]|intros [-> _]|]. Qed.

Lemma rctx_TargetIPs_spec ips c w :
  gives ips c -> exists c' w', rctx_TargetIPs c w = (Ok (ips, c'), w') /\ gives ips c'.
Proof.
  destruct c as [c|[c|] kept]; cbn [gives rctx_TargetIPs]; [| |done].
  - intros [-> H]. rewrite H. by exists (Plain ctx), w.
  - intros (-> & Hk & own & Hown & ->). rewrite Hown. cbn [mbind res_bind]. destruct (decide (own <> [])) as [Hne|He].
    { exists (Resolvable (Plain ctx) kept), w. split; [done|]. cbn [gives]. split; [done|]. split; [done|]. exists own. by rewrite decide_True. }
    assert (Hg : forall k, k = [] \/ k = resolved_ips -> gives resolved_ips (Resolvable (Plain ctx) k)).
    { intros k Hk'. split; [done|]. split; [done|]. exists own. by rewrite decide_False. }
    destruct (decide (kept <> [])) as [Hkn|Hke].
    { destruct Hk as [->| ->]; [done|]. exists (Resolvable (Plain ctx) resolved_ips), w. split; [done|]. by apply Hg; right. }
    cbn [session_of]. rewrite (GetTargetDomain_ok ctx Hctx).
    destruct (decide (target_domain ctx <> [])) as [Hd|Hd].
    + specialize (Hans w). destruct (LookupIP (target_domain ctx) w) as [r w']. cbn in Hans. subst r.
      assert (Hr : resolved_ips = ok_list ans) by (unfold resolved_ips; by rewrite decide_False).
      destruct ans as [l|e|]; [| |done]; cbn [ok_list] in Hr.
      * exists (Resolvable (Plain ctx) l), w'. rewrite <- Hr. split; [done|]. by apply Hg; right.
      * exists (Resolvable (Plain ctx) kept), w'. rewrite Hr in Hk |- *. rewrite Hr in Hg. split; [done|]. by apply Hg.
    + assert (Hr : resolved_ips = []) by (unfold resolved_ips; rewrite decide_True; [done|by apply dec_stable]).
      exists (Resolvable (Plain ctx) kept), w. rewrite Hr in Hk, Hg |- *. split; [done|]. by apply Hg.
Qed.

(** In every context that gives [ips] the conditions answer [b]. *)
Definition tells (ips : list bytes) (conds : list Condition) (b : bool) : Prop :=
  forall c w, gives ips c -> exists c' w', chan_Apply conds c w = (Ok (b, c'), w') /\ gives ips c'.

Lemma tells_nil ips : tells ips [] true.
Proof. intros c w Hc. by exists c, w. Qed.

Lemma chan_Apply_app l1 l2 c w :
  chan_Apply (l1 ++ l2) c w = match chan_Apply l1 c w with (Ok (true, c), w) => chan_Apply l2 c w | r => r end.
Proof.
  revert c w. induction l1 as [|x l1 IH]; intros c w; [done|]. cbn [app chan_Apply].
  destruct (cond_Apply x c w) as [[[[] cx]|e|] wx]; try done.
Qed.

Lemma tells_app ips l1 l2 b1 b2 : tells ips l1 b1 -> tells ips l2 b2 -> tells ips (l1 ++ l2) (b1 && b2).
Proof.
  intros H1 H2 c w Hc. rewrite chan_Apply_app. destruct (H1 c w Hc) as (c1 & w1 & -> & Hc1).
  destruct b1; [by apply H2|by exists c1, w1].
Qed.

Lemma tells_one ips cond b :
  (forall c w, gives ips c -> exists c' w', cond_Apply cond c w = (Ok (b, c'), w') /\ gives ips c') -> tells ips [cond] b.
Proof.
  intros H c w Hc. destruct (H c w Hc) as (c' & w' & E1 & Hc'). exists c', w'. cbn [chan_Apply]. rewrite E1. by destruct b.
Qed.

(** A condition that looks at the session only. *)
Lemma tells_session ips cond b :
  (forall c w, session_of c = ctx -> cond_Apply cond c w = (Ok (b, c), w)) -> tells ips [cond] b.
Proof. intros H. apply tells_one. intros c w Hc. exists c, w. split; [|done]. by apply H, (gives_session ips). Qed.

Lemma one_of_spec x l :
  (if decide (x = []) then false else existsb (fun u => bool_decide (u = x)) (not_empty l)) = one_of x l.
Proof.
  unfold one_of. case_decide as Hx; [by rewrite bool_decide_true|]. rewrite bool_decide_false by done. cbn [negb andb].
  apply eq_bool_prop_intro. rewrite bool_decide_spec, Is_true_true, existsb_elem_of. unfold not_empty.
  setoid_rewrite list_elem_of_filter. setoid_rewrite bool_decide_eq_true. split; [by intros (y & [_ Hy] & ->)|]. intros Hl. by exists x.
Qed.

Lemma protocols_spec x l :
  (if decide (x = []) then false else existsb (fun p => HasPrefix x p) (not_empty l)) =
  negb (bool_decide (x = [])) && existsb (fun p => negb (bool_decide (p = [])) && HasPrefix x p) l.
Proof.
  case_decide as Hx; [by rewrite bool_decide_true|]. rewrite bool_decide_false by done. cbn [negb andb]. unfold not_empty.
  induction l as [|p l IH]; [done|]. cbn [existsb]. destruct (decide (p = [])) as [->|Hp].
  - rewrite filter_cons_False by (intros H; by apply H). by rewrite bool_decide_true.
  - rewrite filter_cons_True by done. cbn [existsb]. by rewrite IH, bool_decide_false.
Qed.

Lemma ports_spec l p : MemoryPortList_Contains (PortListFromProto l) p = existsb (fun r => PortRange_Contains r p) l.
Proof.
  induction l as [|r l IH]; [done|]. unfold PortListFromProto in *. cbn [map MemoryPortList_Contains existsb]. rewrite IH.
  unfold MemoryPortRange_Contains, PortRange_Contains, FromPort, ToPort. cbn [MFrom MTo]. by destruct (_ && _).
Qed.

Lemma networks_spec ns n :
  fold_left (fun l n => <[net_index n := true]> l) ns (replicate 8 false) !! net_index n = Some (HasNetwork ns n).
Proof.
  assert (Hinj : forall a b, net_index a = net_index b -> a = b) by (by intros [] []).
  assert (Hgen : forall l b, length l = 8%nat -> l !! net_index n = Some b ->
    fold_left (fun l n => <[net_index n := true]> l) ns l !! net_index n = Some (b || HasNetwork ns n)).
  { induction ns as [|x ns IH]; intros l b Hl Hb; cbn [fold_left HasNetwork]; [by rewrite orb_false_r|].
    destruct (bool_decide_reflect (x = n)) as [->|Hne].
    - rewrite (IH _ true); [by rewrite orb_true_r|by rewrite length_insert|]. apply list_lookup_insert_eq. rewrite Hl. destruct n; cbn; lia.
    - apply IH; [by rewrite length_insert|]. rewrite list_lookup_insert_ne; [done|]. intros Heq. by apply Hne, Hinj. }
  rewrite (Hgen (replicate 8 false) false); [done|done|]. apply lookup_replicate_2. destruct n; cbn; lia.
Qed.


(** ** The parts of [BuildCondition] *)
Context (country : bytes -> list CIDR) (ips : list bytes) (Hips : Forall ip_ok ips).

(** The part succeeds with conditions that answer [b], and with one if [set]. *)
Definition builds (part : ST (list GeoIPMatcher) (list Condition)) (b : bool) (set : Prop) : Prop :=
  forall c, container_ok country c ->
    exists c' l, part c = (c', Ok l) /\ container_ok country c' /\ tells ips l b /\ (set -> l <> []).

Lemma builds_none (set : Prop) : ~ set -> builds no_cond true set.
Proof. intros Hs c Hc. exists c, []. split; [done|]. split; [done|]. split; [apply tells_nil|]. by intros ?. Qed.

Lemma builds_one r cond b set : r = Ok cond -> tells ips [cond] b -> builds (one_cond r) b set.
Proof. intros -> Ht c Hc. exists c, [cond]. by repeat (split; [done|]). Qed.

Lemma builds_unless {A} (l : list A) part b (set : Prop) :
  (set -> l <> []) -> (l <> [] -> builds part b set) -> builds (if decide (l <> []) then part else no_cond) (unless_empty l b) set.
Proof.
  intros Hs Hp. unfold unless_empty. destruct (decide (l = [])) as [->|Hl].
  - rewrite decide_False by (intros H; by apply H). apply builds_none. intros ?. by apply Hs.
  - rewrite decide_True by done. by apply Hp.
Qed.

Lemma builds_domain msg mt ds :
  (ds <> [] -> domains_ready mt ds (target_domain ctx)) -> builds (domain_cond msg mt ds) (accepts_domain ds ctx) (ds <> []).
Proof.
  intros Hr. unfold domain_cond, accepts_domain. apply builds_unless; [done|]. intros Hne.
  destruct (NewDomainMatcher_spec mt ds _ (Hr Hne)) as (x & Hx & Hm). eapply builds_one; [by rewrite Hx|].
  apply tells_session. intros c w Hc. cbn [cond_Apply]. rewrite Hc. unfold domain_Apply. rewrite (GetTargetDomain_ok ctx Hctx). cbn [mbind res_bind].
  destruct (decide (target_domain ctx = [])) as [->|Hd]; [by rewrite bool_decide_true|]. rewrite Hm, bool_decide_false by done. done.
Qed.

Lemma builds_ports l (src : bool) p :
  (if src then GetSourcePort ctx else GetTargetPort ctx) = p ->
  builds (one_cond (Ok (NewPortMatcher l src))) (existsb (fun r => PortRange_Contains r p) l) True.
Proof. intros <-. eapply builds_one; [done|]. apply tells_session. intros c w Hc. cbn [cond_Apply NewPortMatcher]. rewrite Hc. unfold port_Apply. destruct src; by rewrite ports_spec. Qed.

Lemma builds_network ns : builds (one_cond (Ok (NewNetworkMatcher ns))) (HasNetwork ns (GetNetwork ctx)) True.
Proof. eapply builds_one; [done|]. apply tells_session. intros c w Hc. cbn [cond_Apply NewNetworkMatcher]. rewrite Hc. unfold network_Apply. by rewrite networks_spec. Qed.

Lemma builds_one_geo gs (onSource : bool) :
  Forall (geoip_ok country) gs ->
  builds (one_geo gs onSource) (geoips_hold (if onSource then source_ips ctx else ips) gs) True.
Proof.
  intros Hg c Hc. destruct (add_geoips_spec country gs c Hc Hg) as (c' & ms & E1 & Hc' & Hms).
  exists c', [CMultiGeoIP ms onSource]. unfold one_geo, NewMultiGeoIPMatcher. unfold mbind, st_bind, mret, st_ret. rewrite E1.
  split; [done|]. split; [done|]. split; [|done]. destruct onSource.
  - apply tells_session. intros r w Hr. cbn [cond_Apply]. unfold multi_Apply. rewrite Hr. destruct (GetSourceIPs_ok ctx Hctx) as [-> Hs]. cbn [mbind res_bind].
    by rewrite (geo_match_any_spec gs).
  - apply tells_one. intros r w Hr. cbn [cond_Apply]. unfold multi_Apply. destruct (rctx_TargetIPs_spec ips r w Hr) as (r' & w' & -> & Hr').
    exists r', w'. split; [|done]. by rewrite (geo_match_any_spec gs).
Qed.

Lemma builds_weaken part b (set set' : Prop) : (set' -> set) -> builds part b set -> builds part b set'.
Proof. intros Hs Hb c Hc. destruct (Hb c Hc) as (c' & l & ? & ? & ? & Hl). exists c', l. repeat (split; [done|]). intros Hx. by apply Hl, Hs. Qed.

Lemma builds_geoip gs cidrs (onSource : bool) :
  Forall (geoip_ok country) gs -> Forall cidr_ok cidrs ->
  builds (geoip_cond gs cidrs onSource) (accepts_ips gs cidrs (if onSource then source_ips ctx else ips)) (gs <> [] \/ cidrs <> []).
Proof.
  intros Hg Hc. unfold geoip_cond, accepts_ips. destruct (decide (gs <> [])) as [Hne|He].
  - eapply builds_weaken; [|by apply builds_one_geo]. done.
  - assert (gs = []) as -> by by apply dec_stable. apply builds_unless; [naive_solver|]. intros Hne.
    eapply builds_weaken; [|apply builds_one_geo]; [done|]. apply Forall_singleton. split; [done|by left].
Qed.

Lemma builds_attributes code :
  (code <> [] -> exists p, Parse (lit "satisfied=(" ++ code ++ lit ")") ≫= FileProgram = Ok p) ->
  builds (if decide (code <> []) then one_cond (NewAttributeMatcher code) else no_cond)
    (unless_empty code
      match GetAttributes ctx, Parse (lit "satisfied=(" ++ code ++ lit ")") ≫= FileProgram with
      | Some attrs, Ok p => default false (satisfied p attrs)
      | _, _ => false
      end) (code <> []).
Proof.
  intros Hp. apply builds_unless; [done|]. intros Hne. destruct (Hp Hne) as [p Hp']. unfold NewAttributeMatcher. rewrite Hp'.
  destruct (Parse _) as [f|e|]; [|done..]. cbn [mbind res_bind] in *. rewrite Hp'. eapply builds_one; [done|].
  apply tells_session. intros c w Hc. cbn [cond_Apply]. rewrite Hc. unfold attribute_Apply. by destruct (GetAttributes ctx).
Qed.

Lemma run_parts_spec ps (specs : list (bool * Prop)) :
  Forall2 (fun p s => builds p s.1 s.2) ps specs -> builds (run_parts ps) (forallb fst specs) (Exists snd specs).
Proof.
  induction 1 as [|p s ps specs Hp Hps IH]; cbn [run_parts forallb]; [apply builds_none; by intros ?%Exists_nil|].
  intros c Hc. destruct (Hp c Hc) as (c1 & l1 & E1 & Hc1 & Ht1 & Hs1). destruct (IH c1 Hc1) as (c2 & l2 & E2 & Hc2 & Ht2 & Hs2).
  exists c2, (l1 ++ l2). unfold mbind, st_bind, mret, st_ret. rewrite E1, E2. split; [done|]. split; [done|].
  split; [by apply tells_app|]. intros [Hx|Hx]%Exists_cons.
  - intros [? _]%app_nil. by apply Hs1.
  - intros [_ ?]%app_nil. by apply Hs2.
Qed.

Lemma builds_users (l : list bytes) (mk : list bytes -> Condition) x :
  (forall c w, session_of c = ctx ->
    cond_Apply (mk l) c w = (Ok (if decide (x = []) then false else existsb (fun u => bool_decide (u = x)) (not_empty l), c), w)) ->
  builds (if decide (l <> []) then one_cond (Ok (mk l)) else no_cond) (unless_empty l (one_of x l)) (l <> []).
Proof.
  intros Hmk. apply builds_unless; [done|]. intros _. eapply builds_one; [done|]. rewrite <- one_of_spec. by apply tells_session.
Qed.

Lemma parts_spec rr :
  rule_ready country rr (target_domain ctx) ->
  exists specs, Forall2 (fun p s => builds p s.1 s.2) (parts rr) specs /\ forallb fst specs = rule_accepts rr ctx ips /\ Exists snd specs.
Proof.
  intros [Heff Hd Hgd [Hg1 Hg2] [Hs1 Hs2] Ha].
  exists [ (accepts_domain (rr_Domain rr) ctx, rr_Domain rr <> []);
    (accepts_domain (concat (GeoDomain rr)) ctx, concat (GeoDomain rr) <> []);
    (accepts_user rr ctx, UserEmail rr <> []); (accepts_inbound rr ctx, InboundTag rr <> []);
    (accepts_ports (ports_of rr) (GetTargetPort ctx), is_Some (ports_of rr));
    (accepts_ports (SourcePortList rr) (GetSourcePort ctx), is_Some (SourcePortList rr));
    (accepts_network rr ctx, Networks rr <> [] \/ is_Some (NetworkList rr));
    (accepts_ips (Geoip rr) (rr_Cidr rr) ips, Geoip rr <> [] \/ rr_Cidr rr <> []);
    (accepts_ips (SourceGeoip rr) (SourceCidr rr) (source_ips ctx), SourceGeoip rr <> [] \/ SourceCidr rr <> []);
    (accepts_protocol rr ctx, rr_Protocol rr <> []); (accepts_attributes rr ctx, rr_Attributes rr <> []) ].
  split; [|split].
  - unfold parts. repeat (apply Forall2_cons_2); try apply Forall2_nil_2; cbn [fst snd].
    + by apply builds_domain.
    + by apply builds_domain.
    + apply builds_users. intros c w Hc. cbn [cond_Apply NewUserMatcher]. by rewrite Hc.
    + apply builds_users. intros c w Hc. cbn [cond_Apply NewInboundTagMatcher]. by rewrite Hc.
    + unfold ports_of. destruct (rr_PortList rr) as [l|]; [eapply builds_weaken; [|by apply (builds_ports l false)]; done|].
      destruct (rr_PortRange rr) as [r|]; [eapply builds_weaken; [|by apply (builds_ports [r] false)]; done|].
      apply builds_none. by intros [? ?].
    + destruct (SourcePortList rr) as [l|]; [|apply builds_none; by intros [? ?]].
      eapply builds_weaken; [|by apply (builds_ports _ true)]. done.
    + unfold accepts_network. destruct (decide (Networks rr <> [])) as [Hne|He].
      * eapply builds_weaken; [|apply builds_network]. done.
      * destruct (NetworkList rr) as [l|]; [|apply builds_none; by intros [?|[? ?]]].
        eapply builds_weaken; [|apply builds_network]. done.
    + by apply (builds_geoip (Geoip rr) (rr_Cidr rr) false).
    + by apply (builds_geoip (SourceGeoip rr) (SourceCidr rr) true).
    + apply builds_unless; [done|]. intros _. eapply builds_one; [done|]. rewrite <- protocols_spec. apply tells_session.
      intros c w Hc. cbn [cond_Apply NewProtocolMatcher]. by rewrite Hc.
    + by apply builds_attributes.
  - cbn [forallb fst]. unfold rule_accepts. by rewrite !andb_assoc, andb_true_r.
  - unfold effective in Heff. rewrite !Exists_cons, Exists_nil. cbn [snd].
    repeat (destruct Heff as [Heff|Heff]; [pick_case|]). pick_case.
Qed.

(** A rule that is ready is built, and its conditions say whether it accepts. *)
Lemma BuildCondition_spec rr : rule_ready country rr (target_domain ctx) -> builds (BuildCondition rr) (rule_accepts rr ctx ips) True.
Proof.
  intros Hr c Hc. destruct (parts_spec rr Hr) as (specs & Hps & <- & Hex). destruct (run_parts_spec _ _ Hps c Hc) as (c' & l & E1 & Hc' & Ht & Hl).
  specialize (Hl Hex). exists c', l. unfold BuildCondition. unfold mbind at 1, st_bind. rewrite E1. by rewrite decide_False.
Qed.
End Tells.
End Geo.
End RouteLemmas.
