(* ===== verification/RouteStrategy.v ===== *)
(** * Package app/router: the balancing strategies

    [Module RouteStrategy] models strategy_random.go, strategy_leastping.go,
    strategy_leastload.go and weight.go.  Parameters are the observations of the
    outbounds, the random numbers, [sort.Slice], and, for the weights, floating
    point numbers and regular expressions.  [None] for an observation is an
    observatory that is not there. *)
From S2P Require Import Prelude GoStd.

Module RouteStrategy.

Definition i64 (z : Z) : Z := (z + 2 ^ 63) mod 2 ^ 64 - 2 ^ 63.
Definition Millisecond : Z := 1000000.

Record HealthPingMeasurement := mkHealth { All : Z; Fail : Z; Deviation : Z; Average : Z }.
Record OutboundStatus := mkStatus { Alive : bool; Delay : Z; OutboundTag : bytes; HealthPing : option HealthPingMeasurement }.

Record StrategyRandomConfig := mkRandom { r_ObserverTag : bytes; AliveOnly : bool }.
Record StrategyLeastPingConfig := mkPing { p_ObserverTag : bytes }.

(** ** weight.go *)
Definition is_digit (c : byte) : bool := between 48 57 (b2z c).

Fixpoint digits (s : bytes) : bytes := match s with c :: s => if is_digit c then c :: digits s else [] | [] => [] end.

(** The leftmost match of the regular expression [\d+(\.\d+)?], or nothing. *)
Fixpoint numberFinder (s : bytes) : bytes :=
  match s with
  | [] => []
  | c :: s' =>
    if is_digit c then
      let whole := digits s in
      match drop (length whole) s with
      | d :: rest => if bool_decide (d = x2e) && bool_decide (digits rest <> []) then whole ++ d :: digits rest else whole
      | [] => whole
      end
    else numberFinder s'
  end.

Class Floats := {
  float64 : Type;
  float32 : Type;
  positive : float32 -> bool;                (* w > 0 *)
  widen : float32 -> float64;                (* float64(w) *)
  of_int : Z -> float64;                     (* float64(n) *)
  to_int : float64 -> Z;                     (* int64(x) *)
  ParseFloat : bytes -> option float64;
  scaler : float64 -> float64 -> float64;    (* value * math.Pow(cost, 0.5) *)
  one : float64;
  (** The match of a regular expression in a string, if it compiles. *)
  FindRegexp : bytes -> bytes -> option bytes;
}.

Section Weights.
Context {FL : Floats}.

Record StrategyWeight := mkWeight { w_Regexp : bool; w_Match : bytes; w_Value : float32 }.
Record WeightManager := mkManager { w_settings : list StrategyWeight; w_cache : gmap bytes float64; defaultWeight : float64 }.

Definition NewWeightManager (s : list StrategyWeight) (default : float64) : WeightManager :=
  {| w_settings := s; w_cache := ∅; defaultWeight := default |}.

Definition getMatch (tag find : bytes) (isRegexp : bool) : bytes :=
  if isRegexp then match FindRegexp find tag with Some m => m | None => [] end
  else if Contains tag find then find else [].

Fixpoint findValue (default : float64) (settings : list StrategyWeight) (tag : bytes) : float64 :=
  match settings with
  | [] => default
  | w :: settings =>
    let matched := getMatch tag (w_Match w) (w_Regexp w) in
    if decide (matched = []) then findValue default settings tag
    else if positive (w_Value w) then widen (w_Value w)
    else
      let numStr := numberFinder matched in
      if decide (numStr = []) then default
      else match ParseFloat numStr with Some weight => weight | None => default end
  end.

Definition weight_Get (tag : bytes) (s : WeightManager) : float64 * WeightManager :=
  match w_cache s !! tag with
  | Some weight => (weight, s)
  | None =>
    let weight := findValue (defaultWeight s) (w_settings s) tag in
    (weight, {| w_settings := w_settings s; w_cache := <[tag := weight]> (w_cache s); defaultWeight := defaultWeight s |})
  end.

Definition weight_Apply (tag : bytes) (value : float64) (s : WeightManager) : float64 * WeightManager :=
  let '(w, s) := weight_Get tag s in (scaler value w, s).

(** A cache holds what the settings say. *)
Definition manager_ok (s : WeightManager) : Prop :=
  forall tag w, w_cache s !! tag = Some w -> w = findValue (defaultWeight s) (w_settings s) tag.
End Weights.

(** ** The strategies *)
Definition contains (o : list bytes) (name : bytes) : bool := existsb (fun v => bool_decide (v = name)) o.

(** [dice.Roll] on the numbers [Intn] draws. *)
Definition Roll (Intn : Z -> Z) (n : Z) : res Z := if n =? 1 then Ok 0 else if n <=? 0 then Panic else Ok (Intn n).

Definition observation := bytes -> option (res (list OutboundStatus)).

(** The order of Go strings. *)
Fixpoint str_less (a b : bytes) : bool :=
  match a, b with
  | _, [] => false
  | [], _ => true
  | x :: a, y :: b => if b2z x =? b2z y then str_less a b else b2z x <? b2z y
  end.

Section Strategies.
Context (observe : observation) (Intn : Z -> Z).

(** *** strategy_random.go *)
Definition status_map (status : list OutboundStatus) : gmap bytes OutboundStatus :=
  fold_left (fun m s => <[OutboundTag s := s]> m) status ∅.

Definition alive_tags (status : list OutboundStatus) (candidates : list bytes) : list bytes :=
  List.filter (fun c => match status_map status !! c with Some s => Alive s | None => true end) candidates.

Definition Random_PickOutbound (s : option StrategyRandomConfig) (candidates : list bytes) : res bytes :=
  candidates ← match s with
               | Some c =>
                 if AliveOnly c then
                   match observe (r_ObserverTag c) with
                   | Some (Ok status) => Ok (alive_tags status candidates)
                   | Some Panic => Panic
                   | _ => Ok candidates
                   end
                 else Ok candidates
               | None => Ok candidates
               end;
  if decide (candidates = []) then Ok [] else i ← Roll Intn (zlen candidates); or_panic (index candidates i).

(** *** strategy_leastping.go *)
Definition Ping_PickOutbound (c : StrategyLeastPingConfig) (strings : list bytes) : res bytes :=
  match observe (p_ObserverTag c) with
  | None | Some (Err _) => Ok []
  | Some Panic => Panic
  | Some (Ok status) =>
    Ok (fold_left (fun best v =>
          if contains strings (OutboundTag v) && Alive v && (Delay v <? best.1) then (Delay v, OutboundTag v) else best)
        status (99999999, [])).2
  end.

(** *** strategy_leastload.go *)
Record node := mkNode {
  n_Tag : bytes; CountAll : Z; CountFail : Z; RTTAverage : Z; RTTDeviation : Z; RTTDeviationCost : Z;
}.

Definition node_less (left right : node) : bool :=
  if negb (RTTDeviationCost left =? RTTDeviationCost right) then RTTDeviationCost left <? RTTDeviationCost right
  else if negb (RTTAverage left =? RTTAverage right) then RTTAverage left <? RTTAverage right
  else if negb (CountFail left =? CountFail right) then CountFail left <? CountFail right
  else if negb (CountAll left =? CountAll right) then CountAll right <? CountAll left
  else str_less (n_Tag left) (n_Tag right).

Context {FL : Floats} (sortNodes : (node -> node -> bool) -> list node -> list node).

Record StrategyLeastLoadConfig := mkLoad {
  Costs : list StrategyWeight; Baselines : list Z; Expected : Z; MaxRTT : Z; l_ObserverTag : bytes;
}.
Record LeastLoadStrategy := mkLeast { l_settings : StrategyLeastLoadConfig; costs : WeightManager }.

Definition NewLeastLoadStrategy (settings : StrategyLeastLoadConfig) : LeastLoadStrategy :=
  {| l_settings := settings; costs := NewWeightManager (Costs settings) one |}.

Definition with_costs (w : WeightManager) (l : LeastLoadStrategy) : LeastLoadStrategy :=
  {| l_settings := l_settings l; costs := w |}.

(** The node of a status; the cost is applied a second time to a health ping. *)
Definition record_of (v : OutboundStatus) (w : WeightManager) : node * WeightManager :=
  let rtt := i64 (Delay v * Millisecond) in
  let '(c, w) := weight_Apply (OutboundTag v) (of_int rtt) w in
  match HealthPing v with
  | None => ({| n_Tag := OutboundTag v; CountAll := 1; CountFail := 1; RTTAverage := rtt; RTTDeviation := rtt;
                RTTDeviationCost := to_int c |}, w)
  | Some h =>
    let '(c, w) := weight_Apply (OutboundTag v) (of_int (Deviation h)) w in
    ({| n_Tag := OutboundTag v; CountAll := All h; CountFail := Fail h; RTTAverage := Average h; RTTDeviation := Deviation h;
        RTTDeviationCost := to_int c |}, w)
  end.

Definition qualifies (candidates : list bytes) (maxRTT : Z) (v : OutboundStatus) : bool :=
  Alive v && ((Delay v <? Z.quot maxRTT Millisecond) || (maxRTT =? 0)) && contains candidates (OutboundTag v).

Fixpoint records (candidates : list bytes) (maxRTT : Z) (status : list OutboundStatus) (w : WeightManager) : list node * WeightManager :=
  match status with
  | [] => ([], w)
  | v :: status =>
    if qualifies candidates maxRTT v then
      let '(n, w) := record_of v w in
      let '(ns, w) := records candidates maxRTT status w in (n :: ns, w)
    else records candidates maxRTT status w
  end.

Definition getNodes (candidates : list bytes) (maxRTT : Z) (l : LeastLoadStrategy) : res (list node) * LeastLoadStrategy :=
  match observe (l_ObserverTag (l_settings l)) with
  | None | Some Panic => (Panic, l)
  | Some (Err _) => (Ok [], l)
  | Some (Ok status) =>
    let '(ns, w) := records candidates maxRTT status (costs l) in (Ok (sortNodes node_less ns), with_costs w l)
  end.

(** The inner loop: nodes below the baseline, from the [count]-th on. *)
Fixpoint below_from (baseline : Z) (nodes : list node) (count : Z) : Z :=
  match nodes with
  | [] => count
  | n :: nodes => if baseline <=? RTTDeviationCost n then count else below_from baseline nodes (count + 1)
  end.

Fixpoint try_baselines (baselines : list Z) (nodes : list node) (expected count : Z) : Z :=
  match baselines with
  | [] => count
  | b :: baselines =>
    let count := below_from b (drop (Z.to_nat count) nodes) count in
    if expected <=? count then count else try_baselines baselines nodes expected count
  end.

Definition selectLeastLoad (l : LeastLoadStrategy) (nodes : list node) : res (list node) :=
  if decide (nodes = []) then Ok []
  else
    let expected := Expected (l_settings l) in
    if zlen nodes <? expected then Ok nodes
    else
      let expected := if expected <=? 0 then 1 else expected in
      if decide (Baselines (l_settings l) = []) then or_panic (slice nodes 0 expected)
      else
        let count := try_baselines (Baselines (l_settings l)) nodes expected 0 in
        let count := if (0 <? Expected (l_settings l)) && (count <? expected) then expected else count in
        or_panic (slice nodes 0 count).

Definition pickOutbounds (candidates : list bytes) (l : LeastLoadStrategy) : res (list node) * LeastLoadStrategy :=
  match getNodes candidates (MaxRTT (l_settings l)) l with
  | (Ok qualified, l) => (selectLeastLoad l qualified, l)
  | r => r
  end.

Definition Load_PickOutbound (candidates : list bytes) (l : LeastLoadStrategy) : res bytes * LeastLoadStrategy :=
  let '(r, l) := pickOutbounds candidates l in
  (selects ← r;
   if decide (selects = []) then Ok []
   else i ← Roll Intn (zlen selects); n ← or_panic (index selects i); Ok (n_Tag n), l).

Definition Load_GetPrincipleTarget (strings : list bytes) (l : LeastLoadStrategy) : res (list bytes) * LeastLoadStrategy :=
  let '(r, l) := pickOutbounds strings l in (map n_Tag <$> r, l).
End Strategies.
End RouteStrategy.
Import RouteStrategy.

(** ** What the strategies promise *)
Module StrategySpec.
(** [Intn] draws below its argument. *)
Definition draws (Intn : Z -> Z) : Prop := forall n, 0 < n -> 0 <= Intn n < n.

Section Load.
Context {FL : Floats}.

(** The node of a status, whatever the cache holds. *)
Definition node_of (l : LeastLoadStrategy) (v : OutboundStatus) : node :=
  let cost d := to_int (scaler (of_int d) (findValue (defaultWeight (costs l)) (w_settings (costs l)) (OutboundTag v))) in
  let rtt := i64 (Delay v * Millisecond) in
  match HealthPing v with
  | None => {| n_Tag := OutboundTag v; CountAll := 1; CountFail := 1; RTTAverage := rtt; RTTDeviation := rtt; RTTDeviationCost := cost rtt |}
  | Some h =>
    {| n_Tag := OutboundTag v; CountAll := All h; CountFail := Fail h; RTTAverage := Average h; RTTDeviation := Deviation h;
       RTTDeviationCost := cost (Deviation h) |}
  end.

Definition qualified (l : LeastLoadStrategy) (candidates : list bytes) (status : list OutboundStatus) : list node :=
  map (node_of l) (List.filter (qualifies candidates (MaxRTT (l_settings l))) status).

(** How many nodes a baseline covers, and how many are selected of nodes in
    order. *)
Definition covers (nodes : list node) (b : Z) : Z := zlen (List.filter (fun n => RTTDeviationCost n <? b) nodes).

Definition select_count (c : StrategyLeastLoadConfig) (nodes : list node) : Z :=
  if zlen nodes <? Expected c then zlen nodes
  else if decide (Baselines c = []) then Z.max 1 (Expected c)
  else match List.find (fun b => Z.max 1 (Expected c) <=? covers nodes b) (Baselines c) with
       | Some b => covers nodes b
       | None => Z.max 0 (Expected c)
       end.

Definition sorts (sortNodes : (node -> node -> bool) -> list node -> list node) : Prop :=
  forall l, sortNodes node_less l ≡ₚ l /\ StronglySorted (fun a b => node_less b a = false) (sortNodes node_less l).

Definition by_cost (a b : node) : Prop := RTTDeviationCost a <= RTTDeviationCost b.
End Load.
End StrategySpec.
Import StrategySpec.

Section Selection.
Context {FL : Floats}.

Lemma weight_Apply_ok tag x s :
  manager_ok s ->
  (weight_Apply tag x s).1 = scaler x (findValue (defaultWeight s) (w_settings s) tag) /\ manager_ok (weight_Apply tag x s).2 /\
  w_settings (weight_Apply tag x s).2 = w_settings s /\ defaultWeight (weight_Apply tag x s).2 = defaultWeight s.
Proof.
  intros Hs. unfold weight_Apply, weight_Get. destruct (w_cache s !! tag) as [w|] eqn:Ew; cbn [fst snd].
  - apply Hs in Ew as ->. done.
  - split; [done|]. split; [|done]. intros t w. cbn [w_cache w_settings defaultWeight]. destruct (decide (t = tag)) as [->|Hne].
    + rewrite lookup_insert_eq. by intros [= <-].
    + rewrite lookup_insert_ne by done. apply Hs.
Qed.

Definition same_manager (s s' : WeightManager) : Prop :=
  manager_ok s' /\ w_settings s' = w_settings s /\ defaultWeight s' = defaultWeight s.

Lemma record_of_spec l v w :
  same_manager (costs l) w -> (record_of v w).1 = node_of l v /\ same_manager (costs l) (record_of v w).2.
Proof.
  intros (Hw & Hs & Hd). unfold record_of, node_of, same_manager. cbv zeta.
  destruct (weight_Apply_ok (OutboundTag v) (of_int (i64 (Delay v * Millisecond))) w Hw) as (E1 & H1 & S1 & D1).
  destruct (weight_Apply (OutboundTag v) _ w) as [c w1]. cbn [fst snd] in *. destruct (HealthPing v) as [h|]; cbn [fst snd].
  - destruct (weight_Apply_ok (OutboundTag v) (of_int (Deviation h)) w1 H1) as (E2 & H2 & S2 & D2).
    destruct (weight_Apply (OutboundTag v) _ w1) as [c2 w2]. cbn [fst snd] in *. split; [|split; [done|split; congruence]].
    by rewrite E2, S1, D1, Hs, Hd.
  - split; [|split; [done|split; congruence]]. by rewrite E1, Hs, Hd.
Qed.

Lemma records_spec l candidates status w :
  same_manager (costs l) w ->
  (records candidates (MaxRTT (l_settings l)) status w).1 = qualified l candidates status /\
  same_manager (costs l) (records candidates (MaxRTT (l_settings l)) status w).2.
Proof.
  revert w. induction status as [|v status IH]; intros w Hw; [done|]. cbn [records]. unfold qualified. cbn [List.filter].
  destruct (qualifies candidates (MaxRTT (l_settings l)) v); [|by apply IH].
  destruct (record_of_spec l v w Hw) as [E1 H1]. destruct (record_of v w) as [n w1]. cbn [fst snd] in *.
  destruct (IH w1 H1) as [E2 H2]. destruct (records candidates _ status w1) as [ns w2]. cbn [fst snd] in *.
  split; [|done]. cbn [map]. rewrite E1, E2. done.
Qed.

(** ** Selecting from nodes in the order of their costs *)
Lemma covers_sorted nodes b :
  StronglySorted by_cost nodes ->
  exists k, covers nodes b = Z.of_nat k /\ (k <= length nodes)%nat /\
    Forall (fun n => RTTDeviationCost n < b) (take k nodes) /\ Forall (fun n => b <= RTTDeviationCost n) (drop k nodes).
Proof.
  induction 1 as [|n nodes Hs IH Hn]; [by exists 0%nat|]. unfold covers in *. cbn [List.filter].
  destruct (RTTDeviationCost n <? b) eqn:E.
  - destruct IH as (k & Hk & Hl & Ht & Hd). exists (S k). rewrite zlen_cons, Hk. split; [lia|]. split; [cbn; lia|]. split; [|done].
    constructor; [lia|done].
  - exists 0%nat. split; [|split; [lia|split; [constructor|]]].
    + assert (Hf : List.filter (fun n => RTTDeviationCost n <? b) nodes = []); [|by rewrite Hf].
      rewrite Forall_forall in Hn. clear IH Hs. induction nodes as [|m nodes IH]; [done|]. cbn [List.filter].
      pose proof (Hn m ltac:(by left)) as Hm. unfold by_cost in Hm. replace (RTTDeviationCost m <? b) with false by lia.
      apply IH. intros x Hx. apply Hn. by right.
    + cbn [drop]. constructor; [lia|]. eapply Forall_impl; [exact Hn|]. unfold by_cost. intros m Hm. lia.
Qed.

Lemma below_from_below b l r c :
  Forall (fun n => RTTDeviationCost n < b) l -> below_from b (l ++ r) c = below_from b r (c + zlen l).
Proof.
  intros Hl. revert c. induction Hl as [|n l Hn Hl IH]; intros c; [f_equal; change (zlen []) with 0; lia|].
  cbn [app below_from]. replace (b <=? RTTDeviationCost n) with false by lia. rewrite IH, zlen_cons. f_equal. lia.
Qed.

Lemma below_from_above b r c : Forall (fun n => b <= RTTDeviationCost n) r -> below_from b r c = c.
Proof. intros [|n l Hn _]; [done|]. cbn [below_from]. by replace (b <=? RTTDeviationCost n) with true by lia. Qed.

(** The inner loop counts what the baseline covers, or keeps the count. *)
Lemma below_from_spec nodes b c :
  StronglySorted by_cost nodes -> 0 <= c <= zlen nodes -> below_from b (drop (Z.to_nat c) nodes) c = Z.max c (covers nodes b).
Proof.
  intros Hs Hc. destruct (covers_sorted nodes b Hs) as (k & -> & Hk & Ht & Hd). destruct (decide (c <= Z.of_nat k)) as [Hle|Hgt].
  - rewrite <- (take_drop (k - Z.to_nat c) (drop (Z.to_nat c) nodes)), drop_drop, take_drop_commute.
    replace (Z.to_nat c + (k - Z.to_nat c))%nat with k by lia.
    rewrite below_from_below by by apply Forall_drop. rewrite below_from_above by done.
    unfold zlen. rewrite length_drop, length_take. lia.
  - rewrite below_from_above; [lia|]. replace (Z.to_nat c) with (k + (Z.to_nat c - k))%nat by lia. rewrite <- drop_drop. by apply Forall_drop.
Qed.

Lemma covers_range nodes b : 0 <= covers nodes b <= zlen nodes.
Proof.
  split; [apply zlen_nonneg|]. unfold covers, zlen. induction nodes as [|n nodes IH]; [done|]. cbn [List.filter].
  destruct (RTTDeviationCost n <? b); cbn [length]; lia.
Qed.

(** The loop over the baselines, when no earlier one covered enough. *)
Lemma try_baselines_spec bs nodes e c :
  StronglySorted by_cost nodes -> 0 <= c < e -> c <= zlen nodes ->
  match List.find (fun b => e <=? covers nodes b) bs with
  | Some b => try_baselines bs nodes e c = covers nodes b
  | None => c <= try_baselines bs nodes e c < e
  end.
Proof.
  intros Hs. revert c. induction bs as [|b bs IH]; intros c Hc Hl; cbn [List.find try_baselines]; [lia|].
  rewrite below_from_spec by (done || lia). pose proof (covers_range nodes b). destruct (e <=? covers nodes b) eqn:E.
  - replace (e <=? Z.max c (covers nodes b)) with true by lia. lia.
  - replace (e <=? Z.max c (covers nodes b)) with false by lia. specialize (IH (Z.max c (covers nodes b)) ltac:(lia) ltac:(lia)).
    destruct (List.find _ bs); [done|lia].
Qed.

Lemma slice_take {A} (l : list A) n : 0 <= n <= zlen l -> slice l 0 n = Some (take (Z.to_nat n) l).
Proof. intros Hn. unfold slice. replace (_ && _) with true by lia. by rewrite Z.sub_0_r, drop_0. Qed.

(** The documented selection. *)
Lemma selectLeastLoad_spec l nodes :
  StronglySorted by_cost nodes ->
  selectLeastLoad l nodes = Ok (take (Z.to_nat (select_count (l_settings l) nodes)) nodes).
Proof.
  intros Hs. unfold selectLeastLoad, select_count. case_decide as Hne; [subst; by rewrite take_nil|]. cbv zeta.
  assert (Hpos : 1 <= zlen nodes) by (destruct nodes as [|n nodes]; [done|rewrite zlen_cons; pose proof (zlen_nonneg nodes); lia]).
  destruct (zlen nodes <? Expected (l_settings l)) eqn:E1; [unfold zlen; by rewrite Nat2Z.id, firstn_all|].
  replace (if Expected (l_settings l) <=? 0 then 1 else Expected (l_settings l)) with (Z.max 1 (Expected (l_settings l))) by
    (destruct (Expected (l_settings l) <=? 0) eqn:E2; lia).
  destruct (decide (Baselines (l_settings l) = [])) as [Hb|Hb]; [rewrite slice_take by lia; done|].
  pose proof (try_baselines_spec (Baselines (l_settings l)) nodes (Z.max 1 (Expected (l_settings l))) 0 Hs ltac:(lia) ltac:(lia)) as Ht.
  destruct (List.find _ (Baselines (l_settings l))) as [b|] eqn:Ef.
  - apply find_some in Ef as [_ Hb']. rewrite Ht. pose proof (covers_range nodes b).
    replace (_ && _) with false by lia. by rewrite slice_take by lia.
  - set (c := try_baselines _ _ _ _) in *. destruct ((0 <? Expected (l_settings l)) && (c <? Z.max 1 (Expected (l_settings l)))) eqn:E3.
    + rewrite slice_take by lia. cbn [or_panic]. do 3 f_equal. lia.
    + rewrite slice_take by lia. cbn [or_panic]. do 3 f_equal. lia.
Qed.
End Selection.

(** ** Picking *)
Section Picking.
Context {FL : Floats} (observe : observation) (Intn : Z -> Z) (sortNodes : (node -> node -> bool) -> list node -> list node).
Context (HIntn : draws Intn).

Lemma Roll_index {A} (l : list A) : l <> [] -> exists i x, Roll Intn (zlen l) = Ok i /\ index l i = Some x /\ x ∈ l.
Proof.
  intros Hl. assert (Hpos : 0 < zlen l) by (destruct l as [|x l]; [done|rewrite zlen_cons; pose proof (zlen_nonneg l); lia]).
  assert (exists i, Roll Intn (zlen l) = Ok i /\ 0 <= i < zlen l) as (i & Hi & Hr).
  { unfold Roll. destruct (zlen l =? 1) eqn:E1; [exists 0; split; [done|lia]|]. replace (zlen l <=? 0) with false by lia.
    exists (Intn (zlen l)). split; [done|]. by apply HIntn. }
  destruct (lookup_lt_is_Some_2 l (Z.to_nat i)) as [x Hx]; [unfold zlen in Hr; lia|]. exists i, x. split; [done|].
  split; [|by eapply list_elem_of_lookup_2]. unfold index. by replace (0 <=? i) with true by lia.
Qed.

(** A candidate that is not known to be dead, if there is one. *)
Lemma Random_picks s candidates :
  (forall tag, observe tag <> Some Panic) ->
  exists tag, Random_PickOutbound observe Intn s candidates = Ok tag /\ (tag = [] \/ tag ∈ candidates) /\
    (s = None -> candidates <> [] -> tag ∈ candidates) /\
    (forall c status, s = Some c -> AliveOnly c = true -> observe (r_ObserverTag c) = Some (Ok status) ->
      if decide (alive_tags status candidates = []) then tag = [] else tag ∈ alive_tags status candidates).
Proof.
  intros Hobs. unfold Random_PickOutbound.
  assert (Hpick : forall l : list bytes, exists tag, (if decide (l = []) then Ok [] else i ← Roll Intn (zlen l); or_panic (index l i)) = Ok tag /\
    if decide (l = []) then tag = [] else tag ∈ l).
  { intros l. destruct (decide (l = [])) as [->|Hl]; [by eexists|]. destruct (Roll_index l Hl) as (i & x & -> & Hx & Hin).
    exists x. cbn [mbind res_bind]. by rewrite Hx. }
  assert (Hsub : forall status tag, tag ∈ alive_tags status candidates -> tag ∈ candidates).
  { intros status tag. unfold alive_tags. rewrite !list_elem_of_In. by intros [? _]%filter_In. }
  destruct s as [c|]; [destruct (AliveOnly c) eqn:Ea; [destruct (observe (r_ObserverTag c)) as [[status|e|]|] eqn:Eo|]|];
    cbn [mbind res_bind];
    try (destruct (Hpick candidates) as (tag & -> & Ht); exists tag; split; [done|];
         split; [case_decide; auto|]; split; [try done; by intros _ ?; rewrite decide_False in Ht|congruence]).
  - destruct (Hpick (alive_tags status candidates)) as (tag & -> & Ht). exists tag. split; [done|].
    split; [case_decide; [by left|right; by eapply Hsub]|]. split; [done|].
    intros c' st [= <-] _ Eo'. rewrite Eo in Eo'. injection Eo' as <-. exact Ht.
  - by apply Hobs in Eo.
Qed.

Definition ping_step (strings : list bytes) (best : Z * bytes) (v : OutboundStatus) : Z * bytes :=
  if contains strings (OutboundTag v) && Alive v && (Delay v <? best.1) then (Delay v, OutboundTag v) else best.

Lemma ping_fold strings status b :
  let best := fold_left (ping_step strings) status b in
  best.1 <= b.1 /\
  (forall v, v ∈ status -> contains strings (OutboundTag v) = true -> Alive v = true -> best.1 <= Delay v) /\
  (best = b \/ exists v, v ∈ status /\ best = (Delay v, OutboundTag v) /\ contains strings (OutboundTag v) = true /\
    Alive v = true /\ Delay v < b.1).
Proof.
  revert b. induction status as [|v status IH]; intros b; cbv zeta in *.
  { split; [done|]. split; [by intros v ?%elem_of_nil|by left]. }
  cbn [fold_left]. destruct (IH (ping_step strings b v)) as (H1 & H2 & H3).
  assert (Hstep : (ping_step strings b v = (Delay v, OutboundTag v) /\ contains strings (OutboundTag v) = true /\ Alive v = true /\ Delay v < b.1) \/
    (ping_step strings b v = b /\ (contains strings (OutboundTag v) = true -> Alive v = true -> b.1 <= Delay v))).
  { unfold ping_step. destruct (contains strings (OutboundTag v)), (Alive v); cbn [andb]; try (by right).
    destruct (Delay v <? b.1) eqn:Ed; [left|right]; repeat (split; [done|]); [lia|intros _ _; lia]. }
  destruct Hstep as [(E1 & Ec & Ea & Ed)|(E1 & Hv)]; rewrite E1 in *; cbn [fst] in *.
  - split; [lia|]. split.
    + intros u [->|Hu]%elem_of_cons Hc Ha; [lia|by apply H2].
    + right. destruct H3 as [H3|(u & Hu & H3 & Hc & Ha & Hd)]; [by exists v; split; [left|]|].
      exists u. split; [by right|]. repeat (split; [done|]). lia.
  - split; [done|]. split.
    + intros u [->|Hu]%elem_of_cons Hc Ha; [|by apply H2]. specialize (Hv Hc Ha). lia.
    + destruct H3 as [H3|(u & Hu & H3)]; [by left|right]. exists u. split; [by right|done].
Qed.

(** The candidate that is alive with the least delay. *)
Lemma Ping_picks c strings status :
  observe (p_ObserverTag c) = Some (Ok status) ->
  exists tag, Ping_PickOutbound observe c strings = Ok tag /\
    ((tag = [] /\ forall v, v ∈ status -> contains strings (OutboundTag v) = true -> Alive v = true -> 99999999 <= Delay v) \/
     exists v, v ∈ status /\ tag = OutboundTag v /\ contains strings tag = true /\ Alive v = true /\ Delay v < 99999999 /\
       forall v', v' ∈ status -> contains strings (OutboundTag v') = true -> Alive v' = true -> Delay v <= Delay v').
Proof.
  intros Ho. unfold Ping_PickOutbound. rewrite Ho. eexists. split; [done|].
  destruct (ping_fold strings status (99999999, [])) as (_ & H2 & H3). fold (ping_step strings).
  destruct H3 as [H3|(v & Hv & H3 & Hc & Ha & Hd)]; rewrite H3 in *; cbn [fst snd] in *; [by left|right].
  exists v. by repeat (split; [done|]).
Qed.
End Picking.

Section LeastLoad.
Context {FL : Floats} (observe : observation) (Intn : Z -> Z) (sortNodes : (node -> node -> bool) -> list node -> list node).
Context (HIntn : draws Intn) (Hsort : sorts sortNodes).

Lemma sorted_by_cost l : StronglySorted by_cost (sortNodes node_less l).
Proof.
  destruct (Hsort l) as [_ Hs]. induction Hs as [|a l' Hs IH Ha]; constructor; [done|].
  eapply Forall_impl; [exact Ha|]. intros b Hb. unfold by_cost. unfold node_less in Hb.
  destruct (RTTDeviationCost b =? RTTDeviationCost a) eqn:E; cbn [negb] in Hb; lia.
Qed.

(** What is picked from, and the strategy afterwards. *)
Lemma pickOutbounds_spec l candidates status :
  manager_ok (costs l) -> observe (l_ObserverTag (l_settings l)) = Some (Ok status) ->
  let q := sortNodes node_less (qualified l candidates status) in
  exists l', pickOutbounds observe sortNodes candidates l = (Ok (take (Z.to_nat (select_count (l_settings l) q)) q), l') /\
    l_settings l' = l_settings l /\ same_manager (costs l) (costs l').
Proof.
  intros Hl Ho q. unfold pickOutbounds, getNodes. rewrite Ho.
  destruct (records_spec l candidates status (costs l)) as [E1 H1]; [by split|].
  destruct (records candidates _ status (costs l)) as [ns w]. cbn [fst snd] in *. subst ns. fold q.
  exists (with_costs w l). rewrite (selectLeastLoad_spec (with_costs w l) q (sorted_by_cost _)). done.
Qed.

Lemma select_count_range c q : 0 <= select_count c q <= zlen q /\ Z.min (Expected c) (zlen q) <= select_count c q \/ q = [].
Proof.
  destruct (decide (q = [])) as [->|Hq]; [by right|left].
  assert (Hpos : 1 <= zlen q) by (destruct q as [|n q]; [done|rewrite zlen_cons; pose proof (zlen_nonneg q); lia]).
  unfold select_count. destruct (zlen q <? Expected c) eqn:E1; [lia|]. case_decide; [lia|].
  destruct (List.find _ (Baselines c)) as [b|] eqn:Ef; [|lia]. apply find_some in Ef as [_ Hb]. pose proof (covers_range q b). lia.
Qed.

(** The least-load strategy selects what its comment documents: of the
    outbounds that are alive, among the candidates and below the delay limit,
    in the order of their costs, the first ones - all of them when fewer than
    Expected qualify; Expected (at least one) without baselines; with baselines
    as many as the first baseline that covers Expected of them covers, and else
    Expected, or none when Expected is not positive.  No slice of the source
    runs out of range, the pick is one of the selected or empty when there is
    none, and the cache of weights stays true to the settings. *)
Theorem least_load_selects l candidates status
    (Hl : manager_ok (costs l)) (Ho : observe (l_ObserverTag (l_settings l)) = Some (Ok status)) :
  exists q l' tag,
    q ≡ₚ qualified l candidates status /\ StronglySorted by_cost q /\
    let selected := take (Z.to_nat (select_count (l_settings l) q)) q in
    pickOutbounds observe sortNodes candidates l = (Ok selected, l') /\ same_manager (costs l) (costs l') /\
    Z.min (Expected (l_settings l)) (zlen q) <= zlen selected /\
    Load_PickOutbound observe Intn sortNodes candidates l = (Ok tag, l') /\
    (if decide (selected = []) then tag = [] else tag ∈ map n_Tag selected).
Proof.
  destruct (pickOutbounds_spec l candidates status Hl Ho) as (l' & Hp & _ & Hm).
  set (q := sortNodes node_less (qualified l candidates status)) in *. set (sel := take _ q) in Hp.
  assert (Htag : exists tag, Load_PickOutbound observe Intn sortNodes candidates l = (Ok tag, l') /\
    if decide (sel = []) then tag = [] else tag ∈ map n_Tag sel).
  { unfold Load_PickOutbound. rewrite Hp. cbn [mbind res_bind]. destruct (decide (sel = [])) as [He|Hne]; [by eexists|].
    destruct (Roll_index Intn HIntn sel Hne) as (i & n & -> & Hn & Hin). exists (n_Tag n). cbn [mbind res_bind]. rewrite Hn.
    split; [done|]. by apply list_elem_of_fmap_2. }
  destruct Htag as (tag & Ht & Hin). exists q, l', tag. split; [apply Hsort|]. split; [apply sorted_by_cost|]. cbv zeta. fold sel.
  split; [done|]. split; [done|]. split; [|done]. unfold sel, zlen at 2. rewrite length_take. unfold zlen.
  destruct (select_count_range (l_settings l) q) as [Hr|Hr]; [unfold zlen in Hr; lia|]. rewrite Hr. cbn. lia.
Qed.
End LeastLoad.

(** ** Witness: a merge sort of nodes, integers for numbers *)
Definition node_le (a b : node) : Prop := node_less b a = false.
#[export] Instance node_le_dec : RelDecision node_le := fun a b => bool_eq_dec (node_less b a) false.

Lemma str_less_asym a b : str_less a b = true -> str_less b a = false.
Proof.
  revert b. induction a as [|x a IH]; intros [|y b]; cbn [str_less]; try done.
  destruct (b2z x =? b2z y) eqn:E; [rewrite (proj2 (Z.eqb_eq _ _)) by lia; apply IH|].
  replace (b2z y =? b2z x) with false by lia. lia.
Qed.

Lemma str_less_trans a b c : str_less b a = false -> str_less c b = false -> str_less c a = false.
Proof.
  revert b c. induction a as [|x a IH]; intros [|y b] [|z c]; cbn [str_less]; try done.
  destruct (b2z y =? b2z x) eqn:E1, (b2z z =? b2z y) eqn:E2.
  - replace (b2z z =? b2z x) with true by lia. apply IH.
  - replace (b2z z =? b2z x) with false by lia. lia.
  - replace (b2z z =? b2z x) with false by lia. lia.
  - intros ? ?. replace (b2z z =? b2z x) with false by lia. lia.
Qed.

#[export] Instance node_le_total : Total node_le.
Proof.
  intros a b. unfold node_le, node_less. destruct (RTTDeviationCost a =? RTTDeviationCost b) eqn:E1.
  2: { replace (RTTDeviationCost b =? RTTDeviationCost a) with false by lia. cbn [negb]. lia. }
  replace (RTTDeviationCost b =? RTTDeviationCost a) with true by lia. cbn [negb]. destruct (RTTAverage a =? RTTAverage b) eqn:E2.
  2: { replace (RTTAverage b =? RTTAverage a) with false by lia. cbn [negb]. lia. }
  replace (RTTAverage b =? RTTAverage a) with true by lia. cbn [negb]. destruct (CountFail a =? CountFail b) eqn:E3.
  2: { replace (CountFail b =? CountFail a) with false by lia. cbn [negb]. lia. }
  replace (CountFail b =? CountFail a) with true by lia. cbn [negb]. destruct (CountAll a =? CountAll b) eqn:E4.
  2: { replace (CountAll b =? CountAll a) with false by lia. cbn [negb]. lia. }
  replace (CountAll b =? CountAll a) with true by lia. cbn [negb]. destruct (str_less (n_Tag b) (n_Tag a)) eqn:E5; [|by left].
  right. by apply str_less_asym.
Qed.

#[export] Instance node_le_trans : Transitive node_le.
Proof.
  intros a b c. unfold node_le, node_less.
  destruct (RTTDeviationCost b =? RTTDeviationCost a) eqn:A1, (RTTDeviationCost c =? RTTDeviationCost b) eqn:B1; cbn [negb]; intros Ha Hb.
  2-4: by replace (RTTDeviationCost c =? RTTDeviationCost a) with false by lia; cbn [negb]; lia.
  replace (RTTDeviationCost c =? RTTDeviationCost a) with true by lia. cbn [negb].
  destruct (RTTAverage b =? RTTAverage a) eqn:A2, (RTTAverage c =? RTTAverage b) eqn:B2; cbn [negb] in *.
  2-4: by replace (RTTAverage c =? RTTAverage a) with false by lia; cbn [negb]; lia.
  replace (RTTAverage c =? RTTAverage a) with true by lia. cbn [negb].
  destruct (CountFail b =? CountFail a) eqn:A3, (CountFail c =? CountFail b) eqn:B3; cbn [negb] in *.
  2-4: by replace (CountFail c =? CountFail a) with false by lia; cbn [negb]; lia.
  replace (CountFail c =? CountFail a) with true by lia. cbn [negb].
  destruct (CountAll b =? CountAll a) eqn:A4, (CountAll c =? CountAll b) eqn:B4; cbn [negb] in *.
  2-4: by replace (CountAll c =? CountAll a) with false by lia; cbn [negb]; lia.
  replace (CountAll c =? CountAll a) with true by lia. cbn [negb]. by eapply str_less_trans.
Qed.

Lemma merge_sorts {FL : Floats} : sorts (fun _ l => merge_sort node_le l).
Proof. intros l. split; [apply merge_sort_Permutation|]. apply (StronglySorted_merge_sort node_le). Qed.

#[local] Instance demo_floats : Floats := {|
  float64 := Z; float32 := Z; positive := fun w => 0 <? w; widen := fun w => w; of_int := fun n => n; to_int := fun x => x;
  ParseFloat := fun s => Some (zlen s); scaler := fun x w => x * w; one := 1; FindRegexp := fun _ _ => None |}.

Definition demo_load : LeastLoadStrategy :=
  NewLeastLoadStrategy {| Costs := [{| w_Regexp := false; w_Match := lit "slow"; w_Value := 9 |}]; Baselines := [40000000; 90000000];
    Expected := 2; MaxRTT := 1000000000; l_ObserverTag := [] |}.
Definition demo_status : list OutboundStatus := [
  {| Alive := true; Delay := 80; OutboundTag := lit "b"; HealthPing := None |};
  {| Alive := true; Delay := 20; OutboundTag := lit "slow"; HealthPing := None |};
  {| Alive := false; Delay := 10; OutboundTag := lit "dead"; HealthPing := None |};
  {| Alive := true; Delay := 30; OutboundTag := lit "a"; HealthPing := None |};
  {| Alive := true; Delay := 5000; OutboundTag := lit "far"; HealthPing := None |} ].
Definition demo_observe : observation := fun _ => Some (Ok demo_status).
Definition demo_candidates : list bytes := [lit "a"; lit "b"; lit "slow"; lit "far"; lit "dead"].

Lemma least_load_selects_witness :
  Load_GetPrincipleTarget demo_observe (fun _ l => merge_sort node_le l) demo_candidates demo_load =
    (Ok [lit "a"; lit "b"], (pickOutbounds demo_observe (fun _ l => merge_sort node_le l) demo_candidates demo_load).2) /\
  exists tag l', Load_PickOutbound demo_observe (fun n => n - 1) (fun _ l => merge_sort node_le l) demo_candidates demo_load = (Ok tag, l').
Proof.
  split; [vm_compute; reflexivity|].
  destruct (least_load_selects demo_observe (fun n => n - 1) (fun _ l => merge_sort node_le l)) with
    (l := demo_load) (candidates := demo_candidates) (status := demo_status) as (q & l' & tag & _ & _ & H).
  - intros n Hn. lia.
  - apply merge_sorts.
  - done.
  - reflexivity.
  - exists tag, l'. apply H.
Defined.
