(* ===== verification/OutboundMgr.v ===== *)
(** * Package app/proxyman/outbound: the manager of outbound handlers

    [Module OutboundMgr] models outbound.go: handlers under their tags, the
    default handler and the selection of tags for balancers.  A handler is a
    pointer with a tag; what its [Start] and [Close] return are parameters, and
    a call of one is an event.  Every method runs under the lock and is one
    step.  The order in which a map is ranged over is a parameter. *)
From S2P Require Import Prelude GoStd.

Module OutboundMgr.

Record Handler := mkHandler { h_id : Z; h_Tag : bytes }.

#[export] Instance Handler_eq_dec : EqDecision Handler.
Proof. solve_decision. Defined.

Record Manager := mkManager {
  defaultHandler : option Handler;
  taggedHandler : gmap bytes Handler;
  untaggedHandlers : list Handler;
  running : bool;
}.

Definition New : Manager := {| defaultHandler := None; taggedHandler := ∅; untaggedHandlers := []; running := false |}.

Definition ErrNoClue : error := NewError "not enough information for making a decision".

Inductive event := Started (h : Handler) | Closed (h : Handler).

Section Manager.
Context (StartErr CloseErr : Handler -> option error) (range : gmap bytes Handler -> list (bytes * Handler)).

Definition result (o : option error) : res unit := match o with Some e => Err e | None => Ok () end.

(** The handlers in turn, up to the first that fails. *)
Fixpoint start_all (hs : list Handler) : list event * res unit :=
  match hs with
  | [] => ([], Ok ())
  | h :: hs =>
    match StartErr h with
    | Some e => ([Started h], Err e)
    | None => let '(es, r) := start_all hs in (Started h :: es, r)
    end
  end.

Definition Start (m : Manager) : Manager * list event * res unit :=
  let '(es, r) := start_all (map snd (range (taggedHandler m)) ++ untaggedHandlers m) in
  ({| defaultHandler := defaultHandler m; taggedHandler := taggedHandler m; untaggedHandlers := untaggedHandlers m; running := true |}, es, r).

(** [errors.Combine]: nil if all errors are. *)
Definition Combine (errs : list (option error)) : option error :=
  match omap (fun e => e) errs with [] => None | _ => Some (NewError "multierr: ") end.

Definition Close (m : Manager) : Manager * list event * res unit :=
  let hs := map snd (range (taggedHandler m)) ++ untaggedHandlers m in
  ({| defaultHandler := defaultHandler m; taggedHandler := taggedHandler m; untaggedHandlers := untaggedHandlers m; running := false |},
   map Closed hs, result (Combine (map CloseErr hs))).

Definition GetDefaultHandler (m : Manager) : option Handler := defaultHandler m.
Definition GetHandler (tag : bytes) (m : Manager) : option Handler := taggedHandler m !! tag.

Definition AddHandler (handler : Handler) (m : Manager) : Manager * list event * res unit :=
  let tag := h_Tag handler in
  let default :=
    match defaultHandler m with
    | None => Some handler
    | Some d => if bool_decide (tag <> []) && bool_decide (tag = h_Tag d) then Some handler else Some d
    end in
  let '(tagged, untagged, es) :=
    if decide (tag <> []) then
      (<[tag := handler]> (taggedHandler m), untaggedHandlers m,
       match taggedHandler m !! tag with Some old => [Closed old] | None => [] end)
    else (taggedHandler m, untaggedHandlers m ++ [handler], []) in
  let m := {| defaultHandler := default; taggedHandler := tagged; untaggedHandlers := untagged; running := running m |} in
  if running m then (m, es ++ [Started handler], result (StartErr handler)) else (m, es, Ok ()).

Definition RemoveHandler (tag : bytes) (m : Manager) : Manager * list event * res unit :=
  if decide (tag = []) then (m, [], Err ErrNoClue)
  else
    match taggedHandler m !! tag with
    | None => (m, [], Err ErrNoClue)
    | Some handler =>
      ({| defaultHandler := match defaultHandler m with
                            | Some d => if decide (h_Tag d = tag) then None else Some d
                            | None => None
                            end;
          taggedHandler := delete tag (taggedHandler m); untaggedHandlers := untaggedHandlers m; running := running m |},
       [Closed handler], Ok ())
    end.

Definition Select (selectors : list bytes) (m : Manager) : list bytes :=
  List.filter (fun tag => existsb (fun selector => HasPrefix tag selector) selectors) (map fst (range (taggedHandler m))).

(** ** Histories *)
Inductive op := OStart | OClose | OAdd (h : Handler) | ORemove (tag : bytes).

Definition apply (o : op) (m : Manager) : Manager * list event * res unit :=
  match o with OStart => Start m | OClose => Close m | OAdd h => AddHandler h m | ORemove tag => RemoveHandler tag m end.

Fixpoint run (ops : list op) (m : Manager) (log : list event) : Manager * list event :=
  match ops with
  | [] => (m, log)
  | o :: ops => let '(m, es, _) := apply o m in run ops m (log ++ es)
  end.

Definition registered (m : Manager) (h : Handler) : Prop :=
  taggedHandler m !! h_Tag h = Some h \/ h ∈ untaggedHandlers m.

(** What holds after a history [ops] with the events [log]. *)
Record manager_ok (ops : list op) (log : list event) (m : Manager) : Prop := {
  mo_tagged : forall tag h, taggedHandler m !! tag = Some h -> h_Tag h = tag /\ tag <> [];
  mo_untagged : Forall (fun h => h_Tag h = []) (untaggedHandlers m);
  mo_default : forall d, defaultHandler m = Some d -> registered m d;
  mo_added : forall h, registered m h -> OAdd h ∈ ops;
  mo_kept : forall h, OAdd h ∈ ops -> registered m h \/ Closed h ∈ log;
}.
End Manager.
End OutboundMgr.
Import OutboundMgr.

Section Lemmas.
Context (StartErr CloseErr : Handler -> option error) (range : gmap bytes Handler -> list (bytes * Handler)).

Lemma elem_of_snoc_op (o : op) ops x : x ∈ ops ++ [o] <-> x ∈ ops \/ x = o.
Proof. by rewrite elem_of_app, list_elem_of_singleton. Qed.

Lemma same_handlers o ops log m m' es :
  manager_ok ops log m -> (forall h, o <> OAdd h) ->
  defaultHandler m' = defaultHandler m -> taggedHandler m' = taggedHandler m -> untaggedHandlers m' = untaggedHandlers m ->
  manager_ok (ops ++ [o]) (log ++ es) m'.
Proof.
  intros [H1 H2 H3 H4 H5] Ho Ed Et Eu.
  assert (Hreg : forall h, registered m' h <-> registered m h) by (intros h; unfold registered; by rewrite Et, Eu).
  split; [by rewrite Et|by rewrite Eu| | |].
  - intros d. rewrite Ed, Hreg. apply H3.
  - intros h Hh%Hreg%H4. by apply elem_of_snoc_op; left.
  - intros h [Hh|Hh]%elem_of_snoc_op; [|by destruct (Ho h)]. rewrite Hreg, elem_of_app. destruct (H5 h Hh); [by left|by right; left].
Qed.

Lemma AddHandler_ok h ops log m :
  manager_ok ops log m ->
  manager_ok (ops ++ [OAdd h]) (log ++ (AddHandler StartErr h m).1.2) (AddHandler StartErr h m).1.1.
Proof.
  intros [H1 H2 H3 H4 H5]. unfold AddHandler. cbv zeta. destruct (decide (h_Tag h <> [])) as [Ht|Ht].
  - set (es := match taggedHandler m !! h_Tag h with Some old => [Closed old] | None => [] end).
    set (m' := {| defaultHandler := _; taggedHandler := <[h_Tag h := h]> (taggedHandler m); untaggedHandlers := _; running := _ |}).
    assert (Hok : forall es', manager_ok (ops ++ [OAdd h]) (log ++ es ++ es') m').
    { intros es'. assert (Hreg : forall x, registered m x -> registered m' x \/ Closed x ∈ es).
      { intros x [Hx|Hx]; [|by left; right]. destruct (decide (h_Tag x = h_Tag h)) as [E|Hne].
        - right. unfold es. rewrite <- E, Hx. by apply list_elem_of_singleton.
        - left. left. unfold m'. cbn. by rewrite lookup_insert_ne. }
      assert (Hh : registered m' h) by (left; apply lookup_insert_eq).
      split; cbn [m' taggedHandler untaggedHandlers defaultHandler].
      - intros tag x. destruct (decide (tag = h_Tag h)) as [->|Hne]; [rewrite lookup_insert_eq; by intros [= <-]|].
        rewrite lookup_insert_ne by done. apply H1.
      - done.
      - intros d Hd. destruct (defaultHandler m) as [d0|] eqn:Ed; [|by injection Hd as <-].
        destruct (bool_decide (h_Tag h <> []) && bool_decide (h_Tag h = h_Tag d0)) eqn:E; [by injection Hd as <-|].
        injection Hd as <-. rewrite bool_decide_true in E by done. apply bool_decide_eq_false in E.
        destruct (H3 d0 eq_refl) as [Hd|Hd]; [left|by right]. cbn. by rewrite lookup_insert_ne.
      - intros x Hx. apply elem_of_snoc_op. destruct Hx as [Hx|Hx]; [|by left; apply H4; right]. cbn in Hx.
        destruct (decide (h_Tag x = h_Tag h)) as [E|Hne]; [rewrite E, lookup_insert_eq in Hx; right; congruence|].
        rewrite lookup_insert_ne in Hx by done. left. apply H4. by left.
      - intros x Hx. apply elem_of_snoc_op in Hx as [Hx|[= ->]]; [|by left].
        rewrite !elem_of_app. destruct (H5 x Hx) as [Hr|Hc]; [destruct (Hreg x Hr); auto|auto]. }
    destruct (running m'); cbn [fst snd]; [apply Hok|]. specialize (Hok []). rewrite app_nil_r in Hok. exact Hok.
  - assert (h_Tag h = []) as E0 by by apply dec_stable.
    set (m' := {| defaultHandler := _; taggedHandler := taggedHandler m; untaggedHandlers := untaggedHandlers m ++ [h]; running := _ |}).
    assert (Hok : forall es', manager_ok (ops ++ [OAdd h]) (log ++ [] ++ es') m').
    { intros es'. assert (Hreg : forall x, registered m x -> registered m' x).
      { intros x [Hx|Hx]; [by left|right]. apply elem_of_app. by left. }
      assert (Hh : registered m' h) by (right; apply elem_of_app; right; by apply list_elem_of_singleton).
      split; cbn [m' taggedHandler untaggedHandlers defaultHandler].
      - done.
      - apply Forall_app. split; [done|by apply Forall_singleton].
      - intros d Hd. destruct (defaultHandler m) as [d0|] eqn:Ed; [|by injection Hd as <-].
        rewrite bool_decide_false in Hd by done. injection Hd as <-. by apply Hreg, H3.
      - intros x Hx. apply elem_of_snoc_op. destruct Hx as [Hx|[Hx|Hx%list_elem_of_singleton]%elem_of_app];
          [left; apply H4; by left|left; apply H4; by right|right; by subst].
      - intros x Hx. apply elem_of_snoc_op in Hx as [Hx|[= ->]]; [|by left]. rewrite !elem_of_app. destruct (H5 x Hx); auto. }
    destruct (running m'); cbn [fst snd]; [apply Hok|]. exact (Hok []).
Qed.

Lemma RemoveHandler_ok tag ops log m :
  manager_ok ops log m -> manager_ok (ops ++ [ORemove tag]) (log ++ (RemoveHandler tag m).1.2) (RemoveHandler tag m).1.1.
Proof.
  intros Hm. unfold RemoveHandler. destruct (decide (tag = [])) as [->|Ht]; [by apply (same_handlers _ _ _ m)|].
  destruct (taggedHandler m !! tag) as [h|] eqn:Eh; [|by apply (same_handlers _ _ _ m)]. destruct Hm as [H1 H2 H3 H4 H5]. cbn [fst snd].
  destruct (H1 tag h Eh) as [E _].
  assert (Hkeep : forall x, registered m x -> h_Tag x <> tag -> registered
    {| defaultHandler := None; taggedHandler := delete tag (taggedHandler m); untaggedHandlers := untaggedHandlers m; running := running m |} x).
  { intros x [Hx|Hx] Hne; [left|by right]. cbn. by rewrite lookup_delete_ne. }
  assert (Hun : forall x, x ∈ untaggedHandlers m -> h_Tag x <> tag).
  { rewrite Forall_forall in H2. intros x Hx%H2. congruence. }
  split; cbn [taggedHandler untaggedHandlers defaultHandler].
  - intros t x Hx. destruct (decide (t = tag)) as [->|Hne]; [by rewrite lookup_delete_eq in Hx|]. rewrite lookup_delete_ne in Hx by done. by apply H1.
  - done.
  - intros d Hd. destruct (defaultHandler m) as [d0|] eqn:Ed; [|done]. case_decide as Hne; [done|]. injection Hd as <-.
    destruct (Hkeep d0 (H3 d0 eq_refl) Hne); [by left|by right].
  - intros x Hx. apply elem_of_snoc_op. left. apply H4. destruct Hx as [Hx|Hx]; [left|by right]. cbn in Hx.
    destruct (decide (h_Tag x = tag)) as [Ex|Hne]; [by rewrite Ex, lookup_delete_eq in Hx|]. by rewrite lookup_delete_ne in Hx.
  - intros x Hx. apply elem_of_snoc_op in Hx as [Hx|?]; [|done]. rewrite elem_of_app, list_elem_of_singleton.
    destruct (H5 x Hx) as [Hr|Hc]; [|by right; left]. destruct (decide (h_Tag x = tag)) as [Ex|Hne].
    + destruct Hr as [Hr|Hr]; [|by apply Hun in Hr]. right. right. rewrite Ex, Eh in Hr. by injection Hr as ->.
    + left. destruct (Hkeep x Hr Hne); [by left|by right].
Qed.
End Lemmas.

Section Histories.
Context (StartErr CloseErr : Handler -> option error) (range : gmap bytes Handler -> list (bytes * Handler)).

Lemma apply_ok o ops log m :
  manager_ok ops log m ->
  manager_ok (ops ++ [o]) (log ++ (apply StartErr CloseErr range o m).1.2) (apply StartErr CloseErr range o m).1.1.
Proof.
  intros Hm. destruct o as [| |h|tag]; cbn [apply]; [| |by apply AddHandler_ok|by apply RemoveHandler_ok].
  - unfold Start. destruct (start_all _ _) as [es r]. by apply (same_handlers _ _ _ m).
  - by apply (same_handlers _ _ _ m).
Qed.

Lemma run_ok ops done log m :
  manager_ok done log m ->
  manager_ok (done ++ ops) (run StartErr CloseErr range ops m log).2 (run StartErr CloseErr range ops m log).1.
Proof.
  revert done log m. induction ops as [|o ops IH]; intros done log m Hm; cbn [run]; [by rewrite app_nil_r|].
  pose proof (apply_ok o done log m Hm) as H1. destruct (apply StartErr CloseErr range o m) as [[m1 es] r]. cbn [fst snd] in H1.
  rewrite cons_middle, app_assoc. by apply IH.
Qed.

Lemma New_manager_ok : manager_ok [] [] New.
Proof.
  split; cbn.
  - intros tag h. by rewrite lookup_empty.
  - constructor.
  - done.
  - intros h [Hh|Hh]; cbn in Hh; [by rewrite lookup_empty in Hh|by apply elem_of_nil in Hh].
  - by intros h ?%elem_of_nil.
Qed.

Lemma elem_of_Select (Hrange : forall m, range m ≡ₚ map_to_list m) sels m tag :
  tag ∈ Select range sels m <-> is_Some (taggedHandler m !! tag) /\ exists s, s ∈ sels /\ s `prefix_of` tag.
Proof.
  unfold Select. rewrite list_elem_of_In, filter_In, <- list_elem_of_In, list_elem_of_fmap, existsb_exists.
  setoid_rewrite HasPrefix_spec. setoid_rewrite <- list_elem_of_In.
  assert (Hin : (exists y, tag = y.1 /\ y ∈ range (taggedHandler m)) <-> is_Some (taggedHandler m !! tag)).
  { setoid_rewrite Hrange. split.
    - intros ([t h] & -> & Hy%elem_of_map_to_list). by exists h.
    - intros [h Hh]. exists (tag, h). split; [done|]. by apply elem_of_map_to_list. }
  by rewrite Hin.
Qed.

(** The invariant of the outbound manager over every history of Start,
    Close, AddHandler and RemoveHandler: a handler is found under its own tag and
    only a tag that is not empty is found, handlers without a tag are kept apart,
    the default handler is one that is registered, nothing is registered that was
    not added, and no handler leaks: every handler that was ever added is still
    registered or has been closed.  Select then returns exactly the tags of
    registered handlers that start with one of the selectors. *)
Theorem manager_invariant ops (Hrange : forall m, range m ≡ₚ map_to_list m) :
  let '(m, log) := run StartErr CloseErr range ops New [] in
  manager_ok ops log m /\
  (forall sels tag, tag ∈ Select range sels m <->
    exists h s, GetHandler tag m = Some h /\ h_Tag h = tag /\ OAdd h ∈ ops /\ s ∈ sels /\ s `prefix_of` tag).
Proof.
  pose proof (run_ok ops [] [] New New_manager_ok) as Hm. destruct (run StartErr CloseErr range ops New []) as [m log]. cbn [fst snd app] in Hm.
  split; [done|]. intros sels tag. rewrite (elem_of_Select Hrange). unfold GetHandler. split.
  - intros [[h Hh] (s & Hs & Hp)]. destruct (mo_tagged _ _ _ Hm _ _ Hh) as [E _]. exists h, s. split; [done|]. split; [done|].
    split; [apply (mo_added _ _ _ Hm); left; by rewrite E|done].
  - intros (h & s & Hh & _ & _ & Hs & Hp). split; [by exists h|by exists s].
Qed.
End Histories.

(** ** Witness *)
Definition demo_ops : list op :=
  [OAdd (mkHandler 1 (lit "proxy-a")); OAdd (mkHandler 2 []); OStart; OAdd (mkHandler 3 (lit "proxy-a")); OAdd (mkHandler 4 (lit "direct"));
   ORemove (lit "direct")].

Lemma manager_invariant_witness :
  (run (fun _ => None) (fun _ => None) map_to_list demo_ops New []).2 =
    [Started (mkHandler 1 (lit "proxy-a")); Started (mkHandler 2 []); Closed (mkHandler 1 (lit "proxy-a"));
     Started (mkHandler 3 (lit "proxy-a")); Started (mkHandler 4 (lit "direct")); Closed (mkHandler 4 (lit "direct"))] /\
  let '(m, log) := run (fun _ => None) (fun _ => None) map_to_list demo_ops New [] in
  manager_ok demo_ops log m.
Proof.
  split; [vm_compute; reflexivity|].
  pose proof (manager_invariant (fun _ => None) (fun _ => None) map_to_list demo_ops (fun m => Permutation_refl _)) as H.
  destruct (run (fun _ => None) (fun _ => None) map_to_list demo_ops New []) as [m log]. apply H.
Defined.
