(* ===== verification/Router.v ===== *)
(** * Package app/router: rules, balancers and the router

    [Module Router] models router.go, balancing.go, balancing_override.go and
    the rest of config.go, over the conditions of [RouteCond], the strategies of
    [RouteStrategy] and the outbound manager of [OutboundMgr].  Balancers are
    pointers: the rules and the map of the router share them. *)
From S2P Require Import Prelude GoStd NetAddr StrMatch StrIndex RouteCond RouteStrategy OutboundMgr.
Import NetAddr RouteCond RouteStrategy StrategySpec OutboundMgr.

Module Router.

(** ** Balancers *)
Inductive Strategy `{Floats} :=
  | SRandom (s : option StrategyRandomConfig)
  | SLeastPing (c : StrategyLeastPingConfig)
  | SLeastLoad (l : LeastLoadStrategy).

Record Balancer `{Floats} := mkBalancer {
  selectors : list bytes;
  strategy : Strategy;
  fallbackTag : bytes;
  override : bytes;        (* the target, empty when there is none *)
}.

(** What [serial.GetInstanceOf] makes of the settings of a strategy. *)
Inductive Settings `{Floats} :=
  | RandomSettings (c : StrategyRandomConfig)
  | LeastPingSettings (c : StrategyLeastPingConfig)
  | LeastLoadSettings (c : StrategyLeastLoadConfig)
  | OtherSettings.

Class BalanceEnv := {
  floats :: Floats;
  observe : observation;
  Intn : Z -> Z;
  sortNodes : (node -> node -> bool) -> list node -> list node;
  range : gmap bytes Handler -> list (bytes * Handler);
  Any : Type;
  GetInstanceOf : Any -> res Settings;
}.

Section Router.
Context {E : RouteEnv} {B : BalanceEnv}.

Definition strategy_PickOutbound (s : Strategy) (candidates : list bytes) : res bytes * Strategy :=
  match s with
  | SRandom c => (Random_PickOutbound observe Intn c candidates, s)
  | SLeastPing c => (Ping_PickOutbound observe c candidates, s)
  | SLeastLoad l => let '(r, l) := Load_PickOutbound observe Intn sortNodes candidates l in (r, SLeastLoad l)
  end.

Definition strategy_GetPrincipleTarget (s : Strategy) (strings : list bytes) : res (list bytes) * Strategy :=
  match s with
  | SRandom _ => (Ok strings, s)
  | SLeastPing c => (t ← Ping_PickOutbound observe c strings; Ok [t], s)
  | SLeastLoad l => let '(r, l) := Load_GetPrincipleTarget observe sortNodes strings l in (r, SLeastLoad l)
  end.

Definition with_strategy (s : Strategy) (b : Balancer) : Balancer :=
  {| selectors := selectors b; strategy := s; fallbackTag := fallbackTag b; override := override b |}.
Definition Put (target : bytes) (b : Balancer) : Balancer :=
  {| selectors := selectors b; strategy := strategy b; fallbackTag := fallbackTag b; override := target |}.

(** [None] is an outbound manager that does not select handlers. *)
Definition SelectOutbounds (ohm : option Manager) (b : Balancer) : res (list bytes) :=
  match ohm with
  | Some m => Ok (Select range (selectors b) m)
  | None => Err (NewError "outbound.Manager is not a HandlerSelector")
  end.

Definition Balancer_PickOutbound (ohm : option Manager) (b : Balancer) : res bytes * Balancer :=
  match SelectOutbounds ohm b with
  | Err e => (if decide (fallbackTag b <> []) then Ok (fallbackTag b) else Err e, b)
  | Panic => (Panic, b)
  | Ok candidates =>
    let '(tag, b) :=
      if decide (override b <> []) then (Ok (override b), b)
      else let '(tag, s) := strategy_PickOutbound (strategy b) candidates in (tag, with_strategy s b) in
    (tag ← tag;
     if decide (tag = []) then
       if decide (fallbackTag b <> []) then Ok (fallbackTag b) else Err (NewError "balancing strategy returns empty tag")
     else Ok tag, b)
  end.

(** ** Rules *)
Record Rule := mkTheRule { Tag : bytes; rule_Balancer : option nat; rule_Condition : list Condition }.

(** The heap of balancers is a list; [balancers] are pointers into it. *)
Inductive DomainStrategy := AsIs | UseIp | IpIfNonMatch | IpOnDemand.
Record Router := mkRouter {
  domainStrategy : DomainStrategy;
  rules : list Rule;
  balancers : gmap bytes nat;
  heap : list Balancer;
}.

#[export] Instance DomainStrategy_eq_dec : EqDecision DomainStrategy.
Proof. solve_decision. Defined.

Definition with_heap (h : list Balancer) (r : Router) : Router :=
  {| domainStrategy := domainStrategy r; rules := rules r; balancers := balancers r; heap := h |}.

Definition GetTag (ohm : option Manager) (rule : Rule) (r : Router) : res bytes * Router :=
  match rule_Balancer rule with
  | None => (Ok (Tag rule), r)
  | Some p =>
    match heap r !! p with
    | None => (Panic, r)
    | Some b => let '(tag, b) := Balancer_PickOutbound ohm b in (tag, with_heap (<[p := b]> (heap r)) r)
    end
  end.

(** ** config.go: [BalancingRule.Build] *)
Record BalancingRule := mkBalancing {
  br_Tag : bytes;
  OutboundSelector : list bytes;
  br_Strategy : bytes;
  StrategySettings : option Any;
  FallbackTag : bytes;
}.

(** The settings of a strategy; a nil message is dereferenced. *)
Definition settings_of (br : BalancingRule) : res Settings := a ← or_panic (StrategySettings br); GetInstanceOf a.

Definition Build (br : BalancingRule) : res Balancer :=
  let balancer s := {| selectors := OutboundSelector br; strategy := s; fallbackTag := FallbackTag br; override := [] |} in
  if bool_decide (br_Strategy br = lit "leastping") then
    i ← settings_of br;
    match i with
    | LeastPingSettings c => Ok (balancer (SLeastPing c))
    | _ => Err (NewError "not a StrategyLeastPingConfig")
    end
  else if bool_decide (br_Strategy br = lit "leastload") then
    i ← settings_of br;
    match i with
    | LeastLoadSettings c => Ok (balancer (SLeastLoad (NewLeastLoadStrategy c)))
    | _ => Err (NewError "not a StrategyLeastLoadConfig")
    end
  else if bool_decide (br_Strategy br = lit "random") || bool_decide (br_Strategy br = []) then
    match StrategySettings br with
    | None => Ok (balancer (SRandom None))
    | Some a =>
      i ← GetInstanceOf a;
      match i with
      | RandomSettings c => Ok (balancer (SRandom (Some c)))
      | _ => Err (NewError "not a StrategyRandomConfig")
      end
    end
  else Err (NewError "unrecognized balancer type").

(** ** router.go *)
Record Config := mkConfig { c_DomainStrategy : DomainStrategy; c_Rule : list RoutingRule; c_BalancingRule : list BalancingRule }.

Fixpoint build_balancers (brs : list BalancingRule) (m : gmap bytes nat) (h : list Balancer) : res (gmap bytes nat * list Balancer) :=
  match brs with
  | [] => Ok (m, h)
  | br :: brs => b ← Build br; build_balancers brs (<[br_Tag br := length h]> m) (h ++ [b])
  end.

Definition rule_GetTag (rr : RoutingRule) : bytes := match TargetTag rr with RoutingRule_Tag t => t | _ => [] end.
Definition rule_GetBalancingTag (rr : RoutingRule) : bytes := match TargetTag rr with RoutingRule_BalancingTag t => t | _ => [] end.

Definition build_rule (m : gmap bytes nat) (rr : RoutingRule) : ST (list GeoIPMatcher) Rule :=
  cond ← BuildCondition rr;
  let btag := rule_GetBalancingTag rr in
  if decide (btag <> []) then
    match m !! btag with
    | Some p => mret {| Tag := rule_GetTag rr; rule_Balancer := Some p; rule_Condition := cond |}
    | None => st_err (NewError "balancer not found")
    end
  else mret {| Tag := rule_GetTag rr; rule_Balancer := None; rule_Condition := cond |}.

Fixpoint build_rules (m : gmap bytes nat) (rrs : list RoutingRule) : ST (list GeoIPMatcher) (list Rule) :=
  match rrs with
  | [] => mret []
  | rr :: rrs => r ← build_rule m rr; rs ← build_rules m rrs; mret (r :: rs)
  end.

Definition Init (config : Config) : ST (list GeoIPMatcher) Router :=
  '(m, h) ← st_lift (build_balancers (c_BalancingRule config) ∅ []);
  rs ← build_rules m (c_Rule config);
  mret {| domainStrategy := c_DomainStrategy config; rules := rs; balancers := m; heap := h |}.

(** The first rule that applies. *)
Fixpoint first_match (rules : list Rule) (c : rctx) (w : W) : res (option Rule * rctx) * W :=
  match rules with
  | [] => (Ok (None, c), w)
  | rule :: rules =>
    match chan_Apply (rule_Condition rule) c w with
    | (Ok (true, c), w) => (Ok (Some rule, c), w)
    | (Ok (false, c), w) => first_match rules c w
    | (Err e, w) => (Err e, w)
    | (Panic, w) => (Panic, w)
    end
  end.

Definition matched (x : res (option Rule * rctx) * W) (otherwise : rctx -> W -> res (Rule * rctx) * W) : res (Rule * rctx) * W :=
  match x with
  | (Ok (Some rule, c), w) => (Ok (rule, c), w)
  | (Ok (None, c), w) => otherwise c w
  | (Err e, w) => (Err e, w)
  | (Panic, w) => (Panic, w)
  end.

Definition pickRouteInternal (r : Router) (c : rctx) (w : W) : res (Rule * rctx) * W :=
  let skipDNSResolve := GetSkipDNSResolve (session_of c) in
  let c := if bool_decide (domainStrategy r = IpOnDemand) && negb skipDNSResolve then ContextWithDNSClient c else c in
  matched (first_match (rules r) c w) (fun c w =>
    match GetTargetDomain (session_of c) with
    | Ok domain =>
      if negb (bool_decide (domainStrategy r = IpIfNonMatch)) || bool_decide (domain = []) || skipDNSResolve then (Err ErrNoClue, w)
      else matched (first_match (rules r) (ContextWithDNSClient c) w) (fun c w => (Err ErrNoClue, w))
    | Err e => (Err e, w)
    | Panic => (Panic, w)
    end).

(** The tag of the route and its context. *)
Definition PickRoute (r : Router) (ohm : option Manager) (c : rctx) (w : W) : res (bytes * rctx) * Router * W :=
  match pickRouteInternal r c w with
  | (Ok (rule, c), w) => let '(tag, r) := GetTag ohm rule r in (tag ← tag; Ok (tag, c), r, w)
  | (Err e, w) => (Err e, r, w)
  | (Panic, w) => (Panic, r, w)
  end.

(** ** balancing.go and balancing_override.go: the interface of the API *)
Definition GetPrincipleTarget (tag : bytes) (ohm : option Manager) (r : Router) : res (list bytes) * Router :=
  match balancers r !! tag with
  | None => (Err (NewError "cannot find tag"), r)
  | Some p =>
    match heap r !! p with
    | None => (Panic, r)
    | Some b =>
      match SelectOutbounds ohm b with
      | Ok candidates =>
        let '(t, s) := strategy_GetPrincipleTarget (strategy b) candidates in (t, with_heap (<[p := with_strategy s b]> (heap r)) r)
      | Err e => (Err (Based "unable to select outbounds" e), r)
      | Panic => (Panic, r)
      end
    end
  end.

Definition SetOverrideTarget (tag target : bytes) (r : Router) : res unit * Router :=
  match balancers r !! tag with
  | None => (Err (NewError "cannot find tag"), r)
  | Some p => (Ok (), with_heap (alter (Put target) p (heap r)) r)
  end.

Definition GetOverrideTarget (tag : bytes) (r : Router) : res bytes :=
  match balancers r !! tag with
  | None => Err (NewError "cannot find tag")
  | Some p => override <$> or_panic (heap r !! p)
  end.

(** The loop over the map finds the entry of the tag. *)
Definition OverrideBalancer (balancer target : bytes) (r : Router) : res unit * Router :=
  match balancers r !! balancer with
  | None => (Err (NewError "balancer not found"), r)
  | Some p => (Ok (), with_heap (alter (Put target) p (heap r)) r)
  end.
End Router.
End Router.
Import Router.

(** ** What the router promises *)
Module RouterSpec.
Section Spec.
Context {E : RouteEnv} {B : BalanceEnv}.

(** The index of the first rule that accepts the connection, if its target has
    the addresses [ips]. *)
Definition first_accepting (rrs : list RoutingRule) (ctx : Context) (ips : list bytes) : option nat :=
  fst <$> list_find (fun rr => rule_accepts rr ctx ips = true) rrs.

(** The rule a configuration chooses: [own] are the addresses the target has
    itself, [resolved] those it has once its domain is resolved. *)
Definition chosen_rule (cfg : Config) (ctx : Context) (own resolved : list bytes) : option nat :=
  if bool_decide (c_DomainStrategy cfg = IpOnDemand) && negb (GetSkipDNSResolve ctx) then first_accepting (c_Rule cfg) ctx resolved
  else
    match first_accepting (c_Rule cfg) ctx own with
    | Some i => Some i
    | None =>
      if bool_decide (c_DomainStrategy cfg = IpIfNonMatch) && negb (bool_decide (target_domain ctx = [])) && negb (GetSkipDNSResolve ctx)
      then first_accepting (c_Rule cfg) ctx resolved
      else None
    end.

(** The balancing tags of the rules are those of balancers, which can be built. *)
Definition balancers_ready (cfg : Config) : Prop :=
  Forall (fun br => exists b, Build br = Ok b) (c_BalancingRule cfg) /\
  Forall (fun rr => rule_GetBalancingTag rr <> [] -> rule_GetBalancingTag rr ∈ map br_Tag (c_BalancingRule cfg)) (c_Rule cfg).

(** What a rule points to. *)
Definition points_to (r : Router) (rr : RoutingRule) (rule : Rule) : Prop :=
  Tag rule = rule_GetTag rr /\
  rule_Balancer rule = (if decide (rule_GetBalancingTag rr <> []) then balancers r !! rule_GetBalancingTag rr else None).

(** A lookup that brought no address. *)
Definition failed (r : res (list bytes)) : Prop := match r with Ok (_ :: _) => False | _ => True end.

(** All lookups but the last have failed. *)
Definition once (es : list (bytes * res (list bytes))) : Prop :=
  forall pre e post, es = pre ++ e :: post -> post <> [] -> failed e.2.

(** A balancer in a state its methods reach, over an observatory that is there. *)
Definition balancer_ok (b : Balancer) : Prop :=
  match strategy b with
  | SLeastLoad l => RouteStrategy.manager_ok (costs l) /\ observe (l_ObserverTag (l_settings l)) <> None
  | _ => True
  end.
End Spec.
End RouterSpec.
Import RouterSpec.

Section RouterLemmas.
Context {E : RouteEnv} {B : BalanceEnv}.

(** ** Building *)
Lemma build_balancers_spec brs m h :
  Forall (fun br => exists b, Build br = Ok b) brs ->
  exists m' h', build_balancers brs m h = Ok (m', h') /\
    forall tag, is_Some (m !! tag) \/ tag ∈ map br_Tag brs -> is_Some (m' !! tag).
Proof.
  intros Hb. revert m h. induction Hb as [|br brs [b Hb] Hbs IH]; intros m h; cbn [build_balancers].
  { exists m, h. split; [done|]. by intros tag [?|?%elem_of_nil]. }
  rewrite Hb. cbn [mbind res_bind]. destruct (IH (<[br_Tag br := length h]> m) (h ++ [b])) as (m' & h' & -> & Hin). exists m', h'.
  split; [done|]. intros tag [Ht|[->|Ht]%elem_of_cons]; apply Hin; [left|left|by right].
  - destruct (decide (br_Tag br = tag)) as [->|Hne]; [rewrite lookup_insert_eq|rewrite lookup_insert_ne by done]; [by eexists|done].
  - rewrite lookup_insert_eq. by eexists.
Qed.

Section Picking.
Context {Hok : RouteEnvOk} (ctx : Context) (ans : res (list bytes)) (country : bytes -> list CIDR).
Context (Hctx : ctx_ok ctx) (Hans : forall w, (LookupIP (target_domain ctx) w).1 = ans) (Hnopanic : ans <> Panic).

(** The conditions of a rule that was built say whether it accepts. *)
Definition built (m : gmap bytes nat) (rr : RoutingRule) (rule : Rule) : Prop :=
  Tag rule = rule_GetTag rr /\
  rule_Balancer rule = (if decide (rule_GetBalancingTag rr <> []) then m !! rule_GetBalancingTag rr else None) /\
  forall ips, Forall ip_ok ips -> tells ctx ans ips (rule_Condition rule) (rule_accepts rr ctx ips).

Lemma build_rule_spec m rr c :
  container_ok country c -> rule_ready country rr (target_domain ctx) ->
  (rule_GetBalancingTag rr <> [] -> is_Some (m !! rule_GetBalancingTag rr)) ->
  exists c' rule, build_rule m rr c = (c', Ok rule) /\ container_ok country c' /\ built m rr rule.
Proof.
  intros Hc Hr Hm.
  destruct (BuildCondition_spec ctx ans Hctx Hans Hnopanic country [] ltac:(constructor) rr Hr c Hc) as (c' & l & E1 & Hc' & _).
  assert (Ht : forall ips, Forall ip_ok ips -> tells ctx ans ips l (rule_accepts rr ctx ips)).
  { intros ips Hips. destruct (BuildCondition_spec ctx ans Hctx Hans Hnopanic country ips Hips rr Hr c Hc) as (c2 & l2 & E2 & _ & Ht & _).
    rewrite E1 in E2. by injection E2 as <- <-. }
  unfold build_rule. unfold mbind at 1, st_bind. rewrite E1. cbv zeta. unfold built. case_decide as Hb.
  - destruct (Hm Hb) as [p ->]. by eexists c', _.
  - by eexists c', _.
Qed.

Lemma build_rules_spec m rrs c :
  container_ok country c -> Forall (fun rr => rule_ready country rr (target_domain ctx)) rrs ->
  Forall (fun rr => rule_GetBalancingTag rr <> [] -> is_Some (m !! rule_GetBalancingTag rr)) rrs ->
  exists c' rs, build_rules m rrs c = (c', Ok rs) /\ container_ok country c' /\ Forall2 (built m) rrs rs.
Proof.
  intros Hc Hr. revert c Hc. induction Hr as [|rr rrs Hrr Hr IH]; intros c Hc Hm; cbn [build_rules]; [by exists c, []|].
  apply Forall_cons in Hm as [Hm1 Hm]. destruct (build_rule_spec m rr c Hc Hrr Hm1) as (c1 & rule & E1 & Hc1 & Hb1).
  destruct (IH c1 Hc1 Hm) as (c2 & rs & E2 & Hc2 & Hb2). exists c2, (rule :: rs). unfold mbind, st_bind, mret, st_ret. rewrite E1, E2.
  split; [done|]. split; [done|]. by constructor.
Qed.

(** ** Matching *)
Lemma first_match_spec m rrs rs ips c w :
  Forall2 (built m) rrs rs -> Forall ip_ok ips -> gives ctx ans ips c ->
  exists c' w', first_match rs c w = (Ok (first_accepting rrs ctx ips ≫= (fun i => rs !! i), c'), w') /\ gives ctx ans ips c'.
Proof.
  intros Hb Hips. revert c w. induction Hb as [|rr rule rrs rs (_ & _ & Ht) Hb IH]; intros c w Hc; cbn [first_match]; [by exists c, w|].
  destruct (Ht ips Hips c w Hc) as (c1 & w1 & -> & Hc1). unfold first_accepting. cbn [list_find].
  destruct (decide (rule_accepts rr ctx ips = true)) as [->|Hn].
  - by exists c1, w1.
  - apply not_true_is_false in Hn as ->. destruct (IH c1 w1 Hc1) as (c2 & w2 & -> & Hc2). exists c2, w2. split; [|done].
    unfold first_accepting. destruct (list_find _ rrs) as [[i x]|]; done.
Qed.

(** The plain context resolves nothing. *)
Lemma cond_Apply_plain cond c w r w' : cond_Apply cond (Plain c) w = (r, w') -> w' = w /\ forall b c', r = Ok (b, c') -> c' = Plain c.
Proof.
  destruct cond as [m|ms [|]|p src|l|u|t|p|p]; cbn [cond_Apply session_of]; unfold multi_Apply; cbn [session_of rctx_TargetIPs].
  - intros [= <- <-]. split; [done|]. intros b c'. destruct (domain_Apply m c); by intros [= _ <-].
  - intros [= <- <-]. split; [done|]. intros b c'. destruct (GetSourceIPs c); by intros [= _ <-].
  - destruct (GetTargetIPs c); cbn [mbind res_bind]; intros [= <- <-]; (split; [done|]); by intros b c' [= _ <-].
  - intros [= <- <-]. split; [done|]. by intros b c' [= _ <-].
  - intros [= <- <-]. split; [done|]. intros b c'. destruct (network_Apply l c); by intros [= _ <-].
  - intros [= <- <-]. split; [done|]. by intros b c' [= _ <-].
  - intros [= <- <-]. split; [done|]. by intros b c' [= _ <-].
  - intros [= <- <-]. split; [done|]. by intros b c' [= _ <-].
  - intros [= <- <-]. split; [done|]. by intros b c' [= _ <-].
Qed.

Lemma chan_Apply_plain conds c w r w' : chan_Apply conds (Plain c) w = (r, w') -> w' = w /\ forall b c', r = Ok (b, c') -> c' = Plain c.
Proof.
  revert w. induction conds as [|cond conds IH]; intros w; cbn [chan_Apply]; [intros [= <- <-]; split; [done|]; by intros b c' [= _ <-]|].
  destruct (cond_Apply cond (Plain c) w) as [r1 w1] eqn:E1. apply cond_Apply_plain in E1 as [-> H1].
  destruct r1 as [[[] c1]|e|]; [rewrite (H1 true c1 eq_refl); apply IH| | |]; by intros [= <- <-].
Qed.

Lemma first_match_plain rs c w r w' : first_match rs (Plain c) w = (r, w') -> w' = w /\ forall o c', r = Ok (o, c') -> c' = Plain c.
Proof.
  revert w. induction rs as [|rule rs IH]; intros w; cbn [first_match]; [intros [= <- <-]; split; [done|]; by intros b c' [= _ <-]|].
  destruct (chan_Apply (rule_Condition rule) (Plain c) w) as [r1 w1] eqn:E1. apply chan_Apply_plain in E1 as [-> H1].
  destruct r1 as [[[] c1]|e|].
  - intros [= <- <-]. split; [done|]. intros o c' [= _ <-]. by apply (H1 true).
  - rewrite (H1 false c1 eq_refl). apply IH.
  - by intros [= <- <-].
  - by intros [= <- <-].
Qed.

Lemma first_accepting_in rrs ips i : first_accepting rrs ctx ips = Some i -> is_Some (rrs !! i).
Proof.
  unfold first_accepting. destruct (list_find _ rrs) as [[j x]|] eqn:Ef; [|done]. intros [= ->].
  apply list_find_Some in Ef as (Hj & _ & _). by exists x.
Qed.

Lemma chosen_rule_in cfg own resolved i : chosen_rule cfg ctx own resolved = Some i -> is_Some (c_Rule cfg !! i).
Proof.
  unfold chosen_rule. destruct (_ && negb (GetSkipDNSResolve ctx)); [apply first_accepting_in|].
  destruct (first_accepting (c_Rule cfg) ctx own) as [j|] eqn:E1; [intros [= <-]; by eapply first_accepting_in|].
  destruct (_ && _ && _); [apply first_accepting_in|done].
Qed.

(** Building a router for the rules of a configuration. *)
Lemma Init_spec cfg c0 :
  container_ok country c0 -> Forall (fun rr => rule_ready country rr (target_domain ctx)) (c_Rule cfg) -> balancers_ready cfg ->
  exists c1 r, Init cfg c0 = (c1, Ok r) /\ container_ok country c1 /\ domainStrategy r = c_DomainStrategy cfg /\
    Forall2 (built (balancers r)) (c_Rule cfg) (rules r).
Proof.
  intros Hc Hr [Hb Ht]. unfold Init. destruct (build_balancers_spec (c_BalancingRule cfg) ∅ [] Hb) as (m & h & E1 & Hm).
  assert (Hm' : Forall (fun rr => rule_GetBalancingTag rr <> [] -> is_Some (m !! rule_GetBalancingTag rr)) (c_Rule cfg)).
  { eapply Forall_impl; [exact Ht|]. intros rr Hrr Hne. apply Hm. right. by apply Hrr. }
  destruct (build_rules_spec m (c_Rule cfg) c0 Hc Hr Hm') as (c1 & rs & E2 & Hc1 & Hrs).
  unfold mbind, st_bind, st_lift, mret, st_ret. rewrite E1, E2. by eexists c1, _.
Qed.

Lemma resolved_gives own kept :
  GetTargetIPs ctx = Ok own -> kept = [] \/ kept = resolved_ips ctx ans ->
  gives ctx ans (if decide (own <> []) then own else resolved_ips ctx ans) (Resolvable (Plain ctx) kept).
Proof. intros Ho Hk. split; [done|]. split; [done|]. by exists own. Qed.

Lemma pickRouteInternal_spec cfg r own w :
  domainStrategy r = c_DomainStrategy cfg -> Forall2 (built (balancers r)) (c_Rule cfg) (rules r) ->
  GetTargetIPs ctx = Ok own -> Forall ip_ok own -> Forall ip_ok (resolved_ips ctx ans) ->
  exists c' w', pickRouteInternal r (Plain ctx) w =
    (match chosen_rule cfg ctx own (if decide (own <> []) then own else resolved_ips ctx ans) ≫= (fun i => rules r !! i) with
     | Some rule => Ok (rule, c')
     | None => Err ErrNoClue
     end, w').
Proof.
  intros Hs Hrs Hown Hips Hres. unfold pickRouteInternal, chosen_rule. cbv zeta. cbn [session_of]. rewrite Hs.
  set (resolved := if decide (own <> []) then own else _).
  assert (Hresolved : Forall ip_ok resolved) by (unfold resolved; by case_decide).
  assert (Hfirst : forall ips, is_Some (first_accepting (c_Rule cfg) ctx ips) -> is_Some (first_accepting (c_Rule cfg) ctx ips ≫= (fun i => rules r !! i))).
  { intros ips [i Hi]. rewrite Hi. cbn. apply first_accepting_in in Hi as [rr Hi]. apply lookup_lt_is_Some_2.
    rewrite <- (Forall2_length _ _ _ Hrs). by eapply lookup_lt_Some. }
  destruct (bool_decide (c_DomainStrategy cfg = IpOnDemand) && negb (GetSkipDNSResolve ctx)) eqn:Eo.
  - destruct (first_match_spec (balancers r) (c_Rule cfg) (rules r) resolved (ContextWithDNSClient (Plain ctx)) w Hrs Hresolved)
      as (c1 & w1 & -> & Hc1); [by apply resolved_gives; [|left]|].
    destruct (first_accepting (c_Rule cfg) ctx resolved ≫= _) as [rule|]; cbn [matched]; [by exists c1, w1|].
    rewrite (gives_session ctx ans resolved c1 Hc1), (GetTargetDomain_ok ctx Hctx). apply andb_true_iff in Eo as [Eo%bool_decide_eq_true _].
    rewrite Eo. rewrite bool_decide_false by done. cbn [negb orb]. by exists c1, w1.
  - destruct (first_match_spec (balancers r) (c_Rule cfg) (rules r) own (Plain ctx) w Hrs Hips) as (c1 & w1 & E1 & Hc1); [done|].
    rewrite E1. apply first_match_plain in E1 as [-> Hp]. specialize (Hp _ _ eq_refl) as ->.
    destruct (first_accepting (c_Rule cfg) ctx own) as [i|] eqn:Ei; cbn [mbind option_bind].
    { destruct (Hfirst own) as [rule Hrule]; [by exists i|]. rewrite Ei in Hrule. cbn in Hrule. rewrite Hrule. cbn [matched]. by exists (Plain ctx), w. }
    cbn [matched session_of]. rewrite (GetTargetDomain_ok ctx Hctx).
    destruct (bool_decide (c_DomainStrategy cfg = IpIfNonMatch)), (bool_decide (target_domain ctx = [])), (GetSkipDNSResolve ctx);
      cbn [negb andb orb mbind option_bind]; try (by exists (Plain ctx), w).
    destruct (first_match_spec (balancers r) (c_Rule cfg) (rules r) resolved (ContextWithDNSClient (Plain ctx)) w Hrs Hresolved)
      as (c2 & w2 & -> & Hc2); [by apply resolved_gives; [|left]|].
    destruct (first_accepting (c_Rule cfg) ctx resolved ≫= _) as [rule|]; cbn [matched]; by exists c2, w2.
Qed.

End Picking.
End RouterLemmas.

(** ** How often the domain is resolved *)
Section Lookups.
Context {E : RouteEnv} {B : BalanceEnv} (ctx : Context) (Hctx : ctx_ok ctx).
(** The lookups the world has seen. *)
Context (log : W -> list (bytes * res (list bytes))).
Context (Hlog : forall d w, log (LookupIP d w).2 = log w ++ [(d, (LookupIP d w).1)]).

Definition about_target (es : list (bytes * res (list bytes))) : Prop :=
  Forall (fun e => e.1 = target_domain ctx) es /\ (es <> [] -> GetTargetIPs ctx = Ok [] /\ target_domain ctx <> []).

(** The lookups since [w0]; none but the last brought an address, and none did
    as long as nothing is kept. *)
Definition ended (w0 w : W) : Prop := exists es, log w = log w0 ++ es /\ about_target es /\ once es.
Definition tracks (w0 w : W) (c : rctx) : Prop :=
  exists kept es, c = Resolvable (Plain ctx) kept /\ log w = log w0 ++ es /\ about_target es /\ once es /\
    (kept = [] -> Forall (fun e => failed e.2) es).

Lemma tracks_ended w0 w c : tracks w0 w c -> ended w0 w.
Proof. intros (kept & es & _ & H). exists es. naive_solver. Qed.

Lemma once_snoc es e : Forall (fun e => failed e.2) es -> once (es ++ [e]).
Proof.
  intros Hf pre x post Eq Hp. destruct post as [|y post] using rev_ind; [done|]. clear IHpost.
  rewrite app_comm_cons, app_assoc in Eq. apply app_inj_tail in Eq as [-> _]. by apply Forall_app in Hf as [_ [? _]%Forall_cons].
Qed.

Lemma TargetIPs_tracks w0 w c :
  tracks w0 w c ->
  match rctx_TargetIPs c w with
  | (Ok (_, c'), w') => tracks w0 w' c'
  | (_, w') => ended w0 w'
  end.
Proof.
  intros (kept & es & -> & Hw & Ha & Ho & Hk). cbn [rctx_TargetIPs]. destruct (GetTargetIPs_ok ctx Hctx) as (own & Hown & _).
  rewrite Hown. cbn [mbind res_bind]. destruct (decide (own <> [])) as [Hn|Hn]; [by exists kept, es|].
  destruct (decide (kept <> [])) as [Hkn|Hke]; [by exists kept, es|]. cbn [session_of]. rewrite (GetTargetDomain_ok ctx Hctx).
  destruct (decide (target_domain ctx <> [])) as [Hd|Hd]; [|by exists kept, es].
  assert (own = []) as -> by by apply dec_stable. assert (kept = []) as -> by by apply dec_stable. specialize (Hk eq_refl).
  pose proof (Hlog (target_domain ctx) w) as Hl. destruct (LookupIP (target_domain ctx) w) as [r w']. cbn [fst snd] in Hl.
  rewrite Hw, <- app_assoc in Hl.
  assert (Ha' : about_target (es ++ [(target_domain ctx, r)])).
  { split; [apply Forall_app; split; [apply Ha|by apply Forall_singleton]|]. intros _. by split. }
  destruct r as [ips|e|].
  - exists ips, (es ++ [(target_domain ctx, Ok ips)]). split; [done|]. split; [done|]. split; [done|]. split; [by apply once_snoc|].
    intros ->. apply Forall_app. split; [done|]. by apply Forall_singleton.
  - exists [], (es ++ [(target_domain ctx, Err e)]). split; [done|]. split; [done|]. split; [done|]. split; [by apply once_snoc|].
    intros _. apply Forall_app. split; [done|]. by apply Forall_singleton.
  - exists (es ++ [(target_domain ctx, Panic)]). split; [done|]. split; [done|]. by apply once_snoc.
Qed.

Lemma cond_Apply_tracks cond w0 w c :
  tracks w0 w c ->
  match cond_Apply cond c w with
  | (Ok (_, c'), w') => tracks w0 w' c'
  | (_, w') => ended w0 w'
  end.
Proof.
  intros Ht. pose proof (tracks_ended _ _ _ Ht) as He.
  destruct cond as [m|ms [|]|p src|l|u|t|p|p]; cbn [cond_Apply]; unfold multi_Apply; try done.
  - by destruct (domain_Apply m (session_of c)).
  - by destruct (GetSourceIPs (session_of c)).
  - pose proof (TargetIPs_tracks w0 w c Ht) as H. by destruct (rctx_TargetIPs c w) as [[[ips c']|e|] w'].
  - by destruct (network_Apply l (session_of c)).
Qed.

Lemma chan_Apply_tracks conds w0 w c :
  tracks w0 w c ->
  match chan_Apply conds c w with
  | (Ok (_, c'), w') => tracks w0 w' c'
  | (_, w') => ended w0 w'
  end.
Proof.
  revert c w. induction conds as [|cond conds IH]; intros c w Ht; cbn [chan_Apply]; [done|].
  pose proof (cond_Apply_tracks cond w0 w c Ht) as H. destruct (cond_Apply cond c w) as [[[[] c1]|e|] w1]; try done. by apply IH.
Qed.

Lemma first_match_tracks rs w0 w c :
  tracks w0 w c ->
  match first_match rs c w with
  | (Ok (_, c'), w') => tracks w0 w' c'
  | (_, w') => ended w0 w'
  end.
Proof.
  revert c w. induction rs as [|rule rs IH]; intros c w Ht; cbn [first_match]; [done|].
  pose proof (chan_Apply_tracks (rule_Condition rule) w0 w c Ht) as H.
  destruct (chan_Apply (rule_Condition rule) c w) as [[[[] c1]|e|] w1]; try done. by apply IH.
Qed.

Lemma tracks_fresh w : tracks w w (ContextWithDNSClient (Plain ctx)).
Proof.
  exists [], []. split; [done|]. split; [by rewrite app_nil_r|]. split; [by split; [constructor|]|]. split; [|constructor].
  intros [|? ?] e post Eq; discriminate Eq.
Qed.

Lemma ended_refl w : ended w w.
Proof. eapply tracks_ended, tracks_fresh. Qed.

Lemma matched_tracks rs w c r w' :
  tracks w w c -> matched (first_match rs c w) (fun c w => (Err ErrNoClue, w)) = (r, w') -> ended w w'.
Proof.
  intros Ht. pose proof (first_match_tracks rs w w c Ht) as H. destruct (first_match rs c w) as [[[[rule|] c1]|e|] w1]; cbn [matched];
    intros [= <- <-]; try done; by eapply tracks_ended.
Qed.

(** Picking a route resolves the target domain at most once with success:
    whatever the rules are, all lookups of one call of PickRoute are about the
    target domain, none follows one that brought addresses (the context keeps
    them), and there is none when the target is an address, when the caller asked
    to skip resolution, or under the strategies AsIs and UseIp. *)
Theorem resolves_at_most_once r ohm w x r' w' (Hp : PickRoute r ohm (Plain ctx) w = (x, r', w')) :
  exists es, log w' = log w ++ es /\ Forall (fun e => e.1 = target_domain ctx) es /\ once es /\
    (es <> [] -> GetTargetIPs ctx = Ok [] /\ target_domain ctx <> [] /\ GetSkipDNSResolve ctx = false /\
      (domainStrategy r = IpOnDemand \/ domainStrategy r = IpIfNonMatch)).
Proof.
  assert (Hpick : exists y, pickRouteInternal r (Plain ctx) w = (y, w')).
  { unfold PickRoute in Hp. destruct (pickRouteInternal r (Plain ctx) w) as [[[rule c]|e|] w1].
    - destruct (GetTag ohm rule r) as [tag r1]. injection Hp as _ _ <-. by eexists.
    - injection Hp as _ _ <-. by eexists.
    - injection Hp as _ _ <-. by eexists. }
  clear Hp. destruct Hpick as [y Hp]. unfold pickRouteInternal in Hp. cbv zeta in Hp. cbn [session_of] in Hp.
  assert (Hnone : w' = w -> exists es, log w' = log w ++ es /\ Forall (fun e => e.1 = target_domain ctx) es /\ once es /\
    (es <> [] -> GetTargetIPs ctx = Ok [] /\ target_domain ctx <> [] /\ GetSkipDNSResolve ctx = false /\
      (domainStrategy r = IpOnDemand \/ domainStrategy r = IpIfNonMatch))).
  { intros ->. exists []. rewrite app_nil_r. split; [done|]. split; [constructor|]. split; [|done]. intros [|? ?] ? ? Eq; discriminate Eq. }
  assert (Hend : ended w w' -> GetSkipDNSResolve ctx = false -> domainStrategy r = IpOnDemand \/ domainStrategy r = IpIfNonMatch ->
    exists es, log w' = log w ++ es /\ Forall (fun e => e.1 = target_domain ctx) es /\ once es /\
    (es <> [] -> GetTargetIPs ctx = Ok [] /\ target_domain ctx <> [] /\ GetSkipDNSResolve ctx = false /\
      (domainStrategy r = IpOnDemand \/ domainStrategy r = IpIfNonMatch))).
  { intros (es & Hl & [Ha1 Ha2] & Ho) Hs Hd. exists es. repeat (split; [done|]). intros Hne. destruct (Ha2 Hne). by repeat (split; [done|]). }
  destruct (GetSkipDNSResolve ctx) eqn:Es; cbn [negb] in Hp.
  - rewrite andb_false_r in Hp. destruct (first_match (rules r) (Plain ctx) w) as [z w1] eqn:E1. apply first_match_plain in E1 as [-> H1].
    destruct z as [[[rule|] c1]|e|]; cbn [matched] in Hp; [by injection Hp as _ <-; apply Hnone| |by injection Hp as _ <-; apply Hnone..].
    rewrite (H1 None c1 eq_refl) in Hp. cbn [session_of] in Hp. rewrite (GetTargetDomain_ok ctx Hctx), orb_true_r in Hp.
    by injection Hp as _ <-; apply Hnone.
  - rewrite andb_true_r in Hp. destruct (bool_decide_reflect (domainStrategy r = IpOnDemand)) as [Hd|Hd].
    + apply Hend; [|done|by left]. rewrite Hd in Hp. rewrite bool_decide_false in Hp by done. cbn [negb orb] in Hp.
      pose proof (first_match_tracks (rules r) w w _ (tracks_fresh w)) as H.
      destruct (first_match (rules r) (ContextWithDNSClient (Plain ctx)) w) as [[[[rule|] c1]|e|] w1]; cbn [matched] in Hp.
      * injection Hp as _ <-. by eapply tracks_ended.
      * pose proof (tracks_ended _ _ _ H) as He. destruct H as (kept & es & -> & _). cbn [session_of] in Hp.
        rewrite (GetTargetDomain_ok ctx Hctx) in Hp. by injection Hp as _ <-.
      * by injection Hp as _ <-.
      * by injection Hp as _ <-.
    + destruct (first_match (rules r) (Plain ctx) w) as [z w1] eqn:E1. apply first_match_plain in E1 as [-> H1].
      destruct z as [[[rule|] c1]|e|]; cbn [matched] in Hp; [by injection Hp as _ <-; apply Hnone| |by injection Hp as _ <-; apply Hnone..].
      rewrite (H1 None c1 eq_refl) in Hp. cbn [session_of] in Hp. rewrite (GetTargetDomain_ok ctx Hctx), orb_false_r in Hp.
      destruct (bool_decide_reflect (domainStrategy r = IpIfNonMatch)) as [Hi|Hi]; cbn [negb orb] in Hp; [|by injection Hp as _ <-; apply Hnone].
      destruct (bool_decide (target_domain ctx = [])); [by injection Hp as _ <-; apply Hnone|].
      apply Hend; [|done|by right]. by eapply matched_tracks; [apply tracks_fresh|].
Qed.
End Lookups.

(** ** Balancers *)
Section Balancers.
Context {E : RouteEnv} {B : BalanceEnv}.
Context (HIntn : draws Intn) (Hsort : sorts sortNodes) (Hrange : forall m, range m ≡ₚ map_to_list m).
Context (Hobs : forall tag, observe tag <> Some Panic).

Lemma contains_spec (l : list bytes) x : contains l x = true <-> x ∈ l.
Proof.
  unfold contains. rewrite existsb_exists. setoid_rewrite bool_decide_eq_true. setoid_rewrite <- list_elem_of_In.
  split; [by intros (y & Hy & ->)|by exists x].
Qed.

Lemma qualified_candidate l candidates status n : n ∈ qualified l candidates status -> n_Tag n ∈ candidates.
Proof.
  unfold qualified. intros (v & -> & Hv)%list_elem_of_fmap. rewrite list_elem_of_In, filter_In in Hv. destruct Hv as [_ Hv].
  unfold qualifies in Hv. apply andb_true_iff in Hv as [_ Hv%contains_spec]. unfold node_of. by destruct (HealthPing v).
Qed.

Lemma Load_picks candidates l :
  RouteStrategy.manager_ok (costs l) -> observe (l_ObserverTag (l_settings l)) <> None ->
  exists tag l', Load_PickOutbound observe Intn sortNodes candidates l = (Ok tag, l') /\ (tag = [] \/ tag ∈ candidates) /\
    RouteStrategy.manager_ok (costs l') /\ l_settings l' = l_settings l.
Proof.
  intros Hl Hn. destruct (observe (l_ObserverTag (l_settings l))) as [[status|e|]|] eqn:Eo; [| | |done].
  - destruct (pickOutbounds_spec observe sortNodes Hsort l candidates status Hl Eo) as (l' & Hp & Hs & Hm & _ & _).
    unfold Load_PickOutbound. rewrite Hp. cbn [mbind res_bind]. set (sel := take _ _).
    destruct (decide (sel = [])) as [He|Hne]; [exists [], l'; by auto|].
    destruct (Roll_index Intn HIntn sel Hne) as (i & n & -> & Hn' & Hin). cbn [mbind res_bind]. rewrite Hn'. exists (n_Tag n), l'.
    split; [done|]. split; [|done]. right. apply (qualified_candidate l candidates status).
    destruct (Hsort (qualified l candidates status)) as [Hperm _]. rewrite <- Hperm. by eapply subseteq_take.
  - unfold Load_PickOutbound, pickOutbounds, getNodes. rewrite Eo. by exists [], l; auto.
  - by apply Hobs in Eo.
Qed.

Lemma Ping_tag c candidates : exists tag, Ping_PickOutbound observe c candidates = Ok tag /\ (tag = [] \/ tag ∈ candidates).
Proof.
  destruct (observe (p_ObserverTag c)) as [[status|e|]|] eqn:Eo.
  - destruct (Ping_picks observe c candidates status Eo) as (tag & Ht & [[-> _]|(v & _ & _ & Hc & _)]); exists tag || exists []; (split; [done|]);
      [by left|right; by apply contains_spec].
  - unfold Ping_PickOutbound. rewrite Eo. by exists []; auto.
  - by apply Hobs in Eo.
  - unfold Ping_PickOutbound. rewrite Eo. by exists []; auto.
Qed.

Lemma strategy_picks b candidates :
  balancer_ok b ->
  exists tag s, strategy_PickOutbound (strategy b) candidates = (Ok tag, s) /\ (tag = [] \/ tag ∈ candidates) /\ balancer_ok (with_strategy s b).
Proof.
  unfold balancer_ok. destruct (strategy b) as [c|c|l]; cbn [strategy_PickOutbound].
  - intros _. destruct (Random_picks observe Intn HIntn c candidates Hobs) as (tag & -> & Ht & _). by exists tag, (SRandom c).
  - intros _. destruct (Ping_tag c candidates) as (tag & -> & Ht). by exists tag, (SLeastPing c).
  - intros [Hl Hn]. destruct (Load_picks candidates l Hl Hn) as (tag & l' & -> & Ht & Hm & Hs). exists tag, (SLeastLoad l').
    split; [done|]. split; [done|]. cbn. by rewrite Hs.
Qed.

(** A balancer answers with a tag it may answer with: whatever its strategy - for
    leastload with an observatory that answers the observer tag it names, and valid
    costs - and the observations are, PickOutbound does not panic; its tag is never
    empty and is the target of the override - whenever one is set -, the tag of a
    handler that is registered and starts with one of the selectors, or the fallback; an
    error is returned only without override and fallback.  The override and the fallback
    are left alone. *)
Theorem balancer_picks m b (Hb : balancer_ok b) :
  exists r b', Balancer_PickOutbound (Some m) b = (r, b') /\ balancer_ok b' /\
    override b' = override b /\ fallbackTag b' = fallbackTag b /\ selectors b' = selectors b /\
    (override b <> [] -> r = Ok (override b)) /\
    match r with
    | Ok tag => tag <> [] /\ (tag = override b \/ tag = fallbackTag b \/
        exists h s, GetHandler tag m = Some h /\ s ∈ selectors b /\ s `prefix_of` tag)
    | Err _ => override b = [] /\ fallbackTag b = []
    | Panic => False
    end.
Proof.
  unfold Balancer_PickOutbound. cbn [SelectOutbounds]. destruct (decide (override b <> [])) as [Ho|Ho].
  { exists (Ok (override b)), b. cbn [mbind res_bind]. rewrite decide_False by done. repeat (split; [done|]). by left. }
  assert (override b = []) as Eo by by apply dec_stable.
  destruct (strategy_picks b (Select range (selectors b) m) Hb) as (tag & s & -> & Ht & Hs). cbn [mbind res_bind].
  eexists _, (with_strategy s b). split; [done|]. repeat (split; [done|]).
  destruct (decide (tag = [])) as [->|Hne].
  - change (fallbackTag (with_strategy s b)) with (fallbackTag b).
    destruct (decide (fallbackTag b <> [])) as [Hf|Hf]; [by split; [|right; left]|]. split; [done|]. by apply dec_stable.
  - destruct Ht as [Ht|Ht]; [done|]. split; [done|]. right. right.
    apply (elem_of_Select range Hrange) in Ht as ([h Hh] & sel & Hsel & Hp). by exists h, sel.
Qed.
End Balancers.

(** ** Witnesses: a DNS client that knows one name and logs its lookups *)
Definition demo_ip : bytes := map z2b [10; 1; 2; 3].
Definition demo_answer (d : bytes) : res (list bytes) := if decide (d = lit "b.org") then Ok [demo_ip] else Err (NewError "no such name").

#[local] Instance demo_env : RouteEnv := {|
  W := list (bytes * res (list bytes)); LookupIP := fun d w => (demo_answer d, w ++ [(d, demo_answer d)]);
  Regexp := unit; MatchString := fun _ _ => false; Compile := fun _ => Err (NewError "no regexp"); ToASCII := fun s => Ok s;
  strhash := fun _ _ => 0; sortSlice := fun _ l => l; seeds := 0;
  IPSet := list (option Prefix); buildSet := fun ps => Ok ps;
  set_Contains := fun s a => existsb (fun p => match p with Some p => prefix_Contains p a | None => false end) s;
  FromStdIP := fun ip => Unmap <$> AddrFromSlice ip;
  File := unit; Program := unit; Parse := fun _ => Err (NewError "no program"); FileProgram := fun _ => Ok (); satisfied := fun _ _ => None |}.

#[local] Instance demo_env_ok : RouteEnvOk (E := demo_env).
Proof. split; [done|by intros ps _; exists ps|done]. Qed.

#[local] Instance demo_floats : Floats := {|
  float64 := Z; float32 := Z; positive := fun w => 0 <? w; widen := fun w => w; of_int := fun n => n; to_int := fun x => x;
  ParseFloat := fun s => Some (zlen s); scaler := fun x w => x * w; one := 1; FindRegexp := fun _ _ => None |}.

#[local] Instance demo_balance : BalanceEnv := {|
  observe := fun _ => Some (Ok [{| Alive := true; Delay := 30; OutboundTag := lit "proxy-b"; HealthPing := None |}]);
  Intn := fun n => n - 1; sortNodes := fun _ l => merge_sort node_le l; range := map_to_list;
  Any := unit; GetInstanceOf := fun _ => Ok OtherSettings |}.

Definition no_rule : RoutingRule := {|
  TargetTag := RoutingRule_None; rr_Domain := []; GeoDomain := []; UserEmail := []; InboundTag := []; rr_PortList := None;
  rr_PortRange := None; SourcePortList := None; Networks := []; NetworkList := None; Geoip := []; rr_Cidr := []; SourceGeoip := [];
  SourceCidr := []; rr_Protocol := []; rr_Attributes := []; rr_DomainMatcher := [] |}.

(** The first rule names a domain, the second a network of addresses. *)
Definition demo_rule1 : RoutingRule := {|
  TargetTag := RoutingRule_Tag (lit "one"); rr_Domain := [{| d_Type := Domain_RootDomain; d_Value := lit "a.org" |}]; GeoDomain := [];
  UserEmail := []; InboundTag := []; rr_PortList := None; rr_PortRange := None; SourcePortList := None; Networks := [Network_TCP];
  NetworkList := None; Geoip := []; rr_Cidr := []; SourceGeoip := []; SourceCidr := []; rr_Protocol := []; rr_Attributes := [];
  rr_DomainMatcher := [] |}.
Definition demo_rule2 : RoutingRule := {|
  TargetTag := RoutingRule_Tag (lit "two"); rr_Domain := []; GeoDomain := [];
  UserEmail := []; InboundTag := []; rr_PortList := None; rr_PortRange := Some {| From := 443; To := 443 |}; SourcePortList := None; Networks := [];
  NetworkList := None; Geoip := []; rr_Cidr := [{| Ip := map z2b [10; 0; 0; 0]; c_Prefix := 8 |}]; SourceGeoip := []; SourceCidr := [];
  rr_Protocol := []; rr_Attributes := []; rr_DomainMatcher := [] |}.
Definition demo_config : Config := {| c_DomainStrategy := IpIfNonMatch; c_Rule := [demo_rule1; demo_rule2]; c_BalancingRule := [] |}.
Definition demo_ctx : Context := {| ctx_Inbound := None; ctx_Content := None;
  ctx_Outbound := Some {| Target := TCPDestination (Some (DomainAddress (lit "b.org"))) 443 |} |}.

Lemma demo_ctx_ok : ctx_ok demo_ctx.
Proof. split; [done|]. intros o [= <-] _. by exists (DomainAddress (lit "b.org")). Qed.

Lemma demo_rules_ready : Forall (fun rr => rule_ready (fun _ => []) rr (target_domain demo_ctx)) (c_Rule demo_config).
Proof.
  apply Forall_cons_2; [|apply Forall_cons_2; [|apply Forall_nil_2]].
  - split; [by left| |done|split; constructor|split; constructor|done]. intros _. exists [StrMatch.DomainMatcher (lit "a.org")].
    split; [|cbn; repeat split; repeat constructor; done]. apply Forall2_cons_2; [vm_compute; reflexivity|apply Forall2_nil_2].
  - split; [by do 4 right; left; eexists|done|done| |split; constructor|done]. split; [constructor|]. apply Forall_singleton. eexists _, _. by split.
Qed.

Definition demo_router : res Router := (Init demo_config []).2.


Lemma pair3_eta {A B C} (p : A * B * C) : p = (p.1.1, p.1.2, p.2).
Proof. by destruct p as [[? ?] ?]. Qed.

(** A router with one rule on addresses, and two names. *)
Definition demo_geo : GeoIPMatcher :=
  {| m_countryCode := []; reverseMatch := true; ip4 := []; ip6 := [] |}.
Definition demo_router2 : Router := {|
  domainStrategy := IpOnDemand; balancers := ∅; heap := [];
  rules := [ {| Tag := lit "one"; rule_Balancer := None; rule_Condition := [CMultiGeoIP [demo_geo] false; CUser [lit "me"]] |};
             {| Tag := lit "two"; rule_Balancer := None; rule_Condition := [CMultiGeoIP [demo_geo] false] |} ] |}.

Lemma resolves_at_most_once_witness :
  (PickRoute demo_router2 None (Plain demo_ctx) []).2 = [(lit "b.org", Ok [demo_ip])] /\
  exists es, (PickRoute demo_router2 None (Plain demo_ctx) []).2 = [] ++ es /\ once es.
Proof.
  split; [vm_compute; reflexivity|].
  destruct (resolves_at_most_once (E := demo_env) (B := demo_balance) demo_ctx demo_ctx_ok (fun w => w) (fun d w => eq_refl) demo_router2 None [] _ _ _
    (pair3_eta (PickRoute demo_router2 None (Plain demo_ctx) []))) as (es & He & _ & Ho & _).
  exists es. split; [exact He|exact Ho].
Defined.

Definition demo_balancer : Balancer := {|
  selectors := [lit "proxy-"]; fallbackTag := lit "direct"; override := [];
  strategy := SLeastLoad (NewLeastLoadStrategy {| Costs := []; Baselines := []; Expected := 1; MaxRTT := 0; l_ObserverTag := [] |}) |}.
Definition demo_manager : Manager := (AddHandler (fun _ => None) (mkHandler 1 (lit "proxy-b")) New).1.1.

Lemma balancer_picks_witness :
  (Balancer_PickOutbound (Some demo_manager) demo_balancer).1 = Ok (lit "proxy-b") /\
  exists r b', Balancer_PickOutbound (Some demo_manager) demo_balancer = (r, b') /\ balancer_ok b'.
Proof.
  split; [vm_compute; reflexivity|].
  destruct (balancer_picks (B := demo_balance)) with (m := demo_manager) (b := demo_balancer) as (r & b' & Hp & Hok & _).
  - intros n Hn. cbn. lia.
  - exact merge_sorts.
  - intros m. reflexivity.
  - intros tag. discriminate.
  - split; [intros tag w; cbn [costs w_cache NewLeastLoadStrategy NewWeightManager]; by rewrite lookup_empty|discriminate].
  - exists r, b'. split; [exact Hp|exact Hok].
Defined.

(** ** Where the code differs from the configuration's documentation

    The strategy UseIp ("always resolve IP for domains") resolves nothing: it is
    AsIs under another name. *)
Lemma UseIp_is_AsIs {E : RouteEnv} {B : BalanceEnv} (r : Router) c w :
  domainStrategy r = UseIp ->
  pickRouteInternal r c w =
  pickRouteInternal {| domainStrategy := AsIs; rules := rules r; balancers := balancers r; heap := heap r |} c w.
Proof. intros Hd. unfold pickRouteInternal. by rewrite Hd. Qed.

(** A balancing rule with a strategy that needs settings and has none panics. *)
Lemma missing_settings_panic {E : RouteEnv} {B : BalanceEnv} br :
  br_Strategy br = lit "leastping" \/ br_Strategy br = lit "leastload" -> StrategySettings br = None -> Build br = Panic.
Proof. intros [Hs|Hs] Hn; unfold Build, settings_of; by rewrite Hs, Hn. Qed.
