(* ===== verification/Sniffer.v ===== *)
(** * Package app/dispatcher: the sniffers of a connection

    [Module Sniffer] models sniffer.go and fakednssniffer.go: the list of sniffers,
    the loops over it and the results, over the protocol sniffers of [Sniff],
    [SniffHttp], [SniffBt] and [SniffQuic].  The FakeDNS engine is an interface, the
    class [FakeDNSEngine]; a sniffer works on the engine and on the payload, which
    it may write to. *)
From S2P Require Import Prelude GoStd Buf NetAddr GoText FakeDns FakeDnsMulti Sniff SniffHttp SniffBt SniffQuic.
Import NetAddr.

Module Sniffer.

(** features/dns.FakeDNSEngine; [rev0] says that it has [IsIPInIPPool] too. *)
Class FakeDNSEngine := {
  Engine : Type;
  GetDomainFromFakeDNS : Address -> ST Engine bytes;
  rev0 : bool;
  IsIPInIPPool : Address -> ST Engine bool;
}.

(** The group of holders of [FakeDnsMulti] is one. *)
#[export] Instance HolderMulti_engine (h : list nat) : FakeDNSEngine := {|
  Engine := list FakeDns.Holder;
  GetDomainFromFakeDNS := FakeDnsMulti.Multi_GetDomainFromFakeDNS h;
  rev0 := true;
  IsIPInIPPool := FakeDnsMulti.Multi_IsIPInIPPool h;
|}.

(** What the protocol sniffers take from elsewhere: the parameters of [SniffQUIC],
    the tables of unicode and the clock, the arrays of the pool and of the payload,
    and what is left of a payload after [SniffQUIC] decrypted in place. *)
Class SniffEnv := {
  unicode_lower : bytes -> bytes;
  UnixMicro : Z;
  hkdf_Extract : bytes -> bytes -> bytes;
  hkdf_Expand : bytes -> bytes -> Z -> bytes;
  aes_Encrypt : bytes -> bytes -> bytes;
  aead_Open : bytes -> bytes -> bytes -> bytes -> bytes -> option bytes;
  varint_Read : ST Buf.Buffer Z;
  recycled : bytes -> bytes;
  spare : bytes -> bytes;
  decrypted_payload : bytes -> bytes;
}.

(** ** Results *)
Inductive SniffResult :=
  | SniffHeader (protocol domain : bytes)
  | fakeDNSSniffResult (domainName : bytes)
  | DNSThenOthersSniffResult (domainName protocolOriginalName : bytes)
  | compositeResult (domainResult protocolResult : SniffResult).

Fixpoint Protocol (r : SniffResult) : bytes :=
  match r with
  | SniffHeader p _ => p
  | fakeDNSSniffResult _ => lit "fakedns"
  | DNSThenOthersSniffResult _ _ => lit "fakedns+others"
  | compositeResult _ p => Protocol p
  end.

Fixpoint Domain (r : SniffResult) : bytes :=
  match r with
  | SniffHeader _ d | fakeDNSSniffResult d | DNSThenOthersSniffResult d _ => d
  | compositeResult d _ => Domain d
  end.

(** The interfaces SnifferResultComposite and SnifferIsProtoSubsetOf. *)
Definition ProtocolForDomainResult (r : SniffResult) : option bytes :=
  match r with compositeResult d _ => Some (Protocol d) | _ => None end.
Definition IsProtoSubsetOf (r : SniffResult) (protocolName : bytes) : option bool :=
  match r with
  | DNSThenOthersSniffResult _ orig => Some (HasPrefix protocolName orig)
  | _ => None
  end.

Definition CompositeResult (domainResult protocolResult : SniffResult) : SniffResult :=
  compositeResult domainResult protocolResult.

Section Sniffers.
Context {env : SniffEnv} {eng : FakeDNSEngine}.

(** A sniffer on a payload, [None] is nil: the payload after it, and the result. *)
Definition protocolSniffer := option bytes -> ST Engine (option bytes * res SniffResult).

Record protocolSnifferWithMetadata := mkSniffer {
  sniff : protocolSniffer;
  metadataSniffer : bool;
  network : Network;
}.

(** A protocol sniffer of the other packages; its fuel never runs out. *)
Definition fueled {A} (o : option (res A)) : res A :=
  match o with Some r => r | None => Err (NewError "out of fuel") end.
Definition payload_of (p : option bytes) : bytes := match p with Some b => b | None => [] end.

Definition lift (protocol : bytes) (f : bytes -> res bytes) (after : bytes -> bytes) : protocolSniffer := fun p e =>
  let b := payload_of p in
  (e, Ok (after <$> p, d ← f b; Ok (SniffHeader protocol d))).

Definition http_sniffer : protocolSniffer := lift (lit "http1") (HttpSniff.SniffHTTP unicode_lower) id.
Definition tls_sniffer : protocolSniffer := lift (lit "tls") (fun b => fueled (TlsSniff.SniffTLS b)) id.
Definition quic_sniffer : protocolSniffer := lift (lit "quic") (fun b =>
  fueled (QuicSniff.SniffQUIC hkdf_Extract hkdf_Expand aes_Encrypt aead_Open varint_Read (recycled b) b (spare b)))
  decrypted_payload.
Definition bittorrent_sniffer : protocolSniffer :=
  lift (lit "bittorrent") (fun b => _ ← BtSniff.SniffBittorrent b; Ok []) id.
Definition utp_sniffer : protocolSniffer :=
  lift (lit "bittorrent") (fun b => _ ← fueled (BtSniff.SniffUTP UnixMicro b); Ok []) id.

(** ** FakeDNS *)

(** The metadata sniffer: [wanted] is the option [ipAddressInRange] in the context,
    the flag of the answer is what it is set to. *)
Definition fakeDNS_sniff (Target : Destination) (wanted : bool) : ST Engine (option bool * res SniffResult) := fun e =>
  let '(e, domain) :=
    (if bool_decide (DNetwork Target = Network_TCP) || bool_decide (DNetwork Target = Network_UDP)
     then (a ← st_lift (or_panic (DAddress Target)); GetDomainFromFakeDNS a) e
     else (e, Ok [])) in
  match domain with
  | Ok ((_ :: _) as d) => (e, Ok (None, Ok (fakeDNSSniffResult d)))
  | Ok [] =>
    if wanted && rev0 then
      match (a ← st_lift (or_panic (DAddress Target)); IsIPInIPPool a) e with
      | (e, Ok inPool) => (e, Ok (Some inPool, Err ErrNoClue))
      | (e, Err err) => (e, Err err)
      | (e, Panic) => (e, Panic)
      end
    else (e, Ok (None, Err ErrNoClue))
  | Err err => (e, Err err)
  | Panic => (e, Panic)
  end.

Definition newFakeDNSSniffer (Target : Destination) : protocolSnifferWithMetadata := {|
  sniff := fun p => '(_, r) ← fakeDNS_sniff Target false; mret (p, r);
  metadataSniffer := true;
  network := Network_Unknown;
|}.

(** The loop of [newFakeDNSThenOthers] over the other sniffers. *)
Fixpoint others_loop (others : list protocolSnifferWithMetadata) (p : option bytes)
    : ST Engine (option bytes * res SniffResult) :=
  match others with
  | [] => mret (p, Err ErrNoClue)
  | v :: others' =>
    if metadataSniffer v || bool_decide (is_Some p) then
      '(p, r) ← sniff v p;
      match r with
      | Ok result => mret (p, Ok (DNSThenOthersSniffResult (Domain result) (Protocol result)))
      | Panic => st_panic
      | Err _ => others_loop others' p
      end
    else others_loop others' p
  end.

Definition newFakeDNSThenOthers (Target : Destination) (others : list protocolSnifferWithMetadata)
    : protocolSnifferWithMetadata := {|
  sniff := fun p =>
    '(inRange, r) ← fakeDNS_sniff Target true;
    match r with
    | Ok result => mret (p, Ok result)
    | _ =>
      match inRange with
      | Some true => others_loop others p
      | _ => mret (p, Err ErrNoClue)
      end
    end;
  metadataSniffer := false;
  network := Network_Unknown;
|}.

(** ** The list of sniffers *)
Definition protocol_sniffers : list protocolSnifferWithMetadata := [
  mkSniffer http_sniffer false Network_TCP;
  mkSniffer tls_sniffer false Network_TCP;
  mkSniffer quic_sniffer false Network_UDP;
  mkSniffer bittorrent_sniffer false Network_TCP;
  mkSniffer utp_sniffer false Network_UDP].

(** [NewSniffer(ctx)]; [fakeDNS] says that the instance has an engine. *)
Definition NewSniffer (fakeDNS : bool) (Target : Destination) : list protocolSnifferWithMetadata :=
  if fakeDNS then
    newFakeDNSThenOthers Target protocol_sniffers :: protocol_sniffers ++ [newFakeDNSSniffer Target]
  else protocol_sniffers.

Definition errUnknownContent : error := NewError "unknown content".

(** The sniffers that are left, the payload and the result. *)
Record sniffed := mkSniffed {
  left_ : list protocolSnifferWithMetadata;
  payload_after : option bytes;
  outcome : res SniffResult;
}.

(** [Sniff(c, payload, network)] from the sniffers still to try; [all] is [s.sniffer]. *)
Fixpoint Sniff_loop (net : Network) (all todo pendingSniffer : list protocolSnifferWithMetadata) (p : option bytes)
    : ST Engine sniffed :=
  match todo with
  | [] =>
    match pendingSniffer with
    | [] => mret (mkSniffed all p (Err errUnknownContent))
    | _ => mret (mkSniffed pendingSniffer p (Err ErrNoClue))
    end
  | si :: todo' =>
    if metadataSniffer si then Sniff_loop net all todo' pendingSniffer p else
    if negb (bool_decide (network si = net)) then Sniff_loop net all todo' pendingSniffer p else
    '(p, r) ← sniff si p;
    match r with
    | Panic => st_panic
    | Err e =>
      if decide (e = ErrNoClue) then Sniff_loop net all todo' (pendingSniffer ++ [si]) p else
      if decide (e = ErrProtoNeedMoreData) then mret (mkSniffed [si] p (Err ErrProtoNeedMoreData)) else
      Sniff_loop net all todo' pendingSniffer p
    | Ok result => mret (mkSniffed all p (Ok result))
    end
  end.

Definition Sniff (s : list protocolSnifferWithMetadata) (payload : bytes) (net : Network) : ST Engine sniffed :=
  Sniff_loop net s s [] (Some payload).

Fixpoint SniffMetadata_loop (all todo pendingSniffer : list protocolSnifferWithMetadata) : ST Engine sniffed :=
  match todo with
  | [] =>
    match pendingSniffer with
    | [] => mret (mkSniffed all None (Err errUnknownContent))
    | _ => mret (mkSniffed pendingSniffer None (Err ErrNoClue))
    end
  | si :: todo' =>
    if negb (metadataSniffer si) then SniffMetadata_loop all todo' (pendingSniffer ++ [si]) else
    '(_, r) ← sniff si None;
    match r with
    | Panic => st_panic
    | Err e =>
      if decide (e = ErrNoClue) then SniffMetadata_loop all todo' (pendingSniffer ++ [si])
      else SniffMetadata_loop all todo' pendingSniffer
    | Ok result => mret (mkSniffed all None (Ok result))
    end
  end.

Definition SniffMetadata (s : list protocolSnifferWithMetadata) : ST Engine sniffed := SniffMetadata_loop s s [].
End Sniffers.
End Sniffer.
