(* ===== verification/Dispatcher.v ===== *)
(** * Package app/dispatcher: from a connection to an outbound handler

    [Module Dispatcher] models default.go and stats.go: the reader that keeps what
    the sniffers have read, the loop that sniffs, the override of the destination
    and the choice of the handler, over the sniffers, the router and the outbound
    manager.  What the reader of a connection returns, the time it takes and the
    end of the context come from outside, as a list of events. *)
From S2P Require Import Prelude GoStd Buf MultiBuf NetAddr GoText StrMatch RouteCond OutboundMgr Router Sniff SniffHttp Codec Sniffer.
Import Buf MultiBuf NetAddr Sniffer.

Module Dispatcher.



(** ** cachedReader *)

(** [readInternal]: the cache, when there is something in it. *)
Definition readInternal (cache : MultiBuffer) : MultiBuffer * option MultiBuffer :=
  if negb (MultiBuf.IsEmpty cache) then ([], Some cache) else (cache, None).

(** [Cache(b, deadline)], where the reader returned [r]. *)
Definition Cache (cache : MultiBuffer) (b : Buffer) (r : res MultiBuffer) : MultiBuffer * Buffer * res unit :=
  match r with
  | Err err => (cache, b, Err err)
  | Panic => (cache, b, Panic)
  | Ok mb =>
    let cache := if negb (MultiBuf.IsEmpty mb) then (MultiBuf.MergeMulti cache mb).1 else cache in
    match
      (let b := Buf.Clear b in
       '(b, w) ← Buf.Extend b (Buf.Cap (Some b));
       data ← MultiBuf.Copy cache (Z.to_nat (w.2 - w.1));
       Buf.Resize (Buf.poke b w data) 0 (i32 (zlen data)))
    with
    | Ok b => (cache, b, Ok tt)
    | Err e => (cache, b, Err e)
    | Panic => (cache, b, Panic)
    end
  end.

(** The calls on a cachedReader; [r] is what the reader behind it returns when it
    is asked. *)
Inductive call := CCache (b : Buffer) (r : res MultiBuffer) | CRead (r : res MultiBuffer) | CInterrupt.

(** [ReadMultiBuffer] and [ReadMultiBufferTimeout]: what is returned, and whether the
    reader was asked. *)
Definition ReadMultiBuffer (cache : MultiBuffer) (r : res MultiBuffer) : MultiBuffer * res MultiBuffer * bool :=
  match readInternal cache with
  | (cache, Some mb) => (cache, Ok mb, false)
  | (cache, None) => (cache, r, true)
  end.

Definition Interrupt (cache : MultiBuffer) : MultiBuffer := MultiBuf.ReleaseMulti cache.

(** ** Sniffing a connection *)
Section Dispatcher.
Context {env : SniffEnv} {eng : FakeDNSEngine}.

(** A round of the loop: is the context done, what did the reader return, and how
    many nanoseconds did the call take. *)
Record round := mkRound { done : option error; answer : res MultiBuffer; elapsed : Z }.

Definition errSniffingTimeout : error := NewError "timeout on sniffing".

(** The state of the loop. *)
Record loop := mkLoop {
  sniffers : list protocolSnifferWithMetadata;
  cached : MultiBuffer;
  payload : Buffer;
  cacheDeadline : Z;
  totalAttempt : Z;
  engine : Engine;
}.

(** What a sniffer wrote to the payload. *)
Definition set_payload (b : Buffer) (p : option bytes) : Buffer :=
  match p with
  | Some d => Buf.poke b (Buf.start b, Buf.end_ b) d
  | None => b
  end.

(** [sniffer.Sniff(ctx, payload.Bytes(), network)] *)
Definition ask (net : Network) (s : loop) : Engine * res sniffed :=
  (d ← st_lift (Buf.Bytes (payload s)); Sniff (sniffers s) d net) (engine s).

(** One round: the result of the function, when it returns. *)
Definition sniff_round (net : Network) (s : loop) (ev : round) : loop * option (res SniffResult) :=
  match done ev with
  | Some err => (s, Some (Err err))
  | None =>
    let '(c, p, cacheErr) := Cache (cached s) (payload s) (answer ev) in
    let deadline := cacheDeadline s - elapsed ev in
    let s := mkLoop (sniffers s) c p deadline (totalAttempt s) (engine s) in
    match cacheErr with
    | Panic => (s, Some Panic)
    | _ =>
      let '(s, r) :=
        (if negb (Buf.IsEmpty (Some p)) then
           match ask net s with
           | (e, Ok x) =>
             let attempt :=
               match outcome x with
               | Err err =>
                 if decide (err = ErrNoClue) then Some (totalAttempt s + 1) else
                 if decide (err = ErrProtoNeedMoreData) then
                   Some (match cacheErr with Err _ => totalAttempt s + 1 | _ => totalAttempt s end)
                 else None
               | _ => None
               end in
             let s' n := mkLoop (left_ x) c (set_payload p (payload_after x)) deadline n e in
             match attempt with
             | Some n => (s' n, None)
             | None => (s' (totalAttempt s), Some (outcome x))
             end
           | (e, Err err) => (s, Some (Err err))
           | (e, Panic) => (s, Some Panic)
           end
         else (s, None)) in
      match r with
      | Some r => (s, Some r)
      | None =>
        if (2 <=? totalAttempt s) || (cacheDeadline s <=? 0) then (s, Some (Err errSniffingTimeout)) else (s, None)
      end
    end
  end.

(** The loop over the events that come; [None] when they are not enough. *)
Fixpoint sniff_loop (net : Network) (s : loop) (evs : list round) : option (loop * res SniffResult) :=
  match evs with
  | [] => None
  | ev :: evs' =>
    match sniff_round net s ev with
    | (s', Some r) => Some (s', r)
    | (s', None) => sniff_loop net s' evs'
    end
  end.

(** The two results together. *)
Definition combine (meta content : res SniffResult) : res SniffResult :=
  match content, meta with
  | Panic, _ | _, Panic => Panic
  | Err _, Ok metaresult => Ok metaresult
  | Ok contentResult, Ok metaresult => Ok (CompositeResult metaresult contentResult)
  | c, Err _ => c
  end.

(** [sniffer(ctx, cReader, metadataOnly, network)]: 200 ms, and a payload of 32767
    bytes from the pool. *)
Definition sniffer (fakeDNS : bool) (Target : Destination) (metadataOnly : bool) (net : Network) (e : Engine)
    (evs : list round) : option (Engine * MultiBuffer * res SniffResult) :=
  match SniffMetadata (NewSniffer fakeDNS Target) e with
  | (e, Err err) => Some (e, [], Err err)
  | (e, Panic) => Some (e, [], Panic)
  | (e, Ok m) =>
    if metadataOnly then Some (e, [], outcome m) else
    match Buf.NewWithSize 32767 with
    | Ok payload =>
      match sniff_loop net (mkLoop (left_ m) [] payload 200000000 0 e) evs with
      | None => None
      | Some (s, r) => Some (engine s, cached s, combine (outcome m) r)
      end
    | Err err => Some (e, [], Err err)
    | Panic => Some (e, [], Panic)
    end
  end.

Definition shouldOverride (result : SniffResult) (domainOverride : list bytes) : bool :=
  if bool_decide (Domain result = []) then false else
  let protocolString := default (Protocol result) (ProtocolForDomainResult result) in
  existsb (fun p => HasPrefix protocolString p || HasSuffix protocolString p ||
    match IsProtoSubsetOf result p with Some b => b | None => false end) domainOverride.

(** ** Routing *)
Context {E : RouteCond.RouteEnv} {B : Router.BalanceEnv}.

(** What of the context the dispatcher reads: the routing context, the forced tag and
    the access message. *)
Record access := mkAccess { Detour : bytes; To : Destination }.
Record context := mkCtx { session : RouteCond.Context; forcedTag : bytes; message : option access }.

Record DefaultDispatcher := mkDispatcher {
  ohm : OutboundMgr.Manager;
  router : option Router.Router;
  OverrideAccessLogDest : bool;
}.

(** What becomes of a link: a handler takes it, with the context it is given and the
    access message that is recorded, or it is closed. *)
Inductive fate :=
  | Handled (h : OutboundMgr.Handler) (ctx : context)
  | Closed.

Definition ended := (res fate * option Router.Router * RouteCond.W)%type.

Definition handle (d : DefaultDispatcher) (ctx : context) (destination : Destination) (handler : option OutboundMgr.Handler)
    : res fate :=
  match handler with
  | None => Ok Closed
  | Some h =>
    let message :=
      match message ctx with
      | Some m =>
        if bool_decide (OutboundMgr.h_Tag h = []) then Some m else
        Some (mkAccess (OutboundMgr.h_Tag h) (if OverrideAccessLogDest d then destination else To m))
      | None => None
      end in
    Ok (Handled h (mkCtx (session ctx) (forcedTag ctx) message))
  end.

Definition or_default (d : DefaultDispatcher) (h : option OutboundMgr.Handler) : option OutboundMgr.Handler :=
  match h with Some h => Some h | None => OutboundMgr.GetDefaultHandler (ohm d) end.

Definition routedDispatch (d : DefaultDispatcher) (ctx : context) (destination : Destination) (w : RouteCond.W) : ended :=
  if negb (bool_decide (forcedTag ctx = [])) then
    let ctx' := mkCtx (session ctx) [] (message ctx) in
    match OutboundMgr.GetHandler (forcedTag ctx) (ohm d) with
    | Some h => (handle d ctx' destination (Some h), router d, w)
    | None => (Ok Closed, router d, w)
    end
  else
    match router d with
    | Some r =>
      match Router.PickRoute r (Some (ohm d)) (RouteCond.Plain (session ctx)) w with
      | (Ok (tag, _), r', w') =>
        (handle d ctx destination (or_default d (OutboundMgr.GetHandler tag (ohm d))), Some r', w')
      | (Err _, r', w') => (handle d ctx destination (or_default d None), Some r', w')
      | (Panic, r', w') => (Panic, Some r', w')
      end
    | None => (handle d ctx destination (or_default d None), None, w)
    end.

(** ** Dispatch *)
Record SniffingRequest := mkRequest {
  Enabled : bool;
  MetadataOnly : bool;
  OverrideDestinationForProtocol : list bytes;
}.

Definition with_target (destination : Destination) (c : RouteCond.Context) : RouteCond.Context :=
  {| RouteCond.ctx_Inbound := RouteCond.ctx_Inbound c;
     RouteCond.ctx_Outbound := Some {| RouteCond.Target := destination |};
     RouteCond.ctx_Content := RouteCond.ctx_Content c |}.

(** The content of the context, made when there is none. *)
Definition content_of (c : RouteCond.Context) : RouteCond.Content :=
  default {| RouteCond.Protocol := []; RouteCond.Attributes := None; RouteCond.SkipDNSResolve := false |}
    (RouteCond.ctx_Content c).
Definition with_content (x : RouteCond.Content) (c : RouteCond.Context) : RouteCond.Context :=
  {| RouteCond.ctx_Inbound := RouteCond.ctx_Inbound c; RouteCond.ctx_Outbound := RouteCond.ctx_Outbound c;
     RouteCond.ctx_Content := Some x |}.
Definition with_protocol (p : bytes) (x : RouteCond.Content) : RouteCond.Content :=
  {| RouteCond.Protocol := p; RouteCond.Attributes := RouteCond.Attributes x;
     RouteCond.SkipDNSResolve := RouteCond.SkipDNSResolve x |}.

(** The destination and the content after sniffing; [ToDomain] takes at most two rounds. *)
Definition apply_sniffed (req : SniffingRequest) (r : res SniffResult) (destination : Destination)
    (x : RouteCond.Content) : res (Destination * RouteCond.Content) :=
  match r with
  | Panic => Panic
  | Err _ => Ok (destination, x)
  | Ok result =>
    let x := with_protocol (Protocol result) x in
    if shouldOverride result (OverrideDestinationForProtocol req) then
      match fueled (StrMatch.ToDomain RouteCond.ToASCII 2 (Domain result)) with
      | Ok domain => a ← ParseAddress domain; Ok (mkDest a (DPort destination) (DNetwork destination), x)
      | Err _ => Ok (destination, x)
      | Panic => Panic
      end
    else Ok (destination, x)
  end.

(** [Dispatch(ctx, destination)] and the goroutine it starts: what the sniffers leave
    in the cached reader, and how the link ends; [evs] is for the sniffers. *)
Definition Dispatch (d : DefaultDispatcher) (fakeDNS : bool) (req : SniffingRequest) (ctx : context)
    (destination : Destination) (e : Engine) (w : RouteCond.W) (evs : list round)
    : option (Engine * MultiBuffer * ended) :=
  if negb (IsValid destination) then Some (e, [], (Panic, router d, w)) else
  let c := with_target destination (session ctx) in
  let x := content_of c in
  let run c destination := routedDispatch d (mkCtx c (forcedTag ctx) (message ctx)) destination w in
  if negb (Enabled req) then Some (e, [], run (with_content x c) destination) else
  '(e, mb, r) ← sniffer fakeDNS destination (MetadataOnly req) (DNetwork destination) e evs;
  Some (e, mb,
    match apply_sniffed req r destination x with
    | Ok (destination, x) => run (with_content x (with_target destination c)) destination
    | Err err => (Err err, router d, w)
    | Panic => (Panic, router d, w)
    end).
End Dispatcher.

(** ** Sniffing loses no byte *)

Definition call_wf (c : call) : Prop :=
  match c with
  | CCache b r => buf_wf b /\ (forall mb, r = Ok mb -> mb_wf mb)
  | CRead r => forall mb, r = Ok mb -> mb_wf mb
  | CInterrupt => False
  end.

Definition bytes_of (r : res MultiBuffer) : bytes := match r with Ok mb => mb_content mb | _ => [] end.

(** A call: the cache after it, the bytes the caller got, and the bytes the reader
    behind gave. *)
Definition step (c : call) (cache : MultiBuffer) : MultiBuffer * bytes * bytes :=
  match c with
  | CCache b r => let '(cache, _, _) := Cache cache b r in (cache, [], bytes_of r)
  | CRead r => let '(cache, x, asked) := ReadMultiBuffer cache r in
               (cache, bytes_of x, if asked : bool then bytes_of r else [])
  | CInterrupt => (Interrupt cache, [], [])
  end.

Fixpoint calls (cs : list call) (cache : MultiBuffer) : MultiBuffer * bytes * bytes :=
  match cs with
  | [] => (cache, [], [])
  | c :: cs =>
    let '(cache, got, given) := step c cache in
    let '(cache, got', given') := calls cs cache in
    (cache, got ++ got', given ++ given')
  end.

(** [Cache] on a well-formed buffer: what it keeps, and the payload. *)
Lemma Cache_spec cache b mb :
  mb_wf cache -> mb_wf mb -> buf_wf b ->
  exists cache' b', Cache cache b (Ok mb) = (cache', b', Ok tt) /\ mb_wf cache' /\
    mb_content cache' = mb_content cache ++ mb_content mb /\
    buf_wf b' /\ zlen (v b') = zlen (v b) /\ content b' = take (length (v b)) (mb_content cache').
Proof.
  intros Hc Hm Hb. unfold Cache. rewrite MultiBuf.IsEmpty_spec by done.
  set (cache' := if negb _ then _ else _).
  assert (Hw : mb_wf cache' /\ mb_content cache' = mb_content cache ++ mb_content mb).
  { unfold cache'. destruct (bool_decide_reflect (mb_content mb = [])) as [E|E]; cbn [negb].
    - by rewrite E, app_nil_r.
    - split; [by apply mb_wf_app|]. apply mb_content_app. }
  destruct Hw as [Hw Hcont]. clearbody cache'. exists cache'.
  destruct b as [w st e own]. unfold buf_wf in Hb. cbn [start end_ v] in Hb.
  pose proof (zlen_nonneg w). unfold Buf.Clear, Buf.Cap, Buf.Extend. cbn [start end_ v owner].
  rewrite !(i32_small (zlen w)) by lia. change (0 + zlen w) with (zlen w). rewrite (i32_small (zlen w)) by lia.
  rewrite Z.ltb_irrefl. rewrite slice_Some by lia. cbn [or_panic mbind res_bind fst snd].
  rewrite Z.sub_0_r, (Copy_spec _ _ Hw). cbn [mbind res_bind].
  replace (Z.to_nat (zlen w)) with (length w) by len. set (d := take (length w) (mb_content cache')).
  assert (Hd : 0 <= zlen d <= zlen w) by (split; [apply zlen_nonneg|unfold d; len]).
  unfold Buf.poke, Buf.Resize. cbn [start end_ v owner fst snd].
  rewrite (i32_small (zlen d)) by lia. change (0 <? 0) with false. replace (zlen d <? 0) with false by lia.
  cbn match. rewrite !i32_small by lia. replace (zlen d <? 0) with false by lia. eexists. split; [reflexivity|].
  replace (Z.to_nat (zlen w - 0)) with (length w) by len.
  assert (Ec : (copy_at w (Z.to_nat 0) (take (length w) d)).1 = d ++ drop (length d) w).
  { unfold copy_at. cbn [fst Z.to_nat]. rewrite (firstn_all2 d) by len.
    replace (_ `min` _)%nat with (length d) by len. by rewrite firstn_all. }
  rewrite Ec. assert (El : zlen (d ++ drop (length d) w) = zlen w) by len.
  split_and!; [done|done|..].
  - unfold buf_wf. cbn [start end_ v]. rewrite El. lia.
  - done.
  - unfold content. cbn [start end_ v]. change (Z.to_nat 0) with 0%nat. rewrite drop_0.
    apply take_app_length'. len.
Qed.

(** C13. Sniffing is transparent: whatever sequence of caching and reading calls is
    made on a connection - the sniffers cache, the outbound then reads -, the bytes
    handed to the readers, followed by those still in the cache, are the bytes
    the connection gave, each once and in order. *)
Theorem sniffing_is_transparent (cs : list call) (cache : MultiBuffer) :
  mb_wf cache -> Forall call_wf cs ->
  let '(cache', got, given) := calls cs cache in
  mb_wf cache' /\ got ++ mb_content cache' = mb_content cache ++ given.
Proof.
  intros Hc Hcs. revert cache Hc. induction Hcs as [|c cs Hwf _ IH]; intros cache Hc; cbn [calls].
  - by rewrite app_nil_r.
  - assert (S : let '(cache', got, given) := step c cache in
      mb_wf cache' /\ got ++ mb_content cache' = mb_content cache ++ given).
    { destruct c as [b [mb|e|]|r|]; cbn [step call_wf] in *.
      - destruct Hwf as [Hb Hm]. destruct (Cache_spec cache b mb Hc (Hm _ eq_refl) Hb) as (c' & b' & E & Hw & Hcont & _).
        by rewrite E.
      - cbn. by rewrite app_nil_r.
      - cbn. by rewrite app_nil_r.
      - unfold ReadMultiBuffer, readInternal. rewrite MultiBuf.IsEmpty_spec by done.
        destruct (bool_decide_reflect (mb_content cache = [])) as [E|E]; cbn [negb].
        + split; [done|]. by rewrite E, app_nil_r.
        + split; [constructor|]. cbn. by rewrite !app_nil_r.
      - done. }
    destruct (step c cache) as [[c1 g1] v1]. destruct S as [Hc1 E1]. specialize (IH c1 Hc1).
    destruct (calls cs c1) as [[c2 g2] v2]. destruct IH as [Hc2 E2]. split; [done|].
    by rewrite <- app_assoc, E2, app_assoc, E1, app_assoc.
Qed.

Definition demo_calls : list call :=
  [CCache Buf.New (Ok [push Buf.New (lit "he")]); CCache Buf.New (Err EOF); CCache Buf.New (Ok [push Buf.New (lit "llo")]);
   CRead (Ok [push Buf.New (lit "!")]); CRead (Ok [push Buf.New (lit ", you")])].

Lemma sniffing_is_transparent_witness :
  mb_wf [] /\ Forall call_wf demo_calls /\
  (let '(cache', got, given) := calls demo_calls [] in
   mb_wf cache' /\ got ++ mb_content cache' = mb_content [] ++ given) /\
  (calls demo_calls []).1.2 = lit "hello, you".
Proof.
  assert (Hw : forall s, zlen (lit s) <= 2048 -> mb_wf [push Buf.New (lit s)]).
  { intros s Hs. constructor; [|constructor]. apply push_wf; [apply New_wf|]. by rewrite New_room. }
  assert (H : Forall call_wf demo_calls).
  { unfold demo_calls. repeat (apply Forall_cons; split); [..|by apply Forall_nil]; cbn [call_wf];
      try (split; [apply New_wf|]); intros mb [= <-]; by apply Hw. }
  split; [constructor|]. split; [exact H|]. split; [|vm_compute; reflexivity].
  apply (sniffing_is_transparent demo_calls []); [constructor|exact H].
Defined.

(** ** Sniffing ends in time *)
Section Bounded.
Context {env : SniffEnv} {eng : FakeDNSEngine}.

Lemma sniff_round_deadline net s ev s' :
  sniff_round net s ev = (s', None) -> cacheDeadline s' = cacheDeadline s - elapsed ev /\ 0 < cacheDeadline s' /\ totalAttempt s' < 2.
Proof.
  unfold sniff_round. destruct (done ev); [done|].
  destruct (Cache _ _ _) as [[c p] ce]. destruct ce as [[]|err|]; [| |done].
  all: match goal with |- (let '(s, r) := ?X in _) = _ -> _ =>
         assert (HX : cacheDeadline X.1 = cacheDeadline s - elapsed ev) end.
  1, 3: destruct (negb _); [|done]; destruct (ask _ _) as [e [x|?|]]; [|done..];
    destruct (outcome x) as [?|er|]; [done| |done]; destruct (decide (er = ErrNoClue)); [done|];
    by destruct (decide (er = ErrProtoNeedMoreData)).
  all: match goal with |- (let '(s, r) := ?X in _) = _ -> _ => destruct X as [s1 [r|]] end; [done|];
    cbn [fst] in HX; destruct (_ || _) eqn:E; [done|]; intros [= <-]; lia.
Qed.

Lemma sniff_loop_ends net evs s :
  cacheDeadline s <= foldr (fun ev n => elapsed ev + n) 0 evs -> evs <> [] -> sniff_loop net s evs <> None.
Proof.
  revert s. induction evs as [|ev evs IH]; intros s Hs Hn; [done|]. cbn [sniff_loop foldr] in *.
  destruct (sniff_round net s ev) as [s' [r|]] eqn:E; [done|].
  apply sniff_round_deadline in E as (E1 & E2 & _). apply IH; [lia|]. intros ->. cbn [foldr] in Hs. lia.
Qed.

(** C32. Sniffing a connection is bounded in time: whatever comes from the connection
    and whatever the sniffers answer, [sniffer] has returned when the calls that
    cache have taken 200 milliseconds, even when every sniffer keeps asking for
    more data. *)
Theorem sniffing_is_bounded fakeDNS Target metadataOnly net e evs :
  200000000 <= foldr (fun ev n => elapsed ev + n) 0 evs ->
  sniffer fakeDNS Target metadataOnly net e evs <> None.
Proof.
  intros He. unfold sniffer. destruct (SniffMetadata _ _) as [e1 [m|err|]]; [|done..].
  destruct metadataOnly; [done|]. destruct (Buf.NewWithSize 32767); [|done..].
  pose proof (sniff_loop_ends net evs (mkLoop (left_ m) [] a 200000000 0 e1)) as H.
  destruct (sniff_loop _ _ _) as [[s r]|]; [done|]. exfalso. apply H; [done| |done].
  intros ->. cbn in He. lia.
Qed.

(** The sniffer of newFakeDNSThenOthers has no network, so [Sniff] never asks it:
    with it at the head of the list the sniffers find what they find without it. *)
Lemma fakedns_others_never_asked Target others all todo pending p net e :
  net <> Network_Unknown ->
  Sniff_loop net all (newFakeDNSThenOthers Target others :: todo) pending p e = Sniff_loop net all todo pending p e.
Proof.
  intros Hn. cbn [Sniff_loop newFakeDNSThenOthers metadataSniffer network].
  by rewrite bool_decide_eq_false_2 by congruence.
Qed.

(** A connection that ends before it brings anything fails every call at once: a
    round changes nothing but the time, and the loop goes round until 200 ms are
    over. *)
Lemma closed_reader_spins net s ev err :
  done ev = None -> answer ev = Err err -> Buf.IsEmpty (Some (payload s)) = true -> totalAttempt s < 2 ->
  elapsed ev < cacheDeadline s ->
  sniff_round net s ev =
    (mkLoop (sniffers s) (cached s) (payload s) (cacheDeadline s - elapsed ev) (totalAttempt s) (engine s), None).
Proof.
  intros Hd Ha Hp Ht He. unfold sniff_round. rewrite Hd, Ha. cbn [Cache]. rewrite Hp. cbn [negb totalAttempt cacheDeadline].
  by replace (_ || _) with false by lia.
Qed.
End Bounded.

(** ** A TLS connection is routed by its host *)
Section Tls.
Context {env : SniffEnv} {eng : FakeDNSEngine} {E : RouteCond.RouteEnv} {B : Router.BalanceEnv}.

Lemma http_not_tls b U : (7 <= length b)%nat -> head b = Some x16 -> exists err, HttpSniff.SniffHTTP U b = Err err /\
  err <> ErrNoClue /\ err <> ErrProtoNeedMoreData.
Proof.
  intros Hl Hh. exists HttpSniff.errNotHTTPMethod. split; [|by split].
  unfold HttpSniff.SniffHTTP, HttpSniff.beginWithHTTPMethod.
  assert (L : forall ms, Forall (fun m => zlen m <= 7 /\ match m with x :: _ => x <> to_lower x16 /\ to_lower x = x | [] => False end) ms ->
    HttpSniff.begin_loop ms b = Err HttpSniff.errNotHTTPMethod).
  { induction 1 as [|m ms [Hm Hx] _ IH]; [done|]. cbn [HttpSniff.begin_loop].
    replace (zlen b <? zlen m) with false by len. rewrite IH.
    enough (EqualFold (take (length m) b) m = false) as -> by (by rewrite andb_false_r).
    unfold EqualFold. apply bool_decide_eq_false. destruct m as [|x m]; [done|]. destruct b as [|y b]; [done|].
    cbn [head] in Hh. injection Hh as ->. destruct Hx as [Hx1 Hx2]. unfold ToLower. cbn [length take map].
    intros [= H _]. congruence. }
  rewrite L; [done|]. repeat constructor; vm_compute; discriminate.
Qed.

(** A sniffer that is sure the payload is not its, and one that finds a result. *)
Lemma Sniff_loop_refuses net all si todo pending p e p' e' err :
  metadataSniffer si = false -> network si = net -> sniff si p e = (e', Ok (p', Err err)) ->
  err <> ErrNoClue -> err <> ErrProtoNeedMoreData ->
  Sniff_loop net all (si :: todo) pending p e = Sniff_loop net all todo pending p' e'.
Proof.
  intros Hm Hn Hs H1 H2. cbn [Sniff_loop]. rewrite Hm, Hn, bool_decide_eq_true_2 by done. cbn [negb].
  unfold mbind, st_bind. rewrite Hs. by rewrite !decide_False by done.
Qed.

Lemma Sniff_loop_finds net all si todo pending p e p' e' r :
  metadataSniffer si = false -> network si = net -> sniff si p e = (e', Ok (p', Ok r)) ->
  Sniff_loop net all (si :: todo) pending p e = (e', Ok (mkSniffed all p' (Ok r))).
Proof.
  intros Hm Hn Hs. cbn [Sniff_loop]. rewrite Hm, Hn, bool_decide_eq_true_2 by done. cbn [negb].
  unfold mbind, st_bind. by rewrite Hs.
Qed.

Lemma ask_content net s : buf_wf (payload s) -> ask net s = Sniff (sniffers s) (content (payload s)) net (engine s).
Proof. intros Hb. unfold ask. rewrite Buf.Bytes_wf by done. reflexivity. Qed.

(** The sniffers of a TCP connection on a TLS record. *)
Lemma Sniff_tls b domain e :
  (7 <= length b)%nat -> head b = Some x16 -> TlsSniff.SniffTLS b = Some (Ok domain) ->
  exists x, Sniff protocol_sniffers b Network_TCP e = (e, Ok x) /\ outcome x = Ok (SniffHeader (lit "tls") domain).
Proof.
  intros Hl Hh Ht. unfold Sniff, protocol_sniffers at 2.
  destruct (http_not_tls b unicode_lower Hl Hh) as (err & Eh & H1 & H2).
  rewrite (Sniff_loop_refuses _ _ _ _ _ _ _ (Some b) e err); [|done|done| |done|done].
  - eexists. split; [eapply Sniff_loop_finds; [done|done|]|].
    + cbn [sniff]. unfold tls_sniffer, lift. cbn [payload_of]. by rewrite Ht.
    + done.
  - cbn [sniff]. unfold http_sniffer, lift. cbn [payload_of]. by rewrite Eh.
Qed.

Lemma alloc_payload : exists b, Buf.NewWithSize 32767 = Ok b /\ buf_wf b /\ zlen (v b) = 32768.
Proof.
  exists {| v := replicate (Z.to_nat 32768) x00; start := 0; end_ := 0; owner := bytespools |}.
  split; [reflexivity|]. unfold buf_wf. cbn [start end_ v].
  assert (Er : zlen (replicate (Z.to_nat 32768) x00) = 32768)
    by (unfold zlen; by rewrite length_replicate, Z2Nat.id).
  rewrite Er. split; [lia|reflexivity].
Qed.

Lemma hostname_domain h : HttpSniff.hostname h ->
  fueled (StrMatch.ToDomain RouteCond.ToASCII 2 h) = Ok h /\ ParseAddress h = Ok (Some (DomainAddress h)).
Proof.
  intros Hh. split; [|by apply HttpSniff.ParseAddress_host]. destruct Hh as [_ Hc _].
  assert (Hl : ToLower h = h).
  { unfold ToLower. clear -Hc. induction Hc as [|x h Hx _ IH]; [done|]. cbn [map].
    by rewrite IH, (proj1 (HttpSniff.hchar_facts x Hx)). }
  rewrite StrMatch.ToDomain_ascii; rewrite ?Hl.
  - rewrite decide_True; [done|]. eapply Forall_impl; [exact Hc|]. intros x Hx. cbv beta in *.
    unfold HttpSniff.hchar in Hx. unfold StrMatch.ldh. pose proof (b2z_range x).
    assert (Eq : forall k, is_u8 k -> b2z x = k -> x = z2b k) by (intros k Hk <-; by rewrite z2b_b2z).
    destruct (b2z x =? 45) eqn:E1; [rewrite (Eq 45) by lia; done|].
    destruct (b2z x =? 46) eqn:E2; [rewrite (Eq 46) by lia; done|].
    rewrite !orb_false_r in Hx. by rewrite Hx.
  - eapply Forall_impl; [exact Hc|]. intros x Hx. apply (HttpSniff.hchar_facts x Hx).
Qed.

(** C6. A TLS connection is routed by its host, where FakeDNS is not in use: when
    sniffing is on, not restricted to metadata, and overrides the destination of "tls",
    the destination is a TCP one, and the first read of the connection brings a whole
    TLS record of at most 32768 bytes with a well-formed ClientHello whose host name has
    lower case letters, digits, hyphens and periods only and is not an IP address, then
    the connection is routed as one to that host - the rules see the name in place of
    the address the client gave, the same port, and the protocol "tls" -, and the
    outbound handler will read every byte that was read for sniffing. *)
Theorem tls_connection_is_routed_by_its_host d req ctx destination e w ev evs mb minor h rest :
  Enabled req = true -> MetadataOnly req = false -> lit "tls" ∈ OverrideDestinationForProtocol req ->
  DNetwork destination = Network_TCP ->
  TlsSniff.hello_ok h -> HttpSniff.hostname (TlsSniff.sni h) -> 5 + zlen (TlsSniff.encode_hello h) <= 32768 ->
  done ev = None -> answer ev = Ok mb -> mb_wf mb ->
  mb_content mb = TlsSniff.record_of minor (TlsSniff.encode_hello h) ++ rest ->
  exists mb', mb_content mb' = mb_content mb /\
  let host := mkDest (Some (DomainAddress (TlsSniff.sni h))) (DPort destination) Network_TCP in
  let session' := with_content (with_protocol (lit "tls") (content_of (session ctx))) (with_target host (session ctx)) in
  Dispatch d false req ctx destination e w (ev :: evs) =
    Some (e, mb', routedDispatch d (mkCtx session' (forcedTag ctx) (message ctx)) host w).
Proof.
  intros He Hm Ho Hn Hh Hd Hl Hdone Ha Hmb Hc.
  unfold Dispatch. unfold IsValid. rewrite Hn, bool_decide_eq_false_2 by done. cbn [negb]. rewrite He, Hm. cbn [negb].
  unfold sniffer. cbn [NewSniffer]. change (SniffMetadata protocol_sniffers e) with
    (e, Ok (mkSniffed protocol_sniffers None (Err ErrNoClue)) : res sniffed). cbn [left_ outcome].
  destruct alloc_payload as (b & Eb & Hb & Hlb). rewrite Eb.
  destruct (Cache_spec [] b mb) as (c & p & Ec & Hcw & Hcc & Hp & Hvp & Hpc); [constructor|done..|].
  exists c. rewrite Hcc. split; [done|]. cbv zeta.
  set (r := TlsSniff.record_of minor (TlsSniff.encode_hello h)) in *.
  assert (Hr : zlen r = 5 + zlen (TlsSniff.encode_hello h)) by (unfold r, TlsSniff.record_of, TlsSniff.vec16; len).
  assert (Epc : content p = r ++ take (length (v b) - length r) rest).
  { rewrite Hpc, Hcc. cbn [mb_content map concat app]. rewrite Hc, take_app.
    f_equal. apply firstn_all2. len. }
  assert (Hpl : TlsSniff.preamble h <> []).
  { intros Hp0. pose proof (TlsSniff.ho_preamble h Hh) as Hp1. by rewrite Hp0 in Hp1. }
  assert (H7 : (7 <= length (content p))%nat).
  { rewrite Epc, length_app. pose proof (TlsSniff.ho_preamble h Hh).
    unfold TlsSniff.encode_hello in Hr. unfold zlen in Hr. rewrite !length_app in Hr. lia. }
  destruct (Sniff_tls (content p) (TlsSniff.sni h) e H7) as (x & Ex & Hx).
  { by rewrite Epc. }
  { rewrite Epc. unfold r. rewrite TlsSniff.SniffTLS_record by lia. by apply TlsSniff.ReadClientHello_hello. }
  cbn [sniff_loop]. unfold sniff_round. rewrite Hdone, Ha. cbn [cached payload]. rewrite Ec.
  rewrite IsEmpty_wf by done. rewrite bool_decide_eq_false_2 by (intros E0; rewrite E0 in H7; cbn in H7; lia).
  cbn [negb]. rewrite ask_content by done. cbn [payload sniffers engine]. rewrite Ex, Hx.
  cbn [combine engine cached mbind option_bind].
  destruct (hostname_domain (TlsSniff.sni h) Hd) as [Hdom Hpa].
  assert (Hov : shouldOverride (SniffHeader (lit "tls") (TlsSniff.sni h)) (OverrideDestinationForProtocol req) = true).
  { unfold shouldOverride. cbn [Domain Protocol ProtocolForDomainResult default].
    destruct Hd as [[(c0 & r0 & E0 & _) _] _ _]. rewrite bool_decide_eq_false_2 by (by rewrite E0).
    apply existsb_exists. exists (lit "tls"). split; [by apply list_elem_of_In|]. done. }
  unfold apply_sniffed. rewrite Hov. cbn [Domain Protocol]. rewrite Hdom, Hpa. cbn [mbind res_bind].
  by rewrite Hn.
Qed.
End Tls.

(** ** Witness *)
Definition env0 : SniffEnv := {|
  unicode_lower := id; UnixMicro := 0; hkdf_Extract := fun a _ => a; hkdf_Expand := fun _ _ n => [];
  aes_Encrypt := fun _ b => b; aead_Open := fun _ _ _ _ _ => None; varint_Read := fun b => (b, Err EOF);
  recycled := id; spare := id; decrypted_payload := id |}.
Definition engine0 : FakeDNSEngine := {|
  Engine := unit; GetDomainFromFakeDNS := fun _ e => (e, Ok []); rev0 := false; IsIPInIPPool := fun _ e => (e, Ok false) |}.

Definition slow : list round :=
  replicate 3 {| done := None; answer := Err (NewError "IO timeout"); elapsed := 70000000 |}.

Lemma sniffing_is_bounded_witness :
  200000000 <= foldr (fun ev n => elapsed ev + n) 0 slow /\
  sniffer (env := env0) (eng := engine0) false (mkDest None 0 Network_TCP) false Network_TCP tt slow <> None.
Proof.
  assert (H : 200000000 <= foldr (fun ev n => elapsed ev + n) 0 slow) by (vm_compute; discriminate).
  split; [exact H|].
  apply (sniffing_is_bounded (env := env0) (eng := engine0) false (mkDest None 0 Network_TCP) false Network_TCP tt slow). exact H.
Defined.

Definition proxy0 : OutboundMgr.Handler := OutboundMgr.mkHandler 1 (lit "proxy").
Definition dispatcher0 : @DefaultDispatcher Router.demo_env Router.demo_balance :=
  {| ohm := {| OutboundMgr.defaultHandler := Some proxy0; OutboundMgr.taggedHandler := ∅;
               OutboundMgr.untaggedHandlers := []; OutboundMgr.running := true |};
     router := None; OverrideAccessLogDest := true |}.
Definition request0 : SniffingRequest :=
  {| Enabled := true; MetadataOnly := false; OverrideDestinationForProtocol := map lit ["http"; "tls"]%string |}.
Definition target0 : Destination := mkDest (Some (ipv4Address (map z2b [93; 184; 216; 34]))) 443 Network_TCP.
Definition context0 : context :=
  {| session := {| RouteCond.ctx_Inbound := None; RouteCond.ctx_Outbound := None; RouteCond.ctx_Content := None |};
     forcedTag := []; message := Some (mkAccess [] target0) |}.
Definition first_bytes : bytes := TlsSniff.record_of x01 (TlsSniff.encode_hello TlsSniff.hello0).
Definition event0 : round :=
  {| done := None; answer := Ok [push Buf.New first_bytes]; elapsed := 1000000 |}.

Lemma tls_connection_is_routed_by_its_host_witness :
  exists mb' e, mb_content mb' = first_bytes /\
  Dispatch (env := env0) (eng := engine0) dispatcher0 false request0 context0 target0 tt [] [event0] = Some (tt, mb', e) /\
  e.1.1 = Ok (Handled proxy0 (mkCtx (with_content (with_protocol (lit "tls") (content_of (session context0)))
    (with_target (mkDest (Some (DomainAddress (lit "example.org"))) 443 Network_TCP) (session context0))) []
    (Some (mkAccess (lit "proxy") (mkDest (Some (DomainAddress (lit "example.org"))) 443 Network_TCP))))).
Proof.
  assert (Hmb : mb_wf [push Buf.New first_bytes]).
  { constructor; [|constructor]. apply push_wf; [apply New_wf|]. by rewrite New_room. }
  assert (Hh : TlsSniff.hello_ok TlsSniff.hello0).
  { constructor; try (vm_compute; done); try (repeat constructor; vm_compute; done). }
  assert (Hd : HttpSniff.hostname (TlsSniff.sni TlsSniff.hello0)).
  { constructor; [split|repeat constructor|reflexivity].
    - by exists x65, (lit "xample.org").
    - by exists (lit "example.or"), x67. }
  assert (Hl : 5 + zlen (TlsSniff.encode_hello TlsSniff.hello0) <= 32768) by (vm_compute; discriminate).
  assert (Hc : mb_content [push Buf.New first_bytes] = first_bytes ++ []).
  { unfold mb_content. cbn [map concat]. rewrite (push_content _ New_wf), New_content. reflexivity. }
  destruct (tls_connection_is_routed_by_its_host (env := env0) (eng := engine0) dispatcher0 request0 context0 target0 tt []
              event0 [] [push Buf.New first_bytes] x01 TlsSniff.hello0 [] eq_refl eq_refl (ltac:(by right; left)) eq_refl
              Hh Hd Hl eq_refl eq_refl Hmb Hc) as (mb' & Hc' & HD).
  exists mb'. eexists. split; [by rewrite Hc', Hc, app_nil_r|]. split; [exact HD|]. reflexivity.
Defined.
End Dispatcher.
