(* ===== verification/MuxFrame.v ===== *)
(** * Package common/mux: the frame header

    [Module Bitmask] models common/bitmask/byte.go and [Module MuxFrame]
    common/mux/frame.go: the metadata that opens every frame of a mux
    connection, its writer and its reader. *)
From S2P Require Import Prelude GoStd Buf MultiBuf NetAddr AddrParser.
Import Buf NetAddr AddrParser.

Module Bitmask.

Definition Has (b bb : Z) : bool := negb (Z.land b bb =? 0).
Definition Set_ (b bb : Z) : Z := Z.lor b bb.
Definition Clear (b bb : Z) : Z := Z.land b (u8 (Z.lnot bb)).
Definition Toggle (b bb : Z) : Z := Z.lxor b bb.

End Bitmask.

Module MuxFrame.

(** SessionStatus, the options and TargetNetwork are bytes. *)
Definition SessionStatusNew : Z := 1.
Definition SessionStatusKeep : Z := 2.
Definition SessionStatusEnd : Z := 3.
Definition SessionStatusKeepAlive : Z := 4.

Definition OptionData : Z := 1.
Definition OptionError : Z := 2.

Definition TargetNetworkTCP : Z := 1.
Definition TargetNetworkUDP : Z := 2.

(** [NewAddressParser] of the package: IPv4 is 1, domain 2, IPv6 3, and the port
    comes first. *)
Definition mux_options : res (list AddressOption) :=
  o1 ← AddressFamilyByte 1 AddressFamilyIPv4;
  o2 ← AddressFamilyByte 2 AddressFamilyDomain;
  o3 ← AddressFamilyByte 3 AddressFamilyIPv6;
  Ok [o1; o2; o3; PortThenAddress].

Definition addrParser : AddressSerializer :=
  NewAddressParser (match mux_options with Ok l => l | _ => [] end).

Record FrameMetadata := mkMeta {
  Target : Destination;
  SessionID : Z;       (* uint16 *)
  Option : Z;          (* bitmask.Byte *)
  SessionStatus : Z;   (* byte *)
}.

Definition Dest0 : Destination := {| DAddress := None; DPort := 0; DNetwork := Network_Unknown |}.
Definition Meta0 : FrameMetadata :=
  {| Target := Dest0; SessionID := 0; Option := 0; SessionStatus := 0 |}.

(** ** WriteTo *)

(** [common.Must]: an error is a panic. *)
Definition Must {S A} (m : ST S A) : ST S A := fun s =>
  match m s with (s', Err _) => (s', Panic) | r => r end.

(** [Extend] as a step on the buffer, and a write through its window. *)
Definition extend (n : Z) : ST Buffer (Z * Z) := fun b =>
  match Extend b n with Ok (b', w) => (b', Ok w) | Err e => (b, Err e) | Panic => (b, Panic) end.
Definition put (w : Z * Z) (d : bytes) : ST Buffer unit := fun b => (poke b w d, Ok tt).
Definition length_of : ST Buffer Z := fun b => (b, Ok (Len (Some b))).

(** A nil [Address] is dereferenced after the port is written. *)
Definition WriteTarget (t : Destination) : ST Buffer unit :=
  match DAddress t with
  | Some a => WriteAddressPort addrParser a (DPort t)
  | None => _ ← writePort (DPort t); st_panic
  end.

Definition WriteTo (f : FrameMetadata) : ST Buffer unit :=
  lenBytes ← extend 2;
  len0 ← length_of;
  sessionBytes ← extend 2;
  _ ← put sessionBytes (put_be 2 (SessionID f));
  _ ← Must (WriteByte (z2b (SessionStatus f)));
  _ ← Must (WriteByte (z2b (Option f)));
  _ ← (if SessionStatus f =? SessionStatusNew then
         _ ← match DNetwork (Target f) with
             | Network_TCP => Must (WriteByte (z2b TargetNetworkTCP))
             | Network_UDP => Must (WriteByte (z2b TargetNetworkUDP))
             | _ => mret tt
             end;
         WriteTarget (Target f)
       else mret tt);
  len1 ← length_of;
  put lenBytes (put_be 2 (u16 (i32 (len1 - len0)))).

(** ** Reading *)
Definition UnmarshalFromBuffer : ST (FrameMetadata * Buffer) unit := fun '(f, b) =>
  if Len (Some b) <? 4 then ((f, b), Err (NewError "insufficient buffer: ")) else
  match (x ← BytesTo b 2; id ← Uint16 x; st ← Byte b 2; op ← Byte b 3; Ok (id, b2z st, b2z op)) with
  | Ok (id, st, op) =>
    let target := {| DAddress := DAddress (Target f); DPort := DPort (Target f);
                     DNetwork := Network_Unknown |} in
    let f := {| Target := target; SessionID := id; SessionStatus := st; Option := op |} in
    if st =? SessionStatusNew then
      if Len (Some b) <? 8 then ((f, b), Err (NewError "insufficient buffer: ")) else
      match Byte b 4 with
      | Ok n =>
        let network := b2z n in
        match ReadAddressPort addrParser (Advance b 5) with
        | (b, Ok (addr, port)) =>
          let set_target t := {| Target := t; SessionID := id; SessionStatus := st; Option := op |} in
          if network =? TargetNetworkTCP then ((set_target (TCPDestination (Some addr) port), b), Ok tt)
          else if network =? TargetNetworkUDP then ((set_target (UDPDestination (Some addr) port), b), Ok tt)
          else ((f, b), Err (NewError "unknown network type: "))
        | (b, Err e) => ((f, b), Err (Based "failed to parse address and port" e))
        | (b, Panic) => ((f, b), Panic)
        end
      | _ => ((f, b), Panic)
      end
    else ((f, b), Ok tt)
  | _ => ((f, b), Panic)
  end.

(** serial.ReadUint16 *)
Definition ReadUint16 {R} `{Reader R} : ST R Z := fun r =>
  match ReadFull r 2 with
  | (r', (_, Some e)) => (r', Err e)
  | (r', (b, None)) => (r', Uint16 b)
  end.

(** serial.WriteUint16 *)
Definition WriteUint16 {W} `{Writer W} (value : Z) : ST W Z := wr (put_be 2 value).

Definition Unmarshal {R} `{Reader R} : ST (FrameMetadata * R) unit := fun '(f, r) =>
  match ReadUint16 r with
  | (r, Err e) => ((f, r), Err e)
  | (r, Panic) => ((f, r), Panic)
  | (r, Ok metaLen) =>
    if 512 <? metaLen then ((f, r), Err (NewError "invalid metalen ")) else
    match ReadFullFrom metaLen (New, r) with
    | ((_, r), Err e) => ((f, r), Err e)
    | ((_, r), Panic) => ((f, r), Panic)
    | ((b, r), Ok _) =>
      let '((f, _), x) := UnmarshalFromBuffer (f, b) in ((f, r), x)
    end
  end.

(** ** The wire format *)
Definition network_byte (n : Network) : Z :=
  match n with Network_UDP => TargetNetworkUDP | _ => TargetNetworkTCP end.

Definition target_bytes (t : Destination) : bytes :=
  match DAddress t with
  | Some a => z2b (network_byte (DNetwork t)) :: encode addrParser a (DPort t)
  | None => []
  end.

Definition header (f : FrameMetadata) : bytes :=
  put_be 2 (SessionID f) ++ [z2b (SessionStatus f); z2b (Option f)] ++
  (if SessionStatus f =? SessionStatusNew then target_bytes (Target f) else []).

Definition meta_bytes (f : FrameMetadata) : bytes := put_be 2 (zlen (header f)) ++ header f.

Definition target_wf (t : Destination) : Prop :=
  (DNetwork t = Network_TCP \/ DNetwork t = Network_UDP) /\ is_u16 (DPort t) /\
  match DAddress t with Some a => serializable a | None => False end.

Definition meta_wf (f : FrameMetadata) : Prop :=
  is_u16 (SessionID f) /\ is_u8 (SessionStatus f) /\ is_u8 (Option f) /\
  (SessionStatus f = SessionStatusNew -> target_wf (Target f)).

(** What the reader makes of a header on top of the metadata it had. *)
Definition merge (old f : FrameMetadata) : FrameMetadata :=
  if SessionStatus f =? SessionStatusNew then f
  else {| Target := {| DAddress := DAddress (Target old); DPort := DPort (Target old);
                       DNetwork := Network_Unknown |};
          SessionID := SessionID f; Option := Option f; SessionStatus := SessionStatus f |}.

End MuxFrame.
Import MuxFrame.

(** ** The package's parser knows every address *)
Lemma addrParser_handles a : addr_wf a -> handles addrParser a.
Proof.
  intros Ha. unfold handles. destruct a; (split; [vm_compute; done|split; [vm_compute; done|reflexivity]]).
Qed.

Lemma addrParser_known : known_families addrParser.
Proof.
  split; [reflexivity|split; [|exact I]]. vm_compute.
  repeat first [apply Forall_nil_2 | apply Forall_cons_2; [tauto|]].
Qed.

(** ** Writing through the window of [Extend] *)
Lemma run_writes {A B} (m : ST Buffer A) (f : A -> ST Buffer B) d a b :
  writes m d a -> buf_wf b -> zlen d <= room b -> (m ≫= f) b = f a (push b d).
Proof.
  intros Hm Hwf Hr. unfold mbind, st_bind. by rewrite (writes_push m d a b).
Qed.

Lemma run_extend {B} n (f : Z * Z -> ST Buffer B) b :
  buf_wf b -> 0 <= n <= room b ->
  exists u, zlen u = n /\ (extend n ≫= f) b = f (end_ b, end_ b + n) (push b u).
Proof.
  intros Hwf Hn. exists (take (Z.to_nat n) (drop (Z.to_nat (end_ b)) (v b))).
  assert (Hu : zlen (take (Z.to_nat n) (drop (Z.to_nat (end_ b)) (v b))) = n).
  { unfold room, buf_wf, zlen in *. rewrite length_take, length_drop. lia. }
  split; [exact Hu|]. unfold mbind, st_bind, extend, Extend. unfold room, buf_wf in *.
  rewrite i32_small by lia. replace (zlen (v b) <? _) with false by lia.
  rewrite slice_Some by lia. cbn [or_panic mbind res_bind]. f_equal. unfold push. rewrite Hu. f_equal.
  replace (Z.to_nat (end_ b + n)) with (Z.to_nat (end_ b) + Z.to_nat n)%nat by lia.
  by rewrite <- drop_drop, take_drop, take_drop.
Qed.

Lemma poke_push b u d x :
  buf_wf b -> zlen x = zlen u -> zlen u + zlen d <= room b ->
  poke (push b (u ++ d)) (end_ b, end_ b + zlen u) x = push b (x ++ d).
Proof.
  intros Hwf Hx Hr. pose proof (zlen_nonneg u). pose proof (zlen_nonneg d).
  unfold poke, push, copy_at, room, buf_wf in *. cbn [v start end_ owner fst snd].
  rewrite (take_ge x) by (unfold zlen in *; lia). rewrite !zlen_app, Hx. f_equal.
  assert (Ht : length (take (Z.to_nat (end_ b)) (v b)) = Z.to_nat (end_ b)).
  { rewrite length_take. unfold zlen in *. lia. }
  rewrite Nat.min_r by (rewrite !length_app, Ht; unfold zlen in *; lia). rewrite (take_ge x) by lia.
  rewrite take_app_length' by done. f_equal. rewrite <- (app_assoc x d). f_equal.
  rewrite drop_app_ge by lia. rewrite Ht, <- (app_assoc u d), drop_app_length' by (unfold zlen in *; lia). done.
Qed.

Lemma run_window {B} x (f : ST Buffer B) b :
  buf_wf b -> zlen x <= room b -> (w ← extend (zlen x); _ ← put w x; f) b = f (push b x).
Proof.
  intros Hwf Hr. pose proof (zlen_nonneg x).
  destruct (run_extend (zlen x) (fun w => _ ← put w x; f) b Hwf ltac:(lia)) as (u & Hu & ->).
  unfold mbind, st_bind, put. rewrite <- Hu, <- (app_nil_r u).
  replace (zlen (u ++ [])) with (zlen u) by (by rewrite app_nil_r). rewrite (poke_push b u [] x) by (done || rewrite zlen_nil; lia).
  by rewrite app_nil_r.
Qed.

Lemma writes_Must {A} (m : ST Buffer A) d a : writes m d a -> writes (Must m) d a.
Proof.
  intros Hm b k Hk Hf. destruct (Hm b k Hk Hf) as (b' & E & H). exists b'. unfold Must. by rewrite E.
Qed.

Lemma writes_target t :
  target_wf t ->
  writes (_ ← match DNetwork t with
             | Network_TCP => Must (WriteByte (z2b TargetNetworkTCP))
             | Network_UDP => Must (WriteByte (z2b TargetNetworkUDP))
             | _ => mret tt
             end; WriteTarget t) (target_bytes t) tt.
Proof.
  intros (Hn & Hp & Ha). unfold target_bytes, WriteTarget. destruct (DAddress t) as [a|]; [|done].
  assert (Hw : writes (WriteAddressPort addrParser a (DPort t) : ST Buffer unit) (encode addrParser a (DPort t)) tt).
  { apply writes_AddressPort; [|done]. apply addrParser_handles, Ha. }
  destruct Hn as [-> | ->]; change (z2b (network_byte ?n) :: ?e) with ([z2b (network_byte n)] ++ e);
    eapply writes_bind; [apply writes_Must, writes_WriteByte|exact Hw|apply writes_Must, writes_WriteByte|exact Hw].
Qed.

Lemma header_length f : meta_wf f -> 4 <= zlen (header f) <= 264.
Proof.
  intros (_ & _ & _ & Ht). unfold header. rewrite zlen_app, zlen_put_be, zlen_app, !zlen_cons, zlen_nil.
  destruct (SessionStatus f =? SessionStatusNew) eqn:E; [|unfold zlen; simpl; lia].
  destruct (Ht ltac:(lia)) as (_ & _ & Ha). unfold target_bytes. destruct (DAddress (Target f)) as [a|]; [|done].
  pose proof (encode_length addrParser a (DPort (Target f)) Ha). rewrite zlen_cons.
  pose proof (zlen_nonneg (encode addrParser a (DPort (Target f)))). lia.
Qed.

(** [WriteTo] appends the wire form of the metadata. *)
Lemma WriteTo_spec f b :
  meta_wf f -> buf_wf b -> zlen (meta_bytes f) <= room b ->
  WriteTo f b = (push b (meta_bytes f), Ok tt).
Proof.
  intros Hm Hwf Hr. pose proof (header_length f Hm) as Hl. destruct Hm as (Hid & Hst & Hop & Ht).
  unfold meta_bytes in *. rewrite zlen_app, zlen_put_be in Hr. unfold WriteTo.
  match goal with |- (extend 2 ≫= ?g) b = _ => destruct (run_extend 2 g b Hwf ltac:(lia)) as (u & Hu & ->) end.
  assert (Hwu : buf_wf (push b u)) by (apply push_wf; [done|lia]).
  assert (Hru : room (push b u) = room b - 2) by (rewrite push_room by (done || lia); lia).
  set (w := (end_ b, end_ b + 2)). unfold mbind at 1, st_bind at 1, length_of at 1.
  change 2 with (zlen (put_be 2 (SessionID f))) at 1.
  assert (Hhd : header f = put_be 2 (SessionID f) ++ [z2b (SessionStatus f)] ++ [z2b (Option f)] ++
    (if SessionStatus f =? SessionStatusNew then target_bytes (Target f) else [])) by done.
  set (t := if SessionStatus f =? SessionStatusNew then target_bytes (Target f) else []) in *.
  assert (Ht0 : 0 <= zlen t) by apply zlen_nonneg.
  assert (Hlen : zlen (header f) = 4 + zlen t) by (rewrite Hhd; len).
  rewrite run_window by (done || rewrite zlen_put_be; lia).
  set (b1 := push (push b u) _). assert (H1 : buf_wf b1) by (apply push_wf; [done|rewrite zlen_put_be; lia]).
  assert (R1 : room b1 = room b - 4) by (unfold b1; rewrite push_room by (done || rewrite zlen_put_be; lia); rewrite zlen_put_be; lia).
  rewrite (run_writes _ _ _ _ b1 (writes_Must _ _ _ (writes_WriteByte _)) H1) by len.
  set (b2 := push b1 _). assert (H2 : buf_wf b2) by (apply push_wf; [done|len]).
  assert (R2 : room b2 = room b - 5) by (unfold b2; rewrite push_room by (done || len); len).
  rewrite (run_writes _ _ _ _ b2 (writes_Must _ _ _ (writes_WriteByte _)) H2) by len.
  set (b3 := push b2 _). assert (H3 : buf_wf b3) by (apply push_wf; [done|len]).
  assert (R3 : room b3 = room b - 6) by (unfold b3; rewrite push_room by (done || len); len).
  rewrite (run_writes _ _ t tt b3); [|unfold t; destruct (_ =? _) eqn:E; [apply writes_target, Ht; lia|apply writes_ret]|done|lia].
  assert (Hb : push b3 t = push b (u ++ header f)).
  { unfold b3. rewrite push_push by (done || len). unfold b2. rewrite push_push by (done || len).
    unfold b1. rewrite push_push by (done || len). rewrite push_push by (done || len). by rewrite Hhd, !app_assoc. }
  rewrite Hb. unfold mbind, st_bind, length_of, put.
  assert (Hwa : buf_wf (push b (u ++ header f))) by (apply push_wf; [done|rewrite zlen_app; lia]).
  rewrite !Len_wf by done. rewrite !push_content by done.
  pose proof (zlen_nonneg (content b)) as Hc0. assert (Hc1 : zlen (content b) + room b < 2 ^ 31).
  { rewrite zlen_content by done. unfold room, buf_wf in *. lia. }
  rewrite !zlen_app, Hu. rewrite i32_small by lia. rewrite u16_small by lia.
  replace (zlen (content b) + (2 + zlen (header f)) - (zlen (content b) + 2)) with (zlen (header f)) by lia.
  unfold w. rewrite <- Hu. rewrite (poke_push b u (header f)) by (done || rewrite ?zlen_put_be; lia). done.
Qed.

(** ** Reading the wire format back *)
Lemma encode_port_first a port :
  encode addrParser a port = put_be 2 port ++ encode_address (family_byte addrParser a) a.
Proof. reflexivity. Qed.

Lemma ReadUint16_spec {R} `{Reader R} (r : R) n rest :
  is_u16 n -> rd_wf r -> rd_content r = put_be 2 n ++ rest ->
  exists r', ReadUint16 r = (r', Ok n) /\ rd_wf r' /\ rd_end r' = rd_end r /\ rd_content r' = rest.
Proof.
  intros Hn Hr Hc. unfold ReadUint16. destruct (ReadFull_spec r 2 Hr) as (r' & Hwf & He & Hc' & ->).
  exists r'. rewrite Hc in *. replace (2 <=? length _)%nat with true by len.
  change 2%nat with (length (put_be 2 n)) in Hc' |- *. rewrite take_app_length. rewrite drop_app_length in Hc'.
  split; [|done]. f_equal. change (Uint16 (put_be 2 n) = Ok n). rewrite <- (app_nil_r (put_be 2 n)), Uint16_app by done.
  by rewrite get_put_be_u16 by done.
Qed.

Lemma UnmarshalFromBuffer_spec old f b :
  meta_wf f -> buf_wf b -> content b = header f ->
  exists b', UnmarshalFromBuffer (old, b) = ((merge old f, b'), Ok tt).
Proof.
  intros Hm Hwf Hc. pose proof (header_length f Hm) as Hl. destruct Hm as (Hid & Hst & Hop & Ht).
  unfold UnmarshalFromBuffer. rewrite (Len_wf b Hwf), Hc. replace (zlen (header f) <? 4) with false by lia.
  rewrite BytesTo_wf, !Byte_wf by (rewrite ?Hc; done || lia). rewrite Hc.
  assert (H0 : take (Z.to_nat 2) (header f) = put_be 2 (SessionID f)) by reflexivity.
  assert (H2 : header f !! Z.to_nat 2 = Some (z2b (SessionStatus f))) by reflexivity.
  assert (H3 : header f !! Z.to_nat 3 = Some (z2b (Option f))) by reflexivity.
  assert (Hu : Uint16 (put_be 2 (SessionID f)) = Ok (SessionID f)).
  { rewrite <- (app_nil_r (put_be 2 _)), Uint16_app by done. by rewrite get_put_be_u16. }
  rewrite H0, H2, H3. cbn [mbind res_bind or_panic]. rewrite Hu. cbn [mbind res_bind]. rewrite !z2b_small by done.
  clear H0 H2 H3 Hu.
  destruct f as [t id op st]. cbn [SessionID SessionStatus Option Target] in *. unfold merge. cbn [SessionStatus SessionID Option Target].
  destruct (st =? SessionStatusNew) eqn:Es; [|by eexists].
  destruct (Ht ltac:(lia)) as (Hn & Hp & Ha). destruct t as [[a|] port nw]; [|done]. cbn [DNetwork DPort DAddress] in *.
  assert (Hh : header (mkMeta (mkDest (Some a) port nw) id op st) =
    (put_be 2 id ++ [z2b st; z2b op; z2b (network_byte nw)]) ++ encode addrParser a port).
  { unfold header. cbn [SessionStatus SessionID Option Target]. rewrite Es. by rewrite <- app_assoc. }
  assert (Hle : 5 <= zlen (encode addrParser a port)).
  { rewrite encode_port_first, zlen_app, zlen_put_be. destruct Ha as [Ha Ha']. destruct a as [ip|ip|d]; cbn [encode_address addr_wf] in *.
    - rewrite zlen_cons. unfold zlen. lia.
    - rewrite zlen_cons. unfold zlen. lia.
    - rewrite zlen_app, !zlen_cons, zlen_nil. lia. }
  assert (Hlen : zlen (content b) = 5 + zlen (encode addrParser a port)).
  { rewrite Hc, Hh. rewrite zlen_app. f_equal. }
  rewrite Hh, zlen_app. change (zlen (put_be 2 id ++ _)) with 5. replace (5 + _ <? 8) with false by lia.
  assert (HB : Byte b 4 = Ok (z2b (network_byte nw))).
  { rewrite (Byte_wf b 4 Hwf) by lia. rewrite Hc, Hh. reflexivity. }
  rewrite HB, (Advance_pop b 5 Hwf) by lia.
  destruct (ReadAddressPort_spec (R := Buffer) addrParser a port (pop b 5) []) as (b' & E & _);
    [apply addrParser_handles, Ha|done|done|by apply pop_wf; [|lia]| |].
  { change (content (pop b 5) = encode addrParser a port ++ []). rewrite pop_content by (done || lia).
    rewrite Hc, Hh, app_nil_r. reflexivity. }
  rewrite E. exists b'. by destruct Hn as [-> | ->].
Qed.

Lemma Unmarshal_spec {R} `{Reader R} old f (r : R) rest :
  meta_wf f -> rd_wf r -> rd_content r = meta_bytes f ++ rest ->
  exists r', Unmarshal (old, r) = ((merge old f, r'), Ok tt) /\ rd_wf r' /\ rd_end r' = rd_end r /\
    rd_content r' = rest.
Proof.
  intros Hm Hr Hc. pose proof (header_length f Hm) as Hl. unfold meta_bytes in Hc. rewrite <- app_assoc in Hc.
  unfold Unmarshal. destruct (ReadUint16_spec r (zlen (header f)) _ ltac:(lia) Hr Hc) as (r1 & -> & Hr1 & He1 & Hc1).
  replace (512 <? _) with false by lia.
  destruct (ReadFullFrom_exact New r1 (header f) rest) as (r2 & -> & Hr2 & He2 & Hc2);
    [apply New_wf|rewrite New_room; lia|done|done|].
  destruct (UnmarshalFromBuffer_spec old f (push New (header f)) Hm) as (b' & ->).
  - apply push_wf; [apply New_wf|rewrite New_room; lia].
  - by rewrite push_content by apply New_wf.
  - exists r2. by rewrite He2, He1.
Qed.

(** [UnmarshalFromBuffer] never panics. *)
Lemma UnmarshalFromBuffer_total old b :
  buf_wf b -> exists f' b' x, UnmarshalFromBuffer (old, b) = ((f', b'), x) /\ x <> Panic.
Proof.
  intros Hwf. unfold UnmarshalFromBuffer. rewrite (Len_wf _ Hwf). set (d := content b) in *.
  destruct (zlen d <? 4) eqn:E4; [by eexists _, _, _|].
  assert (Hlook : forall i, 0 <= i < zlen d -> exists y, Byte b i = Ok y).
  { intros i Hi. rewrite Byte_wf by done. fold d.
    destruct (lookup_lt_is_Some_2 d (Z.to_nat i)) as [y ->]; [unfold zlen in Hi; lia|]. by exists y. }
  rewrite BytesTo_wf by (fold d; done || lia). fold d. cbn [mbind res_bind].
  assert (Hz2 : zlen (take (Z.to_nat 2) d) = 2) by (unfold zlen in *; rewrite length_take; lia).
  rewrite <- (app_nil_r (take _ d)), Uint16_app by done. cbn [mbind res_bind].
  destruct (Hlook 2 ltac:(lia)) as [st ->]. destruct (Hlook 3 ltac:(lia)) as [op ->]. cbn [mbind res_bind].
  destruct (_ =? SessionStatusNew); [|by eexists _, _, _].
  destruct (zlen d <? 8) eqn:E8; [by eexists _, _, _|].
  destruct (Hlook 4 ltac:(lia)) as [nw ->]. rewrite (Advance_pop _ 5 Hwf) by (fold d; lia).
  assert (Hpop : rd_wf (pop b 5)) by (apply (pop_wf _ Hwf); fold d; lia).
  assert (Hsafe : safe anybuf (ReadAddressPort_with addrParser : ST (Buffer * Buffer) _) (fun _ => True)).
  { eapply safe_bind; [apply safe_port|]. intros p _. eapply safe_bind; [apply (safe_address addrParser), addrParser_known|].
    intros a _. by apply safe_ret. }
  destruct (Hsafe New (pop b 5)) as (b2 & r3 & x & Ex & Hx & _); [split; [apply New_wf|done]|done|done|].
  unfold ReadAddressPort. rewrite Ex. destruct x as [[a p]|e|]; [|by eexists _, _, _|done].
  destruct (_ =? TargetNetworkTCP); [by eexists _, _, _|]. destruct (_ =? TargetNetworkUDP); by eexists _, _, _.
Qed.

(** ** Theorems *)

(** Round trip of the mux frame header, for an id of 16 bits, a status and an
    option of 8 and, in a New frame, a TCP or UDP target with an address that survives
    the wire (an IP address, or a domain that [ReadAddressPort] accepts and does not
    take for an IP address): what [WriteTo] appends to a buffer with room is read back
    by [Unmarshal] from any reader that delivers those bytes, in whatever fragments,
    leaving exactly what follows: the same metadata for a New frame, the same id, status
    and option for the others. *)
Theorem frame_roundtrip {R} `{Reader R} f old b (r : R) rest :
  meta_wf f -> buf_wf b -> zlen (meta_bytes f) <= room b ->
  rd_wf r -> rd_content r = meta_bytes f ++ rest ->
  WriteTo f b = (push b (meta_bytes f), Ok tt) /\
  exists r', Unmarshal (old, r) = ((merge old f, r'), Ok tt) /\ rd_content r' = rest.
Proof.
  intros Hm Hwf Hroom Hr Hc. split; [by apply WriteTo_spec|].
  destruct (Unmarshal_spec old f r rest Hm Hr Hc) as (r' & -> & _ & _ & ?). by exists r'.
Qed.

Definition demo_meta : FrameMetadata :=
  {| Target := UDPDestination (Some (domainAddress (lit "v2fly.org"))) 53; SessionID := 7;
     Option := OptionData; SessionStatus := SessionStatusNew |}.

Lemma frame_roundtrip_witness :
  WriteTo demo_meta New = (push New (meta_bytes demo_meta), Ok tt) /\
  exists r', Unmarshal (Meta0, conn_of (meta_bytes demo_meta ++ lit "!")) = ((merge Meta0 demo_meta, r'), Ok tt)
    /\ rd_content r' = lit "!".
Proof.
  apply (frame_roundtrip demo_meta Meta0 New (conn_of (meta_bytes demo_meta ++ lit "!")) (lit "!")).
  - split; [by vm_compute|]. split; [by vm_compute|]. split; [by vm_compute|]. intros _. split; [by right|].
    split; [by vm_compute|]. repeat split; vm_compute; congruence.
  - apply New_wf.
  - vm_compute. discriminate.
  - exact I.
  - reflexivity.
Defined.

(** [Unmarshal] never panics: whatever bytes arrive, in whatever fragments
    and however they end, it returns metadata or an error, and it consumes no
    more than two bytes and the 512 of the largest header. *)
Theorem Unmarshal_safe {R} `{Reader R} old (r : R) :
  rd_wf r ->
  exists f' r' x, Unmarshal (old, r) = ((f', r'), x) /\ x <> Panic /\ rd_wf r' /\
    exists k, (k <= 514)%nat /\ rd_content r' = drop k (rd_content r).
Proof.
  intros Hr. unfold Unmarshal, ReadUint16.
  destruct (ReadFull_spec r 2 Hr) as (r1 & Hr1 & He1 & Hc1 & ->).
  destruct (2 <=? length (rd_content r))%nat eqn:E2; cycle 1.
  { eexists _, _, _. split; [reflexivity|]. split; [done|]. split; [done|]. exists 2%nat. split; [lia|done]. }
  assert (Hz : zlen (take 2 (rd_content r)) = 2) by (unfold zlen; rewrite length_take; lia).
  rewrite <- (app_nil_r (take 2 _)), Uint16_app by done.
  set (n := get_be _). assert (Hn : 0 <= n) by apply get_be_range.
  destruct (512 <? n) eqn:En.
  { eexists _, _, _. split; [reflexivity|]. split; [done|]. split; [done|]. exists 2%nat. split; [lia|done]. }
  destruct (ReadFullFrom_spec New New_wf r1 Hr1 n) as (r2 & Hr2 & He2 & Hc2 & ->); [rewrite New_room; lia|].
  assert (Hk : exists k, (k <= 514)%nat /\ rd_content r2 = drop k (rd_content r)).
  { exists (2 + Z.to_nat n)%nat. split; [lia|]. by rewrite Hc2, Hc1, drop_drop. }
  destruct (n <=? zlen (rd_content r1)) eqn:El; cycle 1.
  { eexists _, _, _. split; [reflexivity|]. split; [done|]. by split. }
  set (d := take (Z.to_nat n) (rd_content r1)).
  assert (Hd : zlen d = n) by (unfold d, zlen in *; rewrite length_take; lia).
  assert (Hwf : buf_wf (push New d)) by (apply push_wf; [apply New_wf|rewrite New_room; lia]).
  destruct (UnmarshalFromBuffer_total old (push New d) Hwf) as (f' & b' & x & -> & Hx).
by exists f', r2, x.
Qed.

Lemma Unmarshal_safe_witness :
  exists f' r' x, Unmarshal (Meta0, conn_of (map z2b [0; 9; 0; 7; 1; 1; 5; 0; 80; 2; 0])) = ((f', r'), x) /\ x <> Panic.
Proof.
  destruct (Unmarshal_safe Meta0 (conn_of (map z2b [0; 9; 0; 7; 1; 1; 5; 0; 80; 2; 0]))) as (f' & r' & x & H & Hx & _);
    [exact I|]. exists f', r', x. split; [exact H|exact Hx].
Defined.
