(* ===== verification/MuxSession.v ===== *)
(** * Package common/mux: sessions

    [Module MuxSession] models common/mux/session.go.  A [*Session] is a pointer
    into a heap, because a session that lost its place in the map is still held
    by the goroutine that serves it.  Every method of [SessionManager] runs under
    the manager's lock and is one step. *)
From S2P Require Import Prelude GoStd.

Module MuxSession.

(** What [common.Close] and [common.Interrupt] do to the end of a link. *)
Class Endpoint (X : Type) := { close_ep : X -> X; interrupt_ep : X -> X }.

Inductive TransferType := TransferTypeStream | TransferTypePacket.
#[export] Instance TransferType_eq_dec : EqDecision TransferType.
Proof. solve_decision. Defined.

Abbreviation ptr := nat.

Record SessionManager := mkManager {
  sessions : gmap Z ptr;
  count : Z;              (* uint16 *)
  closed : bool;
}.

Definition NewSessionManager : SessionManager :=
  {| sessions := ∅; count := 0; closed := false |}.

Definition Closed (m : SessionManager) : bool := closed m.
Definition Size (m : SessionManager) : Z := Z.of_nat (size (sessions m)).
Definition Count (m : SessionManager) : Z := count m.

Section Sessions.
Context {I O : Type} `{Endpoint I} `{Endpoint O}.

Record Session := mkSession {
  input : I;
  output : O;
  ID : Z;                 (* uint16 *)
  transferType : TransferType;
}.

(** A manager and the heap its sessions live in. *)
Record Store := mkStore { manager : SessionManager; heap : list Session }.

Definition NewStore : Store := {| manager := NewSessionManager; heap := [] |}.

(** [Allocate]; the new session is given the link that [Dispatch] assigns to it
    right after. *)
Definition Allocate (i : I) (o : O) (st : Store) : Store * option ptr :=
  let m := manager st in
  if closed m then (st, None) else
  let count := u16 (count m + 1) in
  let s := {| input := i; output := o; ID := count; transferType := TransferTypeStream |} in
  let p := length (heap st) in
  ({| manager := {| sessions := <[ID s := p]> (sessions m); count := count; closed := false |};
      heap := heap st ++ [s] |}, Some p).

(** [Add(s)] for a session that was just created. *)
Definition Add (s : Session) (st : Store) : Store * ptr :=
  let m := manager st in
  let p := length (heap st) in
  let heap := heap st ++ [s] in
  if closed m then ({| manager := m; heap := heap |}, p) else
  ({| manager := {| sessions := <[ID s := p]> (sessions m); count := u16 (count m + 1); closed := false |};
      heap := heap |}, p).

Definition Remove (id : Z) (m : SessionManager) : SessionManager :=
  if closed m then m else {| sessions := delete id (sessions m); count := count m; closed := false |}.

Definition Get (id : Z) (m : SessionManager) : option ptr :=
  if closed m then None else sessions m !! id.

Definition CloseIfNoSession (m : SessionManager) : SessionManager * bool :=
  if closed m then (m, true) else
  if negb (Size m =? 0) then (m, false) else
  ({| sessions := sessions m; count := count m; closed := true |}, true).

Definition close_session (s : Session) : Session :=
  {| input := close_ep (input s); output := close_ep (output s); ID := ID s; transferType := transferType s |}.

(** The pointers of the map; the map is ranged over in no particular order. *)
Definition live (m : SessionManager) (p : ptr) : bool :=
  existsb (fun kv => Nat.eqb p kv.2) (map_to_list (sessions m)).

Definition Close (st : Store) : Store :=
  let m := manager st in
  if closed m then st else
  {| manager := {| sessions := ∅; count := count m; closed := true |};
     heap := imap (fun p s => if live m p then close_session s else s) (heap st) |}.

(** [Session.Close] *)
Definition Session_Close (p : ptr) (st : Store) : Store :=
  match heap st !! p with
  | Some s => {| manager := Remove (ID s) (manager st); heap := alter close_session p (heap st) |}
  | None => st
  end.

(** ** Histories *)
Inductive op :=
  | OAllocate (i : I) (o : O)
  | OAdd (s : Session)
  | ORemove (id : Z)
  | OCloseIfNoSession
  | OClose
  | OSessionClose (p : ptr).

Definition step (x : op) (st : Store) : Store :=
  match x with
  | OAllocate i o => (Allocate i o st).1
  | OAdd s => (Add s st).1
  | ORemove id => {| manager := Remove id (manager st); heap := heap st |}
  | OCloseIfNoSession => {| manager := (CloseIfNoSession (manager st)).1; heap := heap st |}
  | OClose => Close st
  | OSessionClose p => Session_Close p st
  end.

Definition op_wf (x : op) : Prop := match x with OAdd s => is_u16 (ID s) | _ => True end.

(** Every entry of the map leads to the session of that id, and a closed manager
    has none. *)
Definition store_ok (st : Store) : Prop :=
  is_u16 (count (manager st)) /\
  (forall id p, sessions (manager st) !! id = Some p ->
     is_u16 id /\ exists s, heap st !! p = Some s /\ ID s = id) /\
  (closed (manager st) = true -> sessions (manager st) = ∅).

(** The manager allocated all its ids itself, the latest [count m] of them. *)
Definition allocated (m : SessionManager) : Prop :=
  forall id p, sessions m !! id = Some p -> 1 <= id <= count m.
End Sessions.
Arguments Session : clear implicits.
Arguments Store : clear implicits.
Arguments op : clear implicits.

End MuxSession.
Import MuxSession.

Section Lemmas.
Context {I O : Type} `{Endpoint I} `{Endpoint O}.
Implicit Types (st : Store I O).

Lemma insert_ok st id s cnt :
  store_ok st -> is_u16 id -> ID s = id -> is_u16 cnt ->
  store_ok {| manager := {| sessions := <[id := length (heap st)]> (sessions (manager st)); count := cnt; closed := false |};
              heap := heap st ++ [s] |}.
Proof.
  intros (Hc & Hs & Hcl) Hid Hs0 Hcnt. split; [done|]. split; [|done]. cbn [manager sessions heap].
  intros id' p. destruct (decide (id = id')) as [<-|Hne].
  - rewrite lookup_insert_eq. intros [= <-]. split; [done|]. exists s. by rewrite list_lookup_middle.
  - rewrite lookup_insert_ne by done. intros Hp. destruct (Hs _ _ Hp) as (? & s' & Hl & ?).
    split; [done|]. exists s'. split; [|done]. by apply lookup_app_l_Some.
Qed.

Lemma alter_close_ID p (l : list (Session I O)) q s :
  l !! q = Some s -> exists s', alter close_session p l !! q = Some s' /\ ID s' = ID s.
Proof.
  intros Hl. destruct (decide (p = q)) as [->|Hne].
  - rewrite list_lookup_alter_eq, Hl. by eexists.
  - rewrite list_lookup_alter_ne by done. by exists s.
Qed.

Lemma Remove_ok st id : store_ok st -> store_ok {| manager := Remove id (manager st); heap := heap st |}.
Proof.
  intros Hok. pose proof Hok as (Hc & Hs & Hcl). unfold Remove. destruct (closed (manager st)) eqn:E.
  - by destruct st.
  - split; [done|]. split; [|done]. cbn [manager heap sessions]. intros id' p Hp.
    apply lookup_delete_Some in Hp as [_ Hp]. by apply Hs.
Qed.

Lemma step_ok x st : op_wf x -> store_ok st -> store_ok (step x st).
Proof.
  intros Hx Hok. pose proof Hok as (Hc & Hs & Hcl). destruct x as [i o|s|id| | |p]; cbn [step].
  - unfold Allocate. destruct (closed (manager st)) eqn:E; [done|]. cbn [fst].
    apply insert_ok; [done|apply u16_range|done|apply u16_range].
  - unfold Add. destruct (closed (manager st)) eqn:E; cbn [fst].
    + split; [done|]. split; [|intros _; by apply Hcl]. cbn [manager heap]. intros id p Hp. by rewrite (Hcl eq_refl) in Hp.
    + apply insert_ok; [done|done|done|apply u16_range].
  - by apply Remove_ok.
  - unfold CloseIfNoSession. destruct (closed (manager st)) eqn:E; [by destruct st|].
    destruct (negb _) eqn:Ez; [by destruct st|]. cbn [fst]. split; [done|]. split; [done|]. cbn [manager sessions].
    intros _. apply map_size_empty_inv. unfold Size in Ez. lia.
  - unfold Close. destruct (closed (manager st)) eqn:E; [done|]. by split.
  - unfold Session_Close. destruct (heap st !! p) as [s|] eqn:Ep; [|done].
    destruct (Remove_ok st (ID s) Hok) as (Hc' & Hs' & Hcl'). split; [done|]. split; [|done]. cbn [manager heap] in *.
    intros id q Hq. destruct (Hs' id q Hq) as (? & s' & Hl & <-). split; [done|]. by apply alter_close_ID.
Qed.

(** The invariant of the session manager over every history of its methods
    and of [Session.Close]: an entry of the map always leads to the session
    that carries its id, so that [Get] hands out the session that was asked
    for, and a closed manager holds no session. *)
Theorem sessions_invariant (ops : list (op I O)) id p :
  Forall op_wf ops ->
  let st := fold_left (fun st x => step x st) ops NewStore in
  Get id (manager st) = Some p ->
  closed (manager st) = false /\ exists s, heap st !! p = Some s /\ ID s = id.
Proof.
  intros Hops st Hget.
  assert (Hok : store_ok st).
  { unfold st. clear -Hops. assert (Hn : store_ok (NewStore : Store I O)) by (split; [done|by split]).
    revert Hn Hops. generalize (NewStore : Store I O). induction ops as [|x ops IH]; intros st Hst Hops; [done|].
    apply Forall_cons in Hops as [Hx Hops]. cbn [fold_left]. apply IH; [by apply step_ok|done]. }
  destruct Hok as (_ & Hs & _). unfold Get in Hget. destruct (closed (manager st)); [done|].
  split; [done|]. by apply Hs.
Qed.

(** The ids of a client's manager, which only [Allocate] adds to: the first
    65535 allocations get pairwise different ids, and none disturbs a session
    that is still in the map. *)
Theorem Allocate_fresh st i o :
  allocated (manager st) -> 0 <= count (manager st) < 65535 -> closed (manager st) = false ->
  let '(st', p) := Allocate i o st in
  p = Some (length (heap st)) /\ count (manager st') = count (manager st) + 1 /\
  Get (count (manager st) + 1) (manager st) = None /\
  Get (count (manager st) + 1) (manager st') = p /\
  (forall id, id <> count (manager st) + 1 -> Get id (manager st') = Get id (manager st)) /\
  (forall q s, heap st !! q = Some s -> heap st' !! q = Some s) /\
  allocated (manager st').
Proof.
  intros Ha Hc Hcl. unfold Allocate. rewrite Hcl. unfold Get. cbn [manager heap count sessions closed ID].
  rewrite u16_small by lia. rewrite Hcl. split; [done|]. split; [done|]. split.
  { destruct (sessions (manager st) !! _) as [q|] eqn:E; [|done]. apply Ha in E. lia. }
  split; [by rewrite lookup_insert_eq|]. split; [intros id Hid; by rewrite lookup_insert_ne by done|].
  split; [intros q s Hq; by apply lookup_app_l_Some|].
  intros id p. cbn [sessions count]. destruct (decide (count (manager st) + 1 = id)) as [<-|Hne].
  - intros _. lia.
  - rewrite lookup_insert_ne by done. intros Hp%Ha. lia.
Qed.

(** The id of the 65536th allocation and of those after it is that of a session
    that may still be live: the map then loses it. *)
Theorem Allocate_overwrites st i o p :
  closed (manager st) = false -> Get (u16 (count (manager st) + 1)) (manager st) = Some p -> (p < length (heap st))%nat ->
  exists q, (Allocate i o st).2 = Some q /\ q <> p /\
    Get (u16 (count (manager st) + 1)) (manager (Allocate i o st).1) = Some q /\
    size (sessions (manager (Allocate i o st).1)) = size (sessions (manager st)).
Proof.
  intros Hcl Hp Hlt. unfold Get in *. rewrite Hcl in Hp. exists (length (heap st)). unfold Allocate. rewrite Hcl.
  cbn [fst snd manager closed sessions ID]. rewrite lookup_insert_eq. split_and!; [done|lia|done|].
  rewrite map_size_insert, Hp. done.
Qed.

(** Closing is final. *)
Lemma closed_step x st : closed (manager st) = true -> closed (manager (step x st)) = true.
Proof.
  intros Hcl. destruct x; cbn [step]; unfold Allocate, Add, Remove, CloseIfNoSession, Close, Session_Close;
    rewrite ?Hcl; try done. destruct (heap st !! p); [|done]. cbn [manager]. unfold Remove. by rewrite Hcl.
Qed.
End Lemmas.

(** ** Witnesses *)
#[export] Instance unit_endpoint : Endpoint unit := {| close_ep := id; interrupt_ep := id |}.

Definition demo_ops : list (op unit unit) :=
  [OAllocate tt tt; OAllocate tt tt; ORemove 1; OAdd (mkSession tt tt 9 TransferTypePacket); OSessionClose 1%nat].

Lemma sessions_invariant_witness :
  let st := fold_left (fun st x => step x st) demo_ops NewStore in
  closed (manager st) = false /\ exists s, heap st !! 2%nat = Some s /\ ID s = 9.
Proof.
  apply (sessions_invariant demo_ops 9 2%nat).
  - repeat first [apply Forall_nil_2 | apply Forall_cons_2; [vm_compute; done|]].
  - vm_compute. reflexivity.
Defined.

Lemma Allocate_fresh_witness :
  let st : Store unit unit := step (OAllocate tt tt) NewStore in
  Get 2 (manager st) = None /\ Get 2 (manager (Allocate tt tt st).1) = Some 1%nat /\
  Get 1 (manager (Allocate tt tt st).1) = Some 0%nat.
Proof.
  pose proof (Allocate_fresh (step (OAllocate tt tt) NewStore : Store unit unit) tt tt) as HF.
  destruct HF as (Hp & _ & H1 & H2 & H3 & _).
  - intros id p Hid. vm_compute in Hid. destruct id as [|[q|q|]|q]; try discriminate Hid. vm_compute. by split.
  - vm_compute. by split.
  - reflexivity.
  - split; [exact H1|]. split; [exact H2|]. refine (eq_trans (H3 1 _) _); [discriminate|reflexivity].
Defined.
