(* ===== verification/MuxIO.v ===== *)
(** * Package common/mux: the writers and readers of sessions

    [Module MuxIO] models common/mux/writer.go, reader.go and [NewReader] of
    session.go: what a session sends becomes frames on the link of the
    connection, and the payload of a frame becomes a [buf.Reader]. *)
From S2P Require Import Prelude GoStd Buf MultiBuf NetAddr AddrParser BufReader MuxFrame MuxSession.
Import MuxSession Buf MultiBuf NetAddr BufReader BufReader.Chunk MuxFrame.

Module MuxIO.

(** ** writer.go *)
Record Writer := mkWriter {
  dest : Destination;
  id : Z;
  followup : bool;
  hasError : bool;
  wtype : TransferType;
}.

Definition NewWriter (i : Z) (d : Destination) (t : TransferType) : Writer :=
  {| id := i; dest := d; followup := false; hasError := false; wtype := t |}.

Definition NewResponseWriter (i : Z) (t : TransferType) : Writer :=
  {| id := i; dest := Dest0; followup := true; hasError := false; wtype := t |}.

Definition followed (wr : Writer) : Writer :=
  {| id := id wr; dest := dest wr; followup := true; hasError := hasError wr; wtype := wtype wr |}.

Definition failed (wr : Writer) : Writer :=
  {| id := id wr; dest := dest wr; followup := followup wr; hasError := true; wtype := wtype wr |}.

Definition getNextFrameMeta (wr : Writer) : Writer * FrameMetadata :=
  let meta st := {| SessionID := id wr; Target := dest wr; SessionStatus := st; Option := 0 |} in
  if followup wr then (wr, meta SessionStatusKeep) else (followed wr, meta SessionStatusNew).

Section Write.
Context {W : Type} `{MbWriter W}.

Definition writeMetaOnly : ST (Writer * W) unit := fun '(wr, w) =>
  let '(wr, meta) := getNextFrameMeta wr in
  match WriteTo meta New with
  | (b, Ok _) => let '(w, x) := write_mb [b] w in ((wr, w), x)
  | (_, Err e) => ((wr, w), Err e)
  | (_, Panic) => ((wr, w), Panic)
  end.

Definition writeMetaWithFrame (meta : FrameMetadata) (data : MultiBuffer) : ST W unit := fun w =>
  match WriteTo meta New with
  | (frame, Ok _) =>
    match WriteUint16 (u16 (MultiBuf.Len data)) frame with
    | (frame, Ok _) =>
      if 64 * 1024 * 1024 <? zlen data + 1 then (w, Err (NewError "value too large"))
      else write_mb (frame :: data) w
    | (_, Err e) => (w, Err e)
    | (_, Panic) => (w, Panic)
    end
  | (_, Err e) => (w, Err e)
  | (_, Panic) => (w, Panic)
  end.

Definition set_option (meta : FrameMetadata) (o : Z) : FrameMetadata :=
  {| Target := Target meta; SessionID := SessionID meta; SessionStatus := SessionStatus meta;
     Option := Bitmask.Set_ (Option meta) o |}.

Definition writeData (mb : MultiBuffer) : ST (Writer * W) unit := fun '(wr, w) =>
  let '(wr, meta) := getNextFrameMeta wr in
  let '(w, x) := writeMetaWithFrame (set_option meta OptionData) mb w in ((wr, w), x).

(** One chunk off the front of [mb]: what is left and the chunk. *)
Definition next_chunk (t : TransferType) (mb : MultiBuffer) : res (MultiBuffer * MultiBuffer) :=
  match t with
  | TransferTypeStream => SplitSize mb (8 * 1024)
  | TransferTypePacket =>
    let '(mb, b) := SplitFirst mb in
    b ← or_panic b; Ok (mb, [b])
  end.

(** The loop of [WriteMultiBuffer]; [None] is out of fuel. *)
Fixpoint WriteLoop (fuel : nat) (mb : MultiBuffer) (s : Writer * W) : option ((Writer * W) * res unit) :=
  if MultiBuf.IsEmpty mb then Some (s, Ok tt) else
  match fuel with
  | O => None
  | S f =>
    match next_chunk (wtype s.1) mb with
    | Ok (mb, chunk) =>
      match writeData chunk s with
      | (s, Ok _) => WriteLoop f mb s
      | (s, x) => Some (s, x)
      end
    | Err e => Some (s, Err e)
    | Panic => Some (s, Panic)
    end
  end.

Definition WriteMultiBuffer (mb : MultiBuffer) (s : Writer * W) : option ((Writer * W) * res unit) :=
  if MultiBuf.IsEmpty mb then Some (writeMetaOnly s)
  else WriteLoop (S (length mb + length (mb_content mb))) mb s.

(** Errors of the link are ignored. *)
Definition Close (wr : Writer) : ST W unit := fun w =>
  let meta := {| Target := Dest0; SessionID := id wr; SessionStatus := SessionStatusEnd;
                 Option := if hasError wr then Bitmask.Set_ 0 OptionError else 0 |} in
  match WriteTo meta New with
  | (frame, Ok _) =>
    match write_mb [frame] w with
    | (w, Panic) => (w, Panic)
    | (w, _) => (w, Ok tt)
    end
  | (_, _) => (w, Panic)
  end.

(** A [Writer] is itself a [buf.Writer]; running out of fuel cannot happen. *)
#[export] Instance writer_mb : MbWriter (Writer * W) := fun mb s =>
  match WriteMultiBuffer mb s with Some r => r | None => (s, Panic) end.
End Write.

(** ** reader.go *)
Record PacketReader := mkPacket { preader : BufferedReader link; eof : bool }.

Definition NewPacketReader (r : BufferedReader link) : PacketReader := {| preader := r; eof := false |}.

#[export] Instance packet_mb : MbReader PacketReader := fun r =>
  if eof r then (r, Ok ([], Some EOF)) else
  match ReadUint16 (preader r) with
  | (br, Err e) => ({| preader := br; eof := false |}, Ok ([], Some e))
  | (br, Panic) => ({| preader := br; eof := false |}, Panic)
  | (br, Ok size) =>
    if Buf.Size <? size
    then ({| preader := br; eof := false |}, Ok ([], Some (NewError "packet size too large: "))) else
    match Buf.ReadFullFrom size (New, br) with
    | ((_, br), Err e) => ({| preader := br; eof := false |}, Ok ([], Some e))
    | ((_, br), Panic) => ({| preader := br; eof := false |}, Panic)
    | ((b, br), Ok _) => ({| preader := br; eof := true |}, Ok ([b], None))
    end
  end.

Definition NewStreamReader (r : BufferedReader link) : ChunkStreamReader := NewChunkStreamReaderWithChunkCount r 1.

(** What [Session.NewReader] returns. *)
Inductive SessionReader :=
  | StreamReader (r : ChunkStreamReader)
  | APacketReader (r : PacketReader).

Definition NewReader (t : TransferType) (r : BufferedReader link) : SessionReader :=
  if bool_decide (t = TransferTypeStream) then StreamReader (NewStreamReader r)
  else APacketReader (NewPacketReader r).

#[export] Instance session_mb : MbReader SessionReader := fun r =>
  match r with
  | StreamReader r => let '(r, x) := read_mb r in (StreamReader r, x)
  | APacketReader r => let '(r, x) := read_mb r in (APacketReader r, x)
  end.

(** The reader of the connection behind it. *)
Definition under (r : SessionReader) : BufferedReader link :=
  match r with StreamReader r => reader r | APacketReader r => preader r end.

(** ** Frames *)
Record frame := mkFrame { f_meta : FrameMetadata; f_data : option bytes }.

Definition frame_bytes (f : frame) : bytes :=
  meta_bytes (f_meta f) ++ match f_data f with Some d => put_be 2 (zlen d) ++ d | None => [] end.

Definition frame_wf (f : frame) : Prop :=
  meta_wf (f_meta f) /\
  match f_data f with
  | Some d => Bitmask.Has (Option (f_meta f)) OptionData = true /\ 0 < zlen d < 2 ^ 16
  | None => Bitmask.Has (Option (f_meta f)) OptionData = false
  end.

(** The frame a writer makes of a payload, and of the end of the session. *)
Definition next_frame (wr : Writer) (d : option bytes) : frame :=
  let meta := (getNextFrameMeta wr).2 in
  mkFrame (match d with Some _ => set_option meta OptionData | None => meta end) d.

Fixpoint data_frames (wr : Writer) (ds : list bytes) : list frame :=
  match ds with
  | [] => []
  | d :: ds => next_frame wr (Some d) :: data_frames (followed wr) ds
  end.

Definition end_frame (wr : Writer) : frame :=
  mkFrame {| Target := Dest0; SessionID := id wr; SessionStatus := SessionStatusEnd;
             Option := if hasError wr then OptionError else 0 |} None.

Definition writer_wf (wr : Writer) : Prop :=
  is_u16 (id wr) /\ (followup wr = false -> target_wf (dest wr)).

End MuxIO.
Import MuxIO.

Lemma meta_bytes_length f : meta_wf f -> 6 <= zlen (meta_bytes f) <= 266.
Proof.
  intros Hm. pose proof (header_length f Hm). unfold meta_bytes. rewrite zlen_app, zlen_put_be. lia.
Qed.

Lemma set_option_wf m : meta_wf m -> Option m = 0 -> meta_wf (set_option m OptionData).
Proof. intros (H1 & H2 & H3 & H4) Ho. split; [done|]. split; [done|]. split; [|done]. cbn [set_option Option]. by rewrite Ho. Qed.

Lemma next_meta wr :
  writer_wf wr ->
  let '(wr', m) := getNextFrameMeta wr in
  meta_wf m /\ Option m = 0 /\ wr' = followed wr /\ meta_wf (set_option m OptionData).
Proof.
  intros [Hid Hd]. unfold getNextFrameMeta. destruct (followup wr) eqn:E.
  - assert (Hm : meta_wf {| SessionID := id wr; Target := dest wr; SessionStatus := SessionStatusKeep; Option := 0 |}).
    { split; [done|]. by split. }
    split; [done|]. split; [done|]. split; [|by apply set_option_wf]. destruct wr. cbn in E. by subst.
  - assert (Hm : meta_wf {| SessionID := id wr; Target := dest wr; SessionStatus := SessionStatusNew; Option := 0 |}).
    { split; [done|]. split; [done|]. split; [done|]. intros _. by apply Hd. }
    split; [done|]. split; [done|]. split; [done|]. by apply set_option_wf.
Qed.

Lemma followed_wf wr : writer_wf wr -> writer_wf (followed wr).
Proof. intros [? ?]. by split. Qed.

Lemma next_frame_wf wr d :
  writer_wf wr -> (forall x, d = Some x -> 0 < zlen x < 2 ^ 16) -> frame_wf (next_frame wr d).
Proof.
  intros Hw Hd. pose proof (next_meta wr Hw) as Hm. unfold next_frame. destruct (getNextFrameMeta wr) as [wr' m].
  destruct Hm as (Hm & Ho & _ & Hs). destruct d as [x|]; (split; [done|]); cbn [f_data f_meta snd].
  - split; [|by apply Hd]. cbn [set_option Option]. by rewrite Ho.
  - by rewrite Ho.
Qed.

Section Sink.
Context {W : Type} `{MbSink W}.

Lemma write_frame m mb w b :
  meta_wf m -> Forall tidy mb -> 0 < zlen (mb_content mb) < 2 ^ 16 -> taken w b ->
  exists w', writeMetaWithFrame m mb w = (w', Ok tt) /\
    taken w' (b ++ frame_bytes (mkFrame m (Some (mb_content mb)))).
Proof.
  intros Hm Ht Hl Hw. pose proof (meta_bytes_length m Hm) as Hml. unfold writeMetaWithFrame.
  rewrite WriteTo_spec by (done || apply New_wf || rewrite New_room; lia).
  rewrite (Len_spec mb) by (by apply tidy_wf || lia). rewrite u16_small by lia.
  unfold WriteUint16, wr, buffer_writer.
  assert (Hwf : buf_wf (push New (meta_bytes m))) by (apply push_wf; [apply New_wf|rewrite New_room; lia]).
  assert (Hr : room (push New (meta_bytes m)) = 2048 - zlen (meta_bytes m)).
  { rewrite push_room by (apply New_wf || rewrite New_room; lia). by rewrite New_room. }
  rewrite Write_fits by (done || rewrite zlen_put_be; lia).
  rewrite push_push by (apply New_wf || rewrite New_room, zlen_put_be; lia).
  pose proof (tidy_length mb Ht). replace (64 * 1024 * 1024 <? zlen mb + 1) with false by lia.
  set (hd := meta_bytes m ++ _). assert (Hhd : zlen hd = zlen (meta_bytes m) + 2) by (unfold hd; by rewrite zlen_app, zlen_put_be).
  destruct (taken_write w b (push New hd :: mb) Hw) as (w' & -> & Hw').
  - split; [constructor; [apply tidy_push; lia|done]|]. rewrite mb_content_cons, zlen_app.
    rewrite push_content by apply New_wf. rewrite New_content, app_nil_l. lia.
  - done.
  - exists w'. split; [done|]. rewrite mb_content_cons, push_content in Hw' by apply New_wf.
    rewrite New_content, app_nil_l in Hw'. unfold frame_bytes. cbn [f_meta f_data]. unfold hd in Hw'.
    by rewrite <- app_assoc in Hw'.
Qed.

(** The chunks of the loop: at most 8 kB of a stream, one buffer of packets. *)
Lemma next_chunk_spec t mb :
  Forall tidy mb -> mb <> [] -> zlen (mb_content mb) < 2 ^ 31 ->
  exists rest c, next_chunk t mb = Ok (rest, c) /\ Forall tidy rest /\ Forall tidy c /\
    mb_content mb = mb_content c ++ mb_content rest /\ 0 < zlen (mb_content c) < 2 ^ 16 /\
    (t = TransferTypePacket -> exists x, mb = x :: rest /\ mb_content c = content x).
Proof.
  intros Ht Hne Hl. destruct t; cbn [next_chunk].
  - destruct (SplitSize_tidy mb (8 * 1024) Ht Hne ltac:(lia) Hl) as (rest & c & -> & Hr & Hc & Hcne & Hcc & Hcl).
    exists rest, c. repeat (split; [done|]). split; [|done]. pose proof (tidy_nonempty c Hc Hcne). lia.
  - destruct mb as [|x mb]; [done|]. apply Forall_cons in Ht as [Hx Ht]. exists mb, [x].
    rewrite mb_content_one. split; [done|]. split; [done|]. split; [by constructor|]. split; [done|].
    destruct Hx as [_ Hx]. split; [lia|]. intros _. by exists x.
Qed.

Lemma writeData_spec wr mb w b :
  writer_wf wr -> Forall tidy mb -> 0 < zlen (mb_content mb) < 2 ^ 16 -> taken w b ->
  exists w', writeData mb (wr, w) = ((followed wr, w'), Ok tt) /\
    taken w' (b ++ frame_bytes (next_frame wr (Some (mb_content mb)))).
Proof.
  intros Hwr Ht Hl Hw. unfold writeData, next_frame. pose proof (next_meta wr Hwr) as Hm.
  destruct (getNextFrameMeta wr) as [wr' m]. destruct Hm as (_ & _ & -> & Hm).
  destruct (write_frame _ mb w b Hm Ht Hl Hw) as (w' & -> & Hw'). by exists w'.
Qed.

Lemma WriteLoop_spec fuel mb wr w b :
  writer_wf wr -> Forall tidy mb -> zlen (mb_content mb) < 2 ^ 31 -> taken w b ->
  (length (mb_content mb) < fuel)%nat ->
  exists ds w' wr', WriteLoop fuel mb (wr, w) = Some ((wr', w'), Ok tt) /\
    concat ds = mb_content mb /\ Forall (fun d => 0 < zlen d < 2 ^ 16) ds /\
    taken w' (b ++ concat (map frame_bytes (data_frames wr ds))) /\
    (wtype wr = TransferTypePacket -> ds = map content mb) /\
    wr' = (if bool_decide (mb = []) then wr else followed wr).
Proof.
  revert mb wr w b. induction fuel as [|f IH]; intros mb wr w b Hwr Ht Hl Hw Hf; [lia|].
  cbn [WriteLoop]. rewrite (tidy_IsEmpty mb Ht). case_bool_decide as Hemp.
  - subst mb. exists [], w, wr. split; [done|]. split; [done|]. split; [done|]. split; [by rewrite app_nil_r|]. done.
  - cbn [fst]. destruct (next_chunk_spec (wtype wr) mb Ht Hemp Hl) as (rest & c & -> & Hr & Hc & Hcc & Hcl & Hp).
    destruct (writeData_spec wr c w b Hwr Hc Hcl Hw) as (w1 & -> & Hw1). rewrite Hcc in Hl, Hf.
    rewrite zlen_app in Hl. rewrite length_app in Hf.
    destruct (IH rest (followed wr) w1 _ (followed_wf wr Hwr) Hr ltac:(lia) Hw1) as (ds & w' & wr' & E & Hds & Hfd & Htk & Hpk & Hwr');
      [unfold zlen in Hcl; lia|].
    exists (mb_content c :: ds), w', wr'. split; [exact E|]. split; [cbn [concat]; by rewrite Hds|].
    split; [by constructor|]. split; [cbn [data_frames map concat]; by rewrite app_assoc|]. split.
    + intros Hpt. destruct (Hp Hpt) as (x & -> & Hx). cbn [map]. by rewrite <- Hx, Hpk.
    + rewrite Hwr'. by case_bool_decide.
Qed.
End Sink.

(** ** Theorems *)

(** [Writer.WriteMultiBuffer] frames what it is given: on a link that takes
    data it ends without an error or a panic, and the link receives, in order, the
    frames of chunks whose concatenation is the payload - each chunk not empty
    and of a length its 16-bit field can hold, New for the first frame of the
    session and Keep for the others, and one chunk per buffer for packets; an
    empty MultiBuffer becomes one frame without data. *)
Theorem WriteMultiBuffer_frames {W} `{MbSink W} mb wr (w : W) b :
  writer_wf wr -> tidy_mb mb -> taken w b ->
  exists w' ds, WriteMultiBuffer mb (wr, w) = Some ((followed wr, w'), Ok tt) /\
    concat ds = mb_content mb /\ Forall (fun d => 0 < zlen d < 2 ^ 16) ds /\
    (wtype wr = TransferTypePacket -> ds = map content mb) /\
    taken w' (b ++ concat (map frame_bytes
      (if bool_decide (mb = []) then [next_frame wr None] else data_frames wr ds))).
Proof.
  intros Hwr [Ht Hl] Hw. unfold WriteMultiBuffer. rewrite (tidy_IsEmpty mb Ht). case_bool_decide as Hemp.
  - subst mb. unfold writeMetaOnly, next_frame. pose proof (next_meta wr Hwr) as Hm.
    destruct (getNextFrameMeta wr) as [wr' m]. destruct Hm as (Hm & _ & -> & _). cbn [snd].
    pose proof (meta_bytes_length m Hm) as Hml.
    rewrite WriteTo_spec by (done || apply New_wf || rewrite New_room; lia).
    destruct (taken_write w b [push New (meta_bytes m)] Hw) as (w' & -> & Hw').
    + split; [constructor; [apply tidy_push; lia|done]|]. rewrite mb_content_one, push_content by apply New_wf.
      rewrite New_content, app_nil_l. lia.
    + done.
    + exists w', []. rewrite mb_content_one, push_content, New_content, app_nil_l in Hw' by apply New_wf.
      cbn [map concat]. unfold frame_bytes. cbn [f_meta f_data]. by rewrite !app_nil_r.
  - destruct (WriteLoop_spec (S (length mb + length (mb_content mb))) mb wr w b Hwr Ht Hl Hw ltac:(lia))
      as (ds & w' & wr' & E & Hds & Hfd & Htk & Hpk & ->).
    exists w', ds. rewrite bool_decide_false in E by done. done.
Qed.

Definition demo_writer (i : Z) : Writer :=
  NewWriter i (TCPDestination (Some (ipv4Address (map z2b [8; 8; 8; 8]))) 53) TransferTypeStream.

Definition out_new : out := {| written := []; closed := None |}.

Lemma demo_writer_wf i : is_u16 i -> writer_wf (demo_writer i).
Proof.
  intros Hi. split; [done|]. intros _. split; [by left|]. split; [by vm_compute|]. by vm_compute.
Qed.

Lemma WriteMultiBuffer_frames_witness :
  exists w' ds, WriteMultiBuffer [push New (lit "hello")] (demo_writer 1, out_new) = Some ((followed (demo_writer 1), w'), Ok tt)
    /\ concat ds = lit "hello" /\
    out_bytes w' = concat (map frame_bytes (data_frames (demo_writer 1) ds)).
Proof.
  destruct (WriteMultiBuffer_frames [push New (lit "hello")] (demo_writer 1) out_new []) as (w' & ds & E & Hc & _ & _ & Ht).
  - apply demo_writer_wf. by vm_compute.
  - split; [|by vm_compute]. constructor; [|constructor]. split; [apply push_wf; [apply New_wf|by vm_compute]|by vm_compute].
  - repeat split. constructor.
  - exists w', ds. split; [exact E|]. split; [exact Hc|]. exact (proj1 (proj2 Ht)).
Defined.
