(* ===== verification/MuxServer.v ===== *)
(** * Package common/mux: the workers

    [Module MuxServer] models common/mux/server.go and [Module MuxClient]
    common/mux/client.go: a worker reads the frames of a connection one after
    the other and moves their payload to the sessions.  The loop of a worker is
    one goroutine; the goroutines of the sessions ([handle], [fetchInput]) touch
    the manager and the link between two frames.  A copy is bounded by a fuel
    that the theorems show to be enough. *)
From S2P Require Import Prelude GoStd Buf MultiBuf NetAddr AddrParser BufReader MuxFrame MuxSession MuxIO.
Import MuxSession Buf MultiBuf NetAddr BufReader BufReader.Chunk MuxFrame MuxIO.

(** The state both workers share: the sessions and the writing end of the
    connection; [spawned] are the sessions whose goroutine was started. *)
Record Worker (I O W : Type) := mkWorker {
  store : Store I O;
  link_out : W;
  spawned : list ptr;
}.
Arguments mkWorker {I O W} _ _ _.
Arguments store {I O W} _.
Arguments link_out {I O W} _.
Arguments spawned {I O W} _.

Section Shared.
Context {I O W : Type} `{Endpoint I} `{Endpoint O} `{MbWriter O} `{MbWriter W}.
Implicit Types (w : Worker I O W).

Definition set_store (st : Store I O) w : Worker I O W :=
  {| store := st; link_out := link_out w; spawned := spawned w |}.

Definition with_session (f : Session I O -> Session I O) (p : ptr) w : Worker I O W :=
  set_store {| manager := manager (store w); heap := alter f p (heap (store w)) |} w.

Definition set_output (o : O) (s : Session I O) : Session I O :=
  {| input := input s; output := o; ID := ID s; transferType := transferType s |}.

Definition interrupt_input (s : Session I O) : Session I O :=
  {| input := interrupt_ep (input s); output := output s; ID := ID s; transferType := transferType s |}.

Definition interrupt_output (s : Session I O) : Session I O :=
  {| input := input s; output := interrupt_ep (output s); ID := ID s; transferType := transferType s |}.

(** [s.Close()] *)
Definition close_at (p : ptr) w : Worker I O W := set_store (Session_Close p (store w)) w.

(** [buf.Copy(rr, s.output)]; [None] is out of fuel. *)
Definition copy_to (fuel : nat) (p : ptr) (rr : SessionReader) w
    : option (Worker I O W * SessionReader * res (option copyError)) :=
  match heap (store w) !! p with
  | None => Some (w, rr, Panic)
  | Some s =>
    match Copy fuel rr (output s) with
    | None => None
    | Some (rr, o, x) => Some (with_session (set_output o) p w, rr, x)
    end
  end.

(** [buf.Copy(rr, buf.Discard)] *)
Definition drain (fuel : nat) (rr : SessionReader) : option (SessionReader * res (option copyError)) :=
  match Copy fuel rr mkDiscard with
  | None => None
  | Some (rr, _, x) => Some (rr, x)
  end.

(** The error a copy ends with; [errors.Cause] looks through the wrapper. *)
Definition err_of (x : res (option copyError)) : res unit :=
  match x with
  | Ok None => Ok tt
  | Ok (Some e) => Err (inner e)
  | Err e => Err e
  | Panic => Panic
  end.

(** [buf.Copy(NewStreamReader(reader), buf.Discard)] *)
Definition drain_frame (fuel : nat) (s : Worker I O W * BufferedReader link)
    : option ((Worker I O W * BufferedReader link) * res unit) :=
  let '(w, br) := s in
  match drain fuel (StreamReader (NewStreamReader br)) with
  | None => None
  | Some (rr, x) => Some ((w, under rr), err_of x)
  end.

(** Tell the peer that the session is over. *)
Definition notify_end (sid : Z) w : Worker I O W * res unit :=
  let '(lw, x) := MuxIO.Close (NewResponseWriter sid TransferTypeStream) (link_out w) in
  ({| store := store w; link_out := lw; spawned := spawned w |}, x).
End Shared.

Module MuxServer.
Section Server.
Context {I O W D : Type} `{Endpoint I} `{Endpoint O} `{MbWriter O} `{MbWriter W}.
(** The dispatcher: the ends of the link to the target, or an error. *)
Context (Dispatch : D -> Destination -> D * res (I * O)).

Notation state := (D * Worker I O W * BufferedReader link)%type.
Notation outcome := (option (state * res unit)).

Definition lift (d : D) (x : option ((Worker I O W * BufferedReader link) * res unit)) : outcome :=
  match x with
  | None => None
  | Some ((w, br), y) => Some ((d, w, br), y)
  end.

Definition handleStatusKeepAlive (fuel : nat) (meta : FrameMetadata) (s : state) : outcome :=
  let '(d, w, br) := s in
  if Bitmask.Has (Option meta) OptionData then lift d (drain_frame fuel (w, br))
  else Some (s, Ok tt).

Definition handleStatusNew (fuel : nat) (meta : FrameMetadata) (s : state) : outcome :=
  let '(d, w, br) := s in
  match Dispatch d (Target meta) with
  | (d, Err e) =>
    let failure := Err (Based "failed to dispatch request." e) in
    if Bitmask.Has (Option meta) OptionData then
      match lift d (drain_frame fuel (w, br)) with
      | None => None
      | Some (s, Panic) => Some (s, Panic)
      | Some (s, _) => Some (s, failure)
      end
    else Some ((d, w, br), failure)
  | (d, Panic) => Some ((d, w, br), Panic)
  | (d, Ok (i, o)) =>
    let s := {| input := i; output := o; ID := SessionID meta;
                transferType := if bool_decide (DNetwork (Target meta) = Network_UDP)
                                then TransferTypePacket else TransferTypeStream |} in
    let '(st, p) := Add s (store w) in
    let w := {| store := st; link_out := link_out w; spawned := spawned w ++ [p] |} in
    if negb (Bitmask.Has (Option meta) OptionData) then Some ((d, w, br), Ok tt) else
    match copy_to fuel p (NewReader (transferType s) br) w with
    | None => None
    | Some (w, rr, Ok None) => Some ((d, w, under rr), Ok tt)
    | Some (w, rr, Panic) => Some ((d, w, under rr), Panic)
    | Some (w, rr, _) =>
      match drain fuel rr with
      | None => None
      | Some (rr, Panic) => Some ((d, w, under rr), Panic)
      | Some (rr, _) => Some ((d, close_at p (with_session interrupt_input p w), under rr), Ok tt)
      end
    end
  end.

(** The reaction to a failed write: the peer is told, the rest of the frame is
    drained and the session closed. *)
Definition abandon (fuel : nat) (sid : Z) (p : ptr) (rr : SessionReader) (w : Worker I O W)
    : option ((Worker I O W * BufferedReader link) * res unit) :=
  match notify_end sid w with
  | (w, Ok _) =>
    match drain fuel rr with
    | None => None
    | Some (rr, Panic) => Some ((w, under rr), Panic)
    | Some (rr, drainErr) =>
      Some ((close_at p (with_session interrupt_input p w), under rr), err_of drainErr)
    end
  | (w, x) => Some ((w, under rr), x)
  end.

Definition handleStatusKeep (fuel : nat) (meta : FrameMetadata) (s : state) : outcome :=
  let '(d, w, br) := s in
  if negb (Bitmask.Has (Option meta) OptionData) then Some (s, Ok tt) else
  match Get (SessionID meta) (manager (store w)) with
  | None =>
    match notify_end (SessionID meta) w with
    | (w, Ok _) => lift d (drain_frame fuel (w, br))
    | (w, x) => Some ((d, w, br), x)
    end
  | Some p =>
    match heap (store w) !! p with
    | None => Some (s, Panic)
    | Some ss =>
      match copy_to fuel p (NewReader (transferType ss) br) w with
      | None => None
      | Some (w, rr, Ok (Some e)) =>
        if IsWriteError e then lift d (abandon fuel (SessionID meta) p rr w)
        else Some ((d, w, under rr), err_of (Ok (Some e)))
      | Some (w, rr, x) => Some ((d, w, under rr), err_of x)
      end
    end
  end.

Definition handleStatusEnd (fuel : nat) (meta : FrameMetadata) (s : state) : outcome :=
  let '(d, w, br) := s in
  let w :=
    match Get (SessionID meta) (manager (store w)) with
    | Some p =>
      let w := if Bitmask.Has (Option meta) OptionError
               then with_session interrupt_output p (with_session interrupt_input p w) else w in
      close_at p w
    | None => w
    end in
  if Bitmask.Has (Option meta) OptionData then lift d (drain_frame fuel (w, br))
  else Some ((d, w, br), Ok tt).

Definition handleFrame (fuel : nat) (s : state) : outcome :=
  let '(d, w, br) := s in
  match Unmarshal (Meta0, br) with
  | ((_, br), Err e) => Some ((d, w, br), Err (Based "failed to read metadata" e))
  | ((_, br), Panic) => Some ((d, w, br), Panic)
  | ((meta, br), Ok _) =>
    let s := (d, w, br) in
    let st := SessionStatus meta in
    let x :=
      if st =? SessionStatusKeepAlive then handleStatusKeepAlive fuel meta s
      else if st =? SessionStatusEnd then handleStatusEnd fuel meta s
      else if st =? SessionStatusNew then handleStatusNew fuel meta s
      else if st =? SessionStatusKeep then handleStatusKeep fuel meta s
      else Some (s, Err (NewError "unknown status: ")) in
    match x with
    | None => None
    | Some (s, Err e) =>
      Some (s, Err (if (st =? SessionStatusKeepAlive) || (st =? SessionStatusEnd) ||
                       (st =? SessionStatusNew) || (st =? SessionStatusKeep)
                    then Based "failed to process data" e else e))
    | Some r => Some r
    end
  end.

(** The loop of [run]; the context is cancelled before frame [rounds].  The
    result says whether the input is interrupted, and the manager is closed in
    every case but a panic. *)
Fixpoint run (fuel rounds : nat) (s : state) : option (state * res bool) :=
  let finish '(d, w, br) := (d, set_store (MuxSession.Close (store w)) w, br) in
  match rounds with
  | 0%nat => Some (finish s, Ok false)
  | S k =>
    match handleFrame fuel s with
    | None => None
    | Some (s, Ok _) => run fuel k s
    | Some (s, Err e) => Some (finish s, Ok (negb (bool_decide (Cause e = EOF))))
    | Some (s, Panic) => Some (s, Panic)
    end
  end.

(** The goroutine [handle] of the session [p]: everything its input has goes to
    the peer, then the end of the session. *)
Definition handle `{MbReader I} (fuel : nat) (p : ptr) (w : Worker I O W) : option (Worker I O W * res unit) :=
  match heap (store w) !! p with
  | None => Some (w, Panic)
  | Some s =>
    match Copy fuel (input s) (NewResponseWriter (ID s) (transferType s), link_out w) with
    | None => None
    | Some (i, (wr, lw), x) =>
      let w := {| store := store w; link_out := lw; spawned := spawned w |} in
      let w := with_session (fun s => {| input := i; output := output s; ID := ID s; transferType := transferType s |}) p w in
      match x with
      | Ok e =>
        let wr := match e with Some _ => failed wr | None => wr end in
        let '(lw, y) := MuxIO.Close wr (link_out w) in
        let w := {| store := store w; link_out := lw; spawned := spawned w |} in
        match y with Ok _ => Some (close_at p w, Ok tt) | _ => Some (w, y) end
      | _ => Some (w, Panic)
      end
    end
  end.
End Server.

Definition NewServerWorker {I O W} (lw : W) : Worker I O W :=
  {| store := NewStore; link_out := lw; spawned := [] |}.

End MuxServer.

(** ** Copying the payload of a frame *)
Lemma read_mb_packet r : read_mb (APacketReader r) = let '(r', x) := read_mb r in (APacketReader r', x).
Proof. reflexivity. Qed.

Lemma copyInternal_stream {W} `{MbWriter W} fuel r (w : W) :
  copyInternal fuel (StreamReader r) w =
  match copyInternal fuel r w with
  | Some (r', w', x) => Some (StreamReader r', w', x)
  | None => None
  end.
Proof.
  revert r w. induction fuel as [|f IH]; intros r w; [done|]. cbn [copyInternal].
  change (read_mb (StreamReader r)) with (let '(r, x) := read_mb r in (StreamReader r, x)).
  destruct (read_mb r) as [r' [[mb e]|e|]]; [|done|done].
  destruct (if negb _ then _ else _) as [w' [[]|e'|]]; [|done|done]. destruct e; [done|]. apply IH.
Qed.

Lemma Copy_stream {W} `{MbWriter W} fuel r (w : W) :
  Copy fuel (StreamReader r) w =
  match Copy fuel r w with
  | Some (r', w', x) => Some (StreamReader r', w', x)
  | None => None
  end.
Proof.
  unfold Copy. rewrite copyInternal_stream. by destruct (copyInternal fuel r w) as [[[r' w'] [e|e|]]|].
Qed.

(** A packet reader delivers the one packet and is at its end. *)
Lemma packet_read br d rest :
  reader_wf br -> reader_content br = put_be 2 (zlen d) ++ d ++ rest -> 0 < zlen d <= 2048 ->
  exists br', read_mb (NewPacketReader br) = ({| preader := br'; eof := true |}, Ok ([push New d], None)) /\
    reader_wf br' /\ reader_content br' = rest.
Proof.
  intros Hwf Hc Hd. unfold read_mb, packet_mb. cbn [NewPacketReader eof preader].
  pose proof (ReadUint16_spec br (zlen d) (d ++ rest) ltac:(lia)) as HR. specialize (HR Hwf Hc).
  destruct HR as (br1 & -> & Hwf1 & _ & Hc1). replace (Buf.Size <? zlen d) with false by (unfold Buf.Size; lia).
  destruct (ReadFullFrom_exact New br1 d rest) as (br2 & -> & Hwf2 & _ & Hc2);
    [apply New_wf|rewrite New_room; lia|done|done|]. by exists br2.
Qed.

Section Payload.
Context {W : Type} `{MbSink W}.

(** What a payload must be to pass through a session of type [t]. *)
Definition payload_fits (t : TransferType) (d : bytes) : Prop :=
  0 < zlen d < 2 ^ 16 /\ (t = TransferTypePacket -> zlen d <= 2048).

Lemma copy_payload fuel t br d rest (w : W) b :
  reader_wf br -> reader_content br = put_be 2 (zlen d) ++ d ++ rest -> payload_fits t d ->
  taken w b -> (S (length d) < fuel)%nat ->
  exists rr w', Copy fuel (NewReader t br) w = Some (rr, w', Ok None) /\
    taken w' (b ++ d) /\ reader_wf (under rr) /\ reader_content (under rr) = rest.
Proof.
  intros Hwf Hc [Hd Hp] Hw Hf. unfold NewReader. case_bool_decide as Ht.
  - rewrite Copy_stream. destruct (Copy_chunk fuel br d rest w b Hwf Hc Hd Hw ltac:(lia)) as (r' & w' & E & Htk & Hr).
    unfold NewStreamReader. rewrite E. by exists (StreamReader r'), w'.
  - assert (zlen d <= 2048) by (apply Hp; by destruct t).
    destruct (packet_read br d rest Hwf Hc ltac:(lia)) as (br' & E & Hwf' & Hc').
    destruct fuel as [|[|f]]; [lia|lia|]. unfold Copy. cbn [copyInternal].
    rewrite read_mb_packet, E.
    assert (Htidy : Forall tidy [push New d]) by (constructor; [apply tidy_push; lia|done]).
    rewrite (tidy_IsEmpty _ Htidy). cbn [bool_decide negb].
    assert (Hmc : mb_content [push New d] = d) by (rewrite mb_content_one, push_content by apply New_wf; done).
    destruct (taken_write w b [push New d] Hw) as (w' & Ew & Hw'); [split; [done|rewrite Hmc; lia]|done|].
    rewrite bool_decide_false by done. cbn [negb]. rewrite Ew. rewrite Hmc in Hw'. cbn.
    exists (APacketReader {| preader := br'; eof := true |}), w'. done.
Qed.

(** A writer that refuses leaves the rest of the frame to be drained. *)
Lemma copy_payload_refused fuel t br d rest (w : W) :
  reader_wf br -> reader_content br = put_be 2 (zlen d) ++ d ++ rest -> payload_fits t d ->
  refuses w -> (S (length d) < fuel)%nat ->
  exists rr w' e, Copy fuel (NewReader t br) w = Some (rr, w', Ok (Some (writeError e))) /\ refuses w' /\
    exists rr', drain fuel rr = Some (rr', Ok None) /\ reader_wf (under rr') /\ reader_content (under rr') = rest.
Proof.
  intros Hwf Hc [Hd Hp] Hw Hf. unfold NewReader, drain. case_bool_decide as Ht.
  - rewrite Copy_stream.
    destruct (Copy_chunk_dead fuel br d rest w Hwf Hc Hd Hw ltac:(lia)) as (r' & w' & e & d' & E & Hw' & Hin & Hle).
    unfold NewStreamReader. rewrite E. exists (StreamReader r'), w', e. split; [done|]. split; [done|].
    destruct (drain_chunk fuel r' d' rest Hin ltac:(lia)) as (r2 & E2 & Hr2).
    rewrite Copy_stream, E2. by exists (StreamReader r2).
  - assert (zlen d <= 2048) by (apply Hp; by destruct t).
    destruct (packet_read br d rest Hwf Hc ltac:(lia)) as (br' & E & Hwf' & Hc').
    destruct fuel as [|f]; [lia|]. unfold Copy at 1. cbn [copyInternal].
    rewrite read_mb_packet, E.
    assert (Htidy : Forall tidy [push New d]) by (constructor; [apply tidy_push; lia|done]).
    rewrite (tidy_IsEmpty _ Htidy), bool_decide_false by done. cbn [negb].
    destruct (refuses_write w [push New d] Hw) as (w' & e & -> & Hw' & He). cbn [inner].
    rewrite bool_decide_false by done.
    exists (APacketReader {| preader := br'; eof := true |}), w', e. split; [done|]. split; [done|].
    exists (APacketReader {| preader := br'; eof := true |}). done.
Qed.
End Payload.

Lemma drain_payload {I O W} fuel br d rest (w : Worker I O W) :
  reader_wf br -> reader_content br = put_be 2 (zlen d) ++ d ++ rest -> 0 < zlen d < 2 ^ 16 ->
  (S (length d) < fuel)%nat ->
  exists br', drain_frame fuel (w, br) = Some ((w, br'), Ok tt) /\ reader_wf br' /\ reader_content br' = rest.
Proof.
  intros Hwf Hc Hd Hf. unfold drain_frame, drain.
  assert (Ht : taken mkDiscard []) by exact Logic.I.
  destruct (copy_payload fuel TransferTypeStream br d rest mkDiscard [] Hwf Hc) as (rr & w' & E & _ & Hr); [by split|exact Ht|done|].
  unfold NewReader in E. rewrite bool_decide_true in E by done. rewrite E. by exists (under rr).
Qed.
