(* ===== verification/MuxDemux.v ===== *)
(** * Package common/mux: what a server worker promises

    [Module MuxSpec] is the abstract mux connection: the log of the sessions the
    peer opened, with what each has been given, and the ids that are live.  The
    theorems show that [handleFrame] and [run] of [MuxServer] implement it, and
    that the streams of several writers, interleaved frame by frame, come apart
    again. *)
From S2P Require Import Prelude GoStd Buf MultiBuf NetAddr AddrParser BufReader MuxFrame MuxSession MuxIO MuxServer.
Import MuxSession Buf MultiBuf NetAddr BufReader BufReader.Chunk MuxFrame MuxIO MuxServer.

Module MuxSpec.

Record asession := mkASession { a_id : Z; a_target : Destination; a_bytes : bytes }.
Record astate := mkAState { a_log : list asession; a_live : gmap Z ptr }.

Definition payload (f : frame) : bytes := default [] (f_data f).
Definition fid (f : frame) : Z := SessionID (f_meta f).
Definition fstatus (f : frame) : Z := SessionStatus (f_meta f).

Definition type_of (t : Destination) : TransferType :=
  if bool_decide (DNetwork t = Network_UDP) then TransferTypePacket else TransferTypeStream.

Definition add_bytes (d : bytes) (l : asession) : asession :=
  {| a_id := a_id l; a_target := a_target l; a_bytes := a_bytes l ++ d |}.

Definition astep (a : astate) (f : frame) : astate :=
  if fstatus f =? SessionStatusNew then
    {| a_log := a_log a ++ [{| a_id := fid f; a_target := Target (f_meta f); a_bytes := payload f |}];
       a_live := <[fid f := length (a_log a)]> (a_live a) |}
  else if fstatus f =? SessionStatusKeep then
    match a_live a !! fid f with
    | Some p => {| a_log := alter (add_bytes (payload f)) p (a_log a); a_live := a_live a |}
    | None => a
    end
  else if fstatus f =? SessionStatusEnd then
    {| a_log := a_log a; a_live := delete (fid f) (a_live a) |}
  else a.

Definition a0 : astate := {| a_log := []; a_live := ∅ |}.

(** The frames a peer may send: well formed, of a known status, and a packet of
    a size the reader accepts. *)
Definition a_type (a : astate) (f : frame) : TransferType :=
  if fstatus f =? SessionStatusNew then type_of (Target (f_meta f)) else
  if fstatus f =? SessionStatusKeep then
    match a_live a !! fid f with
    | Some p => match a_log a !! p with Some l => type_of (a_target l) | None => TransferTypeStream end
    | None => TransferTypeStream
    end
  else TransferTypeStream.

Definition acceptable (a : astate) (f : frame) : Prop :=
  frame_wf f /\ 1 <= fstatus f <= 4 /\ (f_data f <> None -> a_type a f = TransferTypePacket -> zlen (payload f) <= 2048).

Fixpoint all_acceptable (a : astate) (fs : list frame) : Prop :=
  match fs with
  | [] => True
  | f :: fs => acceptable a f /\ all_acceptable (astep a f) fs
  end.

(** What the client of a session's output can rely on: what it received stays
    received when it is closed or interrupted. *)
Class SessionOut (O : Type) `{MbSink O} `{Endpoint O} := {
  received : O -> bytes -> Prop;
  taken_received (o : O) b : taken o b -> received o b;
  close_received (o : O) b : received o b -> received (close_ep o) b;
  interrupt_received (o : O) b : received o b -> received (interrupt_ep o) b;
}.

Section Refines.
Context {I O W : Type} `{Endpoint I} `{SessionOut O} `{MbSink W}.

Definition session_refines (live : gmap Z ptr) (p : ptr) (s : Session I O) (l : asession) : Prop :=
  ID s = a_id l /\ transferType s = type_of (a_target l) /\ received (output s) (a_bytes l) /\
  (live !! a_id l = Some p -> taken (output s) (a_bytes l)).

Record refines (w : Worker I O W) (a : astate) : Prop := {
  r_open : MuxSession.closed (manager (store w)) = false;
  r_map : sessions (manager (store w)) = a_live a;
  r_len : length (heap (store w)) = length (a_log a);
  r_live id p : a_live a !! id = Some p -> exists l, a_log a !! p = Some l /\ a_id l = id;
  r_session p s l : heap (store w) !! p = Some s -> a_log a !! p = Some l -> session_refines (a_live a) p s l;
  r_link : (exists b, taken (link_out w) b) \/ refuses (link_out w);
}.
End Refines.

End MuxSpec.
Import MuxSpec.

Section Refinement.
Context {I O W D : Type} `{Endpoint I} `{SessionOut O} `{MbSink W}.
Implicit Types (w : Worker I O W).

Lemma refines_session w a id p :
  refines w a -> a_live a !! id = Some p ->
  exists s l, heap (store w) !! p = Some s /\ a_log a !! p = Some l /\ ID s = id /\ a_id l = id /\
    transferType s = type_of (a_target l) /\ taken (output s) (a_bytes l).
Proof.
  intros [? ? Hlen Hlive Hs ?] Hp. destruct (Hlive id p Hp) as (l & Hl & <-).
  destruct (lookup_lt_is_Some_2 (heap (store w)) p) as [s Es].
  { rewrite Hlen. by eapply lookup_lt_Some. }
  destruct (Hs p s l Es Hl) as (Hid & Ht & _ & Htk). exists s, l. split_and!; try done. by apply Htk.
Qed.

(** Telling the peer that a session is over never fails. *)
Lemma notify_end_ok w sid :
  is_u16 sid -> (exists b, taken (link_out w) b) \/ refuses (link_out w) ->
  exists lw, notify_end sid w = ({| store := store w; link_out := lw; spawned := spawned w |}, Ok tt) /\
    ((exists b, taken lw b) \/ refuses lw).
Proof.
  intros Hid Hl. unfold notify_end, MuxIO.Close. cbn [NewResponseWriter hasError id].
  set (meta := {| Target := Dest0; SessionID := sid; Option := 0; SessionStatus := SessionStatusEnd |}).
  assert (Hm : meta_wf meta) by (split; [done|by split]). pose proof (meta_bytes_length meta Hm) as Hml.
  rewrite WriteTo_spec by (done || apply New_wf || rewrite New_room; lia).
  destruct Hl as [[b Hb]|Hr].
  - destruct (taken_write (link_out w) b [push New (meta_bytes meta)] Hb) as (lw & -> & Hlw).
    + split; [constructor; [apply tidy_push; lia|done]|]. rewrite mb_content_one, push_content by apply New_wf.
      rewrite New_content, app_nil_l. lia.
    + done.
    + exists lw. split; [done|]. left. by eexists.
  - destruct (refuses_write (link_out w) [push New (meta_bytes meta)] Hr) as (lw & e & -> & Hlw & _).
    exists lw. split; [done|]. by right.
Qed.

Lemma refines_set_link w a lw :
  refines w a -> ((exists b, taken lw b) \/ refuses lw) ->
  refines {| store := store w; link_out := lw; spawned := spawned w |} a.
Proof. intros [? ? ? ? ? ?] Hl. by split. Qed.

(** The session [p] is given [d]. *)
Lemma refines_keep w a id p d o' s :
  refines w a -> a_live a !! id = Some p -> heap (store w) !! p = Some s ->
  (forall l, a_log a !! p = Some l -> taken o' (a_bytes l ++ d)) ->
  refines (with_session (set_output o') p w) {| a_log := alter (add_bytes d) p (a_log a); a_live := a_live a |}.
Proof.
  intros Hr Hp Hs Ho. pose proof Hr as [Hop Hmap Hlen Hlive Hses Hlink]. split; cbn [with_session set_store store manager heap a_live a_log link_out]; [done|done| | | |done].
  - by rewrite !length_alter.
  - intros id' q Hq. destruct (Hlive id' q Hq) as (l & Hl & Hid). destruct (decide (p = q)) as [->|Hne].
    + rewrite list_lookup_alter_eq, Hl. by eexists.
    + rewrite list_lookup_alter_ne by done. by exists l.
  - intros q s' l'. destruct (decide (p = q)) as [<-|Hne].
    + rewrite !list_lookup_alter_eq, Hs. destruct (a_log a !! p) as [l|] eqn:El; [|done].
      intros [= <-] [= <-]. destruct (Hses p s l Hs El) as (Hid & Ht & _ & _).
      specialize (Ho l eq_refl). unfold session_refines. cbn. split_and!; try done. by apply taken_received.
    + rewrite !list_lookup_alter_ne by done. intros Hs' Hl'. by apply (Hses q).
Qed.

(** The session [p] is closed and leaves the map. *)
Lemma refines_end w a id p (f : Session I O -> Session I O) :
  refines w a -> a_live a !! id = Some p ->
  (forall s, ID (f s) = ID s /\ transferType (f s) = transferType s /\
     forall b, received (output s) b -> received (output (f s)) b) ->
  refines (close_at p (with_session f p w)) {| a_log := a_log a; a_live := delete id (a_live a) |}.
Proof.
  intros Hr Hp Hf. pose proof Hr as [Hop Hmap Hlen Hlive Hses Hlink].
  destruct (refines_session w a id p Hr Hp) as (s & l & Hs & Hl & Hids & Hidl & _).
  unfold close_at, Session_Close. cbn [with_session set_store store manager heap].
  rewrite list_lookup_alter_eq, Hs. cbn [fmap option_fmap option_map].
  assert (HR : Remove (ID (f s)) (manager (store w)) =
    {| sessions := delete id (sessions (manager (store w))); count := count (manager (store w)); MuxSession.closed := false |}).
  { unfold Remove. rewrite Hop. destruct (Hf s) as (-> & _). by rewrite Hids. }
  rewrite HR. split; cbn [set_store store manager heap a_live a_log link_out sessions MuxSession.closed]; [done|by rewrite Hmap| | | |done].
  - by rewrite !length_alter.
  - intros id' q [_ Hq]%lookup_delete_Some. by apply Hlive.
  - intros q s' l'. destruct (decide (p = q)) as [<-|Hne].
    + rewrite !list_lookup_alter_eq, Hs. intros [= <-] Hl'. assert (l' = l) as -> by congruence.
      destruct (Hses p s l Hs Hl) as (Hid & Ht & Hrec & _). destruct (Hf s) as (Hf1 & Hf2 & Hf3).
      unfold session_refines. cbn [close_session ID transferType output]. split; [congruence|]. split; [congruence|]. split.
      * by apply close_received, Hf3.
      * intros Hlv. by rewrite Hidl, lookup_delete_eq in Hlv.
    + rewrite !list_lookup_alter_ne by done. intros Hs' Hl'. destruct (Hses q s' l' Hs' Hl') as (Hid & Ht & Hrec & Htk).
      split; [done|]. split; [done|]. split; [done|]. intros [_ Hlv]%lookup_delete_Some. by apply Htk.
Qed.

(** A session is opened. *)
Lemma refines_new w a id t i o d :
  refines w a -> taken o d ->
  let s := {| input := i; output := o; ID := id; transferType := type_of t |} in
  refines {| store := (Add s (store w)).1; link_out := link_out w; spawned := spawned w ++ [(Add s (store w)).2] |}
    {| a_log := a_log a ++ [{| a_id := id; a_target := t; a_bytes := d |}];
       a_live := <[id := length (a_log a)]> (a_live a) |}.
Proof.
  intros Hr Ho s. pose proof Hr as [Hop Hmap Hlen Hlive Hses Hlink]. unfold Add. rewrite Hop.
  split; cbn [fst snd store manager heap a_live a_log link_out sessions MuxSession.closed ID]; [done|by rewrite Hmap, Hlen| | | |done].
  - rewrite !length_app, Hlen. done.
  - intros id' q. destruct (decide (id = id')) as [<-|Hne].
    + rewrite lookup_insert_eq. intros [= <-]. eexists. by rewrite list_lookup_middle.
    + rewrite lookup_insert_ne by done. intros Hq. destruct (Hlive id' q Hq) as (l & Hl & Hid).
      exists l. split; [|done]. by apply lookup_app_l_Some.
  - intros q s' l'. destruct (decide (q < length (a_log a))%nat) as [Hlt|Hge].
    + rewrite !lookup_app_l by lia. intros Hs' Hl'. destruct (Hses q s' l' Hs' Hl') as (Hid & Ht & Hrec & Htk).
      split; [done|]. split; [done|]. split; [done|]. intros Hlv. apply Htk. destruct (decide (a_id l' = id)) as [E|Hne].
      * rewrite E, lookup_insert_eq in Hlv. injection Hlv as Hlv. lia.
      * by rewrite lookup_insert_ne in Hlv.
    + intros Hs' Hl'. assert (q = length (a_log a)) as ->.
      { apply lookup_lt_Some in Hl'. rewrite length_app in Hl'. cbn in Hl'. lia. }
      rewrite list_lookup_middle in Hl' by done. rewrite list_lookup_middle in Hs' by done.
      injection Hs' as <-. injection Hl' as <-. split; [done|]. split; [done|].
      split; [by apply taken_received|done].
Qed.
End Refinement.

(** ** The handlers implement the abstract steps *)
Section Handlers.
Context {I O W D : Type} `{Endpoint I} `{SessionOut O} `{MbSink W}.
Context (Dispatch : D -> Destination -> D * res (I * O)).

(** A dispatcher that accepts every destination with a fresh link. *)
Definition accepting : Prop :=
  forall d t, exists d' i o, Dispatch d t = (d', Ok (i, o)) /\ taken o [].

Definition body (f : frame) : bytes :=
  match f_data f with Some d => put_be 2 (zlen d) ++ d | None => [] end.

(** What a handler does with a frame whose header has been read. *)
Definition implements (fuel : nat) (f : frame) (a' : astate)
    (x : option ((D * Worker I O W * BufferedReader link) * res unit)) (rest : bytes) : Prop :=
  exists d' w' br', x = Some ((d', w', br'), Ok tt) /\ refines w' a' /\
    reader_wf br' /\ reader_content br' = rest.

Lemma frame_has f m :
  frame_wf f -> Option m = Option (f_meta f) ->
  Bitmask.Has (Option m) OptionData = bool_decide (f_data f <> None).
Proof.
  intros [_ Hf] ->. destruct (f_data f) as [d|]; [destruct Hf as [-> _]|rewrite Hf].
  - by rewrite bool_decide_true.
  - rewrite bool_decide_false; [done|]. by intros ?.
Qed.

Lemma drain_implements fuel f m a d w br rest :
  frame_wf f -> Option m = Option (f_meta f) -> (S (length (payload f)) < fuel)%nat ->
  refines w a -> reader_wf br -> reader_content br = body f ++ rest ->
  implements fuel f a
    (if Bitmask.Has (Option m) OptionData then lift d (drain_frame fuel (w, br)) else Some ((d, w, br), Ok tt)) rest.
Proof.
  intros Hf Hm Hfuel Hr Hbr Hc. rewrite (frame_has f m Hf Hm). destruct Hf as [_ Hd].
  unfold body, payload in *. destruct (f_data f) as [dd|].
  - rewrite bool_decide_true by done. destruct Hd as [_ Hd]. rewrite <- app_assoc in Hc.
    destruct (drain_payload fuel br dd rest w Hbr Hc Hd Hfuel) as (br' & -> & Hbr' & Hc').
    by exists d, w, br'.
  - rewrite bool_decide_false by (by intros ?). by exists d, w, br.
Qed.

Lemma New_implements fuel f a d w br rest :
  accepting -> frame_wf f -> fstatus f = SessionStatusNew ->
  (type_of (Target (f_meta f)) = TransferTypePacket -> zlen (payload f) <= 2048) ->
  (S (length (payload f)) < fuel)%nat ->
  refines w a -> reader_wf br -> reader_content br = body f ++ rest ->
  implements fuel f (astep a f) (handleStatusNew Dispatch fuel (f_meta f) (d, w, br)) rest.
Proof.
  intros Hacc Hf Hst Hpk Hfuel Hr Hbr Hc. unfold handleStatusNew, astep. rewrite Hst.
  change (SessionStatusNew =? SessionStatusNew) with true. cbn iota.
  destruct (Hacc d (Target (f_meta f))) as (d' & i & o & -> & Ho).
  change (if bool_decide (DNetwork (Target (f_meta f)) = Network_UDP) then TransferTypePacket else TransferTypeStream)
    with (type_of (Target (f_meta f))).
  pose proof (refines_new w a (fid f) (Target (f_meta f)) i o [] Hr Ho) as Hnew. cbv zeta in Hnew.
  change (SessionID (f_meta f)) with (fid f).
  set (s := {| input := i; output := o; ID := fid f; transferType := type_of (Target (f_meta f)) |}) in *.
  assert (HA : (Add s (store w)).2 = length (a_log a)).
  { unfold Add. rewrite (r_open _ _ Hr). cbn. apply (r_len _ _ Hr). }
  assert (HS : heap (Add s (store w)).1 !! length (a_log a) = Some s).
  { unfold Add. rewrite (r_open _ _ Hr). cbn. by rewrite list_lookup_middle by (symmetry; apply (r_len _ _ Hr)). }
  destruct (Add s (store w)) as [st p] eqn:EA. cbn [fst snd] in *. subst p.
  set (w1 := {| store := st; link_out := link_out w; spawned := spawned w ++ [length (a_log a)] |}) in *.
  rewrite (frame_has f (f_meta f) Hf eq_refl). destruct Hf as [_ Hd]. unfold body, payload in *.
  destruct (f_data f) as [dd|] eqn:Ed; cbn [default].
  - rewrite bool_decide_true by done. cbn [negb]. destruct Hd as [_ Hd]. rewrite <- app_assoc in Hc.
    unfold copy_to. cbn [store w1 transferType s]. rewrite HS. cbn [output s].
    destruct (copy_payload fuel (type_of (Target (f_meta f))) br dd rest o [] Hbr Hc) as (rr & o' & -> & Ho' & Hbr' & Hc');
      [by split|done|done|].
    exists d', (with_session (set_output o') (length (a_log a)) w1), (under rr). split; [done|]. split; [|done].
    replace (a_log a ++ [_]) with (alter (add_bytes dd) (length (a_log a)) (a_log a ++ [{| a_id := fid f; a_target := Target (f_meta f); a_bytes := [] |}])).
    + refine (refines_keep w1 _ (fid f) (length (a_log a)) dd o' s Hnew (lookup_insert_eq _ _ _) HS _).
      intros l Hl. cbn [a_log] in Hl. rewrite list_lookup_middle in Hl by done. by injection Hl as <-.
    + rewrite alter_app_r_alt, Nat.sub_diag by lia. done.
  - rewrite bool_decide_false by (by intros ?). cbn [negb]. by exists d', w1, br.
Qed.

Lemma Keep_implements fuel f m a d w br rest :
  frame_wf f -> Option m = Option (f_meta f) -> SessionID m = fid f -> fstatus f = SessionStatusKeep ->
  (a_type a f = TransferTypePacket -> zlen (payload f) <= 2048) ->
  (S (length (payload f)) < fuel)%nat ->
  refines w a -> reader_wf br -> reader_content br = body f ++ rest ->
  implements fuel f (astep a f) (handleStatusKeep fuel m (d, w, br)) rest.
Proof.
  intros Hf Hm Hid Hst Hpk Hfuel Hr Hbr Hc. pose proof Hf as [Hmw Hd]. unfold handleStatusKeep, astep, a_type in *.
  rewrite Hst in *. change (SessionStatusKeep =? SessionStatusNew) with false in *. change (SessionStatusKeep =? SessionStatusKeep) with true in *.
  rewrite Hid. unfold Get. rewrite (r_open _ _ Hr), (r_map _ _ Hr).
  pose proof (drain_implements fuel f m a d) as Hdrain. rewrite (frame_has f m Hf Hm) in *.
  destruct (a_live a !! fid f) as [p|] eqn:Ep.
  - destruct (refines_session w a (fid f) p Hr Ep) as (s & l & Hs & Hl & Hids & Hidl & Ht & Htk).
    rewrite Hl in Hpk. unfold body, payload in *. destruct (f_data f) as [dd|] eqn:Ed; cbn [default] in *.
    + rewrite bool_decide_true by done. cbn [negb]. destruct Hd as [_ Hd]. rewrite <- app_assoc in Hc.
      rewrite Hs. unfold copy_to. rewrite Hs, Ht.
      destruct (copy_payload fuel (type_of (a_target l)) br dd rest (output s) (a_bytes l) Hbr Hc) as (rr & o' & -> & Ho' & Hbr' & Hc');
        [by split|done|done|].
      exists d, (with_session (set_output o') p w), (under rr). split; [done|]. split; [|done].
      eapply refines_keep; [done|done|done|]. intros l' Hl'. assert (l' = l) as -> by congruence. done.
    + rewrite bool_decide_false by (by intros ?). cbn [negb]. exists d, w, br. split; [done|]. split; [|done].
      replace (alter (add_bytes []) p (a_log a)) with (a_log a); [by destruct a|].
      apply list_eq. intros q. destruct (decide (p = q)) as [<-|Hne].
      * rewrite list_lookup_alter_eq, Hl. destruct l. cbn. unfold add_bytes. cbn. by rewrite app_nil_r.
      * by rewrite list_lookup_alter_ne.
  - destruct (bool_decide (f_data f <> None)) eqn:Eb; cbn [negb].
    + destruct (notify_end_ok w (fid f)) as (lw & -> & Hlw); [apply Hmw|apply (r_link _ _ Hr)|].
      apply Hdrain; [done|done|done|by apply refines_set_link|done|done].
    + exists d, w, br. unfold body in Hc. apply bool_decide_eq_false in Eb. destruct (f_data f); [by destruct Eb|]. done.
Qed.

Lemma End_implements fuel f m a d w br rest :
  frame_wf f -> Option m = Option (f_meta f) -> SessionID m = fid f -> fstatus f = SessionStatusEnd ->
  (S (length (payload f)) < fuel)%nat ->
  refines w a -> reader_wf br -> reader_content br = body f ++ rest ->
  implements fuel f (astep a f) (handleStatusEnd fuel m (d, w, br)) rest.
Proof.
  intros Hf Hm Hid Hst Hfuel Hr Hbr Hc. unfold handleStatusEnd, astep. rewrite Hst.
  change (SessionStatusEnd =? SessionStatusNew) with false. change (SessionStatusEnd =? SessionStatusKeep) with false.
  change (SessionStatusEnd =? SessionStatusEnd) with true. apply drain_implements; [done|done|done| |done|done].
  rewrite Hid. unfold Get. rewrite (r_open _ _ Hr), (r_map _ _ Hr). destruct (a_live a !! fid f) as [p|] eqn:Ep.
  - destruct (Bitmask.Has _ _).
    + pose proof (refines_end w a (fid f) p (fun s => interrupt_output (interrupt_input s)) Hr Ep) as HE.
      assert (Hcomp : with_session interrupt_output p (with_session interrupt_input p w) =
        with_session (fun s => interrupt_output (interrupt_input s)) p w).
      { unfold with_session, set_store. cbn. f_equal. f_equal. by rewrite list_alter_alter_eq. }
      rewrite Hcomp. apply HE. intros s. split; [done|]. split; [done|]. intros b. apply interrupt_received.
    + pose proof (refines_end w a (fid f) p (fun s => s) Hr Ep) as HE.
      assert (Hid0 : with_session (fun s => s) p w = w).
      { unfold with_session, set_store. destruct w as [[mg hp] lo sp]. cbn. do 2 f_equal.
        apply list_eq. intros q. destruct (decide (p = q)) as [<-|]; [|by rewrite list_lookup_alter_ne].
        rewrite list_lookup_alter_eq. by destruct (hp !! p). }
      rewrite Hid0 in HE. apply HE. by intros s.
  - rewrite delete_id by done. by destruct a.
Qed.
End Handlers.

(** ** Histories of frames *)
Section Runs.
Context {I O W D : Type} `{Endpoint I} `{SessionOut O} `{MbSink W}.
Context (Dispatch : D -> Destination -> D * res (I * O)).

Lemma merge_facts f :
  SessionID (merge Meta0 f) = SessionID f /\ Option (merge Meta0 f) = Option f /\
  SessionStatus (merge Meta0 f) = SessionStatus f /\ (SessionStatus f = SessionStatusNew -> merge Meta0 f = f).
Proof. unfold merge. destruct (_ =? _) eqn:E; repeat split; try done. intros Hx. by rewrite Hx in E. Qed.

Lemma frame_step fuel f a d w br rest :
  accepting Dispatch -> acceptable a f -> (S (length (payload f)) < fuel)%nat ->
  refines w a -> reader_wf br -> reader_content br = frame_bytes f ++ rest ->
  implements fuel f (astep a f) (handleFrame Dispatch fuel (d, w, br)) rest.
Proof.
  intros Hacc (Hf & Hst & Hpk) Hfuel Hr Hbr Hc. unfold handleFrame.
  change (frame_bytes f) with (meta_bytes (f_meta f) ++ body f) in Hc. rewrite <- app_assoc in Hc.
  pose proof (Unmarshal_spec Meta0 (f_meta f) br (body f ++ rest) (proj1 Hf)) as HU. specialize (HU Hbr Hc).
  destruct HU as (br1 & -> & Hbr1 & _ & Hc1).
  change (rd_wf br1) with (reader_wf br1) in Hbr1. change (rd_content br1) with (reader_content br1) in Hc1.
  destruct (merge_facts (f_meta f)) as (Hid & Hop & Hs & Hnew). rewrite Hs. change (SessionStatus (f_meta f)) with (fstatus f) in *.
  assert (Himp : forall x (g : D * Worker I O W * BufferedReader link -> error -> error),
    implements fuel f (astep a f) x rest ->
    implements fuel f (astep a f)
      (match x with None => None | Some (s, Err e) => Some (s, Err (g s e)) | Some r => Some r end) rest).
  { intros x g (d' & w' & br' & -> & Hx). by exists d', w', br'. }
  assert (Hpk' : a_type a f = TransferTypePacket -> zlen (payload f) <= 2048).
  { intros Ht. unfold payload in *. destruct (f_data f); [by apply Hpk|]. done. }
  apply (Himp _ (fun _ e => _)).
  assert (Hcase : fstatus f = 1 \/ fstatus f = 2 \/ fstatus f = 3 \/ fstatus f = 4) by lia.
  destruct Hcase as [E|[E|[E|E]]]; rewrite E; cbn [Z.eqb Pos.eqb SessionStatusKeepAlive SessionStatusEnd SessionStatusNew SessionStatusKeep].
  - rewrite (Hnew E). apply New_implements; try done. unfold a_type in Hpk'. by rewrite E in Hpk'.
  - by apply Keep_implements.
  - by apply End_implements.
  - unfold handleStatusKeepAlive. replace (astep a f) with a by (unfold astep; by rewrite E). by apply drain_implements.
Qed.

Lemma run_frames fuel fs a d w br rest :
  accepting Dispatch -> all_acceptable a fs -> Forall (fun f => (S (length (payload f)) < fuel)%nat) fs ->
  refines w a -> reader_wf br -> reader_content br = concat (map frame_bytes fs) ++ rest ->
  exists d' w' br',
    (forall k, run Dispatch fuel (length fs + k) (d, w, br) = run Dispatch fuel k (d', w', br')) /\
    refines w' (fold_left astep fs a) /\ reader_wf br' /\ reader_content br' = rest.
Proof.
  intros Hacc. revert a d w br. induction fs as [|f fs IH]; intros a d w br Ha Hf Hr Hbr Hc.
  - by exists d, w, br.
  - destruct Ha as [Ha Hall]. apply Forall_cons in Hf as [Hf0 Hf]. cbn [map concat] in Hc. rewrite <- app_assoc in Hc.
    destruct (frame_step fuel f a d w br _ Hacc Ha Hf0 Hr Hbr Hc) as (d1 & w1 & br1 & E & Hr1 & Hbr1 & Hc1).
    destruct (IH (astep a f) d1 w1 br1 Hall Hf Hr1 Hbr1 Hc1) as (d' & w' & br' & E' & H').
    exists d', w', br'. split; [|done]. intros k. cbn [length Nat.add run]. by rewrite E.
Qed.
End Runs.

(** ** What the abstract connection does with interleaved streams *)
Definition a_ok (a : astate) : Prop :=
  forall id p, a_live a !! id = Some p -> exists l, a_log a !! p = Some l /\ a_id l = id.

(** The live session of an id. *)
Definition proj (i : Z) (a : astate) : option asession := a_live a !! i ≫= fun p => a_log a !! p.

Lemma astep_ok a f : a_ok a -> a_ok (astep a f).
Proof.
  intros Ha. unfold astep. destruct (_ =? SessionStatusNew); [|destruct (_ =? SessionStatusKeep); [|destruct (_ =? SessionStatusEnd)]].
  - intros id p. cbn [a_live a_log]. destruct (decide (fid f = id)) as [<-|Hne].
    + rewrite lookup_insert_eq. intros [= <-]. rewrite list_lookup_middle by done. by eexists.
    + rewrite lookup_insert_ne by done. intros (l & Hl & Hid)%Ha. exists l. split; [|done]. by apply lookup_app_l_Some.
  - destruct (a_live a !! fid f) as [p|]; [|done]. intros id q Hq. destruct (Ha id q Hq) as (l & Hl & Hid).
    cbn [a_log]. destruct (decide (p = q)) as [->|Hne].
    + rewrite list_lookup_alter_eq, Hl. by eexists.
    + rewrite list_lookup_alter_ne by done. by exists l.
  - intros id p. cbn [a_live a_log]. intros [_ Hp]%lookup_delete_Some. by apply Ha.
  - done.
Qed.

Lemma proj_other i a f : a_ok a -> fid f <> i -> proj i (astep a f) = proj i a.
Proof.
  intros Ha Hne. unfold proj, astep. destruct (_ =? SessionStatusNew); [|destruct (_ =? SessionStatusKeep); [|destruct (_ =? SessionStatusEnd)]].
  - cbn [a_live a_log]. rewrite lookup_insert_ne by done. destruct (a_live a !! i) as [p|] eqn:Ep; [|done]. cbn [mbind option_bind].
    destruct (Ha i p Ep) as (l & Hl & _). rewrite Hl. by apply lookup_app_l_Some.
  - destruct (a_live a !! fid f) as [p|] eqn:Ep; [|done]. cbn [a_live a_log]. destruct (a_live a !! i) as [q|] eqn:Eq; [|done].
    cbn [mbind option_bind]. rewrite list_lookup_alter_ne; [done|]. intros <-.
    destruct (Ha i p Eq) as (l & Hl & Hid). destruct (Ha (fid f) p Ep) as (l' & Hl' & Hid'). congruence.
  - cbn [a_live a_log]. by rewrite lookup_delete_ne by done.
  - done.
Qed.

Lemma proj_new a f :
  fstatus f = SessionStatusNew ->
  proj (fid f) (astep a f) = Some {| a_id := fid f; a_target := Target (f_meta f); a_bytes := payload f |}.
Proof.
  intros E. unfold proj, astep. rewrite E. change (SessionStatusNew =? SessionStatusNew) with true. cbn [a_live a_log].
  rewrite lookup_insert_eq. cbn [mbind option_bind]. by apply list_lookup_middle.
Qed.

Lemma proj_keep a f l :
  fstatus f = SessionStatusKeep -> proj (fid f) a = Some l -> proj (fid f) (astep a f) = Some (add_bytes (payload f) l).
Proof.
  intros E. unfold proj, astep. rewrite E. change (SessionStatusKeep =? SessionStatusNew) with false.
  change (SessionStatusKeep =? SessionStatusKeep) with true. destruct (a_live a !! fid f) as [p|] eqn:Ep; [|done].
  cbn [mbind option_bind a_live a_log]. rewrite Ep. cbn [mbind option_bind]. intros Hl. by rewrite list_lookup_alter_eq, Hl.
Qed.

Lemma data_frames_fid wr ds : Forall (fun f => fid f = id wr) (data_frames wr ds).
Proof.
  revert wr. induction ds as [|d ds IH]; intros wr; cbn [data_frames]; constructor; [|apply (IH (followed wr))].
  unfold next_frame, getNextFrameMeta. by destruct (followup wr).
Qed.

Lemma data_frames_app wr ds1 ds2 :
  ds1 <> [] -> data_frames wr (ds1 ++ ds2) = data_frames wr ds1 ++ data_frames (followed wr) ds2.
Proof.
  assert (Hf : forall l, data_frames (followed wr) (l ++ ds2) = data_frames (followed wr) l ++ data_frames (followed wr) ds2).
  { induction l as [|d l IH]; [done|]. cbn [data_frames app]. f_equal. exact IH. }
  destruct ds1 as [|d ds1]; [done|]. intros _. cbn [data_frames app]. by rewrite Hf.
Qed.

Lemma fold_keeps i wr fs ds a l :
  id wr = i -> filter (fun f => fid f = i) fs = data_frames (followed wr) ds ->
  a_ok a -> proj i a = Some l -> proj i (fold_left astep fs a) = Some (add_bytes (concat ds) l).
Proof.
  intros Hid. revert ds a l. induction fs as [|f fs IH]; intros ds a l Hfs Ha Hl.
  - destruct ds; [|done]. destruct l. unfold add_bytes. cbn. by rewrite app_nil_r.
  - cbn [fold_left]. rewrite filter_cons in Hfs. case_decide as Hf.
    + destruct ds as [|d ds]; [done|]. cbn [data_frames] in Hfs. injection Hfs as Hf0 Hfs.
      rewrite (IH ds (astep a f) (add_bytes d l) Hfs (astep_ok a f Ha)).
      * unfold add_bytes. cbn. by rewrite <- app_assoc.
      * subst f. rewrite <- Hf in Hl |- *. by apply (proj_keep a (next_frame (followed wr) (Some d))).
    + apply IH; [done|by apply astep_ok|]. by rewrite proj_other.
Qed.

(** The stream of the writer [wr] comes out of any interleaving with frames of
    other ids. *)
Lemma fold_stream i wr fs d ds a :
  id wr = i -> followup wr = false -> filter (fun f => fid f = i) fs = data_frames wr (d :: ds) ->
  a_ok a -> proj i (fold_left astep fs a) = Some {| a_id := i; a_target := dest wr; a_bytes := concat (d :: ds) |}.
Proof.
  intros Hid Hfu. revert a. induction fs as [|f fs IH]; intros a Hfs Ha; [done|].
  cbn [fold_left]. rewrite filter_cons in Hfs. case_decide as Hf.
  - cbn [data_frames] in Hfs. injection Hfs as Hf0 Hfs.
    assert (Hn : proj i (astep a f) = Some {| a_id := i; a_target := dest wr; a_bytes := d |}).
    { rewrite <- Hf. rewrite (proj_new a f); subst f; unfold fstatus, next_frame, getNextFrameMeta; rewrite Hfu; reflexivity. }
    rewrite (fold_keeps i wr fs ds (astep a f) _ Hid Hfs (astep_ok a f Ha) Hn). done.
  - apply IH; [done|by apply astep_ok].
Qed.

(** ** Senders that share a link *)
Section Senders.
Context {W : Type} `{MbSink W} (dests : Z -> Destination).

(** The writers write in the order of the schedule, one MultiBuffer at a time. *)
Fixpoint send_all (sched : list (Z * MultiBuffer)) (ws : Z -> Writer) (w : W)
    : option (((Z -> Writer) * W) * res unit) :=
  match sched with
  | [] => Some ((ws, w), Ok tt)
  | (i, mb) :: sched =>
    match WriteMultiBuffer mb (ws i, w) with
    | None => None
    | Some ((wr, w), Ok _) => send_all sched (fun j => if decide (j = i) then wr else ws j) w
    | Some ((wr, w), x) => Some ((fun j => if decide (j = i) then wr else ws j, w), x)
    end
  end.

Definition writers0 (i : Z) : Writer := NewWriter i (dests i) (type_of (dests i)).

Definition sent_by (i : Z) (sched : list (Z * MultiBuffer)) : bytes :=
  concat (map (fun x => mb_content x.2) (filter (fun x => x.1 = i) sched)).

Definition entry_ok (x : Z * MultiBuffer) : Prop :=
  is_u16 x.1 /\ target_wf (dests x.1) /\ tidy_mb x.2 /\ x.2 <> [].

(** A frame one of the writers makes. *)
Definition from_writer (f : frame) : Prop :=
  frame_wf f /\ (fstatus f = SessionStatusNew /\ Target (f_meta f) = dests (fid f) \/ fstatus f = SessionStatusKeep) /\
  (type_of (dests (fid f)) = TransferTypePacket -> zlen (payload f) <= 2048).

Definition agree (a : astate) : Prop :=
  forall i l, proj i a = Some l -> a_target l = dests i.

Lemma agree_step a f : a_ok a -> from_writer f -> agree a -> agree (astep a f).
Proof.
  intros Ha (_ & Hst & _) Hag i l. destruct (decide (fid f = i)) as [<-|Hne]; [|rewrite proj_other by done; apply Hag].
  destruct Hst as [[Hst Ht]|Hst].
  - rewrite proj_new by done. by intros [= <-].
  - destruct (proj (fid f) a) as [l'|] eqn:E.
    + rewrite (proj_keep a f l' Hst E). intros [= <-]. by apply (Hag _ l').
    + intros Hl. exfalso. unfold proj, astep in *. rewrite Hst in Hl. cbn in Hl.
      destruct (a_live a !! fid f) as [p|] eqn:Ep; [|by rewrite Ep in Hl].
      destruct (Ha _ _ Ep) as (l' & Hl' & _). cbn in E. congruence.
Qed.

Lemma from_writers_acceptable fs a :
  a_ok a -> agree a -> Forall from_writer fs -> all_acceptable a fs.
Proof.
  intros Ha Hag Hfs. revert a Ha Hag. induction Hfs as [|f fs Hf Hfs IH]; intros a Ha Hag; [done|].
  cbn [all_acceptable]. split; [|apply IH; [by apply astep_ok|by apply agree_step]].
  destruct Hf as (Hwf & Hst & Hpk). split; [done|]. split.
  { unfold SessionStatusNew, SessionStatusKeep in Hst. lia. }
  intros _. unfold a_type. destruct Hst as [[-> Ht]| ->]; cbn [Z.eqb Pos.eqb SessionStatusNew SessionStatusKeep].
  - by rewrite Ht.
  - destruct (a_live a !! fid f) as [p|] eqn:Ep; [|done]. destruct (a_log a !! p) as [l|] eqn:El; [|done].
    rewrite (Hag (fid f) l); [done|]. unfold proj. by rewrite Ep.
Qed.

Lemma data_frames_from wr ds :
  writer_wf wr -> dest wr = dests (id wr) -> Forall (fun d => 0 < zlen d < 2 ^ 16) ds ->
  (type_of (dests (id wr)) = TransferTypePacket -> Forall (fun d => zlen d <= 2048) ds) ->
  Forall from_writer (data_frames wr ds).
Proof.
  revert wr. induction ds as [|d ds IH]; intros wr Hwf Hd Hds Hpk; cbn [data_frames]; constructor.
  - apply Forall_cons in Hds as [Hd0 Hds]. split; [apply next_frame_wf; [done|by intros x [= <-]]|].
    unfold fstatus, fid, payload, next_frame, getNextFrameMeta. destruct (followup wr); cbn; (split; [eauto|]);
      intros Ht; by apply Hpk, Forall_cons in Ht as [? _].
  - apply Forall_cons in Hds as [Hd0 Hds]. apply IH; [by apply followed_wf|done|done|].
    intros Ht. by apply Hpk, Forall_cons in Ht as [_ ?].
Qed.

Definition writers_ok (ws : Z -> Writer) : Prop :=
  forall i, id (ws i) = i /\ dest (ws i) = dests i /\ wtype (ws i) = type_of (dests i).

(** What reaches the link: frames of the writers, the stream of each in order. *)
Lemma send_all_spec sched ws w b :
  Forall entry_ok sched -> writers_ok ws -> taken w b ->
  exists ws' w' fs, send_all sched ws w = Some ((ws', w'), Ok tt) /\
    taken w' (b ++ concat (map frame_bytes fs)) /\ Forall from_writer fs /\
    forall i, exists ds, filter (fun f => fid f = i) fs = data_frames (ws i) ds /\ concat ds = sent_by i sched.
Proof.
  intros Hs. revert ws w b. induction Hs as [|[i mb] sched (Hi & Ht & Hmb & Hne) Hs IH]; intros ws w b Hws Hw.
  - exists ws, w, []. rewrite app_nil_r. split; [done|]. split; [done|]. split; [done|]. intros i. by exists [].
  - cbn [send_all fst snd] in *. destruct (Hws i) as (Hid & Hdest & Hty).
    assert (Hwf : writer_wf (ws i)) by (split; [by rewrite Hid|by rewrite Hdest]).
    pose proof Hmb as [Hmt Hml]. unfold WriteMultiBuffer. rewrite (tidy_IsEmpty mb Hmt), bool_decide_false by done.
    destruct (WriteLoop_spec (S (length mb + length (mb_content mb))) mb (ws i) w b Hwf Hmt Hml Hw ltac:(lia))
      as (ds & w1 & wr' & -> & Hds & Hfd & Htk & Hpk & ->). rewrite bool_decide_false by done.
    set (ws1 := fun j => if decide (j = i) then followed (ws i) else ws j).
    assert (Hws1 : writers_ok ws1).
    { intros j. unfold ws1. case_decide as Hj; [subst j; done|apply Hws]. }
    destruct (IH ws1 w1 _ Hws1 Htk) as (ws' & w' & fs & E & Htk' & Hfw & Hproj).
    exists ws', w', (data_frames (ws i) ds ++ fs). split; [exact E|].
    split; [by rewrite map_app, concat_app, app_assoc|]. split.
    { apply Forall_app. split; [|done]. apply data_frames_from; [done|by rewrite Hid|done|].
      intros Hp. rewrite Hid in Hp. rewrite Hpk by congruence. apply Forall_map. eapply Forall_impl; [exact Hmt|].
      intros x [_ [_ Hx]]. exact Hx. }
    intros j. destruct (Hproj j) as (ds' & Hf' & Hc'). rewrite filter_app. unfold sent_by in *. rewrite filter_cons. cbn [fst].
    destruct (decide (j = i)) as [->|Hji].
    + assert (Hn : ds <> []).
      { intros ->. cbn in Hds. pose proof (tidy_nonempty mb Hmt Hne) as Hpos. rewrite <- Hds in Hpos. done. }
      exists (ds ++ ds'). rewrite data_frames_app by done. split.
      * f_equal; [|unfold ws1 in Hf'; by rewrite decide_True in Hf'].
        apply filter_all. eapply Forall_impl; [apply data_frames_fid|]. intros f ->. exact Hid.
      * rewrite concat_app, Hc', Hds. by rewrite decide_True.
    + exists ds'. rewrite decide_False by done. split; [|done].
      rewrite filter_none; [unfold ws1 in Hf'; by rewrite decide_False in Hf'|].
      eapply Forall_impl; [apply data_frames_fid|]. intros f ->. congruence.
Qed.
End Senders.

(** ** Theorems *)
Lemma NewServerWorker_refines {I O W} `{Endpoint I} `{SessionOut O} `{MbSink W} (lw : W) :
  (exists b, taken lw b) \/ refuses lw -> refines (NewServerWorker lw : Worker I O W) a0.
Proof. intros Hl. by split. Qed.

(** Refinement of the abstract mux connection by the loop of the server worker,
    where the dispatcher accepts every session with an output that takes data, the link
    back takes data or refuses all of it, and no goroutine closes a session meanwhile:
    for every sequence of acceptable frames - New, Keep, End and KeepAlive with or
    without data, of known and unknown sessions, streams and packets - that arrives in
    whatever fragments, the loop of [run] consumes exactly those frames, does not fail,
    and ends in a state that refines the abstract one: the map of live ids is the
    abstract one, and every session has been given exactly the payload that its frames
    carried. *)
Theorem run_refines {I O W D} `{Endpoint I} `{SessionOut O} `{MbSink W}
    (Dispatch : D -> Destination -> D * res (I * O)) fuel fs d (lw : W) br rest :
  accepting Dispatch -> all_acceptable a0 fs ->
  Forall (fun f => (S (length (payload f)) < fuel)%nat) fs ->
  ((exists b, taken lw b) \/ refuses lw) ->
  reader_wf br -> reader_content br = concat (map frame_bytes fs) ++ rest ->
  exists d' w' br',
    (forall k, run Dispatch fuel (length fs + k) (d, NewServerWorker lw, br) = run Dispatch fuel k (d', w', br')) /\
    refines w' (fold_left astep fs a0) /\ reader_content br' = rest.
Proof.
  intros Hacc Hall Hf Hl Hbr Hc.
  destruct (run_frames Dispatch fuel fs a0 d (NewServerWorker lw) br rest) as (d' & w' & br' & E & Hr & _ & Hc');
    [done|done|done|by apply NewServerWorker_refines|done|done|]. by exists d', w', br'.
Qed.

(** C4. End to end, over a link that is intact and a server whose dispatcher and outputs
    accept: any number of sessions with 16-bit ids write to one connection through their
    [Writer]s, streams and packets mixed, in any order, in MultiBuffers that are not
    empty, of buffers of 1 to 2048 bytes and of less than 2^31 bytes; the destinations
    are TCP or UDP ones with an address that survives the wire.  If the dispatcher
    accepts every destination with an output that always takes data, and the link back
    takes data or refuses all of it: every write succeeds, and the server worker, whose
    loop of frames runs undisturbed - the goroutines that copy answers back and may
    close a session are not run -, opens a session for each of them, and once it has
    consumed what arrived, the output of each has been given exactly the bytes its own
    writer was given, in order, and nothing of the others. *)
Theorem mux_delivers {I O W D} `{Endpoint I} `{SessionOut O} `{MbSink W}
    (Dispatch : D -> Destination -> D * res (I * O)) dests sched fuel d (lw : W) e :
  accepting Dispatch -> Forall (entry_ok dests) sched ->
  ((exists b, taken lw b) \/ refuses lw) -> (Z.to_nat (2 ^ 16) < fuel)%nat ->
  exists ws' up n d' w' br',
    send_all sched (writers0 dests) out_new = Some ((ws', up), Ok tt) /\
    (forall k, run Dispatch fuel (n + k)
       (d, NewServerWorker lw, {| source := {| mbs := written up; link_end := e |}; Buffer := [] |}) =
       run Dispatch fuel k (d', w', br')) /\
    reader_content br' = [] /\
    forall i, sent_by i sched <> [] ->
      exists p s, Get i (manager (store w')) = Some p /\ heap (store w') !! p = Some s /\
        ID s = i /\ transferType s = type_of (dests i) /\ taken (output s) (sent_by i sched).
Proof.
  intros Hacc Hs Hl Hfuel.
  assert (Ht0 : taken out_new []) by (by split).
  destruct (send_all_spec dests sched (writers0 dests) out_new [] Hs) as (ws' & up & fs & E & Htk & Hfw & Hproj); [done|done|].
  destruct Htk as (_ & Hup & Hwf). rewrite app_nil_l in Hup.
  set (br := {| source := {| mbs := written up; link_end := e |}; Buffer := [] |}).
  destruct (run_frames Dispatch fuel fs a0 d (NewServerWorker lw) br []) as (d' & w' & br' & Erun & Hr & _ & Hc').
  - done.
  - apply (from_writers_acceptable dests); [|by intros ?|done]. by intros ? ?.
  - eapply Forall_impl; [exact Hfw|]. intros f ([_ Hf] & _). unfold payload. destruct (f_data f) as [x|]; cbn [default]; [|cbn; lia].
    destruct Hf as [_ Hx]. change (Datatypes.id x) with x. unfold zlen in Hx. lia.
  - by apply NewServerWorker_refines.
  - split; [apply tidy_mb_nil|exact Hwf].
  - rewrite app_nil_r. exact Hup.
  - exists ws', up, (length fs), d', w', br'. split; [done|]. split; [done|]. split; [done|].
    intros i Hi. destruct (Hproj i) as (ds & Hds & Hcc). destruct ds as [|x ds]; [by rewrite <- Hcc in Hi|].
    pose proof (fold_stream i (writers0 dests i) fs x ds a0 eq_refl eq_refl Hds ltac:(by intros ? ?)) as Hst.
    unfold proj in Hst. destruct (a_live (fold_left astep fs a0) !! i) as [p|] eqn:Ep; [|done]. cbn [mbind option_bind] in Hst.
    destruct (refines_session w' _ i p Hr Ep) as (s & l & Hsl & Hll & Hids & _ & Hty & Hts).
    exists p, s. unfold Get. rewrite (r_open _ _ Hr), (r_map _ _ Hr). split; [done|]. split; [done|]. split; [done|].
    assert (l = {| a_id := i; a_target := dest (writers0 dests i); a_bytes := concat (x :: ds) |}) as -> by congruence.
    split; [done|]. by rewrite <- Hcc.
Qed.

(** A session whose output refuses the data of a Keep frame does not disturb the
    connection: the frame is consumed to its end, the session leaves the map, the peer
    is told with an End frame, and no other session changes. *)
Theorem failed_output_is_contained {I O W D} `{Endpoint I} `{SessionOut O} `{MbSink W} fuel m dd
    (d : D) (w : Worker I O W) br rest p s b :
  Bitmask.Has (Option m) OptionData = true -> is_u16 (SessionID m) ->
  Get (SessionID m) (manager (store w)) = Some p -> heap (store w) !! p = Some s -> ID s = SessionID m ->
  refuses (output s) -> payload_fits (transferType s) dd -> (S (length dd) < fuel)%nat ->
  taken (link_out w) b -> reader_wf br -> reader_content br = put_be 2 (zlen dd) ++ dd ++ rest ->
  exists w' br', handleStatusKeep fuel m (d, w, br) = Some ((d, w', br'), Ok tt) /\
    reader_wf br' /\ reader_content br' = rest /\
    Get (SessionID m) (manager (store w')) = None /\
    (forall id, id <> SessionID m -> Get id (manager (store w')) = Get id (manager (store w))) /\
    (forall q, q <> p -> heap (store w') !! q = heap (store w) !! q) /\
    taken (link_out w') (b ++ frame_bytes (end_frame (NewResponseWriter (SessionID m) TransferTypeStream))).
Proof.
  intros Hhas Hid Hget Hs Hids Href Hfit Hfuel Hlink Hbr Hc. unfold handleStatusKeep. rewrite Hhas, Hget, Hs. cbn [negb].
  unfold copy_to. rewrite Hs.
  destruct (copy_payload_refused fuel (transferType s) br dd rest (output s) Hbr Hc Hfit Href Hfuel)
    as (rr & o' & e & -> & _ & rr' & Hdr & Hbr' & Hc'). cbn [IsWriteError].
  unfold abandon, notify_end, MuxIO.Close. cbn [NewResponseWriter hasError id with_session set_store link_out].
  set (meta := {| Target := Dest0; SessionID := SessionID m; Option := 0; SessionStatus := SessionStatusEnd |}).
  assert (Hm : meta_wf meta) by (split; [done|by split]). pose proof (meta_bytes_length meta Hm) as Hml.
  rewrite WriteTo_spec by (done || apply New_wf || rewrite New_room; lia).
  destruct (taken_write (link_out w) b [push New (meta_bytes meta)] Hlink) as (lw & -> & Hlw).
  { split; [constructor; [apply tidy_push; lia|done]|]. rewrite mb_content_one, push_content by apply New_wf.
    rewrite New_content, app_nil_l. lia. }
  { done. }
  cbn [lift]. rewrite Hdr. cbn [lift err_of]. eexists _, _. split; [reflexivity|]. split; [done|]. split; [done|].
  unfold Get in Hget |- *. destruct (MuxSession.closed (manager (store w))) eqn:Hcl; [done|].
  unfold close_at, Session_Close. cbn [with_session set_store store manager heap link_out].
  rewrite !list_lookup_alter_eq, Hs. cbn [fmap option_fmap option_map set_output interrupt_input ID].
  unfold Remove. rewrite Hcl. cbn [set_store store manager heap MuxSession.closed sessions link_out]. rewrite Hids.
  split; [by rewrite lookup_delete_eq|]. split; [intros i Hi; by rewrite lookup_delete_ne by done|].
  split; [intros q Hq; by rewrite !list_lookup_alter_ne by done|].
  rewrite mb_content_one, push_content, New_content, app_nil_l in Hlw by apply New_wf.
  unfold frame_bytes. cbn [end_frame f_meta f_data hasError NewResponseWriter]. by rewrite app_nil_r.
Qed.

(** ** Witnesses *)
#[export] Instance out_endpoint : Endpoint out :=
  let f o := {| written := written o; closed := match closed o with None => Some ErrClosedPipe | c => c end |} in
  {| close_ep := f; interrupt_ep := f |}.

#[export] Instance out_session : SessionOut out.
Proof. refine {| received o b := out_bytes o = b |}; [by intros o b (_ & ? & _)|done|done]. Defined.

Definition demo_dispatch (d : nat) (t : Destination) : nat * res (unit * out) := (S d, Ok (tt, out_new)).

Lemma demo_accepting : accepting demo_dispatch.
Proof. intros d t. exists (S d), tt, out_new. split; [done|]. by split. Qed.

Definition demo_dests (i : Z) : Destination := dest (demo_writer i).

Definition demo_piece (s : string) : MultiBuffer := [push New (lit s)].

Definition demo_sched : list (Z * MultiBuffer) :=
  [(1, demo_piece "hello "); (2, demo_piece "other"); (1, demo_piece "world")].

Lemma demo_entry i s : is_u16 i -> 1 <= zlen (lit s) <= 2048 -> entry_ok demo_dests (i, demo_piece s).
Proof.
  intros Hi Hs. split; [done|]. split; [by apply (demo_writer_wf 1)|]. split; [|done].
  split; [constructor; [by apply tidy_push|done]|]. unfold demo_piece. cbn [snd].
  rewrite mb_content_one, push_content by apply New_wf. rewrite New_content, app_nil_l. lia.
Qed.

Lemma mux_delivers_witness :
  exists up n d' (w' : Worker unit out out) br' p s,
    (forall k, run demo_dispatch (S (Z.to_nat (2 ^ 16))) (n + k)
       (0%nat, NewServerWorker out_new, {| source := {| mbs := written up; link_end := EOF |}; Buffer := [] |}) =
     run demo_dispatch (S (Z.to_nat (2 ^ 16))) k (d', w', br')) /\
    Get 1 (manager (store w')) = Some p /\ heap (store w') !! p = Some s /\ out_bytes (output s) = lit "hello world".
Proof.
  destruct (mux_delivers demo_dispatch demo_dests demo_sched (S (Z.to_nat (2 ^ 16))) 0%nat out_new EOF)
    as (ws' & up & n & d' & w' & br' & _ & Hrun & _ & Hout).
  - apply demo_accepting.
  - repeat first [apply Forall_nil_2 | apply Forall_cons_2; [apply demo_entry; by vm_compute|]].
  - left. exists []. by split.
  - lia.
  - destruct (Hout 1 ltac:(discriminate)) as (p & s & H1 & H2 & _ & _ & (_ & H3 & _)).
    exists up, n, d', w', br', p, s. split; [exact Hrun|]. split; [exact H1|]. split; [exact H2|]. exact H3.
Defined.

Definition demo_frames : list frame :=
  data_frames (demo_writer 1) [lit "ab"; lit "cd"] ++ [end_frame (followed (demo_writer 1))].

Lemma demo_frames_acceptable : all_acceptable a0 demo_frames.
Proof.
  assert (Hf : forall wr d, writer_wf wr -> 0 < zlen d < 2 ^ 16 -> frame_wf (next_frame wr (Some d))).
  { intros wr d Hw Hd. apply next_frame_wf; [done|]. by intros x [= <-]. }
  assert (Hw : writer_wf (demo_writer 1)) by by apply demo_writer_wf.
  split; [split; [by apply Hf|split; [by vm_compute|by vm_compute]]|].
  split; [split; [apply Hf; [by apply followed_wf|by vm_compute]|split; [by vm_compute|by vm_compute]]|].
  split; [|exact Logic.I]. split; [|split; [by vm_compute|by vm_compute]].
  split; [|reflexivity]. split; [by vm_compute|]. split; [by vm_compute|]. split; [by vm_compute|discriminate].
Qed.

Definition demo_conn (b : bytes) : BufferedReader link :=
  {| source := {| mbs := [[push New b]]; link_end := EOF |}; Buffer := [] |}.

Lemma run_refines_witness :
  exists d' (w' : Worker unit out out) br',
    run demo_dispatch 10 3 (0%nat, NewServerWorker out_new, demo_conn (concat (map frame_bytes demo_frames))) =
    run demo_dispatch 10 0 (d', w', br') /\ reader_content br' = [].
Proof.
  destruct (run_refines (W := out) demo_dispatch 10 demo_frames 0%nat out_new
    (demo_conn (concat (map frame_bytes demo_frames))) []) as (d' & w' & br' & E & _ & Hc).
  - apply demo_accepting.
  - apply demo_frames_acceptable.
  - repeat (apply Forall_cons_2; [vm_compute; lia|]). apply Forall_nil_2.
  - left. exists []. by split.
  - split; [apply tidy_mb_nil|]. apply Forall_cons_2; [|apply Forall_nil_2]. split; [|done].
    split; [apply Forall_cons_2; [|apply Forall_nil_2]|].
    + split; [apply push_wf; [apply New_wf|by vm_compute]|by vm_compute].
    + by vm_compute.
  - vm_compute. reflexivity.
  - exists d', w', br'. split; [exact (E 0%nat)|exact Hc].
Defined.

Definition dead_out : out := {| written := []; closed := Some ErrClosedPipe |}.

Definition demo_worker : Worker unit out out :=
  {| store := (Add {| input := tt; output := dead_out; ID := 5; transferType := TransferTypeStream |} NewStore).1;
     link_out := out_new; spawned := [] |}.

Definition keep_meta : FrameMetadata :=
  {| Target := Dest0; SessionID := 5; Option := OptionData; SessionStatus := SessionStatusKeep |}.

Lemma failed_output_is_contained_witness :
  exists w' br', handleStatusKeep 10 keep_meta (0%nat, demo_worker, demo_conn (put_be 2 5 ++ lit "hello" ++ lit "!")) =
      Some ((0%nat, w', br'), Ok tt) /\ reader_content br' = lit "!" /\ Get 5 (manager (store w')) = None.
Proof.
  destruct (failed_output_is_contained 10 keep_meta (lit "hello") 0%nat demo_worker
    (demo_conn (put_be 2 5 ++ lit "hello" ++ lit "!")) (lit "!") 0%nat
    {| input := tt; output := dead_out; ID := 5; transferType := TransferTypeStream |} [])
    as (w' & br' & E & _ & Hc & Hg & _).
  - reflexivity.
  - by vm_compute.
  - reflexivity.
  - reflexivity.
  - reflexivity.
  - exists ErrClosedPipe. by split.
  - split; [by vm_compute|discriminate].
  - cbn. lia.
  - by split.
  - split; [apply tidy_mb_nil|]. apply Forall_cons_2; [|apply Forall_nil_2]. split; [|done].
    split; [apply Forall_cons_2; [|apply Forall_nil_2]|by vm_compute].
    split; [apply push_wf; [apply New_wf|by vm_compute]|by vm_compute].
  - vm_compute. reflexivity.
  - exists w', br'. split; [exact E|]. split; [exact Hc|exact Hg].
Defined.
