(* ===== verification/MuxClient.v ===== *)
(** * Package common/mux: the client

    [Module MuxClient] models common/mux/client.go: the worker that dispatches
    new sessions and reads the responses, the picker of workers and the manager
    that retries.  Workers are pointers into a heap, which the picker permutes. *)
From S2P Require Import Prelude GoStd Buf MultiBuf NetAddr AddrParser BufReader MuxFrame MuxSession MuxIO MuxServer MuxDemux.
Import MuxSession Buf MultiBuf NetAddr BufReader BufReader.Chunk MuxFrame MuxIO MuxServer MuxSpec.

Module MuxClient.

Record ClientStrategy := mkStrategy { MaxConcurrency : Z; MaxConnection : Z }.   (* uint32 *)

Record ClientWorker (I O W : Type) := mkClient {
  worker : Worker I O W;
  done : bool;
  strategy : ClientStrategy;
}.
Arguments mkClient {I O W} _ _ _.
Arguments worker {I O W} _.
Arguments done {I O W} _.
Arguments strategy {I O W} _.

Section Client.
Context {I O W : Type} `{Endpoint I} `{Endpoint O} `{MbWriter O} `{MbWriter W} `{Endpoint W}.
Implicit Types (c : ClientWorker I O W).

Definition sessionManager c : SessionManager := manager (store (worker c)).

Definition NewClientWorker (lw : W) (s : ClientStrategy) : ClientWorker I O W :=
  {| worker := NewServerWorker lw; done := false; strategy := s |}.

Definition TotalConnections c : Z := u32 (Count (sessionManager c)).
Definition ActiveConnections c : Z := u32 (MuxSession.Size (sessionManager c)).
Definition Closed c : bool := done c.

Definition IsClosing c : bool :=
  (0 <? MaxConnection (strategy c)) && (MaxConnection (strategy c) <=? Count (sessionManager c)).

Definition IsFull c : bool :=
  if IsClosing c || Closed c then true
  else (0 <? MaxConcurrency (strategy c)) && (MaxConcurrency (strategy c) <=? MuxSession.Size (sessionManager c)).

Definition with_worker (w : Worker I O W) c : ClientWorker I O W :=
  {| worker := w; done := done c; strategy := strategy c |}.

(** [Dispatch(ctx, link)]; [go fetchInput] is recorded as a spawned session. *)
Definition Dispatch (i : I) (o : O) c : ClientWorker I O W * bool :=
  if IsFull c || Closed c then (c, false) else
  match Allocate i o (store (worker c)) with
  | (st, None) => (with_worker (set_store st (worker c)) c, false)
  | (st, Some p) =>
    (with_worker {| store := st; link_out := link_out (worker c); spawned := spawned (worker c) ++ [p] |} c, true)
  end.

(** The two cases of the loop of [monitor]: the timer and [done]. *)
Definition monitor_timer c : ClientWorker I O W :=
  if MuxSession.Size (sessionManager c) =? 0 then
    let '(m, ok) := CloseIfNoSession (sessionManager c) in
    {| worker := set_store {| manager := m; heap := heap (store (worker c)) |} (worker c);
       done := ok || done c; strategy := strategy c |}
  else c.

Definition monitor_done c : ClientWorker I O W :=
  with_worker {| store := MuxSession.Close (store (worker c)); link_out := close_ep (link_out (worker c));
                 spawned := spawned (worker c) |} c.

(** ** The responses *)
Notation state := (Worker I O W * BufferedReader link)%type.
Notation outcome := (option (state * res unit)).

Definition handleStatueKeepAlive (fuel : nat) (meta : FrameMetadata) (s : state) : outcome :=
  if Bitmask.Has (Option meta) OptionData then drain_frame fuel s else Some (s, Ok tt).

Definition handleStatusNew (fuel : nat) (meta : FrameMetadata) (s : state) : outcome :=
  if Bitmask.Has (Option meta) OptionData then drain_frame fuel s else Some (s, Ok tt).

Definition handleStatusKeep (fuel : nat) (meta : FrameMetadata) (s : state) : outcome :=
  let '(w, br) := s in
  if negb (Bitmask.Has (Option meta) OptionData) then Some (s, Ok tt) else
  match Get (SessionID meta) (manager (store w)) with
  | None =>
    match notify_end (SessionID meta) w with
    | (w, Ok _) => drain_frame fuel (w, br)
    | (w, x) => Some ((w, br), x)
    end
  | Some p =>
    match heap (store w) !! p with
    | None => Some (s, Panic)
    | Some ss =>
      match copy_to fuel p (NewReader (transferType ss) br) w with
      | None => None
      | Some (w, rr, Ok (Some e)) =>
        if IsWriteError e then abandon fuel (SessionID meta) p rr w
        else Some ((w, under rr), err_of (Ok (Some e)))
      | Some (w, rr, x) => Some ((w, under rr), err_of x)
      end
    end
  end.

Definition handleStatusEnd (fuel : nat) (meta : FrameMetadata) (s : state) : outcome :=
  let '(w, br) := s in
  let w :=
    match Get (SessionID meta) (manager (store w)) with
    | Some p =>
      let w := if Bitmask.Has (Option meta) OptionError
               then with_session interrupt_output p (with_session interrupt_input p w) else w in
      close_at p w
    | None => w
    end in
  if Bitmask.Has (Option meta) OptionData then drain_frame fuel (w, br) else Some ((w, br), Ok tt).

(** One round of [fetchOutput], on the metadata of the round before. *)
Definition fetchOne (fuel : nat) (meta : FrameMetadata) (s : state) : option (FrameMetadata * state * res unit) :=
  let '(w, br) := s in
  match Unmarshal (meta, br) with
  | ((meta, br), Err e) => Some (meta, (w, br), Err e)
  | ((meta, br), Panic) => Some (meta, (w, br), Panic)
  | ((meta, br), Ok _) =>
    let s := (w, br) in
    let st := SessionStatus meta in
    let x :=
      if st =? SessionStatusKeepAlive then handleStatueKeepAlive fuel meta s
      else if st =? SessionStatusEnd then handleStatusEnd fuel meta s
      else if st =? SessionStatusNew then handleStatusNew fuel meta s
      else if st =? SessionStatusKeep then handleStatusKeep fuel meta s
      else Some (s, Err (NewError "unknown status: ")) in
    match x with
    | None => None
    | Some (s, y) => Some (meta, s, y)
    end
  end.

(** [fetchOutput] for at most [rounds] frames; any error ends it and marks the
    client done.  Errors are only logged. *)
Fixpoint fetchOutput (fuel rounds : nat) (meta : FrameMetadata) (c : ClientWorker I O W) (br : BufferedReader link)
    : option (ClientWorker I O W * FrameMetadata * BufferedReader link * res unit) :=
  match rounds with
  | 0%nat => Some (c, meta, br, Ok tt)
  | S k =>
    match fetchOne fuel meta (worker c, br) with
    | None => None
    | Some (meta, (w, br), Ok _) => fetchOutput fuel k meta (with_worker w c) br
    | Some (meta, (w, br), Err _) =>
      Some ({| worker := w; done := true; strategy := strategy c |}, meta, br, Ok tt)
    | Some (meta, (w, br), Panic) => Some (with_worker w c, meta, br, Panic)
    end
  end.

(** ** The picker *)
Record IncrementalWorkerPicker := mkPicker {
  workers : list ptr;
  cleanupTask : bool;   (* it is not nil *)
  running : bool;       (* of the periodic task *)
}.

(** The factory is a parameter: it creates a worker or fails. *)
Context {F : Type} (Create : F -> F * res (ClientWorker I O W)).

Record Pool := mkPool { picker : IncrementalWorkerPicker; pool : list (ClientWorker I O W); factory : F }.

Definition full_at (pl : Pool) (p : ptr) : bool :=
  match pool pl !! p with Some c => IsFull c | None => true end.
Definition closed_at (pl : Pool) (p : ptr) : bool :=
  match pool pl !! p with Some c => Closed c | None => true end.

Definition set_workers (l : list ptr) (pl : Pool) : Pool :=
  {| picker := {| workers := l; cleanupTask := cleanupTask (picker pl); running := running (picker pl) |};
     pool := pool pl; factory := factory pl |}.

Definition set_running (b : bool) (pl : Pool) : Pool :=
  {| picker := {| workers := workers (picker pl); cleanupTask := cleanupTask (picker pl); running := b |};
     pool := pool pl; factory := factory pl |}.

Definition cleanup (pl : Pool) : Pool :=
  set_workers (List.filter (fun p => negb (closed_at pl p)) (workers (picker pl))) pl.

Definition cleanupFunc (pl : Pool) : Pool * res unit :=
  match workers (picker pl) with
  | [] => (pl, Err (NewError "no worker"))
  | _ => (cleanup pl, Ok tt)
  end.

Fixpoint findIndex (f : ptr -> bool) (l : list ptr) : option nat :=
  match l with
  | [] => None
  | p :: l => if f p then Some 0%nat else S <$> findIndex f l
  end.

Definition findAvailable (pl : Pool) : option nat :=
  findIndex (fun p => negb (full_at pl p)) (workers (picker pl)).

(** [l[i], l[j] = l[j], l[i]] *)
Definition swap (i j : nat) (l : list ptr) : list ptr :=
  match l !! i, l !! j with Some x, Some y => <[j := x]> (<[i := y]> l) | _, _ => l end.

(** The worker, and whether it was created. *)
Definition pickInternal (pl : Pool) : Pool * res (ptr * bool) :=
  match findAvailable pl with
  | Some idx =>
    let n := length (workers (picker pl)) in
    let pl := if (1 <? n)%nat && negb (idx =? n - 1)%nat
              then set_workers (swap (n - 1) idx (workers (picker pl))) pl else pl in
    (pl, p ← or_panic (workers (picker pl) !! idx); Ok (p, false))
  | None =>
    let pl := cleanup pl in
    match Create (factory pl) with
    | (f, Ok c) =>
      let p := length (pool pl) in
      ({| picker := {| workers := workers (picker pl) ++ [p]; cleanupTask := true; running := running (picker pl) |};
          pool := pool pl ++ [c]; factory := f |}, Ok (p, true))
    | (f, Err e) => ({| picker := picker pl; pool := pool pl; factory := f |}, Err e)
    | (f, Panic) => ({| picker := picker pl; pool := pool pl; factory := f |}, Panic)
    end
  end.

(** One execution of the periodic task; an error stops it. *)
Definition cleanup_tick (pl : Pool) : Pool * res unit :=
  match cleanupFunc pl with
  | (pl, Err e) => (set_running false pl, Err e)
  | x => x
  end.

(** [common.Must(p.cleanupTask.Start())] *)
Definition startCleanup (pl : Pool) : Pool * res unit :=
  if running (picker pl) then (pl, Ok tt) else
  match cleanup_tick (set_running true pl) with
  | (pl, Err _) => (pl, Panic)
  | x => x
  end.

Definition PickAvailable (pl : Pool) : Pool * res ptr :=
  match pickInternal pl with
  | (pl, Ok (p, start)) =>
    if start : bool then let '(pl, x) := startCleanup pl in (pl, _ ← x; Ok p) else (pl, Ok p)
  | (pl, Err e) => (pl, Err e)
  | (pl, Panic) => (pl, Panic)
  end.

(** The loop of [ClientManager.Dispatch] with [tries] rounds left. *)
Fixpoint dispatchLoop (tries : nat) (i : I) (o : O) (pl : Pool) : Pool * res unit :=
  match tries with
  | 0%nat => (pl, Err (NewError "unable to find an available mux client"))
  | S k =>
    match PickAvailable pl with
    | (pl, Ok p) =>
      match pool pl !! p with
      | None => (pl, Panic)
      | Some c =>
        let '(c, ok) := Dispatch i o c in
        let pl := {| picker := picker pl; pool := <[p := c]> (pool pl); factory := factory pl |} in
        if ok : bool then (pl, Ok tt) else dispatchLoop k i o pl
      end
    | (pl, Err e) => (pl, Err e)
    | (pl, Panic) => (pl, Panic)
    end
  end.

Definition ManagerDispatch : I -> O -> Pool -> Pool * res unit := dispatchLoop 16.
End Client.

End MuxClient.
Import MuxClient.

(** ** The responses of the sessions *)

(** The abstract client: New frames are not expected and change nothing. *)
Definition cstep (a : astate) (f : frame) : astate :=
  if fstatus f =? SessionStatusNew then a else astep a f.

Definition c_acceptable (a : astate) (f : frame) : Prop :=
  frame_wf f /\ 1 <= fstatus f <= 4 /\
  (fstatus f = SessionStatusKeep -> a_type a f = TransferTypePacket -> zlen (payload f) <= 2048).

Fixpoint all_c_acceptable (a : astate) (fs : list frame) : Prop :=
  match fs with
  | [] => True
  | f :: fs => c_acceptable a f /\ all_c_acceptable (cstep a f) fs
  end.

Section Fetch.
Context {I O W : Type} `{Endpoint I} `{SessionOut O} `{MbSink W}.
Implicit Types (w : Worker I O W).

(** The client's handlers are the server's without a dispatcher. *)
Lemma client_Keep fuel m w br :
  lift tt (handleStatusKeep fuel m (w, br)) = MuxServer.handleStatusKeep fuel m (tt, w, br).
Proof.
  unfold handleStatusKeep, MuxServer.handleStatusKeep. destruct (negb _); [done|].
  destruct (Get _ _) as [p|].
  - destruct (heap (store w) !! p) as [s|]; [|done].
    destruct (copy_to fuel p _ w) as [[[w1 rr] [[e|]|e|]]|]; [|done..]. by destruct (IsWriteError e).
  - destruct (notify_end _ w) as [w1 [[]|e|]]; done.
Qed.

Lemma client_End fuel m w br :
  lift tt (handleStatusEnd fuel m (w, br)) = MuxServer.handleStatusEnd fuel m (tt, w, br).
Proof.
  unfold handleStatusEnd, MuxServer.handleStatusEnd.
  by destruct (Bitmask.Has (Option m) OptionData).
Qed.

Lemma client_implements fuel f a (x : option ((Worker I O W * BufferedReader link) * res unit)) rest :
  implements (D := unit) fuel f a (lift tt x) rest ->
  exists w' br', x = Some ((w', br'), Ok tt) /\ refines w' a /\ reader_wf br' /\ reader_content br' = rest.
Proof.
  intros (d' & w' & br' & E & Hx). destruct x as [[[w1 br1] y]|]; [|done]. injection E as -> -> -> ->. by exists w', br'.
Qed.

Lemma merge_old old f :
  SessionID (merge old f) = SessionID f /\ Option (merge old f) = Option f /\ SessionStatus (merge old f) = SessionStatus f.
Proof. unfold merge. by destruct (_ =? _). Qed.

Lemma fetch_step fuel f a old w br rest :
  c_acceptable a f -> (S (length (payload f)) < fuel)%nat ->
  refines w a -> reader_wf br -> reader_content br = frame_bytes f ++ rest ->
  exists meta w' br', fetchOne fuel old (w, br) = Some (meta, (w', br'), Ok tt) /\
    refines w' (cstep a f) /\ reader_wf br' /\ reader_content br' = rest.
Proof.
  intros (Hf & Hst & Hpk) Hfuel Hr Hbr Hc. unfold fetchOne.
  change (frame_bytes f) with (meta_bytes (f_meta f) ++ body f) in Hc. rewrite <- app_assoc in Hc.
  pose proof (Unmarshal_spec old (f_meta f) br (body f ++ rest) (proj1 Hf)) as HU. specialize (HU Hbr Hc).
  destruct HU as (br1 & -> & Hbr1 & _ & Hc1).
  change (rd_wf br1) with (reader_wf br1) in Hbr1. change (rd_content br1) with (reader_content br1) in Hc1.
  destruct (merge_old old (f_meta f)) as (Hid & Hop & ->). change (SessionStatus (f_meta f)) with (fstatus f).
  assert (Himp : forall x a', implements (D := unit) fuel f a' (lift tt x) rest ->
    exists meta w' br', match x with None => None | Some (s, y) => Some (merge old (f_meta f), s, y) end =
      Some (meta, (w', br'), Ok tt) /\ refines w' a' /\ reader_wf br' /\ reader_content br' = rest).
  { intros x a' Hx. apply client_implements in Hx as (w' & br' & -> & Hx). by exists (merge old (f_meta f)), w', br'. }
  assert (Hdr : implements (D := unit) fuel f a
    (lift tt (if Bitmask.Has (Option (merge old (f_meta f))) OptionData then drain_frame fuel (w, br1) else Some ((w, br1), Ok tt))) rest).
  { pose proof (drain_implements fuel f (merge old (f_meta f)) a tt w br1 rest Hf Hop Hfuel Hr Hbr1 Hc1) as HD.
    by destruct (Bitmask.Has _ _). }
  apply Himp. unfold cstep.
  assert (Hcase : fstatus f = 1 \/ fstatus f = 2 \/ fstatus f = 3 \/ fstatus f = 4) by lia.
  destruct Hcase as [E|[E|[E|E]]]; rewrite E; cbn [Z.eqb Pos.eqb SessionStatusKeepAlive SessionStatusEnd SessionStatusNew SessionStatusKeep].
  - exact Hdr.
  - rewrite client_Keep. by apply Keep_implements; auto.
  - rewrite client_End. by apply End_implements.
  - replace (astep a f) with a by (unfold astep; by rewrite E). exact Hdr.
Qed.

(** C38. Refinement of the abstract client by [fetchOutput]: every sequence of
    acceptable frames is consumed without an error, whatever metadata the round
    before left behind, and each session that is live receives exactly the
    payload of the Keep frames that carry its id; frames of other ids and New
    frames are drained. *)
Theorem fetchOutput_refines fuel fs a old (c : ClientWorker I O W) br rest :
  all_c_acceptable a fs -> Forall (fun f => (S (length (payload f)) < fuel)%nat) fs ->
  refines (worker c) a -> reader_wf br -> reader_content br = concat (map frame_bytes fs) ++ rest ->
  exists c' meta br',
    (forall k, fetchOutput fuel (length fs + k) old c br = fetchOutput fuel k meta c' br') /\
    refines (worker c') (fold_left cstep fs a) /\ done c' = done c /\ reader_content br' = rest.
Proof.
  revert a old c br. induction fs as [|f fs IH]; intros a old c br Ha Hf Hr Hbr Hc.
  - by exists c, old, br.
  - destruct Ha as [Ha Hall]. apply Forall_cons in Hf as [Hf0 Hf]. cbn [map concat] in Hc. rewrite <- app_assoc in Hc.
    destruct (fetch_step fuel f a old (worker c) br _ Ha Hf0 Hr Hbr Hc) as (m1 & w1 & br1 & E & Hr1 & Hbr1 & Hc1).
    destruct (IH (cstep a f) m1 (with_worker w1 c) br1 Hall Hf Hr1 Hbr1 Hc1) as (c' & meta & br' & E' & H').
    exists c', meta, br'. split; [|exact H']. intros k. cbn [length Nat.add fetchOutput]. by rewrite E.
Qed.
End Fetch.

(** ** Dispatching *)
Section Dispatching.
Context {I O W : Type} `{Endpoint I} `{Endpoint O} `{MbWriter O} `{MbWriter W}.
Implicit Types (c : ClientWorker I O W).

(** A client under a strategy that limits the number of its connections to what
    the 16-bit ids can tell apart. *)
Definition client_ok c : Prop :=
  0 < MaxConnection (strategy c) <= 65535 /\
  0 <= count (sessionManager c) <= MaxConnection (strategy c) /\
  allocated (sessionManager c) /\
  (MuxSession.closed (sessionManager c) = true -> done c = true) /\
  (0 < MaxConcurrency (strategy c) -> MuxSession.Size (sessionManager c) <= MaxConcurrency (strategy c)).

Lemma Dispatch_full i o c : IsFull c = true -> Dispatch i o c = (c, false).
Proof. intros E. unfold Dispatch. by rewrite E. Qed.

Lemma Dispatch_open i o c :
  IsFull c = false -> (MuxSession.closed (sessionManager c) = true -> done c = true) ->
  exists st p, Allocate i o (store (worker c)) = (st, Some p) /\
    Dispatch i o c = (with_worker {| store := st; link_out := link_out (worker c); spawned := spawned (worker c) ++ [p] |} c, true).
Proof.
  intros E Hcl. unfold Dispatch. rewrite E. unfold IsFull in E.
  destruct (IsClosing c || Closed c) eqn:Ec; [done|]. apply orb_false_iff in Ec as [_ Ec]. rewrite Ec. cbn [orb].
  unfold Allocate. unfold sessionManager in Hcl. destruct (MuxSession.closed (manager (store (worker c)))); [|by eexists _, _].
  unfold Closed in Ec. by rewrite Hcl in Ec.
Qed.

(** [ClientWorker.Dispatch] keeps the client within its strategy: a full
    client is left alone and says no; any other opens exactly one session, under
    an id that no live session has, connected to the given link, leaves the
    other sessions alone, and never exceeds the limit of concurrent sessions -
    an invariant that holds of the client it leaves too. *)
Theorem Dispatch_within_strategy i o c :
  client_ok c ->
  let '(c', ok) := Dispatch i o c in
  client_ok c' /\ ok = negb (IsFull c) /\ strategy c' = strategy c /\
  if ok : bool then
    exists id p s, Get id (sessionManager c) = None /\ Get id (sessionManager c') = Some p /\
      heap (store (worker c')) !! p = Some s /\ ID s = id /\ input s = i /\ output s = o /\
      count (sessionManager c') = count (sessionManager c) + 1 /\
      (forall j, j <> id -> Get j (sessionManager c') = Get j (sessionManager c)) /\
      (forall q s0, heap (store (worker c)) !! q = Some s0 -> heap (store (worker c')) !! q = Some s0)
  else c' = c.
Proof.
  intros Hok. pose proof Hok as (Hmc & Hcnt & Hal & Hcl & Hsz). destruct (IsFull c) eqn:E.
  - by rewrite Dispatch_full.
  - destruct (Dispatch_open i o c E Hcl) as (st & p & HA & ->).
    unfold IsFull, IsClosing in E. destruct (_ || Closed c) eqn:Ec in E; [done|].
    apply orb_false_iff in Ec as [Ec Ed]. unfold Count in Ec.
    unfold sessionManager, with_worker in *. cbn [worker store strategy done] in *.
    unfold Allocate in HA. destruct (MuxSession.closed (manager (store (worker c)))) eqn:Em; [done|].
    rewrite u16_small in HA by lia. injection HA as <- <-.
    assert (Hnew : sessions (manager (store (worker c))) !! (count (manager (store (worker c))) + 1) = None).
    { destruct (_ !! _) as [q|] eqn:Eq; [|done]. apply Hal in Eq. lia. }
    split; [|split; [done|split; [done|]]].
    + split; [done|]. unfold sessionManager. cbn [manager count sessions MuxSession.closed ID worker store strategy MuxClient.done]. split; [lia|]. split; [|split; [done|]].
      * intros id p. cbn [sessions count]. destruct (decide (count (manager (store (worker c))) + 1 = id)) as [<-|Hne].
        -- intros _. lia.
        -- rewrite lookup_insert_ne by done. intros Hp%Hal. lia.
      * intros Hpos. unfold MuxSession.Size in *. cbn [sessions strategy]. rewrite map_size_insert_None by done. lia.
    + unfold Get. rewrite Em. cbn [manager sessions MuxSession.closed ID worker store heap count].
      eexists _, _, _. split; [exact Hnew|]. rewrite lookup_insert_eq. split; [reflexivity|].
      split; [by rewrite list_lookup_middle|]. split; [done|]. split; [done|]. split; [done|]. split; [done|].
      split; [intros j Hj; by rewrite lookup_insert_ne by done|]. intros q s0 Hq. by apply lookup_app_l_Some.
Qed.
End Dispatching.

(** ** The manager's retries *)
Lemma findIndex_Some f l i : findIndex f l = Some i -> exists p, l !! i = Some p /\ f p = true.
Proof.
  revert i. induction l as [|x l IH]; intros i; cbn [findIndex]; [done|]. destruct (f x) eqn:E.
  - intros [= <-]. by exists x.
  - destruct (findIndex f l) as [j|]; [|done]. intros [= <-]. by apply IH.
Qed.

Lemma findIndex_exists f l p : p ∈ l -> f p = true -> exists i, findIndex f l = Some i.
Proof.
  intros Hp Hf. induction l as [|x l IH]; [by apply elem_of_nil in Hp|]. cbn [findIndex].
  destruct (f x) eqn:E; [by exists 0%nat|]. apply elem_of_cons in Hp as [->|Hp]; [congruence|].
  destruct (IH Hp) as [i ->]. by exists (S i).
Qed.

Lemma swap_lookup i j (l : list ptr) x y :
  i <> j -> l !! i = Some x -> l !! j = Some y ->
  swap i j l !! i = Some y /\ swap i j l !! j = Some x /\ length (swap i j l) = length l.
Proof.
  intros Hne Hi Hj. unfold swap. rewrite Hi, Hj.
  pose proof (lookup_lt_Some _ _ _ Hi). pose proof (lookup_lt_Some _ _ _ Hj).
  split; [|split].
  - rewrite list_lookup_insert_ne by done. by apply list_lookup_insert_eq.
  - apply list_lookup_insert_eq. by rewrite length_insert.
  - by rewrite !length_insert.
Qed.

Section Manager.
Context {I O W F : Type} `{Endpoint I} `{Endpoint O} `{MbWriter O} `{MbWriter W}.
Context (Create : F -> F * res (ClientWorker I O W)).
Notation Pool := (@Pool I O W F).

Definition pool_ok (pl : Pool) : Prop :=
  (forall p, p ∈ workers (picker pl) -> (p < length (pool pl))%nat) /\
  (forall p c, pool pl !! p = Some c -> MuxSession.closed (sessionManager c) = true -> done c = true).

Definition available (pl : Pool) (p : ptr) : Prop :=
  exists c, pool pl !! p = Some c /\ IsFull c = false.

Lemma available_full_at pl p : available pl p <-> negb (full_at pl p) = true.
Proof.
  unfold available, full_at. destruct (pool pl !! p) as [c|]; [|split; [by intros (c & ? & _)|done]].
  split; [by intros (c' & [= <-] & ->)|]. intros E. exists c. split; [done|]. by destruct (IsFull c).
Qed.

(** What a pick does while some worker is available: it hands out the worker at
    its old place, or swaps it to the end. *)
Lemma pick_cases (pl : Pool) :
  pool_ok pl -> (exists p, p ∈ workers (picker pl) /\ available pl p) ->
  exists q p l, workers (picker pl) !! q = Some p /\ available pl p /\
    let n := length (workers (picker pl)) in
    ((q = n - 1)%nat /\ PickAvailable Create pl = (pl, Ok p) \/
     (q <> n - 1)%nat /\ exists p', p' ∈ workers (picker pl) /\
       PickAvailable Create pl = (set_workers l pl, Ok p') /\ length l = n /\ l !! (n - 1)%nat = Some p /\
       workers (picker pl) !! (n - 1)%nat = Some p' /\ (forall x, x ∈ l -> x ∈ workers (picker pl))).
Proof.
  intros [Hin Hcl] (p0 & Hp0 & Hav0). rewrite available_full_at in Hav0.
  destruct (findIndex_exists (fun p => negb (full_at pl p)) _ p0 Hp0 Hav0) as [q Hq].
  destruct (findIndex_Some _ _ _ Hq) as (p & Hl & Hf). rewrite <- available_full_at in Hf.
  set (n := length (workers (picker pl))). pose proof (lookup_lt_Some _ _ _ Hl) as Hlt.
  exists q, p, (swap (n - 1) q (workers (picker pl))). split; [done|]. split; [done|]. cbv zeta. fold n in Hlt |- *.
  unfold PickAvailable, pickInternal, findAvailable. rewrite Hq. fold n.
  destruct (decide (q = n - 1)%nat) as [Hlast|Hne].
  - left. split; [done|]. replace (q =? n - 1)%nat with true by lia. rewrite andb_false_r, Hl. done.
  - right. split; [done|]. destruct (lookup_lt_is_Some_2 (workers (picker pl)) (n - 1)) as [p' Hp']; [fold n; lia|].
    exists p'. split; [by eapply list_elem_of_lookup_2|].
    replace (1 <? n)%nat with true by lia. replace (q =? n - 1)%nat with false by lia. cbn [andb negb].
    destruct (swap_lookup (n - 1) q (workers (picker pl)) p' p) as (H1' & H2' & H3'); [lia|done|done|].
    cbn [set_workers picker workers]. rewrite H2'. split; [done|]. split; [done|]. split; [done|]. split; [done|].
    intros x Hx. unfold swap in Hx. rewrite Hp', Hl in Hx. apply list_elem_of_lookup in Hx as [k Hk].
    destruct (decide (q = k)) as [<-|Hqk].
    + rewrite list_lookup_insert_eq in Hk by (rewrite length_insert; lia). injection Hk as <-. by eapply list_elem_of_lookup_2.
    + rewrite list_lookup_insert_ne in Hk by done. destruct (decide (n - 1 = k)%nat) as [<-|Hnk].
      * rewrite list_lookup_insert_eq in Hk by (fold n; lia). injection Hk as <-. by eapply list_elem_of_lookup_2.
      * rewrite list_lookup_insert_ne in Hk by done. by eapply list_elem_of_lookup_2.
Qed.

(** The round that meets an available worker dispatches to it. *)
Lemma dispatch_to k i o (pl pl' : Pool) p :
  PickAvailable Create pl = (pl', Ok p) -> pool_ok pl' -> available pl' p ->
  exists c, pool pl' !! p = Some c /\ IsFull c = false /\
    dispatchLoop Create (S k) i o pl =
    ({| picker := picker pl'; pool := <[p := (Dispatch i o c).1]> (pool pl'); factory := factory pl' |}, Ok tt).
Proof.
  intros E [_ Hcl] (c & Hc & Hf). exists c. split; [done|]. split; [done|]. cbn [dispatchLoop]. rewrite E, Hc.
  destruct (Dispatch_open i o c Hf (Hcl p c Hc)) as (st & q & _ & ->). done.
Qed.

(** [ClientManager.Dispatch] finds an available worker when the picker has
    one: the session is opened on one worker that was not full, and no other
    worker changes.  A single pick is not enough for this, because after its
    swap the picker returns the worker that was last, full or not; of two picks
    in a row one is right, and the manager tries sixteen times. *)
Theorem ManagerDispatch_finds i o (pl : Pool) :
  pool_ok pl -> (exists p, p ∈ workers (picker pl) /\ available pl p) ->
  exists pl' p c, ManagerDispatch Create i o pl = (pl', Ok tt) /\
    pool pl !! p = Some c /\ IsFull c = false /\
    pool pl' = <[p := (Dispatch i o c).1]> (pool pl) /\ factory pl' = factory pl.
Proof.
  intros Hok Hav. unfold ManagerDispatch.
  destruct (pick_cases pl Hok Hav) as (q & p & l & Hq & Hp & [[_ E]|(Hne & p' & Hin' & E & Hlen & Hlast & Hold & Hsub)]).
  - destruct (dispatch_to 15 i o pl pl p E Hok Hp) as (c & Hc & Hf & Ed). eexists _, p, c. split; [exact Ed|]. by split.
  - set (pl1 := set_workers l pl) in *.
    assert (Hok1 : pool_ok pl1) by (destruct Hok as [Hin Hcl]; split; [intros x Hx; by apply Hin, Hsub|exact Hcl]).
    destruct (decide (full_at pl p' = false)) as [Hnf|Hfull].
    + assert (Hp' : available pl1 p') by (apply (available_full_at pl); by rewrite Hnf).
      destruct (dispatch_to 15 i o pl pl1 p' E Hok1 Hp') as (c & Hc & Hf & Ed).
      eexists _, p', c. split; [exact Ed|]. by split.
    + assert (exists c', pool pl !! p' = Some c' /\ IsFull c' = true) as (c' & Hc' & Hf').
      { unfold full_at in Hfull. destruct Hok as [Hin _]. destruct (lookup_lt_is_Some_2 (pool pl) p' (Hin _ Hin')) as [c' Hc'].
        rewrite Hc' in Hfull. exists c'. split; [done|]. by destruct (IsFull c'). }
      assert (Hround : dispatchLoop Create 16 i o pl = dispatchLoop Create 15 i o pl1).
      { cbn [dispatchLoop]. rewrite E. change (pool pl1) with (pool pl). rewrite Hc', Dispatch_full by done.
        f_equal. unfold pl1, set_workers. cbn. by rewrite list_insert_id. }
      rewrite Hround. assert (Hav1 : exists x, x ∈ workers (picker pl1) /\ available pl1 x).
      { exists p. split; [by eapply list_elem_of_lookup_2|done]. }
      destruct (pick_cases pl1 Hok1 Hav1) as (q1 & p1 & l1 & Hq1 & Hp1 & Hcase). cbv zeta in Hcase.
      change (workers (picker pl1)) with l in *. rewrite Hlen in Hcase.
      destruct Hcase as [[_ E1]|(_ & p2 & _ & E1 & _ & _ & Hold1 & Hsub1)].
      * destruct (dispatch_to 14 i o pl1 pl1 p1 E1 Hok1 Hp1) as (c & Hc & Hf & Ed). eexists _, p1, c. split; [exact Ed|]. by split.
      * assert (p2 = p) as -> by congruence.
        destruct (dispatch_to 14 i o pl1 (set_workers l1 pl1) p E1) as (c & Hc & Hf & Ed).
        -- destruct Hok1 as [Hin Hcl]. split; [intros x Hx; by apply Hin, Hsub1|exact Hcl].
        -- exact Hp.
        -- eexists _, p, c. split; [exact Ed|]. by split.
Qed.
End Manager.

(** ** Witnesses *)
Definition demo_strategy : ClientStrategy := {| MaxConcurrency := 1; MaxConnection := 128 |}.

Definition demo_client : ClientWorker unit out out := NewClientWorker out_new demo_strategy.

Lemma demo_client_ok : client_ok demo_client.
Proof.
  split; [by vm_compute|]. split; [by vm_compute|]. split; [by intros ?|]. split; [done|]. intros _. by vm_compute.
Qed.

Lemma Dispatch_within_strategy_witness :
  client_ok (Dispatch tt out_new demo_client).1 /\ (Dispatch tt out_new demo_client).2 = true.
Proof.
  pose proof (Dispatch_within_strategy tt out_new demo_client demo_client_ok) as HD.
  destruct (Dispatch tt out_new demo_client) as [c' ok] eqn:E. destruct HD as (Hok & Hb & _).
  split; [exact Hok|]. exact Hb.
Defined.

Definition demo_create (f : unit) : unit * res (ClientWorker unit out out) := (tt, Ok demo_client).

(** Two workers, of which the second is full. *)
Definition demo_pool : @Pool unit out out unit :=
  {| picker := {| workers := [0; 1]%nat; cleanupTask := true; running := true |};
     pool := [demo_client; (Dispatch tt out_new demo_client).1]; factory := tt |}.

(** The picker hands out the full worker although the other one is available. *)
Lemma pick_returns_full :
  (PickAvailable demo_create demo_pool).2 = Ok 1%nat /\ full_at demo_pool 1 = true /\ full_at demo_pool 0 = false.
Proof. vm_compute. done. Qed.

Lemma ManagerDispatch_finds_witness :
  exists pl' p c, ManagerDispatch demo_create tt out_new demo_pool = (pl', Ok tt) /\
    pool demo_pool !! p = Some c /\ IsFull c = false.
Proof.
  destruct (ManagerDispatch_finds demo_create tt out_new demo_pool) as (pl' & p & c & H1 & H2 & H3 & _).
  - split.
    + intros p Hp. cbn in Hp |- *. rewrite !elem_of_cons in Hp. destruct Hp as [->|[->|Hp]]; [lia|lia|by apply elem_of_nil in Hp].
    + intros p c. destruct p as [|[|p]]; cbn; [by intros [= <-]| |done]. intros [= <-]. vm_compute. discriminate.
  - exists 0%nat. split; [by apply elem_of_cons; left|]. exists demo_client. split; vm_compute; reflexivity.
  - exists pl', p, c. split; [exact H1|]. split; [exact H2|exact H3].
Defined.

Definition demo_reply : list frame := [next_frame (NewResponseWriter 1 TransferTypeStream) (Some (lit "hi"))].

Definition demo_astate : astate :=
  {| a_log := [{| a_id := 1; a_target := Dest0; a_bytes := [] |}]; a_live := {[1 := 0%nat]} |}.

Lemma fetchOutput_refines_witness :
  exists (c' : ClientWorker unit out out) meta br',
    fetchOutput 10 2 Meta0 (Dispatch tt out_new demo_client).1 (demo_conn (concat (map frame_bytes demo_reply) ++ lit "!")) =
    fetchOutput 10 1 meta c' br' /\ reader_content br' = lit "!".
Proof.
  destruct (fetchOutput_refines 10 demo_reply demo_astate Meta0 (Dispatch tt out_new demo_client).1
    (demo_conn (concat (map frame_bytes demo_reply) ++ lit "!")) (lit "!")) as (c' & meta & br' & E & _ & _ & Hc).
  - split; [|exact Logic.I]. split; [|split; [by vm_compute|intros _ Ht; vm_compute in Ht; discriminate Ht]].
    apply next_frame_wf; [split; [by vm_compute|discriminate]|]. intros x [= <-]. by vm_compute.
  - apply Forall_cons_2; [vm_compute; lia|apply Forall_nil_2].
  - split.
    + reflexivity.
    + vm_compute. reflexivity.
    + reflexivity.
    + intros id p Hp. cbn [demo_astate a_live] in Hp. apply lookup_singleton_Some in Hp as [<- <-]. eexists. by split.
    + intros p s l Hs Hl. destruct p as [|p]; [|done]. injection Hl as <-. vm_compute in Hs. injection Hs as <-.
      split; [reflexivity|]. split; [reflexivity|]. split; [reflexivity|]. intros _. by split.
    + left. exists []. by split.
  - split; [apply tidy_mb_nil|]. apply Forall_cons_2; [|apply Forall_nil_2]. split; [|done].
    split; [apply Forall_cons_2; [|apply Forall_nil_2]|by vm_compute].
    split; [apply push_wf; [apply New_wf|by vm_compute]|by vm_compute].
  - vm_compute. reflexivity.
  - exists c', meta, br'. split; [exact (E 1%nat)|exact Hc].
Defined.
