(* ===== verification/KcpSegment.v ===== *)
(** * Package transport/internet/kcp: segments and packets

    [Module KcpSegment] models segment.go (the three segments of the KCP
    protocol, their serialization and their parser), crypt.go and xor.go (the
    legacy packet authenticator), io.go (packets of several segments) and
    output.go (the segment writer). *)
From S2P Require Import Prelude GoStd GoText Buf.
Import Buf.

Module KcpSegment.

(** ** segment.go *)
Definition Command := Z.
Definition CommandACK : Command := 0.
Definition CommandData : Command := 1.
Definition CommandTerminate : Command := 2.
Definition CommandPing : Command := 3.

Definition SegmentOptionClose : Z := 1.
Definition DataSegmentOverhead : Z := 18.

Record DataSegment := mkData {
  dConv : Z;           (* uint16 *)
  dOption : Z;         (* byte *)
  dTimestamp : Z;      (* uint32 *)
  dNumber : Z;         (* uint32 *)
  dSendingNext : Z;    (* uint32 *)
  payload : option Buffer;
  timeout : Z;         (* uint32 *)
  transmit : Z;        (* uint32 *)
}.

Definition NewDataSegment : DataSegment :=
  {| dConv := 0; dOption := 0; dTimestamp := 0; dNumber := 0; dSendingNext := 0;
     payload := None; timeout := 0; transmit := 0 |}.

Record AckSegment := mkAck {
  aConv : Z;
  aOption : Z;
  ReceivingWindow : Z;
  aReceivingNext : Z;
  aTimestamp : Z;
  NumberList : list Z;
}.

Definition ackNumberLimit : nat := 128.

Definition NewAckSegment : AckSegment :=
  {| aConv := 0; aOption := 0; ReceivingWindow := 0; aReceivingNext := 0; aTimestamp := 0;
     NumberList := [] |}.

Record CmdOnlySegment := mkCmd {
  cConv : Z;
  Cmd : Command;
  cOption : Z;
  cSendingNext : Z;
  cReceivingNext : Z;
  PeerRTO : Z;
}.

Inductive Segment :=
  | SegData (s : DataSegment)
  | SegAck (s : AckSegment)
  | SegCmd (s : CmdOnlySegment).

Definition Conversation (s : Segment) : Z :=
  match s with SegData s => dConv s | SegAck s => aConv s | SegCmd s => cConv s end.

Definition command (s : Segment) : Command :=
  match s with SegData _ => CommandData | SegAck _ => CommandACK | SegCmd s => Cmd s end.

(** [Data()] allocates the payload on first use; [Detach] hands it out. *)
Definition Data (s : DataSegment) : Buffer := match payload s with Some b => b | None => New end.

Definition with_payload (s : DataSegment) (p : option Buffer) : DataSegment :=
  {| dConv := dConv s; dOption := dOption s; dTimestamp := dTimestamp s; dNumber := dNumber s;
     dSendingNext := dSendingNext s; payload := p; timeout := timeout s; transmit := transmit s |}.

Definition Detach (s : DataSegment) : DataSegment * option Buffer :=
  (with_payload s None, payload s).

Definition Release (s : DataSegment) : DataSegment := with_payload s None.

(** Parsing; [Ok None] is [false, nil].  It fills a fresh segment. *)
Definition parseData (conv opt : Z) (buf : bytes) : res (option (DataSegment * bytes)) :=
  if zlen buf <? 15 then Ok None else
  ts ← Uint32 buf; buf ← from buf 4;
  number ← Uint32 buf; buf ← from buf 4;
  sn ← Uint32 buf; buf ← from buf 4;
  dataLen ← Uint16 buf; buf ← from buf 2;
  if zlen buf <? dataLen then Ok None else
  d ← or_panic (slice buf 0 dataLen);
  buf ← from buf dataLen;
  match Write d (Clear (Data NewDataSegment)) with
  | (b, Ok _) =>
    Ok (Some ({| dConv := conv; dOption := opt; dTimestamp := ts; dNumber := number;
                 dSendingNext := sn; payload := Some b; timeout := 0; transmit := 0 |}, buf))
  | (_, Err e) => Err e
  | (_, Panic) => Panic
  end.

Definition PutNumber (s : AckSegment) (number : Z) : AckSegment :=
  {| aConv := aConv s; aOption := aOption s; ReceivingWindow := ReceivingWindow s;
     aReceivingNext := aReceivingNext s; aTimestamp := aTimestamp s;
     NumberList := NumberList s ++ [number] |}.

Definition PutTimestamp (s : AckSegment) (timestamp : Z) : AckSegment :=
  if u32 (timestamp - aTimestamp s) <? 0x7FFFFFFF then
    {| aConv := aConv s; aOption := aOption s; ReceivingWindow := ReceivingWindow s;
       aReceivingNext := aReceivingNext s; aTimestamp := timestamp; NumberList := NumberList s |}
  else s.

Definition AckIsFull (s : AckSegment) : bool := (length (NumberList s) =? ackNumberLimit)%nat.
Definition AckIsEmpty (s : AckSegment) : bool := (length (NumberList s) =? 0)%nat.

Fixpoint parseNumbers (count : nat) (s : AckSegment) (buf : bytes) : res (AckSegment * bytes) :=
  match count with
  | O => Ok (s, buf)
  | S c => n ← Uint32 buf; buf ← from buf 4; parseNumbers c (PutNumber s n) buf
  end.

Definition parseAck (conv opt : Z) (buf : bytes) : res (option (AckSegment * bytes)) :=
  if zlen buf <? 13 then Ok None else
  win ← Uint32 buf; buf ← from buf 4;
  next ← Uint32 buf; buf ← from buf 4;
  ts ← Uint32 buf; buf ← from buf 4;
  c ← or_panic (index buf 0); buf ← from buf 1;
  let count := b2z c in
  if zlen buf <? count * 4 then Ok None else
  '(s, buf) ← parseNumbers (Z.to_nat count)
    {| aConv := conv; aOption := opt; ReceivingWindow := win; aReceivingNext := next;
       aTimestamp := ts; NumberList := [] |} buf;
  Ok (Some (s, buf)).

Definition parseCmd (conv cmd opt : Z) (buf : bytes) : res (option (CmdOnlySegment * bytes)) :=
  if zlen buf <? 12 then Ok None else
  sn ← Uint32 buf; buf ← from buf 4;
  rn ← Uint32 buf; buf ← from buf 4;
  rto ← Uint32 buf; buf ← from buf 4;
  Ok (Some ({| cConv := conv; Cmd := cmd; cOption := opt; cSendingNext := sn;
               cReceivingNext := rn; PeerRTO := rto |}, buf)).

Definition as_segment {A} (c : A -> Segment) (r : option (A * bytes)) : option (Segment * bytes) :=
  match r with Some (s, x) => Some (c s, x) | None => None end.

(** [ReadSegment(buf)]: [Ok None] is [nil, nil]. *)
Definition ReadSegment (buf : bytes) : res (option (Segment * bytes)) :=
  if zlen buf <? 4 then Ok None else
  conv ← Uint16 buf; buf ← from buf 2;
  cmd ← or_panic (index buf 0); opt ← or_panic (index buf 1); buf ← from buf 2;
  let cmd := b2z cmd in let opt := b2z opt in
  if cmd =? CommandData then
    r ← parseData conv opt buf; Ok (as_segment SegData r)
  else if cmd =? CommandACK then
    r ← parseAck conv opt buf; Ok (as_segment SegAck r)
  else
    r ← parseCmd conv cmd opt buf; Ok (as_segment SegCmd r).

Definition ByteSize (s : Segment) : Z :=
  match s with
  | SegData s => i32 (2 + 1 + 1 + 4 + 4 + 4 + 2 + Len (payload s))
  | SegAck s => 2 + 1 + 1 + 4 + 4 + 4 + 1 + i32 (zlen (NumberList s) * 4)
  | SegCmd s => 2 + 1 + 1 + 4 + 4 + 4
  end.

(** [Serialize(b)]: the fields are written into the slice one by one. *)
Definition SerializeData (s : DataSegment) (b : bytes) : res bytes :=
  b ← put_at b 0 (put_be 2 (dConv s));
  b ← put_at b 2 [z2b CommandData];
  b ← put_at b 3 [z2b (dOption s)];
  b ← put_at b 4 (put_be 4 (dTimestamp s));
  b ← put_at b 8 (put_be 4 (dNumber s));
  b ← put_at b 12 (put_be 4 (dSendingNext s));
  b ← put_at b 16 (put_be 2 (u16 (Len (payload s))));
  p ← or_panic (payload s);
  c ← Bytes p;
  _ ← from b 18;
  Ok (copy_at b 18 c).1.

Fixpoint SerializeNumbers (l : list Z) (b : bytes) (n : Z) : res bytes :=
  match l with
  | [] => Ok b
  | number :: l' => b ← put_at b n (put_be 4 number); SerializeNumbers l' b (n + 4)
  end.

Definition SerializeAck (s : AckSegment) (b : bytes) : res bytes :=
  b ← put_at b 0 (put_be 2 (aConv s));
  b ← put_at b 2 [z2b CommandACK];
  b ← put_at b 3 [z2b (aOption s)];
  b ← put_at b 4 (put_be 4 (ReceivingWindow s));
  b ← put_at b 8 (put_be 4 (aReceivingNext s));
  b ← put_at b 12 (put_be 4 (aTimestamp s));
  b ← put_at b 16 [z2b (zlen (NumberList s))];
  SerializeNumbers (NumberList s) b 17.

Definition SerializeCmd (s : CmdOnlySegment) (b : bytes) : res bytes :=
  b ← put_at b 0 (put_be 2 (cConv s));
  b ← put_at b 2 [z2b (Cmd s)];
  b ← put_at b 3 [z2b (cOption s)];
  b ← put_at b 4 (put_be 4 (cSendingNext s));
  b ← put_at b 8 (put_be 4 (cReceivingNext s));
  put_at b 12 (put_be 4 (PeerRTO s)).

Definition Serialize (s : Segment) (b : bytes) : res bytes :=
  match s with
  | SegData s => SerializeData s b
  | SegAck s => SerializeAck s b
  | SegCmd s => SerializeCmd s b
  end.

(** ** xor.go and crypt.go *)
Definition bxor (a b : byte) : byte := z2b (Z.lxor (b2z a) (b2z b)).

(** [x[i] ^= x[i-4]] *)
Definition xor_at (x : bytes) (i : nat) : bytes :=
  match x !! i, x !! (i - 4)%nat with
  | Some a, Some b => <[i := bxor a b]> x
  | _, _ => x
  end.

Definition xorfwd (x : bytes) : bytes := foldl xor_at x (seq 4 (length x - 4)).
Definition xorbkd (x : bytes) : bytes := foldl xor_at x (rev (seq 4 (length x - 4))).

(** An AEAD of package crypto/cipher without additional data: [Seal] with an
    empty [dst] and [Open] with [None] for its error. *)
Record AEAD := {
  NonceSize : Z;
  Overhead : Z;
  Seal : bytes -> bytes -> bytes;          (* nonce, plain *)
  Open : bytes -> bytes -> option bytes;   (* nonce, cipher text *)
}.

Definition pad4 (dst : bytes) : bytes :=
  let xtra := (4 - length dst mod 4)%nat in
  if (xtra =? 4)%nat then dst else dst ++ replicate xtra x00.

Definition SimpleSeal (nonce plain : bytes) : bytes :=
  let dst := replicate 4 x00 ++ put_be 2 (u16 (zlen plain)) ++ plain in
  let dst := put_be 4 (fnv32a (drop 4 dst)) ++ drop 4 dst in
  take (length dst) (xorfwd (pad4 dst)).

Definition SimpleOpen (nonce cipherText : bytes) : res (option bytes) :=
  let dst := take (length cipherText) (xorbkd (pad4 cipherText)) in
  body ← from dst 4;
  h ← Uint32 dst;
  if negb (h =? fnv32a body) then Ok None else
  l ← or_panic (slice dst 4 6);
  let length := get_be l in
  if negb (zlen dst - 6 =? length) then Ok None else
  p ← from dst 6; Ok (Some p).

(** [NewSimpleAuthenticator()]: the callers check that a packet is longer than
    the overhead before they open it. *)
Definition SimpleAuthenticator : AEAD :=
  {| NonceSize := 0; Overhead := 6; Seal := SimpleSeal;
     Open := fun n c => match SimpleOpen n c with Ok o => o | _ => None end |}.

(** ** io.go *)

(** A packet header ([internet.PacketHeader]): its size and the bytes it writes. *)
Record PacketHeader := { hdr_bytes : bytes }.
Definition hdr_size (h : PacketHeader) : Z := zlen (hdr_bytes h).

Fixpoint ReadSegments (fuel : nat) (b : bytes) : res (list Segment) :=
  match fuel, b with
  | _, [] | O, _ => Ok []
  | S f, _ =>
    r ← ReadSegment b;
    match r with
    | None => Ok []
    | Some (seg, x) => result ← ReadSegments f x; Ok (seg :: result)
    end
  end.

Definition PacketRead (header : option PacketHeader) (security : option AEAD) (b : bytes)
    : res (list Segment) :=
  b ← (match header with
       | None => Ok (Some b)
       | Some h => if i32 (zlen b) <=? hdr_size h then Ok None
                   else b ← from b (hdr_size h); Ok (Some b)
       end);
  match b with
  | None => Ok []
  | Some b =>
    match security with
    | None => ReadSegments (length b) b
    | Some a =>
      if zlen b <=? NonceSize a + Overhead a then Ok [] else
      nonce ← or_panic (slice b 0 (NonceSize a));
      c ← from b (NonceSize a);
      match Open a nonce c with
      | None => Ok []
      | Some out => ReadSegments (length out) out
      end
    end
  end.

Definition PacketOverhead (header : option PacketHeader) (security : option AEAD) : Z :=
  (match header with Some h => hdr_size h | None => 0 end) +
  (match security with Some a => Overhead a | None => 0 end).

(** [KCPPacketWriter.Write(b)]: the packet handed to the connection; [rnd] is
    what [rand.Reader] yields for the nonce.  [Seal] fills the window of the
    buffer it is given. *)
Definition PacketWrite (header : option PacketHeader) (security : option AEAD) (rnd b : bytes)
    : res bytes :=
  let bb := StackNew in
  bb ← (match header with
        | None => Ok bb
        | Some h => '(bb, w) ← Extend bb (hdr_size h); Ok (poke bb w (hdr_bytes h))
        end);
  bb ← (match security with
        | None => match Write b bb with (bb, Ok _) => Ok bb | (_, Err e) => Err e | (_, Panic) => Panic end
        | Some a =>
          match ReadFullFrom (NonceSize a) (bb, conn_of rnd) with
          | ((bb, _), Ok _) =>
            nonce ← BytesFrom bb (- NonceSize a);
            '(bb, w) ← Extend bb (i32 (Overhead a + zlen b));
            Ok (poke bb w (Seal a nonce b))
          | (_, _) => Panic
          end
        end);
  Bytes bb.

(** ** output.go: [SimpleSegmentWriter.Write] on an open writer. *)
Definition SegmentWrite (seg : Segment) (buffer : Buffer) : res (Buffer * bytes) :=
  let buffer := Clear buffer in
  '(buffer, w) ← Extend buffer (ByteSize seg);
  raw ← Serialize seg (take (Z.to_nat (w.2 - w.1)) (drop (Z.to_nat w.1) (v buffer)));
  let buffer := poke buffer w raw in
  c ← Bytes buffer;
  Ok (buffer, c).

(** ** The wire format *)

Definition payload_bytes (s : DataSegment) : bytes :=
  match payload s with Some b => content b | None => [] end.

(** The bytes of a segment, field after field. *)
Definition wire (s : Segment) : bytes :=
  match s with
  | SegData s =>
    put_be 2 (dConv s) ++ [z2b CommandData; z2b (dOption s)] ++ put_be 4 (dTimestamp s) ++
    put_be 4 (dNumber s) ++ put_be 4 (dSendingNext s) ++ put_be 2 (zlen (payload_bytes s)) ++
    payload_bytes s
  | SegAck s =>
    put_be 2 (aConv s) ++ [z2b CommandACK; z2b (aOption s)] ++ put_be 4 (ReceivingWindow s) ++
    put_be 4 (aReceivingNext s) ++ put_be 4 (aTimestamp s) ++ [z2b (zlen (NumberList s))] ++
    concat (map (put_be 4) (NumberList s))
  | SegCmd s =>
    put_be 2 (cConv s) ++ [z2b (Cmd s); z2b (cOption s)] ++ put_be 4 (cSendingNext s) ++
    put_be 4 (cReceivingNext s) ++ put_be 4 (PeerRTO s)
  end.

(** The segments the connection sends: fields in their range, a data payload of
    1 to 2030 bytes, at most [ackNumberLimit] numbers, and a command that is
    neither ACK nor data in a command-only segment. *)
Definition seg_wf (s : Segment) : Prop :=
  match s with
  | SegData s =>
    is_u16 (dConv s) /\ is_u8 (dOption s) /\ is_u32 (dTimestamp s) /\ is_u32 (dNumber s) /\
    is_u32 (dSendingNext s) /\
    match payload s with
    | Some b => buf_wf b /\ 1 <= zlen (content b) <= 2030
    | None => False
    end
  | SegAck s =>
    is_u16 (aConv s) /\ is_u8 (aOption s) /\ is_u32 (ReceivingWindow s) /\
    is_u32 (aReceivingNext s) /\ is_u32 (aTimestamp s) /\
    Forall (fun n => is_u32 n) (NumberList s) /\ (length (NumberList s) <= ackNumberLimit)%nat
  | SegCmd s =>
    is_u16 (cConv s) /\ is_u8 (Cmd s) /\ Cmd s <> CommandData /\ Cmd s <> CommandACK /\
    is_u8 (cOption s) /\ is_u32 (cSendingNext s) /\ is_u32 (cReceivingNext s) /\ is_u32 (PeerRTO s)
  end.

(** What the parser guarantees of a segment, whatever bytes it was given. *)
Definition seg_ok (s : Segment) : Prop :=
  match s with
  | SegData s =>
    is_u16 (dConv s) /\ is_u8 (dOption s) /\ is_u32 (dTimestamp s) /\ is_u32 (dNumber s) /\
    is_u32 (dSendingNext s) /\ transmit s = 0 /\
    match payload s with Some b => buf_wf b | None => False end
  | SegAck s =>
    is_u16 (aConv s) /\ is_u8 (aOption s) /\ is_u32 (ReceivingWindow s) /\
    is_u32 (aReceivingNext s) /\ is_u32 (aTimestamp s) /\ Forall (fun n => is_u32 n) (NumberList s)
  | SegCmd s =>
    is_u16 (cConv s) /\ is_u8 (Cmd s) /\ is_u8 (cOption s) /\ is_u32 (cSendingNext s) /\
    is_u32 (cReceivingNext s) /\ is_u32 (PeerRTO s)
  end.

(** A segment as the peer sees it: the local retransmission state is not sent,
    and the payload arrives in a fresh buffer. *)
Definition received (s : Segment) : Segment :=
  match s with
  | SegData s =>
    SegData {| dConv := dConv s; dOption := dOption s; dTimestamp := dTimestamp s;
               dNumber := dNumber s; dSendingNext := dSendingNext s;
               payload := Some (push New (payload_bytes s)); timeout := 0; transmit := 0 |}
  | s => s
  end.

End KcpSegment.

Import KcpSegment.

(** ** Serialization *)
Lemma put_at_cursor done rest off d :
  off = zlen done -> zlen d <= zlen rest ->
  put_at (done ++ rest) off d = Ok ((done ++ d) ++ drop (length d) rest).
Proof.
  intros -> Hd. unfold put_at. pose proof (zlen_nonneg done). rewrite zlen_app.
  replace (_ && _) with true by lia. f_equal.
  rewrite take_app_length' by (unfold zlen; lia). rewrite <- app_assoc. do 2 f_equal.
  rewrite drop_app_ge by (unfold zlen in *; lia). f_equal. unfold zlen. lia.
Qed.

(** One field of a serialization: the cursor moves behind it. *)
Ltac field :=
  match goal with
  | |- context [put_at (?a ++ ?r) _ ?d] =>
    rewrite (put_at_cursor a r _ d) by len; cbn [mbind res_bind]
  end.

Lemma SerializeNumbers_spec l done rest :
  zlen rest = 4 * zlen l ->
  SerializeNumbers l (done ++ rest) (zlen done) = Ok (done ++ concat (map (put_be 4) l)).
Proof.
  revert done rest. induction l as [|n l IH]; intros done rest Hr.
  - assert (rest = []) as -> by (destruct rest; [done|len]). done.
  - cbn [SerializeNumbers]. rewrite zlen_cons in Hr.
    rewrite (put_at_cursor done rest) by len. cbn [mbind res_bind].
    replace (zlen done + 4) with (zlen (done ++ put_be 4 n)) by len.
    rewrite IH by len. cbn [map concat]. by rewrite <- app_assoc.
Qed.

Lemma copy_at_app (a b c : bytes) n :
  length a = n -> length b = length c -> (copy_at (a ++ b) n c).1 = a ++ c.
Proof.
  intros <- Hb. unfold copy_at. cbn [fst]. rewrite take_app_length, length_app.
  rewrite Nat.min_r by lia. rewrite (take_ge c) by lia. f_equal.
  rewrite drop_app_ge by lia. rewrite drop_ge by lia. by rewrite app_nil_r.
Qed.

Lemma ByteSize_wire s : seg_wf s -> ByteSize s = zlen (wire s).
Proof.
  destruct s as [s|s|s]; simpl; intros Hwf.
  - destruct Hwf as (_ & _ & _ & _ & _ & Hp). unfold payload_bytes. destruct (payload s) as [b|]; [|done].
    rewrite (Len_wf b) by tauto. destruct Hp as [_ ?]. rewrite i32_small by lia. len.
  - destruct Hwf as (_ & _ & _ & _ & _ & _ & Hl). unfold ackNumberLimit in Hl.
    assert (Hc : zlen (concat (map (put_be 4) (NumberList s))) = zlen (NumberList s) * 4).
    { clear. induction (NumberList s) as [|n l IH]; [done|]. cbn [map concat]. len. }
    rewrite i32_small by len. len.
  - len.
Qed.

(** [Serialize] writes the wire format over whatever the slice held. *)
Lemma Serialize_wire s b : seg_wf s -> zlen b = ByteSize s -> Serialize s b = Ok (wire s).
Proof.
  intros Hwf Hb. rewrite (ByteSize_wire s Hwf) in Hb. destruct s as [s|s|s]; simpl in Hb |- *.
  - destruct Hwf as (_ & _ & _ & _ & _ & Hp). unfold SerializeData, payload_bytes in *.
    destruct (payload s) as [p|]; [|done]. destruct Hp as [Hp Hl].
    rewrite (Len_wf p Hp). rewrite u16_small by lia.
    rewrite <- (app_nil_l b) at 1. do 7 field. cbn [or_panic mbind res_bind].
    rewrite (Bytes_wf p Hp). cbn [mbind res_bind].
    rewrite from_app by len. cbn [mbind res_bind]. rewrite copy_at_app by len.
    rewrite <- !app_assoc. reflexivity.
  - unfold SerializeAck. rewrite <- (app_nil_l b) at 1. do 7 field.
    match goal with |- SerializeNumbers _ (?d ++ ?r) 17 = _ =>
      replace 17 with (zlen d) by len; rewrite SerializeNumbers_spec end.
    + rewrite <- !app_assoc. reflexivity.
    + assert (Hc : length (concat (map (put_be 4) (NumberList s))) = (length (NumberList s) * 4)%nat).
      { clear. induction (NumberList s) as [|n l IH]; [done|]. cbn [map concat]. len. }
      len.
  - unfold SerializeCmd. rewrite <- (app_nil_l b) at 1. do 5 field.
    rewrite (put_at_cursor _ _ 12) by len. rewrite drop_ge by len.
    rewrite app_nil_r, <- !app_assoc. reflexivity.
Qed.

(** ** Parsing *)

(** One integer field of a parser, taken off the front. *)
Ltac take_field :=
  first [ rewrite Uint32_app by len | rewrite Uint16_app by len ]; cbn [mbind res_bind];
  rewrite from_app by len; cbn [mbind res_bind];
  rewrite get_be_put_be_small by (change (256 ^ Z.of_nat 4) with (2 ^ 32);
                                  change (256 ^ Z.of_nat 2) with (2 ^ 16); lia).

Lemma parseNumbers_spec l s rest :
  Forall (fun n => is_u32 n) l ->
  parseNumbers (length l) s (concat (map (put_be 4) l) ++ rest) =
    Ok ({| aConv := aConv s; aOption := aOption s; ReceivingWindow := ReceivingWindow s;
           aReceivingNext := aReceivingNext s; aTimestamp := aTimestamp s;
           NumberList := NumberList s ++ l |}, rest).
Proof.
  intros Hl. revert s. induction Hl as [|n l Hn Hl IH]; intros s.
  - simpl. rewrite app_nil_r. by destruct s.
  - cbn [map concat length parseNumbers]. rewrite <- app_assoc. take_field.
    rewrite IH. simpl. by rewrite <- app_assoc.
Qed.

Lemma slice_prefix (a b : bytes) n : n = zlen a -> slice (a ++ b) 0 n = Some a.
Proof.
  intros ->. pose proof (zlen_nonneg a). pose proof (zlen_nonneg b).
  rewrite slice_Some by (rewrite ?zlen_app; lia). change (Z.to_nat 0) with 0%nat.
  rewrite drop_0. f_equal. apply take_app_length'. unfold zlen. lia.
Qed.

(** The common header of the three segments. *)
Lemma ReadSegment_header conv cmd opt rest :
  is_u16 conv -> is_u8 cmd -> is_u8 opt ->
  ReadSegment (put_be 2 conv ++ [z2b cmd; z2b opt] ++ rest) =
    if cmd =? CommandData then r ← parseData conv opt rest; Ok (as_segment SegData r)
    else if cmd =? CommandACK then r ← parseAck conv opt rest; Ok (as_segment SegAck r)
    else r ← parseCmd conv cmd opt rest; Ok (as_segment SegCmd r).
Proof.
  intros Hc Hm Ho. unfold ReadSegment. replace (zlen _ <? 4) with false by len.
  take_field. change (index ([z2b cmd; z2b opt] ++ rest) 0) with (Some (z2b cmd)).
  change (index ([z2b cmd; z2b opt] ++ rest) 1) with (Some (z2b opt)). cbn [or_panic mbind res_bind].
  rewrite from_app by len. cbn [mbind res_bind]. by rewrite !z2b_small by done.
Qed.

Lemma parseData_spec conv opt ts n sn p rest :
  is_u32 ts -> is_u32 n -> is_u32 sn -> 1 <= zlen p <= 2030 ->
  parseData conv opt (put_be 4 ts ++ put_be 4 n ++ put_be 4 sn ++ put_be 2 (zlen p) ++ p ++ rest) =
    Ok (Some ({| dConv := conv; dOption := opt; dTimestamp := ts; dNumber := n; dSendingNext := sn;
                 payload := Some (push New p); timeout := 0; transmit := 0 |}, rest)).
Proof.
  intros Ht Hn Hs Hp. unfold parseData. replace (zlen _ <? 15) with false by len.
  do 4 take_field. replace (zlen (p ++ rest) <? zlen p) with false by len.
  rewrite slice_prefix by done. cbn [or_panic mbind res_bind]. rewrite from_app by done.
  cbn [mbind res_bind]. change (Clear (Data NewDataSegment)) with New.
  by rewrite (Write_fits New New_wf) by (rewrite New_room; lia).
Qed.

Lemma parseAck_spec conv opt w nx ts l rest :
  is_u32 w -> is_u32 nx -> is_u32 ts -> Forall (fun n => is_u32 n) l ->
  (length l <= ackNumberLimit)%nat ->
  parseAck conv opt (put_be 4 w ++ put_be 4 nx ++ put_be 4 ts ++ [z2b (zlen l)] ++
                     concat (map (put_be 4) l) ++ rest) =
    Ok (Some ({| aConv := conv; aOption := opt; ReceivingWindow := w; aReceivingNext := nx;
                 aTimestamp := ts; NumberList := l |}, rest)).
Proof.
  intros Hw Hn Ht Hl Hlen. unfold ackNumberLimit in Hlen. unfold parseAck.
  replace (zlen _ <? 13) with false by len. do 3 take_field.
  change (index ([z2b (zlen l)] ++ ?r) 0) with (Some (z2b (zlen l))). cbn [or_panic mbind res_bind].
  rewrite from_app by len. cbn [mbind res_bind]. rewrite z2b_small by len.
  assert (Hc : zlen (concat (map (put_be 4) l)) = zlen l * 4).
  { clear. induction l as [|n l IH]; [done|]. cbn [map concat]. len. }
  rewrite zlen_app, Hc. pose proof (zlen_nonneg rest). replace (_ <? _) with false by lia.
  replace (Z.to_nat (zlen l)) with (length l) by (unfold zlen; lia).
  by rewrite parseNumbers_spec.
Qed.

Lemma parseCmd_spec conv cmd opt sn rn rto rest :
  is_u32 sn -> is_u32 rn -> is_u32 rto ->
  parseCmd conv cmd opt (put_be 4 sn ++ put_be 4 rn ++ put_be 4 rto ++ rest) =
    Ok (Some ({| cConv := conv; Cmd := cmd; cOption := opt; cSendingNext := sn;
                 cReceivingNext := rn; PeerRTO := rto |}, rest)).
Proof.
  intros. unfold parseCmd. replace (zlen _ <? 12) with false by len. by do 3 take_field.
Qed.

Lemma ReadSegment_wire s rest :
  seg_wf s -> ReadSegment (wire s ++ rest) = Ok (Some (received s, rest)).
Proof.
  destruct s as [s|s|s]; cbn [seg_wf wire]; intros Hwf; rewrite <- !app_assoc.
  - destruct Hwf as (Hc & Ho & Ht & Hn & Hs & Hp). unfold payload_bytes in *. cbn [received].
    unfold payload_bytes. destruct (payload s) as [p|]; [|done].
    rewrite ReadSegment_header by (done || unfold CommandData; lia).
    cbn [Z.eqb]. change (CommandData =? CommandData) with true. cbn [mbind res_bind].
    by rewrite parseData_spec by tauto.
  - destruct Hwf as (Hc & Ho & Hw & Hn & Ht & Hl & Hlen).
    rewrite ReadSegment_header by (done || unfold CommandACK; lia).
    change (CommandACK =? CommandData) with false. change (CommandACK =? CommandACK) with true.
    cbn [mbind res_bind]. rewrite parseAck_spec by done. by destruct s.
  - destruct Hwf as (Hc & Hm & Hd & Ha & Ho & Hs & Hr & Hp).
    rewrite ReadSegment_header by done.
    replace (Cmd s =? CommandData) with false by lia. replace (Cmd s =? CommandACK) with false by lia.
    cbn [mbind res_bind]. rewrite parseCmd_spec by done. by destruct s.
Qed.

Lemma wire_ne s : seg_wf s -> (4 <= length (wire s))%nat.
Proof. destruct s; intros _; cbn [wire]; len. Qed.

Lemma ReadSegments_wire ss fuel :
  Forall seg_wf ss -> (length ss <= fuel)%nat ->
  ReadSegments fuel (concat (map wire ss)) = Ok (map received ss).
Proof.
  intros Hss. revert fuel. induction Hss as [|s ss Hs Hss IH]; intros fuel Hf; [by destruct fuel|].
  destruct fuel as [|fuel]; [simpl in Hf; lia|]. cbn [map concat ReadSegments].
  pose proof (wire_ne s Hs). destruct (wire s ++ concat (map wire ss)) eqn:E.
  { apply app_eq_nil in E as [E _]. rewrite E in *. simpl in *. lia. }
  rewrite <- E, ReadSegment_wire by done. cbn [mbind res_bind].
  rewrite IH by (simpl in Hf; lia). done.
Qed.

(** ** The parser on hostile bytes *)
Lemma Uint32_total b : 4 <= zlen b -> exists n, Uint32 b = Ok n /\ is_u32 n.
Proof.
  intros Hb. unfold Uint32. rewrite slice_Some by lia. cbn [or_panic mbind res_bind].
  eexists. split; [done|]. match goal with |- _ <= get_be ?d < _ => pose proof (get_be_range d) as Hr end.
  replace (zlen _) with 4 in Hr by len. lia.
Qed.

Lemma Uint16_total b : 2 <= zlen b -> exists n, Uint16 b = Ok n /\ is_u16 n.
Proof.
  intros Hb. unfold Uint16. rewrite slice_Some by lia. cbn [or_panic mbind res_bind].
  eexists. split; [done|]. match goal with |- _ <= get_be ?d < _ => pose proof (get_be_range d) as Hr end.
  replace (zlen _) with 2 in Hr by len. lia.
Qed.

Lemma from_total {A} (b : list A) n :
  0 <= n <= zlen b -> exists b', from b n = Ok b' /\ zlen b' = zlen b - n.
Proof.
  intros Hn. unfold from. rewrite slice_Some by lia. eexists. split; [done|]. len.
Qed.

Lemma index_total (b : bytes) i : 0 <= i < zlen b -> exists x, index b i = Some x.
Proof.
  intros Hi. unfold index. replace (0 <=? i) with true by lia.
  destruct (b !! Z.to_nat i) eqn:E; [eauto|]. apply lookup_ge_None in E. len.
Qed.

(** One checked field access on a buffer long enough: name its value. *)
Ltac total_field :=
  match goal with
  | |- context [Uint32 ?b] =>
    let n := fresh "n" in let E := fresh "E" in
    destruct (Uint32_total b) as (n & E & ?); [lia|]; rewrite E; clear E; cbn [mbind res_bind]
  | |- context [Uint16 ?b] =>
    let n := fresh "n" in let E := fresh "E" in
    destruct (Uint16_total b) as (n & E & ?); [lia|]; rewrite E; clear E; cbn [mbind res_bind]
  | |- context [from ?b ?k] =>
    let n := fresh "b" in let E := fresh "E" in
    destruct (from_total b k) as (n & E & ?); [lia|]; rewrite E; clear E; cbn [mbind res_bind]
  | |- context [index ?b ?k] =>
    let n := fresh "x" in let E := fresh "E" in
    destruct (index_total b k) as (n & E); [lia|]; rewrite E; clear E; cbn [or_panic mbind res_bind]
  end.

Lemma parseNumbers_total count s b :
  Z.of_nat count * 4 <= zlen b -> seg_ok (SegAck s) ->
  exists s' b', parseNumbers count s b = Ok (s', b') /\ zlen b' <= zlen b /\ seg_ok (SegAck s').
Proof.
  revert s b. induction count as [|c IH]; intros s b Hb Hs; [by eexists _, _|].
  cbn [parseNumbers]. do 2 total_field.
  destruct (IH (PutNumber s n) b0) as (s' & b' & -> & ? & ?); [lia| |eexists _, _; split; [done|split; [lia|done]]].
  cbn [seg_ok] in *. destruct Hs as (?&?&?&?&?&?). do 5 (split; [done|]). simpl. apply Forall_app. by rewrite Forall_singleton.
Qed.

(** The parser yields a segment and a shorter rest, or nothing. *)
Lemma ReadSegment_total b :
  exists o, ReadSegment b = Ok o /\
    match o with Some (s, rest) => zlen rest < zlen b /\ seg_ok s | None => True end.
Proof.
  unfold ReadSegment. destruct (zlen b <? 4) eqn:E4; [by exists None|].
  do 5 total_field. pose proof (b2z_range x) as Hx. pose proof (b2z_range x0).
  destruct (b2z x0 =? CommandData); [|destruct (b2z x0 =? CommandACK)].
  - unfold parseData. destruct (zlen b1 <? 15) eqn:E15; [by exists None|].
    do 8 total_field. destruct (zlen b5 <? n3) eqn:E; [by exists None|].
    rewrite slice_Some by lia. cbn [or_panic mbind res_bind]. total_field.
    change (Clear (Data NewDataSegment)) with New. rewrite (Write_spec New New_wf).
    eexists. split; [done|]. split; [lia|]. do 6 (split; [done|]). apply push_wf; [done|].
    pose proof New_room. unfold zlen. rewrite length_take. lia.
  - unfold parseAck. destruct (zlen b1 <? 13) eqn:E13; [by exists None|].
    do 8 total_field. pose proof (b2z_range x1).
    match goal with |- context [if ?c then _ else _] => destruct c eqn:E; [by exists None|] end.
    match goal with |- context [parseNumbers ?c ?s ?b] =>
      destruct (parseNumbers_total c s b) as (s' & b' & -> & ? & ?); [lia|do 5 (split; [done|]); by constructor|] end.
    eexists. split; [done|]. split; [lia|done].
  - unfold parseCmd. destruct (zlen b1 <? 12) eqn:E12; [by exists None|].
    do 6 total_field. eexists. split; [done|]. split; [lia|]. by do 5 (split; [done|]).
Qed.

Lemma ReadSegments_total fuel b : exists ss, ReadSegments fuel b = Ok ss /\ Forall seg_ok ss.
Proof.
  revert b. induction fuel as [|f IH]; intros b; [exists []; by destruct b|].
  destruct b as [|x b]; [by exists []|]. cbn [ReadSegments].
  destruct (ReadSegment_total (x :: b)) as (o & -> & Ho). cbn [mbind res_bind].
  destruct o as [[seg rest]|]; [|by exists []]. destruct (IH rest) as (ss & -> & Hss).
  exists (seg :: ss). split; [done|]. constructor; tauto.
Qed.

(** More fuel than bytes changes nothing: every segment takes at least one. *)
Lemma ReadSegments_fuel f1 f2 b :
  (length b <= f1)%nat -> (length b <= f2)%nat -> ReadSegments f1 b = ReadSegments f2 b.
Proof.
  revert f2 b. induction f1 as [|f1 IH]; intros f2 b H1 H2.
  - destruct b; [|simpl in H1; lia]. by destruct f2.
  - destruct b as [|x b]; [by destruct f2|]. destruct f2 as [|f2]; [simpl in H2; lia|].
    cbn [ReadSegments]. destruct (ReadSegment_total (x :: b)) as (o & -> & Ho). cbn [mbind res_bind].
    destruct o as [[seg rest]|]; [|done]. destruct Ho as [Ho _]. rewrite zlen_cons in Ho.
    unfold zlen in Ho. simpl in H1, H2. by rewrite (IH f2 rest) by lia.
Qed.

(** ** xor.go: the two passes are inverse to each other *)
Lemma bxor_bxor a b : bxor (bxor a b) b = a.
Proof.
  apply b2z_inj. unfold bxor. rewrite !b2z_z2b. pose proof (b2z_range a). pose proof (b2z_range b).
  assert (Hl : forall x y, is_u8 x -> is_u8 y -> is_u8 (Z.lxor x y)).
  { intros x y Hx Hy. split; [apply Z.lxor_nonneg; lia|].
    destruct (Z.eq_dec (Z.lxor x y) 0) as [->|Hne]; [lia|].
    assert (0 <= Z.lxor x y) by (apply Z.lxor_nonneg; lia).
    apply Z.log2_lt_pow2; [lia|]. pose proof (Z.log2_lxor x y ltac:(lia) ltac:(lia)).
    assert (forall z, is_u8 z -> Z.log2 z < 8) as Hz.
    { intros z Hz. destruct (Z.eq_dec z 0) as [->|]; [done|]. apply Z.log2_lt_pow2; lia. }
    pose proof (Hz x Hx). pose proof (Hz y Hy). lia. }
  rewrite (u8_small (Z.lxor (b2z a) (b2z b))) by by apply Hl.
  rewrite Z.lxor_assoc, Z.lxor_nilpotent, Z.lxor_0_r. by apply u8_small.
Qed.

Lemma xor_at_length x i : length (xor_at x i) = length x.
Proof. unfold xor_at. repeat case_match; by rewrite ?length_insert. Qed.

Lemma xor_at_involutive x i : (4 <= i)%nat -> xor_at (xor_at x i) i = x.
Proof.
  intros Hi. unfold xor_at at 2. destruct (x !! i) as [a|] eqn:Ea.
  - destruct (x !! (i - 4)%nat) as [b|] eqn:Eb.
    + unfold xor_at. rewrite list_lookup_insert_eq by (by eapply lookup_lt_Some).
      rewrite list_lookup_insert_ne by lia. rewrite Eb, bxor_bxor, list_insert_insert_eq.
      by apply list_insert_id.
    + unfold xor_at. by rewrite Ea, Eb.
  - unfold xor_at. by rewrite Ea.
Qed.

Lemma xor_fold_length l x : length (foldl xor_at x l) = length x.
Proof. revert x. induction l as [|i l IH]; intros x; simpl; [done|]. by rewrite IH, xor_at_length. Qed.

Lemma xor_fold_rev l x :
  Forall (fun i => 4 <= i)%nat l -> foldl xor_at (foldl xor_at x l) (rev l) = x.
Proof.
  intros Hl. revert x. induction Hl as [|i l Hi Hl IH]; intros x; [done|]. cbn [foldl rev].
  rewrite foldl_app, IH. by apply xor_at_involutive.
Qed.

Lemma xorbkd_xorfwd x : xorbkd (xorfwd x) = x.
Proof.
  unfold xorbkd, xorfwd. rewrite xor_fold_length. apply xor_fold_rev.
  apply Forall_forall. intros i Hi. apply elem_of_seq in Hi. lia.
Qed.

(** Each pass looks backwards only: the first [n] bytes are a function of the
    first [n] bytes. *)
Lemma xor_at_take n x y i :
  length x = length y -> take n x = take n y -> take n (xor_at x i) = take n (xor_at y i).
Proof.
  intros Hl Ht. assert (Hlk : forall j, (j < n)%nat -> x !! j = y !! j).
  { intros j Hj. rewrite <- (lookup_take_lt x n j Hj), <- (lookup_take_lt y n j Hj). by rewrite Ht. }
  destruct (Nat.lt_ge_cases i n) as [Hi|Hi].
  - unfold xor_at. rewrite !Hlk by lia. destruct (y !! i), (y !! (i - 4)%nat); try done.
    rewrite !take_insert_lt by done. by rewrite Ht.
  - unfold xor_at. repeat case_match; rewrite ?take_insert_ge by done; done.
Qed.

Lemma xor_fold_take n l x y :
  length x = length y -> take n x = take n y ->
  take n (foldl xor_at x l) = take n (foldl xor_at y l).
Proof.
  revert x y. induction l as [|i l IH]; intros x y Hl Ht; [done|]. cbn [foldl].
  apply IH; [by rewrite !xor_at_length|by apply xor_at_take].
Qed.

(** ** crypt.go *)
Lemma pad4_prefix d : exists p, pad4 d = d ++ p.
Proof. unfold pad4. case_match; [exists []; by rewrite app_nil_r|by eexists]. Qed.

Lemma pad4_length d d' : length d = length d' -> length (pad4 d) = length (pad4 d').
Proof. intros H. unfold pad4. rewrite H. case_match; [done|]. rewrite !length_app. len. Qed.

Lemma SimpleSeal_length n p : zlen (SimpleSeal n p) = zlen p + 6.
Proof.
  unfold SimpleSeal. match goal with |- context [take (length ?d) _] => set (dst := d) end.
  destruct (pad4_prefix dst) as [q Hq]. unfold zlen. rewrite length_take. unfold xorfwd.
  rewrite xor_fold_length, Hq. rewrite length_app. unfold dst. len.
Qed.

Lemma unxor d : take (length d) (xorbkd (pad4 (take (length d) (xorfwd (pad4 d))))) = d.
Proof.
  set (c := take (length d) (xorfwd (pad4 d))). destruct (pad4_prefix d) as [q Hq].
  assert (Hlen : length (xorfwd (pad4 d)) = length (pad4 d)) by apply xor_fold_length.
  assert (Hc : length c = length d).
  { unfold c. rewrite length_take, Hlen, Hq, length_app. lia. }
  assert (Hp : length (pad4 c) = length (xorfwd (pad4 d))).
  { rewrite Hlen. by apply pad4_length. }
  destruct (pad4_prefix c) as [q' Hq'].
  transitivity (take (length d) (xorbkd (xorfwd (pad4 d)))).
  - unfold xorbkd at 1 2. rewrite Hp. apply xor_fold_take; [done|].
    rewrite Hq', take_app_le by lia. rewrite take_ge by lia. done.
  - rewrite xorbkd_xorfwd, Hq, take_app_le by lia. by rewrite take_ge.
Qed.

Lemma SimpleOpen_Seal n p : zlen p < 2 ^ 16 -> SimpleOpen n (SimpleSeal n p) = Ok (Some p).
Proof.
  intros Hp. unfold SimpleSeal. set (body := put_be 2 (u16 (zlen p)) ++ p).
  match goal with |- context [drop 4 (?a ++ ?b)] => change (drop 4 (a ++ b)) with body end.
  set (dst := put_be 4 (fnv32a body) ++ body).
  change (replicate 4 x00 ++ put_be 2 (u16 (zlen p)) ++ p) with (replicate 4 x00 ++ body).
  unfold SimpleOpen.
  assert (length (take (length dst) (xorfwd (pad4 dst))) = length dst) as ->.
  { destruct (pad4_prefix dst) as [q Hq]. rewrite length_take. unfold xorfwd.
    rewrite xor_fold_length, Hq, length_app. lia. }
  rewrite unxor. pose proof (fnv32a_range body). pose proof (zlen_nonneg p).
  assert (from dst 4 = Ok body) as -> by (apply from_app; len). cbn [mbind res_bind].
  assert (Uint32 dst = Ok (fnv32a body)) as ->.
  { unfold dst. rewrite Uint32_app by len. f_equal.
    apply get_be_put_be_small. change (256 ^ Z.of_nat 4) with (2 ^ 32). lia. }
  cbn [mbind res_bind]. rewrite Z.eqb_refl. cbn [negb].
  assert (slice dst 4 6 = Some (put_be 2 (u16 (zlen p)))) as ->.
  { rewrite slice_Some by (unfold dst, body; len). f_equal. }
  cbn [or_panic mbind res_bind].
  rewrite get_be_put_be_small by (change (256 ^ Z.of_nat 2) with (2 ^ 16); apply u16_range).
  rewrite (u16_small (zlen p)) by lia.
  replace (zlen dst - 6 =? zlen p) with true by (unfold dst, body; len). cbn [negb].
  assert (from dst 6 = Ok p) as ->; [|done]. unfold dst, body. rewrite app_assoc. apply from_app. len.
Qed.

(** ** Packets *)

(** What the packet writer relies on in its cipher: [Open] undoes [Seal] under
    the same nonce, or under any nonce when it takes none. *)
Definition aead_ok (a : AEAD) : Prop :=
  0 <= NonceSize a <= 64 /\ 0 <= Overhead a <= 64 /\
  forall n m p, NonceSize a = 0 \/ (m = n /\ zlen n = NonceSize a) -> zlen p < 2 ^ 16 ->
    Open a m (Seal a n p) = Some p /\ zlen (Seal a n p) = Overhead a + zlen p.

Definition header_of (header : option PacketHeader) : bytes :=
  match header with Some h => hdr_bytes h | None => [] end.
Definition sec_ok (security : option AEAD) : Prop :=
  match security with Some a => aead_ok a | None => True end.
Definition sec_size (security : option AEAD) : Z :=
  match security with Some a => NonceSize a + Overhead a | None => 0 end.
Definition nonce_size (security : option AEAD) : Z :=
  match security with Some a => NonceSize a | None => 0 end.

(** The bytes of a packet.  A cipher without nonce is handed the header: the
    slice [BytesFrom(-0)] of the writer is the whole buffer. *)
Definition sealed (hb : bytes) (a : AEAD) (rnd b : bytes) : bytes :=
  let n := take (Z.to_nat (NonceSize a)) rnd in
  n ++ Seal a (if NonceSize a =? 0 then hb else n) b.

Definition packet (header : option PacketHeader) (security : option AEAD) (rnd b : bytes) : bytes :=
  header_of header ++
  match security with Some a => sealed (header_of header) a rnd b | None => b end.

(** [Extend] and a copy into it, on a fresh buffer that holds [hb]. *)
Lemma extend_fresh hb d n :
  n = zlen d -> zlen hb + zlen d <= 2048 ->
  exists ext w, Extend (push New hb) n = Ok (ext, w) /\ poke ext w d = push New (hb ++ d).
Proof.
  intros -> Hl. pose proof (zlen_nonneg d). pose proof (zlen_nonneg hb).
  assert (zlen hb <= room New) by (rewrite New_room; lia).
  destruct (Extend_poke (push New hb) d (zlen d)) as (e & E & P & _);
    [by apply push_wf|done|by rewrite push_room, New_room by done; lia|].
  exists e, (end_ (push New hb), end_ (push New hb) + zlen d). split; [done|]. rewrite P.
  apply push_push; [done|]. rewrite New_room. lia.
Qed.

Lemma Bytes_fresh d : zlen d <= 2048 -> Bytes (push New d) = Ok d.
Proof.
  intros Hd. rewrite Bytes_wf by (apply push_wf; [done|by rewrite New_room]).
  by rewrite push_content.
Qed.

Lemma nonce_fresh hb n :
  zlen hb + zlen n <= 2048 ->
  BytesFrom (push New (hb ++ n)) (- zlen n) = Ok (if zlen n =? 0 then hb else n).
Proof.
  intros Hl. pose proof (zlen_nonneg n).
  assert (Hwf : buf_wf (push New (hb ++ n))) by (apply push_wf; [done|rewrite New_room, zlen_app; lia]).
  assert (Hc : content (push New (hb ++ n)) = hb ++ n) by by rewrite push_content.
  destruct (zlen n =? 0) eqn:E.
  - destruct n; [|len]. change (- zlen []) with 0. rewrite BytesFrom_zero by done.
    by rewrite Hc, app_nil_r.
  - pose proof (zlen_nonneg hb). rewrite BytesFrom_neg; [|done|rewrite Hc, zlen_app; lia].
    rewrite Hc, zlen_app. f_equal. apply drop_app_length'. unfold zlen. lia.
Qed.

Lemma PacketWrite_spec header security rnd b :
  sec_ok security -> nonce_size security <= zlen rnd ->
  zlen (header_of header) + sec_size security + zlen b <= 2048 ->
  PacketWrite header security rnd b = Ok (packet header security rnd b).
Proof.
  intros Hs Hr Hl. unfold PacketWrite, packet. set (hb := header_of header) in *.
  pose proof (zlen_nonneg b). pose proof (zlen_nonneg hb).
  assert (0 <= sec_size security) by (destruct security; simpl in *; unfold aead_ok in *; lia).
  assert (Hh : (match header with None => Ok StackNew
     | Some h => '(bb, w) ← Extend StackNew (hdr_size h); Ok (poke bb w (hdr_bytes h)) end)
     = Ok (push New hb)).
  { destruct header as [h|]; [|by rewrite push_nil]. change StackNew with New.
    rewrite <- (push_nil New) at 1 by done.
    destruct (extend_fresh [] (hdr_bytes h) (hdr_size h)) as (e & w & -> & E); [done| |].
    - unfold hb in *. cbn [header_of] in *. rewrite zlen_nil. lia.
    - cbn [mbind res_bind]. by rewrite E. }
  rewrite Hh. cbn [mbind res_bind]. clear Hh.
  assert (Hroom : zlen hb <= room New) by (rewrite New_room; lia).
  pose proof (push_wf New New_wf hb Hroom) as Hwf.
  assert (Hrm : room (push New hb) = 2048 - zlen hb) by by rewrite push_room, New_room.
  destruct security as [a|]; simpl in Hl, Hr, Hs.
  - destruct Hs as (Hn & Ho & Hseal). unfold sealed. set (n := take (Z.to_nat (NonceSize a)) rnd).
    assert (Hnl : zlen n = NonceSize a) by (unfold n, zlen in *; rewrite length_take; lia).
    destruct (ReadFullFrom_spec (push New hb) Hwf (conn_of rnd) ltac:(exact I) (NonceSize a)) as (r' & _ & _ & _ & ->);
      [lia|]. change (rd_content (conn_of rnd)) with (rnd ++ []). rewrite app_nil_r.
    replace (NonceSize a <=? zlen rnd) with true by lia. fold n.
    rewrite push_push by (done || (rewrite New_room; lia)). rewrite <- Hnl at 1. rewrite nonce_fresh by lia.
    rewrite Hnl. cbn [mbind res_bind]. set (nonce := if NonceSize a =? 0 then hb else n).
    rewrite i32_small by lia. destruct (Hseal nonce nonce b) as [_ Hsl]; [|lia|].
    { unfold nonce. destruct (NonceSize a =? 0) eqn:E; [left; lia|by right]. }
    destruct (extend_fresh (hb ++ n) (Seal a nonce b) (Overhead a + zlen b)) as (e & w & -> & E);
      [lia|rewrite zlen_app; lia|].
    cbn [mbind res_bind]. rewrite E, Bytes_fresh; [by rewrite <- app_assoc|rewrite !zlen_app; lia].
  - rewrite Write_fits by (done || lia). cbn [mbind res_bind]. rewrite push_push by (done || (rewrite New_room; lia)).
    apply Bytes_fresh. rewrite zlen_app. lia.
Qed.

(** [SegmentWrite] hands the wire format to the packet writer. *)
Lemma SegmentWrite_spec seg b :
  seg_wf seg -> buf_wf b -> 2048 <= zlen (v b) ->
  SegmentWrite seg b = Ok (push (Clear b) (wire seg), wire seg).
Proof.
  intros Hs Hb Hv. unfold SegmentWrite. pose proof (Clear_wf b Hb) as Hc.
  assert (Hl : zlen (wire seg) <= 2048).
  { destruct seg as [s|s|s]; cbn [wire]; simpl in Hs.
    - destruct Hs as (_&_&_&_&_&Hp). unfold payload_bytes. destruct (payload s); [|done].
      destruct Hp as [_ Hp]. len.
    - destruct Hs as (_&_&_&_&_&_&Hn). unfold ackNumberLimit in Hn.
      assert (zlen (concat (map (put_be 4) (NumberList s))) = zlen (NumberList s) * 4).
      { clear. induction (NumberList s) as [|n l IH]; [done|]. cbn [map concat]. len. }
      len.
    - len. }
  rewrite (ByteSize_wire seg Hs).
  destruct (Extend_poke (Clear b) (wire seg) _ Hc eq_refl) as (e & -> & E & Ev); [unfold room; simpl; lia|].
  cbn [mbind res_bind fst snd]. rewrite (Serialize_wire seg) by
    (done || rewrite (ByteSize_wire seg Hs), Ev; pose proof (zlen_nonneg (wire seg));
     unfold zlen in *; rewrite length_take, length_drop; simpl in *; lia).
  cbn [mbind res_bind]. rewrite E, Bytes_wf by (apply push_wf; [done|unfold room; simpl; lia]).
  cbn [mbind res_bind]. by rewrite push_content.
Qed.

Lemma PacketRead_spec header security rnd b :
  sec_ok security -> nonce_size security <= zlen rnd ->
  zlen (header_of header) + sec_size security + zlen b <= 2048 -> b <> [] ->
  PacketRead header security (packet header security rnd b) = ReadSegments (length b) b.
Proof.
  intros Hs Hr Hl Hb. assert (0 < zlen b) by (destruct b; [done|len]).
  pose proof (zlen_nonneg (header_of header)). unfold packet, PacketRead.
  set (body := match security with Some a => _ | None => _ end).
  assert (Hbody : zlen body = sec_size security + zlen b).
  { unfold body, sealed. destruct security as [a|]; [|done]. destruct Hs as (? & ? & Hs).
    simpl in *. set (n := take _ _). assert (zlen n = NonceSize a) by (unfold n, zlen in *; rewrite length_take; lia).
    set (nonce := if NonceSize a =? 0 then header_of header else n). destruct (Hs nonce nonce b) as [_ Hl']; [|lia|rewrite zlen_app; lia].
    unfold nonce. destruct (NonceSize a =? 0) eqn:E; [left; lia|by right]. }
  assert (0 <= sec_size security) by (destruct security; simpl in *; unfold aead_ok in *; lia).
  assert (Hh : (match header with None => Ok (Some (header_of header ++ body))
     | Some h => if i32 (zlen (header_of header ++ body)) <=? hdr_size h then Ok None
                 else b ← from (header_of header ++ body) (hdr_size h); Ok (Some b) end) = Ok (Some body)).
  { destruct header as [h|]; [|done]. cbn [header_of] in *. pose proof (zlen_nonneg (hdr_bytes h)).
    rewrite i32_small by (rewrite zlen_app; lia). unfold hdr_size.
    replace (_ <=? _) with false by (rewrite zlen_app; lia). by rewrite from_app. }
  rewrite Hh. cbn [mbind res_bind]. destruct security as [a|]; [|done].
  simpl in Hs, Hr, Hl, Hbody. destruct Hs as (? & ? & Hs).
  replace (zlen body <=? _) with false by lia. unfold body, sealed. set (n := take _ _).
  assert (zlen n = NonceSize a) by (unfold n, zlen in *; rewrite length_take; lia).
  rewrite slice_prefix by done. cbn [or_panic mbind res_bind]. rewrite from_app by done.
  cbn [mbind res_bind]. set (nonce := if NonceSize a =? 0 then header_of header else n).
  destruct (Hs nonce n b) as [-> _]; [|lia|done].
  unfold nonce. destruct (NonceSize a =? 0) eqn:E; [left; lia|by right].
Qed.

(** C7. A segment the connection sends crosses the network unchanged: the
    segment writer serializes it, the packet writer frames it with the
    configured header and seals it under a fresh nonce, and the packet reader
    of the peer yields exactly that segment (without the local retransmission
    state), for every header, every cipher that opens what it seals, and every
    well-formed data, acknowledgement or command segment that fits a packet. *)
Theorem packet_roundtrip header security rnd seg buffer :
  seg_wf seg -> buf_wf buffer -> 2048 <= zlen (v buffer) ->
  sec_ok security -> nonce_size security <= zlen rnd ->
  zlen (header_of header) + sec_size security + zlen (wire seg) <= 2048 ->
  exists buffer' out p, SegmentWrite seg buffer = Ok (buffer', out) /\
    PacketWrite header security rnd out = Ok p /\
    PacketRead header security p = Ok [received seg].
Proof.
  intros Hseg Hb Hv Hs Hr Hl. eexists _, _, _.
  split; [by apply SegmentWrite_spec|]. split; [by apply PacketWrite_spec|].
  pose proof (wire_ne seg Hseg). rewrite PacketRead_spec; try done.
  - pose proof (ReadSegments_wire [seg] (length (wire seg))) as H1. cbn [map concat] in H1.
    rewrite app_nil_r in H1. apply H1; [by repeat constructor|simpl; lia].
  - intros E. rewrite E in *. simpl in *. lia.
Qed.

Lemma SimpleAuthenticator_ok : aead_ok SimpleAuthenticator.
Proof.
  split; [simpl; lia|]. split; [simpl; lia|]. intros n m p _ Hp.
  pose proof (SimpleSeal_length n p). cbn [Open Seal Overhead SimpleAuthenticator].
  change (SimpleOpen m (SimpleSeal n p)) with (SimpleOpen n (SimpleSeal n p)).
  rewrite SimpleOpen_Seal by done. split; [done|lia].
Qed.

Lemma packet_roundtrip_witness :
  let h := Some {| hdr_bytes := lit "hdr" |} in
  let s := SegData {| dConv := 7; dOption := 1; dTimestamp := 99; dNumber := 5; dSendingNext := 2;
                      payload := Some (push New (lit "hello")); timeout := 3; transmit := 1 |} in
  exists buffer' out p, SegmentWrite s New = Ok (buffer', out) /\
    PacketWrite h (Some SimpleAuthenticator) (lit "rand") out = Ok p /\
    PacketRead h (Some SimpleAuthenticator) p = Ok [received s].
Proof.
  apply packet_roundtrip.
  - repeat split; try lia; by vm_compute.
  - apply New_wf.
  - by vm_compute.
  - apply SimpleAuthenticator_ok.
  - by vm_compute.
  - by vm_compute.
Defined.

(** The legacy authenticator opens what it seals: the backward XOR pass
    undoes the forward one although the receiver pads the packet with zeros
    where the sender had encrypted padding, the checksum and the length agree,
    and the plain text comes out, for every text below 64 KiB. *)
Theorem SimpleAuthenticator_roundtrip nonce plain :
  zlen plain < 2 ^ 16 ->
  SimpleOpen nonce (SimpleSeal nonce plain) = Ok (Some plain) /\
  zlen (SimpleSeal nonce plain) = zlen plain + Overhead SimpleAuthenticator.
Proof. intros Hp. split; [by apply SimpleOpen_Seal|apply SimpleSeal_length]. Qed.

Lemma SimpleAuthenticator_roundtrip_witness :
  SimpleOpen [] (SimpleSeal [] (lit "abc")) = Ok (Some (lit "abc")) /\
  zlen (SimpleSeal [] (lit "abc")) = zlen (lit "abc") + Overhead SimpleAuthenticator.
Proof. apply SimpleAuthenticator_roundtrip. by vm_compute. Defined.

(** C31. Whatever bytes arrive in a datagram, the packet reader returns: no slice
    or index of the parsers runs out of range, and every segment it yields has
    its fields in the range of their types, a payload buffer that is well formed
    and no local retransmission state. *)
Theorem PacketRead_safe header security b :
  zlen b < 2 ^ 31 ->
  (forall a, security = Some a -> 0 <= NonceSize a /\ 0 <= Overhead a) ->
  exists ss, PacketRead header security b = Ok ss /\ Forall seg_ok ss.
Proof.
  intros Hb Ha. unfold PacketRead. pose proof (zlen_nonneg b). rewrite i32_small by lia.
  assert (exists o, (match header with None => Ok (Some b)
     | Some h => if zlen b <=? hdr_size h then Ok None
                 else b ← from b (hdr_size h); Ok (Some b) end) = Ok o) as [o ->].
  { destruct header as [h|]; [|by eexists]. destruct (zlen b <=? hdr_size h) eqn:E; [by eexists|].
    destruct (from_total b (hdr_size h)) as (b' & -> & _); [|by eexists].
    pose proof (zlen_nonneg (hdr_bytes h)). unfold hdr_size in *. lia. }
  cbn [mbind res_bind]. destruct o as [b'|]; [|by exists []].
  destruct security as [a|]; [|apply ReadSegments_total]. destruct (Ha a eq_refl).
  destruct (zlen b' <=? _) eqn:E; [by exists []|]. rewrite slice_Some by lia.
  cbn [or_panic mbind res_bind]. destruct (from_total b' (NonceSize a)) as (c & -> & _); [lia|].
  cbn [mbind res_bind]. destruct (Open a _ c); [apply ReadSegments_total|by exists []].
Qed.

Lemma PacketRead_safe_witness :
  exists ss, PacketRead None (Some SimpleAuthenticator) (lit "some hostile bytes") = Ok ss /\
    Forall seg_ok ss.
Proof.
  apply PacketRead_safe; [by vm_compute|]. intros a [= <-]. split; simpl; lia.
Defined.
