(* ===== verification/KcpRecv.v ===== *)
(** * Package transport/internet/kcp: the receiving side

    [Module KcpRecv] models receiving.go: the window of segments that arrived
    out of order, the list of acknowledgements to send, and the worker that
    delivers the payloads in order.  The locks make each operation atomic; what
    a worker asks of its connection (conversation, state, timeout) is an
    argument, and what it hands to the segment writer is a result. *)
From S2P Require Import Prelude GoStd Buf MultiBuf KcpSegment.
Import Buf MultiBuf KcpSegment.

Module KcpRecv.

(** ** ReceivingWindow: [map[uint32]*DataSegment] *)
Abbreviation RecvWindow := (gmap Z DataSegment).

Definition NewReceivingWindow : RecvWindow := ∅.

Definition Set_ (w : RecvWindow) (id : Z) (value : DataSegment) : RecvWindow * bool :=
  match w !! id with
  | Some _ => (w, false)
  | None => (<[id := value]> w, true)
  end.

Definition Has (w : RecvWindow) (id : Z) : bool := bool_decide (is_Some (w !! id)).

Definition Remove (w : RecvWindow) (id : Z) : RecvWindow * option DataSegment :=
  match w !! id with
  | None => (w, None)
  | Some s => (delete id w, Some s)
  end.

(** ** AckList: three parallel slices.  [flushCandidates] is scratch space of
    capacity 128 that [Flush] empties first. *)
Record AckList := mkAckList {
  timestamps : list Z;
  numbers : list Z;
  nextFlush : list Z;
  dirty : bool;
}.

Definition NewAckList : AckList :=
  {| timestamps := []; numbers := []; nextFlush := []; dirty := false |}.

Definition Add (l : AckList) (number timestamp : Z) : AckList :=
  {| timestamps := timestamps l ++ [timestamp]; numbers := numbers l ++ [number];
     nextFlush := nextFlush l ++ [0]; dirty := true |}.

(** One round of the loop of [Clear], which compacts the slices in place:
    entry [i] moves to [count] unless its number is below [una]. *)
Definition ClearStep (una : Z) (st : nat * AckList) (i : nat) : nat * AckList :=
  let '(count, l) := st in
  if numbers l !!! i <? una then (count, l) else
  (S count,
   if (i =? count)%nat then l else
   {| numbers := <[count := numbers l !!! i]> (numbers l);
      timestamps := <[count := timestamps l !!! i]> (timestamps l);
      nextFlush := <[count := nextFlush l !!! i]> (nextFlush l);
      dirty := dirty l |}).

Definition Clear (l : AckList) (una : Z) : AckList :=
  let '(count, l') := foldl (ClearStep una) (0%nat, l) (seq 0 (length (numbers l))) in
  if (count <? length (numbers l'))%nat then
    {| numbers := take count (numbers l'); timestamps := take count (timestamps l');
       nextFlush := take count (nextFlush l'); dirty := true |}
  else l'.

(** The state of the loop of [Flush]: the segment being filled, the segments
    handed to the writer, the candidates, and the flag. *)
Record flushing := mkFlushing {
  fSeg : AckSegment;
  fOut : list AckSegment;
  fCandidates : list Z;
  fDirty : bool;
}.

Definition flushCap : nat := 128.

(** The loop over the entries: the new [nextFlush] and the final state. *)
Fixpoint FlushLoop (current rto : Z) (ns ts nf : list Z) (st : flushing) : list Z * flushing :=
  match ns, ts, nf with
  | n :: ns, t :: ts, f :: nf =>
    if current <? f then
      let st := if (length (fCandidates st) <? flushCap)%nat
                then {| fSeg := fSeg st; fOut := fOut st; fCandidates := fCandidates st ++ [n];
                        fDirty := fDirty st |}
                else st in
      let '(nf', st) := FlushLoop current rto ns ts nf st in (f :: nf', st)
    else
      let seg := PutTimestamp (PutNumber (fSeg st) n) t in
      let timeout := if rto / 2 <? 20 then 20 else rto / 2 in
      let st := if AckIsFull seg
                then {| fSeg := NewAckSegment; fOut := fOut st ++ [seg]; fCandidates := fCandidates st;
                        fDirty := false |}
                else {| fSeg := seg; fOut := fOut st; fCandidates := fCandidates st;
                        fDirty := fDirty st |} in
      let '(nf', st) := FlushLoop current rto ns ts nf st in (u32 (current + timeout) :: nf', st)
  | _, _, _ => (nf, st)
  end.

Fixpoint PutCandidates (seg : AckSegment) (l : list Z) : AckSegment :=
  match l with
  | [] => seg
  | number :: l' => if AckIsFull seg then seg else PutCandidates (PutNumber seg number) l'
  end.

Definition Flush (l : AckList) (current rto : Z) : AckList * list AckSegment :=
  let '(nf, st) := FlushLoop current rto (numbers l) (timestamps l) (nextFlush l)
    {| fSeg := NewAckSegment; fOut := []; fCandidates := []; fDirty := dirty l |} in
  let go := fDirty st || negb (AckIsEmpty (fSeg st)) in
  ({| timestamps := timestamps l; numbers := numbers l; nextFlush := nf;
      dirty := if go then false else fDirty st |},
   if go then fOut st ++ [PutCandidates (fSeg st) (fCandidates st)] else fOut st).

(** ** ReceivingWorker *)
Record ReceivingWorker := mkRecv {
  leftOver : option MultiBuffer;
  window : RecvWindow;
  acklist : AckList;
  nextNumber : Z;        (* uint32 *)
  windowSize : Z;        (* uint32 *)
}.

(** [NewReceivingWorker(kcp)] with [kcp.Config.GetReceivingInFlightSize()]. *)
Definition NewReceivingWorker (size : Z) : ReceivingWorker :=
  {| leftOver := None; window := NewReceivingWindow; acklist := NewAckList; nextNumber := 0;
     windowSize := size |}.

Definition with_leftOver (w : ReceivingWorker) (o : option MultiBuffer) : ReceivingWorker :=
  {| leftOver := o; window := window w; acklist := acklist w; nextNumber := nextNumber w;
     windowSize := windowSize w |}.
Definition with_acklist (w : ReceivingWorker) (l : AckList) : ReceivingWorker :=
  {| leftOver := leftOver w; window := window w; acklist := l; nextNumber := nextNumber w;
     windowSize := windowSize w |}.

Definition Release (w : ReceivingWorker) : ReceivingWorker := with_leftOver w None.

Definition ProcessSendingNext (w : ReceivingWorker) (number : Z) : ReceivingWorker :=
  with_acklist w (Clear (acklist w) number).

Definition ProcessSegment (w : ReceivingWorker) (seg : DataSegment) : ReceivingWorker :=
  let number := dNumber seg in
  let idx := u32 (number - nextNumber w) in
  if windowSize w <=? idx then w else
  let l := Clear (acklist w) (dSendingNext seg) in
  let l := Add l number (dTimestamp seg) in
  {| leftOver := leftOver w; window := (Set_ (window w) (dNumber seg) seg).1; acklist := l;
     nextNumber := nextNumber w; windowSize := windowSize w |}.

(** The methods of a MultiBuffer treat a nil entry as an empty buffer. *)
Definition entry (p : option Buffer) : Buffer := match p with Some b => b | None => FromBytes [] end.

(** The loop of [ReadMultiBuffer]; every round removes a segment. *)
Fixpoint ReadLoop (fuel : nat) (win : RecvWindow) (next : Z) (mb : MultiBuffer)
    : RecvWindow * Z * MultiBuffer :=
  match fuel with
  | O => (win, next, mb)
  | S f =>
    match Remove win next with
    | (_, None) => (win, next, mb)
    | (win, Some seg) => ReadLoop f win (u32 (next + 1)) (mb ++ [entry (Detach seg).2])
    end
  end.

Definition ReadMultiBuffer (w : ReceivingWorker) : ReceivingWorker * MultiBuffer :=
  match leftOver w with
  | Some mb => (with_leftOver w None, mb)
  | None =>
    let '(win, next, mb) := ReadLoop (S (size (window w))) (window w) (nextNumber w) [] in
    ({| leftOver := None; window := win; acklist := acklist w; nextNumber := next;
        windowSize := windowSize w |}, mb)
  end.

(** [Read(b)] with [n = len(b)]: the bytes copied. *)
Definition Read (w : ReceivingWorker) (n : nat) : res (ReceivingWorker * bytes) :=
  let '(w, mb) := ReadMultiBuffer w in
  if MultiBuf.IsEmpty mb then Ok (w, []) else
  '(mb, d) ← SplitBytes mb n;
  Ok (if negb (MultiBuf.IsEmpty mb) then with_leftOver w (Some mb) else w, d).

Definition IsDataAvailable (w : ReceivingWorker) : bool := Has (window w) (nextNumber w).
Definition NextNumber (w : ReceivingWorker) : Z := nextNumber w.

(** [Write(seg)]: the segment it passes on to the output of the connection;
    [closing] is [State() == StateReadyToClose]. *)
Definition Write (w : ReceivingWorker) (conv : Z) (closing : bool) (seg : AckSegment) : AckSegment :=
  {| aConv := conv; aOption := if closing then SegmentOptionClose else 0;
     ReceivingWindow := u32 (nextNumber w + windowSize w); aReceivingNext := nextNumber w;
     aTimestamp := aTimestamp seg; NumberList := NumberList seg |}.

Definition WorkerFlush (w : ReceivingWorker) (conv : Z) (closing : bool) (current rto : Z)
    : ReceivingWorker * list AckSegment :=
  let '(l, out) := Flush (acklist w) current rto in
  (with_acklist w l, map (Write w conv closing) out).

Definition UpdateNecessary (w : ReceivingWorker) : bool := (0 <? zlen (numbers (acklist w))).

(** ** Invariants *)

(** The three slices stay parallel. *)
Definition ack_wf (l : AckList) : Prop :=
  length (timestamps l) = length (numbers l) /\ length (nextFlush l) = length (numbers l).

(** The entries of an acknowledgement list. *)
Definition entries (l : AckList) : list (Z * (Z * Z)) :=
  zip (numbers l) (zip (timestamps l) (nextFlush l)).

End KcpRecv.

Import KcpRecv.

(** ** AckList.Clear *)
Lemma entries_lookup l i :
  ack_wf l -> (i < length (numbers l))%nat ->
  entries l !! i = Some (numbers l !!! i, (timestamps l !!! i, nextFlush l !!! i)).
Proof.
  intros [Ht Hf] Hi. unfold entries. rewrite !lookup_zip_with.
  rewrite (list_lookup_lookup_total_lt (numbers l)) by done.
  rewrite (list_lookup_lookup_total_lt (timestamps l)) by lia.
  by rewrite (list_lookup_lookup_total_lt (nextFlush l)) by lia.
Qed.

Lemma entries_length l : ack_wf l -> length (entries l) = length (numbers l).
Proof. intros [Ht Hf]. unfold entries. rewrite !length_zip_with. lia. Qed.

Lemma take_S_filter {A} (P : A -> Prop) `{!forall x, Decision (P x)} (l : list A) i x :
  l !! i = Some x ->
  filter P (take (S i) l) = filter P (take i l) ++ (if decide (P x) then [x] else []).
Proof.
  intros Hx. rewrite (take_S_r _ _ x Hx), filter_app. by f_equal.
Qed.

(** The in-place compaction, one round: the kept entries lie in front. *)
Lemma ClearStep_spec una l0 count l i :
  ack_wf l0 -> ack_wf l -> length (numbers l) = length (numbers l0) -> (count <= i)%nat ->
  (i < length (numbers l0))%nat ->
  take count (entries l) = filter (fun e => una <= e.1) (take i (entries l0)) ->
  drop i (entries l) = drop i (entries l0) ->
  let '(count', l') := ClearStep una (count, l) i in
  ack_wf l' /\ length (numbers l') = length (numbers l0) /\ (count' <= S i)%nat /\
  take count' (entries l') = filter (fun e => una <= e.1) (take (S i) (entries l0)) /\
  drop (S i) (entries l') = drop (S i) (entries l0).
Proof.
  intros Hw0 Hw Hl Hc Hi Ht Hd. set (e := (numbers l !!! i, (timestamps l !!! i, nextFlush l !!! i))).
  assert (He : entries l !! i = Some e) by (apply entries_lookup; [done|lia]).
  assert (He0 : entries l0 !! i = Some e).
  { rewrite <- He. rewrite <- (Nat.add_0_r i), <- !lookup_drop. by rewrite Hd. }
  rewrite (take_S_filter _ _ _ _ He0), <- Ht.
  assert (HdS : drop (S i) (entries l) = drop (S i) (entries l0)).
  { replace (S i) with (i + 1)%nat by lia. by rewrite <- !drop_drop, Hd. }
  unfold ClearStep. destruct (numbers l !!! i <? una) eqn:E.
  - destruct (decide (una <= e.1)) as [D|_]; [unfold e in D; simpl in D; lia|].
    rewrite app_nil_r. repeat (split; [done|]). split; [lia|done].
  - destruct (decide (una <= e.1)) as [_|D]; [|unfold e in D; simpl in D; lia].
    destruct (i =? count)%nat eqn:Ei.
    + assert (i = count) as <- by lia. split; [done|]. split; [done|]. split; [lia|]. split; [|done].
      by rewrite (take_S_r _ _ _ He).
    + destruct Hw as [Hw1 Hw2].
      assert (Hins : entries {| numbers := <[count := numbers l !!! i]> (numbers l);
        timestamps := <[count := timestamps l !!! i]> (timestamps l);
        nextFlush := <[count := nextFlush l !!! i]> (nextFlush l); dirty := dirty l |}
        = <[count := e]> (entries l)).
      { unfold entries, e. cbn [numbers timestamps nextFlush]. by rewrite <- !insert_zip_with. }
      rewrite Hins. split; [split; simpl; by rewrite !length_insert|]. simpl. rewrite length_insert.
      split_and!; [done|lia| |rewrite drop_insert_lt by lia; done].
      assert (count < length (entries l))%nat by (rewrite entries_length by done; lia).
      rewrite (take_S_r _ _ e) by (by apply list_lookup_insert_eq). by rewrite take_insert_ge by lia.
Qed.

Lemma AckClearLoop_spec una l0 n :
  ack_wf l0 -> (n <= length (numbers l0))%nat ->
  let '(count, l) := foldl (ClearStep una) (0%nat, l0) (seq 0 n) in
  ack_wf l /\ length (numbers l) = length (numbers l0) /\ (count <= n)%nat /\
  take count (entries l) = filter (fun e => una <= e.1) (take n (entries l0)) /\
  drop n (entries l) = drop n (entries l0).
Proof.
  intros Hw. induction n as [|n IH]; intros Hn; [done|].
  rewrite seq_S, foldl_app. cbn [foldl]. specialize (IH ltac:(lia)).
  destruct (foldl _ _ (seq 0 n)) as [count l]. destruct IH as (?&?&?&?&?).
  apply (ClearStep_spec una l0 count l n); done || lia.
Qed.

Lemma take_entries l n :
  entries {| numbers := take n (numbers l); timestamps := take n (timestamps l);
             nextFlush := take n (nextFlush l); dirty := true |} = take n (entries l).
Proof. unfold entries. cbn [numbers timestamps nextFlush]. by rewrite !zip_with_take. Qed.

Lemma Clear_spec l una :
  ack_wf l ->
  ack_wf (Clear l una) /\ entries (Clear l una) = filter (fun e => una <= e.1) (entries l).
Proof.
  intros Hw. unfold Clear. pose proof (AckClearLoop_spec una l (length (numbers l)) Hw ltac:(lia)) as H.
  destruct (foldl _ _ _) as [count l']. destruct H as (Hw' & Hl & Hc & Ht & _).
  rewrite <- (entries_length l Hw) in Ht. rewrite (take_ge (entries l)) in Ht by lia.
  destruct (count <? length (numbers l'))%nat eqn:E.
  - rewrite take_entries. split; [|done]. destruct Hw'. split; simpl; rewrite !length_take; lia.
  - split; [done|]. rewrite <- Ht, take_ge; [done|]. rewrite entries_length by done. lia.
Qed.

Lemma numbers_entries l : ack_wf l -> numbers l = map fst (entries l).
Proof.
  intros [Ht Hf]. unfold entries. symmetry. change (map fst) with (fmap (M:=list) (@fst Z (Z * Z))).
  apply fst_zip. rewrite length_zip_with. lia.
Qed.

Lemma elem_of_Clear l una n : ack_wf l -> n ∈ numbers (Clear l una) -> n ∈ numbers l.
Proof.
  intros Hw. destruct (Clear_spec l una Hw) as [Hw' He]. rewrite !numbers_entries, He by done.
  intros (e & -> & Hin)%list_elem_of_fmap. apply list_elem_of_filter in Hin as [_ Hin].
  by apply list_elem_of_fmap_2.
Qed.

Lemma Add_wf l n t : ack_wf l -> ack_wf (Add l n t).
Proof. intros [? ?]. split; simpl; rewrite !length_app; simpl; lia. Qed.

(** ** AckList.Flush *)

(** A segment under construction or handed out: its numbers are in [S], and it
    holds at most [ackNumberLimit] of them. *)
Definition seg_in (S : list Z) (s : AckSegment) : Prop :=
  Forall (fun n => n ∈ S) (NumberList s) /\ (length (NumberList s) <= ackNumberLimit)%nat.

(** The segments a flush has filled so far name [n]. *)
Definition named (n : Z) (out : list AckSegment) : Prop := exists s, s ∈ out /\ n ∈ NumberList s.

Record flush_ok (S : list Z) (st : flushing) : Prop := {
  ok_seg : seg_in S (fSeg st);
  ok_open : (length (NumberList (fSeg st)) < ackNumberLimit)%nat;
  ok_out : Forall (seg_in S) (fOut st);
  ok_cand : Forall (fun n => n ∈ S) (fCandidates st);
}.

Lemma named_app n a b : named n (a ++ b) <-> named n a \/ named n b.
Proof. unfold named. set_solver. Qed.
Lemma named_one n s : named n [s] <-> n ∈ NumberList s.
Proof. unfold named. set_solver. Qed.

Lemma FlushLoop_ok S current rto ns ts nf st :
  length ts = length ns -> length nf = length ns -> Forall (fun n => n ∈ S) ns -> flush_ok S st ->
  let '(nf', st') := FlushLoop current rto ns ts nf st in
  length nf' = length ns /\ flush_ok S st' /\
  (forall n, named n (fOut st ++ [fSeg st]) -> named n (fOut st' ++ [fSeg st'])) /\
  (forall i n f, ns !! i = Some n -> nf !! i = Some f -> f <= current ->
     named n (fOut st' ++ [fSeg st'])).
Proof.
  intros Ht Hf HS. revert ts nf st Ht Hf.
  induction HS as [|n ns Hn HS IH]; intros [|t ts] [|f nf] st Ht Hf Hok; try done.
  cbn [FlushLoop]. simpl in Ht, Hf. destruct Hok as [Hseg Hopen Hout Hcand]. destruct Hseg as [Hs1 Hs2].
  destruct (current <? f) eqn:Ef.
  - match goal with |- context [FlushLoop _ _ ns ts nf ?x] => set (st1 := x) end.
    assert (Hst1 : flush_ok S st1 /\ fOut st1 = fOut st /\ fSeg st1 = fSeg st).
    { unfold st1. destruct (_ <? _)%nat; (split; [|done]); split; try done; simpl.
      apply Forall_app. by rewrite Forall_singleton. }
    destruct Hst1 as (Hok1 & Eo & Es).
    specialize (IH ts nf st1 ltac:(lia) ltac:(lia) Hok1).
    destruct (FlushLoop _ _ _ _ _ st1) as [nf' st']. destruct IH as (Hl & Hok' & Hm & Hd).
    split; [simpl; lia|]. split; [done|]. split; [by rewrite Eo, Es in Hm|].
    intros [|i] m g Hi Hg Hle; simpl in Hi, Hg; [injection Hg as ->; lia|]. by eapply Hd.
  - set (seg := PutTimestamp _ t). match goal with |- context [FlushLoop _ _ ns ts nf ?x] => set (st1 := x) end.
    assert (En : NumberList seg = NumberList (fSeg st) ++ [n]).
    { unfold seg, PutTimestamp. by destruct (u32 _ <? _). }
    assert (Hseg : seg_in S seg).
    { split; [rewrite En; apply Forall_app; by rewrite Forall_singleton|].
      rewrite En, length_app. simpl. lia. }
    assert (Hst1 : flush_ok S st1 /\ (forall m, named m (fOut st ++ [seg]) -> named m (fOut st1 ++ [fSeg st1]))).
    { unfold st1, AckIsFull. destruct (_ =? _)%nat eqn:El; split.
      - split; simpl; try done; [by split; simpl; [|lia]|unfold ackNumberLimit; lia|].
        apply Forall_app. by rewrite Forall_singleton.
      - intros m Hm. simpl. apply named_app. by left.
      - split; simpl; try done. destruct Hseg. lia.
      - done. }
    destruct Hst1 as (Hok1 & Hm1).
    specialize (IH ts nf st1 ltac:(lia) ltac:(lia) Hok1).
    destruct (FlushLoop _ _ _ _ _ st1) as [nf' st']. destruct IH as (Hl & Hok' & Hm & Hd).
    split; [simpl; lia|]. split; [done|]. split.
    + intros m H. apply Hm, Hm1. rewrite named_app, named_one in *. rewrite En. set_solver.
    + intros [|i] m g Hi Hg Hle; simpl in Hi, Hg; [|by eapply Hd]. injection Hi as ->.
      apply Hm, Hm1. rewrite named_app, named_one, En. set_solver.
Qed.

Lemma PutCandidates_ok S seg l :
  seg_in S seg -> Forall (fun n => n ∈ S) l ->
  seg_in S (PutCandidates seg l) /\ (forall n, n ∈ NumberList seg -> n ∈ NumberList (PutCandidates seg l)).
Proof.
  intros Hs Hl. revert seg Hs. induction Hl as [|n l Hn Hl IH]; intros seg Hs; [done|]. cbn [PutCandidates].
  unfold AckIsFull. destruct (_ =? _)%nat eqn:E; [done|].
  destruct (IH (PutNumber seg n)) as [H1 H2].
  { destruct Hs as [H1 H2]. split; simpl; [apply Forall_app; by rewrite Forall_singleton|].
    rewrite length_app. simpl. lia. }
  split; [done|]. intros m Hm. apply H2. simpl. set_solver.
Qed.

Lemma AckFlush_spec l current rto :
  ack_wf l ->
  let '(l', out) := Flush l current rto in
  ack_wf l' /\ numbers l' = numbers l /\ timestamps l' = timestamps l /\
  Forall (seg_in (numbers l)) out /\
  (forall i n f, numbers l !! i = Some n -> nextFlush l !! i = Some f -> f <= current -> named n out).
Proof.
  intros [Ht Hf]. unfold Flush.
  set (st0 := {| fSeg := NewAckSegment; fOut := []; fCandidates := []; fDirty := dirty l |}).
  pose proof (FlushLoop_ok (numbers l) current rto (numbers l) (timestamps l) (nextFlush l) st0 Ht Hf) as H.
  destruct (FlushLoop _ _ _ _ _ _) as [nf st]. destruct H as (Hl & [Hs Ho Hout Hc] & _ & Hd).
  - by apply Forall_forall.
  - split; simpl; try done; [split; simpl; [done|lia]|unfold ackNumberLimit; lia].
  - destruct (PutCandidates_ok _ _ _ Hs Hc) as [Hp Hpn].
    destruct (fDirty st || negb (AckIsEmpty (fSeg st))) eqn:E.
    + split; [split; simpl; lia|]. split; [done|]. split; [done|]. split.
      { apply Forall_app. by rewrite Forall_singleton. }
      intros i n f Hn Hnf Hle. specialize (Hd i n f Hn Hnf Hle). rewrite named_app, named_one in *. naive_solver.
    + split; [split; simpl; lia|]. split; [done|]. split; [done|]. split; [done|].
      intros i n f Hn Hnf Hle. specialize (Hd i n f Hn Hnf Hle). rewrite named_app, named_one in Hd.
      destruct Hd as [Hd|Hd]; [done|]. unfold AckIsEmpty in E.
      destruct (NumberList (fSeg st)); [set_solver|]. simpl in E. by destruct (fDirty st).
Qed.

(** ** The window *)
Lemma ReadLoop_spec fuel win next mb :
  (size win < fuel)%nat -> is_u32 next ->
  exists segs win',
    ReadLoop fuel win next mb =
      (win', u32 (next + zlen segs), mb ++ map (fun s => entry (payload s)) segs) /\
    (forall i s, segs !! i = Some s -> win !! u32 (next + Z.of_nat i) = Some s) /\
    (forall k, win' !! k = win !! k \/
       (win' !! k = None /\ exists i, (i < length segs)%nat /\ k = u32 (next + Z.of_nat i))) /\
    win' !! u32 (next + zlen segs) = None.
Proof.
  revert win next mb. induction fuel as [|f IH]; intros win next mb Hf Hn; [lia|].
  cbn [ReadLoop]. unfold Remove. destruct (win !! next) as [s|] eqn:E.
  - assert (Hsz : size (delete next win) = pred (size win)) by (by apply map_size_delete_Some).
    assert (size win <> 0%nat) by (intros H0; apply map_size_empty_inv in H0; by rewrite H0, lookup_empty in E).
    destruct (IH (delete next win) (u32 (next + 1)) (mb ++ [entry (Detach s).2])) as (segs & win' & -> & Hs & Hw & Hx);
      [lia|apply u32_range|].
    assert (Hu : forall k, u32 (u32 (next + 1) + k) = u32 (next + (1 + k))).
    { intros k. unfold u32. rewrite Zplus_mod_idemp_l. f_equal. lia. }
    exists (s :: segs), win'. rewrite !Hu in *. rewrite zlen_cons. split; [|split; [|split]].
    + f_equal. by rewrite <- app_assoc.
    + intros [|i] s' Hi; simpl in Hi.
      * injection Hi as <-. by rewrite Z.add_0_r, u32_small.
      * specialize (Hs i s' Hi). rewrite Hu in Hs. apply lookup_delete_Some in Hs as [_ Hs].
        rewrite <- Hs. f_equal. f_equal. lia.
    + intros k. destruct (Hw k) as [Hk|(Hk & i & Hi & ->)].
      * destruct (decide (k = next)) as [->|Hne].
        -- right. rewrite Hk, lookup_delete_eq. split; [done|]. exists 0%nat. split; [simpl; lia|].
           by rewrite Z.add_0_r, u32_small.
        -- left. by rewrite Hk, lookup_delete_ne.
      * right. split; [done|]. exists (S i). split; [simpl; lia|]. rewrite Hu. f_equal. lia.
    + done.
  - exists [], win. rewrite zlen_nil, Z.add_0_r, u32_small by done. simpl. rewrite app_nil_r.
    split; [done|]. split; [by intros []|]. split; [by left|done].
Qed.

(** What the receiver holds: delivered or waiting in the window. *)
Definition has (w : ReceivingWorker) (k : Z) : Prop := k < nextNumber w \/ is_Some (window w !! k).

(** Segments whose number is below a bound that has not wrapped: the numbers
    read are consecutive. *)
Lemma ReadMultiBuffer_spec w :
  is_u32 (nextNumber w) -> leftOver w = None ->
  (forall k s, window w !! k = Some s -> k < 2 ^ 32 - 1) ->
  exists segs,
    (ReadMultiBuffer w).2 = map (fun s => entry (payload s)) segs /\
    (forall i s, segs !! i = Some s -> window w !! (nextNumber w + Z.of_nat i) = Some s) /\
    nextNumber (ReadMultiBuffer w).1 = nextNumber w + zlen segs /\
    is_u32 (nextNumber w + zlen segs) /\
    leftOver (ReadMultiBuffer w).1 = None /\ acklist (ReadMultiBuffer w).1 = acklist w /\
    windowSize (ReadMultiBuffer w).1 = windowSize w /\
    (forall k s, window (ReadMultiBuffer w).1 !! k = Some s -> window w !! k = Some s) /\
    (forall k, has w k -> has (ReadMultiBuffer w).1 k) /\
    window (ReadMultiBuffer w).1 !! nextNumber (ReadMultiBuffer w).1 = None.
Proof.
  intros Hn Hlo Hb. unfold ReadMultiBuffer. rewrite Hlo.
  destruct (ReadLoop_spec (S (size (window w))) (window w) (nextNumber w) []) as (segs & win' & -> & Hs & Hw & Hx);
    [lia|done|].
  assert (Hsmall : forall i, (i <= length segs)%nat -> is_u32 (nextNumber w + Z.of_nat i)).
  { induction i as [|i IH]; intros Hi; [rewrite Z.add_0_r; lia|]. specialize (IH ltac:(lia)).
    destruct (segs !! i) as [s|] eqn:E; [|apply lookup_ge_None in E; lia].
    specialize (Hs i s E). rewrite u32_small in Hs by done. apply Hb in Hs. lia. }
  assert (Hlen : u32 (nextNumber w + zlen segs) = nextNumber w + zlen segs).
  { apply u32_small. apply Hsmall. lia. }
  exists segs. cbn [fst snd nextNumber window leftOver acklist windowSize]. rewrite Hlen in *. split_and!; try done.
  - intros i s Hi. rewrite <- (u32_small (_ + _)); [by apply Hs|]. apply Hsmall.
    apply lookup_lt_Some in Hi. lia.
  - pose proof (zlen_nonneg segs). lia.
  - apply Hsmall. lia.
  - intros k s Hk. destruct (Hw k) as [<-|[E _]]; [done|]. by rewrite E in Hk.
  - unfold has. cbn [nextNumber window]. pose proof (zlen_nonneg segs). intros k [Hk|[s Hk]]; [left; lia|].
    destruct (Hw k) as [E|(_ & i & Hi & ->)]; [right; rewrite E; by eexists|].
    left. rewrite u32_small by (apply Hsmall; lia). unfold zlen. lia.
Qed.

(** ** The worker *)

(** Every number on the acknowledgement list has arrived. *)
Record recv_ok (w : ReceivingWorker) : Prop := {
  rk_next : is_u32 (nextNumber w);
  rk_acks : ack_wf (acklist w);
  rk_has : Forall (has w) (numbers (acklist w));
}.

Lemma has_mono_ok w w' :
  recv_ok w -> (forall k, has w k -> has w' k) -> is_u32 (nextNumber w') -> ack_wf (acklist w') ->
  (forall n, n ∈ numbers (acklist w') -> n ∈ numbers (acklist w)) -> recv_ok w'.
Proof.
  intros [Hn Ha Hh] Hm Hn' Ha' Hs. split; [done|done|]. rewrite Forall_forall in *. naive_solver.
Qed.

Lemma ProcessSegment_ok w seg :
  recv_ok w ->
  let w' := ProcessSegment w seg in
  recv_ok w' /\ nextNumber w' = nextNumber w /\ leftOver w' = leftOver w /\
  windowSize w' = windowSize w /\ (forall k, has w k -> has w' k) /\
  (forall k s, window w' !! k = Some s -> window w !! k = Some s \/ (k = dNumber seg /\ s = seg)).
Proof.
  intros Hok. pose proof Hok as [Hn Ha Hh]. unfold ProcessSegment.
  destruct (windowSize w <=? _); [by split_and!; try done; auto|].
  set (w' := {| leftOver := _ |}). unfold Set_ in w'.
  assert (Hw : (forall k, is_Some (window w !! k) -> is_Some (window w' !! k)) /\
    is_Some (window w' !! dNumber seg) /\
    (forall k s, window w' !! k = Some s -> window w !! k = Some s \/ (k = dNumber seg /\ s = seg))).
  { unfold w'. cbn [window]. destruct (window w !! dNumber seg) as [s0|] eqn:E; cbn [fst].
    - split; [done|]. split; [by rewrite E|auto].
    - split; [|split].
      + intros k Hk. destruct (decide (k = dNumber seg)) as [->|]; [by rewrite lookup_insert_eq|].
        by rewrite lookup_insert_ne.
      + by rewrite lookup_insert_eq.
      + intros k s. destruct (decide (k = dNumber seg)) as [->|]; [rewrite lookup_insert_eq|by rewrite lookup_insert_ne; auto].
        intros [= <-]. auto. }
  destruct Hw as (Hm & Hnew & Hinv).
  assert (Hmono : forall k, has w k -> has w' k).
  { intros k [Hk|Hk]; [left; exact Hk|right; auto]. }
  destruct (Clear_spec (acklist w) (dSendingNext seg) Ha) as [Hc _].
  split; [|by split_and!]. split; [done|by apply Add_wf|].
  change (numbers (acklist w')) with (numbers (Clear (acklist w) (dSendingNext seg)) ++ [dNumber seg]).
  apply Forall_app. split; [|apply Forall_singleton; by right].
  rewrite Forall_forall in *. intros n Hin%elem_of_Clear; [|done]. auto.
Qed.

Lemma ProcessSendingNext_ok w una : recv_ok w -> recv_ok (ProcessSendingNext w una).
Proof.
  intros Hok. pose proof Hok as [Hn Ha Hh]. apply (has_mono_ok w); try done.
  - by apply Clear_spec.
  - intros n. by apply elem_of_Clear.
Qed.

Lemma WorkerFlush_ok w conv closing current rto :
  recv_ok w ->
  let '(w', out) := WorkerFlush w conv closing current rto in
  recv_ok w' /\ nextNumber w' = nextNumber w /\ leftOver w' = leftOver w /\ window w' = window w /\
  windowSize w' = windowSize w /\
  Forall (fun s => Forall (has w) (NumberList s) /\ aReceivingNext s = nextNumber w) out.
Proof.
  intros Hok. pose proof Hok as [Hn Ha Hh]. unfold WorkerFlush.
  pose proof (AckFlush_spec (acklist w) current rto Ha) as H. destruct (Flush _ _ _) as [l out].
  destruct H as (Hl & En & Et & Hout & _). split.
  { apply (has_mono_ok w); try done. intros n. simpl. by rewrite En. }
  do 4 (split; [done|]). apply Forall_map. eapply Forall_impl; [exact Hout|].
  intros s [Hs _]. split; [|done]. simpl. rewrite Forall_forall in *. auto.
Qed.

(** ** Properties *)

(** Clearing the acknowledgement list is a filter: the loop that compacts the
    three parallel slices in place keeps exactly the entries whose number is not
    below the sender's first unacknowledged one, in order and with their
    timestamps and flush times, and the slices stay parallel. *)
Theorem AckList_Clear_filters l una :
  ack_wf l ->
  ack_wf (Clear l una) /\ entries (Clear l una) = filter (fun e => una <= e.1) (entries l).
Proof. apply Clear_spec. Qed.

Lemma AckList_Clear_filters_witness :
  let l := Add (Add (Add NewAckList 5 100) 2 101) 7 102 in
  ack_wf (Clear l 5) /\ entries (Clear l 5) = filter (fun e => 5 <= e.1) (entries l).
Proof. apply AckList_Clear_filters. by split. Defined.

(** A flush of the acknowledgement list acknowledges every number that is
    due, in segments of at most 128 numbers, and never acknowledges a number
    that is not on the list; the list keeps its numbers and timestamps. *)
Theorem AckList_Flush_acks l current rto :
  ack_wf l ->
  ack_wf (Flush l current rto).1 /\ numbers (Flush l current rto).1 = numbers l /\
  timestamps (Flush l current rto).1 = timestamps l /\
  (forall s, s ∈ (Flush l current rto).2 ->
     (length (NumberList s) <= ackNumberLimit)%nat /\ forall n, n ∈ NumberList s -> n ∈ numbers l) /\
  (forall i n f, numbers l !! i = Some n -> nextFlush l !! i = Some f -> f <= current ->
     exists s, s ∈ (Flush l current rto).2 /\ n ∈ NumberList s).
Proof.
  intros Hw. pose proof (AckFlush_spec l current rto Hw) as H. destruct (Flush l current rto) as [l' out].
  destruct H as (?&?&?&Hout&Hdue). split_and!; try done.
  intros s Hs. rewrite Forall_forall in Hout. destruct (Hout s Hs) as [Hin Hlen]. split; [done|].
  by apply Forall_forall.
Qed.

Lemma AckList_Flush_acks_witness :
  let l := Add (Add NewAckList 5 100) 2 101 in
  ack_wf (Flush l 1000 200).1 /\ numbers (Flush l 1000 200).1 = numbers l /\
  timestamps (Flush l 1000 200).1 = timestamps l /\
  (forall s, s ∈ (Flush l 1000 200).2 ->
     (length (NumberList s) <= ackNumberLimit)%nat /\ forall n, n ∈ NumberList s -> n ∈ numbers l) /\
  (forall i n f, numbers l !! i = Some n -> nextFlush l !! i = Some f -> f <= 1000 ->
     exists s, s ∈ (Flush l 1000 200).2 /\ n ∈ NumberList s).
Proof. apply AckList_Flush_acks. by split. Defined.
