(* ===== verification/KcpConfig.v ===== *)
(** * Package transport/internet/kcp: configuration and round trip time

    [Module KcpConfig] models the getters of config.go and [RoundTripInfo] of
    connection.go.  A division by zero is the run-time panic. *)
From S2P Require Import Prelude.

Module KcpConfig.

(** ** config.go *)
Record Config := mkConfig {
  Mtu : option Z;               (* the Value of the message, uint32 *)
  Tti : option Z;
  UplinkCapacity : option Z;
  DownlinkCapacity : option Z;
  WriteBuffer : option Z;
  ReadBuffer : option Z;
  Congestion : bool;
}.

(** [uint32] division. *)
Definition udiv (a b : Z) : res Z := if b =? 0 then Panic else Ok (a / b).

(** The getters accept a nil [*Config]. *)
Definition getter (f : Config -> option Z) (dflt : Z) (c : option Config) : Z :=
  match c with
  | None => dflt
  | Some c => match f c with None => dflt | Some v => v end
  end.

Definition GetMTUValue : option Config -> Z := getter Mtu 1350.
Definition GetTTIValue : option Config -> Z := getter Tti 50.
Definition GetUplinkCapacityValue : option Config -> Z := getter UplinkCapacity 5.
Definition GetDownlinkCapacityValue : option Config -> Z := getter DownlinkCapacity 20.
Definition GetWriteBufferSize : option Config -> Z := getter WriteBuffer (2 * 1024 * 1024).
Definition GetReadBufferSize : option Config -> Z := getter ReadBuffer (2 * 1024 * 1024).

Definition inFlightSize (capacity : Z) (c : option Config) : res Z :=
  a ← udiv (u32 (u32 (capacity * 1024) * 1024)) (GetMTUValue c);
  b ← udiv 1000 (GetTTIValue c);
  size ← udiv a b;
  Ok (if size <? 8 then 8 else size).

Definition GetSendingInFlightSize (c : option Config) : res Z :=
  inFlightSize (GetUplinkCapacityValue c) c.
Definition GetReceivingInFlightSize (c : option Config) : res Z :=
  inFlightSize (GetDownlinkCapacityValue c) c.
Definition GetSendingBufferSize (c : option Config) : res Z :=
  udiv (GetWriteBufferSize c) (GetMTUValue c).
Definition GetReceivingBufferSize (c : option Config) : res Z :=
  udiv (GetReadBufferSize c) (GetMTUValue c).

(** The values for which no getter divides by zero. *)
Definition cfg_ok (c : option Config) : Prop :=
  0 < GetMTUValue c < 2 ^ 32 /\ 0 < GetTTIValue c <= 1000 /\
  is_u32 (GetUplinkCapacityValue c) /\ is_u32 (GetDownlinkCapacityValue c) /\
  is_u32 (GetWriteBufferSize c) /\ is_u32 (GetReadBufferSize c).

(** ** RoundTripInfo *)
Record RoundTripInfo := mkRtt {
  variation : Z;          (* all uint32 *)
  srtt : Z;
  rto : Z;
  minRtt : Z;
  updatedTimestamp : Z;
}.

Definition UpdatePeerRTO (info : RoundTripInfo) (r current : Z) : RoundTripInfo :=
  if u32 (current - updatedTimestamp info) <? 3000 then info else
  {| variation := variation info; srtt := srtt info; rto := r; minRtt := minRtt info;
     updatedTimestamp := current |}.

Definition Update (info : RoundTripInfo) (rtt current : Z) : RoundTripInfo :=
  if 0x7FFFFFFF <? rtt then info else
  let '(s, var) :=
    if srtt info =? 0 then (rtt, rtt / 2)
    else
      let delta := if rtt <? srtt info then u32 (srtt info - rtt) else u32 (rtt - srtt info) in
      let var := u32 (u32 (3 * variation info) + delta) / 4 in
      let s := u32 (u32 (7 * srtt info) + rtt) / 8 in
      (if s <? minRtt info then minRtt info else s, var) in
  let r := if minRtt info <? u32 (4 * var) then u32 (s + u32 (4 * var)) else u32 (s + var) in
  let r := if 10000 <? r then 10000 else r in
  {| variation := var; srtt := s; rto := u32 (r * 5) / 4; minRtt := minRtt info;
     updatedTimestamp := current |}.

Definition Timeout (info : RoundTripInfo) : Z := rto info.
Definition SmoothedTime (info : RoundTripInfo) : Z := srtt info.

(** The estimator with unbounded integers: the smoothed round trip time, its
    variation and the timeout after a sample. *)
Definition estimate (s var m rtt : Z) : Z * Z * Z :=
  let '(s', var') :=
    if s =? 0 then (rtt, rtt / 2)
    else (Z.max m ((7 * s + rtt) / 8), (3 * var + Z.abs (rtt - s)) / 4) in
  let r := s' + (if m <? 4 * var' then 4 * var' else var') in
  (s', var', Z.min 10000 r * 5 / 4).

Definition rtt_wf (info : RoundTripInfo) : Prop :=
  0 <= variation info <= 10000 /\ 0 <= srtt info <= 10000 /\ 0 <= minRtt info <= 10000.

End KcpConfig.

Import KcpConfig.

Lemma udiv_ok a b : b <> 0 -> udiv a b = Ok (a / b).
Proof. intros. unfold udiv. by replace (b =? 0) with false by lia. Qed.

Lemma div_shrink a b : 0 <= a -> 1 <= b -> 0 <= a / b <= a.
Proof.
  intros Ha Hb. split; [apply Z.div_pos; lia|]. apply Z.div_le_upper_bound; [lia|nia].
Qed.

Lemma inFlightSize_ok capacity c :
  cfg_ok c -> exists n, inFlightSize capacity c = Ok n /\ 8 <= n < 2 ^ 32.
Proof.
  intros (Hm & Ht & _). unfold inFlightSize. rewrite udiv_ok by lia. cbn [mbind res_bind].
  rewrite udiv_ok by lia. cbn [mbind res_bind].
  assert (1 <= 1000 / GetTTIValue c) by (apply Z.div_le_lower_bound; lia).
  rewrite udiv_ok by lia. cbn [mbind res_bind]. eexists. split; [done|].
  set (a := u32 _). pose proof (u32_range (u32 (capacity * 1024) * 1024)) as Ha. fold a in Ha.
  pose proof (div_shrink a (GetMTUValue c) ltac:(lia) ltac:(lia)).
  pose proof (div_shrink (a / GetMTUValue c) (1000 / GetTTIValue c) ltac:(lia) ltac:(lia)).
  destruct (a / GetMTUValue c / _ <? 8) eqn:E; lia.
Qed.

(** The retransmission timer is the smoothed estimator of RFC 6298 as written
    over the integers: with samples below ten seconds (all that the
    acknowledgement handler passes on) no 32-bit intermediate result wraps
    around, the estimate stays in its range, and the timeout is at most 12.5 s. *)
Theorem Update_is_estimate info rtt current :
  rtt_wf info -> 0 <= rtt < 10000 ->
  let info' := Update info rtt current in
  rtt_wf info' /\ (srtt info', variation info', rto info')
    = estimate (srtt info) (variation info) (minRtt info) rtt /\
  0 <= rto info' <= 12500 /\ updatedTimestamp info' = current.
Proof.
  intros (Hv & Hs & Hm) Hr. unfold Update, estimate. replace (0x7FFFFFFF <? rtt) with false by lia.
  destruct (srtt info =? 0) eqn:E0.
  - pose proof (Z.div_le_upper_bound rtt 2 rtt ltac:(lia) ltac:(lia)).
    assert (0 <= rtt / 2) by (apply Z.div_pos; lia).
    cbn [variation srtt rto minRtt updatedTimestamp]. rewrite (u32_small (4 * _)) by lia.
    rewrite !(u32_small (rtt + _)) by lia.
    set (r := if minRtt info <? 4 * (rtt / 2) then _ else _).
    replace (rtt + (if minRtt info <? 4 * (rtt / 2) then 4 * (rtt / 2) else rtt / 2)) with r
      by (unfold r; by destruct (_ <? _)).
    assert (0 <= r) by (unfold r; destruct (minRtt info <? _); lia).
    clearbody r. replace (if 10000 <? r then 10000 else r) with (Z.min 10000 r) by (destruct (10000 <? r) eqn:?; lia).
    rewrite u32_small by lia. split; [by unfold rtt_wf; simpl; lia|]. split; [done|].
    split; [|done]. Z.to_euclidean_division_equations; lia.
  - set (d := if rtt <? srtt info then _ else _).
    assert (d = Z.abs (rtt - srtt info)) as -> by (unfold d; destruct (_ <? _) eqn:E; rewrite u32_small; lia).
    set (ad := Z.abs (rtt - srtt info)). assert (0 <= ad <= 10000) by lia.
    rewrite !(u32_small (3 * _)), !(u32_small (7 * _)) by lia. rewrite !(u32_small (3 * _ + _)), !(u32_small (7 * _ + _)) by lia.
    set (s := (7 * srtt info + rtt) / 8). set (v := (3 * variation info + ad) / 4).
    assert (0 <= s <= 10000) by (unfold s; Z.to_euclidean_division_equations; lia).
    assert (0 <= v <= 10000) by (unfold v; Z.to_euclidean_division_equations; lia).
    replace (if s <? minRtt info then minRtt info else s) with (Z.max (minRtt info) s)
      by (destruct (s <? minRtt info) eqn:?; lia).
    set (s' := Z.max (minRtt info) s). assert (0 <= s' <= 10000) by lia.
    cbn [variation srtt rto minRtt updatedTimestamp]. rewrite (u32_small (4 * _)) by lia.
    rewrite !(u32_small (s' + _)) by lia.
    set (r := if minRtt info <? 4 * v then _ else _).
    replace (s' + (if minRtt info <? 4 * v then 4 * v else v)) with r
      by (unfold r; by destruct (_ <? _)).
    assert (0 <= r) by (unfold r; destruct (minRtt info <? _); lia).
    clearbody r. replace (if 10000 <? r then 10000 else r) with (Z.min 10000 r) by (destruct (10000 <? r) eqn:?; lia).
    rewrite u32_small by lia. split; [by unfold rtt_wf; simpl; lia|]. split; [done|].
    split; [|done]. Z.to_euclidean_division_equations; lia.
Qed.

Lemma Update_is_estimate_witness :
  let info := {| variation := 40; srtt := 120; rto := 100; minRtt := 50; updatedTimestamp := 0 |} in
  let info' := Update info 200 77 in
  rtt_wf info' /\ (srtt info', variation info', rto info') = estimate 120 40 50 200 /\
  0 <= rto info' <= 12500 /\ updatedTimestamp info' = 77.
Proof.
  apply (Update_is_estimate {| variation := 40; srtt := 120; rto := 100; minRtt := 50; updatedTimestamp := 0 |} 200 77).
  - repeat split; simpl; lia.
  - lia.
Defined.
