(* ===== verification/KcpSend.v ===== *)
(** * Package transport/internet/kcp: the sending side

    [Module KcpSend] models sending.go: the window of segments waiting for an
    acknowledgement and the worker that numbers, sends and retransmits them.
    The locks make each operation atomic; what a worker asks of its connection
    (configuration, round trip times, conversation, state) is an argument, and
    the segments it writes are a result. *)
From S2P Require Import Prelude GoStd Buf KcpSegment KcpConfig.
Import Buf KcpSegment KcpConfig.

Module KcpSend.

(** ** SendingWindow: the list of the segments, front first *)
Record SendingWindow := mkSendingWindow {
  cache : list DataSegment;
  totalInFlightSize : Z;      (* uint32 *)
}.

Definition NewSendingWindow : SendingWindow := {| cache := []; totalInFlightSize := 0 |}.

Definition with_cache (sw : SendingWindow) (c : list DataSegment) : SendingWindow :=
  {| cache := c; totalInFlightSize := totalInFlightSize sw |}.

(** Every segment is released and removed. *)
Definition Release (sw : SendingWindow) : SendingWindow := with_cache sw [].

Definition Len (sw : SendingWindow) : Z := u32 (zlen (cache sw)).
Definition IsEmpty (sw : SendingWindow) : bool := (length (cache sw) =? 0)%nat.

Definition Push (sw : SendingWindow) (number : Z) (b : Buffer) : SendingWindow :=
  with_cache sw (cache sw ++
    [{| dConv := 0; dOption := 0; dTimestamp := 0; dNumber := number; dSendingNext := 0;
        payload := Some b; timeout := 0; transmit := 0 |}]).

Definition FirstNumber (sw : SendingWindow) : res Z :=
  s ← or_panic (head (cache sw)); Ok (dNumber s).

(** The loop of [Clear]: segments leave at the front while they are below [una]. *)
Fixpoint ClearLoop (una : Z) (c : list DataSegment) : list DataSegment :=
  match c with
  | [] => []
  | seg :: c' => if una <=? dNumber seg then c else ClearLoop una c'
  end.

Definition Clear (sw : SendingWindow) (una : Z) : SendingWindow :=
  with_cache sw (ClearLoop una (cache sw)).

(** [Visit(visitor)] with a visitor that changes the segment and a state [s], and
    says whether to go on. *)
Fixpoint VisitLoop {S} (visitor : DataSegment -> S -> DataSegment * S * bool)
    (c : list DataSegment) (s : S) : list DataSegment * S :=
  match c with
  | [] => ([], s)
  | seg :: c' =>
    let '(seg, s, more) := visitor seg s in
    if more then let '(c', s) := VisitLoop visitor c' s in (seg :: c', s) else (seg :: c', s)
  end.

Definition set_timeout (seg : DataSegment) (t : Z) : DataSegment :=
  {| dConv := dConv seg; dOption := dOption seg; dTimestamp := dTimestamp seg;
     dNumber := dNumber seg; dSendingNext := dSendingNext seg; payload := payload seg;
     timeout := t; transmit := transmit seg |}.

Definition fastAckVisitor (number rto : Z) (seg : DataSegment) (s : unit) : DataSegment * unit * bool :=
  if (number =? dNumber seg) || (0x7FFFFFFF <? u32 (number - dNumber seg)) then (seg, s, false) else
  ((if (0 <? transmit seg) && (rto / 3 <? timeout seg)
    then set_timeout seg (u32 (timeout seg - rto / 3)) else seg), s, true).

Definition HandleFastAck (sw : SendingWindow) (number rto : Z) : SendingWindow :=
  if IsEmpty sw then sw else
  with_cache sw (VisitLoop (fastAckVisitor number rto) (cache sw) tt).1.

(** The variables the visitor of [Flush] changes, and the segments written. *)
Record flight := mkFlight {
  lost : Z;
  inFlight : Z;
  total : Z;
  written : list DataSegment;
}.

(** [writer] fills in what the worker knows and hands the segment out. *)
Definition flushVisitor (writer : DataSegment -> DataSegment) (current rto maxInFlightSize : Z)
    (seg : DataSegment) (s : flight) : DataSegment * flight * bool :=
  if 0x7FFFFFFF <=? u32 (current - timeout seg) then (seg, s, true) else
  let first := transmit seg =? 0 in
  let seg := writer {| dConv := dConv seg; dOption := dOption seg; dTimestamp := current;
                       dNumber := dNumber seg; dSendingNext := dSendingNext seg;
                       payload := payload seg; timeout := u32 (current + rto);
                       transmit := u32 (transmit seg + 1) |} in
  let s := {| lost := if first then lost s else u32 (lost s + 1);
              total := if first then u32 (total s + 1) else total s;
              inFlight := u32 (inFlight s + 1); written := written s ++ [seg] |} in
  (seg, s, inFlight s <? maxInFlightSize).

(** [Flush]: the window, the segments written, and the loss rate it reports. *)
Definition Flush (writer : DataSegment -> DataSegment) (sw : SendingWindow)
    (current rto maxInFlightSize : Z) : SendingWindow * list DataSegment * option Z :=
  if IsEmpty sw then (sw, [], None) else
  let '(c, s) := VisitLoop (flushVisitor writer current rto maxInFlightSize) (cache sw)
    {| lost := 0; inFlight := 0; total := totalInFlightSize sw; written := [] |} in
  ({| cache := c; totalInFlightSize := total s |}, written s,
   if (0 <? inFlight s) && negb (total s =? 0) then Some (u32 (lost s * 100) / total s) else None).

(** The loop of [Remove]: the list without the segment, if it is found before a
    larger number. *)
Fixpoint RemoveLoop (number : Z) (c : list DataSegment) : option (list DataSegment) :=
  match c with
  | [] => None
  | seg :: c' =>
    if number <? dNumber seg then None
    else if dNumber seg =? number then Some c'
    else match RemoveLoop number c' with Some r => Some (seg :: r) | None => None end
  end.

Definition Remove (sw : SendingWindow) (number : Z) : SendingWindow * bool :=
  if IsEmpty sw then (sw, false) else
  match RemoveLoop number (cache sw) with
  | None => (sw, false)
  | Some c =>
    ({| cache := c;
        totalInFlightSize := if 0 <? totalInFlightSize sw then u32 (totalInFlightSize sw - 1)
                             else totalInFlightSize sw |}, true)
  end.

(** ** SendingWorker *)
Record SendingWorker := mkSender {
  window : SendingWindow;
  firstUnacknowledged : Z;    (* the numbers are uint32 *)
  nextNumber : Z;
  remoteNextNumber : Z;
  controlWindow : Z;
  fastResend : Z;
  windowSize : Z;
  firstUnacknowledgedUpdated : bool;
  closed : bool;
}.

Definition NewSendingWorker (c : option Config) : res SendingWorker :=
  cw ← GetSendingInFlightSize c;
  ws ← GetSendingBufferSize c;
  Ok {| window := NewSendingWindow; firstUnacknowledged := 0; nextNumber := 0;
        remoteNextNumber := 32; controlWindow := cw; fastResend := 2; windowSize := ws;
        firstUnacknowledgedUpdated := false; closed := false |}.

Definition with_window (w : SendingWorker) (sw : SendingWindow) : SendingWorker :=
  {| window := sw; firstUnacknowledged := firstUnacknowledged w; nextNumber := nextNumber w;
     remoteNextNumber := remoteNextNumber w; controlWindow := controlWindow w;
     fastResend := fastResend w; windowSize := windowSize w;
     firstUnacknowledgedUpdated := firstUnacknowledgedUpdated w; closed := closed w |}.

Definition with_first (w : SendingWorker) (first : Z) (updated : bool) : SendingWorker :=
  {| window := window w; firstUnacknowledged := first; nextNumber := nextNumber w;
     remoteNextNumber := remoteNextNumber w; controlWindow := controlWindow w;
     fastResend := fastResend w; windowSize := windowSize w;
     firstUnacknowledgedUpdated := updated; closed := closed w |}.

Definition with_remote (w : SendingWorker) (n : Z) : SendingWorker :=
  {| window := window w; firstUnacknowledged := firstUnacknowledged w; nextNumber := nextNumber w;
     remoteNextNumber := n; controlWindow := controlWindow w;
     fastResend := fastResend w; windowSize := windowSize w;
     firstUnacknowledgedUpdated := firstUnacknowledgedUpdated w; closed := closed w |}.

Definition with_control (w : SendingWorker) (n : Z) : SendingWorker :=
  {| window := window w; firstUnacknowledged := firstUnacknowledged w; nextNumber := nextNumber w;
     remoteNextNumber := remoteNextNumber w; controlWindow := n;
     fastResend := fastResend w; windowSize := windowSize w;
     firstUnacknowledgedUpdated := firstUnacknowledgedUpdated w; closed := closed w |}.

Definition WorkerRelease (w : SendingWorker) : SendingWorker :=
  {| window := Release (window w); firstUnacknowledged := firstUnacknowledged w;
     nextNumber := nextNumber w; remoteNextNumber := remoteNextNumber w;
     controlWindow := controlWindow w; fastResend := fastResend w; windowSize := windowSize w;
     firstUnacknowledgedUpdated := firstUnacknowledgedUpdated w; closed := true |}.

Definition FindFirstUnacknowledged (w : SendingWorker) : SendingWorker :=
  let first := firstUnacknowledged w in
  let now := match head (cache (window w)) with
             | Some seg => dNumber seg
             | None => nextNumber w
             end in
  with_first w now (if first =? now then firstUnacknowledgedUpdated w else true).

Definition ProcessReceivingNext (w : SendingWorker) (next : Z) : SendingWorker :=
  FindFirstUnacknowledged (with_window w (Clear (window w) next)).

Definition processAck (w : SendingWorker) (number : Z) : SendingWorker * bool :=
  if (0x7FFFFFFF <? u32 (number - firstUnacknowledged w)) ||
     (u32 (number - nextNumber w) <? 0x7FFFFFFF) then (w, false) else
  let '(sw, removed) := Remove (window w) number in
  (if removed then FindFirstUnacknowledged (with_window w sw) else with_window w sw, removed).

(** The loop over the acknowledged numbers, with the largest one so far. *)
Fixpoint processAcks (w : SendingWorker) (l : list Z) (maxack : Z) (maxackRemoved : bool)
    : SendingWorker * Z * bool :=
  match l with
  | [] => (w, maxack, maxackRemoved)
  | number :: l' =>
    let '(w, removed) := processAck w number in
    if maxack <? number then processAcks w l' number removed
    else processAcks w l' maxack maxackRemoved
  end.

(** [ProcessSegment(current, seg, rto)] with the round trip times of the
    connection, which it updates. *)
Definition ProcessSegment (w : SendingWorker) (info : RoundTripInfo) (current : Z)
    (seg : AckSegment) (rto : Z) : SendingWorker * RoundTripInfo :=
  if closed w then (w, info) else
  let w := if remoteNextNumber w <? ReceivingWindow seg then with_remote w (ReceivingWindow seg) else w in
  let w := ProcessReceivingNext w (aReceivingNext seg) in
  if AckIsEmpty seg then (w, info) else
  let '(w, maxack, maxackRemoved) := processAcks w (NumberList seg) 0 false in
  if maxackRemoved then
    (with_window w (HandleFastAck (window w) maxack rto),
     if u32 (current - aTimestamp seg) <? 10000
     then Update info (u32 (current - aTimestamp seg)) current else info)
  else (w, info).

(** [Push(b)] of the worker. *)
Definition WorkerPush (w : SendingWorker) (b : Buffer) : SendingWorker * bool :=
  if closed w then (w, false) else
  if windowSize w <? Len (window w) then (w, false) else
  let w := with_window w (Push (window w) (nextNumber w) b) in
  ({| window := window w; firstUnacknowledged := firstUnacknowledged w;
      nextNumber := u32 (nextNumber w + 1); remoteNextNumber := remoteNextNumber w;
      controlWindow := controlWindow w; fastResend := fastResend w; windowSize := windowSize w;
      firstUnacknowledgedUpdated := firstUnacknowledgedUpdated w; closed := closed w |}, true).

(** [Write(seg)]: what the worker fills in; [closing] is
    [State() == StateReadyToClose]. *)
Definition Write (w : SendingWorker) (conv : Z) (closing : bool) (seg : DataSegment) : DataSegment :=
  {| dConv := conv; dOption := if closing then SegmentOptionClose else 0;
     dTimestamp := dTimestamp seg; dNumber := dNumber seg;
     dSendingNext := firstUnacknowledged w; payload := payload seg; timeout := timeout seg;
     transmit := transmit seg |}.

Definition OnPacketLoss (w : SendingWorker) (c : option Config) (info : RoundTripInfo) (lossRate : Z)
    : res SendingWorker :=
  cfg ← or_panic c;
  if negb (Congestion cfg) || (Timeout info =? 0) then Ok w else
  let cw := if 15 <=? lossRate then u32 (3 * controlWindow w) / 4
            else if lossRate <=? 5 then u32 (controlWindow w + controlWindow w / 4)
            else controlWindow w in
  let cw := if cw <? 16 then 16 else cw in
  size ← GetSendingInFlightSize c;
  Ok (with_control w (if u32 (2 * size) <? cw then u32 (2 * size) else cw)).

(** [Flush(current)] up to the ping, which the connection sends if the last
    component is [true]. *)
Definition WorkerFlush (w : SendingWorker) (c : option Config) (info : RoundTripInfo) (conv : Z)
    (closing : bool) (current : Z) : res (SendingWorker * list DataSegment * bool) :=
  if closed w then Ok (w, [], false) else
  cwnd ← GetSendingInFlightSize c;
  cfg ← or_panic c;
  let gap := u32 (remoteNextNumber w - firstUnacknowledged w) in
  let cwnd := if gap <? cwnd then gap else cwnd in
  let cwnd := if Congestion cfg && (controlWindow w <? cwnd) then controlWindow w else cwnd in
  let cwnd := u32 (cwnd * 20) in
  '(w, out) ← (if IsEmpty (window w) then Ok (w, []) else
    let '(sw, out, loss) := Flush (Write w conv closing) (window w) current (Timeout info) cwnd in
    let w := with_window w sw in
    w ← (match loss with Some rate => OnPacketLoss w c info rate | None => Ok w end);
    Ok (with_first w (firstUnacknowledged w) false, out));
  Ok (with_first w (firstUnacknowledged w) false, out, firstUnacknowledgedUpdated w).

Definition CloseWrite (w : SendingWorker) : SendingWorker :=
  with_window w (Clear (window w) 0xFFFFFFFF).

Definition UpdateNecessary (w : SendingWorker) : bool := negb (IsEmpty (window w)).
Definition FirstUnacknowledged (w : SendingWorker) : Z := firstUnacknowledged w.

End KcpSend.

Import KcpSend.

(** ** The window as the list of the numbers and payloads it carries *)
Definition carried (seg : DataSegment) : Z * option Buffer := (dNumber seg, payload seg).
Definition carries (sw : SendingWindow) : list (Z * option Buffer) := map carried (cache sw).

(** The numbers in the window increase from front to back. *)
Definition in_order (sw : SendingWindow) : Prop := StronglySorted Z.lt (map dNumber (cache sw)).

Lemma carries_numbers sw : map dNumber (cache sw) = map fst (carries sw).
Proof. unfold carries. by rewrite map_map. Qed.

Lemma ClearLoop_spec una c :
  exists k, ClearLoop una c = drop k c /\ Forall (fun s => dNumber s < una) (take k c) /\
    match ClearLoop una c with s :: _ => una <= dNumber s | [] => True end.
Proof.
  induction c as [|s c (k & Ek & Hk & Hh)]; [by exists 0%nat|]. cbn [ClearLoop].
  destruct (una <=? dNumber s) eqn:E.
  - exists 0%nat. split; [done|]. split; [constructor|lia].
  - exists (S k). split; [done|]. split; [|done]. simpl. constructor; [lia|done].
Qed.

(** [Clear] drops a prefix of numbers below [una]. *)
Lemma Clear_carries sw una :
  exists k, carries (Clear sw una) = drop k (carries sw) /\
    Forall (fun p => p.1 < una) (take k (carries sw)).
Proof.
  destruct (ClearLoop_spec una (cache sw)) as (k & E & Hk & _). exists k.
  unfold carries, Clear. cbn [cache with_cache]. rewrite E, !firstn_map, skipn_map. split; [done|].
  by apply Forall_map.
Qed.

Lemma Clear_keeps sw una x : x ∈ carries sw -> x ∈ carries (Clear sw una) \/ x.1 < una.
Proof.
  destruct (Clear_carries sw una) as (k & -> & Hk). rewrite <- (take_drop k (carries sw)) at 1.
  rewrite elem_of_app, Forall_forall in *. naive_solver.
Qed.

Lemma Clear_subset sw una x : x ∈ carries (Clear sw una) -> x ∈ carries sw.
Proof.
  destruct (Clear_carries sw una) as (k & -> & _). intros H.
  rewrite <- (take_drop k (carries sw)). apply elem_of_app. by right.
Qed.

Lemma StronglySorted_drop {A} (R : A -> A -> Prop) k l : StronglySorted R l -> StronglySorted R (drop k l).
Proof.
  revert l. induction k as [|k IH]; intros [|x l] H; try done. simpl. apply IH. by inversion H.
Qed.

Lemma Clear_in_order sw una : in_order sw -> in_order (Clear sw una).
Proof.
  unfold in_order. rewrite !carries_numbers. destruct (Clear_carries sw una) as (k & -> & _).
  rewrite <- skipn_map. apply StronglySorted_drop.
Qed.

(** On an ordered window nothing below [una] is left. *)
Lemma Clear_cleared sw una x : in_order sw -> x ∈ carries (Clear sw una) -> una <= x.1.
Proof.
  intros Ho. assert (Ho' := Clear_in_order sw una Ho). unfold in_order, carries, Clear in *.
  cbn [cache with_cache] in *. destruct (ClearLoop_spec una (cache sw)) as (k & _ & _ & Hh).
  destruct (ClearLoop una (cache sw)) as [|s c]; [by intros H%elem_of_nil|].
  cbn [map] in *. apply StronglySorted_inv in Ho' as [_ Ho'].
  intros [->|H]%elem_of_cons; [done|]. rewrite Forall_forall in Ho'.
  apply list_elem_of_fmap in H as (s' & -> & Hin). simpl.
  specialize (Ho' (dNumber s') ltac:(by apply list_elem_of_fmap_2)). lia.
Qed.

(** A visitor that keeps number and payload keeps what the window carries. *)
Lemma VisitLoop_carries {S} (visitor : DataSegment -> S -> DataSegment * S * bool) c s :
  (forall seg s, carried (visitor seg s).1.1 = carried seg) ->
  map carried (VisitLoop visitor c s).1 = map carried c.
Proof.
  intros Hv. revert s. induction c as [|seg c IH]; intros s; [done|]. cbn [VisitLoop].
  pose proof (Hv seg s) as H. destruct (visitor seg s) as [[seg' s'] more]. simpl in H.
  destruct more; [|simpl; by rewrite H].
  specialize (IH s'). destruct (VisitLoop visitor c s') as [c' s'']. simpl in *. by rewrite H, IH.
Qed.

Lemma HandleFastAck_carries sw number rto : carries (HandleFastAck sw number rto) = carries sw.
Proof.
  unfold HandleFastAck, carries. destruct (IsEmpty sw); [done|]. cbn [cache with_cache].
  apply VisitLoop_carries. intros seg s. unfold fastAckVisitor. by repeat case_match.
Qed.

(** What the visitor of [Flush] writes is carried by the window, and it counts
    what it has written. *)
Lemma FlushLoop_spec writer current rto m c s :
  (forall seg, carried (writer seg) = carried seg) ->
  let '(c', s') := VisitLoop (flushVisitor writer current rto m) c s in
  map carried c' = map carried c /\
  exists out, written s' = written s ++ out /\
    Forall (fun o => carried o ∈ map carried c /\ exists seg, o = writer seg) out.
Proof.
  intros Hw. revert s. induction c as [|seg c IH]; intros s.
  - split; [done|]. exists []. by rewrite app_nil_r.
  - cbn [VisitLoop]. destruct (flushVisitor writer current rto m seg s) as [[seg1 s1] more] eqn:Ev.
    assert (Hs1 : carried seg1 = carried seg /\ exists o1, written s1 = written s ++ o1 /\
      Forall (fun o => carried o = carried seg /\ exists x, o = writer x) o1).
    { unfold flushVisitor in Ev. destruct (0x7FFFFFFF <=? _); injection Ev as <- <- <-.
      - split; [done|]. exists []. by rewrite app_nil_r.
      - split; [by rewrite Hw|]. eexists [_]. split; [done|]. apply Forall_singleton.
        split; [by rewrite Hw|by eexists]. }
    destruct Hs1 as (Hc & o1 & Eo1 & Ho1).
    assert (Ho1' : Forall (fun o => carried o ∈ map carried (seg :: c) /\ exists x, o = writer x) o1).
    { eapply Forall_impl; [exact Ho1|]. intros o [-> Hx]. split; [simpl; set_solver|done]. }
    destruct more.
    + specialize (IH s1). destruct (VisitLoop _ c s1) as [c' s']. destruct IH as (E & out & Eo & Ho).
      split; [simpl; by rewrite E, Hc|]. exists (o1 ++ out). rewrite Eo, Eo1, app_assoc. split; [done|].
      apply Forall_app. split; [done|]. eapply Forall_impl; [exact Ho|].
      intros o [Hin Hx]. split; [by apply list_elem_of_further|done].
    + split; [simpl; by rewrite Hc|]. by exists o1.
Qed.

Lemma Flush_spec writer sw current rto m :
  (forall seg, carried (writer seg) = carried seg) ->
  let '(sw', out, loss) := Flush writer sw current rto m in
  carries sw' = carries sw /\
  Forall (fun o => carried o ∈ carries sw /\ exists seg, o = writer seg) out.
Proof.
  intros Hw. unfold Flush. destruct (IsEmpty sw); [done|].
  match goal with |- context [VisitLoop _ _ ?s] =>
    pose proof (FlushLoop_spec writer current rto m (cache sw) s Hw) as H end.
  destruct (VisitLoop _ _ _) as [c s]. destruct H as (E & out & Eo & Ho). simpl in Eo. subst out.
  by split.
Qed.

(** ** Remove *)
Lemma RemoveLoop_spec number c :
  match RemoveLoop number c with
  | Some c' => exists a s b, c = a ++ s :: b /\ c' = a ++ b /\ dNumber s = number
  | None => StronglySorted Z.lt (map dNumber c) -> number ∉ map dNumber c
  end.
Proof.
  induction c as [|s c IH]; [by intros _ ?%elem_of_nil|]. cbn [RemoveLoop].
  destruct (number <? dNumber s) eqn:E1.
  - cbn [map]. intros [_ Hs]%StronglySorted_inv. rewrite Forall_forall in Hs.
    intros [->|Hin]%elem_of_cons; [lia|]. specialize (Hs _ Hin). lia.
  - destruct (dNumber s =? number) eqn:E2.
    + exists [], s, c. split; [done|]. split; [done|lia].
    + destruct (RemoveLoop number c) as [c'|].
      * destruct IH as (a & s' & b & -> & -> & H). by exists (s :: a), s', b.
      * cbn [map]. intros [Hs _]%StronglySorted_inv. intros [->|Hin]%elem_of_cons; [lia|]. by apply IH.
Qed.

Lemma Remove_carries sw number :
  let '(sw', removed) := Remove sw number in
  if removed then exists a x b, carries sw = a ++ x :: b /\ carries sw' = a ++ b /\ x.1 = number
  else sw' = sw /\ (in_order sw -> number ∉ map dNumber (cache sw)).
Proof.
  unfold Remove, IsEmpty, in_order. destruct (length (cache sw) =? 0)%nat eqn:E0.
  { split; [done|]. intros _. destruct (cache sw); [apply not_elem_of_nil|done]. }
  pose proof (RemoveLoop_spec number (cache sw)) as H. destruct (RemoveLoop number (cache sw)) as [c|]; [|done].
  destruct H as (a & s & b & E & -> & Hn). exists (map carried a), (carried s), (map carried b).
  unfold carries. cbn [cache]. rewrite E, !map_app. done.
Qed.

Lemma Remove_keeps sw number x : x ∈ carries sw -> x ∈ carries (Remove sw number).1 \/ x.1 = number.
Proof.
  pose proof (Remove_carries sw number) as H. destruct (Remove sw number) as [sw' []]; cbn [fst].
  - destruct H as (a & y & b & -> & -> & Hy). rewrite !elem_of_app, elem_of_cons. naive_solver.
  - destruct H as [-> _]. auto.
Qed.

Lemma Remove_subset sw number x : x ∈ carries (Remove sw number).1 -> x ∈ carries sw.
Proof.
  pose proof (Remove_carries sw number) as H. destruct (Remove sw number) as [sw' []]; cbn [fst].
  - destruct H as (a & y & b & -> & -> & Hy). rewrite !elem_of_app, elem_of_cons. naive_solver.
  - by destruct H as [-> _].
Qed.

Lemma StronglySorted_remove {A} (R : A -> A -> Prop) a x b :
  StronglySorted R (a ++ x :: b) -> StronglySorted R (a ++ b).
Proof.
  induction a as [|y a IH]; simpl; intros [H1 H2]%StronglySorted_inv; [done|].
  constructor; [by apply IH|]. rewrite Forall_app, Forall_cons in *. naive_solver.
Qed.

Lemma Remove_in_order sw number : in_order sw -> in_order (Remove sw number).1.
Proof.
  unfold in_order. rewrite !carries_numbers. intros Ho. pose proof (Remove_carries sw number) as H.
  destruct (Remove sw number) as [sw' []]; cbn [fst]; [|by destruct H as [-> _]].
  destruct H as (a & x & b & E & -> & _). rewrite E in Ho. rewrite map_app in *. cbn [map] in Ho.
  by apply StronglySorted_remove in Ho.
Qed.

(** ** The worker *)

(** The numbers in the window increase and lie below the next one. *)
Record snd_ok (w : SendingWorker) : Prop := {
  so_order : in_order (window w);
  so_below : forall x, x ∈ carries (window w) -> 0 <= x.1 < nextNumber w;
  so_next : is_u32 (nextNumber w);
}.

(** [w'] carries a part of what [w] carries, in order, and agrees on the rest of
    the numbering. *)
Record shrinks (w w' : SendingWorker) : Prop := {
  sh_sub : forall x, x ∈ carries (window w') -> x ∈ carries (window w);
  sh_order : in_order (window w) -> in_order (window w');
  sh_next : nextNumber w' = nextNumber w;
  sh_closed : closed w' = closed w;
}.

#[export] Instance shrinks_preorder : PreOrder shrinks.
Proof. split; [by intros w; split|]. intros a b c [] []. split; naive_solver congruence. Qed.

Lemma shrinks_ok w w' : shrinks w w' -> snd_ok w -> snd_ok w'.
Proof.
  intros [Hs Ho Hn _] [H1 H2 H3]. split; [by apply Ho| |by rewrite Hn]. intros x Hx. rewrite Hn. auto.
Qed.

Lemma same_window w w' :
  window w' = window w -> nextNumber w' = nextNumber w -> closed w' = closed w -> shrinks w w'.
Proof. intros Hw ??. split; try done; by rewrite Hw. Qed.

Lemma FindFirst_shrinks w : shrinks w (FindFirstUnacknowledged w).
Proof. by apply same_window. Qed.

Lemma with_window_shrinks w sw :
  (forall x, x ∈ carries sw -> x ∈ carries (window w)) -> (in_order (window w) -> in_order sw) ->
  shrinks w (with_window w sw).
Proof. intros. by split. Qed.

Lemma ProcessReceivingNext_shrinks w next : shrinks w (ProcessReceivingNext w next).
Proof.
  unfold ProcessReceivingNext. etrans; [|apply FindFirst_shrinks].
  apply with_window_shrinks; [apply Clear_subset|apply Clear_in_order].
Qed.

Lemma ProcessReceivingNext_keeps w next x :
  x ∈ carries (window w) -> x ∈ carries (window (ProcessReceivingNext w next)) \/ x.1 < next.
Proof. apply Clear_keeps. Qed.

Lemma processAck_window w number :
  window (processAck w number).1 = window w \/
  window (processAck w number).1 = (Remove (window w) number).1.
Proof.
  unfold processAck. destruct (_ || _); [by left|]. destruct (Remove (window w) number) as [sw []]; by right.
Qed.

Lemma processAck_shrinks w number : shrinks w (processAck w number).1.
Proof.
  unfold processAck. destruct (_ || _); [done|].
  pose proof (Remove_subset (window w) number) as Hs. pose proof (Remove_in_order (window w) number) as Ho.
  destruct (Remove (window w) number) as [sw []]; cbn [fst] in *.
  - etrans; [|apply FindFirst_shrinks]. by apply with_window_shrinks.
  - by apply with_window_shrinks.
Qed.

Lemma processAck_keeps w number x :
  x ∈ carries (window w) -> x ∈ carries (window (processAck w number).1) \/ x.1 = number.
Proof.
  intros Hx. destruct (processAck_window w number) as [->| ->]; [by left|]. by apply Remove_keeps.
Qed.

Lemma processAcks_spec w l m r :
  shrinks w (processAcks w l m r).1.1 /\
  (forall x, x ∈ carries (window w) -> x ∈ carries (window (processAcks w l m r).1.1) \/ x.1 ∈ l).
Proof.
  revert w m r. induction l as [|n l IH]; intros w m r; [by split; [|left]|]. cbn [processAcks].
  pose proof (processAck_shrinks w n) as Hs. pose proof (processAck_keeps w n) as Hk.
  destruct (processAck w n) as [w1 r1]. cbn [fst] in *.
  assert (H : forall m' r', shrinks w (processAcks w1 l m' r').1.1 /\ (forall x, x ∈ carries (window w) ->
    x ∈ carries (window (processAcks w1 l m' r').1.1) \/ x.1 ∈ n :: l)).
  { intros m' r'. destruct (IH w1 m' r') as [I1 I2]. split; [by etrans|].
    intros x Hx. rewrite elem_of_cons. destruct (Hk x Hx) as [Hx'|]; [|auto].
    destruct (I2 x Hx'); auto. }
  destruct (m <? n); apply H.
Qed.

Lemma ProcessSegment_spec w info current seg rto :
  let w' := (ProcessSegment w info current seg rto).1 in
  shrinks w w' /\
  (forall x, x ∈ carries (window w) ->
     x ∈ carries (window w') \/ x.1 < aReceivingNext seg \/ x.1 ∈ NumberList seg).
Proof.
  unfold ProcessSegment. destruct (closed w); [by split; [|left]|].
  set (w1 := if _ <? _ then with_remote w _ else w).
  assert (H1 : shrinks w w1 /\ window w1 = window w) by (unfold w1; by destruct (_ <? _)).
  destruct H1 as [H1 E1]. set (w2 := ProcessReceivingNext w1 (aReceivingNext seg)).
  assert (H2 : shrinks w w2) by (etrans; [exact H1|apply ProcessReceivingNext_shrinks]).
  assert (K2 : forall x, x ∈ carries (window w) -> x ∈ carries (window w2) \/ x.1 < aReceivingNext seg).
  { intros x Hx. apply ProcessReceivingNext_keeps. by rewrite E1. }
  clearbody w2. destruct (AckIsEmpty seg); [split; [done|naive_solver]|].
  destruct (processAcks_spec w2 (NumberList seg) 0 false) as [H3 K3].
  destruct (processAcks w2 (NumberList seg) 0 false) as [[w3 maxack] removed]. cbn [fst] in *.
  assert (K : forall x, x ∈ carries (window w) -> x ∈ carries (window w3) \/
    x.1 < aReceivingNext seg \/ x.1 ∈ NumberList seg).
  { intros x Hx. destruct (K2 x Hx) as [Hx'|]; [|auto]. destruct (K3 x Hx'); auto. }
  assert (H : shrinks w w3) by by etrans.
  destruct removed; cbn [fst]; [|by split]. split.
  - etrans; [exact H|]. apply with_window_shrinks; [by rewrite HandleFastAck_carries|].
    unfold in_order. by rewrite !carries_numbers, HandleFastAck_carries.
  - intros x Hx. cbn [window with_window]. rewrite HandleFastAck_carries. auto.
Qed.

Lemma OnPacketLoss_window w c info rate w' :
  OnPacketLoss w c info rate = Ok w' -> window w' = window w /\ nextNumber w' = nextNumber w /\
    closed w' = closed w.
Proof.
  unfold OnPacketLoss. destruct c as [cfg|]; [|done]. cbn [or_panic mbind res_bind].
  destruct (_ || _); [by intros [= <-]|].
  destruct (GetSendingInFlightSize _) as [n| |]; [|done|done]. cbn [mbind res_bind]. by intros [= <-].
Qed.

Lemma OnPacketLoss_total w c info rate :
  cfg_ok (Some c) -> exists w', OnPacketLoss w (Some c) info rate = Ok w'.
Proof.
  intros Hc. unfold OnPacketLoss. cbn [or_panic mbind res_bind]. destruct (_ || _); [by eexists|].
  destruct (inFlightSize_ok (GetUplinkCapacityValue (Some c)) (Some c) Hc) as (n & E & _).
  unfold GetSendingInFlightSize. rewrite E. by eexists.
Qed.

(** A flush of the worker keeps what the window carries, and every segment it
    writes is carried by the window. *)
Lemma WorkerFlush_spec w c info conv closing current w' out ping :
  WorkerFlush w c info conv closing current = Ok (w', out, ping) ->
  carries (window w') = carries (window w) /\ nextNumber w' = nextNumber w /\ closed w' = closed w /\
  Forall (fun o => carried o ∈ carries (window w) /\ dConv o = conv) out.
Proof.
  unfold WorkerFlush. destruct (closed w) eqn:Hcl; [by intros [= <- <- <-]|].
  destruct (GetSendingInFlightSize c) as [cw| |]; [|done|done]. cbn [mbind res_bind].
  destruct c as [cfg|]; [|done]. cbn [or_panic mbind res_bind].
  destruct (IsEmpty (window w)); cbn [mbind res_bind]; [by intros [= <- <- <-]|].
  match goal with |- context [Flush ?wr ?sw ?cu ?r ?m] =>
    pose proof (Flush_spec wr sw cu r m ltac:(done)) as H; destruct (Flush wr sw cu r m) as [[sw' o] loss] end.
  destruct H as [Hc Ho].
  assert (Hloss : forall w1, (match loss with Some rate => OnPacketLoss (with_window w sw') (Some cfg) info rate
      | None => Ok (with_window w sw') end) = Ok w1 ->
      window w1 = sw' /\ nextNumber w1 = nextNumber w /\ closed w1 = closed w).
  { destruct loss as [rate|]; [|by intros w1 [= <-]]. intros w1 E. by apply OnPacketLoss_window in E. }
  destruct (match loss with Some _ => _ | None => _ end) as [w1| |]; [|done|done].
  cbn [mbind res_bind]. intros [= <- <- <-]. destruct (Hloss w1 eq_refl) as (Hw & Hn & Hl).
  cbn [window with_first nextNumber closed]. rewrite Hw, Hn, Hl. split_and!; try done.
  eapply Forall_impl; [exact Ho|]. intros s [H1 (seg & ->)]. done.
Qed.

Lemma WorkerFlush_total w c info conv closing current :
  cfg_ok (Some c) -> exists r, WorkerFlush w (Some c) info conv closing current = Ok r.
Proof.
  intros Hc. unfold WorkerFlush. destruct (closed w); [by eexists|].
  destruct (inFlightSize_ok (GetUplinkCapacityValue (Some c)) (Some c) Hc) as (n & E & _).
  unfold GetSendingInFlightSize. rewrite E. cbn [mbind res_bind or_panic].
  destruct (IsEmpty (window w)); [by eexists|].
  destruct (Flush _ _ _ _ _) as [[sw' o] [rate|]]; cbn [mbind res_bind]; [|by eexists].
  destruct (OnPacketLoss_total (with_window w sw') c info rate Hc) as [w' ->]. by eexists.
Qed.

(** [Push] appends a segment with the next number. *)
Lemma WorkerPush_spec w b :
  match WorkerPush w b with
  | (w', true) => carries (window w') = carries (window w) ++ [(nextNumber w, Some b)] /\
                  nextNumber w' = u32 (nextNumber w + 1) /\ closed w' = closed w /\ closed w = false
  | (w', false) => w' = w
  end.
Proof.
  unfold WorkerPush. destruct (closed w) eqn:E; [done|]. destruct (_ <? _); [done|].
  cbn [window nextNumber closed with_window]. unfold carries, Push. cbn [cache with_cache].
  by rewrite map_app.
Qed.

Lemma StronglySorted_snoc (l : list Z) x :
  StronglySorted Z.lt l -> Forall (fun y => y < x) l -> StronglySorted Z.lt (l ++ [x]).
Proof.
  induction 1 as [|y l Hl IH Hy]; intros Hx; simpl; [by repeat constructor|].
  apply Forall_cons in Hx as [? ?]. constructor; [auto|]. apply Forall_app. split; [done|]. by constructor.
Qed.

Lemma WorkerPush_ok w b :
  snd_ok w -> nextNumber w + 1 < 2 ^ 32 -> snd_ok (WorkerPush w b).1.
Proof.
  intros [Ho Hb Hn] Hmax. pose proof (WorkerPush_spec w b) as H. destruct (WorkerPush w b) as [w' []]; cbn [fst].
  2: { by subst w'. }
  destruct H as (Hc & Hx & _). rewrite u32_small in Hx by lia. split.
  - unfold in_order in *. rewrite carries_numbers in *. rewrite Hc, map_app. apply StronglySorted_snoc; [done|].
    apply Forall_map, Forall_forall. intros x Hin. apply Hb in Hin. simpl. lia.
  - intros x. rewrite Hc, elem_of_app, list_elem_of_singleton, Hx. intros [Hin| ->]; [apply Hb in Hin; lia|simpl; lia].
  - lia.
Qed.

Lemma CloseWrite_shrinks w : shrinks w (CloseWrite w).
Proof. apply with_window_shrinks; [apply Clear_subset|apply Clear_in_order]. Qed.

(** ** Properties *)

(** Removing an acknowledged segment finds it: on a window in order the
    search that stops at the first larger number reports success exactly when
    the number is in the window, and then takes out that segment and no other. *)
Theorem Remove_exact sw number :
  in_order sw ->
  ((Remove sw number).2 = true <-> number ∈ map dNumber (cache sw)) /\
  carries (Remove sw number).1 = filter (fun x => x.1 <> number) (carries sw) /\
  in_order (Remove sw number).1.
Proof.
  intros Ho. pose proof (Remove_carries sw number) as H. pose proof (Remove_in_order sw number Ho) as Ho'.
  unfold in_order in Ho. rewrite carries_numbers in *.
  assert (Hne : forall l : list (Z * option Buffer), number ∉ map fst l -> filter (fun x => x.1 <> number) l = l).
  { intros l Hl. apply filter_all, Forall_forall. intros x Hx <-. apply Hl. by apply list_elem_of_fmap_2. }
  destruct (Remove sw number) as [sw' []]; cbn [fst snd] in *.
  - destruct H as (a & x & b & E & -> & <-). rewrite E in *. rewrite map_app in *. cbn [map] in *.
    split; [split; [intros _; set_solver|done]|]. split; [|done].
    assert (Ha : x.1 ∉ map fst a /\ x.1 ∉ map fst b).
    { clear E Ho' Hne. induction a as [|y a IH]; cbn [map app] in *.
      - apply StronglySorted_inv in Ho as [_ Ho]. rewrite Forall_forall in Ho.
        split; [apply not_elem_of_nil|]. intros Hin. specialize (Ho _ Hin). lia.
      - apply StronglySorted_inv in Ho as [Ho Hy]. destruct (IH Ho) as [IH1 IH2]. split; [|done].
        rewrite Forall_forall in Hy. specialize (Hy x.1 ltac:(set_solver)). rewrite elem_of_cons. intros [?|?]; [lia|done]. }
    destruct Ha as [Ha Hb]. rewrite filter_app, filter_cons_False by auto. by rewrite !Hne.
  - destruct H as [-> H]. unfold in_order in H. rewrite carries_numbers in H. specialize (H Ho).
    split; [split; [done|intros; done]|]. split; [by rewrite Hne|done].
Qed.

Lemma Remove_exact_witness :
  let sw := Push (Push (Push NewSendingWindow 3 New) 4 New) 9 New in
  ((Remove sw 4).2 = true <-> 4 ∈ map dNumber (cache sw)) /\
  carries (Remove sw 4).1 = filter (fun x => x.1 <> 4) (carries sw) /\ in_order (Remove sw 4).1.
Proof. apply Remove_exact. unfold in_order. simpl. repeat constructor; lia. Defined.

(** The counter of the segments in flight is decremented by [Remove] and not by
    [Clear]: a cumulative acknowledgement leaves it above the window. *)
Lemma Clear_forgets_in_flight :
  let sw := Push NewSendingWindow 0 New in
  let sw := (Flush (fun s => s) sw 1000 100 32).1.1 in
  IsEmpty (Clear sw 1) = true /\ totalInFlightSize (Clear sw 1) = 1.
Proof. by vm_compute. Qed.
