(* ===== verification/KcpConn.v ===== *)
(** * Package transport/internet/kcp: the connection

    [Module KcpConn] models connection.go: the connection with its two workers,
    its state machine, the handlers of incoming packets, the update task and the
    entry points of its users.  [now] is the clock ([Elapsed()]) during the
    call; the list a handler returns beside the connection holds the segments
    it hands to the output, in order. *)
From S2P Require Import Prelude GoStd Buf MultiBuf KcpSegment KcpConfig KcpRecv KcpSend.
Import Buf MultiBuf KcpSegment KcpConfig.

Module KcpConn.

Inductive State :=
  | StateActive
  | StateReadyToClose
  | StatePeerClosed
  | StateTerminating
  | StatePeerTerminating
  | StateTerminated.

#[export] Instance State_eq_dec : EqDecision State.
Proof. solve_decision. Defined.

Definition Is (s : State) (states : list State) : bool := bool_decide (s ∈ states).

(** The notifiers hold at most one signal.  An updater is running while its
    goroutine holds the token of its semaphore; [toTerminate] counts the
    goroutines started with [go c.Terminate()]. *)
Record Connection := mkConn {
  conv : Z;                     (* meta.Conversation, uint16 *)
  config : option Config;
  dataInput : bool;
  dataOutput : bool;
  state : State;
  stateBeginTime : Z;           (* uint32, as the other times *)
  lastIncomingTime : Z;
  lastPingTime : Z;
  mss : Z;                      (* uint32 *)
  roundTrip : RoundTripInfo;
  receivingWorker : KcpRecv.ReceivingWorker;
  sendingWorker : KcpSend.SendingWorker;
  outputReleased : bool;
  closerClosed : bool;
  dataRunning : bool;
  pingRunning : bool;
  pingInterval : Z;             (* milliseconds *)
  toTerminate : nat;
}.

(** [NewConnection(meta, writer, closer, config)]; [overhead] is
    [writer.Overhead()]. *)
Definition NewConnection (conversation overhead : Z) (c : option Config) : res Connection :=
  rsize ← GetReceivingInFlightSize c;
  sw ← KcpSend.NewSendingWorker c;
  Ok {| conv := conversation; config := c; dataInput := false; dataOutput := false;
        state := StateActive; stateBeginTime := 0; lastIncomingTime := 0; lastPingTime := 0;
        mss := u32 (GetMTUValue c - u32 overhead - DataSegmentOverhead);
        roundTrip := {| variation := 0; srtt := 0; rto := 100; minRtt := GetTTIValue c;
                        updatedTimestamp := 0 |};
        receivingWorker := KcpRecv.NewReceivingWorker rsize; sendingWorker := sw;
        outputReleased := false; closerClosed := false; dataRunning := false;
        pingRunning := true; pingInterval := 5000; toTerminate := 0 |}.

(** ** Field updates *)
Definition with_signals (c : Connection) (i o : bool) : Connection :=
  {| conv := conv c; config := config c; dataInput := i; dataOutput := o; state := state c;
     stateBeginTime := stateBeginTime c; lastIncomingTime := lastIncomingTime c;
     lastPingTime := lastPingTime c; mss := mss c; roundTrip := roundTrip c;
     receivingWorker := receivingWorker c; sendingWorker := sendingWorker c;
     outputReleased := outputReleased c; closerClosed := closerClosed c;
     dataRunning := dataRunning c; pingRunning := pingRunning c; pingInterval := pingInterval c;
     toTerminate := toTerminate c |}.

Definition with_workers (c : Connection) (r : KcpRecv.ReceivingWorker) (s : KcpSend.SendingWorker)
    (i : RoundTripInfo) : Connection :=
  {| conv := conv c; config := config c; dataInput := dataInput c; dataOutput := dataOutput c;
     state := state c; stateBeginTime := stateBeginTime c; lastIncomingTime := lastIncomingTime c;
     lastPingTime := lastPingTime c; mss := mss c; roundTrip := i;
     receivingWorker := r; sendingWorker := s;
     outputReleased := outputReleased c; closerClosed := closerClosed c;
     dataRunning := dataRunning c; pingRunning := pingRunning c; pingInterval := pingInterval c;
     toTerminate := toTerminate c |}.

Definition with_recv (c : Connection) (r : KcpRecv.ReceivingWorker) : Connection :=
  with_workers c r (sendingWorker c) (roundTrip c).
Definition with_send (c : Connection) (s : KcpSend.SendingWorker) : Connection :=
  with_workers c (receivingWorker c) s (roundTrip c).

Definition with_times (c : Connection) (incoming ping : Z) : Connection :=
  {| conv := conv c; config := config c; dataInput := dataInput c; dataOutput := dataOutput c;
     state := state c; stateBeginTime := stateBeginTime c; lastIncomingTime := incoming;
     lastPingTime := ping; mss := mss c; roundTrip := roundTrip c;
     receivingWorker := receivingWorker c; sendingWorker := sendingWorker c;
     outputReleased := outputReleased c; closerClosed := closerClosed c;
     dataRunning := dataRunning c; pingRunning := pingRunning c; pingInterval := pingInterval c;
     toTerminate := toTerminate c |}.

Definition with_state (c : Connection) (s : State) (now : Z) : Connection :=
  {| conv := conv c; config := config c; dataInput := dataInput c; dataOutput := dataOutput c;
     state := s; stateBeginTime := now; lastIncomingTime := lastIncomingTime c;
     lastPingTime := lastPingTime c; mss := mss c; roundTrip := roundTrip c;
     receivingWorker := receivingWorker c; sendingWorker := sendingWorker c;
     outputReleased := outputReleased c; closerClosed := closerClosed c;
     dataRunning := dataRunning c; pingRunning := pingRunning c; pingInterval := pingInterval c;
     toTerminate := toTerminate c |}.

Definition with_tasks (c : Connection) (data ping : bool) (interval : Z) (t : nat) : Connection :=
  {| conv := conv c; config := config c; dataInput := dataInput c; dataOutput := dataOutput c;
     state := state c; stateBeginTime := stateBeginTime c; lastIncomingTime := lastIncomingTime c;
     lastPingTime := lastPingTime c; mss := mss c; roundTrip := roundTrip c;
     receivingWorker := receivingWorker c; sendingWorker := sendingWorker c;
     outputReleased := outputReleased c; closerClosed := closerClosed c;
     dataRunning := data; pingRunning := ping; pingInterval := interval; toTerminate := t |}.

Definition signalInput (c : Connection) : Connection := with_signals c true (dataOutput c).
Definition signalOutput (c : Connection) : Connection := with_signals c (dataInput c) true.

(** [Updater.WakeUp]: starts the goroutine unless it is running. *)
Definition WakeUpData (c : Connection) : Connection :=
  with_tasks c true (pingRunning c) (pingInterval c) (toTerminate c).
Definition WakeUpPing (c : Connection) : Connection :=
  with_tasks c (dataRunning c) true (pingInterval c) (toTerminate c).
Definition SetPingInterval (c : Connection) (ms : Z) : Connection :=
  with_tasks c (dataRunning c) (pingRunning c) ms (toTerminate c).

Definition CloseWrite (c : Connection) : Connection :=
  with_send c (KcpSend.CloseWrite (sendingWorker c)).

(** ** The state machine *)
Definition SetState (c : Connection) (s : State) (now : Z) : Connection :=
  let c := with_state c s now in
  match s with
  | StateActive | StateReadyToClose => c
  | StatePeerClosed => CloseWrite c
  | StateTerminating | StatePeerTerminating => SetPingInterval (CloseWrite c) 1000
  | StateTerminated =>
    let c := WakeUpPing (WakeUpData (SetPingInterval (CloseWrite c) 1000)) in
    with_tasks c (dataRunning c) (pingRunning c) (pingInterval c) (S (toTerminate c))
  end.

(** [Close()] on a connection; [false] is [ErrClosedConnection]. *)
Definition Close (c : Connection) (now : Z) : Connection * bool :=
  let c := signalOutput (signalInput c) in
  match state c with
  | StateReadyToClose | StateTerminating | StateTerminated => (c, false)
  | StateActive => (SetState c StateReadyToClose now, true)
  | StatePeerClosed => (SetState c StateTerminating now, true)
  | StatePeerTerminating => (SetState c StateTerminated now, true)
  end.

Definition OnPeerClosed (c : Connection) (now : Z) : Connection :=
  match state c with
  | StateReadyToClose => SetState c StateTerminating now
  | StateActive => SetState c StatePeerClosed now
  | _ => c
  end.

Definition HandleOption (c : Connection) (opt now : Z) : Connection :=
  if Z.land opt SegmentOptionClose =? SegmentOptionClose then OnPeerClosed c now else c.

(** [Terminate()], run by its goroutine. *)
Definition Terminate (c : Connection) : Connection :=
  let c := signalOutput (signalInput c) in
  {| conv := conv c; config := config c; dataInput := dataInput c; dataOutput := dataOutput c;
     state := state c; stateBeginTime := stateBeginTime c; lastIncomingTime := lastIncomingTime c;
     lastPingTime := lastPingTime c; mss := mss c; roundTrip := roundTrip c;
     receivingWorker := KcpRecv.Release (receivingWorker c);
     sendingWorker := KcpSend.WorkerRelease (sendingWorker c);
     outputReleased := true; closerClosed := true;
     dataRunning := dataRunning c; pingRunning := pingRunning c; pingInterval := pingInterval c;
     toTerminate := toTerminate c |}.

(** ** Output: a released writer drops what it is given. *)
Definition emit (c : Connection) (out : list Segment) : list Segment :=
  if outputReleased c then [] else out.

Definition closing (c : Connection) : bool := bool_decide (state c = StateReadyToClose).

Definition Ping (c : Connection) (now : Z) (cmd : Command) : Connection * list Segment :=
  let seg := {| cConv := conv c; Cmd := cmd; cOption := if closing c then SegmentOptionClose else 0;
                cReceivingNext := KcpRecv.NextNumber (receivingWorker c);
                cSendingNext := KcpSend.FirstUnacknowledged (sendingWorker c);
                PeerRTO := Timeout (roundTrip c) |} in
  (with_times c (lastIncomingTime c) now, emit c [SegCmd seg]).

(** ** Input *)
Definition InputTerminate (c : Connection) (now : Z) : Connection :=
  match state c with
  | StateActive | StatePeerClosed => SetState c StatePeerTerminating now
  | StateReadyToClose => SetState c StateTerminating now
  | StateTerminating => SetState c StateTerminated now
  | _ => c
  end.

(** The body of the loop for a segment of this conversation. *)
Definition InputSegment (c : Connection) (now : Z) (seg : Segment) : Connection :=
  match seg with
  | SegData seg =>
    let c := HandleOption c (dOption seg) now in
    let c := with_recv c (KcpRecv.ProcessSegment (receivingWorker c) seg) in
    let c := if KcpRecv.IsDataAvailable (receivingWorker c) then signalInput c else c in
    WakeUpData c
  | SegAck seg =>
    let c := HandleOption c (aOption seg) now in
    let '(s, i) := KcpSend.ProcessSegment (sendingWorker c) (roundTrip c) now seg
                     (Timeout (roundTrip c)) in
    let c := with_workers c (receivingWorker c) s i in
    WakeUpData (signalOutput c)
  | SegCmd seg =>
    let c := HandleOption c (cOption seg) now in
    let c := if Cmd seg =? CommandTerminate then InputTerminate c now else c in
    let c := if (cOption seg =? SegmentOptionClose) || (Cmd seg =? CommandTerminate)
             then signalOutput (signalInput c) else c in
    with_workers c
      (KcpRecv.ProcessSendingNext (receivingWorker c) (cSendingNext seg))
      (KcpSend.ProcessReceivingNext (sendingWorker c) (cReceivingNext seg))
      (UpdatePeerRTO (roundTrip c) (PeerRTO seg) now)
  end.

Fixpoint InputLoop (c : Connection) (now : Z) (segments : list Segment) : Connection :=
  match segments with
  | [] => c
  | seg :: segments' =>
    if negb (Conversation seg =? conv c) then c
    else InputLoop (InputSegment c now seg) now segments'
  end.

Definition Input (c : Connection) (now : Z) (segments : list Segment) : Connection :=
  InputLoop (with_times c now (lastPingTime c)) now segments.

(** ** The update task *)

(** [flush]: the part that only moves the state machine, up to the two flushes. *)
Definition flushTimeouts (c : Connection) (now : Z) : Connection :=
  let c := if bool_decide (state c = StateActive) && (30000 <=? u32 (now - lastIncomingTime c))
           then (Close c now).1 else c in
  if bool_decide (state c = StateReadyToClose) && KcpSend.IsEmpty (KcpSend.window (sendingWorker c))
  then SetState c StateTerminating now else c.

Definition flushTimeouts2 (c : Connection) (now : Z) : Connection :=
  let c := if bool_decide (state c = StatePeerTerminating) && (4000 <? u32 (now - stateBeginTime c))
           then SetState c StateTerminating now else c in
  if bool_decide (state c = StateReadyToClose) && (15000 <? u32 (now - stateBeginTime c))
  then SetState c StateTerminating now else c.

Definition flush (c : Connection) (now : Z) : res (Connection * list Segment) :=
  if bool_decide (state c = StateTerminated) then Ok (c, []) else
  let c := flushTimeouts c now in
  if bool_decide (state c = StateTerminating) then
    let '(c, out) := Ping c now CommandTerminate in
    Ok (if 8000 <? u32 (now - stateBeginTime c) then SetState c StateTerminated now else c, out)
  else
    let c := flushTimeouts2 c now in
    let '(r, acks) := KcpRecv.WorkerFlush (receivingWorker c) (conv c) (closing c) now
                        (Timeout (roundTrip c)) in
    let c := with_recv c r in
    let outAcks := emit c (map SegAck acks) in
    '(s, datas, ping) ← KcpSend.WorkerFlush (sendingWorker c) (config c) (roundTrip c) (conv c)
                          (closing c) now;
    let c := with_send c s in
    let outDatas := emit c (map SegData datas) in
    let '(c, out1) := if ping : bool then Ping c now CommandPing else (c, []) in
    let '(c, out2) := if 3000 <=? u32 (now - lastPingTime c) then Ping c now CommandPing else (c, []) in
    Ok (c, outAcks ++ outDatas ++ out1 ++ out2).

(** One round of the goroutines of the two updaters. *)
Definition isTerminating (c : Connection) : bool := Is (state c) [StateTerminating; StateTerminated].
Definition isTerminated (c : Connection) : bool := bool_decide (state c = StateTerminated).

Definition dataRound (c : Connection) (now : Z) : res (Connection * list Segment) :=
  if negb (dataRunning c) then Ok (c, [])
  else if negb (isTerminating c) &&
          (KcpSend.UpdateNecessary (sendingWorker c) || KcpRecv.UpdateNecessary (receivingWorker c))
  then flush c now
  else Ok (with_tasks c false (pingRunning c) (pingInterval c) (toTerminate c), []).

Definition pingRound (c : Connection) (now : Z) : res (Connection * list Segment) :=
  if negb (pingRunning c) then Ok (c, [])
  else if negb (isTerminated c) then flush c now
  else Ok (with_tasks c (dataRunning c) false (pingInterval c) (toTerminate c), []).

(** ** Entry points of the users *)

(** One round of the loop of [ReadMultiBuffer]: a result, or [None] when it goes
    to wait for data. *)
Definition ReadMultiBuffer (c : Connection) : Connection * option (res MultiBuffer) :=
  if Is (state c) [StateReadyToClose; StateTerminating; StateTerminated] then (c, Some (Err EOF)) else
  let '(r, mb) := KcpRecv.ReadMultiBuffer (receivingWorker c) in
  let c := with_recv c r in
  if negb (MultiBuf.IsEmpty mb) then (WakeUpData c, Some (Ok mb))
  else if bool_decide (state c = StatePeerTerminating) then (c, Some (Err EOF))
  else (c, None).

(** One round of the loop of [Read(b)] with [n = len(b)]. *)
Definition Read (c : Connection) (n : nat) : Connection * option (res bytes) :=
  if Is (state c) [StateReadyToClose; StateTerminating; StateTerminated] then (c, Some (Err EOF)) else
  match KcpRecv.Read (receivingWorker c) n with
  | Ok (r, d) =>
    let c := with_recv c r in
    if 0 <? zlen d then (WakeUpData c, Some (Ok d)) else (c, None)
  | Err e => (c, Some (Err e))
  | Panic => (c, Some Panic)
  end.

(** How far [writeMultiBufferInternal] gets before it returns or waits: the
    chunk it still holds and the reader. *)
Inductive writing (R : Type) :=
  | WriteDone (e : option error) (r : R)
  | WriteBlocked (b : Buffer) (r : R)
  | WriteMore (b : option Buffer) (r : R)   (* out of fuel *)
  | WritePanic.
Arguments WriteDone {R} e r.
Arguments WriteBlocked {R} b r.
Arguments WriteMore {R} b r.
Arguments WritePanic {R}.

(** [b.ReadFrom(io.LimitReader(reader, mss))] on a new buffer: the first read
    of the limited reader. *)
Definition readChunk {R} `{Reader R} (limit : Z) (r : R) : R * res Buffer :=
  if limit <=? 0 then (r, Err EOF) else
  match rd r (Z.to_nat (Z.min Size limit)) with
  | (r', (data, None)) => (r', Ok (fill New data))
  | (r', (_, Some e)) => (r', Err e)
  end.

Fixpoint WriteLoop {R} `{Reader R} (fuel : nat) (c : Connection) (b : option Buffer) (r : R)
    : Connection * writing R :=
  match fuel with
  | O => (c, WriteMore b r)
  | S f =>
    if negb (bool_decide (state c = StateActive)) then (c, WriteDone (Some ErrClosedPipe) r) else
    let push (b : Buffer) (r : R) :=
      match KcpSend.WorkerPush (sendingWorker c) b with
      | (s, true) => WriteLoop f (WakeUpData (with_send c s)) None r
      | (s, false) => (with_send c s, WriteBlocked b r)
      end in
    match b with
    | Some b => push b r
    | None =>
      match readChunk (mss c) r with
      | (r, Ok b) => push b r
      | (r, Err e) => (c, WriteDone None r)
      | (r, Panic) => (c, WritePanic)
      end
    end
  end.

(** ** Events: what can happen to a connection, one atomic handler each.  [EPush]
    is one round of the writing loop, [ERead] and [EReadMulti] one round of the
    reading loops, [ETerminate] the goroutine of [Terminate]. *)
Inductive event :=
  | EInput (segments : list Segment)
  | EDataRound
  | EPingRound
  | EClose
  | EPush (b : Buffer)
  | EReadMulti
  | ERead (n : nat)
  | ETerminate.

(** The new connection, the segments sent and the bytes handed to the reader. *)
Definition handle (c : Connection) (now : Z) (e : event) : res (Connection * list Segment * bytes) :=
  match e with
  | EInput segments => Ok (Input c now segments, [], [])
  | EDataRound => '(c, out) ← dataRound c now; Ok (c, out, [])
  | EPingRound => '(c, out) ← pingRound c now; Ok (c, out, [])
  | EClose => Ok ((Close c now).1, [], [])
  | EPush b =>
    if negb (bool_decide (state c = StateActive)) then Ok (c, [], []) else
    match KcpSend.WorkerPush (sendingWorker c) b with
    | (s, true) => Ok (WakeUpData (with_send c s), [], [])
    | (s, false) => Ok (with_send c s, [], [])
    end
  | EReadMulti =>
    match ReadMultiBuffer c with
    | (c, Some (Ok mb)) => Ok (c, [], mb_content mb)
    | (c, _) => Ok (c, [], [])
    end
  | ERead n =>
    match Read c n with
    | (c, Some (Ok d)) => Ok (c, [], d)
    | (c, Some Panic) => Panic
    | (c, _) => Ok (c, [], [])
    end
  | ETerminate =>
    match toTerminate c with
    | O => Ok (c, [], [])
    | S n => Ok (with_tasks (Terminate c) (dataRunning c) (pingRunning c) (pingInterval c) n, [], [])
    end
  end.

(** The transitions of the state machine. *)
Inductive edge : State -> State -> Prop :=
  | edge_close : edge StateActive StateReadyToClose
  | edge_peer_close : edge StateActive StatePeerClosed
  | edge_peer_term : edge StateActive StatePeerTerminating
  | edge_ready : edge StateReadyToClose StateTerminating
  | edge_both : edge StatePeerClosed StateTerminating
  | edge_peer_closed_term : edge StatePeerClosed StatePeerTerminating
  | edge_peer_timeout : edge StatePeerTerminating StateTerminating
  | edge_peer_close_now : edge StatePeerTerminating StateTerminated
  | edge_done : edge StateTerminating StateTerminated.

(** How far a state is. *)
Definition rank (s : State) : Z :=
  match s with
  | StateActive => 0
  | StateReadyToClose | StatePeerClosed => 1
  | StatePeerTerminating => 2
  | StateTerminating => 3
  | StateTerminated => 4
  end.

(** The states in which the sending window has not been discarded. *)
Definition open (s : State) : bool :=
  match s with StateActive | StateReadyToClose => true | _ => false end.

(** A step that changes the control part of a connection only: it follows the
    state machine, leaves the receiving side alone, and touches the sending side
    only by discarding segments, on the way out of the open states. *)
Record ctrl (c c' : Connection) : Prop := {
  ct_edges : rtc edge (state c) (state c');
  ct_recv : receivingWorker c' = receivingWorker c;
  ct_conv : conv c' = conv c;
  ct_config : config c' = config c;
  ct_rtt : roundTrip c' = roundTrip c;
  ct_out : outputReleased c' = outputReleased c;
  ct_shrinks : KcpSend.shrinks (sendingWorker c) (sendingWorker c');
  ct_open : open (state c') = true -> sendingWorker c' = sendingWorker c;
  ct_term : toTerminate c' = toTerminate c \/ state c' = StateTerminated;
}.

(** A step that neither takes in nor hands out data: as [ctrl], but it may clear
    acknowledgements and rewrite what it keeps for retransmission. *)
Record quiet (c c' : Connection) : Prop := {
  q_edges : rtc edge (state c) (state c');
  q_conv : conv c' = conv c;
  q_recv : KcpRecv.recv_ok (receivingWorker c) ->
    KcpRecv.recv_ok (receivingWorker c') /\
    KcpRecv.nextNumber (receivingWorker c') = KcpRecv.nextNumber (receivingWorker c) /\
    KcpRecv.leftOver (receivingWorker c') = KcpRecv.leftOver (receivingWorker c) /\
    KcpRecv.window (receivingWorker c') = KcpRecv.window (receivingWorker c);
  q_shrinks : KcpSend.shrinks (sendingWorker c) (sendingWorker c');
  q_open : open (state c') = true ->
    KcpSend.carries (KcpSend.window (sendingWorker c')) = KcpSend.carries (KcpSend.window (sendingWorker c));
  q_term : toTerminate c' = toTerminate c \/ state c' = StateTerminated;
}.

(** What a segment the connection sends says: data from its window, and
    acknowledgements of what has arrived. *)
Definition truthful (c : Connection) (seg : Segment) : Prop :=
  match seg with
  | SegData s => KcpSend.carried s ∈ KcpSend.carries (KcpSend.window (sendingWorker c))
  | SegAck a =>
    Forall (KcpRecv.has (receivingWorker c)) (NumberList a) /\
    aReceivingNext a = KcpRecv.nextNumber (receivingWorker c)
  | SegCmd s => cReceivingNext s = KcpRecv.nextNumber (receivingWorker c)
  end /\ Conversation seg = conv c.

End KcpConn.

Import KcpConn.

(** ** The state machine *)
Lemma edge_rank s s' : edge s s' -> rank s < rank s'.
Proof. destruct 1; simpl; lia. Qed.

Lemma edges_rank s s' : rtc edge s s' -> s = s' \/ rank s < rank s'.
Proof.
  induction 1 as [|s s1 s2 H _ IH]; [by left|]. apply edge_rank in H. destruct IH as [->|]; right; lia.
Qed.

Lemma edges_terminated s : rtc edge StateTerminated s -> s = StateTerminated.
Proof. intros [<-|H]%edges_rank; [done|]. destruct s; simpl in H; lia. Qed.

Lemma edge_open s s' : edge s s' -> open s' = true -> open s = true.
Proof. by destruct 1. Qed.

Lemma edges_open s s' : rtc edge s s' -> open s' = true -> open s = true.
Proof. induction 1 as [|s s1 s2 H _ IH]; [done|]. intros Ho. by apply (edge_open s s1), IH. Qed.

#[export] Instance ctrl_preorder : PreOrder ctrl.
Proof.
  split; [by intros c; split; auto|]. intros a b c [] [].
  split; try congruence; [by etrans|by etrans| |].
  - intros Ho. rewrite ct_open1 by done. apply ct_open0. by eapply edges_open.
  - destruct ct_term1 as [->|]; [|by right]. destruct ct_term0 as [|E]; [by left|right].
    rewrite E in ct_edges1. by apply edges_terminated.
Qed.

(** Steps that only move signals, times and tasks. *)
Lemma ctrl_same c c' :
  state c' = state c -> receivingWorker c' = receivingWorker c -> conv c' = conv c ->
  config c' = config c -> roundTrip c' = roundTrip c -> outputReleased c' = outputReleased c ->
  sendingWorker c' = sendingWorker c -> toTerminate c' = toTerminate c -> ctrl c c'.
Proof. intros Hs Hr Hc Hf Hi Ho Hw Ht. split; try done; [by rewrite Hs|by rewrite Hw|by left]. Qed.

Lemma SetState_ctrl c s now : edge (state c) s -> ctrl c (SetState c s now).
Proof.
  intros He. assert (Hc := KcpSend.CloseWrite_shrinks (sendingWorker c)).
  destruct s; (split; [by apply rtc_once|done|done|done|done|done|done|done|]); simpl; auto.
Qed.

Lemma SetState_state c s now : state (SetState c s now) = s.
Proof. by destruct s. Qed.

Lemma Close_ctrl c now : ctrl c (Close c now).1.
Proof.
  unfold Close. trans (signalOutput (signalInput c)); [by apply ctrl_same|].
  set (c1 := signalOutput _). destruct (state c1) eqn:E; cbn [fst]; try done;
    apply SetState_ctrl; rewrite E; constructor.
Qed.

Lemma OnPeerClosed_ctrl c now : ctrl c (OnPeerClosed c now).
Proof.
  unfold OnPeerClosed. destruct (state c) eqn:E; try done; apply SetState_ctrl; rewrite E; constructor.
Qed.

Lemma HandleOption_ctrl c opt now : ctrl c (HandleOption c opt now).
Proof. unfold HandleOption. case_match; [apply OnPeerClosed_ctrl|done]. Qed.

Lemma InputTerminate_ctrl c now : ctrl c (InputTerminate c now).
Proof.
  unfold InputTerminate. destruct (state c) eqn:E; try done; apply SetState_ctrl; rewrite E; constructor.
Qed.

Lemma Ping_ctrl c now cmd : ctrl c (Ping c now cmd).1.
Proof. by apply ctrl_same. Qed.

Lemma flushTimeouts_ctrl c now : ctrl c (flushTimeouts c now).
Proof.
  unfold flushTimeouts.
  trans (if bool_decide (state c = StateActive) && (30000 <=? u32 (now - lastIncomingTime c))
         then (Close c now).1 else c); [destruct (_ && _); [apply Close_ctrl|done]|].
  match goal with |- ctrl ?x _ => set (c1 := x) end. case_bool_decide as E; [|done]. cbn [andb].
  case_match; [|done]. apply SetState_ctrl. rewrite E. constructor.
Qed.

Lemma flushTimeouts2_ctrl c now : ctrl c (flushTimeouts2 c now).
Proof.
  unfold flushTimeouts2.
  trans (if bool_decide (state c = StatePeerTerminating) && (4000 <? u32 (now - stateBeginTime c))
         then SetState c StateTerminating now else c).
  - case_bool_decide as E; [|done]. cbn [andb]. case_match; [|done]. apply SetState_ctrl. rewrite E. constructor.
  - match goal with |- ctrl ?x _ => set (c1 := x) end. case_bool_decide as E; [|done]. cbn [andb].
    case_match; [|done]. apply SetState_ctrl. rewrite E. constructor.
Qed.

(** ** Steps that move no data *)
#[export] Instance quiet_preorder : PreOrder quiet.
Proof.
  split; [by intros c; split; auto|]. intros a b c [] []. split; try congruence; [by etrans| |by etrans| |].
  - intros H. destruct (q_recv0 H) as (Hb & E1 & E2 & E3). destruct (q_recv1 Hb) as (Hc & -> & -> & ->). done.
  - intros Ho. rewrite q_open1 by done. apply q_open0. by eapply edges_open.
  - destruct q_term1 as [->|]; [|by right]. destruct q_term0 as [|E]; [by left|right].
    rewrite E in q_edges1. by apply edges_terminated.
Qed.

Lemma ctrl_quiet c c' : ctrl c c' -> quiet c c'.
Proof. intros []. split; try done; [by rewrite ct_recv0|]. intros Ho. by rewrite ct_open0. Qed.

Lemma truthful_quiet c c' seg :
  KcpRecv.recv_ok (receivingWorker c) -> quiet c c' -> truthful c' seg -> truthful c seg.
Proof.
  intros Hr [_ Hc Hrecv Hs _ _] [H1 H2]. split; [|by rewrite H2, Hc].
  destruct (Hrecv Hr) as (_ & En & _ & Ew). destruct seg as [s|a|s].
  - by apply Hs.
  - rewrite En in H1. destruct H1 as [H1 ->]. split; [|done]. eapply Forall_impl; [exact H1|].
    intros k. unfold KcpRecv.has. by rewrite En, Ew.
  - by rewrite En in H1.
Qed.

Lemma Ping_truthful c now cmd : Forall (truthful c) (Ping c now cmd).2.
Proof. unfold Ping, emit. cbn [snd]. destruct (outputReleased c); by repeat constructor. Qed.

Lemma recvFlush_quiet c now :
  KcpRecv.recv_ok (receivingWorker c) ->
  let '(r, acks) := KcpRecv.WorkerFlush (receivingWorker c) (conv c) (closing c) now (Timeout (roundTrip c)) in
  quiet c (with_recv c r) /\ Forall (truthful c) (emit c (map SegAck acks)).
Proof.
  intros Hr. pose proof (KcpRecv.WorkerFlush_ok (receivingWorker c) (conv c) (closing c) now
    (Timeout (roundTrip c)) Hr) as H.
  assert (Hconv : forall r acks, KcpRecv.WorkerFlush (receivingWorker c) (conv c) (closing c) now
    (Timeout (roundTrip c)) = (r, acks) -> Forall (fun a => aConv a = conv c) acks).
  { unfold KcpRecv.WorkerFlush. destruct (KcpRecv.Flush _ _ _) as [l o]. intros r acks [= <- <-].
    apply Forall_map, Forall_forall. done. }
  destruct (KcpRecv.WorkerFlush _ _ _ _ _) as [r acks]. destruct H as (H1 & H2 & H3 & H4 & _ & H6).
  split; [split; try done; by auto|]. unfold emit. destruct (outputReleased c); [done|].
  apply Forall_map. specialize (Hconv r acks eq_refl). rewrite Forall_forall in *.
  intros a Ha. destruct (H6 a Ha) as [? ?]. split; [by split|]. by apply Hconv.
Qed.

Lemma sendFlush_quiet c now s datas ping :
  KcpSend.WorkerFlush (sendingWorker c) (config c) (roundTrip c) (conv c) (closing c) now = Ok (s, datas, ping) ->
  quiet c (with_send c s) /\ Forall (truthful c) (emit c (map SegData datas)).
Proof.
  intros H. apply KcpSend.WorkerFlush_spec in H as (Hc & Hn & Hl & Ho). split.
  - split; try done; [|by left]. split; try done; cbn [sendingWorker with_send with_workers].
    + by rewrite Hc.
    + unfold KcpSend.in_order. by rewrite !KcpSend.carries_numbers, Hc.
  - unfold emit. destruct (outputReleased c); [done|]. apply Forall_map. exact Ho.
Qed.

Lemma optPing_quiet c now (go : bool) cmd :
  quiet c (if go then Ping c now cmd else (c, [])).1 /\
  Forall (truthful c) (if go then Ping c now cmd else (c, [])).2.
Proof.
  destruct go; [|by split]. split; [apply ctrl_quiet, Ping_ctrl|apply Ping_truthful].
Qed.

Lemma flush_quiet c now c' out :
  KcpRecv.recv_ok (receivingWorker c) -> flush c now = Ok (c', out) ->
  quiet c c' /\ Forall (truthful c) out.
Proof.
  intros Hr. unfold flush. case_bool_decide; [by intros [= <- <-]|].
  assert (Q1 := ctrl_quiet _ _ (flushTimeouts_ctrl c now)). set (c1 := flushTimeouts c now) in *. clearbody c1.
  assert (Hlift : forall a l, quiet c a -> Forall (truthful a) l -> Forall (truthful c) l).
  { intros a l Ha Hl. eapply Forall_impl; [exact Hl|]. intros seg. by apply truthful_quiet. }
  case_bool_decide as Et.
  - pose proof (Ping_truthful c1 now CommandTerminate) as Ht. pose proof (Ping_ctrl c1 now CommandTerminate) as Hc.
    assert (Hst : state (Ping c1 now CommandTerminate).1 = state c1) by done.
    destruct (Ping c1 now CommandTerminate) as [c2 o]. cbn [fst snd] in *.
    intros [= <- <-]. split; [|by eapply Hlift]. etrans; [exact Q1|]. apply ctrl_quiet. etrans; [exact Hc|].
    case_match; [|done]. apply (SetState_ctrl c2 StateTerminated now). rewrite Hst, Et. constructor.
  - assert (Q2 : quiet c (flushTimeouts2 c1 now)) by (etrans; [exact Q1|apply ctrl_quiet, flushTimeouts2_ctrl]).
    set (c2 := flushTimeouts2 c1 now) in *. clearbody c2.
    assert (Hr2 : KcpRecv.recv_ok (receivingWorker c2)) by by apply Q2.
    pose proof (recvFlush_quiet c2 now Hr2) as H3. destruct (KcpRecv.WorkerFlush _ _ _ _ _) as [r acks].
    destruct H3 as [Q3 T3]. assert (Q3' : quiet c (with_recv c2 r)) by by etrans.
    set (c3 := with_recv c2 r) in *. intros Hf. apply (Hlift c2) in T3; [|done].
    change (emit c2 (map SegAck acks)) with (emit c3 (map SegAck acks)) in T3. clearbody c3.
    destruct (KcpSend.WorkerFlush _ _ _ _ _ _) as [[[s datas] ping]| |] eqn:E; [|done|done].
    apply sendFlush_quiet in E as [Q4 T4]. cbn [mbind res_bind] in Hf.
    change (emit (with_send c3 s)) with (emit c3) in Hf. apply (Hlift c3) in T4; [|done].
    assert (Q4' : quiet c (with_send c3 s)) by by etrans.
    set (c4 := with_send c3 s) in *. clearbody c4.
    destruct (optPing_quiet c4 now ping CommandPing) as [Q5 T5].
    destruct (if ping then _ else _) as [c5 o5]. cbn [fst snd] in Q5, T5.
    assert (Q5' : quiet c c5) by by etrans. apply (Hlift c4) in T5; [|done].
    destruct (optPing_quiet c5 now (3000 <=? u32 (now - lastPingTime c5)) CommandPing) as [Q6 T6].
    destruct (if 3000 <=? _ then _ else _) as [c6 o6]. cbn [fst snd] in Q6, T6.
    apply (Hlift c5) in T6; [|done]. injection Hf as <- <-.
    split; [by etrans|]. by rewrite !Forall_app.
Qed.

(** ** The state machine, event by event *)
Lemma flush_edges c now c' out : flush c now = Ok (c', out) -> rtc edge (state c) (state c').
Proof.
  unfold flush. case_bool_decide; [by intros [= <- <-]|].
  assert (E1 := ct_edges _ _ (flushTimeouts_ctrl c now)). set (c1 := flushTimeouts c now) in *.
  case_bool_decide as Et.
  - assert (Hst : state (Ping c1 now CommandTerminate).1 = state c1) by done.
    destruct (Ping c1 now CommandTerminate) as [c2 o]. cbn [fst] in Hst.
    intros [= <- <-]. etrans; [exact E1|]. rewrite <- Hst. case_match; [|done].
    trans StateTerminated; [|done]. apply rtc_once. rewrite Hst, Et. constructor.
  - assert (E2 := ct_edges _ _ (flushTimeouts2_ctrl c1 now)). set (c2 := flushTimeouts2 c1 now) in *.
    destruct (KcpRecv.WorkerFlush _ _ _ _ _) as [r acks].
    destruct (KcpSend.WorkerFlush _ _ _ _ _ _) as [[[s datas] ping]| |]; [|done|done].
    cbn [mbind res_bind]. assert (E3 : rtc edge (state c) (state c2)) by by etrans.
    set (c4 := with_send (with_recv c2 r) s). change (state c2) with (state c4) in E3. clearbody c4.
    set (p1 := if ping then _ else _). assert (H1 : state p1.1 = state c4) by by destruct ping.
    destruct p1 as [c5 o5]. cbn [fst] in H1.
    set (p2 := if 3000 <=? _ then _ else _). assert (H2 : state p2.1 = state c5) by (unfold p2; by case_match).
    destruct p2 as [c6 o6]. cbn [fst] in H2. intros [= <- <-]. by rewrite H2, H1.
Qed.

Lemma InputSegment_edges c now seg : rtc edge (state c) (state (InputSegment c now seg)).
Proof.
  destruct seg as [s|a|s]; cbn [InputSegment].
  - etrans; [apply ct_edges, (HandleOption_ctrl c (dOption s) now)|].
    set (c1 := HandleOption _ _ _). by case_match.
  - etrans; [apply ct_edges, (HandleOption_ctrl c (aOption a) now)|].
    set (c1 := HandleOption _ _ _). by destruct (KcpSend.ProcessSegment _ _ _ _ _).
  - etrans; [apply ct_edges, (HandleOption_ctrl c (cOption s) now)|].
    set (c1 := HandleOption _ _ _).
    trans (state (if Cmd s =? CommandTerminate then InputTerminate c1 now else c1)).
    + case_match; [|done]. apply InputTerminate_ctrl.
    + by destruct (_ || _).
Qed.

Lemma InputLoop_edges c now segs : rtc edge (state c) (state (InputLoop c now segs)).
Proof.
  revert c. induction segs as [|s segs IH]; intros c; [done|]. cbn [InputLoop]. case_match; [done|].
  etrans; [apply InputSegment_edges|apply IH].
Qed.

Lemma handle_edges c now e c' out d :
  handle c now e = Ok (c', out, d) -> rtc edge (state c) (state c').
Proof.
  destruct e as [segs| | | |b| |n|]; cbn [handle].
  - intros [= <- <- <-]. apply (InputLoop_edges (with_times c now (lastPingTime c))).
  - unfold dataRound. destruct (negb _); [by intros [= <- <- <-]|].
    destruct (_ && _); [|by intros [= <- <- <-]].
    destruct (flush c now) as [[c1 o]| |] eqn:E; [|done|done]. cbn [mbind res_bind]. intros [= <- <- <-].
    by eapply flush_edges.
  - unfold pingRound. destruct (negb (pingRunning c)); [by intros [= <- <- <-]|].
    destruct (negb _); [|by intros [= <- <- <-]].
    destruct (flush c now) as [[c1 o]| |] eqn:E; [|done|done]. cbn [mbind res_bind]. intros [= <- <- <-].
    by eapply flush_edges.
  - intros [= <- <- <-]. apply Close_ctrl.
  - destruct (negb _); [by intros [= <- <- <-]|].
    destruct (KcpSend.WorkerPush _ _) as [s []]; by intros [= <- <- <-].
  - unfold ReadMultiBuffer. destruct (Is _ _); [by intros [= <- <- <-]|].
    destruct (KcpRecv.ReadMultiBuffer _) as [r mb]. destruct (negb _); [by intros [= <- <- <-]|].
    destruct (bool_decide _); by intros [= <- <- <-].
  - unfold Read. destruct (Is _ _); [by intros [= <- <- <-]|].
    destruct (KcpRecv.Read _ _) as [[r data]| |]; [|by intros [= <- <- <-]|done].
    destruct (0 <? zlen data); by intros [= <- <- <-].
  - destruct (toTerminate c); by intros [= <- <- <-].
Qed.

(** C33. The connection's state only moves forward: whatever happens (packets with
    any segments, the update tasks, [Close], reads, writes, [Terminate]), the
    new state is reached along the edges of the state machine, so no state is
    entered twice, and a terminated connection stays terminated. *)
Theorem state_moves_forward c now e c' out d :
  handle c now e = Ok (c', out, d) ->
  rtc edge (state c) (state c') /\ (state c' = state c \/ rank (state c) < rank (state c')) /\
  (state c = StateTerminated -> state c' = StateTerminated).
Proof.
  intros H%handle_edges. split; [done|]. split; [destruct (edges_rank _ _ H); auto|].
  intros E. rewrite E in H. by apply edges_terminated.
Qed.

(** ** Closing *)
(** The second half of the update task, once the connection does not terminate. *)
Lemma flush_rest c now :
  cfg_ok (config c) -> config c <> None ->
  exists c' out,
    (let '(r, acks) := KcpRecv.WorkerFlush (receivingWorker c) (conv c) (closing c) now
                         (Timeout (roundTrip c)) in
     let c := with_recv c r in
     let outAcks := emit c (map SegAck acks) in
     '(s, datas, ping) ← KcpSend.WorkerFlush (sendingWorker c) (config c) (roundTrip c) (conv c)
                           (closing c) now;
     let c := with_send c s in
     let outDatas := emit c (map SegData datas) in
     let '(c, out1) := if ping : bool then Ping c now CommandPing else (c, []) in
     let '(c, out2) := if 3000 <=? u32 (now - lastPingTime c) then Ping c now CommandPing else (c, []) in
     Ok (c, outAcks ++ outDatas ++ out1 ++ out2)) = Ok (c', out) /\
    state c' = state c /\ stateBeginTime c' = stateBeginTime c /\ config c' = config c.
Proof.
  intros Hc Hne. destruct (KcpRecv.WorkerFlush _ _ _ _ _) as [r acks].
  cbv zeta. set (c1 := with_recv c r). assert (Hcfg : config c1 = config c) by done.
  destruct (config c) as [cf|] eqn:Ecf; [|done]. rewrite Hcfg.
  destruct (KcpSend.WorkerFlush_total (sendingWorker c1) cf (roundTrip c1) (conv c1) (closing c1) now Hc)
    as [[[s datas] ping] E].
  rewrite E. cbn [mbind res_bind]. set (c2 := with_send c1 s).
  assert (H2 : state c2 = state c /\ stateBeginTime c2 = stateBeginTime c /\ config c2 = Some cf) by done.
  clearbody c2. set (p1 := if ping then _ else _).
  assert (H3 : state p1.1 = state c2 /\ stateBeginTime p1.1 = stateBeginTime c2 /\ config p1.1 = config c2)
    by by destruct ping.
  destruct p1 as [c3 o3]. cbn [fst] in H3. set (p2 := if 3000 <=? _ then _ else _).
  assert (H4 : state p2.1 = state c3 /\ stateBeginTime p2.1 = stateBeginTime c3 /\ config p2.1 = config c3)
    by (unfold p2; by case_match).
  destruct p2 as [c4 o4]. cbn [fst] in H4. eexists _, _. split; [reflexivity|]. intuition congruence.
Qed.

Lemma flushTimeouts_fields c now :
  config (flushTimeouts c now) = config c /\
  (state c <> StateActive -> flushTimeouts c now =
     if bool_decide (state c = StateReadyToClose) && KcpSend.IsEmpty (KcpSend.window (sendingWorker c))
     then SetState c StateTerminating now else c).
Proof.
  split; [apply flushTimeouts_ctrl|]. intros H. unfold flushTimeouts.
  by rewrite (bool_decide_false _ H).
Qed.

Lemma flush_total c now :
  cfg_ok (config c) -> config c <> None -> exists c' out, flush c now = Ok (c', out).
Proof.
  intros Hc Hne. unfold flush. case_bool_decide; [by eexists _, _|].
  assert (E1 := ct_config _ _ (flushTimeouts_ctrl c now)). set (c1 := flushTimeouts c now) in *. clearbody c1.
  case_bool_decide.
  - destruct (Ping c1 now CommandTerminate) as [c2 o]. by eexists _, _.
  - assert (E2 := ct_config _ _ (flushTimeouts2_ctrl c1 now)). set (c2 := flushTimeouts2 c1 now) in *.
    clearbody c2. destruct (flush_rest c2 now) as (c' & out & E & _); [by rewrite E2, E1..|]. by exists c', out.
Qed.

(** The update task of a connection that has been closing for 15 seconds. *)
Lemma flush_ready c now :
  state c = StateReadyToClose -> 15000 < u32 (now - stateBeginTime c) -> cfg_ok (config c) ->
  config c <> None ->
  exists c' out, flush c now = Ok (c', out) /\ state c' = StateTerminating /\ stateBeginTime c' = now.
Proof.
  intros Hs Ht Hc Hne. unfold flush. rewrite bool_decide_false by (by rewrite Hs).
  destruct (flushTimeouts_fields c now) as [_ ->]; [|by rewrite Hs].
  rewrite (bool_decide_true (state c = StateReadyToClose)) by done. cbn [andb].
  destruct (KcpSend.IsEmpty _).
  - rewrite bool_decide_true by done. set (c1 := SetState c StateTerminating now).
    assert (H2 : state (Ping c1 now CommandTerminate).1 = StateTerminating /\
      stateBeginTime (Ping c1 now CommandTerminate).1 = now) by done.
    destruct (Ping c1 now CommandTerminate) as [c2 o]. cbn [fst] in H2. destruct H2 as [H2 H3].
    rewrite H3, Z.sub_diag. by eexists _, _.
  - rewrite bool_decide_false by (by rewrite Hs). unfold flushTimeouts2.
    rewrite (bool_decide_false (state c = StatePeerTerminating)) by (by rewrite Hs). cbn [andb].
    rewrite bool_decide_true by done. replace (15000 <? _) with true by lia. cbn [andb].
    set (c1 := SetState c StateTerminating now).
    destruct (flush_rest c1 now) as (c' & out & H & Hst & Hb & _); [done..|].
    exists c', out. split; [exact H|]. by rewrite Hst, Hb.
Qed.

Lemma flush_terminating c now :
  state c = StateTerminating -> 8000 < u32 (now - stateBeginTime c) ->
  exists c' out, flush c now = Ok (c', out) /\ state c' = StateTerminated /\
    toTerminate c' = S (toTerminate c).
Proof.
  intros Hs Ht. unfold flush. rewrite bool_decide_false by (by rewrite Hs).
  destruct (flushTimeouts_fields c now) as [_ ->]; [|by rewrite Hs].
  rewrite (bool_decide_false (state c = StateReadyToClose)) by (by rewrite Hs). cbn [andb].
  rewrite bool_decide_true by done.
  assert (H2 : stateBeginTime (Ping c now CommandTerminate).1 = stateBeginTime c /\
    toTerminate (Ping c now CommandTerminate).1 = toTerminate c) by done.
  destruct (Ping c now CommandTerminate) as [c2 o]. cbn [fst] in H2. destruct H2 as [H2 H3]. rewrite H2.
  replace (8000 <? _) with true by lia. eexists _, _. split; [done|]. rewrite <- H3. done.
Qed.

(** A closed connection that hears nothing more goes away, however much is
    unacknowledged: after [Close] on an active connection with a valid configuration,
    the next update more than 15 s later enters the terminating state, the next one more
    than 8 s after that terminates it and starts its clean-up, and that releases the
    output and closes the socket; no update panics. *)
Theorem close_terminates c t0 t1 t2 :
  state c = StateActive -> cfg_ok (config c) -> config c <> None ->
  15000 < u32 (t1 - t0) -> 8000 < u32 (t2 - t1) ->
  exists c1 o1 c2 o2, flush (Close c t0).1 t1 = Ok (c1, o1) /\ state c1 = StateTerminating /\
    flush c1 t2 = Ok (c2, o2) /\ state c2 = StateTerminated /\
    exists c3, handle c2 t2 ETerminate = Ok (c3, [], []) /\ state c3 = StateTerminated /\
      outputReleased c3 = true /\ closerClosed c3 = true.
Proof.
  intros Hs Hc Hne H1 H2.
  assert (HC : state (Close c t0).1 = StateReadyToClose /\ stateBeginTime (Close c t0).1 = t0 /\
    config (Close c t0).1 = config c).
  { unfold Close. change (state (signalOutput (signalInput c))) with (state c). by rewrite Hs. }
  destruct HC as (Hs' & Hb & Hcfg).
  destruct (flush_ready (Close c t0).1 t1) as (c1 & o1 & E1 & S1 & B1); [done|by rewrite Hb|by rewrite Hcfg..|].
  destruct (flush_terminating c1 t2) as (c2 & o2 & E2 & S2 & T2); [done|by rewrite B1|].
  exists c1, o1, c2, o2. do 4 (split; [done|]). cbn [handle]. rewrite T2. by eexists.
Qed.

Definition demo_conn : Connection :=
  match NewConnection 7 6 (Some {| Mtu := None; Tti := None; UplinkCapacity := None;
    DownlinkCapacity := None; WriteBuffer := None; ReadBuffer := None; Congestion := true |}) with
  | Ok c => c
  | _ => {| conv := 0; config := None; dataInput := false; dataOutput := false; state := StateActive;
      stateBeginTime := 0; lastIncomingTime := 0; lastPingTime := 0; mss := 0;
      roundTrip := {| variation := 0; srtt := 0; rto := 0; minRtt := 0; updatedTimestamp := 0 |};
      receivingWorker := KcpRecv.NewReceivingWorker 0;
      sendingWorker := {| KcpSend.window := KcpSend.NewSendingWindow; KcpSend.firstUnacknowledged := 0;
        KcpSend.nextNumber := 0; KcpSend.remoteNextNumber := 0; KcpSend.controlWindow := 0;
        KcpSend.fastResend := 0; KcpSend.windowSize := 0;
        KcpSend.firstUnacknowledgedUpdated := false; KcpSend.closed := false |};
      outputReleased := false; closerClosed := false; dataRunning := false; pingRunning := false;
      pingInterval := 0; toTerminate := 0 |}
  end.

Lemma close_terminates_witness :
  exists c1 o1 c2 o2, flush (Close demo_conn 100).1 20000 = Ok (c1, o1) /\ state c1 = StateTerminating /\
    flush c1 30000 = Ok (c2, o2) /\ state c2 = StateTerminated /\
    exists c3, handle c2 30000 ETerminate = Ok (c3, [], []) /\ state c3 = StateTerminated /\
      outputReleased c3 = true /\ closerClosed c3 = true.
Proof.
  apply close_terminates; [by vm_compute| |done|by vm_compute|by vm_compute].
  repeat split; by vm_compute.
Defined.

Lemma state_moves_forward_witness :
  let c' := (Close demo_conn 100).1 in
  rtc edge (state demo_conn) (state c') /\
  (state c' = state demo_conn \/ rank (state demo_conn) < rank (state c')) /\
  (state demo_conn = StateTerminated -> state c' = StateTerminated).
Proof. by apply (state_moves_forward demo_conn 100 EClose _ [] []). Defined.
