(* ===== verification/KcpNet.v ===== *)
(** * Two KCP connections and the network between them

    [Module KcpNet] composes two connections of [KcpConn].  The network may
    lose, duplicate, delay and reorder: a side takes in any list of segments the
    other side has ever sent, as the packet reader yields them ([received]).
    What the users of a side have pushed and what they have read is recorded
    beside the connection.  The theorems are about one direction; they hold for
    both because the steps are symmetric. *)
From S2P Require Import Prelude GoStd Buf MultiBuf KcpSegment KcpConfig KcpRecv KcpSend KcpConn.
Import Buf MultiBuf KcpSegment KcpConfig KcpConn.

Module KcpNet.

Record side := mkSide {
  sConn : Connection;
  sSent : list Segment;      (* everything handed to the network *)
  sPushed : list bytes;      (* the chunks its window accepted *)
  sDelivered : bytes;        (* what its reader got *)
}.

Definition init (c : Connection) : side :=
  {| sConn := c; sSent := []; sPushed := []; sDelivered := [] |}.

(** [EPush b] takes the chunk. *)
Definition accepts (c : Connection) (b : Buffer) : bool :=
  bool_decide (state c = StateActive) && (KcpSend.WorkerPush (sendingWorker c) b).2.

Definition plain (e : event) : bool :=
  match e with EInput _ | EPush _ => false | _ => true end.

(** A step of side [x] whose peer is [y]. *)
Inductive side_step (x y : side) : side -> Prop :=
  | step_event now e c out d :
    plain e = true -> handle (sConn x) now e = Ok (c, out, d) ->
    side_step x y {| sConn := c; sSent := sSent x ++ out; sPushed := sPushed x;
                     sDelivered := sDelivered x ++ d |}
  | step_push now b c out d :
    buf_wf b -> zlen (content b) <= 2048 ->
    handle (sConn x) now (EPush b) = Ok (c, out, d) ->
    side_step x y {| sConn := c; sSent := sSent x ++ out;
                     sPushed := if accepts (sConn x) b then sPushed x ++ [content b] else sPushed x;
                     sDelivered := sDelivered x ++ d |}
  | step_input now segs c out d :
    Forall (fun s => s ∈ sSent y) segs ->
    handle (sConn x) now (EInput (map received segs)) = Ok (c, out, d) ->
    side_step x y {| sConn := c; sSent := sSent x ++ out; sPushed := sPushed x;
                     sDelivered := sDelivered x ++ d |}.

Inductive net_step : side * side -> side * side -> Prop :=
  | net_left x y x' : side_step x y x' -> net_step (x, y) (x', y)
  | net_right x y y' : side_step y x y' -> net_step (x, y) (x, y').

Definition reachable (ca cb : Connection) (x y : side) : Prop :=
  rtc net_step (init ca, init cb) (x, y).

(** A connection as [NewConnection] makes it. *)
Definition fresh (c : Connection) : Prop :=
  exists conversation overhead cfg, NewConnection conversation overhead cfg = Ok c.

(** ** The invariant of one direction *)
Abbreviation sw x := (sendingWorker (sConn x)).
Abbreviation rw x := (receivingWorker (sConn x)).

(** Segment [n] of [x] carries the payload [p]. *)
Definition holds (pushed : list bytes) (n : Z) (p : option Buffer) : Prop :=
  0 <= n /\ exists b, p = Some b /\ pushed !! Z.to_nat n = Some (content b).

Definition left_of (y : side) : bytes :=
  match KcpRecv.leftOver (rw y) with Some mb => mb_content mb | None => [] end.

Definition numbers_of (x : side) : list Z := map fst (KcpSend.carries (KcpSend.window (sw x))).

Record dir (x y : side) : Prop := {
  d_next : KcpSend.nextNumber (sw x) = zlen (sPushed x);
  d_small : Forall (fun p => zlen p <= 2048) (sPushed x);
  d_carry : forall z, z ∈ KcpSend.carries (KcpSend.window (sw x)) -> holds (sPushed x) z.1 z.2;
  d_sent : forall s, SegData s ∈ sSent x -> holds (sPushed x) (dNumber s) (payload s);
  d_recv : KcpRecv.recv_ok (rw y);
  d_window : forall k s, KcpRecv.window (rw y) !! k = Some s ->
    0 <= k < zlen (sPushed x) /\ exists b, payload s = Some b /\ buf_wf b /\
      sPushed x !! Z.to_nat k = Some (content b);
  d_le : KcpRecv.nextNumber (rw y) <= zlen (sPushed x);
  d_left : match KcpRecv.leftOver (rw y) with Some mb => mb_wf mb | None => True end;
  d_deliv : state (sConn y) <> StateTerminated ->
    sDelivered y ++ left_of y = concat (take (Z.to_nat (KcpRecv.nextNumber (rw y))) (sPushed x));
  d_prefix : sDelivered y `prefix_of` concat (sPushed x);
  d_acks : forall a, SegAck a ∈ sSent y ->
    Forall (KcpRecv.has (rw y)) (NumberList a) /\ aReceivingNext a <= KcpRecv.nextNumber (rw y);
  d_cmds : forall s, SegCmd s ∈ sSent y -> cReceivingNext s <= KcpRecv.nextNumber (rw y);
  d_keep : open (state (sConn x)) = true -> forall k, 0 <= k < zlen (sPushed x) ->
    KcpRecv.has (rw y) k \/ k ∈ numbers_of x;
  d_term : (toTerminate (sConn x) = 0%nat \/ state (sConn x) = StateTerminated) /\
           (toTerminate (sConn y) = 0%nat \/ state (sConn y) = StateTerminated);
}.

Definition set_conn (x : side) (c : Connection) : side :=
  {| sConn := c; sSent := sSent x; sPushed := sPushed x; sDelivered := sDelivered x |}.
Definition add_sent (x : side) (out : list Segment) : side :=
  {| sConn := sConn x; sSent := sSent x ++ out; sPushed := sPushed x; sDelivered := sDelivered x |}.

End KcpNet.

Import KcpNet.

(** ** Frames: steps of one side *)
Lemma term_mono c c' :
  toTerminate c = 0%nat \/ state c = StateTerminated -> rtc edge (state c) (state c') ->
  toTerminate c' = toTerminate c \/ state c' = StateTerminated ->
  toTerminate c' = 0%nat \/ state c' = StateTerminated.
Proof.
  intros [H|H] He [H'|H']; auto; [left; congruence|]. right. rewrite H in He. by apply edges_terminated.
Qed.

(** The sending side changes without new data. *)
Lemma dir_sender x y c' :
  dir x y -> rtc edge (state (sConn x)) (state c') ->
  KcpSend.shrinks (sw x) (sendingWorker c') ->
  (toTerminate c' = toTerminate (sConn x) \/ state c' = StateTerminated) ->
  (open (state c') = true -> forall z, z ∈ KcpSend.carries (KcpSend.window (sw x)) ->
     z ∈ KcpSend.carries (KcpSend.window (sendingWorker c')) \/ KcpRecv.has (rw y) z.1) ->
  dir (set_conn x c') y.
Proof.
  intros [] He [Hsub Hord Hn Hcl] Ht Hk. split; try done; cbn [set_conn sConn sPushed].
  - by rewrite Hn.
  - auto.
  - intros Ho k Hk'. destruct (d_keep0 (edges_open _ _ He Ho) k Hk') as [|Hin]; [by left|].
    unfold numbers_of in Hin. apply list_elem_of_fmap in Hin as (z & -> & Hin).
    destruct (Hk Ho z Hin); [right|by left]. by apply list_elem_of_fmap_2.
  - destruct d_term0 as [T1 T2]. split; [exact (term_mono _ _ T1 He Ht)|done].
Qed.

(** The receiving side takes in segments or clears acknowledgements. *)
Lemma dir_receiver x y c' :
  dir x y -> rtc edge (state (sConn y)) (state c') ->
  (toTerminate c' = toTerminate (sConn y) \/ state c' = StateTerminated) ->
  KcpRecv.recv_ok (receivingWorker c') ->
  KcpRecv.nextNumber (receivingWorker c') = KcpRecv.nextNumber (rw y) ->
  KcpRecv.leftOver (receivingWorker c') = KcpRecv.leftOver (rw y) ->
  (forall k, KcpRecv.has (rw y) k -> KcpRecv.has (receivingWorker c') k) ->
  (forall k s, KcpRecv.window (receivingWorker c') !! k = Some s ->
     KcpRecv.window (rw y) !! k = Some s \/
     (0 <= k < zlen (sPushed x) /\ exists b, payload s = Some b /\ buf_wf b /\
        sPushed x !! Z.to_nat k = Some (content b))) ->
  dir x (set_conn y c').
Proof.
  intros [] He Ht Hr Hn Hl Hm Hw.
  assert (Hstate : state c' <> StateTerminated -> state (sConn y) <> StateTerminated).
  { intros Hne E. apply Hne. rewrite E in He. by apply edges_terminated. }
  split; try done; unfold left_of; cbn [set_conn sConn sSent sDelivered]; rewrite ?Hn, ?Hl; try done.
  - intros k s Hks. destruct (Hw k s Hks); auto.
  - auto.
  - intros a Ha. destruct (d_acks0 a Ha) as [H1 H2]. split; [|done]. by eapply Forall_impl.
  - intros Ho k Hk. destruct (d_keep0 Ho k Hk); auto.
  - destruct d_term0 as [T1 T2]. split; [done|exact (term_mono _ _ T2 He Ht)].
Qed.

Lemma dir_sent_sender x y out :
  dir x y -> Forall (truthful (sConn x)) out -> dir (add_sent x out) y.
Proof.
  intros [] Ho. split; try done. intros s Hs. cbn [add_sent sSent] in Hs.
  apply elem_of_app in Hs as [Hs|Hs]; [by apply d_sent0|].
  rewrite Forall_forall in Ho. destruct (Ho _ Hs) as [Hc _]. by apply (d_carry0 (KcpSend.carried s)).
Qed.

Lemma dir_sent_receiver x y out :
  dir x y -> Forall (truthful (sConn y)) out -> dir x (add_sent y out).
Proof.
  intros [] Ho. rewrite Forall_forall in Ho. split; try done; cbn [add_sent sSent sConn].
  - intros a [Hs|Hs]%elem_of_app; [by apply d_acks0|]. destruct (Ho _ Hs) as [[H1 H2] _]. split; [done|lia].
  - intros a [Hs|Hs]%elem_of_app; [by apply d_cmds0|]. destruct (Ho _ Hs) as [H1 _]. simpl in H1. lia.
Qed.

(** A quiet step, with what it sends. *)
Lemma dir_quiet_sender x y c' out :
  dir x y -> quiet (sConn x) c' -> Forall (truthful (sConn x)) out ->
  dir (set_conn (add_sent x out) c') y.
Proof.
  intros Hd [He Hc Hr Hs Ho Ht] Hout. apply dir_sender; try done; [by apply dir_sent_sender|].
  intros Hop z Hz. left. rewrite Ho by done. exact Hz.
Qed.

Lemma dir_quiet_receiver x y c' out :
  dir x y -> quiet (sConn y) c' -> Forall (truthful (sConn y)) out ->
  dir x (set_conn (add_sent y out) c').
Proof.
  intros Hd [He Hc Hr Hs Ho Ht] Hout. destruct (Hr (d_recv _ _ Hd)) as (H1 & H2 & H3 & H4).
  apply dir_receiver; try done; [by apply dir_sent_receiver| |].
  - intros k. unfold KcpRecv.has. by rewrite H2, H4.
  - intros k s. rewrite H4. by left.
Qed.

(** ** Input *)
Lemma received_payload s n pushed :
  holds pushed n (payload s) -> Forall (fun p => zlen p <= 2048) pushed ->
  exists b, Some (push New (payload_bytes s)) = Some b /\ buf_wf b /\ pushed !! Z.to_nat n = Some (content b).
Proof.
  intros (Hn & b & Hp & Hb) Hs. unfold payload_bytes. rewrite Hp. eexists. split; [done|].
  assert (zlen (content b) <= 2048) by (by rewrite Forall_lookup in Hs; apply (Hs _ _ Hb)).
  split; [by apply push_wf; [|rewrite New_room]|]. by rewrite push_content.
Qed.

(** Control steps on either side. *)
Lemma dir_ctrl_sender x y c' : dir x y -> ctrl (sConn x) c' -> dir (set_conn x c') y.
Proof.
  intros Hd [E1 E2 E3 E4 E5 E6 E7 E8 E9]. apply dir_sender; try done.
  intros Ho z Hz. left. by rewrite E8.
Qed.

Lemma dir_ctrl_receiver x y c' : dir x y -> ctrl (sConn y) c' -> dir x (set_conn y c').
Proof.
  intros Hd [E1 E2 E3 E4 E5 E6 E7 E8 E9]. pose proof (d_recv _ _ Hd).
  apply dir_receiver; rewrite ?E2; try done. by left.
Qed.

(** The segments of the peer, seen by the sending side. *)
Lemma dir_send_update x y r s i :
  dir x y -> KcpSend.shrinks (sw x) s ->
  (forall z, z ∈ KcpSend.carries (KcpSend.window (sw x)) ->
     z ∈ KcpSend.carries (KcpSend.window s) \/ KcpRecv.has (rw y) z.1) ->
  dir (set_conn x (with_workers (sConn x) r s i)) y.
Proof. intros Hd Hs Hk. apply dir_sender; try done. by left. Qed.

Lemma input_sender x y now s :
  dir x y -> s ∈ sSent y -> dir (set_conn x (InputSegment (sConn x) now (received s))) y.
Proof.
  intros Hd Hs. destruct s as [s|a|s]; cbn [received InputSegment dOption].
  - pose proof (dir_ctrl_sender x y _ Hd (HandleOption_ctrl (sConn x) (dOption s) now)) as H1.
    set (c1 := HandleOption _ _ _) in *. clearbody c1.
    pose proof (dir_send_update _ y (KcpRecv.ProcessSegment (receivingWorker c1)
      {| dConv := dConv s; dOption := dOption s; dTimestamp := dTimestamp s; dNumber := dNumber s;
         dSendingNext := dSendingNext s; payload := Some (push New (payload_bytes s)); timeout := 0;
         transmit := 0 |}) (sendingWorker c1) (roundTrip c1) H1 ltac:(done) ltac:(by left)) as H2.
    cbn [set_conn sConn] in H2. unfold with_recv.
    set (c2 := with_workers _ _ _ _) in *. clearbody c2.
    apply (dir_ctrl_sender _ y (WakeUpData (if KcpRecv.IsDataAvailable (receivingWorker c2)
      then signalInput c2 else c2)) H2). destruct (KcpRecv.IsDataAvailable _); by apply (ctrl_same c2).
  - pose proof (dir_ctrl_sender x y _ Hd (HandleOption_ctrl (sConn x) (aOption a) now)) as H1.
    set (c1 := HandleOption _ _ _) in *. clearbody c1.
    pose proof (KcpSend.ProcessSegment_spec (sendingWorker c1) (roundTrip c1) now a (Timeout (roundTrip c1)))
      as [Hsh Hk].
    destruct (KcpSend.ProcessSegment _ _ _ _ _) as [w i]. cbn [fst] in Hsh, Hk.
    assert (H2 : dir (set_conn x (with_workers c1 (receivingWorker c1) w i)) y).
    { apply (dir_send_update (set_conn x c1) y _ w i H1 Hsh). intros z Hz.
      destruct (d_acks _ _ Hd a Hs) as [Ha Hn]. rewrite Forall_forall in Ha.
      destruct (Hk z Hz) as [?|[?|?]]; [by left|right; left; lia|right; auto]. }
    set (c2 := with_workers _ _ _ _) in *. clearbody c2.
    apply (dir_ctrl_sender _ y (WakeUpData (signalOutput c2)) H2). by apply (ctrl_same c2).
  - pose proof (dir_ctrl_sender x y _ Hd (HandleOption_ctrl (sConn x) (cOption s) now)) as H1.
    set (c1 := HandleOption _ _ _) in *. clearbody c1.
    assert (H2 : dir (set_conn x (if Cmd s =? CommandTerminate then InputTerminate c1 now else c1)) y).
    { apply (dir_ctrl_sender (set_conn x c1) y); [done|]. case_match; [apply InputTerminate_ctrl|done]. }
    set (c2 := if Cmd s =? _ then _ else _) in *. clearbody c2.
    assert (H3 : dir (set_conn x (if (cOption s =? SegmentOptionClose) || (Cmd s =? CommandTerminate)
      then signalOutput (signalInput c2) else c2)) y).
    { apply (dir_ctrl_sender (set_conn x c2) y); [done|]. case_match; [by apply (ctrl_same c2)|done]. }
    set (c3 := if _ || _ then _ else _) in *. clearbody c3.
    apply (dir_send_update (set_conn x c3) y _ _ _ H3); [apply KcpSend.ProcessReceivingNext_shrinks|].
    intros z Hz. pose proof (d_cmds _ _ Hd s Hs).
    destruct (KcpSend.ProcessReceivingNext_keeps (sendingWorker c3) (cReceivingNext s) z Hz);
      [by left|right; left; lia].
Qed.

(** The segments of the peer, seen by the receiving side. *)
Lemma dir_recv_update x y r s i :
  dir x y -> KcpRecv.recv_ok r ->
  KcpRecv.nextNumber r = KcpRecv.nextNumber (rw y) -> KcpRecv.leftOver r = KcpRecv.leftOver (rw y) ->
  (forall k, KcpRecv.has (rw y) k -> KcpRecv.has r k) ->
  (forall k s, KcpRecv.window r !! k = Some s -> KcpRecv.window (rw y) !! k = Some s \/
     (0 <= k < zlen (sPushed x) /\ exists b, payload s = Some b /\ buf_wf b /\
        sPushed x !! Z.to_nat k = Some (content b))) ->
  dir x (set_conn y (with_workers (sConn y) r s i)).
Proof. intros Hd ?????. apply dir_receiver; try done. by left. Qed.

Lemma input_receiver x y now s :
  dir x y -> s ∈ sSent x -> dir x (set_conn y (InputSegment (sConn y) now (received s))).
Proof.
  intros Hd Hs. destruct s as [s|a|s]; cbn [received InputSegment dOption].
  - pose proof (dir_ctrl_receiver x y _ Hd (HandleOption_ctrl (sConn y) (dOption s) now)) as H1.
    set (c1 := HandleOption _ _ _) in *. clearbody c1.
    set (seg := {| dConv := dConv s |}).
    pose proof (KcpRecv.ProcessSegment_ok (receivingWorker c1) seg (d_recv _ _ H1)) as (R1&R2&R3&R4&R5&R6).
    assert (H2 : dir x (set_conn y (with_recv c1 (KcpRecv.ProcessSegment (receivingWorker c1) seg)))).
    { apply (dir_recv_update x (set_conn y c1) _ _ _ H1); try done.
      intros k s' Hk. destruct (R6 k s' Hk) as [?|[-> ->]]; [by left|right].
      pose proof (d_sent _ _ Hd s Hs) as Hh.
      destruct (received_payload s (dNumber s) (sPushed x) Hh (d_small _ _ Hd)) as (b & E & Hb & Hl).
      split; [|by exists b]. destruct Hh as [Hn _]. apply lookup_lt_Some in Hl. unfold zlen. simpl. lia. }
    set (c2 := with_recv _ _) in *. clearbody c2.
    apply (dir_ctrl_receiver x _ (WakeUpData (if KcpRecv.IsDataAvailable (receivingWorker c2)
      then signalInput c2 else c2)) H2). destruct (KcpRecv.IsDataAvailable _); by apply (ctrl_same c2).
  - pose proof (dir_ctrl_receiver x y _ Hd (HandleOption_ctrl (sConn y) (aOption a) now)) as H1.
    set (c1 := HandleOption _ _ _) in *. clearbody c1.
    destruct (KcpSend.ProcessSegment _ _ _ _ _) as [w i].
    assert (H2 : dir x (set_conn y (with_workers c1 (receivingWorker c1) w i))).
    { apply (dir_recv_update x (set_conn y c1) _ _ _ H1); try done; [apply H1|by left]. }
    set (c2 := with_workers _ _ _ _) in *. clearbody c2.
    apply (dir_ctrl_receiver x _ (WakeUpData (signalOutput c2)) H2). by apply (ctrl_same c2).
  - pose proof (dir_ctrl_receiver x y _ Hd (HandleOption_ctrl (sConn y) (cOption s) now)) as H1.
    set (c1 := HandleOption _ _ _) in *. clearbody c1.
    assert (H2 : dir x (set_conn y (if Cmd s =? CommandTerminate then InputTerminate c1 now else c1))).
    { apply (dir_ctrl_receiver x (set_conn y c1)); [done|]. case_match; [apply InputTerminate_ctrl|done]. }
    set (c2 := if Cmd s =? _ then _ else _) in *. clearbody c2.
    assert (H3 : dir x (set_conn y (if (cOption s =? SegmentOptionClose) || (Cmd s =? CommandTerminate)
      then signalOutput (signalInput c2) else c2))).
    { apply (dir_ctrl_receiver x (set_conn y c2)); [done|]. case_match; [by apply (ctrl_same c2)|done]. }
    set (c3 := if _ || _ then _ else _) in *. clearbody c3.
    apply (dir_recv_update x (set_conn y c3) _ _ _ H3); try done.
    + apply KcpRecv.ProcessSendingNext_ok, (d_recv _ _ H3).
    + by left.
Qed.

Lemma input_loop x y now segs :
  Forall (fun s => s ∈ sSent y) segs -> dir x y -> dir y x ->
  dir (set_conn x (InputLoop (sConn x) now (map received segs))) y /\
  dir y (set_conn x (InputLoop (sConn x) now (map received segs))).
Proof.
  intros Hs. revert x. induction Hs as [|s segs Hs _ IH]; intros x H1 H2; cbn [map InputLoop]; [by destruct x|].
  destruct (negb _); [by destruct x|].
  apply (IH (set_conn x (InputSegment (sConn x) now (received s)))).
  - by apply input_sender.
  - by apply input_receiver.
Qed.

(** ** Pushing *)
Lemma holds_app pushed n p more : holds pushed n p -> holds (pushed ++ more) n p.
Proof. intros (Hn & b & -> & Hb). split; [done|]. exists b. split; [done|]. by apply lookup_app_l_Some. Qed.

Lemma push_sender x y b :
  dir x y -> zlen (content b) <= 2048 -> zlen (sPushed x) + 1 < 2 ^ 32 ->
  (KcpSend.WorkerPush (sw x) b).2 = true ->
  dir {| sConn := WakeUpData (with_send (sConn x) (KcpSend.WorkerPush (sw x) b).1);
         sSent := sSent x; sPushed := sPushed x ++ [content b]; sDelivered := sDelivered x |} y.
Proof.
  intros Hd Hb Hmax Hok. pose proof (KcpSend.WorkerPush_spec (sw x) b) as H.
  destruct (KcpSend.WorkerPush (sw x) b) as [w r]. cbn [fst snd] in *. subst r.
  destruct H as (Hc & Hn & Hcl & _). destruct Hd. pose proof (zlen_nonneg (sPushed x)).
  assert (Hz : zlen (sPushed x ++ [content b]) = zlen (sPushed x) + 1) by len.
  split; try done; cbn [sConn sPushed sSent]; rewrite ?Hz.
  - change (KcpSend.nextNumber w = zlen (sPushed x) + 1). rewrite Hn, d_next0, u32_small; lia.
  - apply Forall_app. split; [done|]. by repeat constructor.
  - change (sendingWorker _) with w. intros z. rewrite Hc, elem_of_app, list_elem_of_singleton.
    intros [Hz'| ->]; [by apply holds_app, d_carry0|]. cbn [fst snd]. rewrite d_next0. split; [lia|].
    exists b. split; [done|]. rewrite lookup_app_r by len.
    replace (_ - _)%nat with 0%nat by len. done.
  - intros s Hs. by apply holds_app, d_sent0.
  - intros k s Hk. destruct (d_window0 k s Hk) as (? & b' & ? & ? & Hl). split; [lia|].
    exists b'. split; [done|]. split; [done|]. by apply lookup_app_l_Some.
  - lia.
  - intros Hne. rewrite take_app_le by (unfold zlen in *; lia). by apply d_deliv0.
  - rewrite concat_app. by apply prefix_app_r.
  - intros Ho k Hk. unfold numbers_of. cbn [sConn]. change (sendingWorker _) with w.
    rewrite Hc, map_app, elem_of_app. destruct (Z.eq_dec k (zlen (sPushed x))) as [->|Hne].
    + right. right. rewrite <- d_next0. by left.
    + destruct (d_keep0 Ho k ltac:(lia)) as [?|?]; [by left|by right; left].
Qed.

Lemma with_send_receiver x y c' more :
  dir x y -> receivingWorker c' = rw y -> state c' = state (sConn y) ->
  toTerminate c' = toTerminate (sConn y) ->
  dir x {| sConn := c'; sSent := sSent y; sPushed := more; sDelivered := sDelivered y |}.
Proof.
  intros [] Hr Hs Ht. split; try done; unfold left_of; cbn [sConn sSent sDelivered]; rewrite ?Hr, ?Hs, ?Ht; done.
Qed.

(** ** Reading *)
Lemma read_sender x y c' d :
  dir x y -> sendingWorker c' = sw x -> state c' = state (sConn x) ->
  toTerminate c' = toTerminate (sConn x) ->
  dir {| sConn := c'; sSent := sSent x; sPushed := sPushed x; sDelivered := d |} y.
Proof.
  intros [] Hw Hs Ht. split; try done; unfold numbers_of; cbn [sConn sSent sPushed]; rewrite ?Hw, ?Hs, ?Ht; done.
Qed.

(** The consecutive segments of the window are the consecutive chunks. *)
Lemma run_content pushed (win : gmap Z DataSegment) next segs :
  0 <= next ->
  (forall k s, win !! k = Some s -> 0 <= k < zlen pushed /\ exists b, payload s = Some b /\ buf_wf b /\
     pushed !! Z.to_nat k = Some (content b)) ->
  (forall i s, segs !! i = Some s -> win !! (next + Z.of_nat i) = Some s) ->
  mb_wf (map (fun s => KcpRecv.entry (payload s)) segs) /\
  concat (take (Z.to_nat next) pushed) ++ mb_content (map (fun s => KcpRecv.entry (payload s)) segs) =
    concat (take (Z.to_nat (next + zlen segs)) pushed) /\
  (segs <> [] -> next + zlen segs <= zlen pushed).
Proof.
  intros Hn Hw. revert next Hn. induction segs as [|s segs IH]; intros next Hn Hs.
  - split; [constructor|]. change (mb_content _) with (@nil byte). rewrite zlen_nil, Z.add_0_r, app_nil_r. by split.
  - destruct (Hw _ _ (Hs 0%nat s eq_refl)) as (Hk & b & Ep & Hb & Hl). rewrite Z.add_0_r in Hk, Hl.
    destruct (IH (next + 1) ltac:(lia)) as (H1 & H2 & H3).
    { intros i s' Hi. rewrite <- (Hs (S i) s' Hi). f_equal. lia. }
    cbn [map]. rewrite Ep. cbn [KcpRecv.entry]. split; [by constructor|].
    rewrite mb_content_cons, zlen_cons, Z.add_assoc. rewrite <- H2. split.
    + rewrite app_assoc. f_equal. replace (Z.to_nat (next + 1)) with (S (Z.to_nat next)) by lia.
      rewrite (take_S_r _ _ _ Hl), concat_app. simpl. by rewrite app_nil_r.
    + intros _. destruct segs; [rewrite zlen_nil; lia|]. by apply H3.
Qed.

(** What one round of the worker's reading hands out. *)
Lemma worker_read x y :
  dir x y -> zlen (sPushed x) < 2 ^ 32 ->
  let '(r, mb) := KcpRecv.ReadMultiBuffer (rw y) in
  mb_wf mb /\ KcpRecv.leftOver r = None /\ KcpRecv.recv_ok r /\
  KcpRecv.nextNumber (rw y) <= KcpRecv.nextNumber r <= zlen (sPushed x) /\
  (forall k, KcpRecv.has (rw y) k -> KcpRecv.has r k) /\
  (forall k s, KcpRecv.window r !! k = Some s -> KcpRecv.window (rw y) !! k = Some s) /\
  concat (take (Z.to_nat (KcpRecv.nextNumber (rw y))) (sPushed x)) ++
    (match KcpRecv.leftOver (rw y) with Some _ => [] | None => mb_content mb end) =
    concat (take (Z.to_nat (KcpRecv.nextNumber r)) (sPushed x)) /\
  (match KcpRecv.leftOver (rw y) with Some l => mb = l | None =>
     KcpRecv.window r !! KcpRecv.nextNumber r = None end).
Proof.
  intros Hd Hmax. pose proof (d_recv _ _ Hd) as Hr. pose proof (d_le _ _ Hd) as Hle.
  pose proof (d_left _ _ Hd) as Hleft. destruct (KcpRecv.leftOver (rw y)) as [l|] eqn:El.
  - unfold KcpRecv.ReadMultiBuffer. rewrite El. destruct Hr.
    split; [done|]. split; [done|]. split; [by split|]. split; [simpl; lia|]. rewrite app_nil_r. done.
  - pose proof (rk_next0 := KcpRecv.rk_next _ Hr).
    destruct (KcpRecv.ReadMultiBuffer_spec (rw y) rk_next0 El) as (segs & E & Hs & Hn & Hrange & Hlo & Hal & Hws & Hwin & Hhas & Hnone).
    { intros k s Hk. destruct (d_window _ _ Hd k s Hk) as [? _]. lia. }
    destruct (KcpRecv.ReadMultiBuffer (rw y)) as [r mb]. cbn [fst snd] in *. subst mb.
    destruct (run_content (sPushed x) (KcpRecv.window (rw y)) (KcpRecv.nextNumber (rw y)) segs)
      as (H1 & H2 & H3); [lia|apply (d_window _ _ Hd)|done|].
    split; [done|]. split; [done|]. split.
    { apply (KcpRecv.has_mono_ok (rw y)); try done; [by rewrite Hn|rewrite Hal; apply Hr|by rewrite Hal]. }
    rewrite Hn in *. pose proof (zlen_nonneg segs). split; [|done]. split; [lia|].
    destruct segs; [rewrite zlen_nil; lia|]. by apply H3.
Qed.

Lemma concat_take_prefix {A} n (l : list (list A)) : concat (take n l) `prefix_of` concat l.
Proof. rewrite <- (take_drop n l) at 2. rewrite concat_app. by apply prefix_app_r. Qed.

(** The reading side after a read that hands out [d] and keeps [keep]. *)
Lemma read_receiver x y r c' d keep :
  dir x y -> state (sConn y) <> StateTerminated -> state c' = state (sConn y) ->
  toTerminate c' = toTerminate (sConn y) -> receivingWorker c' = r ->
  KcpRecv.recv_ok r -> KcpRecv.nextNumber (rw y) <= KcpRecv.nextNumber r <= zlen (sPushed x) ->
  (forall k, KcpRecv.has (rw y) k -> KcpRecv.has r k) ->
  (forall k s, KcpRecv.window r !! k = Some s -> KcpRecv.window (rw y) !! k = Some s) ->
  match KcpRecv.leftOver r with Some mb => mb_wf mb /\ keep = mb_content mb | None => keep = [] end ->
  (sDelivered y ++ d) ++ keep = concat (take (Z.to_nat (KcpRecv.nextNumber r)) (sPushed x)) ->
  dir x {| sConn := c'; sSent := sSent y; sPushed := sPushed y; sDelivered := sDelivered y ++ d |}.
Proof.
  intros Hd Hne Hs Ht Hr Hok Hn Hh Hw Hk Hc. destruct Hd.
  split; try done; unfold left_of; cbn [sConn sSent sDelivered sPushed]; rewrite ?Hr, ?Hs, ?Ht; try done.
  - intros k s Hks. apply d_window0. by apply Hw.
  - lia.
  - destruct (KcpRecv.leftOver r); [apply Hk|done].
  - intros _. rewrite <- Hc. f_equal. destruct (KcpRecv.leftOver r); [by destruct Hk|done].
  - etrans; [|apply concat_take_prefix]. rewrite <- Hc. by apply prefix_app_r.
  - intros a Ha. destruct (d_acks0 a Ha) as [H1 H2]. split; [by eapply Forall_impl|lia].
  - intros s Hs'. pose proof (d_cmds0 s Hs'). lia.
  - intros Ho k Hk'. destruct (d_keep0 Ho k Hk'); auto.
Qed.

(** ** Every step keeps the invariant of both directions *)
Lemma flush_step x y now c out :
  dir x y -> dir y x -> flush (sConn x) now = Ok (c, out) ->
  dir {| sConn := c; sSent := sSent x ++ out; sPushed := sPushed x; sDelivered := sDelivered x ++ [] |} y /\
  dir y {| sConn := c; sSent := sSent x ++ out; sPushed := sPushed x; sDelivered := sDelivered x ++ [] |}.
Proof.
  intros H1 H2 Hf. apply flush_quiet in Hf as [Hq Ht]; [|apply H2]. rewrite app_nil_r.
  split; [by apply (dir_quiet_sender x y)|by apply (dir_quiet_receiver y x)].
Qed.

(** Steps that touch neither worker nor the network. *)
Lemma idle_step x y c :
  dir x y -> dir y x -> ctrl (sConn x) c ->
  dir {| sConn := c; sSent := sSent x ++ []; sPushed := sPushed x; sDelivered := sDelivered x ++ [] |} y /\
  dir y {| sConn := c; sSent := sSent x ++ []; sPushed := sPushed x; sDelivered := sDelivered x ++ [] |}.
Proof.
  intros H1 H2 Hc. rewrite !app_nil_r.
  split; [by apply (dir_ctrl_sender x y)|by apply (dir_ctrl_receiver y x)].
Qed.

Lemma open_reading s : Is s [StateReadyToClose; StateTerminating; StateTerminated] = false -> s <> StateTerminated.
Proof. unfold Is. intros H%bool_decide_eq_false ->. apply H. set_solver. Qed.

Lemma read_multi_step x y now c out d :
  dir x y -> dir y x -> zlen (sPushed y) < 2 ^ 32 ->
  handle (sConn x) now EReadMulti = Ok (c, out, d) ->
  dir {| sConn := c; sSent := sSent x ++ out; sPushed := sPushed x; sDelivered := sDelivered x ++ d |} y /\
  dir y {| sConn := c; sSent := sSent x ++ out; sPushed := sPushed x; sDelivered := sDelivered x ++ d |}.
Proof.
  intros H1 H2 Hmax. cbn [handle]. unfold ReadMultiBuffer.
  destruct (Is _ _) eqn:Ei; [intros [= <- <- <-]; by apply idle_step|]. apply open_reading in Ei.
  pose proof (worker_read y x H2 Hmax) as Hr. destruct (KcpRecv.ReadMultiBuffer (rw x)) as [r mb].
  destruct Hr as (Hmb & Hlo & Hok & Hn & Hh & Hw & Hc & Hl).
  assert (Hdeliv : (sDelivered x ++ mb_content mb) ++ [] = concat (take (Z.to_nat (KcpRecv.nextNumber r)) (sPushed y))).
  { rewrite app_nil_r, <- Hc, <- (d_deliv _ _ H2 Ei). unfold left_of.
    destruct (KcpRecv.leftOver (rw x)) as [l|]; [by rewrite Hl, app_nil_r|by rewrite app_nil_r]. }
  assert (Hres : forall c' d', state c' = state (sConn x) -> toTerminate c' = toTerminate (sConn x) ->
    receivingWorker c' = r -> sendingWorker c' = sw x -> d' = mb_content mb ->
    dir {| sConn := c'; sSent := sSent x ++ []; sPushed := sPushed x; sDelivered := sDelivered x ++ d' |} y /\
    dir y {| sConn := c'; sSent := sSent x ++ []; sPushed := sPushed x; sDelivered := sDelivered x ++ d' |}).
  { intros c' d' Hs Ht Hrw Hsw ->. rewrite app_nil_r. split; [by apply read_sender|].
    apply (read_receiver y x r c' _ []); try done. by rewrite Hlo. }
  rewrite (IsEmpty_spec mb Hmb). case_bool_decide as Hemp; cbn [negb].
  - destruct (bool_decide (state _ = StatePeerTerminating)); intros [= <- <- <-]; by apply Hres.
  - intros [= <- <- <-]. by apply Hres.
Qed.

Lemma read_step x y now n c out d :
  dir x y -> dir y x -> zlen (sPushed y) < 2 ^ 32 ->
  handle (sConn x) now (ERead n) = Ok (c, out, d) ->
  dir {| sConn := c; sSent := sSent x ++ out; sPushed := sPushed x; sDelivered := sDelivered x ++ d |} y /\
  dir y {| sConn := c; sSent := sSent x ++ out; sPushed := sPushed x; sDelivered := sDelivered x ++ d |}.
Proof.
  intros H1 H2 Hmax. cbn [handle]. unfold Read, KcpRecv.Read.
  destruct (Is _ _) eqn:Ei; [intros [= <- <- <-]; by apply idle_step|]. apply open_reading in Ei.
  pose proof (worker_read y x H2 Hmax) as Hr. destruct (KcpRecv.ReadMultiBuffer (rw x)) as [r mb].
  destruct Hr as (Hmb & Hlo & Hok & Hn & Hh & Hw & Hc & Hl).
  assert (Hdeliv : sDelivered x ++ mb_content mb = concat (take (Z.to_nat (KcpRecv.nextNumber r)) (sPushed y))).
  { rewrite <- Hc, <- (d_deliv _ _ H2 Ei). unfold left_of.
    destruct (KcpRecv.leftOver (rw x)) as [l|]; [by rewrite Hl, app_nil_r|by rewrite app_nil_r]. }
  assert (Hres : forall c' d' keep r', state c' = state (sConn x) -> toTerminate c' = toTerminate (sConn x) ->
    receivingWorker c' = r' -> sendingWorker c' = sw x -> d' ++ keep = mb_content mb ->
    (r' = r /\ keep = [] \/ exists mb', r' = KcpRecv.with_leftOver r (Some mb') /\ mb_wf mb' /\ keep = mb_content mb') ->
    dir {| sConn := c'; sSent := sSent x ++ []; sPushed := sPushed x; sDelivered := sDelivered x ++ d' |} y /\
    dir y {| sConn := c'; sSent := sSent x ++ []; sPushed := sPushed x; sDelivered := sDelivered x ++ d' |}).
  { intros c' d' keep r' Hs Ht Hrw Hsw Hk Hr'. rewrite app_nil_r. split; [by apply read_sender|].
    rewrite <- Hk in Hdeliv. rewrite app_assoc in Hdeliv.
    destruct Hr' as [[-> ->]|(mb' & -> & Hmb' & ->)].
    - apply (read_receiver y x r c' _ []); try done. by rewrite Hlo.
    - apply (read_receiver y x (KcpRecv.with_leftOver r (Some mb')) c' _ (mb_content mb')); try done.
      destruct Hok. by split. }
  rewrite (IsEmpty_spec mb Hmb). case_bool_decide as Hemp; cbn [negb].
  - cbn [Z.ltb]. change (0 <? zlen []) with false. intros [= <- <- <-]. apply (Hres _ [] [] r); try done.
    by left.
  - destruct (SplitBytes_spec mb n Hmb) as (mb' & -> & Hmb' & Hc'). cbn [mbind res_bind].
    rewrite (IsEmpty_spec mb' Hmb'). set (d0 := take n (mb_content mb)).
    assert (Hsplit : d0 ++ mb_content mb' = mb_content mb) by (rewrite Hc'; apply take_drop).
    set (r' := if negb _ then _ else r).
    assert (Hr' : r' = r /\ mb_content mb' = [] \/ exists mb'', r' = KcpRecv.with_leftOver r (Some mb'') /\
      mb_wf mb'' /\ mb_content mb' = mb_content mb'').
    { unfold r'. case_bool_decide; [by left|right; by exists mb']. }
    destruct (0 <? zlen d0) eqn:E0; intros [= <- <- <-].
    + by apply (Hres _ d0 (mb_content mb') r').
    + assert (d0 = []) as E by (destruct d0; [done|]; rewrite zlen_cons in E0; pose proof (zlen_nonneg d0); lia).
      rewrite E in Hsplit. by apply (Hres _ [] (mb_content mb') r').
Qed.

Lemma terminate_step x y n :
  dir x y -> dir y x -> toTerminate (sConn x) = S n ->
  let c := with_tasks (Terminate (sConn x)) (dataRunning (sConn x)) (pingRunning (sConn x))
             (pingInterval (sConn x)) n in
  dir {| sConn := c; sSent := sSent x ++ []; sPushed := sPushed x; sDelivered := sDelivered x ++ [] |} y /\
  dir y {| sConn := c; sSent := sSent x ++ []; sPushed := sPushed x; sDelivered := sDelivered x ++ [] |}.
Proof.
  intros H1 H2 Ht c. destruct (d_term _ _ H1) as [[Ht'|Hst] Hty]; [by rewrite Ht in Ht'|].
  assert (Hc : state c = StateTerminated) by exact Hst. rewrite !app_nil_r. split.
  - destruct H1. split; try done; cbn [sConn sSent sPushed].
    + intros z Hz%elem_of_nil. done.
    + intros Ho. by rewrite Hc in Ho.
    + split; [by right|done].
  - destruct H2 as [??????????????]. split; try done; cbn [sConn sSent sPushed].
    + destruct d_recv0 as [A B C]. split; [exact A|exact B|exact C].
    + split; [done|by right].
Qed.

Lemma side_step_dirs x y x' :
  side_step x y x' -> dir x y -> dir y x ->
  zlen (sPushed x') < 2 ^ 32 -> zlen (sPushed y) < 2 ^ 32 -> dir x' y /\ dir y x'.
Proof.
  intros Hstep H1 H2 Hx Hy. destruct Hstep as [now e c out d Hp Hh|now b c out d Hb Hl Hh|now segs c out d Hs Hh].
  - destruct e as [segs| | | |b| |n|]; try done; cbn [handle] in Hh.
    + unfold dataRound in Hh. destruct (negb _); [injection Hh as <- <- <-; by apply idle_step|].
      destruct (_ && _).
      * destruct (flush (sConn x) now) as [[c1 o]| |] eqn:E; [|done|done]. injection Hh as <- <- <-.
        by eapply flush_step.
      * injection Hh as <- <- <-. apply idle_step; [done|done|by apply ctrl_same].
    + unfold pingRound in Hh. destruct (negb (pingRunning _)); [injection Hh as <- <- <-; by apply idle_step|].
      destruct (negb _).
      * destruct (flush (sConn x) now) as [[c1 o]| |] eqn:E; [|done|done]. injection Hh as <- <- <-.
        by eapply flush_step.
      * injection Hh as <- <- <-. apply idle_step; [done|done|by apply ctrl_same].
    + injection Hh as <- <- <-. apply idle_step; [done|done|apply Close_ctrl].
    + by apply (read_multi_step x y now).
    + by apply (read_step x y now n).
    + destruct (toTerminate (sConn x)) as [|n] eqn:E; injection Hh as <- <- <-; [by apply idle_step|].
      by apply terminate_step.
  - unfold accepts in *. cbn [handle] in Hh. destruct (bool_decide (state (sConn x) = StateActive)); cbn [negb andb] in *.
    + pose proof (KcpSend.WorkerPush_spec (sw x) b) as Hspec.
      pose proof (push_sender x y b H1 Hl) as Hpush.
      destruct (KcpSend.WorkerPush (sw x) b) as [w []]; cbn [fst snd] in *.
      * injection Hh as <- <- <-. rewrite !app_nil_r in *. split.
        -- apply Hpush; [|done]. cbn [sPushed] in Hx. rewrite zlen_app, zlen_cons, zlen_nil in Hx. lia.
        -- by apply (with_send_receiver y x).
      * injection Hh as <- <- <-. subst w. rewrite !app_nil_r. split.
        -- by apply (read_sender x y).
        -- by apply (with_send_receiver y x).
    + injection Hh as <- <- <-. by apply idle_step.
  - cbn [handle] in Hh. injection Hh as <- <- <-. rewrite !app_nil_r. unfold Input.
    apply (input_loop (set_conn x (with_times (sConn x) now (lastPingTime (sConn x)))) y now segs Hs).
    + apply dir_ctrl_sender; [done|by apply ctrl_same].
    + apply dir_ctrl_receiver; [done|by apply ctrl_same].
Qed.

(** ** Reachable states *)
Lemma step_pushed s s' :
  net_step s s' -> sPushed s.1 `prefix_of` sPushed s'.1 /\ sPushed s.2 `prefix_of` sPushed s'.2.
Proof.
  destruct 1 as [x y x' H|x y y' H]; destruct H; simpl; try done; destruct (accepts _ _);
    (split; done || by apply prefix_app_r).
Qed.

Lemma prefix_zlen {A} (l k : list A) : l `prefix_of` k -> zlen l <= zlen k.
Proof. intros [m ->]. rewrite zlen_app. pose proof (zlen_nonneg m). lia. Qed.

Lemma fresh_fields c :
  fresh c -> KcpSend.nextNumber (sendingWorker c) = 0 /\ KcpSend.carries (KcpSend.window (sendingWorker c)) = [] /\
  exists n, receivingWorker c = KcpRecv.NewReceivingWorker n /\ toTerminate c = 0%nat.
Proof.
  intros (conversation & overhead & cfg & H). unfold NewConnection in H.
  destruct (GetReceivingInFlightSize cfg) as [n| |]; [|done|done]. cbn [mbind res_bind] in H.
  unfold KcpSend.NewSendingWorker in H.
  destruct (GetSendingInFlightSize cfg) as [m| |]; [|done|done]. cbn [mbind res_bind] in H.
  destruct (GetSendingBufferSize cfg) as [k| |]; [|done|done]. cbn [mbind res_bind] in H.
  injection H as <-. split; [done|]. split; [done|]. by exists n.
Qed.

Lemma init_dir ca cb : fresh ca -> fresh cb -> dir (init ca) (init cb).
Proof.
  intros Ha Hb. destruct (fresh_fields ca Ha) as (Hn & Hc & _ & _ & Ta).
  destruct (fresh_fields cb Hb) as (_ & _ & n & Hr & Tb).
  split; unfold left_of, numbers_of; cbn [init sConn sSent sPushed sDelivered]; rewrite ?Hn, ?Hc, ?Hr; try done.
  - by intros z ?%elem_of_nil.
  - by intros s ?%elem_of_nil.
  - by intros s ?%elem_of_nil.
  - by intros s ?%elem_of_nil.
  - intros _ k Hk. unfold zlen in Hk. simpl in Hk. lia.
  - by split; left.
Qed.

Lemma reach_dirs ca cb x y :
  fresh ca -> fresh cb -> reachable ca cb x y ->
  zlen (sPushed x) < 2 ^ 32 -> zlen (sPushed y) < 2 ^ 32 -> dir x y /\ dir y x.
Proof.
  intros Ha Hb Hr. unfold reachable in Hr.
  cut (forall s, rtc net_step (init ca, init cb) s -> zlen (sPushed s.1) < 2 ^ 32 ->
    zlen (sPushed s.2) < 2 ^ 32 -> dir s.1 s.2 /\ dir s.2 s.1).
  { intros Hs. apply (Hs _ Hr). }
  clear Hr x y. apply (rtc_ind_r (fun s => zlen (sPushed s.1) < 2 ^ 32 -> zlen (sPushed s.2) < 2 ^ 32 ->
    dir s.1 s.2 /\ dir s.2 s.1) (init ca, init cb)).
  - intros _ _. split; by apply init_dir.
  - intros s s' _ Hstep IH Hx Hy. destruct (step_pushed s s' Hstep) as [P1 P2]. apply prefix_zlen in P1, P2.
    destruct (IH ltac:(lia) ltac:(lia)) as [D1 D2].
    destruct Hstep as [x0 y0 x' Hst|x0 y0 y' Hst]; cbn [fst snd] in *.
    + by apply (side_step_dirs x0 y0 x').
    + destruct (side_step_dirs y0 x0 y' Hst D2 D1) as [? ?]; [done|lia|done].
Qed.

(** One round of reading on a side whose user may read. *)
Definition readable (c : Connection) : bool :=
  negb (Is (state c) [StateReadyToClose; StateTerminating; StateTerminated]).

Lemma read_round x y now :
  dir x y -> dir y x -> zlen (sPushed x) < 2 ^ 32 -> readable (sConn y) = true ->
  exists c d, handle (sConn y) now EReadMulti = Ok (c, [], d) /\ readable c = true /\
    (let y' := {| sConn := c; sSent := sSent y; sPushed := sPushed y; sDelivered := sDelivered y ++ d |} in
     dir x y' /\ dir y' x) /\
    KcpRecv.leftOver (receivingWorker c) = None /\
    (KcpRecv.leftOver (rw y) = None ->
     KcpRecv.window (receivingWorker c) !! KcpRecv.nextNumber (receivingWorker c) = None).
Proof.
  intros H1 H2 Hmax Hread.
  assert (Hex : exists c d, handle (sConn y) now EReadMulti = Ok (c, [], d) /\ readable c = true /\
    KcpRecv.leftOver (receivingWorker c) = None /\ (KcpRecv.leftOver (rw y) = None ->
     KcpRecv.window (receivingWorker c) !! KcpRecv.nextNumber (receivingWorker c) = None)).
  { pose proof (worker_read x y H1 Hmax) as Hr. cbn [handle]. unfold ReadMultiBuffer.
    unfold readable in Hread |- *. apply negb_true_iff in Hread. rewrite Hread.
    destruct (KcpRecv.ReadMultiBuffer (rw y)) as [r mb]. destruct Hr as (Hmb & Hlo & _ & _ & _ & _ & _ & Hl).
    assert (Hnone : KcpRecv.leftOver (rw y) = None -> KcpRecv.window r !! KcpRecv.nextNumber r = None).
    { intros E. by rewrite E in Hl. }
    destruct (negb _); [|destruct (bool_decide _)]; (eexists _, _; split; [reflexivity|]); cbn [state];
      change (state (WakeUpData (with_recv (sConn y) r))) with (state (sConn y));
      change (state (with_recv (sConn y) r)) with (state (sConn y)); by rewrite Hread. }
  destruct Hex as (c & d & E & Hs & Hlo & Hnone). exists c, d. split; [done|]. split; [done|].
  split; [|done]. pose proof (read_multi_step y x now c [] d H2 H1 Hmax E) as [D1 D2].
  rewrite app_nil_r in D1, D2. by split.
Qed.

(** C1. Reliable delivery in order, over a network that may lose, duplicate, delay and
    reorder packets at will and whatever the two sides do in between (write, read,
    close, time out, terminate): what the reader of a connection has got is always a
    prefix of what the peer's writer has pushed, for two fresh connections and as long
    as fewer than 2^32 segments have been pushed on either side. *)
Theorem delivers_a_prefix ca cb x y :
  fresh ca -> fresh cb -> reachable ca cb x y ->
  zlen (sPushed x) < 2 ^ 32 -> zlen (sPushed y) < 2 ^ 32 ->
  sDelivered y `prefix_of` concat (sPushed x) /\ sDelivered x `prefix_of` concat (sPushed y).
Proof.
  intros Ha Hb Hr Hx Hy. destruct (reach_dirs ca cb x y Ha Hb Hr Hx Hy) as [D1 D2].
  split; [apply D1|apply D2].
Qed.

(** C3. Nothing is given up too early: for two fresh connections, whatever the network
    and the two sides do, and as long as fewer than 2^32 segments have been pushed on
    either side: while a connection is active or waits to close, every segment it has
    accepted either has arrived at the peer (delivered or waiting in the receiving
    window) or is still in the sending window, with the bytes that were pushed, to be
    sent again. *)
Theorem nothing_is_lost ca cb x y k :
  fresh ca -> fresh cb -> reachable ca cb x y ->
  zlen (sPushed x) < 2 ^ 32 -> zlen (sPushed y) < 2 ^ 32 ->
  open (state (sConn x)) = true -> 0 <= k < zlen (sPushed x) ->
  KcpRecv.has (rw y) k \/
  exists b, (k, Some b) ∈ KcpSend.carries (KcpSend.window (sw x)) /\
    sPushed x !! Z.to_nat k = Some (content b).
Proof.
  intros Ha Hb Hr Hx Hy Ho Hk. destruct (reach_dirs ca cb x y Ha Hb Hr Hx Hy) as [D _].
  destruct (d_keep _ _ D Ho k Hk) as [?|Hin]; [by left|right].
  unfold numbers_of in Hin. apply list_elem_of_fmap in Hin as ([n p] & -> & Hin).
  destruct (d_carry _ _ D _ Hin) as (_ & b & E & Hl). cbn [fst snd] in *. subst p. by exists b.
Qed.

(** C11. An empty sending window means everything has arrived, and a peer that still
    reads gets it: in every state two fresh connections reach with fewer than 2^32
    segments pushed on either side, when one of them is active or waits to close and has
    nothing left to acknowledge (which is when the update task lets it terminate), and
    the peer is readable - it has not been closed at its own end (ReadyToClose), is not
    terminating and not terminated; reading then answers EOF and what it has received is
    dropped -, then two rounds of reading on the peer hand out the rest: its reader has
    got exactly what was pushed. *)
Theorem drained_means_delivered ca cb x y now :
  fresh ca -> fresh cb -> reachable ca cb x y ->
  zlen (sPushed x) < 2 ^ 32 -> zlen (sPushed y) < 2 ^ 32 ->
  open (state (sConn x)) = true -> KcpSend.IsEmpty (KcpSend.window (sw x)) = true ->
  readable (sConn y) = true ->
  exists c1 d1 c2 d2, handle (sConn y) now EReadMulti = Ok (c1, [], d1) /\
    handle c1 now EReadMulti = Ok (c2, [], d2) /\
    sDelivered y ++ d1 ++ d2 = concat (sPushed x).
Proof.
  intros Ha Hb Hr Hx Hy Ho He Hread. destruct (reach_dirs ca cb x y Ha Hb Hr Hx Hy) as [D1 D2].
  destruct (read_round x y now D1 D2 Hx Hread) as (c1 & d1 & E1 & R1 & [A1 A2] & L1 & _).
  set (y1 := {| sConn := c1 |}) in *.
  destruct (read_round x y1 now A1 A2 Hx R1) as (c2 & d2 & E2 & R2 & [B1 B2] & L2 & N2).
  exists c1, d1, c2, d2. split; [done|]. split; [done|]. specialize (N2 L1).
  set (y2 := {| sConn := c2 |}) in *.
  assert (Hnext : KcpRecv.nextNumber (rw y2) = zlen (sPushed x)).
  { pose proof (d_le _ _ B1). pose proof (KcpRecv.rk_next _ (d_recv _ _ B1)).
    destruct (Z.eq_dec (KcpRecv.nextNumber (rw y2)) (zlen (sPushed x))) as [|Hne]; [done|].
    destruct (d_keep _ _ B1 Ho (KcpRecv.nextNumber (rw y2)) ltac:(lia)) as [[Hlt|[s Hs]]|Hin]; [lia| |].
    - change (rw y2) with (receivingWorker c2) in Hs. by rewrite N2 in Hs.
    - unfold numbers_of, KcpSend.carries in Hin. unfold KcpSend.IsEmpty in He.
      destruct (KcpSend.cache (KcpSend.window (sw x))); [by apply elem_of_nil in Hin|done]. }
  pose proof (d_deliv _ _ B1) as Hd. unfold left_of in Hd. rewrite Hnext in Hd.
  change (KcpRecv.leftOver (rw y2)) with (KcpRecv.leftOver (receivingWorker c2)) in Hd. rewrite L2, app_nil_r in Hd.
  rewrite take_ge in Hd by (unfold zlen; lia). rewrite <- Hd.
  - cbn [y2 y1 sDelivered]. by rewrite app_assoc.
  - apply negb_true_iff in R2. by apply open_reading.
Qed.

(** ** A run: one chunk is pushed, lost once, sent again, received twice,
    acknowledged and read. *)
Definition apply_event (x : side) (now : Z) (e : event) : side :=
  match handle (sConn x) now e with
  | Ok (c, out, d) =>
    {| sConn := c; sSent := sSent x ++ out;
       sPushed := match e with
                  | EPush b => if accepts (sConn x) b then sPushed x ++ [content b] else sPushed x
                  | _ => sPushed x
                  end;
       sDelivered := sDelivered x ++ d |}
  | _ => x
  end.

Definition is_ok {A} (r : res A) : bool := match r with Ok _ => true | _ => false end.

Lemma apply_plain x y now e :
  plain e = true -> is_ok (handle (sConn x) now e) = true -> side_step x y (apply_event x now e).
Proof.
  intros Hp Hok. unfold apply_event. destruct (handle (sConn x) now e) as [[[c out] d]| |] eqn:E; [|done|done].
  destruct e; try done; by eapply step_event.
Qed.

Lemma apply_push x y now b :
  buf_wf b -> zlen (content b) <= 2048 -> is_ok (handle (sConn x) now (EPush b)) = true ->
  side_step x y (apply_event x now (EPush b)).
Proof.
  intros Hb Hl Hok. unfold apply_event. destruct (handle (sConn x) now (EPush b)) as [[[c out] d]| |] eqn:E; [|done|done].
  by eapply step_push.
Qed.

Lemma apply_input x y now segs :
  Forall (fun s => s ∈ sSent y) segs -> side_step x y (apply_event x now (EInput (map received segs))).
Proof. intros Hs. unfold apply_event. cbn [handle]. by apply (step_input x y now segs). Qed.

Definition demo_a1 : side := apply_event (init demo_conn) 10 (EPush (push New (lit "hello"))).
Definition demo_a1' : side := apply_event demo_a1 1000 EDataRound.
Definition demo_a2 : side := apply_event demo_a1' 2000 EDataRound.
Definition demo_b1 : side :=
  apply_event (init demo_conn) 2100 (EInput (map received (sSent demo_a2 ++ sSent demo_a2))).
Definition demo_b2 : side := apply_event demo_b1 2200 EDataRound.
Definition demo_a3 : side := apply_event demo_a2 2300 (EInput (map received (sSent demo_b2))).
Definition demo_b3 : side := apply_event demo_b2 2400 EReadMulti.

Lemma demo_fresh : fresh demo_conn.
Proof.
  exists 7, 6, (Some {| Mtu := None; Tti := None; UplinkCapacity := None; DownlinkCapacity := None;
    WriteBuffer := None; ReadBuffer := None; Congestion := true |}). by vm_compute.
Qed.

Lemma demo_reachable : reachable demo_conn demo_conn demo_a3 demo_b2.
Proof.
  assert (S1 : side_step (init demo_conn) (init demo_conn) demo_a1).
  { apply apply_push; [by apply push_wf; [|by vm_compute]|by vm_compute|by vm_compute]. }
  assert (S2 : side_step demo_a1 (init demo_conn) demo_a1') by (apply apply_plain; by vm_compute).
  assert (S3 : side_step demo_a1' (init demo_conn) demo_a2) by (apply apply_plain; by vm_compute).
  assert (S4 : side_step (init demo_conn) demo_a2 demo_b1).
  { apply apply_input, Forall_app. split; by apply Forall_forall. }
  assert (S5 : side_step demo_b1 demo_a2 demo_b2) by (apply apply_plain; by vm_compute).
  assert (S6 : side_step demo_a2 demo_b2 demo_a3) by (apply apply_input; by apply Forall_forall).
  unfold reachable. do 3 (eapply rtc_l; [apply net_left; eassumption|]).
  do 2 (eapply rtc_l; [apply net_right; eassumption|]).
  eapply rtc_l; [apply net_left; eassumption|]. apply rtc_refl.
Qed.

Lemma demo_reachable_read : reachable demo_conn demo_conn demo_a3 demo_b3.
Proof.
  eapply rtc_r; [apply demo_reachable|]. apply net_right. apply apply_plain; by vm_compute.
Qed.

Lemma delivers_a_prefix_witness :
  sDelivered demo_b3 = lit "hello" /\
  (sDelivered demo_b3 `prefix_of` concat (sPushed demo_a3) /\
   sDelivered demo_a3 `prefix_of` concat (sPushed demo_b3)).
Proof.
  split; [by vm_compute|].
  apply (delivers_a_prefix demo_conn demo_conn demo_a3 demo_b3 demo_fresh demo_fresh demo_reachable_read);
    by vm_compute.
Defined.

Lemma nothing_is_lost_witness :
  KcpRecv.has (rw demo_b2) 0 \/
  exists b, (0, Some b) ∈ KcpSend.carries (KcpSend.window (sw demo_a3)) /\
    sPushed demo_a3 !! Z.to_nat 0 = Some (content b).
Proof.
  apply (nothing_is_lost demo_conn demo_conn demo_a3 demo_b2 0 demo_fresh demo_fresh demo_reachable);
    try (by vm_compute).
Defined.

Lemma drained_means_delivered_witness :
  sPushed demo_a3 = [lit "hello"] /\
  exists c1 d1 c2 d2, handle (sConn demo_b2) 3000 EReadMulti = Ok (c1, [], d1) /\
    handle c1 3000 EReadMulti = Ok (c2, [], d2) /\
    sDelivered demo_b2 ++ d1 ++ d2 = concat (sPushed demo_a3).
Proof.
  split; [by vm_compute|].
  apply (drained_means_delivered demo_conn demo_conn demo_a3 demo_b2 3000 demo_fresh demo_fresh demo_reachable);
    by vm_compute.
Defined.
