(* ===== verification/DnsHosts.v ===== *)
(** * Package app/dns: options, static hosts

    [Module DnsHosts] models features/dns/client.go (the options of a query),
    app/dns/config.go (types of domain rules, conversions), [filterIP] of
    dnscommon.go and the static hosts of hosts.go over the linear index of the
    string matchers.  A map that is ranged over is the list of its entries in
    the order the run time picks. *)
From S2P Require Import Prelude GoStd NetAddr StrMatch StrIndex RouteCond.
Import NetAddr StrMatch RouteCond.

Module DnsHosts.

(** ** features/dns/client.go *)
Record IPOption := mkOpt { IPv4Enable : bool; IPv6Enable : bool; FakeEnable : bool }.

Definition With (opt other : IPOption) : IPOption :=
  {| IPv4Enable := IPv4Enable opt && IPv4Enable other; IPv6Enable := IPv6Enable opt && IPv6Enable other;
     FakeEnable := FakeEnable opt && FakeEnable other |}.

Definition Option_IsValid (opt : IPOption) : bool := IPv4Enable opt || IPv6Enable opt.

Definition ErrEmptyResponse : error := NewError "empty response".

(** ** app/dns/config.go *)
Inductive DomainMatchingType :=
  | DomainMatchingType_Full | DomainMatchingType_Subdomain | DomainMatchingType_Keyword
  | DomainMatchingType_Regex | DomainMatchingType_other (n : Z).

Definition typeMap (t : DomainMatchingType) : option Type_ :=
  match t with
  | DomainMatchingType_Full => Some Full
  | DomainMatchingType_Subdomain => Some Domain
  | DomainMatchingType_Keyword => Some Substr
  | DomainMatchingType_Regex => Some Regex
  | DomainMatchingType_other _ => None
  end.

Inductive QueryStrategy := USE_IP | USE_IP4 | USE_IP6.

Definition toIPOption (s : QueryStrategy) : IPOption :=
  {| IPv4Enable := match s with USE_IP | USE_IP4 => true | _ => false end;
     IPv6Enable := match s with USE_IP | USE_IP6 => true | _ => false end;
     FakeEnable := false |}.

(** A nil address panics. *)
Fixpoint toNetIP (addrs : list (option Address)) : res (list bytes) :=
  match addrs with
  | [] => Ok []
  | addr :: addrs' =>
    addr ← or_panic addr;
    if IsIP (Family addr) then ip ← IP addr; ips ← toNetIP addrs'; Ok (ip :: ips)
    else Err (NewError "Failed to convert address")
  end.

(** ** dnscommon.go *)
Definition allowed (option : IPOption) (ip : Address) : bool :=
  (IsIPv4 (Family ip) && IPv4Enable option) || (IsIPv6 (Family ip) && IPv6Enable option).

Definition filterIP (ips : list Address) (option : IPOption) : list Address :=
  List.filter (allowed option) ips.

Section Hosts.
Context {E : RouteEnv}.

(** Two rounds are enough for a pattern that is not ASCII. *)
Definition toStrMatcher (t : DomainMatchingType) (domain : bytes) : res (Matcher Regexp) :=
  match typeMap t with
  | None => Err (NewError "unknown mapping type")
  | Some strMType =>
    match StrMatch.New Compile ToASCII 2 strMType domain with
    | Some (Err e) => Err (Based "failed to create str matcher" e)
    | Some r => r
    | None => Panic
    end
  end.

(** ** hosts.go *)
Record HostMapping := mkHost {
  hm_Type : DomainMatchingType;
  hm_Domain : bytes;
  hm_Ip : list bytes;
  ProxiedDomain : bytes;
}.

Record StaticHosts := mkHosts { ips : list (list Address); matchers : LinearIndexMatcher Regexp }.

(** [sh.ips[id] = l] *)
Definition set_ips (id : Z) (l : list Address) (ips : list (list Address)) : res (list (list Address)) :=
  match index ips id with
  | Some _ => Ok (<[Z.to_nat id := l]> ips)
  | None => Panic
  end.

(** [common.Must(err)] panics when the domain makes no matcher, and the method
    call on a nil address does. *)
Fixpoint add_legacy (legacy : list (bytes * option IPOrDomain)) (sh : StaticHosts) : res StaticHosts :=
  match legacy with
  | [] => Ok sh
  | (domain, ip) :: legacy' =>
    match StrMatch.New Compile ToASCII 2 Full domain with
    | Some (Ok matcher) =>
      '(g, id) ← or_panic (Add matcher (matchers sh));
      address ← or_panic (AsAddress ip);
      if IsDomain (Family address) then Err (NewError "invalid domain address in static hosts: ")
      else
        l ← set_ips id [address] (ips sh);
        add_legacy legacy' {| ips := l; matchers := g |}
    | _ => Panic
    end
  end.

(** What a mapping answers. *)
Fixpoint host_addresses (l : list bytes) : res (list Address) :=
  match l with
  | [] => Ok []
  | ip :: l' =>
    match IPAddress ip with
    | None => Err (NewError "invalid IP address in static hosts: ")
    | Some addr => rest ← host_addresses l'; Ok (addr :: rest)
    end
  end.

Definition mapping_addresses (mapping : HostMapping) : res (list Address) :=
  if 0 <? zlen (ProxiedDomain mapping) then Ok [DomainAddress (ProxiedDomain mapping)]
  else if 0 <? zlen (hm_Ip mapping) then host_addresses (hm_Ip mapping)
  else Err (NewError "neither IP address nor proxied domain specified for domain: ").

Definition add_host (mapping : HostMapping) (sh : StaticHosts) : res StaticHosts :=
  matcher ← based "failed to create domain matcher" (toStrMatcher (hm_Type mapping) (hm_Domain mapping));
  '(g, id) ← or_panic (Add matcher (matchers sh));
  addrs ← mapping_addresses mapping;
  l ← set_ips id addrs (ips sh);
  Ok {| ips := l; matchers := g |}.

Fixpoint add_hosts (hosts : list HostMapping) (sh : StaticHosts) : res StaticHosts :=
  match hosts with
  | [] => Ok sh
  | mapping :: hosts' => sh ← add_host mapping sh; add_hosts hosts' sh
  end.

Definition NewStaticHosts (hosts : list HostMapping) (legacy : list (bytes * option IPOrDomain)) : res StaticHosts :=
  sh ← add_legacy legacy {| ips := replicate (length hosts + length legacy + 16) []; matchers := NewLinearIndexMatcher |};
  add_hosts hosts sh.

Fixpoint collect (h : StaticHosts) (ids : list Z) : res (list Address) :=
  match ids with
  | [] => Ok []
  | id :: ids' => l ← or_panic (index (ips h) id); rest ← collect h ids'; Ok (l ++ rest)
  end.

Definition lookupInternal (h : StaticHosts) (domain : bytes) : res (list Address) :=
  ids ← or_panic (Linear_Match MatchString (S (length domain)) (matchers h) domain);
  collect h ids.

(** [None] is the nil slice. *)
Fixpoint lookup_ (h : StaticHosts) (maxDepth : nat) (domain : bytes) (option : IPOption)
    : res (Datatypes.option (list Address)) :=
  addrs ← lookupInternal h domain;
  match addrs with
  | [] => Ok None
  | [domainAddress d] =>
    match maxDepth with
    | O => Ok (Some addrs)
    | S maxDepth' =>
      unwrapped ← lookup_ h maxDepth' d option;
      Ok (match unwrapped with Some l => Some l | None => Some addrs end)
    end
  | _ => Ok (Some (filterIP addrs option))
  end.

Definition Lookup (h : StaticHosts) (domain : bytes) (option : IPOption) : res (Datatypes.option (list Address)) :=
  lookup_ h 5 domain option.
End Hosts.
End DnsHosts.
