(* ===== verification/Dns.v ===== *)
(** * Package app/dns: clients and the lookup

    [Module Dns] models nameserver.go (the clients over name servers, with the
    defaults of their configuration), nameserver_fakedns.go, dns.go (the rules
    that choose the clients for a domain, the lookup) and fakedns.go.  What
    leaves the package is the class [DnsEnv]: the name servers on the network,
    the FakeDNS holders, [url.Parse], random tags.  A pointer to a client is its
    index in [DNS.clients].  Features are there when a client asks for them. *)
From S2P Require Import Prelude GoStd GoText NetAddr FakeDns FakeDnsMulti StrMatch StrIndex RouteCond DnsHosts.
Import NetAddr FakeDns FakeDnsMulti StrMatch StrIndex RouteCond DnsHosts.

Module Dns.

Definition Canceled : error := NewError "context canceled".
Definition DeadlineExceeded : error := NewError "context deadline exceeded".
Definition errExpectedIPNonMatch : error := NewError "expectIPs not match".

Inductive CacheStrategy := CacheEnabled | CacheDisabled.
Inductive FallbackStrategy := Fallback_Enabled | Fallback_Disabled | Fallback_DisabledIfAnyMatch.
#[export] Instance CacheStrategy_eq_dec : EqDecision CacheStrategy.
Proof. solve_decision. Defined.
#[export] Instance FallbackStrategy_eq_dec : EqDecision FallbackStrategy.
Proof. solve_decision. Defined.

(** The implementations of [Server]; [engine] is what a FakeDNS server asks: the
    holders it was made with or the engine of the application. *)
Inductive engine := Holders_ (h : HolderMulti) | Application.

Inductive Server :=
  | LocalNameServer
  | FakeDNSServer (e : engine)
  | DoHNameServer (url : bytes)
  | DoHLocalNameServer (url : bytes)
  | TCPNameServer (url : bytes)
  | TCPLocalNameServer (url : bytes)
  | QUICNameServer (url : bytes)
  | ClassicNameServer (dest : Destination).

Definition isFakeDNS (server : Server) : bool :=
  match server with FakeDNSServer _ => true | _ => false end.

(** ** What the package calls outside *)
Class DnsEnv {E : RouteEnv} := {
  World : Type;
  (** The queries of the servers on the network and of the host: name, address of
      the client, options and whether the cache is disabled. *)
  query : Server -> bytes -> bytes -> IPOption -> bool -> World -> World * (list bytes * option error);
  (** Why a server cannot be made, if so. *)
  unusable : Server -> option error;
  (** [url.Parse]: the text of the URL and its scheme. *)
  url_Parse : bytes -> res (bytes * bytes);
  randomTag : nat -> bytes;
  (** [Regexp.String] *)
  Regexp_String : Regexp -> bytes;
  (** Rounds of the search for a free address of a FakeDNS pool. *)
  fake_rounds : nat;
}.

(** The holders of FakeDNS pools live in a heap. *)
Abbreviation state := (heap * World)%type.

(** An answer is a slice and an error. *)
Abbreviation answer := (list bytes * Datatypes.option error)%type.

Section Model.
Context {E : RouteEnv} {D : DnsEnv}.

(** ** Configuration *)
Record Endpoint := mkEndpoint { ep_Network : Network; ep_Address : option IPOrDomain; ep_Port : Z }.

Definition AsDestination (p : Endpoint) : Destination :=
  {| DNetwork := ep_Network p; DAddress := AsAddress (ep_Address p); DPort := u16 (ep_Port p) |}.

(** [ns.Address.Address.GetDomain()] *)
Definition GetDomain (a : option IPOrDomain) : bytes :=
  match a with Some (IPOrDomain_Domain d) => d | _ => [] end.

Record PriorityDomain := mkPriority { pd_Type : DomainMatchingType; pd_Domain : bytes }.
Record OriginalRule := mkOriginal { Rule : bytes; Rule_Size : Z }.   (* uint32 *)

Record NameServer := mkNameServer {
  ns_Address : Endpoint;
  ns_ClientIp : bytes;
  ns_Tag : bytes;
  PrioritizedDomain : list PriorityDomain;
  ns_Geoip : list GeoIP;
  OriginalRules : list OriginalRule;
  ns_FakeDns : option (list FakeDnsPool);
  SkipFallback : bool;
  ns_QueryStrategy : option QueryStrategy;
  ns_CacheStrategy : option CacheStrategy;
  ns_FallbackStrategy : option FallbackStrategy;
}.

Record Config := mkConfig {
  NameServers : list Endpoint;
  cf_NameServer : list NameServer;
  cf_Hosts : list (bytes * option IPOrDomain);
  cf_ClientIp : bytes;
  cf_StaticHosts : list HostMapping;
  cf_FakeDns : option (list FakeDnsPool);
  cf_Tag : bytes;
  cf_DomainMatcher : bytes;
  DisableCache : bool;
  DisableFallback : bool;
  DisableFallbackIfMatch : bool;
  cf_QueryStrategy : QueryStrategy;
  cf_CacheStrategy : CacheStrategy;
  cf_FallbackStrategy : FallbackStrategy;
}.

Record Client := mkClient {
  server : Server;
  clientIP : bytes;
  tag : bytes;
  queryStrategy : IPOption;
  cacheStrategy : CacheStrategy;
  fallbackStrategy : FallbackStrategy;
  rules : list bytes;                     (* the field domains *)
  expectIPs : list GeoIPMatcher;
  fakeDNS : option HolderMulti;           (* the holders of its FakeDNS server *)
}.

Definition localTLDsAndDotlessDomains : list PriorityDomain :=
  {| pd_Type := DomainMatchingType_Regex; pd_Domain := lit "^[^.]+$" |} ::
  map (fun d => {| pd_Type := DomainMatchingType_Subdomain; pd_Domain := d |})
    [lit "local"; lit "localdomain"; lit "localhost"; lit "lan"; lit "home.arpa"; lit "example"; lit "invalid"; lit "test"].

Definition localTLDsAndDotlessDomainsRule : OriginalRule :=
  {| Rule := lit "geosite:private"; Rule_Size := zlen localTLDsAndDotlessDomains |}.

(** ** nameserver.go *)
Definition created (s : Server) : res Server :=
  match unusable s with Some e => Err e | None => Ok s end.

Definition NewServer (dest : Destination) : res Server :=
  address ← or_panic (DAddress dest);
  let classic :=
    let network := if decide (DNetwork dest = Network_Unknown) then Network_UDP else DNetwork dest in
    if decide (network = Network_UDP)
    then Ok (ClassicNameServer {| DAddress := DAddress dest; DPort := DPort dest; DNetwork := network |})
    else Err (NewError "No available name server could be created from ") in
  match address with
  | domainAddress d =>
    '(text, scheme) ← url_Parse d;
    if EqualFold text (lit "localhost") then Ok LocalNameServer
    else if EqualFold text (lit "fakedns") then Ok (FakeDNSServer Application)
    else if EqualFold scheme (lit "https") then created (DoHNameServer text)
    else if EqualFold scheme (lit "https+local") then Ok (DoHLocalNameServer text)
    else if EqualFold scheme (lit "tcp") then created (TCPNameServer text)
    else if EqualFold scheme (lit "tcp+local") then created (TCPLocalNameServer text)
    else if EqualFold scheme (lit "quic+local") then created (QUICNameServer text)
    else classic
  | _ => classic
  end.

(** The defaults of [NewClient], field by field. *)
Definition tag_of (ns : NameServer) (dns : Config) (random : bytes) : bytes :=
  match ns_Tag ns with
  | [] => match cf_Tag dns with [] => random | t => t end
  | t => t
  end.

Definition clientIP_of (ns : NameServer) (dns : Config) : bytes :=
  match ns_ClientIp ns with [] => cf_ClientIp dns | ip => ip end.

Definition cache_of (ns : NameServer) (dns : Config) : CacheStrategy :=
  match ns_CacheStrategy ns with
  | Some s => s
  | None =>
    if decide (cf_CacheStrategy dns <> CacheEnabled) then cf_CacheStrategy dns
    else if DisableCache dns then CacheDisabled else CacheEnabled
  end.

Definition fallback_of (ns : NameServer) (dns : Config) : FallbackStrategy :=
  match ns_FallbackStrategy ns with
  | Some s => s
  | None =>
    if SkipFallback ns then Fallback_Disabled
    else if decide (cf_FallbackStrategy dns <> Fallback_Enabled) then cf_FallbackStrategy dns
    else if DisableFallback dns then Fallback_Disabled
    else if DisableFallbackIfMatch dns then Fallback_DisabledIfAnyMatch
    else Fallback_Enabled
  end.

Definition default_pools (q : IPOption) : list FakeDnsPool :=
  (if IPv4Enable q then [{| IpPool := lit "198.18.0.0/15"; LruSize := 65535 |}] else []) ++
  (if IPv6Enable q then [{| IpPool := lit "fc00::/18"; LruSize := 65535 |}] else []).

(** The pools a name server asks for: an empty list, or the address "fakedns"
    without a list, stand for the global ones. *)
Definition fakeDns_of (ns : NameServer) (dns : Config) (q : IPOption) : option (list FakeDnsPool) :=
  let global :=
    match ns_FakeDns ns with
    | Some [] => true
    | Some _ => false
    | None => EqualFold (GetDomain (ep_Address (ns_Address ns))) (lit "fakedns")
    end in
  if global then match cf_FakeDns dns with Some p => Some p | None => Some (default_pools q) end
  else ns_FakeDns ns.

(** The client, and the name server as [NewClient] completes it. *)
Definition NewClient (ns : NameServer) (dns : Config) (random : bytes) : res (Client * NameServer) :=
  srv ← NewServer (AsDestination (ns_Address ns));
  let q := match ns_QueryStrategy ns with Some s => s | None => cf_QueryStrategy dns end in
  let local := EqualFold (GetDomain (ep_Address (ns_Address ns))) (lit "localhost") in
  Ok ({| server := srv; clientIP := clientIP_of ns dns; tag := tag_of ns dns random;
         queryStrategy := toIPOption q; cacheStrategy := cache_of ns dns;
         fallbackStrategy := fallback_of ns dns; rules := []; expectIPs := []; fakeDNS := None |},
      {| ns_Address := ns_Address ns; ns_ClientIp := clientIP_of ns dns; ns_Tag := tag_of ns dns random;
         PrioritizedDomain := PrioritizedDomain ns ++ (if local then localTLDsAndDotlessDomains else []);
         ns_Geoip := ns_Geoip ns;
         OriginalRules := OriginalRules ns ++ (if local then [localTLDsAndDotlessDomainsRule] else []);
         ns_FakeDns := fakeDns_of ns dns (toIPOption q); SkipFallback := SkipFallback ns;
         ns_QueryStrategy := Some q; ns_CacheStrategy := Some (cache_of ns dns);
         ns_FallbackStrategy := Some (fallback_of ns dns) |}).

Definition NewLocalDNSClient : Client :=
  {| server := LocalNameServer; clientIP := []; tag := []; queryStrategy := mkOpt false false false;
     cacheStrategy := CacheEnabled; fallbackStrategy := Fallback_Enabled; rules := []; expectIPs := [];
     fakeDNS := None |}.

Fixpoint matched_ips (expectIPs : list GeoIPMatcher) (ips : list bytes) : list bytes :=
  match ips with
  | [] => []
  | ip :: ips' =>
    if existsb (fun matcher => geo_Match matcher ip) expectIPs then ip :: matched_ips expectIPs ips'
    else matched_ips expectIPs ips'
  end.

Definition MatchExpectedIPs (c : Client) (ips : list bytes) : list bytes * option error :=
  match expectIPs c with
  | [] => (ips, None)
  | _ =>
    match matched_ips (expectIPs c) ips with
    | [] => ([], Some errExpectedIPNonMatch)
    | newIps => (newIps, None)
    end
  end.

(** ** dns.go: the state *)
Record DomainMatcherInfo := mkInfo { clientIdx : Z; domainRuleIdx : Z }.   (* uint16 *)

(** fakeHolders and fakeDefault of the engine. *)
Record FakeDNSEngine := mkEngine { fakeHolders : HolderMulti; fakeDefault : option HolderMulti }.

Record DNS := mkDNS {
  hosts : StaticHosts;
  clients : list Client;
  clientTags : list bytes;
  fakeDNSEngine : option FakeDNSEngine;
  domainMatcher : IndexMatcher;
  matcherInfos : list DomainMatcherInfo;
}.

Definition index_Match (x : IndexMatcher) (domain : bytes) : res (list Z) :=
  match x with
  | Linear g => or_panic (Linear_Match MatchString (S (length domain)) g domain)
  | Mph g => or_panic (ix_Match MatchString strhash g domain)
  end.

(** [Add] with the index it returns. *)
Definition index_AddIdx (m : Matcher Regexp) (x : IndexMatcher) : res (IndexMatcher * Z) :=
  match x with
  | Linear g => or_panic ('(g, i) ← Add m g; Some (Linear g, i))
  | Mph g => or_panic ('(g, i) ← ix_Add m g; Some (Mph g, i))
  end.

(** ** establishDomainRules *)
Record rule_loop := mkLoop {
  l_matcher : IndexMatcher;
  l_infos : list DomainMatcherInfo;
  l_rules : list bytes;
  ruleCurr : nat;
  ruleIter : Z;
}.

Definition rule_String (m : Matcher Regexp) : bytes :=
  match m with
  | FullMatcher p => lit "full:" ++ p
  | DomainMatcher p => lit "domain:" ++ p
  | SubstrMatcher p => lit "keyword:" ++ p
  | RegexMatcher r => lit "regexp:" ++ Regexp_String r
  end.

(** The name of the rule a domain belongs to: the original one at its first
    domain, or one of its own. *)
Definition next_rule (ns : NameServer) (domainRule : Matcher Regexp) (l : rule_loop) : list bytes * nat * Z :=
  match OriginalRules ns !! ruleCurr l with
  | Some rule =>
    let rules := if decide (length (l_rules l) <= ruleCurr l)%nat then l_rules l ++ [Rule rule] else l_rules l in
    if Rule_Size rule <=? ruleIter l + 1 then (rules, S (ruleCurr l), 0) else (rules, ruleCurr l, ruleIter l + 1)
  | None => (l_rules l ++ [rule_String domainRule], S (ruleCurr l), ruleIter l)
  end.

Definition add_rule (clientIdx : nat) (ns : NameServer) (domain : PriorityDomain) (l : rule_loop) : res rule_loop :=
  domainRule ← based "failed to create prioritized domain" (toStrMatcher (pd_Type domain) (pd_Domain domain));
  let '(rules, curr, iter) := next_rule ns domainRule l in
  '(x, midx) ← index_AddIdx domainRule (l_matcher l);
  _ ← or_panic (index (l_infos l) midx);
  Ok {| l_matcher := x;
        l_infos := <[Z.to_nat midx := mkInfo (u16 (Z.of_nat clientIdx)) (u16 (Z.of_nat (ruleCurr l)))]> (l_infos l);
        l_rules := rules; ruleCurr := curr; ruleIter := iter |}.

Fixpoint add_rules (clientIdx : nat) (ns : NameServer) (domains : list PriorityDomain) (l : rule_loop) : res rule_loop :=
  match domains with
  | [] => Ok l
  | d :: domains' => l ← add_rule clientIdx ns d l; add_rules clientIdx ns domains' l
  end.

(** The loop over the name servers, the first at the client [i]; with the names
    of the rules of each. *)
Fixpoint rules_loop (nss : list NameServer) (i : nat) (x : IndexMatcher) (infos : list DomainMatcherInfo)
    : res (IndexMatcher * list DomainMatcherInfo * list (list bytes)) :=
  match nss with
  | [] => Ok (x, infos, [])
  | ns :: nss' =>
    l ← add_rules i ns (PrioritizedDomain ns) (mkLoop x infos [] 0 0);
    '(x, infos, names) ← rules_loop nss' (S i) (l_matcher l) (l_infos l);
    Ok (x, infos, l_rules l :: names)
  end.

Definition rule_count (nss : list NameServer) : nat := sum_list (map (fun ns => length (PrioritizedDomain ns)) nss).

Definition establishDomainRules (matcherType : bytes) (nss : list NameServer) (first : nat)
    : res (IndexMatcher * list DomainMatcherInfo * list (list bytes)) :=
  '(x, infos, names) ← rules_loop nss first (NewIndex matcherType) (replicate (S (rule_count nss)) (mkInfo 0 0));
  x ← index_Build x;
  Ok (x, infos, names).

(** ** establishExpectedIPs: the matchers of each name server *)
Fixpoint expected_of (geoips : list GeoIP) : ST (list GeoIPMatcher) (list GeoIPMatcher) :=
  match geoips with
  | [] => mret []
  | g :: geoips' =>
    m ← st_base "failed to create ip matcher" (container_Add g); ms ← expected_of geoips'; mret (m :: ms)
  end.

Fixpoint establishExpectedIPs (nss : list NameServer) : ST (list GeoIPMatcher) (list (list GeoIPMatcher)) :=
  match nss with
  | [] => mret []
  | ns :: nss' => ms ← expected_of (ns_Geoip ns); rest ← establishExpectedIPs nss'; mret (ms :: rest)
  end.

(** ** establishFakeDNS: the holders of each name server; all of them are added
    to those of the engine. *)
Definition pools_of (p : option (list FakeDnsPool)) : ST (heap * HolderMulti) (option HolderMulti) :=
  match p with
  | None => mret None
  | Some pools => h ← st_base "fail to create fake dns" (AddPoolMulti pools); mret (Some h)
  end.

Fixpoint fake_loop (nss : list NameServer) : ST (heap * HolderMulti) (list (option HolderMulti)) :=
  match nss with
  | [] => mret []
  | ns :: nss' => h ← pools_of (ns_FakeDns ns); rest ← fake_loop nss'; mret (h :: rest)
  end.

Definition establishFakeDNS (config : Config) (nss : list NameServer)
    : ST (heap * HolderMulti) (option FakeDNSEngine * list (option HolderMulti)) := fun x =>
  match (default_ ← pools_of (cf_FakeDns config); fakes ← fake_loop nss; mret (default_, fakes)) x with
  | ((s, []), Ok (_, fakes)) => ((s, []), Ok (None, fakes))
  | ((s, h), Ok (default_, fakes)) => ((s, h), Ok (Some {| fakeHolders := h; fakeDefault := default_ |}, fakes))
  | (x, Err e) => (x, Err e)
  | (x, Panic) => (x, Panic)
  end.

(** ** New *)
Fixpoint legacy_clients (endpoints : list Endpoint) (config : Config) (k : nat) : res (list Client) :=
  match endpoints with
  | [] => Ok []
  | endpoint :: endpoints' =>
    let ns := {| ns_Address := endpoint; ns_ClientIp := []; ns_Tag := []; PrioritizedDomain := []; ns_Geoip := [];
                 OriginalRules := []; ns_FakeDns := None; SkipFallback := false; ns_QueryStrategy := None;
                 ns_CacheStrategy := None; ns_FallbackStrategy := None |} in
    '(c, _) ← based "failed to create client" (NewClient ns config (randomTag k));
    rest ← legacy_clients endpoints' config (S k);
    Ok (c :: rest)
  end.

Fixpoint new_clients (nss : list NameServer) (config : Config) (k : nat) : res (list (Client * NameServer)) :=
  match nss with
  | [] => Ok []
  | ns :: nss' =>
    x ← based "failed to create client" (NewClient ns config (randomTag k));
    rest ← new_clients nss' config (S k);
    Ok (x :: rest)
  end.

(** A client of [config.NameServer] with what the three functions establish. *)
Definition establish (c : Client) (names : list bytes) (expected : list GeoIPMatcher) (fake : option HolderMulti) : Client :=
  {| server := server c; clientIP := clientIP c; tag := tag c;
     queryStrategy :=
       match fake with
       | Some _ => {| IPv4Enable := IPv4Enable (queryStrategy c); IPv6Enable := IPv6Enable (queryStrategy c); FakeEnable := true |}
       | None => queryStrategy c
       end;
     cacheStrategy := cacheStrategy c; fallbackStrategy := fallbackStrategy c;
     rules := names; expectIPs := expected; fakeDNS := fake |}.

Fixpoint established (cs : list Client) (names : list (list bytes)) (expected : list (list GeoIPMatcher))
    (fakes : list (option HolderMulti)) : list Client :=
  match cs, names, expected, fakes with
  | c :: cs, n :: names, e :: expected, f :: fakes => establish c n e f :: established cs names expected fakes
  | _, _, _, _ => []
  end.

(** The error of the run of a step whose state is dropped. *)
Definition st_run {S A} (f : ST S A) (s : S) : res A := (f s).2.

Definition New (config : Config) (s : heap) : heap * res DNS :=
  let fail {A} (r : res A) := match r with Err e => Err e | _ => Panic end in
  match (hosts ← based "failed to create hosts" (NewStaticHosts (cf_StaticHosts config) (cf_Hosts config));
         legacy ← legacy_clients (NameServers config) config 0;
         cs ← new_clients (cf_NameServer config) config (length legacy);
         rs ← establishDomainRules (cf_DomainMatcher config) (map snd cs) (length legacy);
         expected ← st_run (establishExpectedIPs (map snd cs)) [];
         Ok (hosts, legacy, cs, rs, expected)) with
  | Ok (hosts, legacy, cs, (x, infos, names), expected) =>
    match establishFakeDNS config (map snd cs) (s, []) with
    | ((s, _), Ok (e, fakes)) =>
      let clients :=
        match legacy ++ established (map fst cs) names expected fakes with
        | [] => [NewLocalDNSClient]
        | clients => clients
        end in
      (s, Ok {| hosts := hosts; clients := clients; clientTags := map tag clients; fakeDNSEngine := e;
                domainMatcher := x; matcherInfos := infos |})
    | ((s, _), r) => (s, fail r)
    end
  | r => (s, fail r)
  end.

(** ** sortClients *)
Definition skip_fake (option : IPOption) (c : Client) : bool := negb (FakeEnable option) && isFakeDNS (server c).

(** The loop over the matches; [used] is [clientUsed], [acc] the clients so far. *)
Fixpoint matched_clients (s : DNS) (option : IPOption) (ms : list Z) (used : list bool) (acc : list nat)
    : res (list bool * list nat) :=
  match ms with
  | [] => Ok (used, acc)
  | m :: ms' =>
    info ← or_panic (index (matcherInfos s) m);
    client ← or_panic (index (clients s) (clientIdx info));
    _ ← or_panic (index (rules client) (domainRuleIdx info));
    u ← or_panic (index used (clientIdx info));
    if u || skip_fake option client then matched_clients s option ms' used acc
    else matched_clients s option ms' (<[Z.to_nat (clientIdx info) := true]> used) (acc ++ [Z.to_nat (clientIdx info)])
  end.

(** The round robin over the rest, from the client [idx]. *)
Fixpoint fallback_clients (option : IPOption) (hasDomainMatch : bool) (cs : list Client) (idx : nat)
    (used : list bool) : list nat :=
  match cs with
  | [] => []
  | client :: cs' =>
    if default false (used !! idx) || skip_fake option client
       || bool_decide (fallbackStrategy client = Fallback_Disabled)
       || (bool_decide (fallbackStrategy client = Fallback_DisabledIfAnyMatch) && hasDomainMatch)
    then fallback_clients option hasDomainMatch cs' (S idx) used
    else idx :: fallback_clients option hasDomainMatch cs' (S idx) used
  end.

Definition sortClients (s : DNS) (domain : bytes) (option : IPOption) : res (list nat) :=
  ms ← index_Match (domainMatcher s) domain;
  '(used, matched) ← matched_clients s option ms (replicate (length (clients s)) false) [];
  Ok (matched ++ fallback_clients option (negb (bool_decide (matched = []))) (clients s) 0 used).

(** ** fakedns.go: the engine of the application *)
Definition the_client (s : DNS) (i : nat) : res Client := or_panic (clients s !! i).

(** A [HolderMulti] on the heap; a search that does not end within the rounds of
    the class is a panic. *)
Definition holders_IP3 (h : HolderMulti) (domain : bytes) (ipv4 ipv6 : bool)
    : ST state (list (option Address)) := fun '(s, w) =>
  match Multi_GetFakeIPForDomain3 fake_rounds domain ipv4 ipv6 h s with
  | Some (s, x) => ((s, w), x)
  | None => ((s, w), Panic)
  end.

(** The first client that has a FakeDNS server answers, else the default pools. *)
Fixpoint engine_loop (s : DNS) (order : list nat) (domain : bytes) (v4 v6 : bool)
    : ST state (list (option Address)) :=
  match order with
  | [] =>
    match fakeDNSEngine s with
    | Some {| fakeDefault := Some h |} => holders_IP3 h domain v4 v6
    | _ => mret []
    end
  | i :: order' =>
    client ← st_lift (the_client s i);
    match fakeDNS client with
    | Some h => holders_IP3 h domain v4 v6
    | None => engine_loop s order' domain v4 v6
    end
  end.

Definition Engine_GetFakeIPForDomain3 (s : DNS) (domain : bytes) (v4 v6 : bool) : ST state (list (option Address)) :=
  order ← st_lift (sortClients s domain (mkOpt v4 v6 true));
  engine_loop s order domain v4 v6.

Definition Engine_GetFakeIPForDomain (s : DNS) (domain : bytes) := Engine_GetFakeIPForDomain3 s domain true true.

Definition on_heap {A} (f : ST heap A) : ST state A := fun '(s, w) => let '(s, x) := f s in ((s, w), x).

Definition Engine_GetDomainFromFakeDNS (e : FakeDNSEngine) (ip : Address) : ST state bytes :=
  on_heap (Multi_GetDomainFromFakeDNS (fakeHolders e) ip).
Definition Engine_IsIPInIPPool (e : FakeDNSEngine) (ip : Address) : ST state bool :=
  on_heap (Multi_IsIPInIPPool (fakeHolders e) ip).
Definition Engine_Start (e : FakeDNSEngine) : ST state unit := on_heap (Multi_Start (fakeHolders e)).
Definition Engine_Close (e : FakeDNSEngine) : ST state unit := on_heap (Multi_Close (fakeHolders e)).

(** ** Queries *)
Definition FakeDNSServer_QueryIP (s : DNS) (e : engine) (domain : bytes) (opt : IPOption) : ST state answer :=
  if negb (FakeEnable opt) then mret ([], None)
  else
    ips ← match e with
          | Holders_ h => holders_IP3 h domain (IPv4Enable opt) (IPv6Enable opt)
          | Application => Engine_GetFakeIPForDomain3 s domain (IPv4Enable opt) (IPv6Enable opt)
          end;
    match toNetIP ips with
    | Ok [] => mret ([], Some ErrEmptyResponse)
    | Ok netIP => mret (netIP, None)
    | Err e => mret ([], Some (Based "Unable to convert IP to net ip" e))
    | Panic => st_panic
    end.

(** [server.QueryIP] through the interface. *)
Definition Server_QueryIP (s : DNS) (srv : Server) (domain clientIP : bytes) (option : IPOption) (disableCache : bool)
    : ST state answer :=
  match srv with
  | FakeDNSServer e => FakeDNSServer_QueryIP s e domain option
  | _ => fun '(h, w) => let '(w, x) := query srv domain clientIP option disableCache w in ((h, w), Ok x)
  end.

Definition QueryIP (s : DNS) (c : Client) (domain : bytes) (option : IPOption) : ST state answer :=
  let queryOption := With option (queryStrategy c) in
  if negb (Option_IsValid queryOption) then mret ([], Some ErrEmptyResponse)
  else
    let srv := match fakeDNS c with
               | Some h => if FakeEnable queryOption then FakeDNSServer (Holders_ h) else server c
               | None => server c
               end in
    '(ips, err) ← Server_QueryIP s srv domain (clientIP c) queryOption (bool_decide (cacheStrategy c = CacheDisabled));
    mret (match err with
          | Some _ => (ips, err)
          | None => if FakeEnable queryOption then (ips, err) else MatchExpectedIPs c ips
          end).

(** ** The lookup *)
Definition TrimSuffix_dot (domain : bytes) : bytes :=
  if HasSuffix domain [dot] then take (length domain - 1) domain else domain.

(** The errors after which the next client is asked. *)
Definition goes_on (e : error) : bool :=
  bool_decide (e = Canceled) || bool_decide (e = DeadlineExceeded) || bool_decide (e = errExpectedIPNonMatch).

(** The loop over the clients; [errs] counts the errors so far.  An empty answer
    without an error ends the lookup, without one. *)
Fixpoint query_clients (s : DNS) (order : list nat) (domain : bytes) (option : IPOption) (errs : nat)
    : ST state (list bytes) :=
  match order with
  | [] => st_err (if decide (errs = 0)%nat then ErrEmptyResponse
                  else Based "returning nil for domain " (NewError "Multierr: "))
  | i :: order' =>
    client ← st_lift (the_client s i);
    '(ips, err) ← QueryIP s client domain option;
    match ips, err with
    | _ :: _, _ => mret ips
    | [], None => mret []
    | [], Some e => if goes_on e then query_clients s order' domain option (S errs) else st_err e
    end
  end.

Definition name_servers (s : DNS) (domain : bytes) (option : IPOption) : ST state (list bytes) :=
  order ← st_lift (sortClients s domain option); query_clients s order domain option 0.

Definition lookupIPInternal (s : DNS) (domain : bytes) (option : IPOption) : ST state (list bytes) :=
  match domain with
  | [] => st_err (NewError "empty domain name")
  | _ =>
    let domain := TrimSuffix_dot domain in
    addrs ← st_lift (Lookup (hosts s) domain option);
    match addrs with
    | None => name_servers s domain option
    | Some [] => st_err ErrEmptyResponse
    | Some [domainAddress d] => name_servers s d option
    | Some addrs => st_lift (toNetIP (map Some addrs))
    end
  end.

Definition LookupIP_ (s : DNS) (domain : bytes) := lookupIPInternal s domain (mkOpt true true false).
Definition LookupIPv4 (s : DNS) (domain : bytes) := lookupIPInternal s domain (mkOpt true false false).
Definition LookupIPv6 (s : DNS) (domain : bytes) := lookupIPInternal s domain (mkOpt false true false).

(** The client with FakeDNS of fakedns.go. *)
Definition Fake_LookupIP (s : DNS) (domain : bytes) := lookupIPInternal s domain (mkOpt true true true).
Definition Fake_LookupIPv4 (s : DNS) (domain : bytes) := lookupIPInternal s domain (mkOpt true false true).
Definition Fake_LookupIPv6 (s : DNS) (domain : bytes) := lookupIPInternal s domain (mkOpt false true true).

(** [LookupIPWithOption] of features/dns/client.go on this client. *)
Definition LookupIPWithOption (s : DNS) (domain : bytes) (option : IPOption) : ST state (list bytes) :=
  if IPv4Enable option && negb (IPv6Enable option)
  then (if FakeEnable option then Fake_LookupIPv4 else LookupIPv4) s domain
  else if IPv6Enable option && negb (IPv4Enable option)
  then (if FakeEnable option then Fake_LookupIPv6 else LookupIPv6) s domain
  else (if FakeEnable option then Fake_LookupIP else LookupIP_) s domain.

Definition IsOwnLink (s : DNS) (inbound_tag : Datatypes.option bytes) : bool :=
  match inbound_tag with None => false | Some t => bool_decide (t ∈ clientTags s) end.
End Model.
End Dns.
