(* ===== verification/DnsSpec.v ===== *)
(** * Package app/dns: which clients a lookup asks, and whose answer it returns

    [New] ties every prioritized domain to its client in the index of the string
    matchers, so [sortClients] cannot go wrong: it orders the clients as the
    configuration says.  The lookup returns what a client of that order
    answered. *)
From S2P Require Import Prelude GoStd GoText NetAddr FakeDns FakeDnsMulti StrMatch StrIndex RouteCond DnsHosts Dns.
Import NetAddr FakeDns FakeDnsMulti StrMatch StrIndex RouteCond DnsHosts Dns.

Section Order.
Context {E : RouteEnv} {D : DnsEnv}.

(** A domain rule as the index knows it: client, rule of the client, matcher. *)
Record entry := mkEntry { e_client : nat; e_rule : nat; e_matcher : Matcher Regexp }.

Definition info_of (e : entry) : DomainMatcherInfo := mkInfo (u16 (Z.of_nat (e_client e))) (u16 (Z.of_nat (e_rule e))).

(** The linear index holds the matchers of the entries, the table their clients. *)
Record tied (es : list entry) (x : IndexMatcher) (infos : list DomainMatcherInfo) : Prop := {
  t_index : exists g, x = Linear g /\ linear_holds (indexed (map e_matcher es)) g;
  t_infos : forall k e, es !! k = Some e -> infos !! S k = Some (info_of e);
}.

(** The names of the rules so far cover the rule at hand. *)
Definition names_ok (ns : NameServer) (l : rule_loop) : Prop :=
  (ruleIter l = 0 /\ length (l_rules l) = ruleCurr l) \/
  (0 < ruleIter l /\ length (l_rules l) = S (ruleCurr l) /\ (ruleCurr l < length (OriginalRules ns))%nat).

Lemma next_rule_ok ns m l rules curr iter :
  names_ok ns l -> next_rule ns m l = (rules, curr, iter) ->
  names_ok ns (mkLoop (l_matcher l) (l_infos l) rules curr iter) /\
  (ruleCurr l < length rules)%nat /\ (length (l_rules l) <= length rules)%nat.
Proof.
  unfold next_rule, names_ok. intros Hl Hn. destruct (OriginalRules ns !! ruleCurr l) as [r|] eqn:Hr.
  - pose proof (lookup_lt_Some _ _ _ Hr) as Hlt.
    case_decide as Hd; destruct (Rule_Size r <=? ruleIter l + 1) eqn:Hs; simplify_eq; cbn; rewrite ?length_app; cbn; lia.
  - apply lookup_ge_None in Hr. simplify_eq. cbn. rewrite length_app. cbn. lia.
Qed.

Lemma indexed_app ms (m : Matcher Regexp) : indexed (ms ++ [m]) = indexed ms ++ [(m, zlen (indexed ms) + 1)].
Proof. unfold indexed. rewrite imap_app. cbn. unfold zlen. rewrite length_imap. do 3 f_equal. lia. Qed.

Lemma index_nat {A} (l : list A) (n : nat) : index l (Z.of_nat n) = l !! n.
Proof. unfold index. destruct (0 <=? Z.of_nat n) eqn:Hn; [by rewrite Nat2Z.id|lia]. Qed.

Lemma tied_add es x infos e :
  tied es x infos -> zlen es < 65536 -> (S (length es) < length infos)%nat ->
  exists x', index_AddIdx (e_matcher e) x = Ok (x', Z.of_nat (S (length es))) /\
    index infos (Z.of_nat (S (length es))) <> None /\
    tied (es ++ [e]) x' (<[S (length es) := info_of e]> infos).
Proof.
  intros [(g & -> & Hg) Hi] Hn Hlen.
  destruct (Add_holds _ g (e_matcher e) Hg) as (g' & Hadd & Hg').
  { unfold indexed, zlen in *. rewrite length_imap, length_map. lia. }
  assert (Hz : zlen (indexed (map e_matcher es)) + 1 = Z.of_nat (S (length es))).
  { unfold indexed, zlen in *. rewrite length_imap, length_map. lia. }
  exists (Linear g'). cbn [index_AddIdx]. rewrite Hadd, Hz. split; [done|]. split.
  { rewrite index_nat. by apply lookup_lt_is_Some in Hlen as [? ->]. }
  split.
  - exists g'. split; [done|]. rewrite map_app. cbn [map]. by rewrite indexed_app.
  - intros k e' Hk. destruct (decide (k = length es)) as [->|Hne].
    + rewrite list_lookup_middle in Hk by done. injection Hk as <-. by apply list_lookup_insert_eq.
    + rewrite lookup_app_l in Hk by (apply lookup_lt_Some in Hk; rewrite length_app in Hk; cbn in Hk; lia).
      rewrite list_lookup_insert_ne by lia. auto.
Qed.
(** The entry of a prioritized domain of the client [i]. *)
Definition entry_for (i : nat) (names : list bytes) (d : PriorityDomain) (e : entry) : Prop :=
  e_client e = i /\ toStrMatcher (pd_Type d) (pd_Domain d) = Ok (e_matcher e) /\ (e_rule e < length names)%nat.

Lemma entry_for_mono i names names' d e :
  (length names <= length names')%nat -> entry_for i names d e -> entry_for i names' d e.
Proof. intros ? (? & ? & ?). repeat split; [done..|lia]. Qed.

Lemma add_rule_tied i ns d es l l' :
  add_rule i ns d l = Ok l' -> tied es (l_matcher l) (l_infos l) -> names_ok ns l ->
  zlen es < 65536 -> (S (length es) < length (l_infos l))%nat ->
  exists e, tied (es ++ [e]) (l_matcher l') (l_infos l') /\ entry_for i (l_rules l') d e /\
    names_ok ns l' /\ length (l_infos l') = length (l_infos l) /\ (length (l_rules l) <= length (l_rules l'))%nat.
Proof.
  unfold add_rule. intros Hadd Ht Hn Hz Hlen.
  destruct (toStrMatcher (pd_Type d) (pd_Domain d)) as [m|er|] eqn:Hm; [|done..]. cbn [based mbind res_bind] in Hadd.
  destruct (next_rule ns m l) as [[rules curr] iter] eqn:Hnext.
  destruct (next_rule_ok ns m l rules curr iter Hn Hnext) as (Hn' & Hlt & Hle).
  destruct (tied_add es _ _ (mkEntry i (ruleCurr l) m) Ht Hz Hlen) as (x' & Hx & Hi & Ht'). cbn [e_matcher] in Hx.
  rewrite Hx in Hadd. cbn [mbind res_bind] in Hadd. destruct (index (l_infos l) _) as [?|]; [|done]. cbn [or_panic] in Hadd.
  injection Hadd as <-. cbn [l_matcher l_infos l_rules]. rewrite Nat2Z.id.
  exists (mkEntry i (ruleCurr l) m). split; [done|]. split; [done|]. split; [done|]. split; [|done]. by rewrite length_insert.
Qed.

Lemma add_rules_tied i ns ds es l l' :
  add_rules i ns ds l = Ok l' -> tied es (l_matcher l) (l_infos l) -> names_ok ns l ->
  zlen es + zlen ds <= 65536 -> (length es + length ds < length (l_infos l))%nat ->
  exists es', tied (es ++ es') (l_matcher l') (l_infos l') /\ Forall2 (entry_for i (l_rules l')) ds es' /\
    length (l_infos l') = length (l_infos l) /\ (length (l_rules l) <= length (l_rules l'))%nat.
Proof.
  revert es l. induction ds as [|d ds IH]; intros es l Hadd Ht Hn Hz Hlen; cbn [add_rules] in Hadd.
  - injection Hadd as <-. exists []. rewrite app_nil_r. auto.
  - destruct (add_rule i ns d l) as [l1|er|] eqn:H1; [|done..]. cbn [mbind res_bind] in Hadd. rewrite zlen_cons in Hz. cbn [length] in Hlen.
    destruct (add_rule_tied i ns d es l l1 H1 Ht Hn) as (e & Ht1 & He & Hn1 & Hi1 & Hr1); [pose proof (zlen_nonneg ds); lia|lia|].
    destruct (IH (es ++ [e]) l1 Hadd Ht1 Hn1) as (es' & Ht' & Hes & Hi' & Hr').
    { rewrite zlen_app, zlen_cons, zlen_nil. lia. }
    { rewrite length_app, Hi1. cbn. lia. }
    exists (e :: es'). rewrite <- app_assoc in Ht'. split; [done|]. split; [|split; lia].
    constructor; [by eapply entry_for_mono|done].
Qed.

(** The entries are those of the prioritized domains, client by client. *)
Definition entries_of (first : nat) (nss : list NameServer) (names : list (list bytes)) (es : list entry) : Prop :=
  length names = length nss /\
  (forall e, e ∈ es -> exists k ns ns_names d, nss !! k = Some ns /\ names !! k = Some ns_names /\
     d ∈ PrioritizedDomain ns /\ entry_for (first + k) ns_names d e) /\
  (forall k ns d, nss !! k = Some ns -> d ∈ PrioritizedDomain ns ->
     exists e, e ∈ es /\ e_client e = (first + k)%nat /\ toStrMatcher (pd_Type d) (pd_Domain d) = Ok (e_matcher e)).

Lemma entries_cons first ns nss ns_names names es es' :
  Forall2 (entry_for first ns_names) (PrioritizedDomain ns) es -> entries_of (S first) nss names es' ->
  entries_of first (ns :: nss) (ns_names :: names) (es ++ es').
Proof.
  intros Hes (Hl & Hin & Hall). split; [cbn; lia|]. split.
  - intros e [He|He]%elem_of_app.
    + apply list_elem_of_lookup in He as [j Hj]. destruct (Forall2_lookup_r _ _ _ _ _ Hes Hj) as (d & Hd & Hf).
      exists 0%nat, ns, ns_names, d. rewrite Nat.add_0_r. repeat split; try done; try apply Hf. by eapply list_elem_of_lookup_2.
    + destruct (Hin e He) as (k & ns' & nm & d & ? & ? & ? & Hf). exists (S k), ns', nm, d. by rewrite Nat.add_succ_r.
  - intros [|k] ns' d Hk Hd.
    + cbn in Hk. injection Hk as <-. apply list_elem_of_lookup in Hd as [j Hj].
      destruct (Forall2_lookup_l _ _ _ _ _ Hes Hj) as (e & He & Hf). exists e. rewrite Nat.add_0_r.
      split; [apply elem_of_app; left; by eapply list_elem_of_lookup_2|]. split; apply Hf.
    + destruct (Hall k ns' d Hk Hd) as (e & He & Hc & Hm). exists e. rewrite Nat.add_succ_r.
      split; [apply elem_of_app; by right|done].
Qed.

Lemma rules_loop_tied nss i x infos es x' infos' names :
  rules_loop nss i x infos = Ok (x', infos', names) -> tied es x infos ->
  zlen es + Z.of_nat (rule_count nss) <= 65536 -> (length es + rule_count nss < length infos)%nat ->
  exists es', tied (es ++ es') x' infos' /\ entries_of i nss names es' /\ length es' = rule_count nss.
Proof.
  revert i x infos es names. induction nss as [|ns nss IH]; intros i x infos es names Hloop Ht Hz Hlen; cbn [rules_loop] in Hloop.
  - injection Hloop as <- <- <-. exists []. rewrite app_nil_r. split; [done|]. split; [|done].
    split; [done|]. split; [by intros e ?%elem_of_nil|done].
  - unfold rule_count in *. cbn [map sum_list] in *. unfold id in *.
    destruct (add_rules i ns _ _) as [l|er|] eqn:H1; [|done..]. cbn [mbind res_bind] in Hloop.
    destruct (add_rules_tied i ns _ es _ _ H1 Ht) as (es1 & Ht1 & Hes1 & Hi1 & _);
      [by left|unfold zlen in *; lia|cbn [l_infos]; lia|]. cbn [l_infos] in Hi1.
    pose proof (Forall2_length _ _ _ Hes1) as Hl1.
    destruct (rules_loop nss (S i) _ _) as [[[x2 infos2] names2]|er|] eqn:H2; [|done..]. cbn [mbind res_bind] in Hloop.
    injection Hloop as <- <- <-.
    destruct (IH _ _ _ _ _ H2 Ht1) as (es2 & Ht2 & Hes2 & Hl2); [rewrite zlen_app; unfold zlen in *; lia|rewrite length_app; lia|].
    exists (es1 ++ es2). rewrite app_assoc. split; [done|]. split; [by apply entries_cons|]. rewrite length_app. lia.
Qed.

Definition default_matcher (t : bytes) : Prop := t <> lit "mph" /\ t <> lit "hybrid".

Lemma establish_tied t nss first x infos names :
  establishDomainRules t nss first = Ok (x, infos, names) -> default_matcher t -> Z.of_nat (rule_count nss) <= 65536 ->
  exists es, tied es x infos /\ entries_of first nss names es /\ length es = rule_count nss.
Proof.
  unfold establishDomainRules, NewIndex. intros Hest [H1 H2] Hz. rewrite !bool_decide_false in Hest by done. cbn [orb] in Hest.
  destruct (rules_loop nss first _ _) as [[[x1 infos1] names1]|er|] eqn:Hl; [|done..]. cbn [mbind res_bind] in Hest.
  destruct (rules_loop_tied nss first _ _ [] _ _ _ Hl) as (es & Ht & Hes & Hlen).
  - split; [|done]. exists NewLinearIndexMatcher. split; [done|]. apply linear_holds_new.
  - by rewrite zlen_nil.
  - rewrite length_replicate. cbn. lia.
  - destruct Ht as [(g & -> & Hg) Hi]. cbn [index_Build mbind res_bind] in Hest. injection Hest as <- <- <-.
    exists es. split; [|done]. split; [by exists g|done].
Qed.

(** ** The order of the clients *)

(** The tables of a DNS: its entries lead to clients and their rules. *)
Record ready (s : DNS) (es : list entry) : Prop := {
  r_tied : tied es (domainMatcher s) (matcherInfos s);
  r_small : zlen (clients s) <= 65536;
  r_entry : forall e, e ∈ es -> exists c, clients s !! e_client e = Some c /\ (e_rule e < length (rules c))%nat;
}.

(** The clients used are those of the list. *)
Record marks (n : nat) (used : list bool) (acc : list nat) : Prop := {
  m_length : length used = n;
  m_used : forall i, used !! i = Some true <-> i ∈ acc;
  m_nodup : NoDup acc;
}.

Lemma marks_new n : marks n (replicate n false) [].
Proof.
  split; [apply length_replicate| |constructor]. intros i. rewrite lookup_replicate, elem_of_nil. naive_solver.
Qed.

Lemma marks_add n used acc i :
  marks n used acc -> used !! i = Some false -> marks n (<[i := true]> used) (acc ++ [i]).
Proof.
  intros [Hl Hu Hn] Hi. split.
  - by rewrite length_insert.
  - intros j. rewrite elem_of_app, list_elem_of_singleton. destruct (decide (j = i)) as [->|Hne].
    + rewrite list_lookup_insert_eq by (by eapply lookup_lt_Some). naive_solver.
    + rewrite list_lookup_insert_ne by done. rewrite Hu. naive_solver.
  - apply NoDup_app. split; [done|]. split; [|apply NoDup_singleton].
    intros j Hj%Hu ->%list_elem_of_singleton. congruence.
Qed.

(** The client [i] has an entry the match [m] leads to, and may be asked. *)
Definition led (s : DNS) (option : IPOption) (es : list entry) (m : Z) (i : nat) : Prop :=
  exists e c, es !! Z.to_nat (m - 1) = Some e /\ e_client e = i /\ clients s !! i = Some c /\ skip_fake option c = false.

Lemma matched_step s option es m ms used acc :
  ready s es -> 1 <= m <= zlen es -> marks (length (clients s)) used acc ->
  exists used' acc', matched_clients s option (m :: ms) used acc = matched_clients s option ms used' acc' /\
    marks (length (clients s)) used' acc' /\ forall i, i ∈ acc' <-> i ∈ acc \/ led s option es m i.
Proof.
  intros [[_ Hi] Hsmall He] Hm Hmk.
  destruct (lookup_lt_is_Some_2 es (Z.to_nat (m - 1))) as [e Hk]; [unfold zlen in Hm; lia|].
  destruct (He e) as (c & Hc & Hr); [by eapply list_elem_of_lookup_2|].
  pose proof (Hi _ _ Hk) as Hinfo. replace (S (Z.to_nat (m - 1))) with (Z.to_nat m) in Hinfo by lia.
  pose proof (lookup_lt_Some _ _ _ Hc) as Hlt.
  assert (Hci : clientIdx (info_of e) = Z.of_nat (e_client e)) by (apply u16_small; unfold zlen in Hsmall; lia).
  assert (Hri : exists n, index (rules c) (domainRuleIdx (info_of e)) = Some n).
  { apply index_ok. cbn [domainRuleIdx info_of]. unfold zlen, u16.
    pose proof (Z.mod_pos_bound (Z.of_nat (e_rule e)) (2 ^ 16) ltac:(lia)).
    pose proof (Z.mod_le (Z.of_nat (e_rule e)) (2 ^ 16) ltac:(lia) ltac:(lia)). lia. }
  destruct Hri as [n Hn].
  destruct (lookup_lt_is_Some_2 used (e_client e)) as [u Hu]; [by rewrite (m_length _ _ _ Hmk)|].
  cbn [matched_clients]. assert (Hix : index (matcherInfos s) m = Some (info_of e)) by (apply index_Some; split; [lia|done]). rewrite Hix. cbn [or_panic mbind res_bind].
  rewrite Hci, !index_nat, Hc. cbn [or_panic mbind res_bind]. rewrite Hn. cbn [or_panic mbind res_bind].
  rewrite Hu. cbn [or_panic mbind res_bind]. rewrite Nat2Z.id.
  assert (Hled : forall i, led s option es m i <-> i = e_client e /\ skip_fake option c = false).
  { intros i. unfold led. split; [intros (e' & c' & ? & <- & ? & ?); simplify_eq; by split|].
    intros [-> ?]. by exists e, c. }
  destruct u; [|destruct (skip_fake option c) eqn:Hf]; cbn [orb].
  - exists used, acc. split; [done|]. split; [done|]. intros i. rewrite Hled. split; [by left|].
    intros [?|[-> _]]; [done|]. by apply (m_used _ _ _ Hmk).
  - exists used, acc. split; [done|]. split; [done|]. intros i. rewrite Hled. naive_solver.
  - eexists _, _. split; [done|]. split; [by apply marks_add|]. intros i.
    rewrite Hled, elem_of_app, list_elem_of_singleton. naive_solver.
Qed.

Lemma matched_spec s option es ms used acc :
  ready s es -> (forall m, m ∈ ms -> 1 <= m <= zlen es) -> marks (length (clients s)) used acc ->
  exists used' acc', matched_clients s option ms used acc = Ok (used', acc') /\
    marks (length (clients s)) used' acc' /\
    forall i, i ∈ acc' <-> i ∈ acc \/ exists m, m ∈ ms /\ led s option es m i.
Proof.
  intros Hs. revert used acc. induction ms as [|m ms IH]; intros used acc Hms Hmk.
  - exists used, acc. split; [done|]. split; [done|]. intros i. setoid_rewrite elem_of_nil. naive_solver.
  - destruct (matched_step s option es m ms used acc Hs) as (u1 & a1 & -> & Hm1 & Ha1); [apply Hms; by left|done|].
    destruct (IH u1 a1) as (u2 & a2 & -> & Hm2 & Ha2); [intros; apply Hms; by right|done|].
    exists u2, a2. split; [done|]. split; [done|]. intros i. rewrite Ha2, Ha1. setoid_rewrite elem_of_cons.
    clear -m. naive_solver.
Qed.

(** A client of the second round. *)
Definition falls_back (option : IPOption) (hasMatch : bool) (c : Client) : Prop :=
  skip_fake option c = false /\ fallbackStrategy c <> Fallback_Disabled /\
  (fallbackStrategy c = Fallback_DisabledIfAnyMatch -> hasMatch = false).

Lemma falls_back_test option hasMatch c u :
  u || skip_fake option c || bool_decide (fallbackStrategy c = Fallback_Disabled)
    || (bool_decide (fallbackStrategy c = Fallback_DisabledIfAnyMatch) && hasMatch) = false <->
  u = false /\ falls_back option hasMatch c.
Proof.
  unfold falls_back. rewrite !orb_false_iff, andb_false_iff, !bool_decide_eq_false.
  destruct (decide (fallbackStrategy c = Fallback_DisabledIfAnyMatch)); naive_solver.
Qed.

Lemma fallback_spec option hasMatch cs idx used :
  StronglySorted lt (fallback_clients option hasMatch cs idx used) /\
  forall i, i ∈ fallback_clients option hasMatch cs idx used <->
    (idx <= i)%nat /\ used !! i <> Some true /\ exists c, cs !! (i - idx)%nat = Some c /\ falls_back option hasMatch c.
Proof.
  revert idx. induction cs as [|c cs IH]; intros idx.
  { split; [constructor|]. intros i. cbn [fallback_clients]. rewrite elem_of_nil.
    split; [done|]. intros (_ & _ & ? & ? & _). done. }
  destruct (IH (S idx)) as [Hs Hin]. cbn [fallback_clients].
  assert (Hrest : forall i, (S idx <= i)%nat -> (c :: cs) !! (i - idx)%nat = cs !! (i - S idx)%nat).
  { intros i ?. by replace (i - idx)%nat with (S (i - S idx)) by lia. }
  assert (Hu : default false (used !! idx) = false <-> used !! idx <> Some true).
  { destruct (used !! idx) as [[]|]; cbn; naive_solver. }
  pose proof (falls_back_test option hasMatch c (default false (used !! idx))) as Ht.
  destruct (_ || _ || _ || _) eqn:Htest.
  - split; [done|]. intros i. rewrite Hin. split.
    + intros (? & ? & ?). split; [lia|]. rewrite Hrest by lia. done.
    + intros (Hle & Hus & c' & Hc' & Hf). destruct (decide (i = idx)) as [->|].
      * rewrite Nat.sub_diag in Hc'. injection Hc' as <-. apply Hu in Hus. pose proof (proj2 Ht (conj Hus Hf)). done.
      * rewrite Hrest in Hc' by lia. split; [lia|]. eauto.
  - destruct (proj1 Ht eq_refl) as [Hus%Hu Hf]. split.
    + constructor; [done|]. apply Forall_forall. intros j [? _]%Hin. lia.
    + intros i. rewrite elem_of_cons, Hin. split.
      * intros [->|(? & ? & ?)]; [|split; [lia|]; rewrite Hrest by lia; done].
        split; [done|]. split; [done|]. exists c. by rewrite Nat.sub_diag.
      * intros (Hle & Hus' & c' & Hc' & Hf'). destruct (decide (i = idx)); [by left|right].
        rewrite Hrest in Hc' by lia. split; [lia|]. eauto.
Qed.

(** ** What [New] makes *)

(** The domains a name server is preferred for, and those of the configuration. *)
Definition priorities (ns : NameServer) : list PriorityDomain :=
  PrioritizedDomain ns ++
  (if EqualFold (GetDomain (ep_Address (ns_Address ns))) (lit "localhost") then localTLDsAndDotlessDomains else []).

Definition total_rules (config : Config) : nat := sum_list (map (fun ns => length (priorities ns)) (cf_NameServer config)).

Lemma NewClient_priorities ns config random c ns' :
  NewClient ns config random = Ok (c, ns') -> PrioritizedDomain ns' = priorities ns.
Proof. unfold NewClient. destruct (NewServer _); [|done..]. by intros [= <- <-]. Qed.

Lemma new_clients_spec nss config k cs :
  new_clients nss config k = Ok cs -> map (fun x => PrioritizedDomain x.2) cs = map priorities nss.
Proof.
  revert k cs. induction nss as [|ns nss IH]; intros k cs; cbn [new_clients].
  - by intros [= <-].
  - destruct (NewClient ns config _) as [[c ns']| |] eqn:Hc; [|done..]. cbn [based mbind res_bind].
    destruct (new_clients nss config (S k)) as [rest| |] eqn:Hr; [|done..]. intros [= <-]. cbn [map snd].
    f_equal; [by eapply NewClient_priorities|by eapply IH].
Qed.

Lemma legacy_clients_length endpoints config k cs : legacy_clients endpoints config k = Ok cs -> length cs = length endpoints.
Proof.
  revert k cs. induction endpoints as [|e endpoints IH]; intros k cs; cbn [legacy_clients].
  - by intros [= <-].
  - destruct (NewClient _ config _) as [[c ns']| |]; [|done..]. cbn [based mbind res_bind].
    destruct (legacy_clients endpoints config (S k)) as [rest| |] eqn:Hr; [|done..]. intros [= <-]. cbn. f_equal. by eapply IH.
Qed.

(** A loop over a list that collects a result for each element. *)
Lemma establishExpectedIPs_length nss c ms : (establishExpectedIPs nss c).2 = Ok ms -> length ms = length nss.
Proof.
  revert c ms. induction nss as [|ns nss IH]; intros c ms; cbn [establishExpectedIPs].
  - by intros [= <-].
  - unfold mbind, st_bind. destruct (expected_of _ c) as [c1 [m| |]]; [|done..].
    specialize (IH c1). destruct (establishExpectedIPs nss c1) as [c2 [rest| |]]; [|done..].
    intros [= <-]. cbn. f_equal. by apply IH.
Qed.

Lemma fake_loop_length nss x fs : (fake_loop nss x).2 = Ok fs -> length fs = length nss.
Proof.
  revert x fs. induction nss as [|ns nss IH]; intros x fs; cbn [fake_loop].
  - by intros [= <-].
  - unfold mbind, st_bind. destruct (pools_of _ x) as [x1 [f| |]]; [|done..].
    specialize (IH x1). destruct (fake_loop nss x1) as [x2 [rest| |]]; [|done..].
    intros [= <-]. cbn. f_equal. by apply IH.
Qed.

Lemma establishFakeDNS_length config nss x y e fs :
  establishFakeDNS config nss x = (y, Ok (e, fs)) -> length fs = length nss.
Proof.
  unfold establishFakeDNS, mbind, st_bind. destruct (pools_of _ x) as [[s1 h1] [d| |]]; [|by destruct h1..].
  pose proof (fake_loop_length nss (s1, h1)) as Hl. destruct (fake_loop nss (s1, h1)) as [[s2 h2] [rest| |]]; [|by destruct h2..].
  destruct h2; intros [= <- <- <-]; by apply Hl.
Qed.

Lemma established_lookup cs names expected fakes k c ns_names :
  cs !! k = Some c -> names !! k = Some ns_names -> length expected = length cs -> length fakes = length cs ->
  exists e f, established cs names expected fakes !! k = Some (establish c ns_names e f).
Proof.
  revert names expected fakes k. induction cs as [|c' cs IH]; intros [|n names] [|e expected] [|f fakes] [|k] Hc Hn He Hf;
    try done; cbn in *; simplify_eq; eauto.
Qed.

(** The parts of a DNS that [New] made. *)
Lemma New_parts config h h' s :
  New config h = (h', Ok s) ->
  exists legacy cs x infos names expected fakes,
    length legacy = length (NameServers config) /\
    map (fun x => PrioritizedDomain x.2) cs = map priorities (cf_NameServer config) /\
    establishDomainRules (cf_DomainMatcher config) (map snd cs) (length legacy) = Ok (x, infos, names) /\
    length expected = length cs /\ length fakes = length cs /\ domainMatcher s = x /\ matcherInfos s = infos /\
    clients s = match legacy ++ established (map fst cs) names expected fakes with [] => [NewLocalDNSClient] | l => l end.
Proof.
  unfold New. destruct (NewStaticHosts _ _) as [hosts| |]; [|done..]. cbn [based mbind res_bind].
  destruct (legacy_clients _ _ _) as [legacy| |] eqn:Hl; [|done..]. cbn [mbind res_bind].
  destruct (new_clients _ _ _) as [cs| |] eqn:Hcs; [|done..]. cbn [mbind res_bind].
  destruct (establishDomainRules _ _ _) as [[[x infos] names]| |] eqn:Hr; [|done..]. cbn [mbind res_bind].
  unfold st_run. destruct (establishExpectedIPs _ []).2 as [expected| |] eqn:He; [|done..]. cbn [mbind res_bind].
  destruct (establishFakeDNS config _ _) as [[h1 m] [[e fakes]| |]] eqn:Hf; [|done..]. intros [= <- <-].
  exists legacy, cs, x, infos, names, expected, fakes.
  split; [by eapply legacy_clients_length|]. split; [by eapply new_clients_spec|]. split; [done|].
  split; [rewrite (establishExpectedIPs_length _ _ _ He); apply length_map|].
  split; [rewrite (establishFakeDNS_length _ _ _ _ _ _ Hf); apply length_map|]. done.
Qed.

(** The client [i] is of a name server with a prioritized domain that matches. *)
Definition prefers (config : Config) (domain : bytes) (i : nat) : Prop :=
  exists k ns d m, i = (length (NameServers config) + k)%nat /\ cf_NameServer config !! k = Some ns /\
    d ∈ priorities ns /\ toStrMatcher (pd_Type d) (pd_Domain d) = Ok m /\ Match MatchString m domain = true.

Lemma New_ready config h h' s :
  New config h = (h', Ok s) -> default_matcher (cf_DomainMatcher config) ->
  Z.of_nat (total_rules config) <= 65536 -> zlen (clients s) <= 65536 ->
  exists es, ready s es /\ length es = total_rules config /\
    (forall e, e ∈ es -> exists k ns d, e_client e = (length (NameServers config) + k)%nat /\
       cf_NameServer config !! k = Some ns /\ d ∈ priorities ns /\
       toStrMatcher (pd_Type d) (pd_Domain d) = Ok (e_matcher e)) /\
    (forall k ns d, cf_NameServer config !! k = Some ns -> d ∈ priorities ns ->
       exists e, e ∈ es /\ e_client e = (length (NameServers config) + k)%nat /\
         toStrMatcher (pd_Type d) (pd_Domain d) = Ok (e_matcher e)).
Proof.
  intros Hnew Hm Hr Hcl.
  destruct (New_parts _ _ _ _ Hnew) as (legacy & cs & x & infos & names & expected & fakes & Hl & Hcs & Hest & Hle & Hlf & Hx & Hi & Hc).
  assert (Hcount : rule_count (map snd cs) = total_rules config).
  { unfold rule_count, total_rules. rewrite map_map. rewrite <- (map_map priorities length), <- Hcs, map_map. done. }
  assert (Hns : forall k ns', map snd cs !! k = Some ns' -> exists ns, cf_NameServer config !! k = Some ns /\ PrioritizedDomain ns' = priorities ns).
  { intros k ns'. rewrite list_lookup_fmap. intros (y & Hy & ->)%fmap_Some.
    assert (Hk : map priorities (cf_NameServer config) !! k = Some (PrioritizedDomain y.2)) by (rewrite <- Hcs, list_lookup_fmap, Hy; done).
    rewrite list_lookup_fmap in Hk. apply fmap_Some in Hk as (ns & ? & ?). by exists ns. }
  destruct (establish_tied _ _ _ _ _ _ Hest Hm) as (es & Ht & (Hnl & Hin & Hall) & Hlen); [lia|].
  rewrite length_map in Hnl. exists es. split; [|split; [lia|split]].
  - split; [by rewrite Hx, Hi|done|]. intros e He.
    destruct (Hin e He) as (k & ns & nm & d & Hk & Hn & Hd & Hce & _ & Hlt). rewrite list_lookup_fmap in Hk.
    apply fmap_Some in Hk as ([c ns'] & Hk & ->).
    destruct (established_lookup (map fst cs) names expected fakes k c nm) as (ex & f & Hes);
      [rewrite list_lookup_fmap, Hk; done|done|rewrite length_map; lia..|].
    assert (Hlook : (legacy ++ established (map fst cs) names expected fakes) !! e_client e = Some (establish c nm ex f)).
    { rewrite lookup_app_r, Hce by lia. by replace (length legacy + k - length legacy)%nat with k by lia. }
    exists (establish c nm ex f). split; [|done]. rewrite Hc. by destruct (legacy ++ _).
  - intros e He. destruct (Hin e He) as (k & ns & nm & d & Hk & Hn & Hd & Hce & Hmt & _).
    destruct (Hns _ _ Hk) as (ns' & Hk' & Hp). rewrite Hp in Hd. exists k, ns', d. by rewrite <- Hl.
  - intros k ns d Hk Hd. assert (Hk' : map (fun x => PrioritizedDomain x.2) cs !! k = Some (priorities ns)).
    { rewrite Hcs, list_lookup_fmap, Hk. done. }
    rewrite list_lookup_fmap in Hk'. apply fmap_Some in Hk' as ([c ns'] & Hk' & Hp). cbn [snd] in Hp.
    rewrite <- Hl. apply (Hall k ns'); [by rewrite list_lookup_fmap, Hk'|by rewrite <- Hp].
Qed.

(** The clients a lookup asks, and in what order, are those the
    configuration says: choosing them never fails, no client comes twice; first
    come exactly the clients with a prioritized domain that matches (but no
    FakeDNS server unless it is asked for), then in the order of the
    configuration the others whose fallback is not disabled - for good, or
    because a client was preferred. *)
Theorem clients_in_order config h h' s domain option
    (Hnew : New config h = (h', Ok s)) (Hm : default_matcher (cf_DomainMatcher config))
    (Hr : Z.of_nat (total_rules config) <= 65536) (Hc : zlen (clients s) <= 65536)
    (Hu : forall ns d m, ns ∈ cf_NameServer config -> d ∈ priorities ns ->
      toStrMatcher (pd_Type d) (pd_Domain d) = Ok m -> usable m)
    (Hd : zlen domain < 65536) :
  exists preferred rest, sortClients s domain option = Ok (preferred ++ rest) /\
    NoDup (preferred ++ rest) /\ StronglySorted lt rest /\
    (forall i, i ∈ preferred <-> prefers config domain i /\
       exists c, clients s !! i = Some c /\ skip_fake option c = false) /\
    (forall i, i ∈ rest <-> i ∉ preferred /\
       exists c, clients s !! i = Some c /\ falls_back option (negb (bool_decide (preferred = []))) c).
Proof.
  destruct (New_ready config h h' s Hnew Hm Hr Hc) as (es & Hs & Hlen & Hin & Hall).
  pose proof (r_tied _ _ Hs) as [(g & Hg & Hholds) _].
  destruct (linear_answers MatchString (map e_matcher es) g domain Hholds) as (ms & Hms & Hans & _); [| |done|].
  { unfold zlen. rewrite length_map. lia. }
  { apply Forall_map, Forall_forall. intros e He. destruct (Hin e He) as (k & ns & d & _ & Hk & Hpd & Hto).
    eapply Hu; [by eapply list_elem_of_lookup_2|done|done]. }
  unfold sortClients. rewrite Hg. cbn [index_Match]. rewrite Hms. cbn [or_panic mbind res_bind].
  pose proof (marks_new (length (clients s))) as Hmk0.
  destruct (matched_spec s option es ms (replicate (length (clients s)) false) [] Hs) as (used & preferred & Hmc & Hmk & Hp); [|done|].
  { intros m [? (mt & Hl & _)]%Hans. apply lookup_lt_Some in Hl. rewrite length_map in Hl. unfold zlen. lia. }
  rewrite Hmc. cbn [mbind res_bind].
  destruct (fallback_spec option (negb (bool_decide (preferred = []))) (clients s) 0 used) as [Hsort Hrest].
  eexists preferred, _. split; [done|]. split; [|split; [done|split]].
  - apply NoDup_app. split; [apply (m_nodup _ _ _ Hmk)|]. split.
    + intros i Hi (_ & Hui & _)%Hrest. by apply Hui, (m_used _ _ _ Hmk).
    + clear -Hsort. induction Hsort as [|a l Hl IH Ha]; constructor; [|done]. intros Hin. rewrite Forall_forall in Ha. specialize (Ha a Hin). lia.
  - intros i. rewrite Hp, elem_of_nil. split.
    + intros [[]|(m & Hmm & e & c & He & <- & Hcl & Hsk)]. split; [|by exists c].
      destruct (proj1 (Hans m) Hmm) as (_ & mt & Hmt & Hmatch). rewrite list_lookup_fmap, He in Hmt. cbn in Hmt. injection Hmt as <-.
      destruct (Hin e) as (k & ns & d & Hce & Hk & Hd' & Hto); [by eapply list_elem_of_lookup_2|]. by exists k, ns, d, (e_matcher e).
    + intros [(k & ns & d & mt & -> & Hk & Hd' & Hto & Hmatch) (c & Hcl & Hsk)]. right.
      destruct (Hall k ns d Hk Hd') as (e & He & Hce & Hto'). rewrite Hto in Hto'. injection Hto' as ->.
      apply list_elem_of_lookup in He as [j Hj]. exists (Z.of_nat (S j)).
      assert (Hj' : Z.to_nat (Z.of_nat (S j) - 1) = j) by lia. split.
      * apply Hans. split; [lia|]. exists (e_matcher e). split; [|done]. by rewrite Hj', list_lookup_fmap, Hj.
      * exists e, c. by rewrite Hj', Hce.
  - intros i. rewrite Hrest, Nat.sub_0_r, (m_used _ _ _ Hmk). clear. naive_solver lia.
Qed.
End Order.
