(* ===== verification/DnsLookup.v ===== *)
(** * Package app/dns: static hosts and the answer of a lookup

    What [Lookup] of the static hosts answers, whose addresses
    [lookupIPInternal] returns, and a small configuration at which the theorems
    about app/dns apply. *)
From S2P Require Import Prelude GoStd GoText NetAddr FakeDns FakeDnsMulti StrMatch StrIndex RouteCond DnsHosts Dns DnsSpec.
Import NetAddr FakeDns FakeDnsMulti StrMatch StrIndex RouteCond DnsHosts Dns.

Section Answers.
Context {E : RouteEnv} {D : DnsEnv}.

(** The domain [d'] replaces [d] after [n] steps through the static hosts. *)
Inductive replaced (h : StaticHosts) : nat -> bytes -> bytes -> Prop :=
  | replaced_O d : replaced h 0 d d
  | replaced_S n d d1 d2 : lookupInternal h d = Ok [domainAddress d1] -> replaced h n d1 d2 -> replaced h (S n) d d2.

(** A single domain. *)
Definition is_replacement (addrs : list Address) : bool :=
  match addrs with [domainAddress _] => true | _ => false end.

Lemma lookup_spec h n d option r :
  lookup_ h n d option = Ok r ->
  exists k d', (k <= n)%nat /\ replaced h k d d' /\ exists addrs, lookupInternal h d' = Ok addrs /\
    ((is_replacement addrs = false /\ addrs <> [] /\ r = Some (filterIP addrs option)) \/
     (addrs = [] /\ r = if decide (k = 0)%nat then None else Some [domainAddress d']) \/
     (k = n /\ is_replacement addrs = true /\ r = Some addrs)).
Proof.
  revert d r. induction n as [|n IH]; intros d r Hl; cbn [lookup_] in Hl;
    destruct (lookupInternal h d) as [addrs| |] eqn:Hd; try done; cbn [mbind res_bind] in Hl;
    destruct addrs as [|[i|i|d1] [|a2 addrs]]; try (injection Hl as <-).
  all: try (exists 0%nat, d; split; [lia|]; split; [constructor|]; eexists; split; [exact Hd|];
    solve [by left|right; left; split; reflexivity|right; right; split; [lia|split; reflexivity]]).
  destruct (lookup_ h n d1 option) as [u| |] eqn:Hu; [|done..]. cbn [mbind res_bind] in Hl. injection Hl as <-.
  destruct (IH d1 u Hu) as (k & d' & Hk & Hr & addrs & Ha & Hcase).
  exists (S k), d'. split; [lia|]. split; [by econstructor|]. exists addrs. split; [done|].
  destruct Hcase as [(? & ? & ->)|[(-> & ->)|(-> & ? & ->)]]; [by left| |by right; right].
  right. left. split; [done|]. case_decide as Hk0; [|done]. subst k. by inversion Hr.
Qed.

(** What the static hosts answer: at most five replacements are followed,
    even around a cycle, to the last domain the hosts know or the first they
    give addresses for; of those only the addresses of the families asked for
    are returned, and there is no answer only for a domain no mapping matches. *)
Theorem static_hosts_answer h d option r (Hl : Lookup h d option = Ok r) :
  exists k d', (k <= 5)%nat /\ replaced h k d d' /\ exists addrs, lookupInternal h d' = Ok addrs /\
    match r with
    | None => k = 0%nat /\ addrs = []
    | Some [domainAddress x] => (x = d' /\ (0 < k)%nat /\ addrs = []) \/ (k = 5%nat /\ addrs = [domainAddress x])
    | Some ips => addrs <> [] /\ forall a, a ∈ ips <-> a ∈ addrs /\ allowed option a = true
    end.
Proof.
  destruct (lookup_spec h 5 d option r Hl) as (k & d' & Hk & Hr & addrs & Ha & Hcase).
  exists k, d'. split; [done|]. split; [done|]. exists addrs. split; [done|].
  assert (Hin : forall a, a ∈ filterIP addrs option <-> a ∈ addrs /\ allowed option a = true).
  { intros a. unfold filterIP. rewrite !list_elem_of_In, filter_In. done. }
  destruct Hcase as [(Hrep & Hne & ->)|[(-> & ->)|(-> & Hrep & ->)]].
  - destruct (filterIP addrs option) as [|[i|i|x] l] eqn:Hf; try done.
    destruct (proj1 (Hin (domainAddress x))) as [_ Hb]; [by left|]. done.
  - case_decide; [done|]. left. split; [done|]. split; [lia|done].
  - destruct addrs as [|[i|i|x] [|]]; try done. by right.
Qed.

(** ** The lookup *)

(** The clients [order], asked in turn, fail in a way that lets the next be asked. *)
Inductive passed (s : DNS) (domain : bytes) (option : IPOption) : list nat -> state -> state -> Prop :=
  | passed_nil st : passed s domain option [] st st
  | passed_cons i order c e st st1 st2 :
      clients s !! i = Some c -> QueryIP s c domain option st = (st1, Ok ([], Some e)) -> goes_on e = true ->
      passed s domain option order st1 st2 -> passed s domain option (i :: order) st st2.

(** The client [i] of the order answers [ips], after those before it have failed. *)
Definition answers (s : DNS) (domain : bytes) (option : IPOption) (order : list nat) (st st' : state) (ips : list bytes) : Prop :=
  exists before i after c err st1, order = before ++ i :: after /\ passed s domain option before st st1 /\
    clients s !! i = Some c /\ QueryIP s c domain option st1 = (st', Ok (ips, err)).

Lemma query_clients_spec s order domain option errs st st' ips :
  query_clients s order domain option errs st = (st', Ok ips) -> ips <> [] ->
  answers s domain option order st st' ips.
Proof.
  revert errs st. induction order as [|i order IH]; intros errs st Hq Hne; cbn [query_clients] in Hq; [done|].
  unfold mbind, st_bind, st_lift, the_client in Hq. destruct (clients s !! i) as [c|] eqn:Hc; [|done]. cbn [or_panic] in Hq.
  destruct (QueryIP s c domain option st) as [st1 [[l err]| |]] eqn:Hqi; [|done..].
  destruct l as [|ip l]; [destruct err as [e|]|].
  - destruct (goes_on e) eqn:Hg; [|done]. destruct (IH _ _ Hq Hne) as (before & j & after & c' & err & st2 & -> & Hp & ? & ?).
    exists (i :: before), j, after, c', err, st2. split; [done|]. split; [by econstructor|]. done.
  - by injection Hq as <- <-.
  - injection Hq as <- <-. exists [], i, order, c, err, st. split; [done|]. split; [constructor|]. done.
Qed.

Lemma matched_ips_spec expected ips ip :
  ip ∈ matched_ips expected ips <-> ip ∈ ips /\ existsb (fun m => geo_Match m ip) expected = true.
Proof.
  induction ips as [|x ips IH]; cbn [matched_ips].
  - rewrite elem_of_nil. naive_solver.
  - destruct (existsb (fun matcher => geo_Match matcher x) expected) eqn:Hx; rewrite ?elem_of_cons, IH.
    + split; [intros [->|[? ?]]; auto|intros [[->|?] ?]; auto].
    + split; [intros [? ?]; auto|intros [[->|?] ?]; [congruence|auto]].
Qed.

(** Without FakeDNS a client only lets expected addresses through, if the server
    gave no error. *)
Lemma QueryIP_expected s c domain option st st' ips err :
  QueryIP s c domain option st = (st', Ok (ips, err)) -> FakeEnable option = false -> err = None -> expectIPs c <> [] ->
  forall ip, ip ∈ ips -> exists m, m ∈ expectIPs c /\ geo_Match m ip = true.
Proof.
  unfold QueryIP. intros Hq Hf -> He ip Hip. destruct (negb _); [done|]. unfold mbind, st_bind in Hq.
  destruct (Server_QueryIP _ _ _ _ _ _ _) as [st1 [[l [e|]]| |]]; try done. unfold With in Hq. cbn [FakeEnable] in Hq. rewrite Hf in Hq.
  cbn [andb] in Hq. unfold MatchExpectedIPs in Hq. destruct (expectIPs c) as [|m0 ms] eqn:Hex; [done|].
  destruct (matched_ips (m0 :: ms) l) as [|i0 kept] eqn:Hm; [done|]. injection Hq as <- <-.
  assert (Hin : ip ∈ matched_ips (m0 :: ms) l) by (by rewrite Hm).
  apply matched_ips_spec in Hin as [_ (m & Hin & Hg)%existsb_exists]. exists m. by rewrite list_elem_of_In.
Qed.

(** C34. Whose addresses a lookup returns: when one without FakeDNS succeeds with at
    least one address, these are those of the static hosts, or those one client answered
    - a client that is in the order of clients for this domain (or for the one that the
    hosts replace it with), when every client before it failed with an error that lets
    the lookup go on: a cancelled or timed out query or unexpected addresses -; and if
    that client has expected addresses and reported no error, every address is an
    expected one. *)
Theorem lookup_answer s domain option st st' ips
    (Hl : lookupIPInternal s domain option st = (st', Ok ips)) (Hne : ips <> []) (Hf : FakeEnable option = false) :
  exists addrs, Lookup (hosts s) (TrimSuffix_dot domain) option = Ok addrs /\
    ((exists l, addrs = Some l /\ is_replacement l = false /\ toNetIP (map Some l) = Ok ips /\ st' = st) \/
     exists name order before i after c err st1,
       name = match addrs with Some [domainAddress d] => d | _ => TrimSuffix_dot domain end /\
       sortClients s name option = Ok order /\ order = before ++ i :: after /\
       passed s name option before st st1 /\ clients s !! i = Some c /\
       QueryIP s c name option st1 = (st', Ok (ips, err)) /\
       (err = None -> expectIPs c <> [] -> forall ip, ip ∈ ips -> exists m, m ∈ expectIPs c /\ geo_Match m ip = true)).
Proof.
  unfold lookupIPInternal in Hl. destruct domain as [|b domain]; [done|]. set (name := TrimSuffix_dot (b :: domain)) in *.
  unfold mbind, st_bind, st_lift in Hl. destruct (Lookup (hosts s) name option) as [addrs| |]; [|done..].
  exists addrs. split; [done|].
  assert (Hservers : forall d, name_servers s d option st = (st', Ok ips) ->
    exists order before i after c err st1, sortClients s d option = Ok order /\ order = before ++ i :: after /\
       passed s d option before st st1 /\ clients s !! i = Some c /\
       QueryIP s c d option st1 = (st', Ok (ips, err)) /\
       (err = None -> expectIPs c <> [] -> forall ip, ip ∈ ips -> exists m, m ∈ expectIPs c /\ geo_Match m ip = true)).
  { intros d Hq. unfold name_servers, mbind, st_bind, st_lift in Hq. destruct (sortClients s d option) as [order| |]; [|done..].
    destruct (query_clients_spec _ _ _ _ _ _ _ _ Hq Hne) as (before & i & after & c & err & st1 & -> & Hp & Hc & Hqi).
    exists (before ++ i :: after), before, i, after, c, err, st1. repeat (split; [done|]). intros He Hex. by eapply QueryIP_expected. }
  destruct addrs as [[|[a|a|d] [|a2 l]]|]; try done.
  all: try (left; eexists; split; [done|]; split; [done|]; by destruct (toNetIP _); [injection Hl as <- <-|..]).
  all: right; destruct (Hservers _ Hl) as (order & before & i & after & c & err & st1 & H);
    eexists _, order, before, i, after, c, err, st1; split; [done|exact H].
Qed.
End Answers.

(** ** A configuration: a public server, and one for example.org of which
    addresses of 10.0.0.0/8 are expected *)
#[local] Instance demo_env : RouteEnv := {|
  W := unit; LookupIP := fun _ w => (Err ErrEmptyResponse, w);
  Regexp := unit; MatchString := fun _ _ => false; Compile := fun _ => Err (NewError "no regexp"); ToASCII := fun s => Ok s;
  strhash := fun _ _ => 0; sortSlice := fun _ l => l; seeds := 0;
  IPSet := list (option Prefix); buildSet := fun ps => Ok ps;
  set_Contains := fun s a => existsb (fun p => match p with Some p => prefix_Contains p a | None => false end) s;
  FromStdIP := fun ip => Unmap <$> AddrFromSlice ip;
  File := unit; Program := unit; Parse := fun _ => Err (NewError "no program"); FileProgram := fun _ => Ok (); satisfied := fun _ _ => None |}.

(** The world is the domains asked for; every server answers 93.184.216.34. *)
Definition demo_ip : bytes := map z2b [93; 184; 216; 34].
#[local] Instance demo_dns : DnsEnv := {|
  World := list (Server * bytes);
  query := fun srv domain _ _ _ w => (w ++ [(srv, domain)], ([demo_ip], None));
  unusable := fun _ => None; url_Parse := fun s => Ok (s, []); randomTag := fun _ => lit "tag";
  Regexp_String := fun _ => []; fake_rounds := 0 |}.

Definition demo_at (ip : list Z) : Endpoint := mkEndpoint Network_UDP (Some (IPOrDomain_Ip (map z2b ip))) 53.
Definition demo_server (ip : list Z) (ds : list PriorityDomain) (geo : list GeoIP) : NameServer :=
  mkNameServer (demo_at ip) [] [] ds geo [] None false None None None.

Definition demo_config : Config := {|
  NameServers := []; cf_NameServer :=
    [demo_server [8; 8; 8; 8] [] [];
     demo_server [10; 0; 0; 53] [mkPriority DomainMatchingType_Subdomain (lit "example.org")]
       [mkGeoIP [] [mkCIDR (map z2b [10; 0; 0; 0]) 8] false]];
  cf_Hosts := []; cf_ClientIp := [];
  cf_StaticHosts := [mkHost DomainMatchingType_Full (lit "router") [map z2b [192; 168; 0; 1]; map z2b (repeat 253 16)] [];
                     mkHost DomainMatchingType_Full (lit "alias") [] (lit "www.example.org")];
  cf_FakeDns := None; cf_Tag := []; cf_DomainMatcher := []; DisableCache := false; DisableFallback := false;
  DisableFallbackIfMatch := false; cf_QueryStrategy := USE_IP; cf_CacheStrategy := CacheEnabled;
  cf_FallbackStrategy := Fallback_Enabled |}.

Definition demo_option : IPOption := mkOpt true false false.
Definition idle : state := (@nil Holder, @nil (Server * bytes)).
Definition no_dns : DNS := mkDNS (mkHosts [] NewLinearIndexMatcher) [] [] None (Linear NewLinearIndexMatcher) [].
Definition demo : DNS := match New demo_config [] with (_, Ok s) => s | _ => no_dns end.

Lemma New_made config s : (New config []).2 = Ok s -> New config [] = ((New config []).1, Ok s).
Proof. by destruct (New config []) as [? ?] eqn:Hn; intros [= ->]. Qed.

Lemma demo_made : (New demo_config []).2 = Ok demo.
Proof.
  assert (Hok : match New demo_config [] with (_, Ok _) => true | _ => false end = true) by (vm_compute; reflexivity).
  unfold demo. by destruct (New demo_config []) as [? [| |]].
Qed.

Lemma clients_in_order_witness :
  sortClients demo (lit "www.example.org") demo_option = Ok [1; 0]%nat /\
  exists preferred rest, sortClients demo (lit "www.example.org") demo_option = Ok (preferred ++ rest) /\ NoDup (preferred ++ rest) /\
    (forall i, i ∈ preferred -> prefers demo_config (lit "www.example.org") i).
Proof.
  split; [vm_compute; reflexivity|].
  destruct (clients_in_order demo_config [] _ demo (lit "www.example.org") demo_option (New_made _ _ demo_made)) as (preferred & rest & Hs & Hn & _ & Hp & _).
  - split; discriminate.
  - by vm_compute.
  - by vm_compute.
  - intros ns d m Hns Hd Hm. apply list_elem_of_In in Hns. cbn in Hns. destruct Hns as [<-|[<-|[]]]; cbn in Hd; [by apply elem_of_nil in Hd|].
    apply list_elem_of_singleton in Hd as ->. vm_compute in Hm. injection Hm as <-. vm_compute. discriminate.
  - by vm_compute.
  - exists preferred, rest. split; [done|]. split; [done|]. intros i Hi. by apply Hp.
Defined.

Lemma static_hosts_answer_witness :
  Lookup (hosts demo) (lit "router") demo_option = Ok (Some [ipv4Address (map z2b [192; 168; 0; 1])]) /\
  exists k d' addrs, (k <= 5)%nat /\ replaced (hosts demo) k (lit "router") d' /\ lookupInternal (hosts demo) d' = Ok addrs /\ addrs <> [].
Proof.
  assert (Hl : Lookup (hosts demo) (lit "router") demo_option = Ok (Some [ipv4Address (map z2b [192; 168; 0; 1])]))
    by (vm_compute; reflexivity).
  split; [exact Hl|]. destruct (static_hosts_answer _ _ _ _ Hl) as (k & d' & Hk & Hr & addrs & Ha & Hne & _).
  exists k, d', addrs. split; [exact Hk|]. split; [exact Hr|]. split; [exact Ha|exact Hne].
Defined.

(** Expected addresses: the first server's answer is not one of them. *)
Lemma lookup_answer_witness :
  (lookupIPInternal demo (lit "alias.") demo_option idle).2 = Ok [demo_ip] /\
  exists order before i after st1, sortClients demo (lit "www.example.org") demo_option = Ok order /\
    order = before ++ i :: after /\ passed demo (lit "www.example.org") demo_option before idle st1.
Proof.
  split; [vm_compute; reflexivity|].
  destruct (lookup_answer demo (lit "alias.") demo_option idle (lookupIPInternal demo (lit "alias.") demo_option idle).1 [demo_ip])
    as (addrs & Ha & Hcase); [vm_compute; reflexivity|done|done|].
  vm_compute in Ha. injection Ha as <-. destruct Hcase as [(l & [= <-] & Hrep & _)|(name & order & before & i & after & c & err & st1 & Hname & Ho & Hb & Hp & _)].
  - vm_compute in Hrep. discriminate.
  - assert (name = lit "www.example.org") as -> by (rewrite Hname; vm_compute; reflexivity).
    exists order, before, i, after, st1. split; [exact Ho|]. split; [exact Hb|exact Hp].
Defined.

(** ** A FakeDNS server among the simple name servers

    It is asked although FakeDNS is not enabled for its client; its empty answer
    without an error ends the lookup, and the server after it is never asked. *)
Definition legacy_config : Config := {|
  NameServers := [mkEndpoint Network_UDP (Some (IPOrDomain_Domain (lit "fakedns"))) 0; demo_at [8; 8; 8; 8]]; cf_NameServer := [];
  cf_Hosts := []; cf_ClientIp := []; cf_StaticHosts := [];
  cf_FakeDns := None; cf_Tag := []; cf_DomainMatcher := []; DisableCache := false; DisableFallback := false;
  DisableFallbackIfMatch := false; cf_QueryStrategy := USE_IP; cf_CacheStrategy := CacheEnabled;
  cf_FallbackStrategy := Fallback_Enabled |}.
Definition legacy : DNS := match New legacy_config [] with (_, Ok s) => s | _ => no_dns end.

Lemma legacy_fakedns_no_answer :
  Fake_LookupIP legacy (lit "example.org") idle = (idle, Ok []) /\
  (LookupIP_ legacy (lit "example.org") idle).2 = Ok [demo_ip].
Proof. split; vm_compute; reflexivity. Qed.

(** Two mappings that replace the same domain: neither replacement is followed,
    and the answer is empty. *)
Definition twice_config : Config := {|
  NameServers := [demo_at [8; 8; 8; 8]]; cf_NameServer := [];
  cf_Hosts := []; cf_ClientIp := [];
  cf_StaticHosts := [mkHost DomainMatchingType_Full (lit "a.org") [] (lit "b.org");
                     mkHost DomainMatchingType_Subdomain (lit "a.org") [] (lit "c.org")];
  cf_FakeDns := None; cf_Tag := []; cf_DomainMatcher := []; DisableCache := false; DisableFallback := false;
  DisableFallbackIfMatch := false; cf_QueryStrategy := USE_IP; cf_CacheStrategy := CacheEnabled;
  cf_FallbackStrategy := Fallback_Enabled |}.
Definition twice : DNS := match New twice_config [] with (_, Ok s) => s | _ => no_dns end.

Lemma two_replacements_no_answer :
  LookupIP_ twice (lit "a.org") idle = (idle, Err ErrEmptyResponse).
Proof. vm_compute. reflexivity. Qed.
