(* ===== verification/DnsCache.v ===== *)
(** * Package app/dns: the cache of a UDP name server

    [Module DnsCache] models nameserver_udp.go and dnscommon.go: queries with
    their ids, pending requests, the records of answered domains, their expiry
    and the cleanup, and a query that waits for both answers.  The reader and the
    names of x/net/dns/dnsmessage are the class [DnsMessage].  Times are
    nanoseconds; every call of [time.Now] of an operation sees one time.  A
    message sent and a topic published are results of the operations. *)
From S2P Require Import Prelude GoStd GoText NetAddr DnsHosts.
Import NetAddr DnsHosts.

Module DnsCache.

Definition second : Z := 1000000000.
Definition errRecordNotFound : error := NewError "record not found".

Inductive Type_ := TypeA | TypeAAAA | TypeOther (n : Z).
#[export] Instance Type_eq_dec : EqDecision Type_.
Proof. solve_decision. Defined.

Definition RCodeSuccess : Z := 0.
(** [RCodeError], an error of features/dns. *)
Definition RCodeError (r : Z) : error := Based "rcode: " (NewError (if r =? RCodeSuccess then "0" else "nonzero")).

(** ** dnscommon.go *)
Definition Fqdn (domain : bytes) : bytes :=
  if (0 <? zlen domain) && HasSuffix domain (lit ".") then domain else domain ++ lit ".".

Record IPRecord := mkIPRecord { ReqID : Z; rec_IP : list Address; Expire : Z; RCode : Z }.
Record record := mkRecord { A : option IPRecord; AAAA : option IPRecord }.
Definition no_record : record := mkRecord None None.

Definition getIPs (r : option IPRecord) (now : Z) : res (list Address) :=
  match r with
  | None => Err errRecordNotFound
  | Some r =>
    if Expire r <? now then Err errRecordNotFound
    else if decide (RCode r <> RCodeSuccess) then Err (RCodeError (RCode r))
    else Ok (rec_IP r)
  end.

Definition isNewer (baseRec newRec : option IPRecord) : bool :=
  match newRec with
  | None => false
  | Some n => match baseRec with None => true | Some b => Expire b <? Expire n end
  end.

Record Question := mkQuestion { q_Name : bytes; q_Type : Type_ }.
Record Message := mkMessage { ID : Z; RecursionDesired : bool; Questions : list Question; Additionals : list bytes }.
Record dnsRequest := mkRequest { reqType : Type_; domain : bytes; start : Z; expire : Z; msg : Message }.

(** The data of the EDNS0 option: the network of the client.  An address that is
    neither 4 nor 16 bytes has no mask, and slicing it panics. *)
Definition genEDNS0Options (clientIP : bytes) : res (option bytes) :=
  if zlen clientIP =? 0 then Ok None
  else if zlen clientIP =? 4 then Ok (Some (map z2b [0; 1; 24; 0] ++ take 3 clientIP))
  else if zlen clientIP =? 16 then Ok (Some (map z2b [0; 2; 96; 0] ++ take 12 clientIP))
  else Panic.

(** ** x/net/dns/dnsmessage *)
Class DnsMessage := {
  Parser : Type;
  (** [Start]: the id and the code of the header. *)
  pStart : bytes -> res (Parser * (Z * Z));
  pSkipAllQuestions : Parser -> Parser * res unit;
  (** [AnswerHeader]: type and TTL. *)
  pAnswerHeader : Parser -> Parser * res (Type_ * Z);
  pAResource : Parser -> Parser * res bytes;
  pAAAAResource : Parser -> Parser * res bytes;
  pSkipAnswer : Parser -> Parser * res unit;
  (** Answers it has not read. *)
  p_left : Parser -> nat;
  (** A name [MustNewName] takes. *)
  name_fits : bytes -> bool;
}.

Class DnsMessageOk `{DnsMessage} := {
  pAnswerHeader_left p : (p_left (pAnswerHeader p).1 <= p_left p)%nat;
  pAResource_left p a p' : pAResource p = (p', Ok a) -> (p_left p' < p_left p)%nat;
  pAAAAResource_left p a p' : pAAAAResource p = (p', Ok a) -> (p_left p' < p_left p)%nat;
  pSkipAnswer_left p p' : pSkipAnswer p = (p', Ok tt) -> (p_left p' < p_left p)%nat;
}.

Section Model.
Context `{DM : DnsMessage}.

(** ** Queries *)
Definition MustNewName (name : bytes) : res bytes := if name_fits name then Ok name else Panic.

Definition new_request (t : Type_) (name : bytes) (id : Z) (opts : option bytes) (now : Z) : dnsRequest := {|
  reqType := t; domain := name; start := now; expire := 0;
  msg := {| ID := id; RecursionDesired := true; Questions := [mkQuestion name t];
            Additionals := match opts with Some o => [o] | None => [] end |} |}.

(** The counter [reqID] is threaded through. *)
Definition next_id (reqID : Z) : Z := u32 (reqID + 1).

Definition buildReqMsgs (name : bytes) (option : IPOption) (reqID : Z) (opts : Datatypes.option bytes) (now : Z)
    : res (Z * list dnsRequest) :=
  name ← MustNewName name;
  let '(reqID, a) :=
    if IPv4Enable option then (next_id reqID, [new_request TypeA name (u16 (next_id reqID)) opts now]) else (reqID, []) in
  let '(reqID, aaaa) :=
    if IPv6Enable option then (next_id reqID, [new_request TypeAAAA name (u16 (next_id reqID)) opts now]) else (reqID, []) in
  Ok (reqID, a ++ aaaa).

(** ** Answers *)
Definition min_expire (r : IPRecord) (e : Z) : IPRecord :=
  if e <? Expire r then {| ReqID := ReqID r; rec_IP := rec_IP r; Expire := e; RCode := RCode r |} else r.

Definition add_ip (r : IPRecord) (ip : bytes) : res IPRecord :=
  match IPAddress ip with
  | Some a => Ok {| ReqID := ReqID r; rec_IP := rec_IP r ++ [a]; Expire := Expire r; RCode := RCode r |}
  | None => Panic   (* a nil address in the list; never for 4 or 16 bytes *)
  end.

(** The loop over the answers; [None] is no fuel. *)
Fixpoint parse_answers (fuel : nat) (p : Parser) (now : Z) (r : IPRecord) : option (res IPRecord) :=
  match fuel with
  | O => None
  | S fuel =>
    match pAnswerHeader p with
    | (_, Err _) => Some (Ok r)
    | (_, Panic) => Some Panic
    | (p, Ok (t, ttl)) =>
      let ttl := if ttl =? 0 then 600 else ttl in
      let r := min_expire r (now + ttl * second) in
      let resource (x : Parser * res bytes) :=
        match x with
        | (p, Ok ip) => match add_ip r ip with Ok r => parse_answers fuel p now r | e => Some e end
        | (_, Err _) => Some (Ok r)
        | (_, Panic) => Some Panic
        end in
      match t with
      | TypeA => resource (pAResource p)
      | TypeAAAA => resource (pAAAAResource p)
      | TypeOther _ =>
        match pSkipAnswer p with
        | (p, Ok _) => parse_answers fuel p now r
        | (_, Err _) => Some (Ok r)
        | (_, Panic) => Some Panic
        end
      end
    end
  end.

Definition parseResponse (payload : bytes) (now : Z) : option (res IPRecord) :=
  match pStart payload with
  | Err e => Some (Err (Based "failed to parse DNS response" e))
  | Panic => Some Panic
  | Ok (p, (id, rcode)) =>
    match pSkipAllQuestions p with
    | (_, Err e) => Some (Err (Based "failed to skip questions in DNS response" e))
    | (_, Panic) => Some Panic
    | (p, Ok _) =>
      parse_answers (S (p_left p)) p now {| ReqID := id; rec_IP := []; Expire := now + 600 * second; RCode := rcode |}
    end
  end.

(** ** nameserver_udp.go *)
Record ClassicNameServer := mkServer {
  address : Destination;
  ips : gmap bytes record;
  requests : gmap Z dnsRequest;
  reqID : Z;               (* uint32 *)
}.

Definition NewClassicNameServer (address : Destination) : ClassicNameServer :=
  let address := if DPort address =? 0
                 then {| DAddress := DAddress address; DPort := 53; DNetwork := DNetwork address |} else address in
  {| address := address; ips := ∅; requests := ∅; reqID := 0 |}.

(** A record is kept while one of its parts has not expired. *)
Definition unexpired (now : Z) (r : option IPRecord) : option IPRecord :=
  match r with Some x => if Expire x <? now then None else r | None => None end.

Definition cleaned (now : Z) (r : record) : option record :=
  match unexpired now (A r), unexpired now (AAAA r) with
  | None, None => None
  | a, aaaa => Some {| A := a; AAAA := aaaa |}
  end.

Definition Cleanup (now : Z) : ST ClassicNameServer unit := fun s =>
  if decide (ips s = ∅ /\ requests s = ∅) then (s, Err (NewError " nothing to do. stopping..."))
  else ({| address := address s; ips := omap (cleaned now) (ips s);
           requests := filter (fun x => ~ expire x.2 < now) (requests s); reqID := reqID s |}, Ok tt).

Definition newReqID (s : ClassicNameServer) : ClassicNameServer * Z :=
  ({| address := address s; ips := ips s; requests := requests s; reqID := next_id (reqID s) |}, u16 (next_id (reqID s))).

Definition addPendingRequest (req : dnsRequest) (now : Z) (s : ClassicNameServer) : ClassicNameServer :=
  {| address := address s; ips := ips s;
     requests := <[ID (msg req) := {| reqType := reqType req; domain := domain req; start := start req;
                                      expire := now + 8 * second; msg := msg req |}]> (requests s);
     reqID := reqID s |}.

(** The messages it sends. *)
Definition sendQuery (name clientIP : bytes) (option : IPOption) (now : Z) : ST ClassicNameServer (list Message) := fun s =>
  match (opts ← genEDNS0Options clientIP; buildReqMsgs name option (reqID s) opts now) with
  | Ok (n, reqs) =>
    (foldl (fun s req => addPendingRequest req now s)
       {| address := address s; ips := ips s; requests := requests s; reqID := n |} reqs,
     Ok (map msg reqs))
  | Err e => (s, Err e)
  | Panic => (s, Panic)
  end.

(** The topics published: domain and family. *)
Abbreviation topic := (bytes * Type_)%type.

Definition updateIP (name : bytes) (newRec : record) : ST ClassicNameServer (list topic) := fun s =>
  let rec := default no_record (ips s !! name) in
  let rec' := {| A := if isNewer (A rec) (A newRec) then A newRec else A rec;
                 AAAA := if isNewer (AAAA rec) (AAAA newRec) then AAAA newRec else AAAA rec |} in
  let updated := isNewer (A rec) (A newRec) || isNewer (AAAA rec) (AAAA newRec) in
  ({| address := address s; ips := if updated then <[name := rec']> (ips s) else ips s;
      requests := requests s; reqID := reqID s |},
   Ok ((if decide (is_Some (A newRec)) then [(name, TypeA)] else []) ++
       (if decide (is_Some (AAAA newRec)) then [(name, TypeAAAA)] else []))).

Definition record_for (t : Type_) (r : IPRecord) : record :=
  match t with
  | TypeA => {| A := Some r; AAAA := None |}
  | TypeAAAA => {| A := None; AAAA := Some r |}
  | TypeOther _ => no_record
  end.

(** What follows once the answer is parsed. *)
Definition accept (ipRec : IPRecord) : ST ClassicNameServer (list topic) := fun s =>
  match requests s !! ReqID ipRec with
  | None => (s, Ok [])
  | Some req =>
    let s := {| address := address s; ips := ips s; requests := delete (ReqID ipRec) (requests s); reqID := reqID s |} in
    let rec := record_for (reqType req) ipRec in
    if decide (domain req <> [] /\ (is_Some (A rec) \/ is_Some (AAAA rec))) then updateIP (domain req) rec s
    else (s, Ok [])
  end.

Definition HandleResponse (payload : bytes) (now : Z) : ST ClassicNameServer (list topic) := fun s =>
  match parseResponse payload now with
  | Some (Ok ipRec) => accept ipRec s
  | Some (Err _) => (s, Ok [])
  | _ => (s, Panic)
  end.

(** The addresses of one family, and the error so far. *)
Definition family (enabled : bool) (r : option IPRecord) (now : Z) (acc : list Address) (lastErr : option error)
    : list Address * option error :=
  if enabled then
    match getIPs r now with
    | Ok l => (acc ++ l, lastErr)
    | Err e => (acc, Some e)
    | Panic => (acc, lastErr)
    end
  else (acc, lastErr).

Definition answer_of (r : record) (option : IPOption) (now : Z) : res (list bytes) :=
  let '(l, lastErr) := family (IPv4Enable option) (A r) now [] None in
  let '(l, lastErr) := family (IPv6Enable option) (AAAA r) now l lastErr in
  match l with
  | _ :: _ => toNetIP (map Some l)
  | [] => match lastErr with Some e => Err e | None => Err ErrEmptyResponse end
  end.

Definition findIPsForDomain (s : ClassicNameServer) (name : bytes) (option : IPOption) (now : Z) : res (list bytes) :=
  match ips s !! name with
  | None => Err errRecordNotFound
  | Some record => answer_of record option now
  end.

(** ** QueryIP

    While a query waits the server goes on: [wake] is how the wait ends, the
    state and the time then. *)
Inductive wake := Cancelled (e : error) | Done (s : ClassicNameServer) (now : Z).

(** [None]: the query still waits. *)
Fixpoint query_loop (s : ClassicNameServer) (name : bytes) (option : IPOption) (now : Z) (wakes : list wake)
    : Datatypes.option (res (list bytes)) :=
  match findIPsForDomain s name option now with
  | Err e =>
    if decide (e = errRecordNotFound) then
      match wakes with
      | [] => None
      | Cancelled e :: _ => Some (Err e)
      | Done s now :: wakes => query_loop s name option now wakes
      end
    else Some (Err e)
  | r => Some r
  end.

(** The state right after the query is sent, the messages, and the answer. *)
Definition QueryIP (name clientIP : bytes) (option : IPOption) (disableCache : bool) (now : Z) (wakes : list wake)
    : ClassicNameServer -> ClassicNameServer * list Message * Datatypes.option (res (list bytes)) := fun s =>
  let fqdn := Fqdn name in
  let send :=
    match sendQuery fqdn clientIP option now s with
    | (s, Ok sent) => (s, sent, query_loop s fqdn option now wakes)
    | (s, Err e) => (s, [], Some (Err e))
    | (s, Panic) => (s, [], Some Panic)
    end in
  if disableCache then send
  else
    match findIPsForDomain s fqdn option now with
    | Err e => if decide (e = errRecordNotFound) then send else (s, [], Some (Err e))
    | r => (s, [], Some r)
    end.
End Model.
End DnsCache.
