(* ===== verification/DnsCacheSpec.v ===== *)
(** * Package app/dns: the cache answers what the servers answered

    The reference is the log of a name server: questions sent, answers accepted,
    cleanups.  Of the answers to a question the one that expires last counts; the
    cache, whatever it has forgotten, answers from it. *)
From S2P Require Import Prelude GoStd GoText NetAddr DnsHosts DnsCache.
Import NetAddr DnsHosts DnsCache.

Section Log.
Context `{DM : DnsMessage}.

Inductive event := Asked (id : Z) (req : dnsRequest) | Answered (id : Z) (req : dnsRequest) (r : IPRecord) | Swept (now : Z).

(** The question the id stands for, in a log with the latest event first. *)
Fixpoint pending (log : list event) (id : Z) : option dnsRequest :=
  match log with
  | [] => None
  | Asked i req :: log => if decide (i = id) then Some req else pending log id
  | Answered i _ _ :: log => if decide (i = id) then None else pending log id
  | Swept now :: log =>
    match pending log id with Some req => if decide (expire req < now) then None else Some req | None => None end
  end.

(** Of the answers about a domain and a family the one that expires last. *)
Fixpoint best (log : list event) (name : bytes) (t : Type_) : option IPRecord :=
  match log with
  | [] => None
  | Answered _ req r :: log =>
    if decide (domain req = name /\ reqType req = t)
    then (if isNewer (best log name t) (Some r) then Some r else best log name t)
    else best log name t
  | _ :: log => best log name t
  end.

Definition answer_from (log : list event) (name : bytes) (option : IPOption) (now : Z) : res (list bytes) :=
  answer_of {| A := best log name TypeA; AAAA := best log name TypeAAAA |} option now.

(** ** Operations and their events *)
Inductive op := Send (name clientIP : bytes) (option : IPOption) (now : Z) | Receive (payload : bytes) (now : Z) | Clean (now : Z).
Definition time (o : op) : Z := match o with Send _ _ _ now | Receive _ now | Clean now => now end.

Definition step (o : op) (s : ClassicNameServer) : ClassicNameServer :=
  match o with
  | Send name clientIP option now => (sendQuery (Fqdn name) clientIP option now s).1
  | Receive payload now => (HandleResponse payload now s).1
  | Clean now => (Cleanup now s).1
  end.

Definition stored (req : dnsRequest) (now : Z) : dnsRequest :=
  {| reqType := reqType req; domain := domain req; start := start req; expire := now + 8 * second; msg := msg req |}.

Definition events (o : op) (s : ClassicNameServer) : list event :=
  match o with
  | Send name clientIP option now =>
    match (opts ← genEDNS0Options clientIP; buildReqMsgs (Fqdn name) option (reqID s) opts now) with
    | Ok (_, reqs) => reverse (map (fun req => Asked (ID (msg req)) (stored req now)) reqs)
    | _ => []
    end
  | Receive payload now =>
    match parseResponse payload now with
    | Some (Ok r) => match requests s !! ReqID r with Some req => [Answered (ReqID r) req r] | None => [] end
    | _ => []
    end
  | Clean now => [Swept now]
  end.

(** The states a name server reaches, with its log and the time. *)
Inductive reached : list event -> Z -> ClassicNameServer -> Prop :=
  | reached_new a now : reached [] now (NewClassicNameServer a)
  | reached_step log now s o :
      reached log now s -> now <= time o -> reached (events o s ++ log) (time o) (step o s).

(** ** What the cache has forgotten has expired *)
Definition stale (now : Z) (r : option IPRecord) : Prop := match r with Some x => Expire x < now | None => True end.
Definition same_at (now : Z) (x y : option IPRecord) : Prop := x = y \/ (stale now x /\ stale now y).

Lemma stale_mono t t' r : t <= t' -> stale t r -> stale t' r.
Proof. destruct r; cbn; [lia|done]. Qed.
Lemma same_at_mono t t' x y : t <= t' -> same_at t x y -> same_at t' x y.
Proof. intros Ht [->|[? ?]]; [by left|right]. split; by eapply stale_mono. Qed.

Lemma getIPs_stale now r : stale now r -> getIPs r now = Err errRecordNotFound.
Proof. destruct r as [r|]; [|done]. cbn. intros H. by rewrite (proj2 (Z.ltb_lt _ _) H). Qed.

Lemma getIPs_same now x y : same_at now x y -> getIPs x now = getIPs y now.
Proof. intros [->|[Hx Hy]]; [done|]. by rewrite !getIPs_stale. Qed.

Lemma answer_of_same now r r' option :
  same_at now (A r) (A r') -> same_at now (AAAA r) (AAAA r') -> answer_of r option now = answer_of r' option now.
Proof. intros Ha Hb. unfold answer_of, family. by rewrite (getIPs_same _ _ _ Ha), (getIPs_same _ _ _ Hb). Qed.

(** Taking the newer record keeps what is known. *)
Lemma newer_same now x y r :
  same_at now x y ->
  same_at now (if isNewer x (Some r) then Some r else x) (if isNewer y (Some r) then Some r else y).
Proof.
  intros [->|[Hx Hy]]; [by left|]. destruct x as [x|], y as [y|]; cbn in *.
  all: repeat match goal with |- context [?a <? ?b] => destruct (Z.ltb_spec a b) end; try (by left); right; cbn; split; try lia; done.
Qed.

Lemma unexpired_same now x y : same_at now x y -> same_at now (unexpired now x) y.
Proof.
  intros [->|[Hx Hy]].
  - destruct y as [y|]; [|by left]. cbn. destruct (Z.ltb_spec (Expire y) now); [|by left]. by right.
  - right. split; [|done]. destruct x as [x|]; [|done]. cbn in *. by rewrite (proj2 (Z.ltb_lt _ _) Hx).
Qed.

Definition slot (s : ClassicNameServer) (name : bytes) (t : Type_) : option IPRecord :=
  let r := default no_record (ips s !! name) in
  match t with TypeA => A r | TypeAAAA => AAAA r | TypeOther _ => None end.

Definition asks (t : Type_) : Prop := t = TypeA \/ t = TypeAAAA.

Record tracks (log : list event) (now : Z) (s : ClassicNameServer) : Prop := {
  k_requests : forall id, requests s !! id = pending log id;
  k_proper : forall id req, pending log id = Some req -> domain req <> [] /\ asks (reqType req);
  k_slots : forall name t, asks t -> same_at now (slot s name t) (best log name t);
}.

Lemma find_tracks log now s name option now' :
  tracks log now s -> now <= now' -> Option_IsValid option = true ->
  findIPsForDomain s name option now' = answer_from log name option now'.
Proof.
  intros [_ _ Hs] Hle Hv.
  assert (Ha : same_at now' (slot s name TypeA) (best log name TypeA)) by (eapply same_at_mono, Hs; [done|by left]).
  assert (Hb : same_at now' (slot s name TypeAAAA) (best log name TypeAAAA)) by (eapply same_at_mono, Hs; [done|by right]).
  unfold findIPsForDomain, answer_from. unfold slot in *. destruct (ips s !! name) as [r|]; cbn [default] in *.
  - by apply answer_of_same.
  - rewrite <- (answer_of_same now' no_record) by done. unfold Option_IsValid in Hv.
    unfold answer_of, family. by destruct (IPv4Enable option), (IPv6Enable option).
Qed.

(** ** Every operation keeps track *)
Lemma tracks_later log now now' s : tracks log now s -> now <= now' -> tracks log now' s.
Proof. intros [Hr Hp Hs] Hle. split; [done|done|]. intros name t Ht. eapply same_at_mono, Hs; done. Qed.

Lemma Fqdn_not_empty name : Fqdn name <> [].
Proof. unfold Fqdn. destruct (_ && _) eqn:H; [|by destruct name]. intros ->. discriminate H. Qed.

Lemma sent_tracks reqs log now t0 s :
  tracks log t0 s -> Forall (fun req => domain req <> [] /\ asks (reqType req)) reqs ->
  tracks (reverse (map (fun req => Asked (ID (msg req)) (stored req now)) reqs) ++ log) t0
    (foldl (fun s req => addPendingRequest req now s) s reqs).
Proof.
  intros Ht Hreqs. revert log s Ht. induction Hreqs as [|req reqs [Hd Ha] Hreqs IH]; intros log s Ht; [done|].
  cbn [map foldl]. rewrite reverse_cons, <- app_assoc. apply IH. cbn [app]. destruct Ht as [Hr Hp Hs]. split.
  - intros id. cbn [pending addPendingRequest requests]. case_decide as Hid; [subst id; by rewrite lookup_insert_eq|].
    by rewrite lookup_insert_ne.
  - intros id req'. cbn [pending]. case_decide; [by intros [= <-]|apply Hp].
  - intros name t Hat. apply (Hs name t Hat).
Qed.

Lemma send_tracks log now s name clientIP option now' :
  tracks log now s -> tracks (events (Send name clientIP option now') s ++ log) now (step (Send name clientIP option now') s).
Proof.
  intros Ht. cbn [events step]. unfold sendQuery.
  destruct (genEDNS0Options clientIP) as [opts| |]; [|done..]. cbn [mbind res_bind].
  destruct (buildReqMsgs _ _ _ _ _) as [[n reqs]| |] eqn:Hb; [|done..]. cbn [fst].
  apply sent_tracks; [by destruct Ht|].
  unfold buildReqMsgs, MustNewName in Hb. destruct (name_fits (Fqdn name)); [|done]. cbn [mbind res_bind] in Hb.
  pose proof (Fqdn_not_empty name) as Hne.
  destruct (IPv4Enable option), (IPv6Enable option); cbn in Hb; injection Hb as <- <-;
    repeat (apply Forall_cons_2; [split; [done|solve [by left|by right]]|]); apply Forall_nil_2.
Qed.

Lemma clean_tracks log now s now' :
  tracks log now s -> now <= now' -> tracks (Swept now' :: log) now' (Cleanup now' s).1.
Proof.
  intros Ht Hle. apply (tracks_later _ _ now') in Ht as [Hr Hp Hs]; [|done].
  assert (Hsub : forall id req, pending (Swept now' :: log) id = Some req -> pending log id = Some req).
  { intros id req. cbn [pending]. destruct (pending log id) as [x|]; [|done]. case_decide; [done|]. by intros [= ->]. }
  unfold Cleanup. case_decide as Hd; cbn [fst].
  - split.
    + intros id. rewrite Hr. cbn [pending]. destruct Hd as [_ Hd]. rewrite <- Hr, Hd, lookup_empty. done.
    + intros id req Hx. eapply Hp, Hsub, Hx.
    + done.
  - split; cbn [requests ips].
    + intros id. cbn [pending]. rewrite <- Hr. destruct (requests s !! id) as [req|] eqn:Hq.
      * case_decide; [apply map_lookup_filter_None_2; right|apply map_lookup_filter_Some_2; done].
        intros x Hx. rewrite Hq in Hx. injection Hx as <-. cbn. tauto.
      * apply map_lookup_filter_None_2. by left.
    + intros id req Hx. eapply Hp, Hsub, Hx.
    + intros name t Hat. cbn [best]. unfold slot. cbn [ips]. rewrite lookup_omap.
      pose proof (Hs name t Hat) as Hst. unfold slot in Hst. destruct (ips s !! name) as [r|]; [|done]. cbn [mbind option_bind] in *. unfold default, id in Hst.
      unfold cleaned. destruct Hat as [-> | ->]; apply unexpired_same in Hst;
        destruct (unexpired now' (A r)), (unexpired now' (AAAA r)); done.
Qed.

Lemma slot_update s name r name' t :
  asks t -> slot (updateIP name r s).1 name' t =
    if decide (name' = name) then
      let new := match t with TypeA => A r | _ => AAAA r end in
      if isNewer (slot s name t) new then new else slot s name t
    else slot s name' t.
Proof.
  intros Ht. unfold updateIP, slot. cbn [fst ips]. case_decide as Hn; [subst name'|].
  - destruct (isNewer _ (A r) || isNewer _ (AAAA r)) eqn:Hu.
    + rewrite lookup_insert_eq. cbn [default]. by destruct Ht as [-> | ->].
    + apply orb_false_iff in Hu as [H1 H2]. by destruct Ht as [-> | ->]; rewrite ?H1, ?H2.
  - destruct (_ || _); [by rewrite lookup_insert_ne|done].
Qed.

Lemma accept_tracks log now s r now' :
  tracks log now s -> now <= now' ->
  tracks (match requests s !! ReqID r with Some req => [Answered (ReqID r) req r] | None => [] end ++ log) now' (accept r s).1.
Proof.
  intros Ht Hle. apply (tracks_later _ _ now') in Ht as [Hr Hp Hs]; [|done]. unfold accept.
  destruct (requests s !! ReqID r) as [req|] eqn:Hq; [|by split]. cbn [app].
  destruct (Hp (ReqID r) req) as [Hd Ha]; [by rewrite <- Hr|].
  assert (Hrec : is_Some (A (record_for (reqType req) r)) \/ is_Some (AAAA (record_for (reqType req) r))).
  { destruct Ha as [-> | ->]; cbn; eauto. }
  rewrite decide_True by done. set (s1 := mkServer _ _ _ _).
  assert (Hreq : forall x rec, requests (updateIP x rec s1).1 = delete (ReqID r) (requests s)) by done.
  split.
  - intros id. rewrite Hreq. cbn [pending]. case_decide as Hid; [subst id; apply lookup_delete_eq|]. by rewrite lookup_delete_ne.
  - intros id req'. cbn [pending]. case_decide; [done|apply Hp].
  - intros name t Hat. cbn [best].
    rewrite (slot_update s1 (domain req) (record_for (reqType req) r) name t Hat).
    assert (Hslot : forall n x, slot s1 n x = slot s n x) by done.
    case_decide as Hn; [subst name|].
    + cbv zeta. rewrite !Hslot. destruct (decide (reqType req = t)) as [Heq|Hne].
      * rewrite decide_True by done. rewrite Heq. pose proof (newer_same now' _ _ r (Hs (domain req) t Hat)) as Hnew.
        by destruct Hat as [-> | ->].
      * rewrite decide_False by tauto. destruct Hat as [-> | ->], Ha as [Ha|Ha]; rewrite Ha in *; try done; cbn [record_for A AAAA isNewer];
          apply Hs; solve [by left|by right].
    + rewrite Hslot, decide_False by (intros [? ?]; congruence). by apply Hs.
Qed.

Lemma receive_tracks log now s payload now' :
  tracks log now s -> now <= now' -> tracks (events (Receive payload now') s ++ log) now' (step (Receive payload now') s).
Proof.
  intros Ht Hle. cbn [events step]. unfold HandleResponse. destruct (parseResponse payload now') as [[r| |]|].
  - by eapply accept_tracks.
  - by eapply tracks_later.
  - by eapply tracks_later.
  - by eapply tracks_later.
Qed.

Lemma reached_tracks log now s : reached log now s -> tracks log now s.
Proof.
  induction 1 as [a now|log now s o Hr IH Hle].
  - split; [|done|].
    + intros id. apply lookup_empty.
    + intros name t Ht. left. unfold slot. cbn [ips NewClassicNameServer]. rewrite lookup_empty. by destruct Ht as [-> | ->].
  - destruct o as [name clientIP option now'|payload now'|now']; cbn [time] in *.
    + eapply tracks_later; [by apply (send_tracks log now)|done].
    + by apply (receive_tracks log now).
    + by apply (clean_tracks log now).
Qed.

(** Every answer of the log was to a question asked and not yet answered. *)
Lemma reached_answered log now s l id req r l' :
  reached log now s -> log = l ++ Answered id req r :: l' -> pending l' id = Some req /\ id = ReqID r.
Proof.
  intros Hr. revert l. induction Hr as [a now|log now s o Hr IH Hle]; intros l Hl; [by destruct l|].
  assert (Hcut : forall es, Forall (fun e => forall i q x, e <> Answered i q x) es ->
    es ++ log = l ++ Answered id req r :: l' -> pending l' id = Some req /\ id = ReqID r).
  { intros es Hes. clear Hl. revert l. induction Hes as [|e es He Hes IHes]; intros l Heq; [by apply (IH l)|].
    destruct l as [|e' l]; cbn in Heq; injection Heq as -> Heq; [by destruct (He id req r)|]. by apply (IHes l). }
  destruct o as [name clientIP option now'|payload now'|now']; cbn [events] in Hl.
  - refine (Hcut _ _ Hl).
    destruct (opts ← genEDNS0Options clientIP; _) as [[n reqs]| |]; [|constructor..].
    apply Forall_reverse, Forall_map, Forall_forall. done.
  - destruct (parseResponse payload now') as [[r0| |]|]; try by apply (Hcut [] ltac:(constructor)).
    destruct (requests s !! ReqID r0) as [req0|] eqn:Hq; [|by apply (Hcut [] ltac:(constructor))].
    destruct l as [|e l]; cbn in Hl; [injection Hl as <- <- <- <-|injection Hl as _ Hl; by apply (IH l)].
    split; [|done]. by rewrite <- (k_requests _ _ _ (reached_tracks _ _ _ Hr)).
  - apply (Hcut [Swept now']); [by repeat constructor|done].
Qed.

(** ** The theorems *)


Lemma best_logged log name t r :
  best log name t = Some r ->
  exists before id req after, log = before ++ Answered id req r :: after /\ domain req = name /\ reqType req = t.
Proof.
  induction log as [|e log IH]; [done|]. intros Hb.
  assert (Hrest : best log name t = Some r ->
    exists before id req after, e :: log = before ++ Answered id req r :: after /\ domain req = name /\ reqType req = t).
  { intros H. destruct (IH H) as (b & i & q & a & -> & ?). by exists (e :: b), i, q, a. }
  destruct e as [i q|i q x|n]; cbn [best] in Hb; try by apply Hrest.
  case_decide as Hd; [|by apply Hrest]. destruct (isNewer _ _); [|by apply Hrest].
  injection Hb as ->. by exists [], i, q, log.
Qed.

Lemma getIPs_Ok r now l : getIPs r now = Ok l -> exists x, r = Some x /\ rec_IP x = l /\ now <= Expire x /\ RCode x = RCodeSuccess.
Proof.
  destruct r as [x|]; [|done]. cbn. destruct (Z.ltb_spec (Expire x) now); [done|]. case_decide as Hd; [done|].
  intros [= <-]. exists x. split; [done|]. split; [done|]. split; [done|]. by destruct (decide (RCode x = RCodeSuccess)).
Qed.

Lemma family_elem enabled r now acc err a :
  a ∈ (family enabled r now acc err).1 -> a ∈ acc \/ (enabled = true /\ exists l, getIPs r now = Ok l /\ a ∈ l).
Proof.
  unfold family. destruct enabled; [|by left]. destruct (getIPs r now) as [l| |]; cbn; [|by left..].
  rewrite elem_of_app. intros [?|?]; [by left|right]. eauto.
Qed.

Lemma toNetIP_elem l ips ip : toNetIP (map Some l) = Ok ips -> ip ∈ ips -> exists a, a ∈ l /\ IP a = Ok ip.
Proof.
  revert ips. induction l as [|a l IH]; intros ips; cbn [map toNetIP or_panic mbind res_bind]; [intros [= <-] ?%elem_of_nil; done|].
  destruct (IsIP (Family a)); [|done]. destruct (IP a) as [x| |] eqn:Hx; [|done..]. cbn [mbind res_bind].
  destruct (toNetIP (map Some l)) as [rest| |]; [|done..]. intros [= <-] [->|Hin]%elem_of_cons.
  - exists a. split; [by left|done].
  - destruct (IH rest eq_refl Hin) as (a' & ? & ?). exists a'. split; [by right|done].
Qed.

Lemma answer_of_elem r option now ips ip :
  answer_of r option now = Ok ips -> ip ∈ ips ->
  exists a x, IP a = Ok ip /\ a ∈ rec_IP x /\ now <= Expire x /\ RCode x = RCodeSuccess /\
    ((IPv4Enable option = true /\ A r = Some x) \/ (IPv6Enable option = true /\ AAAA r = Some x)).
Proof.
  unfold answer_of. pose proof (family_elem (IPv4Enable option) (A r) now [] None) as H4.
  destruct (family _ (A r) now [] None) as [l4 e4]. pose proof (family_elem (IPv6Enable option) (AAAA r) now l4 e4) as H6.
  destruct (family _ (AAAA r) now l4 e4) as [l6 e6]. cbn [fst] in *.
  intros Ha Hip. assert (Hl : toNetIP (map Some l6) = Ok ips) by (by destruct l6; [destruct e6|]).
  destruct (toNetIP_elem _ _ _ Hl Hip) as (a & Hin & HIP).
  destruct (H6 a Hin) as [Hin4|(Hv & l & Hg & Hal)].
  - destruct (H4 a Hin4) as [[]%elem_of_nil|(Hv & l & Hg & Hal)].
    apply getIPs_Ok in Hg as (x & ? & <- & ? & ?). exists a, x. auto 10.
  - apply getIPs_Ok in Hg as (x & ? & <- & ? & ?). exists a, x. auto 10.
Qed.

(** C23. The cache of a UDP name server is its log: whatever was sent, answered and
    cleaned up since it was new, in any order and with times that do not decrease, a
    lookup in the cache that asks for IPv4, IPv6 or both gives, at any later time, what
    the log gives - for each family asked for the addresses of the accepted answer that
    expires last, unless it has expired or is an error - and the error that sends the
    query to the server exactly when the log gives it.  An answer is accepted when its
    ID is that of a pending question. *)
Theorem udp_cache_refines log t s name option now
    (Hr : reached log t s) (Hn : t <= now) (Hv : Option_IsValid option = true) :
  findIPsForDomain s name option now = answer_from log name option now.
Proof. eapply find_tracks; [by apply reached_tracks|done|done]. Qed.

(** An address from the cache is one a server gave: in an answer that was
    accepted to a question about this very domain and family, asked before and
    not answered in between, that has not expired and reports success.  A
    response to no pending question, or a second one, changes nothing. *)
Theorem udp_answers_asked log t s name option now ips ip
    (Hr : reached log t s) (Hn : t <= now) (Hf : findIPsForDomain s name option now = Ok ips) (Hip : ip ∈ ips) :
  exists before after req r a, log = before ++ Answered (ReqID r) req r :: after /\ pending after (ReqID r) = Some req /\
    domain req = name /\
    ((IPv4Enable option = true /\ reqType req = TypeA) \/ (IPv6Enable option = true /\ reqType req = TypeAAAA)) /\
    now <= Expire r /\ RCode r = RCodeSuccess /\ a ∈ rec_IP r /\ IP a = Ok ip.
Proof.
  pose proof (reached_tracks _ _ _ Hr) as Ht. destruct (Option_IsValid option) eqn:Hv.
  2: { exfalso. unfold findIPsForDomain, answer_of, family in Hf. apply orb_false_iff in Hv as [H4 H6]. rewrite H4, H6 in Hf. by destruct (DnsCache.ips s !! name). }
  rewrite (find_tracks log t s name option now Ht Hn Hv) in Hf.
  destruct (answer_of_elem _ _ _ _ _ Hf Hip) as (a & x & HIP & Ha & He & Hc & Hfam).
  assert (Hb : exists ty, best log name ty = Some x /\
    ((IPv4Enable option = true /\ ty = TypeA) \/ (IPv6Enable option = true /\ ty = TypeAAAA))) by naive_solver.
  destruct Hb as (ty & Hb & Hty). destruct (best_logged _ _ _ _ Hb) as (before & id & req & after & Hl & Hd & Ht').
  destruct (reached_answered _ _ _ _ _ _ _ _ Hr Hl) as [Hp ->].
  exists before, after, req, x, a. rewrite Ht'. auto 10.
Qed.
End Log.

(** ** Answers: the loop ends, and no record lives longer than ten minutes *)
Section Parse.
Context `{DMO : DnsMessageOk}.

Lemma min_expire_le r e : Expire (min_expire r e) <= Expire r.
Proof. unfold min_expire. destruct (Z.ltb_spec e (Expire r)); [cbn; lia|done]. Qed.

Lemma add_ip_expire r ip r' : add_ip r ip = Ok r' -> Expire r' = Expire r /\ ReqID r' = ReqID r.
Proof. unfold add_ip. destruct (IPAddress ip); [|done]. by intros [= <-]. Qed.

Lemma min_expire_id r e : ReqID (min_expire r e) = ReqID r.
Proof. unfold min_expire. by destruct (_ <? _). Qed.

Lemma parse_answers_ends fuel p now r :
  (p_left p < fuel)%nat ->
  exists x, parse_answers fuel p now r = Some x /\ forall r', x = Ok r' -> Expire r' <= Expire r /\ ReqID r' = ReqID r.
Proof.
  revert p r. induction fuel as [|fuel IH]; intros p r Hf; [lia|]. cbn [parse_answers].
  pose proof (pAnswerHeader_left p) as Hh. destruct (pAnswerHeader p) as [p1 [[t ttl]| |]]; [|eexists; split; [done|]..].
  2: by intros r' [= <-].
  2: done.
  cbn [fst] in Hh. set (r1 := min_expire r _). pose proof (min_expire_le r (now + (if ttl =? 0 then 600 else ttl) * second)) as Hle.
  pose proof (min_expire_id r (now + (if ttl =? 0 then 600 else ttl) * second)) as Hid. fold r1 in Hle, Hid.
  assert (Hgo : forall p2 r2, (p_left p2 < p_left p1)%nat -> Expire r2 = Expire r1 /\ ReqID r2 = ReqID r1 ->
    exists x, parse_answers fuel p2 now r2 = Some x /\ forall r', x = Ok r' -> Expire r' <= Expire r /\ ReqID r' = ReqID r).
  { intros p2 r2 Hp2 [He Hi]. destruct (IH p2 r2) as (x & Hx & Hb); [lia|]. exists x. split; [done|]. intros r' ->.
    destruct (Hb r' eq_refl). split; [lia|congruence]. }
  assert (Hstop : exists x, Some (Ok r1) = Some x /\ forall r', x = Ok r' -> Expire r' <= Expire r /\ ReqID r' = ReqID r).
  { eexists. split; [done|]. by intros r' [= <-]. }
  assert (Hpanic : exists x, Some (@Panic IPRecord) = Some x /\ forall r', x = Ok r' -> Expire r' <= Expire r /\ ReqID r' = ReqID r).
  { by eexists. }
  destruct t.
  - destruct (pAResource p1) as [p2 [ip| |]] eqn:Hr; [|done..].
    destruct (add_ip r1 ip) as [r2| |] eqn:Ha; [apply Hgo; [by eapply pAResource_left|by eapply add_ip_expire]|by eexists|done].
  - destruct (pAAAAResource p1) as [p2 [ip| |]] eqn:Hr; [|done..].
    destruct (add_ip r1 ip) as [r2| |] eqn:Ha; [apply Hgo; [by eapply pAAAAResource_left|by eapply add_ip_expire]|by eexists|done].
  - destruct (pSkipAnswer p1) as [p2 [[]| |]] eqn:Hr; [|done..]. apply Hgo; [by eapply pSkipAnswer_left|done].
Qed.

(** Reading a response ends, whatever the payload, for a parser that gets
    nearer to the end of the section with every answer it gives or skips; the
    record it makes expires within ten minutes. *)
Theorem parseResponse_ends payload now :
  exists x, parseResponse payload now = Some x /\
    forall r, x = Ok r -> Expire r <= now + 600 * second.
Proof.
  unfold parseResponse. destruct (pStart payload) as [[p [id rcode]]| |]; [|by eexists..].
  destruct (pSkipAllQuestions p) as [p1 [[]| |]]; [|by eexists..].
  destruct (parse_answers_ends (S (p_left p1)) p1 now (mkIPRecord id [] (now + 600 * second) rcode)) as (x & -> & Hx); [lia|].
  exists x. split; [done|]. intros r ->. apply (Hx r eq_refl).
Qed.
End Parse.

(** ** A query although the cache is disabled is answered from the cache *)
Section Disabled.
Context `{DM : DnsMessage}.

Lemma foldl_pending_ips reqs now s : ips (foldl (fun s req => addPendingRequest req now s) s reqs) = ips s.
Proof. revert s. induction reqs as [|req reqs IH]; intros s; [done|]. cbn [foldl]. by rewrite IH. Qed.

Lemma disabled_cache_answers name clientIP option now wakes s l sent :
  (sendQuery (Fqdn name) clientIP option now s).2 = Ok sent ->
  findIPsForDomain s (Fqdn name) option now = Ok l ->
  (QueryIP name clientIP option true now wakes s).2 = Some (Ok l).
Proof.
  intros Hsent Hf. unfold QueryIP.
  assert (Hips : ips (sendQuery (Fqdn name) clientIP option now s).1 = ips s).
  { unfold sendQuery. destruct (mbind _ _) as [[n reqs]| |]; [|done..]. cbn [fst]. by rewrite foldl_pending_ips. }
  destruct (sendQuery (Fqdn name) clientIP option now s) as [s1 [sent1| |]]; [|done..]. cbn [fst snd] in *.
  assert (Hf1 : findIPsForDomain s1 (Fqdn name) option now = Ok l) by (unfold findIPsForDomain in *; by rewrite Hips).
  destruct wakes; cbn [query_loop]; by rewrite Hf1.
Qed.
End Disabled.

(** ** A small parser: the id, then answers of one byte for the type and four of
    address *)
#[local] Instance demo_message : DnsMessage := {|
  Parser := bytes;
  pStart := fun p => match p with id :: p => Ok (p, (b2z id, 0)) | [] => Err EOF end;
  pSkipAllQuestions := fun p => (p, Ok tt);
  pAnswerHeader := fun p => (p, match p with t :: _ => Ok (if b2z t =? 1 then TypeA else TypeOther 5, 60) | [] => Err EOF end);
  pAResource := fun p => if zlen p <? 5 then (p, Err EOF) else (drop 5 p, Ok (take 4 (drop 1 p)));
  pAAAAResource := fun p => (p, Err EOF);
  pSkipAnswer := fun p => if zlen p <? 5 then (p, Err EOF) else (drop 5 p, Ok tt);
  p_left := length;
  name_fits := fun name => zlen name <=? 255 |}.

#[local] Instance demo_message_ok : DnsMessageOk.
Proof.
  split.
  - done.
  - intros p a p'. cbn. destruct (Z.ltb_spec (zlen p) 5) as [|Hl]; [done|]. intros [= <- _]. unfold zlen in Hl. rewrite length_drop. lia.
  - done.
  - intros p p'. cbn. destruct (Z.ltb_spec (zlen p) 5) as [|Hl]; [done|]. intros [= <-]. unfold zlen in Hl. rewrite length_drop. lia.
Qed.

Definition demo_dest : Destination := mkDest (Some (ipv4Address (map z2b [8; 8; 8; 8]))) 0 Network_UDP.
Definition demo_ops : list op :=
  [Send (lit "a.org") [] (mkOpt true true false) 0; Receive (map z2b [1; 1; 10; 0; 0; 7]) second;
   Receive (map z2b [1; 1; 6; 6; 6; 6]) (2 * second); Clean (3 * second)].

(** The run of some operations, with its log. *)
Fixpoint run (os : list op) (x : list event * ClassicNameServer) : list event * ClassicNameServer :=
  match os with
  | [] => x
  | o :: os => run os (events o x.2 ++ x.1, step o x.2)
  end.

Lemma run_reached os log now s :
  reached log now s -> Sorted Z.le (now :: map time os) ->
  exists t, reached (run os (log, s)).1 t (run os (log, s)).2 /\ (t = now \/ exists o, o ∈ os /\ t = time o).
Proof.
  revert log now s. induction os as [|o os IH]; intros log now s Hr Hs; [exists now; auto|].
  cbn [map] in Hs. apply Sorted_inv in Hs as [Hs Hh]. inversion Hh; subst.
  destruct (IH (events o s ++ log) (time o) (step o s)) as (t & Ht & Hin); [by apply (reached_step _ now)|done|].
  exists t. split; [exact Ht|]. right. destruct Hin as [->|(o' & ? & ->)]; [exists o|exists o']; split; try done; by constructor.
Qed.

Definition demo_end := run demo_ops ([], NewClassicNameServer demo_dest).

Lemma demo_reached : exists t, reached demo_end.1 t demo_end.2 /\ t <= 3 * second.
Proof.
  destruct (run_reached demo_ops [] 0 (NewClassicNameServer demo_dest)) as (t & Ht & Hin).
  - apply reached_new.
  - repeat constructor; unfold second; cbn; lia.
  - exists t. split; [exact Ht|]. destruct Hin as [->|(o & Ho & ->)]; [unfold second; lia|].
    unfold demo_ops in Ho. rewrite !elem_of_cons in Ho. destruct Ho as [->|[->|[->|[->|[]%elem_of_nil]]]]; cbn [time]; unfold second; lia.
Qed.

Lemma udp_cache_refines_witness :
  findIPsForDomain demo_end.2 (lit "a.org.") (mkOpt true false false) (4 * second) = Ok [map z2b [10; 0; 0; 7]] /\
  answer_from demo_end.1 (lit "a.org.") (mkOpt true false false) (4 * second) = Ok [map z2b [10; 0; 0; 7]].
Proof.
  split; [vm_compute; reflexivity|]. destruct demo_reached as (t & Hr & Ht).
  rewrite <- (udp_cache_refines demo_end.1 t demo_end.2 (lit "a.org.") (mkOpt true false false) (4 * second) Hr);
    [vm_compute; reflexivity|unfold second in *; lia|reflexivity].
Defined.

Lemma udp_answers_asked_witness :
  exists before after req r, demo_end.1 = before ++ Answered (ReqID r) req r :: after /\ pending after (ReqID r) = Some req.
Proof.
  destruct demo_reached as (t & Hr & Ht).
  destruct (udp_answers_asked demo_end.1 t demo_end.2 (lit "a.org.") (mkOpt true false false) (4 * second)
    [map z2b [10; 0; 0; 7]] (map z2b [10; 0; 0; 7]) Hr) as (before & after & req & r & a & Hl & Hp & _);
    [unfold second in *; lia|vm_compute; reflexivity|by left|].
  exists before, after, req, r. split; [exact Hl|exact Hp].
Defined.

Lemma parseResponse_ends_witness :
  exists x, parseResponse (map z2b [1; 1; 10; 0; 0; 7; 1; 2]) 0 = Some x /\ forall r, x = Ok r -> Expire r <= 600 * second.
Proof. apply (parseResponse_ends (map z2b [1; 1; 10; 0; 0; 7; 1; 2]) 0). Defined.
